(* ===== verification/_CoqProject ===== *)
-Q . S2P
Prelude.v
Bitmap.v
CString.v
Arith.v
StdLib.v
SortLaws.v
StdIo.v
StdIoLaws.v
LinkedList.v
LinkedListLaws.v
LinkedListOps.v
LinkedListSort.v
LinkedListSpec.v
Hash.v
HashLaws.v
HashOps.v
HashSpec.v
Block.v
Palloc.v
PallocSpec.v
PageDir.v
PageDirLaws.v
Frames.v
PageDirSpec.v
Malloc.v
MallocLaws.v
MallocSpec.v
FreeSpec.v
HeapSpec.v
Vm.v
Evict.v
VmLaws.v
EvictLaws.v
Clock.v
Restore.v
SupplPage.v
Grow.v
LoadFile.v
FileMapping.v
VmSpec.v
VmScenarios.v
Cache.v
Handles.v
Fs.v
Inode.v
InodeTree.v
InodeIO.v
File.v
FreeMap.v
FreeMapLaws.v
InodeGrow.v
InodeWrite.v
Directory.v
DirectoryLaws.v
SmallDisk.v
Filesys.v
FsScenarios.v
FixedPoint.v
Kernel.v
Sched.v
Synch.v
Spawn.v
KernelLaws.v
SchedLaws.v
SleepLaws.v
Donation.v
LockLaws.v
LockSpec.v
Scenarios.v
Tokenizer.v
TokenizerSpec.v
Parser.v
ShellSpec.v
ShellScenarios.v
Containers.v
ContainersSpec.v
ShellContext.v
ContextSpec.v
Syscall.v
SyscallSpec.v
