(* ===== verification/Prelude.v ===== *)
(** * A verification of the kernels in os_projects

    The repository holds six course projects: a shell (Project1), four versions
    of the Pintos kernel, each with one more part done (Project2: threads;
    Project3: user programs; Project4: virtual memory; Project5: the file
    system), and a web server (Project6).  This development models parts of
    three of them and proves what they are for: of Project5 the file system, the
    virtual memory, the system calls, the heap, and the libraries they stand on; of Project2 the
    threads; of Project1 the tokenizer, the parser and the tables of the shell.

    ** How the parts interact

    File system, from the bottom up.  devices/block.c reads and writes sectors
    of 512 bytes.  filesys/cache.c keeps 64 of them in memory: a caller takes a
    sector, works on its bytes and releases it as changed or not.
    filesys/inode.c keeps a file as a tree of sectors, two levels of index
    sectors below the inode's own one, and gets new sectors from
    filesys/free-map.c, whose bitmap (lib/kernel/bitmap.c) is itself a file that
    it writes through inode.c.  filesys/file.c adds a position,
    filesys/directory.c reads and writes a file as an array of names, and
    filesys/filesys.c resolves paths.

    Memory.  threads/palloc.c gives out pages of two pools.  threads/malloc.c
    cuts pages of the kernel's pool into blocks.  userprog/pagedir.c keeps the
    page tables of a process in pages of the same pool.  A process has one
    supplemental page for each of its pages (vm/supplemental_page.c), which says
    whether the page is in a frame of the user pool, in a slot of the swap
    (vm/swap.c), in a file (vm/file_mapping.c), or not there yet.  When no frame
    is left, vm/vm_util.c evicts a page to where it can come back from, and
    page_fault (userprog/exception.c) brings it back.

    System calls.  userprog/syscall.c checks the addresses that a process
    passes, page by page, against its page tables and supplemental pages, and
    runs the operation on the file system through the process's table of
    descriptors (threads/thread.c of Project5).

    Threads.  threads/thread.c has the queues of ready and sleeping threads and
    switches between threads; threads/synch.c builds semaphores, locks that
    donate priority and condition variables on [thread_block] and
    [thread_unblock]; the timer interrupt (devices/timer.c,
    threads/interrupt.c) wakes sleepers and ends time slices.

    Shell.  tokenizer.c cuts a string at delimiters, jumping over what is
    ignored and replacing escape sequences.  input_parser.c runs it four times:
    a line is cut at semicolons, a sequence at && and ||, a pipeline at |, and
    a command, by parser_util.c, into words and quoted strings.  Variables,
    aliases and built-in functions are in three sets (context.c, hashset.c) whose
    buckets are vectors (vector.c); functions_runner.c changes them.

    ** The files

    Each operation is a definition with the name of the C function, and a comment
    in front of it says which lines it models.

    - Prelude: outcomes (a value, a failed [ASSERT], a fault, ...), the state
      monad [M] over them, C integers, arrays, bytes and words, splicing.
    - Bitmap: lib/kernel/bitmap.c on an array of words.
      [scan_and_flip_takes_first_run] is the specification of allocation,
      [bitmap_file_roundtrip] that of the bitmap's file.
    - CString: lib/string.c on a flat memory of bytes: [strtok_r] against the
      splitting of a string into tokens, overlapping [memmove], bounded copies.
    - Arith: lib/arithmetic.c; the quotients are exact ([division_exact]), and
      the remainders lose their upper halves.
    - StdLib: lib/stdlib.c on the memory of CString.  SortLaws: the heap sort
      sorts for any order ([qsort_sorts]), and binary search finds.
    - StdIo: lib/stdio.c, for any effect of printing a character.  StdIoLaws:
      vsnprintf keeps to its buffer, atoi reads back what is printed.
    - LinkedList: lib/kernel/list.c on a heap of list elements, pointer by
      pointer, in both directions.  LinkedListLaws: what the links represent, and
      insertion, removal and splicing.  LinkedListOps: the other operations.
      LinkedListSort: the natural merge sort and its parts, for any [WeakOrder].
      LinkedListSpec: a list is a sequence ([list_refines_sequence]); sorting
      terminates, sorts and is stable.
    - Hash: lib/kernel/hash.c on those lists, for any functions [hash] and
      [less], with the answers of malloc in the state.  HashLaws: the number of
      buckets that rehashing chooses, many lists in one memory, and moving all
      elements into a new array of buckets.  HashOps: finding,
      inserting and removing in one bucket, emptying.  HashSpec: for functions
      that agree ([Hashable]) a table is a set of elements
      ([hash_refines_set]); its iterators.
    - Palloc: threads/palloc.c, two pools of pages on two bitmaps, and the bytes
      of the kernel's memory.  PallocSpec: the pools after [palloc_init]; pages
      have one owner at a time ([palloc_refines_ownership]), and giving back
      what is not owned stops the kernel.
    - Malloc: threads/malloc.c on Palloc.  MallocLaws: the invariant of arenas
      and free blocks.  MallocSpec: malloc; FreeSpec: free.  HeapSpec: blocks in
      use are apart and keep their bytes ([heap_refines_blocks]), no page is
      kept without a block in use ([heap_returns_pages]), and what happens when
      a size wraps around.
    - PageDir: threads/pte.h and userprog/pagedir.c on the pages of Palloc, and
      the translation that the processor makes.  PageDirLaws: words, fields and
      tables in memory.  PageDirSpec: page directories are independent maps,
      and destroying one gives back its frames and tables.
    - Vm, Evict, SupplPage, FileMapping: the state of virtual memory and the
      operations of vm/, with page_fault and the system calls mmap and munmap.
      They are written for any files, and proved against the class [FileLaws] of
      VmLaws, which VmScenarios proves of flat byte arrays.  Frames: user pages,
      page tables and the processor; also the frames that a page directory owns.  VmLaws: the slots of the
      swap, the invariant, and what a page holds wherever it is.  EvictLaws, Clock:
      evicting one page, and choosing it.  Restore, Grow, LoadFile: a page comes
      from the swap, is new, or comes from its file.  VmSpec: eviction loses
      nothing, and a page fault brings the bytes back.  VmScenarios: a machine
      of 300 pages, and the runs that lose data.
    - Block, Cache: the device and the sector cache.  [cache_refines_array]: the
      cache with its eviction behaves like the plain array of sectors;
      [flush_survives_reboot]: flushing makes the device that array.
      Handles: the protocol by which inode.c uses the cache.
    - Fs, Inode, File, FreeMap: the state of the file system and the operations
      of inode.c, file.c and free-map.c.  inode.c is written against the class
      [FreeMapOps], and proved against the class [FreeMapLaws], which
      FreeMapLaws proves of the free map that free-map.c makes of a file.
      InodeTree: the shape of the tree and how it grows.  InodeIO: reading and
      overwriting, and what is there after a reboot ([write_survives_reboot]).  InodeGrow: one more sector.  InodeWrite: writing past the
      end.  In each the file is the list of its bytes.
    - Directory, DirectoryLaws: directories; what is added is found.
    - Filesys: paths, formatting, creating, opening and removing.
      FsScenarios: whole runs on a device of 64 sectors.  SmallDisk: a disk of 16
      sectors on which the theorems about inodes and directories are applied.
    - Syscall: userprog/syscall.c, with the descriptors of threads/thread.c, on
      virtual memory and any files that have the operations of the class
      [SysFiles]; the file system of Filesys is one instance.  SyscallSpec: bad
      pointers end the process, those into pages that are paged out included; buffers are filled and saved byte by byte,
      descriptors are a finite map; a process with a page of stack and a file.
    - FixedPoint: threads/fixed_point.h.  Kernel: the record of the kernel's
      variables, and the resumptions [K] for code that may give up the
      processor: a call finishes, or stops with the code it goes on with.
      Sched, Synch, Spawn: thread.c, synch.c and the timer interrupt; thread
      creation, and the machine that runs the threads in turn.
    - KernelLaws: [ksafe], what code that gives up the processor guarantees if
      the other threads keep an invariant.  SchedLaws: which thread runs next,
      and when one is preempted.  SleepLaws: the queue of sleepers, with either scheduler.  Donation:
      priority donation along chains, and taking it back.
      LockLaws, LockSpec: no operation of one thread touches a lock that another
      one holds.  Scenarios: small systems of threads, the theorems applied to
      them, and programs that go wrong.
    - Tokenizer: tokenizer.c.  TokenizerSpec: the relation [lexed] of one step;
      the tokens and delimiters make up the string
      ([tokens_make_up_the_string]).
    - Parser: parser_util.c and input_parser.c on it.  ShellSpec: the words of a
      command, the commands of a pipeline, the meaning of a line
      ([shell_runs_line]).  ShellScenarios: lines that go wrong.
    - Containers: vector.c and hashset.c on blocks of bytes.  ContainersSpec: a
      vector is a list ([vector_refines_list]); a hashset, proved against the
      class [ElemLaws] of what its client's functions do, keeps one element for
      each key.  ShellContext: context.c and the commands that use its tables.
      ContextSpec: instances of [ElemLaws] for strings in a heap; the tables are
      maps from names without regard to case ([shell_tables_are_maps]).

    ** How the state corresponds to the code

    A pointer is an address: a [nat] or [Z] that a finite map takes to the object,
    so that aliasing is kept; null is [None] or 0.  A C [int] is a [Z] and the
    wrap-around is written out ([s32], [u32]).  Where the code keeps a list of
    threads, inodes or blocks, the model of that component has a Coq list in the
    same order; that list.c implements such lists is LinkedListSpec.  Calls of
    [malloc], [calloc] and [palloc_get_page] in the components above take their
    results from the state, so that failure is covered where the code tests for
    it; the theorems about the shell's containers ask for memory, since without it
    they stop.  In Containers an [int] that overflows is a fault.  The file system, the heap and virtual memory are run by one thread, with locks
    that fail when they could not be acquired; the threads are run one at a
    time, and give up the processor where the code switches, with interrupts off
    in between, as the code has them.

    ** Recursion bounds

    Loops that the code bounds itself are structural.  Others take fuel: the
    sectors of a read or write (enough for the sectors that [size] bytes touch),
    the entries of a directory, the passes of [list_sort] (one more than the
    number of elements), the chain of donations (one more than the number of
    threads, which suffices even when threads wait in a cycle:
    [donate_raises_chain]), the descent of the heap sort (one more than the
    elements), the halving of an interval, the characters of a format and the
    digits of a number (65), the pages that the clock passes, the sizes of
    [malloc_init] (12), and the characters of a tokenizer's string (one or two
    more than there are).  Running out of fuel is the outcome [OutOfFuel],
    which the theorems exclude.  Only the wait for a semaphore, which may go on
    for ever, has a bound that a caller chooses.

    ** What is not modelled

    Interrupts do not arrive in the middle of an operation that runs with
    interrupts on; the concurrent use of the file system, of the heap and of
    virtual memory; the processor's cache of translations, and faults inside the
    kernel; the assembly of context switches, the devices behind the block
    layer, console and keyboard, which are hardware; starting programs and
    waiting for them, which enter and leave user mode (parameters of Syscall);
    page faults in the middle of a file operation on a user buffer, which Syscall
    copies in one piece; random numbers and archives (lib/random.c,
    lib/ustar.c), which only tests and the preparation of disks use; how the
    shell runs a command or a pipeline, and its built-in commands other than
    assignments and aliases, which are calls of the operating system; the web
    server of Project6, which is sockets and files of the operating system; the
    other copies that Project2 to Project5 have of the modelled files; tests,
    examples and documentation.

    What is left could be done along the same lines: userprog/process.c
    on Syscall, the partition table and input queue of devices/,
    and the concurrent use of the cache, which would need its locks as resources
    shared between threads. *)
From Stdlib Require Export ZArith Lia.
From stdpp Require Export base numbers list option gmap.

Declare Scope c_scope.
Delimit Scope c_scope with C.

(** ** Outcomes

    A kernel routine returns, or stops in one of the ways the code can stop:
    [Panic] is a failed [ASSERT] or a call of [PANIC], [Fault] an access
    through a pointer that is null or outside the object, [Blocked] a
    [sema_down] that no other thread will ever complete, and [OutOfFuel] the
    artefact of a recursion bound, which termination theorems exclude. *)
Inductive err : Set := Panic | Fault | Blocked | OutOfFuel.

Inductive outcome (A : Type) : Type :=
| Ret (a : A)
| Err (e : err).
Arguments Ret {A} a.
Arguments Err {A} e.

#[export] Instance err_eq_dec : EqDecision err.
Proof. solve_decision. Defined.
#[export] Instance outcome_eq_dec `{EqDecision A} : EqDecision (outcome A).
Proof. solve_decision. Defined.

Definition obind {A B} (m : outcome A) (f : A → outcome B) : outcome B :=
  match m with Ret a => f a | Err e => Err e end.

Notation "'let*' x := m 'in' k" := (obind m (λ x, k))
  (at level 10, x binder, m at level 200, k at level 200) : c_scope.
Notation "'let*' ' p := m 'in' k" := (obind m (λ x, match x with p => k end))
  (at level 10, p pattern, m at level 200, k at level 200) : c_scope.
Notation "m ;;; k" := (obind m (λ _, k))
  (at level 199, right associativity) : c_scope.
#[global] Open Scope c_scope.

(** [ASSERT (c)] of lib/debug.h. *)
Definition ASSERT (c : bool) : outcome unit := if c then Ret tt else Err Panic.

(** The result of an access that faults when the object has no such element. *)
Definition or_fault {A} (o : option A) : outcome A :=
  match o with Some a => Ret a | None => Err Fault end.

(** The result of a call that asserts there is such an element. *)
Definition or_panic {A} (o : option A) : outcome A :=
  match o with Some a => Ret a | None => Err Panic end.

(** ** State and outcome *)
Definition M (S A : Type) : Type := S → outcome (A * S).

Definition ret {S A} (a : A) : M S A := λ s, Ret (a, s).
Definition bind {S A B} (m : M S A) (f : A → M S B) : M S B := λ s,
  match m s with Ret (a, s') => f a s' | Err e => Err e end.

Notation "'let!' x := m 'in' k" := (bind m (λ x, k))
  (at level 10, x binder, m at level 200, k at level 200) : c_scope.
Notation "'let!' ' p := m 'in' k" := (bind m (λ x, match x with p => k end))
  (at level 10, p pattern, m at level 200, k at level 200) : c_scope.
Notation "m ;;! k" := (bind m (λ _, k))
  (at level 199, right associativity) : c_scope.

Definition get {S} : M S S := λ s, Ret (s, s).
Definition put {S} (s : S) : M S unit := λ _, Ret (tt, s).
Definition gets {S A} (f : S → A) : M S A := λ s, Ret (f s, s).
Definition modify {S} (f : S → S) : M S unit := λ s, Ret (tt, f s).
Definition throw {S A} (e : err) : M S A := λ _, Err e.
Definition lift {S A} (o : outcome A) : M S A := λ s,
  match o with Ret a => Ret (a, s) | Err e => Err e end.
Definition assertM {S} (c : bool) : M S unit := lift (ASSERT c).

(** A computation on a part of the state, through a getter and a setter. *)
Definition zoom {S T A} (getter : S → T) (setter : T → S → S) (m : M T A) : M S A :=
  λ s, match m (getter s) with
       | Ret (a, t) => Ret (a, setter t s)
       | Err e => Err e
       end.

(** [wp m Q s]: run from [s], the computation returns, and [Q] holds of what
    it returns and leaves. It is a total correctness statement. *)
Definition wp {S A} (m : M S A) (Q : A → S → Prop) (s : S) : Prop :=
  match m s with Ret (a, s') => Q a s' | Err _ => False end.

Section wp_rules.
Context {S : Type}.
Implicit Types s : S.

Lemma wp_ret {A} (a : A) Q s : Q a s → wp (ret a) Q s.
Proof. done. Qed.

Lemma wp_bind {A B} (m : M S A) (f : A → M S B) Q s :
  wp m (λ a, wp (f a) Q) s → wp (bind m f) Q s.
Proof. unfold wp, bind. by destruct (m s) as [[a s']|]. Qed.

Lemma wp_mono {A} (m : M S A) (Q Q' : A → S → Prop) s :
  wp m Q s → (∀ a s', Q a s' → Q' a s') → wp m Q' s.
Proof. unfold wp. destruct (m s) as [[a s']|]; auto. Qed.

Lemma wp_gets {A} (f : S → A) (Q : A → S → Prop) s : Q (f s) s → wp (gets f) Q s.
Proof. done. Qed.

Lemma wp_modify (f : S → S) (Q : unit → S → Prop) s : Q tt (f s) → wp (modify f) Q s.
Proof. done. Qed.

Lemma wp_lift {A} (a : A) o (Q : A → S → Prop) s :
  o = Ret a → Q a s → wp (lift o) Q s.
Proof. by intros ->. Qed.

Lemma wp_assert (c : bool) (Q : unit → S → Prop) s :
  c = true → Q tt s → wp (assertM c) Q s.
Proof. by intros ->. Qed.

Lemma wp_run {A} (m : M S A) Q s :
  wp m Q s ↔ ∃ a s', m s = Ret (a, s') ∧ Q a s'.
Proof.
  unfold wp. destruct (m s) as [[a s']|] eqn:E; split.
  - eauto.
  - intros (?&?&?&?); by simplify_eq.
  - done.
  - by intros (?&?&?&?).
Qed.

Lemma bind_run {A B} (m : M S A) (f : A → M S B) s a s' :
  m s = Ret (a, s') → bind m f s = f a s'.
Proof. unfold bind. by intros ->. Qed.

Lemma bind_assert {A} c (f : unit → M S A) s : c = true → bind (assertM c) f s = f tt s.
Proof. by intros ->. Qed.

Lemma bind_assoc {A B C} (m : M S A) (f : A → M S B) (g : B → M S C) s :
  bind (bind m f) g s = bind m (λ x, bind (f x) g) s.
Proof. unfold bind. by destruct (m s) as [[]|]. Qed.
End wp_rules.

(** The steps that cannot fail. *)
Lemma bind_gets {S A B} (f : S → A) (k : A → M S B) s : bind (gets f) k s = k (f s) s.
Proof. done. Qed.
Lemma bind_modify {S B} (f : S → S) (k : unit → M S B) s : bind (modify f) k s = k tt (f s).
Proof. done. Qed.
Lemma bind_ret {S A B} (a : A) (k : A → M S B) s : bind (ret a) k s = k a s.
Proof. done. Qed.
Lemma bind_lift {S A B} (a : A) (k : A → M S B) s : bind (lift (Ret a)) k s = k a s.
Proof. done. Qed.

Lemma wp_zoom {S T A} (g : S → T) (p : T → S → S) (m : M T A) Q s :
  wp m (λ a t, Q a (p t s)) (g s) → wp (zoom g p m) Q s.
Proof. unfold wp, zoom. by destruct (m (g s)) as [[a t]|]. Qed.

Lemma ret_bind {A B} (m : outcome A) (f : A → outcome B) a :
  m = Ret a → obind m f = f a.
Proof. by intros ->. Qed.

(** One step of symbolic execution of a monadic program under [wp]. *)
Ltac wp_step :=
  lazymatch goal with
  | |- wp (bind _ _) _ _ => apply wp_bind
  | |- wp (ret _) _ _ => apply wp_ret
  | |- wp (gets _) _ _ => apply wp_gets
  | |- wp (modify _) _ _ => apply wp_modify
  end.
Ltac wp_steps := repeat wp_step.

(** Linear arithmetic with division and remainder by constants. *)
Ltac mlia := Z.to_euclidean_division_equations; lia.

(** ** C integers of a 32-bit machine *)
Definition u32_max : Z := 4294967295.
Definition u32 (x : Z) : Z := x mod 4294967296.
Definition s32 (x : Z) : Z := (x + 2147483648) mod 4294967296 - 2147483648.
(** [~x] on an unsigned 32-bit operand. *)
Definition not32 (x : Z) : Z := Z.lxor x u32_max.
(** [(uint32_t) -1], the sector number and index the code uses for "none". *)
Definition NONE32 : Z := 4294967295.

Section ints.
Local Open Scope Z_scope.

Lemma u32_small x : 0 ≤ x < 4294967296 → u32 x = x.
Proof. intros. unfold u32. by rewrite Z.mod_small. Qed.

Lemma u32_range x : 0 ≤ u32 x < 4294967296.
Proof. unfold u32. apply Z.mod_pos_bound. lia. Qed.

Lemma s32_small x : -2147483648 ≤ x < 2147483648 → s32 x = x.
Proof. intros. unfold s32. rewrite Z.mod_small; lia. Qed.

Lemma s32_range x : -2147483648 ≤ s32 x < 2147483648.
Proof. unfold s32. pose proof (Z.mod_pos_bound (x + 2147483648) 4294967296). lia. Qed.
End ints.

(** ** Lists as arrays indexed by C integers *)
Section lists.
Context {A : Type}.
Implicit Types l : list A.
Local Open Scope Z_scope.

(** [l[i]], [None] out of range. *)
Definition nthZ l (i : Z) : option A :=
  if decide (0 ≤ i) then l !! Z.to_nat i else None.
(** [l[i] = x], [None] out of range. *)
Definition setZ l (i : Z) (x : A) : option (list A) :=
  if decide (0 ≤ i < Z.of_nat (length l)) then Some (<[Z.to_nat i := x]> l) else None.
(** Overwrites the elements of [l] from index [i] on with those of [k]. *)
Definition splice l (i : nat) (k : list A) : list A :=
  take i l ++ k ++ drop (i + length k) l.

Lemma nthZ_Some l i x : nthZ l i = Some x → 0 ≤ i < Z.of_nat (length l).
Proof.
  unfold nthZ. case_decide; [|done]. intros ?%lookup_lt_Some. lia.
Qed.

Lemma nthZ_lookup l i : 0 ≤ i → nthZ l i = l !! Z.to_nat i.
Proof. intros. unfold nthZ. by rewrite decide_True by lia. Qed.

Lemma nthZ_is_Some l i : 0 ≤ i < Z.of_nat (length l) → is_Some (nthZ l i).
Proof. intros. rewrite nthZ_lookup by lia. apply lookup_lt_is_Some. lia. Qed.

Lemma setZ_run l i x :
  0 ≤ i < Z.of_nat (length l) → setZ l i x = Some (<[Z.to_nat i := x]> l).
Proof. intros. unfold setZ. by rewrite decide_True by lia. Qed.

Lemma length_splice l i k : (i + length k ≤ length l)%nat → length (splice l i k) = length l.
Proof. intros. unfold splice. rewrite !length_app, length_take, length_drop. lia. Qed.

Lemma lookup_splice_new l i k j :
  (i + length k ≤ length l)%nat → (i ≤ j < i + length k)%nat →
  splice l i k !! j = k !! (j - i)%nat.
Proof.
  intros. unfold splice.
  rewrite lookup_app_r; rewrite length_take; [|lia].
  rewrite lookup_app_l by lia. f_equal. lia.
Qed.

Lemma lookup_splice_old l i k j :
  (i + length k ≤ length l)%nat → (j < i ∨ i + length k ≤ j)%nat →
  splice l i k !! j = l !! j.
Proof.
  intros. unfold splice. destruct (decide (j < i)%nat).
  - rewrite lookup_app_l by (rewrite length_take; lia). by rewrite lookup_take_lt.
  - rewrite lookup_app_r; rewrite length_take; [|lia].
    rewrite lookup_app_r by lia. rewrite lookup_drop. f_equal. lia.
Qed.

Lemma splice_nil l i : splice l i [] = l.
Proof. unfold splice. simpl. rewrite Nat.add_0_r. apply take_drop. Qed.

Lemma splice_splice l i k k' :
  (i + length k + length k' ≤ length l)%nat →
  splice (splice l i k) (i + length k) k' = splice l i (k ++ k').
Proof.
  intros. apply list_eq. intros j.
  destruct (decide (i ≤ j < i + length k + length k')%nat).
  - rewrite (lookup_splice_new l) by (rewrite length_app; lia).
    destruct (decide (j < i + length k)%nat).
    + rewrite lookup_splice_old; [|rewrite ?length_splice; lia|lia].
      rewrite lookup_splice_new, lookup_app_l by lia. done.
    + rewrite lookup_splice_new; [|rewrite ?length_splice; lia|lia].
      rewrite lookup_app_r by lia. f_equal. lia.
  - rewrite (lookup_splice_old l) by (rewrite length_app; lia).
    rewrite lookup_splice_old; [|rewrite ?length_splice; lia|lia].
    rewrite lookup_splice_old by lia. done.
Qed.

Lemma take_splice_ge l i k n : (n ≤ i)%nat → (i ≤ length l)%nat → take n (splice l i k) = take n l.
Proof.
  intros. unfold splice. rewrite take_app_le by (rewrite length_take; lia).
  rewrite take_take. f_equal. lia.
Qed.
End lists.

(** ** Bytes and little-endian words *)
Section bytes.
Local Open Scope Z_scope.

Definition byte (x : Z) : Prop := 0 ≤ x < 256.

(** The four bytes of a 32-bit word in memory. *)
Definition le32 (w : Z) : list Z :=
  [w mod 256; w / 256 mod 256; w / 65536 mod 256; w / 16777216 mod 256].

(** The word that four bytes of memory hold. *)
Definition unle32 (l : list Z) : Z :=
  match l with
  | b0 :: b1 :: b2 :: b3 :: _ => b0 + 256 * b1 + 65536 * b2 + 16777216 * b3
  | _ => 0
  end.

(** An array of words and its memory image. *)
Definition words_bytes (ws : list Z) : list Z := ws ≫= le32.
Fixpoint bytes_words (n : nat) (l : list Z) : list Z :=
  match n with
  | O => []
  | S n => unle32 l :: bytes_words n (drop 4 l)
  end.

Lemma le32_length w : length (le32 w) = 4%nat.
Proof. done. Qed.

Lemma le32_bytes w : Forall byte (le32 w).
Proof.
  unfold le32, byte. repeat (constructor; [apply Z.mod_pos_bound; lia|]). constructor.
Qed.

Lemma unle32_le32 w : 0 ≤ w < 4294967296 → unle32 (le32 w) = w.
Proof.
  intros. unfold unle32, le32.
  replace (w / 65536) with (w / 256 / 256) by (rewrite Z.div_div by lia; f_equal; lia).
  replace (w / 16777216) with (w / 256 / 256 / 256) by (rewrite !Z.div_div by lia; f_equal; lia).
  pose proof (Z.div_mod w 256). pose proof (Z.div_mod (w / 256) 256).
  pose proof (Z.div_mod (w / 256 / 256) 256).
  rewrite (Z.mod_small (w / 256 / 256 / 256)); [lia|].
  rewrite !Z.div_div by lia. split; [apply Z.div_pos; lia|apply Z.div_lt_upper_bound; lia].
Qed.

Lemma unle32_app l k : length l = 4%nat → unle32 (l ++ k) = unle32 l.
Proof. by destruct l as [|? [|? [|? [|? []]]]]. Qed.

Lemma unle32_range l : Forall byte l → 0 ≤ unle32 l < 4294967296.
Proof.
  unfold byte. destruct l as [|? [|? [|? [|? l]]]]; intros Hl; simpl; try lia.
  decompose_Forall_hyps. lia.
Qed.

Lemma le32_unle32 l : length l = 4%nat → Forall byte l → le32 (unle32 l) = l.
Proof.
  unfold byte. destruct l as [|a [|b [|c [|d []]]]]; intros Hlen Hl; try done.
  decompose_Forall_hyps. unfold le32, unle32.
  set (w := a + 256 * b + 65536 * c + 16777216 * d).
  assert (w / 256 = b + 256 * c + 65536 * d) as E1
    by (symmetry; apply (Z.div_unique _ _ _ a); lia).
  assert (w / 65536 = c + 256 * d) as E2
    by (symmetry; apply (Z.div_unique _ _ _ (a + 256 * b)); lia).
  assert (w / 16777216 = d) as E3
    by (symmetry; apply (Z.div_unique _ _ _ (a + 256 * b + 65536 * c)); lia).
  rewrite E1, E2, E3.
  f_equal; [symmetry; apply (Z.mod_unique _ _ (b + 256 * c + 65536 * d)); lia|].
  f_equal; [symmetry; apply (Z.mod_unique _ _ (c + 256 * d)); lia|].
  f_equal; [symmetry; apply (Z.mod_unique _ _ d); lia|].
  f_equal. apply Z.mod_small. lia.
Qed.

Lemma length_words_bytes ws : length (words_bytes ws) = (4 * length ws)%nat.
Proof. induction ws as [|w ws IH]; [done|]. cbn [words_bytes mbind list_bind] in *.
  rewrite length_app, le32_length. simpl. unfold words_bytes in IH. rewrite IH. lia. Qed.

Lemma bytes_words_bytes ws :
  Forall (λ w, 0 ≤ w < 4294967296) ws → bytes_words (length ws) (words_bytes ws) = ws.
Proof.
  unfold words_bytes. induction 1 as [|w ws Hw _ IH]; [done|].
  cbn [length bytes_words mbind list_bind].
  rewrite unle32_app, unle32_le32 by done. f_equal.
  rewrite drop_app_ge by done. apply IH.
Qed.
End bytes.

(** ** Splicing by single stores *)
Section splices.
Context {A : Type}.
Implicit Types l k : list A.

(** The [n] elements of [l] from index [i] on. *)
Definition sub l (i n : nat) : list A := take n (drop i l).

Lemma length_sub l i n : i + n ≤ length l → length (sub l i n) = n.
Proof. intros. unfold sub. rewrite length_take, length_drop. lia. Qed.

Lemma lookup_sub l i n j : j < n → sub l i n !! j = l !! (i + j).
Proof. intros. unfold sub. by rewrite lookup_take_lt, lookup_drop. Qed.

Lemma sub_insert_out l i n e x : e < i ∨ i + n ≤ e → sub (<[e:=x]> l) i n = sub l i n.
Proof.
  intros. apply list_eq. intros j. destruct (decide (j < n)).
  - rewrite !lookup_sub by done. apply list_lookup_insert_ne. lia.
  - unfold sub. by rewrite !lookup_take_ge by lia.
Qed.

Lemma sub_S l i n x : l !! i = Some x → sub l i (S n) = x :: sub l (S i) n.
Proof. intros. unfold sub. by rewrite (drop_S _ x). Qed.

Lemma sub_snoc l i n x : l !! (i + n) = Some x → sub l i (S n) = sub l i n ++ [x].
Proof. intros. unfold sub. apply take_S_r. by rewrite lookup_drop. Qed.

Lemma splice_insert_front l i x k :
  i + S (length k) ≤ length l → splice (<[i:=x]> l) (S i) k = splice l i (x :: k).
Proof.
  intros. apply list_eq. intros j. destruct (decide (j < i ∨ i + S (length k) ≤ j)).
  - rewrite !lookup_splice_old by (rewrite ?length_insert; simpl; lia).
    apply list_lookup_insert_ne. lia.
  - rewrite (lookup_splice_new l) by (simpl; lia). destruct (decide (j = i)) as [->|].
    + rewrite lookup_splice_old by (rewrite ?length_insert; lia).
      rewrite list_lookup_insert_eq by lia. by rewrite Nat.sub_diag.
    + rewrite lookup_splice_new by (rewrite ?length_insert; lia).
      by replace (j - i) with (S (j - S i)) by lia.
Qed.

Lemma splice_insert_back l i x k :
  i + S (length k) ≤ length l →
  splice (<[i + length k:=x]> l) i k = splice l i (k ++ [x]).
Proof.
  intros. apply list_eq. intros j. destruct (decide (j < i ∨ i + S (length k) ≤ j)).
  - rewrite !lookup_splice_old by (rewrite ?length_insert, ?length_app; simpl; lia).
    apply list_lookup_insert_ne. lia.
  - rewrite (lookup_splice_new l) by (rewrite length_app; simpl; lia).
    destruct (decide (j = i + length k)) as [->|].
    + rewrite lookup_splice_old by (rewrite ?length_insert; lia).
      rewrite list_lookup_insert_eq by lia.
      rewrite lookup_app_r by lia. by replace (i + length k - i - length k) with 0 by lia.
    + rewrite lookup_splice_new, lookup_app_l by (rewrite ?length_insert; lia). done.
Qed.

Lemma insert_splice_end l i x k :
  i + S (length k) ≤ length l → <[i + length k:=x]> (splice l i k) = splice l i (k ++ [x]).
Proof.
  intros. rewrite <-splice_insert_back by done. apply list_eq. intros j.
  destruct (decide (j = i + length k)) as [->|].
  - rewrite list_lookup_insert_eq by (rewrite length_splice; lia).
    rewrite lookup_splice_old by (rewrite ?length_insert; lia).
    by rewrite list_lookup_insert_eq by lia.
  - rewrite list_lookup_insert_ne by lia. destruct (decide (j < i ∨ i + length k ≤ j)).
    + rewrite !lookup_splice_old by (rewrite ?length_insert; lia).
      by rewrite list_lookup_insert_ne by lia.
    + by rewrite !lookup_splice_new by (rewrite ?length_insert; lia).
Qed.

Lemma sub_sub l (i n k : nat) : k ≤ n → sub l i k = take k (sub l i n).
Proof. intros. unfold sub. rewrite take_take. f_equal. lia. Qed.
End splices.

(** ** Filtering *)
Lemma filter_true {A} (P : A → Prop) `{!∀ x, Decision (P x)} (l : list A) : (∀ x, x ∈ l → P x) → filter P l = l.
Proof.
  induction l as [|x l IH]; intros Hall; [done|]. rewrite filter_cons, decide_True by (apply Hall; by constructor).
  f_equal. apply IH. intros y Hy. apply Hall. by constructor.
Qed.
