(* ===== verification/Bitmap.v ===== *)
(** Bitmaps: lib/kernel/bitmap.c of Project5.

    A [struct bitmap] is its bit count and its array of 32-bit elements; the
    operations are the bit operations of the source on these elements.  The
    specification of a bitmap is the list of its bits, [abs]. *)
From S2P Require Import Prelude.
Local Open Scope Z_scope.

(** bitmap.c 22 ELEM_BITS *)
Definition ELEM_BITS : Z := 32.

(** bitmap.c 27-31 struct bitmap *)
Record bitmap := mkBitmap {
  bit_cnt : Z;
  bits : list Z;
}.

#[export] Instance bitmap_eq_dec : EqDecision bitmap.
Proof. solve_decision. Defined.

(** bitmap.h: [#define BITMAP_ERROR SIZE_MAX]. *)
Definition BITMAP_ERROR : Z := u32_max.

(** round.h 10 DIV_ROUND_UP *)
Definition DIV_ROUND_UP (x step : Z) : Z := u32 (x + step - 1) / step.

(** bitmap.c 35-39 elem_idx *)
Definition elem_idx (bit_idx : Z) : Z := bit_idx / ELEM_BITS.

(** bitmap.c 43-47 bit_mask *)
Definition bit_mask (bit_idx : Z) : Z := Z.shiftl 1 (bit_idx mod ELEM_BITS).

(** bitmap.c 50-54 elem_cnt *)
Definition elem_cnt (bit_cnt : Z) : Z := DIV_ROUND_UP bit_cnt ELEM_BITS.

(** bitmap.c 57-61 byte_cnt *)
Definition byte_cnt (bit_cnt : Z) : Z := u32 (4 * elem_cnt bit_cnt).

(** bitmap.c 65-70 last_mask *)
Definition last_mask (b : bitmap) : Z :=
  let last_bits := bit_cnt b mod ELEM_BITS in
  if decide (last_bits ≠ 0) then u32 (Z.shiftl 1 last_bits - 1) else u32_max.

(** bitmap.c 135-139 bitmap_size *)
Definition bitmap_size (b : bitmap) : Z := bit_cnt b.

(** [b->bits[idx] = f (b->bits[idx])] of the three inline-assembly updates. *)
Definition update_elem (b : bitmap) (idx : Z) (f : Z → Z) : outcome bitmap :=
  let* w := or_fault (nthZ (bits b) idx) in
  let* ws := or_fault (setZ (bits b) idx (f w)) in
  Ret (mkBitmap (bit_cnt b) ws).

(** bitmap.c 156-166 bitmap_mark *)
Definition bitmap_mark (b : bitmap) (bit_idx : Z) : outcome bitmap :=
  let idx := elem_idx bit_idx in
  let mask := bit_mask bit_idx in
  update_elem b idx (λ w, Z.lor w mask).

(** bitmap.c 169-179 bitmap_reset *)
Definition bitmap_reset (b : bitmap) (bit_idx : Z) : outcome bitmap :=
  let idx := elem_idx bit_idx in
  let mask := bit_mask bit_idx in
  update_elem b idx (λ w, Z.land w (not32 mask)).

(** bitmap.c 184-194 bitmap_flip *)
Definition bitmap_flip (b : bitmap) (bit_idx : Z) : outcome bitmap :=
  let idx := elem_idx bit_idx in
  let mask := bit_mask bit_idx in
  update_elem b idx (λ w, Z.lxor w mask).

(** bitmap.c 144-153 bitmap_set *)
Definition bitmap_set (b : bitmap) (idx : Z) (value : bool) : outcome bitmap :=
  ASSERT (bool_decide (idx < bit_cnt b));;;
  if value then bitmap_mark b idx else bitmap_reset b idx.

(** bitmap.c 197-203 bitmap_test *)
Definition bitmap_test (b : bitmap) (idx : Z) : outcome bool :=
  ASSERT (bool_decide (idx < bit_cnt b));;;
  let* w := or_fault (nthZ (bits b) (elem_idx idx)) in
  Ret (bool_decide (Z.land w (bit_mask idx) ≠ 0)).

(** bitmap.c 226-227 bitmap_set_multiple, the loop *)
Fixpoint bitmap_set_loop (n : nat) (b : bitmap) (start i : Z) (value : bool) : outcome bitmap :=
  match n with
  | O => Ret b
  | S n =>
      let* b := bitmap_set b (u32 (start + i)) value in
      bitmap_set_loop n b start (i + 1) value
  end.

(** The two range assertions that open the operations on several bits. *)
Definition assert_range (b : bitmap) (start cnt : Z) : outcome unit :=
  ASSERT (bool_decide (start ≤ bit_cnt b));;;
  ASSERT (bool_decide (u32 (start + cnt) ≤ bit_cnt b)).

(** bitmap.c 217-228 bitmap_set_multiple *)
Definition bitmap_set_multiple (b : bitmap) (start cnt : Z) (value : bool) : outcome bitmap :=
  assert_range b start cnt;;;
  bitmap_set_loop (Z.to_nat cnt) b start 0 value.

(** bitmap.c 208-214 bitmap_set_all *)
Definition bitmap_set_all (b : bitmap) (value : bool) : outcome bitmap :=
  bitmap_set_multiple b 0 (bitmap_size b) value.

(** bitmap.c 78-94 bitmap_create.
    [malloc_b] says whether the first [malloc] succeeds, [malloc_bits] is the
    (uninitialised) array the second one returns, if it does. *)
Definition bitmap_create (malloc_b : bool) (malloc_bits : option (list Z)) (bit_cnt : Z)
    : outcome (option bitmap) :=
  if malloc_b then
    match malloc_bits with
    | Some garbage =>
        let* b := bitmap_set_all (mkBitmap bit_cnt garbage) false in
        Ret (Some b)
    | None =>
        if decide (bit_cnt = 0) then
          let* b := bitmap_set_all (mkBitmap bit_cnt []) false in
          Ret (Some b)
        else Ret None
    end
  else Ret None.

(** bitmap.c 114-118 bitmap_buf_size *)
Definition bitmap_buf_size (bit_cnt : Z) : Z := u32 (8 + byte_cnt bit_cnt).

(** bitmap.c 99-110 bitmap_create_in_buf.
    [block] is the part of the buffer after the [struct bitmap]. *)
Definition bitmap_create_in_buf (bit_cnt : Z) (block : list Z) (block_size : Z) : outcome bitmap :=
  ASSERT (bool_decide (bitmap_buf_size bit_cnt ≤ block_size));;;
  bitmap_set_all (mkBitmap bit_cnt block) false.

(** bitmap.c 242-244 bitmap_count, the loop *)
Fixpoint bitmap_count_loop (n : nat) (b : bitmap) (start i : Z) (value : bool) (value_cnt : Z)
    : outcome Z :=
  match n with
  | O => Ret value_cnt
  | S n =>
      let* t := bitmap_test b (u32 (start + i)) in
      bitmap_count_loop n b start (i + 1) value
        (if bool_decide (t = value) then value_cnt + 1 else value_cnt)
  end.

(** bitmap.c 232-246 bitmap_count *)
Definition bitmap_count (b : bitmap) (start cnt : Z) (value : bool) : outcome Z :=
  assert_range b start cnt;;;
  bitmap_count_loop (Z.to_nat cnt) b start 0 value 0.

(** bitmap.c 259-262 bitmap_contains, the loop *)
Fixpoint bitmap_contains_loop (n : nat) (b : bitmap) (start i : Z) (value : bool) : outcome bool :=
  match n with
  | O => Ret false
  | S n =>
      let* t := bitmap_test b (u32 (start + i)) in
      if bool_decide (t = value) then Ret true
      else bitmap_contains_loop n b start (i + 1) value
  end.

(** bitmap.c 250-263 bitmap_contains *)
Definition bitmap_contains (b : bitmap) (start cnt : Z) (value : bool) : outcome bool :=
  assert_range b start cnt;;;
  bitmap_contains_loop (Z.to_nat cnt) b start 0 value.

(** bitmap.c 267-271 bitmap_any *)
Definition bitmap_any (b : bitmap) (start cnt : Z) : outcome bool :=
  bitmap_contains b start cnt true.

(** bitmap.c 275-279 bitmap_none *)
Definition bitmap_none (b : bitmap) (start cnt : Z) : outcome bool :=
  let* r := bitmap_contains b start cnt true in Ret (negb r).

(** bitmap.c 283-287 bitmap_all *)
Definition bitmap_all (b : bitmap) (start cnt : Z) : outcome bool :=
  let* r := bitmap_contains b start cnt false in Ret (negb r).

(** bitmap.c 305-307 bitmap_scan, the loop over the [n] indices from [i] to [last] *)
Fixpoint bitmap_scan_loop (n : nat) (b : bitmap) (i cnt : Z) (value : bool) : outcome Z :=
  match n with
  | O => Ret BITMAP_ERROR
  | S n =>
      let* c := bitmap_contains b i cnt (negb value) in
      if c then bitmap_scan_loop n b (i + 1) cnt value else Ret i
  end.

(** bitmap.c 295-310 bitmap_scan *)
Definition bitmap_scan (b : bitmap) (start cnt : Z) (value : bool) : outcome Z :=
  ASSERT (bool_decide (start ≤ bit_cnt b));;;
  if decide (cnt ≤ bit_cnt b) then
    let last := bit_cnt b - cnt in
    bitmap_scan_loop (Z.to_nat (last - start + 1)) b start cnt value
  else Ret BITMAP_ERROR.

(** bitmap.c 319-326 bitmap_scan_and_flip *)
Definition bitmap_scan_and_flip (b : bitmap) (start cnt : Z) (value : bool)
    : outcome (Z * bitmap) :=
  let* idx := bitmap_scan b start cnt value in
  if decide (idx ≠ BITMAP_ERROR) then
    let* b := bitmap_set_multiple b idx cnt (negb value) in
    Ret (idx, b)
  else Ret (idx, b).

(** bitmap.c 332-336 bitmap_file_size *)
Definition bitmap_file_size (b : bitmap) : Z := byte_cnt (bit_cnt b).

(** ** Reading and writing a bitmap through a file *)
Section file_io.
Context {S : Type}.
(** [file_read_at (file, _, size, ofs)]: the bytes it stores into the buffer;
    [file_write_at (file, buf, size, ofs)]: the number of bytes written. *)
Variable file_read_at : Z → Z → M S (list Z).
Variable file_write_at : list Z → Z → Z → M S Z.

(** bitmap.c 340-351 bitmap_read *)
Definition bitmap_read (b : bitmap) : M S (bool * bitmap) :=
  if decide (0 < bit_cnt b) then
    let size := s32 (byte_cnt (bit_cnt b)) in
    let! bytes := file_read_at size 0 in
    let success := bool_decide (Z.of_nat (length bytes) = size) in
    let image := bytes ++ drop (length bytes) (words_bytes (bits b)) in
    let ws := bytes_words (length (bits b)) image in
    let last := elem_cnt (bit_cnt b) - 1 in
    let! w := lift (or_fault (nthZ ws last)) in
    let! ws := lift (or_fault (setZ ws last (Z.land w (last_mask b)))) in
    ret (success, mkBitmap (bit_cnt b) ws)
  else ret (true, b).

(** bitmap.c 355-360 bitmap_write *)
Definition bitmap_write (b : bitmap) : M S bool :=
  let size := s32 (byte_cnt (bit_cnt b)) in
  let! n := file_write_at (words_bytes (bits b)) size 0 in
  ret (bool_decide (n = size)).
End file_io.

(** ** The specification: the list of bits *)

(** The bit numbered [i] in the representation. *)
Definition get_bit (b : bitmap) (i : Z) : bool :=
  match nthZ (bits b) (elem_idx i) with
  | Some w => Z.testbit w (i mod ELEM_BITS)
  | None => false
  end.

(** The bits of [b], in order. *)
Definition abs (b : bitmap) : list bool := get_bit b <$> seqZ 0 (bit_cnt b).

(** A bitmap as [bitmap_create] makes them: enough elements for its bits, and
    elements that are 32-bit words. *)
Record wf (b : bitmap) : Prop := {
  wf_cnt : 0 ≤ bit_cnt b ≤ 4294967264;
  wf_len : Z.of_nat (length (bits b)) = elem_cnt (bit_cnt b);
  wf_words : Forall (λ w, 0 ≤ w < 4294967296) (bits b);
}.

(** The segment of [cnt] bits from [start] on. *)
Definition seg (b : bitmap) (start cnt : Z) : list bool :=
  take (Z.to_nat cnt) (drop (Z.to_nat start) (abs b)).

(** ** Lemmas on elements and masks *)
Lemma elem_cnt_eq n : 0 ≤ n ≤ 4294967264 → elem_cnt n = (n + 31) / 32.
Proof.
  intros. unfold elem_cnt, DIV_ROUND_UP, ELEM_BITS.
  rewrite u32_small by lia. f_equal. lia.
Qed.

Lemma elem_idx_range b i :
  wf b → 0 ≤ i < bit_cnt b → 0 ≤ elem_idx i < Z.of_nat (length (bits b)).
Proof.
  intros [Hc Hl _] ?. rewrite Hl, elem_cnt_eq by done. unfold elem_idx, ELEM_BITS.
  split; [apply Z.div_pos; lia|]. apply Z.div_lt_upper_bound; [lia|].
  pose proof (Z.mul_div_le (bit_cnt b + 31) 32). pose proof (Z.mod_pos_bound (bit_cnt b + 31) 32).
  pose proof (Z.div_mod (bit_cnt b + 31) 32). lia.
Qed.

Lemma bit_mask_pow2 i : bit_mask i = 2 ^ (i mod 32).
Proof. unfold bit_mask. apply Z.shiftl_1_l. Qed.

Lemma mod32_range i : 0 ≤ i mod 32 < 32.
Proof. apply Z.mod_pos_bound. lia. Qed.

Lemma bit_mask_testbit i k : Z.testbit (bit_mask i) k = bool_decide (k = i mod 32).
Proof.
  pose proof (mod32_range i).
  rewrite bit_mask_pow2, Z.pow2_bits_eqb by lia.
  case_bool_decide; [apply Z.eqb_eq|apply Z.eqb_neq]; lia.
Qed.

Lemma u32_max_testbit k : 0 ≤ k → Z.testbit u32_max k = bool_decide (k < 32).
Proof.
  intros. change u32_max with (Z.ones 32). case_bool_decide.
  - apply Z.ones_spec_low. lia.
  - apply Z.ones_spec_high. lia.
Qed.

(** A non-negative number is a 32-bit word when its bits from 32 on are 0. *)
Lemma word_range w :
  0 ≤ w → (∀ k, 32 ≤ k → Z.testbit w k = false) → 0 ≤ w < 4294967296.
Proof.
  intros ? Hk. split; [done|].
  destruct (decide (w = 0)); [lia|].
  change 4294967296 with (2 ^ 32). apply Z.log2_lt_pow2; [lia|].
  destruct (decide (32 ≤ Z.log2 w)) as [H32|]; [|lia].
  specialize (Hk _ H32). rewrite Z.bit_log2 in Hk by lia. done.
Qed.

Lemma word_high w k : 0 ≤ w < 4294967296 → 32 ≤ k → Z.testbit w k = false.
Proof.
  intros. destruct (decide (w = 0)) as [->|]; [apply Z.bits_0|].
  apply Z.bits_above_log2; [lia|].
  apply Z.lt_le_trans with 32; [|done]. apply Z.log2_lt_pow2; [lia|].
  change (2 ^ 32) with 4294967296. lia.
Qed.

(** What the three updates do to the word they change. *)
Definition updates_bit (idx : Z) (g : bool → bool) (f : Z → Z) : Prop :=
  ∀ w, 0 ≤ w < 4294967296 →
    0 ≤ f w < 4294967296 ∧
    ∀ k, 0 ≤ k < 32 →
      Z.testbit (f w) k =
        if bool_decide (k = idx mod 32) then g (Z.testbit w k) else Z.testbit w k.

Ltac word_bits idx :=
  pose proof (mod32_range idx);
  repeat (rewrite ?Z.lor_spec, ?Z.land_spec, ?Z.lxor_spec, ?bit_mask_testbit,
            ?u32_max_testbit by lia);
  repeat case_bool_decide; subst; try lia; rewrite ?word_high by lia;
  repeat match goal with |- context [Z.testbit ?w ?k] => destruct (Z.testbit w k) end;
  try done; try lia.

Lemma bit_mask_nonneg i : 0 ≤ bit_mask i.
Proof. rewrite bit_mask_pow2. apply Z.pow_nonneg. lia. Qed.

Lemma mark_updates idx : updates_bit idx (λ _, true) (λ w, Z.lor w (bit_mask idx)).
Proof.
  intros w Hw. pose proof (bit_mask_nonneg idx). split.
  - apply word_range; [apply Z.lor_nonneg; lia|]. intros k Hk. word_bits idx.
  - intros k Hk. word_bits idx.
Qed.

Lemma reset_updates idx : updates_bit idx (λ _, false) (λ w, Z.land w (not32 (bit_mask idx))).
Proof.
  intros w Hw. unfold not32. split.
  - apply word_range; [apply Z.land_nonneg; lia|]. intros k Hk. word_bits idx.
  - intros k Hk. word_bits idx.
Qed.

Lemma flip_updates idx : updates_bit idx negb (λ w, Z.lxor w (bit_mask idx)).
Proof.
  intros w Hw. pose proof (bit_mask_nonneg idx). split.
  - apply word_range; [apply Z.lxor_nonneg; lia|]. intros k Hk. word_bits idx.
  - intros k Hk. word_bits idx.
Qed.

(** ** The bit list *)
Lemma length_abs b : length (abs b) = Z.to_nat (bit_cnt b).
Proof. unfold abs. by rewrite length_fmap, length_seqZ. Qed.

Lemma lookup_abs b i : 0 ≤ i < bit_cnt b → abs b !! Z.to_nat i = Some (get_bit b i).
Proof.
  intros. unfold abs. rewrite list_lookup_fmap, lookup_seqZ_lt by lia. simpl.
  f_equal. f_equal. lia.
Qed.

Lemma elem_bit_inj i j : elem_idx i = elem_idx j → i mod 32 = j mod 32 → i = j.
Proof.
  unfold elem_idx, ELEM_BITS. intros.
  rewrite (Z.div_mod i 32), (Z.div_mod j 32) by lia. lia.
Qed.

Lemma update_elem_spec b idx g f :
  wf b → 0 ≤ idx < bit_cnt b → updates_bit idx g f →
  ∃ b', update_elem b (elem_idx idx) f = Ret b' ∧ wf b' ∧ bit_cnt b' = bit_cnt b ∧
        abs b' = alter g (Z.to_nat idx) (abs b).
Proof.
  intros Hwf Hidx Hf. pose proof (elem_idx_range b idx Hwf Hidx) as He.
  destruct (nthZ_is_Some (bits b) (elem_idx idx) He) as [w Hw].
  assert (Hww : 0 ≤ w < 4294967296).
  { rewrite nthZ_lookup in Hw by lia. by eapply (Forall_lookup_1 _ _ _ _ (wf_words _ Hwf)). }
  destruct (Hf w Hww) as [Hfw Hbit].
  unfold update_elem. rewrite Hw. simpl. rewrite setZ_run by done. simpl.
  eexists. split_and!; [done| |done|].
  - destruct Hwf as [? Hl Hws]. split; simpl; [done|by rewrite length_insert|].
    by apply Forall_insert.
  - apply list_eq. intros i. destruct (decide (i < Z.to_nat (bit_cnt b))%nat) as [Hi|Hi].
    2:{ rewrite !lookup_ge_None_2; [done|rewrite length_alter, length_abs; lia|
          rewrite length_abs; simpl; lia]. }
    replace i with (Z.to_nat (Z.of_nat i)) by lia. set (z := Z.of_nat i).
    rewrite lookup_abs by (simpl; lia). rewrite list_lookup_alter, !lookup_abs by lia.
    pose proof (elem_idx_range b z Hwf ltac:(lia)) as Hz.
    destruct (nthZ_is_Some (bits b) (elem_idx z) Hz) as [wz Hwz].
    assert (Hbz : get_bit b z = Z.testbit wz (z mod 32)) by (unfold get_bit; by rewrite Hwz).
    unfold get_bit at 1. simpl. rewrite nthZ_lookup by lia.
    destruct (decide (elem_idx idx = elem_idx z)) as [Heq|Hne].
    + rewrite Heq. rewrite list_lookup_insert_eq by lia.
      rewrite Hbit by apply mod32_range.
      rewrite Heq in Hw. simplify_eq. case_bool_decide as Hm.
      * assert (idx = z) as -> by (by apply elem_bit_inj).
        rewrite decide_True by done. by rewrite Hbz.
      * rewrite decide_False; [by rewrite Hbz|]. intros ?. apply Hm. f_equal. lia.
    + rewrite list_lookup_insert_ne by lia.
      rewrite nthZ_lookup in Hwz by lia. rewrite Hwz.
      rewrite decide_False; [by rewrite Hbz|]. intros ?. apply Hne. f_equal. lia.
Qed.

Lemma alter_const {A} (l : list A) i x : alter (λ _, x) i l = <[i:=x]> l.
Proof.
  revert i. induction l as [|y l IH]; intros [|i]; simpl; try done.
  unfold alter, insert in *. simpl. f_equal. apply IH.
Qed.

Lemma bitmap_mark_spec b idx :
  wf b → 0 ≤ idx < bit_cnt b →
  ∃ b', bitmap_mark b idx = Ret b' ∧ wf b' ∧ bit_cnt b' = bit_cnt b ∧
        abs b' = <[Z.to_nat idx := true]> (abs b).
Proof. intros. rewrite <-alter_const. apply update_elem_spec; auto using mark_updates. Qed.

Lemma bitmap_reset_spec b idx :
  wf b → 0 ≤ idx < bit_cnt b →
  ∃ b', bitmap_reset b idx = Ret b' ∧ wf b' ∧ bit_cnt b' = bit_cnt b ∧
        abs b' = <[Z.to_nat idx := false]> (abs b).
Proof. intros. rewrite <-alter_const. apply update_elem_spec; auto using reset_updates. Qed.

Lemma bitmap_flip_spec b idx :
  wf b → 0 ≤ idx < bit_cnt b →
  ∃ b', bitmap_flip b idx = Ret b' ∧ wf b' ∧ bit_cnt b' = bit_cnt b ∧
        abs b' = alter negb (Z.to_nat idx) (abs b).
Proof. intros. apply update_elem_spec; auto using flip_updates. Qed.

Lemma bitmap_set_spec b idx v :
  wf b → 0 ≤ idx < bit_cnt b →
  ∃ b', bitmap_set b idx v = Ret b' ∧ wf b' ∧ bit_cnt b' = bit_cnt b ∧
        abs b' = <[Z.to_nat idx := v]> (abs b).
Proof.
  intros. unfold bitmap_set. rewrite bool_decide_true by lia. simpl.
  destruct v; [by apply bitmap_mark_spec|by apply bitmap_reset_spec].
Qed.

(** ** Operations on several bits *)
Lemma assert_range_ok b start cnt :
  wf b → 0 ≤ start → 0 ≤ cnt → start + cnt ≤ bit_cnt b → assert_range b start cnt = Ret tt.
Proof.
  intros [? _ _] ???. unfold assert_range.
  rewrite !bool_decide_true; [done|..]; [rewrite u32_small|]; lia.
Qed.

Lemma splice_insert_replicate {A} (l : list A) i n x :
  (i + S n ≤ length l)%nat →
  splice (<[i:=x]> l) (S i) (replicate n x) = splice l i (replicate (S n) x).
Proof.
  intros. apply list_eq. intros j. destruct (decide (j < i ∨ i + S n ≤ j)%nat).
  - rewrite !lookup_splice_old by (rewrite ?length_insert, ?length_replicate; lia).
    apply list_lookup_insert_ne. lia.
  - rewrite (lookup_splice_new l) by (rewrite length_replicate; lia).
    rewrite (lookup_replicate_2 (S n)) by lia. destruct (decide (j = i)) as [->|].
    + rewrite lookup_splice_old by (rewrite ?length_insert, ?length_replicate; lia).
      apply list_lookup_insert_eq. lia.
    + rewrite lookup_splice_new by (rewrite ?length_insert, ?length_replicate; lia).
      apply lookup_replicate_2. lia.
Qed.

Lemma bitmap_set_loop_spec n b start i v :
  wf b → 0 ≤ start → 0 ≤ i → start + i + Z.of_nat n ≤ bit_cnt b →
  ∃ b', bitmap_set_loop n b start i v = Ret b' ∧ wf b' ∧ bit_cnt b' = bit_cnt b ∧
        abs b' = splice (abs b) (Z.to_nat (start + i)) (replicate n v).
Proof.
  revert b i. induction n as [|n IH]; intros b i Hwf ???; simpl.
  { exists b. by rewrite splice_nil. }
  pose proof (wf_cnt _ Hwf). rewrite u32_small by lia.
  destruct (bitmap_set_spec b (start + i) v Hwf) as (b1 & -> & Hwf1 & Hc1 & Ha1); [lia|]. simpl.
  destruct (IH b1 (i + 1) Hwf1) as (b2 & -> & Hwf2 & Hc2 & Ha2); try lia.
  exists b2. split_and!; [done|done|congruence|].
  change (v :: replicate n v) with (replicate (S n) v).
  rewrite Ha2, Ha1, <-splice_insert_replicate by (rewrite length_abs; lia).
  f_equal. lia.
Qed.

Lemma bitmap_set_multiple_spec b start cnt v :
  wf b → 0 ≤ start → 0 ≤ cnt → start + cnt ≤ bit_cnt b →
  ∃ b', bitmap_set_multiple b start cnt v = Ret b' ∧ wf b' ∧ bit_cnt b' = bit_cnt b ∧
        abs b' = splice (abs b) (Z.to_nat start) (replicate (Z.to_nat cnt) v).
Proof.
  intros. unfold bitmap_set_multiple. rewrite assert_range_ok by done. simpl.
  destruct (bitmap_set_loop_spec (Z.to_nat cnt) b start 0 v) as (b' & ? & ? & ? & Ha); try done; [lia|].
  exists b'. by rewrite Ha, Z.add_0_r.
Qed.

Lemma bitmap_test_spec b idx :
  wf b → 0 ≤ idx < bit_cnt b → bitmap_test b idx = Ret (get_bit b idx).
Proof.
  intros Hwf ?. unfold bitmap_test. rewrite bool_decide_true by lia. simpl.
  unfold get_bit. destruct (nthZ_is_Some (bits b) (elem_idx idx)) as [w Hw].
  { by apply elem_idx_range. }
  rewrite Hw. simpl. f_equal. unfold ELEM_BITS.
  destruct (Z.testbit w (idx mod 32)) eqn:E.
  - apply bool_decide_true. intros H0. apply (f_equal (λ x, Z.testbit x (idx mod 32))) in H0.
    rewrite Z.land_spec, bit_mask_testbit, E, Z.bits_0, bool_decide_true in H0; done.
  - apply bool_decide_false. intros H0. apply H0, Z.bits_inj. intros k.
    rewrite Z.land_spec, bit_mask_testbit, Z.bits_0.
    case_bool_decide; subst; [by rewrite E|apply andb_false_r].
Qed.

Lemma seg_cons b start n :
  0 ≤ start < bit_cnt b → seg b start (Z.of_nat (S n)) = get_bit b start :: seg b (start + 1) (Z.of_nat n).
Proof.
  intros. unfold seg. rewrite (drop_S _ (get_bit b start)) by (by apply lookup_abs).
  rewrite !Nat2Z.id. simpl.
  by replace (Z.to_nat (start + 1)) with (S (Z.to_nat start)) by lia.
Qed.

Lemma seg_one b i : 0 ≤ i < bit_cnt b → seg b i 1 = [get_bit b i].
Proof. intros Hi. apply (seg_cons b i 0 Hi). Qed.

Lemma bitmap_contains_loop_spec n b start i v :
  wf b → 0 ≤ start → 0 ≤ i → start + i + Z.of_nat n ≤ bit_cnt b →
  bitmap_contains_loop n b start i v = Ret (bool_decide (v ∈ seg b (start + i) (Z.of_nat n))).
Proof.
  intros Hwf. revert i. induction n as [|n IH]; intros i ???.
  { reflexivity. }
  cbn [bitmap_contains_loop]. pose proof (wf_cnt _ Hwf). rewrite u32_small by lia.
  rewrite bitmap_test_spec, seg_cons by (done || lia). simpl.
  destruct (decide (get_bit b (start + i) = v)) as [->|].
  - rewrite !bool_decide_true by (done || constructor). done.
  - rewrite (bool_decide_false (_ = _)) by done. rewrite IH by lia. f_equal.
    apply bool_decide_ext. rewrite elem_of_cons, Z.add_assoc. intuition congruence.
Qed.

(** [bitmap_contains] decides membership in the segment. *)
Lemma bitmap_contains_spec b start cnt v :
  wf b → 0 ≤ start → 0 ≤ cnt → start + cnt ≤ bit_cnt b →
  bitmap_contains b start cnt v = Ret (bool_decide (v ∈ seg b start cnt)).
Proof.
  intros. unfold bitmap_contains. rewrite assert_range_ok by done. simpl.
  rewrite bitmap_contains_loop_spec by (done || lia).
  do 3 f_equal. rewrite Z2Nat.id, Z.add_0_r by lia. done.
Qed.

Lemma bitmap_all_spec b start cnt :
  wf b → 0 ≤ start → 0 ≤ cnt → start + cnt ≤ bit_cnt b →
  bitmap_all b start cnt = Ret (bool_decide (Forall (.= true) (seg b start cnt))).
Proof.
  intros. unfold bitmap_all. rewrite bitmap_contains_spec by done. simpl. f_equal.
  rewrite <-bool_decide_not. apply bool_decide_ext. rewrite Forall_forall. split.
  - intros Hf [] ?; [done|]. done.
  - intros Hf Hin. by apply Hf in Hin.
Qed.

Lemma bitmap_count_loop_spec n b start i v acc :
  wf b → 0 ≤ start → 0 ≤ i → start + i + Z.of_nat n ≤ bit_cnt b →
  bitmap_count_loop n b start i v acc =
    Ret (acc + Z.of_nat (length (filter (.= v) (seg b (start + i) (Z.of_nat n))))).
Proof.
  intros Hwf. revert i acc. induction n as [|n IH]; intros i acc ???.
  { simpl. f_equal. lia. }
  cbn [bitmap_count_loop]. pose proof (wf_cnt _ Hwf). rewrite u32_small by lia.
  rewrite bitmap_test_spec, seg_cons by (done || lia). cbn [obind].
  rewrite IH, Z.add_assoc by lia. f_equal. rewrite filter_cons.
  case_bool_decide; case_decide; try done; simpl; lia.
Qed.

(** [bitmap_count] counts the bits of the segment that have the value. *)
Lemma bitmap_count_spec b start cnt v :
  wf b → 0 ≤ start → 0 ≤ cnt → start + cnt ≤ bit_cnt b →
  bitmap_count b start cnt v = Ret (Z.of_nat (length (filter (.= v) (seg b start cnt)))).
Proof.
  intros. unfold bitmap_count. rewrite assert_range_ok by done. simpl.
  rewrite bitmap_count_loop_spec by (done || lia).
  rewrite Z2Nat.id, Z.add_0_r by lia. done.
Qed.

(** ** Searching *)
Lemma seg_all_not b i cnt v :
  bool_decide (negb v ∈ seg b i cnt) = negb (bool_decide (Forall (.= v) (seg b i cnt))).
Proof.
  rewrite <-bool_decide_not. apply bool_decide_ext. rewrite Forall_forall. split.
  - intros Hin Hf. apply Hf in Hin. by destruct v.
  - intros Hn. apply dec_stable. intros Hin. apply Hn. intros x Hx.
    destruct x, v; done.
Qed.

Lemma bitmap_scan_loop_spec n b i cnt v :
  wf b → 0 ≤ i → 0 ≤ cnt → Z.of_nat n = Z.max 0 (bit_cnt b - cnt - i + 1) →
  ∃ r, bitmap_scan_loop n b i cnt v = Ret r ∧
    ((r ≠ BITMAP_ERROR ∧ i ≤ r ∧ r + cnt ≤ bit_cnt b ∧ Forall (.= v) (seg b r cnt) ∧
        ∀ j, i ≤ j < r → ¬ Forall (.= v) (seg b j cnt)) ∨
     (r = BITMAP_ERROR ∧ ∀ j, i ≤ j → j + cnt ≤ bit_cnt b → ¬ Forall (.= v) (seg b j cnt))).
Proof.
  intros Hwf. pose proof (wf_cnt _ Hwf). revert i. induction n as [|n IH]; intros i ???.
  { eexists. split; [done|]. right. split; [done|]. intros j ??. lia. }
  cbn [bitmap_scan_loop]. rewrite bitmap_contains_spec, seg_all_not by (done || lia). cbn [obind].
  case_bool_decide as Hall; simpl.
  - exists i. split; [done|]. left. unfold BITMAP_ERROR, u32_max. split_and!; try done; lia.
  - destruct (IH (i + 1)) as (r & -> & Hr); [lia..|]. exists r. split; [done|].
    destruct Hr as [(?&?&?&?&Hmin)|(?&Hno)]; [left|right]; split_and!; try done; try lia.
    + intros j ?. destruct (decide (j = i)) as [->|]; [done|]. apply Hmin. lia.
    + intros j ??. destruct (decide (j = i)) as [->|]; [done|]. apply Hno; lia.
Qed.

Lemma bitmap_scan_spec b start cnt v :
  wf b → 0 ≤ start ≤ bit_cnt b → 0 ≤ cnt →
  ∃ r, bitmap_scan b start cnt v = Ret r ∧
    ((r ≠ BITMAP_ERROR ∧ start ≤ r ∧ r + cnt ≤ bit_cnt b ∧ Forall (.= v) (seg b r cnt) ∧
        ∀ j, start ≤ j < r → ¬ Forall (.= v) (seg b j cnt)) ∨
     (r = BITMAP_ERROR ∧ ∀ j, start ≤ j → j + cnt ≤ bit_cnt b → ¬ Forall (.= v) (seg b j cnt))).
Proof.
  intros. unfold bitmap_scan. rewrite bool_decide_true by lia. cbn [obind ASSERT].
  case_decide.
  - apply bitmap_scan_loop_spec; try done; lia.
  - eexists. split; [done|]. right. split; [done|]. intros. lia.
Qed.

Lemma bitmap_scan_and_flip_spec b start cnt v :
  wf b → 0 ≤ start ≤ bit_cnt b → 0 ≤ cnt →
  ∃ r b', bitmap_scan_and_flip b start cnt v = Ret (r, b') ∧ wf b' ∧ bit_cnt b' = bit_cnt b ∧
    ((r ≠ BITMAP_ERROR ∧ start ≤ r ∧ r + cnt ≤ bit_cnt b ∧ Forall (.= v) (seg b r cnt) ∧
        (∀ j, start ≤ j < r → ¬ Forall (.= v) (seg b j cnt)) ∧
        abs b' = splice (abs b) (Z.to_nat r) (replicate (Z.to_nat cnt) (negb v))) ∨
     (r = BITMAP_ERROR ∧ b' = b ∧
        ∀ j, start ≤ j → j + cnt ≤ bit_cnt b → ¬ Forall (.= v) (seg b j cnt))).
Proof.
  intros Hwf ??. unfold bitmap_scan_and_flip.
  destruct (bitmap_scan_spec b start cnt v) as (r & -> & Hr); [done..|]. cbn [obind].
  destruct Hr as [(?&?&?&?&?)|(->&?)].
  - rewrite decide_True by done.
    destruct (bitmap_set_multiple_spec b r cnt (negb v)) as (b' & -> & ? & ? & ?); [done|lia..|].
    cbn [obind]. exists r, b'. split_and!; try done. left. done.
  - rewrite decide_False by auto. exists BITMAP_ERROR, b. split_and!; try done. by right.
Qed.


(** A bitmap of 40 bits with bits 0, 1 and 33 set. *)
Definition sample : bitmap := mkBitmap 40 [3; 2].

Lemma sample_wf : wf sample.
Proof. split; simpl; [lia|reflexivity|]. repeat constructor; lia. Qed.


(** ** The round trip through a file *)

(** What the bitmap relies on: a file of fixed length that returns what was
    last written to it. *)
Class FileLaws {S : Type} (file_read_at : Z → Z → M S (list Z))
    (file_write_at : list Z → Z → Z → M S Z) (content : S → list Z) : Prop := {
  write_law : ∀ s l, Z.of_nat (length l) ≤ Z.of_nat (length (content s)) → Forall byte l →
    ∃ s', file_write_at l (Z.of_nat (length l)) 0 s = Ret (Z.of_nat (length l), s') ∧
          content s' = splice (content s) 0 l;
  read_law : ∀ s size, 0 ≤ size ≤ Z.of_nat (length (content s)) →
    ∃ s', file_read_at size 0 s = Ret (take (Z.to_nat size) (content s), s') ∧
          content s' = content s;
}.

Lemma words_bytes_byte ws : Forall byte (words_bytes ws).
Proof. unfold words_bytes. apply Forall_bind, Forall_true. intros; apply le32_bytes. Qed.

Lemma image_length b :
  wf b → Z.of_nat (length (words_bytes (bits b))) = 4 * elem_cnt (bit_cnt b).
Proof. intros [_ <- _]. rewrite length_words_bytes. lia. Qed.

(** Masking the last element keeps the bits of the bitmap. *)
Lemma last_mask_testbit b k :
  wf b → 0 < bit_cnt b → 0 ≤ k < 32 → 32 * (elem_cnt (bit_cnt b) - 1) + k < bit_cnt b →
  Z.testbit (last_mask b) k = true.
Proof.
  intros [? _ _] ??. rewrite elem_cnt_eq by lia. intros Hk. unfold last_mask, ELEM_BITS.
  pose proof (mod32_range (bit_cnt b)) as Hm. case_decide as Hz.
  - pose proof (Z.div_mod (bit_cnt b) 32).
    assert ((bit_cnt b + 31) / 32 = bit_cnt b / 32 + 1) as E.
    { symmetry. apply (Z.div_unique _ _ _ (bit_cnt b mod 32 - 1)); lia. }
    rewrite E in Hk. rewrite Z.shiftl_1_l, u32_small.
    + rewrite Z.sub_1_r, <-Z.ones_equiv. apply Z.ones_spec_low. lia.
    + assert (0 < 2 ^ (bit_cnt b mod 32) ≤ 2 ^ 31); [|change (2 ^ 31) with 2147483648 in *; lia].
      split; [apply Z.pow_pos_nonneg; lia|apply Z.pow_le_mono_r; lia].
  - rewrite u32_max_testbit by lia. apply bool_decide_true. lia.
Qed.

(** A bitmap whose last element is masked has the same bits. *)
Lemma masked_abs b w :
  wf b → 0 < bit_cnt b → nthZ (bits b) (elem_cnt (bit_cnt b) - 1) = Some w →
  let b' := mkBitmap (bit_cnt b)
              (<[Z.to_nat (elem_cnt (bit_cnt b) - 1) := Z.land w (last_mask b)]> (bits b)) in
  wf b' ∧ abs b' = abs b.
Proof.
  intros Hwf Hpos Hw b'. pose proof (nthZ_Some _ _ _ Hw) as Hr.
  assert (Hww : 0 ≤ w < 4294967296).
  { rewrite nthZ_lookup in Hw by lia. by eapply (Forall_lookup_1 _ _ _ _ (wf_words _ Hwf)). }
  split.
  - destruct Hwf as [? Hl Hws]. split; simpl; [done|by rewrite length_insert|].
    apply Forall_insert; [done|]. apply word_range.
    + apply Z.land_nonneg. lia.
    + intros k ?. rewrite Z.land_spec, word_high by lia. done.
  - unfold abs. apply list_fmap_ext. intros _ i Hi%list_elem_of_lookup_2%elem_of_seqZ.
    unfold get_bit. pose proof (elem_idx_range b i Hwf ltac:(lia)).
    simpl. rewrite !nthZ_lookup by lia.
    destruct (decide (elem_idx i = elem_cnt (bit_cnt b) - 1)) as [E|E].
    + rewrite E, list_lookup_insert_eq by lia. rewrite nthZ_lookup in Hw by lia. rewrite Hw.
      rewrite Z.land_spec, last_mask_testbit, andb_true_r; try done; [apply mod32_range|].
      rewrite <-E. unfold elem_idx, ELEM_BITS. rewrite <-Z.div_mod by lia. lia.
    + by rewrite list_lookup_insert_ne by lia.
Qed.

(** a bitmap written to a file and read back into any bitmap of the same
    size: both calls succeed and every bit comes back, whatever the padding of
    the last element held. *)
Theorem bitmap_file_roundtrip {S : Type} file_read_at file_write_at (content : S → list Z)
    `{!FileLaws file_read_at file_write_at content} (b b0 : bitmap) (s : S)
    (Hwf : wf b) (Hwf0 : wf b0) (Hcnt : bit_cnt b0 = bit_cnt b)
    (Hfit : 4 * elem_cnt (bit_cnt b) ≤ Z.of_nat (length (content s)) < 2147483648) :
  ∃ s1 s2 b', bitmap_write file_write_at b s = Ret (true, s1) ∧
    bitmap_read file_read_at b0 s1 = Ret ((true, b'), s2) ∧
    bit_cnt b' = bit_cnt b ∧ wf b' ∧ abs b' = abs b.
Proof.
  pose proof (image_length b Hwf) as Him. pose proof (wf_cnt _ Hwf).
  assert (Hn : s32 (byte_cnt (bit_cnt b)) = Z.of_nat (length (words_bytes (bits b)))).
  { unfold byte_cnt. rewrite Him, u32_small, s32_small by lia. done. }
  destruct (write_law s (words_bytes (bits b))) as (s1 & Hw & Hc1); [lia|apply words_bytes_byte|].
  exists s1. unfold bitmap_write. rewrite Hn. erewrite bind_run by done.
  rewrite bool_decide_true by done.
  unfold bitmap_read. rewrite Hcnt. case_decide as Hpos.
  2:{ exists s1, b0. split_and!; try done. unfold abs.
      rewrite !seqZ_nil by lia. done. }
  destruct (read_law s1 (s32 (byte_cnt (bit_cnt b)))) as (s2 & Hr & _).
  { rewrite Hc1, length_splice; lia. }
  exists s2. erewrite bind_run by done.
  assert (Hbytes : take (Z.to_nat (s32 (byte_cnt (bit_cnt b)))) (content s1)
                   = words_bytes (bits b)).
  { rewrite Hc1, Hn. unfold splice. simpl. rewrite take_app_le, take_ge; [done|lia..]. }
  rewrite Hbytes, drop_ge, app_nil_r by (rewrite !length_words_bytes; pose proof (wf_len _ Hwf0);
    pose proof (wf_len _ Hwf); rewrite Hcnt in *; lia).
  replace (length (bits b0)) with (length (bits b))
    by (pose proof (wf_len _ Hwf0); pose proof (wf_len _ Hwf); rewrite Hcnt in *; lia).
  rewrite bytes_words_bytes by apply Hwf.
  assert (Hl : 0 ≤ elem_cnt (bit_cnt b) - 1 < Z.of_nat (length (bits b))).
  { rewrite (wf_len _ Hwf), elem_cnt_eq by lia.
    pose proof (Z.div_le_mono 32 (bit_cnt b + 31) 32). change (32 / 32) with 1 in *. lia. }
  destruct (nthZ_is_Some _ _ Hl) as [w Hlw]. rewrite Hlw. cbn.
  rewrite setZ_run by done. cbn. rewrite Hn, bool_decide_true by done.
  destruct (masked_abs b w Hwf Hpos Hlw) as [Hwf' Habs]. unfold last_mask in *. rewrite Hcnt.
  eexists. split; [reflexivity|]. done.
Qed.

(** A file held as a plain list of bytes. *)
Definition list_read (size ofs : Z) : M (list Z) (list Z) := λ s,
  Ret (take (Z.to_nat size) (drop (Z.to_nat ofs) s), s).
Definition list_write (l : list Z) (size ofs : Z) : M (list Z) Z := λ s,
  Ret (size, splice s (Z.to_nat ofs) (take (Z.to_nat size) l)).

Lemma list_file_laws : FileLaws list_read list_write id.
Proof.
  split.
  - intros s l ? _. eexists. unfold list_write. rewrite Nat2Z.id, take_ge by done. done.
  - intros s size ?. eexists. done.
Qed.

Lemma bitmap_file_roundtrip_witness :
  wf sample ∧ ∃ s1 s2 b',
    bitmap_write list_write sample (replicate 512 0) = Ret (true, s1) ∧
    bitmap_read list_read (mkBitmap 40 [5; 4294967295]) s1 = Ret ((true, b'), s2) ∧
    bit_cnt b' = bit_cnt sample ∧ wf b' ∧ abs b' = abs sample.
Proof.
  split; [apply sample_wf|].
  pose proof list_file_laws.
  apply (bitmap_file_roundtrip list_read list_write id sample (mkBitmap 40 [5; 4294967295])
           (replicate 512 0)); [apply sample_wf| |reflexivity|vm_compute; split; congruence].
  split; simpl; [lia|reflexivity|]. repeat constructor; lia.
Defined.
