(* ===== verification/CString.v ===== *)
(** Strings and memory blocks: lib/string.c of Project5.

    Memory is a flat array of bytes; a pointer is an index into it, 0 is the
    null pointer, and an access outside the array faults.  The functions are the
    loops of the source over this memory, so overlapping operands alias as they
    do in C.  A loop that runs to a terminator carries a fuel, the size of the
    memory plus one: every iteration advances a pointer that must stay inside. *)
From S2P Require Import Prelude.
Local Open Scope Z_scope.

Abbreviation mem := (list Z).
Definition NULL : Z := 0.

Definition peek (m : mem) (p : Z) : option Z := if decide (0 < p) then nthZ m p else None.

(** [*p] *)
Definition load (p : Z) : M mem Z := λ m,
  match peek m p with Some c => Ret (c, m) | None => Err Fault end.

(** [*p = c] on a char object *)
Definition store (p c : Z) : M mem unit := λ m,
  if decide (0 < p < Z.of_nat (length m)) then Ret (tt, <[Z.to_nat p := c mod 256]> m) else Err Fault.

(** Runs a loop with the fuel that is always enough. *)
Definition fueled {A} (loop : nat → M mem A) : M mem A := λ m, loop (S (length m)) m.

(** string.c 15-16 memcpy, the loop *)
Fixpoint copy_up (n : nat) (dst src : Z) : M mem unit :=
  match n with
  | O => ret tt
  | S n => let! c := load src in store dst c;;! copy_up n (dst + 1) (src + 1)
  end.

(** string.c 41-42 memmove, the descending loop *)
Fixpoint copy_down (n : nat) (dst src : Z) : M mem unit :=
  match n with
  | O => ret tt
  | S n => let! c := load (src - 1) in store (dst - 1) c;;! copy_down n (dst - 1) (src - 1)
  end.

(** string.c 6-19 memcpy *)
Definition memcpy (dst src size : Z) : M mem Z :=
  assertM (bool_decide (dst ≠ NULL ∨ size = 0));;!
  assertM (bool_decide (src ≠ NULL ∨ size = 0));;!
  copy_up (Z.to_nat size) dst src;;!
  ret dst.

(** string.c 23-46 memmove.  The value returned is the moving pointer [dst]. *)
Definition memmove (dst src size : Z) : M mem Z :=
  assertM (bool_decide (dst ≠ NULL ∨ size = 0));;!
  assertM (bool_decide (src ≠ NULL ∨ size = 0));;!
  if decide (dst < src) then
    copy_up (Z.to_nat size) dst src;;! ret (dst + size)
  else
    let dst := dst + size in
    let src := src + size in
    copy_down (Z.to_nat size) dst src;;! ret (dst - size).

(** string.c 61-64 memcmp, the loop *)
Fixpoint memcmp_loop (n : nat) (a b : Z) : M mem Z :=
  match n with
  | O => ret 0
  | S n =>
      let! x := load a in
      let! y := load b in
      if decide (x ≠ y) then ret (if decide (y < x) then 1 else -1)
      else memcmp_loop n (a + 1) (b + 1)
  end.

(** string.c 52-65 memcmp *)
Definition memcmp (a b size : Z) : M mem Z :=
  assertM (bool_decide (a ≠ NULL ∨ size = 0));;!
  assertM (bool_decide (b ≠ NULL ∨ size = 0));;!
  memcmp_loop (Z.to_nat size) a b.

(** string.c 81-87 strcmp, the loop and the final comparison *)
Fixpoint strcmp_loop (fuel : nat) (a b : Z) : M mem Z :=
  match fuel with
  | O => throw OutOfFuel
  | S fuel =>
      let! x := load a in
      let! y := load b in
      if decide (x ≠ 0 ∧ x = y) then strcmp_loop fuel (a + 1) (b + 1)
      else ret (if decide (x < y) then -1 else if decide (y < x) then 1 else 0)
  end.

(** string.c 72-88 strcmp *)
Definition strcmp (a b : Z) : M mem Z :=
  assertM (bool_decide (a ≠ NULL));;!
  assertM (bool_decide (b ≠ NULL));;!
  fueled (λ fuel, strcmp_loop fuel a b).

(** string.c 101-105 memchr, the loop *)
Fixpoint memchr_loop (n : nat) (block ch : Z) : M mem Z :=
  match n with
  | O => ret NULL
  | S n =>
      let! x := load block in
      if decide (x = ch) then ret block else memchr_loop n (block + 1) ch
  end.

(** string.c 93-106 memchr *)
Definition memchr (block ch size : Z) : M mem Z :=
  let ch := ch mod 256 in
  assertM (bool_decide (block ≠ NULL ∨ size = 0));;!
  memchr_loop (Z.to_nat size) block ch.

(** string.c 119-125 strchr, the loop *)
Fixpoint strchr_loop (fuel : nat) (string c : Z) : M mem Z :=
  match fuel with
  | O => throw OutOfFuel
  | S fuel =>
      let! x := load string in
      if decide (x = c) then ret string
      else if decide (x = 0) then ret NULL
      else strchr_loop fuel (string + 1) c
  end.

(** string.c 112-126 strchr *)
Definition strchr (string c : Z) : M mem Z :=
  let c := c mod 256 in
  assertM (bool_decide (string ≠ NULL));;!
  fueled (λ fuel, strchr_loop fuel string c).

(** string.c 135-138 strcspn, the loop *)
Fixpoint strcspn_loop (fuel : nat) (string stop length : Z) : M mem Z :=
  match fuel with
  | O => throw OutOfFuel
  | S fuel =>
      let! x := load (string + length) in
      if decide (x ≠ 0) then
        let! q := strchr stop x in
        if decide (q ≠ NULL) then ret length
        else strcspn_loop fuel string stop (length + 1)
      else ret length
  end.

(** string.c 130-139 strcspn *)
Definition strcspn (string stop : Z) : M mem Z :=
  fueled (λ fuel, strcspn_loop fuel string stop 0).

(** string.c 147-150 strpbrk, the loop *)
Fixpoint strpbrk_loop (fuel : nat) (string stop : Z) : M mem Z :=
  match fuel with
  | O => throw OutOfFuel
  | S fuel =>
      let! x := load string in
      if decide (x ≠ 0) then
        let! q := strchr stop x in
        if decide (q ≠ NULL) then ret string else strpbrk_loop fuel (string + 1) stop
      else ret NULL
  end.

(** string.c 144-151 strpbrk *)
Definition strpbrk (string stop : Z) : M mem Z :=
  fueled (λ fuel, strpbrk_loop fuel string stop).

(** string.c 161-164 strrchr, the loop *)
Fixpoint strrchr_loop (fuel : nat) (string c p : Z) : M mem Z :=
  match fuel with
  | O => throw OutOfFuel
  | S fuel =>
      let! x := load string in
      if decide (x ≠ 0) then
        strrchr_loop fuel (string + 1) c (if decide (x = c) then string else p)
      else ret p
  end.

(** string.c 155-165 strrchr *)
Definition strrchr (string c : Z) : M mem Z :=
  let c := c mod 256 in
  fueled (λ fuel, strrchr_loop fuel string c NULL).

(** string.c 174-177 strspn, the loop *)
Fixpoint strspn_loop (fuel : nat) (string skip length : Z) : M mem Z :=
  match fuel with
  | O => throw OutOfFuel
  | S fuel =>
      let! x := load (string + length) in
      if decide (x ≠ 0) then
        let! q := strchr skip x in
        if decide (q = NULL) then ret length
        else strspn_loop fuel string skip (length + 1)
      else ret length
  end.

(** string.c 169-178 strspn *)
Definition strspn (string skip : Z) : M mem Z :=
  fueled (λ fuel, strspn_loop fuel string skip 0).

(** string.c 299-300 strlen, the loop *)
Fixpoint strlen_loop (fuel : nat) (p : Z) : M mem Z :=
  match fuel with
  | O => throw OutOfFuel
  | S fuel =>
      let! x := load p in
      if decide (x ≠ 0) then strlen_loop fuel (p + 1) else ret p
  end.

(** string.c 292-302 strlen *)
Definition strlen (string : Z) : M mem Z :=
  assertM (bool_decide (string ≠ NULL));;!
  let! p := fueled (λ fuel, strlen_loop fuel string) in
  ret (p - string).

(** string.c 311-312 strnlen, the loop.  The byte is read before the bound is tested. *)
Fixpoint strnlen_loop (fuel : nat) (string maxlen length : Z) : M mem Z :=
  match fuel with
  | O => throw OutOfFuel
  | S fuel =>
      let! x := load (string + length) in
      if decide (x ≠ 0 ∧ length < maxlen) then strnlen_loop fuel string maxlen (length + 1)
      else ret length
  end.

(** string.c 306-314 strnlen *)
Definition strnlen (string maxlen : Z) : M mem Z :=
  fueled (λ fuel, strnlen_loop fuel string maxlen 0).

(** string.c 193-195 strstr, the loop *)
Fixpoint strstr_loop (n : nat) (haystack needle needle_len i : Z) : M mem Z :=
  match n with
  | O => ret NULL
  | S n =>
      let! r := memcmp (haystack + i) needle needle_len in
      if decide (r = 0) then ret (haystack + i)
      else strstr_loop n haystack needle needle_len (i + 1)
  end.

(** string.c 183-199 strstr *)
Definition strstr (haystack needle : Z) : M mem Z :=
  let! haystack_len := strlen haystack in
  let! needle_len := strlen needle in
  if decide (needle_len ≤ haystack_len) then
    strstr_loop (Z.to_nat (haystack_len - needle_len + 1)) haystack needle needle_len 0
  else ret NULL.

(** string.c 249-261 strtok_r, the loop over leading delimiters: the first
    byte that is none, or [inl] of the terminator. *)
Fixpoint strtok_skip (fuel : nat) (s delimiters : Z) : M mem (Z + Z) :=
  match fuel with
  | O => throw OutOfFuel
  | S fuel =>
      let! x := load s in
      let! q := strchr delimiters x in
      if decide (q ≠ NULL) then
        if decide (x = 0) then ret (inl s) else strtok_skip fuel (s + 1) delimiters
      else ret (inr s)
  end.

(** string.c 265-266 strtok_r, the loop over the token *)
Fixpoint strtok_token (fuel : nat) (s delimiters : Z) : M mem Z :=
  match fuel with
  | O => throw OutOfFuel
  | S fuel =>
      let! x := load s in
      let! q := strchr delimiters x in
      if decide (q = NULL) then strtok_token fuel (s + 1) delimiters else ret s
  end.

(** string.c 234-275 strtok_r.  [save] is the value of [*save_ptr] before the
    call; the result is the token and the value of [*save_ptr] after it. *)
Definition strtok_r (s delimiters save : Z) : M mem (Z * Z) :=
  assertM (bool_decide (delimiters ≠ NULL));;!
  let s := if decide (s = NULL) then save else s in
  assertM (bool_decide (s ≠ NULL));;!
  let! r := fueled (λ fuel, strtok_skip fuel s delimiters) in
  match r with
  | inl s => ret (NULL, s)
  | inr token =>
      let! s := fueled (λ fuel, strtok_token fuel token delimiters) in
      let! x := load s in
      if decide (x ≠ 0) then store s 0;;! ret (token, s + 1)
      else ret (token, s)
  end.

(** string.c 285-286 memset, the loop *)
Fixpoint memset_loop (n : nat) (dst value : Z) : M mem unit :=
  match n with
  | O => ret tt
  | S n => store dst value;;! memset_loop n (dst + 1) value
  end.

(** string.c 278-289 memset *)
Definition memset (dst value size : Z) : M mem Z :=
  assertM (bool_decide (dst ≠ NULL ∨ size = 0));;!
  memset_loop (Z.to_nat size) dst value;;!
  ret dst.

(** string.c 325-343 strlcpy *)
Definition strlcpy (dst src size : Z) : M mem Z :=
  assertM (bool_decide (dst ≠ NULL));;!
  assertM (bool_decide (src ≠ NULL));;!
  let! src_len := strlen src in
  (if decide (0 < size) then
     let dst_len := size - 1 in
     let dst_len := if decide (src_len < dst_len) then src_len else dst_len in
     memcpy dst src dst_len;;!
     store (dst + dst_len) 0
   else ret tt);;!
  ret src_len.

(** string.c 355-374 strlcat *)
Definition strlcat (dst src size : Z) : M mem Z :=
  assertM (bool_decide (dst ≠ NULL));;!
  assertM (bool_decide (src ≠ NULL));;!
  let! src_len := strlen src in
  let! dst_len := strlen dst in
  (if decide (0 < size ∧ dst_len < size) then
     let copy_cnt := size - dst_len - 1 in
     let copy_cnt := if decide (src_len < copy_cnt) then src_len else copy_cnt in
     memcpy (dst + dst_len) src copy_cnt;;!
     store (dst + dst_len + copy_cnt) 0
   else ret tt);;!
  ret (src_len + dst_len).

(** ** Specifications *)

(** [m] holds the null-terminated string [s] at [p]. *)
Fixpoint cstr (m : mem) (p : Z) (s : list Z) : Prop :=
  match s with
  | [] => peek m p = Some 0
  | c :: s => peek m p = Some c ∧ 0 < c < 256 ∧ cstr m (p + 1) s
  end.

(** The index of the first [c] in the string [s] and its terminator. *)
Fixpoint str_index (c : Z) (s : list Z) : option nat :=
  match s with
  | [] => if decide (c = 0) then Some 0%nat else None
  | x :: s => if decide (x = c) then Some 0%nat else S <$> str_index c s
  end.

(** The tokens of [s]: its maximal non-empty runs of bytes not in [ds]; [cur]
    is the part already read of the current one. *)
Fixpoint split_on (ds cur s : list Z) : list (list Z) :=
  match s with
  | [] => match cur with [] => [] | _ => [cur] end
  | c :: s =>
      if decide (c ∈ ds) then
        match cur with [] => split_on ds [] s | _ => cur :: split_on ds [] s end
      else split_on ds (cur ++ [c]) s
  end.

(** The bytes of the string at [p], up to the terminator. *)
Fixpoint read_str (fuel : nat) (p : Z) : M mem (list Z) :=
  match fuel with
  | O => throw OutOfFuel
  | S fuel =>
      let! x := load p in
      if decide (x = 0) then ret []
      else let! s := read_str fuel (p + 1) in ret (x :: s)
  end.

(** The loop of the example in the comment of strtok_r (lines 219-226): calls
    it until it returns a null pointer and collects the tokens. *)
Fixpoint strtok_all (n : nat) (s delimiters save : Z) : M mem (list (list Z)) :=
  match n with
  | O => throw OutOfFuel
  | S n =>
      let! '(token, save) := strtok_r s delimiters save in
      if decide (token = NULL) then ret []
      else
        let! t := fueled (λ fuel, read_str fuel token) in
        let! ts := strtok_all n NULL delimiters save in
        ret (t :: ts)
  end.

(** The order strcmp decides on strings of bytes. *)
Fixpoint lex_cmp (a b : list Z) : Z :=
  match a, b with
  | [], [] => 0
  | [], _ :: _ => -1
  | _ :: _, [] => 1
  | x :: a, y :: b => if decide (x < y) then -1 else if decide (y < x) then 1 else lex_cmp a b
  end.

(** ** Loads, stores and strings *)
Lemma load_peek m p c : peek m p = Some c → load p m = Ret (c, m).
Proof. unfold load. by intros ->. Qed.

Lemma peek_range m p c : peek m p = Some c → 0 < p < Z.of_nat (length m).
Proof. unfold peek. case_decide; [|done]. intros ?%nthZ_Some. lia. Qed.

Lemma peek_lookup m (i : nat) : (0 < i)%nat → peek m (Z.of_nat i) = m !! i.
Proof.
  intros. unfold peek. rewrite decide_True by lia.
  rewrite nthZ_lookup, Nat2Z.id by lia. done.
Qed.

Lemma peek_insert_ne m p e v : p ≠ e → 0 < e → peek (<[Z.to_nat e:=v]> m) p = peek m p.
Proof.
  intros. unfold peek. case_decide; [|done]. rewrite !nthZ_lookup by lia.
  apply list_lookup_insert_ne. lia.
Qed.

Lemma peek_insert_eq m e v :
  0 < e < Z.of_nat (length m) → peek (<[Z.to_nat e:=v]> m) e = Some v.
Proof.
  intros. unfold peek. rewrite decide_True, nthZ_lookup by lia.
  apply list_lookup_insert_eq. lia.
Qed.

Lemma store_run m p c :
  0 < p < Z.of_nat (length m) → store p c m = Ret (tt, <[Z.to_nat p := c mod 256]> m).
Proof. intros. unfold store. by rewrite decide_True. Qed.

Lemma cstr_range m p s : cstr m p s → 0 < p ∧ p + Z.of_nat (length s) < Z.of_nat (length m).
Proof.
  revert p. induction s as [|c s IH]; intros p.
  - intros ?%peek_range. simpl. lia.
  - intros (?%peek_range & _ & ?%IH). simpl. lia.
Qed.

Lemma cstr_bytes m p s : cstr m p s → Forall (λ c, 0 < c < 256) s.
Proof.
  revert p. induction s as [|c s IH]; intros p; [constructor|].
  intros (_ & ? & ?%IH). by constructor.
Qed.

Lemma cstr_app_r m p a b : cstr m p (a ++ b) → cstr m (p + Z.of_nat (length a)) b.
Proof.
  revert p. induction a as [|c a IH]; intros p.
  - simpl. by rewrite Z.add_0_r.
  - intros (_ & _ & H%IH). simpl. by replace (p + Z.of_nat (S (length a)))
      with (p + 1 + Z.of_nat (length a)) by lia.
Qed.

Lemma cstr_store_out m p s e v :
  cstr m p s → 0 < e → e < p ∨ p + Z.of_nat (length s) < e → cstr (<[Z.to_nat e:=v]> m) p s.
Proof.
  revert p. induction s as [|c s IH]; intros p; simpl.
  - intros. rewrite peek_insert_ne by lia. done.
  - intros (?&?&?) ??. rewrite peek_insert_ne by lia. split_and!; try done; try lia.
    apply IH; [done..|lia].
Qed.

Lemma cstr_cut m p a c b :
  cstr m p (a ++ c :: b) →
  cstr (<[Z.to_nat (p + Z.of_nat (length a)) := 0]> m) p a.
Proof.
  revert p. induction a as [|x a IH]; intros p H; simpl.
  - rewrite Z.add_0_r. apply peek_insert_eq. destruct H as [H _]. by eapply peek_range.
  - destruct H as (?&?&H). pose proof (cstr_range _ _ _ H).
    rewrite peek_insert_ne by lia. split_and!; try done; try lia.
    replace (p + Z.of_nat (S (length a))) with (p + 1 + Z.of_nat (length a)) by lia.
    by apply IH.
Qed.

(** The fuel of [fueled] exceeds the length of every string in memory. *)
Lemma fueled_cstr {A} (loop : nat → M mem A) m p s r :
  cstr m p s → (∀ fuel, (length s < fuel)%nat → loop fuel m = r) → fueled loop m = r.
Proof. intros H Hl. unfold fueled. apply Hl. apply cstr_range in H. lia. Qed.

Lemma cstr_nonnull m p s : cstr m p s → bool_decide (p ≠ NULL) = true.
Proof. intros ?%cstr_range. apply bool_decide_true. unfold NULL. lia. Qed.

(** ** Scanning functions *)
Lemma strlen_loop_run s : ∀ fuel m p,
  cstr m p s → (length s < fuel)%nat → strlen_loop fuel p m = Ret (p + Z.of_nat (length s), m).
Proof.
  induction s as [|c s IH]; intros [|fuel] m p H Hf; simpl in *; try lia.
  - erewrite bind_run by (by apply load_peek). rewrite decide_False by auto.
    unfold ret. do 2 f_equal. lia.
  - destruct H as (Hc & ? & H). erewrite bind_run by (by apply load_peek).
    rewrite decide_True by lia. rewrite IH by (done || lia). do 2 f_equal. lia.
Qed.

Lemma strlen_run m p s : cstr m p s → strlen p m = Ret (Z.of_nat (length s), m).
Proof.
  intros H. unfold strlen. rewrite bind_assert by by eapply cstr_nonnull.
  erewrite bind_run; last first.
  { eapply fueled_cstr; [done|]. intros. by apply strlen_loop_run. }
  unfold ret. do 2 f_equal. lia.
Qed.

Lemma strchr_loop_run s c : ∀ fuel m p,
  cstr m p s → (length s < fuel)%nat →
  strchr_loop fuel p c m =
    Ret (match str_index c s with Some i => p + Z.of_nat i | None => NULL end, m).
Proof.
  induction s as [|x s IH]; intros [|fuel] m p H Hf; simpl in *; try lia.
  - erewrite bind_run by (by apply load_peek). destruct (decide (0 = c)) as [<-|].
    + rewrite decide_True by done. unfold ret. do 2 f_equal. lia.
    + rewrite (decide_False (P := c = 0)) by auto. by rewrite decide_True.
  - destruct H as (Hc & ? & H). erewrite bind_run by (by apply load_peek).
    destruct (decide (x = c)) as [->|].
    { unfold ret. do 2 f_equal. lia. }
    rewrite decide_False by lia. rewrite IH by (done || lia).
    destruct (str_index c s); simpl; do 2 f_equal; lia.
Qed.

(** strchr returns the address of the first occurrence, the terminator's for 0. *)
Lemma strchr_run m p s c :
  cstr m p s → 0 ≤ c < 256 →
  strchr p c m = Ret (match str_index c s with Some i => p + Z.of_nat i | None => NULL end, m).
Proof.
  intros H Hc. unfold strchr. rewrite bind_assert, Z.mod_small by (done || by eapply cstr_nonnull).
  eapply fueled_cstr; [done|]. intros. by apply strchr_loop_run.
Qed.

Lemma str_index_None c s : str_index c s = None ↔ c ≠ 0 ∧ c ∉ s.
Proof.
  induction s as [|x s IH]; simpl.
  - case_decide; split; intros H'; try done; [by destruct H'|].
    split; [done|apply not_elem_of_nil].
  - case_decide; subst.
    + split; [done|]. intros [_ Hn]. exfalso. apply Hn, list_elem_of_here.
    + rewrite fmap_None, IH, elem_of_cons. intuition congruence.
Qed.

(** The test [strchr (ds, c) != NULL] of the tokenizer. *)
Lemma strchr_delim m d ds c :
  cstr m d ds → 0 ≤ c < 256 →
  ∃ q, strchr d c m = Ret (q, m) ∧ (q = NULL ↔ c ≠ 0 ∧ c ∉ ds).
Proof.
  intros H Hc. pose proof (cstr_range _ _ _ H). eexists. split; [by apply strchr_run|].
  rewrite <-str_index_None. destruct (str_index c ds); unfold NULL; intuition (try done; try lia).
Qed.

(** ** strtok_r *)
Lemma strtok_skip_run ds d pre : ∀ fuel m p rest,
  cstr m d ds → cstr m p (pre ++ rest) → Forall (.∈ ds) pre →
  match rest with [] => True | c :: _ => c ∉ ds end →
  (length pre < fuel)%nat →
  strtok_skip fuel p d m =
    Ret ((match rest with [] => inl | _ => inr end) (p + Z.of_nat (length pre)), m).
Proof.
  induction pre as [|x pre IH]; intros [|fuel] m p rest Hd H Hpre Hrest Hf; simpl in *; try lia.
  - rewrite Z.add_0_r. destruct rest as [|c rest].
    + erewrite bind_run by (by apply load_peek).
      destruct (strchr_delim m d ds 0 Hd) as (q & Hq & Hn); [lia|].
      erewrite bind_run by done. rewrite decide_True, decide_True by (done || tauto). done.
    + destruct H as (Hc & ? & H). erewrite bind_run by (by apply load_peek).
      destruct (strchr_delim m d ds c Hd) as (q & Hq & Hn); [lia|].
      erewrite bind_run by done. rewrite decide_False; [done|].
      intros Hx. apply Hx, Hn. split; [lia|done].
  - destruct H as (Hc & ? & H). apply Forall_cons in Hpre as [Hx Hpre].
    erewrite bind_run by (by apply load_peek).
    destruct (strchr_delim m d ds x Hd) as (q & Hq & Hn); [lia|].
    erewrite bind_run by done. rewrite decide_True by tauto. rewrite decide_False by lia.
    rewrite (IH _ _ _ rest) by (done || lia).
    replace (p + 1 + Z.of_nat (length pre)) with (p + Z.of_nat (S (length pre))) by lia. done.
Qed.

Lemma strtok_token_run ds d tok : ∀ fuel m p rest,
  cstr m d ds → cstr m p (tok ++ rest) → Forall (.∉ ds) tok →
  match rest with [] => True | c :: _ => c ∈ ds end →
  (length tok < fuel)%nat →
  strtok_token fuel p d m = Ret (p + Z.of_nat (length tok), m).
Proof.
  induction tok as [|x tok IH]; intros [|fuel] m p rest Hd H Htok Hrest Hf; simpl in *; try lia.
  - assert (∃ c, peek m p = Some c ∧ 0 ≤ c < 256 ∧ (c = 0 ∨ c ∈ ds)) as (c & Hp & ? & Hc).
    { destruct rest as [|c rest]; [by exists 0; auto with lia|].
      destruct H as (?&?&?). exists c. split_and!; auto; lia. }
    erewrite bind_run by (by apply load_peek).
    destruct (strchr_delim m d ds c Hd) as (q & Hq & Hn); [lia|].
    erewrite bind_run by done. rewrite decide_False by tauto.
    unfold ret. do 2 f_equal. lia.
  - destruct H as (Hc & ? & H). apply Forall_cons in Htok as [Hx Htok].
    erewrite bind_run by (by apply load_peek).
    destruct (strchr_delim m d ds x Hd) as (q & Hq & Hn); [lia|].
    erewrite bind_run by done. rewrite decide_True by (apply Hn; split; [lia|done]).
    rewrite (IH _ _ _ rest) by (done || lia). do 2 f_equal. lia.
Qed.

(** Every string is leading delimiters, a token, and what follows it. *)
Lemma tok_decompose (ds s : list Z) :
  ∃ pre tok rest : list Z, s = pre ++ tok ++ rest ∧ Forall (.∈ ds) pre ∧ Forall (.∉ ds) tok ∧
    (tok = [] → rest = []) ∧ match rest with [] => True | c :: _ => c ∈ ds end.
Proof.
  induction s as [|c s (pre & tok & rest & -> & Hpre & Htok & Hnil & Hrest)].
  { exists [], [], []. split_and!; auto. }
  destruct (decide (c ∈ ds)).
  { exists (c :: pre), tok, rest. split_and!; auto. }
  destruct pre as [|x pre].
  - exists [], (c :: tok), rest. split_and!; auto. done.
  - apply Forall_cons in Hpre as [Hx Hpre].
    exists [], [c], (x :: pre ++ tok ++ rest). split_and!; auto. done.
Qed.

Lemma split_on_pre (ds pre s : list Z) : Forall (.∈ ds) pre → split_on ds [] (pre ++ s) = split_on ds [] s.
Proof. induction 1; simpl; [done|]. by rewrite decide_True. Qed.

Lemma split_on_tok (ds tok : list Z) : ∀ cur rest,
  Forall (.∉ ds) tok → split_on ds cur (tok ++ rest) = split_on ds (cur ++ tok) rest.
Proof.
  induction tok as [|c tok IH]; intros cur rest Ht; simpl; [by rewrite app_nil_r|].
  apply Forall_cons in Ht as [Hc Ht]. rewrite decide_False, IH by done. by rewrite <-app_assoc.
Qed.

(** One call of strtok_r, in terms of the tokens that remain. *)
Lemma strtok_r_run m d ds s0 save p s :
  p = (if decide (s0 = NULL) then save else s0) →
  cstr m d ds → cstr m p s → d + Z.of_nat (length ds) < p ∨ p + Z.of_nat (length s) < d →
  ∃ t save' m', strtok_r s0 d save m = Ret ((t, save'), m') ∧
    match split_on ds [] s with
    | [] => t = NULL ∧ m' = m
    | tok :: toks =>
        t ≠ NULL ∧ cstr m' t tok ∧ cstr m' d ds ∧
        ∃ s', cstr m' save' s' ∧ split_on ds [] s' = toks ∧ (length s' < length s)%nat ∧
              p ≤ save' ∧ save' + Z.of_nat (length s') = p + Z.of_nat (length s)
    end.
Proof.
  intros Hp Hd Hs Hdisj. unfold strtok_r.
  rewrite bind_assert by by eapply cstr_nonnull. rewrite <-Hp.
  rewrite bind_assert by by eapply cstr_nonnull.
  destruct (tok_decompose ds s) as (pre & tok & rest & -> & Hpre & Htok & Hnil & Hrest).
  pose proof (cstr_range _ _ _ Hs) as Hrange. rewrite !length_app in *.
  rewrite split_on_pre, split_on_tok by done. cbn [app].
  assert (Hskip : fueled (λ fuel, strtok_skip fuel p d) m =
    Ret ((match tok ++ rest with [] => inl | _ => inr end) (p + Z.of_nat (length pre)), m)).
  { eapply fueled_cstr; [done|]. intros fuel ?. rewrite !length_app in *.
    apply strtok_skip_run with ds; try done; [|lia].
    destruct tok as [|c tok]; [by rewrite Hnil|]. by apply Forall_cons in Htok as [??]. }
  erewrite bind_run by exact Hskip.
  destruct tok as [|c tok].
  { rewrite Hnil by done. simpl. by eexists _, _, _. }
  cbn [app]. pose proof (cstr_app_r _ _ _ _ Hs) as Ht.
  assert (Htk : fueled (λ fuel, strtok_token fuel (p + Z.of_nat (length pre)) d) m =
    Ret (p + Z.of_nat (length pre) + Z.of_nat (length (c :: tok)), m)).
  { eapply fueled_cstr; [done|]. intros fuel ?. rewrite !length_app in *.
    apply strtok_token_run with ds rest; try done. lia. }
  erewrite bind_run by exact Htk. pose proof (cstr_app_r _ _ _ _ Ht) as Hr.
  unfold NULL. destruct rest as [|x rest].
  - erewrite bind_run by (by apply load_peek). rewrite decide_False by auto.
    cbn [split_on]. eexists _, _, _. split; [done|].
    refine (conj _ (conj _ (conj Hd _))); [lia|by rewrite app_nil_r in Ht|].
    exists []. simpl in *. refine (conj Hr _). split_and!; try done; lia.
  - destruct Hr as (Hx & ? & Hr). erewrite bind_run by (by apply load_peek).
    rewrite decide_True by lia. pose proof (peek_range _ _ _ Hx).
    pose proof (cstr_range _ _ _ Hr).
    cbn [split_on]. rewrite decide_True by done. simpl length in *.
    erewrite bind_run by by apply store_run. rewrite Z.mod_0_l by done.
    eexists _, _, _. split; [done|]. refine (conj _ (conj _ (conj _ _))); [lia| | |].
    + exact (cstr_cut _ _ _ _ _ Ht).
    + apply cstr_store_out; [done|lia|lia].
    + exists rest. refine (conj _ _); [apply cstr_store_out; [done|lia|lia]|].
      split_and!; try done; lia.
Qed.

Lemma read_str_run s : ∀ fuel m p,
  cstr m p s → (length s < fuel)%nat → read_str fuel p m = Ret (s, m).
Proof.
  induction s as [|c s IH]; intros [|fuel] m p H Hf; simpl in *; try lia.
  - by erewrite bind_run by (by apply load_peek).
  - destruct H as (Hc & ? & H). erewrite bind_run by (by apply load_peek).
    rewrite decide_False by lia. by erewrite bind_run by (apply IH; [done|lia]).
Qed.

Lemma strtok_all_run n : ∀ m d ds s0 save p s,
  p = (if decide (s0 = NULL) then save else s0) →
  cstr m d ds → cstr m p s → d + Z.of_nat (length ds) < p ∨ p + Z.of_nat (length s) < d →
  (length s < n)%nat →
  ∃ m', strtok_all n s0 d save m = Ret (split_on ds [] s, m').
Proof.
  induction n as [|n IH]; intros m d ds s0 save p s Hp Hd Hs Hdisj Hn; [lia|].
  cbn [strtok_all].
  destruct (strtok_r_run m d ds s0 save p s) as (t & save' & m' & Hrun & Hres); [done..|].
  erewrite bind_run by exact Hrun. cbn beta iota.
  destruct (split_on ds [] s) as [|tok toks].
  { destruct Hres as [-> ->]. rewrite decide_True by done. by exists m. }
  destruct Hres as (Ht & Hct & Hcd & s' & Hcs & <- & Hlen & Hle & Hend).
  rewrite decide_False by done.
  erewrite bind_run; last first.
  { eapply fueled_cstr; [exact Hct|]. intros. by apply read_str_run. }
  destruct (IH m' d ds NULL save' save' s') as (m2 & Hm2); try done; try lia.
  erewrite bind_run by exact Hm2. by exists m2.
Qed.

Lemma split_on_concat (ds : list Z) s : ∀ cur,
  concat (split_on ds cur s) = cur ++ filter (.∉ ds) s.
Proof.
  induction s as [|c s IH]; intros cur; cbn [split_on].
  - destruct cur; simpl; by rewrite ?app_nil_r.
  - rewrite filter_cons. destruct (decide (c ∈ ds)).
    + rewrite decide_False by auto. destruct cur; simpl; by rewrite IH.
    + rewrite decide_True by done. rewrite IH. by rewrite <-app_assoc.
Qed.

Lemma split_on_tokens (ds : list Z) s : ∀ cur,
  Forall (.∉ ds) cur → Forall (λ t, t ≠ [] ∧ Forall (.∉ ds) t) (split_on ds cur s).
Proof.
  induction s as [|c s IH]; intros cur Hcur; cbn [split_on].
  - destruct cur; [constructor|]. by apply Forall_singleton.
  - destruct (decide (c ∈ ds)).
    + destruct cur; [by apply IH|]. constructor; [done|]. by apply IH.
    + apply IH, Forall_app. auto.
Qed.

(** the client loop over strtok_r returns, and the tokens it collects are
    the maximal runs of non-delimiters of the string, in order: none is empty or
    holds a delimiter, and together they are the string without its delimiters.
    The string is cut in place, so the delimiters must lie outside it. *)
Theorem strtok_r_tokens (m : mem) (p d save : Z) (s ds : list Z)
    (Hs : cstr m p s) (Hd : cstr m d ds)
    (Hdisj : d + Z.of_nat (length ds) < p ∨ p + Z.of_nat (length s) < d) :
  ∃ m' toks, strtok_all (S (length s)) p d save m = Ret (toks, m') ∧
    toks = split_on ds [] s ∧
    concat toks = filter (.∉ ds) s ∧
    Forall (λ t, t ≠ [] ∧ Forall (.∉ ds) t) toks.
Proof.
  destruct (strtok_all_run (S (length s)) m d ds p save p s) as (m' & Hm'); try done; [|lia|].
  { rewrite decide_False; [done|]. apply cstr_range in Hs. unfold NULL. lia. }
  exists m', (split_on ds [] s). split_and!; [done..| |].
  - apply split_on_concat.
  - by apply split_on_tokens.
Qed.

(** "/a//bc/" at address 1 and "/" at address 9. *)
Definition path_mem : mem := [0; 47; 97; 47; 47; 98; 99; 47; 0; 47; 0].

Lemma strtok_r_tokens_witness :
  (∃ m', strtok_all 8 1 9 0 path_mem = Ret ([[97]; [98; 99]], m')) ∧
  ∃ m' toks, strtok_all 8 1 9 0 path_mem = Ret (toks, m') ∧
    toks = split_on [47] [] [47; 97; 47; 47; 98; 99; 47] ∧
    concat toks = filter (.∉ [47]) [47; 97; 47; 47; 98; 99; 47] ∧
    Forall (λ t, t ≠ [] ∧ Forall (.∉ [47]) t) toks.
Proof.
  split; [eexists; vm_compute; reflexivity|].
  apply (strtok_r_tokens path_mem 1 9 0 [47; 97; 47; 47; 98; 99; 47] [47]).
  - vm_compute. repeat split; congruence.
  - vm_compute. repeat split; congruence.
  - right. simpl. lia.
Defined.

(** ** Comparing *)
Lemma strcmp_loop_run a : ∀ fuel m p q b,
  cstr m p a → cstr m q b → (length a < fuel)%nat →
  strcmp_loop fuel p q m = Ret (lex_cmp a b, m).
Proof.
  induction a as [|x a IH]; intros [|fuel] m p q b Ha Hb Hf; simpl in *; try lia.
  - erewrite bind_run by (by apply load_peek). destruct b as [|y b].
    + erewrite bind_run by (by apply load_peek). by rewrite decide_False by lia.
    + destruct Hb as (Hy & ? & _). erewrite bind_run by (by apply load_peek).
      rewrite decide_False by lia. by rewrite decide_True by lia.
  - destruct Ha as (Hx & ? & Ha). erewrite bind_run by (by apply load_peek). destruct b as [|y b].
    + erewrite bind_run by (by apply load_peek). rewrite decide_False by lia.
      rewrite decide_False by lia. by rewrite decide_True by lia.
    + destruct Hb as (Hy & ? & Hb). erewrite bind_run by (by apply load_peek).
      destruct (decide (x = y)) as [->|].
      * rewrite decide_True by lia. rewrite !(decide_False (P := y < y)) by lia.
        apply IH; [done..|lia].
      * rewrite decide_False by tauto. by repeat case_decide; try lia.
Qed.

(** strcmp returns, and compares the strings as unsigned bytes. *)
Lemma strcmp_run m p q a b :
  cstr m p a → cstr m q b → strcmp p q m = Ret (lex_cmp a b, m).
Proof.
  intros Ha Hb. unfold strcmp. rewrite !bind_assert by by eapply cstr_nonnull.
  eapply fueled_cstr; [exact Ha|]. intros. by apply strcmp_loop_run.
Qed.

Lemma lex_cmp_eq a b : lex_cmp a b = 0 ↔ a = b.
Proof.
  revert b. induction a as [|x a IH]; intros [|y b]; simpl; try done.
  repeat case_decide; try (split; [done|intros [= ??]; lia]).
  rewrite IH. assert (x = y) as -> by lia. split; congruence.
Qed.

(** ** Copying *)
Lemma load_lookup m (i : nat) c : (0 < i)%nat → m !! i = Some c → load (Z.of_nat i) m = Ret (c, m).
Proof. intros. apply load_peek. by rewrite peek_lookup. Qed.

Lemma store_lookup m (i : nat) c :
  (0 < i < length m)%nat → byte c → store (Z.of_nat i) c m = Ret (tt, <[i := c]> m).
Proof.
  unfold byte. intros. rewrite store_run, Nat2Z.id, Z.mod_small by lia. done.
Qed.

(** An ascending copy moves the block when no source byte is overwritten before
    it is read. *)
Lemma copy_up_run n : ∀ m d s,
  Forall byte m → (0 < d)%nat → (0 < s)%nat → (d + n ≤ length m)%nat → (s + n ≤ length m)%nat →
  ¬ (s < d < s + n)%nat →
  copy_up n (Z.of_nat d) (Z.of_nat s) m = Ret (tt, splice m d (sub m s n)).
Proof.
  induction n as [|n IH]; intros m d s Hb ?????.
  { change (sub m s 0) with (@nil Z). by rewrite splice_nil. }
  destruct (lookup_lt_is_Some_2 m s) as [c Hc]; [lia|].
  cbn [copy_up]. erewrite bind_run by (by apply load_lookup).
  erewrite bind_run by (apply store_lookup; [lia|by eapply Forall_lookup_1]).
  replace (Z.of_nat d + 1) with (Z.of_nat (S d)) by lia.
  replace (Z.of_nat s + 1) with (Z.of_nat (S s)) by lia.
  assert (byte c) by by eapply Forall_lookup_1.
  rewrite IH by (rewrite ?length_insert; try lia; by apply Forall_insert).
  rewrite (sub_S m _ _ c) by done. do 2 f_equal.
  destruct (decide (s = d)) as [->|].
  - rewrite sub_insert_out by lia. apply splice_insert_front.
    rewrite length_sub by lia. lia.
  - rewrite sub_insert_out by lia. apply splice_insert_front.
    rewrite length_sub by lia. lia.
Qed.

(** A descending copy, from the ends of the blocks, likewise. *)
Lemma copy_down_run n : ∀ m d s,
  Forall byte m → (0 < d)%nat → (0 < s)%nat → (d + n ≤ length m)%nat → (s + n ≤ length m)%nat →
  ¬ (d < s < d + n)%nat →
  copy_down n (Z.of_nat (d + n)) (Z.of_nat (s + n)) m = Ret (tt, splice m d (sub m s n)).
Proof.
  induction n as [|n IH]; intros m d s Hb ?????.
  { change (sub m s 0) with (@nil Z). by rewrite splice_nil. }
  destruct (lookup_lt_is_Some_2 m (s + n)) as [c Hc]; [lia|].
  cbn [copy_down].
  replace (Z.of_nat (s + S n) - 1) with (Z.of_nat (s + n)) by lia.
  replace (Z.of_nat (d + S n) - 1) with (Z.of_nat (d + n)) by lia.
  erewrite bind_run by (apply load_lookup; [lia|done]).
  assert (byte c) by by eapply Forall_lookup_1.
  erewrite bind_run by (apply store_lookup; [lia|done]).
  rewrite IH by (rewrite ?length_insert; try lia; by apply Forall_insert).
  rewrite (sub_snoc m _ _ c) by done. do 2 f_equal.
  rewrite sub_insert_out by lia.
  pose proof (splice_insert_back m d c (sub m s n)) as Hsp. rewrite length_sub in Hsp by lia.
  apply Hsp. lia.
Qed.

Lemma memcpy_run m d s n :
  Forall byte m → (0 < d)%nat → (0 < s)%nat → (d + n ≤ length m)%nat → (s + n ≤ length m)%nat →
  ¬ (s < d < s + n)%nat →
  memcpy (Z.of_nat d) (Z.of_nat s) (Z.of_nat n) m = Ret (Z.of_nat d, splice m d (sub m s n)).
Proof.
  intros. unfold memcpy, NULL. rewrite !bind_assert by (apply bool_decide_true; lia).
  erewrite bind_run by (rewrite Nat2Z.id; by apply copy_up_run). done.
Qed.

(** C33: memmove copies the block as it was, whatever the overlap of source and
    destination, and changes nothing else.  It returns [dst] only when it copies
    downwards; copying upwards it returns [dst + size], although the comment says
    it returns [dst]. *)
Theorem memmove_any_overlap (m : mem) (d s n : nat)
    (Hb : Forall byte m) (Hd : (0 < d)%nat) (Hs : (0 < s)%nat)
    (Hdn : (d + n ≤ length m)%nat) (Hsn : (s + n ≤ length m)%nat) :
  memmove (Z.of_nat d) (Z.of_nat s) (Z.of_nat n) m =
    Ret (if decide (d < s)%nat then Z.of_nat (d + n) else Z.of_nat d, splice m d (sub m s n)).
Proof.
  unfold memmove, NULL. rewrite !bind_assert by (apply bool_decide_true; lia).
  rewrite Nat2Z.id. destruct (decide (d < s)%nat).
  - rewrite decide_True by lia. erewrite bind_run by (apply copy_up_run; done || lia).
    unfold ret. do 2 f_equal. lia.
  - rewrite decide_False by lia. rewrite <-!Nat2Z.inj_add.
    erewrite bind_run by (apply copy_down_run; done || lia).
    unfold ret. do 2 f_equal. lia.
Qed.

Lemma memmove_any_overlap_witness :

  memmove (Z.of_nat 1) (Z.of_nat 2) (Z.of_nat 3) [0; 1; 2; 3; 4] =
    Ret (4, [0; 2; 3; 4; 4]) ∧
  memmove (Z.of_nat 2) (Z.of_nat 1) (Z.of_nat 3) [0; 1; 2; 3; 4] =
    Ret (2, [0; 1; 1; 2; 3]).
Proof.
  split.
  - rewrite (memmove_any_overlap [0; 1; 2; 3; 4] 1 2 3);
      [reflexivity|repeat constructor; unfold byte; lia|simpl; lia..].
  - rewrite (memmove_any_overlap [0; 1; 2; 3; 4] 2 1 3);
      [reflexivity|repeat constructor; unfold byte; lia|simpl; lia..].
Defined.

(** ** Bounded copies of strings *)
Lemma cstr_sub s : ∀ m (p : nat), cstr m (Z.of_nat p) s → sub m p (length s) = s.
Proof.
  induction s as [|c s IH]; intros m p H; [done|].
  simpl in H. destruct H as (Hp & _ & H). pose proof (peek_range _ _ _ Hp).
  rewrite peek_lookup in Hp by lia. cbn [length]. rewrite (sub_S _ _ _ c) by done.
  f_equal. apply IH. by replace (Z.of_nat (S p)) with (Z.of_nat p + 1) by lia.
Qed.

(** The copy and the terminator that strlcpy and strlcat write. *)
Lemma copy_terminated m (d p k : nat) s :
  Forall byte m → cstr m (Z.of_nat p) s → (k ≤ length s)%nat → (0 < d)%nat →
  (d + S k ≤ length m)%nat → ¬ (p < d < p + k)%nat →
  (let! _ := memcpy (Z.of_nat d) (Z.of_nat p) (Z.of_nat k) in
   store (Z.of_nat d + Z.of_nat k) 0) m = Ret (tt, splice m d (take k s ++ [0])).
Proof.
  intros Hb Hs ????. pose proof (cstr_range _ _ _ Hs).
  erewrite bind_run by (apply memcpy_run; done || lia).
  rewrite (sub_sub _ _ (length s)), cstr_sub by done.
  replace (Z.of_nat d + Z.of_nat k) with (Z.of_nat (d + k)) by lia.
  rewrite store_lookup; [|rewrite length_splice; rewrite ?length_take; lia|unfold byte; lia].
  do 2 f_equal. rewrite <-insert_splice_end by (rewrite length_take; lia).
  rewrite length_take. do 2 f_equal. lia.
Qed.

(** strlcpy into a buffer of [size] bytes that does not overlap the source:
    it writes the longest prefix that fits and its terminator at the start of
    the buffer and nothing else (nothing at all when [size] is 0), and returns
    the length of the source, from which the caller sees a truncation. *)
Theorem strlcpy_bounded (m : mem) (d p size : nat) (s : list Z)
    (Hb : Forall byte m) (Hs : cstr m (Z.of_nat p) s) (Hd : (0 < d)%nat)
    (Hfit : (d + size ≤ length m)%nat)
    (Hdisj : (d + size ≤ p ∨ p + length s < d)%nat) :
  strlcpy (Z.of_nat d) (Z.of_nat p) (Z.of_nat size) m =
    Ret (Z.of_nat (length s),
         if decide (size = 0)%nat then m else splice m d (take (size - 1) s ++ [0])).
Proof.
  pose proof (cstr_range _ _ _ Hs). unfold strlcpy, NULL.
  rewrite !bind_assert by (apply bool_decide_true; lia).
  erewrite bind_run by by apply strlen_run.
  destruct (decide (size = 0)%nat) as [->|]; [done|].
  rewrite decide_True by lia.
  set (k := (length s `min` (size - 1))%nat).
  replace (if decide (Z.of_nat (length s) < Z.of_nat size - 1)
           then Z.of_nat (length s) else Z.of_nat size - 1) with (Z.of_nat k)
    by (subst k; case_decide; lia).
  erewrite bind_run by (apply (copy_terminated _ _ _ _ s); subst k; done || lia).
  unfold ret. do 4 f_equal. subst k.
  destruct (decide (length s ≤ size - 1)%nat).
  - by rewrite !take_ge by lia.
  - f_equal. lia.
Qed.

Lemma strlcpy_bounded_witness :
  cstr path_mem 1 [47; 97; 47; 47; 98; 99; 47] ∧
  strlcpy (Z.of_nat 9) (Z.of_nat 1) (Z.of_nat 4) (path_mem ++ [7; 7; 7]) =
    Ret (7, [0; 47; 97; 47; 47; 98; 99; 47; 0; 47; 97; 47; 0; 7]).
Proof.
  split; [vm_compute; repeat split; congruence|].
  rewrite (strlcpy_bounded (path_mem ++ [7; 7; 7]) 9 1 4 [47; 97; 47; 47; 98; 99; 47]).
  - vm_compute. reflexivity.
  - unfold byte. repeat constructor; lia.
  - vm_compute. repeat split; congruence.
  - lia.
  - simpl. lia.
  - right. simpl. lia.
Defined.

(** strlcat appends within the bound in the same way. *)
Lemma strlcat_run m (d p size : nat) s t :
  Forall byte m → cstr m (Z.of_nat p) s → cstr m (Z.of_nat d) t →
  (length t < size)%nat → (d + size ≤ length m)%nat →
  (d + size ≤ p ∨ p + length s < d)%nat →
  strlcat (Z.of_nat d) (Z.of_nat p) (Z.of_nat size) m =
    Ret (Z.of_nat (length s) + Z.of_nat (length t),
         splice m (d + length t) (take (size - length t - 1) s ++ [0])).
Proof.
  intros Hb Hs Ht ???. pose proof (cstr_range _ _ _ Hs). pose proof (cstr_range _ _ _ Ht).
  unfold strlcat, NULL. rewrite !bind_assert by (apply bool_decide_true; lia).
  erewrite bind_run by by apply strlen_run. erewrite bind_run by by apply strlen_run.
  rewrite decide_True by lia.
  set (k := (length s `min` (size - length t - 1))%nat).
  replace (if decide (Z.of_nat (length s) < Z.of_nat size - Z.of_nat (length t) - 1)
           then Z.of_nat (length s) else Z.of_nat size - Z.of_nat (length t) - 1)
    with (Z.of_nat k) by (subst k; case_decide; lia).
  rewrite <-Nat2Z.inj_add.
  erewrite bind_run by (apply (copy_terminated _ _ _ _ s); subst k; done || lia).
  unfold ret. do 4 f_equal. subst k.
  destruct (decide (length s ≤ size - length t - 1)%nat).
  - by rewrite !take_ge by lia.
  - f_equal. lia.
Qed.
