(* ===== verification/Arith.v ===== *)
(** 64-bit division on a 32-bit machine: lib/arithmetic.c of Project5, with the
    wrap-around of [uint64_t], [int64_t] and the types its results pass through. *)
From S2P Require Import Prelude.
Local Open Scope Z_scope.

Definition u64 (x : Z) : Z := x mod 18446744073709551616.
Definition s64 (x : Z) : Z := (x + 9223372036854775808) mod 18446744073709551616 - 9223372036854775808.

(** arithmetic.c 25-37 divl.  The DIVL instruction traps if the quotient does not
    fit in 32 bits. *)
Definition divl (n d : Z) : outcome Z :=
  let n1 := u32 (n / 4294967296) in
  let n0 := u32 n in
  if decide (d = 0 ∨ 4294967296 ≤ (n1 * 4294967296 + n0) / d) then Err Fault else Ret ((n1 * 4294967296 + n0) / d).

(** arithmetic.c 41-73 nlz *)
Definition nlz (x : Z) : Z :=
  let n := 0 in
  let '(n, x) := if decide (x ≤ 0x0000FFFF) then (n + 16, u32 (Z.shiftl x 16)) else (n, x) in
  let '(n, x) := if decide (x ≤ 0x00FFFFFF) then (n + 8, u32 (Z.shiftl x 8)) else (n, x) in
  let '(n, x) := if decide (x ≤ 0x0FFFFFFF) then (n + 4, u32 (Z.shiftl x 4)) else (n, x) in
  let '(n, x) := if decide (x ≤ 0x3FFFFFFF) then (n + 2, u32 (Z.shiftl x 2)) else (n, x) in
  if decide (x ≤ 0x7FFFFFFF) then n + 1 else n.

(** arithmetic.c 77-127 udiv64 *)
Definition udiv64 (n d : Z) : outcome Z :=
  if decide (Z.shiftr d 32 = 0) then
    let b := Z.shiftl 1 32 in
    let n1 := u32 (Z.shiftr n 32) in
    let n0 := u32 n in
    let d0 := u32 d in
    if decide (d0 = 0) then Err Fault
    else
      let* q := divl (u64 (b * (n1 mod d0) + n0)) d0 in
      Ret (u64 (q + b * (n1 / d0)))
  else if decide (n < d) then Ret 0
  else
    let d1 := u32 (Z.shiftr d 32) in
    let s := nlz d1 in
    let* q := divl (Z.shiftr n 1) (u32 (Z.shiftr (u64 (Z.shiftl d s)) 32)) in
    let q := Z.shiftr q (31 - s) in
    Ret (if decide (u64 (n - (q - 1) * d) < d) then u64 (q - 1) else q).

(** arithmetic.c 131-135 umod64.  It returns a [uint32_t]. *)
Definition umod64 (n d : Z) : outcome Z :=
  let* q := udiv64 n d in Ret (u32 (u64 (n - d * q))).

(** arithmetic.c 139-146 sdiv64 *)
Definition sdiv64 (n d : Z) : outcome Z :=
  let n_abs := if decide (0 ≤ n) then u64 n else u64 (- u64 n) in
  let d_abs := if decide (0 ≤ d) then u64 d else u64 (- u64 d) in
  let* q_abs := udiv64 n_abs d_abs in
  Ret (if Bool.eqb (bool_decide (n < 0)) (bool_decide (d < 0)) then s64 q_abs else s64 (- s64 q_abs)).

(** arithmetic.c 150-154 smod64.  It returns an [int32_t]. *)
Definition smod64 (n d : Z) : outcome Z :=
  let* q := sdiv64 n d in Ret (s32 (s64 (n - d * q))).

(** arithmetic.c 164-168 __divdi3 *)
Definition __divdi3 (n d : Z) : outcome Z := sdiv64 n d.
(** arithmetic.c 171-175 __moddi3 *)
Definition __moddi3 (n d : Z) : outcome Z := smod64 n d.
(** arithmetic.c 178-182 __udivdi3 *)
Definition __udivdi3 (n d : Z) : outcome Z := udiv64 n d.
(** arithmetic.c 185-189 __umoddi3 *)
Definition __umoddi3 (n d : Z) : outcome Z := umod64 n d.

(** ** Laws *)

Lemma u64_small x : 0 ≤ x < 18446744073709551616 → u64 x = x.
Proof. intros. unfold u64. by rewrite Z.mod_small. Qed.
Lemma s64_small x : -9223372036854775808 ≤ x < 9223372036854775808 → s64 x = x.
Proof. intros. unfold s64. rewrite Z.mod_small; lia. Qed.

Lemma divl_ok n d : 0 ≤ n < 18446744073709551616 → 0 < d → n < 4294967296 * d → divl n d = Ret (n / d).
Proof.
  intros Hn Hd Hq. unfold divl. assert (u32 (n / 4294967296) * 4294967296 + u32 n = n) as ->.
  { rewrite u32_small by mlia. unfold u32. mlia. }
  rewrite decide_False; [done|]. pose proof (Z.div_lt_upper_bound n d 4294967296 ltac:(lia)). lia.
Qed.

Lemma shl32 y k c : 0 ≤ y → 0 ≤ k → c = 2 ^ k → y * c < 4294967296 → u32 (Z.shiftl y k) = y * c.
Proof. intros Hy Hk -> Hb. rewrite Z.shiftl_mul_pow2 by lia. apply u32_small. pose proof (Z.pow_nonneg 2 k). nia. Qed.

(** One step: the operand is shifted if its [k] highest bits are zero. *)
Lemma nlz_step n y k c t : 0 ≤ k → c = 2 ^ k → (t + 1) * c = 4294967296 → t + 1 ≤ y * c → 0 ≤ y < 4294967296 →
  ∃ j, (if decide (y ≤ t) then (n + k, u32 (Z.shiftl y k)) else (n, y)) = (n + j, y * 2 ^ j) ∧
    0 ≤ j ≤ k ∧ t + 1 ≤ y * 2 ^ j < 4294967296.
Proof.
  intros Hk Hc Ht Hlow Hy. case_decide.
  - exists k. rewrite (shl32 y k c), <-Hc by (done || nia). split; [done|]. nia.
  - exists 0. rewrite Z.add_0_r, Z.mul_1_r. split; [done|]. lia.
Qed.

(** The number of leading zeros, by what shifting by it gives. *)
Lemma nlz_ok x : 0 < x < 4294967296 → 0 ≤ nlz x ≤ 31 ∧ 2147483648 ≤ x * 2 ^ nlz x < 4294967296.
Proof.
  intros Hx. unfold nlz.
  destruct (nlz_step 0 x 16 65536 0xFFFF) as (j1 & -> & J1 & B1); [lia..|]. set (y1 := x * 2 ^ j1) in *.
  destruct (nlz_step (0 + j1) y1 8 256 0xFFFFFF) as (j2 & -> & J2 & B2); [lia..|]. set (y2 := y1 * 2 ^ j2) in *.
  destruct (nlz_step (0 + j1 + j2) y2 4 16 0xFFFFFFF) as (j3 & -> & J3 & B3); [lia..|]. set (y3 := y2 * 2 ^ j3) in *.
  destruct (nlz_step (0 + j1 + j2 + j3) y3 2 4 0x3FFFFFFF) as (j4 & -> & J4 & B4); [lia..|]. set (y4 := y3 * 2 ^ j4) in *.
  assert (x * 2 ^ (j1 + j2 + j3 + j4) = y4) as E.
  { unfold y4, y3, y2, y1. rewrite !Z.pow_add_r by lia. ring. }
  case_decide.
  - replace (0 + j1 + j2 + j3 + j4 + 1) with (j1 + j2 + j3 + j4 + 1) by lia. rewrite Z.pow_add_r, Z.mul_assoc, E by lia. lia.
  - replace (0 + j1 + j2 + j3 + j4) with (j1 + j2 + j3 + j4) by lia. rewrite E. lia.
Qed.

(** The case of a divisor of 32 bits. *)
Lemma udiv64_short n d : 0 ≤ n < 18446744073709551616 → 0 < d < 4294967296 → udiv64 n d = Ret (n / d).
Proof.
  intros Hn Hd. unfold udiv64. rewrite !Z.shiftr_div_pow2 by lia. change (2 ^ 32) with 4294967296.
  rewrite Z.shiftl_mul_pow2 by lia. change (1 * 2 ^ 32) with 4294967296.
  rewrite decide_True by (apply Z.div_small; lia). rewrite (u32_small d), decide_False by lia.
  set (n1 := u32 (n / 4294967296)). assert (n1 = n / 4294967296) as E1 by (apply u32_small; mlia).
  set (n0 := u32 n). assert (0 ≤ n0 < 4294967296) as H0 by apply u32_range.
  assert (n = 4294967296 * n1 + n0) as En by (rewrite E1; unfold n0, u32; mlia).
  assert (0 ≤ n1 < 4294967296) as H1 by (rewrite E1; mlia). clearbody n0 n1. clear E1.
  pose proof (Z.mod_pos_bound n1 d ltac:(lia)) as Hm.
  assert (4294967296 * (n1 mod d) ≤ 4294967296 * (d - 1)) as Hmul by nia.
  rewrite u64_small by lia. rewrite divl_ok by lia. cbn [obind]. f_equal.
  assert (n / d = (4294967296 * (n1 mod d) + n0) / d + 4294967296 * (n1 / d)) as Eq.
  { rewrite <-Z.div_add by lia. f_equal. rewrite En. pose proof (Z.div_mod n1 d). lia. }
  rewrite Eq, u64_small; [done|]. rewrite <-Eq. pose proof (Z.div_pos n d ltac:(lia)). 
  pose proof (Z.div_le_upper_bound n d n ltac:(lia) ltac:(nia)). lia.
Qed.

(** The quotient by the 32 highest bits of the divisor is at most one too large. *)
Lemma estimate n d s v : 0 ≤ n < 18446744073709551616 → 0 ≤ s ≤ 31 → 4294967296 * v ≤ d * 2 ^ s < 4294967296 * (v + 1) →
  2147483648 ≤ v < 4294967296 →
  n / d ≤ n / (v * 2 ^ (32 - s)) ≤ n / d + 1.
Proof.
  intros Hn Hs Hd Hv. assert (0 < 2 ^ s) as Hp by lia. assert (0 < 2 ^ (32 - s)) as Hq by lia.
  assert (2 ^ s * 2 ^ (32 - s) = 4294967296) as Epq by (rewrite <-Z.pow_add_r by lia; by replace (s + (32 - s)) with 32 by lia).
  set (D := v * 2 ^ (32 - s)). assert (0 < D) as HD by (unfold D; nia).
  assert (D ≤ d < D + 2 ^ (32 - s)) as HDd by (unfold D; nia).
  split; [apply Z.div_le_compat_l; lia|].
  apply Z.lt_succ_r, Z.div_lt_upper_bound; [done|].
  assert (9223372036854775808 ≤ D * 2 ^ s) as HDs by (unfold D; nia).
  pose proof (Z.div_mod n d ltac:(lia)) as Edm. pose proof (Z.mod_pos_bound n d ltac:(lia)) as Hm. set (q := n / d) in *.
  assert (0 ≤ q) as Hq0 by (apply Z.div_pos; lia).
  (* [n < D * (q + 2)]: what the estimate of [d] loses in [q + 1] steps is less than [D] *)
  assert (q * 9223372036854775808 < 9223372036854775808 * (2 * 2 ^ s)) as Hqs.
  { apply (Z.le_lt_trans _ (q * (D * 2 ^ s))); [apply Z.mul_le_mono_nonneg_l; lia|].
    rewrite Z.mul_assoc. apply (Z.le_lt_trans _ (n * 2 ^ s)); [apply Z.mul_le_mono_nonneg_r; [lia|nia]|]. nia. }
  assert (q + 1 ≤ 2 * 2 ^ s) as Hq1 by lia.
  assert ((d - D) * (q + 1) ≤ D); [|nia].
  assert ((d - D) * (q + 1) ≤ (2 ^ (32 - s) - 1) * (2 * 2 ^ s)) as H1 by (apply Z.mul_le_mono_nonneg; lia).
  assert (2147483648 * 2 ^ (32 - s) ≤ D) as H2 by (unfold D; nia).
  destruct (decide (s = 31)) as [->|Hne].
  - change (2 ^ (32 - 31)) with 2 in *. change (2 ^ 31) with 2147483648 in *. lia.
  - assert (2 ^ 2 ≤ 2 ^ (32 - s)) as H4 by (apply Z.pow_le_mono_r; lia). change (2 ^ 2) with 4 in H4. nia.
Qed.

(** The case of a divisor of more than 32 bits. *)
Lemma udiv64_long n d : 0 ≤ n < 18446744073709551616 → 4294967296 ≤ d < 18446744073709551616 → udiv64 n d = Ret (n / d).
Proof.
  intros Hn Hd. unfold udiv64. rewrite !Z.shiftr_div_pow2 by lia. change (2 ^ 32) with 4294967296.
  rewrite decide_False by mlia. case_decide as Hlt; [by rewrite Z.div_small by lia|].
  rewrite (u32_small (d / 4294967296)) by mlia. set (s := nlz (d / 4294967296)).
  destruct (nlz_ok (d / 4294967296)) as [Hs Hb]; [mlia|]. fold s in Hs, Hb. set (P := 2 ^ s) in *.
  assert (0 < P) as HP by (unfold P; lia).
  assert (P * 2 ^ (32 - s) = 4294967296) as HPR by (unfold P; rewrite <-Z.pow_add_r by lia; by replace (s + (32 - s)) with 32 by lia).
  pose proof (Z.mod_pos_bound d 4294967296 ltac:(lia)) as Hdm. pose proof (Z.div_mod d 4294967296 ltac:(lia)) as Hdd.
  set (d1 := d / 4294967296) in *. set (d0 := d mod 4294967296) in *.
  assert (d1 + 1 ≤ 2 ^ (32 - s)) as Hd1 by nia.
  assert ((d1 + 1) * P ≤ 4294967296) as Hd1P by nia.
  assert (d * P < 4294967296 * 4294967296) as HdP by nia.
  assert (u64 (Z.shiftl d s) = d * P) as ->.
  { rewrite Z.shiftl_mul_pow2 by lia. apply u64_small. nia. }
  change (2 ^ 32) with 4294967296. set (v := d * P / 4294967296).
  assert (4294967296 * v ≤ d * P < 4294967296 * (v + 1)) as Hv by (unfold v; mlia).
  assert (2147483648 ≤ v < 4294967296) as Hvb.
  { split; [|nia]. assert (2147483648 * 4294967296 ≤ d * P) by nia. lia. }
  rewrite u32_small by lia. rewrite divl_ok by mlia. cbn [obind]. f_equal.
  rewrite Z.shiftr_div_pow2 by lia. rewrite !Z.div_div by lia.
  assert (2 ^ 1 * (v * 2 ^ (31 - s)) = v * 2 ^ (32 - s)) as EE.
  { replace (32 - s) with (1 + (31 - s)) by lia. rewrite Z.pow_add_r by lia. ring. }
  rewrite EE. pose proof (estimate n d s v Hn Hs Hv Hvb) as He. set (q := n / (v * 2 ^ (32 - s))) in *. clearbody q.
  clear Hv Hvb EE HPR Hd1 Hd1P HdP Hb. clearbody d1 d0.
  assert (1 ≤ n / d) as Hq1 by (apply Z.div_le_lower_bound; lia).
  pose proof (Z.div_mod n d ltac:(lia)) as Edm. pose proof (Z.mod_pos_bound n d ltac:(lia)) as Hm. set (Q := n / d) in *.
  assert (Q ≤ n) as HQ by (apply Z.div_le_upper_bound; nia).
  assert (0 ≤ (Q - 1) * d) as HQd by nia.
  destruct (decide (q = Q)) as [->|Hne].
  - rewrite u64_small by lia. by rewrite decide_False by lia.
  - assert (q = Q + 1) as -> by lia. replace (Q + 1 - 1) with Q by lia.
    rewrite u64_small by lia. rewrite decide_True by lia. by rewrite u64_small by lia.
Qed.

Lemma udiv64_ok n d : 0 ≤ n < 18446744073709551616 → 0 < d < 18446744073709551616 → udiv64 n d = Ret (n / d).
Proof. intros Hn Hd. destruct (decide (d < 4294967296)); [apply udiv64_short; lia|apply udiv64_long; lia]. Qed.

(** The values of the types. *)
Definition uint64 (x : Z) : Prop := 0 ≤ x < 18446744073709551616.
Definition int64 (x : Z) : Prop := -9223372036854775808 ≤ x < 9223372036854775808.

Lemma udiv64_zero n : udiv64 n 0 = Err Fault.
Proof. reflexivity. Qed.

Lemma abs_ok x : int64 x → (if decide (0 ≤ x) then u64 x else u64 (- u64 x)) = Z.abs x.
Proof. unfold int64, u64. intros Hx. case_decide; mlia. Qed.

Lemma sdiv64_ok n d : int64 n → int64 d → d ≠ 0 → sdiv64 n d = Ret (s64 (Z.quot n d)).
Proof.
  intros Hn Hd Hd0. unfold sdiv64. rewrite !abs_ok by done. unfold int64 in *. rewrite udiv64_ok by lia. cbn [obind]. f_equal.
  rewrite (Z.quot_div n d) by done. assert (0 ≤ Z.abs n / Z.abs d) as H0 by (apply Z.div_pos; lia).
  assert (Z.abs n / Z.abs d ≤ 9223372036854775808) as H1 by (apply Z.div_le_upper_bound; nia). set (q := Z.abs n / Z.abs d) in *.
  destruct (decide (n = 0)) as [->|Hn0].
  { assert (q = 0) as -> by (unfold q; by rewrite Z.abs_0, Z.div_0_l by lia). by destruct (bool_decide (d < 0)). }
  unfold s64. assert ((0 < n ∧ Z.sgn n = 1) ∨ (n < 0 ∧ Z.sgn n = -1)) as [[? ->]|[? ->]] by lia;
    assert ((0 < d ∧ Z.sgn d = 1) ∨ (d < 0 ∧ Z.sgn d = -1)) as [[? ->]|[? ->]] by lia.
  - rewrite !bool_decide_false by lia. cbn [Bool.eqb]. f_equal. f_equal. lia.
  - rewrite bool_decide_false, bool_decide_true by lia. cbn [Bool.eqb]. mlia.
  - rewrite bool_decide_true, bool_decide_false by lia. cbn [Bool.eqb]. mlia.
  - rewrite !bool_decide_true by lia. cbn [Bool.eqb]. f_equal. f_equal. lia.
Qed.

Lemma sdiv64_zero n : sdiv64 n 0 = Err Fault.
Proof. unfold sdiv64. by destruct (decide (0 ≤ n)). Qed.

(** C28: 64-bit division is exact.  [__udivdi3] is the quotient of any two numbers of type [uint64_t], and [__divdi3] that
    of type [int64_t] rounded towards zero, but for the one quotient that does not fit, -2^63 / -1, which wraps around to
    -2^63.  The division instruction that they use never traps, except, as it has to, for a zero divisor. *)
Theorem division_exact n d :
  (uint64 n → uint64 d → __udivdi3 n d = if decide (d = 0) then Err Fault else Ret (n / d)) ∧
  (int64 n → int64 d → __divdi3 n d =
     if decide (d = 0) then Err Fault else
     Ret (if decide (n = -9223372036854775808 ∧ d = -1) then -9223372036854775808 else Z.quot n d)).
Proof.
  unfold uint64, __udivdi3, __divdi3. split; intros Hn Hd.
  - case_decide as E; [by rewrite E|]. apply udiv64_ok; lia.
  - case_decide as E; [rewrite E; apply sdiv64_zero|]. rewrite sdiv64_ok by done. f_equal. case_decide as Eo.
    + by destruct Eo as [-> ->].
    + apply s64_small. unfold int64 in *. destruct (decide (d = -1)) as [->|Hd1].
      * change (-1) with (- (1)). rewrite (Z.quot_opp_r n 1), Z.quot_1_r by lia. lia.
      * pose proof (Z.quot_abs n d E) as Ha. assert (Z.abs n ÷ Z.abs d ≤ Z.abs n) as H1.
        { rewrite Z.quot_div_nonneg by lia. apply Z.div_le_upper_bound; nia. }
        destruct (decide (Z.abs d = 1)) as [Ed|Ed].
        { assert (d = 1) as -> by lia. rewrite Z.quot_1_r. lia. }
        assert (Z.abs n ÷ Z.abs d ≤ 4611686018427387904) as H2 by (rewrite Z.quot_div_nonneg by lia; apply Z.div_le_upper_bound; nia).
        lia.
Qed.

Lemma division_exact_witness : __udivdi3 18446744073709551615 4294967297 = Ret 4294967295 ∧ __divdi3 (-7) 2 = Ret (-3).
Proof.
  destruct (division_exact 18446744073709551615 4294967297) as [H1 _]. destruct (division_exact (-7) 2) as [_ H2].
  split; [rewrite H1 by (unfold uint64; lia)|rewrite H2 by (unfold int64; lia)]; reflexivity.
Defined.

(** 64-bit remainders are cut to 32 bits.  [__umoddi3] and [__moddi3] return the low 32 bits of the remainder, since
    [umod64] returns a [uint32_t] and [smod64] an [int32_t]: right for the remainders that fit in them, wrong for all
    others. *)
Theorem remainders_truncated n d : d ≠ 0 →
  (uint64 n → uint64 d → __umoddi3 n d = Ret (u32 (n mod d)) ∧
     (__umoddi3 n d = Ret (n mod d) ↔ n mod d < 4294967296)) ∧
  (int64 n → int64 d → __moddi3 n d = Ret (s32 (Z.rem n d)) ∧
     (__moddi3 n d = Ret (Z.rem n d) ↔ -2147483648 ≤ Z.rem n d < 2147483648)).
Proof.
  intros Hd0. split; intros Hn Hd.
  - assert (__umoddi3 n d = Ret (u32 (n mod d))) as E.
    { unfold __umoddi3, umod64, uint64 in *. rewrite udiv64_ok by lia. cbn [obind]. do 2 f_equal.
      rewrite Z.mod_eq by lia. apply u64_small. rewrite <-Z.mod_eq by lia. pose proof (Z.mod_pos_bound n d). lia. }
    split; [done|]. rewrite E. unfold uint64 in *. pose proof (Z.mod_pos_bound n d). split.
    + intros [= H1]. pose proof (u32_range (n mod d)). lia.
    + intros H1. by rewrite u32_small by lia.
  - assert (__moddi3 n d = Ret (s32 (Z.rem n d))) as E.
    { unfold __moddi3, smod64. rewrite sdiv64_ok by done. cbn [obind]. do 2 f_equal.
      pose proof (Z.quot_rem n d Hd0) as Hqr. pose proof (Z.rem_bound_abs n d Hd0) as Hr. unfold int64 in *.
      transitivity (s64 (Z.rem n d)); [|apply s64_small; lia]. unfold s64 at 1 3. f_equal.
      set (q := Z.quot n d) in *. set (r := Z.rem n d) in *.
      assert (∃ k, s64 q = q + 18446744073709551616 * k) as [k ->] by (exists (- ((q + 9223372036854775808) / 18446744073709551616)); unfold s64; mlia).
      replace (n - d * (q + 18446744073709551616 * k) + 9223372036854775808) with (r + 9223372036854775808 + (- (d * k)) * 18446744073709551616) by lia.
      apply Z.mod_add. lia. }
    split; [done|]. rewrite E. split.
    + intros [= H1]. pose proof (s32_range (Z.rem n d)). lia.
    + intros H1. by rewrite s32_small by lia.
Qed.

Lemma remainders_truncated_witness : __umoddi3 8589934593 17179869184 = Ret 1 ∧ __moddi3 2147483648 4294967296 = Ret (-2147483648).
Proof.
  destruct (remainders_truncated 8589934593 17179869184 ltac:(lia)) as [H1 _].
  destruct (remainders_truncated 2147483648 4294967296 ltac:(lia)) as [_ H2].
  split; [rewrite (proj1 (H1 ltac:(unfold uint64; lia) ltac:(unfold uint64; lia)))|
    rewrite (proj1 (H2 ltac:(unfold int64; lia) ltac:(unfold int64; lia)))]; reflexivity.
Defined.
