(* ===== verification/StdLib.v ===== *)
(** Number parsing, sorting and searching: lib/stdlib.c of Project5, on the flat
    memory of CString. *)
From S2P Require Import Prelude CString.
Local Open Scope Z_scope.

(** ** Numbers *)

(** ctype.h 7 isdigit *)
Definition isdigit (c : Z) : bool := bool_decide (48 ≤ c ∧ c ≤ 57).
(** ctype.h 12-15 isspace *)
Definition isspace (c : Z) : bool :=
  bool_decide (c = 32) || bool_decide (c = 12) || bool_decide (c = 10) || bool_decide (c = 13) || bool_decide (c = 9) || bool_decide (c = 11).

(** stdlib.c 18-19 atoi, the loop over white space *)
Fixpoint space_loop (fuel : nat) (s : Z) : M mem Z :=
  match fuel with
  | O => throw OutOfFuel
  | S fuel => let! c := load s in if isspace c then space_loop fuel (s + 1) else ret s
  end.

(** stdlib.c 35-36 atoi, the loop over digits *)
Fixpoint digit_loop (fuel : nat) (s value : Z) : M mem Z :=
  match fuel with
  | O => throw OutOfFuel
  | S fuel =>
      let! c := load s in
      if isdigit c then digit_loop fuel (s + 1) (s32 (value * 10 - (c - 48))) else ret value
  end.

(** stdlib.c 9-41 atoi *)
Definition atoi (s : Z) : M mem Z :=
  assertM (bool_decide (s ≠ NULL));;!
  let! s := fueled (λ fuel, space_loop fuel s) in
  let! c := load s in
  let '(negative, s) := if decide (c = 43) then (false, s + 1) else if decide (c = 45) then (true, s + 1) else (false, s) in
  let! value := fueled (λ fuel, digit_loop fuel s 0) in
  ret (if negative then value else s32 (- value)).

(** ** Sorting *)

(** stdlib.c 73-78 do_swap, the loop *)
Fixpoint swap_loop (n : nat) (a b i : Z) : M mem unit :=
  match n with
  | O => ret tt
  | S n =>
      let! t := load (a + i) in
      let! c := load (b + i) in
      store (a + i) c;;!
      store (b + i) t;;!
      swap_loop n a b (i + 1)
  end.

(** stdlib.c 66-79 do_swap *)
Definition do_swap (array a_idx b_idx size : Z) : M mem unit :=
  let a := array + u32 ((a_idx - 1) * size) in
  let b := array + u32 ((b_idx - 1) * size) in
  swap_loop (Z.to_nat size) a b 0.

(** The bytes of the object of [n] bytes at [p]. *)
Fixpoint load_bytes (n : nat) (p : Z) : M mem (list Z) :=
  match n with
  | O => ret []
  | S n => let! c := load p in let! l := load_bytes n (p + 1) in ret (c :: l)
  end.

(** What COMPARE, which looks at the bytes of its operands, says of two objects
    in memory. *)
Definition call_compare (compare : list Z → list Z → Z) (size a b : Z) : M mem Z :=
  let! x := load_bytes (Z.to_nat size) a in
  let! y := load_bytes (Z.to_nat size) b in
  ret (compare x y).

Section sort.
Context (compare : list Z → list Z → Z).

(** stdlib.c 85-91 do_compare *)
Definition do_compare (array a_idx b_idx size : Z) : M mem Z :=
  call_compare compare size (array + u32 ((a_idx - 1) * size)) (array + u32 ((b_idx - 1) * size)).

(** stdlib.c 96-123 heapify *)
Fixpoint heapify (fuel : nat) (array i cnt size : Z) : M mem unit :=
  match fuel with
  | O => throw OutOfFuel
  | S fuel =>
      let left := u32 (2 * i) in
      let right := u32 (2 * i + 1) in
      let max := i in
      let! max := (if decide (left ≤ cnt) then
          let! c := do_compare array left max size in ret (if decide (0 < c) then left else max) else ret max) in
      let! max := (if decide (right ≤ cnt) then
          let! c := do_compare array right max size in ret (if decide (0 < c) then right else max) else ret max) in
      if decide (max = i) then ret tt
      else
        do_swap array i max size;;!
        heapify fuel array max cnt size
  end.

(** A node moves down at most as often as there are nodes. *)
Definition heap_fuel (cnt : Z) : nat := S (Z.to_nat cnt).

(** stdlib.c 142-144 sort, building the heap *)
Fixpoint build_loop (i : nat) (array cnt size : Z) : M mem unit :=
  match i with
  | O => ret tt
  | S i' => heapify (heap_fuel cnt) array (Z.of_nat i) cnt size;;! build_loop i' array cnt size
  end.

(** stdlib.c 146-151 sort, taking the maximum out *)
Fixpoint sort_loop (n : nat) (array i size : Z) : M mem unit :=
  match n with
  | O => ret tt
  | S n =>
      do_swap array 1 i size;;!
      heapify (heap_fuel (i - 1)) array 1 (i - 1) size;;!
      sort_loop n array (i - 1) size
  end.

(** stdlib.c 131-152 sort *)
Definition sort (array cnt size : Z) : M mem unit :=
  assertM (bool_decide (array ≠ NULL ∨ cnt = 0));;!
  assertM (bool_decide (0 < size));;!
  build_loop (Z.to_nat (cnt / 2)) array cnt size;;!
  sort_loop (Z.to_nat (cnt - 1)) array cnt size.

(** stdlib.c 57-62 qsort.  [compare_thunk] calls its auxiliary argument. *)
Definition qsort (array cnt size : Z) : M mem unit := sort array cnt size.

(** ** Searching *)

(** stdlib.c 192-204 binary_search, the loop *)
Fixpoint search_loop (fuel : nat) (key : list Z) (size first last : Z) : M mem Z :=
  match fuel with
  | O => throw OutOfFuel
  | S fuel =>
      if decide (first < last) then
        let range := (last - first) / size in
        let middle := first + range / 2 * size in
        let! x := load_bytes (Z.to_nat size) middle in
        let cmp := compare key x in
        if decide (cmp < 0) then search_loop fuel key size first middle
        else if decide (0 < cmp) then search_loop fuel key size (middle + size) last
        else ret middle
      else ret NULL
  end.

(** stdlib.c 184-207 binary_search, for the object [key].  Each round leaves
    fewer elements. *)
Definition binary_search (key : list Z) (array cnt size : Z) : M mem Z :=
  search_loop (S (Z.to_nat cnt)) key size array (array + u32 (size * cnt)).

(** stdlib.c 165-170 bsearch *)
Definition bsearch (key : list Z) (array cnt size : Z) : M mem Z := binary_search key array cnt size.
End sort.
