(* ===== verification/SortLaws.v ===== *)
(** Sorting and searching arrays: what sort and binary_search of lib/stdlib.c do to
    the elements.  An array is a stretch of memory, [pre ++ concat l ++ post]. *)
From stdpp Require Import sorting.
From S2P Require Import Prelude CString StdLib.
Local Open Scope Z_scope.

(** A function that returns what strcmp would: an order, up to ties. *)
Class StrcmpType (compare : list Z → list Z → Z) : Prop := {
  cmp_sym x y : compare x y < 0 ↔ 0 < compare y x;
  cmp_trans x y z : compare x y ≤ 0 → compare y z ≤ 0 → compare x z ≤ 0;
}.

(** ** Elements of one size *)
Section elements.
Context (size : nat).
Implicit Types l : list (list Z).
Definition elements l : Prop := Forall (λ x, length x = size ∧ Forall byte x) l.

Lemma length_elements l : elements l → length (concat l) = (length l * size)%nat.
Proof. induction 1 as [|x l [Hx _] Hl IH]; [done|]. cbn. rewrite length_app. lia. Qed.

Lemma lookup_elements l i x j : elements l → l !! i = Some x → (j < size)%nat → concat l !! (i * size + j)%nat = x !! j.
Proof.
  intros Hl. revert i. induction Hl as [|y l [Hy _] Hl IH]; intros i Hi Hj; [done|]. destruct i as [|i]; cbn in *.
  - injection Hi as <-. apply lookup_app_l. lia.
  - rewrite lookup_app_r by lia. rewrite <-(IH i) by done. f_equal. lia.
Qed.

Lemma insert_elements l i x j c : elements l → l !! i = Some x → (j < size)%nat →
  <[(i * size + j)%nat := c]> (concat l) = concat (<[i := <[j := c]> x]> l).
Proof.
  intros Hl. revert i. induction Hl as [|y l [Hy _] Hl IH]; intros i Hi Hj; [done|]. destruct i as [|i]; cbn in *.
  - injection Hi as <-. apply insert_app_l. lia.
  - replace (size + i * size + j)%nat with (length y + (i * size + j))%nat by lia. rewrite insert_app_r. f_equal. by apply IH.
Qed.

Lemma elements_insert l i x : elements l → length x = size → Forall byte x → elements (<[i := x]> l).
Proof. intros Hl Hx Hb. by apply Forall_insert. Qed.

(** ** Memory *)
Context (pre post : mem).
Hypothesis pre_pos : (0 < length pre)%nat.
Definition image l : mem := pre ++ concat l ++ post.
Definition array : Z := Z.of_nat (length pre).

(** The place of byte [j] of element [i]. *)
Definition place (i j : nat) : nat := (length pre + (i * size + j))%nat.

Lemma place_range l i j : elements l → (i < length l)%nat → (j < size)%nat → (0 < place i j < length (image l))%nat.
Proof.
  intros Hl Hi Hj. unfold place, image. rewrite !length_app, (length_elements l Hl). nia.
Qed.

Lemma image_lookup l i x j : elements l → l !! i = Some x → (j < size)%nat → image l !! place i j = x !! j.
Proof.
  intros Hl Hi Hj. unfold image, place. rewrite lookup_app_r by lia.
  replace (length pre + (i * size + j) - length pre)%nat with (i * size + j)%nat by lia.
  rewrite lookup_app_l; [by apply lookup_elements|]. apply lookup_lt_Some in Hi. rewrite (length_elements l Hl). nia.
Qed.

Lemma image_insert l i x j c : elements l → l !! i = Some x → (j < size)%nat →
  <[place i j := c]> (image l) = image (<[i := <[j := c]> x]> l).
Proof.
  intros Hl Hi Hj. unfold image, place. rewrite insert_app_r. f_equal.
  rewrite insert_app_l; [by rewrite (insert_elements l i x)|].
  apply lookup_lt_Some in Hi. rewrite (length_elements l Hl). nia.
Qed.

Lemma load_element l i x j c p : elements l → l !! i = Some x → x !! j = Some c → p = Z.of_nat (place i j) →
  load p (image l) = Ret (c, image l).
Proof.
  intros Hl Hi Hj ->. pose proof (proj1 (Forall_lookup _ _) Hl i x Hi) as [Hx _]. pose proof (lookup_lt_Some _ _ _ Hj).
  apply load_lookup; [pose proof (place_range l i j Hl (lookup_lt_Some _ _ _ Hi)); lia|]. rewrite (image_lookup l i x) by (done || lia). done.
Qed.

Lemma store_element l i x j c p : elements l → l !! i = Some x → (j < size)%nat → byte c → p = Z.of_nat (place i j) →
  store p c (image l) = Ret (tt, image (<[i := <[j := c]> x]> l)).
Proof.
  intros Hl Hi Hj Hc ->. rewrite store_lookup; [|by apply place_range; eauto using lookup_lt_Some|done].
  by rewrite (image_insert l i x).
Qed.

Lemma load_bytes_ok l i x n j : elements l → l !! i = Some x → (j + n = size)%nat →
  load_bytes n (Z.of_nat (place i j)) (image l) = Ret (drop j x, image l).
Proof.
  intros Hl Hi. pose proof (proj1 (Forall_lookup _ _) Hl i x Hi) as [Hx _]. revert j.
  induction n as [|n IH]; intros j Hj; cbn [load_bytes].
  - by rewrite drop_ge by lia.
  - destruct (lookup_lt_is_Some_2 x j) as [c Hc]; [lia|].
    rewrite (bind_run _ _ _ _ _ (load_element l i x j c _ Hl Hi Hc eq_refl)).
    replace (Z.of_nat (place i j) + 1) with (Z.of_nat (place i (S j))) by (unfold place; lia).
    rewrite (bind_run _ _ _ _ _ (IH (S j) ltac:(lia))). by rewrite (drop_S x c j).
Qed.

Lemma load_element_ok l i x : elements l → l !! i = Some x →
  load_bytes (Z.to_nat (Z.of_nat size)) (array + Z.of_nat i * Z.of_nat size) (image l) = Ret (x, image l).
Proof.
  intros Hl Hi. rewrite Nat2Z.id. replace (array + Z.of_nat i * Z.of_nat size) with (Z.of_nat (place i 0)) by (unfold array, place; lia).
  by rewrite (load_bytes_ok l i x).
Qed.

(** ** Swapping two elements *)
Definition swapped l (a b : nat) (x y : list Z) : list (list Z) := <[a := y]> (<[b := x]> l).

Lemma swapped_lookup l a b x y c : l !! a = Some x → l !! b = Some y → a ≠ b →
  swapped l a b x y !! c = if decide (c = a) then Some y else if decide (c = b) then Some x else l !! c.
Proof.
  intros Ha Hb Hab. unfold swapped. pose proof (lookup_lt_Some _ _ _ Ha). pose proof (lookup_lt_Some _ _ _ Hb).
  case_decide as E; [subst c; apply list_lookup_insert_eq; by rewrite length_insert|]. rewrite list_lookup_insert_ne by done.
  case_decide as E2; [subst c; by apply list_lookup_insert_eq|]. by rewrite list_lookup_insert_ne by done.
Qed.

Lemma swapped_perm l a b x y : l !! a = Some x → l !! b = Some y → a ≠ b → swapped l a b x y ≡ₚ l.
Proof. intros Ha Hb Hab. unfold swapped. by apply Permutation_insert_swap. Qed.

Lemma swapped_elements l a b x y : elements l → l !! a = Some x → l !! b = Some y → elements (swapped l a b x y).
Proof.
  intros Hl Ha Hb. pose proof (proj1 (Forall_lookup _ _) Hl a x Ha). pose proof (proj1 (Forall_lookup _ _) Hl b y Hb).
  by repeat apply Forall_insert.
Qed.

(** The two elements when their first [j] bytes have been exchanged. *)
Definition mixed (x y : list Z) (j : nat) : list Z := take j y ++ drop j x.

Lemma mixed_lookup x y j : length x = size → length y = size → (j < size)%nat → mixed x y j !! j = x !! j.
Proof.
  intros Hx Hy Hj. unfold mixed. rewrite lookup_app_r by (rewrite length_take; lia). rewrite length_take, lookup_drop.
  f_equal. lia.
Qed.

Lemma mixed_S x y j c : length x = size → length y = size → y !! j = Some c → <[j := c]> (mixed x y j) = mixed x y (S j).
Proof.
  intros Hx Hy Hc. pose proof (lookup_lt_Some _ _ _ Hc). unfold mixed. rewrite (take_S_r y j c Hc).
  replace j with (length (take j y) + 0)%nat at 1 by (rewrite length_take; lia). rewrite insert_app_r, <-(assoc_L (++)). f_equal.
  destruct (lookup_lt_is_Some_2 x j) as [d Hd]; [lia|]. by rewrite (drop_S x d j).
Qed.

Lemma mixed_byte x y j : Forall byte x → Forall byte y → Forall byte (mixed x y j).
Proof. intros. unfold mixed. apply Forall_app. split; [by apply Forall_take|by apply Forall_drop]. Qed.

Lemma length_mixed x y j : length x = size → length y = size → (j ≤ size)%nat → length (mixed x y j) = size.
Proof. intros. unfold mixed. rewrite length_app, length_take, length_drop. lia. Qed.

Lemma swap_loop_ok l a b x y n j : elements l → l !! a = Some x → l !! b = Some y → a ≠ b → (j + n = size)%nat →
  swap_loop n (Z.of_nat (place a 0)) (Z.of_nat (place b 0)) (Z.of_nat j) (image (swapped l a b (mixed y x j) (mixed x y j)))
  = Ret (tt, image (swapped l a b x y)).
Proof.
  intros Hl Ha Hb Hab. pose proof (proj1 (Forall_lookup _ _) Hl a x Ha) as [Hx Hbx].
  pose proof (proj1 (Forall_lookup _ _) Hl b y Hb) as [Hy Hby].
  pose proof (lookup_lt_Some _ _ _ Ha) as Hla. pose proof (lookup_lt_Some _ _ _ Hb) as Hlb.
  revert j. induction n as [|n IH]; intros j Hj; cbn [swap_loop].
  - unfold mixed. rewrite (take_ge x), (take_ge y), (drop_ge x), (drop_ge y), !app_nil_r by lia. done.
  - set (l1 := swapped l a b (mixed y x j) (mixed x y j)).
    assert (elements l1) as Hl1.
    { repeat apply Forall_insert; try done; (split; [by rewrite length_mixed by lia|by apply mixed_byte]). }
    assert (l1 !! a = Some (mixed x y j)) as Ha1.
    { unfold l1, swapped. rewrite list_lookup_insert_eq; [done|by rewrite length_insert]. }
    assert (l1 !! b = Some (mixed y x j)) as Hb1.
    { unfold l1, swapped. rewrite list_lookup_insert_ne by done. by apply list_lookup_insert_eq. }
    destruct (lookup_lt_is_Some_2 x j) as [c Hc]; [lia|]. destruct (lookup_lt_is_Some_2 y j) as [d Hd]; [lia|].
    assert (byte c) by (by eapply (Forall_lookup_1 _ x)). assert (byte d) by (by eapply (Forall_lookup_1 _ y)).
    rewrite (bind_run _ _ _ _ _ (load_element l1 a (mixed x y j) j c (Z.of_nat (place a 0) + Z.of_nat j) Hl1 Ha1
      ltac:(by rewrite mixed_lookup by lia) ltac:(unfold place; lia))).
    rewrite (bind_run _ _ _ _ _ (load_element l1 b (mixed y x j) j d (Z.of_nat (place b 0) + Z.of_nat j) Hl1 Hb1
      ltac:(by rewrite mixed_lookup by lia) ltac:(unfold place; lia))).
    rewrite (bind_run _ _ _ _ _ (store_element l1 a (mixed x y j) j d (Z.of_nat (place a 0) + Z.of_nat j) Hl1 Ha1
      ltac:(lia) ltac:(done) ltac:(unfold place; lia))).
    rewrite (mixed_S x y j d) by done. set (l2 := <[a := mixed x y (S j)]> l1).
    assert (elements l2) as Hl2 by (apply elements_insert; [done|by rewrite length_mixed by lia|by apply mixed_byte]).
    assert (l2 !! b = Some (mixed y x j)) as Hb2 by (unfold l2; by rewrite list_lookup_insert_ne).
    rewrite (bind_run _ _ _ _ _ (store_element l2 b (mixed y x j) j c (Z.of_nat (place b 0) + Z.of_nat j) Hl2 Hb2
      ltac:(lia) ltac:(done) ltac:(unfold place; lia))).
    rewrite (mixed_S y x j c) by done.
    replace (Z.of_nat j + 1) with (Z.of_nat (S j)) by lia. rewrite <-(IH (S j)) by lia. f_equal. f_equal.
    unfold l2, l1, swapped. apply list_eq. intros k.
    destruct (decide (k = a)) as [->|Hka]; [|destruct (decide (k = b)) as [->|Hkb]].
    + rewrite list_lookup_insert_ne by done. rewrite !list_lookup_insert_eq; rewrite ?length_insert; done.
    + rewrite list_lookup_insert_eq by (by rewrite !length_insert). rewrite list_lookup_insert_ne by done. by rewrite list_lookup_insert_eq.
    + by rewrite !list_lookup_insert_ne.
Qed.

Lemma swap_elements_ok l a b x y : elements l → l !! a = Some x → l !! b = Some y → a ≠ b →
  swap_loop (Z.to_nat (Z.of_nat size)) (array + Z.of_nat a * Z.of_nat size) (array + Z.of_nat b * Z.of_nat size) 0 (image l)
  = Ret (tt, image (swapped l a b x y)).
Proof.
  intros Hl Ha Hb Hab. rewrite Nat2Z.id.
  replace (array + Z.of_nat a * Z.of_nat size) with (Z.of_nat (place a 0)) by (unfold array, place; lia).
  replace (array + Z.of_nat b * Z.of_nat size) with (Z.of_nat (place b 0)) by (unfold array, place; lia).
  rewrite <-(swap_loop_ok l a b x y size 0) by done. f_equal. f_equal. unfold swapped, mixed. cbn [take drop app].
  rewrite (list_insert_id l b) by done. by rewrite list_insert_id.
Qed.
End elements.

(** ** Heaps *)
Section heaps.
Context (compare : list Z → list Z → Z) `{!StrcmpType compare}.
Implicit Types l : list (list Z).
Definition le (x y : list Z) : Prop := compare x y ≤ 0.

Lemma le_refl x : le x x.
Proof. unfold le. pose proof (cmp_sym x x). lia. Qed.
Lemma le_trans x y z : le x y → le y z → le x z.
Proof. apply cmp_trans. Qed.
Lemma gt_le x y : 0 < compare x y → le y x.
Proof. unfold le. pose proof (cmp_sym y x). lia. Qed.

(** The nodes are numbered from 1; those of [p] are [2 * p] and [2 * p + 1]. *)
Definition node l (p : nat) : option (list Z) := l !! (p - 1)%nat.
Definition child (p c : nat) : Prop := (1 ≤ p ∧ (c = 2 * p ∨ c = 2 * p + 1))%nat.
Definition ordered l (p c : nat) : Prop := ∀ x y, node l p = Some x → node l c = Some y → le y x.

(** From node [k] on, of [n] nodes, each is at least its children. *)
Definition heap l (k n : nat) : Prop := ∀ p c, child p c → (k ≤ p)%nat → (c ≤ n)%nat → ordered l p c.
(** The same, but for node [i], which may be too small. *)
Definition sinking l (k n i : nat) : Prop :=
  (∀ p c, child p c → (k ≤ p)%nat → (c ≤ n)%nat → p ≠ i → ordered l p c) ∧
  (∀ p c, child p i → child i c → (k ≤ p)%nat → (c ≤ n)%nat → ordered l p c).

Lemma heap_sinking l k n i : heap l k n → sinking l k n i.
Proof.
  intros H. split; [intros p c ? ? ? _; by apply H|]. intros p c Hp Hc Hk Hn x z Hx Hz.
  destruct (node l i) as [y|] eqn:Hy.
  - apply (le_trans _ y); [apply (H i c) with (x := y)|apply (H p i) with (x := x)]; try done; unfold child in *; lia.
  - exfalso. unfold node in *. apply lookup_ge_None in Hy. apply lookup_lt_Some in Hz. unfold child in *. lia.
Qed.

Lemma heap_root l n x y p : heap l 1 n → node l 1 = Some x → (1 ≤ p ≤ n)%nat → node l p = Some y → le y x.
Proof.
  intros H Hx. revert y. induction (lt_wf p) as [p _ IH]. intros y Hp Hy.
  destruct (decide (p = 1%nat)) as [->|Hne]; [assert (y = x) as -> by congruence; apply le_refl|].
  pose proof (Nat.div_mod_eq p 2) as Ed. pose proof (Nat.mod_upper_bound p 2 ltac:(lia)) as Em.
  destruct (node l (p / 2)) as [z|] eqn:Hz.
  - apply (le_trans _ z); [|apply (IH (p / 2)%nat); (done || lia)].
    apply (H (p / 2)%nat p) with (x := z); try done; unfold child; lia.
  - exfalso. unfold node in *. apply lookup_ge_None in Hz. apply lookup_lt_Some in Hy. lia.
Qed.

(** A node and the larger of its children change places. *)
Lemma sinking_swap l k n i m x y : sinking l k n i → (1 ≤ k ≤ i)%nat → child i m → (m ≤ n)%nat →
  node l i = Some x → node l m = Some y → le x y → (∀ c z, child i c → (c ≤ n)%nat → node l c = Some z → le z y) →
  sinking (swapped l (i - 1) (m - 1) x y) k n m.
Proof.
  intros [H1 H2] Hk Hm Hmn Hx Hy Hxy Hmax.
  assert (i - 1 ≠ m - 1)%nat as Hne by (unfold child in *; lia).
  assert (∀ q, (1 ≤ q)%nat → node (swapped l (i - 1) (m - 1) x y) q =
    if decide (q = i) then Some y else if decide (q = m) then Some x else node l q) as Hn.
  { intros q Hq. unfold node. rewrite swapped_lookup by done. unfold child in *.
    repeat case_decide; try done; lia. }
  split.
  - intros p c Hc Hkp Hcn Hpm a b Ha Hb. rewrite Hn in Ha, Hb by (unfold child in *; lia).
    destruct (decide (p = i)) as [->|Hpi].
    + injection Ha as <-. rewrite decide_False in Hb by (unfold child in *; lia).
      case_decide; [by injection Hb as <-|by apply (Hmax c)].
    + rewrite decide_False in Ha by done. destruct (decide (c = i)) as [->|Hci].
      * injection Hb as <-. by apply (H2 p m).
      * rewrite decide_False in Hb; [by apply (H1 p c)|]. unfold child in *. lia.
  - intros p c Hp Hc Hkp Hcn a b Ha Hb. assert (p = i) as -> by (unfold child in *; lia).
    rewrite Hn in Ha, Hb by (unfold child in *; lia). rewrite decide_True in Ha by done. injection Ha as <-.
    rewrite !decide_False in Hb by (unfold child in *; lia). apply (H1 m c) with (x := y); try done; unfold child in *; lia.
Qed.
End heaps.

(** ** The operations on an array *)
Section operations.
Context (compare : list Z → list Z → Z) `{!StrcmpType compare} (size : nat) (pre post : mem).
Hypothesis pre_pos : (0 < length pre)%nat.
Hypothesis size_pos : (0 < size)%nat.
Implicit Types l : list (list Z).
Local Abbreviation elements := (elements size).
Local Abbreviation image := (image pre post).
Local Abbreviation array := (array pre).
Local Abbreviation sz := (Z.of_nat size).

(** The whole array has less than 2^31 elements, and less than 2^32 bytes. *)
Definition fits l : Prop := Z.of_nat (length l) < 2147483648 ∧ Z.of_nat (length l) * sz < 4294967296.

Lemma offset_small l p : fits l → (1 ≤ p ≤ length l)%nat → u32 ((Z.of_nat p - 1) * sz) = Z.of_nat (p - 1) * sz.
Proof. intros [_ H] Hp. rewrite u32_small; nia. Qed.

Lemma do_compare_ok l p q x y : elements l → fits l → (1 ≤ p)%nat → (1 ≤ q)%nat → node l p = Some x → node l q = Some y →
  do_compare compare array (Z.of_nat p) (Z.of_nat q) sz (image l) = Ret (compare x y, image l).
Proof.
  intros Hl Hf Hp Hq Hx Hy. pose proof (lookup_lt_Some _ _ _ Hx) as Lp. pose proof (lookup_lt_Some _ _ _ Hy) as Lq.
  unfold do_compare, call_compare. rewrite !(offset_small l) by (done || lia).
  rewrite (bind_run _ _ _ _ _ (load_element_ok size pre post pre_pos l (p - 1) x Hl Hx)).
  by rewrite (bind_run _ _ _ _ _ (load_element_ok size pre post pre_pos l (q - 1) y Hl Hy)).
Qed.

Lemma do_swap_ok l p q x y : elements l → fits l → (1 ≤ p)%nat → (1 ≤ q)%nat → p ≠ q → node l p = Some x → node l q = Some y →
  do_swap array (Z.of_nat p) (Z.of_nat q) sz (image l) = Ret (tt, image (swapped l (p - 1) (q - 1) x y)).
Proof.
  intros Hl Hf Hp Hq Hpq Hx Hy. pose proof (lookup_lt_Some _ _ _ Hx) as Lp. pose proof (lookup_lt_Some _ _ _ Hy) as Lq.
  unfold do_swap. rewrite !(offset_small l) by (done || lia). apply swap_elements_ok; (done || lia).
Qed.

(** The larger of the node [m] and the node [c], if there is one. *)
Definition larger l (m c n : nat) : nat :=
  match node l c, node l m with Some y, Some x => if decide ((c ≤ n)%nat ∧ 0 < compare y x) then c else m | _, _ => m end.

Lemma larger_run l m c n cz k : elements l → fits l → (1 ≤ m ≤ length l)%nat → (1 ≤ c)%nat → (n ≤ length l)%nat → cz = Z.of_nat c →
  (let! r := (if decide (cz ≤ Z.of_nat n) then
      let! r := do_compare compare array cz (Z.of_nat m) sz in ret (if decide (0 < r) then cz else Z.of_nat m) else ret (Z.of_nat m)) in k r)
    (image l) = k (Z.of_nat (larger l m c n)) (image l) :> outcome (unit * mem).
Proof.
  intros Hl Hf Hm Hc Hn ->. unfold larger. destruct (lookup_lt_is_Some_2 l (m - 1)) as [x Hx]; [lia|].
  rewrite (Hx : node l m = Some x). case_decide as Hle.
  - destruct (lookup_lt_is_Some_2 l (c - 1)) as [y Hy]; [lia|]. rewrite (Hy : node l c = Some y).
    rewrite bind_assoc, (bind_run _ _ _ _ _ (do_compare_ok l c m y x Hl Hf ltac:(lia) ltac:(lia) Hy Hx)), bind_ret.
    repeat case_decide; (done || lia).
  - rewrite bind_ret. destruct (node l c); [|done]. by rewrite decide_False by lia.
Qed.

Lemma larger_max l m c n x : node l m = Some x → ∃ z, node l (larger l m c n) = Some z ∧ le compare x z ∧
  (∀ y, (c ≤ n)%nat → node l c = Some y → le compare y z) ∧
  (larger l m c n = m ∨ (larger l m c n = c ∧ (c ≤ n)%nat)).
Proof.
  intros Hx. unfold larger. rewrite Hx. destruct (node l c) as [y|] eqn:Hy.
  - case_decide as Hd.
    + exists y. split; [done|]. split; [apply gt_le; [done|apply Hd]|]. split; [intros ? _ [= <-]; by apply le_refl|]. right. by destruct Hd.
    + exists x. split; [done|]. split; [by apply le_refl|]. split; [|by left]. intros ? ? [= <-]. unfold le.
      apply not_and_l in Hd as [?|?]; lia.
  - exists x. split; [done|]. split; [by apply le_refl|]. split; [done|by left].
Qed.

(** What a loop over the nodes up to [n] leaves of the elements. *)
Record shuffled l l' (n : nat) : Prop := {
  sh_elements : elements l';
  sh_perm : l' ≡ₚ l;
  sh_above j : (n < j)%nat → node l' j = node l j;
}.

Lemma shuffled_length l l' n : shuffled l l' n → length l' = length l.
Proof. intros [_ H _]. by rewrite H. Qed.
Lemma shuffled_fits l l' n : shuffled l l' n → fits l → fits l'.
Proof. intros H. unfold fits. by rewrite (shuffled_length l l' n H). Qed.
Lemma shuffled_trans l l1 l2 n m : shuffled l l1 n → shuffled l1 l2 m → (m ≤ n)%nat → shuffled l l2 n.
Proof. intros [A1 A2 A3] [B1 B2 B3] Hm. split; [done|by rewrite B2|]. intros j Hj. rewrite B3 by lia. by apply A3. Qed.

Lemma swapped_shuffled l p q x y n : elements l → (1 ≤ p ≤ n)%nat → (1 ≤ q ≤ n)%nat → p ≠ q → node l p = Some x → node l q = Some y →
  shuffled l (swapped l (p - 1) (q - 1) x y) n.
Proof.
  intros Hl Hp Hq Hpq Hx Hy. split; [by apply swapped_elements|apply swapped_perm; (done || lia)|]. intros j Hj. unfold node.
  rewrite swapped_lookup by (done || lia). by rewrite !decide_False by lia.
Qed.

Lemma heapify_ok fuel l k n i : elements l → fits l → (n ≤ length l)%nat → (1 ≤ k ≤ i)%nat → (i ≤ n)%nat → (n - i < fuel)%nat →
  sinking compare l k n i →
  ∃ l', heapify compare fuel array (Z.of_nat i) (Z.of_nat n) sz (image l) = Ret (tt, image l') ∧ shuffled l l' n ∧ heap compare l' k n.
Proof.
  revert l i. induction fuel as [|fuel IH]; intros l i Hl Hf Hn Hk Hi Hfuel Hs; [lia|]. cbn [heapify].
  pose proof Hf as [Hf1 Hf2]. rewrite !u32_small by lia.
  destruct (lookup_lt_is_Some_2 l (i - 1)) as [x Hx]; [lia|].
  destruct (larger_max l i (2 * i) n x Hx) as (z1 & Hz1 & X1 & L1 & C1).
  rewrite (larger_run l i (2 * i) n) by (done || lia). set (m1 := larger l i (2 * i) n) in *.
  destruct (larger_max l m1 (2 * i + 1) n z1 Hz1) as (z & Hz & X2 & L2 & C2).
  rewrite (larger_run l m1 (2 * i + 1) n) by (done || lia). set (m := larger l m1 (2 * i + 1) n) in *.
  assert (∀ c y, child i c → (c ≤ n)%nat → node l c = Some y → le compare y z) as Hmax.
  { intros c y [_ [-> | ->]] Hc Hy; [|by apply L2]. apply (le_trans compare y z1); [by apply L1|done]. }
  assert (m = i ∨ (child i m ∧ (m ≤ n)%nat)) as Hm by (unfold child; lia).
  case_decide as Hmi.
  - exists l. split; [done|]. split; [by split|]. intros p c Hc Hkp Hcn. destruct (decide (p = i)) as [->|Hpi]; [|by apply (proj1 Hs p c)].
    assert (m = i) as E by lia. rewrite E in Hz. intros a b Ha Hb. assert (a = z) as -> by congruence. by apply (Hmax c).
  - destruct Hm as [Hm|[Hm Hmn]]; [lia|]. assert (i ≠ m) as Him by lia.
    pose proof (swapped_shuffled l i m x z n Hl ltac:(lia) ltac:(lia) Him Hx Hz) as Hsh.
    rewrite (bind_run _ _ _ _ _ (do_swap_ok l i m x z Hl Hf ltac:(lia) ltac:(lia) Him Hx Hz)).
    destruct (IH (swapped l (i - 1) (m - 1) x z) m) as (l' & Hrun & Hsh' & Hh); [apply Hsh|by eapply shuffled_fits|
      rewrite (shuffled_length _ _ _ Hsh); lia|unfold child in Hm; lia|done|lia| |].
    + apply sinking_swap; (done || lia || eauto using le_trans).
    + exists l'. split; [done|]. split; [by eapply shuffled_trans|done].
Qed.

Lemma build_ok i l n : elements l → fits l → (n ≤ length l)%nat → (i ≤ n)%nat → heap compare l (i + 1) n →
  ∃ l', build_loop compare i array (Z.of_nat n) sz (image l) = Ret (tt, image l') ∧ shuffled l l' n ∧ heap compare l' 1 n.
Proof.
  revert l. induction i as [|i IH]; intros l Hl Hf Hn Hi Hh; [exists l; by split_and!|]. cbn [build_loop].
  destruct (heapify_ok (heap_fuel (Z.of_nat n)) l (S i) n (S i)) as (l1 & Hrun & Hsh & Hh1); try done; try lia; [unfold heap_fuel; lia| |].
  { split; [intros p c ? ? ? ?; apply Hh; (done || lia)|]. intros p c Hp. unfold child in Hp. lia. }
  rewrite (bind_run _ _ _ _ _ Hrun).
  destruct (IH l1) as (l2 & Hrun2 & Hsh2 & Hh2); [apply Hsh|by eapply shuffled_fits|by rewrite (shuffled_length _ _ _ Hsh)|lia|
    by replace (i + 1)%nat with (S i) by lia|].
  exists l2. split; [done|]. split; [by eapply shuffled_trans|done].
Qed.

(** An element of the first [n] was one of them. *)
Lemma shuffled_prefix l l' n a x : shuffled l l' n → (1 ≤ a ≤ n)%nat → node l' a = Some x →
  ∃ a', (1 ≤ a' ≤ n)%nat ∧ node l a' = Some x.
Proof.
  intros [_ Hp Hab] Ha Hx.
  assert (drop n l' = drop n l) as Hd.
  { apply list_eq. intros j. rewrite !lookup_drop. pose proof (Hab (n + j + 1)%nat ltac:(lia)) as H. unfold node in H.
    by replace (n + j + 1 - 1)%nat with (n + j)%nat in H by lia. }
  rewrite <-(take_drop n l), <-(take_drop n l'), Hd in Hp. apply Permutation_app_inv_r in Hp.
  assert (x ∈ take n l') as Hin by (apply (list_elem_of_lookup_2 _ (a - 1)); rewrite lookup_take_lt by lia; exact Hx).
  rewrite Hp in Hin. apply list_elem_of_lookup_1 in Hin as [j Hj]. apply lookup_take_Some in Hj as [Hj Hjn].
  exists (S j). split; [lia|]. unfold node. by replace (S j - 1)%nat with j by lia.
Qed.

(** From node [i] on every element is in its place. *)
Definition settled l (i : nat) : Prop := ∀ a b x y, (1 ≤ a < b)%nat → (i < b)%nat → node l a = Some x → node l b = Some y → le compare x y.

Lemma settled_next l l1 l2 i r x : (2 ≤ i ≤ length l)%nat → node l 1 = Some r → node l i = Some x → heap compare l 1 i → settled l i →
  l1 = swapped l 0 (i - 1) r x → shuffled l1 l2 (i - 1) → settled l2 (i - 1).
Proof.
  intros Hi Hr Hx Hh Hs -> Hsh.
  assert (∀ q, (1 ≤ q)%nat → node (swapped l 0 (i - 1) r x) q = if decide (q = 1%nat) then Some x else if decide (q = i) then Some r else node l q) as Hn.
  { intros q Hq. unfold node. rewrite swapped_lookup by (done || lia). repeat case_decide; try done; lia. }
  assert (∀ a z, (1 ≤ a ≤ i - 1)%nat → node l2 a = Some z → ∃ a', (1 ≤ a' ≤ i)%nat ∧ node l a' = Some z) as Hpre.
  { intros a z Ha Hz. destruct (shuffled_prefix _ _ _ a z Hsh Ha Hz) as (a' & Ha' & Hz'). rewrite Hn in Hz' by lia.
    case_decide; [injection Hz' as <-; exists i; split; [lia|done]|]. rewrite decide_False in Hz' by lia. exists a'. split; [lia|done]. }
  intros a b y z Hab Hb Hy Hz. rewrite (sh_above _ _ _ Hsh b), Hn in Hz by lia. rewrite decide_False in Hz by lia. case_decide as Hbi.
  - injection Hz as <-. destruct (Hpre a y ltac:(lia) Hy) as (a' & Ha' & Hy'). by apply (heap_root compare l i r y a').
  - destruct (decide (a ≤ i - 1)%nat) as [Ha|Ha].
    + destruct (Hpre a y ltac:(lia) Hy) as (a' & Ha' & Hy'). apply (Hs a' b); (done || lia).
    + rewrite (sh_above _ _ _ Hsh a), Hn in Hy by lia. rewrite decide_False in Hy by lia. case_decide as Hai.
      * injection Hy as <-. subst a. apply (Hs 1%nat b); (done || lia).
      * apply (Hs a b); (done || lia).
Qed.

Lemma heap_sort_loop_ok n l : elements l → fits l → (n + 1 ≤ length l)%nat → heap compare l 1 (n + 1) → settled l (n + 1) →
  ∃ l', sort_loop compare n array (Z.of_nat (n + 1)) sz (image l) = Ret (tt, image l') ∧ shuffled l l' (n + 1) ∧ settled l' 1.
Proof.
  revert l. induction n as [|n IH]; intros l Hl Hf Hn Hh Hs; [exists l; by split_and!|]. cbn [sort_loop].
  destruct (lookup_lt_is_Some_2 l 0) as [r Hr]; [lia|]. destruct (lookup_lt_is_Some_2 l (S n)) as [x Hx]; [lia|].
  assert (node l 1 = Some r ∧ node l (S n + 1) = Some x) as [Nr Nx] by (unfold node; by replace (S n + 1 - 1)%nat with (S n) by lia).
  change 1 with (Z.of_nat 1) at 1.
  rewrite (bind_run _ _ _ _ _ (do_swap_ok l 1 (S n + 1) r x Hl Hf ltac:(lia) ltac:(lia) ltac:(lia) Nr Nx)).
  replace (Z.of_nat (S n + 1) - 1) with (Z.of_nat (n + 1)) by lia. change (1 - 1)%nat with 0%nat.
  set (l1 := swapped l 0 (S n + 1 - 1) r x).
  assert (shuffled l l1 (S n + 1)) as Hsh by (apply (swapped_shuffled l 1 (S n + 1) r x); (done || lia)).
  destruct (heapify_ok (heap_fuel (Z.of_nat (n + 1))) l1 1 (n + 1) 1) as (l2 & Hrun & Hsh2 & Hh2); [apply Hsh|by eapply shuffled_fits|
    rewrite (shuffled_length _ _ _ Hsh); lia|lia|lia|unfold heap_fuel; lia| |].
  { split; [|intros p c Hp; unfold child in Hp; lia]. intros p c Hc Hkp Hcn Hp1 a b Ha Hb. unfold node, l1 in Ha, Hb.
    rewrite swapped_lookup in Ha, Hb by (done || lia). unfold child in Hc. rewrite !decide_False in Ha by lia. rewrite !decide_False in Hb by lia.
    apply (Hh p c) with (x := a); (done || lia). }
  change (Z.of_nat 1) with 1 in Hrun. rewrite (bind_run _ _ _ _ _ Hrun).
  assert (shuffled l l2 (S n + 1)) as Hsh3 by (eapply shuffled_trans; [done|done|lia]).
  destruct (IH l2) as (l3 & Hrun3 & Hsh4 & Hs3); [apply Hsh2|by eapply shuffled_fits|rewrite (shuffled_length _ _ _ Hsh3); lia|done| |].
  { replace (n + 1)%nat with (S n + 1 - 1)%nat by lia. apply (settled_next l l1 l2 (S n + 1) r x); try done; [lia|].
    by replace (S n + 1 - 1)%nat with (n + 1)%nat by lia. }
  exists l3. split; [done|]. split; [eapply shuffled_trans; [done|done|lia]|done].
Qed.

Lemma settled_sorted l : settled l 1 → StronglySorted (le compare) l.
Proof.
  intros Hs. assert (∀ i j x y, (i < j)%nat → l !! i = Some x → l !! j = Some y → le compare x y) as H.
  { intros i j x y Hij Hx Hy. apply (Hs (i + 1)%nat (j + 1)%nat); try lia; unfold node; by rewrite Nat.add_sub. }
  clear Hs. induction l as [|z l IH]; constructor.
  - apply IH. intros i j x y Hij Hx Hy. apply (H (S i) (S j)); (done || lia).
  - apply Forall_lookup_2. intros j y Hy. apply (H 0%nat (S j)); (done || lia).
Qed.

Lemma sort_ok l : elements l → fits l →
  ∃ l', sort compare array (Z.of_nat (length l)) sz (image l) = Ret (tt, image l') ∧ l' ≡ₚ l ∧ StronglySorted (le compare) l'.
Proof.
  intros Hl Hf. unfold sort. rewrite !bind_assert by (apply bool_decide_eq_true; unfold NULL, SortLaws.array; lia).
  replace (Z.to_nat (Z.of_nat (length l) / 2)) with (length l / 2)%nat by (rewrite <-(Nat2Z.inj_div _ 2); lia).
  pose proof (Nat.div_mod_eq (length l) 2) as Ed. pose proof (Nat.mod_upper_bound (length l) 2 ltac:(lia)) as Em.
  destruct (build_ok (length l / 2) l (length l) Hl Hf) as (l1 & Hrun & Hsh & Hh); [lia|lia| |].
  { intros p c Hc Hkp Hcn. unfold child in Hc. lia. }
  rewrite (bind_run _ _ _ _ _ Hrun). pose proof (shuffled_length _ _ _ Hsh) as El.
  destruct (decide (length l = 0)%nat) as [E0|Hne].
  { destruct l; [|done]. exists l1. split; [done|]. split; [apply Hsh|]. destruct l1; [constructor|done]. }
  replace (Z.to_nat (Z.of_nat (length l) - 1)) with (length l - 1)%nat by lia.
  replace (Z.of_nat (length l)) with (Z.of_nat (length l - 1 + 1)) by lia.
  replace (length l) with (length l - 1 + 1)%nat in Hh at 1 by lia.
  destruct (heap_sort_loop_ok (length l - 1) l1) as (l2 & Hrun2 & Hsh2 & Hs2); [apply Hsh|by eapply shuffled_fits|lia|done| |].
  { intros a b x y Hab Hb Hx Hy. exfalso. unfold node in Hy. apply lookup_lt_Some in Hy. lia. }
  exists l2. split; [done|]. split; [rewrite (sh_perm _ _ _ Hsh2); apply Hsh|by apply settled_sorted].
Qed.

(** ** Searching *)
Section search.
Context (key : list Z) (l : list (list Z)).
Hypothesis l_elements : elements l.
Hypothesis l_sorted : StronglySorted (le compare) l.

Lemma sorted_lookup i j x y : (i ≤ j)%nat → l !! i = Some x → l !! j = Some y → le compare x y.
Proof.
  clear l_elements. intros Hij Hx Hy. revert i j Hij Hx Hy. induction l_sorted as [|z k Hk IH Hz]; [done|]. intros [|i] [|j] Hij Hx Hy; cbn in *; try lia.
  - assert (x = y) as -> by congruence. by apply le_refl.
  - injection Hx as <-. by apply (Forall_lookup_1 _ _ _ _ Hz Hy).
  - apply (IH Hk i j); (done || lia).
Qed.

(** Nothing before [a] and from [b] on is equal to the key. *)
Definition narrowed (a b : nat) : Prop := ∀ j x, l !! j = Some x → (j < a)%nat ∨ (b ≤ j)%nat → compare key x ≠ 0.

Lemma key_below i j x y : (i ≤ j)%nat → l !! i = Some x → l !! j = Some y → compare key x < 0 → compare key y < 0.
Proof.
  intros Hij Hx Hy Hk. pose proof (sorted_lookup i j x y Hij Hx Hy) as Hle. destruct (decide (compare key y < 0)) as [|Hn]; [done|].
  assert (compare x key ≤ 0) as H; [|pose proof (cmp_sym key x); lia].
  apply (cmp_trans x y key); [done|]. pose proof (cmp_sym y key). pose proof (cmp_sym key y). lia.
Qed.

Lemma key_above i j x y : (i ≤ j)%nat → l !! i = Some x → l !! j = Some y → 0 < compare key y → 0 < compare key x.
Proof.
  intros Hij Hx Hy Hk. pose proof (sorted_lookup i j x y Hij Hx Hy) as Hle. destruct (decide (0 < compare key x)) as [|Hn]; [done|].
  assert (compare key y ≤ 0) as H; [|lia]. apply (cmp_trans key x y); [lia|done].
Qed.

Lemma search_loop_ok fuel a b : (a ≤ b ≤ length l)%nat → (b - a < fuel)%nat → narrowed a b →
  ∃ p, search_loop compare fuel key sz (array + Z.of_nat a * sz) (array + Z.of_nat b * sz) (image l) = Ret (p, image l) ∧
    ((∃ i x, p = array + Z.of_nat i * sz ∧ l !! i = Some x ∧ compare key x = 0) ∨ (p = NULL ∧ ∀ x, x ∈ l → compare key x ≠ 0)).
Proof.
  revert a b. induction fuel as [|fuel IH]; intros a b Hab Hfuel Hn; [lia|]. cbn [search_loop]. case_decide as Hlt.
  - assert (a < b)%nat as Hlt' by nia.
    replace (array + Z.of_nat b * sz - (array + Z.of_nat a * sz)) with (Z.of_nat (b - a) * sz) by lia.
    rewrite Z.div_mul by lia. set (h := ((b - a) / 2)%nat).
    assert (Z.of_nat (b - a) / 2 = Z.of_nat h) as -> by (unfold h; by rewrite (Nat2Z.inj_div _ 2)).
    assert (h < b - a)%nat as Hh by (apply Nat.div_lt; lia).
    replace (array + Z.of_nat a * sz + Z.of_nat h * sz) with (array + Z.of_nat (a + h) * sz) by lia.
    destruct (lookup_lt_is_Some_2 l (a + h)) as [x Hx]; [lia|].
    rewrite (bind_run _ _ _ _ _ (load_element_ok size pre post pre_pos l (a + h) x l_elements Hx)).
    repeat case_decide.
    + apply IH; [lia|lia|]. intros j y Hy [Hj|Hj]; [apply (Hn j); auto|]. pose proof (key_below (a + h) j x y Hj Hx Hy ltac:(lia)). lia.
    + replace (array + Z.of_nat (a + h) * sz + sz) with (array + Z.of_nat (a + h + 1) * sz) by lia.
      apply IH; [lia|lia|]. intros j y Hy [Hj|Hj]; [|apply (Hn j); auto]. pose proof (key_above j (a + h) y x ltac:(lia) Hy Hx ltac:(lia)). lia.
    + eexists. split; [done|]. left. exists (a + h)%nat, x. split; [done|]. split; [done|lia].
  - exists NULL. split; [done|]. right. split; [done|]. intros x [j Hj]%list_elem_of_lookup_1. apply (Hn j x Hj).
    assert (¬ (a < b)%nat) by nia. lia.
Qed.

Lemma binary_search_ok : fits l →
  ∃ p, binary_search compare key array (Z.of_nat (length l)) sz (image l) = Ret (p, image l) ∧
    ((∃ i x, p = array + Z.of_nat i * sz ∧ l !! i = Some x ∧ compare key x = 0) ∨ (p = NULL ∧ ∀ x, x ∈ l → compare key x ≠ 0)).
Proof.
  intros [Hf1 Hf2]. unfold binary_search. rewrite u32_small by lia.
  destruct (search_loop_ok (S (Z.to_nat (Z.of_nat (length l)))) 0 (length l)) as (p & Hrun & Hp); [lia|lia| |].
  - intros j x Hj [?|?]; [lia|]. apply lookup_lt_Some in Hj. lia.
  - exists p. split; [|done]. rewrite <-Hrun. f_equal; lia.
Qed.
End search.
End operations.

(** C31: qsort sorts.  For every array in memory of elements of one size, and every comparison function that gives an
    order up to ties, heap sort returns; the elements are then a permutation of what they were, each at most the next
    ones, and no byte outside the array has changed. *)
Theorem qsort_sorts compare `{!StrcmpType compare} (size : nat) (pre post : mem) (l : list (list Z)) :
  (0 < length pre)%nat → (0 < size)%nat → elements size l → fits size l →
  ∃ l', qsort compare (array pre) (Z.of_nat (length l)) (Z.of_nat size) (pre ++ concat l ++ post) = Ret (tt, pre ++ concat l' ++ post) ∧
    l' ≡ₚ l ∧ StronglySorted (le compare) l'.
Proof. intros Hpre Hsize Hl Hf. by apply (sort_ok compare size pre post). Qed.

(** bsearch finds.  In a sorted array it returns the address of an element that is equal to the key, if there is one,
    and a null pointer if not. *)
Theorem bsearch_finds compare `{!StrcmpType compare} (size : nat) (pre post : mem) (key : list Z) (l : list (list Z)) :
  (0 < length pre)%nat → (0 < size)%nat → elements size l → fits size l → StronglySorted (le compare) l →
  ∃ p, bsearch compare key (array pre) (Z.of_nat (length l)) (Z.of_nat size) (pre ++ concat l ++ post) =
      Ret (p, pre ++ concat l ++ post) ∧
    ((∃ i x, p = array pre + Z.of_nat i * Z.of_nat size ∧ l !! i = Some x ∧ compare key x = 0) ∨
     (p = NULL ∧ ∀ x, x ∈ l → compare key x ≠ 0)).
Proof. intros Hpre Hsize Hl Hf Hs. by apply (binary_search_ok compare size pre post). Qed.

(** ** An example: pairs of bytes, by their first byte *)
Definition first_byte (x y : list Z) : Z := default 0 (head x) - default 0 (head y).
#[export] Instance first_byte_strcmp : StrcmpType first_byte.
Proof. split; unfold first_byte; lia. Qed.

Lemma pairs_ok (l : list (Z * Z)) : Forall (λ p, byte p.1 ∧ byte p.2) l → Z.of_nat (length l) < 2147483648 →
  elements 2 ((λ p, [p.1; p.2]) <$> l) ∧ fits 2 ((λ p, [p.1; p.2]) <$> l).
Proof.
  intros Hl Hn. split; [|unfold fits; rewrite length_fmap; lia]. apply Forall_fmap. eapply Forall_impl; [exact Hl|].
  intros [a b] [Ha Hb]. split; [done|]. repeat constructor; apply Ha || apply Hb.
Qed.

Lemma qsort_sorts_witness : qsort first_byte 1 4 2 [0; 3; 1; 1; 2; 2; 3; 1; 4; 9] = Ret (tt, [0; 1; 2; 1; 4; 2; 3; 3; 1; 9]) ∧
  ∃ l', [0] ++ concat l' ++ [9] = [0; 1; 2; 1; 4; 2; 3; 3; 1; 9] ∧ l' ≡ₚ [[3; 1]; [1; 2]; [2; 3]; [1; 4]] ∧ StronglySorted (le first_byte) l'.
Proof.
  split; [reflexivity|]. destruct (pairs_ok [(3, 1); (1, 2); (2, 3); (1, 4)]) as [Hl Hf]; [repeat constructor; cbn; lia|cbn; lia|].
  destruct (qsort_sorts first_byte 2 [0] [9] [[3; 1]; [1; 2]; [2; 3]; [1; 4]] ltac:(cbn; lia) ltac:(lia) Hl Hf) as (l' & Hrun & Hp & Hs).
  exists l'. split; [|split; [exact Hp|exact Hs]].
  assert (qsort first_byte 1 4 2 [0; 3; 1; 1; 2; 2; 3; 1; 4; 9] = Ret (tt, [0; 1; 2; 1; 4; 2; 3; 3; 1; 9])) as E by reflexivity.
  change (qsort first_byte 1 4 2 [0; 3; 1; 1; 2; 2; 3; 1; 4; 9] = Ret (tt, [0] ++ concat l' ++ [9])) in Hrun. congruence.
Defined.

Lemma bsearch_finds_witness : ∃ p, bsearch first_byte [2; 0] 1 3 2 [0; 1; 4; 2; 3; 3; 1] = Ret (p, [0; 1; 4; 2; 3; 3; 1]) ∧ p ≠ NULL.
Proof.
  destruct (pairs_ok [(1, 4); (2, 3); (3, 1)]) as [Hl Hf]; [repeat constructor; cbn; lia|cbn; lia|].
  destruct (bsearch_finds first_byte 2 [0] [] [2; 0] [[1; 4]; [2; 3]; [3; 1]] ltac:(cbn; lia) ltac:(lia) Hl Hf) as (p & Hrun & Hp).
  - repeat constructor; unfold le, first_byte; cbn; lia.
  - exists p. split; [exact Hrun|]. destruct Hp as [(i & x & -> & _ & _)|[_ Hno]].
    + unfold array, NULL. cbn [length]. lia.
    + exfalso. apply (Hno [2; 3]); [|reflexivity]. right. left.
Defined.
