(* ===== verification/StdIo.v ===== *)
(** Formatted output: lib/stdio.c of Project5.

    A format is the list of its characters, as is a string argument, since
    nothing may write over them while they are read; other arguments are 32-bit
    words, of which a 64-bit argument takes two.  [output] is any effect. *)
From Stdlib Require Import Ascii String.
From S2P Require Import Prelude CString Arith StdLib.
Local Open Scope Z_scope.

Definition chars (s : string) : list Z := (λ c, Z.of_nat (nat_of_ascii c)) <$> list_ascii_of_string s.

(** An argument: a word, or a pointer to a string, which may be null. *)
Inductive arg : Type := Word (w : Z) | Str (s : option (list Z)).

(** [va_arg (args, t)] for a [t] of 32 bits, as unsigned, of 64 bits, and for [char *] *)
Definition va_word (args : list arg) : outcome (Z * list arg) :=
  match args with Word w :: args => Ret (u32 w, args) | _ => Err Fault end.
Definition va_long (args : list arg) : outcome (Z * list arg) :=
  match args with Word lo :: Word hi :: args => Ret (u32 lo + 4294967296 * u32 hi, args) | _ => Err Fault end.
Definition va_string (args : list arg) : outcome (option (list Z) * list arg) :=
  match args with Str s :: args => Ret (s, args) | _ => Err Fault end.

(** stdio.c 98-107 flags *)
Definition MINUS : Z := 1.
Definition PLUS : Z := 2.
Definition SPACE : Z := 4.
Definition POUND : Z := 8.
Definition ZERO : Z := 16.
Definition GROUP : Z := 32.
Definition has_flag (flags f : Z) : bool := bool_decide (Z.land flags f ≠ 0).

(** stdio.c 117-127 type *)
Inductive conversion_type : Set := CHAR | SHORT | INT | INTMAX | LONG | LONGLONG | PTRDIFFT | SIZET.

(** stdio.c 94-128 printf_conversion *)
Record printf_conversion := mkConversion { flags : Z; width : Z; precision : Z; ctype : conversion_type }.

(** stdio.c 130-136 integer_base *)
Record integer_base := mkBase { base : Z; digits : list Z; x_char : Z; group : Z }.

(** stdio.c 138 base_d *)
Definition base_d : integer_base := mkBase 10 (chars "0123456789") 0 3.
(** stdio.c 139 base_o *)
Definition base_o : integer_base := mkBase 8 (chars "01234567") 0 3.
(** stdio.c 140 base_x *)
Definition base_x : integer_base := mkBase 16 (chars "0123456789abcdef") 120 4.
(** stdio.c 141 base_X *)
Definition base_X : integer_base := mkBase 16 (chars "0123456789ABCDEF") 88 4.

(** [*format] *)
Definition at_format (format : list Z) : Z := default 0 (head format).

(** ** Parsing *)

(** stdio.c 345-371 parse_conversion, the flags *)
Fixpoint parse_flags (format : list Z) (flags : Z) : Z * list Z :=
  match format with
  | c :: rest =>
      if decide (c = 45) then parse_flags rest (Z.lor flags MINUS)
      else if decide (c = 43) then parse_flags rest (Z.lor flags PLUS)
      else if decide (c = 32) then parse_flags rest (Z.lor flags SPACE)
      else if decide (c = 35) then parse_flags rest (Z.lor flags POUND)
      else if decide (c = 48) then parse_flags rest (Z.lor flags ZERO)
      else if decide (c = 39) then parse_flags rest (Z.lor flags GROUP)
      else (flags, format)
  | [] => (flags, format)
  end.

(** stdio.c 387-388 parse_conversion, a number; also 409-410 *)
Fixpoint parse_number (format : list Z) (n : Z) : Z * list Z :=
  match format with
  | c :: rest => if isdigit c then parse_number rest (s32 (n * 10 + c - 48)) else (n, format)
  | [] => (n, format)
  end.

(** stdio.c 419-457 parse_conversion, the type *)
Definition parse_type (format : list Z) : conversion_type * list Z :=
  match format with
  | 104 :: 104 :: rest => (CHAR, rest)
  | 104 :: rest => (SHORT, rest)
  | 106 :: rest => (INTMAX, rest)
  | 108 :: 108 :: rest => (LONGLONG, rest)
  | 108 :: rest => (LONG, rest)
  | 116 :: rest => (PTRDIFFT, rest)
  | 122 :: rest => (SIZET, rest)
  | _ => (INT, format)
  end.

(** stdio.c 339-460 parse_conversion *)
Definition parse_conversion (format : list Z) (args : list arg) : outcome (list Z * printf_conversion * list arg) :=
  let '(flags, format) := parse_flags format 0 in
  let flags := if has_flag flags MINUS then Z.ldiff flags ZERO else flags in
  let flags := if has_flag flags PLUS then Z.ldiff flags SPACE else flags in
  let* ' (width, format, args) := (if decide (at_format format = 42) then
      let* ' (w, args) := va_word args in Ret (s32 w, tail format, args)
    else let '(w, format) := parse_number format 0 in Ret (w, format, args)) in
  let '(width, flags) := if decide (width < 0) then (s32 (- width), Z.lor flags MINUS) else (width, flags) in
  let* ' (precision, format, args) := (if decide (at_format format = 46) then
      let format := tail format in
      let* ' (p, format, args) := (if decide (at_format format = 42) then
          let* ' (w, args) := va_word args in Ret (s32 w, tail format, args)
        else let '(p, format) := parse_number format 0 in Ret (p, format, args)) in
      Ret (if decide (p < 0) then -1 else p, format, args)
    else Ret (-1, format, args)) in
  let flags := if decide (0 ≤ precision) then Z.ldiff flags ZERO else flags in
  let '(ctype, format) := parse_type format in
  Ret (format, mkConversion flags width precision ctype, args).

(** ** Conversions *)

(** [*cp++ = c] on [char buf[64]]; what is before [cp] is in [buf]. *)
Definition push (c : Z) (buf : list Z) : outcome (list Z) :=
  if decide (Z.of_nat (length buf) < 64) then Ret (buf ++ [c]) else Err Fault.

(** stdio.c 506-513 format_integer, the digits, from the last one *)
Fixpoint digit_buffer (fuel : nat) (b : integer_base) (group_flag : bool) (value digit_cnt : Z) (buf : list Z) : outcome (list Z) :=
  match fuel with
  | O => Err OutOfFuel
  | S fuel =>
      if decide (0 < value) then
        let* buf := (if group_flag && bool_decide (0 < digit_cnt) && bool_decide (Z.rem digit_cnt (group b) = 0)
                     then push 44 buf else Ret buf) in
        let* d := or_fault (nthZ (digits b) (value mod base b)) in
        let* buf := push d buf in
        digit_buffer fuel b group_flag (value / base b) (digit_cnt + 1) buf
      else Ret buf
  end.

(** stdio.c 521-522 format_integer, zeros up to the precision *)
Fixpoint zero_buffer (fuel : nat) (precision : Z) (buf : list Z) : outcome (list Z) :=
  match fuel with
  | O => Err OutOfFuel
  | S fuel =>
      if decide (Z.of_nat (length buf) < precision ∧ Z.of_nat (length buf) < 63) then
        let* buf := push 48 buf in zero_buffer fuel precision buf
      else Ret buf
  end.

(** The rounds of the loops over the 64 characters of [buf]: none takes more. *)
Definition buffer_fuel : nat := 65.

(** The sign character, or 0: stdio.c 487-496. *)
Definition sign_char (c : printf_conversion) (is_signed negative : bool) : Z :=
  if is_signed then
    if has_flag (flags c) PLUS then (if negative then 45 else 43)
    else if has_flag (flags c) SPACE then (if negative then 45 else 32)
    else if negative then 45 else 0
  else 0.

(** What is in [buf] when the output begins: stdio.c 503-524. *)
Definition fill_buffer (value : Z) (b : integer_base) (c : printf_conversion) : outcome (list Z) :=
  let* buf := digit_buffer buffer_fuel b (has_flag (flags c) GROUP) value 0 [] in
  let precision := if decide (precision c < 0) then 1 else precision c in
  let* buf := zero_buffer buffer_fuel precision buf in
  if has_flag (flags c) POUND && bool_decide (base b = 8) && bool_decide (buf = [] ∨ last buf ≠ Some 48)
  then push 48 buf else Ret buf.

Section output.
Context {S : Type} (output : Z → M S unit).

(** stdio.c 550-555 output_dup *)
Fixpoint output_dup (ch : Z) (cnt : nat) : M S unit :=
  match cnt with O => ret tt | Datatypes.S cnt => output ch;;! output_dup ch cnt end.

Fixpoint output_all (l : list Z) : M S unit :=
  match l with [] => ret tt | c :: l => output c;;! output_all l end.

(** stdio.c 469-547 format_integer *)
Definition format_integer (value : Z) (is_signed negative : bool) (b : integer_base) (c : printf_conversion) : M S unit :=
  let sign := sign_char c is_signed negative in
  let x := if has_flag (flags c) POUND && bool_decide (value ≠ 0) then x_char b else 0 in
  let! buf := lift (fill_buffer value b c) in
  let pad_cnt := s32 (width c - Z.of_nat (length buf) - (if decide (x ≠ 0) then 2 else 0) - (if decide (sign ≠ 0) then 1 else 0)) in
  let pad_cnt := if decide (pad_cnt < 0) then 0 else pad_cnt in
  (if decide (Z.land (flags c) (Z.lor MINUS ZERO) = 0) then output_dup 32 (Z.to_nat pad_cnt) else ret tt);;!
  (if decide (sign ≠ 0) then output sign else ret tt);;!
  (if decide (x ≠ 0) then output 48;;! output x else ret tt);;!
  (if has_flag (flags c) ZERO then output_dup 48 (Z.to_nat pad_cnt) else ret tt);;!
  output_all (rev buf);;!
  (if has_flag (flags c) MINUS then output_dup 32 (Z.to_nat pad_cnt) else ret tt).

(** stdio.c 560-572 format_string, of the first [length] characters of a string *)
Definition format_string (string : list Z) (c : printf_conversion) : M S unit :=
  let length := Z.of_nat (length string) in
  (if bool_decide (length < width c) && negb (has_flag (flags c) MINUS) then output_dup 32 (Z.to_nat (width c - length)) else ret tt);;!
  output_all string;;!
  (if bool_decide (length < width c) && has_flag (flags c) MINUS then output_dup 32 (Z.to_nat (width c - length)) else ret tt).

(** stdio.c 191-220 the value of a signed conversion *)
Definition signed_value (t : conversion_type) (args : list arg) : outcome (Z * list arg) :=
  match t with
  | CHAR => let* ' (w, args) := va_word args in Ret ((w + 128) mod 256 - 128, args)
  | SHORT => let* ' (w, args) := va_word args in Ret ((w + 32768) mod 65536 - 32768, args)
  | INT | LONG | PTRDIFFT => let* ' (w, args) := va_word args in Ret (s32 w, args)
  | INTMAX | LONGLONG => let* ' (w, args) := va_long args in Ret (s64 w, args)
  | SIZET => let* ' (w, args) := va_word args in
      Ret (if decide (w > u32_max / 2) then w - u32_max - 1 else w, args)
  end.

(** stdio.c 237-268 the value of an unsigned conversion *)
Definition unsigned_value (t : conversion_type) (args : list arg) : outcome (Z * list arg) :=
  match t with
  | CHAR => let* ' (w, args) := va_word args in Ret (w mod 256, args)
  | SHORT => let* ' (w, args) := va_word args in Ret (w mod 65536, args)
  | INT | LONG | SIZET => va_word args
  | INTMAX | LONGLONG => va_long args
  | PTRDIFFT => let* ' (w, args) := va_word args in
      Ret (Z.land (u64 (s32 w)) (Z.lor (Z.shiftl 2147483647 1) 1), args)
  end.

(** stdio.c 183-331 __vprintf, one conversion [ch].  [message] is what the calls of
    [__printf] in it do. *)
Definition convert (message : string → Z → M S unit) (ch : Z) (c : printf_conversion) (args : list arg) : M S (list arg) :=
  if decide (ch = 100 ∨ ch = 105) then
    let! ' (value, args) := lift (signed_value (ctype c) args) in
    format_integer (if decide (value < 0) then u64 (s64 (- value)) else u64 value) true (bool_decide (value < 0)) base_d c;;! ret args
  else if decide (ch = 111 ∨ ch = 117 ∨ ch = 120 ∨ ch = 88) then
    let! ' (value, args) := lift (unsigned_value (ctype c) args) in
    let b := if decide (ch = 111) then base_o else if decide (ch = 117) then base_d else if decide (ch = 120) then base_x else base_X in
    format_integer value false false b c;;! ret args
  else if decide (ch = 99) then
    let! ' (w, args) := lift (va_word args) in
    format_string [w mod 256] c;;! ret args
  else if decide (ch = 115) then
    let! ' (s, args) := lift (va_string args) in
    let s := default (chars "(null)") s in
    format_string (if decide (u32 (precision c) < Z.of_nat (length s)) then take (Z.to_nat (u32 (precision c))) s else s) c;;! ret args
  else if decide (ch = 112) then
    let! ' (p, args) := lift (va_word args) in
    format_integer p false false base_x (mkConversion POUND (width c) (precision c) (ctype c));;! ret args
  else if decide (ch = 102 ∨ ch = 101 ∨ ch = 69 ∨ ch = 103 ∨ ch = 71 ∨ ch = 110) then
    message "<<no %%%c in kernel>>"%string ch;;! ret args
  else message "<<no %%%c conversion>>"%string ch;;! ret args.

(** stdio.c 160-332 __vprintf, the loop *)
Fixpoint vprintf_loop (message : string → Z → M S unit) (fuel : nat) (format : list Z) (args : list arg) : M S unit :=
  match fuel with
  | O => throw OutOfFuel
  | Datatypes.S fuel =>
      match format with
      | [] => ret tt
      | ch :: format =>
          if decide (ch ≠ 37) then output ch;;! vprintf_loop message fuel format args
          else if decide (at_format format = 37) then output 37;;! vprintf_loop message fuel (tail format) args
          else
            let! ' (format, c, args) := lift (parse_conversion format args) in
            let! args := convert message (at_format format) c args in
            match format with
            | [] => throw Fault
            | _ :: format => vprintf_loop message fuel format args
            end
      end
  end.

(** stdio.c 156-333 __vprintf.  Each round takes a character at least; the formats
    of the messages need no further message. *)
Definition __vprintf (format : list Z) (args : list arg) : M S unit :=
  let message := λ s ch, vprintf_loop (λ _ _, throw OutOfFuel) (Datatypes.S (String.length s)) (chars s) [Word ch] in
  vprintf_loop message (Datatypes.S (length format)) format args.

(** stdio.c 78-89 printf.  On the console [output] is [vprintf_helper]. *)
Definition printf (format : string) (args : list arg) : M S unit := __vprintf (chars format) args.

(** The calls of [body] for [n] numbers from [i] on. *)
Fixpoint each (n : nat) (i : Z) (body : Z → M S unit) : M S unit :=
  match n with O => ret tt | Datatypes.S n => body i;;! each n (i + 1) body end.

(** stdio.c 600-632 hex_dump, one line *)
Definition hex_line (ofs : Z) (buf : list Z) (start end_ : Z) (ascii : bool) : M S unit :=
  let per_line := 16 in
  let n := Z.to_nat (end_ - start) in
  printf "%08jx  " [Word (ofs / per_line * per_line); Word 0];;!
  each (Z.to_nat start) 0 (λ _, printf "   " []);;!
  each n start (λ i, let! b := lift (or_fault (nthZ buf (i - start))) in
    printf "%02hhx%c" [Word b; Word (if decide (i = per_line / 2 - 1) then 45 else 32)]);;!
  (if ascii then
    each (Z.to_nat (per_line - end_)) end_ (λ _, printf "   " []);;!
    printf "|" [];;!
    each (Z.to_nat start) 0 (λ _, printf " " []);;!
    each n start (λ i, let! b := lift (or_fault (nthZ buf (i - start))) in
      printf "%c" [Word (if decide (32 ≤ b < 127) then b else 46)]);;!
    each (Z.to_nat (per_line - end_)) end_ (λ _, printf " " []);;!
    printf "|" []
  else ret tt);;!
  output 10.

(** stdio.c 592-637 hex_dump.  Each line takes a byte at least. *)
Fixpoint hex_dump_loop (fuel : nat) (ofs : Z) (buf : list Z) (size : Z) (ascii : bool) : M S unit :=
  match fuel with
  | O => throw OutOfFuel
  | Datatypes.S fuel =>
      if decide (0 < size) then
        let start := ofs mod 16 in
        let end_ := if decide (size < 16 - start) then start + size else 16 in
        let n := end_ - start in
        hex_line ofs buf start end_ ascii;;!
        hex_dump_loop fuel (u32 (ofs + n)) (drop (Z.to_nat n) buf) (size - n) ascii
      else ret tt
  end.
Definition hex_dump (ofs : Z) (buf : list Z) (size : Z) (ascii : bool) : M S unit :=
  hex_dump_loop (Datatypes.S (Z.to_nat size)) ofs buf size ascii.

(** stdio.c 649-652 print_human_readable_size, the unit *)
Fixpoint reduce_size (factors : list string) (size : Z) : Z * string :=
  match factors with
  | [] => (size, ""%string)
  | [f] => (size, f)
  | f :: rest => if decide (1024 ≤ size) then reduce_size rest (size / 1024) else (size, f)
  end.

(** stdio.c 641-655 print_human_readable_size *)
Definition print_human_readable_size (size : Z) : M S unit :=
  if decide (size = 1) then printf "1 byte" []
  else
    let '(size, f) := reduce_size ["bytes"; "kB"; "MB"; "GB"; "TB"]%string size in
    printf "%llu %s" [Word (size mod 4294967296); Word (size / 4294967296); Str (Some (chars f))].
End output.

(** ** Output into a buffer *)

(** stdio.c 9-14 vsnprintf_aux *)
Record vsnprintf_aux := mkAux { aux_p : Z; aux_length : Z; max_length : Z }.

(** stdio.c 45-52 vsnprintf_helper *)
Definition vsnprintf_helper (ch : Z) : M (mem * vsnprintf_aux) unit := λ '(m, aux),
  let old := aux_length aux in
  let aux := mkAux (aux_p aux) (s32 (old + 1)) (max_length aux) in
  if decide (old < max_length aux) then
    let* ' (_, m) := store (aux_p aux) ch m in Ret (tt, (m, mkAux (aux_p aux + 1) (aux_length aux) (max_length aux)))
  else Ret (tt, (m, aux)).

(** stdio.c 25-42 vsnprintf *)
Definition vsnprintf (buffer buf_size : Z) (format : list Z) (args : list arg) : M mem Z := λ m,
  let aux := mkAux buffer 0 (if decide (0 < buf_size) then s32 (buf_size - 1) else 0) in
  let* ' (_, (m, aux)) := __vprintf vsnprintf_helper format args (m, aux) in
  let* ' (_, m) := (if decide (0 < buf_size) then store (aux_p aux) 0 m else Ret (tt, m)) in
  Ret (aux_length aux, m).

(** stdio.c 61-72 snprintf *)
Definition snprintf (buffer buf_size : Z) (format : string) (args : list arg) : M mem Z :=
  vsnprintf buffer buf_size (chars format) args.

(** The characters that a format prints. *)
Definition collect (ch : Z) : M (list Z) unit := modify (λ l, l ++ [ch]).
Definition formatted (format : list Z) (args : list arg) : outcome (list Z) :=
  let* ' (_, l) := __vprintf collect format args [] in Ret l.

Example formatted_ex1 : formatted (chars "%5d|%-6x|%'u|%#o|%s%c%%") [Word (-42); Word 255; Word 1234567; Word 8; Str None; Word 65] =
  Ret (chars "  -42|ff    |1,234,567|010|(null)A%").
Proof. vm_compute. reflexivity. Qed.
Example formatted_ex2 : formatted (chars "%+.3d %08lld % d %f %p") [Word 7; Word 0; Word 1; Word 3; Word 4096] =
  Ret (chars "+007 4294967296  3 <<no %f in kernel>> 0x1000").
Proof. vm_compute. reflexivity. Qed.
Example snprintf_ex : snprintf 2 4 "%d!" [Word 123456] (replicate 8 7) = Ret (7, [7; 7; 49; 50; 51; 0; 7; 7]).
Proof. vm_compute. reflexivity. Qed.

Definition printed (m : M (list Z) unit) : outcome (list Z) := let* ' (_, l) := m [] in Ret l.
Example human_ex : printed (print_human_readable_size collect 10000000) = Ret (chars "9 MB").
Proof. vm_compute. reflexivity. Qed.
Example hex_dump_ex : printed (hex_dump collect 14 [65; 200; 66] 3 true) =
  Ret (chars "00000000                                            41 c8 |              A.|" ++ [10] ++
       chars "00000010  42                                              |B               |" ++ [10]).
Proof. vm_compute. reflexivity. Qed.
