(* ===== verification/StdIoLaws.v ===== *)
(** What formatted output promises: vsnprintf keeps to its buffer, numbers come out
    as they went in, and atoi reads back what "%d" prints. *)
From Stdlib Require Import Ascii String.
From S2P Require Import Prelude CString Arith StdLib StdIo.
Local Open Scope Z_scope.

(** ** Printing does not depend on where the output goes *)

(** A computation that prints [out], whatever the effect of printing, and then
    has the outcome [r]. *)
Definition prints {A} (f : ∀ S, (Z → M S unit) → M S A) (out : list Z) (r : outcome A) : Prop :=
  ∀ S (o : Z → M S unit) s, f S o s = bind (output_all o out) (λ _, lift r) s.
Definition printer {A} (f : ∀ S, (Z → M S unit) → M S A) : Prop := ∃ out r, prints f out r.

Lemma output_all_app {S} (o : Z → M S unit) l1 l2 s : output_all o (l1 ++ l2) s = bind (output_all o l1) (λ _, output_all o l2) s.
Proof.
  revert s. induction l1 as [|c l1 IH]; intros s; [done|]. cbn [output_all app]. unfold bind at 1 3.
  destruct (o c s) as [[[] s']|] eqn:E; unfold bind; rewrite E; [|done]. rewrite IH. done.
Qed.

Lemma printer_lift {A} (r : outcome A) : printer (λ S o, lift r).
Proof. by exists [], r. Qed.
Lemma printer_ret {A} (a : A) : printer (λ S o, ret a).
Proof. by exists [], (Ret a). Qed.
Lemma printer_output c : printer (λ S o, o c).
Proof.
  exists [c], (Ret tt). intros S o s. cbn [output_all]. unfold bind, lift, ret. by destruct (o c s) as [[[] s']|].
Qed.

Lemma printer_bind {A B} (f : ∀ S, (Z → M S unit) → M S A) (g : A → ∀ S, (Z → M S unit) → M S B) :
  printer f → (∀ a, printer (g a)) → printer (λ S o, bind (f S o) (λ a, g a S o)).
Proof.
  intros (out & r & Hf) Hg. destruct r as [a|e].
  - destruct (Hg a) as (out' & r' & Hg'). exists (out ++ out'), r'. intros S o s. unfold bind at 1. rewrite Hf.
    unfold bind at 2. rewrite output_all_app. unfold bind at 1 2. destruct (output_all o out s) as [[[] s']|]; [|done]. cbn [lift].
    exact (Hg' S o s').
  - exists out, (Err e). intros S o s. unfold bind at 1. rewrite Hf. unfold bind. by destruct (output_all o out s) as [[[] s']|].
Qed.

Lemma printer_if {A} (b : bool) (f g : ∀ S, (Z → M S unit) → M S A) : printer f → printer g → printer (λ S o, if b then f S o else g S o).
Proof. by destruct b. Qed.
Lemma printer_decide {A} P `{Decision P} (f g : ∀ S, (Z → M S unit) → M S A) : printer f → printer g →
  printer (λ S o, if decide P then f S o else g S o).
Proof. by destruct (decide P). Qed.

Ltac printing := repeat first
  [ apply printer_lift | apply printer_ret | apply printer_output
  | progress intros
  | match goal with |- printer (λ _ _, bind _ _) => apply printer_bind end
  | match goal with |- printer (λ _ _, if decide _ then _ else _) => apply printer_decide end
  | match goal with |- printer (λ _ _, if _ then _ else _) => apply printer_if end ].

Lemma printer_dup ch n : printer (λ S o, output_dup o ch n).
Proof. induction n as [|n IH]; cbn [output_dup]; printing; done. Qed.
Lemma printer_all l : printer (λ S o, output_all o l).
Proof. induction l as [|c l IH]; cbn [output_all]; printing; done. Qed.

Lemma printer_integer value is_signed negative b c : printer (λ S o, format_integer o value is_signed negative b c).
Proof. unfold format_integer. printing; (apply printer_dup || apply printer_all). Qed.
Lemma printer_string s c : printer (λ S o, format_string o s c).
Proof. unfold format_string. printing; (apply printer_dup || apply printer_all). Qed.

Lemma printer_convert (message : ∀ S, (Z → M S unit) → string → Z → M S unit) ch c args :
  (∀ s ch, printer (λ S o, message S o s ch)) → printer (λ S o, convert o (message S o) ch c args).
Proof.
  intros Hm. unfold convert.
  printing; try (apply Hm || apply printer_integer || apply printer_string || (destruct a; printing; apply printer_integer || apply printer_string)).
Qed.

Lemma printer_loop (message : ∀ S, (Z → M S unit) → string → Z → M S unit) fuel format args :
  (∀ s ch, printer (λ S o, message S o s ch)) → printer (λ S o, vprintf_loop o (message S o) fuel format args).
Proof.
  intros Hm. revert format args. induction fuel as [|fuel IH]; intros format args; cbn [vprintf_loop]; [apply (printer_lift (Err OutOfFuel))|].
  destruct format as [|ch format]; [apply printer_ret|]. printing; try apply IH.
  destruct a as [[format' c] args']. apply printer_bind; [by apply printer_convert|]. intros args2.
  destruct format'; [apply (printer_lift (Err Fault))|apply IH].
Qed.

Lemma printer_vprintf format args : printer (λ S o, __vprintf o format args).
Proof.
  apply (printer_loop (λ S o s ch, vprintf_loop o (λ _ _, throw OutOfFuel) (Datatypes.S (String.length s)) (chars s) [Word ch])).
  intros s ch. apply (printer_loop (λ S o _ _, throw OutOfFuel)). intros _ _. apply (printer_lift (Err OutOfFuel)).
Qed.

Lemma collect_all l k : output_all collect l k = Ret (tt, k ++ l).
Proof.
  revert k. induction l as [|c l IH]; intros k; cbn [output_all]; [by rewrite app_nil_r|].
  unfold collect at 1. rewrite bind_modify, IH. by rewrite <-(assoc_L (++)).
Qed.

(** The output of a format that can be printed. *)
Lemma vprintf_run {S} (o : Z → M S unit) format args out s : formatted format args = Ret out →
  __vprintf o format args s = output_all o out s.
Proof.
  destruct (printer_vprintf format args) as (l & r & H). unfold formatted. rewrite (H _ collect []). unfold bind at 1.
  rewrite collect_all. destruct r as [[]|e]; cbn [lift obind app]; [|done]. intros [= ->]. rewrite (H S o s). unfold bind, lift.
  by destruct (output_all o out s) as [[[] s']|].
Qed.

(** ** vsnprintf *)
Definition as_bytes (l : list Z) : list Z := (λ c, c mod 256) <$> l.

Lemma helper_none out m p n mx : 0 ≤ n → n + Z.of_nat (length out) < 2147483648 → mx ≤ n →
  output_all vsnprintf_helper out (m, mkAux p n mx) = Ret (tt, (m, mkAux p (n + Z.of_nat (length out)) mx)).
Proof.
  revert n. induction out as [|c out IH]; intros n Hn Hlen Hmx; cbn [output_all].
  - unfold ret. do 3 f_equal. f_equal. cbn. lia.
  - unfold bind, vsnprintf_helper at 1. cbn [aux_p aux_length max_length length] in *. rewrite s32_small, decide_False by lia.
    rewrite IH by lia. do 3 f_equal. f_equal. lia.
Qed.

Lemma helper_all out m p n mx : 0 ≤ n → n + Z.of_nat (length out) < 2147483648 → 0 < p → p + (mx - n) < Z.of_nat (length m) →
  let w := take (Z.to_nat (mx - n)) (as_bytes out) in
  output_all vsnprintf_helper out (m, mkAux p n mx) =
    Ret (tt, (splice m (Z.to_nat p) w, mkAux (p + Z.of_nat (length w)) (n + Z.of_nat (length out)) mx)).
Proof.
  revert m p n. induction out as [|c out IH]; intros m p n Hn Hlen Hp Hm; cbn [output_all as_bytes fmap list_fmap].
  - rewrite take_nil, splice_nil. cbn. unfold ret. do 3 f_equal. f_equal; lia.
  - unfold bind, vsnprintf_helper at 1. cbn [aux_p aux_length max_length length] in *. rewrite s32_small by lia. case_decide as Hlt.
    + rewrite store_run by lia. cbn [obind]. rewrite IH by (rewrite ?length_insert; lia). fold (as_bytes out).
      replace (Z.to_nat (mx - n)) with (Datatypes.S (Z.to_nat (mx - (n + 1)))) by lia. cbn [take length].
      set (w := take (Z.to_nat (mx - (n + 1))) (as_bytes out)).
      assert (length w ≤ Z.to_nat (mx - (n + 1)))%nat as Hw by (unfold w; rewrite length_take; lia).
      replace (Z.to_nat (p + 1)) with (Datatypes.S (Z.to_nat p)) by lia.
      rewrite <-splice_insert_front by lia. do 3 f_equal. f_equal; lia.
    + cbn [obind]. rewrite helper_none by lia. replace (Z.to_nat (mx - n)) with 0%nat by lia. rewrite take_0, splice_nil.
      do 3 f_equal. f_equal; cbn; lia.
Qed.

(** [vsnprintf], for a format that can be printed. *)
Lemma vsnprintf_ok format args out m buffer n : formatted format args = Ret out → Z.of_nat (length out) < 2147483648 →
  0 < buffer → 0 ≤ n < 2147483648 → buffer + n ≤ Z.of_nat (length m) →
  vsnprintf buffer n format args m = Ret (Z.of_nat (length out),
    if decide (n = 0) then m else splice m (Z.to_nat buffer) (take (Z.to_nat (n - 1)) (as_bytes out) ++ [0])).
Proof.
  intros Hout Hlen Hb Hn Hm. unfold vsnprintf. rewrite (vprintf_run _ _ _ _ _ Hout).
  destruct (decide (n = 0)) as [->|Hn0].
  - destruct (decide (0 < 0)) as [|_]; [lia|]. destruct (decide (buffer < Z.of_nat (length m))) as [Hlt|Hge].
    + rewrite helper_all by lia. change (Z.to_nat (0 - 0)) with 0%nat. rewrite take_0, splice_nil. done.
    + rewrite helper_none by lia. done.
  - rewrite decide_True by lia. rewrite s32_small by lia. rewrite helper_all by lia. cbn [obind].
    rewrite decide_True by lia. set (w := take (Z.to_nat (n - 1 - 0)) (as_bytes out)).
    assert (length w ≤ Z.to_nat (n - 1))%nat as Hw by (unfold w; rewrite length_take; lia).
    cbn [aux_p aux_length]. rewrite store_run by (rewrite length_splice; lia). cbn [obind].
    replace (Z.to_nat (buffer + Z.of_nat (length w))) with (Z.to_nat buffer + length w)%nat by lia.
    change (0 mod 256) with 0. rewrite insert_splice_end by lia. unfold w. by rewrite Z.sub_0_r, Z.add_0_l.
Qed.

(** ** The digits of a number *)

(** The bases that are used. *)
Definition known (b : integer_base) : Prop := b ∈ [base_d; base_o; base_x; base_X].

(** The value of a digit character. *)
Definition digit_of (b : integer_base) (c : Z) : Z := match list_find (.= c) (digits b) with Some (i, _) => Z.of_nat i | None => 0 end.
(** The number that characters stand for, the last digit first; commas do not count. *)
Fixpoint number (b : integer_base) (l : list Z) : Z :=
  match l with [] => 0 | c :: l => if decide (c = 44) then number b l else digit_of b c + base b * number b l end.

Lemma known_base b : known b → 8 ≤ base b ≤ 16.
Proof. unfold known. intros [->|[->|[->|[->|[]%elem_of_nil]%elem_of_cons]%elem_of_cons]%elem_of_cons]%elem_of_cons; cbn; lia. Qed.

Definition digit_fits (b : integer_base) (d : Z) : bool :=
  match nthZ (digits b) d with
  | Some c => bool_decide (c ≠ 44) && bool_decide (digit_of b c = d) && (bool_decide (base b ≠ 10) || bool_decide (c = 48 + d))
  | None => false
  end.

Lemma known_digit b d : known b → 0 ≤ d < base b → ∃ c, nthZ (digits b) d = Some c ∧ c ≠ 44 ∧ digit_of b c = d ∧ (base b = 10 → c = 48 + d).
Proof.
  intros Hb Hd. assert (forallb (λ b, forallb (digit_fits b) (Z.of_nat <$> seq 0 (Z.to_nat (base b)))) [base_d; base_o; base_x; base_X] = true) as H by (by vm_compute).
  rewrite forallb_forall in H. specialize (H b (proj1 (list_elem_of_In _ _) Hb)). rewrite forallb_forall in H. specialize (H d).
  assert (digit_fits b d = true) as Hf.
  { apply H, list_elem_of_In, list_elem_of_fmap. exists (Z.to_nat d). split; [lia|]. apply elem_of_seq. lia. }
  unfold digit_fits in Hf. destruct (nthZ (digits b) d) as [c|]; [|done]. exists c. split; [done|].
  apply andb_true_iff in Hf as [[H1 H2]%andb_true_iff H3]. apply bool_decide_eq_true in H1, H2. split; [done|]. split; [done|].
  intros E. apply orb_true_iff in H3 as [H3|H3]; apply bool_decide_eq_true in H3; congruence.
Qed.

Lemma zero_digit b : known b → digit_of b 48 = 0.
Proof. unfold known. intros [->|[->|[->|[->|[]%elem_of_nil]%elem_of_cons]%elem_of_cons]%elem_of_cons]%elem_of_cons; by vm_compute. Qed.

Lemma push_run c buf : (length buf < 64)%nat → push c buf = Ret (buf ++ [c]).
Proof. intros H. unfold push. by rewrite decide_True by lia. Qed.

Lemma digit_buffer_ok k : ∀ fuel b g v cnt buf, known b → 0 ≤ v < base b ^ Z.of_nat k → (k < fuel)%nat → (length buf + 2 * k ≤ 64)%nat →
  ∃ ext, digit_buffer fuel b g v cnt buf = Ret (buf ++ ext) ∧ number b ext = v ∧ (length ext ≤ 2 * k)%nat ∧ (0 < v → ext ≠ []) ∧
    (g = false → base b = 10 → Forall isdigit ext ∧ (length ext ≤ k)%nat).
Proof.
  induction k as [|k IH]; intros [|fuel] b g v cnt buf Hb Hv Hfuel Hlen; try lia; cbn [digit_buffer].
  { assert (v = 0) as -> by (cbn in Hv; lia). rewrite decide_False by lia. exists []. rewrite app_nil_r. split_and!; try done; try lia. }
  case_decide as Hv0; [|assert (v = 0) as -> by lia; exists []; rewrite app_nil_r; split_and!; try done; cbn; try lia; split; [by constructor|cbn; lia]].
  pose proof (known_base b Hb) as Hbase.
  destruct (known_digit b (v mod base b) Hb) as (c & Hc & Hc44 & Hdc & Hc10); [apply Z.mod_pos_bound; lia|].
  assert (0 ≤ v / base b < base b ^ Z.of_nat k) as Hq.
  { split; [apply Z.div_pos; lia|]. apply Z.div_lt_upper_bound; [lia|]. rewrite <-Z.pow_succ_r by lia. rewrite <-Nat2Z.inj_succ. apply Hv. }
  set (comma := g && bool_decide (0 < cnt) && bool_decide (Z.rem cnt (group b) = 0)).
  assert ((if comma then push 44 buf else Ret buf) = Ret (buf ++ if comma then [44] else [])) as ->.
  { destruct comma; [apply push_run; lia|by rewrite app_nil_r]. }
  cbn [obind]. rewrite Hc. cbn [or_fault obind]. set (pre := if comma then [44] else []).
  assert (length pre ≤ 1)%nat as Hpre by (unfold pre; by destruct comma; cbn; lia).
  rewrite push_run by (rewrite length_app; lia). cbn [obind].
  destruct (IH fuel b g (v / base b) (cnt + 1) ((buf ++ pre) ++ [c]) Hb Hq) as (ext & Hrun & Hnum & Hle & _ & Hdig); [lia|rewrite !length_app; cbn; lia|].
  exists (pre ++ c :: ext). split; [rewrite Hrun; by rewrite <-!(assoc_L (++))|]. split; [|split; [|split]].
  - assert (number b (c :: ext) = v) as E.
    { cbn [number]. rewrite decide_False by done. rewrite Hdc, Hnum. pose proof (Z.div_mod v (base b)). lia. }
    unfold pre. by destruct comma.
  - rewrite length_app. cbn. lia.
  - intros _. by destruct pre.
  - intros -> H10. destruct (Hdig eq_refl H10) as [Hd1 Hd2]. assert (pre = []) as -> by done. split; [|cbn; lia].
    constructor; [|done]. rewrite (Hc10 H10), H10. unfold isdigit. apply Is_true_true, bool_decide_eq_true. pose proof (Z.mod_pos_bound v 10). lia.
Qed.

Lemma number_zeros b n : known b → number b (replicate n 48) = 0.
Proof. intros Hb. induction n as [|n IH]; [done|]. cbn [replicate number]. rewrite decide_False by done. rewrite IH, zero_digit by done. lia. Qed.
Lemma number_app_zeros b l n : known b → number b (l ++ replicate n 48) = number b l.
Proof.
  intros Hb. induction l as [|c l IH]; [by apply number_zeros|]. cbn [app number]. by rewrite IH.
Qed.

Lemma zero_buffer_ok fuel p buf : (length buf ≤ 63)%nat → (63 - length buf < fuel)%nat →
  zero_buffer fuel p buf = Ret (buf ++ replicate (Z.to_nat (Z.min p 63) - length buf) 48).
Proof.
  revert buf. induction fuel as [|fuel IH]; intros buf Hlen Hfuel; [lia|]. cbn [zero_buffer]. case_decide as Hd.
  - rewrite push_run by lia. cbn [obind]. rewrite IH by (rewrite length_app; cbn; lia). rewrite <-(assoc_L (++)). f_equal. f_equal.
    rewrite length_app. cbn [length]. replace (Z.to_nat (Z.min p 63) - length buf)%nat with (Datatypes.S (Z.to_nat (Z.min p 63) - (length buf + 1))) by lia. done.
  - replace (Z.to_nat (Z.min p 63) - length buf)%nat with 0%nat by lia. by rewrite app_nil_r.
Qed.

Definition min_digits (c : printf_conversion) : Z := if decide (precision c < 0) then 1 else precision c.

Lemma fill_buffer_ok v b c : known b → 0 ≤ v < 18446744073709551616 →
  ∃ buf, fill_buffer v b c = Ret buf ∧ (length buf ≤ 64)%nat ∧ number b buf = v ∧ Z.min (min_digits c) 63 ≤ Z.of_nat (length buf).
Proof.
  intros Hb Hv. unfold fill_buffer. pose proof (known_base b Hb) as Hbase.
  assert (v < base b ^ Z.of_nat 22) as Hv22.
  { apply (Z.lt_le_trans _ (8 ^ Z.of_nat 22)); [|apply Z.pow_le_mono_l; lia].
    assert (8 ^ Z.of_nat 22 = 73786976294838206464) as -> by reflexivity. lia. }
  destruct (digit_buffer_ok 22 buffer_fuel b (has_flag (flags c) GROUP) v 0 [] Hb ltac:(lia)) as (ext & Hrun & Hnum & Hle & _); [unfold buffer_fuel; lia|cbn; lia|].
  rewrite Hrun. cbn [obind app]. fold (min_digits c). rewrite zero_buffer_ok by (unfold buffer_fuel; lia). cbn [obind].
  set (buf := ext ++ replicate _ 48). assert (number b buf = v) as En by (unfold buf; by rewrite number_app_zeros).
  assert (length buf = length ext + (Z.to_nat (Z.min (min_digits c) 63) - length ext))%nat as El by (unfold buf; by rewrite length_app, length_replicate).
  case_match.
  - exists (buf ++ [48]). rewrite push_run by lia. split; [done|]. rewrite length_app. cbn [length]. split; [lia|].
    split; [|lia]. rewrite <-En. exact (number_app_zeros b buf 1 Hb).
  - exists buf. split_and!; (done || lia).
Qed.

(** ** Printing and reading numbers *)
Definition plain : printf_conversion := mkConversion 0 0 (-1) INT.

Lemma int_buffer v : 0 ≤ v < 10000000000 →
  ∃ ds, fill_buffer v base_d plain = Ret ds ∧ Forall isdigit ds ∧ number base_d ds = v ∧ (1 ≤ length ds ≤ 10)%nat.
Proof.
  intros Hv. assert (known base_d) as Hb by (by left).
  destruct (digit_buffer_ok 10 buffer_fuel base_d false v 0 [] Hb) as (ext & Hrun & Hnum & _ & Hne & Hd);
    [by change (base base_d ^ Z.of_nat 10) with 10000000000|unfold buffer_fuel; lia|cbn; lia|]. destruct (Hd eq_refl eq_refl) as [Hdig Hle].
  unfold fill_buffer. change (has_flag (flags plain) GROUP) with false. rewrite Hrun. cbn [obind app].
  change (if decide (precision plain < 0) then 1 else precision plain) with 1. rewrite zero_buffer_ok by (unfold buffer_fuel; lia). cbn [obind].
  change (has_flag (flags plain) POUND) with false. cbn [andb]. eexists. split; [reflexivity|].
  change (Z.to_nat (Z.min 1 63)) with 1%nat. split; [|split; [by rewrite number_app_zeros|rewrite length_app, length_replicate; lia]].
  apply Forall_app. split; [done|]. by apply Forall_replicate.
Qed.

Lemma conversion_step {S} (o : Z → M S unit) message fuel format args ch format' c args' s : at_format format ≠ 37 →
  parse_conversion format args = Ret (ch :: format', c, args') →
  vprintf_loop o message (Datatypes.S fuel) (37 :: format) args s =
    bind (convert o message ch c args') (λ args, vprintf_loop o message fuel format' args) s.
Proof.
  intros H37 Hparse. cbn [vprintf_loop]. destruct (decide (37 ≠ 37)) as [H|_]; [by destruct H|]. rewrite decide_False by done.
  by rewrite Hparse, bind_lift.
Qed.

(** What a number without flags, width and precision looks like. *)
Lemma format_plain {S} (o : Z → M S unit) v negative ds s : fill_buffer v base_d plain = Ret ds → (length ds ≤ 64)%nat →
  format_integer o v true negative base_d plain s = output_all o ((if negative : bool then [45] else []) ++ rev ds) s.
Proof.
  intros Hds Hlen. unfold format_integer. rewrite Hds, bind_lift. change (has_flag (flags plain) POUND) with false.
  change (has_flag (flags plain) ZERO) with false. change (has_flag (flags plain) MINUS) with false.
  change (Z.land (flags plain) (Z.lor MINUS ZERO)) with 0. change (width plain) with 0. cbn beta iota zeta delta [andb].
  rewrite s32_small by (repeat case_decide; lia). rewrite decide_True by done.
  match goal with |- context [Z.to_nat ?x] => assert (Z.to_nat x = 0%nat) as -> by (repeat case_decide; lia) end. cbn [output_dup].
  rewrite bind_ret. change (sign_char plain true negative) with (if negative then 45 else 0). rewrite output_all_app.
  destruct negative; cbn [output_all].
  - rewrite decide_True by done. rewrite !(decide_False (P := 0 ≠ 0)) by auto. unfold bind, ret. destruct (o 45 s) as [[[] s1]|]; [|done].
    destruct (output_all o (rev ds) s1) as [[[] ?]|]; done.
  - rewrite !(decide_False (P := 0 ≠ 0)) by auto. unfold bind, ret. destruct (output_all o (rev ds) s) as [[[] ?]|]; done.
Qed.

(** The decimal digits that "%d" prints, and a minus sign. *)
Lemma printed_int w : ∃ ds, formatted (chars "%d") [Word w] = Ret ((if bool_decide (s32 w < 0) then [45] else []) ++ rev ds) ∧
  Forall isdigit ds ∧ number base_d ds = Z.abs (s32 w) ∧ (1 ≤ length ds ≤ 10)%nat.
Proof.
  pose proof (s32_range w) as Hw. destruct (int_buffer (Z.abs (s32 w))) as (ds & Hrun & Hds); [lia|]. exists ds. split; [|done].
  unfold formatted, __vprintf. change (chars "%d") with [37; 100]. cbn [length].
  rewrite (conversion_step _ _ _ [100] [Word w] 100 [] plain [Word w]) by done.
  unfold convert. rewrite decide_True by (by left). cbn [ctype plain signed_value va_word obind].
  assert (s32 (u32 w) = s32 w) as -> by (unfold s32, u32; mlia). rewrite bind_assoc, bind_lift, bind_assoc.
  assert ((if decide (s32 w < 0) then u64 (s64 (- s32 w)) else u64 (s32 w)) = Z.abs (s32 w)) as ->.
  { case_decide; [rewrite s64_small by lia|]; rewrite u64_small by lia; lia. }
  unfold bind at 1. rewrite (format_plain _ _ _ ds) by (done || lia). rewrite collect_all. cbn [app]. rewrite bind_ret. reflexivity.
Qed.

(** *** atoi *)

(** The characters [l] are in memory at [p]. *)
Definition has_chars (m : mem) (p : Z) (l : list Z) : Prop := ∀ i c, l !! i = Some c → peek m (p + Z.of_nat i) = Some c.

Lemma has_chars_cons m p c l : has_chars m p (c :: l) ↔ peek m p = Some c ∧ has_chars m (p + 1) l.
Proof.
  split.
  - intros H. split; [rewrite <-(Z.add_0_r p); by apply (H 0%nat)|]. intros i d Hd. rewrite <-(H (Datatypes.S i) d Hd). f_equal. lia.
  - intros [H1 H2] [|i] d Hd; cbn in Hd; [injection Hd as <-; by rewrite Z.add_0_r|]. rewrite <-(H2 i d Hd). f_equal. lia.
Qed.

(** The digits read so far, as the negative number that atoi keeps. *)
Definition read_digits (l : list Z) (a : Z) : Z := fold_left (λ a c, a * 10 - (c - 48)) l a.

Lemma isdigit_range c : isdigit c = true → 48 ≤ c ≤ 57.
Proof. apply bool_decide_eq_true. Qed.

Lemma read_digits_le l a : Forall isdigit l → a ≤ 0 → read_digits l a ≤ a.
Proof.
  intros Hl. revert a. induction Hl as [|c l Hc%Is_true_true%isdigit_range _ IH]; intros a Ha; [done|]. cbn.
  specialize (IH (a * 10 - (c - 48)) ltac:(lia)). unfold read_digits in IH. lia.
Qed.

Lemma digit_loop_ok l a fuel m p e : Forall isdigit l → has_chars m p (l ++ [e]) → isdigit e = false → a ≤ 0 →
  -2147483648 ≤ read_digits l a → (length l < fuel)%nat → digit_loop fuel p a m = Ret (read_digits l a, m).
Proof.
  intros Hl. revert a fuel p. induction Hl as [|c l Hc%Is_true_true Hl IH]; intros a [|fuel] p Hm He Ha Hlow Hfuel; cbn in Hfuel; try lia; cbn [digit_loop app] in *;
    apply has_chars_cons in Hm as [Hp Hm]; rewrite (bind_run _ _ _ _ _ (load_peek m p _ Hp)).
  - by rewrite He.
  - rewrite Hc. pose proof (isdigit_range c Hc). cbn [read_digits fold_left] in *. fold (read_digits l (a * 10 - (c - 48))) in *.
    pose proof (read_digits_le l (a * 10 - (c - 48)) Hl ltac:(lia)). rewrite s32_small by lia. apply IH; (done || lia).
Qed.

Lemma digit_of_d c : isdigit c = true → digit_of base_d c = c - 48.
Proof.
  intros Hc%isdigit_range. assert (c = 48 ∨ c = 49 ∨ c = 50 ∨ c = 51 ∨ c = 52 ∨ c = 53 ∨ c = 54 ∨ c = 55 ∨ c = 56 ∨ c = 57) as H by lia.
  by destruct H as [->|[->|[->|[->|[->|[->|[->|[->|[->| ->]]]]]]]]].
Qed.

(** The digits, the last one first, read from the first one on. *)
Lemma read_number ds : Forall isdigit ds → read_digits (rev ds) 0 = - number base_d ds.
Proof.
  intros Hl. induction Hl as [|c l Hc%Is_true_true Hl IH]; [done|]. cbn [rev number]. unfold read_digits in *. rewrite fold_left_app, IH. cbn [fold_left].
  pose proof (isdigit_range c Hc). rewrite decide_False, digit_of_d by (done || lia). change (base base_d) with 10. lia.
Qed.

(** [atoi] of a decimal number. *)
Lemma atoi_ok m p (negative : bool) ds e : 0 < p → Forall isdigit ds → ds ≠ [] → has_chars m p ((if negative then [45] else []) ++ rev ds ++ [e]) →
  isdigit e = false → number base_d ds ≤ 2147483648 →
  atoi p m = Ret (if negative then - number base_d ds else s32 (number base_d ds), m).
Proof.
  intros Hp Hds Hne Hm He Hn. assert (Forall isdigit (rev ds)) as Hrev by (by rewrite (Permutation_rev ds) in Hds).
  pose proof (read_number ds Hds) as Hread. pose proof (read_digits_le (rev ds) 0 Hrev ltac:(lia)) as Hle.
  set (q := p + if negative then 1 else 0).
  assert (has_chars m q (rev ds ++ [e])) as Hq.
  { unfold q. destruct negative; [by apply has_chars_cons in Hm as [_ ?]|by rewrite Z.add_0_r]. }
  assert (∃ c l, rev ds = c :: l) as (c & l & El).
  { destruct (rev ds) as [|c l] eqn:E; [|by exists c, l]. apply (f_equal (@List.rev Z)) in E. rewrite rev_involutive in E. done. }
  assert (isdigit c = true) as Hc by (rewrite El in Hrev; apply Is_true_true; by apply Forall_inv in Hrev).
  pose proof (isdigit_range c Hc) as Hcr.
  set (c0 := if negative then 45 else c). assert (peek m p = Some c0) as Hc0.
  { rewrite El in Hm. unfold c0. by destruct negative; apply has_chars_cons in Hm as [? _]. }
  assert (isspace c0 = false) as Hsp.
  { unfold c0, isspace. rewrite !bool_decide_false by (destruct negative; lia). done. }
  unfold atoi. rewrite bind_assert by (apply bool_decide_eq_true; unfold NULL; lia).
  unfold fueled at 1. unfold bind at 1. cbn [space_loop]. rewrite (bind_run _ _ _ _ _ (load_peek m p c0 Hc0)), Hsp. cbn [ret].
  rewrite (bind_run _ _ _ _ _ (load_peek m p c0 Hc0)).
  assert ((if decide (c0 = 43) then (false, p + 1) else if decide (c0 = 45) then (true, p + 1) else (false, p)) = (negative, q)) as ->.
  { unfold c0, q. destruct negative; [done|]. rewrite !decide_False by lia. by rewrite Z.add_0_r. }
  assert (length (rev ds) < Datatypes.S (length m))%nat as Hfuel.
  { pose proof (Hq (length (rev ds)) e) as He'. rewrite lookup_app_r, Nat.sub_diag in He' by lia. specialize (He' eq_refl).
    apply peek_range in He'. unfold q in *. destruct negative; lia. }
  unfold fueled. unfold bind. rewrite (digit_loop_ok (rev ds) 0 _ m q e) by (done || lia). rewrite Hread. by destruct negative; rewrite ?Z.opp_involutive.
Qed.

(** ** The properties *)

(** C30: vsnprintf keeps to its buffer.  For a format that can be printed with its arguments, it returns the length of the
    whole output, and what it leaves at [buffer] is the output, cut to [buf_size - 1] characters, and a null terminator,
    unless [buf_size] is zero; no other byte of memory changes. *)
Theorem vsnprintf_truncates format args out m buffer buf_size : formatted format args = Ret out →
  Z.of_nat (length out) < 2147483648 → 0 < buffer → 0 ≤ buf_size < 2147483648 → buffer + buf_size ≤ Z.of_nat (length m) →
  vsnprintf buffer buf_size format args m = Ret (Z.of_nat (length out),
    if decide (buf_size = 0) then m
    else splice m (Z.to_nat buffer) (take (Z.to_nat (buf_size - 1)) ((λ c, c mod 256) <$> out) ++ [0])).
Proof. apply vsnprintf_ok. Qed.

Lemma vsnprintf_truncates_witness :
  vsnprintf 1 4 (chars "%05d") [Word (-42)] (replicate 6 7) = Ret (5, [7; 45; 48; 48; 0; 7]).
Proof.
  rewrite (vsnprintf_truncates (chars "%05d") [Word (-42)] (chars "-0042")).
  - reflexivity.
  - vm_compute. reflexivity.
  - cbn. lia.
  - lia.
  - lia.
  - cbn. lia.
Defined.

(** The digits of a number fit and mean it.  For every 64-bit value, base, flag and precision, format_integer stays
    within its 64 characters; they are digits of that base, perhaps with commas, that stand for the value, and there are
    as many as the precision asks for, up to 63. *)
Theorem integer_digits v b c : known b → 0 ≤ v < 18446744073709551616 →
  ∃ buf, fill_buffer v b c = Ret buf ∧ (length buf ≤ 64)%nat ∧ number b buf = v ∧
    Z.min (if decide (precision c < 0) then 1 else precision c) 63 ≤ Z.of_nat (length buf).
Proof. apply fill_buffer_ok. Qed.

Lemma integer_digits_witness : ∃ buf, fill_buffer 18446744073709551615 base_o (mkConversion GROUP 0 100 LONGLONG) = Ret buf ∧
  (length buf ≤ 64)%nat ∧ number base_o buf = 18446744073709551615.
Proof.
  destruct (integer_digits 18446744073709551615 base_o (mkConversion GROUP 0 100 LONGLONG)) as (buf & H1 & H2 & H3 & _).
  - right. left.
  - lia.
  - exists buf. split; [exact H1|]. split; [exact H2|exact H3].
Defined.

(** C29: Printing a number and reading it back.  For every word, also INT_MIN, snprintf with "%d" into a buffer of at least
    12 characters, followed by atoi, gives the number of type [int] that it holds. *)
Theorem print_then_atoi w m buffer buf_size : 0 < buffer → 12 ≤ buf_size < 2147483648 → buffer + buf_size ≤ Z.of_nat (length m) →
  ∃ len m', snprintf buffer buf_size "%d" [Word w] m = Ret (len, m') ∧ atoi buffer m' = Ret (s32 w, m').
Proof.
  intros Hb Hn Hm. destruct (printed_int w) as (ds & Hout & Hds & Hnum & Hlen). pose proof (s32_range w) as Hw.
  set (out := (if bool_decide (s32 w < 0) then [45] else []) ++ rev ds) in *.
  assert (length out ≤ 11)%nat as Hlo by (unfold out; rewrite length_app, length_rev; destruct (bool_decide _); cbn; lia).
  assert (as_bytes out = out) as Eb.
  { unfold as_bytes. rewrite <-(list_fmap_id out) at 2. apply list_fmap_ext. intros i c Hc. change (id c) with c. apply Z.mod_small.
    apply list_elem_of_lookup_2 in Hc. unfold out in Hc. apply elem_of_app in Hc as [Hc|Hc].
    - destruct (bool_decide (s32 w < 0)); [|by apply elem_of_nil in Hc]. apply list_elem_of_singleton in Hc. subst c; lia.
    - rewrite <-Permutation_rev in Hc. pose proof (proj1 (Forall_forall _ _) Hds c Hc) as H%Is_true_true%isdigit_range. lia. }
  unfold snprintf. rewrite (vsnprintf_ok _ _ out) by (done || lia). rewrite decide_False, Eb, take_ge by lia.
  eexists _, _. split; [reflexivity|]. set (m' := splice m (Z.to_nat buffer) (out ++ [0])).
  assert (has_chars m' buffer (out ++ [0])) as Hh.
  { intros i c Hc. pose proof (lookup_lt_Some _ _ _ Hc) as Hi. rewrite length_app in Hi. cbn in Hi.
    replace (buffer + Z.of_nat i) with (Z.of_nat (Z.to_nat buffer + i)) by lia. rewrite peek_lookup by lia. unfold m'.
    rewrite lookup_splice_new by (rewrite length_app; cbn [length]; lia). rewrite <-Hc. f_equal. lia. }
  assert (ds ≠ []) as Hne by (intros ->; cbn in Hlen; lia).
  unfold out in Hh. rewrite <-(assoc_L (++)) in Hh.
  rewrite (atoi_ok m' buffer (bool_decide (s32 w < 0)) ds 0 Hb Hds Hne Hh) by (done || lia).
  rewrite Hnum. do 2 f_equal. case_bool_decide; [lia|]. rewrite (s32_small (Z.abs (s32 w))) by lia. lia.
Qed.

Lemma print_then_atoi_witness : ∃ len m', snprintf 1 12 "%d" [Word 2147483648] (replicate 16 7) = Ret (len, m') ∧
  atoi 1 m' = Ret (-2147483648, m').
Proof. apply (print_then_atoi 2147483648 (replicate 16 7) 1 12); [lia|lia|cbn; lia]. Defined.

(** A format that ends in a percent sign is read past its end. *)
Example percent_at_end : formatted (chars "100%") [] = Err Fault.
Proof. vm_compute. reflexivity. Qed.
