(* ===== verification/LinkedList.v ===== *)
(** The doubly linked lists of lib/kernel/list.c on a heap of list elements:
    the operations as the code has them, pointer by pointer. *)
From S2P Require Import Prelude.
Local Open Scope Z_scope.

(** list.h 89-94 list_elem *)
Record list_elem := mkElem { prev : Z; next : Z }.

#[export] Instance list_elem_eq_dec : EqDecision list_elem.
Proof. solve_decision. Defined.

(** Memory, as far as it holds list elements, by address. *)
Abbreviation heap := (gmap Z list_elem).
Definition NULL : Z := 0.

Definition load_elem (p : Z) : M heap list_elem := λ h,
  match h !! p with Some e => Ret (e, h) | None => Err Fault end.
Definition load_prev (p : Z) : M heap Z := let! e := load_elem p in ret (prev e).
Definition load_next (p : Z) : M heap Z := let! e := load_elem p in ret (next e).
Definition store_prev (p v : Z) : M heap unit :=
  let! e := load_elem p in modify (λ h : heap, <[p := mkElem v (next e)]> h).
Definition store_next (p v : Z) : M heap unit :=
  let! e := load_elem p in modify (λ h : heap, <[p := mkElem (prev e) v]> h).

(** Enough rounds for any loop over the elements of a list. *)
Definition rounds {A} (f : nat → M heap A) : M heap A := λ h, f (S (size h)) h.

(** ** Elements *)

(** list.c 37-42 is_head *)
Definition is_head (elem : Z) : M heap bool :=
  if decide (elem = NULL) then ret false
  else let! e := load_elem elem in
       ret (bool_decide (prev e = NULL) && bool_decide (next e ≠ NULL)).

(** list.c 44-50 is_interior *)
Definition is_interior (elem : Z) : M heap bool :=
  if decide (elem = NULL) then ret false
  else let! e := load_elem elem in
       ret (bool_decide (prev e ≠ NULL) && bool_decide (next e ≠ NULL)).

(** list.c 52-57 is_tail *)
Definition is_tail (elem : Z) : M heap bool :=
  if decide (elem = NULL) then ret false
  else let! e := load_elem elem in
       ret (bool_decide (prev e ≠ NULL) && bool_decide (next e = NULL)).

(** [ASSERT (f || g)] for calls that may fault. *)
Definition assert_either (f g : M heap bool) : M heap unit :=
  let! a := f in if (a : bool) then ret tt else let! b := g in assertM b.

(** ** Lists

    A [struct list] at address [l] is its head at [l] and its tail behind it. *)

(** list.h 96-101 list *)
Definition head_of (list : Z) : Z := list.
Definition tail_of (list : Z) : Z := list + 8.

(** list.c 59-68 list_init.  The elements of the list need no contents before. *)
Definition list_init (list : Z) : M heap unit :=
  assertM (bool_decide (list ≠ NULL));;!
  modify (λ h : heap, <[head_of list := mkElem NULL (tail_of list)]>
    (<[tail_of list := mkElem (head_of list) NULL]> h)).

(** list.c 70-76 list_begin *)
Definition list_begin (list : Z) : M heap Z :=
  assertM (bool_decide (list ≠ NULL));;! load_next (head_of list).

(** list.c 78-86 list_next *)
Definition list_next (elem : Z) : M heap Z :=
  assert_either (is_head elem) (is_interior elem);;! load_next elem.

(** list.c 88-98 list_end *)
Definition list_end (list : Z) : M heap Z :=
  assertM (bool_decide (list ≠ NULL));;! ret (tail_of list).

(** list.c 100-107 list_rbegin *)
Definition list_rbegin (list : Z) : M heap Z :=
  assertM (bool_decide (list ≠ NULL));;! load_prev (tail_of list).

(** list.c 109-117 list_prev *)
Definition list_prev (elem : Z) : M heap Z :=
  assert_either (is_interior elem) (is_tail elem);;! load_prev elem.

(** list.c 119-137 list_rend *)
Definition list_rend (list : Z) : M heap Z :=
  assertM (bool_decide (list ≠ NULL));;! ret (head_of list).

(** list.c 139-155 list_head *)
Definition list_head (list : Z) : M heap Z :=
  assertM (bool_decide (list ≠ NULL));;! ret (head_of list).

(** list.c 157-163 list_tail *)
Definition list_tail (list : Z) : M heap Z :=
  assertM (bool_decide (list ≠ NULL));;! ret (tail_of list).

(** list.c 165-178 list_insert.  [elem] is in memory, in no list. *)
Definition list_insert (before elem : Z) : M heap unit :=
  assert_either (is_interior before) (is_tail before);;!
  assertM (bool_decide (elem ≠ NULL));;!
  let! p := load_prev before in
  store_prev elem p;;!
  store_next elem before;;!
  let! p := load_prev before in
  store_next p elem;;!
  store_prev before elem.

(** list.c 180-204 list_splice *)
Definition list_splice (before first last : Z) : M heap unit :=
  assert_either (is_interior before) (is_tail before);;!
  if decide (first = last) then ret tt
  else
    let! last := list_prev last in
    let! b := is_interior first in assertM b;;!
    let! b := is_interior last in assertM b;;!
    let! p := load_prev first in
    let! n := load_next last in
    store_next p n;;!
    let! n := load_next last in
    let! p := load_prev first in
    store_prev n p;;!
    let! p := load_prev before in
    store_prev first p;;!
    store_next last before;;!
    let! p := load_prev before in
    store_next p first;;!
    store_prev before last.

(** list.c 206-212 list_push_front *)
Definition list_push_front (list elem : Z) : M heap unit :=
  let! b := list_begin list in list_insert b elem.

(** list.c 214-220 list_push_back *)
Definition list_push_back (list elem : Z) : M heap unit :=
  let! e := list_end list in list_insert e elem.

(** list.c 248-255 list_remove *)
Definition list_remove (elem : Z) : M heap Z :=
  let! b := is_interior elem in assertM b;;!
  let! p := load_prev elem in
  let! n := load_next elem in
  store_next p n;;!
  let! n := load_next elem in
  let! p := load_prev elem in
  store_prev n p;;!
  load_next elem.

(** list.c 308-313 list_empty *)
Definition list_empty (list : Z) : M heap bool :=
  let! b := list_begin list in
  let! e := list_end list in
  ret (bool_decide (b = e)).

(** list.c 277-284 list_front *)
Definition list_front (list : Z) : M heap Z :=
  let! b := list_empty list in assertM (negb b);;! load_next (head_of list).

(** list.c 286-293 list_back *)
Definition list_back (list : Z) : M heap Z :=
  let! b := list_empty list in assertM (negb b);;! load_prev (tail_of list).

(** list.c 257-265 list_pop_front *)
Definition list_pop_front (list : Z) : M heap Z :=
  let! front := list_front list in list_remove front;;! ret front.

(** list.c 267-275 list_pop_back *)
Definition list_pop_back (list : Z) : M heap Z :=
  let! back := list_back list in list_remove back;;! ret back.

(** list.c 303-304 list_size, the loop *)
Fixpoint size_loop (fuel : nat) (e end_ cnt : Z) : M heap Z :=
  match fuel with
  | O => throw OutOfFuel
  | S fuel =>
      if decide (e = end_) then ret cnt
      else let! e := list_next e in size_loop fuel e end_ (u32 (cnt + 1))
  end.

(** list.c 295-306 list_size *)
Definition list_size (list : Z) : M heap Z :=
  let! e := list_begin list in
  let! end_ := list_end list in
  rounds (λ n, size_loop n e end_ 0).

(** list.c 332-333 list_reverse, the loop, with [swap] of 315-322 inlined *)
Fixpoint reverse_loop (fuel : nat) (e end_ : Z) : M heap unit :=
  match fuel with
  | O => throw OutOfFuel
  | S fuel =>
      if decide (e = end_) then ret tt
      else
        let! x := load_elem e in
        store_prev e (next x);;!
        store_next e (prev x);;!
        let! e := load_prev e in
        reverse_loop fuel e end_
  end.

(** list.c 315-337 list_reverse *)
Definition list_reverse (list : Z) : M heap unit :=
  let! b := list_empty list in
  if (b : bool) then ret tt
  else
    let! e := list_begin list in
    let! end_ := list_end list in
    rounds (λ n, reverse_loop n e end_);;!
    (* swap (&list->head.next, &list->tail.prev) *)
    let! n := load_next (head_of list) in
    let! p := load_prev (tail_of list) in
    store_next (head_of list) p;;!
    store_prev (tail_of list) n;;!
    (* swap (&list->head.next->prev, &list->tail.prev->next) *)
    let! n := load_next (head_of list) in
    let! p := load_prev (tail_of list) in
    let! np := load_prev n in
    let! pn := load_next p in
    store_prev n pn;;!
    store_next p np.

(** ** Ordered lists

    [less a b] stands for [less (a, b, aux)]: it looks at the objects that
    the elements are embedded in, and not at the links. *)
Section ordered.
Variable less : Z → Z → bool.

(** list.c 346-348 is_sorted, the loop *)
Fixpoint is_sorted_loop (fuel : nat) (a b : Z) : M heap bool :=
  match fuel with
  | O => throw OutOfFuel
  | S fuel =>
      let! a := list_next a in
      if decide (a = b) then ret true
      else
        let! p := list_prev a in
        if less a p then ret false else is_sorted_loop fuel a b
  end.

(** list.c 339-350 is_sorted *)
Definition is_sorted (a b : Z) : M heap bool :=
  if decide (a = b) then ret true else rounds (λ n, is_sorted_loop n a b).

(** list.c 366-371 find_end_of_run, the loop *)
Fixpoint run_loop (fuel : nat) (a b : Z) : M heap Z :=
  match fuel with
  | O => throw OutOfFuel
  | S fuel =>
      let! a := list_next a in
      if decide (a = b) then ret a
      else
        let! p := list_prev a in
        if less a p then ret a else run_loop fuel a b
  end.

(** list.c 352-372 find_end_of_run *)
Definition find_end_of_run (a b : Z) : M heap Z :=
  assertM (bool_decide (a ≠ NULL));;!
  assertM (bool_decide (b ≠ NULL));;!
  assertM (bool_decide (a ≠ b));;!
  rounds (λ n, run_loop n a b).

(** list.c 391-398 inplace_merge, the loop *)
Fixpoint merge_loop (fuel : nat) (a0 a1b0 b1 : Z) : M heap unit :=
  match fuel with
  | O => throw OutOfFuel
  | S fuel =>
      if decide (a0 = a1b0 ∨ a1b0 = b1) then ret tt
      else if less a1b0 a0 then
        let! a1b0 := list_next a1b0 in
        let! x := list_prev a1b0 in
        list_splice a0 x a1b0;;!
        merge_loop fuel a0 a1b0 b1
      else
        let! a0 := list_next a0 in
        merge_loop fuel a0 a1b0 b1
  end.

(** list.c 374-399 inplace_merge *)
Definition inplace_merge (a0 a1b0 b1 : Z) : M heap unit :=
  assertM (bool_decide (a0 ≠ NULL));;!
  assertM (bool_decide (a1b0 ≠ NULL));;!
  assertM (bool_decide (b1 ≠ NULL));;!
  let! b := is_sorted a0 a1b0 in assertM b;;!
  let! b := is_sorted a1b0 b1 in assertM b;;!
  rounds (λ n, merge_loop n a0 a1b0 b1).

(** list.c 421-435 list_sort, one pass over the list.  The result is
    [output_run_cnt]. *)
Fixpoint pass_loop (fuel : nat) (a0 end_ output_run_cnt : Z) : M heap Z :=
  match fuel with
  | O => throw OutOfFuel
  | S fuel =>
      if decide (a0 = end_) then ret output_run_cnt
      else
        let output_run_cnt := u32 (output_run_cnt + 1) in
        let! a1b0 := find_end_of_run a0 end_ in
        if decide (a1b0 = end_) then ret output_run_cnt
        else
          let! b1 := find_end_of_run a1b0 end_ in
          inplace_merge a0 a1b0 b1;;!
          pass_loop fuel b1 end_ output_run_cnt
  end.

(** list.c 414-437 list_sort, the passes *)
Fixpoint sort_loop (fuel : nat) (list : Z) : M heap unit :=
  match fuel with
  | O => throw OutOfFuel
  | S fuel =>
      let! a0 := list_begin list in
      let! end_ := list_end list in
      let! output_run_cnt := rounds (λ n, pass_loop n a0 end_ 0) in
      if decide (output_run_cnt > 1) then sort_loop fuel list else ret tt
  end.

(** list.c 401-440 list_sort *)
Definition list_sort (list : Z) : M heap unit :=
  assertM (bool_decide (list ≠ NULL));;!
  rounds (λ n, sort_loop n list);;!
  let! a := list_begin list in
  let! b := list_end list in
  let! b := is_sorted a b in assertM b.

(** list.c 455-457 list_insert_ordered, the search *)
Fixpoint ordered_loop (fuel : nat) (elem e end_ : Z) : M heap Z :=
  match fuel with
  | O => throw OutOfFuel
  | S fuel =>
      if decide (e = end_) then ret e
      else if less elem e then ret e
      else let! e := list_next e in ordered_loop fuel elem e end_
  end.

(** list.c 442-459 list_insert_ordered *)
Definition list_insert_ordered (list elem : Z) : M heap unit :=
  assertM (bool_decide (list ≠ NULL));;!
  assertM (bool_decide (elem ≠ NULL));;!
  let! e := list_begin list in
  let! end_ := list_end list in
  let! e := rounds (λ n, ordered_loop n elem e end_) in
  list_insert e elem.

(** list.c 477-485 list_unique, the loop *)
Fixpoint unique_loop (fuel : nat) (elem end_ : Z) (duplicates : option Z) : M heap unit :=
  match fuel with
  | O => throw OutOfFuel
  | S fuel =>
      let! next := list_next elem in
      if decide (next = end_) then ret tt
      else if negb (less elem next) && negb (less next elem) then
        list_remove next;;!
        match duplicates with Some d => list_push_back d next | None => ret tt end;;!
        unique_loop fuel elem end_ duplicates
      else unique_loop fuel next end_ duplicates
  end.

(** list.c 461-486 list_unique *)
Definition list_unique (list : Z) (duplicates : option Z) : M heap unit :=
  assertM (bool_decide (list ≠ NULL));;!
  let! b := list_empty list in
  if (b : bool) then ret tt
  else
    let! elem := list_begin list in
    let! end_ := list_end list in
    rounds (λ n, unique_loop n elem end_ duplicates).

(** list.c 500-502 list_max, the loop *)
Fixpoint max_loop (fuel : nat) (max e end_ : Z) : M heap Z :=
  match fuel with
  | O => throw OutOfFuel
  | S fuel =>
      if decide (e = end_) then ret max
      else
        let max := if less max e then e else max in
        let! e := list_next e in max_loop fuel max e end_
  end.

(** list.c 488-505 list_max *)
Definition list_max (list : Z) : M heap Z :=
  let! max := list_begin list in
  let! end_ := list_end list in
  if decide (max ≠ end_) then
    let! e := list_next max in rounds (λ n, max_loop n max e end_)
  else ret max.

(** list.c 519-521 list_min, the loop *)
Fixpoint min_loop (fuel : nat) (min e end_ : Z) : M heap Z :=
  match fuel with
  | O => throw OutOfFuel
  | S fuel =>
      if decide (e = end_) then ret min
      else
        let min := if less e min then e else min in
        let! e := list_next e in min_loop fuel min e end_
  end.

(** list.c 507-524 list_min *)
Definition list_min (list : Z) : M heap Z :=
  let! min := list_begin list in
  let! end_ := list_end list in
  if decide (min ≠ end_) then
    let! e := list_next min in rounds (λ n, min_loop n min e end_)
  else ret min.
End ordered.

(** A run of the operations: a list of five elements, sorted by their addresses. *)
Definition demo_heap : heap :=
  let at_ p h := <[p := mkElem 0 0]> h in
  at_ 100 (at_ 108 (at_ 116 (at_ 124 (at_ 132 ∅)))).
Definition demo_sort : M heap (list Z) :=
  list_init 8;;!
  list_push_back 8 116;;! list_push_back 8 132;;! list_push_back 8 100;;!
  list_push_front 8 124;;! list_push_front 8 108;;!
  list_sort Z.ltb 8;;!
  list_reverse 8;;!
  let! a := list_pop_front 8 in
  let! m := list_max Z.ltb 8 in
  let! b := list_pop_back 8 in
  let! n := list_size 8 in
  ret [a; m; b; n].
Example demo_sort_runs :
  match demo_sort demo_heap with Ret (l, _) => l | Err _ => [] end = [132; 124; 100; 3].
Proof. by vm_compute. Qed.
