(* ===== verification/LinkedListLaws.v ===== *)
(** What the operations of list.c do to the sequence of elements that a list
    represents. *)
From stdpp Require Import sorting.
From S2P Require Import Prelude LinkedList.
Local Open Scope Z_scope.

(** ** Links *)
Definition nxt (h : heap) (a : Z) : option Z := next <$> h !! a.
Definition prv (h : heap) (b : Z) : option Z := prev <$> h !! b.

(** The addresses [ws] follow each other, in both directions. *)
Fixpoint linked (h : heap) (ws : list Z) : Prop :=
  match ws with
  | a :: (b :: _) as r => nxt h a = Some b ∧ prv h b = Some a ∧ linked h r
  | _ => True
  end.

Lemma linked_cons h a b r : linked h (a :: b :: r) ↔ nxt h a = Some b ∧ prv h b = Some a ∧ linked h (b :: r).
Proof. done. Qed.

Lemma linked_app h l k :
  linked h (l ++ k) ↔ linked h l ∧ linked h k ∧
    ∀ x y, last l = Some x → head k = Some y → nxt h x = Some y ∧ prv h y = Some x.
Proof.
  induction l as [|a [|b r] IH].
  - simpl. naive_solver.
  - destruct k as [|y k]; [simpl; naive_solver|]. rewrite (linked_cons h a y k : linked h ([a] ++ y :: k) ↔ _).
    simpl. naive_solver.
  - change ((a :: b :: r) ++ k) with (a :: b :: (r ++ k)). rewrite !linked_cons.
    change (b :: r ++ k) with ((b :: r) ++ k). rewrite IH.
    change (last (a :: b :: r)) with (last (b :: r)). tauto.
Qed.

(** Links stay when only what comes before and after them changes. *)
Lemma linked_frame h h' ws :
  NoDup ws → linked h ws →
  (∀ x, x ∈ ws → last ws = Some x ∨ nxt h' x = nxt h x) →
  (∀ x, x ∈ ws → head ws = Some x ∨ prv h' x = prv h x) → linked h' ws.
Proof.
  induction ws as [|a [|b r] IH]; [done..|]. intros Hnd (Hn & Hp & Hl) Hn' Hp'.
  apply NoDup_cons in Hnd as [Ha Hnd]. rewrite linked_cons. split_and!.
  - destruct (Hn' a) as [E| ->]; [set_solver| |done].
    exfalso. apply Ha. change (last (b :: r) = Some a) in E. by apply last_Some_elem_of in E.
  - destruct (Hp' b) as [E| ->]; [set_solver| |done]. simplify_eq/=. set_solver.
  - apply IH; [done..| |].
    + intros x Hx. apply Hn'. set_solver.
    + intros x Hx. right. destruct (Hp' x) as [E|?]; [set_solver| |done].
      simplify_eq/=. done.
Qed.

(** ** Lists in memory *)

(** [ws], from a head to a tail, is a list in memory. *)
Record chain (h : heap) (ws : list Z) : Prop := {
  ch_nodup : NoDup ws;
  ch_nonnull : Forall (.≠ NULL) ws;
  ch_linked : linked h ws;
  ch_head : ∀ a, head ws = Some a → prv h a = Some NULL;
  ch_tail : ∀ a, last ws = Some a → nxt h a = Some NULL;
}.

Definition whole (l : Z) (xs : list Z) : list Z := head_of l :: xs ++ [tail_of l].

(** The list at [l] has the elements [xs]. *)
Definition lrep (h : heap) (l : Z) (xs : list Z) : Prop := chain h (whole l xs).

(** Only the elements in [ws] may have changed. *)
Record within (ws : list Z) (h h' : heap) : Prop := {
  wi_same : ∀ x, x ∉ ws → h' !! x = h !! x;
  wi_dom : ∀ x, is_Some (h !! x) → is_Some (h' !! x);
  wi_size : size h' = size h;
}.

Lemma within_refl ws h : within ws h h.
Proof. by split. Qed.
Lemma within_trans ws h1 h2 h3 : within ws h1 h2 → within ws h2 h3 → within ws h1 h3.
Proof. intros [A1 B1 C1] [A2 B2 C2]. split; [|auto|congruence]. intros. by rewrite A2, A1. Qed.
Lemma within_mono ws ws' h h' : (∀ x, x ∈ ws → x ∈ ws') → within ws h h' → within ws' h h'.
Proof. intros H [A B C]. split; [|done..]. intros x Hx. apply A. auto. Qed.

(** ** Loads and stores *)
Definition set_prev (p v : Z) (h : heap) : heap := alter (λ e, mkElem v (next e)) p h.
Definition set_next (p v : Z) (h : heap) : heap := alter (λ e, mkElem (prev e) v) p h.

Lemma load_prev_run h p v : prv h p = Some v → load_prev p h = Ret (v, h).
Proof.
  unfold prv, load_prev, bind, load_elem, ret. destruct (h !! p); intros; by simplify_eq/=.
Qed.
Lemma load_next_run h p v : nxt h p = Some v → load_next p h = Ret (v, h).
Proof.
  unfold nxt, load_next, bind, load_elem, ret. destruct (h !! p); intros; by simplify_eq/=.
Qed.

Lemma alter_as_insert (f : list_elem → list_elem) p (h : heap) e :
  h !! p = Some e → alter f p h = <[p := f e]> h.
Proof.
  intros He. apply map_eq. intros x. destruct (decide (x = p)) as [->|].
  - by rewrite lookup_alter_eq, lookup_insert_eq, He.
  - by rewrite lookup_alter_ne, lookup_insert_ne.
Qed.

Lemma store_prev_run h p v : is_Some (h !! p) → store_prev p v h = Ret (tt, set_prev p v h).
Proof.
  intros [e He]. unfold store_prev, bind, load_elem, modify, set_prev.
  by rewrite He, (alter_as_insert _ _ _ _ He).
Qed.
Lemma store_next_run h p v : is_Some (h !! p) → store_next p v h = Ret (tt, set_next p v h).
Proof.
  intros [e He]. unfold store_next, bind, load_elem, modify, set_next.
  by rewrite He, (alter_as_insert _ _ _ _ He).
Qed.

Lemma nxt_set_prev h p v x : nxt (set_prev p v h) x = nxt h x.
Proof.
  unfold nxt, set_prev. destruct (decide (x = p)) as [->|].
  - rewrite lookup_alter_eq. by destruct (h !! p).
  - by rewrite lookup_alter_ne.
Qed.
Lemma prv_set_next h p v x : prv (set_next p v h) x = prv h x.
Proof.
  unfold prv, set_next. destruct (decide (x = p)) as [->|].
  - rewrite lookup_alter_eq. by destruct (h !! p).
  - by rewrite lookup_alter_ne.
Qed.
Lemma prv_set_prev h p v x :
  is_Some (h !! p) → prv (set_prev p v h) x = if decide (x = p) then Some v else prv h x.
Proof.
  intros [e He]. unfold prv, set_prev. case_decide; subst.
  - by rewrite lookup_alter_eq, He.
  - by rewrite lookup_alter_ne.
Qed.
Lemma nxt_set_next h p v x :
  is_Some (h !! p) → nxt (set_next p v h) x = if decide (x = p) then Some v else nxt h x.
Proof.
  intros [e He]. unfold nxt, set_next. case_decide; subst.
  - by rewrite lookup_alter_eq, He.
  - by rewrite lookup_alter_ne.
Qed.
Lemma some_set_prev h p v x : is_Some (set_prev p v h !! x) ↔ is_Some (h !! x).
Proof.
  unfold set_prev. destruct (decide (x = p)) as [->|].
  - rewrite lookup_alter_eq. by destruct (h !! p).
  - by rewrite lookup_alter_ne.
Qed.
Lemma some_set_next h p v x : is_Some (set_next p v h !! x) ↔ is_Some (h !! x).
Proof.
  unfold set_next. destruct (decide (x = p)) as [->|].
  - rewrite lookup_alter_eq. by destruct (h !! p).
  - by rewrite lookup_alter_ne.
Qed.

Lemma alter_within (f : list_elem → list_elem) p ws h : p ∈ ws → within ws h (alter f p h).
Proof.
  intros Hp. split.
  - intros x Hx. rewrite lookup_alter_ne; [done|]. by intros ->.
  - intros x. destruct (decide (x = p)) as [->|].
    + rewrite lookup_alter_eq. by destruct (h !! p).
    + by rewrite lookup_alter_ne.
  - destruct (h !! p) as [e|] eqn:E.
    + rewrite (alter_as_insert _ _ _ _ E). by apply map_size_insert_Some.
    + by rewrite alter_id' || rewrite alter_id by (intros; congruence).
Qed.

Lemma prv_some h p v : prv h p = Some v → is_Some (h !! p).
Proof. unfold prv. by destruct (h !! p). Qed.
Lemma nxt_some h p v : nxt h p = Some v → is_Some (h !! p).
Proof. unfold nxt. by destruct (h !! p). Qed.

(** ** Looking at elements *)
Lemma load_elem_run h p n v : nxt h p = Some n → prv h p = Some v → load_elem p h = Ret (mkElem v n, h).
Proof.
  unfold nxt, prv, load_elem. destruct (h !! p) as [[]|]; intros; by simplify_eq/=.
Qed.

Lemma some_links h p : is_Some (h !! p) → ∃ v n, prv h p = Some v ∧ nxt h p = Some n.
Proof. unfold prv, nxt. intros [[v n] ->]. by exists v, n. Qed.

Lemma is_interior_run h p v n :
  p ≠ NULL → prv h p = Some v → nxt h p = Some n →
  is_interior p h = Ret (bool_decide (v ≠ NULL) && bool_decide (n ≠ NULL), h).
Proof.
  intros Hp Hv Hn. unfold is_interior. rewrite decide_False by done.
  by rewrite (bind_run _ _ _ _ _ (load_elem_run _ _ _ _ Hn Hv)).
Qed.
Lemma is_tail_run h p v n :
  p ≠ NULL → prv h p = Some v → nxt h p = Some n →
  is_tail p h = Ret (bool_decide (v ≠ NULL) && bool_decide (n = NULL), h).
Proof.
  intros Hp Hv Hn. unfold is_tail. rewrite decide_False by done.
  by rewrite (bind_run _ _ _ _ _ (load_elem_run _ _ _ _ Hn Hv)).
Qed.
Lemma is_head_run h p v n :
  p ≠ NULL → prv h p = Some v → nxt h p = Some n →
  is_head p h = Ret (bool_decide (v = NULL) && bool_decide (n ≠ NULL), h).
Proof.
  intros Hp Hv Hn. unfold is_head. rewrite decide_False by done.
  by rewrite (bind_run _ _ _ _ _ (load_elem_run _ _ _ _ Hn Hv)).
Qed.

(** What has something before it is an interior element or a tail; what has
    something after it, an interior element or a head. *)
Lemma before_run h b p :
  b ≠ NULL → p ≠ NULL → prv h b = Some p → assert_either (is_interior b) (is_tail b) h = Ret (tt, h).
Proof.
  intros Hb Hp Hv. destruct (some_links h b) as (v & n & Hv' & Hn); [by eapply prv_some|].
  assert (v = p) as -> by congruence. unfold assert_either.
  rewrite (bind_run _ _ _ _ _ (is_interior_run _ _ _ _ Hb Hv Hn)).
  rewrite (bool_decide_true (p ≠ NULL)) by done. simpl. case_bool_decide; [done|].
  rewrite (bind_run _ _ _ _ _ (is_tail_run _ _ _ _ Hb Hv Hn)).
  by rewrite !bool_decide_true by (done || by apply dec_stable).
Qed.
Lemma after_run h a n :
  a ≠ NULL → n ≠ NULL → nxt h a = Some n → assert_either (is_head a) (is_interior a) h = Ret (tt, h).
Proof.
  intros Ha Hp Hn. destruct (some_links h a) as (v & n' & Hv & Hn'); [by eapply nxt_some|].
  assert (n' = n) as -> by congruence. unfold assert_either.
  rewrite (bind_run _ _ _ _ _ (is_head_run _ _ _ _ Ha Hv Hn)).
  rewrite (bool_decide_true (n ≠ NULL)) by done. rewrite andb_true_r. case_bool_decide; [done|].
  rewrite (bind_run _ _ _ _ _ (is_interior_run _ _ _ _ Ha Hv Hn)).
  by rewrite !bool_decide_true.
Qed.

Lemma list_next_run h a n :
  a ≠ NULL → n ≠ NULL → nxt h a = Some n → list_next a h = Ret (n, h).
Proof.
  intros Ha Hn Hv. unfold list_next. rewrite (bind_run _ _ _ _ _ (after_run h a n Ha Hn Hv)).
  by apply load_next_run.
Qed.
Lemma list_prev_run h b p :
  b ≠ NULL → p ≠ NULL → prv h b = Some p → list_prev b h = Ret (p, h).
Proof.
  intros Hb Hp Hv. unfold list_prev. rewrite (bind_run _ _ _ _ _ (before_run h b p Hb Hp Hv)).
  by apply load_prev_run.
Qed.

(** In a chain. *)
Lemma chain_nonnull h ws x : chain h ws → x ∈ ws → x ≠ NULL.
Proof. intros Hc Hx. exact (proj1 (Forall_forall _ _) (ch_nonnull _ _ Hc) x Hx). Qed.

Lemma chain_pair h A a b B :
  chain h (A ++ a :: b :: B) → nxt h a = Some b ∧ prv h b = Some a ∧ a ≠ NULL ∧ b ≠ NULL ∧ a ≠ b.
Proof.
  intros Hc. pose proof (ch_linked _ _ Hc) as (_ & (Hn & Hp & _) & _)%linked_app.
  split_and!; try done; try (eapply chain_nonnull; [done|set_solver]).
  pose proof (ch_nodup _ _ Hc) as (_ & _ & Hnd)%NoDup_app.
  apply NoDup_cons in Hnd as [? _]. set_solver.
Qed.

Lemma chain_next h A a b B : chain h (A ++ a :: b :: B) → list_next a h = Ret (b, h).
Proof. intros (? & ? & ? & ? & ?)%chain_pair. by apply list_next_run. Qed.
Lemma chain_prev h A a b B : chain h (A ++ a :: b :: B) → list_prev b h = Ret (a, h).
Proof. intros (? & ? & ? & ? & ?)%chain_pair. by apply list_prev_run. Qed.
Lemma chain_before h A a b B :
  chain h (A ++ a :: b :: B) → assert_either (is_interior b) (is_tail b) h = Ret (tt, h).
Proof. intros (? & ? & ? & ? & ?)%chain_pair. by apply (before_run h b a). Qed.

Lemma chain_interior h A a b c B : chain h (A ++ a :: b :: c :: B) → is_interior b h = Ret (true, h).
Proof.
  intros Hc. pose proof (chain_pair _ _ _ _ _ Hc) as (_ & Hp & ? & Hb & _).
  change (A ++ a :: b :: c :: B) with (A ++ [a] ++ b :: c :: B) in Hc. rewrite app_assoc in Hc.
  pose proof (chain_pair _ _ _ _ _ Hc) as (Hn & _ & _ & ? & _).
  rewrite (is_interior_run _ _ _ _ Hb Hp Hn). by rewrite !bool_decide_true by done.
Qed.

Lemma chain_some h ws x : (2 ≤ length ws)%nat → chain h ws → x ∈ ws → is_Some (h !! x).
Proof.
  intros Hl Hc (A & B & ->)%list_elem_of_split. destruct B as [|b B].
  - destruct A as [|a A] using rev_ind; [simpl in Hl; lia|]. clear IHA.
    rewrite <-app_assoc in Hc. apply chain_pair in Hc as (_ & Hp & _). by eapply prv_some.
  - apply chain_pair in Hc as (Hn & _). by eapply nxt_some.
Qed.

(** ** Inserting, removing, splicing *)

(** An address that is still in memory after stores. *)
Ltac hsome := repeat (rewrite some_set_prev || rewrite some_set_next); done.
(** The links of a heap after stores. *)
Ltac links := rewrite ?nxt_set_prev, ?prv_set_next;
  repeat (first [rewrite prv_set_prev by (hsome)
                |rewrite nxt_set_next by (hsome)];
          rewrite ?nxt_set_prev, ?prv_set_next).
(** Runs a store, or a load of [v], whose address is known to be there. *)
Ltac hstore := cbv beta; lazymatch goal with
  | |- bind (store_prev ?p ?v) _ ?h = _ => rewrite (bind_run _ _ h tt _ (store_prev_run h p v ltac:(hsome)))
  | |- bind (store_next ?p ?v) _ ?h = _ => rewrite (bind_run _ _ h tt _ (store_next_run h p v ltac:(hsome)))
  | |- store_prev ?p ?v ?h = _ => rewrite (store_prev_run h p v ltac:(hsome))
  | |- store_next ?p ?v ?h = _ => rewrite (store_next_run h p v ltac:(hsome))
  end; cbv beta.
Ltac hload v := cbv beta; lazymatch goal with
  | |- bind (load_prev ?p) _ ?h = _ =>
      rewrite (bind_run _ _ h v h (load_prev_run h p v ltac:(links; repeat case_decide; congruence)))
  | |- bind (load_next ?p) _ ?h = _ =>
      rewrite (bind_run _ _ h v h (load_next_run h p v ltac:(links; repeat case_decide; congruence)))
  end; cbv beta.

Lemma set_prev_within p v ws h : p ∈ ws → within ws h (set_prev p v h).
Proof. apply alter_within. Qed.
Lemma set_next_within p v ws h : p ∈ ws → within ws h (set_next p v h).
Proof. apply alter_within. Qed.

(** Another chain with the same ends. *)
Lemma chain_relink h h' ws ws' :
  chain h ws → NoDup ws' → Forall (.≠ NULL) ws' → linked h' ws' →
  head ws' = head ws → last ws' = last ws →
  (∀ a, head ws = Some a → prv h' a = prv h a) → (∀ a, last ws = Some a → nxt h' a = nxt h a) →
  chain h' ws'.
Proof.
  intros [_ _ _ Hh Ht] Hnd Hnn Hl Eh Et Ph Pt. split; try done.
  - intros a Ha. rewrite Eh in Ha. rewrite Ph by done. auto.
  - intros a Ha. rewrite Et in Ha. rewrite Pt by done. auto.
Qed.

Lemma last_app_ne {A} (l k : list A) : k ≠ [] → last (l ++ k) = last k.
Proof.
  intros Hk. rewrite last_app. destruct (last k) eqn:E; [done|]. by apply last_None in E.
Qed.

Lemma head_prefix {A} (l : list A) x k a : head (l ++ [x] ++ k) = Some a → a ∈ l ++ [x].
Proof. destruct l; intros; simplify_eq/=; set_solver. Qed.
Lemma head_elem {A} (l : list A) x : head l = Some x → x ∈ l.
Proof. destruct l; intros; simplify_eq/=. set_solver. Qed.

Lemma insert_ok h A p b B e :
  chain h (A ++ p :: b :: B) → e ∉ A ++ p :: b :: B → e ≠ NULL → is_Some (h !! e) →
  ∃ h', list_insert b e h = Ret (tt, h') ∧ chain h' (A ++ p :: e :: b :: B) ∧ within [p; e; b] h h'.
Proof.
  intros Hc He Hne Hs. pose proof (chain_pair _ _ _ _ _ Hc) as (Hn & Hp & Hpn & Hbn & Hpb).
  pose proof (prv_some _ _ _ Hp) as Hsb. pose proof (nxt_some _ _ _ Hn) as Hsp.
  assert (p ≠ e ∧ b ≠ e) as [? ?] by (split; intros ->; set_solver).
  set (h' := set_prev b e (set_next p e (set_next e b (set_prev e p h)))).
  assert (En : ∀ x, nxt h' x = if decide (x = p) then Some e else if decide (x = e) then Some b else nxt h x)
    by (intros x; unfold h'; by links).
  assert (Ep : ∀ x, prv h' x = if decide (x = b) then Some e else if decide (x = e) then Some p else prv h x)
    by (intros x; unfold h'; by links).
  exists h'. split; [|split].
  - unfold list_insert. rewrite (bind_run _ _ _ _ _ (chain_before _ _ _ _ _ Hc)).
    rewrite bind_assert by (by apply bool_decide_true).
    hload p. hstore. hstore. hload p. hstore. by hstore.
  - pose proof Hc as [Hnd Hnn Hl _ _].
    assert (Hnd' : NoDup (A ++ p :: e :: b :: B)).
    { replace (A ++ p :: e :: b :: B) with ((A ++ [p]) ++ e :: b :: B) by (by rewrite <-app_assoc).
      rewrite <-Permutation_middle. constructor; rewrite <-app_assoc; done. }
    replace (A ++ p :: b :: B) with ((A ++ [p]) ++ b :: B) in * by (by rewrite <-app_assoc).
    replace (A ++ p :: e :: b :: B) with ((A ++ [p]) ++ [e] ++ b :: B) in * by (by rewrite <-app_assoc).
    apply linked_app in Hl as (Hl1 & Hl2 & _). apply NoDup_app in Hnd as (Hnd1 & Hd & Hnd2).
    assert (Hlast : last (A ++ [p]) = Some p) by apply last_snoc.
    apply (chain_relink _ _ _ _ Hc); [done|..].
    + rewrite !Forall_app, !Forall_singleton in *. tauto.
    + rewrite (linked_app h' (A ++ [p])), (linked_app h' [e]). split_and!; [|done| |simpl|].
      * apply (linked_frame h); [done..| |]; intros x Hx; rewrite ?En, ?Ep.
        -- destruct (decide (x = p)) as [->|]; [by left|right]. rewrite decide_False; [done|set_solver].
        -- right. rewrite !decide_False; [done|set_solver|intros ->; apply (Hd b); set_solver].
      * apply (linked_frame h); [done..| |]; intros x Hx; rewrite ?En, ?Ep.
        -- right. rewrite !decide_False; [done|set_solver|intros ->; apply (Hd p); set_solver].
        -- destruct (decide (x = b)) as [->|]; [by left|right]. rewrite decide_False; [done|set_solver].
      * intros x y ??; simplify_eq. rewrite En, Ep. repeat case_decide; (done || congruence).
      * intros x y Hx ?. rewrite Hlast in Hx. simplify_eq/=.
        rewrite En, Ep. repeat case_decide; (done || congruence).
    + by destruct A.
    + by rewrite !last_app_ne by done.
    + intros a Ha. rewrite Ep. assert (a ∈ A ++ [p]) by (by apply (head_prefix A p (b :: B)); rewrite app_assoc).
      rewrite !decide_False; [done|set_solver|intros ->; apply (Hd b); set_solver].
    + intros a Ha. rewrite En. rewrite last_app_ne in Ha by done.
      assert (a ∈ b :: B) by (by apply last_Some_elem_of).
      rewrite !decide_False; [done|set_solver|intros ->; apply (Hd p); set_solver].
  - unfold h'. repeat (eapply within_trans; [|apply set_prev_within || apply set_next_within; set_solver]).
    apply within_refl.
Qed.

(** A block of a chain whose inside was not touched. *)
Ltac block h En Ep :=
  apply (linked_frame h); [done..| |]; intros ? ?; rewrite ?En, ?Ep;
  repeat case_decide; subst; first [by left|by right|exfalso; set_solver].
(** A junction of two blocks. *)
Ltac junction En Ep :=
  intros ? ? ? ?; simplify_eq; rewrite En, Ep; repeat case_decide; first [done|congruence|exfalso; set_solver].

Lemma remove_ok h A p e b B :
  chain h (A ++ p :: e :: b :: B) →
  ∃ h', list_remove e h = Ret (b, h') ∧ chain h' (A ++ p :: b :: B) ∧ within [p; e; b] h h' ∧
    (∀ x, x ≠ p → x ≠ b → h' !! x = h !! x).
Proof.
  intros Hc. pose proof (chain_pair _ _ _ _ _ Hc) as (Hn & Hp & Hpn & Hen & Hpe).
  pose proof (chain_interior _ _ _ _ _ _ Hc) as Hi.
  assert (Hc2 : chain h ((A ++ [p]) ++ e :: b :: B)) by (by rewrite <-app_assoc).
  pose proof (chain_pair _ _ _ _ _ Hc2) as (Hn' & Hp' & _ & Hbn & Heb).
  pose proof (prv_some _ _ _ Hp') as Hsb. pose proof (nxt_some _ _ _ Hn) as Hsp.
  pose proof (ch_nodup _ _ Hc2) as (Hnd1 & Hd & Hnd2)%NoDup_app.
  assert (Hpb : p ≠ b) by (intros ->; apply (Hd b); set_solver).
  set (h' := set_prev b p (set_next p b h)).
  assert (En : ∀ x, nxt h' x = if decide (x = p) then Some b else nxt h x)
    by (intros x; unfold h'; by links).
  assert (Ep : ∀ x, prv h' x = if decide (x = b) then Some p else prv h x)
    by (intros x; unfold h'; by links).
  exists h'. split; [|split; [|split]].
  - unfold list_remove. rewrite (bind_run _ _ _ _ _ Hi), bind_assert by done.
    hload p. hload b. hstore. hload b. hload p. hstore. apply load_next_run. rewrite En. case_decide; congruence.
  - replace (A ++ p :: b :: B) with ((A ++ [p]) ++ b :: B) by (by rewrite <-app_assoc).
    pose proof Hc2 as [_ Hnn Hl _ _]. apply linked_app in Hl as (Hl1 & Hl2 & _).
    change (e :: b :: B) with ([e] ++ b :: B) in Hl2. apply linked_app in Hl2 as (_ & Hl2 & _).
    pose proof Hnd2 as [_ Hnd3]%NoDup_cons. pose proof (last_snoc p A) as Hlast.
    apply (chain_relink _ _ _ _ Hc2).
    + apply NoDup_app. split; [done|]. split; [|done]. intros x Hx ?. apply (Hd x); set_solver.
    + rewrite !Forall_app, !Forall_cons in *. tauto.
    + apply linked_app. split; [|split].
      * block h En Ep.
      * block h En Ep.
      * junction En Ep.
    + by destruct A.
    + by rewrite !last_app_ne by done.
    + intros a Ha. rewrite Ep. assert (a ∈ A ++ [p]) by (by apply (head_prefix A p (e :: b :: B)); rewrite app_assoc).
      rewrite decide_False; [done|]. intros ->. apply (Hd b); [done|set_solver].
    + intros a Ha. rewrite En. rewrite last_app_ne in Ha by done. apply last_Some_elem_of in Ha.
      rewrite decide_False; [done|]. intros ->. apply (Hd p); set_solver.
  - unfold h'. eapply within_trans; [apply set_next_within|apply set_prev_within]; set_solver.
  - intros x ??. unfold h', set_prev, set_next. by rewrite !lookup_alter_ne.
Qed.

(** What is neither the head nor the tail is an interior element. *)
Lemma interior_run h ws x :
  chain h ws → x ∈ ws → head ws ≠ Some x → last ws ≠ Some x → is_interior x h = Ret (true, h).
Proof.
  intros Hc (A & B & ->)%list_elem_of_split Hh Hl.
  destruct A as [|a A] using rev_ind; [done|]. clear IHA. rewrite last_app_ne in Hl by done.
  destruct B as [|b B]; [done|]. rewrite <-app_assoc in Hc. exact (chain_interior _ _ _ _ _ _ Hc).
Qed.

(** A junction of two non-empty blocks in a chain. *)
Lemma chain_junction h l k x y :
  chain h (l ++ k) → last l = Some x → head k = Some y →
  nxt h x = Some y ∧ prv h y = Some x ∧ x ≠ NULL ∧ y ≠ NULL.
Proof.
  intros Hc Hx Hy. destruct l as [|? l _] using rev_ind; [done|]. rewrite last_snoc in Hx.
  destruct k; simplify_eq/=. rewrite <-app_assoc in Hc.
  by apply chain_pair in Hc as (? & ? & ? & ? & _).
Qed.

Section splice.
Context (h : heap) (L N F R : list Z) (p b m f l c : Z).
Hypothesis Hc : chain h (L ++ N ++ F ++ R).
Hypothesis HL : last L = Some p.
Hypothesis Hb : head N = Some b.
Hypothesis Hm : last N = Some m.
Hypothesis Hf : head F = Some f.
Hypothesis Hl : last F = Some l.
Hypothesis HR : head R = Some c.

Definition spliced : heap :=
  set_prev b l (set_next p f (set_next l b (set_prev f p (set_prev c m (set_next m c h))))).

Lemma splice_facts :
  (∀ x, x ∈ L → (x ∉ N) ∧ (x ∉ F) ∧ x ∉ R) ∧ (∀ x, x ∈ N → (x ∉ F) ∧ x ∉ R) ∧ (∀ x, x ∈ F → x ∉ R) ∧
  p ∈ L ∧ b ∈ N ∧ m ∈ N ∧ f ∈ F ∧ l ∈ F ∧ c ∈ R ∧ NoDup L ∧ NoDup N ∧ NoDup F ∧ NoDup R.
Proof.
  pose proof (ch_nodup _ _ Hc) as (? & ? & (? & ? & (? & ? & ?)%NoDup_app)%NoDup_app)%NoDup_app.
  split_and!; try done; try (by apply last_Some_elem_of); try (by apply head_elem); set_solver.
Qed.

Lemma splice_links :
  nxt h p = Some b ∧ prv h b = Some p ∧ nxt h m = Some f ∧ prv h f = Some m ∧
  nxt h l = Some c ∧ prv h c = Some l ∧ linked h L ∧ linked h N ∧ linked h F ∧ linked h R.
Proof.
  pose proof (ch_linked _ _ Hc) as (? & (? & (? & ? & J3)%linked_app & J2)%linked_app & J1)%linked_app.
  assert (head (N ++ F ++ R) = Some b ∧ head (F ++ R) = Some f) as [E1 E2]
    by (split; [by destruct N|by destruct F]).
  destruct (J1 p b HL E1), (J2 m f Hm E2), (J3 l c Hl HR). done.
Qed.

Lemma splice_nonnull x : x ∈ L ++ N ++ F ++ R → x ≠ NULL ∧ is_Some (h !! x).
Proof.
  intros Hx. split; [by eapply chain_nonnull|]. eapply chain_some; [|done|done].
  rewrite !length_app. destruct L, N; simplify_eq/=. lia.
Qed.

Lemma splice_ne : b ≠ f ∧ b ≠ c ∧ f ≠ c ∧ p ≠ l ∧ p ≠ m ∧ l ≠ m.
Proof.
  pose proof splice_facts as (D1&D2&D3&?&?&?&?&?&?&_).
  split_and!; intros ->; [destruct (D2 f)|destruct (D2 c)|destruct (D3 c)|destruct (D1 l)
    |destruct (D1 m)|destruct (D2 m)]; tauto.
Qed.

Lemma ends_ne : R ≠ [] ∧ F ++ R ≠ [] ∧ N ++ F ++ R ≠ [] ∧ N ++ R ≠ [] ∧ F ++ N ++ R ≠ [].
Proof. destruct R as [|r R']; simplify_eq/=. by split_and!; try (destruct N; simplify_eq/=); try (destruct F; simplify_eq/=). Qed.

Lemma spliced_links x :
  nxt spliced x = (if decide (x = p) then Some f else if decide (x = l) then Some b
    else if decide (x = m) then Some c else nxt h x) ∧
  prv spliced x = (if decide (x = b) then Some l else if decide (x = f) then Some p
    else if decide (x = c) then Some m else prv h x).
Proof.
  pose proof splice_facts as (?&?&?&?&?&?&?&?&?&_).
  assert (∀ x, x ∈ L ++ N ++ F ++ R → is_Some (h !! x)) as Hs by (intros; by apply splice_nonnull).
  assert (is_Some (h !! p) ∧ is_Some (h !! b) ∧ is_Some (h !! m) ∧ is_Some (h !! f) ∧
    is_Some (h !! l) ∧ is_Some (h !! c)) as (?&?&?&?&?&?) by (split_and!; apply Hs; set_solver).
  unfold spliced. by split; links.
Qed.

Lemma splice_run : list_splice b f c h = Ret (tt, spliced).
Proof.
  pose proof splice_facts as (D1&D2&D3&?&?&?&?&?&?&_).
  pose proof splice_links as (Npb & Pbp & Nmf & Pfm & Nlc & Pcl & _).
  assert (∀ x, x ∈ L ++ N ++ F ++ R → x ≠ NULL ∧ is_Some (h !! x)) as Hs by apply splice_nonnull.
  destruct (Hs p), (Hs b), (Hs m), (Hs f), (Hs l), (Hs c); [set_solver..|].
  pose proof splice_ne as (?&?&?&?&?&?).
  assert (head (L ++ N ++ F ++ R) = head L ∧ last (L ++ N ++ F ++ R) = last R) as [Eh Et].
  { split; [by destruct L|]. by rewrite !last_app_ne by apply ends_ne. }
  assert (Hint : ∀ x, x ∈ F → is_interior x h = Ret (true, h)).
  { intros x Hx. eapply interior_run; [exact Hc|set_solver|rewrite Eh|rewrite Et].
    - intros Hxl%head_elem. destruct (D1 x Hxl) as (_ & ? & _). done.
    - intros ?%last_Some_elem_of. by apply (D3 x). }
  unfold list_splice.
  rewrite (bind_run _ _ _ tt h) by (by apply (before_run h b p)).
  rewrite decide_False by done.
  rewrite (bind_run _ _ _ l h) by (by apply (list_prev_run h c l)).
  rewrite (bind_run _ _ _ _ _ (Hint f ltac:(done))), bind_assert by done.
  rewrite (bind_run _ _ _ _ _ (Hint l ltac:(done))), bind_assert by done.
  hload m. hload c. hstore. hload c. hload m. hstore. hload p. hstore. hstore. hload p. hstore.
  by hstore.
Qed.

Lemma splice_ok :
  list_splice b f c h = Ret (tt, spliced) ∧ chain spliced (L ++ F ++ N ++ R) ∧
  within (L ++ N ++ F ++ R) h spliced.
Proof.
  pose proof splice_facts as (D1&D2&D3&?&?&?&?&?&?&?&?&?&?).
  pose proof splice_links as (_ & _ & _ & _ & _ & _ & ? & ? & ? & ?).
  assert (En : ∀ x, nxt spliced x = if decide (x = p) then Some f else if decide (x = l) then Some b
    else if decide (x = m) then Some c else nxt h x) by apply spliced_links.
  assert (Ep : ∀ x, prv spliced x = if decide (x = b) then Some l else if decide (x = f) then Some p
    else if decide (x = c) then Some m else prv h x) by apply spliced_links.
  pose proof splice_ne as (?&?&?&?&?&?).
  assert (E1 : head (F ++ N ++ R) = Some f) by (by destruct F).
  assert (E2 : head (N ++ R) = Some b) by (by destruct N).
  split; [apply splice_run|]. split.
  - apply (chain_relink _ _ _ _ Hc).
    + rewrite !NoDup_app. split_and!; try done; set_solver.
    + pose proof (ch_nonnull _ _ Hc). rewrite !Forall_app in *. tauto.
    + rewrite (linked_app _ L), (linked_app _ F), (linked_app _ N). split_and!.
      * clear E1 E2. block h En Ep.
      * clear E1 E2. block h En Ep.
      * clear E1 E2. block h En Ep.
      * clear E1 E2. block h En Ep.
      * intros x y Hx Hy. rewrite Hm in Hx. rewrite HR in Hy. simplify_eq. rewrite En, Ep.
        by repeat case_decide.
      * intros x y Hx Hy. rewrite Hl in Hx. rewrite E2 in Hy. simplify_eq. rewrite En, Ep.
        by repeat case_decide.
      * intros x y Hx Hy. rewrite HL in Hx. rewrite E1 in Hy. simplify_eq. rewrite En, Ep.
        by repeat case_decide.
    + by destruct L.
    + by rewrite !last_app_ne by apply ends_ne.
    + intros a Ha. rewrite Ep. assert (a ∈ L) by (destruct L; simplify_eq/=; set_solver).
      rewrite !decide_False; [done|intros ->; destruct (D1 c); tauto|intros ->; destruct (D1 f); tauto|intros ->; destruct (D1 b); tauto].
    + intros a Ha. rewrite En.
      rewrite !last_app_ne in Ha by apply ends_ne.
      apply last_Some_elem_of in Ha.
      rewrite !decide_False; [done|intros ->; destruct (D2 m); tauto|intros ->; by apply (D3 l)|intros ->; destruct (D1 p); tauto].
  - unfold spliced.
    repeat (eapply within_trans; [|apply set_prev_within || apply set_next_within; set_solver]).
    apply within_refl.
Qed.
End splice.
