(* ===== verification/LinkedListOps.v ===== *)
(** The operations of list.c on the sequence of elements of a list. *)
From stdpp Require Import sorting.
From S2P Require Import Prelude LinkedList LinkedListLaws.
Local Open Scope Z_scope.

(** ** Positions in a list *)

(** Where an iteration is that still has [ys] to see, before the tail [t]. *)
Definition cursor (ys : list Z) (t : Z) : Z := default t (head ys).

Lemma cursor_end h W ys t : chain h (W ++ ys ++ [t]) → cursor ys t = t ↔ ys = [].
Proof.
  intros Hc. destruct ys as [|y ys]; [done|]. split; [|done]. intros E. unfold cursor in E. simpl in E. subst.
  exfalso. pose proof (ch_nodup _ _ Hc) as (_ & _ & Hnd)%NoDup_app.
  apply NoDup_cons in Hnd as [Hn _]. apply Hn. set_solver.
Qed.

Lemma cursor_next h W y ys t : chain h (W ++ y :: ys ++ [t]) → list_next y h = Ret (cursor ys t, h).
Proof. destruct ys; apply chain_next. Qed.

Lemma cursor_prev h W p ys t : chain h (W ++ p :: ys ++ [t]) → list_prev (cursor ys t) h = Ret (p, h).
Proof. destruct ys; apply chain_prev. Qed.

(** The heap has an element for each round of a loop over the list. *)
Lemma chain_size h ws : (2 ≤ length ws)%nat → chain h ws → (length ws ≤ size h)%nat.
Proof.
  intros Hl Hc. pose proof (ch_nodup _ _ Hc) as Hnd. rewrite <-(size_dom h : size (dom h) = size h).
  rewrite <-(size_list_to_set (C := gset Z) ws) by done. apply subseteq_size.
  intros x Hx%elem_of_list_to_set. apply elem_of_dom. by eapply chain_some.
Qed.

Lemma rounds_run {A} (f : nat → M heap A) h ws r :
  (2 ≤ length ws)%nat → chain h ws → (∀ n, (length ws < n)%nat → f n h = r) → rounds f h = r.
Proof. intros Hl Hc Hf. unfold rounds. apply Hf. pose proof (chain_size h ws Hl Hc). lia. Qed.

Lemma length_whole l xs : length (whole l xs) = S (S (length xs)).
Proof. unfold whole. simpl. rewrite length_app. simpl. lia. Qed.

Lemma rounds_list {A} (f : nat → M heap A) h l xs r :
  lrep h l xs → (∀ n, (length xs < n)%nat → f n h = r) → rounds f h = r.
Proof.
  intros Hc Hf. apply (rounds_run f h (whole l xs)); [rewrite length_whole; lia|done|].
  rewrite length_whole. intros. apply Hf. lia.
Qed.

Lemma lrep_nonnull h l xs : lrep h l xs → l ≠ NULL.
Proof. intros Hc. apply (chain_nonnull _ _ l Hc). unfold whole, head_of. set_solver. Qed.

Lemma list_end_run h l : l ≠ NULL → list_end l h = Ret (tail_of l, h).
Proof. intros. unfold list_end. by rewrite bind_assert by by apply bool_decide_true. Qed.

Lemma list_begin_run h l xs : lrep h l xs → list_begin l h = Ret (cursor xs (tail_of l), h).
Proof.
  intros Hc. unfold list_begin. rewrite bind_assert by (apply bool_decide_true; by eapply lrep_nonnull).
  apply load_next_run. pose proof (ch_linked _ _ Hc) as Hl. unfold whole in Hl. by destruct xs; destruct Hl.
Qed.

Lemma list_empty_run h l xs : lrep h l xs → list_empty l h = Ret (bool_decide (xs = []), h).
Proof.
  intros Hc. unfold list_empty. rewrite (bind_run _ _ _ _ _ (list_begin_run h l xs Hc)).
  rewrite (bind_run _ _ _ _ _ (list_end_run h l (lrep_nonnull _ _ _ Hc))). unfold ret. do 2 f_equal.
  apply bool_decide_ext. exact (cursor_end h [head_of l] xs (tail_of l) Hc).
Qed.

(** ** Making and changing lists *)

Lemma list_init_ok h l :
  l ≠ NULL → tail_of l ≠ NULL →
  ∃ h', list_init l h = Ret (tt, h') ∧ lrep h' l [] ∧
    ∀ x, x ≠ head_of l → x ≠ tail_of l → h' !! x = h !! x.
Proof.
  intros Hl Ht. eexists. split; [|split].
  - unfold list_init. by rewrite bind_assert by by apply bool_decide_true.
  - assert (head_of l ≠ tail_of l) by (unfold head_of, tail_of; lia).
    unfold lrep, whole. simpl. split; simpl.
    + apply NoDup_cons. split; [set_solver|apply NoDup_singleton].
    + by repeat constructor.
    + unfold nxt, prv. rewrite lookup_insert_eq, lookup_insert_ne, lookup_insert_eq by done. done.
    + intros a [= <-]. unfold prv. by rewrite lookup_insert_eq.
    + intros a [= <-]. unfold nxt. by rewrite lookup_insert_ne, lookup_insert_eq by done.
  - intros x ??. by rewrite !lookup_insert_ne.
Qed.

(** Before the element [cursor ys _] of a list. *)
Lemma list_insert_ok h l xs ys e :
  lrep h l (xs ++ ys) → e ∉ whole l (xs ++ ys) → e ≠ NULL → is_Some (h !! e) →
  ∃ h', list_insert (cursor ys (tail_of l)) e h = Ret (tt, h') ∧ lrep h' l (xs ++ e :: ys) ∧
    within (e :: whole l (xs ++ ys)) h h'.
Proof.
  intros Hc He Hn Hs.
  assert (∃ A p b B, head_of l :: xs = A ++ [p] ∧ ys ++ [tail_of l] = b :: B ∧
    b = cursor ys (tail_of l)) as (A & p & b & B & EA & EB & ->).
  { destruct (exists_last (l := head_of l :: xs)) as (A & p & ->); [done|]. exists A, p.
    destruct ys as [|y ys]; do 2 eexists; done. }
  assert (E : whole l (xs ++ ys) = A ++ p :: cursor ys (tail_of l) :: B).
  { unfold whole. rewrite <-app_assoc, EB. by rewrite (app_comm_cons xs), EA, <-app_assoc. }
  assert (E' : whole l (xs ++ e :: ys) = A ++ p :: e :: cursor ys (tail_of l) :: B).
  { unfold whole. rewrite <-app_assoc. simpl. rewrite EB.
    by rewrite (app_comm_cons xs), EA, <-app_assoc. }
  unfold lrep in *. rewrite E' in *. rewrite E in *.
  destruct (insert_ok h A p (cursor ys (tail_of l)) B e Hc He Hn Hs) as (h' & Hrun & Hc' & Hwi).
  exists h'. split; [done|]. split; [done|]. eapply within_mono; [|done]. set_solver.
Qed.

Lemma list_push_back_ok h l xs e :
  lrep h l xs → e ∉ whole l xs → e ≠ NULL → is_Some (h !! e) →
  ∃ h', list_push_back l e h = Ret (tt, h') ∧ lrep h' l (xs ++ [e]) ∧ within (e :: whole l xs) h h'.
Proof.
  intros Hc He Hn Hs. rewrite <-(app_nil_r xs) in Hc, He.
  destruct (list_insert_ok h l xs [] e Hc He Hn Hs) as (h' & Hrun & Hc' & Hw).
  exists h'. split; [|split; [done|by rewrite app_nil_r in Hw]].
  unfold list_push_back. by rewrite (bind_run _ _ _ _ _ (list_end_run h l (lrep_nonnull _ _ _ Hc))).
Qed.

Lemma list_push_front_ok h l xs e :
  lrep h l xs → e ∉ whole l xs → e ≠ NULL → is_Some (h !! e) →
  ∃ h', list_push_front l e h = Ret (tt, h') ∧ lrep h' l (e :: xs) ∧ within (e :: whole l xs) h h'.
Proof.
  intros Hc He Hn Hs. destruct (list_insert_ok h l [] xs e Hc He Hn Hs) as (h' & Hrun & Hc' & Hw).
  exists h'. split; [|done]. unfold list_push_front.
  by rewrite (bind_run _ _ _ _ _ (list_begin_run h l xs Hc)).
Qed.

(** Removing an element leaves its own links as they were. *)
Lemma list_remove_ok h l xs e ys :
  lrep h l (xs ++ e :: ys) →
  ∃ h', list_remove e h = Ret (cursor ys (tail_of l), h') ∧ lrep h' l (xs ++ ys) ∧
    within (whole l (xs ++ e :: ys)) h h' ∧ h' !! e = h !! e.
Proof.
  intros Hc.
  assert (∃ A p B, head_of l :: xs = A ++ [p] ∧ ys ++ [tail_of l] = cursor ys (tail_of l) :: B)
    as (A & p & B & EA & EB).
  { destruct (exists_last (l := head_of l :: xs)) as (A & p & ->); [done|]. exists A, p.
    destruct ys; by eexists. }
  assert (E' : whole l (xs ++ ys) = A ++ p :: cursor ys (tail_of l) :: B).
  { unfold whole. rewrite <-app_assoc, EB. by rewrite (app_comm_cons xs), EA, <-app_assoc. }
  assert (E : whole l (xs ++ e :: ys) = A ++ p :: e :: cursor ys (tail_of l) :: B).
  { unfold whole. rewrite <-app_assoc. simpl. rewrite EB.
    by rewrite (app_comm_cons xs), EA, <-app_assoc. }
  unfold lrep in *. rewrite E, E' in *.
  destruct (remove_ok h A p e _ B Hc) as (h' & Hrun & Hc' & Hwi & Hsame).
  exists h'. split; [done|]. split; [done|]. split.
  - eapply within_mono; [|done]. set_solver.
  - assert (Hnd : e ≠ p ∧ e ≠ cursor ys (tail_of l)); [|by apply Hsame; tauto].
    pose proof (chain_pair _ _ _ _ _ Hc) as (_ & _ & _ & _ & ?).
    assert (Hc2 : chain h ((A ++ [p]) ++ e :: cursor ys (tail_of l) :: B)) by (by rewrite <-app_assoc).
    pose proof (chain_pair _ _ _ _ _ Hc2) as (_ & _ & _ & _ & ?). auto.
Qed.

Lemma list_front_run h l x xs : lrep h l (x :: xs) → list_front l h = Ret (x, h).
Proof.
  intros Hc. unfold list_front. rewrite (bind_run _ _ _ _ _ (list_empty_run _ _ _ Hc)), bind_assert by done.
  apply load_next_run. by destruct (ch_linked _ _ Hc).
Qed.

Lemma list_back_run h l x xs : lrep h l (xs ++ [x]) → list_back l h = Ret (x, h).
Proof.
  intros Hc. unfold list_back. rewrite (bind_run _ _ _ _ _ (list_empty_run _ _ _ Hc)).
  rewrite bind_assert by (rewrite bool_decide_false; [done|by destruct xs]).
  apply load_prev_run. apply (chain_pair h (head_of l :: xs) x (tail_of l) []).
  unfold lrep, whole in Hc. by rewrite <-app_assoc in Hc.
Qed.

Lemma list_pop_front_ok h l x xs :
  lrep h l (x :: xs) →
  ∃ h', list_pop_front l h = Ret (x, h') ∧ lrep h' l xs ∧ within (whole l (x :: xs)) h h' ∧ h' !! x = h !! x.
Proof.
  intros Hc. destruct (list_remove_ok h l [] x xs Hc) as (h' & Hrun & ?). exists h'. split; [|done].
  unfold list_pop_front. rewrite (bind_run _ _ _ _ _ (list_front_run _ _ _ _ Hc)).
  by rewrite (bind_run _ _ _ _ _ Hrun).
Qed.

Lemma list_pop_back_ok h l x xs :
  lrep h l (xs ++ [x]) →
  ∃ h', list_pop_back l h = Ret (x, h') ∧ lrep h' l xs ∧ within (whole l (xs ++ [x])) h h' ∧ h' !! x = h !! x.
Proof.
  intros Hc. destruct (list_remove_ok h l xs x [] Hc) as (h' & Hrun & Hc' & ?).
  rewrite app_nil_r in Hc'. exists h'. split; [|done].
  unfold list_pop_back. rewrite (bind_run _ _ _ _ _ (list_back_run _ _ _ _ Hc)).
  by rewrite (bind_run _ _ _ _ _ Hrun).
Qed.

(** A step of an iteration: the part seen, the element, and the rest. *)
Lemma list_next_ok h l xs y ys :
  lrep h l (xs ++ y :: ys) → list_next y h = Ret (cursor ys (tail_of l), h).
Proof.
  intros Hc. apply (cursor_next h (head_of l :: xs)). unfold lrep, whole in Hc.
  by rewrite <-app_assoc in Hc.
Qed.
Lemma list_prev_ok h l xs p ys :
  lrep h l (xs ++ p :: ys) → list_prev (cursor ys (tail_of l)) h = Ret (p, h).
Proof.
  intros Hc. apply (cursor_prev h (head_of l :: xs)). unfold lrep, whole in Hc.
  by rewrite <-app_assoc in Hc.
Qed.
Lemma cursor_tail h l xs ys : lrep h l (xs ++ ys) → cursor ys (tail_of l) = tail_of l ↔ ys = [].
Proof.
  intros Hc. apply (cursor_end h (head_of l :: xs)). unfold lrep, whole in Hc.
  by rewrite <-app_assoc in Hc.
Qed.
Lemma elem_not_tail h l xs y ys : lrep h l (xs ++ y :: ys) → y ≠ tail_of l.
Proof. intros Hc E. by apply (cursor_tail _ _ _ _ Hc) in E. Qed.
Lemma lrep_next {h l xs y ys} : lrep h l (xs ++ y :: ys) → lrep h l ((xs ++ [y]) ++ ys).
Proof. by rewrite <-app_assoc. Qed.

Lemma size_loop_ok fuel : ∀ h l xs ys cnt,
  lrep h l (xs ++ ys) → (length ys < fuel)%nat → 0 ≤ cnt → cnt + Z.of_nat (length ys) < 4294967296 →
  size_loop fuel (cursor ys (tail_of l)) (tail_of l) cnt h = Ret (cnt + Z.of_nat (length ys), h).
Proof.
  induction fuel as [|fuel IH]; intros h l xs ys cnt Hc Hf Hcnt Hm; [lia|]. simpl.
  destruct ys as [|y ys]; simpl in *.
  - rewrite decide_True by done. unfold ret. do 2 f_equal. lia.
  - rewrite decide_False by (by eapply elem_not_tail).
    rewrite (bind_run _ _ _ _ _ (list_next_ok h l xs y ys Hc)).
    rewrite u32_small by lia. rewrite (IH h l (xs ++ [y])); [|by apply lrep_next|lia..].
    do 2 f_equal. lia.
Qed.

Lemma list_size_ok h l xs :
  lrep h l xs → Z.of_nat (length xs) < 4294967296 → list_size l h = Ret (Z.of_nat (length xs), h).
Proof.
  intros Hc Hm. unfold list_size. rewrite (bind_run _ _ _ _ _ (list_begin_run h l xs Hc)).
  rewrite (bind_run _ _ _ _ _ (list_end_run h l (lrep_nonnull _ _ _ Hc))).
  eapply rounds_list; [done|]. intros. by rewrite (size_loop_ok n h l [] xs) by (done || lia).
Qed.

(** ** Reversing *)
Definition swapped (h h' : heap) (x : Z) : Prop := nxt h' x = prv h x ∧ prv h' x = nxt h x.

Lemma reverse_loop_ok fuel : ∀ h ys t,
  (∀ A y B, ys = A ++ y :: B → nxt h y = Some (cursor B t)) → NoDup (ys ++ [t]) →
  (∀ y, y ∈ ys → is_Some (h !! y)) → (length ys < fuel)%nat →
  ∃ h', reverse_loop fuel (cursor ys t) t h = Ret (tt, h') ∧ (∀ x, x ∈ ys → swapped h h' x) ∧
    within ys h h'.
Proof.
  induction fuel as [|fuel IH]; intros h ys t Hn Hnd Hs Hf; [lia|].
  destruct ys as [|y ys].
  { exists h. simpl. rewrite decide_True by done. split; [done|]. split; [set_solver|apply within_refl]. }
  change (cursor (y :: ys) t) with y. change ((y :: ys) ++ [t]) with (y :: ys ++ [t]) in Hnd.
  apply NoDup_cons in Hnd as [Hy Hnd]. simpl in Hf.
  assert (Hsy : is_Some (h !! y)) by (apply Hs; set_solver). specialize (Hn [] y ys eq_refl) as Hny.
  destruct (some_links h y Hsy) as (v & n & Hv & Hn'). assert (n = cursor ys t) as -> by congruence.
  set (h1 := set_next y v (set_prev y (cursor ys t) h)).
  assert (En : ∀ x, nxt h1 x = if decide (x = y) then Some v else nxt h x) by (intros; unfold h1; by links).
  assert (Ep : ∀ x, prv h1 x = if decide (x = y) then Some (cursor ys t) else prv h x) by (intros; unfold h1; by links).
  assert (Hstep : reverse_loop (S fuel) y t h = reverse_loop fuel (cursor ys t) t h1).
  { simpl. rewrite decide_False by set_solver.
    rewrite (bind_run _ _ _ _ _ (load_elem_run _ _ _ _ Hn' Hv)). simpl. hstore. hstore.
    by rewrite (bind_run _ _ _ _ _ (load_prev_run h1 y (cursor ys t) ltac:(by rewrite Ep, decide_True))). }
  destruct (IH h1 ys t) as (h' & Hrun & Hsw & Hw); [|done| |lia|].
  { intros A z B ->. rewrite En, decide_False by set_solver. apply (Hn (y :: A)). done. }
  { intros z Hz. unfold h1. rewrite some_set_next, some_set_prev. apply Hs. set_solver. }
  exists h'. split; [by rewrite Hstep|]. split.
  - intros x [->|Hx]%elem_of_cons; unfold swapped.
    + unfold nxt at 1, prv at 2. rewrite (wi_same _ _ _ Hw y) by set_solver.
      fold (nxt h1 y) (prv h1 y). by rewrite En, Ep, !decide_True, Hv, Hn'.
    + destruct (Hsw x Hx) as [-> ->]. by rewrite En, Ep, !decide_False by set_solver.
  - eapply within_trans; [|eapply within_mono; [|exact Hw]; set_solver].
    unfold h1. eapply within_trans; [apply set_prev_within|apply set_next_within]; set_solver.
Qed.

Lemma linked_swapped h h' xs :
  linked h xs → (∀ x, x ∈ xs → swapped h h' x) → linked h' (reverse xs).
Proof.
  induction xs as [|a [|b r] IH]; intros Hl Hs; [done..|]. destruct Hl as (Hn & Hp & Hl).
  rewrite reverse_cons. apply linked_app. split; [apply IH; [done|]; set_solver|]. split; [done|].
  intros x y Hx Hy. rewrite reverse_cons, last_snoc in Hx. simplify_eq/=.
  destruct (Hs x) as [E1 _], (Hs y) as [_ E2]; [set_solver..|]. by rewrite E1, E2.
Qed.

Lemma lrep_parts h l xs :
  lrep h l xs → NoDup (xs ++ [tail_of l]) ∧ (head_of l ∉ xs ++ [tail_of l]) ∧ NoDup xs ∧
    (tail_of l ∉ xs) ∧ head_of l ≠ tail_of l ∧ (head_of l ∉ xs) ∧ linked h xs.
Proof.
  intros Hc. pose proof (ch_nodup _ _ Hc) as [Hh Hnd]%NoDup_cons.
  pose proof Hnd as (? & Hd & _)%NoDup_app. split_and!; try done; [set_solver..|].
  pose proof (ch_linked _ _ Hc) as Hl. change (whole l xs) with ([head_of l] ++ xs ++ [tail_of l]) in Hl.
  by apply linked_app in Hl as (_ & (? & _)%linked_app & _).
Qed.

Lemma lrep_some h l xs x : lrep h l xs → x ∈ whole l xs → is_Some (h !! x).
Proof. intros. eapply chain_some; [|done|done]. rewrite length_whole. lia. Qed.

Lemma lrep_ends h l x xs z zs :
  lrep h l (x :: xs) → x :: xs = zs ++ [z] →
  nxt h (head_of l) = Some x ∧ prv h x = Some (head_of l) ∧
  nxt h z = Some (tail_of l) ∧ prv h (tail_of l) = Some z.
Proof.
  intros Hc E. pose proof (ch_linked _ _ Hc) as (H1 & H2 & _). split_and!; try done;
  unfold lrep, whole in Hc; rewrite E in Hc; rewrite <-app_assoc in Hc;
  by apply (chain_pair h (head_of l :: zs) z (tail_of l) []).
Qed.

(** The stores after the loop of [list_reverse]. *)
Lemma reverse_ends h h1 l x xs z zs :
  lrep h l (x :: xs) → x :: xs = zs ++ [z] → (∀ y, y ∈ x :: xs → swapped h h1 y) →
  within (x :: xs) h h1 →
  let h' := set_next x (tail_of l) (set_prev z (head_of l)
    (set_prev (tail_of l) x (set_next (head_of l) z h1))) in
  (let! n := load_next (head_of l) in
   let! p := load_prev (tail_of l) in
   store_next (head_of l) p;;!
   store_prev (tail_of l) n;;!
   let! n := load_next (head_of l) in
   let! p := load_prev (tail_of l) in
   let! np := load_prev n in
   let! pn := load_next p in
   store_prev n pn;;!
   store_next p np) h1 = Ret (tt, h').
Proof.
  intros Hc E Hsw Hw h'. pose proof (lrep_parts _ _ _ Hc) as (_ & Hh & _ & Ht & Hht & Hhx & _).
  destruct (lrep_ends _ _ _ _ _ _ Hc E) as (E1 & E2 & E3 & E4).
  assert (Hz : z ∈ x :: xs) by (rewrite E; set_solver). assert (Hx : x ∈ x :: xs) by set_solver.
  assert (z ≠ tail_of l ∧ x ≠ tail_of l ∧ z ≠ head_of l ∧ x ≠ head_of l) as (?&?&?&?)
    by (split_and!; intros Ez; rewrite Ez in *; done).
  assert (Hs : ∀ y, y ∈ whole l (x :: xs) → is_Some (h1 !! y))
    by (intros; apply (wi_dom _ _ _ Hw); by eapply lrep_some).
  assert (is_Some (h1 !! x) ∧ is_Some (h1 !! z) ∧ is_Some (h1 !! head_of l) ∧ is_Some (h1 !! tail_of l))
    as (?&?&?&?) by (unfold whole in Hs; split_and!; apply Hs; set_solver).
  assert (N1 : nxt h1 (head_of l) = Some x) by (unfold nxt; by rewrite (wi_same _ _ _ Hw)).
  assert (P1 : prv h1 (tail_of l) = Some z) by (unfold prv; by rewrite (wi_same _ _ _ Hw)).
  destruct (Hsw x Hx) as [N2 _]. destruct (Hsw z Hz) as [_ P2]. rewrite E2 in N2. rewrite E3 in P2.
  hload x. hload z. hstore. hstore. hload z. hload x. hload (tail_of l). hload (head_of l). hstore.
  by hstore.
Qed.

Lemma list_reverse_ok h l xs :
  lrep h l xs →
  ∃ h', list_reverse l h = Ret (tt, h') ∧ lrep h' l (reverse xs) ∧ within (whole l xs) h h'.
Proof.
  intros Hc. unfold list_reverse. rewrite (bind_run _ _ _ _ _ (list_empty_run _ _ _ Hc)).
  destruct xs as [|x xs].
  { exists h. split; [done|]. split; [done|apply within_refl]. }
  destruct (exists_last (l := x :: xs)) as (zs & z & E); [done|].
  pose proof (lrep_parts _ _ _ Hc) as (Hnd & Hh & Hnx & Ht & Hht & Hhx & Hlx).
  destruct (reverse_loop_ok (S (size h)) h (x :: xs) (tail_of l)) as (h1 & Hrun & Hsw & Hw).
  { intros A y B EA. rewrite EA in Hc. pose proof (list_next_ok h l A y B Hc) as _.
    unfold lrep, whole in Hc. rewrite <-app_assoc in Hc.
    destruct B; by apply (chain_pair h (head_of l :: A) y _ _) in Hc as (? & _). }
  { done. }
  { intros y Hy. eapply lrep_some; [done|]. unfold whole. set_solver. }
  { pose proof (chain_size h _ ltac:(rewrite length_whole; lia) Hc) as Hsz. rewrite length_whole in Hsz. lia. }
  set (h' := set_next x (tail_of l) (set_prev z (head_of l)
    (set_prev (tail_of l) x (set_next (head_of l) z h1)))).
  destruct (lrep_ends _ _ _ _ _ _ Hc E) as (E1 & E2 & E3 & E4).
  assert (Hz : z ∈ x :: xs) by (rewrite E; set_solver). assert (Hx : x ∈ x :: xs) by set_solver.
  assert (z ≠ tail_of l ∧ x ≠ tail_of l ∧ z ≠ head_of l ∧ x ≠ head_of l) as (?&?&?&?)
    by (split_and!; intros Ez; rewrite Ez in *; done).
  assert (Hs : ∀ y, y ∈ whole l (x :: xs) → is_Some (h1 !! y))
    by (intros; apply (wi_dom _ _ _ Hw); by eapply lrep_some).
  assert (is_Some (h1 !! x) ∧ is_Some (h1 !! z) ∧ is_Some (h1 !! head_of l) ∧ is_Some (h1 !! tail_of l))
    as (?&?&?&?) by (unfold whole in Hs; split_and!; apply Hs; set_solver).
  assert (En : ∀ y, nxt h' y = if decide (y = x) then Some (tail_of l)
    else if decide (y = head_of l) then Some z else nxt h1 y) by (intros; unfold h'; by links).
  assert (Ep : ∀ y, prv h' y = if decide (y = z) then Some (head_of l)
    else if decide (y = tail_of l) then Some x else prv h1 y) by (intros; unfold h'; by links).
  exists h'. split; [|split].
  - change (negb (bool_decide (x :: xs = []))) with true. simpl.
    rewrite (bind_run _ _ _ _ _ (list_begin_run h l _ Hc)).
    rewrite (bind_run _ _ _ _ _ (list_end_run h l (lrep_nonnull _ _ _ Hc))).
    rewrite (bind_run (rounds _) _ h tt h1 Hrun). by eapply reverse_ends.
  - assert (Er : reverse (x :: xs) = z :: reverse zs) by (by rewrite E, reverse_snoc).
    assert (Eq : whole l (reverse (x :: xs)) ≡ₚ whole l (x :: xs)) by (unfold whole; by rewrite reverse_Permutation).
    assert (Hlr : linked h' (reverse (x :: xs))).
    { apply (linked_frame h1); [by rewrite reverse_Permutation|by apply (linked_swapped h)|..];
        intros y Hy%elem_of_reverse; rewrite ?En, ?Ep.
      - destruct (decide (y = x)) as [->|]; [left; by rewrite reverse_cons, last_snoc|right].
        rewrite decide_False; [done|set_solver].
      - destruct (decide (y = z)) as [->|]; [left; by rewrite Er|right].
        rewrite decide_False; [done|set_solver]. }
    assert (Hends : nxt h' (head_of l) = Some z ∧ prv h' z = Some (head_of l) ∧
      nxt h' x = Some (tail_of l) ∧ prv h' (tail_of l) = Some x).
    { rewrite !En, !Ep. by repeat case_decide. }
    apply (chain_relink h _ _ _ Hc).
    + rewrite Eq. apply Hc.
    + rewrite Eq. apply Hc.
    + change (linked h' ([head_of l] ++ reverse (x :: xs) ++ [tail_of l])). rewrite linked_app, linked_app.
      split_and!; try done.
      * intros a b Ha Hb. rewrite reverse_cons, last_snoc in Ha. simplify_eq/=. tauto.
      * intros a b Ha Hb. rewrite Er in Hb. simplify_eq/=. tauto.
    + done.
    + unfold whole. by rewrite !app_comm_cons, !last_snoc.
    + intros a [= <-]. rewrite Ep, !decide_False by done. unfold prv. by rewrite (wi_same _ _ _ Hw).
    + intros a Ha. unfold whole in Ha. rewrite app_comm_cons, last_snoc in Ha. simplify_eq.
      rewrite En, !decide_False by done. unfold nxt. by rewrite (wi_same _ _ _ Hw).
  - unfold h'. eapply within_trans; [eapply within_mono; [|exact Hw]; unfold whole; set_solver|].
    repeat (eapply within_trans; [|apply set_prev_within || apply set_next_within; unfold whole; set_solver]).
    apply within_refl.
Qed.
