(* ===== verification/LinkedListSort.v ===== *)
(** The operations of list.c on lists with ordered elements: maximum, minimum,
    ordered insertion, removal of duplicates and sorting. *)
From stdpp Require Import sorting.
From S2P Require Import Prelude LinkedList LinkedListLaws LinkedListOps.
Local Open Scope Z_scope.

(** What the code expects of a comparison function. *)
Class WeakOrder (less : Z → Z → bool) : Prop := {
  wo_asym : ∀ a b, less a b = true → less b a = false;
  wo_trans : ∀ a b c, less b a = false → less c b = false → less c a = false;
}.

(** [a] does not come after [b]. *)
Definition le (less : Z → Z → bool) (a b : Z) : Prop := less b a = false.
#[export] Instance le_dec less a b : Decision (le less a b).
Proof. unfold le. apply _. Defined.

#[export] Instance le_total less `{WeakOrder less} : Total (le less).
Proof.
  intros a b. unfold le. destruct (less b a) eqn:E; [right|by left]. by apply wo_asym.
Qed.
#[export] Instance le_transitive less `{WeakOrder less} : Transitive (le less).
Proof. intros a b c. apply wo_trans. Qed.

#[export] Instance ltb_weak_order : WeakOrder Z.ltb.
Proof. split; intros; rewrite ?Z.ltb_lt, ?Z.ltb_ge in *; lia. Qed.

Section ordered.
Context (less : Z → Z → bool).

Lemma le_true a b : le less a b → less b a = false.
Proof. done. Qed.
Lemma not_le_true a b : ¬ le less a b → less b a = true.
Proof. unfold le. by destruct (less b a). Qed.

(** ** Maximum and minimum *)
Fixpoint max_from (m : Z) (xs : list Z) : Z :=
  match xs with [] => m | e :: xs => max_from (if less m e then e else m) xs end.
Fixpoint min_from (m : Z) (xs : list Z) : Z :=
  match xs with [] => m | e :: xs => min_from (if less e m then e else m) xs end.

Lemma max_loop_ok fuel : ∀ h l xs ys m,
  lrep h l (xs ++ ys) → (length ys < fuel)%nat →
  max_loop less fuel m (cursor ys (tail_of l)) (tail_of l) h = Ret (max_from m ys, h).
Proof.
  induction fuel as [|fuel IH]; intros h l xs ys m Hc Hf; [lia|]. simpl.
  destruct ys as [|y ys]; simpl in *; [by rewrite decide_True|].
  rewrite decide_False by (by eapply elem_not_tail).
  rewrite (bind_run _ _ _ _ _ (list_next_ok h l xs y ys Hc)).
  rewrite (IH h l (xs ++ [y])); [done|by apply lrep_next|lia].
Qed.

Lemma min_loop_ok fuel : ∀ h l xs ys m,
  lrep h l (xs ++ ys) → (length ys < fuel)%nat →
  min_loop less fuel m (cursor ys (tail_of l)) (tail_of l) h = Ret (min_from m ys, h).
Proof.
  induction fuel as [|fuel IH]; intros h l xs ys m Hc Hf; [lia|]. simpl.
  destruct ys as [|y ys]; simpl in *; [by rewrite decide_True|].
  rewrite decide_False by (by eapply elem_not_tail).
  rewrite (bind_run _ _ _ _ _ (list_next_ok h l xs y ys Hc)).
  rewrite (IH h l (xs ++ [y])); [done|by apply lrep_next|lia].
Qed.

Lemma list_max_run h l xs :
  lrep h l xs →
  list_max less l h = Ret (match xs with [] => tail_of l | x :: xs => max_from x xs end, h).
Proof.
  intros Hc. unfold list_max. rewrite (bind_run _ _ _ _ _ (list_begin_run h l xs Hc)).
  rewrite (bind_run _ _ _ _ _ (list_end_run h l (lrep_nonnull _ _ _ Hc))).
  destruct xs as [|x xs]; [by rewrite decide_False by (by intros [])|].
  rewrite decide_True by (by apply (elem_not_tail h l [] x xs)).
  rewrite (bind_run _ _ _ _ _ (list_next_ok h l [] x xs Hc)).
  eapply rounds_list; [done|]. simpl. intros n Hn. apply (max_loop_ok n h l [x]); [done|lia].
Qed.

Lemma list_min_run h l xs :
  lrep h l xs →
  list_min less l h = Ret (match xs with [] => tail_of l | x :: xs => min_from x xs end, h).
Proof.
  intros Hc. unfold list_min. rewrite (bind_run _ _ _ _ _ (list_begin_run h l xs Hc)).
  rewrite (bind_run _ _ _ _ _ (list_end_run h l (lrep_nonnull _ _ _ Hc))).
  destruct xs as [|x xs]; [by rewrite decide_False by (by intros [])|].
  rewrite decide_True by (by apply (elem_not_tail h l [] x xs)).
  rewrite (bind_run _ _ _ _ _ (list_next_ok h l [] x xs Hc)).
  eapply rounds_list; [done|]. simpl. intros n Hn. apply (min_loop_ok n h l [x]); [done|lia].
Qed.

(** The maximum is the first element that no other element exceeds. *)
Lemma max_from_first `{!WeakOrder less} m xs :
  ∃ A B, m :: xs = A ++ max_from m xs :: B ∧
    (∀ a, a ∈ A → less a (max_from m xs) = true) ∧ (∀ b, b ∈ B → less (max_from m xs) b = false).
Proof.
  revert m. induction xs as [|e xs IH]; intros m; simpl.
  { exists [], []. split; [done|]. split; set_solver. }
  destruct (less m e) eqn:E.
  - destruct (IH e) as (A & B & EAB & HA & HB). set (M := max_from e xs) in *.
    exists (m :: A), B. split; [by rewrite EAB|]. split; [|done].
    intros a [->|Ha]%elem_of_cons; [|auto]. apply not_le_true. intros Hle.
    destruct A as [|a A]; injection EAB as E1 E2.
    + unfold le in Hle. congruence.
    + pose proof (HA a ltac:(set_solver)) as Ha. subst a.
      assert (Hl : le less M e) by (transitivity m; [exact Hle|by apply wo_asym]).
      unfold le in Hl. congruence.
  - destruct (IH m) as (A & B & EAB & HA & HB). set (M := max_from m xs) in *.
    destruct A as [|a A]; injection EAB as E1 E2.
    + exists [], (e :: xs). rewrite <-E1. split; [done|]. split; [set_solver|].
      intros b [->|Hb]%elem_of_cons; [done|]. rewrite E1. apply HB. by rewrite <-E2.
    + exists (m :: e :: A), B. split; [by rewrite E2|]. split; [|done]. subst a.
      pose proof (HA m ltac:(set_solver)) as Ham.
      intros b [->|[->|Hb]%elem_of_cons]%elem_of_cons; [done| |apply HA; set_solver].
      apply not_le_true. intros Hle.
      assert (Hl : le less M m) by (transitivity e; [exact Hle|done]).
      unfold le in Hl. congruence.
Qed.

(** ** Insertion in order *)
Fixpoint insert_sorted (e : Z) (xs : list Z) : list Z :=
  match xs with
  | [] => [e]
  | x :: xs => if less e x then e :: x :: xs else x :: insert_sorted e xs
  end.

Lemma ordered_loop_ok fuel : ∀ h l xs ys e,
  lrep h l (xs ++ ys) → (length ys < fuel)%nat →
  ∃ A B, ordered_loop less fuel e (cursor ys (tail_of l)) (tail_of l) h = Ret (cursor B (tail_of l), h) ∧
    ys = A ++ B ∧ insert_sorted e ys = A ++ e :: B.
Proof.
  induction fuel as [|fuel IH]; intros h l xs ys e Hc Hf; [lia|]. simpl.
  destruct ys as [|y ys]; [exists [], []; by rewrite decide_True|].
  change (cursor (y :: ys) (tail_of l)) with y. simpl in Hf.
  rewrite decide_False by (by eapply elem_not_tail). simpl.
  destruct (less e y) eqn:E; [by exists [], (y :: ys)|].
  rewrite (bind_run _ _ _ _ _ (list_next_ok h l xs y ys Hc)).
  destruct (IH h l (xs ++ [y]) ys e (lrep_next Hc)) as (A & B & Hrun & -> & Ei); [lia|].
  exists (y :: A), B. rewrite Hrun, Ei. done.
Qed.

Lemma list_insert_ordered_ok h l xs e :
  lrep h l xs → e ∉ whole l xs → e ≠ NULL → is_Some (h !! e) →
  ∃ h', list_insert_ordered less l e h = Ret (tt, h') ∧ lrep h' l (insert_sorted e xs) ∧
    within (e :: whole l xs) h h'.
Proof.
  intros Hc He Hn Hs.
  destruct (ordered_loop_ok (S (size h)) h l [] xs e) as (A & B & Hrun & -> & ->); [done| |].
  { pose proof (chain_size h _ ltac:(rewrite length_whole; lia) Hc) as Hz. rewrite length_whole in Hz. lia. }
  destruct (list_insert_ok h l A B e Hc He Hn Hs) as (h' & Hins & ?). exists h'. split; [|done].
  unfold list_insert_ordered. rewrite bind_assert by (apply bool_decide_true; by eapply lrep_nonnull).
  rewrite bind_assert by (by apply bool_decide_true).
  rewrite (bind_run _ _ _ _ _ (list_begin_run h l _ Hc)).
  rewrite (bind_run _ _ _ _ _ (list_end_run h l (lrep_nonnull _ _ _ Hc))).
  by rewrite (bind_run (rounds _) _ h _ h Hrun).
Qed.

Lemma insert_sorted_perm e xs : insert_sorted e xs ≡ₚ e :: xs.
Proof.
  induction xs as [|x xs IH]; simpl; [done|]. destruct (less e x); [done|]. rewrite IH. constructor.
Qed.

Lemma insert_sorted_sorted `{!WeakOrder less} e xs :
  Sorted (le less) xs → Sorted (le less) (insert_sorted e xs).
Proof.
  induction 1 as [|x xs Hs IH Hh]; simpl; [by repeat constructor|].
  destruct (less e x) eqn:E.
  - constructor; [by constructor|]. constructor. by apply wo_asym.
  - constructor; [done|]. destruct xs as [|y ys]; simpl; [by repeat constructor|].
    inv Hh. by destruct (less e y); constructor.
Qed.

(** ** Runs *)

Lemma is_sorted_loop_ok fuel : ∀ h l xs a ys zs,
  lrep h l (xs ++ a :: ys ++ zs) → (length ys < fuel)%nat →
  is_sorted_loop less fuel a (cursor zs (tail_of l)) h = Ret (bool_decide (Sorted (le less) (a :: ys)), h).
Proof.
  induction fuel as [|fuel IH]; intros h l xs a ys zs Hc Hf; [lia|]. simpl.
  rewrite (bind_run _ _ _ _ _ (list_next_ok h l xs a (ys ++ zs) Hc)).
  destruct ys as [|y ys].
  - rewrite decide_True by done. by rewrite bool_decide_true by (by repeat constructor).
  - change (cursor ((y :: ys) ++ zs) (tail_of l)) with y. simpl in Hf.
    assert (Hne : y ≠ cursor zs (tail_of l)).
    { pose proof (lrep_parts _ _ _ Hc) as (Hnd & _). rewrite <-!app_assoc in Hnd.
      apply NoDup_app in Hnd as (_ & _ & Hnd). simpl in Hnd.
      apply NoDup_cons in Hnd as [_ Hnd]. apply NoDup_cons in Hnd as [Hy _].
      intros ->. apply Hy. destruct zs; set_solver. }
    rewrite decide_False by done.
    rewrite (bind_run _ _ _ _ _ (list_prev_ok h l xs a ((y :: ys) ++ zs) Hc)).
    destruct (less y a) eqn:E.
    + rewrite bool_decide_false; [done|]. intros [_ Hh]%Sorted_inv. apply HdRel_inv in Hh.
      unfold le in Hh. congruence.
    + rewrite (IH h l (xs ++ [a]) y ys zs); [|by apply lrep_next|lia].
      rewrite (bool_decide_ext (Sorted (le less) (y :: ys)) (Sorted (le less) (a :: y :: ys))); [done|].
      split; [intros; constructor; [done|by constructor]|by intros [? _]%Sorted_inv].
Qed.

Lemma is_sorted_ok h l xs ys zs :
  lrep h l (xs ++ ys ++ zs) →
  is_sorted less (cursor (ys ++ zs) (tail_of l)) (cursor zs (tail_of l)) h =
    Ret (bool_decide (Sorted (le less) ys), h).
Proof.
  intros Hc. unfold is_sorted. destruct ys as [|y ys].
  - rewrite decide_True by done. by rewrite bool_decide_true by constructor.
  - change (cursor ((y :: ys) ++ zs) (tail_of l)) with y.
    destruct (decide (y = cursor zs (tail_of l))) as [E|E].
    + exfalso. pose proof (lrep_parts _ _ _ Hc) as (Hnd & _). rewrite <-!app_assoc in Hnd.
      apply NoDup_app in Hnd as (_ & _ & Hnd). simpl in Hnd.
      apply NoDup_cons in Hnd as [Hy _]. rewrite E in Hy. apply Hy. destruct zs; set_solver.
    + eapply rounds_list; [done|]. intros n Hn. eapply is_sorted_loop_ok; [done|].
      rewrite !length_app in Hn. simpl in Hn. lia.
Qed.

(** Splits off the longest sorted run that starts with [a] and goes on in [xs]. *)
Fixpoint run_of (a : Z) (xs : list Z) : list Z * list Z :=
  match xs with
  | [] => ([], [])
  | x :: xs => if less x a then ([], x :: xs) else let (r, s) := run_of x xs in (x :: r, s)
  end.

Lemma run_of_app a xs r s : run_of a xs = (r, s) → xs = r ++ s.
Proof.
  revert a r s. induction xs as [|x xs IH]; intros a r s; simpl; [by intros [= <- <-]|].
  destruct (less x a); [by intros [= <- <-]|]. destruct (run_of x xs) as [r' s'] eqn:E.
  intros [= <- <-]. simpl. f_equal. by eapply IH.
Qed.

Lemma run_of_sorted a xs r s : run_of a xs = (r, s) → Sorted (le less) (a :: r).
Proof.
  revert a r s. induction xs as [|x xs IH]; intros a r s; simpl; [intros [= <- <-]; by repeat constructor|].
  destruct (less x a) eqn:Ex; [intros [= <- <-]; by repeat constructor|].
  destruct (run_of x xs) as [r' s'] eqn:E. intros [= <- <-]. constructor; [by eapply IH|by constructor].
Qed.

Lemma run_loop_ok fuel : ∀ h l xs a ys r s,
  lrep h l (xs ++ a :: ys) → (length ys < fuel)%nat → run_of a ys = (r, s) →
  run_loop less fuel a (tail_of l) h = Ret (cursor s (tail_of l), h).
Proof.
  induction fuel as [|fuel IH]; intros h l xs a ys r s Hc Hf Hr; [lia|]. simpl.
  rewrite (bind_run _ _ _ _ _ (list_next_ok h l xs a ys Hc)).
  destruct ys as [|y ys]; simpl in *.
  - rewrite decide_True by done. by simplify_eq.
  - change (cursor (y :: ys) (tail_of l)) with y.
    rewrite decide_False by (eapply (elem_not_tail h l (xs ++ [a]) y ys), lrep_next, Hc).
    change y with (cursor (y :: ys) (tail_of l)) at 1.
    rewrite (bind_run _ _ _ _ _ (list_prev_ok h l xs a (y :: ys) Hc)).
    destruct (less y a); [by simplify_eq|]. destruct (run_of y ys) as [r' s'] eqn:E.
    injection Hr as <- <-. by apply (IH h l (xs ++ [a]) y ys r' s' (lrep_next Hc)); [lia|].
Qed.

Lemma find_end_of_run_ok h l xs a ys r s :
  lrep h l (xs ++ a :: ys) → run_of a ys = (r, s) →
  find_end_of_run less a (tail_of l) h = Ret (cursor s (tail_of l), h).
Proof.
  intros Hc Hr. assert (∀ x, x ∈ whole l (xs ++ a :: ys) → x ≠ NULL) as Hnn by (intros; by eapply chain_nonnull).
  unfold find_end_of_run.
  rewrite !bind_assert by (apply bool_decide_true; (apply Hnn; unfold whole; set_solver) || by eapply elem_not_tail).
  eapply rounds_list; [done|]. intros n Hn. eapply run_loop_ok; [done| |done].
  rewrite length_app in Hn. simpl in Hn. lia.
Qed.

(** ** Merging *)
Abbreviation merge := (list_merge (le less)).

Lemma merge_nil_r xs : merge xs [] = xs.
Proof. by destruct xs. Qed.

(** Moving the first element of the second run before the first run. *)
Lemma move_ok h l P x X y S :
  lrep h l (P ++ (x :: X) ++ y :: S) →
  ∃ h', list_splice x y (cursor S (tail_of l)) h = Ret (tt, h') ∧
    lrep h' l (P ++ y :: (x :: X) ++ S) ∧ within (whole l (P ++ (x :: X) ++ y :: S)) h h'.
Proof.
  intros Hc. destruct (exists_last (l := head_of l :: P)) as (L & p & EL); [done|].
  destruct (exists_last (l := x :: X)) as (N & m & EN); [done|].
  assert (E : whole l (P ++ (x :: X) ++ y :: S) =
    (head_of l :: P) ++ (x :: X) ++ [y] ++ (S ++ [tail_of l])).
  { unfold whole. by rewrite <-!app_assoc. }
  assert (E' : whole l (P ++ y :: (x :: X) ++ S) =
    (head_of l :: P) ++ [y] ++ (x :: X) ++ (S ++ [tail_of l])).
  { unfold whole. rewrite <-!app_assoc. simpl. by rewrite <-app_assoc. }
  unfold lrep in *. rewrite E in *. rewrite E'.
  destruct (splice_ok h (head_of l :: P) (x :: X) [y] (S ++ [tail_of l]) p x m y y (cursor S (tail_of l)))
    as (Hrun & Hc' & Hw); try done.
  - by rewrite EL, last_snoc.
  - by rewrite EN, last_snoc.
  - by destruct S.
  - by eexists.
Qed.

Lemma lrep_ne h l P a M b S : lrep h l (P ++ a :: M ++ b :: S) → a ≠ b.
Proof.
  intros Hc. pose proof (lrep_parts _ _ _ Hc) as (_ & _ & Hnd & _).
  apply NoDup_app in Hnd as (_ & _ & Hnd). apply NoDup_cons in Hnd as [Hn _].
  intros ->. apply Hn. set_solver.
Qed.
Lemma lrep_ne_cursor h l P a M Q : lrep h l (P ++ a :: M ++ Q) → a ≠ cursor Q (tail_of l).
Proof.
  intros Hc. destruct Q as [|q Q]; [by eapply elem_not_tail|]. by eapply lrep_ne.
Qed.

Lemma merge_loop_ok fuel : ∀ h l P X Y Q,
  lrep h l (P ++ X ++ Y ++ Q) → (length X + length Y < fuel)%nat →
  ∃ h', merge_loop less fuel (cursor (X ++ Y ++ Q) (tail_of l)) (cursor (Y ++ Q) (tail_of l))
      (cursor Q (tail_of l)) h = Ret (tt, h') ∧
    lrep h' l (P ++ merge X Y ++ Q) ∧ within (whole l (P ++ X ++ Y ++ Q)) h h'.
Proof.
  induction fuel as [|fuel IH]; intros h l P X Y Q Hc Hf; [lia|]. cbn [merge_loop].
  destruct X as [|x X].
  { rewrite decide_True by (by left). exists h. split; [done|]. rewrite list_merge_nil_l. split; [exact Hc|apply within_refl]. }
  destruct Y as [|y Y].
  { rewrite decide_True by (by right). exists h. split; [done|]. split; [done|apply within_refl]. }
  change (cursor ((x :: X) ++ (y :: Y) ++ Q) (tail_of l)) with x.
  change (cursor ((y :: Y) ++ Q) (tail_of l)) with y. cbn [length] in Hf.
  assert (Hxy : x ≠ y) by (by eapply lrep_ne).
  assert (Hc1 : lrep h l ((P ++ x :: X) ++ y :: Y ++ Q)) by (by rewrite <-app_assoc).
  rewrite decide_False by (intros [?|?]; [done|by eapply (lrep_ne_cursor h l (P ++ x :: X) y Y Q)]).
  rewrite list_merge_cons. destruct (less y x) eqn:E.
  - rewrite decide_False by (unfold le; congruence).
    rewrite (bind_run _ _ _ _ _ (list_next_ok h l _ y _ Hc1)).
    rewrite (bind_run _ _ _ _ _ (list_prev_ok h l _ y _ Hc1)).
    destruct (move_ok h l P x X y (Y ++ Q) Hc) as (h1 & Hmv & Hc2 & Hw).
    rewrite (bind_run _ _ _ _ _ Hmv).
    assert (Hc3 : lrep h1 l ((P ++ [y]) ++ (x :: X) ++ Y ++ Q)) by (by rewrite <-app_assoc).
    destruct (IH h1 l (P ++ [y]) (x :: X) Y Q Hc3) as (h2 & Hrun & Hc4 & Hw2); [simpl; lia|].
    exists h2. split; [exact Hrun|]. split; [by rewrite <-app_assoc in Hc4|].
    eapply within_trans; [exact Hw|]. eapply within_mono; [|exact Hw2]. unfold whole. set_solver.
  - rewrite decide_True by done.
    rewrite (bind_run _ _ _ _ _ (list_next_ok h l P x _ Hc)).
    assert (Hc3 : lrep h l ((P ++ [x]) ++ X ++ (y :: Y) ++ Q)) by (by rewrite <-app_assoc).
    destruct (IH h l (P ++ [x]) X (y :: Y) Q Hc3) as (h2 & Hrun & Hc4 & Hw2); [simpl; lia|].
    exists h2. split; [exact Hrun|]. split; [by rewrite <-app_assoc in Hc4|].
    eapply within_mono; [|exact Hw2]. unfold whole. set_solver.
Qed.

(** ** Order and stability of the merge *)
Context `{!WeakOrder less}.

(** Elements that compare equal. *)
Definition alike (a b : Z) : Prop := le less a b ∧ le less b a.
#[export] Instance alike_dec a b : Decision (alike a b).
Proof. unfold alike. apply _. Defined.

Lemma sorted_before x X x' : Sorted (le less) (x :: X) → x' ∈ X → le less x x'.
Proof.
  intros Hs%Sorted_StronglySorted; [|apply _]. apply StronglySorted_cons in Hs as [Hs _].
  by apply (proj1 (Forall_forall _ _) Hs).
Qed.

Lemma filter_none (P : Z → Prop) `{!∀ x, Decision (P x)} xs : (∀ x, x ∈ xs → ¬ P x) → filter P xs = [].
Proof.
  induction xs as [|x xs IH]; intros Hx; [done|]. rewrite filter_cons_False by (apply Hx; set_solver).
  apply IH. set_solver.
Qed.

(** Elements that compare equal keep their order, those of the first run first. *)
Lemma merge_stable z X Y :
  Sorted (le less) X → filter (alike z) (merge X Y) = filter (alike z) X ++ filter (alike z) Y.
Proof.
  intros HX. induction X as [|x X IHX] in Y, HX |- *; [by rewrite list_merge_nil_l|].
  induction Y as [|y Y IHY]; [by rewrite merge_nil_r, app_nil_r|].
  rewrite list_merge_cons. case_decide as E.
  - rewrite !(filter_cons _ x), IHX by (by apply Sorted_inv in HX as []). by case_decide.
  - rewrite (filter_cons _ y (merge (x :: X) Y)), IHY, (filter_cons _ y Y). case_decide as Hy; [|done].
    rewrite (filter_none (alike z) (x :: X)); [done|]. intros x' Hx' [Hz1 Hz2]. apply E.
    assert (le less x x').
    { apply elem_of_cons in Hx' as [->|Hx']; [|by eapply sorted_before].
      destruct (total (le less) x x); done. }
    destruct Hy as [Hy1 Hy2]. etrans; [done|]. by etrans.
Qed.

(** ** Passes over the list *)

(** How often the next element comes before its predecessor. *)
Fixpoint descents (xs : list Z) : nat :=
  match xs with
  | x :: (y :: _) as r => (if less y x then 1 else 0) + descents r
  | _ => 0
  end.

Lemma descents_cons x y r : descents (x :: y :: r) = ((if less y x then 1 else 0) + descents (y :: r))%nat.
Proof. done. Qed.

Lemma descents_sorted xs : descents xs = 0%nat ↔ Sorted (le less) xs.
Proof.
  induction xs as [|x [|y r] IH]; [split; [by constructor|done]|split; [by repeat constructor|done]|].
  rewrite descents_cons. destruct (less y x) eqn:E.
  - split; [lia|]. intros [_ Hh]%Sorted_inv. apply HdRel_inv in Hh. unfold le in Hh. congruence.
  - simpl Nat.add. rewrite IH. split; [intros; constructor; [done|by constructor]|by intros [? _]%Sorted_inv].
Qed.

Lemma descents_app xs ys : (descents (xs ++ ys) ≤ descents xs + 1 + descents ys)%nat.
Proof.
  induction xs as [|x [|y r] IH]; [simpl; lia| |].
  - destruct ys as [|y r]; simpl; [lia|]. destruct (less y x); lia.
  - change ((x :: y :: r) ++ ys) with (x :: y :: (r ++ ys)). rewrite !descents_cons.
    change (y :: r ++ ys) with ((y :: r) ++ ys). lia.
Qed.

Lemma descents_length xs : (descents xs ≤ length xs)%nat.
Proof.
  induction xs as [|x [|y r] IH]; [simpl; lia..|]. rewrite descents_cons. simpl in *. destruct (less y x); lia.
Qed.

Lemma run_of_descents a xs r s :
  run_of a xs = (r, s) → descents (a :: xs) = match s with [] => 0 | _ => S (descents s) end%nat.
Proof.
  revert a r s. induction xs as [|x xs IH]; intros a r s; [by intros [= <- <-]|].
  rewrite descents_cons. simpl run_of. destruct (less x a) eqn:E; [by intros [= <- <-]|].
  destruct (run_of x xs) as [r' s'] eqn:Er. intros [= <- <-]. by rewrite (IH _ _ _ Er).
Qed.

(** Sorting as far as the outcome is concerned: the same elements, with those
    that compare equal in the same order. *)
Definition rearranged (xs ys : list Z) : Prop :=
  ys ≡ₚ xs ∧ ∀ z, filter (alike z) ys = filter (alike z) xs.

Lemma rearranged_refl xs : rearranged xs xs.
Proof. done. Qed.
Lemma rearranged_trans xs ys zs : rearranged xs ys → rearranged ys zs → rearranged xs zs.
Proof. intros [P1 F1] [P2 F2]. split; [by etrans|]. intros z. by rewrite F2, F1. Qed.
Lemma rearranged_app xs ys xs' ys' :
  rearranged xs xs' → rearranged ys ys' → rearranged (xs ++ ys) (xs' ++ ys').
Proof.
  intros [P1 F1] [P2 F2]. split; [by rewrite P1, P2|]. intros z. by rewrite !filter_app, F1, F2.
Qed.
Lemma rearranged_merge X Y : Sorted (le less) X → rearranged (X ++ Y) (merge X Y).
Proof.
  intros HX. split; [apply merge_Permutation|]. intros z. by rewrite filter_app, merge_stable.
Qed.

Lemma inplace_merge_ok h l P X Y Q :
  lrep h l (P ++ X ++ Y ++ Q) → Sorted (le less) X → Sorted (le less) Y →
  ∃ h', inplace_merge less (cursor (X ++ Y ++ Q) (tail_of l)) (cursor (Y ++ Q) (tail_of l))
      (cursor Q (tail_of l)) h = Ret (tt, h') ∧
    lrep h' l (P ++ merge X Y ++ Q) ∧ within (whole l (P ++ X ++ Y ++ Q)) h h'.
Proof.
  intros Hc HX HY. destruct (merge_loop_ok (S (size h)) h l P X Y Q Hc) as (h' & Hrun & ?).
  { pose proof (chain_size h _ ltac:(rewrite length_whole; lia) Hc) as Hz.
    rewrite length_whole, !length_app in Hz. lia. }
  exists h'. split; [|done].
  assert (Hnn : ∀ ys, (∃ xs, xs ++ ys = P ++ X ++ Y ++ Q) → cursor ys (tail_of l) ≠ NULL).
  { intros ys [xs E]. eapply chain_nonnull; [exact Hc|]. rewrite <-E. unfold whole.
    destruct ys; unfold cursor; simpl; set_solver. }
  unfold inplace_merge.
  rewrite bind_assert by (apply bool_decide_true, Hnn; by exists P).
  rewrite bind_assert by (apply bool_decide_true, Hnn; exists (P ++ X); by rewrite <-app_assoc).
  rewrite bind_assert by (apply bool_decide_true, Hnn; exists (P ++ X ++ Y); by rewrite <-!app_assoc).
  rewrite (bind_run _ _ _ _ _ (is_sorted_ok h l P X (Y ++ Q) Hc)).
  rewrite bind_assert by (by apply bool_decide_true).
  rewrite (bind_run _ _ _ _ _ (is_sorted_ok h l (P ++ X) Y Q ltac:(by rewrite <-app_assoc))).
  rewrite bind_assert by (by apply bool_decide_true). exact Hrun.
Qed.

(** One pass: at most half as many runs, rounded up, as there were. *)
Lemma pass_loop_ok fuel : ∀ h l P xs cnt,
  lrep h l (P ++ xs) → (length xs < fuel)%nat → 0 ≤ cnt → cnt + Z.of_nat (length xs) < 4294967296 →
  ∃ h' ys c, pass_loop less fuel (cursor xs (tail_of l)) (tail_of l) cnt h = Ret (cnt + Z.of_nat c, h') ∧
    lrep h' l (P ++ ys) ∧ within (whole l (P ++ xs)) h h' ∧ rearranged xs ys ∧
    (descents ys < c ∨ xs = [])%nat ∧ (2 * c ≤ descents xs + 2)%nat ∧ (c ≤ length xs)%nat.
Proof.
  induction fuel as [|fuel IH]; intros h l P xs cnt Hc Hf Hcnt Hm; [lia|]. simpl.
  destruct xs as [|x xs].
  { rewrite decide_True by done. exists h, [], 0%nat. rewrite Z.add_0_r.
    split_and!; try done; [by right|simpl; lia]. }
  change (cursor (x :: xs) (tail_of l)) with x. rewrite decide_False by (by eapply elem_not_tail).
  simpl in Hf, Hm. rewrite u32_small by lia.
  destruct (run_of x xs) as [r1 s1] eqn:R1. pose proof (run_of_descents _ _ _ _ R1) as D1.
  rewrite (bind_run _ _ _ _ _ (find_end_of_run_ok h l P x xs r1 s1 Hc R1)).
  pose proof (run_of_app _ _ _ _ R1) as ->. pose proof (run_of_sorted _ _ _ _ R1) as S1.
  assert (Hc1 : lrep h l ((P ++ x :: r1) ++ s1)) by (by rewrite <-app_assoc).
  destruct s1 as [|y s1].
  { rewrite decide_True by done. rewrite app_nil_r in *. exists h, (x :: r1), 1%nat.
    split_and!; try done; [left; apply descents_sorted in S1; lia|lia|simpl; lia]. }
  change (cursor (y :: s1) (tail_of l)) with y. rewrite decide_False by (by eapply elem_not_tail).
  destruct (run_of y s1) as [r2 s2] eqn:R2. pose proof (run_of_descents _ _ _ _ R2) as D2.
  rewrite (bind_run _ _ _ _ _ (find_end_of_run_ok h l _ y s1 r2 s2 Hc1 R2)).
  pose proof (run_of_app _ _ _ _ R2) as ->. pose proof (run_of_sorted _ _ _ _ R2) as S2.
  destruct (inplace_merge_ok h l P (x :: r1) (y :: r2) s2 Hc S1 S2) as (h1 & Hmg & Hc2 & Hw1).
  rewrite (bind_run _ _ _ _ _ (Hmg : inplace_merge less x y _ h = _)).
  set (Z := merge (x :: r1) (y :: r2)) in *.
  assert (HZ : rearranged ((x :: r1) ++ (y :: r2)) Z) by (by apply rearranged_merge).
  assert (SZ : Sorted (le less) Z) by (apply Sorted_list_merge; done || apply _).
  assert (LZ : length Z = S (length r1 + S (length r2))) by (rewrite (proj1 HZ), length_app; done).
  simpl in Hf, Hm. rewrite !length_app in Hf, Hm. simpl in Hf, Hm. rewrite !length_app in Hf, Hm.
  destruct (IH h1 l (P ++ Z) s2 (cnt + 1)) as (h2 & ys & c & Hrun & Hc3 & Hw2 & Hr & Hd & Hc' & Hcl);
    [by rewrite <-app_assoc|lia..|].
  exists h2, (Z ++ ys), (S c). split_and!.
  - rewrite Hrun. do 2 f_equal. lia.
  - by rewrite app_assoc.
  - eapply within_trans; [exact Hw1|]. eapply within_mono; [|exact Hw2].
    intros q. unfold whole. rewrite <-app_assoc. rewrite !elem_of_cons, !elem_of_app, (proj1 HZ).
    rewrite !elem_of_app, !elem_of_cons. set_solver.
  - change (x :: r1 ++ y :: r2 ++ s2) with ((x :: r1) ++ (y :: r2) ++ s2). rewrite app_assoc.
    by apply rearranged_app.
  - left. apply descents_sorted in SZ. pose proof (descents_app Z ys).
    destruct Hd as [?| ->]; [lia|]. destruct Hr as [Hr%Permutation_nil_r _]. subst ys. rewrite app_nil_r. lia.
  - rewrite D1, D2. destruct s2; [|lia]. simpl in Hcl. lia.
  - simpl. rewrite !length_app. simpl. rewrite length_app. lia.
Qed.

(** The passes, until one run is left. *)
Lemma sort_loop_ok fuel : ∀ h l xs,
  lrep h l xs → (descents xs < fuel)%nat → Z.of_nat (length xs) < 4294967296 →
  ∃ h' ys, sort_loop less fuel l h = Ret (tt, h') ∧ lrep h' l ys ∧ within (whole l xs) h h' ∧
    rearranged xs ys ∧ Sorted (le less) ys.
Proof.
  induction fuel as [|fuel IH]; intros h l xs Hc Hf Hm; [lia|]. simpl.
  destruct (pass_loop_ok (S (size h)) h l [] xs 0 Hc) as
    (h1 & ys & c & Hrun & Hc1 & Hw & Hr & Hd & Hc' & Hcl); [|lia..|].
  { pose proof (chain_size h _ ltac:(rewrite length_whole; lia) Hc) as Hz. rewrite length_whole in Hz. lia. }
  rewrite (bind_run _ _ _ _ _ (list_begin_run h l _ Hc)).
  rewrite (bind_run _ _ _ _ _ (list_end_run h l (lrep_nonnull _ _ _ Hc))).
  rewrite (bind_run (rounds _) _ h _ h1 Hrun).
  assert (Hys : xs = [] → ys = []) by (intros ->; by apply Permutation_nil_r, Hr).
  case_decide as Hc2.
  - assert (Hlt : (descents ys < fuel)%nat) by (destruct Hd as [?| ->]; [lia|simpl in Hcl; lia]).
    destruct (IH h1 l ys Hc1 Hlt) as (h2 & zs & Hrun2 & Hc3 & Hw2 & Hr2 & Hs).
    { by rewrite (Permutation_length (proj1 Hr)). }
    exists h2, zs. split_and!; try done; [|by eapply rearranged_trans].
    eapply within_trans; [exact Hw|]. eapply within_mono; [|exact Hw2].
    intros q. unfold whole. rewrite !elem_of_cons, !elem_of_app. by rewrite (proj1 Hr).
  - exists h1, ys. split_and!; try done. apply descents_sorted.
    destruct Hd as [?|E]; [lia|]. by rewrite Hys.
Qed.

Lemma list_sort_ok h l xs :
  lrep h l xs → Z.of_nat (length xs) < 4294967296 →
  ∃ h' ys, list_sort less l h = Ret (tt, h') ∧ lrep h' l ys ∧ within (whole l xs) h h' ∧
    rearranged xs ys ∧ Sorted (le less) ys.
Proof.
  intros Hc Hm. destruct (sort_loop_ok (S (size h)) h l xs Hc) as (h' & ys & Hrun & Hc' & Hw & Hr & Hs); [|done|].
  { pose proof (chain_size h _ ltac:(rewrite length_whole; lia) Hc) as Hz. rewrite length_whole in Hz.
    pose proof (descents_length xs). lia. }
  exists h', ys. split; [|done]. unfold list_sort.
  rewrite bind_assert by (apply bool_decide_true; by eapply lrep_nonnull).
  rewrite (bind_run (rounds _) _ h _ h' Hrun).
  rewrite (bind_run _ _ _ _ _ (list_begin_run h' l _ Hc')).
  rewrite (bind_run _ _ _ _ _ (list_end_run h' l (lrep_nonnull _ _ _ Hc'))).
  pose proof (is_sorted_ok h' l [] ys [] ltac:(by rewrite app_nil_r)) as Hi. rewrite app_nil_r in Hi.
  rewrite (bind_run _ _ _ _ _ Hi). apply bind_assert || idtac.
  unfold assertM, lift. by rewrite bool_decide_true.
Qed.
End ordered.

(** ** Duplicates *)
Lemma lrep_frame h h' l xs :
  lrep h l xs → (∀ x, x ∈ whole l xs → h' !! x = h !! x) → lrep h' l xs.
Proof.
  intros [Hnd Hnn Hl Hh Ht] Hs. split; try done.
  - apply (linked_frame h); [done..| |]; intros x Hx; right; unfold nxt, prv; by rewrite Hs.
  - intros a Ha. rewrite <-(Hh a Ha). unfold prv. rewrite Hs; [done|]. by apply head_elem.
  - intros a Ha. rewrite <-(Ht a Ha). unfold nxt. rewrite Hs; [done|]. by apply last_Some_elem_of.
Qed.

Section unique.
Context (less : Z → Z → bool).

(** What is kept after [x], and what is taken out. *)
Fixpoint uniq (x : Z) (xs : list Z) : list Z * list Z :=
  match xs with
  | [] => ([], [])
  | y :: ys =>
      if decide (alike less x y) then let (k, r) := uniq x ys in (k, y :: r)
      else let (k, r) := uniq y ys in (y :: k, r)
  end.

Lemma alike_test x y : negb (less x y) && negb (less y x) = bool_decide (alike less x y).
Proof.
  assert (alike less x y ↔ less x y = false ∧ less y x = false) as Hi by (unfold alike, le; tauto).
  destruct (less x y), (less y x); simpl; symmetry;
    first [apply bool_decide_true; tauto|apply bool_decide_false; intros [? ?]%Hi; done].
Qed.

Definition disjoint (l : Z) (xs : list Z) (d : Z) (ds : list Z) : Prop :=
  ∀ x, x ∈ whole l xs → x ∉ whole d ds.

(** Taking [y] out of the first list, and appending it to the second. *)
Lemma take_out_ok h l P y ys d ds :
  lrep h l (P ++ y :: ys) → lrep h d ds → disjoint l (P ++ y :: ys) d ds →
  ∃ h1 h', list_remove y h = Ret (cursor ys (tail_of l), h1) ∧ list_push_back d y h1 = Ret (tt, h') ∧
    lrep h' l (P ++ ys) ∧ lrep h' d (ds ++ [y]) ∧
    disjoint l (P ++ ys) d (ds ++ [y]) ∧ within (whole l (P ++ y :: ys) ++ whole d ds) h h'.
Proof.
  intros Hl Hd Hdj. destruct (list_remove_ok h l P y ys Hl) as (h1 & Hr & Hl1 & Hw1 & Hy).
  assert (Hyin : y ∈ whole l (P ++ y :: ys)) by (unfold whole; set_solver).
  assert (Hd1 : lrep h1 d ds).
  { apply (lrep_frame h); [done|]. intros x Hx. apply (wi_same _ _ _ Hw1). intros Hx'. by apply (Hdj x). }
  assert (Hyn : y ∉ whole l (P ++ ys)).
  { pose proof (ch_nodup _ _ Hl) as Hnd. unfold whole in *. rewrite <-app_assoc in Hnd. simpl in Hnd.
    rewrite app_comm_cons in Hnd. rewrite <-Permutation_middle in Hnd.
    apply NoDup_cons in Hnd as [Hn _]. rewrite <-app_assoc. set_solver. }
  destruct (list_push_back_ok h1 d ds y Hd1) as (h' & Hp & Hd2 & Hw2).
  { by apply Hdj. }
  { exact (chain_nonnull _ _ y Hl Hyin). }
  { apply (wi_dom _ _ _ Hw1). exact (lrep_some _ _ _ y Hl Hyin). }
  assert (Hsub : ∀ x, x ∈ whole l (P ++ ys) → x ∈ whole l (P ++ y :: ys)) by (unfold whole; set_solver).
  exists h1, h'. split_and!; try done.
  - apply (lrep_frame h1); [done|]. intros x Hx. apply (wi_same _ _ _ Hw2).
    intros [->|Hx']%elem_of_cons; [done|]. by apply (Hdj x); [apply Hsub|].
  - intros x Hx Hx'. assert (Hx2 : x ∈ y :: whole d ds) by (unfold whole in *; set_solver).
    apply elem_of_cons in Hx2 as [->|Hx2]; [done|]. by apply (Hdj x); [apply Hsub|].
  - eapply within_trans; [eapply within_mono; [|exact Hw1]; set_solver|].
    eapply within_mono; [|exact Hw2]. set_solver.
Qed.

Lemma unique_loop_ok fuel : ∀ h l P x ys d ds k r,
  lrep h l (P ++ x :: ys) → lrep h d ds → disjoint l (P ++ x :: ys) d ds → (length ys < fuel)%nat →
  uniq x ys = (k, r) →
  ∃ h', unique_loop less fuel x (tail_of l) (Some d) h = Ret (tt, h') ∧
    lrep h' l (P ++ x :: k) ∧ lrep h' d (ds ++ r) ∧
    within (whole l (P ++ x :: ys) ++ whole d ds) h h'.
Proof.
  induction fuel as [|fuel IH]; intros h l P x ys d ds k r Hl Hd Hdj Hf Hu; [lia|]. simpl.
  rewrite (bind_run _ _ _ _ _ (list_next_ok h l P x ys Hl)).
  pose proof (lrep_next Hl) as Hl'.
  destruct ys as [|y ys]; simpl in Hu.
  { injection Hu as <- <-. rewrite decide_True by done. exists h. rewrite app_nil_r.
    by split_and!. }
  change (cursor (y :: ys) (tail_of l)) with y. rewrite decide_False by (by eapply elem_not_tail).
  simpl in Hf. rewrite alike_test. case_decide as Ha.
  - destruct (uniq x ys) as [k' r'] eqn:Eu. injection Hu as <- <-.
    destruct (take_out_ok h l (P ++ [x]) y ys d ds) as (h1 & h2 & Hr & Hp & Hl2 & Hd2 & Hdj2 & Hw);
      [by rewrite <-app_assoc..|done| |].
    { by rewrite <-app_assoc. }
    rewrite bool_decide_true by done. rewrite (bind_run _ _ _ _ _ Hr), (bind_run _ _ _ _ _ Hp).
    rewrite <-app_assoc in Hl2, Hdj2, Hw.
    destruct (IH h2 l P x ys d (ds ++ [y]) k' r' Hl2 Hd2 Hdj2) as (h3 & Hrun & Hl3 & Hd3 & Hw3); [lia|done|].
    exists h3. rewrite <-app_assoc in Hd3. split_and!; try done.
    eapply within_trans; [exact Hw|]. eapply within_mono; [|exact Hw3]. unfold whole. set_solver.
  - destruct (uniq y ys) as [k' r'] eqn:Eu. injection Hu as <- <-. rewrite bool_decide_false by done.
    destruct (IH h l (P ++ [x]) y ys d ds k' r' Hl' Hd) as (h3 & Hrun & Hl3 & Hd3 & Hw3);
      [by rewrite <-app_assoc|lia|done|].
    rewrite <-app_assoc in Hl3, Hw3. by exists h3.
Qed.

Lemma uniq_perm x xs k r : uniq x xs = (k, r) → k ++ r ≡ₚ xs.
Proof.
  revert x k r. induction xs as [|y ys IH]; intros x k r; simpl; [by intros [= <- <-]|].
  case_decide.
  - destruct (uniq x ys) as [k' r'] eqn:E. intros [= <- <-]. rewrite <-Permutation_middle. by rewrite (IH _ _ _ E).
  - destruct (uniq y ys) as [k' r'] eqn:E. intros [= <- <-]. simpl. by rewrite (IH _ _ _ E).
Qed.

(** In a sorted list nothing that is kept compares equal to what is kept later. *)
Lemma uniq_strict `{!WeakOrder less} x xs k r :
  uniq x xs = (k, r) → Sorted (le less) (x :: xs) → StronglySorted (λ a b, less a b = true) (x :: k).
Proof.
  revert x k r. induction xs as [|y ys IH]; intros x k r; simpl.
  { intros [= <- <-] _. by repeat constructor. }
  intros Hu Hs. pose proof Hs as [Hs1 Hle%HdRel_inv]%Sorted_inv. case_decide as Ha.
  - destruct (uniq x ys) as [k' r'] eqn:E. injection Hu as <- <-. eapply IH; [done|].
    constructor; [by apply Sorted_inv in Hs1 as []|].
    destruct ys as [|z zs]; constructor. apply Sorted_inv in Hs1 as [_ Hz%HdRel_inv]. by etrans.
  - destruct (uniq y ys) as [k' r'] eqn:E. injection Hu as <- <-. pose proof (IH _ _ _ E Hs1) as Hk.
    assert (Hxy : less x y = true).
    { destruct (less x y) eqn:El; [done|]. by destruct Ha. }
    constructor; [done|]. constructor; [done|]. apply StronglySorted_inv in Hk as [_ Hk].
    eapply Forall_impl; [exact Hk|]. intros z Hz. simpl in Hz.
    destruct (less x z) eqn:El; [done|]. exfalso.
    assert (Hzx : le less y x) by (transitivity z; [by apply wo_asym|done]).
    unfold le in Hzx. congruence.
Qed.
End unique.
