(* ===== verification/LinkedListSpec.v ===== *)
(** What list.c promises: sequences of operations on a list do what the same
    operations do on a sequence; and sorting, maxima and duplicates. *)
From stdpp Require Import sorting.
From S2P Require Import Prelude LinkedList LinkedListLaws LinkedListOps LinkedListSort.
Local Open Scope Z_scope.

(** ** Lists as sequences *)

(** Calls on one list; the elements to insert are in memory, in no list. *)
Inductive list_call :=
| PushFront (e : Z) | PushBack (e : Z) | InsertBefore (b e : Z) | InsertOrdered (e : Z)
| PopFront | PopBack | Remove (e : Z) | Reverse | Sort | Size | Empty.

Definition call (less : Z → Z → bool) (l : Z) (c : list_call) : M heap (option Z) :=
  match c with
  | PushFront e => list_push_front l e;;! ret None
  | PushBack e => list_push_back l e;;! ret None
  | InsertBefore b e => list_insert b e;;! ret None
  | InsertOrdered e => list_insert_ordered less l e;;! ret None
  | PopFront => let! x := list_pop_front l in ret (Some x)
  | PopBack => let! x := list_pop_back l in ret (Some x)
  | Remove e => list_remove e;;! ret None
  | Reverse => list_reverse l;;! ret None
  | Sort => list_sort less l;;! ret None
  | Size => let! n := list_size l in ret (Some n)
  | Empty => let! b := list_empty l in ret (Some (Z.b2z b))
  end.

Fixpoint calls (less : Z → Z → bool) (l : Z) (cs : list list_call) : M heap (list (option Z)) :=
  match cs with
  | [] => ret []
  | c :: cs => let! r := call less l c in let! rs := calls less l cs in ret (r :: rs)
  end.

(** The same on sequences: result and new sequence, for the calls that the code
    allows in a memory with the elements [m]. *)
Inductive on_seq (less : Z → Z → bool) (m : gset Z) (l : Z) : list_call → list Z → option Z → list Z → Prop :=
| seq_push_front e xs : e ∈ m → e ∉ whole l xs → on_seq less m l (PushFront e) xs None (e :: xs)
| seq_push_back e xs : e ∈ m → e ∉ whole l xs → on_seq less m l (PushBack e) xs None (xs ++ [e])
| seq_insert e b xs ys : e ∈ m → e ∉ whole l (xs ++ b :: ys) →
    on_seq less m l (InsertBefore b e) (xs ++ b :: ys) None (xs ++ e :: b :: ys)
| seq_insert_ordered e xs : e ∈ m → e ∉ whole l xs →
    on_seq less m l (InsertOrdered e) xs None (insert_sorted less e xs)
| seq_pop_front x xs : on_seq less m l PopFront (x :: xs) (Some x) xs
| seq_pop_back x xs : on_seq less m l PopBack (xs ++ [x]) (Some x) xs
| seq_remove e xs ys : on_seq less m l (Remove e) (xs ++ e :: ys) None (xs ++ ys)
| seq_reverse xs : on_seq less m l Reverse xs None (reverse xs)
| seq_sort xs ys : Z.of_nat (length xs) < 4294967296 → rearranged less xs ys → Sorted (le less) ys →
    on_seq less m l Sort xs None ys
| seq_size xs : Z.of_nat (length xs) < 4294967296 →
    on_seq less m l Size xs (Some (Z.of_nat (length xs))) xs
| seq_empty xs : on_seq less m l Empty xs (Some (Z.b2z (bool_decide (xs = [])))) xs.

(** Sorted sequences with the same elements, those that compare equal in the
    same order, are the same: [Sort] has one outcome. *)
Lemma rearranged_unique less `{!WeakOrder less} ys zs :
  Sorted (le less) ys → Sorted (le less) zs → rearranged less ys zs → ys = zs.
Proof.
  revert zs. induction ys as [|y ys IH]; intros zs Hy Hz [Hp Hf].
  { symmetry. by apply Permutation_nil_r. }
  destruct zs as [|z zs]; [by apply Permutation_nil_cons in Hp|].
  assert (Hyz : le less y z).
  { assert (z ∈ y :: ys) as [->|Hin]%elem_of_cons by (rewrite <-Hp; set_solver); [by destruct (total (le less) y y)|].
    by eapply sorted_before. }
  assert (Hzy : le less z y).
  { assert (y ∈ z :: zs) as [->|Hin]%elem_of_cons by (rewrite Hp; set_solver); [by destruct (total (le less) z z)|].
    by eapply sorted_before. }
  pose proof (Hf z) as Hf'. rewrite !filter_cons in Hf'.
  assert (Hzz : le less z z) by (transitivity y; done).
  rewrite (decide_True (P := alike less z y)), (decide_True (P := alike less z z)) in Hf' by (by split).
  injection Hf' as -> _. f_equal. apply IH.
  - by apply Sorted_inv in Hy as [].
  - by apply Sorted_inv in Hz as [].
  - split; [by apply Permutation_cons_inv in Hp|]. intros w. specialize (Hf w).
    rewrite !filter_cons in Hf. case_decide; [by injection Hf|done].
Qed.

(** The call was one operation, which ran, and kept the memory. *)
Ltac served h' Hrun Hw :=
  exists h'; unfold call; rewrite (bind_run _ _ _ _ _ Hrun); split_and!; try done; apply Hw.

Lemma call_ok less `{!WeakOrder less} h l xs m c r ys :
  lrep h l xs → (∀ e, e ∈ m → e ≠ NULL ∧ is_Some (h !! e)) → on_seq less m l c xs r ys →
  ∃ h', call less l c h = Ret (r, h') ∧ lrep h' l ys ∧ ∀ e, is_Some (h !! e) → is_Some (h' !! e).
Proof.
  intros Hc Hm Hs. destruct Hs as [e xs He Hn|e xs He Hn|e b xs zs He Hn|e xs He Hn|x xs|x xs|e xs zs|xs|xs ys Hl Hr Hy|xs Hl|xs].
  - destruct (list_push_front_ok h l xs e) as (h' & Hrun & Hc' & Hw); try done; try by apply Hm.
    by served h' Hrun Hw.
  - destruct (list_push_back_ok h l xs e) as (h' & Hrun & Hc' & Hw); try done; try by apply Hm.
    by served h' Hrun Hw.
  - destruct (list_insert_ok h l xs (b :: zs) e) as (h' & Hrun & Hc' & Hw); try done; try by apply Hm.
    by served h' Hrun Hw.
  - destruct (list_insert_ordered_ok less h l xs e) as (h' & Hrun & Hc' & Hw); try done; try by apply Hm.
    by served h' Hrun Hw.
  - destruct (list_pop_front_ok h l x xs Hc) as (h' & Hrun & Hc' & Hw & _).
    by served h' Hrun Hw.
  - destruct (list_pop_back_ok h l x xs Hc) as (h' & Hrun & Hc' & Hw & _).
    by served h' Hrun Hw.
  - destruct (list_remove_ok h l xs e zs Hc) as (h' & Hrun & Hc' & Hw & _).
    by served h' Hrun Hw.
  - destruct (list_reverse_ok h l xs Hc) as (h' & Hrun & Hc' & Hw).
    by served h' Hrun Hw.
  - destruct (list_sort_ok less h l xs Hc Hl) as (h' & zs & Hrun & Hc' & Hw & Hr' & Hs').
    assert (ys = zs) as ->.
    { apply (rearranged_unique less); [done..|]. destruct Hr as [P1 F1], Hr' as [P2 F2].
      split; [by rewrite P1, P2|]. intros w. by rewrite F1, F2. }
    by served h' Hrun Hw.
  - exists h. unfold call. by rewrite (bind_run _ _ _ _ _ (list_size_ok h l xs Hc Hl)).
  - exists h. unfold call. by rewrite (bind_run _ _ _ _ _ (list_empty_run h l xs Hc)).
Qed.

(** A script of calls on a sequence. *)
Inductive on_seqs (less : Z → Z → bool) (m : gset Z) (l : Z) :
  list list_call → list Z → list (option Z) → list Z → Prop :=
| seqs_nil xs : on_seqs less m l [] xs [] xs
| seqs_cons c cs xs r ys rs zs : on_seq less m l c xs r ys → on_seqs less m l cs ys rs zs →
    on_seqs less m l (c :: cs) xs (r :: rs) zs.

(** C13: the doubly linked list refines a sequence of elements: whatever calls
    are made on a list, in any order (insertions at both ends, before an element
    and in order, removals, reversals, sorting, size), each returns, with the
    result that the same call on a sequence has, and the list then holds that
    sequence. No link assertion fails, and the loops end. *)
Theorem list_refines_sequence (less : Z → Z → bool) (Hless : WeakOrder less) (h : heap) (l : Z)
    (m : gset Z) (cs : list list_call) (xs zs : list Z) (rs : list (option Z))
    (Hrep : lrep h l xs) (Hmem : ∀ e, e ∈ m → e ≠ NULL ∧ is_Some (h !! e))
    (Hspec : on_seqs less m l cs xs rs zs) :
  ∃ h', calls less l cs h = Ret (rs, h') ∧ lrep h' l zs.
Proof.
  revert h Hrep Hmem. induction Hspec as [xs|c cs xs r ys rs zs Hc Hcs IH]; intros h Hrep Hmem.
  { by exists h. }
  destruct (call_ok less h l xs m c r ys Hrep Hmem Hc) as (h1 & Hrun & Hrep1 & Hdom).
  destruct (IH h1 Hrep1) as (h2 & Hrun2 & Hrep2).
  { intros e He. destruct (Hmem e He). auto. }
  exists h2. split; [|done]. simpl. by rewrite (bind_run _ _ _ _ _ Hrun), (bind_run _ _ _ _ _ Hrun2).
Qed.

(** C4: sorting a list, with any comparison that is a strict weak order: the
    natural merge sort ends, its assertions that the runs are sorted hold, and
    the list then holds the same elements in nondecreasing order, elements that
    compare equal in the order they had. *)
Theorem list_sort_sorts (less : Z → Z → bool) (Hless : WeakOrder less) (h : heap) (l : Z) (xs : list Z)
    (Hrep : lrep h l xs) (Hlen : Z.of_nat (length xs) < 4294967296) :
  ∃ h' ys, list_sort less l h = Ret (tt, h') ∧ lrep h' l ys ∧ ys ≡ₚ xs ∧ Sorted (le less) ys ∧
    (∀ z, filter (alike less z) ys = filter (alike less z) xs) ∧
    ∀ x, x ∉ whole l xs → h' !! x = h !! x.
Proof.
  destruct (list_sort_ok less h l xs Hrep Hlen) as (h' & ys & Hrun & Hrep' & Hw & [Hp Hf] & Hs).
  exists h', ys. split_and!; try done. apply Hw.
Qed.

(** the maximum of a list that is not empty is its first element that no
    other exceeds; that of an empty list is its tail. *)
Theorem list_max_first (less : Z → Z → bool) (Hless : WeakOrder less) (h : heap) (l : Z) (xs : list Z)
    (Hrep : lrep h l xs) :
  ∃ m, list_max less l h = Ret (m, h) ∧
    match xs with
    | [] => m = tail_of l
    | _ => ∃ A B, xs = A ++ m :: B ∧ (∀ a, a ∈ A → less a m = true) ∧ (∀ b, b ∈ B → less m b = false)
    end.
Proof.
  rewrite (list_max_run less h l xs Hrep). eexists. split; [done|].
  destruct xs as [|x xs]; [done|]. apply max_from_first. apply _.
Qed.

(** removing the duplicates of a sorted list, into another list: what is
    left is strictly increasing, what is taken out is appended to the other
    list, and together they are the elements that there were. *)
Theorem list_unique_splits (less : Z → Z → bool) (Hless : WeakOrder less) (h : heap) (l d : Z)
    (xs ds : list Z) (Hrep : lrep h l xs) (Hdup : lrep h d ds)
    (Hsep : ∀ x, x ∈ whole l xs → x ∉ whole d ds) (Hsorted : Sorted (le less) xs) :
  ∃ h' ks rs, list_unique less l (Some d) h = Ret (tt, h') ∧ lrep h' l ks ∧ lrep h' d (ds ++ rs) ∧
    ks ++ rs ≡ₚ xs ∧ StronglySorted (λ a b, less a b = true) ks.
Proof.
  assert (Hn : l ≠ NULL) by (by eapply lrep_nonnull). unfold list_unique.
  rewrite bind_assert by (by apply bool_decide_true).
  rewrite (bind_run _ _ _ _ _ (list_empty_run h l xs Hrep)). destruct xs as [|x xs].
  { exists h, [], []. rewrite app_nil_r. split_and!; try done. constructor. }
  rewrite bool_decide_false by done.
  rewrite (bind_run _ _ _ _ _ (list_begin_run h l _ Hrep)).
  rewrite (bind_run _ _ _ _ _ (list_end_run h l Hn)).
  destruct (uniq less x xs) as [k r] eqn:Eu.
  destruct (unique_loop_ok less (S (size h)) h l [] x xs d ds k r Hrep Hdup Hsep) as
    (h' & Hrun & Hl & Hd & _); [|done|].
  { pose proof (chain_size h _ ltac:(rewrite length_whole; lia) Hrep) as Hz.
    rewrite length_whole in Hz. simpl in Hz. lia. }
  exists h', (x :: k), r. split_and!; try done.
  - simpl. by rewrite (uniq_perm _ _ _ _ _ Eu).
  - by eapply uniq_strict.
Qed.

(** ** A list in memory *)
Ltac decided := apply (bool_decide_unpack _); vm_compute; done.

Definition demo_lists : heap :=
  match (list_init 8;;! list_init 200;;! list_push_back 8 108;;! list_push_back 8 116;;!
         list_push_back 8 100;;! list_push_back 8 132) demo_heap with
  | Ret (_, h) => h | Err _ => ∅ end.

(** [chain] for concrete heaps. *)
Fixpoint linkedb (h : heap) (ws : list Z) : bool :=
  match ws with
  | a :: (b :: _) as r => bool_decide (nxt h a = Some b) && bool_decide (prv h b = Some a) && linkedb h r
  | _ => true
  end.
Lemma linkedb_linked h ws : linkedb h ws = true → linked h ws.
Proof.
  induction ws as [|a [|b r] IH]; [done..|]. intros H. cbn [linkedb] in H.
  apply andb_true_iff in H as [[Hn%bool_decide_eq_true Hp%bool_decide_eq_true]%andb_true_iff Hl].
  apply linked_cons. auto.
Qed.
Definition chainb (h : heap) (ws : list Z) : bool :=
  bool_decide (NoDup ws) && bool_decide (Forall (.≠ NULL) ws) && linkedb h ws &&
  match head ws, last ws with
  | Some a, Some b => bool_decide (prv h a = Some NULL) && bool_decide (nxt h b = Some NULL)
  | _, _ => true
  end.
Lemma chainb_chain h ws : chainb h ws = true → chain h ws.
Proof.
  unfold chainb. rewrite !andb_true_iff. intros [[[Hn%bool_decide_eq_true Hf%bool_decide_eq_true] Hl%linkedb_linked] He].
  split; try done.
  - intros a Ha. rewrite Ha in He. destruct (last ws) eqn:E; [|by apply last_None in E; subst].
    apply andb_true_iff in He as [He _]. by apply bool_decide_eq_true in He.
  - intros b Hb. rewrite Hb in He. destruct (head ws) eqn:E; [|by destruct ws].
    apply andb_true_iff in He as [_ He]. by apply bool_decide_eq_true in He.
Qed.

Lemma demo_lrep : lrep demo_lists 8 [108; 116; 100; 132].
Proof. apply chainb_chain. by vm_compute. Qed.
Lemma demo_lrep_dups : lrep demo_lists 200 [].
Proof. apply chainb_chain. by vm_compute. Qed.

(** Addresses modulo 16, so that there are elements that compare equal. *)
Definition mod16 (a b : Z) : bool := a mod 16 <? b mod 16.
#[export] Instance mod16_weak_order : WeakOrder mod16.
Proof. unfold mod16. split; intros; rewrite ?Z.ltb_lt, ?Z.ltb_ge in *; lia. Qed.

Lemma list_refines_sequence_witness :
  ∃ h', calls Z.ltb 8 [PopFront; Remove 100; InsertOrdered 124; Reverse; Size] demo_lists
    = Ret ([Some 108; None; None; None; Some 3], h') ∧ lrep h' 8 [132; 124; 116].
Proof.
  apply (list_refines_sequence Z.ltb _ demo_lists 8 {[ 124 ]} _ [108; 116; 100; 132]).
  - apply demo_lrep.
  - intros e ->%elem_of_singleton. split; [done|]. eexists. by vm_compute.
  - eapply seqs_cons; [apply seq_pop_front|].
    eapply seqs_cons; [apply (seq_remove _ _ _ 100 [116] [132])|].
    eapply seqs_cons; [apply (seq_insert_ordered _ _ _ 124 [116; 132]); [by apply elem_of_singleton|decided]|].
    eapply seqs_cons; [apply (seq_reverse _ _ _ [116; 124; 132])|].
    eapply seqs_cons; [by apply (seq_size _ _ _ [132; 124; 116])|]. apply seqs_nil.
Defined.

Lemma list_sort_sorts_witness :
  ∃ h' ys, list_sort mod16 8 demo_lists = Ret (tt, h') ∧ lrep h' 8 ys ∧ Sorted (le mod16) ys.
Proof.
  destruct (list_sort_sorts mod16 _ demo_lists 8 _ demo_lrep) as (h' & ys & Hrun & Hl & _ & Hs & _); [simpl; lia|].
  exists h', ys. split; [exact Hrun|]. split; [exact Hl|exact Hs].
Defined.

Lemma list_max_first_witness : ∃ m, list_max mod16 8 demo_lists = Ret (m, demo_lists) ∧ m = 108.
Proof.
  destruct (list_max_first mod16 _ demo_lists 8 _ demo_lrep) as (m & Hrun & _).
  exists m. split; [exact Hrun|]. vm_compute in Hrun. by injection Hrun.
Defined.

Definition demo_sorted : heap :=
  match list_sort Z.ltb 8 demo_lists with Ret (_, h) => h | Err _ => ∅ end.

(** Equal when the addresses are in the same sixteen. *)
Definition div16 (a b : Z) : bool := a / 16 <? b / 16.
#[export] Instance div16_weak_order : WeakOrder div16.
Proof. unfold div16. split; intros; rewrite ?Z.ltb_lt, ?Z.ltb_ge in *; lia. Qed.

Lemma list_unique_splits_witness :
  ∃ h' ks rs, list_unique div16 8 (Some 200) demo_sorted = Ret (tt, h') ∧ lrep h' 8 ks ∧ lrep h' 200 rs.
Proof.
  destruct (list_unique_splits div16 _ demo_sorted 8 200 [100; 108; 116; 132] [])
    as (h' & ks & rs & Hrun & Hl & Hd & _).
  - apply chainb_chain. by vm_compute.
  - apply chainb_chain. by vm_compute.
  - apply Forall_forall. decided.
  - by repeat (constructor; try done).
  - exists h', ks, rs. split; [exact Hrun|]. split; [exact Hl|exact Hd].
Defined.
