(* ===== verification/Hash.v ===== *)
(** Hash tables: lib/kernel/hash.c of Project5.  The elements of a bucket are a
    list of list.c; the buckets are an array of such lists. *)
From S2P Require Import Prelude LinkedList.
Local Open Scope Z_scope.

(** hash.h 58-67 hash, without the functions, which are parameters below *)
Record hash_table := mkTable { elem_cnt : Z; bucket_cnt : Z; buckets : Z }.

(** The memory, the table, and what the coming calls of malloc return: null, or
    the address of fresh memory.  Past the end of the list they fail. *)
Record hstate := mkH { mem : heap; table : hash_table; mallocs : list (option Z) }.

Definition set_mem (m : heap) (s : hstate) : hstate := mkH m (table s) (mallocs s).
Definition set_table (t : hash_table) (s : hstate) : hstate := mkH (mem s) t (mallocs s).
Definition set_elem_cnt (n : Z) (t : hash_table) : hash_table := mkTable n (bucket_cnt t) (buckets t).
Definition set_buckets (n p : Z) (t : hash_table) : hash_table := mkTable (elem_cnt t) n p.

Definition on_mem {A} (m : M heap A) : M hstate A := zoom mem set_mem m.
Definition malloc : M hstate (option Z) := λ s,
  match mallocs s with
  | [] => Ret (None, s)
  | p :: r => Ret (p, mkH (mem s) (table s) r)
  end.

(** [&buckets[i]], for an array at [base]: a [struct list] has 16 bytes. *)
Definition bucket_at (base i : Z) : Z := base + 16 * i.

(** [free (buckets)]: the heads and tails are gone. *)
Definition free_array (base : Z) (n : nat) : M heap unit :=
  modify (λ h : heap, foldr (λ i h, delete (head_of (bucket_at base i)) (delete (tail_of (bucket_at base i)) h))
    h (seqZ 0 (Z.of_nat n))).
Definition free_buckets (base n : Z) : M hstate unit := on_mem (free_array base (Z.to_nat n)).

(** Enough rounds for a loop over a list. *)
Definition list_rounds {A} (f : nat → M hstate A) : M hstate A := λ s, f (S (size (mem s))) s.

(** [for (i = 0; i < n; i++) body (i)] *)
Fixpoint for_each (n : nat) (i : Z) (body : Z → M hstate unit) : M hstate unit :=
  match n with
  | O => ret tt
  | S n => body i;;! for_each n (i + 1) body
  end.

(** ** Sizes *)

(** hash.c 328-333 turn_off_least_1bit *)
Definition turn_off_least_1bit (x : Z) : Z := Z.land x (u32 (x - 1)).

(** hash.c 335-340 is_power_of_2 *)
Definition is_power_of_2 (x : Z) : bool :=
  bool_decide (x ≠ 0) && bool_decide (turn_off_least_1bit x = 0).

(** hash.c 343-345 MIN_ELEMS_PER_BUCKET *)
Definition BEST_ELEMS_PER_BUCKET : Z := 2.

(** hash.c 371-372 rehash, the loop: each round clears one of the 32 bits *)
Fixpoint to_power_of_2 (fuel : nat) (x : Z) : outcome Z :=
  match fuel with
  | O => Err OutOfFuel
  | S fuel => if is_power_of_2 x then Ret x else to_power_of_2 fuel (turn_off_least_1bit x)
  end.

(** hash.c 365-372 rehash, the number of buckets *)
Definition new_bucket_cnt (elems : Z) : outcome Z :=
  let n := elems / BEST_ELEMS_PER_BUCKET in
  let n := if decide (n < 4) then 4 else n in
  to_power_of_2 33 n.

Section hash.
(** [hash (e, aux)] and [less (a, b, aux)], which look at the objects that the
    elements are embedded in. *)
Variable hash : Z → Z.
Variable less : Z → Z → bool.

(** ** Buckets *)

(** hash.c 304-310 find_bucket *)
Definition find_bucket (e : Z) : M hstate Z :=
  let! t := gets table in
  ret (bucket_at (buckets t) (Z.land (hash e) (u32 (bucket_cnt t - 1)))).

(** [!less (a, b) && !less (b, a)] *)
Definition alike (a b : Z) : bool := negb (less a b) && negb (less b a).

(** hash.c 319-324 find_elem, the loop *)
Fixpoint find_loop (fuel : nat) (i end_ e : Z) : M heap Z :=
  match fuel with
  | O => throw OutOfFuel
  | S fuel =>
      if decide (i = end_) then ret NULL
      else if alike i e then ret i
      else let! i := list_next i in find_loop fuel i end_ e
  end.

(** hash.c 312-326 find_elem *)
Definition find_elem (bucket e : Z) : M hstate Z :=
  on_mem (let! i := list_begin bucket in
    let! end_ := list_end bucket in
    rounds (λ n, find_loop n i end_ e)).

(** hash.c 415-421 insert_elem *)
Definition insert_elem (bucket e : Z) : M hstate unit :=
  modify (λ s, set_table (set_elem_cnt (u32 (elem_cnt (table s) + 1)) (table s)) s);;!
  on_mem (list_push_front bucket e).

(** hash.c 423-429 remove_elem *)
Definition remove_elem (e : Z) : M hstate unit :=
  modify (λ s, set_table (set_elem_cnt (u32 (elem_cnt (table s) - 1)) (table s)) s);;!
  on_mem (list_remove e;;! ret tt).

(** hash.c 400-410 rehash, the loop over one old bucket *)
Fixpoint move_loop (fuel : nat) (elem end_ : Z) : M hstate unit :=
  match fuel with
  | O => throw OutOfFuel
  | S fuel =>
      if decide (elem = end_) then ret tt
      else
        let! new_bucket := find_bucket elem in
        let! next := on_mem (list_next elem) in
        on_mem (list_remove elem);;!
        on_mem (list_push_front new_bucket elem);;!
        move_loop fuel next end_
  end.

(** hash.c 394-410 rehash, moving the elements of one old bucket *)
Definition move_bucket (old_buckets i : Z) : M hstate unit :=
  let old_bucket := bucket_at old_buckets i in
  let! elem := on_mem (list_begin old_bucket) in
  let! end_ := on_mem (list_end old_bucket) in
  list_rounds (λ n, move_loop n elem end_).

(** hash.c 347-413 rehash *)
Definition rehash : M hstate unit :=
  let! t := gets table in
  let old_buckets := buckets t in
  let old_bucket_cnt := bucket_cnt t in
  let! n := lift (new_bucket_cnt (elem_cnt t)) in
  if decide (n = old_bucket_cnt) then ret tt
  else
    let! new_buckets := malloc in
    match new_buckets with
    | None => ret tt
    | Some p =>
        for_each (Z.to_nat n) 0 (λ i, on_mem (list_init (bucket_at p i)));;!
        modify (λ s, set_table (set_buckets n p (table s)) s);;!
        for_each (Z.to_nat old_bucket_cnt) 0 (move_bucket old_buckets);;!
        free_buckets old_buckets old_bucket_cnt
    end.

(** ** Operations *)

(** hash.c 59-66 hash_clear, the loop that empties a bucket *)
Fixpoint clear_loop (fuel : nat) (destructor : Z → M hstate unit) (bucket : Z) : M hstate unit :=
  match fuel with
  | O => throw OutOfFuel
  | S fuel =>
      let! b := on_mem (list_empty bucket) in
      if (b : bool) then ret tt
      else
        let! e := on_mem (list_pop_front bucket) in
        destructor e;;!
        clear_loop fuel destructor bucket
  end.

(** hash.c 44-74 hash_clear *)
Definition hash_clear (destructor : option (Z → M hstate unit)) : M hstate unit :=
  let! t := gets table in
  for_each (Z.to_nat (bucket_cnt t)) 0 (λ i,
    let bucket := bucket_at (buckets t) i in
    match destructor with
    | Some d => list_rounds (λ n, clear_loop n d bucket)
    | None => ret tt
    end;;!
    on_mem (list_init bucket));;!
  modify (λ s, set_table (set_elem_cnt 0 (table s)) s).

(** hash.c 22-42 hash_init *)
Definition hash_init : M hstate bool :=
  let! p := malloc in
  modify (set_table (mkTable 0 4 (default NULL p)));;!
  match p with
  | Some _ => hash_clear None;;! ret true
  | None => ret false
  end.

(** hash.c 76-92 hash_destroy *)
Definition hash_destroy (destructor : option (Z → M hstate unit)) : M hstate unit :=
  match destructor with Some d => hash_clear (Some d) | None => ret tt end;;!
  let! t := gets table in free_buckets (buckets t) (bucket_cnt t).

(** hash.c 94-110 hash_insert *)
Definition hash_insert (new : Z) : M hstate Z :=
  let! bucket := find_bucket new in
  let! old := find_elem bucket new in
  (if decide (old = NULL) then insert_elem bucket new else ret tt);;!
  rehash;;!
  ret old.

(** hash.c 112-127 hash_replace *)
Definition hash_replace (new : Z) : M hstate Z :=
  let! bucket := find_bucket new in
  let! old := find_elem bucket new in
  (if decide (old ≠ NULL) then remove_elem old else ret tt);;!
  insert_elem bucket new;;!
  rehash;;!
  ret old.

(** hash.c 129-135 hash_find *)
Definition hash_find (e : Z) : M hstate Z :=
  let! bucket := find_bucket e in find_elem bucket e.

(** hash.c 137-154 hash_delete *)
Definition hash_delete (e : Z) : M hstate Z :=
  let! bucket := find_bucket e in
  let! found := find_elem bucket e in
  (if decide (found ≠ NULL) then remove_elem found;;! rehash else ret tt);;!
  ret found.

(** hash.c 173-178 hash_apply, the loop over a bucket *)
Fixpoint apply_loop (fuel : nat) (action : Z → M hstate unit) (elem end_ : Z) : M hstate unit :=
  match fuel with
  | O => throw OutOfFuel
  | S fuel =>
      if decide (elem = end_) then ret tt
      else
        let! next := on_mem (list_next elem) in
        action elem;;!
        apply_loop fuel action next end_
  end.

(** hash.c 156-180 hash_apply *)
Definition hash_apply (action : Z → M hstate unit) : M hstate unit :=
  let! t := gets table in
  for_each (Z.to_nat (bucket_cnt t)) 0 (λ i,
    let bucket := bucket_at (buckets t) i in
    let! elem := on_mem (list_begin bucket) in
    let! end_ := on_mem (list_end bucket) in
    list_rounds (λ n, apply_loop n action elem end_)).

(** hash.c 246-251 hash_size *)
Definition hash_size : M hstate Z := gets (λ s, elem_cnt (table s)).

(** hash.c 253-258 hash_empty *)
Definition hash_empty : M hstate bool := gets (λ s, bool_decide (elem_cnt (table s) = 0)).

(** ** Iteration *)

(** hash.h 69-75 hash_iterator.  [it_elem] is null at the end. *)
Record hash_iterator := mkIter { it_bucket : Z; it_elem : Z }.

(** hash.c 182-208 hash_first *)
Definition hash_first : M hstate hash_iterator :=
  let! t := gets table in
  let! h := on_mem (list_head (buckets t)) in
  ret (mkIter (buckets t) h).

(** hash.c 224-232 hash_next, the loop *)
Fixpoint next_loop (fuel : nat) (i : hash_iterator) : M hstate hash_iterator :=
  match fuel with
  | O => throw OutOfFuel
  | S fuel =>
      let! end_ := on_mem (list_end (it_bucket i)) in
      if decide (it_elem i = end_) then
        let! t := gets table in
        let bucket := bucket_at (it_bucket i) 1 in
        if decide (bucket_at (buckets t) (bucket_cnt t) ≤ bucket) then ret (mkIter bucket NULL)
        else
          let! b := on_mem (list_begin bucket) in
          next_loop fuel (mkIter bucket b)
      else ret i
  end.

(** hash.c 210-235 hash_next.  The loop ends after the last bucket. *)
Definition hash_next (i : hash_iterator) : M hstate hash_iterator :=
  let! e := on_mem (list_next (it_elem i)) in
  let! t := gets table in
  next_loop (S (Z.to_nat (bucket_cnt t))) (mkIter (it_bucket i) e).

(** hash.c 237-244 hash_cur *)
Definition hash_cur (i : hash_iterator) : Z := it_elem i.
End hash.

(** ** Hash functions *)

(** hash.c 261-262 FNV_32_PRIME *)
Definition FNV_32_PRIME : Z := 16777619.
Definition FNV_32_BASIS : Z := 2166136261.

(** hash.c 264-279 hash_bytes, of the bytes in the buffer *)
Definition hash_bytes (buf : list Z) : Z :=
  foldl (λ h b, Z.lxor (u32 (h * FNV_32_PRIME)) b) FNV_32_BASIS buf.

(** hash.c 281-295 hash_string, of the bytes before the terminator *)
Definition hash_string (s : list Z) : Z :=
  foldl (λ h b, Z.lxor (u32 (h * FNV_32_PRIME)) b) FNV_32_BASIS s.

(** hash.c 297-302 hash_int *)
Definition hash_int (i : Z) : Z := hash_bytes (le32 (u32 i)).

Example hash_sixteen_elements :
  match (for_each 40 1 (λ i, hash_insert (λ e, e) Z.ltb (i * 100);;! ret tt);;!
         let! a := hash_find (λ e, e) Z.ltb 700 in let! b := hash_find (λ e, e) Z.ltb 701 in
         hash_delete (λ e, e) Z.ltb 700;;!
         let! c := hash_find (λ e, e) Z.ltb 700 in
         ret (a, b, c))
    (match hash_init (mkH (list_to_map ((λ i, (100 * i, mkElem 0 0)) <$> seqZ 1 40)) (mkTable 0 0 0)
       [Some 100000; Some 200000; Some 300000; None; Some 400000]) with Ret (_, s) => s | _ => mkH ∅ (mkTable 0 0 0) [] end) with
  | Ret (r, s) => Some (r, elem_cnt (table s), bucket_cnt (table s), size (mem s))
  | Err _ => None
  end = Some (700, 0, 0, 39, 16, 72%nat).
Proof. vm_compute. reflexivity. Qed.
