(* ===== verification/HashLaws.v ===== *)
(** Many lists in one memory, and moving the elements of a hash table into
    another array of buckets.
    First, the number of buckets that hash.c chooses: the largest power of 2 up to half
    the number of elements. *)
From S2P Require Import Prelude LinkedList LinkedListLaws LinkedListOps LinkedListSort Hash.
Local Open Scope Z_scope.

(** ** The number of buckets *)

(** A positive number is an odd one times a power of 2. *)
Lemma odd_part x : 0 < x → ∃ k m, 0 ≤ k ∧ 0 ≤ m ∧ x = 2 ^ k * (2 * m + 1).
Proof.
  destruct x as [|p|p]; [lia| |lia]. intros _. induction p as [p IH|p IH|].
  - exists 0, (Z.pos p). lia.
  - destruct IH as (k & m & Hk & Hm & E). exists (k + 1), m. rewrite Z.pow_add_r by lia. lia.
  - exists 0, 0. lia.
Qed.

Lemma land_double a b : Z.land (2 * a) (2 * b + 1) = 2 * Z.land a b.
Proof.
  apply Z.bits_inj'. intros n Hn. rewrite Z.land_spec. destruct (decide (n = 0)) as [->|].
  - by rewrite !Z.testbit_even_0.
  - replace n with (Z.succ (n - 1)) by lia.
    rewrite !Z.testbit_even_succ, Z.testbit_odd_succ, Z.land_spec by lia. done.
Qed.

Lemma land_pred_odd k m : 0 ≤ k → 0 ≤ m →
  Z.land (2 ^ k * (2 * m + 1)) (2 ^ k * (2 * m + 1) - 1) = 2 ^ (k + 1) * m.
Proof.
  intros Hk Hm. revert k Hk. apply natlike_ind.
  - replace (2 ^ 0 * (2 * m + 1)) with (2 * m + 1) by lia.
    replace (2 * m + 1 - 1) with (2 * m) by lia. rewrite Z.land_comm, land_double, Z.land_diag. done.
  - intros k Hk IH. rewrite !Z.pow_succ_r by lia.
    replace (2 * 2 ^ k * (2 * m + 1)) with (2 * (2 ^ k * (2 * m + 1))) by lia.
    set (y := 2 ^ k * (2 * m + 1)) in *.
    replace (2 * y - 1) with (2 * (y - 1) + 1) by lia. rewrite land_double, IH.
    replace (Z.succ k + 1) with (Z.succ (k + 1)) by lia. rewrite Z.pow_succ_r by lia. lia.
Qed.

Lemma turn_off_odd k m : 0 ≤ k → 0 ≤ m → 2 ^ k * (2 * m + 1) < 4294967296 →
  turn_off_least_1bit (2 ^ k * (2 * m + 1)) = 2 ^ (k + 1) * m.
Proof.
  intros Hk Hm Hx. unfold turn_off_least_1bit. pose proof (Z.pow_pos_nonneg 2 k).
  rewrite u32_small by nia. by apply land_pred_odd.
Qed.

Lemma odd_ne_even m y : 2 * m + 1 ≠ 2 * y.
Proof. lia. Qed.

(** Clearing the lowest bit of a number that has others keeps the highest one. *)
Lemma log2_cleared k m : 0 ≤ k → 0 < m → Z.log2 (2 ^ k * (2 * m + 1)) = Z.log2 (2 ^ (k + 1) * m).
Proof.
  intros Hk Hm. pose proof (Z.pow_pos_nonneg 2 k).
  assert (Z.log2 (2 * m + 1) = Z.log2 (2 * m)) as E by (by rewrite Z.log2_succ_double, Z.log2_double by lia).
  rewrite (Z.mul_comm (2 ^ k)), (Z.mul_comm (2 ^ (k + 1))), !Z.log2_mul_pow2 by lia.
  rewrite E, Z.log2_double by lia. lia.
Qed.

Lemma to_power_of_2_ok fuel : ∀ x k z,
  x = 2 ^ k * z → 0 < x < 4294967296 → 0 ≤ k → 32 ≤ k + Z.of_nat fuel →
  to_power_of_2 fuel x = Ret (2 ^ Z.log2 x).
Proof.
  induction fuel as [|fuel IH]; intros x k z Ex Hx Hk Hf.
  { assert (4294967296 ≤ 2 ^ k) by (apply (Z.pow_le_mono_r 2 32 k); lia). assert (0 < z) by nia. nia. }
  destruct (odd_part x) as (j & m & Hj & Hm & E); [lia|]. cbn [to_power_of_2]. unfold is_power_of_2.
  rewrite bool_decide_true by lia. simpl.
  rewrite E. rewrite turn_off_odd by lia. pose proof (Z.pow_pos_nonneg 2 (j + 1)).
  destruct (decide (m = 0)) as [->|Hm0].
  - rewrite bool_decide_true by lia. replace (2 ^ j * (2 * 0 + 1)) with (2 ^ j) by lia.
    by rewrite Z.log2_pow2.
  - rewrite bool_decide_false by nia. rewrite log2_cleared by lia.
    apply (IH _ (j + 1) m); [done| |lia|].
    + split; [nia|]. assert (2 ^ (j + 1) = 2 * 2 ^ j) by (rewrite Z.pow_add_r; lia). nia.
    + assert (k ≤ j); [|lia]. apply Z.nlt_ge. intros Hlt. apply (odd_ne_even m (2 ^ (k - j - 1) * z)).
      apply (Z.mul_reg_l _ _ (2 ^ j)); [lia|]. rewrite <-E, Ex.
      replace k with (j + 1 + (k - j - 1)) at 1 by lia. rewrite !Z.pow_add_r by lia. lia.
Qed.

(** At least 4 buckets, and for more than 8 elements at least 2 and fewer than 4
    elements per bucket. *)
Lemma new_bucket_cnt_ok n : 0 ≤ n < 4294967296 →
  ∃ k, new_bucket_cnt n = Ret (2 ^ k) ∧ 2 ≤ k < 31 ∧
    (n < 10 → 2 ^ k = 4) ∧ (8 ≤ n → 2 * 2 ^ k ≤ n < 4 * 2 ^ k + 2).
Proof.
  intros Hn. unfold new_bucket_cnt, BEST_ELEMS_PER_BUCKET.
  set (x := if decide (n / 2 < 4) then 4 else n / 2).
  assert (4 ≤ x < 2147483648) as Hx by (subst x; case_decide; mlia).
  exists (Z.log2 x). split; [|split; [|split]].
  - apply (to_power_of_2_ok 33 x 0 x); lia.
  - split; [apply (Z.log2_le_mono 4 x); lia|]. apply Z.log2_lt_pow2; [lia|]. change (2 ^ 31) with 2147483648. lia.
  - intros Hlt. assert (x = 4) as -> by (subst x; case_decide; mlia). done.
  - intros Hge. pose proof (Z.log2_spec x) as [H1 H2]; [lia|]. rewrite Z.pow_succ_r in H2 by apply Z.log2_nonneg.
    assert (x = n / 2) as E by (subst x; case_decide; mlia). rewrite E in *. mlia.
Qed.

(** ** Many lists *)

(** The addresses of lists, with their elements; the memory of each is its own. *)
Definition lists (h : heap) (L : list (Z * list Z)) : Prop :=
  Forall (λ x, lrep h x.1 x.2) L ∧ NoDup (L ≫= λ x, whole x.1 x.2).

Definition wholes (L : list (Z * list Z)) : list Z := L ≫= λ x, whole x.1 x.2.

Lemma wholes_cons l xs L : wholes ((l, xs) :: L) = whole l xs ++ wholes L.
Proof. done. Qed.
Lemma wholes_app L L' : wholes (L ++ L') = wholes L ++ wholes L'.
Proof. apply bind_app. Qed.

#[export] Instance lists_perm h : Proper ((≡ₚ) ==> iff) (lists h).
Proof. intros L L' E. unfold lists. by rewrite E. Qed.
#[export] Instance wholes_perm : Proper ((≡ₚ) ==> (≡ₚ)) wholes.
Proof. intros L L' E. unfold wholes. by rewrite E. Qed.

Lemma lists_cons h l xs L :
  lists h ((l, xs) :: L) ↔ lrep h l xs ∧ lists h L ∧ ∀ x, x ∈ whole l xs → x ∉ wholes L.
Proof.
  unfold lists. fold (wholes ((l, xs) :: L)) (wholes L). rewrite wholes_cons, Forall_cons, NoDup_app. split; [tauto|]. intros (Hl & [HL Hnd] & Hd). split_and!; try done.
  apply (ch_nodup _ _ Hl).
Qed.

Lemma lists_same h h' L : lists h L → (∀ x, x ∈ wholes L → h' !! x = h !! x) → lists h' L.
Proof.
  intros [HL Hnd] Hs. split; [|done]. rewrite Forall_forall in *. intros x Hx.
  apply (lrep_frame h); [by apply HL|]. intros y Hy. apply Hs. apply list_elem_of_bind. eauto.
Qed.

(** Another list changes; the new memory it uses is in no other list. *)
Lemma lists_step h h' l xs xs' ws L :
  lists h ((l, xs) :: L) → lrep h' l xs' → within ws h h' →
  (∀ x, x ∈ ws ∨ x ∈ whole l xs' → x ∉ wholes L) → lists h' ((l, xs') :: L).
Proof.
  intros (Hl & HL & Hd)%lists_cons Hl' Hw Hnew. apply lists_cons. split; [done|]. split.
  - apply (lists_same h); [done|]. intros x Hx. apply (wi_same _ _ _ Hw). intros Hin.
    by apply (Hnew x); [left|].
  - intros x Hx. apply Hnew. by right.
Qed.

Lemma lists_nonnull h L x : lists h L → x ∈ wholes L → x ≠ NULL.
Proof.
  intros [HL _] (y & Hy & Hx)%list_elem_of_bind. rewrite Forall_forall in HL.
  by eapply chain_nonnull; [apply HL|].
Qed.
Lemma lists_some h L x : lists h L → x ∈ wholes L → is_Some (h !! x).
Proof.
  intros [HL _] (y & Hy & Hx)%list_elem_of_bind. rewrite Forall_forall in HL.
  by eapply lrep_some; [apply HL|].
Qed.

Lemma elem_whole l xs x : x ∈ whole l xs ↔ x = head_of l ∨ x ∈ xs ∨ x = tail_of l.
Proof. unfold whole. set_solver. Qed.

Lemma lists_remove h l xs e ys L :
  lists h ((l, xs ++ e :: ys) :: L) →
  ∃ h', list_remove e h = Ret (cursor ys (tail_of l), h') ∧ lists h' ((l, xs ++ ys) :: L) ∧
    (e ∉ wholes ((l, xs ++ ys) :: L)) ∧ h' !! e = h !! e ∧ within (whole l (xs ++ e :: ys)) h h'.
Proof.
  intros Hl. pose proof Hl as (Hr & HL & Hd)%lists_cons.
  destruct (list_remove_ok h l xs e ys Hr) as (h' & Hrun & Hr' & Hw & Hsame). exists h'.
  assert (∀ x, x ∈ whole l (xs ++ ys) → x ∈ whole l (xs ++ e :: ys)) as Hsub
    by (intros x; rewrite !elem_whole; set_solver).
  split_and!; [done| |  |done|done].
  - eapply lists_step; [done|done|done|]. intros x [Hx|Hx]; apply Hd; [done|by apply Hsub].
  - rewrite wholes_cons, elem_of_app. intros [He|He].
    + pose proof (ch_nodup _ _ Hr) as Hnd.
      assert (whole l (xs ++ e :: ys) ≡ₚ e :: whole l (xs ++ ys)) as Hp.
      { unfold whole. rewrite <-!app_assoc. simpl. by rewrite <-!Permutation_middle, Permutation_swap. }
      rewrite Hp in Hnd. by apply NoDup_cons in Hnd as [? _].
    + apply (Hd e); [|done]. rewrite elem_whole. set_solver.
Qed.

Lemma lists_push h l xs e L :
  lists h ((l, xs) :: L) → e ∉ wholes ((l, xs) :: L) → e ≠ NULL → is_Some (h !! e) →
  ∃ h', list_push_front l e h = Ret (tt, h') ∧ lists h' ((l, e :: xs) :: L) ∧ within (e :: whole l xs) h h'.
Proof.
  intros Hl He Hn Hs. pose proof Hl as (Hr & HL & Hd)%lists_cons.
  rewrite wholes_cons, not_elem_of_app in He. destruct He as [He HeL].
  destruct (list_push_front_ok h l xs e Hr He Hn Hs) as (h' & Hrun & Hr' & Hw). exists h'.
  split_and!; [done| |done]. eapply lists_step; [done|done|done|]. intros x Hx.
  assert (x = e ∨ x ∈ whole l xs) as [->|?]; [|done|by apply Hd].
  destruct Hx as [Hx|Hx]; [set_solver|]. rewrite elem_whole in Hx |- *. set_solver.
Qed.

Lemma lists_init h l L :
  lists h L → l ≠ NULL → tail_of l ≠ NULL → head_of l ∉ wholes L → tail_of l ∉ wholes L →
  ∃ h', list_init l h = Ret (tt, h') ∧ lists h' ((l, []) :: L) ∧
    ∀ x, x ≠ head_of l → x ≠ tail_of l → h' !! x = h !! x.
Proof.
  intros HL Hl Ht Hh Htl. destruct (list_init_ok h l Hl Ht) as (h' & Hrun & Hr & Hs). exists h'.
  split_and!; [done| |done]. apply lists_cons. split; [done|]. split.
  - apply (lists_same h); [done|]. intros x Hx. apply Hs; intros ->; done.
  - intros x. rewrite elem_whole. intros [->|[Hx| ->]]; [done|by apply elem_of_nil in Hx|done].
Qed.

(** ** Arrays of lists *)
Definition tableau (base : Z) (xss : list (list Z)) : list (Z * list Z) :=
  imap (λ i xs, (bucket_at base (Z.of_nat i), xs)) xss.

Lemma tableau_lookup base xss i xs : xss !! i = Some xs →
  ∃ L, tableau base xss ≡ₚ (bucket_at base (Z.of_nat i), xs) :: L ∧
    ∀ ys, tableau base (<[i:=ys]> xss) ≡ₚ (bucket_at base (Z.of_nat i), ys) :: L.
Proof.
  intros Hi. exists (imap (λ i xs, (bucket_at base (Z.of_nat i), xs)) (take i xss) ++
    imap (λ j xs, (bucket_at base (Z.of_nat (S i + j)), xs)) (drop (S i) xss)).
  assert (length (take i xss) = i) as Hlen by (rewrite length_take; apply lookup_lt_Some in Hi; lia).
  assert (∀ ys, tableau base (take i xss ++ ys :: drop (S i) xss) ≡ₚ (bucket_at base (Z.of_nat i), ys) ::
    imap (λ i xs, (bucket_at base (Z.of_nat i), xs)) (take i xss) ++
    imap (λ j xs, (bucket_at base (Z.of_nat (S i + j)), xs)) (drop (S i) xss)) as H.
  { intros ys. unfold tableau. rewrite imap_app. simpl. rewrite Hlen, Nat.add_0_r.
    rewrite <-Permutation_middle. f_equiv. f_equiv. apply reflexive_eq, imap_ext. intros j x _. simpl.
    do 3 f_equal. lia. }
  split.
  - rewrite <-(take_drop_middle xss i xs Hi) at 1. apply H.
  - intros ys. rewrite insert_take_drop by by eapply lookup_lt_Some. apply H.
Qed.

Lemma tableau_elem base xss e : e ∈ mjoin xss → e ∈ wholes (tableau base xss).
Proof.
  intros (xs & He & Hxs)%list_elem_of_join. apply list_elem_of_lookup_1 in Hxs as [i Hi].
  apply list_elem_of_bind. exists (bucket_at base (Z.of_nat i), xs). split.
  - simpl. rewrite elem_whole. auto.
  - unfold tableau. apply list_elem_of_lookup_2 with i. rewrite list_lookup_imap, Hi. done.
Qed.

(** What memory an array of lists takes. *)
Definition ends (base : Z) (n : nat) (x : Z) : Prop :=
  ∃ i, (i < n)%nat ∧ (x = head_of (bucket_at base (Z.of_nat i)) ∨ x = tail_of (bucket_at base (Z.of_nat i))).

Lemma tableau_wholes base xss x : x ∈ wholes (tableau base xss) ↔ x ∈ mjoin xss ∨ ends base (length xss) x.
Proof.
  unfold wholes. rewrite list_elem_of_bind. split.
  - intros ([l xs] & Hx & (i & Hi)%list_elem_of_lookup_1). unfold tableau in Hi. rewrite list_lookup_imap in Hi.
    destruct (xss !! i) as [ys|] eqn:E; simplify_eq/=. rewrite elem_whole in Hx.
    assert (i < length xss)%nat by by eapply lookup_lt_Some.
    destruct Hx as [->|[Hx| ->]]; [right; exists i; auto| |right; exists i; auto].
    left. apply list_elem_of_join. exists xs. split; [done|by eapply list_elem_of_lookup_2].
  - intros [(ys & Hx & (i & Hi)%list_elem_of_lookup_1)%list_elem_of_join|(i & Hlt & Hx)].
    + exists (bucket_at base (Z.of_nat i), ys). simpl. rewrite elem_whole. split; [auto|].
      apply list_elem_of_lookup_2 with i. unfold tableau. by rewrite list_lookup_imap, Hi.
    + destruct (lookup_lt_is_Some_2 xss i Hlt) as [ys Hi]. exists (bucket_at base (Z.of_nat i), ys).
      simpl. rewrite elem_whole. split; [naive_solver|].
      apply list_elem_of_lookup_2 with i. unfold tableau. by rewrite list_lookup_imap, Hi.
Qed.

Lemma wholes_moved base l x xs yss yss1 L y :
  mjoin yss1 ≡ₚ x :: mjoin yss → length yss1 = length yss →
  y ∈ wholes ((l, xs) :: tableau base yss1 ++ L) → y ∈ wholes ((l, x :: xs) :: tableau base yss ++ L).
Proof.
  intros Hj Hlen. rewrite !wholes_cons, !wholes_app, !elem_of_app, !elem_whole, !tableau_wholes, Hj, Hlen.
  rewrite !elem_of_cons. tauto.
Qed.

(** ** Placing elements *)
Section moving.
Context (hash : Z → Z).

(** The bucket of [e] among [n]. *)
Definition slot_of (n e : Z) : Z := Z.land (hash e) (u32 (n - 1)).

(** Each element is in its bucket, and the number of buckets is a power of 2. *)
Definition placed (xss : list (list Z)) : Prop :=
  (∃ k, 0 ≤ k < 32 ∧ Z.of_nat (length xss) = 2 ^ k) ∧
  ∀ i xs e, xss !! i = Some xs → e ∈ xs → slot_of (Z.of_nat (length xss)) e = Z.of_nat i.

Lemma slot_range k e : 0 ≤ k < 32 → 0 ≤ slot_of (2 ^ k) e < 2 ^ k.
Proof.
  intros Hk. unfold slot_of. assert (0 < 2 ^ k) by (apply Z.pow_pos_nonneg; lia).
  assert (2 ^ k < 2 ^ 32) by (apply Z.pow_lt_mono_r; lia). change (2 ^ 32) with 4294967296 in *.
  rewrite u32_small by lia. rewrite Z.sub_1_r, <-Z.ones_equiv, Z.land_ones by lia. by apply Z.mod_pos_bound.
Qed.

Lemma placed_bucket xss e : placed xss →
  ∃ i xs, slot_of (Z.of_nat (length xss)) e = Z.of_nat i ∧ xss !! i = Some xs.
Proof.
  intros [(k & Hk & El) _]. pose proof (slot_range k e Hk) as Hr. rewrite El.
  exists (Z.to_nat (slot_of (2 ^ k) e)). destruct (lookup_lt_is_Some_2 xss (Z.to_nat (slot_of (2 ^ k) e)))
    as [xs Hxs]; [lia|]. exists xs. split; [lia|done].
Qed.

Lemma placed_insert xss i ys :
  placed xss → (∀ e, e ∈ ys → slot_of (Z.of_nat (length xss)) e = Z.of_nat i) → placed (<[i:=ys]> xss).
Proof.
  intros [Hk Hp] Hys. split; [by rewrite length_insert|]. rewrite length_insert. intros j xs e Hj He.
  apply list_lookup_insert_Some in Hj as [(-> & <- & _)|[_ Hj]]; [by apply Hys|by eapply Hp].
Qed.

Lemma join_insert (xss : list (list Z)) i xs ys zs :
  xss !! i = Some xs → ys ≡ₚ zs ++ xs → mjoin (<[i:=ys]> xss) ≡ₚ zs ++ mjoin xss.
Proof.
  intros Hi E. rewrite insert_take_drop by by eapply lookup_lt_Some.
  rewrite <-(take_drop_middle xss i xs Hi) at 3. rewrite !join_app. simpl. rewrite E.
  rewrite <-!app_assoc, !(Permutation_app_comm (mjoin (take i xss))), <-!app_assoc. done.
Qed.

Lemma join_insert_nil (xss : list (list Z)) i xs :
  xss !! i = Some xs → mjoin xss ≡ₚ xs ++ mjoin (<[i:=[]]> xss).
Proof.
  intros Hi. pose proof (lookup_lt_Some _ _ _ Hi).
  rewrite <-(join_insert (<[i:=[]]> xss) i [] xs xs); [|by apply list_lookup_insert_eq|by rewrite app_nil_r].
  by rewrite list_insert_insert_eq, list_insert_id.
Qed.

Lemma find_bucket_run e s : find_bucket hash e s =
  Ret (bucket_at (buckets (table s)) (slot_of (bucket_cnt (table s)) e), s).
Proof. done. Qed.

Lemma on_mem_run {A} (m : M heap A) s a h : m (mem s) = Ret (a, h) → on_mem m s = Ret (a, set_mem h s).
Proof. unfold on_mem, zoom. by intros ->. Qed.

Lemma on_mem_read {A} (m : M heap A) s a : m (mem s) = Ret (a, mem s) → on_mem m s = Ret (a, s).
Proof. unfold on_mem, zoom. intros ->. by destruct s. Qed.

(** Memory outside of [ws] is as before, and none has disappeared. *)
Definition kept (ws : list Z) (h h' : heap) : Prop :=
  (∀ x, x ∉ ws → h' !! x = h !! x) ∧ ∀ x, is_Some (h !! x) → is_Some (h' !! x).

Lemma kept_refl ws h : kept ws h h.
Proof. by split. Qed.
Lemma kept_trans ws h1 h2 h3 : kept ws h1 h2 → kept ws h2 h3 → kept ws h1 h3.
Proof. intros [A B] [C D]. split; [|auto]. intros x Hx. by rewrite C, A. Qed.
Lemma within_kept ws ws' h h' : within ws h h' → (∀ x, x ∈ ws → x ∈ ws') → kept ws' h h'.
Proof. intros [A B _] Hs. split; [|done]. intros x Hx. apply A. auto. Qed.
Lemma kept_mono ws ws' h h' : kept ws h h' → (∀ x, x ∈ ws → x ∈ ws') → kept ws' h h'.
Proof. intros [A B] Hs. split; [|done]. auto. Qed.

(** One element moves from the old bucket at [l] to its new one. *)
Lemma move_one s l x xs yss L :
  lists (mem s) ((l, x :: xs) :: tableau (buckets (table s)) yss ++ L) →
  bucket_cnt (table s) = Z.of_nat (length yss) → placed yss →
  ∃ h1 h2 yss', list_remove x (mem s) = Ret (cursor xs (tail_of l), h1) ∧
    list_push_front (bucket_at (buckets (table s)) (slot_of (bucket_cnt (table s)) x)) x h1 = Ret (tt, h2) ∧
    lists h2 ((l, xs) :: tableau (buckets (table s)) yss' ++ L) ∧ placed yss' ∧
    length yss' = length yss ∧ mjoin yss' ≡ₚ x :: mjoin yss ∧
    kept (wholes ((l, x :: xs) :: tableau (buckets (table s)) yss ++ L)) (mem s) h2.
Proof.
  intros Hl Hcnt Hp. set (base := buckets (table s)) in *. rewrite Hcnt.
  destruct (placed_bucket yss x Hp) as (i & ys & Es & Hi). rewrite Es.
  destruct (tableau_lookup base yss i ys Hi) as (T & ET & ET').
  destruct (lists_remove (mem s) l [] x xs _ Hl) as (h1 & Hrem & Hl1 & Hx & Hsame & Hw1).
  assert ((l, xs) :: tableau base yss ++ L ≡ₚ (bucket_at base (Z.of_nat i), ys) :: (l, xs) :: T ++ L) as E1.
  { rewrite ET. simpl. apply Permutation_swap. }
  change ([] ++ xs) with xs in Hl1, Hx. rewrite E1 in Hl1, Hx.
  destruct (lists_push h1 _ ys x _ Hl1 Hx) as (h2 & Hpush & Hl2 & Hw2).
  { eapply lists_nonnull; [exact Hl|]. rewrite wholes_cons, elem_of_app, elem_whole. set_solver. }
  { rewrite Hsame. eapply lists_some; [exact Hl|]. rewrite wholes_cons, elem_of_app, elem_whole. set_solver. }
  exists h1, h2, (<[i:=x :: ys]> yss). split_and!; [done|done| | |by rewrite length_insert| |].
  - rewrite ET'. simpl. by rewrite Permutation_swap.
  - apply placed_insert; [done|]. intros e [->|He]%elem_of_cons; [done|]. by eapply (proj2 Hp).
  - by apply (join_insert yss i ys (x :: ys) [x]).
  - eapply kept_trans; eapply within_kept; [exact Hw1| |exact Hw2|].
    + intros y Hy. rewrite wholes_cons, elem_of_app. by left.
    + intros y Hy. rewrite ET, <-app_comm_cons. rewrite !wholes_cons, !elem_of_app, !elem_whole.
      rewrite elem_of_cons, elem_whole in Hy. set_solver.
Qed.

Lemma move_loop_ok xs : ∀ fuel s l yss L,
  lists (mem s) ((l, xs) :: tableau (buckets (table s)) yss ++ L) →
  bucket_cnt (table s) = Z.of_nat (length yss) → placed yss → (length xs < fuel)%nat →
  ∃ h yss', move_loop hash fuel (cursor xs (tail_of l)) (tail_of l) s = Ret (tt, set_mem h s) ∧
    lists h ((l, []) :: tableau (buckets (table s)) yss' ++ L) ∧ placed yss' ∧
    length yss' = length yss ∧ mjoin yss' ≡ₚ xs ++ mjoin yss ∧
    kept (wholes ((l, xs) :: tableau (buckets (table s)) yss ++ L)) (mem s) h.
Proof.
  induction xs as [|x xs IH]; intros [|fuel] s l yss L Hl Hcnt Hp Hf; simpl in Hf; try lia; cbn [move_loop].
  - rewrite decide_True by done. exists (mem s), yss. split_and!; [by destruct s|done..|apply kept_refl].
  - pose proof Hl as (Hr & _ & _)%lists_cons.
    rewrite decide_False by (by rewrite (cursor_tail (mem s) l [] (x :: xs) Hr)).
    change (cursor (x :: xs) (tail_of l)) with x.
    destruct (move_one s l x xs yss L Hl Hcnt Hp) as (h1 & h2 & yss1 & Hrem & Hpush & Hl2 & Hp2 & Hlen & Hj & Hk).
    rewrite (bind_run _ _ _ _ _ (find_bucket_run x s)).
    rewrite (bind_run _ _ _ _ _ (on_mem_read _ _ _ (list_next_ok (mem s) l [] x xs Hr))).
    rewrite (bind_run _ _ _ _ _ (on_mem_run _ _ _ _ Hrem)).
    rewrite (bind_run _ _ _ _ _ (on_mem_run _ (set_mem h1 s) _ _ Hpush)).
    set (s2 := set_mem h2 (set_mem h1 s)).
    destruct (IH fuel s2 l yss1 L) as (h & yss' & Hrun & Hl' & Hp' & Hlen' & Hj' & Hk');
      [done|by rewrite Hlen|done|lia|].
    exists h, yss'. split_and!; [exact Hrun|done|done|by rewrite Hlen'| |].
    + rewrite Hj', Hj. by rewrite <-Permutation_middle.
    + eapply kept_trans; [exact Hk|]. eapply kept_mono; [exact Hk'|]. intros y Hy.
      change (buckets (table s2)) with (buckets (table s)) in Hy.
      apply (wholes_moved (buckets (table s)) l x xs yss yss1 L); [done|done|exact Hy].
Qed.

Lemma move_bucket_ok s ob i xs yss L :
  lists (mem s) ((bucket_at ob i, xs) :: tableau (buckets (table s)) yss ++ L) →
  bucket_cnt (table s) = Z.of_nat (length yss) → placed yss →
  ∃ h yss', move_bucket hash ob i s = Ret (tt, set_mem h s) ∧
    lists h ((bucket_at ob i, []) :: tableau (buckets (table s)) yss' ++ L) ∧ placed yss' ∧
    length yss' = length yss ∧ mjoin yss' ≡ₚ xs ++ mjoin yss ∧
    kept (wholes ((bucket_at ob i, xs) :: tableau (buckets (table s)) yss ++ L)) (mem s) h.
Proof.
  intros Hl Hcnt Hp. pose proof Hl as (Hr & _ & _)%lists_cons. unfold move_bucket.
  rewrite (bind_run _ _ _ _ _ (on_mem_read _ _ _ (list_begin_run _ _ _ Hr))).
  rewrite (bind_run _ _ _ _ _ (on_mem_read _ _ _ (list_end_run _ _ (lrep_nonnull _ _ _ Hr)))).
  unfold list_rounds. apply (move_loop_ok xs); [done..|].
  pose proof (chain_size (mem s) (whole (bucket_at ob i) xs)) as Hsz.
  rewrite length_whole in Hsz. specialize (Hsz ltac:(lia) Hr). lia.
Qed.

(** Moving everything from the old array, from bucket [i] on. *)
Lemma move_all_ok ob n : ∀ i s yss zss,
  lists (mem s) (tableau (buckets (table s)) yss ++ tableau ob zss) →
  bucket_cnt (table s) = Z.of_nat (length yss) → placed yss → length zss = (i + n)%nat →
  ∃ h yss' zss', for_each n (Z.of_nat i) (move_bucket hash ob) s = Ret (tt, set_mem h s) ∧
    lists h (tableau (buckets (table s)) yss' ++ tableau ob zss') ∧ placed yss' ∧
    length yss' = length yss ∧ length zss' = length zss ∧
    mjoin yss' ≡ₚ mjoin (drop i zss) ++ mjoin yss ∧
    kept (wholes (tableau (buckets (table s)) yss ++ tableau ob zss)) (mem s) h.
Proof.
  induction n as [|n IH]; intros i s yss zss Hl Hcnt Hp Hlen; cbn [for_each].
  - exists (mem s), yss, zss. rewrite drop_ge by lia.
    split_and!; [by destruct s|done..|apply kept_refl].
  - destruct (lookup_lt_is_Some_2 zss i) as [xs Hi]; [lia|].
    destruct (tableau_lookup ob zss i xs Hi) as (T & ET & ET').
    assert (∀ Y (ws : list Z) T', Y ++ (bucket_at ob (Z.of_nat i), ws) :: T' ≡ₚ
      (bucket_at ob (Z.of_nat i), ws) :: Y ++ T') as Hmid by (intros; by rewrite <-Permutation_middle).
    pose proof Hl as Hl0. rewrite ET, Hmid in Hl0.
    destruct (move_bucket_ok s ob (Z.of_nat i) xs yss T Hl0 Hcnt Hp)
      as (h1 & yss1 & Hrun1 & Hl1 & Hp1 & Hlen1 & Hj1 & Hk1).
    rewrite (bind_run _ _ _ _ _ Hrun1). rewrite <-Hmid, <-ET' in Hl1.
    destruct (IH (S i) (set_mem h1 s) yss1 (<[i:=[]]> zss)) as (h & yss' & zss' & Hrun & Hl' & Hp' & Hlen' & Hlz & Hj' & Hk');
      [done|by rewrite Hlen1|done|rewrite length_insert; lia|].
    exists h, yss', zss'. split_and!; [|done|done|by rewrite Hlen'|by rewrite Hlz, length_insert| |].
    + replace (Z.of_nat i + 1) with (Z.of_nat (S i)) by lia. by rewrite Hrun.
    + rewrite Hj', Hj1, drop_insert_lt by lia. rewrite (drop_S zss xs i Hi). simpl.
      by rewrite <-!app_assoc, Permutation_app_swap_app.
    + eapply kept_trans.
      * eapply kept_mono; [exact Hk1|]. intros x. by rewrite ET, Hmid.
      * eapply kept_mono; [exact Hk'|]. intros x. simpl.
        rewrite !wholes_app, !elem_of_app, !tableau_wholes, Hj1, Hlen1, length_insert, elem_of_app.
        rewrite (join_insert_nil zss i xs Hi), elem_of_app. tauto.
Qed.

(** Initialising a new array. *)
Lemma tableau_snoc base xss xs :
  tableau base (xss ++ [xs]) ≡ₚ (bucket_at base (Z.of_nat (length xss)), xs) :: tableau base xss.
Proof. unfold tableau. rewrite imap_app. simpl. rewrite Nat.add_0_r. by rewrite Permutation_app_comm. Qed.

Lemma join_replicate_nil n : mjoin (replicate n ([] : list Z)) = [].
Proof. by induction n. Qed.

Lemma init_ok p n : ∀ i s L,
  lists (mem s) (tableau p (replicate i []) ++ L) → 0 < p →
  (∀ x, p ≤ x < p + 16 * Z.of_nat (i + n) → x ∉ wholes L) →
  ∃ h, for_each n (Z.of_nat i) (λ i, on_mem (list_init (bucket_at p i))) s = Ret (tt, set_mem h s) ∧
    lists h (tableau p (replicate (i + n) []) ++ L) ∧
    kept (wholes (tableau p (replicate (i + n) []))) (mem s) h.
Proof.
  induction n as [|n IH]; intros i s L Hl Hpos Hfr; cbn [for_each].
  - exists (mem s). rewrite Nat.add_0_r. split_and!; [by destruct s|done|apply kept_refl].
  - assert (∀ x, x = head_of (bucket_at p (Z.of_nat i)) ∨ x = tail_of (bucket_at p (Z.of_nat i)) →
      x ∉ wholes (tableau p (replicate i []) ++ L)) as Hnew.
    { intros x Hx. rewrite wholes_app, elem_of_app, tableau_wholes, join_replicate_nil, length_replicate.
      unfold head_of, tail_of, bucket_at in Hx. intros [[Hin|(j & Hj & Hin)]|Hin].
      - by apply elem_of_nil in Hin.
      - unfold head_of, tail_of, bucket_at in Hin. lia.
      - apply (Hfr x); [lia|done]. }
    destruct (lists_init (mem s) (bucket_at p (Z.of_nat i)) _ Hl) as (h1 & Hrun1 & Hl1 & Hs1).
    { unfold bucket_at, NULL. lia. }
    { unfold tail_of, bucket_at, NULL. lia. }
    { apply Hnew. by left. }
    { apply Hnew. by right. }
    rewrite (bind_run _ _ _ _ _ (on_mem_run _ _ _ _ Hrun1)).
    assert (lists h1 (tableau p (replicate (S i) []) ++ L)) as Hl1'.
    { rewrite replicate_S_end, tableau_snoc, length_replicate. exact Hl1. }
    destruct (IH (S i) (set_mem h1 s) L Hl1' Hpos) as (h & Hrun & Hl' & Hk).
    { intros x Hx. apply Hfr. lia. }
    exists h. replace (Z.of_nat i + 1) with (Z.of_nat (S i)) by lia. rewrite Hrun.
    replace (i + S n)%nat with (S i + n)%nat by lia. split_and!; [done|done|].
    eapply kept_trans; [|exact Hk]. cbn [mem set_mem]. split.
    + intros x Hx. rewrite tableau_wholes, length_replicate in Hx.
      apply Hs1; intros ->; apply Hx; right; exists i; split; [lia|auto|lia|auto].
    + intros x Hx. destruct (decide (x = head_of (bucket_at p (Z.of_nat i)) ∨ x = tail_of (bucket_at p (Z.of_nat i)))).
      * eapply lists_some; [exact Hl1|]. rewrite wholes_cons, elem_of_app, elem_whole. tauto.
      * rewrite Hs1; naive_solver.
Qed.

(** Freeing the old array. *)
Lemma free_array_lookup base n h x :
  ¬ ends base n x → ∃ h', free_array base n h = Ret (tt, h') ∧ h' !! x = h !! x.
Proof.
  intros Hx. eexists. split; [done|]. assert (∀ i, i ∈ seqZ 0 (Z.of_nat n) →
    x ≠ head_of (bucket_at base i) ∧ x ≠ tail_of (bucket_at base i)) as Hne.
  { intros i Hi%elem_of_seqZ. split; intros ->; apply Hx; exists (Z.to_nat i); rewrite Z2Nat.id by lia;
      (split; [lia|auto]). }
  revert Hne. generalize (seqZ 0 (Z.of_nat n)). intros l. induction l as [|i l IH]; intros Hne; [done|]. simpl.
  destruct (Hne i) as [??]; [set_solver|]. rewrite !lookup_delete_ne by done. apply IH. set_solver.
Qed.

(** ** Hash tables *)

(** The table has the buckets [xss]. *)
Record hrep (s : hstate) (xss : list (list Z)) : Prop := {
  hr_lists : lists (mem s) (tableau (buckets (table s)) xss);
  hr_cnt : bucket_cnt (table s) = Z.of_nat (length xss);
  hr_placed : placed xss;
  hr_size : elem_cnt (table s) = Z.of_nat (length (mjoin xss));
  hr_bound : elem_cnt (table s) < 4294967295;
}.

(** The memory that the table uses. *)
Definition used (s : hstate) (xss : list (list Z)) : list Z := wholes (tableau (buckets (table s)) xss).

(** The [n] buckets that an array at [p] has room for. *)
Definition block (p n x : Z) : Prop := p ≤ x < p + 16 * n.

(** If malloc returns memory next, it is fresh, and enough for [n] buckets. *)
Definition room (n : Z) (s : hstate) : Prop :=
  ∀ p r, mallocs s = Some p :: r → 0 < p ∧ ∀ x, block p n x → mem s !! x = None.

(** No memory but the ends of buckets disappears, and what is not an element of
    the table either stays as it is. *)
Definition apart_from (s : hstate) (xss : list (list Z)) (s' : hstate) (xss' : list (list Z)) : Prop :=
  ∀ y, is_Some (mem s !! y) → ¬ ends (buckets (table s)) (length xss) y →
    is_Some (mem s' !! y) ∧ ¬ ends (buckets (table s')) (length xss') y ∧
    (y ∉ mjoin xss → mem s' !! y = mem s !! y).

Lemma apart_refl s xss : apart_from s xss s xss.
Proof. by intros y ??. Qed.

Lemma on_mem_free base n s : free_buckets base (Z.of_nat n) s =
  Ret (tt, set_mem (match free_array base n (mem s) with Ret (_, h) => h | Err _ => mem s end) s).
Proof. unfold free_buckets, on_mem, zoom. by rewrite Nat2Z.id. Qed.

(** What is left after the old array has been freed. *)
Lemma freed_ok base ob zss yss h n :
  lists h (tableau base yss ++ tableau ob zss) → length zss = n →
  ∃ h', free_array ob n h = Ret (tt, h') ∧ lists h' (tableau base yss) ∧
    ∀ x, ¬ ends ob n x → h' !! x = h !! x.
Proof.
  intros Hl Hn. destruct (free_array ob n h) as [[[] h']|] eqn:E; [|done]. exists h'.
  assert (∀ x, ¬ ends ob n x → h' !! x = h !! x) as Hs.
  { intros x Hx. destruct (free_array_lookup ob n h x Hx) as (h2 & E2 & Hh2). congruence. }
  split_and!; [done| |done]. destruct Hl as [HF Hnd]. fold (wholes (tableau base yss ++ tableau ob zss)) in Hnd.
  apply Forall_app in HF as [HF _]. rewrite wholes_app in Hnd. apply NoDup_app in Hnd as (Hnd & Hd & _).
  apply (lists_same h); [by split|]. intros x Hx. apply Hs. intros Hends. apply (Hd x Hx).
  apply tableau_wholes. right. by rewrite Hn.
Qed.

Lemma lists_app_split h L L' : lists h (L ++ L') → ∀ x, x ∈ wholes L → x ∉ wholes L'.
Proof.
  intros [_ Hnd] x Hx. fold (wholes (L ++ L')) in Hnd. rewrite wholes_app in Hnd.
  apply NoDup_app in Hnd as (_ & Hd & _). by apply Hd.
Qed.

Lemma placed_empty k : 0 ≤ k < 32 → placed (replicate (Z.to_nat (2 ^ k)) []).
Proof.
  intros Hk. split.
  - exists k. split; [done|]. rewrite length_replicate. rewrite Z2Nat.id; [done|]. apply Z.pow_nonneg. lia.
  - intros i xs e Hi He. apply lookup_replicate in Hi as [-> _]. by apply elem_of_nil in He.
Qed.

Lemma ends_block p n x : ends p n x → block p (Z.of_nat n) x.
Proof. intros (i & Hi & Hx). unfold head_of, tail_of, bucket_at in Hx. unfold block. lia. Qed.

(** Moving everything into [n] new buckets at [p]. *)
Definition refill (p n old_buckets old_bucket_cnt : Z) : M hstate unit :=
  for_each (Z.to_nat n) 0 (λ i, on_mem (list_init (bucket_at p i)));;!
  modify (λ s, set_table (set_buckets n p (table s)) s);;!
  for_each (Z.to_nat old_bucket_cnt) 0 (move_bucket hash old_buckets);;!
  free_buckets old_buckets old_bucket_cnt.

Lemma refill_run s xss p n k :
  hrep s xss → 0 ≤ k < 32 → 2 ^ k = Z.of_nat n → 0 < p → (∀ x, block p (Z.of_nat n) x → mem s !! x = None) →
  ∃ h yss, refill p (Z.of_nat n) (buckets (table s)) (bucket_cnt (table s)) s =
      Ret (tt, mkH h (set_buckets (Z.of_nat n) p (table s)) (mallocs s)) ∧
    lists h (tableau p yss) ∧ placed yss ∧ length yss = n ∧ mjoin yss ≡ₚ mjoin xss ∧
    ∀ y, ¬ ends p n y → y ∉ used s xss → h !! y = mem s !! y.
Proof.
  intros [Hl Hcnt Hp Hsz Hb] Hk En Hpos Hfresh. unfold refill. rewrite !Nat2Z.id.
  assert (∀ x, p ≤ x < p + 16 * Z.of_nat (0 + n) → x ∉ wholes (tableau (buckets (table s)) xss)) as Hnone.
  { intros x Hx Hin. destruct (lists_some _ _ _ Hl Hin) as [y Hy]. by rewrite Hfresh in Hy. }
  destruct (init_ok p n 0 s _ Hl Hpos Hnone) as (h1 & Hrun1 & Hl1 & Hk1).
  rewrite (bind_run _ _ _ _ _ Hrun1), bind_modify. change (0 + n)%nat with n in *.
  set (s1 := set_table _ _).
  destruct (move_all_ok (buckets (table s)) (length xss) 0 s1 (replicate n []) xss)
    as (h2 & yss & zss & Hrun2 & Hl2 & Hp2 & Hlen2 & Hlz & Hj2 & Hk2); [done| | |done|].
  { simpl. by rewrite length_replicate. }
  { rewrite <-(Nat2Z.id n), <-En. by apply placed_empty. }
  rewrite Hcnt, Nat2Z.id. rewrite (bind_run _ _ _ _ _ Hrun2), on_mem_free.
  destruct (freed_ok p (buckets (table s)) zss yss h2 (length xss) Hl2 Hlz) as (h3 & Hfree & Hl3 & Hs3).
  change (mem (set_mem h2 s1)) with h2. rewrite Hfree.
  rewrite length_replicate in Hlen2. simpl in Hj2. rewrite join_replicate_nil, app_nil_r in Hj2.
  exists h3, yss. split_and!; [done..|]. intros y Hyp Hy. unfold used in Hy.
  assert (y ∉ wholes (tableau p (replicate n []))) as Hyp'.
  { rewrite tableau_wholes, join_replicate_nil, length_replicate. intros [Hin|?]; [by apply elem_of_nil in Hin|done]. }
  rewrite Hs3 by (intros Hends; apply Hy, tableau_wholes; by right).
  rewrite (proj1 Hk2); [by apply (proj1 Hk1)|]. simpl. rewrite wholes_app, elem_of_app. by intros [?|?].
Qed.

Lemma rehash_unfold : rehash hash = (let! t := gets table in
  let! n := lift (new_bucket_cnt (elem_cnt t)) in
  if decide (n = bucket_cnt t) then ret tt
  else let! q := malloc in
    match q with None => ret tt | Some p => refill p n (buckets t) (bucket_cnt t) end).
Proof. done. Qed.

Lemma rehash_ok n s xss :
  hrep s xss → room n s → elem_cnt (table s) + 8 ≤ n →
  ∃ s' xss', rehash hash s = Ret (tt, s') ∧ hrep s' xss' ∧ mjoin xss' ≡ₚ mjoin xss ∧ apart_from s xss s' xss'.
Proof.
  intros Hr Hroom Hle. pose proof Hr as [Hl Hcnt Hp Hsz Hb].
  destruct (new_bucket_cnt_ok (elem_cnt (table s))) as (k & Hnew & Hk & Hsmall & Hbig); [lia|].
  assert (∃ w, 2 ^ k = Z.of_nat w ∧ Z.of_nat w ≤ n) as (w & En & Hn).
  { exists (Z.to_nat (2 ^ k)). rewrite Z2Nat.id by (apply Z.pow_nonneg; lia). split; [done|].
    destruct (decide (elem_cnt (table s) < 10)); [rewrite Hsmall by done; lia|].
    destruct Hbig; lia. }
  rewrite rehash_unfold, bind_gets, Hnew, bind_lift, En. case_decide as Hsame.
  { exists s, xss. split_and!; [done..|apply apart_refl]. }
  destruct (mallocs s) as [|[p|] r] eqn:Em.
  { exists s, xss. split_and!; [unfold bind, malloc; by rewrite Em|done..|apply apart_refl]. }
  2: { exists (mkH (mem s) (table s) r), xss. split_and!; [unfold bind, malloc; by rewrite Em|by split|done|by intros y ??]. }
  destruct (Hroom p r Em) as [Hpos Hfresh].
  assert (∀ x, block p (Z.of_nat w) x → block p n x) as Hsub by (unfold block; lia).
  rewrite (bind_run _ _ s (Some p) (mkH (mem s) (table s) r)) by (unfold malloc; by rewrite Em).
  destruct (refill_run (mkH (mem s) (table s) r) xss p w k) as (h & yss & Hrun & Hl' & Hp' & Hlen & Hj & Hsame');
    [by split|lia|done|done|by auto|].
  eexists _, yss. split; [exact Hrun|]. split_and!; [|done|].
  - split; [done|simpl; by rewrite Hlen|done|simpl; by rewrite Hj|done].
  - intros y Hy Hny. assert (¬ ends p w y) as Hyp.
    { intros He%ends_block. destruct Hy as [z Hz]. rewrite Hfresh in Hz; [done|auto]. }
    assert (y ∉ mjoin xss → h !! y = mem s !! y) as Hrest.
    { intros Hyj. apply (Hsame' y Hyp). unfold used. simpl. rewrite tableau_wholes. tauto. }
    simpl. rewrite Hlen. split_and!; [|done|done].
    destruct (decide (y ∈ mjoin xss)) as [Hin|Hin]; [|by rewrite Hrest].
    eapply lists_some; [exact Hl'|]. apply tableau_wholes. left. by rewrite Hj.
Qed.
End moving.
