(* ===== verification/HashOps.v ===== *)
(** The operations of hash.c on the buckets: looking for an element, putting one
    in, taking one out, emptying the table. *)
From S2P Require Import Prelude LinkedList LinkedListLaws LinkedListOps LinkedListSort Hash HashLaws.
Local Open Scope Z_scope.

Section ops.
Context (hash : Z → Z) (less : Z → Z → bool).
Local Abbreviation alike := (Hash.alike less).
Local Abbreviation hrep := (HashLaws.hrep hash).

(** ** Looking for an element *)

(** The first element of a bucket that equals [e]. *)
Definition first_alike (e : Z) (xs : list Z) : Z := default NULL (head (filter (λ x, alike x e = true) xs)).

Lemma first_alike_cons e x xs :
  first_alike e (x :: xs) = if alike x e then x else first_alike e xs.
Proof. unfold first_alike. rewrite filter_cons. case_decide as E; [by rewrite E|by destruct (alike x e)]. Qed.

Lemma find_loop_ok fuel : ∀ h l xs ys e,
  lrep h l (xs ++ ys) → (length ys < fuel)%nat →
  find_loop less fuel (cursor ys (tail_of l)) (tail_of l) e h = Ret (first_alike e ys, h).
Proof.
  induction fuel as [|fuel IH]; intros h l xs ys e Hl Hf; [lia|]. cbn [find_loop].
  destruct ys as [|y ys]; [by rewrite decide_True|]. change (cursor (y :: ys) (tail_of l)) with y.
  rewrite decide_False by (by eapply elem_not_tail). rewrite first_alike_cons.
  destruct (alike y e); [done|].
  rewrite (bind_run _ _ _ _ _ (list_next_ok h l xs y ys Hl)).
  apply (IH h l (xs ++ [y])); [by apply lrep_next|simpl in Hf; lia].
Qed.

Lemma find_elem_ok s l xs e : lrep (mem s) l xs → find_elem less l e s = Ret (first_alike e xs, s).
Proof.
  intros Hl. unfold find_elem. apply on_mem_read.
  rewrite (bind_run _ _ _ _ _ (list_begin_run _ _ _ Hl)).
  rewrite (bind_run _ _ _ _ _ (list_end_run _ _ (lrep_nonnull _ _ _ Hl))).
  apply (rounds_list _ _ l xs _ Hl). intros n Hn. by apply (find_loop_ok n (mem s) l []).
Qed.

(** ** One bucket of the table *)

(** The bucket of [e] is the [i]-th, and holds [xs]. *)
Definition bucket_of (xss : list (list Z)) (e : Z) (i : nat) (xs : list Z) : Prop :=
  slot_of hash (Z.of_nat (length xss)) e = Z.of_nat i ∧ xss !! i = Some xs.

Lemma bucket_found s xss e : hrep s xss → ∃ i xs, bucket_of xss e i xs ∧
  find_bucket hash e s = Ret (bucket_at (buckets (table s)) (Z.of_nat i), s) ∧
  find_elem less (bucket_at (buckets (table s)) (Z.of_nat i)) e s = Ret (first_alike e xs, s).
Proof.
  intros [Hl Hcnt Hp _ _]. destruct (placed_bucket hash xss e Hp) as (i & xs & Hs & Hi).
  exists i, xs. split; [done|]. rewrite find_bucket_run, Hcnt, Hs. split; [done|].
  apply find_elem_ok. destruct (tableau_lookup (buckets (table s)) xss i xs Hi) as (T & ET & _).
  rewrite ET in Hl. by apply lists_cons in Hl as [? _].
Qed.

Lemma in_bucket (xss : list (list Z)) i xs x : xss !! i = Some xs → x ∈ xs → x ∈ mjoin xss.
Proof. intros Hi Hx. apply list_elem_of_join. exists xs. split; [done|by eapply list_elem_of_lookup_2]. Qed.

Lemma elem_nonnull s xss x : hrep s xss → x ∈ mjoin xss → x ≠ NULL ∧ is_Some (mem s !! x).
Proof.
  intros Hr Hx%(tableau_elem (buckets (table s))). split; [eapply lists_nonnull|eapply lists_some]; try apply Hr; done.
Qed.

(** What is found equals [e]; if nothing is found then nothing in the whole
    table equals [e], because equal elements have the same bucket. *)
Lemma first_alike_found s xss e i xs :
  (∀ a b, alike a b = true → hash a = hash b) → hrep s xss → bucket_of xss e i xs →
  (first_alike e xs ∈ xs ∧ alike (first_alike e xs) e = true ∧ first_alike e xs ≠ NULL) ∨
  (first_alike e xs = NULL ∧ ∀ x, x ∈ mjoin xss → alike x e = false).
Proof.
  intros Hh Hr [Hs Hi]. unfold first_alike. destruct (filter _ xs) as [|r rs] eqn:E; simpl.
  - right. split; [done|]. intros x Hx. destruct (alike x e) eqn:Ea; [exfalso|done].
    apply list_elem_of_join in Hx as (ys & Hx & Hys). apply list_elem_of_lookup_1 in Hys as [j Hj].
    pose proof (proj2 (hr_placed _ _ _ Hr) j ys x Hj Hx) as Hslot.
    assert (j = i) as ->.
    { unfold slot_of in *. rewrite (Hh x e Ea) in Hslot. lia. }
    rewrite Hi in Hj. injection Hj as <-. assert (x ∈ filter (λ x, alike x e = true) xs) as Hin by (by apply list_elem_of_filter).
    rewrite E in Hin. by apply elem_of_nil in Hin.
  - left. assert (r ∈ filter (λ x, alike x e = true) xs) as [Ha Hin]%list_elem_of_filter by (rewrite E; set_solver).
    split_and!; [done|done|]. by apply (elem_nonnull s xss), (in_bucket xss i xs).
Qed.

End ops.

(** ** Insertion and removal *)
Section changes.
Context (hash : Z → Z).
Local Abbreviation hrep := (HashLaws.hrep hash).
Local Abbreviation bucket_of := (bucket_of hash).

Definition counted (n : Z) (h : heap) (s : hstate) : hstate :=
  mkH h (set_elem_cnt n (table s)) (mallocs s).

Lemma insert_elem_ok s xss e i xs :
  hrep s xss → bucket_of xss e i xs → e ∉ used s xss → e ≠ NULL → is_Some (mem s !! e) →
  elem_cnt (table s) + 1 < 4294967295 →
  ∃ h, insert_elem (bucket_at (buckets (table s)) (Z.of_nat i)) e s = Ret (tt, counted (elem_cnt (table s) + 1) h s) ∧
    hrep (counted (elem_cnt (table s) + 1) h s) (<[i:=e :: xs]> xss) ∧
    mjoin (<[i:=e :: xs]> xss) ≡ₚ e :: mjoin xss ∧ kept (e :: used s xss) (mem s) h.
Proof.
  intros Hr [Hs Hi] He Hn Hsome Hb. pose proof Hr as [Hl Hcnt Hp Hsz _].
  destruct (tableau_lookup (buckets (table s)) xss i xs Hi) as (T & ET & ET').
  unfold used in *. rewrite ET in Hl, He.
  destruct (lists_push (mem s) _ xs e T Hl He Hn Hsome) as (h & Hrun & Hl' & Hw).
  assert (mjoin (<[i:=e :: xs]> xss) ≡ₚ e :: mjoin xss) as Hj by (by apply (join_insert xss i xs _ [e])).
  exists h. split_and!; [| |done|].
  - unfold insert_elem. rewrite bind_modify, u32_small by lia.
    exact (on_mem_run _ (set_table (set_elem_cnt (elem_cnt (table s) + 1) (table s)) s) _ _ Hrun).
  - split; [by rewrite ET'|by rewrite length_insert| |rewrite Hj; simpl; lia|done].
    apply placed_insert; [done|]. intros x [->|Hx]%elem_of_cons; [done|]. by eapply (proj2 Hp).
  - eapply within_kept; [exact Hw|]. intros x Hx. rewrite ET, wholes_cons. set_solver.
Qed.

Lemma remove_elem_ok s xss r i xs :
  hrep s xss → xss !! i = Some xs → r ∈ xs →
  ∃ h A B, xs = A ++ r :: B ∧ remove_elem r s = Ret (tt, counted (elem_cnt (table s) - 1) h s) ∧
    hrep (counted (elem_cnt (table s) - 1) h s) (<[i:=A ++ B]> xss) ∧
    mjoin xss ≡ₚ r :: mjoin (<[i:=A ++ B]> xss) ∧ kept (used s xss) (mem s) h.
Proof.
  intros Hr Hi (A & B & ->)%list_elem_of_split. pose proof Hr as [Hl Hcnt Hp Hsz Hb].
  destruct (tableau_lookup (buckets (table s)) xss i _ Hi) as (T & ET & ET').
  rewrite ET in Hl. destruct (lists_remove _ _ _ _ _ _ Hl) as (h & Hrun & Hl' & Hnin & _ & Hw).
  assert (mjoin xss ≡ₚ r :: mjoin (<[i:=A ++ B]> xss)) as Hj.
  { rewrite (join_insert_nil xss i _ Hi). rewrite <-Permutation_middle.
    rewrite (join_insert_nil (<[i:=A ++ B]> xss) i (A ++ B)) by (eapply list_lookup_insert_eq, lookup_lt_Some, Hi).
    by rewrite list_insert_insert_eq. }
  assert (elem_cnt (table s) - 1 = Z.of_nat (length (mjoin (<[i:=A ++ B]> xss)))) as Hlen by (rewrite Hsz, Hj; simpl; lia).
  exists h, A, B. split_and!; [done| | |done|].
  - unfold remove_elem. rewrite bind_modify, u32_small by lia.
    apply (on_mem_run _ (set_table (set_elem_cnt (elem_cnt (table s) - 1) (table s)) s)). simpl. by rewrite (bind_run _ _ _ _ _ Hrun).
  - split; [by rewrite ET'|by rewrite length_insert| |done|simpl; lia].
    apply placed_insert; [done|]. intros x Hx. eapply (proj2 Hp); [exact Hi|]. set_solver.
  - eapply within_kept; [exact Hw|]. intros x Hx. unfold used. rewrite ET, wholes_cons. set_solver.
Qed.

(** ** Emptying the table *)
Definition reset_bucket (base i : Z) : M hstate unit := on_mem (list_init (bucket_at base i)).

Lemma for_each_ext n (f g : Z → M hstate unit) : (∀ i s, f i s = g i s) → ∀ i s, for_each n i f s = for_each n i g s.
Proof.
  intros E. induction n as [|n IH]; intros i s; [done|]. cbn [for_each]. unfold bind. rewrite E.
  destruct (g i s) as [[[] s']|]; [apply IH|done].
Qed.

Lemma clear_unfold s :
  hash_clear None s = (for_each (Z.to_nat (bucket_cnt (table s))) 0 (reset_bucket (buckets (table s)));;!
    modify (λ s, set_table (set_elem_cnt 0 (table s)) s)) s.
Proof.
  unfold hash_clear. rewrite bind_gets. unfold bind at 1 2.
  by rewrite (for_each_ext _ _ (reset_bucket (buckets (table s)))).
Qed.

Lemma reset_all_ok base n : ∀ i s xss,
  lists (mem s) (tableau base xss) → length xss = (i + n)%nat →
  ∃ h, for_each n (Z.of_nat i) (reset_bucket base) s = Ret (tt, set_mem h s) ∧
    lists h (tableau base (take i xss ++ replicate n [])) ∧
    kept (wholes (tableau base xss)) (mem s) h.
Proof.
  induction n as [|n IH]; intros i s xss Hl Hlen; cbn [for_each].
  - exists (mem s). rewrite app_nil_r, take_ge by lia. split_and!; [by destruct s|done|apply kept_refl].
  - destruct (lookup_lt_is_Some_2 xss i) as [xs Hi]; [lia|].
    destruct (tableau_lookup base xss i xs Hi) as (T & ET & ET').
    pose proof Hl as Hl0. rewrite ET in Hl0. apply lists_cons in Hl0 as (Hr & HT & Hd).
    destruct (lists_init (mem s) (bucket_at base (Z.of_nat i)) T HT) as (h1 & Hrun & Hl1 & Hs1).
    { by eapply lrep_nonnull. }
    { eapply chain_nonnull; [exact Hr|]. apply elem_whole. auto. }
    { apply Hd, elem_whole. auto. }
    { apply Hd, elem_whole. auto. }
    rewrite (bind_run _ _ _ _ _ (on_mem_run _ _ _ _ Hrun)).
    destruct (IH (S i) (set_mem h1 s) (<[i:=[]]> xss)) as (h & Hrun2 & Hl2 & Hk2).
    { simpl. by rewrite ET'. }
    { rewrite length_insert. lia. }
    exists h. replace (Z.of_nat i + 1) with (Z.of_nat (S i)) by lia. rewrite Hrun2. split_and!; [done| |].
    + rewrite (take_S_r _ _ []) in Hl2 by (eapply list_lookup_insert_eq, lookup_lt_Some, Hi).
      by rewrite take_insert_ge, <-app_assoc in Hl2 by lia.
    + assert (∀ x, x ∈ wholes (tableau base (<[i:=[]]> xss)) → x ∈ wholes (tableau base xss)) as Hsub.
      { intros x. rewrite ET, ET', !wholes_cons, !elem_of_app, !elem_whole. set_solver. }
      eapply kept_trans; [|eapply kept_mono; [exact Hk2|exact Hsub]]. split.
      * intros x Hx. apply Hs1; intros ->; apply Hx; rewrite ET, wholes_cons, elem_of_app, elem_whole; auto.
      * intros x Hx. destruct (decide (x = head_of (bucket_at base (Z.of_nat i)) ∨ x = tail_of (bucket_at base (Z.of_nat i)))).
        -- eapply lists_some; [exact Hl1|]. rewrite wholes_cons, elem_of_app, elem_whole. tauto.
        -- simpl. rewrite Hs1; naive_solver.
Qed.

Lemma placed_nils xss : placed hash xss → placed hash (replicate (length xss) []).
Proof.
  intros [Hk _]. split; [by rewrite length_replicate|].
  intros i xs e [-> _]%lookup_replicate He. by apply elem_of_nil in He.
Qed.

Lemma clear_ok s xss :
  hrep s xss → ∃ h, hash_clear None s = Ret (tt, counted 0 h s) ∧
    hrep (counted 0 h s) (replicate (length xss) []) ∧ kept (used s xss) (mem s) h.
Proof.
  intros [Hl Hcnt Hp Hsz Hb].
  destruct (reset_all_ok (buckets (table s)) (length xss) 0 s xss Hl eq_refl) as (h & Hrun & Hl' & Hk).
  exists h. rewrite clear_unfold, Hcnt, Nat2Z.id. rewrite (bind_run _ _ _ _ _ Hrun). split_and!; [done| |done].
  split; [done|by rewrite length_replicate|by apply placed_nils|by rewrite join_replicate_nil|simpl; lia].
Qed.

(** A new table has four empty buckets. *)
Lemma init_table_ok s p r :
  mallocs s = Some p :: r → 0 < p → (∀ x, block p 4 x → mem s !! x = None) →
  ∃ h, hash_init s = Ret (true, mkH h (mkTable 0 4 p) r) ∧
    hrep (mkH h (mkTable 0 4 p) r) (replicate 4 []) ∧
    ∀ x, is_Some (mem s !! x) → h !! x = mem s !! x.
Proof.
  intros Em Hpos Hfresh. unfold hash_init.
  rewrite (bind_run _ _ s (Some p) (mkH (mem s) (table s) r)) by (unfold malloc; by rewrite Em).
  rewrite bind_modify. set (s1 := set_table _ _).
  destruct (init_ok hash p 4 0 s1 []) as (h & Hrun & Hl & Hk); [split; [done|constructor]|done|set_solver|].
  rewrite app_nil_r in Hl. exists h. split_and!.
  - assert (hash_clear None s1 = Ret (tt, mkH h (mkTable 0 4 p) r)) as Hc.
    { rewrite clear_unfold. change (Z.to_nat (bucket_cnt (table s1))) with 4%nat.
      change (reset_bucket (buckets (table s1))) with (λ i, on_mem (list_init (bucket_at p i))).
      by rewrite (bind_run _ _ _ _ _ Hrun). }
    by rewrite (bind_run _ _ _ _ _ Hc).
  - split; [done..|apply (placed_empty hash 2); lia|done|simpl; lia].
  - intros x [z Hx]. rewrite (proj1 Hk); [done|]. rewrite tableau_wholes. intros [Hin|He].
    + by rewrite join_replicate_nil in Hin; apply elem_of_nil in Hin.
    + rewrite Hfresh in Hx; [done|by apply ends_block in He].
Qed.
End changes.
