(* ===== verification/HashSpec.v ===== *)
(** What hash.c promises: whatever calls are made, a hash table does what the
    same calls do on a set of elements, whether malloc has memory or not.
    Going through a table with [hash_first] and [hash_next] comes to each element once. *)
From stdpp Require Import sorting.
From S2P Require Import Prelude LinkedList LinkedListLaws LinkedListOps LinkedListSort Hash HashLaws HashOps.
Local Open Scope Z_scope.

(** What hash.h asks of the functions of a table: elements that compare equal
    have the same hash value. *)
Class Hashable (hash : Z → Z) (less : Z → Z → bool) : Prop := {
  hashable_order :: WeakOrder less;
  hashable_hash a b : Hash.alike less a b = true → hash a = hash b;
}.

(** ** Calls *)
Inductive hash_call :=
| Insert (e : Z) | Replace (e : Z) | Find (e : Z) | Delete (e : Z) | Clear | Size | Empty.

Definition run_call (hash : Z → Z) (less : Z → Z → bool) (c : hash_call) : M hstate Z :=
  match c with
  | Insert e => hash_insert hash less e
  | Replace e => hash_replace hash less e
  | Find e => hash_find hash less e
  | Delete e => hash_delete hash less e
  | Clear => hash_clear None;;! ret 0
  | Size => hash_size
  | Empty => let! b := hash_empty in ret (Z.b2z b)
  end.

(** Before each call [alloc] says what malloc would return. *)
Definition provide (alloc : hstate → option Z) (s : hstate) : hstate := mkH (mem s) (table s) [alloc s].
Fixpoint run_calls (hash : Z → Z) (less : Z → Z → bool) (alloc : hstate → option Z) (cs : list hash_call) : M hstate (list Z) :=
  match cs with
  | [] => ret []
  | c :: cs => modify (provide alloc);;!
      let! r := run_call hash less c in let! rs := run_calls hash less alloc cs in ret (r :: rs)
  end.

(** ** The same on sets of elements *)

(** [r] is the element of [X] that equals [e], or null. *)
Definition found (less : Z → Z → bool) (X : gset Z) (e r : Z) : Prop :=
  (r ∈ X ∧ Hash.alike less r e = true ∧ r ≠ NULL) ∨ (r = NULL ∧ ∀ x, x ∈ X → Hash.alike less x e = false).

Inductive on_set (less : Z → Z → bool) (E : gset Z) : hash_call → gset Z → Z → gset Z → Prop :=
| set_insert_new e X : e ∈ E → found less X e NULL → on_set less E (Insert e) X NULL ({[ e ]} ∪ X)
| set_insert_old e X r : e ∈ E → r ≠ NULL → found less X e r → on_set less E (Insert e) X r X
| set_replace e X r : e ∈ E → found less X e r → on_set less E (Replace e) X r ({[ e ]} ∪ X ∖ {[ r ]})
| set_find e X r : found less X e r → on_set less E (Find e) X r X
| set_delete e X r : found less X e r → on_set less E (Delete e) X r (X ∖ {[ r ]})
| set_clear X : on_set less E Clear X 0 ∅
| set_size X n : n = Z.of_nat (size X) → on_set less E Size X n X
| set_empty X b : b = Z.b2z (bool_decide (X = ∅)) → on_set less E Empty X b X.

Inductive on_sets (less : Z → Z → bool) (E : gset Z) : list hash_call → gset Z → list Z → gset Z → Prop :=
| sets_nil X : on_sets less E [] X [] X
| sets_cons c cs X r Y rs Z : on_set less E c X r Y → on_sets less E cs Y rs Z →
    on_sets less E (c :: cs) X (r :: rs) Z.

(** ** Representation *)

(** The table holds the set [X] of some of the elements [E], and the rest of the
    memory has [o]. *)
Record holds (hash : Z → Z) (less : Z → Z → bool) (E : gset Z) (o : heap) (s : hstate) (X : gset Z) : Prop := {
  ho_sub : X ⊆ E;
  ho_size : Z.of_nat (size E) < 4294967295;
  ho_distinct : ∀ x y, x ∈ X → y ∈ X → Hash.alike less x y = true → x = y;
  ho_known : ∀ e, e ∈ E → e ≠ NULL ∧ is_Some (mem s !! e);
  ho_rest : ∀ y z, o !! y = Some z → mem s !! y = Some z ∧ y ∉ E;
  ho_buckets : ∃ xss, hrep hash s xss ∧ mjoin xss ≡ₚ elements X ∧
    ∀ y, y ∈ E ∪ dom o → ¬ ends (buckets (table s)) (length xss) y;
}.

(** Enough for the buckets of as many elements as there are. *)
Definition capacity (E : gset Z) : Z := Z.of_nat (size E) + 8.

Section spec.
Context (hash : Z → Z) (less : Z → Z → bool) `{!Hashable hash less}.
Context (E : gset Z) (o : heap).
Local Abbreviation alike := (Hash.alike less).
Local Abbreviation holds := (holds hash less E o).

Lemma alike_le a b : alike a b = true ↔ le less a b ∧ le less b a.
Proof. unfold Hash.alike, le. destruct (less a b), (less b a); naive_solver. Qed.
Lemma alike_refl a : alike a a = true.
Proof. apply alike_le. by destruct (total (le less) a a). Qed.
Lemma alike_sym a b : alike a b = true → alike b a = true.
Proof. rewrite !alike_le. tauto. Qed.
Lemma alike_trans a b c : alike a b = true → alike b c = true → alike a c = true.
Proof. rewrite !alike_le. intros [??] [??]. split; etransitivity; done. Qed.

Lemma found_unique X e r r' : (∀ x y, x ∈ X → y ∈ X → alike x y = true → x = y) →
  found less X e r → found less X e r' → r = r'.
Proof.
  intros Hd [(H1 & H2 & _)|[-> H1]] [(H3 & H4 & _)|[-> H3]]; [|by rewrite H3 in H2|by rewrite H1 in H4|done].
  apply Hd; [done..|]. eapply alike_trans; [done|by apply alike_sym].
Qed.

(** A change of memory that keeps the table a table keeps the rest. *)
Lemma holds_next s X s' X' xss xss' (ws : list Z) :
  holds s X → X' ⊆ E → (∀ x y, x ∈ X' → y ∈ X' → alike x y = true → x = y) →
  hrep hash s xss → mjoin xss ≡ₚ elements X → (∀ y, y ∈ E ∪ dom o → ¬ ends (buckets (table s)) (length xss) y) →
  hrep hash s' xss' → mjoin xss' ≡ₚ elements X' → buckets (table s') = buckets (table s) → length xss' = length xss →
  kept ws (mem s) (mem s') → (∀ y, y ∈ ws → y ∈ E ∨ y ∈ used s xss) → holds s' X'.
Proof.
  intros [Hs Hz Hd Hk Ho _] Hs' Hd' Hr Hj Hends Hr' Hj' Hb Hl Hkept Hws. split; [done..| | |].
  - intros e He. destruct (Hk e He). split; [done|]. by apply (proj2 Hkept).
  - intros y z Hy. destruct (Ho y z Hy) as [Hm HE]. split; [|done]. rewrite (proj1 Hkept); [done|].
    intros [?|Hu]%Hws; [done|]. unfold used in Hu. apply tableau_wholes in Hu as [Hu|Hu].
    + rewrite Hj in Hu. apply elem_of_elements in Hu. set_solver.
    + apply (Hends y); [|done]. apply elem_of_union_r, elem_of_dom. eauto.
  - exists xss'. split; [done|]. split; [done|]. by rewrite Hb, Hl.
Qed.

Lemma holds_cnt s (X : gset Z) xss : hrep hash s xss → mjoin xss ≡ₚ elements X → elem_cnt (table s) = Z.of_nat (size X).
Proof. intros Hr Hj. rewrite (hr_size _ _ _ Hr), Hj. done. Qed.

(** ** Steps *)
Lemma rehash_step s X : holds s X → room (capacity E) s → ∃ s', rehash hash s = Ret (tt, s') ∧ holds s' X.
Proof.
  intros [Hs Hz Hd Hk Ho (xss & Hr & Hj & Hends)] Hroom.
  assert (size X ≤ size E)%nat by by apply subseteq_size.
  destruct (rehash_ok hash (capacity E) s xss Hr Hroom) as (s' & xss' & Hrun & Hr' & Hj' & Ha).
  { rewrite (holds_cnt s X xss Hr Hj). unfold capacity. lia. }
  exists s'. split; [done|]. split; [done..| | |].
  - intros e He. destruct (Hk e He) as [Hn Hm]. split; [done|]. apply (Ha e Hm), Hends. set_solver.
  - intros y z Hy. destruct (Ho y z Hy) as [Hm HE]. split; [|done].
    destruct (Ha y) as (_ & _ & Hsame); [by exists z|by apply Hends, elem_of_union_r, elem_of_dom; exists z|].
    rewrite Hsame; [done|]. rewrite Hj, elem_of_elements. set_solver.
  - exists xss'. split; [done|]. split; [by rewrite Hj'|]. intros y Hy.
    destruct (Ha y) as (_ & Hne & _); [|by apply Hends|done].
    apply elem_of_union in Hy as [Hy|[z Hz']%elem_of_dom]; [by apply Hk|]. exists z. apply (Ho y z Hz').
Qed.

(** Looking up [e], which each operation begins with: the bucket, and the
    element found there. *)
Lemma lookup_step s X e : holds s X → ∃ xss i xs r, hrep hash s xss ∧ mjoin xss ≡ₚ elements X ∧
  (∀ y, y ∈ E ∪ dom o → ¬ ends (buckets (table s)) (length xss) y) ∧ bucket_of hash xss e i xs ∧
  find_bucket hash e s = Ret (bucket_at (buckets (table s)) (Z.of_nat i), s) ∧
  find_elem less (bucket_at (buckets (table s)) (Z.of_nat i)) e s = Ret (r, s) ∧
  found less X e r ∧ (r ≠ NULL → r ∈ xs).
Proof.
  intros [Hs Hz Hd Hk Ho (xss & Hr & Hj & Hends)].
  destruct (bucket_found hash less s xss e Hr) as (i & xs & Hb & Hf & He).
  exists xss, i, xs, (first_alike less e xs). split_and!; try done.
  - destruct (first_alike_found hash less s xss e i xs) as [(Hin & Ha & Hn)|[Hn Ha]]; [apply hashable_hash|done..| |].
    + left. split_and!; [|done..]. apply elem_of_elements. rewrite <-Hj. eapply in_bucket; [apply Hb|done].
    + right. split; [done|]. intros x Hx%elem_of_elements. apply Ha. by rewrite Hj.
  - intros Hn. destruct (first_alike_found hash less s xss e i xs) as [(Hin & _)|[Hn' _]]; [apply hashable_hash|done..].
Qed.

(** Nothing equal to [e] is in the table; then [e] goes into its bucket. *)
Lemma insert_step s X e i xs xss :
  holds s X → hrep hash s xss → mjoin xss ≡ₚ elements X →
  (∀ y, y ∈ E ∪ dom o → ¬ ends (buckets (table s)) (length xss) y) → bucket_of hash xss e i xs →
  e ∈ E → (∀ x, x ∈ X → alike x e = false) →
  ∃ s', insert_elem (bucket_at (buckets (table s)) (Z.of_nat i)) e s = Ret (tt, s') ∧ holds s' ({[ e ]} ∪ X) ∧
    mallocs s' = mallocs s ∧ ∀ x, is_Some (mem s' !! x) → is_Some (mem s !! x).
Proof.
  intros Hh Hr Hj Hends Hb He Hnone. pose proof Hh as [Hs Hz Hd Hk _ _]. destruct (Hk e He) as [Hn Hm].
  assert (e ∉ X) as HeX. { intros Hin%Hnone. by rewrite alike_refl in Hin. }
  assert (size ({[ e ]} ∪ X) = S (size X)) as Hsz by (rewrite size_union by set_solver; by rewrite size_singleton).
  assert (size ({[ e ]} ∪ X) ≤ size E)%nat by (apply subseteq_size; set_solver).
  assert (e ∉ used s xss) as Hu.
  { unfold used. rewrite tableau_wholes, Hj, elem_of_elements. intros [?|Hin]; [done|]. by apply (Hends e); [set_solver|]. }
  destruct (insert_elem_ok hash s xss e i xs Hr Hb Hu Hn Hm) as (h & Hrun & Hr' & Hj' & Hkept).
  { rewrite (holds_cnt s X xss Hr Hj). lia. }
  eexists. split; [exact Hrun|]. split_and!; [|done|].
  - eapply holds_next; [exact Hh|set_solver| |exact Hr|exact Hj|done|exact Hr'| |done|by rewrite length_insert|exact Hkept|set_solver].
    + intros x y. rewrite !elem_of_union, !elem_of_singleton. intros [->|Hx] [->|Hy] Ha; [done| | |by apply Hd].
      * apply alike_sym in Ha. by rewrite Hnone in Ha.
      * by rewrite Hnone in Ha.
    + rewrite Hj', Hj. by rewrite elements_union_singleton.
  - intros x Hx. destruct (decide (x ∈ e :: used s xss)) as [[->|Hin]%elem_of_cons|Hin]; [done| |].
    + eapply lists_some; [apply Hr|exact Hin].
    + by rewrite <-(proj1 Hkept).
Qed.

Lemma remove_step s X r i xs xss :
  holds s X → hrep hash s xss → mjoin xss ≡ₚ elements X →
  (∀ y, y ∈ E ∪ dom o → ¬ ends (buckets (table s)) (length xss) y) → xss !! i = Some xs → r ∈ xs →
  ∃ s' A B, remove_elem r s = Ret (tt, s') ∧ holds s' (X ∖ {[ r ]}) ∧ xs = A ++ r :: B ∧
    hrep hash s' (<[i:=A ++ B]> xss) ∧ mjoin (<[i:=A ++ B]> xss) ≡ₚ elements (X ∖ {[ r ]}) ∧
    buckets (table s') = buckets (table s) ∧
    mallocs s' = mallocs s ∧ ∀ x, is_Some (mem s' !! x) → is_Some (mem s !! x).
Proof.
  intros Hh Hr Hj Hends Hi Hin. pose proof Hh as [Hs Hz Hd Hk _ _].
  destruct (remove_elem_ok hash s xss r i xs Hr Hi Hin) as (h & A & B & -> & Hrun & Hr' & Hj' & Hkept).
  assert (mjoin (<[i:=A ++ B]> xss) ≡ₚ elements (X ∖ {[ r ]})) as HjX.
  { apply (Permutation_cons_inv (a := r)). rewrite <-Hj', Hj.
    assert (r ∈ X) by (apply elem_of_elements; rewrite <-Hj, Hj'; set_solver).
    rewrite <-elements_union_singleton by set_solver. f_equiv. intros x.
    destruct (decide (x = r)); set_solver. }
  eexists _, A, B. split; [exact Hrun|]. split_and!; try done.
  - eapply holds_next; [exact Hh|set_solver| |exact Hr|exact Hj|done|exact Hr'|done|done|by rewrite length_insert|exact Hkept|auto].
    intros x y Hx Hy. apply Hd; set_solver.
  - intros x Hx. destruct (decide (x ∈ used s xss)) as [Hu|Hu]; [eapply lists_some; [apply Hr|done]|].
    by rewrite <-(proj1 Hkept).
Qed.
(** ** Calls *)
Lemma room_mono n s s' : room n s → mallocs s' = mallocs s → (∀ x, is_Some (mem s' !! x) → is_Some (mem s !! x)) → room n s'.
Proof.
  intros Hroom Em Hs p r Hp. rewrite Em in Hp. destruct (Hroom p r Hp) as [Hpos Hf]. split; [done|].
  intros x Hx. destruct (mem s' !! x) eqn:Ex; [|done]. destruct (Hs x) as [z Hz]; [by eexists|].
  by rewrite Hf in Hz.
Qed.

(** The rehash that ends a call, and the call's result. *)
Lemma rehash_end {A} s X (a : A) : holds s X → room (capacity E) s →
  ∃ s', (rehash hash;;! ret a) s = Ret (a, s') ∧ holds s' X.
Proof.
  intros Hh Hroom. destruct (rehash_step s X Hh Hroom) as (s' & Hrun & Hh'). exists s'.
  by rewrite (bind_run _ _ _ _ _ Hrun).
Qed.

Lemma insert_call s X e r : holds s X → room (capacity E) s → e ∈ E → found less X e r →
  ∃ s', hash_insert hash less e s = Ret (r, s') ∧ holds s' (if decide (r = NULL) then {[ e ]} ∪ X else X).
Proof.
  intros Hh Hroom He Hf. destruct (lookup_step s X e Hh) as (xss & i & xs & r' & Hr & Hj & Hends & Hb & Hfb & Hfe & Hf' & _).
  assert (r' = r) as -> by (eapply found_unique; [apply Hh|done..]).
  unfold hash_insert. rewrite (bind_run _ _ _ _ _ Hfb), (bind_run _ _ _ _ _ Hfe). case_decide as Hn.
  - destruct Hf as [(_ & _ & ?)|[_ Hnone]]; [done|].
    destruct (insert_step s X e i xs xss Hh Hr Hj Hends Hb He Hnone) as (s1 & Hrun & Hh1 & Em & Hm).
    rewrite (bind_run _ _ _ _ _ Hrun). apply rehash_end; [done|by eapply room_mono].
  - rewrite bind_ret. by apply rehash_end.
Qed.

Lemma replace_call s X e r : holds s X → room (capacity E) s → e ∈ E → found less X e r →
  ∃ s', hash_replace hash less e s = Ret (r, s') ∧ holds s' ({[ e ]} ∪ X ∖ {[ r ]}).
Proof.
  intros Hh Hroom He Hf. destruct (lookup_step s X e Hh) as (xss & i & xs & r' & Hr & Hj & Hends & Hb & Hfb & Hfe & Hf' & Hrin).
  assert (r' = r) as -> by (eapply found_unique; [apply Hh|done..]).
  unfold hash_replace. rewrite (bind_run _ _ _ _ _ Hfb), (bind_run _ _ _ _ _ Hfe). case_decide as Hn.
  - destruct Hf as [(HrX & Hal & _)|[? _]]; [|done].
    destruct (remove_step s X r i xs xss Hh Hr Hj Hends (proj2 Hb) (Hrin Hn))
      as (s1 & A & B & Hrun1 & Hh1 & -> & Hr1 & Hj1 & Eb & Em1 & Hm1).
    rewrite (bind_run _ _ _ _ _ Hrun1).
    destruct (insert_step s1 (X ∖ {[ r ]}) e i (A ++ B) (<[i:=A ++ B]> xss)) as (s2 & Hrun & Hh2 & Em & Hm); try done.
    + intros y. rewrite Eb, length_insert. apply Hends.
    + destruct Hb as [Hs Hi]. split; [by rewrite length_insert|]. by eapply list_lookup_insert_eq, lookup_lt_Some.
    + intros x [Hx Hxr]%elem_of_difference. destruct (alike x e) eqn:Ea; [|done]. exfalso. apply Hxr, elem_of_singleton.
      eapply (ho_distinct _ _ _ _ _ _ Hh); [done..|]. eapply alike_trans; [done|by apply alike_sym].
    + rewrite <-Eb, (bind_run _ _ _ _ _ Hrun). apply rehash_end; [done|].
      eapply room_mono; [exact Hroom|congruence|auto].
  - assert (r = NULL) as -> by (by destruct (decide (r = NULL))). destruct Hf as [(_ & _ & ?)|[_ Hnone]]; [done|].
    rewrite bind_ret. destruct (insert_step s X e i xs xss Hh Hr Hj Hends Hb He Hnone) as (s1 & Hrun & Hh1 & Em & Hm).
    rewrite (bind_run _ _ _ _ _ Hrun). assert (NULL ∉ X) as HnX.
    { intros Hin. by destruct (ho_known _ _ _ _ _ _ Hh NULL); [apply (ho_sub _ _ _ _ _ _ Hh)|]. }
    replace (X ∖ {[ NULL ]}) with X by set_solver. apply rehash_end; [done|by eapply room_mono].
Qed.

Lemma find_call s X e r : holds s X → found less X e r → hash_find hash less e s = Ret (r, s).
Proof.
  intros Hh Hf. destruct (lookup_step s X e Hh) as (xss & i & xs & r' & Hr & Hj & Hends & Hb & Hfb & Hfe & Hf' & _).
  assert (r' = r) as -> by (eapply found_unique; [apply Hh|done..]).
  unfold hash_find. by rewrite (bind_run _ _ _ _ _ Hfb).
Qed.

Lemma delete_call s X e r : holds s X → room (capacity E) s → found less X e r →
  ∃ s', hash_delete hash less e s = Ret (r, s') ∧ holds s' (X ∖ {[ r ]}).
Proof.
  intros Hh Hroom Hf. destruct (lookup_step s X e Hh) as (xss & i & xs & r' & Hr & Hj & Hends & Hb & Hfb & Hfe & Hf' & Hrin).
  assert (r' = r) as -> by (eapply found_unique; [apply Hh|done..]).
  unfold hash_delete. rewrite (bind_run _ _ _ _ _ Hfb), (bind_run _ _ _ _ _ Hfe). case_decide as Hn.
  - destruct (remove_step s X r i xs xss Hh Hr Hj Hends (proj2 Hb) (Hrin Hn)) as (s1 & A & B & Hrun & Hh1 & _ & _ & _ & _ & Em & Hm).
    rewrite bind_assoc, (bind_run _ _ _ _ _ Hrun). apply rehash_end; [done|by eapply room_mono].
  - assert (r = NULL) as -> by (by destruct (decide (r = NULL))). exists s. split; [done|].
    assert (NULL ∉ X) as HnX.
    { intros Hin. by destruct (ho_known _ _ _ _ _ _ Hh NULL); [apply (ho_sub _ _ _ _ _ _ Hh)|]. }
    by replace (X ∖ {[ NULL ]}) with X by set_solver.
Qed.

Lemma clear_call s X : holds s X → ∃ s', hash_clear None s = Ret (tt, s') ∧ holds s' ∅.
Proof.
  intros Hh. pose proof Hh as [_ _ _ _ _ (xss & Hr & Hj & Hends)].
  destruct (clear_ok hash s xss Hr) as (h & Hrun & Hr' & Hk). eexists. split; [exact Hrun|].
  eapply holds_next; [exact Hh|set_solver|set_solver|exact Hr|exact Hj|done|exact Hr'| |done|by rewrite length_replicate|exact Hk|auto].
  by rewrite join_replicate_nil, elements_empty.
Qed.

Lemma hash_call_ok s X c r X' : holds s X → room (capacity E) s → on_set less E c X r X' →
  ∃ s', run_call hash less c s = Ret (r, s') ∧ holds s' X'.
Proof.
  intros Hh Hroom Hc. destruct Hc as [e X He Hf|e X r He Hn Hf|e X r He Hf|e X r Hf|e X r Hf|X|X n ->|X b ->]; cbn [run_call].
  - exact (insert_call s X e NULL Hh Hroom He Hf).
  - pose proof (insert_call s X e r Hh Hroom He Hf) as Hi. by rewrite decide_False in Hi.
  - by apply replace_call.
  - exists s. split; [by apply (find_call s X)|done].
  - by apply delete_call.
  - destruct (clear_call s X Hh) as (s' & Hrun & Hh'). exists s'. by rewrite (bind_run _ _ _ _ _ Hrun).
  - exists s. split; [|done]. pose proof Hh as [_ _ _ _ _ (xss & Hr & Hj & _)].
    unfold hash_size. unfold gets. by rewrite (holds_cnt s X xss Hr Hj).
  - exists s. split; [|done]. pose proof Hh as [_ _ _ _ _ (xss & Hr & Hj & _)].
    unfold hash_empty. rewrite bind_gets, (holds_cnt s X xss Hr Hj).
    by rewrite (bool_decide_ext (Z.of_nat (size X) = 0) (X = ∅)) by (rewrite <-leibniz_equiv_iff, <-size_empty_iff; lia).
Qed.
End spec.

(** A new table is empty. *)
Lemma init_holds (hash : Z → Z) (less : Z → Z → bool) (E : gset Z) (o : heap) s p r :
  mallocs s = Some p :: r → 0 < p → (∀ x, block p 4 x → mem s !! x = None) →
  (∀ e, e ∈ E → e ≠ NULL ∧ is_Some (mem s !! e)) → Z.of_nat (size E) < 4294967295 →
  (∀ y z, o !! y = Some z → mem s !! y = Some z ∧ y ∉ E) →
  ∃ s', hash_init s = Ret (true, s') ∧ holds hash less E o s' ∅.
Proof.
  intros Em Hpos Hfresh Hk Hz Ho. destruct (init_table_ok hash s p r Em Hpos Hfresh) as (h & Hrun & Hr & Hs).
  eexists. split; [exact Hrun|]. split; [set_solver|done|set_solver| | |].
  - intros e He. destruct (Hk e He) as [Hn Hm]. split; [done|]. simpl. by rewrite Hs.
  - intros y z Hy. destruct (Ho y z Hy) as [Hm HE]. split; [|done]. simpl. rewrite Hs; [done|by eexists].
  - exists (replicate 4 []). split; [done|]. split; [by rewrite join_replicate_nil, elements_empty|].
    intros y Hy He%ends_block. assert (is_Some (mem s !! y)) as [z Hm].
    { apply elem_of_union in Hy as [Hy|[z Hz']%elem_of_dom]; [by apply Hk|]. exists z. by apply Ho. }
    by rewrite Hfresh in Hm.
Qed.

(** ** Promises *)

Lemma run_calls_ok (hash : Z → Z) (less : Z → Z → bool) (Hhash : Hashable hash less)
    (E : gset Z) (o : heap) (alloc : hstate → option Z) (cs : list hash_call) (s : hstate) (X Y : gset Z) (rs : list Z)
    (Halloc : ∀ s, room (capacity E) (provide alloc s)) (Hholds : holds hash less E o s X)
    (Hspec : on_sets less E cs X rs Y) :
  ∃ s', run_calls hash less alloc cs s = Ret (rs, s') ∧ holds hash less E o s' Y.
Proof.
  revert s Hholds. induction Hspec as [X|c cs X r Y rs Z Hc Hcs IH]; intros s Hh.
  { by exists s. }
  assert (holds hash less E o (provide alloc s) X) as Hh'.
  { destruct Hh as [A B C D F (xss & [] & Hj & He)]. split; [done..|]. exists xss. split; [by split|done]. }
  destruct (hash_call_ok hash less E o (provide alloc s) X c r Y Hh' (Halloc s) Hc) as (s1 & Hrun1 & Hh1).
  destruct (IH s1 Hh1) as (s2 & Hrun2 & Hh2). exists s2. split; [|done].
  cbn [run_calls]. by rewrite bind_modify, (bind_run _ _ _ _ _ Hrun1), (bind_run _ _ _ _ _ Hrun2).
Qed.

(** C14: a hash table refines a set of elements. Whatever sequence of insertions,
    replacements, searches, deletions, emptyings and counts is made of a table,
    each call returns, with what the same call on the set returns: the element
    that equals the given one if there is one, and null if not. The table grows,
    shrinks and moves its elements in between without changing the set, and
    without touching other memory; and all that holds whether each call of
    malloc gives fresh memory or fails. *)
Theorem hash_refines_set (hash : Z → Z) (less : Z → Z → bool) (Hhash : Hashable hash less)
    (E : gset Z) (o : heap) (alloc : hstate → option Z) (cs : list hash_call) (s : hstate) (X Y : gset Z) (rs : list Z)
    (Halloc : ∀ s, room (capacity E) (provide alloc s)) (Hholds : holds hash less E o s X)
    (Hspec : on_sets less E cs X rs Y) :
  ∃ s', run_calls hash less alloc cs s = Ret (rs, s') ∧ holds hash less E o s' Y.
Proof. by apply (run_calls_ok hash less Hhash E o alloc cs s X). Qed.

(** ** A table in memory *)

(** Keys of the objects that the elements are in. *)
Definition key (e : Z) : Z := e / 1000.
Definition key_less (a b : Z) : bool := key a <? key b.
#[export] Instance key_hashable : Hashable key key_less.
Proof.
  unfold key_less. split; [split|]; intros; unfold Hash.alike in *; rewrite ?Z.ltb_lt, ?Z.ltb_ge in *; try lia.
Qed.

(** Fresh memory is above all other. *)
Definition above (h : heap) : Z := foldr Z.max 0 (elements (dom h)).
Definition alloc_above (s : hstate) : option Z := Some (above (mem s) + 16).

Lemma foldr_max l : 0 ≤ foldr Z.max 0 l ∧ ∀ x, x ∈ l → x ≤ foldr Z.max 0 l.
Proof.
  induction l as [|y l [H0 IH]]; simpl; [split; [lia|set_solver]|]. split; [lia|].
  intros x [->|Hx%IH]%elem_of_cons; lia.
Qed.

Lemma alloc_above_room n s : room n (provide alloc_above s).
Proof.
  intros p r [= <- _]. destruct (foldr_max (elements (dom (mem s)))) as [H0 Hle]. unfold above.
  split; [lia|]. intros x Hx. apply not_elem_of_dom. intros Hin%elem_of_elements%Hle. unfold block in Hx. simpl in Hin. lia.
Qed.

Definition demo_elems : gset Z := {[ 1000; 1008; 2000; 3000; 7000 ]}.
Definition demo_memory : hstate :=
  mkH (list_to_map ((λ e, (e, mkElem 0 0)) <$> (9000 :: elements demo_elems))) (mkTable 0 0 0) [Some 20000].
Definition demo_table : hstate := match hash_init demo_memory with Ret (_, s) => s | Err _ => demo_memory end.

#[export] Instance found_dec less X e r : Decision (found less X e r).
Proof.
  unfold found. apply or_dec; [apply _|]. apply and_dec; [apply _|].
  change (Decision (set_Forall (λ x, Hash.alike less x e = false) X)). apply _.
Defined.

Ltac decided := apply (bool_decide_unpack _); vm_compute; done.

Lemma demo_table_holds : holds key key_less demo_elems {[ 9000 := mkElem 0 0 ]} demo_table ∅.
Proof.
  destruct (init_holds key key_less demo_elems {[ 9000 := mkElem 0 0 ]} demo_memory 20000 []) as (s' & Hrun & Hh).
  - done.
  - done.
  - intros x Hx. apply not_elem_of_dom. intros Hin%elem_of_elements.
    assert (Forall (λ y, y < 20000) (elements (dom (mem demo_memory)))) as Hall by decided.
    rewrite Forall_forall in Hall. apply Hall in Hin. unfold block in Hx. lia.
  - assert (set_Forall (λ e, e ≠ NULL ∧ is_Some (mem demo_memory !! e)) demo_elems) as Hall by decided. exact Hall.
  - by vm_compute.
  - intros y z [<- <-]%lookup_singleton_Some. split; [by vm_compute|]. decided.
  - replace demo_table with s'; [done|]. unfold demo_table. by rewrite Hrun.
Qed.

Lemma hash_refines_set_witness : ∃ s',
  run_calls key key_less alloc_above
    [Insert 1000; Insert 2000; Insert 1008; Replace 1008; Find 1000; Size; Delete 2000; Find 2000; Empty] demo_table =
  Ret ([NULL; NULL; 1000; 1000; 1008; 2; 2000; NULL; 0], s') ∧ mem s' !! 9000 = Some (mkElem 0 0).
Proof.
  destruct (hash_refines_set key key_less _ demo_elems {[ 9000 := mkElem 0 0 ]} alloc_above
    [Insert 1000; Insert 2000; Insert 1008; Replace 1008; Find 1000; Size; Delete 2000; Find 2000; Empty] demo_table ∅
    (({[ 1008 ]} ∪ ({[ 2000 ]} ∪ ({[ 1000 ]} ∪ ∅)) ∖ {[ 1000 ]}) ∖ {[ 2000 ]})
    [NULL; NULL; 1000; 1000; 1008; 2; 2000; NULL; 0]) as (s' & Hrun & Hh).
  - intros s. apply alloc_above_room.
  - apply demo_table_holds.
  - eapply sets_cons; [apply set_insert_new; decided|].
    eapply sets_cons; [apply set_insert_new; decided|].
    eapply sets_cons; [apply set_insert_old; decided|].
    eapply sets_cons; [apply set_replace; decided|].
    eapply sets_cons; [apply set_find; decided|].
    eapply sets_cons; [apply set_size; decided|].
    eapply sets_cons; [apply set_delete; decided|].
    eapply sets_cons; [apply set_find; decided|].
    eapply sets_cons; [apply set_empty; decided|].
    apply sets_nil.
  - exists s'. split; [exact Hrun|]. by apply (ho_rest _ _ _ _ _ _ Hh 9000).
Defined.

Definition demo_fill : list hash_call := [Insert 1000; Insert 3000; Insert 7000; Replace 1008].
Definition demo_filled : hstate :=
  match run_calls key key_less alloc_above demo_fill demo_table with Ret (_, s) => s | Err _ => demo_table end.
Lemma demo_filled_holds :
  holds key key_less demo_elems {[ 9000 := mkElem 0 0 ]} demo_filled {[ 1008; 3000; 7000 ]}.
Proof.
  destruct (run_calls_ok key key_less _ demo_elems {[ 9000 := mkElem 0 0 ]} alloc_above demo_fill demo_table ∅
    ({[ 1008 ]} ∪ ({[ 7000 ]} ∪ ({[ 3000 ]} ∪ ({[ 1000 ]} ∪ ∅))) ∖ {[ 1000 ]})
    [NULL; NULL; NULL; 1000]) as (s' & Hrun & Hh).
  - intros s. apply alloc_above_room.
  - apply demo_table_holds.
  - eapply sets_cons; [apply set_insert_new; decided|].
    eapply sets_cons; [apply set_insert_new; decided|].
    eapply sets_cons; [apply set_insert_new; decided|].
    eapply sets_cons; [apply set_replace; decided|]. apply sets_nil.
  - unfold demo_filled. rewrite Hrun.
    replace ({[ 1008; 3000; 7000 ]} : gset Z) with
      (({[ 1008 ]} ∪ ({[ 7000 ]} ∪ ({[ 3000 ]} ∪ ({[ 1000 ]} ∪ ∅))) ∖ {[ 1000 ]}) : gset Z) by set_solver. done.
Qed.

(** ** Going through a table *)

(** [hash_first (&i, h); while (hash_next (&i)) ... hash_cur (&i) ...], as hash.h
    says to go through a table: the elements in the order they come. *)
Fixpoint collect (fuel : nat) (i : hash_iterator) : M hstate (list Z) :=
  match fuel with
  | O => throw OutOfFuel
  | S fuel =>
      let! i := hash_next i in
      if decide (hash_cur i = NULL) then ret []
      else let! es := collect fuel i in ret (hash_cur i :: es)
  end.
Definition iterate (fuel : nat) : M hstate (list Z) := let! i := hash_first in collect fuel i.

Section iteration.
Context (hash : Z → Z) (s : hstate) (xss : list (list Z)) (Hr : hrep hash s xss).
Local Abbreviation bucket i := (bucket_at (buckets (table s)) (Z.of_nat i)).

Lemma bucket_rep i xs : xss !! i = Some xs → lrep (mem s) (bucket i) xs.
Proof.
  intros Hi. destruct (tableau_lookup (buckets (table s)) xss i xs Hi) as (T & ET & _).
  pose proof (hr_lists _ _ _ Hr) as Hl. rewrite ET in Hl. by apply lists_cons in Hl as [? _].
Qed.

Lemma bucket_le i : bucket_at (buckets (table s)) (bucket_cnt (table s)) ≤ bucket_at (bucket i) 1 ↔ (length xss ≤ S i)%nat.
Proof. rewrite (hr_cnt _ _ _ Hr). unfold bucket_at. lia. Qed.

(** The iterator is at an element, after which [rest] comes. *)
Definition at_elem (it : hash_iterator) (rest : list Z) : Prop := ∃ i xs y ys,
  it = mkIter (bucket i) y ∧ xss !! i = Some (xs ++ y :: ys) ∧ rest = ys ++ mjoin (drop (S i) xss).

(** It comes to the first element of what is left. *)
Definition comes_to (it : hash_iterator) (rest : list Z) : Prop :=
  match rest with
  | [] => it_elem it = NULL
  | y :: rest => it_elem it = y ∧ y ≠ NULL ∧ at_elem it rest
  end.

Lemma next_loop_ok fuel : ∀ i xs ys,
  xss !! i = Some (xs ++ ys) → (length xss < i + fuel)%nat →
  ∃ it, next_loop fuel (mkIter (bucket i) (cursor ys (tail_of (bucket i)))) s = Ret (it, s) ∧
    comes_to it (ys ++ mjoin (drop (S i) xss)).
Proof.
  induction fuel as [|fuel IH]; intros i xs ys Hi Hf; [apply lookup_lt_Some in Hi; lia|].
  pose proof (bucket_rep i _ Hi) as Hl. cbn [next_loop it_bucket it_elem].
  rewrite (bind_run _ _ _ _ _ (on_mem_read _ _ _ (list_end_run _ _ (lrep_nonnull _ _ _ Hl)))).
  destruct ys as [|y ys].
  - rewrite decide_True, bind_gets by done. case_decide as He; rewrite bucket_le in He.
    + eexists. split; [done|]. by rewrite drop_ge by lia.
    + destruct (lookup_lt_is_Some_2 xss (S i)) as [zs Hz]; [lia|].
      assert (bucket_at (bucket i) 1 = bucket (S i)) as Eb by (unfold bucket_at; lia). rewrite Eb.
      rewrite (bind_run _ _ _ _ _ (on_mem_read _ _ _ (list_begin_run _ _ _ (bucket_rep _ _ Hz)))).
      destruct (IH (S i) [] zs Hz) as (it & Hrun & Hc); [lia|]. exists it. split; [done|].
      by rewrite (drop_S xss zs (S i) Hz).
  - rewrite decide_False by (by eapply elem_not_tail). eexists. split; [done|]. split_and!; [done| |].
    + eapply elem_nonnull; [exact Hr|]. eapply in_bucket; [exact Hi|]. set_solver.
    + by exists i, xs, y, ys.
Qed.

Lemma next_ok it rest : at_elem it rest → ∃ it', hash_next it s = Ret (it', s) ∧ comes_to it' rest.
Proof.
  intros (i & xs & y & ys & -> & Hi & ->). unfold hash_next. cbn [it_elem it_bucket].
  rewrite (bind_run _ _ _ _ _ (on_mem_read _ _ _ (list_next_ok _ _ _ _ _ (bucket_rep i _ Hi)))), bind_gets.
  apply (next_loop_ok _ i (xs ++ [y]) ys); [by rewrite <-app_assoc|].
  rewrite (hr_cnt _ _ _ Hr). lia.
Qed.

Lemma collect_ok : ∀ rest fuel it it', hash_next it s = Ret (it', s) → comes_to it' rest →
  (length rest < fuel)%nat → collect fuel it s = Ret (rest, s).
Proof.
  induction rest as [|y rest IH]; intros [|fuel] it it' Hn Hc Hf; simpl in Hf; try lia; cbn [collect].
  - rewrite (bind_run _ _ _ _ _ Hn). unfold hash_cur. by rewrite decide_True.
  - rewrite (bind_run _ _ _ _ _ Hn). destruct Hc as (Ey & Hy & Ha). unfold hash_cur.
    rewrite Ey, decide_False by done. destruct (next_ok it' rest Ha) as (it2 & Hn2 & Hc2).
    by rewrite (bind_run _ _ _ _ _ (IH fuel it' it2 Hn2 Hc2 ltac:(lia))).
Qed.

(** The iteration begins at the head of the first bucket. *)
Lemma iterate_ok fuel : (length (mjoin xss) < fuel)%nat → iterate fuel s = Ret (mjoin xss, s).
Proof.
  intros Hf. assert (is_Some (xss !! 0%nat)) as [zs Hz].
  { apply lookup_lt_is_Some_2. destruct (proj1 (hr_placed _ _ _ Hr)) as (k & Hk & El).
    pose proof (Z.pow_pos_nonneg 2 k). lia. }
  pose proof (bucket_rep 0 _ Hz) as Hl. unfold iterate, hash_first.
  assert (buckets (table s) = bucket 0) as Eb by (unfold bucket_at; lia).
  rewrite bind_assoc, bind_gets, bind_assoc. rewrite Eb.
  rewrite (bind_run _ _ s (head_of (bucket 0)) s).
  - rewrite bind_ret. destruct (next_loop_ok (S (Z.to_nat (bucket_cnt (table s)))) 0 [] zs Hz) as (it & Hrun & Hc).
    { rewrite (hr_cnt _ _ _ Hr). lia. }
    assert (mjoin xss = zs ++ mjoin (drop 1 xss)) as Ej by (by rewrite <-(take_drop_middle xss 0 zs Hz) at 1).
    rewrite Ej in *. apply (collect_ok _ fuel _ it); [|done|done].
    unfold hash_next. cbn [it_elem it_bucket]. rewrite <-Hrun.
    rewrite (bind_run _ _ s (cursor zs (tail_of (bucket 0))) s); [by rewrite bind_gets|].
    apply on_mem_read. unfold lrep, whole in Hl. destruct zs as [|z zs].
    + by apply (chain_next _ [] _ _ []).
    + by apply (chain_next _ [] _ _ (zs ++ [tail_of (bucket 0)])).
  - apply on_mem_read. unfold list_head. by rewrite bind_assert by (by apply bool_decide_true, (lrep_nonnull _ _ _ Hl)).
Qed.
End iteration.

(** going through a table with an iterator gives every element of the set
    that the table holds, each once, then null, and changes nothing. *)
Theorem iterator_visits_all (hash : Z → Z) (less : Z → Z → bool) (E : gset Z) (o : heap) (s : hstate) (X : gset Z)
    (Hholds : holds hash less E o s X) :
  ∃ es, iterate (S (size X)) s = Ret (es, s) ∧ es ≡ₚ elements X ∧ NoDup es.
Proof.
  destruct Hholds as [_ _ _ _ _ (xss & Hr & Hj & _)]. exists (mjoin xss).
  split; [|split; [done|rewrite Hj; apply NoDup_elements]]. apply (iterate_ok hash); [done|]. rewrite Hj. apply Nat.lt_succ_diag_r.
Qed.

Lemma iterator_visits_all_witness : ∃ es, iterate 4 demo_filled = Ret (es, demo_filled) ∧ es ≡ₚ [7000; 1008; 3000].
Proof.
  destruct (iterator_visits_all _ _ _ _ _ _ demo_filled_holds) as (es & Hrun & Hp & _).
  exists es. split; [exact Hrun|]. rewrite Hp. apply (bool_decide_unpack _). vm_compute. done.
Defined.
