(* ===== verification/Block.v ===== *)
(** Block devices and kernel locks: devices/block.c of Project5, and the
    sequential behaviour of locks and semaphores of threads/synch.c that the
    file system relies on. *)
From S2P Require Import Prelude.
Local Open Scope Z_scope.

Definition BLOCK_SECTOR_SIZE : Z := 512.

(** block.h 33-50 block_type *)
Inductive block_type : Set :=
| BLOCK_KERNEL | BLOCK_FILESYS | BLOCK_SCRATCH | BLOCK_SWAP
| BLOCK_RAW | BLOCK_FOREIGN.

#[export] Instance block_type_eq_dec : EqDecision block_type.
Proof. solve_decision. Defined.

(** block.c 9-22 block.  [contents] stands for the device behind [ops] and
    [aux]: a disk returns from a sector what was last written to it. *)
Record block := mkBlock {
  type : block_type;
  size : Z;
  contents : list (list Z);
  read_cnt : Z;
  write_cnt : Z;
}.

(** block.c 104-114 check_sector *)
Definition check_sector (b : block) (sector : Z) : outcome unit :=
  if decide (sector >= size b) then Err Panic else Ret tt.

(** block.c 120-126 block_read *)
Definition block_read (sector : Z) : M block (list Z) := λ b,
  let* _ := check_sector b sector in
  let* buffer := or_fault (nthZ (contents b) sector) in
  Ret (buffer, mkBlock (type b) (size b) (contents b) (read_cnt b + 1) (write_cnt b)).

(** block.c 133-140 block_write *)
Definition block_write (sector : Z) (buffer : list Z) : M block unit := λ b,
  let* _ := check_sector b sector in
  let* _ := ASSERT (bool_decide (type b ≠ BLOCK_FOREIGN)) in
  let* new := or_fault (setZ (contents b) sector buffer) in
  Ret (tt, mkBlock (type b) (size b) new (read_cnt b) (write_cnt b + 1)).

(** block.c 143-147 block_size *)
Definition block_size (b : block) : Z := size b.

(** synch.c 191-201 lock_acquire, run by the only thread: the lock's state is
    whether this thread holds it. *)
Definition lock_acquire (held : bool) : outcome bool := ASSERT (negb held);;; Ret true.

(** synch.c 228-236 lock_release *)
Definition lock_release (held : bool) : outcome bool := ASSERT held;;; Ret false.

(** synch.c 60-76 sema_down: with no other thread to raise it, a semaphore at 0
    blocks for ever. *)
Definition sema_down (value : Z) : outcome Z :=
  if decide (value = 0) then Err Blocked else Ret (value - 1).

(** synch.c 108-122 sema_up *)
Definition sema_up (value : Z) : outcome Z := Ret (u32 (value + 1)).

(** A device with [size] sectors of 512 bytes that takes writes. *)
Record block_wf (b : block) : Prop := {
  bw_type : type b ≠ BLOCK_FOREIGN;
  bw_size : Z.of_nat (length (contents b)) = size b;
  bw_bound : size b < NONE32;
  bw_sectors : Forall (λ d, length d = 512%nat) (contents b);
}.

Lemma block_read_run b i d :
  block_wf b → nthZ (contents b) i = Some d →
  block_read i b = Ret (d, mkBlock (type b) (size b) (contents b) (read_cnt b + 1) (write_cnt b)).
Proof.
  intros [? Hs _ _] Hd. pose proof (nthZ_Some _ _ _ Hd). unfold block_read, check_sector.
  rewrite decide_False by lia. simpl. by rewrite Hd.
Qed.

Lemma block_write_run b i d :
  block_wf b → 0 ≤ i < size b →
  block_write i d b =
    Ret (tt, mkBlock (type b) (size b) (<[Z.to_nat i := d]> (contents b)) (read_cnt b) (write_cnt b + 1)).
Proof.
  intros [? Hs _ _] ?. unfold block_write, check_sector.
  rewrite decide_False by lia. simpl. rewrite bool_decide_true by done. simpl.
  rewrite setZ_run by lia. done.
Qed.
