(* ===== verification/Palloc.v ===== *)
(** The page allocator: threads/palloc.c of Project5, and the address arithmetic
    of threads/vaddr.h. *)
From S2P Require Import Prelude Block Bitmap.
Local Open Scope Z_scope.

(** ** Virtual addresses *)

Definition PGBITS : Z := 12.
(** vaddr.h 20 PGSIZE *)
Definition PGSIZE : Z := Z.shiftl 1 PGBITS.
(** vaddr.h 15-21 PGMASK *)
Definition PGMASK : Z := Z.shiftl (Z.shiftl 1 PGBITS - 1) 0.
Definition PHYS_BASE : Z := 3221225472.

(** vaddr.h 24-26 pg_ofs *)
Definition pg_ofs (va : Z) : Z := Z.land va PGMASK.

(** vaddr.h 29-31 pg_no *)
Definition pg_no (va : Z) : Z := Z.shiftr va PGBITS.

(** vaddr.h 34-36 pg_round_up *)
Definition pg_round_up (va : Z) : Z := Z.land (u32 (va + PGSIZE - 1)) (not32 PGMASK).

(** vaddr.h 39-41 pg_round_down *)
Definition pg_round_down (va : Z) : Z := Z.land va (not32 PGMASK).

(** vaddr.h 56-60 is_user_vaddr *)
Definition is_user_vaddr (vaddr : Z) : bool := bool_decide (vaddr < PHYS_BASE).

(** vaddr.h 63-67 is_kernel_vaddr *)
Definition is_kernel_vaddr (vaddr : Z) : bool := bool_decide (PHYS_BASE ≤ vaddr).

(** vaddr.h 71-77 ptov *)
Definition ptov (paddr : Z) : outcome Z :=
  ASSERT (bool_decide (paddr < PHYS_BASE));;; Ret (u32 (paddr + PHYS_BASE)).

(** vaddr.h 81-87 vtop *)
Definition vtop (vaddr : Z) : outcome Z :=
  ASSERT (is_kernel_vaddr vaddr);;; Ret (vaddr - PHYS_BASE).

(** ** Pools *)

(** palloc.c 28-34 pool.  The bits of [used_map] are in front of [base], so no
    page holds them. *)
Record pool := mkPool { lock : bool; used_map : bitmap; base : Z }.

(** palloc.c 36-37 kernel_pool, with the bytes of the kernel's memory *)
Record pages := mkPages { kernel_pool : pool; user_pool : pool; bytes : Z → Z }.

(** palloc.h 6-12 palloc_flags *)
Definition PAL_ASSERT : Z := 1.
Definition PAL_ZERO : Z := 2.
Definition PAL_USER : Z := 4.
Definition has (flags flag : Z) : bool := bool_decide (Z.land flags flag ≠ 0).

(** The pool to take pages from, or to give them back to. *)
Definition the_pool (user : bool) (s : pages) : pool := if user then user_pool s else kernel_pool s.
Definition set_pool (user : bool) (p : pool) (s : pages) : pages :=
  if user then mkPages (kernel_pool s) p (bytes s) else mkPages p (user_pool s) (bytes s).
Definition in_pool {A} (user : bool) (m : M pool A) : M pages A :=
  zoom (the_pool user) (set_pool user) m.

Definition on_lock (f : bool → outcome bool) : M pool unit := λ p,
  let* l := f (lock p) in Ret (tt, mkPool l (used_map p) (base p)).
Definition on_used_map {A} (f : bitmap → outcome (A * bitmap)) : M pool A := λ p,
  let* ' (a, b) := f (used_map p) in Ret (a, mkPool (lock p) b (base p)).

(** [memset (p, c, n)] on the kernel's memory. *)
Definition filled (p n c : Z) (m : Z → Z) : Z → Z := λ a,
  if decide (p ≤ a < p + n) then c else m a.
Definition memset (p c n : Z) : M pages unit :=
  modify (λ s, mkPages (kernel_pool s) (user_pool s) (filled p n c (bytes s))).

(** palloc.c 172-182 page_from_pool *)
Definition page_from_pool (p : pool) (page : Z) : bool :=
  let page_no := pg_no page in
  let start_page := pg_no (base p) in
  let end_page := u32 (start_page + bitmap_size (used_map p)) in
  bool_decide (start_page ≤ page_no) && bool_decide (page_no < end_page).

(** palloc.c 151-170 init_pool.  [words] is what is in the memory at [base]
    after the [struct bitmap], as far as the bitmap takes it. *)
Definition init_pool (start page_cnt : Z) (words : list Z) : outcome pool :=
  let bm_pages := DIV_ROUND_UP (bitmap_buf_size page_cnt) PGSIZE in
  if decide (bm_pages > page_cnt) then Err Panic
  else
    let page_cnt := page_cnt - bm_pages in
    let* map := bitmap_create_in_buf page_cnt words (u32 (bm_pages * PGSIZE)) in
    Ret (mkPool false map (u32 (start + bm_pages * PGSIZE))).

(** palloc.c 44-62 palloc_init *)
Definition palloc_init (init_ram_pages user_page_limit : Z) (kernel_words user_words : list Z)
    (memory : Z → Z) : outcome pages :=
  let* free_start := ptov (1024 * 1024) in
  let* free_end := ptov (u32 (init_ram_pages * PGSIZE)) in
  let free_pages := (free_end - free_start) / PGSIZE in
  let user_pages := free_pages / 2 in
  let user_pages := if decide (user_pages > user_page_limit) then user_page_limit else user_pages in
  let kernel_pages := free_pages - user_pages in
  let* k := init_pool free_start kernel_pages kernel_words in
  let* u := init_pool (u32 (free_start + kernel_pages * PGSIZE)) user_pages user_words in
  Ret (mkPages k u memory).

(** palloc.c 64-101 palloc_get_multiple *)
Definition palloc_get_multiple (flags page_cnt : Z) : M pages Z :=
  let user := has flags PAL_USER in
  if decide (page_cnt = 0) then ret 0
  else
    in_pool user (on_lock lock_acquire);;!
    let! page_idx := in_pool user (on_used_map (λ b, bitmap_scan_and_flip b 0 page_cnt false)) in
    in_pool user (on_lock lock_release);;!
    let! start := gets (λ s, base (the_pool user s)) in
    let pages := if decide (page_idx ≠ BITMAP_ERROR) then u32 (start + PGSIZE * page_idx) else 0 in
    (if decide (pages ≠ 0) then
      if has flags PAL_ZERO then memset pages 0 (u32 (PGSIZE * page_cnt)) else ret tt
    else if has flags PAL_ASSERT then throw Panic else ret tt);;!
    ret pages.

(** palloc.c 103-114 palloc_get_page *)
Definition palloc_get_page (flags : Z) : M pages Z := palloc_get_multiple flags 1.

(** palloc.c 116-142 palloc_free_multiple *)
Definition palloc_free_multiple (pages page_cnt : Z) : M Palloc.pages unit :=
  assertM (bool_decide (pg_ofs pages = 0));;!
  if decide (pages = 0 ∨ page_cnt = 0) then ret tt
  else
    let! k := gets kernel_pool in
    let! u := gets user_pool in
    let! user := (if page_from_pool k pages then ret false
                  else if page_from_pool u pages then ret true
                  else throw Panic) in
    let! start := gets (λ s, base (the_pool user s)) in
    let page_idx := pg_no pages - pg_no start in
    memset pages 204 (u32 (PGSIZE * page_cnt));;!
    let! b := gets (λ s, used_map (the_pool user s)) in
    let! all := lift (bitmap_all b page_idx page_cnt) in
    assertM all;;!
    in_pool user (on_used_map (λ b, let* b := bitmap_set_multiple b page_idx page_cnt false in Ret (tt, b))).

(** palloc.c 144-149 palloc_free_page *)
Definition palloc_free_page (page : Z) : M Palloc.pages unit := palloc_free_multiple page 1.
