(* ===== verification/PallocSpec.v ===== *)
(** What palloc.c promises: pages are handed out to one owner at a time, from the
    right pool, as early in it as possible, and those that are given back can be
    had again. *)
From S2P Require Import Prelude Block Bitmap Palloc.
Local Open Scope Z_scope.

(** ** Addresses *)
Lemma pg_ofs_mod a : pg_ofs a = a mod 4096.
Proof. unfold pg_ofs. change PGMASK with (Z.ones 12). by rewrite Z.land_ones. Qed.
Lemma pg_no_div a : pg_no a = a / 4096.
Proof. unfold pg_no. by rewrite Z.shiftr_div_pow2. Qed.
Lemma pg_no_page i : pg_no (4096 * i) = i.
Proof. rewrite pg_no_div. mlia. Qed.
Lemma pg_ofs_page i : pg_ofs (4096 * i) = 0.
Proof. rewrite pg_ofs_mod. mlia. Qed.

(** ** Bits and pages *)
Lemma seg_lookup b r cnt k :
  0 ≤ r → r + cnt ≤ bit_cnt b → 0 ≤ k < cnt → seg b r cnt !! Z.to_nat k = Some (get_bit b (r + k)).
Proof.
  intros. unfold seg. rewrite lookup_take_lt, lookup_drop by lia.
  replace (Z.to_nat r + Z.to_nat k)%nat with (Z.to_nat (r + k)) by lia. apply lookup_abs. lia.
Qed.

Lemma seg_all b r cnt v : 0 ≤ r → r + cnt ≤ bit_cnt b →
  Forall (.= v) (seg b r cnt) ↔ ∀ j, r ≤ j < r + cnt → get_bit b j = v.
Proof.
  intros Hr Hle. rewrite Forall_lookup. split.
  - intros H j Hj. apply (H (Z.to_nat (j - r))). rewrite seg_lookup by lia. do 2 f_equal. lia.
  - intros H k x Hk. assert (Z.of_nat k < cnt) as Hlt.
    { apply lookup_lt_Some in Hk. unfold seg in Hk. rewrite length_take in Hk. lia. }
    rewrite <-(Nat2Z.id k), seg_lookup in Hk by lia. injection Hk as <-. apply H. lia.
Qed.

Lemma get_bit_splice b b' r n v j :
  bit_cnt b' = bit_cnt b → 0 ≤ r → 0 ≤ n → r + n ≤ bit_cnt b → 0 ≤ j < bit_cnt b →
  abs b' = splice (abs b) (Z.to_nat r) (replicate (Z.to_nat n) v) →
  get_bit b' j = if decide (r ≤ j < r + n) then v else get_bit b j.
Proof.
  intros Hc Hr Hn Hle Hj Ha. apply (inj Some). rewrite <-lookup_abs, Ha by lia. case_decide.
  - rewrite lookup_splice_new by (rewrite ?length_abs, length_replicate; lia).
    by rewrite lookup_replicate_2 by lia.
  - rewrite lookup_splice_old by (rewrite ?length_abs, ?length_replicate; lia). apply lookup_abs. lia.
Qed.

(** The [n] pages from the [i]-th on. *)
Definition page_run (i n : Z) : gset Z := list_to_set (seqZ i n).
Lemma elem_page_run i n j : j ∈ page_run i n ↔ i ≤ j < i + n.
Proof. unfold page_run. rewrite elem_of_list_to_set, elem_of_seqZ. lia. Qed.

(** ** Ownership *)

(** The pages of a pool: the first one, and how many. *)
Definition area : Type := Z * Z.
Definition in_area (a : area) (i : Z) : Prop := a.1 ≤ i < a.1 + a.2.

(** The pool has the pages [a], of which those in [O] have owners. *)
Record pool_owns (a : area) (p : pool) (O : gset Z) : Prop := {
  po_wf : wf (used_map p);
  po_free : lock p = false;
  po_base : base p = 4096 * a.1;
  po_cnt : bit_cnt (used_map p) = a.2;
  po_range : 0 < a.1 ∧ a.1 + a.2 ≤ 1048576;
  po_bits : ∀ j, 0 ≤ j < a.2 → get_bit (used_map p) j = bool_decide (a.1 + j ∈ O);
}.

Record owns (L : bool → area) (s : pages) (O : gset Z) : Prop := {
  ow_pool u : pool_owns (L u) (the_pool u s) O;
  ow_apart : (L false).1 + (L false).2 ≤ (L true).1;
  ow_owned i : i ∈ O → ∃ u, in_area (L u) i;
}.

(** [n] pages of the area from the [i]-th on, all without an owner. *)
Definition free_run (a : area) (O : gset Z) (i n : Z) : Prop :=
  a.1 ≤ i ∧ i + n ≤ a.1 + a.2 ∧ ∀ j, i ≤ j < i + n → j ∉ O.

Lemma free_run_bits a p O i n : pool_owns a p O → 0 < n → 0 ≤ i → i + n ≤ a.2 →
  Forall (.= false) (seg (used_map p) i n) ↔ free_run a O (a.1 + i) n.
Proof.
  intros [Hwf Hl Hb Hc Hr Hbits] Hn Hi Hle. rewrite seg_all by (rewrite ?Hc; lia). split.
  - intros H. split_and!; [lia..|]. intros j Hj Hin. specialize (H (j - a.1) ltac:(lia)).
    rewrite Hbits, bool_decide_eq_false in H by lia. apply H. by replace (a.1 + (j - a.1)) with j by lia.
  - intros (_ & _ & H) j Hj. rewrite Hbits by lia. apply bool_decide_eq_false, H. lia.
Qed.

Lemma owned_run_bits a p O i n : pool_owns a p O → 0 < n → 0 ≤ i → i + n ≤ a.2 →
  Forall (.= true) (seg (used_map p) i n) ↔ page_run (a.1 + i) n ⊆ O.
Proof.
  intros [Hwf Hl Hb Hc Hr Hbits] Hn Hi Hle. rewrite seg_all by (rewrite ?Hc; lia). split.
  - intros H j Hj%elem_page_run. specialize (H (j - a.1) ltac:(lia)).
    rewrite Hbits, bool_decide_eq_true in H by lia. by replace (a.1 + (j - a.1)) with j in H by lia.
  - intros H j Hj. rewrite Hbits by lia. apply bool_decide_eq_true, H, elem_page_run. lia.
Qed.

(** The bits of a run in one pool change; then so do the owners. *)
Lemma pool_owns_next a p O b O' i n v :
  pool_owns a p O → wf b → bit_cnt b = bit_cnt (used_map p) → 0 ≤ i → 0 ≤ n → i + n ≤ a.2 →
  abs b = splice (abs (used_map p)) (Z.to_nat i) (replicate (Z.to_nat n) v) →
  (∀ j, in_area a j → j ∈ O' ↔ if decide (a.1 + i ≤ j < a.1 + i + n) then v = true else j ∈ O) →
  pool_owns a (mkPool false b (base p)) O'.
Proof.
  intros [Hwf Hl Hb Hc Hr Hbits] Hwf' Hc' Hi Hn Hle Ha HO. split; simpl; try done; [congruence|].
  intros j Hj. rewrite (get_bit_splice (used_map p) b i n v j) by (done || lia).
  specialize (HO (a.1 + j) ltac:(unfold in_area; lia)). destruct (decide (i ≤ j < i + n)).
  - rewrite decide_True in HO by lia.
    destruct v; symmetry; [apply bool_decide_eq_true|apply bool_decide_eq_false]; rewrite HO; done.
  - rewrite decide_False in HO by lia. rewrite Hbits by lia. apply bool_decide_ext. by rewrite HO.
Qed.

Lemma pool_owns_other a p O O' : pool_owns a p O → (∀ j, in_area a j → j ∈ O' ↔ j ∈ O) → pool_owns a p O'.
Proof.
  intros [Hwf Hl Hb Hc Hr Hbits] HO. split; try done. intros j Hj. rewrite Hbits by done.
  apply bool_decide_ext. rewrite HO; [done|]. unfold in_area. lia.
Qed.

Lemma areas_apart L s O u i : owns L s O → in_area (L u) i → ¬ in_area (L (negb u)) i.
Proof. intros [_ Ha _]. unfold in_area. destruct u; simpl; lia. Qed.

(** ** Getting pages *)
Lemma in_pool_run {A} u (m : M pool A) s a p :
  m (the_pool u s) = Ret (a, p) → in_pool u m s = Ret (a, set_pool u p s).
Proof. unfold in_pool, zoom. by intros ->. Qed.

Lemma the_set_pool u p s : the_pool u (set_pool u p s) = p.
Proof. by destruct u. Qed.
Lemma set_set_pool u p q s : set_pool u p (set_pool u q s) = set_pool u p s.
Proof. by destruct u. Qed.
Lemma set_the_pool u s : set_pool u (the_pool u s) s = s.
Proof. by destruct u, s. Qed.
Lemma other_pool u p s : the_pool (negb u) (set_pool u p s) = the_pool (negb u) s.
Proof. by destruct u. Qed.
Lemma bytes_set_pool u p s : bytes (set_pool u p s) = bytes s.
Proof. by destruct u. Qed.

Definition set_bytes (m : Z → Z) (s : pages) : pages := mkPages (kernel_pool s) (user_pool s) m.
Lemma pool_set_bytes u m s : the_pool u (set_bytes m s) = the_pool u s.
Proof. by destruct u. Qed.

(** The lock is taken, the bits are searched and flipped, the lock is given back. *)
Definition search (user : bool) (n : Z) : M pages Z :=
  in_pool user (on_lock lock_acquire);;!
  let! idx := in_pool user (on_used_map (λ b, bitmap_scan_and_flip b 0 n false)) in
  in_pool user (on_lock lock_release);;! ret idx.

Lemma search_run user n s idx b :
  lock (the_pool user s) = false → bitmap_scan_and_flip (used_map (the_pool user s)) 0 n false = Ret (idx, b) →
  search user n s = Ret (idx, set_pool user (mkPool false b (base (the_pool user s))) s).
Proof.
  intros Hl Hb. unfold search. set (p := the_pool user s) in *.
  rewrite (bind_run _ _ s tt (set_pool user (mkPool true (used_map p) (base p)) s)).
  - rewrite (bind_run _ _ _ idx (set_pool user (mkPool true b (base p)) s)).
    + rewrite (bind_run _ _ _ tt (set_pool user (mkPool false b (base p)) s)); [done|].
      rewrite (in_pool_run _ _ _ tt (mkPool false b (base p))); [by rewrite set_set_pool|]. by rewrite the_set_pool.
    + rewrite (in_pool_run _ _ _ idx (mkPool true b (base p))); [by rewrite set_set_pool|].
      rewrite the_set_pool. unfold on_used_map. cbn [used_map lock base]. by rewrite Hb.
  - apply in_pool_run. fold p. unfold on_lock. by rewrite Hl.
Qed.

Lemma get_unfold flags n s : n ≠ 0 → palloc_get_multiple flags n s =
  (let! idx := search (has flags PAL_USER) n in
   let! start := gets (λ s, base (the_pool (has flags PAL_USER) s)) in
   let p := if decide (idx ≠ BITMAP_ERROR) then u32 (start + PGSIZE * idx) else 0 in
   (if decide (p ≠ 0) then if has flags PAL_ZERO then memset p 0 (u32 (PGSIZE * n)) else ret tt
    else if has flags PAL_ASSERT then throw Panic else ret tt);;!
   ret p) s.
Proof.
  intros Hn. unfold palloc_get_multiple, search. rewrite decide_False by done. unfold bind.
  destruct (in_pool _ (on_lock lock_acquire) s) as [[[] s1]|]; [|done].
  destruct (in_pool _ (on_used_map _) s1) as [[i s2]|]; [|done].
  by destruct (in_pool _ (on_lock lock_release) s2) as [[[] s3]|].
Qed.

Lemma owns_next L s O u b i n v O' m :
  owns L s O → wf b → bit_cnt b = bit_cnt (used_map (the_pool u s)) → (L u).1 ≤ i → 0 ≤ n → i + n ≤ (L u).1 + (L u).2 →
  abs b = splice (abs (used_map (the_pool u s))) (Z.to_nat (i - (L u).1)) (replicate (Z.to_nat n) v) →
  (∀ j, j ∈ O' ↔ if decide (i ≤ j < i + n) then v = true else j ∈ O) →
  owns L (set_bytes m (set_pool u (mkPool false b (base (the_pool u s))) s)) O'.
Proof.
  intros Ho Hwf Hc Hi Hn Hle Ha HO. pose proof Ho as [Hp Hap Hown]. split; [|done|].
  - intros w. rewrite pool_set_bytes. destruct (decide (w = u)) as [->|Hne].
    + rewrite the_set_pool. eapply (pool_owns_next (L u) _ O b O' (i - (L u).1) n v); [apply Hp|done..|lia|lia|lia|done|].
      intros j _. rewrite HO. by replace ((L u).1 + (i - (L u).1)) with i by lia.
    + assert (w = negb u) as -> by (destruct w, u; simpl; congruence). rewrite other_pool. apply (pool_owns_other _ _ O); [done|].
      intros j Hj. rewrite HO, decide_False; [done|]. intros Hr. apply (areas_apart L s O u j Ho); [|done].
      unfold in_area. lia.
  - intros j Hj. apply HO in Hj. case_decide; [|by apply Hown]. exists u. unfold in_area. lia.
Qed.

Lemma get_ok L s O flags n :
  owns L s O → 0 < n →
  let u := has flags PAL_USER in
  (∃ i s', palloc_get_multiple flags n s = Ret (4096 * i, s') ∧ i ≠ 0 ∧
     free_run (L u) O i n ∧ (∀ j, j < i → ¬ free_run (L u) O j n) ∧ owns L s' (page_run i n ∪ O) ∧
     bytes s' = if has flags PAL_ZERO then filled (4096 * i) (4096 * n) 0 (bytes s) else bytes s) ∨
  ((∀ i, ¬ free_run (L u) O i n) ∧
     palloc_get_multiple flags n s = if has flags PAL_ASSERT then Err Panic else Ret (0, s)).
Proof.
  intros Ho Hn u. pose proof (ow_pool _ _ _ Ho u) as Hp. pose proof Hp as [Hwf Hl Hb Hc Hr Hbits].
  rewrite get_unfold by lia. fold u. set (p := the_pool u s) in *.
  destruct (bitmap_scan_and_flip_spec (used_map p) 0 n false) as (idx & b & Hrun & Hwf' & Hc' & Hcase);
    [done|pose proof (wf_cnt _ Hwf); lia|lia|].
  rewrite (bind_run _ _ _ _ _ (search_run u n s idx b Hl Hrun)), bind_gets. rewrite the_set_pool. fold p. cbn [base].
  destruct Hcase as [(Hne & Hi & Hle & Hall & Hmin & Ha)|(-> & -> & Hno)].
  - left. cbv zeta. rewrite (decide_True (P := idx ≠ BITMAP_ERROR)) by done. rewrite Hc in Hle.
    rewrite (free_run_bits (L u) p O idx n Hp Hn Hi Hle) in Hall.
    assert (u32 (base p + PGSIZE * idx) = 4096 * ((L u).1 + idx)) as ->.
    { change PGSIZE with 4096. rewrite Hb, u32_small; lia. }
    assert (u32 (PGSIZE * n) = 4096 * n) as -> by (change PGSIZE with 4096; rewrite u32_small; lia).
    rewrite decide_True by lia. set (i := (L u).1 + idx) in *.
    set (m := if has flags PAL_ZERO then filled (4096 * i) (4096 * n) 0 (bytes s) else bytes s).
    exists i, (set_bytes m (set_pool u (mkPool false b (base p)) s)). split_and!; [|lia|done| | |done].
    + unfold m, set_bytes. destruct (has flags PAL_ZERO); destruct u; done.
    + intros j Hj Hfree. destruct (decide (j < (L u).1)); [by destruct Hfree; lia|].
      apply (Hmin (j - (L u).1)); [lia|]. apply (free_run_bits (L u) p O); [done|done|lia|lia|].
      by replace ((L u).1 + (j - (L u).1)) with j by lia.
    + apply (owns_next L s O u b i n true); [done|done|done|lia|lia|lia| |].
      { fold p. rewrite Ha. do 2 f_equal. lia. }
      intros j. rewrite elem_of_union, elem_page_run. case_decide; naive_solver.
  - right. split.
    + intros i Hf. apply (Hno (i - (L u).1)); [destruct Hf; lia|rewrite Hc; destruct Hf as (?&?&_); lia|].
      apply (free_run_bits (L u) p O); [done|done|destruct Hf as (?&?&_); lia..|].
      by replace ((L u).1 + (i - (L u).1)) with i by lia.
    + rewrite decide_False by auto. rewrite decide_False by auto.
      assert (mkPool false (used_map p) (base p) = p) as -> by (destruct p; simpl in *; by subst).
      unfold p. rewrite set_the_pool. by destruct (has flags PAL_ASSERT).
Qed.

(** ** Giving pages back *)
Lemma page_from_pool_ok a p O i : pool_owns a p O → page_from_pool p (4096 * i) = bool_decide (in_area a i).
Proof.
  intros [Hwf _ Hb Hc Hr _]. pose proof (wf_cnt _ Hwf). unfold page_from_pool, bitmap_size.
  rewrite Hb, !pg_no_page, Hc, u32_small by lia. unfold in_area.
  by rewrite <-bool_decide_and.
Qed.

Lemma pool_of_page L s O u i : owns L s O → in_area (L u) i →
  page_from_pool (kernel_pool s) (4096 * i) = negb u ∧ page_from_pool (user_pool s) (4096 * i) = u.
Proof.
  intros Ho Hi. change (kernel_pool s) with (the_pool false s). change (user_pool s) with (the_pool true s).
  rewrite (page_from_pool_ok (L false) _ O i (ow_pool _ _ _ Ho false)).
  rewrite (page_from_pool_ok (L true) _ O i (ow_pool _ _ _ Ho true)).
  pose proof (areas_apart L s O u i Ho Hi) as Hn. destruct u; simpl in *; split;
    (by apply bool_decide_true) || (by apply bool_decide_false).
Qed.

(** What is left to do once the pool is known. *)
Definition release (u : bool) (a idx n : Z) : M pages unit :=
  memset a 204 (u32 (PGSIZE * n));;!
  let! b := gets (λ s, used_map (the_pool u s)) in
  let! all := lift (bitmap_all b idx n) in
  assertM all;;!
  in_pool u (on_used_map (λ b, let* b := bitmap_set_multiple b idx n false in Ret (tt, b))).

Lemma free_unfold L s O u i n : owns L s O → in_area (L u) i → 0 < n →
  palloc_free_multiple (4096 * i) n s = release u (4096 * i) (i - (L u).1) n s.
Proof.
  intros Ho Hi Hn. pose proof (ow_pool _ _ _ Ho u) as [Hwf _ Hb Hc Hr _].
  unfold palloc_free_multiple. rewrite bind_assert by (by apply bool_decide_true, pg_ofs_page).
  rewrite decide_False by (unfold in_area in Hi; lia). rewrite !bind_gets.
  destruct (pool_of_page L s O u i Ho Hi) as [-> ->].
  rewrite (bind_run _ _ s u s) by (by destruct u). rewrite bind_gets.
  by rewrite pg_no_page, Hb, pg_no_page.
Qed.

Lemma free_ok L s O u i n :
  owns L s O → 0 < n → (L u).1 ≤ i → i + n ≤ (L u).1 + (L u).2 → page_run i n ⊆ O →
  ∃ s', palloc_free_multiple (4096 * i) n s = Ret (tt, s') ∧ owns L s' (O ∖ page_run i n) ∧
    bytes s' = filled (4096 * i) (4096 * n) 204 (bytes s).
Proof.
  intros Ho Hn Hi Hle Hsub. pose proof (ow_pool _ _ _ Ho u) as Hp. pose proof Hp as [Hwf Hl Hb Hc Hr Hbits].
  rewrite (free_unfold L s O u i n) by (done || unfold in_area; lia). unfold release, memset. rewrite bind_modify.
  change (u32 (PGSIZE * n)) with (u32 (4096 * n)). rewrite u32_small by lia.
  set (s1 := mkPages _ _ _). assert (the_pool u s1 = the_pool u s) as E1 by (by destruct u).
  rewrite bind_gets, E1. set (p := the_pool u s) in *.
  rewrite bitmap_all_spec, bind_lift by (rewrite ?Hc; done || lia).
  rewrite bind_assert.
  2: { apply bool_decide_true, (owned_run_bits (L u) p O); [done|lia..|]. by replace ((L u).1 + (i - (L u).1)) with i by lia. }
  destruct (bitmap_set_multiple_spec (used_map p) (i - (L u).1) n false) as (b & Hrun & Hwf' & Hc' & Ha);
    [done|rewrite ?Hc; lia..|].
  exists (set_bytes (filled (4096 * i) (4096 * n) 204 (bytes s)) (set_pool u (mkPool false b (base p)) s)).
  split_and!; [| |done].
  - rewrite (in_pool_run _ _ _ tt (mkPool false b (base p))); [by destruct u|].
    rewrite E1. unfold on_used_map. by rewrite Hrun, Hl.
  - apply (owns_next L s O u b i n false); try done; try lia.
    intros j. rewrite elem_of_difference, elem_page_run. case_decide; naive_solver.
Qed.

(** Freeing what is not allocated fails. *)
Lemma free_panics L s O a n :
  owns L s O → 0 < n < 4290772992 → a ≠ 0 →
  (¬ ∃ u, 4096 * (L u).1 ≤ a ∧ a + 4096 * n ≤ 4096 * ((L u).1 + (L u).2) ∧ a mod 4096 = 0 ∧ page_run (a / 4096) n ⊆ O) →
  palloc_free_multiple a n s = Err Panic.
Proof.
  intros Ho Hn Ha Hbad. destruct (decide (a mod 4096 = 0)) as [Hal|Hal].
  2: { unfold palloc_free_multiple, bind, assertM, lift, ASSERT. by rewrite pg_ofs_mod, bool_decide_false. }
  assert (a = 4096 * (a / 4096)) as E by mlia. set (i := a / 4096) in *. rewrite E in *. clear E.
  destruct (decide (in_area (L false) i ∨ in_area (L true) i)) as [Hin|Hout].
  - assert (∃ u, in_area (L u) i) as (u & Hi) by (destruct Hin; eauto).
    rewrite (free_unfold L s O u i n) by (done || lia). pose proof (ow_pool _ _ _ Ho u) as Hp.
    pose proof Hp as [Hwf Hl Hb Hc Hr Hbits]. pose proof (wf_cnt _ Hwf).
    unfold release, memset. rewrite bind_modify, bind_gets. set (s1 := mkPages _ _ _).
    assert (the_pool u s1 = the_pool u s) as -> by (by destruct u). unfold in_area in Hi.
    destruct (decide (i + n ≤ (L u).1 + (L u).2)) as [Hle|Hle].
    + rewrite bitmap_all_spec, bind_lift by (rewrite ?Hc; done || lia).
      unfold bind, assertM, lift, ASSERT. rewrite bool_decide_false; [done|].
      rewrite (owned_run_bits (L u) _ O) by (done || lia). intros Hsub. apply Hbad. exists u.
      replace ((L u).1 + (i - (L u).1)) with i in Hsub by lia.
      split_and!; [lia|lia|mlia|]. by replace (4096 * i / 4096) with i by mlia.
    + unfold bitmap_all, bitmap_contains, assert_range. rewrite Hc, bool_decide_true by lia. cbn [obind ASSERT].
      by rewrite u32_small, bool_decide_false by lia.
  - unfold palloc_free_multiple. rewrite bind_assert by (by apply bool_decide_true, pg_ofs_page).
    rewrite decide_False by lia. rewrite !bind_gets.
    change (kernel_pool s) with (the_pool false s). change (user_pool s) with (the_pool true s).
    rewrite (page_from_pool_ok (L false) _ O i (ow_pool _ _ _ Ho false)), bool_decide_false by tauto.
    rewrite (page_from_pool_ok (L true) _ O i (ow_pool _ _ _ Ho true)), bool_decide_false by tauto. done.
Qed.

(** ** Initialisation *)

(** The pages that a pool's bitmap takes. *)
Definition map_pages (cnt : Z) : Z := (8 + 4 * ((cnt + 31) / 32) + 4095) / 4096.
Definition pool_area (first cnt : Z) : area := (first + map_pages cnt, cnt - map_pages cnt).

Lemma map_pages_eq cnt : 0 ≤ cnt ≤ 1048576 → DIV_ROUND_UP (bitmap_buf_size cnt) PGSIZE = map_pages cnt.
Proof.
  intros H. unfold DIV_ROUND_UP, bitmap_buf_size, byte_cnt. rewrite elem_cnt_eq by lia.
  change PGSIZE with 4096. rewrite (u32_small (4 * _)) by mlia. rewrite (u32_small (8 + _)) by mlia.
  rewrite u32_small by mlia. unfold map_pages. f_equal. lia.
Qed.

(** The memory for a bitmap of [cnt] bits: words of 32 bits, with anything in them. *)
Definition words_for (cnt : Z) (words : list Z) : Prop :=
  Z.of_nat (length words) = elem_cnt cnt ∧ Forall (λ w, 0 ≤ w < 4294967296) words.

Lemma init_pool_ok first cnt words :
  0 < first → 0 ≤ cnt → first + cnt ≤ 1048575 → map_pages cnt ≤ cnt → words_for (cnt - map_pages cnt) words →
  ∃ p, init_pool (4096 * first) cnt words = Ret p ∧ pool_owns (pool_area first cnt) p ∅.
Proof.
  intros Hf Hc Hle Hm [Hlen Hw]. unfold init_pool. rewrite map_pages_eq by lia. rewrite decide_False by lia.
  assert (0 < map_pages cnt) as Hm0 by (unfold map_pages; mlia).
  unfold bitmap_create_in_buf. change PGSIZE with 4096. rewrite (u32_small (map_pages cnt * 4096)) by lia.
  rewrite bool_decide_true.
  2: { unfold bitmap_buf_size, byte_cnt. rewrite elem_cnt_eq by lia.
       rewrite (u32_small (4 * _)) by mlia. rewrite u32_small by mlia.
       transitivity (8 + 4 * ((cnt + 31) / 32)); [|unfold map_pages; mlia].
       assert ((cnt - map_pages cnt + 31) / 32 ≤ (cnt + 31) / 32) by (apply Z.div_le_mono; lia). lia. }
  cbn [obind ASSERT]. unfold bitmap_set_all. set (b0 := mkBitmap (cnt - map_pages cnt) words).
  assert (wf b0) as Hwf0 by (split; simpl; [lia|done|done]).
  destruct (bitmap_set_multiple_spec b0 0 (bitmap_size b0) false Hwf0) as (b & -> & Hwf & Hcnt & Ha);
    [lia|simpl; lia|done|]. cbn [obind].
  eexists. split; [done|]. split; simpl; try done.
  - rewrite u32_small by lia. lia.
  - lia.
  - intros j Hj. rewrite (get_bit_splice b0 b 0 (cnt - map_pages cnt) false j); [|done|lia|simpl; lia|simpl; lia|simpl; lia|done].
    rewrite decide_True by lia. symmetry. by apply bool_decide_eq_false.
Qed.

(** How palloc_init divides the memory of a machine with [ram] pages: the kernel
    pool, or the user pool. *)
Definition user_share (ram limit : Z) : Z := Z.min ((ram - 256) / 2) limit.
Definition ram_areas (ram limit : Z) (user : bool) : area :=
  let u := user_share ram limit in
  if user then pool_area (786688 + (ram - 256 - u)) u else pool_area 786688 (ram - 256 - u).

Lemma palloc_init_ok ram limit kw uw m :
  258 ≤ ram < 262144 → 1 ≤ limit →
  words_for (ram_areas ram limit false).2 kw → words_for (ram_areas ram limit true).2 uw →
  ∃ s, palloc_init ram limit kw uw m = Ret s ∧ owns (ram_areas ram limit) s ∅ ∧ bytes s = m.
Proof.
  intros Hr Hl Hk Hu. unfold palloc_init, ptov. change PGSIZE with 4096. change PHYS_BASE with 3221225472.
  rewrite (u32_small (ram * 4096)) by lia. rewrite !bool_decide_true by lia. cbn [obind ASSERT].
  rewrite !u32_small by lia.
  replace ((ram * 4096 + 3221225472 - (1024 * 1024 + 3221225472)) / 4096) with (ram - 256) by mlia.
  assert ((if decide ((ram - 256) / 2 > limit) then limit else (ram - 256) / 2) = user_share ram limit) as ->
    by (unfold user_share; case_decide; lia).
  unfold ram_areas in *. set (u := user_share ram limit) in *.
  assert (1 ≤ u ∧ u ≤ (ram - 256) / 2) as Hur by (unfold u, user_share; mlia).
  assert (∀ c, 1 ≤ c → map_pages c ≤ c) as Hmp by (intros; unfold map_pages; mlia).
  destruct (init_pool_ok 786688 (ram - 256 - u) kw) as (k & Ek & Hok); [lia|mlia|mlia|apply Hmp; mlia|done|].
  destruct (init_pool_ok (786688 + (ram - 256 - u)) u uw) as (us & Eu & Hou); [mlia|lia|lia|apply Hmp; lia|done|].
  change (1024 * 1024 + 3221225472) with (4096 * 786688). rewrite Ek. cbn [obind].
  rewrite u32_small by mlia.
  replace (4096 * 786688 + (ram - 256 - u) * 4096) with (4096 * (786688 + (ram - 256 - u))) by lia.
  rewrite Eu. eexists. split; [done|]. split; [|done]. split; [by intros []| |set_solver].
  simpl. unfold map_pages. mlia.
Qed.

(** ** Calls *)
Inductive page_call :=
| Get (flags cnt : Z) | Free (page cnt : Z).

Definition page_op (c : page_call) : M pages Z :=
  match c with
  | Get flags cnt => palloc_get_multiple flags cnt
  | Free page cnt => palloc_free_multiple page cnt;;! ret 0
  end.

Fixpoint page_ops (cs : list page_call) : M pages (list Z) :=
  match cs with
  | [] => ret []
  | c :: cs => let! r := page_op c in let! rs := page_ops cs in ret (r :: rs)
  end.

(** The same on the set of pages with an owner and the bytes of the memory, for
    the calls that the code allows. *)
Inductive on_pages (L : bool → area) (O : gset Z) (m : Z → Z) : page_call → Z → gset Z → (Z → Z) → Prop :=
| pages_get flags n i : 0 < n → free_run (L (has flags PAL_USER)) O i n →
    (∀ j, j < i → ¬ free_run (L (has flags PAL_USER)) O j n) →
    on_pages L O m (Get flags n) (4096 * i) (page_run i n ∪ O)
      (if has flags PAL_ZERO then filled (4096 * i) (4096 * n) 0 m else m)
| pages_none flags n : 0 < n → (∀ i, ¬ free_run (L (has flags PAL_USER)) O i n) → has flags PAL_ASSERT = false →
    on_pages L O m (Get flags n) 0 O m
| pages_get_0 flags : on_pages L O m (Get flags 0) 0 O m
| pages_free u i n : 0 < n → (L u).1 ≤ i → i + n ≤ (L u).1 + (L u).2 → page_run i n ⊆ O →
    on_pages L O m (Free (4096 * i) n) 0 (O ∖ page_run i n) (filled (4096 * i) (4096 * n) 204 m)
| pages_free_0 i n : i = 0 ∨ n = 0 → on_pages L O m (Free (4096 * i) n) 0 O m.

Inductive on_all_pages (L : bool → area) : gset Z → (Z → Z) → list page_call → list Z → gset Z → (Z → Z) → Prop :=
| all_nil O m : on_all_pages L O m [] [] O m
| all_cons O m c r O' m' cs rs O'' m'' : on_pages L O m c r O' m' → on_all_pages L O' m' cs rs O'' m'' →
    on_all_pages L O m (c :: cs) (r :: rs) O'' m''.

Lemma first_run_unique a O n i j : free_run a O i n → (∀ k, k < i → ¬ free_run a O k n) →
  free_run a O j n → (∀ k, k < j → ¬ free_run a O k n) → i = j.
Proof.
  intros Hi Hni Hj Hnj. destruct (decide (i < j)) as [Hlt|]; [by destruct (Hnj i Hlt)|].
  destruct (decide (j < i)) as [Hlt|]; [by destruct (Hni j Hlt)|lia].
Qed.

Lemma page_op_ok L s O c r O' m' :
  owns L s O → on_pages L O (bytes s) c r O' m' →
  ∃ s', page_op c s = Ret (r, s') ∧ owns L s' O' ∧ bytes s' = m'.
Proof.
  intros Ho Hc. destruct Hc as [flags n i Hn Hf Hmin|flags n Hn Hno Hna|flags|u i n Hn Hi Hle Hsub|i n H0]; cbn [page_op].
  - destruct (get_ok L s O flags n Ho Hn) as [(j & s' & Hrun & _ & Hfj & Hminj & Ho' & Hm)|[Hno _]]; [|by destruct (Hno i)].
    assert (j = i) as -> by by eapply first_run_unique. by exists s'.
  - destruct (get_ok L s O flags n Ho Hn) as [(j & s' & _ & _ & Hfj & _)|[_ Hrun]]; [by destruct (Hno j)|].
    rewrite Hna in Hrun. by exists s.
  - by exists s.
  - destruct (free_ok L s O u i n Ho Hn Hi Hle Hsub) as (s' & Hrun & Ho' & Hm). exists s'.
    by rewrite (bind_run _ _ _ _ _ Hrun).
  - exists s. split_and!; try done. unfold palloc_free_multiple.
    rewrite (bind_run _ _ s tt s); [done|]. rewrite bind_assert by (by apply bool_decide_true, pg_ofs_page).
    by rewrite decide_True by lia.
Qed.

(** C17: the page allocator refines a set of pages with owners: whatever pages are
    asked for and given back, in whatever order, each call returns, a request
    for [n] pages with the first [n] contiguous pages of its pool that nobody
    owns, or with null if there are none; so no page is handed out twice. The
    pages are zeroed if that is asked for, and filled with 0xcc when they are
    given back; no other byte changes. *)
Theorem palloc_refines_ownership (L : bool → area) (s : pages) (O O' : gset Z) (cs : list page_call)
    (rs : list Z) (m' : Z → Z) (Howns : owns L s O) (Hspec : on_all_pages L O (bytes s) cs rs O' m') :
  ∃ s', page_ops cs s = Ret (rs, s') ∧ owns L s' O' ∧ bytes s' = m'.
Proof.
  remember (bytes s) as m eqn:Em. revert s Howns Em.
  induction Hspec as [O m|O m c r O1 m1 cs rs O2 m2 Hc Hcs IH]; intros s Ho ->; [by exists s|].
  destruct (page_op_ok L s O c r O1 m1 Ho Hc) as (s1 & Hrun & Ho1 & Hm1).
  destruct (IH s1 Ho1 (eq_sym Hm1)) as (s2 & Hrun2 & Ho2 & Hm2). exists s2. split; [|done].
  cbn [page_ops]. by rewrite (bind_run _ _ _ _ _ Hrun), (bind_run _ _ _ _ _ Hrun2).
Qed.

(** pages that do not all have an owner, or that are not of one pool, or an
    address inside of a page, cannot be given back: the kernel stops. So does a
    second release of the same pages. *)
Theorem palloc_free_rejects (L : bool → area) (s : pages) (O : gset Z) (a n : Z)
    (Howns : owns L s O) (Hn : 0 < n < 4290772992) (Ha : a ≠ 0)
    (Hbad : ¬ ∃ u, 4096 * (L u).1 ≤ a ∧ a + 4096 * n ≤ 4096 * ((L u).1 + (L u).2) ∧ a mod 4096 = 0 ∧
      page_run (a / 4096) n ⊆ O) :
  palloc_free_multiple a n s = Err Panic.
Proof. by apply (free_panics L s O). Qed.

(** ** A machine with 300 pages *)
Definition small_areas : bool → area := ram_areas 300 4.
Definition small_ram : pages :=
  match palloc_init 300 4 [5; 4294967295] [123] (λ _, 7) with Ret s => s | Err _ => mkPages (mkPool false (mkBitmap 0 []) 0) (mkPool false (mkBitmap 0 []) 0) (λ _, 0) end.

Lemma small_ram_owns : owns small_areas small_ram ∅ ∧ bytes small_ram = λ _, 7.
Proof.
  destruct (palloc_init_ok 300 4 [5; 4294967295] [123] (λ _, 7)) as (s & Hrun & Ho & Hm); [lia|lia| | |].
  - split; [done|]. by repeat constructor.
  - split; [done|]. by repeat constructor.
  - unfold small_ram. rewrite Hrun. split; [exact Ho|exact Hm].
Qed.

(** The user pool has three pages. *)
Lemma small_user : small_areas true = (786729, 3).
Proof. reflexivity. Qed.

Lemma free_small O i n : 786729 ≤ i → i + n ≤ 786732 → (∀ j, i ≤ j < i + n → j ∉ O) → free_run (small_areas true) O i n.
Proof. intros. rewrite small_user. unfold free_run. simpl. split_and!; [lia|lia|done]. Qed.
Lemma not_free_small O i n : 0 < n → i < 786729 ∨ 786732 < i + n ∨ i ∈ O ∨ i + n - 1 ∈ O → ¬ free_run (small_areas true) O i n.
Proof.
  intros Hn H (H1 & H2 & H3). rewrite small_user in H1, H2. simpl in H1, H2.
  destruct H as [?|[?|[Hi|Hi]]]; [lia|lia|by apply (H3 i); [lia|]|by apply (H3 (i + n - 1)); [lia|]].
Qed.

Lemma palloc_refines_ownership_witness : ∃ s',
  page_ops [Get PAL_USER 1; Get (PAL_USER + PAL_ZERO) 2; Get PAL_USER 1; Free (4096 * 786729) 1; Get PAL_USER 2] small_ram =
  Ret ([4096 * 786729; 4096 * 786730; 0; 0; 0], s') ∧
  bytes s' (4096 * 786730 + 5) = 0 ∧ bytes s' (4096 * 786729 + 5) = 204.
Proof.
  destruct (palloc_refines_ownership small_areas small_ram ∅
    ((page_run 786730 2 ∪ (page_run 786729 1 ∪ ∅)) ∖ page_run 786729 1)
    [Get PAL_USER 1; Get (PAL_USER + PAL_ZERO) 2; Get PAL_USER 1; Free (4096 * 786729) 1; Get PAL_USER 2]
    [4096 * 786729; 4096 * 786730; 0; 0; 0]
    (filled (4096 * 786729) (4096 * 1) 204 (filled (4096 * 786730) (4096 * 2) 0 (λ _, 7)))) as (s' & Hrun & Ho & Hm).
  - apply small_ram_owns.
  - rewrite (proj2 small_ram_owns).
    eapply all_cons; [apply (pages_get _ _ _ PAL_USER 1 786729)|
    eapply all_cons; [apply (pages_get _ _ _ (PAL_USER + PAL_ZERO) 2 786730)|
    eapply all_cons; [apply (pages_none _ _ _ PAL_USER 1)|
    eapply all_cons; [apply (pages_free _ _ _ true 786729 1)|
    eapply all_cons; [apply (pages_none _ _ _ PAL_USER 2)|apply all_nil]]]]]; try done;
    change (has PAL_USER PAL_USER) with true; change (has (PAL_USER + PAL_ZERO) PAL_USER) with true.
    + intros j Hj. apply not_free_small; lia.
    + apply free_small; [done..|]. intros j Hj. rewrite elem_of_union, elem_page_run, elem_of_empty. lia.
    + intros j Hj. apply not_free_small; [done|]. rewrite !elem_of_union, !elem_page_run, elem_of_empty. lia.
    + intros j. apply not_free_small; [done|]. rewrite !elem_of_union, !elem_page_run, elem_of_empty. lia.
    + intros j Hj. by apply elem_of_union_r, elem_of_union_l.
    + intros j. apply not_free_small; [done|]. rewrite !elem_of_difference, !elem_of_union, !elem_page_run, elem_of_empty. lia.
  - exists s'. split; [exact Hrun|]. rewrite Hm. split; reflexivity.
Defined.

Lemma palloc_free_rejects_witness :
  palloc_free_multiple (4096 * 786729) 1 small_ram = Err Panic ∧ palloc_free_multiple 3222274049 1 small_ram = Err Panic.
Proof.
  split; (apply (palloc_free_rejects small_areas small_ram ∅); [apply small_ram_owns|lia|lia|]); intros (u & _ & _ & Hal & Hsub).
  - assert (786729 ∈ (∅ : gset Z)) as Hin; [|by apply not_elem_of_empty in Hin].
    apply Hsub, elem_page_run. mlia.
  - mlia.
Defined.
