(* ===== verification/PageDir.v ===== *)
(** Page directories and page tables: threads/pte.h and userprog/pagedir.c of
    Project5.  They are words in pages of the page allocator. *)
From S2P Require Import Prelude Block Bitmap Palloc.
Local Open Scope Z_scope.

(** ** Words of memory *)

(** The 32-bit word at an address, and an assignment to it. *)
Definition load32 (m : Z → Z) (a : Z) : Z := unle32 [m a; m (a + 1); m (a + 2); m (a + 3)].
Definition stored32 (a w : Z) (m : Z → Z) : Z → Z := λ x,
  if decide (a ≤ x < a + 4) then default 0 (le32 w !! Z.to_nat (x - a)) else m x.

(** [memcpy (p, q, n)] on the kernel's memory. *)
Definition copied (p q n : Z) (m : Z → Z) : Z → Z := λ x,
  if decide (p ≤ x < p + n) then m (q + (x - p)) else m x.

(** The kernel's pages, and the page directory base register. *)
Record mmu := mkMmu { ram : pages; cr3 : Z }.

Definition set_ram (r : pages) (s : mmu) : mmu := mkMmu r (cr3 s).
Definition in_ram {A} (m : M pages A) : M mmu A := zoom ram set_ram m.
Definition memory (s : mmu) : Z → Z := bytes (ram s).
Definition set_memory (m : Z → Z) (s : mmu) : mmu :=
  mkMmu (mkPages (kernel_pool (ram s)) (user_pool (ram s)) m) (cr3 s).
Definition load (a : Z) : M mmu Z := gets (λ s, load32 (memory s) a).
Definition store (a w : Z) : M mmu unit := modify (λ s, set_memory (stored32 a w (memory s)) s).

(** ** Entries *)
Definition PTBITS : Z := 10.
Definition PTSHIFT : Z := PGBITS.
Definition PDSHIFT : Z := PTSHIFT + PTBITS.
(** pte.h 22-24 PTMASK *)
Definition PTMASK : Z := Z.shiftl (Z.shiftl 1 PTBITS - 1) PTSHIFT.
Definition PTE_ADDR : Z := 4294963200.
Definition PTE_P : Z := 1.
Definition PTE_W : Z := 2.
Definition PTE_U : Z := 4.
Definition PTE_A : Z := 32.
Definition PTE_D : Z := 64.

(** pte.h 32-34 pt_no *)
Definition pt_no (va : Z) : Z := Z.shiftr (Z.land va PTMASK) PTSHIFT.

(** pte.h 37-39 pd_no *)
Definition pd_no (va : Z) : Z := Z.shiftr va PDSHIFT.

(** pte.h 71-74 pde_create *)
Definition pde_create (pt : Z) : outcome Z :=
  ASSERT (bool_decide (pg_ofs pt = 0));;;
  let* p := vtop pt in Ret (Z.lor (Z.lor (Z.lor p PTE_U) PTE_P) PTE_W).

(** pte.h 78-81 pde_get_pt *)
Definition pde_get_pt (pde : Z) : outcome Z :=
  ASSERT (has pde PTE_P);;; ptov (Z.land pde PTE_ADDR).

(** pte.h 87-90 pte_create_kernel *)
Definition pte_create_kernel (page : Z) (writable : bool) : outcome Z :=
  ASSERT (bool_decide (pg_ofs page = 0));;;
  let* p := vtop page in Ret (Z.lor (Z.lor p PTE_P) (if writable then PTE_W else 0)).

(** pte.h 96-98 pte_create_user *)
Definition pte_create_user (page : Z) (writable : bool) : outcome Z :=
  let* e := pte_create_kernel page writable in Ret (Z.lor e PTE_U).

(** pte.h 102-104 pte_get_page *)
Definition pte_get_page (pte : Z) : outcome Z := ptov (Z.land pte PTE_ADDR).

(** [for (i = from; i < from + n; i++) body (i)] *)
Fixpoint for_to {S} (n : nat) (i : Z) (body : Z → M S unit) : M S unit :=
  match n with
  | O => ret tt
  | S n => body i;;! for_to n (i + 1) body
  end.

Section pagedir.
(** init.c 46-47 and loader.h 37: the kernel's page directory and the number of
    pages of the machine, which do not change after booting. *)
Variables (init_page_dir init_ram_pages : Z).

(** ** The register *)

(** pagedir.c 217-231 pagedir_activate *)
Definition pagedir_activate (pd : Z) : M mmu unit :=
  let pd := if decide (pd = 0) then init_page_dir else pd in
  let! p := lift (vtop pd) in modify (λ s, mkMmu (ram s) p).

(** pagedir.c 233-244 active_pd *)
Definition active_pd : M mmu Z := let! p := gets cr3 in lift (ptov p).

(** pagedir.c 246-263 invalidate_pagedir *)
Definition invalidate_pagedir (pd : Z) : M mmu unit :=
  let! a := active_pd in
  if decide (a = pd) then pagedir_activate pd else ret tt.

(** ** Page directories *)

(** pagedir.c 13-23 pagedir_create *)
Definition pagedir_create : M mmu Z :=
  let! pd := in_ram (palloc_get_page 0) in
  (if decide (pd ≠ 0) then modify (λ s, set_memory (copied pd init_page_dir PGSIZE (memory s)) s) else ret tt);;!
  ret pd.

(** pagedir.c 34-46 pagedir_destroy, one entry of the directory *)
Definition destroy_table (pde_at : Z) : M mmu unit :=
  let! pde := load pde_at in
  if has pde PTE_P then
    let! pt := lift (pde_get_pt pde) in
    for_to (Z.to_nat (PGSIZE / 4)) 0 (λ i,
      let! pte := load (pt + 4 * i) in
      if has pte PTE_P then let! p := lift (pte_get_page pte) in in_ram (palloc_free_page p) else ret tt);;!
    in_ram (palloc_free_page pt)
  else ret tt.

(** pagedir.c 25-48 pagedir_destroy *)
Definition pagedir_destroy (pd : Z) : M mmu unit :=
  if decide (pd = 0) then ret tt
  else
    assertM (bool_decide (pd ≠ init_page_dir));;!
    for_to (Z.to_nat (pd_no PHYS_BASE)) 0 (λ i, destroy_table (pd + 4 * i));;!
    in_ram (palloc_free_page pd).

(** pagedir.c 50-86 lookup_page: the address of the entry *)
Definition lookup_page (pd vaddr : Z) (create : bool) : M mmu (option Z) :=
  assertM (bool_decide (pd ≠ 0));;!
  assertM (negb create || is_user_vaddr vaddr);;!
  let pde_at := pd + 4 * pd_no vaddr in
  let! pde := load pde_at in
  let! ok := (if decide (pde = 0) then
      if create then
        let! pt := in_ram (palloc_get_page PAL_ZERO) in
        if decide (pt = 0) then ret false
        else let! e := lift (pde_create pt) in store pde_at e;;! ret true
      else ret false
    else ret true) in
  if (ok : bool) then
    let! pde := load pde_at in
    let! pt := lift (pde_get_pt pde) in
    ret (Some (pt + 4 * pt_no vaddr))
  else ret None.

(** pagedir.c 88-119 pagedir_set_page *)
Definition pagedir_set_page (pd upage kpage : Z) (writable : bool) : M mmu bool :=
  assertM (bool_decide (pg_ofs upage = 0));;!
  assertM (bool_decide (pg_ofs kpage = 0));;!
  assertM (is_user_vaddr upage);;!
  let! p := lift (vtop kpage) in
  assertM (bool_decide (Z.shiftr p PTSHIFT < init_ram_pages));;!
  assertM (bool_decide (pd ≠ init_page_dir));;!
  let! pte_at := lookup_page pd upage true in
  match pte_at with
  | Some a =>
      let! pte := load a in
      assertM (negb (has pte PTE_P));;!
      let! e := lift (pte_create_user kpage writable) in
      store a e;;! ret true
  | None => ret false
  end.

(** pagedir.c 121-137 pagedir_get_page *)
Definition pagedir_get_page (pd uaddr : Z) : M mmu Z :=
  assertM (is_user_vaddr uaddr);;!
  let! pte_at := lookup_page pd uaddr false in
  match pte_at with
  | Some a =>
      let! pte := load a in
      if has pte PTE_P then let! p := lift (pte_get_page pte) in ret (p + pg_ofs uaddr) else ret 0
  | None => ret 0
  end.

(** pagedir.c 139-157 pagedir_clear_page *)
Definition pagedir_clear_page (pd upage : Z) : M mmu unit :=
  assertM (bool_decide (pg_ofs upage = 0));;!
  assertM (is_user_vaddr upage);;!
  let! pte_at := lookup_page pd upage false in
  match pte_at with
  | Some a =>
      let! pte := load a in
      if has pte PTE_P then store a (Z.land pte (not32 PTE_P));;! invalidate_pagedir pd else ret tt
  | None => ret tt
  end.

(** Reading and assigning a flag of an entry. *)
Definition test_flag (flag pd vpage : Z) : M mmu bool :=
  let! pte_at := lookup_page pd vpage false in
  match pte_at with
  | Some a => let! pte := load a in ret (has pte flag)
  | None => ret false
  end.
Definition assign_flag (flag pd vpage : Z) (value : bool) : M mmu unit :=
  let! pte_at := lookup_page pd vpage false in
  match pte_at with
  | Some a =>
      let! pte := load a in
      if value then store a (Z.lor pte flag)
      else store a (Z.land pte (not32 flag));;! invalidate_pagedir pd
  | None => ret tt
  end.

(** pagedir.c 159-168 pagedir_is_dirty *)
Definition pagedir_is_dirty : Z → Z → M mmu bool := test_flag PTE_D.

(** pagedir.c 170-186 pagedir_set_dirty *)
Definition pagedir_set_dirty : Z → Z → bool → M mmu unit := assign_flag PTE_D.

(** pagedir.c 188-197 pagedir_is_accessed *)
Definition pagedir_is_accessed : Z → Z → M mmu bool := test_flag PTE_A.

(** pagedir.c 199-215 pagedir_set_accessed *)
Definition pagedir_set_accessed : Z → Z → bool → M mmu unit := assign_flag PTE_A.

(** ** The processor

    An access to a user address by the processor: the frame, if the entry is
    present (and writable, for a write; start.S sets CR0_WP, so also for the
    kernel).  It sets the accessed bits, and the dirty bit for a write. *)
Definition translate (vaddr : Z) (write : bool) : M mmu Z :=
  let! pd := active_pd in
  let pde_at := pd + 4 * pd_no vaddr in
  let! pde := load pde_at in
  if negb (has pde PTE_P) || (write && negb (has pde PTE_W)) then throw Fault
  else
    let! pt := lift (pde_get_pt pde) in
    let pte_at := pt + 4 * pt_no vaddr in
    let! pte := load pte_at in
    if negb (has pte PTE_P) || (write && negb (has pte PTE_W)) then throw Fault
    else
      let! p := lift (pte_get_page pte) in
      store pde_at (Z.lor pde PTE_A);;!
      store pte_at (Z.lor (Z.lor pte PTE_A) (if write then PTE_D else 0));;!
      ret (p + pg_ofs vaddr).
End pagedir.
