(* ===== verification/PageDirLaws.v ===== *)
(** Page directories and page tables in memory: words and their fields, how the
    tables lie in the kernel's pages, and what each function of pagedir.c does. *)
From S2P Require Import Prelude Block Bitmap Palloc PallocSpec PageDir.
Local Open Scope Z_scope.

(** ** Words of memory *)
Lemma load32_same m m' a : (∀ x, a ≤ x < a + 4 → m' x = m x) → load32 m' a = load32 m a.
Proof. intros H. unfold load32. by rewrite !H by lia. Qed.

Lemma load32_stored a w m : 0 ≤ w < 4294967296 → load32 (stored32 a w m) a = w.
Proof.
  intros Hw. unfold load32, stored32. rewrite !decide_True by lia.
  replace (a - a) with 0 by lia. replace (a + 1 - a) with 1 by lia.
  replace (a + 2 - a) with 2 by lia. replace (a + 3 - a) with 3 by lia.
  by apply (unle32_le32 w).
Qed.

Lemma load32_stored_ne a b w m : b + 4 ≤ a ∨ a + 4 ≤ b → load32 (stored32 a w m) b = load32 m b.
Proof. intros H. apply load32_same. intros x Hx. unfold stored32. by rewrite decide_False by lia. Qed.

Definition bytes_ok (m : Z → Z) : Prop := ∀ x, 0 ≤ m x < 256.

Lemma load32_range m a : bytes_ok m → 0 ≤ load32 m a < 4294967296.
Proof. intros H. apply unle32_range. repeat (constructor; [apply H|]). constructor. Qed.

Lemma stored32_ok a w m : bytes_ok m → bytes_ok (stored32 a w m).
Proof.
  intros H x. unfold stored32. case_decide as Hx; [|done].
  destruct (le32 w !! Z.to_nat (x - a)) as [b|] eqn:E; simpl; [|lia].
  apply (Forall_lookup_1 _ _ _ _ (le32_bytes w) E).
Qed.

Lemma filled_ok p n c m : 0 ≤ c < 256 → bytes_ok m → bytes_ok (filled p n c m).
Proof. intros Hc H x. unfold filled. by case_decide. Qed.

Lemma load32_filled p n c m a : p ≤ a → a + 4 ≤ p + n → load32 (filled p n c m) a = unle32 [c; c; c; c].
Proof. intros. unfold load32, filled. by rewrite !decide_True by lia. Qed.
Lemma load32_filled_ne p n c m a : a + 4 ≤ p ∨ p + n ≤ a → load32 (filled p n c m) a = load32 m a.
Proof. intros H. apply load32_same. intros x Hx. unfold filled. by rewrite decide_False by lia. Qed.

(** ** Entries as their fields *)

(** A flag is one bit. *)
Lemma has_testbit w n : 0 ≤ n → has w (2 ^ n) = Z.testbit w n.
Proof.
  intros Hn. unfold has. destruct (Z.testbit w n) eqn:E.
  - apply bool_decide_true. intros H. apply (f_equal (λ x, Z.testbit x n)) in H.
    by rewrite Z.land_spec, E, Z.pow2_bits_true, Z.bits_0 in H.
  - apply bool_decide_false. intros H. apply H. apply Z.bits_inj'. intros k Hk.
    rewrite Z.land_spec, Z.pow2_bits_eqb, Z.bits_0 by lia. destruct (Z.eqb_spec n k) as [<-|]; [by rewrite E|apply andb_false_r].
Qed.

Lemma land_page w : 0 ≤ w < 4294967296 → Z.land w PTE_ADDR = 4096 * (w / 4096).
Proof.
  intros Hw. change PTE_ADDR with (Z.shiftl (Z.ones 20) 12).
  change 4096 with (2 ^ 12). rewrite Z.mul_comm, <-Z.shiftl_mul_pow2, <-Z.shiftr_div_pow2 by lia.
  apply Z.bits_inj'. intros n Hn. rewrite Z.land_spec. destruct (decide (n < 12)).
  - by rewrite !Z.shiftl_spec_low, andb_false_r by lia.
  - rewrite !Z.shiftl_spec by lia. rewrite Z.shiftr_spec by lia. replace (n - 12 + 12) with n by lia.
    destruct (decide (n < 32)).
    + by rewrite Z.ones_spec_low, andb_true_r by lia.
    + rewrite (word_high w n) by lia. done.
Qed.

Record entry := mkEntry { e_present : bool; e_frame : Z; e_writable : bool; e_accessed : bool; e_dirty : bool }.
Definition view (w : Z) : entry :=
  mkEntry (Z.testbit w 0) (4096 * (w / 4096) + PHYS_BASE) (Z.testbit w 1) (Z.testbit w 5) (Z.testbit w 6).

Definition set_e_present (b : bool) (e : entry) : entry := mkEntry b (e_frame e) (e_writable e) (e_accessed e) (e_dirty e).
Definition set_e_accessed (b : bool) (e : entry) : entry := mkEntry (e_present e) (e_frame e) (e_writable e) b (e_dirty e).
Definition set_e_dirty (b : bool) (e : entry) : entry := mkEntry (e_present e) (e_frame e) (e_writable e) (e_accessed e) b.

(** Turning a bit below the frame on or off. *)
Definition with_bit (n : Z) (b : bool) (w : Z) : Z := if b then Z.lor w (2 ^ n) else Z.land w (not32 (2 ^ n)).

Lemma with_bit_testbit n b w k : 0 ≤ n < 32 → 0 ≤ w < 4294967296 → 0 ≤ k →
  Z.testbit (with_bit n b w) k = if decide (k = n) then b else Z.testbit w k.
Proof.
  intros Hn Hw Hk. unfold with_bit, not32. destruct b.
  - rewrite Z.lor_spec, Z.pow2_bits_eqb by lia. case_decide as E.
    + subst. by rewrite Z.eqb_refl, orb_true_r.
    + by rewrite (proj2 (Z.eqb_neq n k)), orb_false_r by lia.
  - rewrite Z.land_spec, Z.lxor_spec, Z.pow2_bits_eqb, u32_max_testbit by lia. case_decide as E.
    + subst. by rewrite Z.eqb_refl, bool_decide_true, andb_false_r by lia.
    + rewrite (proj2 (Z.eqb_neq n k)) by lia. case_bool_decide; [by rewrite andb_true_r|].
      by rewrite (word_high w k) by lia.
Qed.

Lemma with_bit_range n b w : 0 ≤ n < 32 → 0 ≤ w < 4294967296 → 0 ≤ with_bit n b w < 4294967296.
Proof.
  intros Hn Hw. apply word_range.
  - unfold with_bit, not32. destruct b; [apply Z.lor_nonneg; split; [lia|apply Z.pow_nonneg; lia]|apply Z.land_nonneg; lia].
  - intros k Hk. rewrite with_bit_testbit by lia. rewrite decide_False by lia. apply word_high; lia.
Qed.

Lemma with_bit_frame n b w : 0 ≤ n < 12 → 0 ≤ w < 4294967296 → with_bit n b w / 4096 = w / 4096.
Proof.
  intros Hn Hw. change 4096 with (2 ^ 12). rewrite <-!Z.shiftr_div_pow2 by lia. apply Z.bits_inj'. intros k Hk.
  rewrite !Z.shiftr_spec, with_bit_testbit by lia. by rewrite decide_False by lia.
Qed.

Lemma view_with_bit n b w : 0 ≤ n < 12 → 0 ≤ w < 4294967296 → n ≠ 1 →
  view (with_bit n b w) =
    (if decide (n = 0) then set_e_present b else if decide (n = 5) then set_e_accessed b else
     if decide (n = 6) then set_e_dirty b else id) (view w).
Proof.
  intros Hn Hw H1. unfold view. rewrite with_bit_frame, !with_bit_testbit by lia.
  repeat case_decide; subst; try lia; done.
Qed.

(** A new entry. *)
Lemma new_entry k writable : 786432 ≤ k < 1048576 →
  ∃ w, pte_create_user (4096 * k) writable = Ret w ∧ 0 ≤ w < 4294967296 ∧
    view w = mkEntry true (4096 * k) writable false false.
Proof.
  intros Hk. unfold pte_create_user, pte_create_kernel. rewrite bool_decide_true by apply pg_ofs_page.
  unfold vtop, is_kernel_vaddr. change PHYS_BASE with 3221225472. rewrite bool_decide_true by lia. cbn [obind ASSERT].
  set (p := 4096 * k - 3221225472). assert (0 ≤ p < 4294967296) as Hp by lia.
  assert (∀ j, 0 ≤ j < 12 → Z.testbit p j = false) as Hlow.
  { intros j Hj. replace p with (Z.shiftl (k - 786432) 12) by (rewrite Z.shiftl_mul_pow2; lia).
    by rewrite Z.shiftl_spec_low by lia. }
  exists (with_bit 2 true (with_bit 1 writable (with_bit 0 true p))).
  assert (Z.lor (Z.lor (Z.lor p PTE_P) (if writable then PTE_W else 0)) PTE_U =
    with_bit 2 true (with_bit 1 writable (with_bit 0 true p))) as ->.
  { destruct writable; [done|]. unfold with_bit at 2. apply Z.bits_inj'. intros n Hn.
    change PTE_U with (2 ^ 2). unfold with_bit. rewrite Z.lor_0_r, !Z.lor_spec, Z.land_spec. unfold not32.
    rewrite Z.lxor_spec, u32_max_testbit, Z.lor_spec by lia. change PTE_P with (2 ^ 0).
    rewrite !Z.pow2_bits_eqb by lia. destruct (decide (n < 32)).
    - rewrite bool_decide_true by lia. destruct (Z.eqb_spec 1 n) as [<-|]; [by rewrite Hlow by lia|].
      by rewrite andb_true_r.
    - rewrite (word_high p n), bool_decide_false by lia.
      rewrite (proj2 (Z.eqb_neq 0 n)), (proj2 (Z.eqb_neq 1 n)) by lia. done. }
  assert (0 ≤ with_bit 0 true p < 4294967296) by (apply with_bit_range; lia).
  assert (0 ≤ with_bit 1 writable (with_bit 0 true p) < 4294967296) by (apply with_bit_range; lia).
  split; [done|]. split; [apply with_bit_range; lia|].
  unfold view. rewrite !with_bit_frame by lia. rewrite !with_bit_testbit by lia.
  rewrite !Hlow by lia. rewrite ?(decide_True (P := _ = _)), ?(decide_False (P := _ = _)) by lia. f_equal. unfold p. change PHYS_BASE with 3221225472. mlia.
Qed.

(** ** Directories and tables in memory *)
Lemma pd_no_range v : 0 ≤ v < PHYS_BASE → 0 ≤ pd_no v < 768.
Proof. change PHYS_BASE with 3221225472. intros. unfold pd_no. rewrite Z.shiftr_div_pow2 by done. change (2 ^ PDSHIFT) with 4194304. mlia. Qed.

Lemma pd_no_div v : pd_no v = v / 4194304.
Proof. unfold pd_no. by rewrite Z.shiftr_div_pow2. Qed.

Lemma pt_no_mod v : 0 ≤ v → pt_no v = v / 4096 mod 1024.
Proof.
  intros Hv. unfold pt_no. rewrite Z.shiftr_land. change (Z.shiftr PTMASK PTSHIFT) with (Z.ones 10).
  rewrite Z.land_ones by lia. by rewrite Z.shiftr_div_pow2.
Qed.

Lemma same_entry v v' : 0 ≤ v → 0 ≤ v' → pd_no v = pd_no v' ∧ pt_no v = pt_no v' ↔ v / 4096 = v' / 4096.
Proof. intros. rewrite !pd_no_div, !pt_no_mod by done. mlia. Qed.

(** The page directories, each with its page tables by their place in it. *)
Local Abbreviation dirs := (gmap Z (gmap Z Z)).

Section spaces.
Context (init_page_dir : Z) (L : bool → area).

Record spaces (s : mmu) (O : gset Z) (D : dirs) : Prop := {
  sp_owns : owns L (ram s) O;
  sp_high : 786432 ≤ (L false).1;
  sp_bytes : bytes_ok (memory s);
  sp_cr3 : 0 ≤ cr3 s < 1073741824;
  sp_pd pd T : D !! pd = Some T → pd ∈ O ∧ in_area (L false) pd ∧ 4096 * pd ≠ init_page_dir;
  sp_pt pd T i pt : D !! pd = Some T → T !! i = Some pt →
    0 ≤ i < 768 ∧ pt ∈ O ∧ in_area (L false) pt ∧ D !! pt = None;
  sp_pde pd T i pt : D !! pd = Some T → T !! i = Some pt →
    load32 (memory s) (4096 * pd + 4 * i) ≠ 0 ∧ pde_get_pt (load32 (memory s) (4096 * pd + 4 * i)) = Ret (4096 * pt) ∧
    Z.testbit (load32 (memory s) (4096 * pd + 4 * i)) 1 = true;
  sp_none pd T i : D !! pd = Some T → T !! i = None → 0 ≤ i < 768 → load32 (memory s) (4096 * pd + 4 * i) = 0;
  sp_inj pd T i pd' T' i' pt : D !! pd = Some T → T !! i = Some pt → D !! pd' = Some T' → T' !! i' = Some pt →
    pd = pd' ∧ i = i';
}.

(** The word of the entry for an address, 0 without a page table. *)
Definition entry_at (D : dirs) (pd v : Z) : option Z :=
  T ← D !! pd; pt ← T !! pd_no v; Some (4096 * pt + 4 * pt_no v).
Definition word_of (s : mmu) (D : dirs) (pd v : Z) : Z :=
  match entry_at D pd v with Some a => load32 (memory s) a | None => 0 end.

(** Pages that hold a directory or a table. *)
Definition table_page (D : dirs) (p : Z) : Prop :=
  is_Some (D !! p) ∨ ∃ pd T i, D !! pd = Some T ∧ T !! i = Some p.

Lemma entry_at_Some D pd v a : entry_at D pd v = Some a →
  ∃ T pt, D !! pd = Some T ∧ T !! pd_no v = Some pt ∧ a = 4096 * pt + 4 * pt_no v.
Proof.
  unfold entry_at. intros (T & HT & (pt & Hpt & [= <-])%bind_Some)%bind_Some. by exists T, pt.
Qed.

Lemma pt_no_range v : 0 ≤ v → 0 ≤ pt_no v < 1024.
Proof. intros. rewrite pt_no_mod by done. mlia. Qed.

(** Two entries are one, or apart. *)
Lemma entries_apart s O D pd v pd' v' a a' :
  spaces s O D → 0 ≤ v < PHYS_BASE → 0 ≤ v' < PHYS_BASE → entry_at D pd v = Some a → entry_at D pd' v' = Some a' →
  (pd = pd' ∧ v / 4096 = v' / 4096 ∧ a = a') ∨ (¬ (pd = pd' ∧ v / 4096 = v' / 4096) ∧ (a + 4 ≤ a' ∨ a' + 4 ≤ a)).
Proof.
  intros Hs Hv Hv' (T & pt & HT & Hpt & ->)%entry_at_Some (T' & pt' & HT' & Hpt' & ->)%entry_at_Some.
  pose proof (pt_no_range v). pose proof (pt_no_range v'). destruct (decide (pt = pt')) as [->|Hne].
  - destruct (sp_inj _ _ _ Hs pd T (pd_no v) pd' T' (pd_no v') pt') as [-> Ei]; try done.
    destruct (decide (pt_no v = pt_no v')) as [Ej|Ej].
    + left. split; [done|]. split; [|lia]. by apply same_entry; [lia|lia|].
    + right. split; [|lia]. intros [_ E]. apply Ej. apply same_entry in E; [tauto|lia|lia].
  - right. split; [|lia]. intros [-> E]. apply same_entry in E as [E _]; [|lia|lia]. congruence.
Qed.

(** ** A word of a table changes *)
Lemma spaces_store s O D pd v a w :
  spaces s O D → 0 ≤ v < PHYS_BASE → entry_at D pd v = Some a → 0 ≤ w < 4294967296 →
  let s' := set_memory (stored32 a w (memory s)) s in
  spaces s' O D ∧ word_of s' D pd v = w ∧
  (∀ pd' v', 0 ≤ v' < PHYS_BASE → ¬ (pd' = pd ∧ v' / 4096 = v / 4096) → word_of s' D pd' v' = word_of s D pd' v') ∧
  ∀ x, ¬ table_page D (x / 4096) → memory s' x = memory s x.
Proof.
  intros Hs Hv Ha Hw s'. pose proof Ha as (T & pt & HT & Hpt & Ea)%entry_at_Some.
  pose proof (pt_no_range v) as Hj. assert (0 ≤ v) as Hv0 by lia. specialize (Hj Hv0).
  destruct (sp_pt _ _ _ Hs pd T _ pt HT Hpt) as (Hi & HO & Har & Hnpd).
  assert (∀ pd' i, is_Some (D !! pd') → 0 ≤ i < 768 →
    load32 (memory s') (4096 * pd' + 4 * i) = load32 (memory s) (4096 * pd' + 4 * i)) as Hsame.
  { intros pd' i [T' HT'] Hi'. unfold s'. simpl. apply load32_stored_ne.
    assert (pd' ≠ pt) by congruence. lia. }
  split_and!.
  - destruct Hs as [Ho Hh Hb Hc Hpd Hpt' Hpde Hnone Hinj]. split; try done.
    + destruct Ho as [A B C]. split; [|done|done]. intros u. specialize (A u). by destruct u.
    + by apply stored32_ok.
    + intros pd' T' i pt' HT' Hi'. rewrite Hsame by (eauto || by eapply Hpt'). by eapply Hpde.
    + intros pd' T' i HT' Hi' Hr. rewrite Hsame by eauto. by eapply Hnone.
  - unfold word_of. rewrite Ha. simpl. by apply load32_stored.
  - intros pd' v' Hv' Hne. unfold word_of. destruct (entry_at D pd' v') as [a'|] eqn:Ea'; [|done]. simpl.
    destruct (entries_apart s O D pd v pd' v' a a' Hs Hv Hv' Ha Ea') as [(-> & E & _)|(_ & Hap)]; [by destruct Hne|].
    apply load32_stored_ne. lia.
  - intros x Hx. change (memory s' x) with (stored32 a w (memory s) x). unfold stored32.
    rewrite decide_False; [done|]. intros Hr. apply Hx. right.
    exists pd, T, (pd_no v). split; [done|]. replace (x / 4096) with pt by mlia. done.
Qed.

(** ** Finding an entry *)
Lemma bind_load {A} a (k : Z → M mmu A) s : bind (load a) k s = k (load32 (memory s) a) s.
Proof. done. Qed.
Lemma bind_store {A} a w (k : unit → M mmu A) s :
  bind (store a w) k s = k tt (set_memory (stored32 a w (memory s)) s).
Proof. done. Qed.

Lemma lookup_page_ok s O D pd v :
  spaces s O D → is_Some (D !! pd) → 0 ≤ v < PHYS_BASE →
  lookup_page (4096 * pd) v false s = Ret (entry_at D pd v, s).
Proof.
  intros Hs [T HT] Hv. unfold lookup_page.
  destruct (sp_pd _ _ _ Hs pd T HT) as (_ & Ha & _). pose proof (sp_high _ _ _ Hs). unfold in_area in Ha.
  rewrite bind_assert by (apply bool_decide_true; lia). rewrite bind_assert by done.
  rewrite bind_load. unfold entry_at. rewrite HT. cbn [mbind option_bind].
  pose proof (pd_no_range v Hv) as Hi. destruct (T !! pd_no v) as [pt|] eqn:Hpt; cbn [mbind option_bind].
  - destruct (sp_pde _ _ _ Hs pd T _ pt HT Hpt) as (Hn & Hg & _). rewrite decide_False by done.
    rewrite bind_ret. rewrite bind_load, Hg, bind_lift. done.
  - rewrite (sp_none _ _ _ Hs pd T _ HT Hpt Hi). by rewrite decide_True.
Qed.

(** Reloading the register leaves it as it is. *)
Lemma invalidate_ok s O D pd : spaces s O D → invalidate_pagedir init_page_dir (4096 * pd) s = Ret (tt, s).
Proof.
  intros Hs. pose proof (sp_cr3 _ _ _ Hs) as Hc. unfold invalidate_pagedir, active_pd.
  rewrite bind_assoc, bind_gets. unfold ptov. change PHYS_BASE with 3221225472.
  rewrite bool_decide_true by lia. cbn [obind ASSERT]. rewrite u32_small by lia. rewrite bind_lift.
  case_decide as E; [|done]. unfold pagedir_activate. rewrite decide_False by lia.
  unfold vtop, is_kernel_vaddr. change PHYS_BASE with 3221225472. rewrite <-E, bool_decide_true by lia. cbn [obind ASSERT].
  rewrite bind_lift. unfold modify. replace (cr3 s + 3221225472 - 3221225472) with (cr3 s) by lia. by destruct s.
Qed.
(** ** A new table *)

(** What a change of the tables leaves alone: pages with owners that hold no
    table, and no page loses its owner. *)
Record beside (s : mmu) (O : gset Z) (D : dirs) (s' : mmu) (O' : gset Z) (D' : dirs) : Prop := {
  be_owned : O ⊆ O';
  be_dom : ∀ pd, is_Some (D' !! pd) ↔ is_Some (D !! pd);
  be_tables p : table_page D' p → table_page D p ∨ p ∉ O;
  be_cr3 : cr3 s' = cr3 s;
  be_memory x : x / 4096 ∈ O → ¬ table_page D (x / 4096) → memory s' x = memory s x;
}.

Lemma beside_refl s O D : beside s O D s O D.
Proof. split; try done. by left. Qed.

Lemma beside_trans s O D s1 O1 D1 s2 O2 D2 :
  beside s O D s1 O1 D1 → beside s1 O1 D1 s2 O2 D2 → beside s O D s2 O2 D2.
Proof.
  intros [A1 B1 C1 R1 M1] [A2 B2 C2 R2 M2]. split; [set_solver| | |congruence|].
  - intros pd. by rewrite B2, B1.
  - intros p [Hp|Hp]%C2; [by apply C1|right; set_solver].
  - intros x Hx Ht. rewrite M2, M1; [done|done|done|by apply A1|]. intros [?|?]%C1; done.
Qed.

Lemma pde_create_ok pt : 786432 ≤ pt < 1048576 →
  ∃ e, pde_create (4096 * pt) = Ret e ∧ 0 ≤ e < 4294967296 ∧ e ≠ 0 ∧ pde_get_pt e = Ret (4096 * pt) ∧ Z.testbit e 1 = true.
Proof.
  intros Hpt. unfold pde_create. rewrite bool_decide_true by apply pg_ofs_page.
  unfold vtop, is_kernel_vaddr. change PHYS_BASE with 3221225472. rewrite bool_decide_true by lia. cbn [obind ASSERT].
  set (p := 4096 * pt - 3221225472).
  change (Z.lor (Z.lor (Z.lor p PTE_U) PTE_P) PTE_W) with (with_bit 1 true (with_bit 0 true (with_bit 2 true p))).
  eexists. split; [done|]. assert (0 ≤ p < 4294967296) by lia.
  assert (0 ≤ with_bit 2 true p < 4294967296) by (apply with_bit_range; lia).
  assert (0 ≤ with_bit 0 true (with_bit 2 true p) < 4294967296) by (apply with_bit_range; lia).
  assert (0 ≤ with_bit 1 true (with_bit 0 true (with_bit 2 true p)) < 4294967296) as Hr by (apply with_bit_range; lia).
  set (e := with_bit 1 true _) in *. split; [done|].
  assert (Z.testbit e 1 = true) as Hb1 by (unfold e; by rewrite with_bit_testbit by lia).
  assert (Z.testbit e 0 = true) as Hb0.
  { unfold e. rewrite !with_bit_testbit by lia. by rewrite decide_False, decide_True by lia. }
  split; [intros E; by rewrite E in Hb1|].
  unfold pde_get_pt. change PTE_P with (2 ^ 0). rewrite has_testbit, Hb0 by lia. cbn [obind ASSERT].
  rewrite land_page by done. unfold ptov. change PHYS_BASE with 3221225472.
  assert (e / 4096 = pt - 786432) as ->.
  { unfold e. rewrite !with_bit_frame by lia. unfold p. mlia. }
  rewrite bool_decide_true by lia. cbn [obind ASSERT]. rewrite u32_small by lia. split; [f_equal; lia|done].
Qed.

(** A fresh page of zeroes becomes a table. *)
Section new_table.
Context (s : mmu) (O : gset Z) (D : dirs) (pd : Z) (T : gmap Z Z) (i pt : Z) (r : pages) (e : Z).
Context (Hs : spaces s O D) (HT : D !! pd = Some T) (Hi : T !! i = None) (Hir : 0 ≤ i < 768).
Context (Hpt : pt ∉ O) (Har : in_area (L false) pt) (Hown : owns L r (page_run pt 1 ∪ O)).
Context (Hbytes : bytes r = filled (4096 * pt) (4096 * 1) 0 (memory s)).
Context (He : 0 ≤ e < 4294967296) (He0 : e ≠ 0) (Heg : pde_get_pt e = Ret (4096 * pt) ∧ Z.testbit e 1 = true).

Let s' : mmu := set_memory (stored32 (4096 * pd + 4 * i) e (bytes r)) (mkMmu r (cr3 s)).
Let D' : dirs := <[pd := <[i := pt]> T]> D.

Lemma new_memory : memory s' = stored32 (4096 * pd + 4 * i) e (bytes r).
Proof using All. done. Qed.

Lemma not_new p : p ∈ O → p ≠ pt.
Proof using All. by intros Hp ->. Qed.

Lemma new_load a : (4096 * pd + 4 * i + 4 ≤ a ∨ a + 4 ≤ 4096 * pd + 4 * i) → (a + 4 ≤ 4096 * pt ∨ 4096 * pt + 4096 ≤ a) →
  load32 (memory s') a = load32 (memory s) a.
Proof using All.
  intros H1 H2. rewrite new_memory, load32_stored_ne by lia. rewrite Hbytes. apply load32_filled_ne. lia.
Qed.

Lemma new_dir pd' T' : D' !! pd' = Some T' → (pd' = pd ∧ T' = <[i := pt]> T) ∨ (pd' ≠ pd ∧ D !! pd' = Some T').
Proof using All. intros H. unfold D' in H. apply lookup_insert_Some in H as [[<- <-]|[??]]; auto. Qed.

(** A table of the new directories is the new one, or an old one. *)
Lemma new_tables pd' T' i' p : D' !! pd' = Some T' → T' !! i' = Some p →
  (pd' = pd ∧ i' = i ∧ p = pt) ∨ (p ≠ pt ∧ (pd' ≠ pd ∨ i' ≠ i) ∧ ∃ T0, D !! pd' = Some T0 ∧ T0 !! i' = Some p).
Proof using All.
  intros HT' Hi'. destruct (new_dir _ _ HT') as [[-> ->]|[Hn HT0]].
  - apply lookup_insert_Some in Hi' as [[<- <-]|[Hn Hi0]]; [by left|right].
    split_and!; [by apply not_new, (sp_pt _ _ _ Hs pd T i')|by right|eauto].
  - right. split_and!; [by apply not_new, (sp_pt _ _ _ Hs pd' T' i')|by left|eauto].
Qed.

Lemma new_spaces : spaces s' (page_run pt 1 ∪ O) D'.
Proof using All.
  destruct (sp_pd _ _ _ Hs pd T HT) as (HpdO & Hpda & Hini). split.
  - destruct Hown as [A B C]. split; [|done|done]. intros u. specialize (A u). by destruct u.
  - apply Hs.
  - rewrite new_memory. apply stored32_ok. rewrite Hbytes. by apply filled_ok, Hs.
  - apply Hs.
  - intros pd' T' [[-> _]|[_ HT']]%new_dir; [|destruct (sp_pd _ _ _ Hs _ _ HT') as (? & ? & ?)]; set_solver.
  - intros pd' T' i' p HT' Hi'. destruct (new_tables _ _ _ _ HT' Hi') as [(-> & -> & ->)|(Hp & _ & T0 & HT0 & Hi0)].
    + refine (conj Hir (conj _ (conj Har _))); [apply elem_of_union_l, elem_page_run; lia|].
      unfold D'. rewrite lookup_insert_ne by (by apply not_new). destruct (D !! pt) as [T1|] eqn:E; [|done].
      by destruct (sp_pd _ _ _ Hs pt T1 E).
    + destruct (sp_pt _ _ _ Hs _ _ _ _ HT0 Hi0) as (Hr0 & HO0 & Ha0 & Hnp). refine (conj Hr0 (conj _ (conj Ha0 _))); [set_solver|].
      unfold D'. rewrite lookup_insert_ne; [done|]. intros ->. congruence.
  - intros pd' T' i' p HT' Hi'. destruct (new_tables _ _ _ _ HT' Hi') as [(-> & -> & ->)|(Hp & Hne & T0 & HT0 & Hi0)].
    + by rewrite new_memory, load32_stored.
    + destruct (sp_pt _ _ _ Hs _ _ _ _ HT0 Hi0) as (? & _). assert (pd' ≠ pt) by (apply not_new; by eapply Hs).
      rewrite new_load by lia. by eapply Hs.
  - intros pd' T' i' HT' Hi' Hr'. destruct (new_dir _ _ HT') as [[-> ->]|[Hn HT0]].
    + apply lookup_insert_None in Hi' as [Hi0 Hn]. assert (pd ≠ pt) by (by apply not_new).
      rewrite new_load by lia. by eapply (sp_none _ _ _ Hs).
    + assert (pd' ≠ pt) by (apply not_new; by eapply Hs). rewrite new_load by lia. by eapply (sp_none _ _ _ Hs).
  - intros pd1 T1 i1 pd2 T2 i2 p H1 Hi1 H2 Hi2.
    destruct (new_tables _ _ _ _ H1 Hi1) as [(-> & -> & ->)|(Hp & _ & U1 & HU1 & HV1)],
      (new_tables _ _ _ _ H2 Hi2) as [(-> & -> & E)|(Hp2 & _ & U2 & HU2 & HV2)]; try done.
    by eapply (sp_inj _ _ _ Hs).
Qed.

Lemma new_beside : beside s O D s' (page_run pt 1 ∪ O) D'.
Proof using All.
  split; [set_solver| | |done|].
  - intros pd'. unfold D'. destruct (decide (pd' = pd)) as [->|]; [rewrite lookup_insert_eq, HT|by rewrite lookup_insert_ne by done].
    by split; eexists.
  - intros p [[T' HT']|(pd' & T' & i' & HT' & Hi')].
    + left. left. destruct (new_dir _ _ HT') as [[-> _]|[_ ?]]; by eexists.
    + destruct (new_tables _ _ _ _ HT' Hi') as [(-> & -> & ->)|(_ & _ & T0 & HT0 & Hi0)]; [by right|].
      left. right. by exists pd', T0, i'.
  - intros x Hx Hnt. rewrite new_memory. unfold stored32.
    rewrite decide_False.
    + rewrite Hbytes. unfold filled. rewrite decide_False; [done|]. intros Hr. apply Hpt.
      by replace pt with (x / 4096) by mlia.
    + intros Hr. apply Hnt. left. exists T. by replace (x / 4096) with pd by mlia.
Qed.

(** The new table has no entries. *)
Lemma new_words pd' v : 0 ≤ v < PHYS_BASE → word_of s' D' pd' v = word_of s D pd' v.
Proof using All.
  intros Hv. unfold word_of. pose proof (pt_no_range v ltac:(lia)) as Hj.
  assert (pd ≠ pt) by (apply not_new; by eapply Hs).
  destruct (decide (pd' = pd ∧ pd_no v = i)) as [[-> Ei]|Hne].
  - assert (entry_at D pd v = None) as -> by (unfold entry_at; rewrite HT; cbn [mbind option_bind]; by rewrite Ei, Hi).
    assert (entry_at D' pd v = Some (4096 * pt + 4 * pt_no v)) as ->.
    { unfold entry_at, D'. rewrite lookup_insert_eq. cbn [mbind option_bind]. by rewrite Ei, lookup_insert_eq. }
    rewrite new_memory, load32_stored_ne by lia. rewrite Hbytes. by rewrite load32_filled by lia.
  - assert (entry_at D' pd' v = entry_at D pd' v) as ->.
    { unfold entry_at, D'. destruct (decide (pd' = pd)) as [->|].
      - rewrite lookup_insert_eq, HT. cbn [mbind option_bind]. by rewrite lookup_insert_ne by (intros E; by apply Hne).
      - by rewrite lookup_insert_ne by done. }
    destruct (entry_at D pd' v) as [a|] eqn:Ea; [|done].
    apply entry_at_Some in Ea as (T' & p & HT' & Hp & ->).
    destruct (sp_pt _ _ _ Hs _ _ _ _ HT' Hp) as (_ & HpO & _ & Hnp).
    assert (p ≠ pt) by (by apply not_new). assert (p ≠ pd) by (intros ->; congruence). apply new_load; lia.
Qed.
End new_table.
Lemma word_of_range s O D pd v : spaces s O D → 0 ≤ word_of s D pd v < 4294967296.
Proof. intros Hs. unfold word_of. destruct (entry_at D pd v); [apply load32_range, Hs|lia]. Qed.

Lemma in_ram_run {A} (m : M pages A) s a r : m (ram s) = Ret (a, r) → in_ram m s = Ret (a, set_ram r s).
Proof. unfold in_ram, zoom. by intros ->. Qed.

(** Finding the entry for an address, with a new table if there is none. *)
Lemma lookup_create_ok s O D pd v :
  spaces s O D → is_Some (D !! pd) → 0 ≤ v < PHYS_BASE →
  (∃ s' O' D' a, lookup_page (4096 * pd) v true s = Ret (Some a, s') ∧ spaces s' O' D' ∧ beside s O D s' O' D' ∧
    entry_at D' pd v = Some a ∧ (∀ pd' v', 0 ≤ v' < PHYS_BASE → word_of s' D' pd' v' = word_of s D pd' v')) ∨
  (lookup_page (4096 * pd) v true s = Ret (None, s) ∧ ∀ i, ¬ free_run (L false) O i 1).
Proof.
  intros Hs [T HT] Hv. pose proof (pd_no_range v Hv) as Hi.
  destruct (sp_pd _ _ _ Hs pd T HT) as (_ & Hpda & _). pose proof (sp_high _ _ _ Hs) as Hh. unfold in_area in Hpda.
  unfold lookup_page. rewrite bind_assert by (apply bool_decide_true; lia).
  rewrite bind_assert by (unfold is_user_vaddr; by rewrite bool_decide_true by lia).
  rewrite bind_load. destruct (T !! pd_no v) as [pt|] eqn:Hpt.
  - destruct (sp_pde _ _ _ Hs pd T _ pt HT Hpt) as (Hn & Hg & _). rewrite decide_False by done.
    rewrite bind_ret. rewrite bind_load, Hg, bind_lift.
    left. exists s, O, D, (4096 * pt + 4 * pt_no v). split_and!; try done; [apply beside_refl|].
    unfold entry_at. rewrite HT. cbn [mbind option_bind]. by rewrite Hpt.
  - rewrite (sp_none _ _ _ Hs pd T _ HT Hpt Hi), decide_True by done. rewrite !bind_assoc.
    destruct (get_ok L (ram s) O PAL_ZERO 1 (sp_owns _ _ _ Hs) ltac:(lia)) as
      [(pt & r & Hrun & Hpt0 & Hfree & _ & Hown & Hb)|[Hno Hrun]]; change (has PAL_ZERO PAL_USER) with false in *.
    + change (has PAL_ZERO PAL_ZERO) with true in Hb. cbn iota in Hb.
      destruct Hfree as (Hlo & Hhi & Hf). assert (in_area (L false) pt) as Har by (unfold in_area; lia).
      pose proof (po_range _ _ _ (ow_pool _ _ _ (sp_owns _ _ _ Hs) false)) as [_ Hr].
      destruct (pde_create_ok pt) as (e & He & Her & He0 & Heg); [lia|].
      rewrite (bind_run _ _ _ _ _ (in_ram_run _ _ _ _ Hrun)), decide_False by lia.
      rewrite !bind_assoc, He, bind_lift, bind_assoc, bind_store, bind_ret.
      assert (pt ∉ O) as HptO by (apply Hf; lia).
      pose proof (new_spaces s O D pd T (pd_no v) pt r e Hs HT Hpt Hi HptO Har Hown Hb Her He0 Heg) as Hs'.
      pose proof (new_beside s O D pd T (pd_no v) pt r e Hs HT Hpt Hi HptO Har Hown Hb Her He0 Heg) as Hbe.
      pose proof (new_words s O D pd T (pd_no v) pt r e Hs HT Hpt Hi HptO Har Hown Hb Her He0 Heg) as Hw.
      left. eexists _, _, _, (4096 * pt + 4 * pt_no v). split; [|split; [exact Hs'|split; [exact Hbe|split; [|exact Hw]]]].
      * rewrite bind_load.
        change (memory (set_memory _ (set_ram r s))) with (stored32 (4096 * pd + 4 * pd_no v) e (bytes r)).
        by rewrite load32_stored, (proj1 Heg), bind_lift by done.
      * unfold entry_at. rewrite lookup_insert_eq. cbn [mbind option_bind]. by rewrite lookup_insert_eq.
    + right. split; [|done]. change (has PAL_ZERO PAL_ASSERT) with false in Hrun. cbn iota in Hrun.
      rewrite (bind_run _ _ _ _ _ (in_ram_run _ _ _ _ Hrun)), decide_True by done.
      rewrite bind_ret. by destruct s.
Qed.
(** ** Maps from pages to entries *)

(** The entry of the [n]-th user page. *)
Definition entry_of (s : mmu) (D : dirs) (pd n : Z) : entry := view (word_of s D pd (4096 * n)).

Lemma word_of_page s D pd v : 0 ≤ v → word_of s D pd v = word_of s D pd (4096 * (v / 4096)).
Proof.
  intros Hv. assert (pd_no v = pd_no (4096 * (v / 4096)) ∧ pt_no v = pt_no (4096 * (v / 4096))) as [E1 E2].
  { apply same_entry; mlia. }
  unfold word_of, entry_at. by rewrite <-E1, <-E2.
Qed.

Lemma user_page v : 0 ≤ v < PHYS_BASE → 0 ≤ v / 4096 < 786432.
Proof. change PHYS_BASE with 3221225472. mlia. Qed.
Lemma user_addr n : 0 ≤ n < 786432 → 0 ≤ 4096 * n < PHYS_BASE.
Proof. change PHYS_BASE with 3221225472. lia. Qed.

(** The entries are the same; or one of them has become [e]. *)
Definition same_entries (E E' : Z → Z → entry) : Prop := ∀ pd n, 0 ≤ n < 786432 → E' pd n = E pd n.
Definition one_entry (E E' : Z → Z → entry) (pd n : Z) (e : entry) : Prop :=
  E' pd n = e ∧ ∀ pd' n', 0 ≤ n' < 786432 → ¬ (pd' = pd ∧ n' = n) → E' pd' n' = E pd' n'.

Lemma one_entry_id E pd n : one_entry E E pd n (E pd n).
Proof. by split. Qed.

(** Storing a word as the entry for an address. *)
Lemma store_entry s O D pd v a w :
  spaces s O D → 0 ≤ v < PHYS_BASE → entry_at D pd v = Some a → 0 ≤ w < 4294967296 →
  let s' := set_memory (stored32 a w (memory s)) s in
  spaces s' O D ∧ one_entry (entry_of s D) (entry_of s' D) pd (v / 4096) (view w) ∧ beside s O D s' O D.
Proof.
  intros Hs Hv Ha Hw s'. destruct (spaces_store s O D pd v a w Hs Hv Ha Hw) as (Hs' & Hw' & Hother & Hmem).
  split; [done|]. split; [split|].
  - unfold entry_of, s'. rewrite <-word_of_page by lia. by rewrite Hw'.
  - intros pd' n' Hn' Hne. unfold entry_of, s'. rewrite Hother; [done|by apply user_addr|].
    replace (4096 * n' / 4096) with n' by mlia. done.
  - split; try done; [by left|]. intros x _ Hx. by apply Hmem.
Qed.

(** The word of an entry is what a load gives. *)
Lemma load_entry s D pd v a : entry_at D pd v = Some a → load32 (memory s) a = word_of s D pd v.
Proof. intros Ha. unfold word_of. by rewrite Ha. Qed.

Lemma no_entry s D pd v : 0 ≤ v → entry_at D pd v = None → entry_of s D pd (v / 4096) = view 0.
Proof. intros Hv Ha. unfold entry_of. rewrite <-word_of_page by done. unfold word_of. by rewrite Ha. Qed.

Lemma entry_word s D pd v : 0 ≤ v → entry_of s D pd (v / 4096) = view (word_of s D pd v).
Proof. intros Hv. unfold entry_of. by rewrite <-word_of_page. Qed.

(** ** Calls *)
Lemma set_page_ok ram_pages s O D pd v k w :
  spaces s O D → is_Some (D !! pd) → 0 ≤ v < PHYS_BASE → v mod 4096 = 0 → 786432 ≤ k < 1048576 → k - 786432 < ram_pages →
  e_present (entry_of s D pd (v / 4096)) = false →
  (∃ s' O' D', pagedir_set_page init_page_dir ram_pages (4096 * pd) v (4096 * k) w s = Ret (true, s') ∧
    spaces s' O' D' ∧ beside s O D s' O' D' ∧
    one_entry (entry_of s D) (entry_of s' D') pd (v / 4096) (mkEntry true (4096 * k) w false false)) ∨
  (pagedir_set_page init_page_dir ram_pages (4096 * pd) v (4096 * k) w s = Ret (false, s) ∧
    ∀ i, ¬ free_run (L false) O i 1).
Proof.
  intros Hs HD Hv Hal Hk Hram Hnp. unfold pagedir_set_page.
  rewrite bind_assert by (by rewrite pg_ofs_mod, bool_decide_true).
  rewrite bind_assert by (by apply bool_decide_true, pg_ofs_page).
  rewrite bind_assert by (unfold is_user_vaddr; by rewrite bool_decide_true by lia).
  unfold vtop, is_kernel_vaddr. change PHYS_BASE with 3221225472. rewrite bool_decide_true by lia. cbn [obind ASSERT].
  rewrite bind_lift. rewrite bind_assert.
  2: { apply bool_decide_true. rewrite Z.shiftr_div_pow2 by done. change (2 ^ PTSHIFT) with 4096. mlia. }
  destruct HD as [T HT]. destruct (sp_pd _ _ _ Hs pd T HT) as (_ & _ & Hini).
  rewrite bind_assert by (by apply bool_decide_true).
  destruct (lookup_create_ok s O D pd v Hs) as [(s1 & O1 & D1 & a & Hrun & Hs1 & Hbe1 & Ha & Hw1)|[Hrun Hno]]; [by exists T|done| |].
  - rewrite (bind_run _ _ _ _ _ Hrun), bind_load, (load_entry s1 D1 pd v a Ha).
    assert (Z.testbit (word_of s1 D1 pd v) 0 = false) as Hbit.
    { rewrite Hw1 by done. by rewrite entry_word in Hnp by lia. }
    change PTE_P with (2 ^ 0). rewrite has_testbit, Hbit by lia. rewrite bind_assert by done.
    destruct (new_entry k w Hk) as (e & He & Her & Hview). rewrite He, bind_lift, bind_store.
    destruct (store_entry s1 O1 D1 pd v a e Hs1 Hv Ha Her) as (Hs2 & [E1 E2] & Hbe2).
    left. eexists _, O1, D1. split; [done|]. split; [exact Hs2|]. split; [by eapply beside_trans|].
    split; [by rewrite E1|]. intros pd' n' Hn' Hne. rewrite E2 by done. unfold entry_of. by rewrite Hw1 by (by apply user_addr).
  - right. by rewrite (bind_run _ _ _ _ _ Hrun).
Qed.

Lemma get_page_ok s O D pd v :
  spaces s O D → is_Some (D !! pd) → 0 ≤ v < PHYS_BASE →
  let e := entry_of s D pd (v / 4096) in
  (e_present e = true → e_frame e < 4294967296) →
  pagedir_get_page (4096 * pd) v s = Ret (if e_present e then e_frame e + v mod 4096 else 0, s).
Proof.
  intros Hs HD Hv e Hfr. unfold pagedir_get_page.
  rewrite bind_assert by (unfold is_user_vaddr; by rewrite bool_decide_true by lia).
  rewrite (bind_run _ _ _ _ _ (lookup_page_ok s O D pd v Hs HD Hv)). unfold e in *. clear e.
  destruct (entry_at D pd v) as [a|] eqn:Ha; [|by rewrite (no_entry s D pd v) by (done || lia)].
  rewrite bind_load, (load_entry s D pd v a Ha). rewrite entry_word in * by lia.
  pose proof (word_of_range s O D pd v Hs) as Hw. set (w := word_of s D pd v) in *. cbn [view e_present e_frame] in *.
  change PTE_P with (2 ^ 0). rewrite has_testbit by lia. destruct (Z.testbit w 0); [|done].
  unfold pte_get_page. rewrite land_page by done. unfold ptov. change PHYS_BASE with 3221225472 in *.
  specialize (Hfr eq_refl). rewrite bool_decide_true by mlia. cbn [obind ASSERT]. rewrite u32_small by mlia.
  by rewrite bind_lift, pg_ofs_mod.
Qed.

Lemma clear_page_ok s O D pd v :
  spaces s O D → is_Some (D !! pd) → 0 ≤ v < PHYS_BASE → v mod 4096 = 0 →
  ∃ s', pagedir_clear_page init_page_dir (4096 * pd) v s = Ret (tt, s') ∧ spaces s' O D ∧ beside s O D s' O D ∧
    one_entry (entry_of s D) (entry_of s' D) pd (v / 4096) (set_e_present false (entry_of s D pd (v / 4096))).
Proof.
  intros Hs HD Hv Hal. unfold pagedir_clear_page.
  rewrite bind_assert by (by rewrite pg_ofs_mod, bool_decide_true).
  rewrite bind_assert by (unfold is_user_vaddr; by rewrite bool_decide_true by lia).
  rewrite (bind_run _ _ _ _ _ (lookup_page_ok s O D pd v Hs HD Hv)).
  assert (∀ e, e_present e = false → set_e_present false e = e) as Hid by (intros []; simpl; by intros ->).
  destruct (entry_at D pd v) as [a|] eqn:Ha.
  2: { exists s. split; [done|]. split; [done|]. split; [apply beside_refl|].
       rewrite Hid; [apply one_entry_id|]. by rewrite (no_entry s D pd v) by (done || lia). }
  rewrite bind_load, (load_entry s D pd v a Ha). rewrite entry_word by lia.
  pose proof (word_of_range s O D pd v Hs) as Hw.
  change PTE_P with (2 ^ 0). rewrite has_testbit by lia. destruct (Z.testbit (word_of s D pd v) 0) eqn:Eb.
  - rewrite bind_store. change (Z.land ?x (not32 (2 ^ 0))) with (with_bit 0 false x).
    destruct (store_entry s O D pd v a (with_bit 0 false (word_of s D pd v)) Hs Hv Ha) as (Hs' & H1 & Hbe);
      [apply with_bit_range; lia|].
    rewrite view_with_bit in H1 by lia. eexists. split; [by apply (invalidate_ok _ O D)|done].
  - exists s. split; [done|]. split; [done|]. split; [apply beside_refl|]. rewrite <-entry_word by lia.
    rewrite Hid; [apply one_entry_id|]. by rewrite entry_word by lia.
Qed.

(** A flag above the write permission: the bit [n] is accessed or dirty. *)
Definition flag_of (n : Z) (e : entry) : bool := if decide (n = 5) then e_accessed e else e_dirty e.
Definition set_flag_of (n : Z) (b : bool) (e : entry) : entry :=
  if decide (n = 5) then set_e_accessed b e else set_e_dirty b e.

Lemma test_flag_ok s O D pd v n :
  spaces s O D → is_Some (D !! pd) → 0 ≤ v < PHYS_BASE → n = 5 ∨ n = 6 →
  test_flag (2 ^ n) (4096 * pd) v s = Ret (flag_of n (entry_of s D pd (v / 4096)), s).
Proof.
  intros Hs HD Hv Hn. unfold test_flag. rewrite (bind_run _ _ _ _ _ (lookup_page_ok s O D pd v Hs HD Hv)).
  destruct (entry_at D pd v) as [a|] eqn:Ha.
  - rewrite bind_load, (load_entry s D pd v a Ha), has_testbit by lia. rewrite entry_word by lia.
    unfold flag_of. by destruct Hn as [->| ->].
  - rewrite (no_entry s D pd v) by (done || lia). by destruct Hn as [->| ->].
Qed.

Lemma assign_flag_ok s O D pd v n b :
  spaces s O D → is_Some (D !! pd) → 0 ≤ v < PHYS_BASE → n = 5 ∨ n = 6 →
  b = false ∨ e_present (entry_of s D pd (v / 4096)) = true →
  ∃ s', assign_flag init_page_dir (2 ^ n) (4096 * pd) v b s = Ret (tt, s') ∧ spaces s' O D ∧ beside s O D s' O D ∧
    one_entry (entry_of s D) (entry_of s' D) pd (v / 4096) (set_flag_of n b (entry_of s D pd (v / 4096))).
Proof.
  intros Hs HD Hv Hn Hb. unfold assign_flag. rewrite (bind_run _ _ _ _ _ (lookup_page_ok s O D pd v Hs HD Hv)).
  destruct (entry_at D pd v) as [a|] eqn:Ha.
  - rewrite bind_load, (load_entry s D pd v a Ha). rewrite entry_word by lia.
    pose proof (word_of_range s O D pd v Hs) as Hw.
    destruct (store_entry s O D pd v a (with_bit n b (word_of s D pd v)) Hs Hv Ha) as (Hs' & H1 & Hbe);
      [apply with_bit_range; lia|].
    rewrite view_with_bit in H1 by lia. assert (set_flag_of n b (view (word_of s D pd v)) =
      (if decide (n = 0) then set_e_present b else if decide (n = 5) then set_e_accessed b
       else if decide (n = 6) then set_e_dirty b else id) (view (word_of s D pd v))) as ->.
    { unfold set_flag_of. by destruct Hn as [->| ->]. }
    eexists. split; [|done]. destruct b; [done|]. rewrite bind_store. by apply (invalidate_ok _ O D).
  - exists s. split; [done|]. split; [done|]. split; [apply beside_refl|].
    rewrite (no_entry s D pd v) in Hb by (done || lia). destruct Hb as [->|?]; [|done].
    assert (set_flag_of n false (entry_of s D pd (v / 4096)) = entry_of s D pd (v / 4096)) as ->; [|apply one_entry_id].
    rewrite (no_entry s D pd v) by (done || lia). unfold set_flag_of. by destruct Hn as [->| ->].
Qed.
(** ** A new directory *)

(** The user half of the kernel's own directory is empty. *)
Definition boot_dir (s : mmu) (O : gset Z) (D : dirs) : Prop :=
  ∃ ip, init_page_dir = 4096 * ip ∧ ip ∈ O ∧ ¬ table_page D ip ∧
    ∀ i, 0 ≤ i < 768 → load32 (memory s) (4096 * ip + 4 * i) = 0.

Section new_dir.
Context (s : mmu) (O : gset Z) (D : dirs) (pd : Z) (r : pages).
Context (Hs : spaces s O D) (Hboot : boot_dir s O D).
Context (Hpd : pd ∉ O) (Har : in_area (L false) pd) (Hown : owns L r (page_run pd 1 ∪ O)).
Context (Hbytes : bytes r = memory s).

Let s' : mmu := set_memory (copied (4096 * pd) init_page_dir 4096 (bytes r)) (mkMmu r (cr3 s)).
Let D' : dirs := <[pd := ∅]> D.

Lemma new_dir_memory : memory s' = copied (4096 * pd) init_page_dir 4096 (memory s).
Proof using All. unfold s'. by rewrite Hbytes. Qed.

Lemma new_dir_other p j : p ≠ pd → 0 ≤ j < 1024 → load32 (memory s') (4096 * p + 4 * j) = load32 (memory s) (4096 * p + 4 * j).
Proof using All.
  intros Hp Hj. apply load32_same. intros x Hx. rewrite new_dir_memory. unfold copied. by rewrite decide_False by lia.
Qed.

Lemma new_dir_empty i : 0 ≤ i < 768 → load32 (memory s') (4096 * pd + 4 * i) = 0.
Proof using All.
  intros Hi. destruct Hboot as (ip & Eip & _ & _ & Hz). rewrite <-(Hz i Hi). unfold load32.
  rewrite new_dir_memory. unfold copied. rewrite !decide_True by lia. do 2 f_equal.
  all: rewrite Eip; repeat (f_equal; try lia).
Qed.

Lemma new_dir_lookup pd' T' : D' !! pd' = Some T' → (pd' = pd ∧ T' = ∅) ∨ (pd' ≠ pd ∧ D !! pd' = Some T').
Proof using All. intros H. unfold D' in H. apply lookup_insert_Some in H as [[<- <-]|[??]]; auto. Qed.

Lemma new_dir_tables pd' T' i p : D' !! pd' = Some T' → T' !! i = Some p → pd' ≠ pd ∧ D !! pd' = Some T'.
Proof using All. intros H Hi. destruct (new_dir_lookup _ _ H) as [[-> ->]|?]; [by rewrite lookup_empty in Hi|done]. Qed.

Lemma new_dir_spaces : spaces s' (page_run pd 1 ∪ O) D'.
Proof using All.
  split.
  - destruct Hown as [A B C]. split; [|done|done]. intros u. specialize (A u). by destruct u.
  - apply Hs.
  - rewrite new_dir_memory. intros x. unfold copied. case_decide; apply Hs.
  - apply Hs.
  - intros pd' T' [[-> _]|[_ HT']]%new_dir_lookup.
    + split; [apply elem_of_union_l, elem_page_run; lia|]. split; [done|].
      destruct Hboot as (ip & -> & HO & _). intros E. assert (pd = ip) as -> by lia. done.
    + destruct (sp_pd _ _ _ Hs _ _ HT') as (? & ? & ?). set_solver.
  - intros pd' T' i p H Hi. destruct (new_dir_tables _ _ _ _ H Hi) as [Hne HT].
    destruct (sp_pt _ _ _ Hs _ _ _ _ HT Hi) as (Hr0 & HO0 & Ha0 & Hnp). refine (conj Hr0 (conj _ (conj Ha0 _))); [set_solver|].
    unfold D'. rewrite lookup_insert_ne; [done|]. intros ->. done.
  - intros pd' T' i p H Hi. destruct (new_dir_tables _ _ _ _ H Hi) as [Hne HT].
    destruct (sp_pt _ _ _ Hs _ _ _ _ HT Hi) as (Hr0 & _). rewrite new_dir_other by (done || lia). by eapply (sp_pde _ _ _ Hs).
  - intros pd' T' i H Hi Hr. destruct (new_dir_lookup _ _ H) as [[-> ->]|[Hne HT]]; [by apply new_dir_empty|].
    rewrite new_dir_other by (done || lia). by eapply (sp_none _ _ _ Hs).
  - intros pd1 T1 i1 pd2 T2 i2 p H1 Hi1 H2 Hi2.
    destruct (new_dir_tables _ _ _ _ H1 Hi1) as [_ HT1], (new_dir_tables _ _ _ _ H2 Hi2) as [_ HT2].
    by eapply (sp_inj _ _ _ Hs).
Qed.

Lemma new_dir_words pd' v : 0 ≤ v < PHYS_BASE → word_of s' D' pd' v = if decide (pd' = pd) then 0 else word_of s D pd' v.
Proof using All.
  intros Hv. unfold word_of. pose proof (pt_no_range v ltac:(lia)) as Hj. case_decide as Hp.
  - assert (entry_at D' pd' v = None) as ->; [|done]. unfold entry_at, D'. subst. by rewrite lookup_insert_eq.
  - assert (entry_at D' pd' v = entry_at D pd' v) as ->.
    { unfold entry_at, D'. by rewrite lookup_insert_ne by done. }
    destruct (entry_at D pd' v) as [a|] eqn:Ea; [|done]. apply entry_at_Some in Ea as (T & p & HT & Hp' & ->).
    apply new_dir_other; [|done]. intros ->. by destruct (sp_pt _ _ _ Hs _ _ _ _ HT Hp') as (_ & ? & _).
Qed.
End new_dir.

Lemma create_ok s O D :
  spaces s O D → boot_dir s O D →
  (∃ s' pd, pagedir_create init_page_dir s = Ret (4096 * pd, s') ∧ pd ≠ 0 ∧ D !! pd = None ∧
    (pd ∉ O) ∧ spaces s' (page_run pd 1 ∪ O) (<[pd := ∅]> D) ∧
    (∀ x, x / 4096 ∈ O → memory s' x = memory s x) ∧
    ∀ pd' n, 0 ≤ n < 786432 →
      entry_of s' (<[pd := ∅]> D) pd' n = if decide (pd' = pd) then view 0 else entry_of s D pd' n) ∨
  (pagedir_create init_page_dir s = Ret (0, s) ∧ ∀ i, ¬ free_run (L false) O i 1).
Proof.
  intros Hs Hboot. unfold pagedir_create. change PGSIZE with 4096.
  destruct (get_ok L (ram s) O 0 1 (sp_owns _ _ _ Hs) ltac:(lia)) as
    [(pd & r & Hrun & Hpd0 & Hfree & _ & Hown & Hb)|[Hno Hrun]]; change (has 0 PAL_USER) with false in *.
  - left. change (has 0 PAL_ZERO) with false in Hb. cbn iota in Hb. destruct Hfree as (Hlo & Hhi & Hf).
    assert (in_area (L false) pd) as Har by (unfold in_area; lia). assert (pd ∉ O) as HpdO by (apply Hf; lia).
    rewrite (bind_run _ _ _ _ _ (in_ram_run _ _ _ _ Hrun)), decide_True, bind_modify by lia.
    eexists _, pd. split; [done|]. split; [done|]. split.
    { destruct (D !! pd) as [T|] eqn:E; [|done]. by destruct (sp_pd _ _ _ Hs pd T E) as (? & _). }
    split; [done|]. split; [exact (new_dir_spaces s O D pd r Hs Hboot HpdO Har Hown Hb)|]. split.
    { intros x Hx. etransitivity; [exact (f_equal (λ m, m x) (new_dir_memory s O D pd r Hs Hboot HpdO Har Hown Hb))|].
      unfold copied. rewrite decide_False; [done|]. intros Hr. apply HpdO. by replace pd with (x / 4096) by mlia. }
    intros pd' n Hn. unfold entry_of.
    etransitivity; [apply f_equal; exact (new_dir_words s O D pd r Hs Hboot HpdO Har Hown Hb pd' (4096 * n) (user_addr n Hn))|].
    by case_decide.
  - right. split; [|done]. change (has 0 PAL_ASSERT) with false in Hrun. cbn iota in Hrun.
    rewrite (bind_run _ _ _ _ _ (in_ram_run _ _ _ _ Hrun)), decide_False by auto. by destruct s.
Qed.
End spaces.
