(* ===== verification/Frames.v ===== *)
(** Frames and the processor: user pages that come and go beside the page tables,
    bytes that are written into them, and what an access by the processor does. *)
From S2P Require Import Prelude Block Bitmap Palloc PallocSpec PageDir PageDirLaws.
Local Open Scope Z_scope.
Local Abbreviation dirs := (gmap Z (gmap Z Z)).

(** Iterating a step that keeps an invariant on the round. *)
Lemma for_to_ok {S} (I : Z → S → Prop) n i (body : Z → M S unit) s :
  I i s → (∀ j t, i ≤ j < i + Z.of_nat n → I j t → ∃ t', body j t = Ret (tt, t') ∧ I (j + 1) t') →
  ∃ s', for_to n i body s = Ret (tt, s') ∧ I (i + Z.of_nat n) s'.
Proof.
  revert i s. induction n as [|n IH]; intros i s Hi Hstep.
  - exists s. by rewrite Z.add_0_r.
  - destruct (Hstep i s ltac:(lia) Hi) as (t & Hrun & Ht).
    destruct (IH (i + 1) t Ht) as (s' & Hrun' & Hs').
    { intros j u Hj. apply Hstep. lia. }
    exists s'. cbn [for_to]. rewrite (bind_run _ _ _ _ _ Hrun). split; [done|].
    by replace (i + Z.of_nat (Datatypes.S n)) with (i + 1 + Z.of_nat n) by lia.
Qed.

Section frames.
Context (init_page_dir : Z) (L : bool → area).
Local Abbreviation spaces := (spaces init_page_dir L).

(** ** Other pages *)

(** Tables are pages of the kernel. *)
Lemma table_not_user s O D k : spaces s O D → in_area (L true) k → ¬ table_page D k.
Proof.
  intros Hs Hk Ht. apply (areas_apart L _ _ true k (sp_owns _ _ _ _ _ Hs) Hk).
  destruct Ht as [[T HT]|(pd & T & i & HT & Hi)]; [by apply (sp_pd _ _ _ _ _ Hs k T)|].
  by apply (sp_pt _ _ _ _ _ Hs pd T i k).
Qed.

Lemma table_owned s O D p : spaces s O D → table_page D p → p ∈ O.
Proof.
  intros Hs [[T HT]|(pd & T & i & HT & Hi)]; [by apply (sp_pd _ _ _ _ _ Hs p T)|].
  by apply (sp_pt _ _ _ _ _ Hs pd T i p).
Qed.

(** The other pages change, and their owners. *)
Lemma spaces_other s O D r O' :
  spaces s O D → owns L r O' → bytes_ok (bytes r) → (∀ p, table_page D p → p ∈ O') →
  (∀ x, table_page D (x / 4096) → bytes r x = memory s x) →
  let s' := set_ram r s in spaces s' O' D ∧ ∀ pd n, entry_of s' D pd n = entry_of s D pd n.
Proof.
  intros Hs Ho Hb HO Hm s'.
  assert (∀ p j, table_page D p → 0 ≤ j < 1024 → load32 (memory s') (4096 * p + 4 * j) = load32 (memory s) (4096 * p + 4 * j)) as Hl.
  { intros p j Hp Hj. apply load32_same. intros x Hx. apply Hm. by replace (x / 4096) with p by mlia. }
  assert (∀ pd T, D !! pd = Some T → table_page D pd) as Hd by (intros; left; by eexists).
  assert (∀ pd T i p, D !! pd = Some T → T !! i = Some p → table_page D p) as Ht by (intros; right; eauto).
  split.
  - split; [done|apply Hs|done|apply Hs| | | | |].
    + intros pd T HT. destruct (sp_pd _ _ _ _ _ Hs pd T HT) as (_ & ? & ?). eauto.
    + intros pd T i p HT Hi. destruct (sp_pt _ _ _ _ _ Hs pd T i p HT Hi) as (? & _ & ? & ?). eauto 6.
    + intros pd T i p HT Hi. destruct (sp_pt _ _ _ _ _ Hs pd T i p HT Hi) as (? & _). rewrite Hl by (eauto || lia). by eapply Hs.
    + intros pd T i HT Hi Hr. rewrite Hl by (eauto || lia). by eapply (sp_none _ _ _ _ _ Hs).
    + apply (sp_inj _ _ _ _ _ Hs).
  - intros pd n. unfold entry_of, word_of. destruct (entry_at D pd (4096 * n)) as [a|] eqn:Ea; [|done].
    apply entry_at_Some in Ea as (T & p & HT & Hp & ->). rewrite Hl; [done|eauto|].
    unfold pt_no. rewrite Z.shiftr_land. change (Z.shiftr PTMASK PTSHIFT) with (Z.ones 10). rewrite Z.land_ones by lia. mlia.
Qed.

(** Bytes of pages that hold no table are written. *)
Lemma spaces_memory s O D m :
  spaces s O D → bytes_ok m → (∀ x, table_page D (x / 4096) → m x = memory s x) →
  let s' := set_memory m s in spaces s' O D ∧ ∀ pd n, entry_of s' D pd n = entry_of s D pd n.
Proof.
  intros Hs Hb Hm s'. apply (spaces_other s O D _ O Hs); [|done|intros p; by apply (table_owned s)|done].
  destruct (sp_owns _ _ _ _ _ Hs) as [A B C]. split; [|done|done]. intros u. specialize (A u). by destruct u.
Qed.

(** A frame for a user page. *)
Lemma get_frame s O D :
  spaces s O D →
  (∃ k r, in_ram (palloc_get_page (PAL_USER + PAL_ZERO)) s = Ret (4096 * k, set_ram r s) ∧ k ≠ 0 ∧
     in_area (L true) k ∧ (k ∉ O) ∧ spaces (set_ram r s) (page_run k 1 ∪ O) D ∧
     (∀ pd n, entry_of (set_ram r s) D pd n = entry_of s D pd n) ∧
     bytes r = filled (4096 * k) 4096 0 (memory s)) ∨
  (in_ram (palloc_get_page (PAL_USER + PAL_ZERO)) s = Ret (0, s) ∧ ∀ i, ¬ free_run (L true) O i 1).
Proof.
  intros Hs. destruct (get_ok L (ram s) O (PAL_USER + PAL_ZERO) 1 (sp_owns _ _ _ _ _ Hs) ltac:(lia)) as
    [(k & r & Hrun & Hk & Hfree & _ & Hown & Hb)|[Hno Hrun]].
  - change (has (PAL_USER + PAL_ZERO) PAL_ZERO) with true in Hb. change (has (PAL_USER + PAL_ZERO) PAL_USER) with true in Hfree.
    cbn iota in Hb. change (4096 * 1) with 4096 in Hb. destruct Hfree as (Hlo & Hhi & Hf).
    assert (in_area (L true) k) as Ha by (unfold in_area; lia).
    assert (k ∉ O) as HkO by (apply Hf; lia).
    destruct (spaces_other s O D r (page_run k 1 ∪ O) Hs Hown) as [Hs' He].
    + rewrite Hb. by apply filled_ok, Hs.
    + intros p Hp. apply elem_of_union_r. by eapply table_owned.
    + intros x Hx. rewrite Hb. unfold filled. rewrite decide_False; [done|]. intros Hr.
      apply (table_not_user s O D k Hs Ha). by replace k with (x / 4096) by mlia.
    + left. exists k, r. split; [by apply in_ram_run|done].
  - right. split; [|done]. change (has (PAL_USER + PAL_ZERO) PAL_ASSERT) with false in Hrun. cbn iota in Hrun.
    unfold palloc_get_page. rewrite (in_ram_run _ _ _ _ Hrun). by destruct s.
Qed.

Lemma free_frame s O D k :
  spaces s O D → in_area (L true) k → k ∈ O →
  ∃ r, in_ram (palloc_free_page (4096 * k)) s = Ret (tt, set_ram r s) ∧ spaces (set_ram r s) (O ∖ page_run k 1) D ∧
    (∀ pd n, entry_of (set_ram r s) D pd n = entry_of s D pd n) ∧
    bytes r = filled (4096 * k) 4096 204 (memory s).
Proof.
  intros Hs Ha Hk. pose proof Ha as Ha'. unfold in_area in Ha'.
  destruct (free_ok L (ram s) O true k 1 (sp_owns _ _ _ _ _ Hs)) as (r & Hrun & Hown & Hb); [lia|lia|lia| |].
  - intros j Hj%elem_page_run. by replace j with k by lia.
  - change (4096 * 1) with 4096 in Hb. exists r. split; [by apply in_ram_run|].
    destruct (spaces_other s O D r (O ∖ page_run k 1) Hs Hown) as [Hs' He].
    + rewrite Hb. by apply filled_ok, Hs.
    + intros p Hp. apply elem_of_difference. split; [by eapply table_owned|]. rewrite elem_page_run. intros Hr.
      apply (table_not_user s O D k Hs Ha). by replace k with p by lia.
    + intros x Hx. rewrite Hb. unfold filled. rewrite decide_False; [done|]. intros Hr.
      apply (table_not_user s O D k Hs Ha). by replace k with (x / 4096) by mlia.
    + done.
Qed.

(** ** Accesses by the processor *)

(** Setting the accessed bit of a directory entry. *)
Lemma pde_accessed e p : 0 ≤ e < 4294967296 → pde_get_pt e = Ret p → pde_get_pt (Z.lor e PTE_A) = Ret p.
Proof.
  intros He. change (Z.lor e PTE_A) with (with_bit 5 true e). pose proof (with_bit_range 5 true e ltac:(lia) He) as Hr.
  unfold pde_get_pt. change PTE_P with (2 ^ 0). rewrite !has_testbit, !land_page, with_bit_frame, with_bit_testbit by lia.
  by rewrite decide_False by lia.
Qed.

Lemma spaces_pde s O D pd T i p :
  spaces s O D → D !! pd = Some T → T !! i = Some p →
  let a := 4096 * pd + 4 * i in
  let s' := set_memory (stored32 a (Z.lor (load32 (memory s) a) PTE_A) (memory s)) s in
  spaces s' O D ∧ (∀ pd' v, 0 ≤ v → word_of s' D pd' v = word_of s D pd' v) ∧ beside s O D s' O D.
Proof.
  intros Hs HT Hi a s'. destruct (sp_pt _ _ _ _ _ Hs pd T i p HT Hi) as (Hir & HpO & Hpa & Hnp).
  destruct (sp_pde _ _ _ _ _ Hs pd T i p HT Hi) as (Hne & Hg & Hb1). fold a in Hne, Hg, Hb1.
  pose proof (load32_range _ a (sp_bytes _ _ _ _ _ Hs)) as Hw. set (w := load32 (memory s) a) in *.
  assert (0 ≤ Z.lor w PTE_A < 4294967296) as Hw' by (apply (with_bit_range 5 true); lia).
  assert (∀ p' j, 0 ≤ j < 1024 → ¬ (p' = pd ∧ j = i) →
    load32 (memory s') (4096 * p' + 4 * j) = load32 (memory s) (4096 * p' + 4 * j)) as Hother.
  { intros p' j Hj Hn. apply load32_stored_ne. unfold a. lia. }
  assert (load32 (memory s') a = Z.lor w PTE_A) as Hat by (by apply load32_stored).
  split; [|split].
  - pose proof Hs as [Ho Hh Hb Hc Hpd Hpt Hpde Hnone Hinj]. split; try done.
    + destruct Ho as [A B C]. split; [|done|done]. intros u. specialize (A u). by destruct u.
    + by apply stored32_ok.
    + intros pd' T' i' pt HT' Hi'. destruct (decide (pd' = pd ∧ i' = i)) as [[-> ->]|Hn].
      * assert (pt = p) as -> by congruence. fold a. rewrite Hat. split.
        { intros E. apply Hne. apply Z.lor_eq_0_iff in E. tauto. }
        split; [by apply pde_accessed|]. by rewrite Z.lor_spec, Hb1.
      * destruct (Hpt _ _ _ _ HT' Hi') as (? & _). rewrite Hother by (done || lia). by eapply Hpde.
    + intros pd' T' i' HT' Hi' Hr. destruct (decide (pd' = pd ∧ i' = i)) as [[-> ->]|Hn]; [congruence|].
      rewrite Hother by (done || lia). by eapply Hnone.
  - intros pd' v Hv. unfold word_of. destruct (entry_at D pd' v) as [b|] eqn:Eb; [|done].
    apply entry_at_Some in Eb as (T' & pt & HT' & Hp' & ->). apply Hother; [by apply pt_no_range|].
    intros [-> _]. destruct (sp_pt _ _ _ _ _ Hs _ _ _ _ HT' Hp') as (_ & _ & _ & E). congruence.
  - split; try done; [by left|]. intros x Hx Ht. change (memory s' x) with (stored32 a (Z.lor w PTE_A) (memory s) x).
    unfold stored32. rewrite decide_False; [done|]. intros Hr. apply Ht. left. eexists.
    by replace (x / 4096) with pd by (unfold a in Hr; mlia).
Qed.

(** The entry after an access. *)
Definition touched (write : bool) (e : entry) : entry :=
  mkEntry (e_present e) (e_frame e) (e_writable e) true (write || e_dirty e).

Lemma touched_view (write : bool) w : 0 ≤ w < 4294967296 →
  view (Z.lor (Z.lor w PTE_A) (if write then PTE_D else 0)) = touched write (view w) ∧
  0 ≤ Z.lor (Z.lor w PTE_A) (if write then PTE_D else 0) < 4294967296.
Proof.
  intros Hw. change (Z.lor w PTE_A) with (with_bit 5 true w).
  pose proof (with_bit_range 5 true w ltac:(lia) Hw) as Hw1. destruct write.
  - change (Z.lor (with_bit 5 true w) PTE_D) with (with_bit 6 true (with_bit 5 true w)).
    split; [|by apply with_bit_range]. by rewrite !view_with_bit by lia.
  - rewrite Z.lor_0_r. split; [|done]. rewrite view_with_bit by lia. by destruct w.
Qed.

Lemma translate_ok s O D pd v write :
  spaces s O D → is_Some (D !! pd) → cr3 s = 4096 * pd - PHYS_BASE → 0 ≤ v < PHYS_BASE →
  let e := entry_of s D pd (v / 4096) in
  e_present e = true → (write = true → e_writable e = true) → e_frame e < 4294967296 →
  ∃ s', translate v write s = Ret (e_frame e + v mod 4096, s') ∧ spaces s' O D ∧ beside s O D s' O D ∧
    one_entry (entry_of s D) (entry_of s' D) pd (v / 4096) (touched write e).
Proof.
  intros Hs [T HT] Hc Hv e Hp Hwr Hfr. unfold translate, active_pd.
  pose proof (sp_cr3 _ _ _ _ _ Hs) as Hcr. rewrite bind_assoc, bind_gets. unfold ptov at 1. change PHYS_BASE with 3221225472 in *.
  rewrite bool_decide_true by lia. cbn [obind ASSERT]. rewrite u32_small, bind_lift by lia.
  replace (cr3 s + 3221225472) with (4096 * pd) by lia. rewrite bind_load.
  unfold e in *. clear e. destruct (entry_at D pd v) as [a|] eqn:Ea; [|by rewrite (no_entry s D pd v) in Hp by (done || lia)].
  pose proof Ea as (T' & pt & HT' & Hpt & Ea')%entry_at_Some. assert (T' = T) as -> by congruence. subst a.
  destruct (sp_pde _ _ _ _ _ Hs pd T _ pt HT Hpt) as (Hne & Hg & Hb1).
  destruct (spaces_pde s O D pd T _ pt Hs HT Hpt) as (Hs1 & Hw1 & Hbe1).
  set (w := load32 (memory s) (4096 * pd + 4 * pd_no v)) in *.
  assert (has w PTE_P = true) as ->. { unfold pde_get_pt in Hg. by destruct (has w PTE_P). }
  change PTE_W with (2 ^ 1). rewrite has_testbit, Hb1, andb_false_r by lia. cbn [negb orb].
  rewrite Hg, bind_lift, bind_load, (load_entry s D pd v _ Ea). rewrite entry_word in * by lia.
  pose proof (word_of_range _ _ s O D pd v Hs) as Hwr'. set (x := word_of s D pd v) in *.
  cbn [view e_present e_writable e_frame] in Hp, Hwr, Hfr. change PTE_P with (2 ^ 0). rewrite !has_testbit, Hp by lia.
  assert (write && negb (Z.testbit x 1) = false) as ->.
  { destruct write; [by rewrite Hwr|done]. }
  cbn [negb orb]. unfold pte_get_page. rewrite land_page by done. unfold ptov. change PHYS_BASE with 3221225472 in *.
  rewrite bool_decide_true by mlia. cbn [obind ASSERT]. rewrite u32_small by mlia. rewrite bind_lift, bind_store.
  fold w in Hs1, Hw1, Hbe1. set (s1 := set_memory _ s) in *. rewrite bind_store.
  destruct (touched_view write x Hwr') as [Hview Hrange].
  destruct (store_entry _ _ s1 O D pd v _ _ Hs1 Hv Ea Hrange) as (Hs2 & [H1 H2] & Hbe2).
  eexists. split; [by rewrite pg_ofs_mod|]. split; [done|]. split; [by eapply beside_trans|].
  split; [by rewrite H1|]. intros pd' n' Hn' Hn. rewrite H2 by done. unfold entry_of. rewrite Hw1 by lia. done.
Qed.

(** Mapping a page whose table is there needs no memory. *)
Lemma lookup_again s O D pd v a : spaces s O D → 0 ≤ v < PHYS_BASE → entry_at D pd v = Some a →
  lookup_page (4096 * pd) v true s = Ret (Some a, s).
Proof.
  intros Hs Hv Ha. pose proof Ha as (T & pt & HT & Hpt & ->)%entry_at_Some.
  destruct (sp_pd _ _ _ _ _ Hs pd T HT) as (_ & Hpda & _). pose proof (sp_high _ _ _ _ _ Hs). unfold in_area in Hpda.
  unfold lookup_page. rewrite bind_assert by (apply bool_decide_true; lia).
  rewrite bind_assert by (unfold is_user_vaddr; by rewrite bool_decide_true by lia).
  destruct (sp_pde _ _ _ _ _ Hs pd T _ pt HT Hpt) as (Hn & Hg & _).
  rewrite bind_load, decide_False by done. by rewrite bind_ret, bind_load, Hg, bind_lift.
Qed.

Lemma set_page_again ram_pages s O D pd v k w a :
  spaces s O D → entry_at D pd v = Some a → 0 ≤ v < PHYS_BASE → v mod 4096 = 0 → 786432 ≤ k < 1048576 → k - 786432 < ram_pages →
  e_present (entry_of s D pd (v / 4096)) = false →
  ∃ s', pagedir_set_page init_page_dir ram_pages (4096 * pd) v (4096 * k) w s = Ret (true, s') ∧ spaces s' O D ∧
    beside s O D s' O D ∧ one_entry (entry_of s D) (entry_of s' D) pd (v / 4096) (mkEntry true (4096 * k) w false false).
Proof.
  intros Hs Ha Hv Hal Hk Hram Hnp. unfold pagedir_set_page.
  rewrite bind_assert by (by rewrite pg_ofs_mod, bool_decide_true).
  rewrite bind_assert by (by apply bool_decide_true, pg_ofs_page).
  rewrite bind_assert by (unfold is_user_vaddr; by rewrite bool_decide_true by lia).
  unfold vtop, is_kernel_vaddr. change PHYS_BASE with 3221225472. rewrite bool_decide_true by lia. cbn [obind ASSERT].
  rewrite bind_lift. rewrite bind_assert.
  2: { apply bool_decide_true. rewrite Z.shiftr_div_pow2 by done. change (2 ^ PTSHIFT) with 4096. mlia. }
  pose proof Ha as (T & pt & HT & Hpt & _)%entry_at_Some. destruct (sp_pd _ _ _ _ _ Hs pd T HT) as (_ & _ & Hini).
  rewrite bind_assert by (by apply bool_decide_true).
  rewrite (bind_run _ _ _ _ _ (lookup_again s O D pd v a Hs Hv Ha)), bind_load, (load_entry s D pd v a Ha).
  rewrite entry_word in Hnp by lia. pose proof (word_of_range _ _ s O D pd v Hs) as Hw.
  change PTE_P with (2 ^ 0). rewrite has_testbit by lia. cbn [view e_present] in Hnp. rewrite Hnp, bind_assert by done.
  destruct (new_entry k w Hk) as (e & He & Her & Hview). rewrite He, bind_lift, bind_store.
  destruct (store_entry _ _ s O D pd v a e Hs Hv Ha Her) as (Hs2 & H1 & Hbe2). rewrite Hview in H1.
  eexists. split; [done|]. done.
Qed.
End frames.
