(* ===== verification/PageDirSpec.v ===== *)
(** What pagedir.c promises: page directories are independent maps from user
    pages to frames with flags. *)
From S2P Require Import Prelude Block Bitmap Palloc PallocSpec PageDir PageDirLaws Frames.
Local Open Scope Z_scope.
Local Abbreviation dirs := (gmap Z (gmap Z Z)).

(** Calls: directories and frames by their page numbers, addresses in full. *)
Inductive pd_call :=
| Create
| SetPage (pd v k : Z) (writable : bool)
| GetPage (pd v : Z)
| ClearPage (pd v : Z)
| IsDirty (pd v : Z)
| SetDirty (pd v : Z) (dirty : bool)
| IsAccessed (pd v : Z)
| SetAccessed (pd v : Z) (accessed : bool)
| Activate (pd : Z)
| Destroy (pd : Z).

Definition run_pd (init_page_dir ram_pages : Z) (c : pd_call) : M mmu Z :=
  match c with
  | Create => pagedir_create init_page_dir
  | SetPage pd v k w => let! b := pagedir_set_page init_page_dir ram_pages (4096 * pd) v (4096 * k) w in ret (Z.b2z b)
  | GetPage pd v => pagedir_get_page (4096 * pd) v
  | ClearPage pd v => pagedir_clear_page init_page_dir (4096 * pd) v;;! ret 0
  | IsDirty pd v => let! b := pagedir_is_dirty (4096 * pd) v in ret (Z.b2z b)
  | SetDirty pd v b => pagedir_set_dirty init_page_dir (4096 * pd) v b;;! ret 0
  | IsAccessed pd v => let! b := pagedir_is_accessed (4096 * pd) v in ret (Z.b2z b)
  | SetAccessed pd v b => pagedir_set_accessed init_page_dir (4096 * pd) v b;;! ret 0
  | Activate pd => pagedir_activate init_page_dir (4096 * pd);;! ret 0
  | Destroy pd => pagedir_destroy init_page_dir (4096 * pd);;! ret 0
  end.

(** The present entries of a directory map user pages that were given out, each once. *)
Definition own_frames (L : bool → area) (E : Z → entry) (O : gset Z) : Prop :=
  (∀ n, 0 ≤ n < 786432 → e_present (E n) = true → ∃ k, e_frame (E n) = 4096 * k ∧ in_area (L true) k ∧ k ∈ O) ∧
  (∀ n n', 0 ≤ n < 786432 → 0 ≤ n' < 786432 → e_present (E n) = true → e_present (E n') = true →
    e_frame (E n) = e_frame (E n') → n = n').

(** What the code allows, of directories [P] with the entries [E], when the pages [O] are
    given out.  Directory 0 is the null pointer, for the kernel's own. *)
Definition allowed (L : bool → area) (ram_pages : Z) (O P : gset Z) (E : Z → Z → entry) (c : pd_call) : Prop :=
  match c with
  | Create => True
  | SetPage pd v k _ => pd ∈ P ∧ 0 ≤ v < PHYS_BASE ∧ v mod 4096 = 0 ∧ 786432 ≤ k < 1048576 ∧ k - 786432 < ram_pages ∧
      e_present (E pd (v / 4096)) = false
  | ClearPage pd v => pd ∈ P ∧ 0 ≤ v < PHYS_BASE ∧ v mod 4096 = 0
  | GetPage pd v | IsDirty pd v | IsAccessed pd v => pd ∈ P ∧ 0 ≤ v < PHYS_BASE
  | SetDirty pd v b | SetAccessed pd v b => pd ∈ P ∧ 0 ≤ v < PHYS_BASE ∧ (b = false ∨ e_present (E pd (v / 4096)) = true)
  | Activate pd => pd = 0 ∨ pd ∈ P
  | Destroy pd => pd ∈ P ∧ own_frames L (E pd) O
  end.

(** An entry of a page that was never mapped. *)
Definition no_entry : entry := view 0.

(** Result and new maps. [full]: the kernel has no page left. *)
Definition answers (full : Prop) (P : gset Z) (E : Z → Z → entry) (c : pd_call) (r : Z)
    (P' : gset Z) (E' : Z → Z → entry) : Prop :=
  match c with
  | Create =>
      (∃ pd, r = 4096 * pd ∧ pd ≠ 0 ∧ (pd ∉ P) ∧ P' = {[ pd ]} ∪ P ∧
        ∀ pd' n, 0 ≤ n < 786432 → E' pd' n = if decide (pd' = pd) then no_entry else E pd' n) ∨
      (r = 0 ∧ full ∧ P' = P ∧ same_entries E E')
  | SetPage pd v k w => P' = P ∧
      ((r = 1 ∧ one_entry E E' pd (v / 4096) (mkEntry true (4096 * k) w false false)) ∨
       (r = 0 ∧ full ∧ same_entries E E'))
  | GetPage pd v => P' = P ∧ same_entries E E' ∧
      r = if e_present (E pd (v / 4096)) then e_frame (E pd (v / 4096)) + v mod 4096 else 0
  | ClearPage pd v => P' = P ∧ one_entry E E' pd (v / 4096) (set_e_present false (E pd (v / 4096)))
  | IsDirty pd v => P' = P ∧ same_entries E E' ∧ r = Z.b2z (e_dirty (E pd (v / 4096)))
  | SetDirty pd v b => P' = P ∧ one_entry E E' pd (v / 4096) (set_e_dirty b (E pd (v / 4096)))
  | IsAccessed pd v => P' = P ∧ same_entries E E' ∧ r = Z.b2z (e_accessed (E pd (v / 4096)))
  | SetAccessed pd v b => P' = P ∧ one_entry E E' pd (v / 4096) (set_e_accessed b (E pd (v / 4096)))
  | Activate pd => P' = P ∧ same_entries E E'
  | Destroy pd => P' = P ∖ {[ pd ]} ∧ ∀ pd' n, pd' ≠ pd → 0 ≤ n < 786432 → E' pd' n = E pd' n
  end.

(** The pages that a directory keeps: its own, its tables, and the frames of its entries. *)
Definition kept_by (s : mmu) (D : dirs) (pd p : Z) : Prop :=
  p = pd ∨ (∃ T i, D !! pd = Some T ∧ T !! i = Some p) ∨
  ∃ n, 0 ≤ n < 786432 ∧ e_present (entry_of s D pd n) = true ∧ e_frame (entry_of s D pd n) = 4096 * p.

(** The pages given out afterwards, and the directory in the register. *)
Definition owners (s : mmu) (O : gset Z) (D : dirs) (c : pd_call) (O' : gset Z) : Prop :=
  match c with Destroy pd => ∀ p, p ∈ O' ↔ p ∈ O ∧ ¬ kept_by s D pd p | _ => O ⊆ O' end.
Definition register (init_page_dir : Z) (c : pd_call) (cr : Z) : Z :=
  match c with Activate pd => (if decide (pd = 0) then init_page_dir else 4096 * pd) - PHYS_BASE | _ => cr end.

(** The kernel has the directories [D], and frames that it can address. *)
Record kernel_spaces (init_page_dir : Z) (L : bool → area) (s : mmu) (O : gset Z) (D : dirs) : Prop := {
  ks_spaces : spaces init_page_dir L s O D;
  ks_boot : boot_dir init_page_dir s O D;
  ks_frames pd n : 0 ≤ n < 786432 → e_frame (entry_of s D pd n) < 4294967296;
  ks_kernel : in_area (L false) (init_page_dir / 4096);
}.

(** ** Destroying a directory *)
Section destroy.
Context (init_page_dir : Z) (L : bool → area) (s0 : mmu) (O0 : gset Z) (D : dirs) (pd : Z) (T : gmap Z Z).
Context (Hs0 : spaces init_page_dir L s0 O0 D) (HT : D !! pd = Some T).
Local Abbreviation D0 := (delete pd D).
Local Abbreviation entry_at0 n := (entry_of s0 D pd n).

Context (Hown : own_frames L (entry_of s0 D pd) O0).

Lemma table_other p : table_page D0 p → table_page D p ∧ p ≠ pd ∧ ∀ i, T !! i ≠ Some p.
Proof.
  intros [[T' HT']|(pd' & T' & i & HT' & Hi)].
  - apply lookup_delete_Some in HT' as [Hne HT']. split; [left; by eexists|]. split; [congruence|].
    intros i Hi. destruct (sp_pt _ _ _ _ _ Hs0 pd T i p HT Hi) as (_ & _ & _ & ?). congruence.
  - apply lookup_delete_Some in HT' as [Hne HT']. split; [right; eauto|].
    destruct (sp_pt _ _ _ _ _ Hs0 pd' T' i p HT' Hi) as (_ & _ & _ & Hn). split; [congruence|].
    intros j Hj. by destruct (sp_inj _ _ _ _ _ Hs0 pd T j pd' T' i p HT Hj HT' Hi).
Qed.

Lemma spaces_without : spaces init_page_dir L s0 O0 D0.
Proof.
  pose proof Hs0 as [H1 H2 H3 H4 H5 H6 H7 H8 H9]. split; try done.
  - intros p T' [_ H]%lookup_delete_Some. eauto.
  - intros p T' i pt [_ H]%lookup_delete_Some Hi. destruct (H6 p T' i pt H Hi) as (? & ? & ? & ?). split_and!; try done; try lia.
    by apply lookup_delete_None; right.
  - intros p T' i pt [_ H]%lookup_delete_Some. eauto.
  - intros p T' i [_ H]%lookup_delete_Some. eauto.
  - intros p T' i p' T'' i' pt [_ H]%lookup_delete_Some Hi [_ H']%lookup_delete_Some. eauto.
Qed.

(** The pages [A] have been given back. *)
Record returned (A : gset Z) (s : mmu) : Prop := {
  rt_spaces : spaces init_page_dir L s (O0 ∖ A) D0;
  rt_entries p n : entry_of s D0 p n = entry_of s0 D0 p n;
  rt_cr3 : cr3 s = cr3 s0;
  rt_memory x : x / 4096 ∉ A → memory s x = memory s0 x;
}.

Lemma returned_none : returned ∅ s0.
Proof. split; try done. rewrite difference_empty_L. apply spaces_without. Qed.

Lemma return_page A s u k : returned A s → in_area (L u) k → k ∈ O0 → (k ∉ A) → ¬ table_page D0 k →
  ∃ s', in_ram (palloc_free_page (4096 * k)) s = Ret (tt, s') ∧ returned ({[ k ]} ∪ A) s'.
Proof.
  intros [Hs He Hc Hm] Ha Hk HkA Hnt. pose proof Ha as Ha'. unfold in_area in Ha'.
  destruct (free_ok L (ram s) (O0 ∖ A) u k 1 (sp_owns _ _ _ _ _ Hs)) as (r & Hrun & Ho & Hb); [lia|lia|lia| |].
  - intros j Hj%elem_page_run. replace j with k by lia. set_solver.
  - change (4096 * 1) with 4096 in Hb. exists (set_ram r s). split; [by apply in_ram_run|].
    assert (∀ x, x / 4096 ≠ k → bytes r x = memory s x) as Hout.
    { intros x Hx. rewrite Hb. unfold filled. by rewrite decide_False by mlia. }
    assert ((O0 ∖ A) ∖ page_run k 1 = O0 ∖ ({[ k ]} ∪ A)) as EO.
    { apply set_eq. intros j. rewrite !elem_of_difference, elem_page_run, elem_of_union, elem_of_singleton.
      split; [intros [[? ?] ?]; split; [done|]; intros [?|?]; [lia|done]|intros [? Hn]; split; [split; [done|tauto]|]].
      intros ?. apply Hn. left. lia. }
    rewrite EO in Ho. destruct (spaces_other init_page_dir L s (O0 ∖ A) D0 r (O0 ∖ ({[ k ]} ∪ A)) Hs Ho) as [Hs' He'].
    + rewrite Hb. by apply filled_ok, Hs.
    + intros p Hp. pose proof (table_owned init_page_dir L s (O0 ∖ A) D0 p Hs Hp). apply elem_of_difference. split; [set_solver|].
      intros [->%elem_of_singleton|?]%elem_of_union; [done|set_solver].
    + intros x Hx. apply Hout. by intros <-.
    + split; [done|intros; by rewrite He', He|done|]. intros x Hx. etransitivity; [apply Hout|apply Hm]; set_solver.
Qed.

(** What has been given back before the entry [n], with the tables before the [i]-th. *)
Definition gone_before (n i : Z) (A : gset Z) : Prop :=
  ∀ p, p ∈ A ↔ (∃ m, 0 ≤ m < n ∧ m < 786432 ∧ e_present (entry_at0 m) = true ∧ e_frame (entry_at0 m) = 4096 * p) ∨
    (∃ j, j < i ∧ T !! j = Some p).

Lemma user_not_kernel k : in_area (L true) k → in_area (L false) k → False.
Proof. intros H1 H2. by apply (areas_apart L _ _ true k (sp_owns _ _ _ _ _ Hs0) H1). Qed.

Lemma tables_stay n i A p : gone_before n i A → (p = pd ∨ ∃ j, i ≤ j ∧ T !! j = Some p) → p ∉ A.
Proof.
  intros HA Hp Hin. assert (in_area (L false) p) as Hk.
  { destruct Hp as [->|(j & _ & Hj)]; [by apply (sp_pd _ _ _ _ _ Hs0 pd T)|by apply (sp_pt _ _ _ _ _ Hs0 pd T j p)]. }
  apply HA in Hin as [(m & Hm & Hm' & Hpr & Hf)|(j & Hj & Hjp)].
  - destruct (proj1 Hown m ltac:(lia) Hpr) as (k & E & Hu & _). assert (k = p) as -> by lia. by apply (user_not_kernel p).
  - destruct Hp as [->|(j' & Hj' & Hjp')].
    + destruct (sp_pt _ _ _ _ _ Hs0 pd T j pd HT Hjp) as (_ & _ & _ & ?). congruence.
    + destruct (sp_inj _ _ _ _ _ Hs0 pd T j pd T j' p HT Hjp HT Hjp'). lia.
Qed.

Lemma word_stays A s p j : returned A s → (p ∉ A) → 0 ≤ j < 1024 →
  load32 (memory s) (4096 * p + 4 * j) = load32 (memory s0) (4096 * p + 4 * j).
Proof. intros Hr Hp Hj. apply load32_same. intros x Hx. apply (rt_memory _ _ Hr). by replace (x / 4096) with p by mlia. Qed.

(** The entries of a table, one by one. *)
Lemma table_word i pt j : T !! i = Some pt → 0 ≤ j < 1024 → 0 ≤ 1024 * i + j →
  entry_at0 (1024 * i + j) = view (load32 (memory s0) (4096 * pt + 4 * j)).
Proof.
  intros Hi Hj Hn. unfold entry_of, word_of, entry_at. rewrite HT. cbn [mbind option_bind].
  rewrite pd_no_div, pt_no_mod by lia.
  replace (4096 * (1024 * i + j) / 4194304) with i by mlia. replace (4096 * (1024 * i + j) / 4096 mod 1024) with j by mlia.
  by rewrite Hi.
Qed.

Lemma no_table i n : T !! i = None → 1024 * i ≤ n < 1024 * (i + 1) → 0 ≤ n → e_present (entry_at0 n) = false.
Proof.
  intros Hi Hn H0. unfold entry_of, word_of, entry_at. rewrite HT. cbn [mbind option_bind].
  rewrite pd_no_div by lia. replace (4096 * n / 4194304) with i by mlia. by rewrite Hi.
Qed.
Lemma gone_step n i A : gone_before n i A → e_present (entry_at0 n) = false → gone_before (n + 1) i A.
Proof.
  intros HA Hn p. rewrite (HA p). split; (intros [(m & Hm & Hm' & Hp & Hf)|?]; [left|by right]).
  - exists m. split_and!; [lia..|done|done].
  - exists m. split_and!; try done; try lia. destruct (decide (m = n)) as [->|]; [congruence|lia].
Qed.

Lemma gone_skip i A : gone_before (1024 * i) i A → T !! i = None → 0 ≤ i → gone_before (1024 * (i + 1)) (i + 1) A.
Proof.
  intros HA Hi H0 p. rewrite (HA p). split; intros [(m & Hm & Hm' & Hp & Hf)|(j & Hj & Hjp)].
  - left. exists m. split_and!; [lia..|done|done].
  - right. exists j. split; [lia|done].
  - left. exists m. split_and!; try done; try lia. destruct (decide (m < 1024 * i)); [done|].
    rewrite (no_table i m Hi) in Hp by lia. done.
  - right. exists j. split; [|done]. destruct (decide (j = i)) as [->|]; [congruence|lia].
Qed.

Lemma return_entry i pt j A s : T !! i = Some pt → 0 ≤ i < 768 → 0 ≤ j < 1024 → returned A s → gone_before (1024 * i + j) i A →
  ∃ A' s', (let! pte := load (4096 * pt + 4 * j) in
      if has pte PTE_P then let! p := lift (pte_get_page pte) in in_ram (palloc_free_page p) else ret tt) s = Ret (tt, s') ∧
    returned A' s' ∧ gone_before (1024 * i + (j + 1)) i A'.
Proof.
  intros Hi Hir Hj Hr HA. rewrite bind_load, (word_stays A s pt j Hr) by (done || (eapply tables_stay; [done|right; exists i; split; [lia|done]])).
  pose proof (table_word i pt j Hi Hj ltac:(lia)) as Ew. pose proof (load32_range _ (4096 * pt + 4 * j) (sp_bytes _ _ _ _ _ Hs0)) as Hw.
  set (w := load32 (memory s0) (4096 * pt + 4 * j)) in *. change PTE_P with (2 ^ 0). rewrite has_testbit by lia.
  rewrite Z.add_assoc. set (n := 1024 * i + j) in *. assert (0 ≤ n < 786432) as Hn by lia. destruct (Z.testbit w 0) eqn:Eb.
  - assert (e_present (entry_at0 n) = true) as Hp by (by rewrite Ew). destruct (proj1 Hown n Hn Hp) as (k & Ek & Hu & HkO).
    rewrite Ew in Ek. cbn [e_frame view] in Ek. change PHYS_BASE with 3221225472 in Ek.
    pose proof (po_range _ _ _ (ow_pool _ _ _ (sp_owns _ _ _ _ _ Hs0) true)) as Hrange. pose proof Hu as Hu'. unfold in_area in Hu'.
    assert (pte_get_page w = Ret (4096 * k)) as Hg.
    { unfold pte_get_page. rewrite land_page by done. unfold ptov. change PHYS_BASE with 3221225472. rewrite bool_decide_true by lia.
      cbn [obind ASSERT]. rewrite u32_small by lia. do 2 f_equal; lia. }
    rewrite Hg, bind_lift. destruct (return_page A s true k Hr Hu HkO) as (s' & Hrun & Hr').
    + intros [(m & Hm & Hm' & Hpm & Hf)|(j' & _ & Hj')]%HA.
      * assert (m = n); [|lia]. apply (proj2 Hown); [lia|done|done|done|]. rewrite Hf, Ew. cbn [e_frame view].
        change PHYS_BASE with 3221225472. lia.
      * apply (user_not_kernel k Hu). by apply (sp_pt _ _ _ _ _ Hs0 pd T j' k).
    + intros Ht. apply table_other in Ht as [Ht _]. by apply (table_not_user init_page_dir L s0 O0 D k).
    + exists ({[ k ]} ∪ A), s'. split; [done|]. split; [done|]. intros p. rewrite elem_of_union, elem_of_singleton, (HA p). split.
      * intros [->|[(m & Hm & Hm' & Hpm & Hf)|?]]; [left; exists n|left; exists m|by right].
        -- split_and!; [lia..|done|]. rewrite Ew. cbn [e_frame view]. change PHYS_BASE with 3221225472. lia.
        -- split_and!; [lia..|done|done].
      * intros [(m & Hm & Hm' & Hpm & Hf)|?]; [|by right; right]. destruct (decide (m = n)) as [->|]; [left|right; left; exists m; split_and!; try done; lia].
        rewrite Ew in Hf. cbn [e_frame view] in Hf. change PHYS_BASE with 3221225472 in Hf. lia.
  - exists A, s. split; [done|]. split; [done|]. apply gone_step; [done|]. by rewrite Ew.
Qed.

(** One entry of the directory. *)
Lemma return_table i A s : 0 ≤ i < 768 → returned A s → gone_before (1024 * i) i A →
  ∃ A' s', destroy_table (4096 * pd + 4 * i) s = Ret (tt, s') ∧ returned A' s' ∧ gone_before (1024 * (i + 1)) (i + 1) A'.
Proof.
  intros Hi Hr HA. unfold destroy_table. rewrite bind_load, (word_stays A s pd i Hr) by (lia || (eapply tables_stay; [done|by left])).
  destruct (T !! i) as [pt|] eqn:HTi.
  - destruct (sp_pde _ _ _ _ _ Hs0 pd T i pt HT HTi) as (_ & Hg & _).
    assert (has (load32 (memory s0) (4096 * pd + 4 * i)) PTE_P = true) as ->.
    { unfold pde_get_pt in Hg. by destruct (has (load32 (memory s0) (4096 * pd + 4 * i)) PTE_P). }
    rewrite Hg, bind_lift.
    destruct (for_to_ok (λ j s, ∃ A, returned A s ∧ gone_before (1024 * i + j) i A) (Z.to_nat (PGSIZE / 4)) 0 (λ j,
      let! pte := load (4096 * pt + 4 * j) in
      if has pte PTE_P then let! p := lift (pte_get_page pte) in in_ram (palloc_free_page p) else ret tt) s) as (s1 & Hrun & A1 & Hr1 & HA1).
    + exists A. by rewrite Z.add_0_r.
    + intros j u Hj (B & HB & HgB). change (Z.of_nat (Z.to_nat (PGSIZE / 4))) with 1024 in Hj.
      destruct (return_entry i pt j B u HTi Hi ltac:(lia) HB HgB) as (B' & u' & H1 & H2 & H3). exists u'. split; [done|]. by exists B'.
    + rewrite (bind_run _ _ _ _ _ Hrun). change (0 + Z.of_nat (Z.to_nat (PGSIZE / 4))) with 1024 in HA1.
      replace (1024 * i + 1024) with (1024 * (i + 1)) in HA1 by lia.
      destruct (sp_pt _ _ _ _ _ Hs0 pd T i pt HT HTi) as (_ & HptO & Hka & _).
      destruct (return_page A1 s1 false pt Hr1 Hka HptO) as (s2 & Hrun2 & Hr2).
      * eapply tables_stay; [done|right; exists i; split; [lia|done]].
      * intros Ht. apply table_other in Ht as (_ & _ & Hn). by apply (Hn i).
      * exists ({[ pt ]} ∪ A1), s2. split; [done|]. split; [done|]. intros p. rewrite elem_of_union, elem_of_singleton, (HA1 p). split.
        -- intros [->|[?|(j & Hj & Hjp)]]; [right; exists i; split; [lia|done]|by left|right; exists j; split; [lia|done]].
        -- intros [?|(j & Hj & Hjp)]; [by right; left|]. destruct (decide (j = i)) as [->|]; [left; congruence|right; right; exists j; split; [lia|done]].
  - rewrite (sp_none _ _ _ _ _ Hs0 pd T i HT HTi Hi). change (has 0 PTE_P) with false. exists A, s. split; [done|]. split; [done|].
    by apply gone_skip; [|done|lia].
Qed.

Lemma destroy_ok : ∃ A s', pagedir_destroy init_page_dir (4096 * pd) s0 = Ret (tt, s') ∧ returned A s' ∧ ∀ p, p ∈ A ↔ kept_by s0 D pd p.
Proof.
  destruct (sp_pd _ _ _ _ _ Hs0 pd T HT) as (HpO & Hka & Hini). pose proof (sp_high _ _ _ _ _ Hs0). pose proof Hka as Hka'. unfold in_area in Hka'.
  unfold pagedir_destroy. rewrite decide_False by lia. rewrite bind_assert by (by apply bool_decide_true).
  destruct (for_to_ok (λ i s, ∃ A, returned A s ∧ gone_before (1024 * i) i A) (Z.to_nat (pd_no PHYS_BASE)) 0 (λ i, destroy_table (4096 * pd + 4 * i)) s0)
    as (s1 & Hrun & A1 & Hr1 & HA1).
  - exists ∅. split; [apply returned_none|]. intros p. split; [by intros ?%not_elem_of_empty|].
    intros [(m & Hm & _)|(j & Hj & Hjp)]; [lia|]. destruct (sp_pt _ _ _ _ _ Hs0 pd T j p HT Hjp). lia.
  - intros i u Hi (B & HB & HgB). change (Z.of_nat (Z.to_nat (pd_no PHYS_BASE))) with 768 in Hi.
    destruct (return_table i B u ltac:(lia) HB HgB) as (B' & u' & H1 & H2 & H3). exists u'. split; [done|]. by exists B'.
  - rewrite (bind_run _ _ _ _ _ Hrun). change (0 + Z.of_nat (Z.to_nat (pd_no PHYS_BASE))) with 768 in HA1.
    destruct (return_page A1 s1 false pd Hr1 Hka HpO) as (s2 & Hrun2 & Hr2).
    + eapply tables_stay; [done|by left].
    + intros Ht. by apply table_other in Ht as (_ & Hn & _).
    + exists ({[ pd ]} ∪ A1), s2. split; [done|]. split; [done|]. intros p. unfold kept_by.
      rewrite elem_of_union, elem_of_singleton, (HA1 p). split.
      * intros [->|[(m & Hm & Hm' & ?)|(j & _ & ?)]]; [by left|right; right; exists m; split; [lia|done]|right; left; by exists T, j].
      * intros [->|[(T' & i & HT' & Hi)|(n & Hn & ?)]]; [by left| |right; left; exists n; split_and!; try lia; tauto].
        assert (T' = T) as -> by congruence.
        right; right. exists i. split; [|done]. destruct (sp_pt _ _ _ _ _ Hs0 pd T i p HT Hi). lia.
Qed.
End destroy.

(** ** All calls *)
Section calls.
Context (init_page_dir ram_pages : Z) (L : bool → area).
Local Abbreviation kernel_spaces := (kernel_spaces init_page_dir L).
Local Abbreviation full O := (∀ i, ¬ free_run (L false) O i 1).

Lemma boot_beside s O D s' O' D' : boot_dir init_page_dir s O D → beside s O D s' O' D' → boot_dir init_page_dir s' O' D'.
Proof.
  intros (ip & E & HO & Ht & Hz) [A B C R M]. exists ip. split_and!; [done|by apply A| |].
  - intros [?|?]%C; done.
  - intros i Hi. rewrite <-(Hz i Hi). apply load32_same. intros x Hx.
    assert (x / 4096 = ip) as Ex by mlia. apply M; by rewrite Ex.
Qed.

Lemma frames_one E E' pd n e : (∀ pd n, 0 ≤ n < 786432 → e_frame (E pd n) < 4294967296) → one_entry E E' pd n e →
  e_frame e < 4294967296 → ∀ pd n, 0 ≤ n < 786432 → e_frame (E' pd n) < 4294967296.
Proof.
  intros H [H1 H2] He pd' n' Hn'. destruct (decide (pd' = pd ∧ n' = n)) as [[-> ->]|Hne]; [by rewrite H1|].
  rewrite H2 by done. by apply H.
Qed.

Lemma beside_same_dom s O D s' O' D' : beside s O D s' O' D' → dom D' = dom D.
Proof. intros Hb. apply set_eq. intros pd. rewrite !elem_of_dom. apply (be_dom _ _ _ _ _ _ Hb). Qed.

(** A call that changed one entry. *)
Lemma one_entry_next s O D s' O' D' pd n e :
  kernel_spaces s O D → spaces init_page_dir L s' O' D' → beside s O D s' O' D' →
  one_entry (entry_of s D) (entry_of s' D') pd n e → e_frame e < 4294967296 →
  kernel_spaces s' O' D' ∧ O ⊆ O' ∧ cr3 s' = cr3 s ∧ dom D' = dom D.
Proof.
  intros [Hs Hb Hf Hk] Hs' Hbe H1 He. split; [|split; [apply Hbe|split; [apply Hbe|by eapply beside_same_dom]]].
  split; [done|by eapply boot_beside|by eapply frames_one|done].
Qed.

Lemma create_boot s O D pd s' : boot_dir init_page_dir s O D → spaces init_page_dir L s O D → (pd ∉ O) →
  (∀ x, x / 4096 ∈ O → memory s' x = memory s x) → boot_dir init_page_dir s' (page_run pd 1 ∪ O) (<[pd := ∅]> D).
Proof.
  intros (ip & E & HO & Ht & Hz) Hs Hpd Hm. exists ip. split_and!; [done|set_solver| |].
  - intros [Hp|(pd' & T & i & HT & Hi)]; apply Ht.
    + left. rewrite lookup_insert_ne in Hp; [done|]. intros ->. done.
    + apply lookup_insert_Some in HT as [[<- <-]|[_ HT]]; [by rewrite lookup_empty in Hi|]. right. eauto.
  - intros i Hi. rewrite <-(Hz i Hi). apply load32_same. intros x Hx. apply Hm. by replace (x / 4096) with ip by mlia.
Qed.

Lemma create_cr3 s p s' : pagedir_create init_page_dir s = Ret (p, s') → cr3 s' = cr3 s.
Proof.
  unfold pagedir_create, in_ram, zoom, bind. destruct (palloc_get_page 0 (ram s)) as [[q r]|]; [|done]. cbn [obind].
  case_decide; intros [= _ <-]; done.
Qed.

(** A directory in the register. *)
Lemma activate_ok s O D p : kernel_spaces s O D → p = 0 ∨ p ∈ dom D →
  let c := register init_page_dir (Activate p) (cr3 s) in
  pagedir_activate init_page_dir (4096 * p) s = Ret (tt, mkMmu (ram s) c) ∧ kernel_spaces (mkMmu (ram s) c) O D.
Proof.
  intros [Hs Hb Hf Hk] Hp c. pose proof (sp_high _ _ _ _ _ Hs) as Hh. pose proof (ow_apart _ _ _ (sp_owns _ _ _ _ _ Hs)) as Hap.
  pose proof (po_range _ _ _ (ow_pool _ _ _ (sp_owns _ _ _ _ _ Hs) true)) as Hr.
  assert (∃ q, (if decide (4096 * p = 0) then init_page_dir else 4096 * p) = 4096 * q ∧ c = 4096 * q - PHYS_BASE ∧ in_area (L false) q) as (q & E & -> & Hq).
  { unfold c, register. destruct Hp as [->|Hp].
    - rewrite !decide_True by done. destruct Hb as (ip & -> & _). exists ip. rewrite Z.mul_comm, Z.div_mul in Hk by lia. split_and!; [lia|lia|done].
    - apply elem_of_dom in Hp as [T HT]. destruct (sp_pd _ _ _ _ _ Hs p T HT) as (_ & Ha & _). pose proof Ha as Ha'. unfold in_area in Ha'.
      rewrite !decide_False by lia. by exists p. }
  unfold in_area in Hq. pose proof (wf_cnt _ (po_wf _ _ _ (ow_pool _ _ _ (sp_owns _ _ _ _ _ Hs) true))) as Hw.
  pose proof (po_cnt _ _ _ (ow_pool _ _ _ (sp_owns _ _ _ _ _ Hs) true)) as Hc. change PHYS_BASE with 3221225472 in *. split.
  - unfold pagedir_activate. rewrite E. unfold vtop, is_kernel_vaddr. change PHYS_BASE with 3221225472. rewrite bool_decide_true by lia. done.
  - split; [|done..]. destruct Hs as [H1 H2 H3 H4 H5 H6 H7 H8 H9]. split; try done. cbn [cr3]. lia.
Qed.

(** Without the directory. *)
Lemma destroy_run s O D pd : kernel_spaces s O D → pd ∈ dom D → own_frames L (entry_of s D pd) O →
  ∃ s' O' D', pagedir_destroy init_page_dir (4096 * pd) s = Ret (tt, s') ∧ kernel_spaces s' O' D' ∧ cr3 s' = cr3 s ∧
    (∀ p, p ∈ O' ↔ p ∈ O ∧ ¬ kept_by s D pd p) ∧ dom D' = dom D ∖ {[ pd ]} ∧
    ∀ pd' n, pd' ≠ pd → 0 ≤ n < 786432 → entry_of s' D' pd' n = entry_of s D pd' n.
Proof.
  intros [Hs Hb Hf Hk] [T HT]%elem_of_dom Hown.
  destruct (destroy_ok init_page_dir L s O D pd T Hs HT Hown) as (A & s' & Hrun & [R1 R2 R3 R4] & HA).
  assert (∀ pd' n, pd' ≠ pd → entry_of s (delete pd D) pd' n = entry_of s D pd' n) as He.
  { intros pd' n Hne. unfold entry_of, word_of, entry_at. by rewrite lookup_delete_ne. }
  exists s', (O ∖ A), (delete pd D). split; [done|]. split; [|split; [done|split; [|split; [apply dom_delete_L|]]]].
  - split; [done| | |done].
    + destruct Hb as (ip & E & HO & Ht & Hz). rewrite E, Z.mul_comm, Z.div_mul in Hk by lia.
      assert (ip ∉ A) as HipA.
      { intros [->|[(T' & i & HT' & Hi)|(n & Hn & Hp & Hfr)]]%HA; [apply Ht; left; by eexists|apply Ht; right; eauto|].
        destruct (proj1 Hown n Hn Hp) as (k & Ek & Hu & _). assert (k = ip) as -> by lia.
        by apply (areas_apart L _ _ true ip (sp_owns _ _ _ _ _ Hs)). }
      exists ip. split; [done|]. split; [by apply elem_of_difference|]. split.
      * intros Htp. apply (table_other init_page_dir L s O D pd T Hs HT) in Htp as [Htp _]. done.
      * intros i Hi. rewrite <-(Hz i Hi). apply load32_same. intros x Hx. apply R4. by replace (x / 4096) with ip by mlia.
    + intros pd' n Hn. rewrite R2. destruct (decide (pd' = pd)) as [->|Hne]; [|rewrite He by done; by apply Hf].
      unfold entry_of, word_of, entry_at. by rewrite lookup_delete_eq.
  - intros p. by rewrite elem_of_difference, HA.
  - intros pd' n Hne Hn. by rewrite R2, He.
Qed.

Lemma run_pd_ok s O D c :
  kernel_spaces s O D → allowed L ram_pages O (dom D) (entry_of s D) c →
  ∃ r s' O' D', run_pd init_page_dir ram_pages c s = Ret (r, s') ∧ kernel_spaces s' O' D' ∧
    (owners s O D c O' ∧ cr3 s' = register init_page_dir c (cr3 s)) ∧
    answers (full O) (dom D) (entry_of s D) c r (dom D') (entry_of s' D').
Proof.
  intros Hk Hc. pose proof Hk as [Hs Hb Hf _].
  assert (∀ pd, pd ∈ dom D → is_Some (D !! pd)) as Hdom by (intros; by apply elem_of_dom).
  assert (∀ pd v, 0 ≤ v < PHYS_BASE → e_frame (entry_of s D pd (v / 4096)) < 4294967296) as Hfr
    by (intros; by apply Hf, user_page).
  destruct c as [|pd v k w|pd v|pd v|pd v|pd v b|pd v|pd v b|pd|pd]; cbn [allowed run_pd answers owners register] in *.
  - destruct (create_ok init_page_dir L s O D Hs Hb) as [(s' & pd & Hrun & Hpd & HD & HpO & Hs' & Hm & HE)|[Hrun Hno]].
    + exists (4096 * pd), s', (page_run pd 1 ∪ O), (<[pd := ∅]> D). split; [done|]. split; [|split; [split; [set_solver|by eapply create_cr3]|left]].
      * split; [done|by eapply create_boot| |apply Hk]. intros pd' n Hn. rewrite HE by done. case_decide; [|by apply Hf]. done.
      * exists pd. split_and!; try done; [by apply not_elem_of_dom|by rewrite dom_insert_L].
    + exists 0, s, O, D. split_and!; try done. by right.
  - destruct Hc as (HP & Hv & Hal & Hkr & Hram & Hnp).
    destruct (set_page_ok init_page_dir L ram_pages s O D pd v k w Hs) as
      [(s' & O' & D' & Hrun & Hs' & Hbe & H1)|[Hrun Hno]]; try done; [by apply Hdom| |].
    + destruct (one_entry_next s O D s' O' D' _ _ _ Hk Hs' Hbe H1) as (Hk' & HO & Hcr & Hd); [simpl; lia|].
      exists 1, s', O', D'. split; [by rewrite (bind_run _ _ _ _ _ Hrun)|]. split_and!; try done. by left.
    + exists 0, s, O, D. split; [by rewrite (bind_run _ _ _ _ _ Hrun)|]. split_and!; try done. by right.
  - destruct Hc as [HP Hv]. eexists _, s, O, D. split; [apply (get_page_ok init_page_dir L s O D pd v Hs); auto|].
    by split_and!.
  - destruct Hc as (HP & Hv & Hal).
    destruct (clear_page_ok init_page_dir L s O D pd v Hs) as (s' & Hrun & Hs' & Hbe & H1); try done; [by apply Hdom|].
    destruct (one_entry_next s O D s' O D _ _ _ Hk Hs' Hbe H1) as (Hk' & HO & Hcr & Hd); [by apply Hfr|].
    exists 0, s', O, D. split; [by rewrite (bind_run _ _ _ _ _ Hrun)|]. by split_and!.
  - destruct Hc as [HP Hv].
    pose proof (test_flag_ok init_page_dir L s O D pd v 6 Hs (Hdom _ HP) Hv ltac:(by right)) as Hrun.
    eexists _, s, O, D. split; [unfold pagedir_is_dirty; by rewrite (bind_run _ _ _ _ _ Hrun)|]. by split_and!.
  - destruct Hc as (HP & Hv & Hb').
    destruct (assign_flag_ok init_page_dir L s O D pd v 6 b Hs (Hdom _ HP) Hv ltac:(by right) Hb') as (s' & Hrun & Hs' & Hbe & H1).
    destruct (one_entry_next s O D s' O D _ _ _ Hk Hs' Hbe H1) as (Hk' & HO & Hcr & Hd); [by apply Hfr|].
    exists 0, s', O, D. split; [exact (bind_run _ _ _ _ _ Hrun)|]. by split_and!.
  - destruct Hc as [HP Hv].
    pose proof (test_flag_ok init_page_dir L s O D pd v 5 Hs (Hdom _ HP) Hv ltac:(by left)) as Hrun.
    eexists _, s, O, D. split; [unfold pagedir_is_accessed; by rewrite (bind_run _ _ _ _ _ Hrun)|]. by split_and!.
  - destruct Hc as (HP & Hv & Hb').
    destruct (assign_flag_ok init_page_dir L s O D pd v 5 b Hs (Hdom _ HP) Hv ltac:(by left) Hb') as (s' & Hrun & Hs' & Hbe & H1).
    destruct (one_entry_next s O D s' O D _ _ _ Hk Hs' Hbe H1) as (Hk' & HO & Hcr & Hd); [by apply Hfr|].
    exists 0, s', O, D. split; [exact (bind_run _ _ _ _ _ Hrun)|]. by split_and!.
  - destruct (activate_ok s O D pd Hk Hc) as [Hrun Hk']. eexists 0, _, O, D. split; [by rewrite (bind_run _ _ _ _ _ Hrun)|]. by split_and!.
  - destruct Hc as [HP Hown]. destruct (destroy_run s O D pd Hk HP Hown) as (s' & O' & D' & Hrun & Hk' & Hcr & HO & Hd & He).
    exists 0, s', O', D'. split; [by rewrite (bind_run _ _ _ _ _ Hrun)|]. by split_and!.
Qed.
End calls.

(** C18: Page directories refine maps from user pages to entries (a frame, whether it is present, writable, accessed,
    dirty).  Each function of pagedir.c, on any of the directories in memory, returns; it answers what the maps say, and
    changes no entry but the one it names, in no other directory.  Creating a directory or mapping a page fails, with
    nothing changed, only if the kernel has no free page for the directory or for a new table.  Activating a directory,
    or the kernel's own for a null pointer, puts it into the register, which no other call changes.  Destroying one whose
    present entries map user pages that were given out, each once, gives back just its page, its tables and those frames,
    and leaves the other directories as they are.  The tables stay well formed: each in a page of its own that the page
    allocator gave the kernel. *)
Theorem page_directories_refine_maps (init_page_dir ram_pages : Z) (L : bool → area) (s : mmu) (O : gset Z) (D : dirs)
    (c : pd_call) (Hkernel : kernel_spaces init_page_dir L s O D) (Hallowed : allowed L ram_pages O (dom D) (entry_of s D) c) :
  ∃ r s' O' D', run_pd init_page_dir ram_pages c s = Ret (r, s') ∧ kernel_spaces init_page_dir L s' O' D' ∧
    (owners s O D c O' ∧ cr3 s' = register init_page_dir c (cr3 s)) ∧
    answers (∀ i, ¬ free_run (L false) O i 1) (dom D) (entry_of s D) c r (dom D') (entry_of s' D').
Proof. by apply run_pd_ok. Qed.

(** ** A machine with 300 pages *)

(** The kernel's own directory is in the kernel's first page, that of a process
    in the second. *)
Definition boot_page : Z := 786689.
Definition boot_ram : pages :=
  match palloc_get_page (PAL_ASSERT + PAL_ZERO) small_ram with Ret (_, r) => r | Err _ => small_ram end.
Definition booted : mmu :=
  match run_pd (4096 * boot_page) 300 Create (mkMmu boot_ram 0) with Ret (_, s) => s | Err _ => mkMmu small_ram 0 end.

Lemma boot_ram_owns : owns small_areas boot_ram (page_run boot_page 1 ∪ ∅) ∧
  bytes boot_ram = filled (4096 * boot_page) (4096 * 1) 0 (λ _, 7).
Proof.
  destruct small_ram_owns as [Ho Hb].
  destruct (get_ok small_areas small_ram ∅ (PAL_ASSERT + PAL_ZERO) 1 Ho ltac:(lia)) as
    [(i & r & Hrun & _ & _ & _ & Hown & Hbytes)|[_ Hrun]].
  - assert (i = boot_page) as ->.
    { assert (match palloc_get_multiple (PAL_ASSERT + PAL_ZERO) 1 small_ram with Ret (p, _) => p | _ => 0 end
        = 4096 * boot_page) as E by (by vm_compute). rewrite Hrun in E. lia. }
    unfold boot_ram, palloc_get_page. rewrite Hrun, Hb in *. by split.
  - exfalso. assert (match palloc_get_multiple (PAL_ASSERT + PAL_ZERO) 1 small_ram with Ret (p, _) => p | _ => 0 end
      = 4096 * boot_page) as E by (by vm_compute).
    rewrite Hrun in E. discriminate E.
Qed.

Lemma boot_ok : kernel_spaces (4096 * boot_page) small_areas (mkMmu boot_ram 0) (page_run boot_page 1 ∪ ∅) ∅.
Proof.
  destruct boot_ram_owns as [Ho Hb]. assert (memory (mkMmu boot_ram 0) = bytes boot_ram) as Em by done. split.
  - assert (∀ pd (T : gmap Z Z), (∅ : dirs) !! pd = Some T → False) as Hn by (intros pd T H; by rewrite lookup_empty in H).
    split.
    + exact Ho.
    + by vm_compute.
    + rewrite Em, Hb. apply filled_ok; [lia|]. intros x. lia.
    + cbn [cr3]. lia.
    + intros pd T H. by destruct (Hn pd T).
    + intros pd T i pt H. by destruct (Hn pd T).
    + intros pd T i pt H. by destruct (Hn pd T).
    + intros pd T i H. by destruct (Hn pd T).
    + intros pd T i pd' T' i' pt H. by destruct (Hn pd T).
  - exists boot_page. split; [reflexivity|]. split; [apply elem_of_union_l, elem_page_run; lia|]. split.
    + intros [[T HT]|(pd & T & i & HT & _)]; by rewrite lookup_empty in HT.
    + intros i Hi. rewrite Em, Hb, load32_filled by lia. reflexivity.
  - intros pd n _. reflexivity.
  - assert (small_areas false = (786689, 39)) as E by (by vm_compute). rewrite E. unfold in_area, boot_page. cbn [fst snd]. mlia.
Qed.

Lemma booted_ok : ∃ O, kernel_spaces (4096 * boot_page) small_areas booted O {[ 786690 := ∅ ]} ∧
  ∀ n, 0 ≤ n < 786432 → entry_of booted {[ 786690 := ∅ ]} 786690 n = no_entry.
Proof.
  destruct boot_ok as [Hs Hb Hf Hk].
  assert (match pagedir_create (4096 * boot_page) (mkMmu boot_ram 0) with Ret (p, _) => p | _ => 0 end
    = 4096 * 786690) as E by (by vm_compute).
  destruct (create_ok _ _ _ _ _ Hs Hb) as [(s' & pd & Hrun & Hpd & HD & HpO & Hs' & Hm & HE)|[Hrun _]];
    rewrite Hrun in E; [|exfalso; clear -E; discriminate E].
  assert (pd = 786690) as -> by (clear -E; lia). rewrite insert_empty in Hs'.
  assert (booted = s') as -> by (unfold booted, run_pd; rewrite Hrun; reflexivity).
  exists (page_run 786690 1 ∪ (page_run boot_page 1 ∪ ∅)). split; [split; [exact Hs'| | |exact Hk]|].
  - rewrite <-insert_empty. by eapply create_boot.
  - intros pd n Hn. rewrite <-insert_empty, HE by done. by case_decide.
  - intros n Hn. rewrite <-insert_empty, HE by done. by rewrite decide_True.
Qed.

Lemma page_directories_refine_maps_witness : ∃ r s' O' D',
  run_pd (4096 * boot_page) 300 (SetPage 786690 134512640 786729 true) booted = Ret (r, s') ∧
  kernel_spaces (4096 * boot_page) small_areas s' O' D' ∧ r = 1 ∧
  entry_of s' D' 786690 32840 = mkEntry true (4096 * 786729) true false false.
Proof.
  destruct booted_ok as (O & Hk & HE).
  destruct (page_directories_refine_maps (4096 * boot_page) 300 small_areas booted O {[ 786690 := ∅ ]}
    (SetPage 786690 134512640 786729 true) Hk) as (r & s' & O' & D' & Hrun & Hk' & _ & Hans).
  - cbn [allowed]. change (134512640 / 4096) with 32840. rewrite HE by lia.
    split; [rewrite dom_singleton_L; by apply elem_of_singleton|]. change PHYS_BASE with 3221225472.
    split; [lia|]. split; [reflexivity|]. split; [lia|]. split; [lia|reflexivity].
  - exists r, s', O', D'. split; [exact Hrun|]. split; [exact Hk'|].
    assert (match run_pd (4096 * boot_page) 300 (SetPage 786690 134512640 786729 true) booted with Ret (p, _) => p | _ => 0 end
      = 1) as E by (by vm_compute). rewrite Hrun in E. split; [exact E|].
    cbn [answers] in Hans. destruct Hans as [_ [[_ [H1 _]]|[Hr _]]]; [exact H1|congruence].
Defined.
