(* ===== verification/Malloc.v ===== *)
(** The heap allocator: threads/malloc.c of Project5, on the page allocator.

    An arena's header is in [arenas], by its address; a page that has none does
    not begin with [ARENA_MAGIC].  A free list is the list of its blocks, in
    order: that lib/kernel/list.c implements such lists is LinkedListSpec. *)
From S2P Require Import Prelude Block Bitmap Palloc.
Local Open Scope Z_scope.

(** malloc.c 38-45 desc *)
Record desc := mkDesc { d_block_size : Z; blocks_per_arena : Z; free_list : list Z; d_lock : bool }.
(** malloc.c 51-56 arena.  [desc] is an index into [descs]. *)
Record arena := mkArena { a_desc : option nat; free_cnt : Z }.

(** malloc.c 64-66 descs *)
Record heap := mkHeap { ram : pages; descs : list desc; arenas : gmap Z arena }.

Definition set_ram (x : pages) (s : heap) : heap := mkHeap x (descs s) (arenas s).
Definition set_descs (x : list desc) (s : heap) : heap := mkHeap (ram s) x (arenas s).
Definition set_arenas (x : gmap Z arena) (s : heap) : heap := mkHeap (ram s) (descs s) x.
Definition on_ram {A} (m : M pages A) : M heap A := zoom ram set_ram m.

Definition get_desc (d : nat) : M heap desc := λ s, let* x := or_fault (descs s !! d) in Ret (x, s).
Definition put_desc (d : nat) (x : desc) : M heap unit := modify (λ s, set_descs (<[d := x]> (descs s)) s).
Definition put_arena (a : Z) (x : arena) : M heap unit := modify (λ s, set_arenas (<[a := x]> (arenas s)) s).
Definition drop_arenas (a : Z) : M heap unit := modify (λ s, set_arenas (delete a (arenas s)) s).
(** The arena at [a], whose [magic] is asserted. *)
Definition get_arena (a : Z) : M heap arena := λ s, let* x := or_panic (arenas s !! a) in Ret (x, s).

Definition set_free_list (l : list Z) (d : desc) : desc := mkDesc (d_block_size d) (blocks_per_arena d) l (d_lock d).
Definition set_lock (b : bool) (d : desc) : desc := mkDesc (d_block_size d) (blocks_per_arena d) (free_list d) b.
Definition lock_desc (f : bool → outcome bool) (d : nat) : M heap unit :=
  let! x := get_desc d in let! l := lift (f (d_lock x)) in put_desc d (set_lock l x).

Definition sizeof_arena : Z := 12.

(** malloc.c 76-84 malloc_init, the loop.  The blocks double in size. *)
Fixpoint init_loop (fuel : nat) (block_size : Z) (descs : list desc) : outcome (list desc) :=
  match fuel with
  | O => Err OutOfFuel
  | S fuel =>
      if decide (block_size < PGSIZE / 2) then
        ASSERT (bool_decide (length descs + 1 ≤ 10)%nat);;;
        init_loop fuel (u32 (block_size * 2)) (descs ++ [mkDesc block_size ((PGSIZE - sizeof_arena) / block_size) [] false])
      else Ret descs
  end.

(** malloc.c 71-85 malloc_init *)
Definition malloc_init (r : pages) : outcome heap :=
  let* descs := init_loop 12 16 [] in Ret (mkHeap r descs ∅).

(** malloc.c 285-294 arena_to_block *)
Definition arena_to_block (a idx : Z) : M heap Z :=
  assertM (bool_decide (a ≠ 0));;!
  let! x := get_arena a in
  let! d := lift (or_fault (a_desc x)) in
  let! d := get_desc d in
  assertM (bool_decide (idx < blocks_per_arena d));;!
  ret (u32 (a + sizeof_arena + idx * d_block_size d)).

(** malloc.c 267-282 block_to_arena *)
Definition block_to_arena (b : Z) : M heap Z :=
  let a := pg_round_down b in
  assertM (bool_decide (a ≠ 0));;!
  let! x := get_arena a in
  match a_desc x with
  | Some d =>
      let! d := get_desc d in
      assertM (bool_decide (u32 (pg_ofs b - sizeof_arena) mod d_block_size d = 0));;! ret a
  | None => assertM (bool_decide (pg_ofs b = sizeof_arena));;! ret a
  end.

(** The calls of [body] for [n] indexes from [i] on. *)
Fixpoint for_blocks (n : nat) (i : Z) (body : Z → M heap unit) : M heap unit :=
  match n with O => ret tt | S n => body i;;! for_blocks n (i + 1) body end.

(** malloc.c 101-103 malloc, the search for a descriptor *)
Fixpoint find_desc (d : nat) (descs : list desc) (size : Z) : option nat :=
  match descs with
  | [] => None
  | x :: descs => if decide (d_block_size x >= size) then Some d else find_desc (S d) descs size
  end.

(** malloc.c 127-146 malloc, a new arena for descriptor [d]; false without memory *)
Definition new_arena (d : nat) : M heap bool :=
  let! a := on_ram (palloc_get_page 0) in
  if decide (a = 0) then ret false
  else
    let! x := get_desc d in
    put_arena a (mkArena (Some d) (blocks_per_arena x));;!
    for_blocks (Z.to_nat (blocks_per_arena x)) 0 (λ i,
      let! b := arena_to_block a i in
      let! x := get_desc d in put_desc d (set_free_list (free_list x ++ [b]) x));;!
    ret true.

(** malloc.c 105-119 malloc, a block that is too big for any descriptor *)
Definition malloc_big (size : Z) : M heap Z :=
  let page_cnt := DIV_ROUND_UP (u32 (size + sizeof_arena)) PGSIZE in
  let! a := on_ram (palloc_get_multiple 0 page_cnt) in
  if decide (a = 0) then ret 0
  else put_arena a (mkArena None page_cnt);;! ret (u32 (a + sizeof_arena)).

(** malloc.c 148-153 malloc, taking the first block from the free list *)
Definition pop_block (d : nat) : M heap Z :=
  let! x := get_desc d in
  let! ' (b, l) := lift (match free_list x with b :: l => Ret (b, l) | [] => Err Panic end) in
  put_desc d (set_free_list l x);;!
  let! a := block_to_arena b in
  let! y := get_arena a in
  put_arena a (mkArena (a_desc y) (u32 (free_cnt y - 1)));;!
  lock_desc lock_release d;;!
  ret b.

(** malloc.c 89-154 malloc *)
Definition malloc (size : Z) : M heap Z :=
  if decide (size = 0) then ret 0
  else
    let! ds := gets descs in
    match find_desc 0 ds size with
    | None => malloc_big size
    | Some d =>
        lock_desc lock_acquire d;;!
        let! x := get_desc d in
        let! ok := (if decide (free_list x = []) then new_arena d else ret true) in
        if (ok : bool) then pop_block d else lock_desc lock_release d;;! ret 0
    end.

(** malloc.c 158-175 calloc *)
Definition calloc (a b : Z) : M heap Z :=
  let size := u32 (a * b) in
  if decide (size < a ∨ size < b) then ret 0
  else
    let! p := malloc size in
    (if decide (p ≠ 0) then on_ram (memset p 0 size) else ret tt);;!
    ret p.

(** malloc.c 178-186 block_size *)
Definition block_size (block : Z) : M heap Z :=
  let! a := block_to_arena block in
  let! x := get_arena a in
  match a_desc x with
  | Some d => let! d := get_desc d in ret (d_block_size d)
  | None => ret (u32 (PGSIZE * free_cnt x - pg_ofs block))
  end.

(** [list_remove (&b->free_elem)] from a free list *)
Fixpoint remove_block (b : Z) (l : list Z) : option (list Z) :=
  match l with
  | [] => None
  | x :: l => if decide (x = b) then Some l else cons x <$> remove_block b l
  end.

(** malloc.c 239-254 free, the arena at [a] may be unused now *)
Definition release_arena (d : nat) (a : Z) : M heap unit :=
  let! x := get_arena a in
  let x := mkArena (a_desc x) (u32 (free_cnt x + 1)) in
  put_arena a x;;!
  let! dd := get_desc d in
  if decide (blocks_per_arena dd ≤ free_cnt x) then
    assertM (bool_decide (free_cnt x = blocks_per_arena dd));;!
    for_blocks (Z.to_nat (blocks_per_arena dd)) 0 (λ i,
      let! b := arena_to_block a i in
      let! dd := get_desc d in
      let! l := lift (or_fault (remove_block b (free_list dd))) in
      put_desc d (set_free_list l dd));;!
    on_ram (palloc_free_page a);;!
    drop_arenas a
  else ret tt.

(** malloc.c 218-264 free *)
Definition free (p : Z) : M heap unit :=
  if decide (p = 0) then ret tt
  else
    let! a := block_to_arena p in
    let! x := get_arena a in
    match a_desc x with
    | Some d =>
        let! dd := get_desc d in
        on_ram (memset p 204 (d_block_size dd));;!
        lock_desc lock_acquire d;;!
        let! dd := get_desc d in
        put_desc d (set_free_list (p :: free_list dd) dd);;!
        release_arena d a;;!
        lock_desc lock_release d
    | None =>
        on_ram (palloc_free_multiple a (free_cnt x));;!
        drop_arenas a
    end.

(** [memcpy (dst, src, n)] between different blocks *)
Definition copy_block (dst src n : Z) : M pages unit :=
  modify (λ r, mkPages (kernel_pool r) (user_pool r) (λ x, if decide (dst ≤ x < dst + n) then bytes r (src + (x - dst)) else bytes r x)).

(** malloc.c 194-214 realloc *)
Definition realloc (old_block new_size : Z) : M heap Z :=
  if decide (new_size = 0) then free old_block;;! ret 0
  else
    let! new_block := malloc new_size in
    (if decide (old_block ≠ 0 ∧ new_block ≠ 0) then
      let! old_size := block_size old_block in
      let min_size := if decide (new_size < old_size) then new_size else old_size in
      on_ram (copy_block new_block old_block min_size);;!
      free old_block
    else ret tt);;!
    ret new_block.
