(* ===== verification/MallocLaws.v ===== *)
(** What the heap allocator keeps: every arena is a page, or a run of pages, that
    the page allocator gave the kernel; the free blocks of a size are cut from
    arenas of that size, and the arenas count them. *)
From S2P Require Import Prelude Block Bitmap Palloc PallocSpec PageDirLaws Malloc.
Local Open Scope Z_scope.

(** ** Counting *)
Section filters.
Context {A : Type} (P Q : A → Prop) `{!∀ x, Decision (P x)} `{!∀ x, Decision (Q x)}.

Lemma length_filter_iff l : (∀ x, x ∈ l → P x ↔ Q x) → length (filter P l) = length (filter Q l).
Proof.
  induction l as [|x l IH]; intros Hiff; [done|]. rewrite !filter_cons. specialize (IH (λ y Hy, Hiff y (list_elem_of_further _ _ _ Hy))).
  pose proof (Hiff x (list_elem_of_here _ _)). repeat case_decide; cbn; tauto || lia.
Qed.

Lemma length_filter_all l x : length (filter P l) = length l → x ∈ l → P x.
Proof.
  induction l as [|y l IH]; intros Hlen Hx; [by apply elem_of_nil in Hx|]. rewrite filter_cons in Hlen. pose proof (length_filter P l).
  case_decide; cbn in Hlen; [|lia]. apply elem_of_cons in Hx as [->|Hx]; [done|]. apply IH; [lia|done].
Qed.
End filters.

Lemma length_filter_add `{EqDecision A} (P Q : A → Prop) `{!∀ x, Decision (P x)} `{!∀ x, Decision (Q x)} l z : NoDup l → z ∈ l → ¬ P z → Q z →
  (∀ x, x ∈ l → x ≠ z → P x ↔ Q x) → length (filter Q l) = S (length (filter P l)).
Proof.
  induction l as [|x l IH]; intros Hnd Hz HP HQ Hiff; [by apply elem_of_nil in Hz|]. apply NoDup_cons in Hnd as [Hx Hnd]. rewrite !filter_cons.
  destruct (decide (x = z)) as [->|Hne].
  - rewrite decide_True, decide_False by done. cbn. f_equal. symmetry. apply length_filter_iff. intros y Hy. apply Hiff; [by constructor|congruence].
  - apply elem_of_cons in Hz as [Hz|Hz]; [congruence|]. assert (∀ y, y ∈ l → y ≠ z → P y ↔ Q y) as H' by (intros; apply Hiff; [by constructor|done]).
    pose proof (Hiff x (list_elem_of_here _ _) Hne). specialize (IH Hnd Hz HP HQ H'). repeat case_decide; cbn; tauto || lia.
Qed.

(** ** Blocks and arenas *)
Definition block_at (x : desc) (a j : Z) : Z := a + 12 + j * d_block_size x.
Definition free_blocks (x : desc) (a : Z) : list Z := filter (λ j, block_at x a j ∈ free_list x) (seqZ 0 (blocks_per_arena x)).

Record desc_shape (x : desc) : Prop := {
  ds_size : 16 ≤ d_block_size x;
  ds_blocks : 0 < blocks_per_arena x;
  ds_fit : blocks_per_arena x * d_block_size x ≤ 4084;
}.

Lemma block_inj x a j i : desc_shape x → block_at x a j = block_at x a i → j = i.
Proof. intros [H _ _]. unfold block_at. nia. Qed.

Lemma block_range x a j : desc_shape x → 0 ≤ j < blocks_per_arena x →
  a + 12 ≤ block_at x a j ∧ block_at x a j + d_block_size x ≤ a + 4096.
Proof. intros [H1 H2 H3] Hj. unfold block_at. nia. Qed.

(** How many pages an arena has. *)
Definition arena_pages (y : arena) : Z := match a_desc y with Some _ => 1 | None => free_cnt y end.

Section heap.
Context (L : bool → area).
Implicit Types s : heap.

Record arena_ok s (O : gset Z) (a : Z) (y : arena) : Prop := {
  ar_page : ∃ k, a = 4096 * k ∧ (L false).1 ≤ k ∧ k + arena_pages y ≤ (L false).1 + (L false).2 ∧ page_run k (arena_pages y) ⊆ O;
  ar_pos : 0 < arena_pages y;
  ar_count d : a_desc y = Some d → ∃ x, descs s !! d = Some x ∧ free_cnt y = Z.of_nat (length (free_blocks x a));
}.

Record heap_ok s (O : gset Z) : Prop := {
  ho_owns : owns L (ram s) O;
  ho_desc d x : descs s !! d = Some x → desc_shape x ∧ NoDup (free_list x);
  ho_arena a y : arenas s !! a = Some y → arena_ok s O a y;
  ho_apart a b y z : arenas s !! a = Some y → arenas s !! b = Some z → a ≠ b → a + 4096 * arena_pages y ≤ b ∨ b + 4096 * arena_pages z ≤ a;
  ho_free d x b : descs s !! d = Some x → b ∈ free_list x →
    ∃ a y j, arenas s !! a = Some y ∧ a_desc y = Some d ∧ 0 ≤ j < blocks_per_arena x ∧ b = block_at x a j;
}.

Definition unlocked s : Prop := ∀ d x, descs s !! d = Some x → d_lock x = false.
(** Every arena of small blocks, but perhaps the one at [a], has a block in use. *)
Definition busy s (a : Z) : Prop := ∀ b y d x, arenas s !! b = Some y → b ≠ a → a_desc y = Some d → descs s !! d = Some x →
  free_cnt y < blocks_per_arena x.

(** The block of [n] bytes at [p], which is in the arena [y] at [a], has been given out. *)
Definition in_use s (a : Z) (y : arena) (p n : Z) : Prop :=
  match a_desc y with
  | Some d => ∃ x j, descs s !! d = Some x ∧ 0 ≤ j < blocks_per_arena x ∧ p = block_at x a j ∧ (p ∉ free_list x) ∧ n = d_block_size x
  | None => p = a + 12 ∧ n = 4096 * free_cnt y - 12
  end.
Definition allocated s (p n : Z) : Prop := ∃ a y, arenas s !! a = Some y ∧ in_use s a y p n.

(** Addresses of arenas, and of what is in them. *)
Lemma arena_range s O a y : heap_ok s O → arenas s !! a = Some y → 0 < a ∧ a mod 4096 = 0 ∧ a + 4096 * arena_pages y ≤ 4294967296.
Proof.
  intros Hok Ha. destruct (ho_arena _ _ Hok a y Ha) as [(k & -> & Hk & Hle & _) Hpos _].
  pose proof (po_range _ _ _ (ow_pool _ _ _ (ho_owns _ _ Hok) false)). split; [lia|]. split; [mlia|lia].
Qed.

Lemma in_use_range s O a y p n : heap_ok s O → arenas s !! a = Some y → in_use s a y p n →
  a + 12 ≤ p ∧ p + n ≤ a + 4096 * arena_pages y ∧ 0 < n.
Proof.
  intros Hok Ha. unfold in_use, arena_pages. destruct (a_desc y) as [d|] eqn:Hd.
  - intros (x & j & Hx & Hj & -> & _ & ->). destruct (ho_desc _ _ Hok d x Hx) as [Hs _].
    pose proof (block_range x a j Hs Hj). pose proof (ds_size _ Hs). lia.
  - intros [-> ->]. pose proof (ar_pos _ _ _ _ (ho_arena _ _ Hok a y Ha)) as Hp. unfold arena_pages in Hp. rewrite Hd in Hp. lia.
Qed.

Lemma same_arena s O a y b z p : heap_ok s O → arenas s !! a = Some y → arenas s !! b = Some z →
  a ≤ p < a + 4096 * arena_pages y → b ≤ p < b + 4096 * arena_pages z → a = b.
Proof.
  intros Hok Ha Hb Hp Hq. destruct (decide (a = b)) as [|Hne]; [done|]. destruct (ho_apart _ _ Hok a b y z Ha Hb Hne); lia.
Qed.

(** Blocks in use do not overlap. *)
Lemma allocated_apart s O p n q m : heap_ok s O → allocated s p n → allocated s q m → p ≠ q → p + n ≤ q ∨ q + m ≤ p.
Proof.
  intros Hok (a & y & Ha & Hp) (b & z & Hb & Hq) Hne.
  pose proof (in_use_range s O a y p n Hok Ha Hp) as (P1 & P2 & _). pose proof (in_use_range s O b z q m Hok Hb Hq) as (Q1 & Q2 & _).
  destruct (decide (a = b)) as [->|Hab]; [|destruct (ho_apart _ _ Hok a b y z Ha Hb Hab); lia].
  assert (z = y) as -> by congruence. unfold in_use in *. destruct (a_desc y) as [d|].
  - destruct Hp as (x & j & Hx & Hj & -> & _ & ->), Hq as (x' & i & Hx' & Hi & -> & _ & ->). assert (x' = x) as -> by congruence.
    unfold block_at in *. assert (j ≠ i) by congruence. pose proof (ds_size _ (proj1 (ho_desc _ _ Hok d x Hx))). nia.
  - destruct Hp, Hq. congruence.
Qed.

Lemma allocated_fun s O p n m : heap_ok s O → allocated s p n → allocated s p m → n = m.
Proof.
  intros Hok (a & y & Ha & Hp) (b & z & Hb & Hq).
  pose proof (in_use_range s O a y p n Hok Ha Hp). pose proof (in_use_range s O b z p m Hok Hb Hq).
  assert (a = b) as -> by (apply (same_arena s O a y b z p); (done || lia)). assert (z = y) as -> by congruence.
  unfold in_use in *. destruct (a_desc y) as [d|].
  - destruct Hp as (x & j & Hx & _ & _ & _ & ->), Hq as (x' & i & Hx' & _ & _ & _ & ->). congruence.
  - destruct Hp as [_ ->], Hq as [_ ->]. done.
Qed.

(** ** Finding the arena of a block *)
Lemma round_down_in a p : 0 ≤ a → a mod 4096 = 0 → a ≤ p < a + 4096 → p < 4294967296 → pg_round_down p = a ∧ pg_ofs p = p - a.
Proof.
  intros Ha Hal Hp Hb. rewrite pg_ofs_mod. split; [|mlia]. unfold pg_round_down. change (not32 PGMASK) with PageDir.PTE_ADDR.
  rewrite land_page by lia. mlia.
Qed.

Lemma get_arena_run s a y : arenas s !! a = Some y → get_arena a s = Ret (y, s).
Proof. unfold get_arena. by intros ->. Qed.
Lemma get_desc_run s d x : descs s !! d = Some x → get_desc d s = Ret (x, s).
Proof. unfold get_desc. by intros ->. Qed.

(** The address of a block of the arena at [a], free or not. *)
Definition place_in s (a : Z) (y : arena) (p : Z) : Prop :=
  match a_desc y with
  | Some d => ∃ x j, descs s !! d = Some x ∧ 0 ≤ j < blocks_per_arena x ∧ p = block_at x a j
  | None => p = a + 12
  end.

Lemma block_to_arena_at s a y p : arenas s !! a = Some y → 0 < a → a mod 4096 = 0 → a + 4096 ≤ 4294967296 → place_in s a y p →
  (∀ d x, descs s !! d = Some x → desc_shape x) → block_to_arena p s = Ret (a, s).
Proof.
  intros Ha Ha0 Hal Hae Hp Hshape. unfold block_to_arena, place_in in *.
  destruct (a_desc y) as [d|] eqn:Hd.
  - destruct Hp as (x & j & Hx & Hj & ->). pose proof (Hshape d x Hx) as Hs. pose proof (block_range x a j Hs Hj) as Hr.
    pose proof (ds_size _ Hs). destruct (round_down_in a (block_at x a j)) as [-> ->]; [lia|done|lia|lia|].
    rewrite bind_assert by (by apply bool_decide_true; lia). rewrite (bind_run _ _ _ _ _ (get_arena_run s a y Ha)), Hd.
    rewrite (bind_run _ _ _ _ _ (get_desc_run s d x Hx)). rewrite bind_assert; [done|]. apply bool_decide_eq_true.
    unfold sizeof_arena, block_at. replace (a + 12 + j * d_block_size x - a - 12) with (j * d_block_size x) by lia.
    unfold block_at in Hr. rewrite u32_small by lia. apply Z_mod_mult.
  - subst p. destruct (round_down_in a (a + 12)) as [-> ->]; [lia|done|lia|lia|].
    rewrite bind_assert by (by apply bool_decide_true; lia). rewrite (bind_run _ _ _ _ _ (get_arena_run s a y Ha)), Hd.
    rewrite bind_assert; [done|]. apply bool_decide_eq_true. unfold sizeof_arena. lia.
Qed.

Lemma block_to_arena_ok s O a y p : heap_ok s O → arenas s !! a = Some y → place_in s a y p → block_to_arena p s = Ret (a, s).
Proof.
  intros Hok Ha Hp. destruct (arena_range s O a y Hok Ha) as (Ha0 & Hal & Hae).
  pose proof (ar_pos _ _ _ _ (ho_arena _ _ Hok a y Ha)). apply (block_to_arena_at s a y); try done; [lia|].
  intros d x Hx. by apply (ho_desc _ _ Hok d x).
Qed.

Lemma arena_to_block_ok s a y d x j : arenas s !! a = Some y → a_desc y = Some d → descs s !! d = Some x → desc_shape x →
  0 < a → a + 4096 ≤ 4294967296 → 0 ≤ j < blocks_per_arena x → arena_to_block a j s = Ret (block_at x a j, s).
Proof.
  intros Ha Hd Hx Hs Ha0 Hae Hj. pose proof (block_range x a j Hs Hj) as Hr. pose proof (ds_size _ Hs). unfold arena_to_block.
  rewrite bind_assert by (apply bool_decide_true; lia). rewrite (bind_run _ _ _ _ _ (get_arena_run s a y Ha)), Hd. cbn [or_fault]. rewrite bind_lift.
  rewrite (bind_run _ _ _ _ _ (get_desc_run s d x Hx)). rewrite bind_assert by (apply bool_decide_true; lia).
  unfold ret, sizeof_arena. rewrite u32_small by (unfold block_at in *; lia). done.
Qed.

(** ** One block more or less in a free list *)

(** [x'] differs from [x] in its free list and its lock. *)
Definition same_sizes (x x' : desc) : Prop := d_block_size x' = d_block_size x ∧ blocks_per_arena x' = blocks_per_arena x.

Lemma block_same x x' a j : same_sizes x x' → block_at x' a j = block_at x a j.
Proof. intros [E _]. unfold block_at. by rewrite E. Qed.

Lemma free_blocks_same x x' a : same_sizes x x' →
  (∀ j, 0 ≤ j < blocks_per_arena x → block_at x a j ∈ free_list x' ↔ block_at x a j ∈ free_list x) →
  length (free_blocks x' a) = length (free_blocks x a).
Proof.
  intros Hs H. unfold free_blocks. destruct Hs as [E1 E2]. rewrite E2. apply length_filter_iff. intros j Hj%elem_of_seqZ.
  rewrite (block_same x x') by done. apply H. lia.
Qed.

Lemma shape_same x x' : same_sizes x x' → desc_shape x → desc_shape x'.
Proof. intros [E1 E2] [H1 H2 H3]. split; by rewrite ?E1, ?E2. Qed.

(** Blocks of different arenas are different. *)
Lemma blocks_apart s O d x a b y z i j : heap_ok s O → descs s !! d = Some x → arenas s !! a = Some y → arenas s !! b = Some z →
  a_desc y = Some d → a_desc z = Some d → 0 ≤ i < blocks_per_arena x → 0 ≤ j < blocks_per_arena x → a ≠ b → block_at x a i ≠ block_at x b j.
Proof.
  intros Hok Hx Ha Hb Hy Hz Hi Hj Hne E. destruct (ho_desc _ _ Hok d x Hx) as [Hs _]. pose proof (ds_size _ Hs).
  pose proof (block_range x a i Hs Hi). pose proof (block_range x b j Hs Hj). apply Hne.
  apply (same_arena s O a y b z (block_at x a i)); unfold arena_pages; rewrite ?Hy, ?Hz; (done || lia).
Qed.

Lemma relist s O d x x' a y y' r : heap_ok s O → descs s !! d = Some x → arenas s !! a = Some y → a_desc y = Some d → same_sizes x x' →
  a_desc y' = Some d → owns L r O → NoDup (free_list x') →
  (∀ b, b ∈ free_list x' → b ∈ free_list x ∨ ∃ j, 0 ≤ j < blocks_per_arena x ∧ b = block_at x a j) →
  (∀ b, b ∈ free_list x → b ∈ free_list x' ∨ ∃ j, 0 ≤ j < blocks_per_arena x ∧ b = block_at x a j) →
  free_cnt y' = Z.of_nat (length (free_blocks x' a)) →
  heap_ok (mkHeap r (<[d := x']> (descs s)) (<[a := y']> (arenas s))) O.
Proof.
  intros Hok Hx Ha Hy Hs Hy' Hr Hnd Hin Hout Hcnt. pose proof (lookup_lt_Some _ _ _ Hx) as Hlt.
  assert (∀ e w, <[d := x']> (descs s) !! e = Some w → (e = d ∧ w = x') ∨ (e ≠ d ∧ descs s !! e = Some w)) as Hdesc.
  { intros e w He. destruct (decide (e = d)) as [->|Hne]; [rewrite list_lookup_insert_eq in He by done; left; split; congruence|].
    rewrite list_lookup_insert_ne in He by done. auto. }
  assert (∀ c z, <[a := y']> (arenas s) !! c = Some z → ∃ z0, arenas s !! c = Some z0 ∧ a_desc z = a_desc z0 ∧ arena_pages z = arena_pages z0 ∧
    (c ≠ a → z = z0) ∧ (c = a → z = y')) as Har.
  { intros c z [[<- <-]|[Hne Hc]]%lookup_insert_Some; [exists y|exists z; split_and!; congruence].
    unfold arena_pages. rewrite Hy, Hy'. split_and!; congruence. }
  assert (∀ c z, arenas s !! c = Some z → ∃ z', <[a := y']> (arenas s) !! c = Some z' ∧ a_desc z' = a_desc z) as Har'.
  { intros c z Hc. destruct (decide (a = c)) as [<-|Hne]; [exists y'; rewrite lookup_insert_eq; split; congruence|].
    exists z. by rewrite lookup_insert_ne. }
  split; cbn [ram descs arenas].
  - done.
  - intros e w [[-> ->]|[_ He]]%Hdesc; [|by apply (ho_desc _ _ Hok e)]. split; [|done]. apply (shape_same x); [done|]. by apply (ho_desc _ _ Hok d).
  - intros c z Hc. destruct (Har c z Hc) as (z0 & Hz0 & Ed & Ep & E1 & E2). destruct (ho_arena _ _ Hok c z0 Hz0) as [H1 H2 H3].
    split; cbn [descs]; rewrite ?Ep; try done. intros e He. rewrite Ed in He. destruct (H3 e He) as (w & Hw & Hc3).
    destruct (decide (e = d)) as [->|Hed].
    + assert (w = x) as -> by congruence. exists x'. rewrite list_lookup_insert_eq by done. split; [done|].
      destruct (decide (c = a)) as [->|Hca]; [by rewrite (E2 eq_refl)|]. rewrite (E1 Hca), Hc3. f_equal. symmetry.
      apply free_blocks_same; [done|]. intros j Hj. split; intros Hb.
      * destruct (Hin _ Hb) as [|(i & Hi & E)]; [done|]. by destruct (blocks_apart s O d x c a z0 y j i Hok).
      * destruct (Hout _ Hb) as [|(i & Hi & E)]; [done|]. by destruct (blocks_apart s O d x c a z0 y j i Hok).
    + exists w. rewrite list_lookup_insert_ne by done. split; [done|]. assert (c ≠ a) as Hca by (intros ->; congruence). by rewrite (E1 Hca).
  - intros b c z w Hb Hc Hne. destruct (Har b z Hb) as (z0 & Hz0 & _ & -> & _). destruct (Har c w Hc) as (w0 & Hw0 & _ & -> & _).
    by apply (ho_apart _ _ Hok b c).
  - intros e w b He Hb. apply Hdesc in He as [[-> ->]|[Hne He]].
    + assert (∃ c z j, arenas s !! c = Some z ∧ a_desc z = Some d ∧ 0 ≤ j < blocks_per_arena x ∧ b = block_at x c j) as (c & z & j & Hc & Hz & Hj & ->).
      { destruct (Hin b Hb) as [Hb'|(j & Hj & ->)]; [by apply (ho_free _ _ Hok d x b)|by exists a, y, j]. }
      destruct (Har' c z Hc) as (z' & Hc' & Ed). exists c, z', j. destruct Hs as [E1 E2]. rewrite E2. split; [done|]. split; [congruence|].
      split; [done|]. symmetry. by apply block_same.
    + destruct (ho_free _ _ Hok e w b He Hb) as (c & z & j & Hc & Hz & Hj & ->). destruct (Har' c z Hc) as (z' & Hc' & Ed).
      exists c, z', j. split_and!; congruence || done || lia.
Qed.

(** The blocks in use, if [free] are the free blocks of descriptor [d]. *)
Definition uses s (d : nat) (x : desc) (free : list Z) (q m : Z) : Prop :=
  ∃ c z, arenas s !! c = Some z ∧
    ((a_desc z ≠ Some d ∧ in_use s c z q m) ∨
     (a_desc z = Some d ∧ ∃ j, 0 ≤ j < blocks_per_arena x ∧ q = block_at x c j ∧ (q ∉ free) ∧ m = d_block_size x)).

Lemma allocated_uses s d x q m : descs s !! d = Some x → allocated s q m ↔ uses s d x (free_list x) q m.
Proof.
  intros Hx. split; intros (c & z & Hc & H); exists c, z; (split; [done|]).
  - destruct (decide (a_desc z = Some d)) as [E|E]; [right|left; done]. split; [done|]. unfold in_use in H. rewrite E in H.
    destruct H as (w & j & Hw & Hj & -> & Hn & ->). assert (w = x) as -> by congruence. by exists j.
  - destruct H as [[_ H]|[E (j & Hj & -> & Hn & ->)]]; [done|]. unfold in_use. rewrite E. by exists x, j.
Qed.

Lemma allocated_relist s d x x' a y y' r q m : descs s !! d = Some x → arenas s !! a = Some y → a_desc y = Some d → same_sizes x x' → a_desc y' = Some d →
  allocated (mkHeap r (<[d := x']> (descs s)) (<[a := y']> (arenas s))) q m ↔ uses s d x (free_list x') q m.
Proof.
  intros Hx Ha Hy Hs Hy'. pose proof (lookup_lt_Some _ _ _ Hx) as Hlt. pose proof Hs as [E1 E2].
  assert (∀ c z, a_desc z ≠ Some d → in_use (mkHeap r (<[d := x']> (descs s)) (<[a := y']> (arenas s))) c z q m ↔ in_use s c z q m) as Hoth.
  { intros c z Hz. unfold in_use. destruct (a_desc z) as [e|]; [|done]. cbn [descs]. by rewrite list_lookup_insert_ne by congruence. }
  rewrite (allocated_uses _ d x'); [|by apply list_lookup_insert_eq]. unfold uses. cbn [arenas].
  split; intros (c & z & Hc & H).
  - apply lookup_insert_Some in Hc as [[<- <-]|[Hne Hc]].
    + exists a, y. split; [done|]. right. destruct H as [[Hn _]|[_ (j & Hj & -> & H)]]; [done|]. split; [done|]. exists j.
      rewrite <-E2, <-E1, <-(block_same x x') by done. done.
    + exists c, z. split; [done|]. destruct H as [[Hn H]|[E (j & Hj & -> & H)]]; [left; split; [done|by apply Hoth in H]|right].
      split; [done|]. exists j. rewrite <-E2, <-E1, <-(block_same x x') by done. done.
  - destruct (decide (a = c)) as [<-|Hne].
    + assert (z = y) as -> by congruence. exists a, y'. rewrite lookup_insert_eq. split; [done|]. right. split; [done|].
      destruct H as [[Hn _]|[_ (j & Hj & -> & H)]]; [done|]. exists j. rewrite E2, E1, (block_same x x') by done. done.
    + exists c, z. rewrite lookup_insert_ne by done. split; [done|].
      destruct H as [[Hn H]|[E (j & Hj & -> & H)]]; [left; split; [done|by apply Hoth]|right]. split; [done|].
      exists j. rewrite E2, E1, (block_same x x') by done. done.
Qed.

Lemma uses_pop s O d x a y j l q m : heap_ok s O → descs s !! d = Some x → arenas s !! a = Some y → a_desc y = Some d →
  0 ≤ j < blocks_per_arena x → (block_at x a j ∉ l) →
  uses s d x l q m ↔ uses s d x (block_at x a j :: l) q m ∨ (q = block_at x a j ∧ m = d_block_size x).
Proof.
  intros Hok Hx Ha Hy Hj Hl. split.
  - intros (c & z & Hc & [H|(E & i & Hi & -> & Hn & ->)]); [left; exists c, z; auto|].
    destruct (decide (block_at x c i = block_at x a j)) as [->|Hne]; [by right|left]. exists c, z. split; [done|]. right. split; [done|].
    exists i. split; [done|]. split; [done|]. split; [by apply not_elem_of_cons|done].
  - intros [(c & z & Hc & [H|(E & i & Hi & -> & [_ Hn]%not_elem_of_cons & ->)])|[-> ->]].
    + exists c, z. auto.
    + exists c, z. split; [done|]. right. split; [done|]. by exists i.
    + exists a, y. split; [done|]. right. split; [done|]. by exists j.
Qed.

Lemma uses_push s O d x a y j q m : heap_ok s O → descs s !! d = Some x → arenas s !! a = Some y → a_desc y = Some d →
  0 ≤ j < blocks_per_arena x → uses s d x (block_at x a j :: free_list x) q m ↔ uses s d x (free_list x) q m ∧ q ≠ block_at x a j.
Proof.
  intros Hok Hx Ha Hy Hj. destruct (ho_desc _ _ Hok d x Hx) as [Hs _]. pose proof (block_range x a j Hs Hj) as Hr. pose proof (ds_size _ Hs). split.
  - intros (c & z & Hc & [[Hn Hu]|(E & i & Hi & -> & [Hne Hn]%not_elem_of_cons & ->)]).
    + split; [exists c, z; auto|]. intros ->. destruct (in_use_range s O c z _ m Hok Hc Hu). apply Hn.
      assert (a = c) as <-; [|congruence]. assert (arena_pages y = 1) by (unfold arena_pages; by rewrite Hy).
      apply (same_arena s O a y c z (block_at x a j)); (done || lia).
    + split; [|done]. exists c, z. split; [done|]. right. split; [done|]. by exists i.
  - intros [(c & z & Hc & [H'|(E & i & Hi & -> & Hn & ->)]) Hne].
    + exists c, z. auto.
    + exists c, z. split; [done|]. right. split; [done|]. exists i. split; [done|]. split; [done|]. split; [by apply not_elem_of_cons|done].
Qed.

Lemma free_blocks_bound x a : 0 ≤ blocks_per_arena x → Z.of_nat (length (free_blocks x a)) ≤ blocks_per_arena x.
Proof. intros H. unfold free_blocks. pose proof (length_filter (λ j, block_at x a j ∈ free_list x) (seqZ 0 (blocks_per_arena x))) as Hl. rewrite length_seqZ in Hl. lia. Qed.

(** A free block more. *)
Lemma free_blocks_add x x' a j : desc_shape x → same_sizes x x' → 0 ≤ j < blocks_per_arena x → (block_at x a j ∉ free_list x) →
  free_list x' = block_at x a j :: free_list x → length (free_blocks x' a) = S (length (free_blocks x a)).
Proof.
  intros Hs Hss Hj Hn Hl. unfold free_blocks. pose proof Hss as [_ E2]. rewrite E2.
  apply (length_filter_add _ _ _ j); [apply NoDup_seqZ|apply elem_of_seqZ; lia|done|rewrite (block_same x x'), Hl by done; by constructor|].
  intros i Hi Hne. rewrite (block_same x x'), Hl, elem_of_cons by done. split; [auto|]. intros [E|]; [|done]. by apply (block_inj x a i j) in E.
Qed.

Lemma lock_desc_run s d x (f : bool → outcome bool) b : descs s !! d = Some x → f (d_lock x) = Ret b →
  lock_desc f d s = Ret (tt, set_descs (<[d := set_lock b x]> (descs s)) s).
Proof. intros Hx Hf. unfold lock_desc. rewrite (bind_run _ _ _ _ _ (get_desc_run s d x Hx)), Hf, bind_lift. done. Qed.

(** The pages of the arenas. *)
Definition pages_at s (c : Z) : option Z := arena_pages <$> arenas s !! c.
Definition arena_page s (k : Z) : Prop := ∃ c n, pages_at s c = Some n ∧ c ≤ 4096 * k < c + 4096 * n.

Lemma arena_page_iff s s' : (∀ c, pages_at s' c = pages_at s c) → ∀ k, arena_page s' k ↔ arena_page s k.
Proof. intros H k. unfold arena_page. by setoid_rewrite H. Qed.

(** ** Taking the first free block *)
Record popped s s' (d : nat) (x : desc) (b : Z) (l : list Z) : Prop := {
  pp_ram : ram s' = ram s;
  pp_descs : descs s' = <[d := set_lock false (set_free_list l x)]> (descs s);
  pp_pages c : pages_at s' c = pages_at s c;
  pp_new : ¬ ∃ m, allocated s b m;
  pp_place : 0 < b;
  pp_used q m : allocated s' q m ↔ allocated s q m ∨ (q = b ∧ m = d_block_size x);
}.

Lemma pop_ok s O d x b l : heap_ok s O → descs s !! d = Some x → free_list x = b :: l → d_lock x = true →
  ∃ s', pop_block d s = Ret (b, s') ∧ heap_ok s' O ∧ popped s s' d x b l ∧
    ∀ a0, busy s a0 → (∀ y, arenas s !! a0 = Some y → a_desc y = Some d ∧ ∃ j, 0 ≤ j < blocks_per_arena x ∧ b = block_at x a0 j) → busy s' 0.
Proof.
  intros Hok Hx Hl Hlock. destruct (ho_free _ _ Hok d x b Hx) as (a & y & j & Ha & Hy & Hj & Eb); [rewrite Hl; by constructor|].
  destruct (ho_desc _ _ Hok d x Hx) as [Hs Hnd]. pose proof (block_range x a j Hs Hj) as Hr. pose proof (ds_size _ Hs).
  destruct (arena_range s O a y Hok Ha) as (Ha0 & Hal & Hae). assert (arena_pages y = 1) as Hpg by (unfold arena_pages; by rewrite Hy).
  destruct (ar_count _ _ _ _ (ho_arena _ _ Hok a y Ha) d Hy) as (x0 & Hx0 & Hcnt). assert (x0 = x) as -> by congruence. clear Hx0.
  pose proof (lookup_lt_Some _ _ _ Hx) as Hlt. rewrite Hl in Hnd. apply NoDup_cons in Hnd as [Hbl Hnd].
  pose proof (ds_blocks _ Hs). pose proof (ds_fit _ Hs). assert (blocks_per_arena x ≤ 4084) as Hbpa by nia. pose proof (free_blocks_bound x a ltac:(lia)) as Hbound.
  set (x1 := set_free_list l x). assert (same_sizes x1 x) as Hss by done.
  assert (length (free_blocks x a) = S (length (free_blocks x1 a))) as Hadd.
  { apply (free_blocks_add x1 x a j); try done; change (block_at x1 a j) with (block_at x a j); rewrite <-Eb; done. }
  set (y' := mkArena (Some d) (free_cnt y - 1)). set (x' := set_lock false x1).
  set (s1 := set_descs (<[d := x1]> (descs s)) s).
  set (s' := mkHeap (ram s) (<[d := x']> (descs s)) (<[a := y']> (arenas s))).
  assert (pop_block d s = Ret (b, s')) as Hrun.
  { unfold pop_block. rewrite (bind_run _ _ _ _ _ (get_desc_run s d x Hx)), Hl. rewrite bind_lift. cbn beta iota.
    unfold put_desc. rewrite bind_modify. cbn beta. fold x1. fold s1.
    assert (descs s1 !! d = Some x1) as Hx1 by (by apply list_lookup_insert_eq).
    rewrite (bind_run _ _ _ _ _ (block_to_arena_at s1 a y b Ha Ha0 Hal ltac:(lia)
      ltac:(unfold place_in; rewrite Hy; by exists x1, j)
      ltac:(intros e w [(-> & <- & _)|[_ He]]%list_lookup_insert_Some; [by apply (shape_same x)|by apply (ho_desc _ _ Hok e w)]))).
    rewrite (bind_run _ _ _ _ _ (get_arena_run s1 a y Ha)). unfold put_arena. rewrite Hy, u32_small by lia. fold y'. rewrite bind_modify. cbn beta.
    set (s2 := set_arenas (<[a := y']> (arenas s1)) s1).
    assert (lock_desc lock_release d s2 = Ret (tt, set_descs (<[d := x']> (descs s2)) s2)) as Hlk by (apply lock_desc_run; [done|cbn; by rewrite Hlock]).
    rewrite (bind_run _ _ _ _ _ Hlk).
    unfold ret, s', set_descs, set_arenas. cbn. by rewrite list_insert_insert_eq. }
  assert (heap_ok s' O) as Hok'.
  { apply (relist s O d x x' a y y'); try done; [apply (ho_owns _ _ Hok)| | |].
    - intros c Hc. left. rewrite Hl. by constructor.
    - intros c Hc. rewrite Hl in Hc. apply elem_of_cons in Hc as [->|Hc]; [right; by exists j|by left].
    - cbn [free_cnt y']. rewrite Hcnt, Hadd. change (free_blocks x' a) with (free_blocks x1 a). lia. }
  exists s'. split; [done|]. split; [done|]. split.
  - split; [done|done| | |lia|].
    + intros c. unfold pages_at. cbn [arenas s']. destruct (decide (a = c)) as [<-|Hne]; [|by rewrite lookup_insert_ne].
      rewrite lookup_insert_eq, Ha. cbn. unfold arena_pages. cbn. by rewrite Hy.
    + intros (m & Hm). apply (allocated_uses _ d x) in Hm; [|done]. destruct Hm as (c & z & Hc & [[Hn Hu]|(E & i & Hi & E2 & Hn & _)]).
      * destruct (in_use_range s O c z b m Hok Hc Hu). apply Hn. assert (a = c) as <-; [|congruence].
        apply (same_arena s O a y c z b); (done || lia).
      * apply Hn. rewrite Hl. by constructor.
    + intros q m. unfold s'. rewrite (allocated_relist s d x x' a y y') by done. change (free_list x') with l.
      rewrite (uses_pop s O d x a y j) by (done || congruence). rewrite <-Eb, <-Hl. by rewrite <-allocated_uses.
  - intros a0 Hbusy Ha0'. intros c z e w Hc Hc0 He Hw. cbn in Hc, Hw. apply lookup_insert_Some in Hc as [[<- <-]|[Hne Hc]].
    + injection He as <-. rewrite list_lookup_insert_eq in Hw by done. injection Hw as <-. cbn. lia.
    + assert (∃ w0, descs s !! e = Some w0 ∧ blocks_per_arena w = blocks_per_arena w0) as (w0 & Hw0 & ->).
      { destruct (decide (e = d)) as [->|Hed]; [rewrite list_lookup_insert_eq in Hw by done; injection Hw as <-; by exists x|].
        rewrite list_lookup_insert_ne in Hw by done. by exists w. }
      apply (Hbusy c z e w0); try done. intros ->. destruct (Ha0' z Hc) as [Hz (i & Hi & E)].
      apply Hne. apply (same_arena s O a y a0 z b); try done; [lia|]. pose proof (block_range x a0 i Hs Hi).
      assert (arena_pages z = 1) by (unfold arena_pages; by rewrite Hz). lia.
Qed.

(** ** Arenas more and less *)

(** The pages of an arena are not those of a run that nobody has. *)
Lemma arena_off s O k n c z : heap_ok s O → 0 < n → (∀ j, k ≤ j < k + n → j ∉ O) → arenas s !! c = Some z →
  c + 4096 * arena_pages z ≤ 4096 * k ∨ 4096 * k + 4096 * n ≤ c.
Proof.
  intros Hok Hn Hfree Hc. destruct (ho_arena _ _ Hok c z Hc) as [(h & -> & _ & _ & Hsub) Hpos _].
  destruct (decide (h + arena_pages z ≤ k)); [lia|]. destruct (decide (k + n ≤ h)); [lia|]. exfalso.
  apply (Hfree (Z.max h k)); [lia|]. apply Hsub, elem_page_run. lia.
Qed.

Lemma added s O O' r k y : heap_ok s O → owns L r O' → O ⊆ O' → page_run k (arena_pages y) ⊆ O' →
  (∀ j, k ≤ j < k + arena_pages y → j ∉ O) → 0 < arena_pages y → (L false).1 ≤ k → k + arena_pages y ≤ (L false).1 + (L false).2 →
  (∀ d, a_desc y = Some d → is_Some (descs s !! d) ∧ free_cnt y = 0) →
  heap_ok (mkHeap r (descs s) (<[4096 * k := y]> (arenas s))) O' ∧ arenas s !! (4096 * k) = None.
Proof.
  intros Hok Hr HO Hrun Hfree Hpos Hk1 Hk2 Hy. set (a := 4096 * k).
  assert (arenas s !! a = None) as Hnone.
  { destruct (arenas s !! a) as [z|] eqn:Hz; [|done]. pose proof (ar_pos _ _ _ _ (ho_arena _ _ Hok a z Hz)).
    destruct (arena_off s O k _ a z Hok Hpos Hfree Hz); unfold a in *; lia. }
  split; [|done]. split; cbn [ram descs arenas].
  - done.
  - apply (ho_desc _ _ Hok).
  - intros c z [[<- <-]|[Hne Hc]]%lookup_insert_Some.
    + split; [by exists k|done|]. cbn [descs]. intros d Hd. destruct (Hy d Hd) as [[x Hx] ->]. exists x. split; [done|].
      destruct (decide (length (free_blocks x a) = 0)%nat) as [->|Hn0]; [done|]. exfalso.
      destruct (free_blocks x a) as [|j l] eqn:El; [done|]. assert (j ∈ free_blocks x a) as Hj by (rewrite El; by constructor).
      apply list_elem_of_filter in Hj as [Hb Hj%elem_of_seqZ]. destruct (ho_free _ _ Hok d x _ Hx Hb) as (c & z & i & Hc & Hz & Hi & E).
      destruct (ho_desc _ _ Hok d x Hx) as [Hs _]. pose proof (block_range x a j Hs ltac:(lia)) as R1. pose proof (block_range x c i Hs Hi) as R2.
      pose proof (ds_size _ Hs). assert (arena_pages z = 1) as E1 by (unfold arena_pages; by rewrite Hz).
      assert (arena_pages y = 1) as E2 by (unfold arena_pages; by rewrite Hd).
      destruct (arena_off s O k _ c z Hok Hpos Hfree Hc); unfold a in *; lia.
    + destruct (ho_arena _ _ Hok c z Hc) as [(h & -> & H1 & H2 & H3) H4 H5]. split; try done. exists h. split_and!; try done. by etransitivity.
  - intros b c z w Hb Hc Hne. apply lookup_insert_Some in Hb as [[<- <-]|[Hb1 Hb]]; apply lookup_insert_Some in Hc as [[<- <-]|[Hc1 Hc]]; [done| | |by apply (ho_apart _ _ Hok b c)].
    + destruct (arena_off s O k _ c w Hok Hpos Hfree Hc); unfold a in *; lia.
    + destruct (arena_off s O k _ b z Hok Hpos Hfree Hb); unfold a in *; lia.
  - intros d x b Hx Hb. destruct (ho_free _ _ Hok d x b Hx Hb) as (c & z & j & Hc & H). exists c, z, j.
    rewrite lookup_insert_ne; [done|]. congruence.
Qed.

(** The blocks of the arena at [a] that are before block [i]. *)
Definition blocks_of (x : desc) (a i : Z) : list Z := block_at x a <$> seqZ 0 i.

Lemma elem_blocks_of x a i b : b ∈ blocks_of x a i ↔ ∃ j, 0 ≤ j < i ∧ b = block_at x a j.
Proof.
  unfold blocks_of. rewrite list_elem_of_fmap. split.
  - intros (j & -> & Hj%elem_of_seqZ). exists j. split; [lia|done].
  - intros (j & Hj & ->). exists j. split; [done|]. apply elem_of_seqZ. lia.
Qed.

Lemma blocks_of_S x a i : 0 ≤ i → blocks_of x a (i + 1) = blocks_of x a i ++ [block_at x a i].
Proof. intros Hi. unfold blocks_of. rewrite seqZ_app by lia. by rewrite fmap_app, Z.add_0_l. Qed.

Lemma add_blocks_ok d a n s x i : arenas s !! a = Some (mkArena (Some d) (blocks_per_arena x)) → (∀ l, desc_shape (set_free_list l x)) →
  0 < a → a + 4096 ≤ 4294967296 → 0 ≤ i → i + Z.of_nat n = blocks_per_arena x →
  descs s !! d = Some (set_free_list (blocks_of x a i) x) →
  for_blocks n i (λ i, let! b := arena_to_block a i in let! x := get_desc d in put_desc d (set_free_list (free_list x ++ [b]) x)) s =
    Ret (tt, set_descs (<[d := set_free_list (blocks_of x a (blocks_per_arena x)) x]> (descs s)) s).
Proof.
  intros Ha Hs Ha0 Hae Hi Hn. revert s i Ha Hi Hn. induction n as [|n IH]; intros s i Ha Hi Hn Hx; cbn [for_blocks].
  - replace (blocks_per_arena x) with i by lia. rewrite list_insert_id by done. by destruct s.
  - rewrite !bind_assoc. assert (arena_to_block a i s = Ret (block_at x a i, s)) as Hb.
    { apply (arena_to_block_ok s a _ d _ i Ha eq_refl Hx (Hs _) Ha0 Hae). cbn. lia. }
    rewrite (bind_run _ _ _ _ _ Hb), bind_assoc, (bind_run _ _ _ _ _ (get_desc_run s d _ Hx)). unfold put_desc at 1. rewrite bind_modify.
    cbn beta. cbn [free_list set_free_list d_block_size blocks_per_arena d_lock]. rewrite <-blocks_of_S by done.
    change (mkDesc (d_block_size x) (blocks_per_arena x) (blocks_of x a (i + 1)) (d_lock x)) with (set_free_list (blocks_of x a (i + 1)) x).
    set (s1 := set_descs (<[d := set_free_list (blocks_of x a (i + 1)) x]> (descs s)) s).
    rewrite (IH s1) by (done || lia || by apply list_lookup_insert_eq, (lookup_lt_Some _ _ _ Hx)).
    unfold s1, set_descs. cbn [descs ram arenas]. by rewrite list_insert_insert_eq.
Qed.
End heap.
