(* ===== verification/MallocSpec.v ===== *)
(** What the heap allocator promises: blocks that do not overlap, as big as was
    asked for and filled as was asked for, until they are freed; and no page kept
    that has no block in use. *)
From S2P Require Import Prelude Block Bitmap Palloc PallocSpec PageDirLaws Malloc MallocLaws.
Local Open Scope Z_scope.

Section heap.
Context (L : bool → area).
Implicit Types s : heap.

Lemma on_ram_run {A} (m : M pages A) s a r : m (ram s) = Ret (a, r) → on_ram m s = Ret (a, Malloc.set_ram r s).
Proof. unfold on_ram, zoom. by intros ->. Qed.

Lemma owns_bytes (r : pages) O m : owns L r O → owns L (set_bytes m r) O.
Proof. intros [H1 H2 H3]. split; [intros u; rewrite pool_set_bytes|..]; done. Qed.

(** ** A new arena *)

(** The state [s'] with an arena more at page [k], whose blocks are all free. *)
Record arena_added s s' (d : nat) (x : desc) (k : Z) : Prop := {
  aa_bytes : bytes (ram s') = bytes (ram s);
  aa_descs : descs s' = <[d := set_free_list (blocks_of x (4096 * k) (blocks_per_arena x)) x]> (descs s);
  aa_arenas : arenas s' = <[4096 * k := mkArena (Some d) (blocks_per_arena x)]> (arenas s);
  aa_new : arenas s !! (4096 * k) = None;
  aa_used q m : allocated s' q m ↔ allocated s q m;
}.

Lemma blocks_of_NoDup x a i : desc_shape x → NoDup (blocks_of x a i).
Proof.
  intros Hs. apply NoDup_fmap_2_strong; [|apply NoDup_seqZ]. intros j j' _ _. by apply block_inj.
Qed.

Lemma free_blocks_all x a : 0 ≤ blocks_per_arena x →
  Z.of_nat (length (free_blocks (set_free_list (blocks_of x a (blocks_per_arena x)) x) a)) = blocks_per_arena x.
Proof.
  intros H. unfold free_blocks. rewrite filter_true; [cbn; rewrite length_seqZ; lia|].
  intros j Hj%elem_of_seqZ. cbn in *. apply elem_blocks_of. by exists j.
Qed.

Lemma new_arena_ok s O d x : heap_ok L s O → descs s !! d = Some x → free_list x = [] →
  (∃ k s', new_arena d s = Ret (true, s') ∧ free_run (L false) O k 1 ∧ heap_ok L s' (page_run k 1 ∪ O) ∧ arena_added s s' d x k) ∨
  ((∀ i, ¬ free_run (L false) O i 1) ∧ new_arena d s = Ret (false, s)).
Proof.
  intros Hok Hx Hl. destruct (ho_desc _ _ _ Hok d x Hx) as [Hs _]. pose proof (ds_blocks _ Hs) as Hpos.
  destruct (get_ok L (ram s) O 0 1 (ho_owns _ _ _ Hok) eq_refl) as [(k & r & Hrun & Hk0 & Hfree & _ & Hown & Hb)|[Hno Hrun]].
  2: { right. split; [done|]. unfold new_arena. rewrite (bind_run _ _ _ _ _ (on_ram_run (palloc_get_page 0) s _ _ Hrun)).
       rewrite decide_True by done. by destruct s. }
  change (has 0 PAL_USER) with false in Hfree. change (has 0 PAL_ZERO) with false in Hb. cbn in Hb.
  left. destruct Hfree as (F1 & F2 & F3). set (a := 4096 * k). set (y0 := mkArena (Some d) 0). set (y := mkArena (Some d) (blocks_per_arena x)).
  set (x' := set_free_list (blocks_of x a (blocks_per_arena x)) x). set (O' := page_run k 1 ∪ O) in *.
  pose proof (po_range _ _ _ (ow_pool _ _ _ (ho_owns _ _ _ Hok) false)) as HL.
  destruct (added L s O O' r k y0 Hok Hown) as [Hok0 Hnone]; try done; try (unfold y0, O'; cbn; set_solver || lia).
  fold a in Hok0, Hnone. set (s0 := mkHeap r (descs s) (<[a := y0]> (arenas s))) in *.
  set (s1 := mkHeap r (descs s) (<[a := y]> (arenas s))). set (s' := mkHeap r (<[d := x']> (descs s)) (<[a := y]> (arenas s))).
  assert (arenas s0 !! a = Some y0) as Ha0 by apply lookup_insert_eq.
  exists k, s'. split_and!.
  - unfold new_arena. rewrite (bind_run _ _ _ _ _ (on_ram_run (palloc_get_page 0) s _ _ Hrun)). rewrite decide_False by (fold a; lia).
    fold a. rewrite (bind_run _ _ (Malloc.set_ram r s) _ _ (get_desc_run (Malloc.set_ram r s) d x Hx)).
    unfold put_arena. rewrite bind_modify. cbn beta. change (set_arenas _ _) with s1.
    assert (descs s1 !! d = Some (set_free_list (blocks_of x a 0) x)) as Hx1.
    { change (descs s1 !! d) with (descs s !! d). rewrite Hx. f_equal. destruct x. cbn in *. by subst. }
    rewrite (bind_run _ _ _ _ _ (add_blocks_ok d a (Z.to_nat (blocks_per_arena x)) s1 x 0 (lookup_insert_eq _ _ _)
      ltac:(intros; by apply (shape_same x)) ltac:(unfold a; lia) ltac:(unfold a; lia) ltac:(lia) ltac:(lia) Hx1)). done.
  - done.
  - change (heap_ok L s' O'). replace s' with (mkHeap r (<[d := x']> (descs s0)) (<[a := y]> (arenas s0)))
      by (unfold s', s0; cbn [descs arenas]; by rewrite insert_insert_eq).
    apply (relist L s0 O' d x x' a y0 y); try done.
    + by apply blocks_of_NoDup.
    + intros b Hbb. right. by apply elem_blocks_of in Hbb.
    + intros b Hbb. rewrite Hl in Hbb. by apply elem_of_nil in Hbb.
    + symmetry. by apply free_blocks_all; lia.
  - split; [done|done|done|done|]. intros q m.
    replace s' with (mkHeap r (<[d := x']> (descs s0)) (<[a := y]> (arenas s0)))
      by (unfold s', s0; cbn [descs arenas]; by rewrite insert_insert_eq).
    rewrite (allocated_relist s0 d x x' a y0 y) by done. split.
    + intros (c & z & Hc & H). cbn in Hc. apply lookup_insert_Some in Hc as [[<- <-]|[Hne Hc]].
      * exfalso. destruct H as [[H _]|[_ (j & Hj & -> & Hn & _)]]; [done|]. apply Hn. cbn. apply elem_blocks_of. by exists j.
      * exists c, z. split; [done|]. destruct H as [[_ H]|[E (j & Hj & -> & _ & ->)]]; [done|]. unfold in_use. rewrite E.
        exists x, j. rewrite Hl. by repeat (split; [exact Hx || exact Hj || apply not_elem_of_nil || done|]).
    + rewrite (allocated_uses s d x) by done. intros (c & z & Hc & H). assert (a ≠ c) as Hne by (intros ->; congruence).
      exists c, z. cbn. rewrite lookup_insert_ne by done. split; [done|]. destruct H as [[Hn H]|[E (j & Hj & -> & _ & ->)]]; [by left|right].
      split; [done|]. exists j. split; [done|]. split; [done|]. split; [|done]. intros (i & Hi & Eb)%elem_blocks_of.
      by destruct (blocks_apart L s0 O' d x c a z y0 j i Hok0 Hx ltac:(cbn; by rewrite lookup_insert_ne) Ha0 E eq_refl).
Qed.

(** ** The state of the heap *)

(** The heap has the blocks [B] in use, by their addresses, with their sizes.
    The pages [O] are owned; those in [O0] by others. *)
Record heap_has s (O0 O : gset Z) (B : gmap Z Z) : Prop := {
  hh_ok : heap_ok L s O;
  hh_unlocked : unlocked s;
  hh_busy : busy s 0;
  hh_blocks p n : B !! p = Some n ↔ allocated s p n;
  hh_pages k : k ∈ O ↔ k ∈ O0 ∨ arena_page s k;
  hh_others k : k ∈ O0 → ¬ arena_page s k;
}.

Lemma relock_desc s d x b e w : descs s !! d = Some x → <[d := set_lock b x]> (descs s) !! e = Some w →
  ∃ w0, descs s !! e = Some w0 ∧ d_block_size w = d_block_size w0 ∧ blocks_per_arena w = blocks_per_arena w0 ∧ free_list w = free_list w0.
Proof. intros Hx [(-> & <- & _)|[_ He]]%list_lookup_insert_Some; [by exists x|by exists w]. Qed.

Lemma relock_desc_back s d x b e w0 : descs s !! d = Some x → descs s !! e = Some w0 → ∃ w, <[d := set_lock b x]> (descs s) !! e = Some w ∧
  d_block_size w = d_block_size w0 ∧ blocks_per_arena w = blocks_per_arena w0 ∧ free_list w = free_list w0.
Proof.
  intros Hx He. destruct (decide (e = d)) as [->|Hne].
  - assert (w0 = x) as -> by congruence. exists (set_lock b x). by rewrite list_lookup_insert_eq by (by eapply lookup_lt_Some).
  - exists w0. by rewrite list_lookup_insert_ne by done.
Qed.

(** Locks do not matter to what is kept. *)
Lemma relock_ok s O d x b : heap_ok L s O → descs s !! d = Some x → heap_ok L (set_descs (<[d := set_lock b x]> (descs s)) s) O.
Proof.
  intros Hok Hx. split; cbn [ram descs arenas set_descs].
  - apply (ho_owns _ _ _ Hok).
  - intros e w He. destruct (relock_desc s d x b e w Hx He) as (w0 & Hw0 & E1 & E2 & E3).
    destruct (ho_desc _ _ _ Hok e w0 Hw0) as [Hs Hnd]. rewrite E3. split; [by apply (shape_same w0)|done].
  - intros a y Ha. destruct (ho_arena _ _ _ Hok a y Ha) as [H1 H2 H3]. split; try done. intros e He. cbn [descs].
    destruct (H3 e He) as (w0 & Hw0 & Hc). destruct (relock_desc_back s d x b e w0 Hx Hw0) as (w & Hw & E1 & E2 & E3).
    exists w. split; [done|]. rewrite Hc. unfold free_blocks, block_at. by rewrite E1, E2, E3.
  - apply (ho_apart _ _ _ Hok).
  - intros e w c He Hc. destruct (relock_desc s d x b e w Hx He) as (w0 & Hw0 & E1 & E2 & E3). rewrite E3 in Hc.
    destruct (ho_free _ _ _ Hok e w0 c Hw0 Hc) as (a & y & j & Ha & Hd & Hj & ->). exists a, y, j.
    unfold block_at. by rewrite E1, E2.
Qed.

Lemma relock_used s d x b q m : descs s !! d = Some x → allocated (set_descs (<[d := set_lock b x]> (descs s)) s) q m ↔ allocated s q m.
Proof.
  intros Hx. unfold allocated, in_use. cbn [descs arenas set_descs]. split; intros (a & y & Ha & H); exists a, y; (split; [done|]); destruct (a_desc y) as [e|]; try done;
    destruct H as (w & j & Hw & Hj & -> & Hn & ->).
  - destruct (relock_desc s d x b e w Hx Hw) as (w0 & Hw0 & E1 & E2 & E3). exists w0, j. unfold block_at in *. by rewrite <-E1, <-E2, <-E3.
  - destruct (relock_desc_back s d x b e w Hx Hw) as (w0 & Hw0 & E1 & E2 & E3). exists w0, j. unfold block_at in *. by rewrite E1, E2, E3.
Qed.

Lemma relock_busy s d x b a : descs s !! d = Some x → busy s a → busy (set_descs (<[d := set_lock b x]> (descs s)) s) a.
Proof.
  intros Hx H c y e w Hc Hne Hd Hw. cbn in Hc, Hw. destruct (relock_desc s d x b e w Hx Hw) as (w0 & Hw0 & _ & -> & _). by apply (H c y e w0).
Qed.

Lemma relock_twice s d x : descs s !! d = Some x → d_lock x = false →
  set_descs (<[d := set_lock false (set_lock true x)]> (<[d := set_lock true x]> (descs s))) s = s.
Proof.
  intros Hx Hl. rewrite list_insert_insert_eq. assert (set_lock false (set_lock true x) = x) as -> by (destruct x; cbn in *; by subst).
  unfold set_descs. rewrite list_insert_id by done. by destruct s.
Qed.

(** ** malloc *)

(** The block [p] of [n] bytes is new: the heap has it beside the blocks [B]. *)
Record fresh_block (B : gmap Z Z) (size p n : Z) : Prop := {
  fr_new : B !! p = None;
  fr_size : size ≤ n;
  fr_range : 0 < p ∧ p + n ≤ 4294967296;
}.

Lemma has_range s O0 O B p n : heap_has s O0 O B → B !! p = Some n → 0 < p ∧ 0 < n ∧ p + n ≤ 4294967296.
Proof.
  intros Hh Hp. apply (hh_blocks _ _ _ _ Hh) in Hp as (a & y & Ha & Hu). pose proof (hh_ok _ _ _ _ Hh) as Hok.
  destruct (in_use_range L s O a y p n Hok Ha Hu). destruct (arena_range L s O a y Hok Ha). lia.
Qed.

Lemma has_apart s O0 O B p n q m : heap_has s O0 O B → B !! p = Some n → B !! q = Some m → p ≠ q → p + n ≤ q ∨ q + m ≤ p.
Proof. intros Hh Hp%(hh_blocks _ _ _ _ Hh) Hq%(hh_blocks _ _ _ _ Hh). apply (allocated_apart L s O); [apply Hh|done..]. Qed.

Lemma new_blocks s s' (B : gmap Z Z) p n : (∀ q m, B !! q = Some m ↔ allocated s q m) → (∀ q m, allocated s' q m ↔ allocated s q m ∨ (q = p ∧ m = n)) →
  B !! p = None → ∀ q m, <[p := n]> B !! q = Some m ↔ allocated s' q m.
Proof.
  intros HB Hs' Hp q m. rewrite Hs', <-HB, lookup_insert_Some. split; [naive_solver|]. intros [Hq|[-> ->]]; [right|by left].
  split; [congruence|done].
Qed.

(** The first free block, from a state [s2] that differs from [s] in what it has free. *)
Lemma pop_has s s2 O0 O O2 B d x x2 size : heap_has s O0 O B → heap_ok L s2 O2 → descs s !! d = Some x → size ≤ d_block_size x →
  descs s2 = <[d := x2]> (descs s) → same_sizes x x2 → d_lock x2 = true → free_list x2 ≠ [] →
  (∀ q m, allocated s2 q m ↔ allocated s q m) → (∀ k, k ∈ O2 ↔ k ∈ O0 ∨ arena_page s2 k) → (∀ k, k ∈ O0 → ¬ arena_page s2 k) →
  (∃ a0, busy s2 a0 ∧ ∀ y, arenas s2 !! a0 = Some y → a_desc y = Some d ∧ ∃ j, 0 ≤ j < blocks_per_arena x2 ∧ head (free_list x2) = Some (block_at x2 a0 j)) →
  ∃ p n s', pop_block d s2 = Ret (p, s') ∧ heap_has s' O0 O2 (<[p := n]> B) ∧ fresh_block B size p n ∧ bytes (ram s') = bytes (ram s2).
Proof.
  intros Hh Hok2 Hx Hsize Hd2 Hss Hlock Hl Hused Hpg Hoth (a0 & Hbusy & Ha0). pose proof (lookup_lt_Some _ _ _ Hx) as Hlt.
  assert (descs s2 !! d = Some x2) as Hx2 by (rewrite Hd2; by apply list_lookup_insert_eq).
  destruct (free_list x2) as [|b l] eqn:El; [done|]. destruct (pop_ok L s2 O2 d x2 b l Hok2 Hx2 El Hlock) as (s' & Hrun & Hok' & Hpop & Hb).
  destruct Hpop as [Hram Hdesc Hpages Hnew Hpos Hu]. exists b, (d_block_size x2), s'. split; [done|].
  assert (B !! b = None) as Hnone.
  { destruct (B !! b) as [m|] eqn:E; [|done]. exfalso. apply Hnew. exists m. by apply Hused, (hh_blocks _ _ _ _ Hh). }
  assert (heap_has s' O0 O2 (<[b := d_block_size x2]> B)) as Hh'.
  { split; [done| | | | |].
    - intros e w He. rewrite Hdesc, Hd2, list_insert_insert_eq in He. apply list_lookup_insert_Some in He as [(_ & <- & _)|[_ He]]; [done|]. by apply (hh_unlocked _ _ _ _ Hh e).
    - apply (Hb a0 Hbusy). intros y Hy. destruct (Ha0 y Hy) as [Hd (j & Hj & E)]. cbn in E. split; [done|]. exists j. split; [done|congruence].
    - apply (new_blocks s2); [|done..]. intros q m. rewrite Hused. apply (hh_blocks _ _ _ _ Hh).
    - intros k. by rewrite Hpg, (arena_page_iff s2 s' Hpages).
    - intros k. rewrite (arena_page_iff s2 s' Hpages). apply Hoth. }
  split; [done|]. split; [|by rewrite Hram]. destruct (has_range s' O0 O2 _ b (d_block_size x2) Hh') as (P1 & P2 & P3); [apply lookup_insert_eq|].
  split; [done| |done]. destruct Hss as [-> _]. done.
Qed.

Lemma find_desc_some d ds size e : find_desc d ds size = Some e → ∃ i x, e = (d + i)%nat ∧ ds !! i = Some x ∧ size ≤ d_block_size x.
Proof.
  revert d. induction ds as [|x ds IH]; intros d Hf; cbn in Hf; [done|]. case_decide as Hd.
  - injection Hf as <-. exists 0%nat, x. split; [lia|]. split; [done|lia].
  - destruct (IH _ Hf) as (i & y & -> & Hy & Hs). exists (S i), y. split; [lia|done].
Qed.

(** The state with a new arena, whose descriptor has been locked. *)
Lemma added_has s s1 s2 O0 O B d x k : heap_has s O0 O B → descs s !! d = Some x →
  s1 = set_descs (<[d := set_lock true x]> (descs s)) s → free_run (L false) O k 1 → heap_ok L s2 (page_run k 1 ∪ O) → arena_added s1 s2 d (set_lock true x) k →
  (∀ j, j ∈ page_run k 1 ∪ O ↔ j ∈ O0 ∨ arena_page s2 j) ∧ (∀ j, j ∈ O0 → ¬ arena_page s2 j) ∧ busy s2 (4096 * k).
Proof.
  intros Hh Hx -> (_ & _ & Hfree) Hok2 [_ Hd Ha Hnew _]. cbn [arenas descs set_descs] in Ha, Hd, Hnew.
  assert (∀ j, arena_page s2 j ↔ j = k ∨ arena_page s j) as Hpg.
  { intros j. unfold arena_page, pages_at. rewrite Ha. split.
    - intros (c & n & Hc & Hj). destruct (decide (4096 * k = c)) as [<-|Hne].
      + rewrite lookup_insert_eq in Hc. injection Hc as <-. left. unfold arena_pages in Hj. cbn in Hj. lia.
      + rewrite lookup_insert_ne in Hc by done. right. by exists c, n.
    - intros [->|(c & n & Hc & Hj)].
      + exists (4096 * k), 1. rewrite lookup_insert_eq. split; [done|lia].
      + exists c, n. rewrite lookup_insert_ne; [done|]. intros <-. by rewrite Hnew in Hc. }
  split_and!.
  - intros j. rewrite elem_of_union, elem_page_run, Hpg, (hh_pages _ _ _ _ Hh).
    assert (k ≤ j < k + 1 ↔ j = k) by lia. tauto.
  - intros j Hj. rewrite Hpg. intros [->|Hp]; [|by apply (hh_others _ _ _ _ Hh j)]. apply (Hfree k); [lia|]. apply (hh_pages _ _ _ _ Hh). by left.
  - intros c y e w Hc Hne He Hw. rewrite Ha, lookup_insert_ne in Hc by done. rewrite Hd, list_insert_insert_eq in Hw.
    assert (c ≠ 0) as Hc0 by (destruct (arena_range L s O c y (hh_ok _ _ _ _ Hh) Hc); lia).
    apply list_lookup_insert_Some in Hw as [(-> & <- & _)|[_ Hw]]; [by apply (hh_busy _ _ _ _ Hh c y e x)|by apply (hh_busy _ _ _ _ Hh c y e w)].
Qed.

Lemma malloc_small s O0 O B d x size : heap_has s O0 O B → size ≠ 0 → find_desc 0 (descs s) size = Some d → descs s !! d = Some x → size ≤ d_block_size x →
  (malloc size s = Ret (0, s) ∧ ∀ i, ¬ free_run (L false) O i 1) ∨
  ∃ p n s' O', malloc size s = Ret (p, s') ∧ heap_has s' O0 O' (<[p := n]> B) ∧ fresh_block B size p n ∧ bytes (ram s') = bytes (ram s).
Proof.
  intros Hh Hz Hf Hx Hsize. unfold malloc. rewrite decide_False by done. rewrite bind_gets, Hf.
  pose proof (hh_ok _ _ _ _ Hh) as Hok. pose proof (lookup_lt_Some _ _ _ Hx) as Hlt.
  pose proof (hh_unlocked _ _ _ _ Hh d x Hx) as Hunl. set (x1 := set_lock true x). set (s1 := set_descs (<[d := x1]> (descs s)) s).
  rewrite (bind_run _ _ s tt s1) by (apply (lock_desc_run s d x); [done|by rewrite Hunl]).
  assert (descs s1 !! d = Some x1) as Hx1 by (by apply list_lookup_insert_eq).
  rewrite (bind_run _ _ _ _ _ (get_desc_run s1 d x1 Hx1)). pose proof (relock_ok s O d x true Hok Hx) as Hok1. change (heap_ok L s1 O) in Hok1.
  destruct (decide (free_list x1 = [])) as [El|El].
  - destruct (new_arena_ok s1 O d x1 Hok1 Hx1 El) as [(k & s2 & Hrun & Hfree & Hok2 & Hadd)|[Hno Hrun]]; rewrite (bind_run _ _ _ _ _ Hrun).
    + destruct (added_has s s1 s2 O0 O B d x k Hh Hx eq_refl Hfree Hok2 Hadd) as (Hpg & Hoth & Hbusy). destruct Hadd as [Hb Hd Ha Hnew Hu].
      change (descs s1) with (<[d := x1]> (descs s)) in Hd. rewrite list_insert_insert_eq in Hd. destruct (ho_desc _ _ _ Hok1 d x1 Hx1) as [Hs _]. pose proof (ds_blocks _ Hs).
      right. destruct (pop_has s s2 O0 O (page_run k 1 ∪ O) B d x _ size Hh Hok2 Hx Hsize Hd) as (p & n & s' & Hpop & Hh' & Hfr & Hb'); try done.
      * cbn [free_list set_free_list]. intros E%(f_equal length). unfold blocks_of in E. rewrite length_fmap, length_seqZ in E. cbn in E, H. lia.
      * intros q m. rewrite Hu. by apply relock_used.
      * exists (4096 * k). split; [done|]. intros y Hy. rewrite Ha, lookup_insert_eq in Hy. injection Hy as <-. split; [done|].
        exists 0. cbn [blocks_per_arena set_free_list free_list]. split; [cbn in *; lia|]. unfold blocks_of. rewrite seqZ_cons by (cbn in *; lia). done.
      * exists p, n, s', (page_run k 1 ∪ O). split; [done|]. split; [done|]. split; [done|]. by rewrite Hb', Hb.
    + left. split; [|done]. assert (lock_desc lock_release d s1 = Ret (tt, set_descs (<[d := set_lock false x1]> (descs s1)) s1)) as Hlk by (by apply lock_desc_run).
      rewrite (bind_run _ _ _ _ _ Hlk). unfold ret. do 2 f_equal. by apply (relock_twice s d x).
  - right. rewrite bind_ret. destruct (pop_has s s1 O0 O O B d x x1 size Hh Hok1 Hx Hsize eq_refl) as (p & n & s' & Hpop & Hh' & Hfr & Hb'); try done.
    + intros q m. by apply relock_used.
    + apply (hh_pages _ _ _ _ Hh).
    + apply (hh_others _ _ _ _ Hh).
    + exists 0. split; [by apply relock_busy, (hh_busy _ _ _ _ Hh)|]. intros y Hy. destruct (arena_range L s O 0 y Hok Hy). lia.
    + by exists p, n, s', O.
Qed.

Definition pages_for (size : Z) : Z := (size + 12 + 4095) / 4096.

Lemma pages_at_add s a n c : pages_at (set_arenas (<[a := mkArena None n]> (arenas s)) s) c = if decide (a = c) then Some n else pages_at s c.
Proof. unfold pages_at. cbn [arenas set_arenas]. case_decide as E; [subst; by rewrite lookup_insert_eq|by rewrite lookup_insert_ne]. Qed.

Lemma malloc_big_ok s O0 O B size : heap_has s O0 O B → 0 < size ≤ 4294963188 →
  (malloc_big size s = Ret (0, s) ∧ ∀ i, ¬ free_run (L false) O i (pages_for size)) ∨
  ∃ p s' O', malloc_big size s = Ret (p, s') ∧ let n := 4096 * pages_for size - 12 in
    heap_has s' O0 O' (<[p := n]> B) ∧ fresh_block B size p n ∧ bytes (ram s') = bytes (ram s).
Proof.
  intros Hh Hs. pose proof (hh_ok _ _ _ _ Hh) as Hok. unfold malloc_big, sizeof_arena, DIV_ROUND_UP.
  change PGSIZE with 4096. rewrite (u32_small (size + 12)) by lia. rewrite (u32_small (size + 12 + 4096 - 1)) by lia.
  replace ((size + 12 + 4096 - 1) / 4096) with (pages_for size) by (unfold pages_for; f_equal; lia). set (n := pages_for size).
  assert (0 < n ∧ size + 12 ≤ 4096 * n) as [Hn Hfit] by (unfold n, pages_for; mlia).
  destruct (get_ok L (ram s) O 0 n (ho_owns _ _ _ Hok) Hn) as [(k & r & Hrun & Hk0 & Hfree & _ & Hown & Hb)|[Hno Hrun]];
    rewrite (bind_run _ _ _ _ _ (on_ram_run _ _ _ _ Hrun)).
  2: { left. split; [|done]. rewrite decide_True by done. by destruct s. }
  right. change (has 0 PAL_USER) with false in Hfree. change (has 0 PAL_ZERO) with false in Hb. cbn in Hb. destruct Hfree as (F1 & F2 & F3).
  set (a := 4096 * k). set (y := mkArena None n). pose proof (po_range _ _ _ (ow_pool _ _ _ (ho_owns _ _ _ Hok) false)) as HL.
  destruct (added L s O (page_run k n ∪ O) r k y Hok Hown) as [Hok' Hnone]; try done; try (cbn; set_solver || lia). fold a in Hok', Hnone.
  set (s' := mkHeap r (descs s) (<[a := y]> (arenas s))) in *. rewrite decide_False by (unfold a; lia). rewrite u32_small by (unfold a; lia).
  assert (∀ q m, allocated s' q m ↔ allocated s q m ∨ (q = a + 12 ∧ m = 4096 * n - 12)) as Hu.
  { intros q m. unfold allocated, in_use. cbn [arenas s']. split.
    - intros (c & z & [[<- <-]|[Hne Hc]]%lookup_insert_Some & H); [by right|left]. by exists c, z.
    - intros [(c & z & Hc & H)|H]; [|exists a, y; split; [apply lookup_insert_eq|done]]. exists c, z. rewrite lookup_insert_ne; [done|congruence]. }
  assert (∀ j, arena_page s' j ↔ k ≤ j < k + n ∨ arena_page s j) as Hpg.
  { intros j. change (arena_page s' j) with (arena_page (set_arenas (<[a := mkArena None n]> (arenas s)) s) j). unfold arena_page. setoid_rewrite pages_at_add. split.
    - intros (c & m & Hc & Hj). case_decide; [|right; by exists c, m]. injection Hc as <-. left. unfold a in *. lia.
    - intros [Hj|(c & m & Hc & Hj)]; [exists a, n; rewrite decide_True by done; split; [done|unfold a; lia]|].
      exists c, m. rewrite decide_False; [done|]. intros <-. unfold pages_at in Hc. by rewrite Hnone in Hc. }
  assert (B !! (a + 12) = None) as Hnew.
  { destruct (B !! (a + 12)) as [m|] eqn:E; [|done]. apply (hh_blocks _ _ _ _ Hh) in E as (c & z & Hc & H).
    pose proof (in_use_range L s O c z _ m Hok Hc H). pose proof (ar_pos _ _ _ _ _ (ho_arena _ _ _ Hok c z Hc)).
    destruct (arena_off L s O k n c z Hok Hn F3 Hc); unfold a in *; lia. }
  exists (a + 12), s', (page_run k n ∪ O). split; [done|]. cbv zeta. fold n. split; [|split; [split; [done|lia|unfold a; lia]|done]].
  split; [done|apply (hh_unlocked _ _ _ _ Hh)| |by apply (new_blocks s), Hnew; [apply (hh_blocks _ _ _ _ Hh)|]| |].
  - intros c z e w Hc. cbn [arenas s'] in Hc. apply lookup_insert_Some in Hc as [[<- <-]|[Hne Hc]]; [done|]. by apply (hh_busy _ _ _ _ Hh c z e w).
  - intros j. rewrite elem_of_union, elem_page_run, Hpg, (hh_pages _ _ _ _ Hh). tauto.
  - intros j Hj. rewrite Hpg. intros [Hp|Hp]; [|by apply (hh_others _ _ _ _ Hh j)]. apply (F3 j Hp). apply (hh_pages _ _ _ _ Hh). by left.
Qed.

(** Either there is no room, or the block is new. *)
Lemma malloc_ok s O0 O B size : heap_has s O0 O B → 0 < size ≤ 4294963188 →
  (malloc size s = Ret (0, s) ∧ ∃ n, 0 < n ≤ pages_for size ∧ ∀ i, ¬ free_run (L false) O i n) ∨
  ∃ p n s' O', malloc size s = Ret (p, s') ∧ heap_has s' O0 O' (<[p := n]> B) ∧ fresh_block B size p n ∧ bytes (ram s') = bytes (ram s).
Proof.
  intros Hh Hs. assert (0 < pages_for size) as Hp by (unfold pages_for; mlia). destruct (find_desc 0 (descs s) size) as [d|] eqn:Hf.
  - destruct (find_desc_some _ _ _ _ Hf) as (i & x & -> & Hx & Hsize). cbn in Hf.
    destruct (malloc_small s O0 O B i x size Hh ltac:(lia) Hf Hx Hsize) as [[H Hno]|H]; [left|by right].
    split; [done|]. exists 1. split; [lia|done].
  - assert (malloc size s = malloc_big size s) as -> by (unfold malloc; rewrite decide_False by lia; by rewrite bind_gets, Hf).
    destruct (malloc_big_ok s O0 O B size Hh Hs) as [[H Hno]|(p & s' & O' & H)]; [left|right; by exists p, (4096 * pages_for size - 12), s', O']. split; [done|]. exists (pages_for size). split; [lia|done].
Qed.
End heap.
