(* ===== verification/FreeSpec.v ===== *)
(** Giving blocks back to the heap: an arena whose blocks are all free goes back
    to the page allocator, and no other block changes. *)
From S2P Require Import Prelude Block Bitmap Palloc PallocSpec PageDirLaws Malloc MallocLaws MallocSpec.
Local Open Scope Z_scope.

Lemma remove_block_ok b l : NoDup l → b ∈ l → remove_block b l = Some (filter (λ c, c ≠ b) l).
Proof.
  induction l as [|x l IH]; intros Hnd Hb; [by apply elem_of_nil in Hb|]. apply NoDup_cons in Hnd as [Hx Hnd]. cbn [remove_block]. rewrite filter_cons.
  case_decide as E.
  - subst x. rewrite decide_False by naive_solver. f_equal. symmetry. apply filter_true. intros c Hc ->. done.
  - rewrite decide_True by done. apply elem_of_cons in Hb as [->|Hb]; [done|]. by rewrite IH.
Qed.

Section heap.
Context (L : bool → area).
Implicit Types s : heap.

(** ** An arena less *)

(** The page of a free block belongs to the block's descriptor. *)
Lemma free_in_range s O e w b a y : heap_ok L s O → descs s !! e = Some w → b ∈ free_list w → arenas s !! a = Some y →
  a ≤ b < a + 4096 * arena_pages y → a_desc y = Some e ∧ ∃ j, 0 ≤ j < blocks_per_arena w ∧ b = block_at w a j.
Proof.
  intros Hok He Hb Ha Hr. destruct (ho_free _ _ _ Hok e w b He Hb) as (c & z & j & Hc & Hz & Hj & ->).
  destruct (ho_desc _ _ _ Hok e w He) as [Hs _]. pose proof (block_range w c j Hs Hj). pose proof (ds_size _ Hs).
  assert (arena_pages z = 1) by (unfold arena_pages; by rewrite Hz).
  assert (a = c) as <- by (apply (same_arena L s O a y c z (block_at w c j)); (done || lia)).
  assert (z = y) as -> by congruence. split; [done|]. by exists j.
Qed.

(** The descriptors without the free blocks of the arena at [a]. *)
Record forgets s (a : Z) (y : arena) (descs' : list desc) : Prop := {
  fg_in e w' : descs' !! e = Some w' → ∃ w, descs s !! e = Some w ∧ same_sizes w w' ∧ NoDup (free_list w') ∧
    ∀ b, b ∈ free_list w' ↔ b ∈ free_list w ∧ ¬ a ≤ b < a + 4096 * arena_pages y;
  fg_back e w : descs s !! e = Some w → is_Some (descs' !! e);
}.

Lemma removed s O a y descs' r : heap_ok L s O → arenas s !! a = Some y → forgets s a y descs' → owns L r (O ∖ page_run (a / 4096) (arena_pages y)) →
  heap_ok L (mkHeap r descs' (delete a (arenas s))) (O ∖ page_run (a / 4096) (arena_pages y)).
Proof.
  intros Hok Ha [Hin Hback] Hr. destruct (ho_arena _ _ _ Hok a y Ha) as [(k & -> & _) Hpos _]. set (n := arena_pages y) in *.
  replace (4096 * k / 4096) with k in * by mlia. split; cbn [ram descs arenas].
  - done.
  - intros e w' He. destruct (Hin e w' He) as (w & Hw & Hss & Hnd & _). split; [|done]. apply (shape_same w); [done|]. by apply (ho_desc _ _ _ Hok e).
  - intros c z Hc. apply lookup_delete_Some in Hc as [Hne Hc]. destruct (ho_arena _ _ _ Hok c z Hc) as [(h & -> & H1 & H2 & H3) H4 H5].
    pose proof (ho_apart _ _ _ Hok _ _ y z Ha Hc Hne) as Hap. split; [|done|].
    + exists h. split; [done|]. split; [done|]. split; [done|]. intros j Hj. apply elem_of_difference. split; [by apply H3|].
      apply elem_page_run in Hj. rewrite elem_page_run. lia.
    + cbn [descs]. intros e He. destruct (H5 e He) as (w & Hw & Hcnt). destruct (Hback e w Hw) as [w' Hw'].
      destruct (Hin e w' Hw') as (w0 & Hw0 & Hss & _ & Hfree). assert (w0 = w) as -> by congruence. exists w'. split; [done|].
      rewrite Hcnt. f_equal. symmetry. apply free_blocks_same; [done|]. intros j Hj. rewrite Hfree. split; [tauto|]. intros Hb. split; [done|].
      destruct (ho_desc _ _ _ Hok e w Hw) as [Hs _]. pose proof (block_range w (4096 * h) j Hs Hj). pose proof (ds_size _ Hs).
      assert (arena_pages z = 1) by (unfold arena_pages; by rewrite He). lia.
  - intros b c z w Hb Hc. apply lookup_delete_Some in Hb as [_ Hb]. apply lookup_delete_Some in Hc as [_ Hc]. by apply (ho_apart _ _ _ Hok b c).
  - intros e w' b He Hb. destruct (Hin e w' He) as (w & Hw & [E1 E2] & _ & Hfree). destruct (proj1 (Hfree b) Hb) as [Hb0 Hn].
    destruct (ho_free _ _ _ Hok e w b Hw Hb0) as (c & z & j & Hc & Hz & Hj & ->). exists c, z, j.
    destruct (ho_desc _ _ _ Hok e w Hw) as [Hs _]. pose proof (block_range w c j Hs Hj). pose proof (ds_size _ Hs).
    rewrite lookup_delete_ne by (intros <-; apply Hn; unfold n in *; lia).
    split; [done|]. split; [done|]. rewrite E2. split; [done|]. symmetry. by apply block_same.
Qed.

Lemma removed_used s O a y descs' r q m : heap_ok L s O → arenas s !! a = Some y → forgets s a y descs' →
  allocated (mkHeap r descs' (delete a (arenas s))) q m ↔ allocated s q m ∧ ¬ a ≤ q < a + 4096 * arena_pages y.
Proof.
  intros Hok Ha [Hin Hback].
  assert (∀ c z, arenas s !! c = Some z → c ≠ a → in_use (mkHeap r descs' (delete a (arenas s))) c z q m ↔ in_use s c z q m) as Hiff.
  { intros c z Hc Hne. unfold in_use. destruct (a_desc z) as [e|] eqn:Ez; [|done]. cbn [descs].
    destruct (ar_count _ _ _ _ _ (ho_arena _ _ _ Hok c z Hc) e Ez) as (w & Hw & _). destruct (Hback e w Hw) as [w' Hw'].
    destruct (Hin e w' Hw') as (w0 & Hw0 & [E1 E2] & _ & Hfree). assert (w0 = w) as -> by congruence.
    destruct (ho_desc _ _ _ Hok e w Hw) as [Hs _]. pose proof (ds_size _ Hs). assert (arena_pages z = 1) by (unfold arena_pages; by rewrite Ez).
    split; intros (v & j & Hv & Hj & -> & Hn & ->).
    - assert (v = w') as -> by congruence. exists w, j. rewrite E1, E2 in *. rewrite (block_same w w') in * by done. split; [done|]. split; [done|]. split; [done|]. split; [|done].
      intros Hb. apply Hn, Hfree. split; [done|]. pose proof (block_range w c j Hs Hj). destruct (ho_apart _ _ _ Hok c a z y Hc Ha Hne); lia.
    - assert (v = w) as -> by congruence. exists w', j. rewrite E1, E2. rewrite (block_same w w') by done. split; [done|]. split; [done|]. split; [done|]. split; [|done].
      intros [Hb _]%Hfree. done. }
  split.
  - intros (c & z & Hc & H). cbn [arenas] in Hc. apply lookup_delete_Some in Hc as [Hne Hc]. rewrite Hiff in H by done. split; [by exists c, z|].
    destruct (in_use_range L s O c z q m Hok Hc H) as (R1 & R2 & R3). destruct (ho_apart _ _ _ Hok c a z y Hc Ha ltac:(congruence)); lia.
  - intros [(c & z & Hc & H) Hn]. exists c, z. destruct (in_use_range L s O c z q m Hok Hc H) as (R1 & R2 & R3).
    assert (c ≠ a) as Hne by (intros ->; assert (z = y) as -> by congruence; lia). cbn [arenas]. rewrite lookup_delete_ne by done. split; [done|]. by apply Hiff.
Qed.

(** ** Taking an arena's blocks from the free list *)
Definition outside (x : desc) (a i : Z) (l : list Z) : list Z := filter (λ b, b ∉ blocks_of x a i) l.

Lemma outside_S x a i l : 0 ≤ i → filter (λ c, c ≠ block_at x a i) (outside x a i l) = outside x a (i + 1) l.
Proof.
  intros Hi. unfold outside. rewrite list_filter_filter. apply list_filter_iff. intros b.
  rewrite blocks_of_S, not_elem_of_app, list_elem_of_singleton by done. tauto.
Qed.

Lemma remove_blocks_ok d a y n s x l i : arenas s !! a = Some y → a_desc y = Some d → (∀ l, desc_shape (set_free_list l x)) →
  0 < a → a + 4096 ≤ 4294967296 → 0 ≤ i → i + Z.of_nat n = blocks_per_arena x → NoDup l → (∀ j, 0 ≤ j < blocks_per_arena x → block_at x a j ∈ l) →
  descs s !! d = Some (set_free_list (outside x a i l) x) →
  for_blocks n i (λ i, let! b := arena_to_block a i in let! dd := get_desc d in let! l := lift (or_fault (remove_block b (free_list dd))) in
    put_desc d (set_free_list l dd)) s =
  Ret (tt, set_descs (<[d := set_free_list (outside x a (blocks_per_arena x) l) x]> (descs s)) s).
Proof.
  intros Ha Hy Hs Ha0 Hae Hi Hn Hnd Hl. revert s i Ha Hi Hn. induction n as [|n IH]; intros s i Ha Hi Hn Hx; cbn [for_blocks].
  - replace (blocks_per_arena x) with i by lia. rewrite list_insert_id by done. by destruct s.
  - rewrite !bind_assoc. assert (arena_to_block a i s = Ret (block_at x a i, s)) as Hb.
    { apply (arena_to_block_ok s a _ d _ i Ha Hy Hx (Hs _) Ha0 Hae). cbn. lia. }
    rewrite (bind_run _ _ _ _ _ Hb), bind_assoc, (bind_run _ _ _ _ _ (get_desc_run s d _ Hx)). cbn [free_list set_free_list].
    assert (block_at x a i ∈ outside x a i l) as Hin.
    { apply list_elem_of_filter. split; [|apply Hl; lia]. intros (j & Hj & E)%elem_blocks_of. apply (block_inj (set_free_list [] x) a i j (Hs _)) in E. lia. }
    rewrite bind_assoc, remove_block_ok by (done || by apply NoDup_filter). cbn [or_fault]. rewrite bind_lift, outside_S by done.
    unfold put_desc at 1. rewrite bind_modify. cbn beta. cbn [d_block_size blocks_per_arena d_lock].
    match goal with |- context [set_descs (<[d := ?z]> _) _] => change z with (set_free_list (outside x a (i + 1) l) x) end.
    set (s1 := set_descs (<[d := set_free_list (outside x a (i + 1) l) x]> (descs s)) s).
    rewrite (IH s1) by (done || lia || by apply list_lookup_insert_eq, (lookup_lt_Some _ _ _ Hx)).
    unfold s1, set_descs. cbn [descs ram arenas]. by rewrite list_insert_insert_eq.
Qed.

(** ** A block given back *)

(** The block [p], the [j]-th of the arena [y] at [a], is free again; [b] says whether its lock is held. *)
Definition pushed s (d : nat) (x : desc) (a : Z) (y : arena) (p : Z) (r : pages) (b : bool) : heap :=
  mkHeap r (<[d := set_lock b (set_free_list (p :: free_list x) x)]> (descs s)) (<[a := mkArena (Some d) (free_cnt y + 1)]> (arenas s)).

Lemma pushed_ok s O d x a y j p r b : heap_ok L s O → descs s !! d = Some x → arenas s !! a = Some y → a_desc y = Some d →
  0 ≤ j < blocks_per_arena x → p = block_at x a j → (p ∉ free_list x) → owns L r O →
  heap_ok L (pushed s d x a y p r b) O ∧ (∀ q m, allocated (pushed s d x a y p r b) q m ↔ allocated s q m ∧ q ≠ p) ∧
  (∀ c, pages_at (pushed s d x a y p r b) c = pages_at s c) ∧ free_cnt y + 1 = Z.of_nat (length (free_blocks (set_free_list (p :: free_list x) x) a)).
Proof.
  intros Hok Hx Ha Hy Hj Hp Hn Hr. set (x' := set_lock b (set_free_list (p :: free_list x) x)).
  destruct (ho_desc _ _ _ Hok d x Hx) as [Hs Hnd]. destruct (ar_count _ _ _ _ _ (ho_arena _ _ _ Hok a y Ha) d Hy) as (x0 & Hx0 & Hcnt).
  assert (x0 = x) as -> by congruence. clear Hx0.
  assert (free_cnt y + 1 = Z.of_nat (length (free_blocks (set_free_list (p :: free_list x) x) a))) as Hc.
  { rewrite (free_blocks_add x (set_free_list (p :: free_list x) x) a j) by (done || by subst p). lia. }
  split_and!; [| | |done].
  - apply (relist L s O d x x' a y); try done.
    + apply NoDup_cons. done.
    + intros c [->|Hc']%elem_of_cons; [right; by exists j|by left].
    + intros c Hc'. left. by constructor.
  - intros q m. unfold pushed. fold x'. rewrite (allocated_relist s d x x' a y (mkArena (Some d) (free_cnt y + 1)) r q m) by done. change (free_list x') with (p :: free_list x). rewrite Hp.
    rewrite (uses_push L s O d x a y j) by done. by rewrite <-allocated_uses.
  - intros c. unfold pages_at, pushed. cbn [arenas]. destruct (decide (a = c)) as [<-|Hne]; [|by rewrite lookup_insert_ne].
    rewrite lookup_insert_eq, Ha. cbn. unfold arena_pages. cbn. by rewrite Hy.
Qed.

(** An arena that is all free: what is left of the descriptor's list. *)
Lemma outside_forgets s O d x a y b : heap_ok L s O → descs s !! d = Some x → arenas s !! a = Some y → a_desc y = Some d →
  forgets s a y (<[d := set_lock b (set_free_list (outside x a (blocks_per_arena x) (free_list x)) x)]> (descs s)).
Proof.
  intros Hok Hx Ha Hy. pose proof (lookup_lt_Some _ _ _ Hx) as Hlt. destruct (ho_desc _ _ _ Hok d x Hx) as [Hs Hnd].
  assert (arena_pages y = 1) as Hpg by (unfold arena_pages; by rewrite Hy). split.
  - intros e w' He. apply list_lookup_insert_Some in He as [(<- & <- & _)|[Hne He]].
    + exists x. split; [done|]. split; [done|]. split; [by apply NoDup_filter|]. intros c. cbn [free_list set_lock set_free_list]. unfold outside.
      rewrite list_elem_of_filter. split.
      * intros [H1 H2]. split; [done|]. intros Hr. apply H1. destruct (free_in_range s O d x c a y Hok Hx H2 Ha Hr) as (_ & j & Hj & ->). apply elem_blocks_of. by exists j.
      * intros [H1 H2]. split; [|done]. intros (j & Hj & ->)%elem_blocks_of. apply H2. pose proof (block_range x a j Hs Hj). pose proof (ds_size _ Hs). lia.
    + exists w'. split; [done|]. split; [done|]. split; [by apply (ho_desc _ _ _ Hok e)|]. intros c. split; [|tauto]. intros Hc. split; [done|].
      intros Hr. destruct (free_in_range s O e w' c a y Hok He Hc Ha Hr) as [E _]. congruence.
  - intros e w He. apply lookup_lt_is_Some. rewrite length_insert. by eapply lookup_lt_Some.
Qed.

Lemma big_forgets s O a y : heap_ok L s O → arenas s !! a = Some y → a_desc y = None → forgets s a y (descs s).
Proof.
  intros Hok Ha Hy. split; [|by eauto]. intros e w He. exists w. split; [done|]. split; [done|]. split; [by apply (ho_desc _ _ _ Hok e)|].
  intros c. split; [|tauto]. intros Hc. split; [done|]. intros Hr. destruct (free_in_range s O e w c a y Hok He Hc Ha Hr). congruence.
Qed.

(** What is left once the pages of the arena [y] at [a] are given back. *)
Lemma released s O0 O (B : gmap Z Z) a y descs' r : heap_ok L s O → arenas s !! a = Some y → forgets s a y descs' → owns L r (O ∖ page_run (a / 4096) (arena_pages y)) →
  (∀ e w, descs' !! e = Some w → d_lock w = false) → busy s a → (∀ q m, B !! q = Some m ↔ allocated s q m ∧ ¬ a ≤ q < a + 4096 * arena_pages y) →
  (∀ k, k ∈ O ↔ k ∈ O0 ∨ arena_page s k) → (∀ k, k ∈ O0 → ¬ arena_page s k) →
  heap_has L (mkHeap r descs' (delete a (arenas s))) O0 (O ∖ page_run (a / 4096) (arena_pages y)) B.
Proof.
  intros Hok Ha Hf Hr Hunl Hbusy HB HO HO0. destruct (ho_arena _ _ _ Hok a y Ha) as [(k & E & _) Hpos _]. set (s' := mkHeap r descs' (delete a (arenas s))).
  assert (∀ c, pages_at s' c = if decide (a = c) then None else pages_at s c) as Hpg.
  { intros c. unfold pages_at. cbn [arenas s']. case_decide as Eq; [subst; by rewrite lookup_delete_eq|by rewrite lookup_delete_ne]. }
  assert (∀ j, arena_page s' j ↔ arena_page s j ∧ ¬ k ≤ j < k + arena_pages y) as Hap.
  { intros j. unfold arena_page. setoid_rewrite Hpg. split.
    - intros (c & n & Hc & Hj). case_decide as Hne; [done|]. split; [by exists c, n|]. unfold pages_at in Hc. apply fmap_Some in Hc as (z & Hz & ->).
      destruct (ho_apart _ _ _ Hok a c y z Ha Hz Hne); lia.
    - intros [(c & n & Hc & Hj) Hn]. exists c, n. rewrite decide_False; [done|]. intros <-. unfold pages_at in Hc. rewrite Ha in Hc. injection Hc as <-. lia. }
  replace (a / 4096) with k in * by (subst a; mlia). split.
  - subst a. replace k with (4096 * k / 4096) at 1 by mlia. apply removed; try done. by replace (4096 * k / 4096) with k by mlia.
  - exact Hunl.
  - intros c z e w' Hc _ He Hw. cbn [arenas descs s'] in Hc, Hw. apply lookup_delete_Some in Hc as [Hne Hc].
    destruct (fg_in _ _ _ _ Hf e w' Hw) as (w & Hw0 & [_ ->] & _). by apply (Hbusy c z e w).
  - intros q m. rewrite HB. symmetry. by apply (removed_used s O).
  - intros j. rewrite elem_of_difference, elem_page_run, Hap, HO. destruct (decide (k ≤ j < k + arena_pages y)) as [Hj|]; [|tauto].
    split; [tauto|]. intros [H|[_ H]]; [|done]. exfalso. apply (HO0 j H). exists a, (arena_pages y). split; [unfold pages_at; by rewrite Ha|]. lia.
  - intros j Hj. rewrite Hap. intros [H _]. by apply (HO0 j).
Qed.

Lemma all_free_unused s O d x a y q m : heap_ok L s O → descs s !! d = Some x → arenas s !! a = Some y → a_desc y = Some d → blocks_per_arena x ≤ free_cnt y →
  (∀ j, 0 ≤ j < blocks_per_arena x → block_at x a j ∈ free_list x) ∧ (allocated s q m → ¬ a ≤ q < a + 4096).
Proof.
  intros Hok Hx Ha Hy Hcnt. destruct (ar_count _ _ _ _ _ (ho_arena _ _ _ Hok a y Ha) d Hy) as (x0 & Hx0 & E). assert (x0 = x) as -> by congruence.
  destruct (ho_desc _ _ _ Hok d x Hx) as [Hs _]. pose proof (ds_blocks _ Hs).
  assert (∀ j, 0 ≤ j < blocks_per_arena x → block_at x a j ∈ free_list x) as Hall.
  { intros j Hj. apply (length_filter_all (λ j, block_at x a j ∈ free_list x) (seqZ 0 (blocks_per_arena x))); [|apply elem_of_seqZ; lia].
    pose proof (free_blocks_bound x a ltac:(lia)). rewrite length_seqZ. unfold free_blocks in *. lia. }
  split; [done|]. intros (c & z & Hc & Hu) Hr. destruct (in_use_range L s O c z q m Hok Hc Hu). assert (arena_pages y = 1) by (unfold arena_pages; by rewrite Hy).
  assert (a = c) as <- by (apply (same_arena L s O a y c z q); (done || lia)). assert (z = y) as -> by congruence.
  unfold in_use in Hu. rewrite Hy in Hu. destruct Hu as (w & j & Hw & Hj & -> & Hn & _). assert (w = x) as -> by congruence. by apply Hn, Hall.
Qed.

(** The end of [free]: what is done once the block is in the free list. *)
Section release.
Context s (O0 O : gset Z) (B : gmap Z Z) (d : nat) (x : desc) (a : Z) (y : arena) (p j : Z) (r : pages).
Context (Hh : heap_has L s O0 O B) (Hx : descs s !! d = Some x) (Ha : arenas s !! a = Some y) (Hy : a_desc y = Some d).
Context (Hj : 0 ≤ j < blocks_per_arena x) (Hp : p = block_at x a j) (Hn : p ∉ free_list x) (Hr : owns L r O).

Let x2 := set_lock true (set_free_list (p :: free_list x) x).
Let y3 := mkArena (Some d) (free_cnt y + 1).
Let s3 := pushed s d x a y p r true.
Let x5 := set_free_list (outside x2 a (blocks_per_arena x2) (free_list x2)) x2.

Lemma pushed_here b : heap_ok L (pushed s d x a y p r b) O ∧ (∀ q m, delete p B !! q = Some m ↔ allocated (pushed s d x a y p r b) q m) ∧
  (∀ c, pages_at (pushed s d x a y p r b) c = pages_at s c) ∧ 0 ≤ free_cnt y ∧ free_cnt y + 1 ≤ blocks_per_arena x ≤ 4084.
Proof.
  pose proof (hh_ok _ _ _ _ _ Hh) as Hok. destruct (pushed_ok s O d x a y j p r b Hok Hx Ha Hy Hj Hp Hn Hr) as (H1 & H2 & H3 & Hcnt).
  destruct (ho_desc _ _ _ Hok d x Hx) as [[S1 S2 S3] _]. destruct (ar_count _ _ _ _ _ (ho_arena _ _ _ Hok a y Ha) d Hy) as (x0 & _ & E).
  pose proof (free_blocks_bound (set_free_list (p :: free_list x) x) a ltac:(cbn; lia)) as Hbound. cbn [blocks_per_arena set_free_list] in Hbound.
  split; [done|]. split; [|split; [done|split; [lia|nia]]]. intros q m. rewrite H2, <-(hh_blocks _ _ _ _ _ Hh), lookup_delete_Some. naive_solver.
Qed.

Lemma pushed_busy b c z e w : arenas s !! c = Some z → a_desc z = Some e →
  <[d := set_lock b (set_free_list (p :: free_list x) x)]> (descs s) !! e = Some w → free_cnt z < blocks_per_arena w.
Proof.
  intros Hc He Hw. assert (c ≠ 0) by (destruct (arena_range L s O c z (hh_ok _ _ _ _ _ Hh) Hc); lia).
  apply list_lookup_insert_Some in Hw as [(<- & <- & _)|[_ Hw]]; [by apply (hh_busy _ _ _ _ _ Hh c z d x)|by apply (hh_busy _ _ _ _ _ Hh c z e w)].
Qed.

Lemma unlocked_here w e v : d_lock w = false → <[d := w]> (descs s) !! e = Some v → d_lock v = false.
Proof. intros Hw [(_ & <- & _)|[_ He]]%list_lookup_insert_Some; [done|]. by apply (hh_unlocked _ _ _ _ _ Hh e). Qed.

(** Other blocks of the arena are in use. *)
Lemma pushed_has : free_cnt y + 1 < blocks_per_arena x → heap_has L (pushed s d x a y p r false) O0 O (delete p B).
Proof.
  intros Hlt. destruct (pushed_here false) as (Hok & HB & Hpg & _). split; [done| | |done| |].
  - intros e w. by apply unlocked_here.
  - intros c z e w Hc _ He Hw. cbn [arenas descs pushed] in Hc, Hw. apply lookup_insert_Some in Hc as [[<- <-]|[Hac Hc]]; [|by apply (pushed_busy false c z e w)].
    injection He as <-. rewrite list_lookup_insert_eq in Hw by (by eapply lookup_lt_Some). injection Hw as <-. exact Hlt.
  - intros i. rewrite (arena_page_iff s _ Hpg). apply (hh_pages _ _ _ _ _ Hh).
  - intros i. rewrite (arena_page_iff s _ Hpg). apply (hh_others _ _ _ _ _ Hh).
Qed.

Lemma pushed_lookups : descs s3 !! d = Some x2 ∧ arenas s3 !! a = Some y3.
Proof. split; [by apply list_lookup_insert_eq, (lookup_lt_Some _ _ _ Hx)|apply lookup_insert_eq]. Qed.

(** No block of the arena is in use: it goes. *)
Context (Hfull : blocks_per_arena x ≤ free_cnt y + 1).

Lemma unused q m : delete p B !! q = Some m → q + m ≤ a ∨ a + 4096 ≤ q.
Proof.
  destruct (pushed_here true) as (Hok & HB & _), pushed_lookups as [Hx3 Ha3]. fold s3 in Hok, HB. rewrite HB. intros Hu.
  destruct (all_free_unused s3 O d x2 a y3 q m Hok Hx3 Ha3 eq_refl Hfull) as [_ Hnot]. specialize (Hnot Hu).
  destruct Hu as (c & z & Hc & Hu). pose proof (in_use_range L s3 O c z q m Hok Hc Hu).
  destruct (decide (a = c)) as [->|Hac]; [assert (z = y3) as -> by congruence; change (arena_pages y3) with 1 in *; lia|].
  destruct (ho_apart _ _ _ Hok a c y3 z Ha3 Hc Hac); change (arena_pages y3) with 1 in *; lia.
Qed.

Lemma released_has r' : owns L r' (O ∖ page_run (a / 4096) 1) →
  heap_has L (mkHeap r' (<[d := set_lock false x5]> (descs s3)) (delete a (arenas s3))) O0 (O ∖ page_run (a / 4096) 1) (delete p B).
Proof.
  intros Hown. destruct (pushed_here true) as (Hok & HB & Hpg & _), pushed_lookups as [Hx3 Ha3]. fold s3 in Hok, HB, Hpg. apply (released s3 O0 O (delete p B) a y3); try done.
  - by apply (outside_forgets s3 O).
  - intros e w He. cbn [descs s3 pushed] in He. rewrite list_insert_insert_eq in He. by apply unlocked_here in He.
  - intros c z e w Hc Hne He Hw. cbn [arenas descs s3 pushed] in Hc, Hw. rewrite lookup_insert_ne in Hc by done. by apply (pushed_busy true c z e w).
  - intros q m. rewrite HB. split; [|tauto]. intros Hq. split; [done|].
    destruct (all_free_unused s3 O d x2 a y3 q m Hok Hx3 Ha3 eq_refl Hfull) as [_ Hnot]. by apply Hnot.
  - intros i. rewrite (arena_page_iff s s3 Hpg). apply (hh_pages _ _ _ _ _ Hh).
  - intros i. rewrite (arena_page_iff s s3 Hpg). apply (hh_others _ _ _ _ _ Hh).
Qed.

Lemma remove_all_run : for_blocks (Z.to_nat (blocks_per_arena x)) 0 (λ i, let! b := arena_to_block a i in let! dd := get_desc d in
    let! l := lift (or_fault (remove_block b (free_list dd))) in put_desc d (set_free_list l dd)) s3 = Ret (tt, set_descs (<[d := x5]> (descs s3)) s3).
Proof.
  destruct (pushed_here true) as (Hok & _), pushed_lookups as [Hx3 Ha3]. fold s3 in Hok. destruct (arena_range L s3 O a y3 Hok Ha3) as (Ha0 & _ & Hae).
  change (arena_pages y3) with 1 in Hae. destruct (ho_desc _ _ _ Hok d x2 Hx3) as [Hs Hnd]. destruct (all_free_unused s3 O d x2 a y3 0 0 Hok Hx3 Ha3 eq_refl Hfull) as [Hall _].
  apply (remove_blocks_ok d a y3 _ s3 x2); try done; [by intros; apply (shape_same x2)|cbn; lia|].
  rewrite Hx3. unfold outside. rewrite filter_true; [done|]. intros b _ (i & Hi & _)%elem_blocks_of. lia.
Qed.
End release.

Lemma release_block_ok s O0 O B d x a y p j r : heap_has L s O0 O B → descs s !! d = Some x → arenas s !! a = Some y → a_desc y = Some d →
  0 ≤ j < blocks_per_arena x → p = block_at x a j → (p ∉ free_list x) → owns L r O →
  ∃ s' O', (let! _ := release_arena d a in lock_desc lock_release d) (mkHeap r (<[d := set_lock true (set_free_list (p :: free_list x) x)]> (descs s)) (arenas s)) = Ret (tt, s') ∧
    heap_has L s' O0 O' (delete p B) ∧ O' ⊆ O ∧
    ∀ q m i, B !! q = Some m → q ≠ p → 0 ≤ i < m → bytes (ram s') (q + i) = bytes r (q + i).
Proof.
  intros Hh Hx Ha Hy Hj Hp Hn Hr. set (x2 := set_lock true (set_free_list (p :: free_list x) x)). set (y3 := mkArena (Some d) (free_cnt y + 1)).
  destruct (pushed_here s O0 O B d x a y p j r Hh Hx Ha Hy Hj Hp Hn Hr true) as (_ & _ & _ & Hc1 & Hc2). set (s3 := pushed s d x a y p r true).
  destruct (pushed_lookups s d x a y p r Hx) as [Hx3 Ha3]. fold s3 x2 y3 in Hx3, Ha3.
  set (s2 := mkHeap r (<[d := x2]> (descs s)) (arenas s)). unfold release_arena. rewrite bind_assoc, (bind_run _ _ _ _ _ (get_arena_run s2 a y Ha)), Hy, u32_small by lia. cbv zeta. fold y3.
  unfold put_arena. rewrite bind_assoc, bind_modify. cbn beta. change (set_arenas _ _) with s3. rewrite bind_assoc, (bind_run _ _ _ _ _ (get_desc_run s3 d x2 Hx3)).
  change (blocks_per_arena x2) with (blocks_per_arena x). change (free_cnt y3) with (free_cnt y + 1). case_decide as Hfull.
  - rewrite bind_assoc, bind_assert by (apply bool_decide_true; lia).
    pose proof (remove_all_run s O0 O B d x a y p j r Hh Hx Ha Hy Hj Hp Hn Hr Hfull) as Hloop. fold s3 x2 in Hloop. rewrite bind_assoc, (bind_run _ _ _ _ _ Hloop).
    set (x5 := set_free_list (outside _ _ _ _) _) in *. set (s4 := set_descs _ _).
    destruct (ho_arena _ _ _ (hh_ok _ _ _ _ _ Hh) a y Ha) as [(k & Ek & K1 & K2 & K3) _ _]. assert (arena_pages y = 1) as Hpg by (unfold arena_pages; by rewrite Hy).
    rewrite Hpg in K2, K3. destruct (free_ok L r O false k 1 Hr ltac:(lia) K1 K2 K3) as (r' & Hrun & Hown & Hbytes).
    assert (a / 4096 = k) as Edk by (subst a; mlia).
    assert (on_ram (palloc_free_page a) s4 = Ret (tt, Malloc.set_ram r' s4)) as Hfree by (apply on_ram_run; rewrite Ek; exact Hrun).
    rewrite bind_assoc, (bind_run _ _ _ _ _ Hfree). unfold drop_arenas. rewrite bind_modify. cbn beta.
    set (s5 := set_arenas _ _). assert (descs s5 !! d = Some x5) as Hx5 by (cbn; by apply list_lookup_insert_eq, (lookup_lt_Some _ _ _ Hx3)).
    exists (mkHeap r' (<[d := set_lock false x5]> (descs s3)) (delete a (arenas s3))), (O ∖ page_run (a / 4096) 1). split_and!.
    + rewrite (lock_desc_run s5 d x5 _ false Hx5 eq_refl). unfold s5, s4, set_descs. cbn. by rewrite !list_insert_insert_eq.
    + apply (released_has s O0 O B d x a y p j r Hh Hx Ha Hy Hj Hp Hn Hr Hfull). by rewrite Edk.
    + set_solver.
    + intros q m i Hq Hne Hi. cbn [ram]. rewrite Hbytes. unfold filled. rewrite decide_False; [done|].
      destruct (unused s O0 O B d x a y p j r Hh Hx Ha Hy Hj Hp Hn Hr Hfull q m); [by rewrite lookup_delete_ne|lia|lia].
  - rewrite bind_ret. exists (pushed s d x a y p r false), O. split_and!; [| |done|done].
    + rewrite (lock_desc_run s3 d x2 _ false Hx3 eq_refl). unfold s3, pushed, set_descs. cbn. by rewrite list_insert_insert_eq.
    + apply (pushed_has s O0 O B d x a y p j r Hh Hx Ha Hy Hj Hp Hn Hr). lia.
Qed.

(** ** free *)
Lemma in_use_place s O a y p n : heap_ok L s O → arenas s !! a = Some y → in_use s a y p n → block_to_arena p s = Ret (a, s) ∧ p ≠ 0.
Proof.
  intros Hok Ha Hu. destruct (arena_range L s O a y Hok Ha). pose proof (in_use_range L s O a y p n Hok Ha Hu). split; [|lia].
  apply (block_to_arena_ok L s O a y p Hok Ha). unfold place_in, in_use in *. destruct (a_desc y) as [d|]; [|tauto]. destruct Hu as (x & j & Hx & Hj & Hp & _). by exists x, j.
Qed.

(** What [free] leaves. *)
Definition freed s s' (O0 O O' : gset Z) (B : gmap Z Z) (p : Z) : Prop :=
  heap_has L s' O0 O' (delete p B) ∧ O' ⊆ O ∧ ∀ q m i, B !! q = Some m → q ≠ p → 0 ≤ i < m → bytes (ram s') (q + i) = bytes (ram s) (q + i).

Lemma free_small_block s O0 O B p n a y d : heap_has L s O0 O B → B !! p = Some n → arenas s !! a = Some y → in_use s a y p n → a_desc y = Some d →
  ∃ s' O', free p s = Ret (tt, s') ∧ freed s s' O0 O O' B p.
Proof.
  intros Hh HB Ha Hu Hy. pose proof (hh_ok _ _ _ _ _ Hh) as Hok. destruct (in_use_place s O a y p n Hok Ha Hu) as [Hrun Hp0].
  pose proof Hu as Hu'. unfold in_use in Hu'. rewrite Hy in Hu'. destruct Hu' as (x & j & Hx & Hj & Hp & Hn & Hnx).
  pose proof (lookup_lt_Some _ _ _ Hx) as Hlt. set (r := set_bytes (filled p n 204 (bytes (ram s))) (ram s)).
  assert (owns L r O) as Hr by (apply owns_bytes, (ho_owns _ _ _ Hok)).
  destruct (release_block_ok s O0 O B d x a y p j r Hh Hx Ha Hy Hj Hp Hn Hr) as (s' & O' & Hrel & Hh' & HO & Hby). exists s', O'. split.
  - unfold free. rewrite decide_False by done. rewrite (bind_run _ _ _ _ _ Hrun), (bind_run _ _ _ _ _ (get_arena_run s a y Ha)), Hy.
    rewrite (bind_run _ _ _ _ _ (get_desc_run s d x Hx)), <-Hnx. set (s1 := mkHeap r (descs s) (arenas s)).
    rewrite (bind_run _ _ s tt s1) by done. rewrite (bind_run _ _ s1 _ _ (lock_desc_run s1 d x lock_acquire true Hx ltac:(by rewrite (hh_unlocked _ _ _ _ _ Hh d x Hx)))).
    set (s2 := set_descs _ _). assert (descs s2 !! d = Some (set_lock true x)) as Hx2 by (by apply list_lookup_insert_eq).
    rewrite (bind_run _ _ _ _ _ (get_desc_run s2 d _ Hx2)). unfold put_desc. rewrite bind_modify. cbn beta. rewrite <-Hrel. f_equal.
    unfold set_descs, s2, s1. cbn. by rewrite list_insert_insert_eq.
  - split; [done|]. split; [done|]. intros q m i Hq Hne Hi. rewrite (Hby q m) by done. cbn. unfold filled. rewrite decide_False; [done|].
    destruct (has_apart L s O0 O B p n q m Hh HB Hq); [congruence|lia|lia].
Qed.

Lemma free_big_block s O0 O B p n a y : heap_has L s O0 O B → B !! p = Some n → arenas s !! a = Some y → in_use s a y p n → a_desc y = None →
  ∃ s' O', free p s = Ret (tt, s') ∧ freed s s' O0 O O' B p.
Proof.
  intros Hh HB Ha Hu Hy. pose proof (hh_ok _ _ _ _ _ Hh) as Hok. destruct (in_use_place s O a y p n Hok Ha Hu) as [Hrun Hp0].
  pose proof Hu as Hu'. unfold in_use in Hu'. rewrite Hy in Hu'. destruct Hu' as [Hp Hnx].
  destruct (ho_arena _ _ _ Hok a y Ha) as [(k & Ek & K1 & K2 & K3) Hpos _]. assert (arena_pages y = free_cnt y) as Hpg by (unfold arena_pages; by rewrite Hy).
  rewrite Hpg in K2, K3, Hpos. destruct (free_ok L (ram s) O false k (free_cnt y) (ho_owns _ _ _ Hok) Hpos K1 K2 K3) as (r' & Hfree & Hown & Hbytes).
  assert (a / 4096 = k) as Edk by (subst a; mlia).
  assert (on_ram (palloc_free_multiple a (free_cnt y)) s = Ret (tt, Malloc.set_ram r' s)) as Hrun' by (apply on_ram_run; rewrite Ek; exact Hfree).
  assert (∀ q m, B !! q = Some m → q ≠ p → q + m ≤ a ∨ a + 4096 * free_cnt y ≤ q) as Hap.
  { intros q m Hq Hne. apply (hh_blocks _ _ _ _ _ Hh) in Hq as (c & z & Hc & Hz). destruct (in_use_range L s O c z q m Hok Hc Hz) as (R1 & R2 & R3).
    destruct (decide (a = c)) as [<-|Hac].
    - assert (z = y) as -> by congruence. unfold in_use in Hz. rewrite Hy in Hz. destruct Hz as [Hq _]. congruence.
    - destruct (ho_apart _ _ _ Hok a c y z Ha Hc Hac); lia. }
  exists (mkHeap r' (descs s) (delete a (arenas s))), (O ∖ page_run (a / 4096) (arena_pages y)). split.
  - unfold free. rewrite decide_False by done. rewrite (bind_run _ _ _ _ _ Hrun), (bind_run _ _ _ _ _ (get_arena_run s a y Ha)), Hy.
    by rewrite (bind_run _ _ _ _ _ Hrun').
  - split; [|split; [set_solver|]].
    + apply (released s O0 O (delete p B) a y); try done.
      * by apply (big_forgets s O).
      * by rewrite Hpg, Edk.
      * apply (hh_unlocked _ _ _ _ _ Hh).
      * intros c z e w Hc _. apply (hh_busy _ _ _ _ _ Hh c z e w Hc). destruct (arena_range L s O c z Hok Hc); lia.
      * intros q m. rewrite Hpg, <-(hh_blocks _ _ _ _ _ Hh), lookup_delete_Some. split; [|intros [Hq Hnr]].
        -- intros [Hne Hq]. split; [done|]. destruct (has_range L s O0 O B q m Hh Hq) as (_ & Hm & _). destruct (Hap q m Hq); [congruence|lia|lia].
        -- split; [|done]. intros <-. destruct (has_range L s O0 O B p m Hh Hq) as (_ & Hm & _).
           assert (m = n) as -> by congruence. lia.
      * apply (hh_pages _ _ _ _ _ Hh).
      * apply (hh_others _ _ _ _ _ Hh).
    + intros q m i Hq Hne Hi. cbn [ram]. rewrite Hbytes. unfold filled. rewrite decide_False; [done|]. destruct (Hap q m Hq Hne); lia.
Qed.

Lemma free_block_ok s O0 O B p n : heap_has L s O0 O B → B !! p = Some n → ∃ s' O', free p s = Ret (tt, s') ∧ freed s s' O0 O O' B p.
Proof.
  intros Hh HB. pose proof HB as (a & y & Ha & Hu)%(hh_blocks _ _ _ _ _ Hh). destruct (a_desc y) as [d|] eqn:Hy.
  - by apply (free_small_block s O0 O B p n a y d).
  - by apply (free_big_block s O0 O B p n a y).
Qed.
End heap.
