(* ===== verification/HeapSpec.v ===== *)
(** The heap allocator as its users see it: each call does what is specified for
    the blocks in use, whatever came before it. *)
From S2P Require Import Prelude Block Bitmap Palloc PallocSpec PageDirLaws Malloc MallocLaws MallocSpec FreeSpec.
Local Open Scope Z_scope.

(** The calls. *)
Inductive heap_op : Type := Malloc (size : Z) | Calloc (a b : Z) | Realloc (p size : Z) | Free (p : Z).
Definition run_op (op : heap_op) : M heap Z :=
  match op with
  | Malloc size => malloc size
  | Calloc a b => calloc a b
  | Realloc p size => realloc p size
  | Free p => free p;;! ret 0
  end.

Definition max_size : Z := 4294963188.
(** Sizes that do not wrap around, and blocks that are in use. *)
Definition op_ok (B : gmap Z Z) (op : heap_op) : Prop :=
  match op with
  | Malloc size => 0 ≤ size ≤ max_size
  | Calloc a b => 0 ≤ a ∧ 0 ≤ b ∧ a * b ≤ max_size
  | Realloc p size => 0 ≤ size ≤ max_size ∧ (p = 0 ∨ is_Some (B !! p))
  | Free p => p = 0 ∨ is_Some (B !! p)
  end.

(** The blocks [B] hold the same bytes. *)
Definition same_on (B : gmap Z Z) (m m' : Z → Z) : Prop := ∀ q n i, B !! q = Some n → 0 ≤ i < n → m' (q + i) = m (q + i).

(** What a call may return and leave, from blocks [B] with the bytes [m]; [no_room] says for
    which sizes there is not a run of free pages. *)
Inductive op_spec (no_room : Z → Prop) (B : gmap Z Z) (m : Z → Z) : heap_op → Z → gmap Z Z → (Z → Z) → Prop :=
  | spec_malloc_none size : size = 0 ∨ no_room size → op_spec no_room B m (Malloc size) 0 B m
  | spec_malloc size p n m' : 0 < size → fresh_block B size p n → same_on B m m' → op_spec no_room B m (Malloc size) p (<[p := n]> B) m'
  | spec_calloc_none a b : a * b = 0 ∨ no_room (a * b) → op_spec no_room B m (Calloc a b) 0 B m
  | spec_calloc a b p n m' : 0 < a * b → fresh_block B (a * b) p n → same_on B m m' → (∀ i, 0 ≤ i < a * b → m' (p + i) = 0) →
      op_spec no_room B m (Calloc a b) p (<[p := n]> B) m'
  | spec_free_null : op_spec no_room B m (Free 0) 0 B m
  | spec_free p n m' : B !! p = Some n → same_on (delete p B) m m' → op_spec no_room B m (Free p) 0 (delete p B) m'
  | spec_realloc_null size r B' m' : size ≠ 0 → op_spec no_room B m (Malloc size) r B' m' → op_spec no_room B m (Realloc 0 size) r B' m'
  | spec_realloc_zero p B' m' : op_spec no_room B m (Free p) 0 B' m' → op_spec no_room B m (Realloc p 0) 0 B' m'
  | spec_realloc_none p size : is_Some (B !! p) → no_room size → op_spec no_room B m (Realloc p size) 0 B m
  | spec_realloc p n size q k m' : B !! p = Some n → 0 < size → fresh_block B size q k → same_on (delete p B) m m' →
      (∀ i, 0 ≤ i < Z.min size n → m' (q + i) = m (p + i)) → op_spec no_room B m (Realloc p size) q (delete p (<[q := k]> B)) m'.

Lemma spec_malloc_inv no_room B m size p B' m' : op_spec no_room B m (Malloc size) p B' m' → p ≠ 0 → ∃ n, B' = <[p := n]> B.
Proof. inversion 1; subst; intros Hp; [done|eauto]. Qed.
Lemma spec_free_inv no_room B m p r B' m' : op_spec no_room B m (Free p) r B' m' → p ≠ 0 → r = 0 ∧ B' = delete p B.
Proof. by inversion 1; subst; intros Hp. Qed.

Section heap.
Context (L : bool → area).
Implicit Types s : heap.

(** There is a number of pages, no more than the block needs, that the kernel's pool does not have in a row. *)
Definition no_room (O : gset Z) (size : Z) : Prop := ∃ n, 0 < n ≤ pages_for size ∧ ∀ i, ¬ free_run (L false) O i n.

Lemma has_bytes s O0 O B m : heap_has L s O0 O B → heap_has L (Malloc.set_ram (set_bytes m (ram s)) s) O0 O B.
Proof.
  intros [[H1 H2 H3 H4 H5] H6 H7 H8 H9 H10]. split; try done. split; try done; [by apply owns_bytes|]. intros a y Ha. by destruct (H3 a y Ha).
Qed.

Lemma calloc_ok s O0 O B a b : heap_has L s O0 O B → op_ok B (Calloc a b) → ∃ r s' O' B',
  calloc a b s = Ret (r, s') ∧ op_spec (no_room O) B (bytes (ram s)) (Calloc a b) r B' (bytes (ram s')) ∧ heap_has L s' O0 O' B'.
Proof.
  unfold op_ok, max_size. intros Hh (Ha & Hb & Hab). unfold calloc. rewrite u32_small by nia. cbv zeta. destruct (decide (a * b = 0)) as [E|E].
  - rewrite E. exists 0, s, O, B. split; [|split; [constructor; by left|done]]. case_decide; [done|]. by rewrite (bind_run (malloc 0) _ s 0 s).
  - assert (a ≠ 0 ∧ b ≠ 0) as [Ha0 Hb0] by (split; intros ->; lia). assert (a ≤ a * b ∧ b ≤ a * b) as [Hla Hlb] by (split; nia).
    rewrite decide_False by lia. destruct (malloc_ok L s O0 O B (a * b) Hh ltac:(nia)) as [[Hrun Hno]|(p & n & s' & O' & Hrun & Hh' & Hfr & Hbytes)];
      rewrite (bind_run _ _ _ _ _ Hrun).
    + exists 0, s, O, B. split; [done|]. split; [|done]. constructor. by right.
    + rewrite decide_True by (destruct Hfr; lia). set (m' := filled p (a * b) 0 (bytes (ram s'))).
      exists p, (Malloc.set_ram (set_bytes m' (ram s')) s'), O', (<[p := n]> B). split; [done|]. split; [|by apply has_bytes]. constructor; [nia|done| |].
      * intros q k i Hq Hi. cbn. unfold m', filled. rewrite Hbytes, decide_False; [done|]. destruct Hfr as [Hnew Hle _].
        destruct (has_apart L s' O0 O' (<[p := n]> B) p n q k Hh'); [apply lookup_insert_eq|rewrite lookup_insert_ne; [done|congruence]|congruence|lia|lia].
      * intros i Hi. cbn. unfold m', filled. by rewrite decide_True by lia.
Qed.

Lemma block_size_ok s O0 O B p n : heap_has L s O0 O B → B !! p = Some n → block_size p s = Ret (n, s) ∧ p ≠ 0.
Proof.
  intros Hh (a & y & Ha & Hu)%(hh_blocks _ _ _ _ _ Hh). pose proof (hh_ok _ _ _ _ _ Hh) as Hok. destruct (in_use_place L s O a y p n Hok Ha Hu) as [Hrun Hp].
  split; [|done]. unfold block_size. rewrite (bind_run _ _ _ _ _ Hrun), (bind_run _ _ _ _ _ (get_arena_run s a y Ha)).
  pose proof Hu as Hu'. unfold in_use in Hu'. destruct (a_desc y) as [d|] eqn:Hy.
  - destruct Hu' as (x & j & Hx & _ & _ & _ & ->). by rewrite (bind_run _ _ _ _ _ (get_desc_run s d x Hx)).
  - destruct Hu' as [-> ->]. destruct (arena_range L s O a y Hok Ha) as (A1 & A2 & A3). unfold arena_pages in A3. rewrite Hy in A3.
    destruct (ho_arena _ _ _ Hok a y Ha) as [_ Hpos _]. unfold arena_pages in Hpos. rewrite Hy in Hpos.
    unfold ret. rewrite pg_ofs_mod. replace ((a + 12) mod 4096) with 12 by mlia. change PGSIZE with 4096. by rewrite u32_small by lia.
Qed.

Lemma free_spec s O0 O B p : heap_has L s O0 O B → op_ok B (Free p) → ∃ s' O' B',
  free p s = Ret (tt, s') ∧ op_spec (no_room O) B (bytes (ram s)) (Free p) 0 B' (bytes (ram s')) ∧ heap_has L s' O0 O' B'.
Proof.
  intros Hh [->|[n HB]]; [exists s, O, B; split; [done|split; [constructor|done]]|].
  destruct (free_block_ok L s O0 O B p n Hh HB) as (s' & O' & Hrun & Hh' & _ & Hb). exists s', O', (delete p B). split; [done|]. split; [|done].
  apply (spec_free _ _ _ p n); [done|]. intros q k i Hq Hi. apply lookup_delete_Some in Hq as [Hne Hq]. by apply (Hb q k).
Qed.

Lemma malloc_spec s O0 O B size : heap_has L s O0 O B → op_ok B (Malloc size) → ∃ r s' O' B',
  malloc size s = Ret (r, s') ∧ op_spec (no_room O) B (bytes (ram s)) (Malloc size) r B' (bytes (ram s')) ∧ heap_has L s' O0 O' B'.
Proof.
  unfold op_ok, max_size. intros Hh Hs. destruct (decide (size = 0)) as [->|Hne].
  { exists 0, s, O, B. split; [done|]. split; [constructor; by left|done]. }
  destruct (malloc_ok L s O0 O B size Hh ltac:(lia)) as [[Hrun Hno]|(p & n & s' & O' & Hrun & Hh' & Hfr & Hbytes)].
  - exists 0, s, O, B. split; [done|]. split; [constructor; by right|done].
  - exists p, s', O', (<[p := n]> B). split; [done|]. split; [|done]. constructor; [lia|done|]. intros q k i _ _. by rewrite Hbytes.
Qed.

Lemma realloc_moves s O0 O B p n size : heap_has L s O0 O B → B !! p = Some n → 0 < size ≤ max_size → ∃ r s' O' B',
  realloc p size s = Ret (r, s') ∧ op_spec (no_room O) B (bytes (ram s)) (Realloc p size) r B' (bytes (ram s')) ∧ heap_has L s' O0 O' B'.
Proof.
  unfold max_size. intros Hh HB Hs. destruct (block_size_ok s O0 O B p n Hh HB) as [_ Hp]. unfold realloc. rewrite decide_False by lia.
  destruct (malloc_ok L s O0 O B size Hh ltac:(lia)) as [[Hrun Hno]|(q & k & s1 & O1 & Hrun & Hh1 & Hfr & Hbytes)]; rewrite (bind_run _ _ _ _ _ Hrun).
  { exists 0, s, O, B. rewrite decide_False by tauto. split; [done|]. split; [|done]. apply spec_realloc_none; [done|done]. }
  pose proof Hfr as [Hnew Hle [Hq _]]. assert (p ≠ q) as Hpq by congruence. assert (<[q := k]> B !! p = Some n) as HB1 by (by rewrite lookup_insert_ne).
  pose proof (lookup_insert_eq B q k) as Hq1. rewrite decide_True by lia. rewrite bind_assoc. destruct (block_size_ok s1 O0 O1 _ p n Hh1 HB1) as [Hsz _]. rewrite (bind_run _ _ _ _ _ Hsz). cbv zeta.
  set (c := if decide (size < n) then size else n). assert (c = Z.min size n) as Ec by (unfold c; case_decide; lia).
  set (m := λ x, if decide (q ≤ x < q + c) then bytes (ram s1) (p + (x - q)) else bytes (ram s1) x).
  set (s2 := Malloc.set_ram (set_bytes m (ram s1)) s1). assert (on_ram (copy_block q p c) s1 = Ret (tt, s2)) as Hcopy by reflexivity.
  rewrite bind_assoc, (bind_run _ _ _ _ _ Hcopy).
  pose proof (has_bytes s1 O0 O1 _ m Hh1) as Hh2. change (heap_has L s2 O0 O1 (<[q := k]> B)) in Hh2.
  destruct (free_block_ok L s2 O0 O1 _ p n Hh2 HB1) as (s3 & O3 & Hfree & Hh3 & _ & Hb3). rewrite (bind_run _ _ _ _ _ Hfree).
  exists q, s3, O3, (delete p (<[q := k]> B)). split; [done|]. split; [|done]. apply (spec_realloc _ _ _ p n size q k); [done|lia|done| |].
  - intros v e i Hv Hi. apply lookup_delete_Some in Hv as [Hne Hv]. assert (<[q := k]> B !! v = Some e) as Hv1 by (rewrite lookup_insert_ne; [done|congruence]).
    rewrite (Hb3 v e) by (done || congruence). cbn. unfold m. rewrite Hbytes, decide_False; [done|].
    destruct (has_apart L s1 O0 O1 _ q k v e Hh1 Hq1 Hv1); [congruence|lia|lia].
  - intros i Hi. rewrite (Hb3 q k) by (done || lia). cbn. unfold m. rewrite decide_True by lia. rewrite Hbytes. f_equal. lia.
Qed.

Lemma op_step s O0 O B op : heap_has L s O0 O B → op_ok B op → ∃ r s' O' B',
  run_op op s = Ret (r, s') ∧ op_spec (no_room O) B (bytes (ram s)) op r B' (bytes (ram s')) ∧ heap_has L s' O0 O' B'.
Proof.
  intros Hh Hop. destruct op as [size|a b|p size|p]; cbn [run_op].
  - by apply malloc_spec.
  - by apply calloc_ok.
  - destruct Hop as [Hs Hp]. destruct (decide (size = 0)) as [->|Hne].
    + destruct (free_spec s O0 O B p Hh Hp) as (s' & O' & B' & Hrun & Hspec & Hh'). exists 0, s', O', B'. split; [|split; [by constructor|done]].
      unfold realloc. rewrite decide_True by done. by rewrite (bind_run _ _ _ _ _ Hrun).
    + destruct Hp as [->|[n HB]]; [|by apply (realloc_moves s O0 O B p n); [..|lia]].
      destruct (malloc_spec s O0 O B size Hh Hs) as (r & s' & O' & B' & Hrun & Hspec & Hh'). exists r, s', O', B'. split; [|split; [by constructor|done]].
      unfold realloc. rewrite decide_False by done. rewrite (bind_run _ _ _ _ _ Hrun). by rewrite decide_False by tauto.
  - destruct (free_spec s O0 O B p Hh Hop) as (s' & O' & B' & Hrun & Hspec & Hh'). exists 0, s', O', B'. split; [|done]. by rewrite (bind_run _ _ _ _ _ Hrun).
Qed.

(** ** From the start to the end *)
Lemma malloc_init_ok r O0 : owns L r O0 → ∃ s, malloc_init r = Ret s ∧ heap_has L s O0 O0 ∅ ∧ d_block_size <$> descs s = [16; 32; 64; 128; 256; 512; 1024].
Proof.
  intros Hr. assert (init_loop 12 16 [] = Ret [mkDesc 16 255 [] false; mkDesc 32 127 [] false; mkDesc 64 63 [] false; mkDesc 128 31 [] false;
    mkDesc 256 15 [] false; mkDesc 512 7 [] false; mkDesc 1024 3 [] false]) as Hl by reflexivity.
  set (ds := [_; _; _; _; _; _; _]) in Hl. exists (mkHeap r ds ∅). split; [unfold malloc_init; by rewrite Hl|]. split; [|done].
  assert (∀ d x, ds !! d = Some x → desc_shape x ∧ free_list x = [] ∧ d_lock x = false) as Hds.
  { intros d x. apply (Forall_lookup_1 (λ x, desc_shape x ∧ free_list x = [] ∧ d_lock x = false)). unfold ds. by repeat (constructor; [split; [split; cbn; lia|done]|]). }
  split; [split; cbn [ram descs arenas]|..].
  - done.
  - intros d x Hd. destruct (Hds d x Hd) as (H & -> & _). split; [done|constructor].
  - intros a y Ha. by destruct (lookup_empty_Some (M := gmap Z) a y).
  - intros a b y z Ha. by destruct (lookup_empty_Some (M := gmap Z) a y).
  - intros d x b Hd Hb. destruct (Hds d x Hd) as (_ & E & _). rewrite E in Hb. by apply elem_of_nil in Hb.
  - intros d x Hd. by apply (Hds d x).
  - intros a y d x Ha. by destruct (lookup_empty_Some (M := gmap Z) a y).
  - intros p n. rewrite lookup_empty. split; [done|]. intros (a & y & Ha & _). by destruct (lookup_empty_Some (M := gmap Z) a y).
  - intros k. split; [auto|]. intros [H|(c & n & Hc & _)]; [done|]. apply fmap_Some in Hc as (y & Hy & _). by destruct (lookup_empty_Some (M := gmap Z) c y).
  - intros k _ (c & n & Hc & _). apply fmap_Some in Hc as (y & Hy & _). by destruct (lookup_empty_Some (M := gmap Z) c y).
Qed.

(** An arena has a block in use. *)
Lemma arena_used s O0 O B a y : heap_has L s O0 O B → arenas s !! a = Some y → B ≠ ∅.
Proof.
  intros Hh Ha HB. pose proof (hh_ok _ _ _ _ _ Hh) as Hok. assert (∀ p n, ¬ allocated s p n) as Hno.
  { intros p n Hp%(hh_blocks _ _ _ _ _ Hh). by rewrite HB, lookup_empty in Hp. }
  destruct (a_desc y) as [d|] eqn:Hy; [|eapply Hno; exists a, y; split; [done|]; unfold in_use; rewrite Hy; done].
  destruct (ar_count _ _ _ _ _ (ho_arena _ _ _ Hok a y Ha) d Hy) as (x & Hx & Hcnt). destruct (arena_range L s O a y Hok Ha).
  pose proof (hh_busy _ _ _ _ _ Hh a y d x Ha ltac:(lia) Hy Hx) as Hlt. rewrite Hcnt in Hlt. unfold free_blocks in Hlt. rewrite filter_true in Hlt.
  - rewrite length_seqZ in Hlt. pose proof (ds_blocks _ (proj1 (ho_desc _ _ _ Hok d x Hx))). lia.
  - intros j Hj%elem_of_seqZ. destruct (decide (block_at x a j ∈ free_list x)) as [|Hn]; [done|]. exfalso. eapply Hno. exists a, y. split; [done|].
    unfold in_use. rewrite Hy. exists x, j. split; [done|]. split; [lia|done].
Qed.

Lemma empty_heap s O0 O : heap_has L s O0 O ∅ → O = O0 ∧ arenas s = ∅.
Proof.
  intros Hh. assert (arenas s = ∅) as E.
  { apply map_eq. intros a. rewrite lookup_empty. destruct (arenas s !! a) as [y|] eqn:Ha; [|done]. by destruct (arena_used s O0 O ∅ a y Hh Ha). }
  split; [|done]. apply set_eq. intros k. rewrite (hh_pages _ _ _ _ _ Hh). split; [|auto]. intros [H|(c & n & Hc & _)]; [done|].
  unfold pages_at in Hc. by rewrite E, lookup_empty in Hc.
Qed.

(** A program may make these calls, one after the other. *)
Definition op_legal s (op : heap_op) : Prop :=
  match op with
  | Malloc size => 0 ≤ size ≤ max_size
  | Calloc a b => 0 ≤ a ∧ 0 ≤ b ∧ a * b ≤ max_size
  | Realloc p size => 0 ≤ size ≤ max_size ∧ (p = 0 ∨ ∃ n, allocated s p n)
  | Free p => p = 0 ∨ ∃ n, allocated s p n
  end.
Inductive legal : heap → list heap_op → Prop :=
  | legal_nil s : legal s []
  | legal_cons s op ops : op_legal s op → (∀ r s', run_op op s = Ret (r, s') → legal s' ops) → legal s (op :: ops).

Definition run_ops (ops : list heap_op) : M heap (list Z) :=
  foldr (λ op m, let! r := run_op op in let! rs := m in ret (r :: rs)) (ret []) ops.

Lemma legal_ok s O0 O B op : heap_has L s O0 O B → op_legal s op → op_ok B op.
Proof.
  intros Hh. assert (∀ p, (∃ n, allocated s p n) → is_Some (B !! p)) as Hp by (intros p [n Hn]; exists n; by apply (hh_blocks _ _ _ _ _ Hh)).
  destruct op; cbn; naive_solver.
Qed.

Lemma run_ops_ok ops s O0 O B : heap_has L s O0 O B → legal s ops → ∃ rs s' O' B', run_ops ops s = Ret (rs, s') ∧ heap_has L s' O0 O' B'.
Proof.
  revert s O B. induction ops as [|op ops IH]; intros s O B Hh Hl; [by exists [], s, O, B|]. inversion Hl as [|? ? ? Hop Hnext]; subst.
  destruct (op_step s O0 O B op Hh (legal_ok s O0 O B op Hh Hop)) as (r & s1 & O1 & B1 & Hrun & _ & Hh1).
  destruct (IH s1 O1 B1 Hh1 (Hnext r s1 Hrun)) as (rs & s2 & O2 & B2 & Hrun2 & Hh2). exists (r :: rs), s2, O2, B2. split; [|done].
  cbn [run_ops foldr]. rewrite (bind_run _ _ _ _ _ Hrun). change (foldr _ _ ops) with (run_ops ops). by rewrite (bind_run _ _ _ _ _ Hrun2).
Qed.

(** C15: from any state of the heap, a call that a program may make ends without a
    failed assertion, and returns and leaves what the specification says: a new
    block that is big enough and apart from the others (with zeros, or with the
    bytes of the old one, if that was asked for), or 0 if there is no room; the
    blocks in use keep their bytes. *)
Theorem heap_refines_blocks s O0 O B op : heap_has L s O0 O B → op_ok B op → ∃ r s' O' B',
  run_op op s = Ret (r, s') ∧ op_spec (no_room O) B (bytes (ram s)) op r B' (bytes (ram s')) ∧ heap_has L s' O0 O' B' ∧
  (∀ p n q m, B' !! p = Some n → B' !! q = Some m → p ≠ q → p + n ≤ q ∨ q + m ≤ p).
Proof.
  intros Hh Hop. destruct (op_step s O0 O B op Hh Hop) as (r & s' & O' & B' & Hrun & Hspec & Hh'). exists r, s', O', B'.
  split; [done|]. split; [done|]. split; [done|]. intros p n q m. by apply (has_apart L s' O0 O').
Qed.

(** C16: whatever calls a program makes after [malloc_init], none fails an
    assertion; and once it has no block in use, every page that the heap took is
    with the page allocator again. *)
Theorem heap_returns_pages r O0 s ops : owns L r O0 → malloc_init r = Ret s → legal s ops →
  ∃ rs s', run_ops ops s = Ret (rs, s') ∧ ((∀ p n, ¬ allocated s' p n) → owns L (ram s') O0 ∧ arenas s' = ∅).
Proof.
  intros Hr Hinit Hl. destruct (malloc_init_ok r O0 Hr) as (s0 & Hinit0 & Hh & _). assert (s0 = s) as -> by congruence.
  destruct (run_ops_ok ops s O0 O0 ∅ Hh Hl) as (rs & s' & O' & B' & Hrun & Hh'). exists rs, s'. split; [done|]. intros Hno.
  assert (B' = ∅) as ->.
  { apply map_eq. intros p. rewrite lookup_empty. destruct (B' !! p) as [n|] eqn:E; [|done]. by apply (hh_blocks _ _ _ _ _ Hh'), Hno in E. }
  destruct (empty_heap s' O0 O' Hh') as [-> Ha]. split; [apply (ho_owns _ _ _ (hh_ok _ _ _ _ _ Hh'))|done].
Qed.

(** ** Sizes that wrap around *)
Lemma find_desc_none d ds size : (∀ x, x ∈ ds → d_block_size x < size) → find_desc d ds size = None.
Proof.
  revert d. induction ds as [|x ds IH]; intros d H; cbn; [done|]. rewrite decide_False by (specialize (H x ltac:(by constructor)); lia).
  apply IH. intros y Hy. apply H. by constructor.
Qed.

Lemma malloc_is_big s O size : heap_ok L s O → 4084 < size → malloc size s = malloc_big size s.
Proof.
  intros Hok Hs. unfold malloc. rewrite decide_False by lia. rewrite bind_gets, find_desc_none; [done|].
  intros x [d Hd]%list_elem_of_lookup_1. destruct (ho_desc _ _ _ Hok d x Hd) as [[H1 H2 H3] _]. nia.
Qed.

(** C36: the sizes are computed in 32 bits, and wrap around: [malloc] of almost
    4 GB succeeds with a block of 4084 bytes, and so does [calloc] of 65537
    elements of 65537 bytes with one of 135156, though its comment says that the
    product is checked to fit. *)
Theorem heap_sizes_wrap s O0 O B size : heap_has L s O0 O B → 4294967285 ≤ size < 4294967296 → (∃ i, free_run (L false) O i 33) →
  (∃ p s' O', malloc size s = Ret (p, s') ∧ p ≠ 0 ∧ heap_has L s' O0 O' (<[p := 4084]> B)) ∧
  (∃ p s' O', calloc 65537 65537 s = Ret (p, s') ∧ p ≠ 0 ∧ heap_has L s' O0 O' (<[p := 135156]> B)).
Proof.
  intros Hh Hs (i & Hfree). pose proof (hh_ok _ _ _ _ _ Hh) as Hok. split.
  - rewrite (malloc_is_big s O size Hok ltac:(lia)). assert (malloc_big size s = malloc_big 1 s) as ->.
    { unfold malloc_big, sizeof_arena. replace (u32 (size + 12)) with (size + 12 - 4294967296) by (unfold u32; mlia).
      unfold DIV_ROUND_UP. change PGSIZE with 4096. rewrite (u32_small (size + 12 - 4294967296 + 4096 - 1)) by lia.
      by replace ((size + 12 - 4294967296 + 4096 - 1) / 4096) with 1 by mlia. }
    destruct (malloc_big_ok L s O0 O B 1 Hh ltac:(lia)) as [[_ Hno]|(p & s' & O' & Hrun & Hh' & Hfr & _)].
    + destruct (Hno i). destruct Hfree as (F1 & F2 & F3). change (pages_for 1) with 1. split; [done|]. split; [lia|]. intros j Hj. apply F3. lia.
    + exists p, s', O'. split; [done|]. split; [destruct Hfr; lia|done].
  - unfold calloc. change (u32 (65537 * 65537)) with 131073. cbv zeta. rewrite decide_False by lia.
    pose proof (malloc_is_big s O 131073 Hok ltac:(lia)) as Hm. change (pages_for 131073) with 33.
    destruct (malloc_big_ok L s O0 O B 131073 Hh ltac:(lia)) as [[_ Hno]|(p & s' & O' & Hrun & Hh' & Hfr & _)].
    + by destruct (Hno i).
    + rewrite <-Hm in Hrun. rewrite (bind_run _ _ _ _ _ Hrun), decide_True by (destruct Hfr; lia).
      exists p, (Malloc.set_ram (set_bytes (filled p 131073 0 (bytes (ram s'))) (ram s')) s'), O'. split; [done|].
      split; [destruct Hfr; lia|]. by apply has_bytes.
Qed.
End heap.

(** ** The heap of a machine with 300 pages *)
Definition small_heap : heap := match malloc_init small_ram with Ret s => s | Err _ => mkHeap small_ram [] ∅ end.
Definition result {A} (o : outcome (A * heap)) : option A := match o with Ret (a, _) => Some a | Err _ => None end.

Lemma small_heap_ok : malloc_init small_ram = Ret small_heap ∧ heap_has small_areas small_heap ∅ ∅ ∅.
Proof.
  destruct (malloc_init_ok small_areas small_ram ∅ (proj1 small_ram_owns)) as (s & Hinit & Hh & _).
  unfold small_heap. rewrite Hinit. split; [reflexivity|exact Hh].
Qed.

Lemma result_run {A} (o : outcome (A * heap)) a a' s : o = Ret (a, s) → result o = Some a' → a = a'.
Proof. intros ->. cbn. congruence. Qed.

(** Blocks of 100 bytes take 128, and the two of a big one's pages come next. *)
Example small_heap_addresses : result (run_ops [Malloc 100; Malloc 100; Calloc 1000 5; Free 3222278284; Free 3222278156; Malloc 1000] small_heap) =
  Some [3222278156; 3222278284; 3222282252; 0; 0; 3222278156].
Proof. vm_compute. reflexivity. Qed.

Lemma one_block : ∃ s O n, run_op (Malloc 100) small_heap = Ret (3222278156, s) ∧ heap_has small_areas s ∅ O {[3222278156 := n]}.
Proof.
  destruct (op_step small_areas small_heap ∅ ∅ ∅ (Malloc 100) (proj2 small_heap_ok)) as (r & s & O & B & Hrun & Hspec & Hh); [unfold op_ok, max_size; lia|].
  assert (result (run_op (Malloc 100) small_heap) = Some 3222278156) as Hr by (vm_compute; reflexivity).
  pose proof (result_run _ _ _ _ Hrun Hr) as ->. destruct (spec_malloc_inv _ _ _ _ _ _ _ Hspec ltac:(lia)) as (n & ->). exists s, O, n. split; [exact Hrun|exact Hh].
Qed.

Lemma heap_refines_blocks_witness : ∃ s O B, run_op (Malloc 100) small_heap = Ret (3222278156, s) ∧ heap_has small_areas s ∅ O B ∧ is_Some (B !! 3222278156).
Proof.
  destruct (heap_refines_blocks small_areas small_heap ∅ ∅ ∅ (Malloc 100) (proj2 small_heap_ok)) as (r & s & O & B & Hrun & Hspec & Hh & _); [unfold op_ok, max_size; lia|].
  assert (result (run_op (Malloc 100) small_heap) = Some 3222278156) as Hr by (vm_compute; reflexivity).
  pose proof (result_run _ _ _ _ Hrun Hr) as ->. exists s, O, B. split; [exact Hrun|]. split; [exact Hh|].
  destruct (spec_malloc_inv _ _ _ _ _ _ _ Hspec ltac:(lia)) as (n & ->). exists n. apply lookup_insert_eq.
Defined.

Lemma heap_returns_pages_witness : ∃ s, run_ops [Malloc 100; Free 3222278156] small_heap = Ret ([3222278156; 0], s) ∧
  owns small_areas (ram s) ∅ ∧ arenas s = ∅.
Proof.
  destruct one_block as (s1 & O1 & n & Hrun1 & Hh1). set (p := 3222278156) in *.
  destruct (op_step small_areas s1 ∅ O1 _ (Free p) Hh1) as (r2 & s2 & O2 & B2 & Hrun2 & Hspec2 & Hh2); [right; by exists n; apply lookup_singleton_eq|].
  assert (r2 = 0 ∧ B2 = ∅) as [-> ->].
  { destruct (spec_free_inv _ _ _ _ _ _ _ Hspec2 ltac:(unfold p; lia)) as [-> ->]. split; [reflexivity|]. apply map_eq. intros q. rewrite lookup_empty.
    destruct (decide (p = q)) as [<-|Hne]; [by rewrite lookup_delete_eq|by rewrite lookup_delete_ne, lookup_singleton_ne by done]. }
  destruct (heap_returns_pages small_areas small_ram ∅ small_heap [Malloc 100; Free p]) as (rs & s & Hrun & Hback).
  - exact (proj1 small_ram_owns).
  - exact (proj1 small_heap_ok).
  - constructor; [cbn; unfold max_size; lia|]. intros r s Hr. rewrite Hrun1 in Hr. injection Hr as <- <-. constructor; [|intros; constructor].
    right. exists n. apply (hh_blocks _ _ _ _ _ Hh1), lookup_singleton_eq.
  - cbn [run_ops foldr] in Hrun. rewrite (bind_run _ _ _ _ _ Hrun1) in Hrun. rewrite bind_assoc, (bind_run _ _ _ _ _ Hrun2) in Hrun.
    injection Hrun as <- <-. exists s2. split; [|apply Hback; intros q m Hq%(hh_blocks _ _ _ _ _ Hh2); by rewrite lookup_empty in Hq].
    cbn [run_ops foldr]. rewrite (bind_run _ _ _ _ _ Hrun1). rewrite bind_assoc, (bind_run _ _ _ _ _ Hrun2). reflexivity.
Defined.

Lemma heap_sizes_wrap_witness :
  (∃ p s O, malloc 4294967295 small_heap = Ret (p, s) ∧ p ≠ 0 ∧ heap_has small_areas s ∅ O {[p := 4084]}) ∧
  (∃ p s O, calloc 65537 65537 small_heap = Ret (p, s) ∧ p ≠ 0 ∧ heap_has small_areas s ∅ O {[p := 135156]}).
Proof.
  apply (heap_sizes_wrap small_areas small_heap ∅ ∅ ∅ 4294967295); [exact (proj2 small_heap_ok)|lia|].
  exists 786689. split; [reflexivity|]. split; [|intros j _; apply not_elem_of_empty]. apply Z.leb_le. reflexivity.
Defined.
