(* ===== verification/Vm.v ===== *)
(** The state of the virtual memory of Project5: the frames and page tables, the
    swap, the supplemental pages and the file mappings; and vm/swap.c. *)
From S2P Require Import Prelude Block Bitmap Palloc PageDir.
Local Open Scope Z_scope.

(** file_mapping.h 8-16 file_mapping.  A null [fl] is [None], other null
    pointers are 0. *)
Record file_mapping := mkMapping {
  fl : option nat;
  offset : Z;
  file_size : Z;
  start_vaddr : Z;
  writable : bool;
  fl_writable : bool;
}.

(** supplemental_page.h 14-19 suppl_page_location *)
Inductive suppl_page_location : Set :=
| PG_LOCATION_UNKNOWN | PG_LOCATION_RAM | PG_LOCATION_SWAP | PG_LOCATION_FILE.
#[export] Instance suppl_page_location_eq_dec : EqDecision suppl_page_location.
Proof. solve_decision. Defined.

(** supplemental_page.h 21-33 suppl_page.  [mapping] is an address. *)
Record suppl_page := mkSuppl {
  vaddr : Z;
  kaddr : Z;
  saddr : Z;
  pagedir : Z;
  mapping : Z;
  location : suppl_page_location;
  dirty : bool;
  accessed : bool;
}.

(** file_mapping.h 18-22 file_mappings *)
Record file_mappings := mkMappings { mappings : Z; pool_size : Z }.

(** thread.h 110-131 thread, as far as virtual memory goes.  The supplemental
    page table is the set of its pages by their addresses: see HashSpec. *)
Record vm_thread := mkThread {
  t_pagedir : Z;
  suppl_page_table : option (gmap Z Z);
  mem_mappings : file_mappings;
}.

(** What vm/ asks of filesys/file.c. *)
Class FileOps (F : Type) : Type := {
  file_reopen : nat → M F (option nat);
  file_close : option nat → M F unit;
  file_seek : option nat → Z → M F unit;
  file_read : nat → Z → M F (list Z);
  file_write : nat → list Z → Z → M F Z;
}.

(** The pages and mappings that malloc gave out are in [spages] and [fmaps];
    [mallocs] are the results of its next calls (past the end they fail).
    [page_list], front first, [page_elem] and [eviction_lock] are those of
    vm_util.c 11-18; [alloc_map] and [swap_block] those of swap.c 10-11. *)
Record vm (F : Type) := mkVm {
  hw : mmu;
  alloc_map : bitmap;
  swap_block : block;
  spages : gmap Z suppl_page;
  fmaps : gmap Z file_mapping;
  page_list : list Z;
  page_elem : option Z;
  eviction_lock : Z;
  threads : gmap Z vm_thread;
  mallocs : list (option Z);
  fs : F;
}.
Arguments mkVm {F}. Arguments hw {F}. Arguments alloc_map {F}. Arguments swap_block {F}. Arguments spages {F}.
Arguments fmaps {F}. Arguments page_list {F}. Arguments page_elem {F}. Arguments eviction_lock {F}.
Arguments threads {F}. Arguments mallocs {F}. Arguments fs {F}.

Section vm.
Context {F : Type}.
Implicit Types s : vm F.

Definition set_hw (x : mmu) s : vm F := mkVm x (alloc_map s) (swap_block s) (spages s) (fmaps s) (page_list s) (page_elem s) (eviction_lock s) (threads s) (mallocs s) (fs s).
Definition set_alloc_map (x : bitmap) s : vm F := mkVm (hw s) x (swap_block s) (spages s) (fmaps s) (page_list s) (page_elem s) (eviction_lock s) (threads s) (mallocs s) (fs s).
Definition set_swap_block (x : block) s : vm F := mkVm (hw s) (alloc_map s) x (spages s) (fmaps s) (page_list s) (page_elem s) (eviction_lock s) (threads s) (mallocs s) (fs s).
Definition set_spages (x : gmap Z suppl_page) s : vm F := mkVm (hw s) (alloc_map s) (swap_block s) x (fmaps s) (page_list s) (page_elem s) (eviction_lock s) (threads s) (mallocs s) (fs s).
Definition set_fmaps (x : gmap Z file_mapping) s : vm F := mkVm (hw s) (alloc_map s) (swap_block s) (spages s) x (page_list s) (page_elem s) (eviction_lock s) (threads s) (mallocs s) (fs s).
Definition set_page_list (x : list Z) s : vm F := mkVm (hw s) (alloc_map s) (swap_block s) (spages s) (fmaps s) x (page_elem s) (eviction_lock s) (threads s) (mallocs s) (fs s).
Definition set_page_elem (x : option Z) s : vm F := mkVm (hw s) (alloc_map s) (swap_block s) (spages s) (fmaps s) (page_list s) x (eviction_lock s) (threads s) (mallocs s) (fs s).
Definition set_eviction_lock (x : Z) s : vm F := mkVm (hw s) (alloc_map s) (swap_block s) (spages s) (fmaps s) (page_list s) (page_elem s) x (threads s) (mallocs s) (fs s).
Definition set_threads (x : gmap Z vm_thread) s : vm F := mkVm (hw s) (alloc_map s) (swap_block s) (spages s) (fmaps s) (page_list s) (page_elem s) (eviction_lock s) x (mallocs s) (fs s).
Definition set_mallocs (x : list (option Z)) s : vm F := mkVm (hw s) (alloc_map s) (swap_block s) (spages s) (fmaps s) (page_list s) (page_elem s) (eviction_lock s) (threads s) x (fs s).
Definition set_fs (x : F) s : vm F := mkVm (hw s) (alloc_map s) (swap_block s) (spages s) (fmaps s) (page_list s) (page_elem s) (eviction_lock s) (threads s) (mallocs s) x.

Definition on_hw {A} (m : M mmu A) : M (vm F) A := zoom hw set_hw m.
Definition on_block {A} (m : M block A) : M (vm F) A := zoom swap_block set_swap_block m.
Definition on_fs {A} (m : M F A) : M (vm F) A := zoom fs set_fs m.

Definition get_page (p : Z) : M (vm F) suppl_page := λ s, let* x := or_fault (spages s !! p) in Ret (x, s).
Definition put_page (p : Z) (x : suppl_page) : M (vm F) unit := modify (λ s, set_spages (<[p := x]> (spages s)) s).
Definition get_fmap (p : Z) : M (vm F) file_mapping := λ s, let* x := or_fault (fmaps s !! p) in Ret (x, s).
Definition put_fmap (p : Z) (x : file_mapping) : M (vm F) unit := modify (λ s, set_fmaps (<[p := x]> (fmaps s)) s).
Definition get_thread (t : Z) : M (vm F) vm_thread := λ s, let* x := or_fault (threads s !! t) in Ret (x, s).
Definition put_thread (t : Z) (x : vm_thread) : M (vm F) unit := modify (λ s, set_threads (<[t := x]> (threads s)) s).
Definition malloc : M (vm F) Z := λ s, Ret (default 0 (default None (head (mallocs s))), set_mallocs (tail (mallocs s)) s).

(** [sema_down (&eviction_lock)] and [sema_up (&eviction_lock)], by the only thread. *)
Definition lock_eviction : M (vm F) unit :=
  let! n := gets eviction_lock in let! n := lift (sema_down n) in modify (set_eviction_lock n).
Definition unlock_eviction : M (vm F) unit :=
  let! n := gets eviction_lock in let! n := lift (sema_up n) in modify (set_eviction_lock n).

(** Assignments to the fields of a [struct suppl_page]. *)
Definition set_kaddr (x : Z) (p : suppl_page) : suppl_page := mkSuppl (vaddr p) x (saddr p) (pagedir p) (mapping p) (location p) (dirty p) (accessed p).
Definition set_saddr (x : Z) (p : suppl_page) : suppl_page := mkSuppl (vaddr p) (kaddr p) x (pagedir p) (mapping p) (location p) (dirty p) (accessed p).
Definition set_vaddr (x : Z) (p : suppl_page) : suppl_page := mkSuppl x (kaddr p) (saddr p) (pagedir p) (mapping p) (location p) (dirty p) (accessed p).
Definition set_mapping (x : Z) (p : suppl_page) : suppl_page := mkSuppl (vaddr p) (kaddr p) (saddr p) (pagedir p) x (location p) (dirty p) (accessed p).
Definition set_location (x : suppl_page_location) (p : suppl_page) : suppl_page := mkSuppl (vaddr p) (kaddr p) (saddr p) (pagedir p) (mapping p) x (dirty p) (accessed p).
Definition set_dirty (x : bool) (p : suppl_page) : suppl_page := mkSuppl (vaddr p) (kaddr p) (saddr p) (pagedir p) (mapping p) (location p) x (accessed p).
Definition set_accessed (x : bool) (p : suppl_page) : suppl_page := mkSuppl (vaddr p) (kaddr p) (saddr p) (pagedir p) (mapping p) (location p) (dirty p) x.
Definition upd_page (p : Z) (f : suppl_page → suppl_page) : M (vm F) unit :=
  let! x := get_page p in put_page p (f x).

(** ** Memory *)

(** The [n] bytes from [a] on, and bytes written to [a]. *)
Definition bytes_at (m : Z → Z) (a n : Z) : list Z := m <$> seqZ a n.
Definition written (a : Z) (l : list Z) (m : Z → Z) : Z → Z := λ x,
  if decide (a ≤ x < a + Z.of_nat (length l)) then default 0 (l !! Z.to_nat (x - a)) else m x.

(** Reading and writing the kernel's memory. *)
Definition read_kernel (a n : Z) : M (vm F) (list Z) := gets (λ s, bytes_at (memory (hw s)) a n).
Definition write_kernel (a : Z) (l : list Z) : M (vm F) unit :=
  modify (λ s, set_hw (set_memory (written a l (memory (hw s))) (hw s)) s).

(** Writing at an address of the running process, within one page. *)
Definition write_user (a : Z) (l : list Z) : M (vm F) unit :=
  let! k := on_hw (translate a true) in write_kernel k l.

(** ** Swap *)

Definition PAGE_SIZE : Z := PGSIZE.
(** swap.c 14 SECTORS_PER_PAGE *)
Definition SECTORS_PER_PAGE : Z := PAGE_SIZE / BLOCK_SECTOR_SIZE.

(** swap.h 5 SWAP_NO_PAGE *)
Definition SWAP_NO_PAGE : Z := -1.

(** swap.c 18-27 swap_init.  [device] is what [block_get_role] returns,
    [malloc_b] and [bits] what the calls of malloc in [bitmap_create] return. *)
Definition swap_init (initialized : bool) (device : option block) (malloc_b : bool) (bits : option (list Z)) : M (vm F) unit :=
  if initialized then ret tt
  else
    let! b := lift (or_fault device) in
    let! map := lift (bitmap_create malloc_b bits (block_size b / SECTORS_PER_PAGE)) in
    let! map := lift (or_panic map) in
    modify (λ s, set_alloc_map map (set_swap_block b s));;!
    modify (λ s, set_page_elem None (set_eviction_lock 1 (set_page_list [] s))).

(** swap.c 29-36 swap_get_page *)
Definition swap_get_page : M (vm F) Z :=
  let! b := gets alloc_map in
  let! ' (start_sector, b') := lift (bitmap_scan_and_flip b 0 1 false) in
  modify (set_alloc_map b');;!
  ret (if decide (start_sector = BITMAP_ERROR) then SWAP_NO_PAGE else start_sector).

(** [if (bitmap_contains (alloc_map, page, 1, false)) PANIC (...)] *)
Definition check_allocated (page : Z) : M (vm F) unit :=
  let! b := gets alloc_map in
  let! free := lift (bitmap_contains b (u32 page) 1 false) in
  if (free : bool) then throw Panic else ret tt.

(** swap.c 38-45 swap_free_page *)
Definition swap_free_page (page : Z) : M (vm F) unit :=
  check_allocated page;;!
  let! b := gets alloc_map in
  let! b' := lift (bitmap_set_multiple b (u32 page) 1 false) in
  modify (set_alloc_map b').

(** swap.c 47-61 swap_load_page_to_ram.  [write] writes a sector at an address. *)
Definition swap_load_page_to_ram (write : Z → list Z → M (vm F) unit) (page addr : Z) : M (vm F) unit :=
  check_allocated page;;!
  for_to (Z.to_nat SECTORS_PER_PAGE) 0 (λ i,
    let! d := on_block (block_read (u32 (page * SECTORS_PER_PAGE + i))) in
    write (addr + i * BLOCK_SECTOR_SIZE) d).

(** swap.c 63-77 swap_load_page_to_swap, from the kernel's memory *)
Definition swap_load_page_to_swap (page addr : Z) : M (vm F) unit :=
  check_allocated page;;!
  for_to (Z.to_nat SECTORS_PER_PAGE) 0 (λ i,
    let! d := read_kernel (addr + i * BLOCK_SECTOR_SIZE) BLOCK_SECTOR_SIZE in
    on_block (block_write (u32 (page * SECTORS_PER_PAGE + i)) d)).
End vm.
