(* ===== verification/Evict.v ===== *)
(** Which pages are in memory, and how one is made to leave it: vm/vm_util.c of
    Project5, with the part of vm/supplemental_page.c that it calls. *)
From S2P Require Import Prelude Block Bitmap Palloc PageDir Vm.
Local Open Scope Z_scope.

(** ** Lists of pages *)

(** The element after [x], [Some None] at the end; [None] if [x] is not in the
    list: its links are then stale. *)
Fixpoint next_of (x : Z) (l : list Z) : option (option Z) :=
  match l with
  | [] => None
  | y :: l => if decide (y = x) then Some (head l) else next_of x l
  end.
Fixpoint remove_from (x : Z) (l : list Z) : option (list Z) :=
  match l with
  | [] => None
  | y :: l => if decide (y = x) then Some l else cons y <$> remove_from x l
  end.

(** vm_util.c 7-9 VM_STACK_END *)
Definition VM_STACK_END : Z := PHYS_BASE - 1024 * 1024 * 8.

(** vm_util.c 48-51 addr_in_stack_range *)
Definition addr_in_stack_range (addr : Z) : bool := is_user_vaddr addr && bool_decide (VM_STACK_END ≤ addr).

(** vm_util.c 53-56 stack_grow_needed *)
Definition stack_grow_needed (addr esp : Z) : bool := addr_in_stack_range addr && bool_decide (u32 (esp - 128) ≤ addr).

Section evict.
Context {F : Type} `{!FileOps F} (init_page_dir ram_pages : Z).

(** [list_next (e)] for an element of [page_list]; [None] is its end. *)
Definition next_page (e : Z) : M (vm F) (option Z) :=
  let! l := gets page_list in lift (or_fault (next_of e l)).
Definition unlist_page (e : Z) : M (vm F) unit :=
  let! l := gets page_list in
  let! l := lift (or_fault (remove_from e l)) in modify (set_page_list l).

(** vm_util.c 27-38 undo_suppl_page_registration *)
Definition undo_suppl_page_registration (page : Z) : M (vm F) unit :=
  lock_eviction;;!
  let! hand := gets page_elem in
  (if decide (hand = Some page) then let! n := next_page page in modify (set_page_elem n) else ret tt);;!
  let! x := get_page page in
  (if decide (kaddr x ≠ 0) then unlist_page page else ret tt);;!
  unlock_eviction.

(** vm_util.c 39-46 register_suppl_page *)
Definition register_suppl_page (page : Z) : M (vm F) unit :=
  let! x := get_page page in
  if decide (kaddr x ≠ 0) then
    lock_eviction;;!
    modify (λ s, set_page_list (page :: page_list s) s);;!
    unlock_eviction
  else ret tt.

(** vm_util.c 209-215 pagedir_set_page_synch *)
Definition pagedir_set_page_synch (pd upage kpage : Z) (rw : bool) : M (vm F) bool :=
  lock_eviction;;!
  let! rv := on_hw (pagedir_set_page init_page_dir ram_pages pd upage kpage rw) in
  unlock_eviction;;!
  ret rv.

(** vm_util.c 216-221 pagedir_clear_page_synch *)
Definition pagedir_clear_page_synch (pd upage : Z) : M (vm F) unit :=
  lock_eviction;;!
  on_hw (pagedir_clear_page init_page_dir pd upage);;!
  unlock_eviction.

(** ** Dirty and accessed pages *)

(** supplemental_page.c 72-81 suppl_page_dirty *)
Definition suppl_page_dirty (page : Z) : M (vm F) bool :=
  let! x := get_page page in
  if dirty x then ret true
  else if decide (kaddr x ≠ 0) then
    let! b := on_hw (pagedir_is_dirty (pagedir x) (vaddr x)) in
    upd_page page (set_dirty b);;! ret b
  else ret false.

(** supplemental_page.c 82-85 suppl_page_accessed *)
Definition suppl_page_accessed (page : Z) : M (vm F) bool :=
  let! x := get_page page in
  if accessed x then ret true
  else if decide (kaddr x ≠ 0) then
    let! b := on_hw (pagedir_is_accessed (pagedir x) (vaddr x)) in
    upd_page page (set_accessed b);;! ret b
  else ret false.

(** supplemental_page.c 155-182 suppl_page_load_to_file.  [set_kpage_if_needed]
    is the function of that name for this call. *)
Definition load_to_file (set_kpage_if_needed : Z → M (vm F) bool) (page : Z) (eviction_call : bool) : M (vm F) bool :=
  if decide (page = 0) then ret false
  else
    let! x := get_page page in
    if decide (mapping x = 0) then ret false
    else
      let! m := get_fmap (mapping x) in
      match fl m with
      | None => ret false
      | Some f =>
          let! d := suppl_page_dirty page in
          if negb d then ret true
          else if negb (fl_writable m) then ret true
          else
            let! ok := set_kpage_if_needed page in
            if negb ok then ret false
            else
              let start := vaddr x in
              let end_ := u32 (start + PAGE_SIZE) in
              let file_start := start_vaddr m in
              let start := if decide (start < file_start) then file_start else start in
              let file_end := u32 (start_vaddr m + file_size m - offset m) in
              let end_ := if decide (end_ > file_end) then file_end else end_ in
              let done_ := if eviction_call then ret tt else register_suppl_page page in
              if decide (start < end_) then
                on_fs (file_seek (fl m) (s32 (start - file_start)));;!
                let buffer_size := s32 (end_ - start) in
                let! x := get_page page in
                let! buf := read_kernel (pg_round_down (kaddr x) + (start - vaddr x)) buffer_size in
                let! n := on_fs (file_write f buf buffer_size) in
                done_;;!
                ret (bool_decide (n = buffer_size))
              else done_;;! ret true
      end.

(** supplemental_page.c 88-89 set_kpage_if_needed, during an eviction *)
Definition has_kpage (page : Z) : M (vm F) bool :=
  let! x := get_page page in ret (bool_decide (kaddr x ≠ 0)).

(** ** Eviction *)

(** vm_util.c 69-81 EVICTION_EVICT_PAGE *)
Definition evict (page : Z) : M (vm F) bool :=
  let! x := get_page page in
  upd_page page (set_kaddr 0);;!
  on_hw (pagedir_clear_page init_page_dir (pagedir x) (vaddr x));;!
  on_hw (in_ram (palloc_free_page (kaddr x)));;!
  let! n := next_page page in
  modify (set_page_elem n);;!
  unlist_page page;;!
  unlock_eviction;;!
  ret true.

(** vm_util.c 83-92 EVICTION_MOVE_TO_SWAP.  False if the swap is full. *)
Definition move_to_swap (page : Z) : M (vm F) bool :=
  let! spage := swap_get_page in
  if decide (spage = SWAP_NO_PAGE) then unlock_eviction;;! ret false
  else
    let! x := get_page page in
    swap_load_page_to_swap spage (kaddr x);;!
    upd_page page (λ x, set_location PG_LOCATION_SWAP (set_saddr spage x));;!
    ret true.

(** The mapping of a page satisfies [test]; false without a mapping. *)
Definition mapping_is (test : file_mapping → bool) (x : suppl_page) : M (vm F) bool :=
  if decide (mapping x ≠ 0) then let! m := get_fmap (mapping x) in ret (test m) else ret false.

(** vm_util.c 94-103 EVICTION_EVICT_NOT_MODIFIED *)
Definition evict_not_modified (page : Z) : M (vm F) bool :=
  let! x := get_page page in
  let! to_file := mapping_is writable x in
  if (to_file : bool) then upd_page page (set_location PG_LOCATION_FILE);;! evict page
  else let! ok := move_to_swap page in if (ok : bool) then evict page else ret false.

(** vm_util.c 105-115 EVICTION_EVICT_MODIFIED *)
Definition evict_modified (page : Z) : M (vm F) bool :=
  let! x := get_page page in
  let! to_file := mapping_is (λ m, fl_writable m && writable m) x in
  if (to_file : bool) then
    load_to_file has_kpage page true;;!
    upd_page page (set_location PG_LOCATION_FILE);;! evict page
  else let! ok := move_to_swap page in if (ok : bool) then evict page else ret false.

(** vm_util.c 117-118 EVICTION_MOVE_TO_NEXT.  The element that the hand is moved to. *)
Definition next_hand (e : Z) : M (vm F) Z :=
  let! n := next_page e in
  let! l := gets page_list in
  let! h := lift (or_fault (match n with Some h => Some h | None => head l end)) in
  modify (set_page_elem (Some h));;! ret h.

(** vm_util.c 133-141 evict_page, one of the three loops: once around the list
    from the hand; the result of evicting the first page that passes the test,
    nothing if there is none. *)
Fixpoint clock_loop (fuel : nat) (test : Z → M (vm F) bool) (evict : Z → M (vm F) bool) (hand terminal : Z)
    : M (vm F) (option bool) :=
  match fuel with
  | O => throw OutOfFuel
  | S fuel =>
      let! b := test hand in
      if (b : bool) then let! r := evict hand in ret (Some r)
      else
        let! h := next_hand hand in
        if decide (h = terminal) then ret None else clock_loop fuel test evict h terminal
  end.

(** [(!referenced) && (modified == m)] *)
Definition unreferenced (m : bool) (page : Z) : M (vm F) bool :=
  let! modified := suppl_page_dirty page in
  let! referenced := suppl_page_accessed page in
  ret (negb referenced && Bool.eqb modified m).
Definition unmodified (page : Z) : M (vm F) bool :=
  let! modified := suppl_page_dirty page in ret (negb modified).

(** vm_util.c 120-161 evict_page *)
Definition evict_page : M (vm F) bool :=
  lock_eviction;;!
  let! l := gets page_list in
  match l with
  | [] => unlock_eviction;;! ret false
  | first :: _ =>
      let! hand := gets page_elem in
      let terminal := default first hand in
      modify (set_page_elem (Some terminal));;!
      let fuel := length l in
      let! r := clock_loop fuel (unreferenced false) evict_not_modified terminal terminal in
      match r with Some r => ret r | None =>
      let! r := clock_loop fuel (unreferenced true) evict_modified terminal terminal in
      match r with Some r => ret r | None =>
      let! r := clock_loop fuel unmodified evict_not_modified terminal terminal in
      match r with Some r => ret r | None =>
      evict_modified terminal
      end end end
  end.

(** vm_util.c 171-176 evict_and_get_kaddr *)
Definition evict_and_get_kaddr : M (vm F) Z :=
  let! ok := evict_page in
  if (ok : bool) then on_hw (in_ram (palloc_get_page (PAL_USER + PAL_ZERO))) else ret 0.

(** vm_util.c 179-207 restore_page_from_swap *)
Definition restore_page_from_swap (page : Z) (reg_page : bool) : M (vm F) bool :=
  lock_eviction;;!
  let! x := get_page page in
  assertM (bool_decide (location x = PG_LOCATION_SWAP) && bool_decide (saddr x ≠ SWAP_NO_PAGE));;!
  let! kpage := on_hw (in_ram (palloc_get_page (PAL_USER + PAL_ZERO))) in
  let! kpage := (if decide (kpage = 0) then
      unlock_eviction;;!
      let! kpage := evict_and_get_kaddr in
      lock_eviction;;!
      ret kpage
    else ret kpage) in
  if decide (kpage = 0) then unlock_eviction;;! ret false
  else
    let! ok := on_hw (pagedir_set_page init_page_dir ram_pages (pagedir x) (vaddr x) kpage true) in
    if negb ok then
      on_hw (in_ram (palloc_free_page kpage));;!
      unlock_eviction;;!
      ret false
    else
      swap_load_page_to_ram write_user (saddr x) (vaddr x);;!
      swap_free_page (saddr x);;!
      upd_page page (λ x, set_location PG_LOCATION_RAM (set_kaddr kpage (set_saddr SWAP_NO_PAGE x)));;!
      unlock_eviction;;!
      (if reg_page then register_suppl_page page else ret tt);;!
      ret true.
End evict.
