(* ===== verification/VmLaws.v ===== *)
(** The invariant of virtual memory, what a page holds wherever it is, and the
    dirty and accessed bits. *)
From S2P Require Import Prelude Bitmap Block Palloc PallocSpec PageDir PageDirLaws Frames Vm Evict.
Local Open Scope Z_scope.

(** * What vm/swap.c does: slots of one page each, given out first free first. *)

(** ** Bytes of memory *)
Lemma length_bytes_at m a n : length (bytes_at m a n) = Z.to_nat n.
Proof. unfold bytes_at. by rewrite length_fmap, length_seqZ. Qed.

Lemma bytes_at_app m a n k : 0 ≤ n → 0 ≤ k → bytes_at m a (n + k) = bytes_at m a n ++ bytes_at m (a + n) k.
Proof. intros. unfold bytes_at. by rewrite seqZ_app, fmap_app by lia. Qed.

Lemma bytes_at_ext m m' a n : (∀ x, a ≤ x < a + n → m' x = m x) → bytes_at m' a n = bytes_at m a n.
Proof. intros H. unfold bytes_at. apply list_fmap_ext. intros i x Hx%list_elem_of_lookup_2%elem_of_seqZ. apply H. lia. Qed.

Lemma bytes_at_lookup m a n i : 0 ≤ i < n → bytes_at m a n !! Z.to_nat i = Some (m (a + i)).
Proof.
  intros Hi. unfold bytes_at. rewrite list_lookup_fmap, lookup_seqZ_lt by lia. simpl. do 2 f_equal. lia.
Qed.

Lemma bytes_at_written m a l : bytes_at (written a l m) a (Z.of_nat (length l)) = l.
Proof.
  apply list_eq_same_length with (n := length l); [done|by rewrite length_bytes_at; lia|].
  intros i x y Hi Hx Hy. rewrite <-(Nat2Z.id i), bytes_at_lookup in Hx by lia. injection Hx as <-.
  unfold written. rewrite decide_True by lia. replace (a + Z.of_nat i - a) with (Z.of_nat i) by lia.
  by rewrite Nat2Z.id, Hy.
Qed.

Lemma written_ne m a l x : x < a ∨ a + Z.of_nat (length l) ≤ x → written a l m x = m x.
Proof. intros H. unfold written. by rewrite decide_False by lia. Qed.

(** ** Slots *)

(** The bytes of the [i]-th page of the swap, and its sectors. *)
Definition sectors (b : block) (i : Z) : list (list Z) := sub (contents b) (Z.to_nat (8 * i)) 8.
Definition slot (b : block) (i : Z) : list Z := concat (sectors b i).

Section slots.
Context {F : Type}.
Implicit Types s : vm F.

Record swap_ok s : Prop := {
  so_map : wf (alloc_map s);
  so_disk : block_wf (swap_block s);
  so_fit : 8 * bit_cnt (alloc_map s) ≤ size (swap_block s);
  so_bytes : Forall (Forall byte) (contents (swap_block s));
}.
Lemma swap_ok_same s t : alloc_map t = alloc_map s → swap_block t = swap_block s → swap_ok s → swap_ok t.
Proof. intros E1 E2 [A1 A2 A3 A4]. by split; rewrite ?E1, ?E2. Qed.

Definition swap_pages s : Z := bit_cnt (alloc_map s).
Definition used s (i : Z) : bool := get_bit (alloc_map s) i.

Lemma swap_pages_range s : swap_ok s → 0 ≤ swap_pages s < 536870912.
Proof. intros [H1 [_ _ Hb _] H3 _]. pose proof (wf_cnt _ H1). unfold swap_pages, NONE32 in *. lia. Qed.

Lemma swap_get_ok s : swap_ok s →
  (∃ i b, swap_get_page s = Ret (i, set_alloc_map b s) ∧ 0 ≤ i < swap_pages s ∧ used s i = false ∧
     (∀ j, 0 ≤ j < i → used s j = true) ∧ wf b ∧ bit_cnt b = swap_pages s ∧
     ∀ j, 0 ≤ j < swap_pages s → get_bit b j = if decide (j = i) then true else used s j) ∨
  (swap_get_page s = Ret (SWAP_NO_PAGE, s) ∧ ∀ j, 0 ≤ j < swap_pages s → used s j = true).
Proof.
  intros Hok. pose proof (so_map _ Hok) as Hwf. pose proof (swap_pages_range s Hok) as Hr. unfold swap_pages, used in *.
  unfold swap_get_page. rewrite bind_gets.
  destruct (bitmap_scan_and_flip_spec (alloc_map s) 0 1 false Hwf) as (i & b & Hrun & Hwf' & Hc & Hcase); [lia|lia|].
  rewrite Hrun, bind_lift, bind_modify.
  destruct Hcase as [(Hne & Hi & Hle & Hall & Hmin & Ha)|(-> & -> & Hno)].
  - left. exists i, b. rewrite decide_False by done. split; [done|]. split; [lia|].
    rewrite seg_one, Forall_singleton in Hall by lia. split; [done|]. split; [|split; [done|split; [done|]]].
    + intros j Hj. destruct (get_bit (alloc_map s) j) eqn:E; [done|]. destruct (Hmin j Hj). rewrite seg_one by lia. auto.
    + intros j Hj. rewrite (get_bit_splice (alloc_map s) b i 1 true j) by (done || lia).
      destruct (decide (j = i)) as [->|]; [by rewrite decide_True by lia|by rewrite decide_False by lia].
  - right. rewrite decide_True by done. split; [unfold ret; do 2 f_equal; by destruct s|].
    intros j Hj. destruct (get_bit (alloc_map s) j) eqn:E; [done|]. destruct (Hno j); [lia..|]. rewrite seg_one by lia. auto.
Qed.

Lemma check_allocated_ok s i : swap_ok s → 0 ≤ i < swap_pages s →
  check_allocated i s = if used s i then Ret (tt, s) else Err Panic.
Proof.
  intros Hok Hi. pose proof (so_map _ Hok) as Hwf. pose proof (swap_pages_range s Hok) as Hr. unfold swap_pages, used in *.
  unfold check_allocated. rewrite bind_gets, u32_small by lia.
  rewrite bitmap_contains_spec by (done || lia). rewrite bind_lift, seg_one by done.
  destruct (get_bit (alloc_map s) i); [rewrite bool_decide_false|rewrite bool_decide_true]; try done; set_solver.
Qed.

Lemma swap_free_ok s i : swap_ok s → 0 ≤ i < swap_pages s → used s i = true →
  ∃ b, swap_free_page i s = Ret (tt, set_alloc_map b s) ∧ wf b ∧ bit_cnt b = swap_pages s ∧
    ∀ j, 0 ≤ j < swap_pages s → get_bit b j = if decide (j = i) then false else used s j.
Proof.
  intros Hok Hi Hu. pose proof (so_map _ Hok) as Hwf. pose proof (swap_pages_range s Hok) as Hr.
  unfold swap_free_page. pose proof (check_allocated_ok s i Hok Hi) as Hc. rewrite Hu in Hc.
  rewrite (bind_run _ _ _ _ _ Hc), bind_gets, u32_small by lia. unfold swap_pages, used in *.
  destruct (bitmap_set_multiple_spec (alloc_map s) i 1 false Hwf) as (b & -> & Hwf' & Hcnt & Ha); [lia..|].
  rewrite bind_lift. exists b. split; [done|]. split; [done|]. split; [done|]. intros j Hj.
  rewrite (get_bit_splice (alloc_map s) b i 1 false j) by (done || lia).
  destruct (decide (j = i)) as [->|]; [by rewrite decide_True by lia|by rewrite decide_False by lia].
Qed.

(** ** Storing a page *)
Lemma length_sectors s i : swap_ok s → 0 ≤ i < swap_pages s → length (sectors (swap_block s) i) = 8%nat.
Proof.
  intros [Hm [_ Hs _ _] Hf _] Hi. unfold swap_pages in *. unfold sectors. apply length_sub. lia.
Qed.

Lemma sector_of s i j : swap_ok s → 0 ≤ i < swap_pages s → 0 ≤ j < 8 →
  ∃ d, sectors (swap_block s) i !! Z.to_nat j = Some d ∧ nthZ (contents (swap_block s)) (8 * i + j) = Some d ∧ length d = 512%nat.
Proof.
  intros Hok Hi Hj. pose proof Hok as [Hm [Ht Hs Hb Hd] Hf _]. unfold swap_pages in *.
  destruct (nthZ_is_Some (contents (swap_block s)) (8 * i + j)) as [d Hn]; [lia|]. exists d. pose proof Hn as Hn'.
  rewrite nthZ_lookup in Hn' by lia. split; [|split; [done|by eapply (Forall_lookup_1 _ _ _ _ Hd)]].
  unfold sectors. rewrite lookup_sub by lia. rewrite <-Hn'. f_equal. lia.
Qed.

(** [n] sectors of a slot hold the bytes from [a] on, the rest of the disk is as before. *)
Record stored_upto (b b' : block) (m : Z → Z) (p a n : Z) : Prop := {
  su_wf : block_wf b';
  su_size : size b' = size b;
  su_new j : 0 ≤ j < n → nthZ (contents b') (8 * p + j) = Some (bytes_at m (a + 512 * j) 512);
  su_bytes : Forall (Forall byte) (contents b');
  su_old i : i < 8 * p ∨ 8 * p + n ≤ i → nthZ (contents b') i = nthZ (contents b) i;
}.

Lemma nthZ_insert {A} (l : list A) i j x : 0 ≤ i < Z.of_nat (length l) →
  nthZ (<[Z.to_nat i := x]> l) j = if decide (j = i) then Some x else nthZ l j.
Proof.
  intros Hi. case_decide as E; [subst; rewrite nthZ_lookup by lia; apply list_lookup_insert_eq; lia|].
  unfold nthZ. case_decide; [|done]. apply list_lookup_insert_ne. lia.
Qed.

Lemma bytes_at_bytes m a n : bytes_ok m → Forall byte (bytes_at m a n).
Proof. intros H. unfold bytes_at. apply Forall_fmap, Forall_forall. intros x _. apply H. Qed.

Lemma store_sector b b' m p a n : bytes_ok m → 0 ≤ p → 0 ≤ n → 8 * p + n < size b → stored_upto b b' m p a n →
  ∃ b'', block_write (8 * p + n) (bytes_at m (a + 512 * n) 512) b' = Ret (tt, b'') ∧ stored_upto b b'' m p a (n + 1).
Proof.
  intros Hm Hp Hn Hlt [Hwf Hs Hnew Hby Hold]. eexists. split; [apply block_write_run; [done|lia]|].
  pose proof Hwf as [Ht Hl Hb Hd]. split; cbn [contents size].
  - split; cbn [type size contents]; [done|by rewrite length_insert|done|]. apply Forall_insert; [done|].
    by rewrite length_bytes_at.
  - done.
  - intros j Hj. rewrite nthZ_insert by lia. case_decide as E; [do 3 f_equal; lia|]. apply Hnew. lia.
  - apply Forall_insert; [done|]. by apply bytes_at_bytes.
  - intros i Hi. rewrite nthZ_insert by lia. rewrite decide_False by lia. apply Hold. lia.
Qed.

Lemma stored_slot b b' m p a : 0 ≤ p → 8 * p + 8 ≤ size b → block_wf b → stored_upto b b' m p a 8 →
  slot b' p = bytes_at m a 4096 ∧ ∀ j, 0 ≤ j → j ≠ p → slot b' j = slot b j.
Proof.
  intros Hp Hlt Hwf [Hwf' Hs Hnew _ Hold]. pose proof Hwf' as [_ Hl _ _]. pose proof Hwf as [_ Hl0 _ _]. split.
  - unfold slot. assert (sectors b' p = (λ j, bytes_at m (a + 512 * j) 512) <$> seqZ 0 8) as ->.
    { apply list_eq_same_length with (n := 8%nat); [done|unfold sectors; apply length_sub; lia|].
      intros i x y Hi Hx Hy. unfold sectors in Hx. rewrite lookup_sub in Hx by done.
      rewrite list_lookup_fmap in Hy. rewrite lookup_seqZ_lt, Z.add_0_l in Hy by lia. injection Hy as <-.
      specialize (Hnew (Z.of_nat i) ltac:(lia)). rewrite nthZ_lookup in Hnew by lia.
      replace (Z.to_nat (8 * p + Z.of_nat i)) with (Z.to_nat (8 * p) + i)%nat in Hnew by lia. congruence. }
    change (seqZ 0 8) with [0; 1; 2; 3; 4; 5; 6; 7]. cbn [fmap list_fmap concat].
    change 4096 with (512 + (512 + (512 + (512 + (512 + (512 + (512 + 512))))))).
    rewrite !bytes_at_app by lia. rewrite app_nil_r. 
    repeat match goal with |- _ ++ _ = _ ++ _ => apply f_equal2 | |- bytes_at _ _ _ = bytes_at _ _ _ => f_equal; lia end.
  - intros j Hj Hne. unfold slot, sectors. f_equal. apply list_eq. intros i. destruct (decide (i < 8)%nat).
    + rewrite !lookup_sub by done. specialize (Hold (8 * j + Z.of_nat i) ltac:(lia)). rewrite !nthZ_lookup in Hold by lia.
      by replace (Z.to_nat (8 * j) + i)%nat with (Z.to_nat (8 * j + Z.of_nat i)) by lia.
    + unfold sub. by rewrite !lookup_take_ge by lia.
Qed.

Lemma store_page_ok s p a : swap_ok s → bytes_ok (memory (hw s)) → 0 ≤ p < swap_pages s → used s p = true →
  ∃ b', swap_load_page_to_swap p a s = Ret (tt, set_swap_block b' s) ∧ block_wf b' ∧ size b' = size (swap_block s) ∧
    Forall (Forall byte) (contents b') ∧ slot b' p = bytes_at (memory (hw s)) a 4096 ∧ ∀ j, 0 ≤ j → j ≠ p → slot b' j = slot (swap_block s) j.
Proof.
  intros Hok Hmem Hp Hu. pose proof (swap_pages_range s Hok) as Hr. pose proof Hok as [Hm Hd Hf Hby]. unfold swap_load_page_to_swap.
  pose proof (check_allocated_ok s p Hok Hp) as Hc. rewrite Hu in Hc. rewrite (bind_run _ _ _ _ _ Hc).
  change (Z.to_nat SECTORS_PER_PAGE) with 8%nat. change SECTORS_PER_PAGE with 8. change BLOCK_SECTOR_SIZE with 512.
  pose (I := λ (n : Z) (t : vm F), ∃ b', t = set_swap_block b' s ∧ stored_upto (swap_block s) b' (memory (hw s)) p a n).
  pose proof (bw_bound _ Hd) as Hbd. unfold NONE32 in Hbd. unfold swap_pages in *.
  match goal with |- context [for_to 8 0 ?body s] => destruct (for_to_ok I 8 0 body s) as (s' & Hrun & b' & -> & Hb') end.
  - exists (swap_block s). split; [by destruct s|]. split; [done|done|lia|done|done].
  - intros j t Hj (b' & -> & Hb'). change (0 + Z.of_nat 8) with 8 in Hj. unfold read_kernel. rewrite bind_gets. cbn [hw set_swap_block].
    rewrite (u32_small (p * 8 + j)) by lia. replace (p * 8 + j) with (8 * p + j) by lia. replace (a + j * 512) with (a + 512 * j) by lia.
    destruct (store_sector (swap_block s) b' (memory (hw s)) p a j Hmem) as (b'' & Hrun & Hb''); [lia..|done|].
    exists (set_swap_block b'' s). split; [|by exists b'']. unfold on_block, zoom. cbn [swap_block set_swap_block].
    by rewrite Hrun.
  - exists b'. split; [done|]. split; [by apply Hb'|]. split; [by apply Hb'|]. split; [by apply Hb'|]. apply (stored_slot (swap_block s) b' (memory (hw s)) p a); [lia|lia|done|done].
Qed.
End slots.

Local Abbreviation dirs := (gmap Z (gmap Z Z)).

(** What open files promise: a position, and the bytes of the file. *)
Class FileLaws (F : Type) `{!FileOps F} : Type := {
  opened : F → nat → Prop;
  position : F → nat → Z;
  file_bytes : F → nat → list Z;
  bytes_law s f : opened s f → Forall byte (file_bytes s f);
  seek_law s f ofs : opened s f → 0 ≤ ofs →
    ∃ s', file_seek (Some f) ofs s = Ret (tt, s') ∧ (∀ g, opened s g → opened s' g ∧ file_bytes s' g = file_bytes s g) ∧
      position s' f = ofs;
  read_law s f n : opened s f → 0 ≤ position s f → 0 ≤ n →
    ∃ s', file_read f n s = Ret (take (Z.to_nat n) (drop (Z.to_nat (position s f)) (file_bytes s f)), s') ∧
      (∀ g, opened s g → opened s' g ∧ file_bytes s' g = file_bytes s g);
  write_law s f l : opened s f → 0 ≤ position s f → Forall byte l →
    position s f + Z.of_nat (length l) ≤ Z.of_nat (length (file_bytes s f)) →
    ∃ s', file_write f l (Z.of_nat (length l)) s = Ret (Z.of_nat (length l), s') ∧
      (∀ g, opened s g → opened s' g ∧ length (file_bytes s' g) = length (file_bytes s g)) ∧
      file_bytes s' f = splice (file_bytes s f) (Z.to_nat (position s f)) l;
}.

Section vm_laws.
Context {F : Type} `{!FileOps F} `{!FileLaws F} (init_page_dir : Z) (L : bool → area).
Implicit Types s : vm F.

(** ** Pages *)

(** The entry of a page in its directory. *)
Definition entry (h : mmu) (D : dirs) (x : suppl_page) : PageDirLaws.entry :=
  entry_of h D (pagedir x / 4096) (vaddr x / 4096).
Definition resident (x : suppl_page) : bool := bool_decide (kaddr x ≠ 0).
Definition modified (h : mmu) (D : dirs) (x : suppl_page) : bool := dirty x || (resident x && e_dirty (entry h D x)).
Definition referenced (h : mmu) (D : dirs) (x : suppl_page) : bool := accessed x || (resident x && e_accessed (entry h D x)).

(** The bytes of a page, in memory or in the swap. *)
Definition content s (p : Z) : option (list Z) :=
  x ← spages s !! p;
  if resident x then Some (bytes_at (memory (hw s)) (kaddr x) 4096)
  else if decide (location x = PG_LOCATION_SWAP) then Some (slot (swap_block s) (saddr x)) else None.

Record page_ok s (O : gset Z) (D : dirs) (x : suppl_page) : Prop := {
  pg_dir : pagedir x mod 4096 = 0 ∧ is_Some (D !! (pagedir x / 4096));
  pg_vaddr : 0 ≤ vaddr x < PHYS_BASE ∧ vaddr x mod 4096 = 0;
  pg_frame : kaddr x ≠ 0 → ∃ k, kaddr x = 4096 * k ∧ k ∈ O ∧ in_area (L true) k ∧
    e_present (entry (hw s) D x) = true ∧ e_frame (entry (hw s) D x) = kaddr x;
  pg_absent : kaddr x = 0 → e_present (entry (hw s) D x) = false;
  pg_slot : saddr x ≠ SWAP_NO_PAGE → kaddr x = 0 ∧ location x = PG_LOCATION_SWAP ∧
    0 ≤ saddr x < swap_pages s ∧ used s (saddr x) = true;
  pg_swap : location x = PG_LOCATION_SWAP → saddr x ≠ SWAP_NO_PAGE;
}.

(** A mapping that a page is part of: of an open file that is as long as the mapping says. *)
Record mapping_ok s (x : suppl_page) (m : file_mapping) : Prop := {
  mo_file : ∃ f, fl m = Some f ∧ opened (fs s) f ∧ file_size m ≤ Z.of_nat (length (file_bytes (fs s) f));
  mo_range : 0 ≤ offset m ≤ file_size m ∧ file_size m < 2147483648;
  mo_start : 0 < start_vaddr m ≤ vaddr x ∧ start_vaddr m mod 4096 = 0;
  mo_near : vaddr x - start_vaddr m < 2147483648;
  mo_end : start_vaddr m + file_size m - offset m ≤ PHYS_BASE;
}.

Definition apart (x y : suppl_page) : Prop :=
  (kaddr x ≠ 0 → kaddr x ≠ kaddr y) ∧ (saddr x ≠ SWAP_NO_PAGE → saddr x ≠ saddr y) ∧
  ¬ (pagedir x = pagedir y ∧ vaddr x = vaddr y).

Record vm_ok s (O : gset Z) (D : dirs) : Prop := {
  vo_spaces : spaces init_page_dir L (hw s) O D;
  vo_swap : swap_ok s;
  vo_nodup : NoDup (page_list s);
  vo_null : spages s !! 0 = None;
  vo_hand e : page_elem s = Some e → e ∈ page_list s;
  vo_listed p : p ∈ page_list s → ∃ x, spages s !! p = Some x ∧ kaddr x ≠ 0;
  vo_page p x : spages s !! p = Some x → page_ok s O D x;
  vo_apart p q x y : spages s !! p = Some x → spages s !! q = Some y → p ≠ q → apart x y;
  vo_map p x : spages s !! p = Some x → mapping x ≠ 0 → ∃ m, fmaps s !! mapping x = Some m ∧ mapping_ok s x m;
}.

(** ** Parts of the state *)
Lemma on_hw_run {A} (m : M mmu A) s a h : m (hw s) = Ret (a, h) → on_hw m s = Ret (a, set_hw h s).
Proof. unfold on_hw, zoom. by intros ->. Qed.
Lemma on_fs_run {A} (m : M F A) s a f : m (fs s) = Ret (a, f) → on_fs m s = Ret (a, set_fs f s).
Proof. unfold on_fs, zoom. by intros ->. Qed.
Lemma set_hw_id s : set_hw (hw s) s = s.
Proof. by destruct s. Qed.
Lemma get_page_run s p x : spages s !! p = Some x → get_page p s = Ret (x, s).
Proof. unfold get_page. by intros ->. Qed.
Lemma upd_page_run s p x f : spages s !! p = Some x → upd_page p f s = Ret (tt, set_spages (<[p := f x]> (spages s)) s).
Proof. intros H. unfold upd_page. by rewrite (bind_run _ _ _ _ _ (get_page_run s p x H)). Qed.
Lemma lock_run s : eviction_lock s = 1 → lock_eviction s = Ret (tt, set_eviction_lock 0 s).
Proof. intros H. unfold lock_eviction. rewrite bind_gets, H. reflexivity. Qed.
Lemma unlock_run s : eviction_lock s = 0 → unlock_eviction s = Ret (tt, set_eviction_lock 1 s).
Proof. intros H. unfold unlock_eviction. rewrite bind_gets, H. reflexivity. Qed.

(** ** Looking at the dirty and accessed bits *)

(** The fields but for [dirty] and [accessed]. *)
Definition core (x : suppl_page) : suppl_page := set_dirty false (set_accessed false x).

(** Flags have been copied from page tables to pages; the hand may have moved. *)
Definition latched (D : dirs) s s' : Prop :=
  ∃ sp h, s' = set_page_elem h (set_spages sp s) ∧ ∀ p,
    option_Forall2 (λ x x', core x' = core x ∧ modified (hw s) D x' = modified (hw s) D x ∧
      referenced (hw s) D x' = referenced (hw s) D x) (spages s !! p) (sp !! p).

Lemma latched_refl D s h : latched D s (set_page_elem h s).
Proof. exists (spages s), h. split; [by destruct s|]. intros p. destruct (spages s !! p); by constructor. Qed.

Lemma latched_trans D s s1 s2 : latched D s s1 → latched D s1 s2 → latched D s s2.
Proof.
  intros (sp & h & -> & H1) (sp2 & h2 & -> & H2). exists sp2, h2. split; [done|]. intros p.
  specialize (H1 p). specialize (H2 p). cbn in H2.
  destruct H1 as [x x' (E1 & E2 & E3)|]; inversion H2 as [? x2 (G1 & G2 & G3)|]; subst; constructor.
  split_and!; congruence.
Qed.

Lemma latched_page D s s' p x : latched D s s' → spages s !! p = Some x →
  ∃ x', spages s' !! p = Some x' ∧ core x' = core x ∧ modified (hw s) D x' = modified (hw s) D x ∧
    referenced (hw s) D x' = referenced (hw s) D x.
Proof.
  intros (sp & h & -> & H) Hx. specialize (H p). rewrite Hx in H. cbn. inversion H as [? x' Hx'|]; subst. eauto.
Qed.

Lemma latched_back D s s' p x' : latched D s s' → spages s' !! p = Some x' →
  ∃ x, spages s !! p = Some x ∧ core x' = core x.
Proof.
  intros (sp & h & -> & H) Hx. specialize (H p). cbn in Hx. rewrite Hx in H. inversion H as [x ? (Hc & _)|]; subst. eauto.
Qed.

Lemma core_fields x y : core x = core y →
  vaddr x = vaddr y ∧ kaddr x = kaddr y ∧ saddr x = saddr y ∧ pagedir x = pagedir y ∧ mapping x = mapping y ∧
  location x = location y.
Proof. unfold core. destruct x, y. simpl. by intros [= <- <- <- <- <- <-]. Qed.

(** Pages are as good as their fields but for the flags. *)
Lemma page_ok_core s O D x y : core x = core y → page_ok s O D y → page_ok s O D x.
Proof.
  intros (Ev & Ek & Es & Ep & Em & El)%core_fields [H1 H2 H3 H4 H5 H6].
  split; unfold entry in *; rewrite ?Ev, ?Ek, ?Es, ?Ep, ?El; done.
Qed.

Lemma apart_core x y x' y' : core x' = core x → core y' = core y → apart x y → apart x' y'.
Proof.
  intros (Ev & Ek & Es & Ep & _)%core_fields (Fv & Fk & Fs & Fp & _)%core_fields.
  unfold apart. by rewrite Ev, Ek, Es, Ep, Fv, Fk, Fs, Fp.
Qed.

Lemma latched_ok D s s' O : latched D s s' → vm_ok s O D → (∀ e, page_elem s' = Some e → e ∈ page_list s) → vm_ok s' O D.
Proof.
  intros Hl [H1 H2 H4 H3 H5 H6 H7 H8 H9] Hh. pose proof Hl as (sp & h & -> & Hn). split; try done.
  - by apply (swap_ok_same s).
  - specialize (Hn 0). rewrite H3 in Hn. by inversion Hn.
  - intros p Hp. destruct (H6 p Hp) as (x & Hx & Hk). destruct (latched_page _ _ _ _ _ Hl Hx) as (x' & Hx' & Hc & _).
    exists x'. split; [done|]. by destruct (core_fields _ _ Hc) as (_ & -> & _).
  - intros p x' Hx'. destruct (latched_back _ _ _ _ _ Hl Hx') as (x & Hx & Hc).
    destruct (page_ok_core s O D x' x Hc (H7 p x Hx)) as [A1 A2 A3 A4 A5 A6]. by split.
  - intros p q x' y' Hx' Hy' Hne. destruct (latched_back _ _ _ _ _ Hl Hx') as (x & Hx & Hc).
    destruct (latched_back _ _ _ _ _ Hl Hy') as (y & Hy & Hd). apply (apart_core x y); eauto.
  - intros p x' Hx' Hm. destruct (latched_back _ _ _ _ _ Hl Hx') as (x & Hx & Hc).
    destruct (core_fields _ _ Hc) as (Ev & _ & _ & _ & Em & _). rewrite Em in *.
    destruct (H9 p x Hx Hm) as (m & Hm' & [A1 A2 A3 A4 A5]). exists m. split; [done|]. split; rewrite ?Ev; done.
Qed.

Lemma latched_content D s s' p : latched D s s' → content s' p = content s p.
Proof.
  intros Hl. unfold content. destruct (spages s' !! p) as [x'|] eqn:Hx'.
  - destruct (latched_back _ _ _ _ _ Hl Hx') as (x & -> & Hc). destruct Hl as (sp & h & -> & _). cbn [mbind option_bind].
    destruct (core_fields _ _ Hc) as (_ & Ek & Es & _ & _ & El). unfold resident. by rewrite Ek, Es, El.
  - destruct (spages s !! p) as [x|] eqn:Hx; [|done]. destruct (latched_page _ _ _ _ _ Hl Hx) as (x' & ? & _). congruence.
Qed.

(** Assigning a flag its value. *)
Lemma latch_page D s p x x' : spages s !! p = Some x → core x' = core x → modified (hw s) D x' = modified (hw s) D x →
  referenced (hw s) D x' = referenced (hw s) D x → latched D s (set_spages (<[p := x']> (spages s)) s).
Proof.
  intros Hx H1 H2 H3. exists (<[p := x']> (spages s)), (page_elem s). split; [by destruct s|]. intros q.
  destruct (decide (q = p)) as [->|]; [rewrite lookup_insert_eq, Hx; by constructor|].
  rewrite lookup_insert_ne by done. destruct (spages s !! q); by constructor.
Qed.

Lemma latched_id D s : latched D s s.
Proof. pose proof (latched_refl D s (page_elem s)) as H. by destruct s. Qed.

Lemma page_dir_of s O D x : page_ok s O D x → pagedir x = 4096 * (pagedir x / 4096).
Proof. intros [[H _] _ _ _ _ _]. mlia. Qed.

Lemma suppl_page_dirty_ok s O D p x : vm_ok s O D → spages s !! p = Some x →
  ∃ s', suppl_page_dirty p s = Ret (modified (hw s) D x, s') ∧ latched D s s' ∧ page_elem s' = page_elem s.
Proof.
  intros Hok Hx. pose proof (vo_page _ _ _ Hok p x Hx) as Hp. unfold suppl_page_dirty.
  rewrite (bind_run _ _ _ _ _ (get_page_run s p x Hx)). unfold modified, resident.
  destruct (dirty x) eqn:Ed; [exists s; split; [done|split; [apply latched_id|done]]|].
  case_decide as Hk; [rewrite bool_decide_true by lia|rewrite bool_decide_false by lia; exists s; split; [done|split; [apply latched_id|done]]].
  pose proof (test_flag_ok _ _ (hw s) O D (pagedir x / 4096) (vaddr x) 6 (vo_spaces _ _ _ Hok)
    (proj2 (pg_dir _ _ _ _ Hp)) (proj1 (pg_vaddr _ _ _ _ Hp)) ltac:(by right)) as Hrun.
  rewrite <-(page_dir_of _ _ _ _ Hp) in Hrun. change (2 ^ 6) with PTE_D in Hrun.
  unfold pagedir_is_dirty. rewrite (bind_run _ _ _ _ _ (on_hw_run _ _ _ _ Hrun)), set_hw_id.
  rewrite (bind_run _ _ _ _ _ (upd_page_run s p x _ Hx)). eexists. split; [done|]. split; [|done].
  apply (latch_page D s p x _ Hx); [done| |done]. unfold modified, resident. cbn [dirty kaddr set_dirty].
  rewrite Ed, bool_decide_true by done. unfold entry, flag_of. cbn [pagedir vaddr set_dirty]. rewrite decide_False by lia. by destruct (e_dirty _).
Qed.

Lemma suppl_page_accessed_ok s O D p x : vm_ok s O D → spages s !! p = Some x →
  ∃ s', suppl_page_accessed p s = Ret (referenced (hw s) D x, s') ∧ latched D s s' ∧ page_elem s' = page_elem s.
Proof.
  intros Hok Hx. pose proof (vo_page _ _ _ Hok p x Hx) as Hp. unfold suppl_page_accessed.
  rewrite (bind_run _ _ _ _ _ (get_page_run s p x Hx)). unfold referenced, resident.
  destruct (accessed x) eqn:Ed; [exists s; split; [done|split; [apply latched_id|done]]|].
  case_decide as Hk; [rewrite bool_decide_true by lia|rewrite bool_decide_false by lia; exists s; split; [done|split; [apply latched_id|done]]].
  pose proof (test_flag_ok _ _ (hw s) O D (pagedir x / 4096) (vaddr x) 5 (vo_spaces _ _ _ Hok)
    (proj2 (pg_dir _ _ _ _ Hp)) (proj1 (pg_vaddr _ _ _ _ Hp)) ltac:(by left)) as Hrun.
  rewrite <-(page_dir_of _ _ _ _ Hp) in Hrun. change (2 ^ 5) with PTE_A in Hrun.
  unfold pagedir_is_accessed. rewrite (bind_run _ _ _ _ _ (on_hw_run _ _ _ _ Hrun)), set_hw_id.
  rewrite (bind_run _ _ _ _ _ (upd_page_run s p x _ Hx)). eexists. split; [done|]. split; [|done].
  apply (latch_page D s p x _ Hx); [done|done|]. unfold referenced, resident. cbn [accessed kaddr set_accessed].
  rewrite Ed, bool_decide_true by done. unfold entry, flag_of. cbn [pagedir vaddr set_accessed]. rewrite decide_True by lia. by destruct (e_accessed _).
Qed.

(** The lock is not part of the invariant. *)
Lemma vm_ok_lock s O D n : vm_ok s O D → vm_ok (set_eviction_lock n s) O D.
Proof.
  intros [H1 H2 H4 H3 H5 H6 H7 H8 H9]. split; try done; [by apply (swap_ok_same s)| |].
  - intros p x Hx. destruct (H7 p x Hx). by split.
  - intros p x Hx Hm. destruct (H9 p x Hx Hm) as (m & Hm' & [? ? ? ? ?]). exists m. split; [done|]. by split.
Qed.
End vm_laws.
