(* ===== verification/EvictLaws.v ===== *)
(** One page leaves the memory: what the parts of evict_page do to it. *)
From S2P Require Import Prelude Block Bitmap Palloc PallocSpec PageDir PageDirLaws Frames Vm Evict VmLaws.
Local Open Scope Z_scope.
Local Abbreviation dirs := (gmap Z (gmap Z Z)).

(** ** Lists of pages *)
Lemma next_of_split x l1 l2 : (x ∉ l1) → next_of x (l1 ++ x :: l2) = Some (head l2).
Proof.
  induction l1 as [|y l1 IH]; intros Hx; cbn [next_of app]; [by rewrite decide_True|].
  rewrite decide_False by set_solver. apply IH. set_solver.
Qed.

Lemma remove_from_split x l1 l2 : (x ∉ l1) → remove_from x (l1 ++ x :: l2) = Some (l1 ++ l2).
Proof.
  induction l1 as [|y l1 IH]; intros Hx; cbn [remove_from app]; [by rewrite decide_True|].
  rewrite decide_False, IH by set_solver. done.
Qed.

Lemma nodup_split {A} `{EqDecision A} (x : A) l : NoDup l → x ∈ l → ∃ l1 l2, l = l1 ++ x :: l2 ∧ (x ∉ l1) ∧ (x ∉ l2).
Proof.
  intros Hn (l1 & l2 & -> & Hx)%list_elem_of_split_l. exists l1, l2. split; [done|]. split; [done|].
  by apply NoDup_app in Hn as (_ & _ & [? _]%NoDup_cons).
Qed.

Section evict_laws.
Context {F : Type} `{!FileOps F} `{!FileLaws F} (init_page_dir : Z) (L : bool → area).
Implicit Types s t : vm F.
Local Abbreviation vm_ok := (vm_ok init_page_dir L).

Lemma next_page_run s e l1 l2 : page_list s = l1 ++ e :: l2 → (e ∉ l1) → next_page e s = Ret (head l2, s).
Proof. intros Hl He. unfold next_page. by rewrite bind_gets, Hl, next_of_split. Qed.

Lemma unlist_page_run s e l1 l2 : page_list s = l1 ++ e :: l2 → (e ∉ l1) →
  unlist_page e s = Ret (tt, set_page_list (l1 ++ l2) s).
Proof. intros Hl He. unfold unlist_page. by rewrite bind_gets, Hl, remove_from_split by done. Qed.

(** The frame [k] of the page of [x] has been given back, and its entry cleared. *)
Record unmapped (h h' : mmu) (O : gset Z) (D : dirs) (x : suppl_page) (k : Z) : Prop := {
  um_spaces : spaces init_page_dir L h' (O ∖ page_run k 1) D;
  um_cr3 : cr3 h' = cr3 h;
  um_entry : e_present (entry h' D x) = false;
  um_entries y : 0 ≤ vaddr y < PHYS_BASE → ¬ (pagedir y / 4096 = pagedir x / 4096 ∧ vaddr y / 4096 = vaddr x / 4096) →
    entry h' D y = entry h D y;
  um_memory a : a / 4096 ∈ O → a / 4096 ≠ k → ¬ table_page D (a / 4096) → memory h' a = memory h a;
}.


(** A page has a place in a directory. *)
Definition placed (D : dirs) (x : suppl_page) : Prop :=
  (pagedir x mod 4096 = 0 ∧ is_Some (D !! (pagedir x / 4096))) ∧ 0 ≤ vaddr x < PHYS_BASE ∧ vaddr x mod 4096 = 0.

Lemma page_ok_placed s O D x : page_ok L s O D x → placed D x.
Proof. by intros [A1 A2 _ _ _ _]. Qed.

(** The entry of [x] is cleared, its frame is given back. *)
Lemma unmap_run s O D x k (body : M (vm F) bool) :
  spaces init_page_dir L (hw s) O D → placed D x → kaddr x = 4096 * k → k ∈ O → in_area (L true) k →
  ∃ h, (on_hw (pagedir_clear_page init_page_dir (pagedir x) (vaddr x));;! on_hw (in_ram (palloc_free_page (kaddr x)));;! body) s =
    body (set_hw h s) ∧ unmapped (hw s) h O D x k.
Proof.
  intros Hs Hp Ek Hk Ha. destruct Hp as [[Hd1 Hd2] [Hv1 Hv2]].
  destruct (clear_page_ok init_page_dir L (hw s) O D (pagedir x / 4096) (vaddr x) Hs Hd2 Hv1 Hv2) as (h1 & Hrun1 & Hs1 & Hbe & [H1 H2]).
  replace (4096 * (pagedir x / 4096)) with (pagedir x) in Hrun1 by mlia. rewrite (bind_run _ _ _ _ _ (on_hw_run _ _ _ _ Hrun1)).
  destruct (free_frame init_page_dir L h1 O D k Hs1 Ha Hk) as (r & Hrun2 & Hs2 & He & Hb). rewrite <-Ek in Hrun2.
  assert (on_hw (in_ram (palloc_free_page (kaddr x))) (set_hw h1 s) = Ret (tt, set_hw (set_ram r h1) (set_hw h1 s))) as Hrun3
    by (by apply on_hw_run).
  rewrite (bind_run _ _ _ _ _ Hrun3). exists (set_ram r h1). split; [done|]. split.
  - done.
  - exact (be_cr3 _ _ _ _ _ _ Hbe).
  - unfold entry. by rewrite He, H1.
  - intros y Hy Hne. unfold entry. rewrite He, H2; [done|by apply user_page|done].
  - intros a HaO Hak Hat. change (memory (set_ram r h1) a) with (bytes r a). rewrite Hb. unfold filled.
    rewrite decide_False by mlia. by apply (be_memory _ _ _ _ _ _ Hbe).
Qed.

Lemma evict_run s O D p x k l1 l2 :
  spaces init_page_dir L (hw s) O D → placed D x → kaddr x = 4096 * k → k ∈ O → in_area (L true) k →
  spages s !! p = Some x → page_list s = l1 ++ p :: l2 → (p ∉ l1) → eviction_lock s = 0 →
  ∃ h, evict init_page_dir p s = Ret (true, set_eviction_lock 1 (set_page_list (l1 ++ l2) (set_page_elem (head l2)
      (set_hw h (set_spages (<[p := set_kaddr 0 x]> (spages s)) s))))) ∧ unmapped (hw s) h O D x k.
Proof.
  intros Hs Hp Ek Hk Ha Hx Hl Hpl Hlock. unfold evict. rewrite (bind_run _ _ _ _ _ (get_page_run s p x Hx)).
  rewrite (bind_run _ _ _ _ _ (upd_page_run s p x _ Hx)). set (s1 := set_spages _ s).
  match goal with |- context [bind (on_hw (pagedir_clear_page _ _ _)) (λ _, bind _ (λ _, ?b))] =>
    destruct (unmap_run s1 O D x k b Hs Hp Ek Hk Ha) as (h & Hrun & Hum) end.
  exists h. split; [|exact Hum]. rewrite Hrun.
  rewrite (bind_run _ _ _ _ _ (next_page_run (set_hw h s1) p l1 l2 Hl Hpl)), bind_modify.
  rewrite (bind_run _ _ _ _ _ (unlist_page_run (set_page_elem (head l2) (set_hw h s1)) p l1 l2 Hl Hpl)).
  erewrite bind_run; [|apply unlock_run; exact Hlock]. done.
Qed.

(** ** A page has left the memory *)

(** The page is now in the swap, in a slot that was free, or in its file. *)
Definition went (s t : vm F) (x x' : suppl_page) : Prop :=
  (location x' = PG_LOCATION_SWAP ∧ 0 ≤ saddr x' < swap_pages s ∧ used s (saddr x') = false ∧ used t (saddr x') = true ∧
     slot (swap_block t) (saddr x') = bytes_at (memory (hw s)) (kaddr x) 4096 ∧ fs t = fs s) ∨
  (location x' = PG_LOCATION_FILE ∧ saddr x' = SWAP_NO_PAGE).

Record left_memory (s t : vm F) (O : gset Z) (D : dirs) (p : Z) (x x' : suppl_page) (l1 l2 : list Z) (k : Z) : Prop := {
  lm_hw : unmapped (hw s) (hw t) O D x k;
  lm_list : page_list s = l1 ++ p :: l2 ∧ page_list t = l1 ++ l2;
  lm_hand : page_elem t = head l2;
  lm_pages : spages t = <[p := x']> (spages s);
  lm_maps : fmaps t = fmaps s ∧ threads t = threads s ∧ mallocs t = mallocs s;
  lm_kaddr : kaddr x = 4096 * k ∧ in_area (L true) k ∧ kaddr x' = 0;
  lm_same : vaddr x' = vaddr x ∧ pagedir x' = pagedir x ∧ mapping x' = mapping x;
  lm_swap : swap_ok t ∧ swap_pages t = swap_pages s;
  lm_used i : 0 ≤ i < swap_pages s → used s i = true → used t i = true;
  lm_slots i : 0 ≤ i < swap_pages s → used s i = true → slot (swap_block t) i = slot (swap_block s) i;
  lm_files f : opened (fs s) f → opened (fs t) f ∧ length (file_bytes (fs t) f) = length (file_bytes (fs s) f);
  lm_went : went s t x x';
}.

(** Bytes of a frame. *)
Lemma frame_bytes s h O D x k y j : vm_ok s O D → unmapped (hw s) h O D x k → in_area (L true) j → j ∈ O → j ≠ k →
  kaddr y = 4096 * j → bytes_at (memory h) (kaddr y) 4096 = bytes_at (memory (hw s)) (kaddr y) 4096.
Proof.
  intros Hok Hum Ha Hj Hne Ey. apply bytes_at_ext. intros a Har. assert (a / 4096 = j) as Ea by mlia.
  apply (um_memory _ _ _ _ _ _ Hum); rewrite Ea; [done|done|].
  apply (table_not_user init_page_dir L (hw s) O D j); [apply Hok|done].
Qed.

Lemma same_page_div a b : a mod 4096 = 0 → b mod 4096 = 0 → a / 4096 = b / 4096 → a = b.
Proof. intros. mlia. Qed.

Section left_memory.
Context (s t : vm F) (O : gset Z) (D : dirs) (p : Z) (x x' : suppl_page) (l1 l2 : list Z) (k : Z).
Context (Hok : vm_ok s O D) (Hx : spages s !! p = Some x) (Hleft : left_memory s t O D p x x' l1 l2 k).

Lemma left_other q y : q ≠ p → spages t !! q = Some y → spages s !! q = Some y ∧ entry (hw t) D y = entry (hw s) D y ∧
  apart y x ∧ page_ok L s O D y.
Proof using All.
  intros Hne Hy. rewrite (lm_pages _ _ _ _ _ _ _ _ _ _ Hleft), lookup_insert_ne in Hy by done. split; [done|].
  pose proof (vo_page _ _ _ _ _ Hok q y Hy) as Hp. pose proof (vo_page _ _ _ _ _ Hok p x Hx) as Hpx.
  pose proof (vo_apart _ _ _ _ _ Hok q p y x Hy Hx Hne) as Hap. split; [|done].
  apply (um_entries _ _ _ _ _ _ (lm_hw _ _ _ _ _ _ _ _ _ _ Hleft)); [by apply Hp|].
  intros [E1 E2]. apply Hap. destruct (pg_dir _ _ _ _ _ Hp), (pg_dir _ _ _ _ _ Hpx), (pg_vaddr _ _ _ _ _ Hp), (pg_vaddr _ _ _ _ _ Hpx).
  split; by apply same_page_div.
Qed.

Lemma left_other_ok q y : q ≠ p → spages t !! q = Some y → page_ok L t (O ∖ page_run k 1) D y.
Proof using All.
  intros Hne Hy. destruct (left_other q y Hne Hy) as (Hy' & He & Hap & [A1 A2 A3 A4 A5 A6]).
  destruct (lm_kaddr _ _ _ _ _ _ _ _ _ _ Hleft) as (Ek & Ha & _). split; rewrite ?He; try done.
  - intros Hk. destruct (A3 Hk) as (j & Ej & Hj & Haj & Hpr & Hfr). exists j. split_and!; try done.
    apply elem_of_difference. split; [done|]. rewrite elem_page_run. intros Hr. apply (proj1 Hap Hk). rewrite Ej, Ek. f_equal. lia.
  - intros Hs. destruct (A5 Hs) as (B1 & B2 & B3 & B4). rewrite (proj2 (lm_swap _ _ _ _ _ _ _ _ _ _ Hleft)).
    split_and!; try done; try lia. by apply (lm_used _ _ _ _ _ _ _ _ _ _ Hleft).
Qed.

Lemma left_ok : vm_ok t (O ∖ page_run k 1) D.
Proof using All.
  pose proof (vo_page _ _ _ _ _ Hok p x Hx) as Hpx. pose proof Hleft as [Hhw [Hl Hl'] Hhand Hpages [Hmaps _] (Ek & Ha & Ek') (Ev & Ep & Em) [Hsw Hsp] _ _ Hfs Hwent].
  assert (spages t !! p = Some x') as Hx' by (by rewrite Hpages, lookup_insert_eq).
  assert (kaddr x ≠ 0) as Hkx.
  { intros E. pose proof (po_range _ _ _ (ow_pool _ _ _ (sp_owns _ _ _ _ _ (vo_spaces _ _ _ _ _ Hok)) true)) as Hr.
    unfold in_area in Ha. lia. }
  assert (NoDup (l1 ++ p :: l2)) as Hnd by (rewrite <-Hl; apply Hok).
  assert (∀ q, q ∈ l1 ++ l2 → q ≠ p ∧ q ∈ page_list s) as Hrest.
  { intros q Hq. apply NoDup_app in Hnd as (_ & Hn1 & [Hn2 _]%NoDup_cons). rewrite Hl. split; [|set_solver].
    intros ->. apply elem_of_app in Hq as [Hq|Hq]; [|done]. apply (Hn1 p Hq). set_solver. }
  split.
  - apply Hhw.
  - done.
  - rewrite Hl'. apply NoDup_app in Hnd as (N1 & N2 & [_ N3]%NoDup_cons). apply NoDup_app. split_and!; [done|set_solver|done].
  - rewrite Hpages, lookup_insert_ne; [apply Hok|]. intros ->. pose proof (vo_null _ _ _ _ _ Hok). congruence.
  - intros e He. rewrite Hhand in He. rewrite Hl'. destruct l2; [done|]. injection He as ->. set_solver.
  - intros q Hq. rewrite Hl' in Hq. destruct (Hrest q Hq) as [Hne Hq']. rewrite Hpages, lookup_insert_ne by done.
    by apply (vo_listed _ _ _ _ _ Hok).
  - intros q y Hy. destruct (decide (q = p)) as [->|Hne]; [|by apply (left_other_ok q)].
    assert (y = x') as -> by congruence. destruct Hpx as [A1 A2 A3 A4 A5 A6]. split; rewrite ?Ev, ?Ep; try done.
    + intros _. unfold entry. rewrite Ev, Ep. apply Hhw.
    + intros Hs. rewrite Hsp. destruct Hwent as [(W1 & W2 & _ & W3 & _)|[_ W]]; [split_and!; done || lia|by rewrite W in Hs].
    + intros Hsw'. destruct Hwent as [(_ & W2 & _)|[W _]]; [unfold SWAP_NO_PAGE; lia|congruence].
  - assert (∀ q y, q ≠ p → spages t !! q = Some y → apart y x' ∧ apart x' y) as Hap.
    { intros q y Hne Hy. destruct (left_other q y Hne Hy) as (Hy' & _ & (B1 & B2 & B3) & Hpy). unfold apart. rewrite Ek', Ev, Ep.
      assert (saddr y ≠ SWAP_NO_PAGE → saddr y ≠ saddr x') as Hsa.
      { intros Hs E. destruct (pg_slot _ _ _ _ _ Hpy Hs) as (_ & _ & _ & U). rewrite E in U, Hs.
        destruct Hwent as [(_ & _ & W & _)|[_ W]]; congruence. }
      split; split_and!; try done; try (intros; congruence).
      - intros Hs E. apply Hsa; congruence.
      - intros [E1 E2]. by apply B3. }
    intros q r y z Hy Hz Hne. destruct (decide (q = p)) as [->|Hq]; [|destruct (decide (r = p)) as [->|Hr]].
    + assert (y = x') as -> by congruence. by apply (Hap r z).
    + assert (z = x') as -> by congruence. by apply (Hap q y).
    + destruct (left_other q y Hq Hy) as [Hy' _], (left_other r z Hr Hz) as [Hz' _].
      by apply (vo_apart _ _ _ _ _ Hok q r).
  - intros q y Hy Hm. assert (∃ z, spages s !! q = Some z ∧ mapping y = mapping z ∧ vaddr y = vaddr z) as (z & Hz & Emz & Evz).
    { destruct (decide (q = p)) as [->|Hne]; [exists x; assert (y = x') as -> by congruence; done|].
      destruct (left_other q y Hne Hy) as [? _]. by exists y. }
    rewrite Emz, Hmaps in *. destruct (vo_map _ _ _ _ _ Hok q z Hz Hm) as (m & Hm' & [[f (B1 & B2 & B3)] B4 B5 B6 B7]).
    exists m. split; [done|]. destruct (Hfs f B2) as [Ho' Hlen]. split; rewrite ?Evz; try done.
    exists f. by rewrite Hlen.
Qed.

Lemma left_content q : q ≠ p → content t q = content s q.
Proof using All.
  intros Hne. unfold content. rewrite (lm_pages _ _ _ _ _ _ _ _ _ _ Hleft), lookup_insert_ne by done.
  destruct (spages s !! q) as [y|] eqn:Hy; [|done]. cbn [mbind option_bind].
  assert (spages t !! q = Some y) as Hy' by (by rewrite (lm_pages _ _ _ _ _ _ _ _ _ _ Hleft), lookup_insert_ne by done).
  destruct (left_other q y Hne Hy') as (_ & _ & Hap & [_ _ A3 _ A5 A6]). unfold resident. case_bool_decide as Hk.
  - destruct (A3 Hk) as (j & Ej & Hj & Haj & _). f_equal.
    apply (frame_bytes s (hw t) O D x k y j Hok (lm_hw _ _ _ _ _ _ _ _ _ _ Hleft)); try done. intros ->.
    destruct (lm_kaddr _ _ _ _ _ _ _ _ _ _ Hleft) as (Ek & _). apply (proj1 Hap Hk). congruence.
  - case_decide as Hl; [|done]. f_equal. destruct (A5 (A6 Hl)) as (_ & _ & ? & ?). by apply (lm_slots _ _ _ _ _ _ _ _ _ _ Hleft).
Qed.
End left_memory.

(** ** Where a page goes *)

(** How many bytes of the page belong to the file. *)
Definition in_file (m : file_mapping) (x : suppl_page) : Z :=
  Z.max 0 (Z.min 4096 (file_size m - offset m - (vaddr x - start_vaddr m))).
Definition to_file s (x : suppl_page) (modified : bool) : bool :=
  bool_decide (mapping x ≠ 0) &&
  match fmaps s !! mapping x with Some m => (negb modified || fl_writable m) && writable m | None => false end.

Lemma mapping_is_ok s O D p x (test : file_mapping → bool) : vm_ok s O D → spages s !! p = Some x →
  mapping_is test x s = Ret (bool_decide (mapping x ≠ 0) && match fmaps s !! mapping x with Some m => test m | None => false end, s).
Proof.
  intros Hok Hx. unfold mapping_is. case_decide as Hm; [|by rewrite bool_decide_false by lia].
  rewrite bool_decide_true by done. destruct (vo_map _ _ _ _ _ Hok p x Hx Hm) as (m & Hm' & _).
  unfold get_fmap, bind. by rewrite Hm'.
Qed.

Lemma listed_frame s O D p x : vm_ok s O D → p ∈ page_list s → spages s !! p = Some x →
  ∃ k l1 l2, kaddr x = 4096 * k ∧ k ∈ O ∧ in_area (L true) k ∧ kaddr x ≠ 0 ∧ page_list s = l1 ++ p :: l2 ∧ (p ∉ l1) ∧
    saddr x = SWAP_NO_PAGE.
Proof.
  intros Hok Hp Hx. destruct (vo_listed _ _ _ _ _ Hok p Hp) as (y & Hy & Hk). assert (y = x) as -> by congruence.
  pose proof (vo_page _ _ _ _ _ Hok p x Hx) as [_ _ A3 _ A5 _]. destruct (A3 Hk) as (k & Ek & Hko & Ha & _).
  destruct (nodup_split p (page_list s)) as (l1 & l2 & Hl & H1 & _); [apply Hok|done|].
  exists k, l1, l2. split_and!; try done. destruct (decide (saddr x = SWAP_NO_PAGE)) as [|Hs]; [done|]. by destruct (A5 Hs).
Qed.

(** Marking a page as one that is in its file, and removing it. *)
Lemma file_out_ok s O D p x : vm_ok s O D → eviction_lock s = 0 → p ∈ page_list s → spages s !! p = Some x →
  ∃ t x' l1 l2 k, (upd_page p (set_location PG_LOCATION_FILE);;! evict init_page_dir p) s = Ret (true, t) ∧
    left_memory s t O D p x x' l1 l2 k ∧ location x' = PG_LOCATION_FILE ∧ fs t = fs s ∧ eviction_lock t = 1.
Proof.
  intros Hok Hlock Hp Hx. destruct (listed_frame s O D p x Hok Hp Hx) as (k & l1 & l2 & Ek & Hk & Ha & Hk0 & Hl & H1 & Hsa).
  rewrite (bind_run _ _ _ _ _ (upd_page_run s p x _ Hx)). set (x1 := set_location PG_LOCATION_FILE x).
  set (s1 := set_spages _ s). pose proof (vo_page _ _ _ _ _ Hok p x Hx) as Hpx.
  destruct (evict_run s1 O D p x1 k l1 l2) as (h & Hrun & Hum); try done; [apply Hok|by apply (page_ok_placed s O) in Hpx|by apply lookup_insert_eq|].
  eexists _, (set_kaddr 0 x1), l1, l2, k. split; [exact Hrun|]. split; [|done]. destruct Hum as [B1 B2 B3 B4 B5].
  split; try done; [cbn; by rewrite insert_insert_eq|split; [by apply (swap_ok_same s), Hok|done]|by right].
Qed.

(** Moving a page to the swap. *)
Lemma swap_out_ok s O D p x : vm_ok s O D → eviction_lock s = 0 → p ∈ page_list s → spages s !! p = Some x →
  let swap_out := (let! ok := move_to_swap p in if (ok : bool) then evict init_page_dir p else ret false) s in
  (∃ t x' l1 l2 k, swap_out = Ret (true, t) ∧
     left_memory s t O D p x x' l1 l2 k ∧ location x' = PG_LOCATION_SWAP ∧ eviction_lock t = 1) ∨
  (swap_out = Ret (false, set_eviction_lock 1 s) ∧ ∀ i, 0 ≤ i < swap_pages s → used s i = true).
Proof.
  intros Hok Hlock Hp Hx swap_out. unfold swap_out, move_to_swap. rewrite bind_assoc.
  destruct (listed_frame s O D p x Hok Hp Hx) as (k & l1 & l2 & Ek & Hk & Ha & Hk0 & Hl & H1 & Hsa).
  pose proof (vo_swap _ _ _ _ _ Hok) as Hsw. pose proof (swap_pages_range s Hsw) as Hr.
  destruct (swap_get_ok s Hsw) as [(i & b & Hrun & Hi & Hu & _ & Hwf & Hc & Hb)|[Hrun Hall]].
  2: { right. rewrite (bind_run _ _ _ _ _ Hrun), decide_True by done. split; [|done].
       unfold bind. by rewrite unlock_run. }
  left. rewrite (bind_run _ _ _ _ _ Hrun), decide_False by (unfold SWAP_NO_PAGE; lia).
  set (s1 := set_alloc_map b s). assert (swap_ok s1) as Hsw1.
  { destruct Hsw as [A1 A2 A3 A4]. split; [done|done| |done]. cbn. rewrite Hc. done. }
  rewrite bind_assoc, (bind_run _ _ _ _ _ (get_page_run s1 p x Hx)), bind_assoc.
  destruct (store_page_ok s1 i (kaddr x) Hsw1) as (b' & Hrun2 & Hbw & Hbs & Hbb & Hslot & Hslots).
  { apply (sp_bytes _ _ _ _ _ (vo_spaces _ _ _ _ _ Hok)). }
  { by unfold swap_pages; cbn; rewrite Hc. }
  { unfold used; cbn. by rewrite Hb, decide_True. }
  rewrite (bind_run _ _ _ _ _ Hrun2), bind_assoc. set (s2 := set_swap_block b' s1).
  rewrite (bind_run _ _ _ _ _ (upd_page_run s2 p x _ Hx)), bind_ret. set (x1 := set_location _ _). set (s3 := set_spages _ s2).
  pose proof (vo_page _ _ _ _ _ Hok p x Hx) as Hpx.
  destruct (evict_run s3 O D p x1 k l1 l2) as (h & Hrun3 & Hum); try done; [apply Hok|by apply (page_ok_placed s O) in Hpx|by apply lookup_insert_eq|].
  eexists _, (set_kaddr 0 x1), l1, l2, k. split; [exact Hrun3|]. split; [|done].
  assert (swap_ok s3) as Hsw3. { destruct Hsw1 as [A1 A2 A3 A4]. split; [done|done| |done]. cbn in *. by rewrite Hbs. }
  destruct Hum as [B1 B2 B3 B4 B5]. split; try done.
  - cbn. by rewrite insert_insert_eq.
  - split; [by apply (swap_ok_same s3)|done].
  - intros j Hj Huj. unfold used in *. cbn. rewrite Hb by done. by case_decide.
  - intros j Hj Huj. cbn. rewrite Hslots; [done|lia|]. intros ->. unfold used in *. congruence.
  - left. cbn. split_and!; try done; try lia. unfold used in *. cbn. by rewrite Hb, decide_True.
Qed.

(** ** Writing a page back to its file *)
Lemma pg_round_down_page k : 0 ≤ k < 1048576 → pg_round_down (4096 * k) = 4096 * k.
Proof.
  intros Hk. unfold pg_round_down. change (not32 PGMASK) with PTE_ADDR. rewrite land_page by lia. mlia.
Qed.

(** The file holds the part of the page that belongs to it. *)
Definition written_back (A B : F) (m : file_mapping) (x : suppl_page) (bytes : list Z) : Prop :=
  (∀ g, opened A g → opened B g ∧ length (file_bytes B g) = length (file_bytes A g)) ∧
  ∃ f, fl m = Some f ∧ opened A f ∧
    file_bytes B f = splice (file_bytes A f) (Z.to_nat (vaddr x - start_vaddr m)) (take (Z.to_nat (in_file m x)) bytes).

Lemma take_bytes_at a n mem : 0 ≤ n ≤ 4096 → take (Z.to_nat n) (bytes_at mem a 4096) = bytes_at mem a n.
Proof.
  intros Hn. replace 4096 with (n + (4096 - n)) by lia. rewrite bytes_at_app by lia. apply take_app_length'.
  by rewrite length_bytes_at.
Qed.

Lemma write_back_ok s O D p x m : vm_ok s O D → p ∈ page_list s → spages s !! p = Some x →
  mapping x ≠ 0 → fmaps s !! mapping x = Some m → fl_writable m = true → modified (hw s) D x = true →
  ∃ b s1 A, load_to_file has_kpage p true s = Ret (b, set_fs A s1) ∧ latched D s s1 ∧ page_elem s1 = page_elem s ∧
    written_back (fs s) A m x (bytes_at (memory (hw s)) (kaddr x) 4096).
Proof.
  intros Hok Hp Hx Hmx Hm Hw Hmod. unfold load_to_file.
  rewrite decide_False by (intros ->; pose proof (vo_null _ _ _ _ _ Hok); congruence).
  rewrite (bind_run _ _ _ _ _ (get_page_run s p x Hx)), decide_False by done.
  assert (get_fmap (mapping x) s = Ret (m, s)) as Hgm by (unfold get_fmap; by rewrite Hm).
  rewrite (bind_run _ _ _ _ _ Hgm).
  destruct (vo_map _ _ _ _ _ Hok p x Hx Hmx) as (m' & Hm' & [(f & Hf & Hof & Hlen) Hrange Hstart Hnear Hend]).
  assert (m' = m) as -> by congruence. rewrite Hf.
  destruct (suppl_page_dirty_ok _ _ s O D p x Hok Hx) as (s1 & Hrun & Hl & He). rewrite (bind_run _ _ _ _ _ Hrun), Hmod, Hw.
  cbn [negb]. destruct (latched_page D s s1 p x Hl Hx) as (x1 & Hx1 & Hc & _).
  destruct (core_fields _ _ Hc) as (Ev & Ek & _). destruct (listed_frame s O D p x Hok Hp Hx) as (k & _ & _ & Ek' & _ & Ha & Hk0 & _).
  unfold has_kpage at 1. rewrite bind_assoc, (bind_run _ _ _ _ _ (get_page_run s1 p x1 Hx1)), Ek, bool_decide_true, bind_ret by done.
  cbn [negb]. destruct (vo_page _ _ _ _ _ Hok p x Hx) as [_ [Hv Hal] _ _ _ _]. change PHYS_BASE with 3221225472 in *.
  change PAGE_SIZE with 4096. rewrite (decide_False (P := vaddr x < start_vaddr m)) by lia.
  rewrite (u32_small (vaddr x + 4096)) by mlia. rewrite (u32_small (start_vaddr m + file_size m - offset m)) by lia.
  set (e := if decide (vaddr x + 4096 > _) then _ else _). set (n := in_file m x).
  assert (n = Z.max 0 (e - vaddr x)) as En. { unfold n, in_file, e. case_decide; lia. }
  assert (0 ≤ n ≤ 4096) as Hn by (unfold n, in_file; lia).
  pose proof (po_range _ _ _ (ow_pool _ _ _ (sp_owns _ _ _ _ _ (vo_spaces _ _ _ _ _ Hok)) true)) as Hr. unfold in_area in Ha.
  assert (fs s1 = fs s) as Efs by (by destruct Hl as (? & ? & -> & _)).
  assert (memory (hw s1) = memory (hw s)) as Ehw by (by destruct Hl as (? & ? & -> & _)).
  case_decide as Hlt.
  - assert (n = e - vaddr x) as En' by lia. rewrite !s32_small by lia. rewrite <-En'.
    destruct (seek_law (fs s) f (vaddr x - start_vaddr m) Hof ltac:(lia)) as (A & Hs1 & HA & Hpos). rewrite <-Efs in Hs1.
    rewrite (bind_run _ _ _ _ _ (on_fs_run _ _ _ _ Hs1)).
    rewrite (bind_run _ _ _ _ _ (get_page_run (set_fs A s1) p x1 Hx1)). unfold read_kernel. rewrite bind_gets. cbn [hw set_fs].
    rewrite Ek, Ek', Ev, pg_round_down_page, Ehw by lia.
    replace (4096 * k + (vaddr x - vaddr x)) with (4096 * k) by lia. set (buf := bytes_at _ _ n).
    assert (Z.of_nat (length buf) = n) as Hbl by (unfold buf; rewrite length_bytes_at; lia).
    destruct (HA f Hof) as [HofA HbA].
    destruct (write_law A f buf HofA) as (B & Hs2 & HB & HbB); [lia|apply bytes_at_bytes; rewrite <-Ehw, Ehw; apply Hok| |].
    { rewrite Hpos, HbA. unfold n, in_file in *. lia. }
    rewrite Hbl in Hs2. rewrite (bind_run _ _ _ _ _ (on_fs_run _ (set_fs A s1) _ _ Hs2)), bind_ret.
    eexists _, s1, B. split; [done|]. split; [done|]. split; [done|]. split.
    + intros g Hg. destruct (HA g Hg) as [G1 G2], (HB g) as [G3 G4]; [done|]. by rewrite G4, G2.
    + exists f. split; [done|]. split; [done|]. rewrite HbB, Hpos, HbA. fold n. by rewrite take_bytes_at by lia.
  - rewrite bind_ret. eexists _, s1, (fs s). split; [rewrite <-Efs; by destruct s1|]. split; [done|]. split; [done|].
    split; [done|]. exists f. split; [done|]. split; [done|]. fold n. assert (Z.to_nat n = 0%nat) as -> by lia.
    by rewrite take_0, splice_nil.
Qed.

(** ** A page is evicted *)

(** The page [v], of which [x] was known, is out of memory: in its file if
    [file], in the swap otherwise. *)
Record evicted s t (O : gset Z) (D : dirs) (v : Z) (x : suppl_page) (file : bool) : Prop := {
  ed_frame : ∃ k, kaddr x = 4096 * k ∧ in_area (L true) k ∧ k ∈ O ∧ vm_ok t (O ∖ page_run k 1) D;
  ed_lock : eviction_lock t = 1;
  ed_list : ∃ l1 l2, page_list s = l1 ++ v :: l2 ∧ page_list t = l1 ++ l2;
  ed_page : ∃ x', spages t !! v = Some x' ∧ kaddr x' = 0 ∧ vaddr x' = vaddr x ∧ pagedir x' = pagedir x ∧
    mapping x' = mapping x ∧ location x' = (if file then PG_LOCATION_FILE else PG_LOCATION_SWAP);
  ed_others q : q ≠ v → content t q = content s q ∧ option_Forall2 (λ y y', core y' = core y) (spages s !! q) (spages t !! q);
  ed_entries y : 0 ≤ vaddr y < PHYS_BASE → ¬ (pagedir y / 4096 = pagedir x / 4096 ∧ vaddr y / 4096 = vaddr x / 4096) →
    entry (hw t) D y = entry (hw s) D y;
  ed_swapped : file = false → content t v = content s v ∧ fs t = fs s;
  ed_rest : fmaps t = fmaps s ∧ threads t = threads s ∧ mallocs t = mallocs s ∧ cr3 (hw t) = cr3 (hw s);
}.

Lemma left_evicted s O D p x t x' l1 l2 k (file : bool) : vm_ok s O D → spages s !! p = Some x → kaddr x ≠ 0 → k ∈ O →
  left_memory s t O D p x x' l1 l2 k → eviction_lock t = 1 →
  location x' = (if file then PG_LOCATION_FILE else PG_LOCATION_SWAP) → (file = false → fs t = fs s) →
  evicted s t O D p x file.
Proof.
  intros Hok Hx Hk0 Hk Hleft Hlock Hloc Hfs. pose proof Hleft as [Hhw Hl Hhand Hpages Hmaps (Ek & Ha & Ek') (Ev & Ep & Em) Hsw _ _ _ Hwent].
  split; try done.
  - exists k. split_and!; try done. by apply (left_ok s t O D p x x' l1 l2 k).
  - by exists l1, l2.
  - exists x'. by rewrite Hpages, lookup_insert_eq.
  - intros q Hq. split; [by apply (left_content s t O D p x x' l1 l2 k)|]. rewrite Hpages, lookup_insert_ne by done.
    destruct (spages s !! q); by constructor.
  - apply Hhw.
  - intros ->. split; [|by apply Hfs]. unfold content. rewrite Hpages, lookup_insert_eq, Hx. cbn [mbind option_bind].
    unfold resident. rewrite Ek', (bool_decide_false (0 ≠ 0)), (bool_decide_true (kaddr x ≠ 0)), decide_True by (done || lia). f_equal.
    destruct Hwent as [(_ & _ & _ & _ & W & _)|[W _]]; [done|congruence].
  - destruct Hmaps as (? & ? & ?). split_and!; try done. apply Hhw.
Qed.

(** Looking at flags first changes nothing. *)
Lemma evicted_latched s s1 t O D v x x1 (file : bool) : latched D s s1 → core x1 = core x → evicted s1 t O D v x1 file → evicted s t O D v x file.
Proof.
  intros Hl (Ev & Ek & _ & Ep & Em & _)%core_fields [H1 H2 H3 H4 H5 H8 H6 H7]. pose proof Hl as (sp & h & -> & Hsp).
  split; rewrite <-?Ek, <-?Ev, <-?Ep, <-?Em; try done.
  - intros q Hq. destruct (H5 q Hq) as [C1 C2]. split; [by rewrite C1; apply (latched_content D)|].
    specialize (Hsp q). cbn in C2. destruct Hsp as [y y' (E & _)|]; inversion C2; subst; constructor. congruence.
  - intros Hf. destruct (H6 Hf) as [C1 C2]. split; [by rewrite C1; apply (latched_content D)|done].
Qed.

Definition evict_by (b : bool) (p : Z) : M (vm F) bool :=
  if b then evict_modified init_page_dir p else evict_not_modified init_page_dir p.

Lemma set_fs_ok s O D A : vm_ok s O D →
  (∀ g, opened (fs s) g → opened A g ∧ length (file_bytes A g) = length (file_bytes (fs s) g)) → vm_ok (set_fs A s) O D.
Proof.
  intros [H1 H2 H4 H3 H5 H6 H7 H8 H9] HA. split; try done; [by apply (swap_ok_same s)| |].
  - intros p x Hx. destruct (H7 p x Hx). by split.
  - intros p x Hx Hm. destruct (H9 p x Hx Hm) as (m & Hm' & [(f & B1 & B2 & B3) B4 B5 B6 B7]). exists m. split; [done|].
    split; try done. exists f. cbn [fs set_fs]. destruct (HA f B2) as [? ->]. done.
Qed.

(** Eviction succeeds, or the swap is full. The file has what was changed. *)
Lemma evict_by_ok s O D p x b : vm_ok s O D → eviction_lock s = 0 → p ∈ page_list s → spages s !! p = Some x →
  (b = true → modified (hw s) D x = true) → page_elem s = Some p →
  let file := to_file s x b in
  (∃ t, evict_by b p s = Ret (true, t) ∧ evicted s t O D p x file ∧
     if file then
       if b then ∃ m, fmaps s !! mapping x = Some m ∧ written_back (fs s) (fs t) m x (bytes_at (memory (hw s)) (kaddr x) 4096)
       else fs t = fs s
     else True) ∨
  (file = false ∧ evict_by b p s = Ret (false, set_eviction_lock 1 s) ∧ ∀ i, 0 ≤ i < swap_pages s → used s i = true).
Proof.
  intros Hok Hlock Hp Hx Hb Hhand file.
  destruct (listed_frame s O D p x Hok Hp Hx) as (k0 & _ & _ & Ek0 & Hk0 & _ & Hne & _).
  assert (evict_by b p s = (if file then (if b then load_to_file has_kpage p true;;! ret tt else ret tt);;!
      (upd_page p (set_location PG_LOCATION_FILE);;! evict init_page_dir p)
    else let! ok := move_to_swap p in if (ok : bool) then evict init_page_dir p else ret false) s) as ->.
  { unfold evict_by, evict_modified, evict_not_modified. destruct b.
    - rewrite (bind_run _ _ _ _ _ (get_page_run s p x Hx)), (bind_run _ _ _ _ _ (mapping_is_ok s O D p x _ Hok Hx)).
      unfold file, to_file. cbn [negb orb]. destruct (_ && _); [|done].
      unfold bind. by destruct (load_to_file has_kpage p true s) as [[? ?]|].
    - rewrite (bind_run _ _ _ _ _ (get_page_run s p x Hx)), (bind_run _ _ _ _ _ (mapping_is_ok s O D p x _ Hok Hx)).
      unfold file, to_file. by destruct (_ && _). }
  destruct file eqn:Efile.
  - left. unfold file, to_file in Efile. apply andb_true_iff in Efile as [Hmx%bool_decide_eq_true Hm].
    destruct (fmaps s !! mapping x) as [m|] eqn:Em; [|done]. apply andb_true_iff in Hm as [Hflw Hmw].
    destruct b.
    + cbn [negb orb] in Hflw.
      destruct (write_back_ok s O D p x m Hok Hp Hx Hmx Em Hflw (Hb eq_refl)) as (r & s1 & A & Hrun & Hl & He & Hwb).
      rewrite bind_assoc, (bind_run _ _ _ _ _ Hrun), bind_ret.
      assert (vm_ok s1 O D) as Hok1.
      { apply (latched_ok _ _ D s s1 O Hl Hok). intros e. rewrite He. apply Hok. }
      assert (fs s1 = fs s) as Efs by (by destruct Hl as (? & ? & -> & _)).
      assert (vm_ok (set_fs A s1) O D) as Hok2 by (apply set_fs_ok; [done|rewrite Efs; apply Hwb]).
      destruct (latched_page D s s1 p x Hl Hx) as (x1 & Hx1 & Hc & _). pose proof (core_fields _ _ Hc) as (_ & Ekx & _).
      assert (page_list s1 = page_list s) as Epl by (by destruct Hl as (? & ? & -> & _)).
      assert (eviction_lock s1 = 0) as Elk by (destruct Hl as (? & ? & -> & _); done).
      destruct (file_out_ok (set_fs A s1) O D p x1 Hok2 Elk) as (t & x' & l1 & l2 & k & Hrun2 & Hleft & Hloc & Hfs & Hlk);
        [cbn; by rewrite Epl|done|].
      exists t. split; [exact Hrun2|]. split.
      * apply (evicted_latched s s1 t O D p x x1 true Hl Hc).
        assert (k = k0) as -> by (destruct (lm_kaddr _ _ _ _ _ _ _ _ _ _ Hleft) as (? & _); lia).
        destruct (left_evicted (set_fs A s1) O D p x1 t x' l1 l2 k0 true Hok2 Hx1) as [E1 E2 E3 E4 E5 E8 E6 E7]; try done; try (by rewrite Ekx).
      * exists m. split; [done|]. by rewrite Hfs.
    + destruct (file_out_ok s O D p x Hok Hlock Hp Hx) as (t & x' & l1 & l2 & k & Hrun2 & Hleft & Hloc & Hfs & Hlk).
      exists t. rewrite bind_ret. split; [exact Hrun2|]. split; [|done].
      assert (k = k0) as -> by (destruct (lm_kaddr _ _ _ _ _ _ _ _ _ _ Hleft) as (? & _); lia).
      by apply (left_evicted s O D p x t x' l1 l2 k0 true).
  - destruct (swap_out_ok s O D p x Hok Hlock Hp Hx) as [(t & x' & l1 & l2 & k & Hrun2 & Hleft & Hloc & Hlk)|[Hrun2 Hall]].
    + left. exists t. split; [exact Hrun2|]. split; [|done].
      assert (k = k0) as -> by (destruct (lm_kaddr _ _ _ _ _ _ _ _ _ _ Hleft) as (? & _); lia).
      apply (left_evicted s O D p x t x' l1 l2 k0 false); try done. intros _.
      destruct (lm_went _ _ _ _ _ _ _ _ _ _ Hleft) as [(_ & _ & _ & _ & _ & W)|[W _]]; [done|congruence].
    + right. done.
Qed.
End evict_laws.
