(* ===== verification/Clock.v ===== *)
(** Which page is evicted, and that eviction ends and loses nothing: evict_page of
    vm/vm_util.c. *)
From S2P Require Import Prelude Block Bitmap Palloc PallocSpec PageDir PageDirLaws Frames Vm Evict VmLaws EvictLaws.
Local Open Scope Z_scope.
Local Abbreviation dirs := (gmap Z (gmap Z Z)).

(** ** Going round a list *)

(** The element after [e], cyclically. *)
Definition succ (l : list Z) (e : Z) : Z :=
  match next_of e l with Some (Some n) => n | _ => default 0 (head l) end.

Lemma succ_rotated l1 l2 h pre e rest : NoDup (l1 ++ h :: l2) → h :: l2 ++ l1 = pre ++ e :: rest →
  succ (l1 ++ h :: l2) e = match rest with [] => h | e' :: _ => e' end.
Proof.
  intros Hnd E. unfold succ. change (h :: l2 ++ l1) with ((h :: l2) ++ l1) in E.
  assert (∀ k1 k2, l1 ++ h :: l2 = k1 ++ e :: k2 → next_of e (l1 ++ h :: l2) = Some (head k2)) as Hnext.
  { intros k1 k2 Ek. rewrite Ek in *. apply next_of_split. apply NoDup_app in Hnd as (_ & Hn & _). intros Hin. apply (Hn e Hin). set_solver. }
  assert (∀ k, l1 = k ++ e :: rest → match next_of e (l1 ++ h :: l2) with Some (Some n) => n | _ => default 0 (head (l1 ++ h :: l2)) end =
    match rest with [] => h | e' :: _ => e' end) as HB.
  { intros k Ek. rewrite (Hnext k (rest ++ h :: l2)) by (by rewrite Ek, <-app_assoc). by destruct rest. }
  apply app_eq_inv in E as [(k & E1 & E2)|(k & E1 & E2)].
  - destruct k as [|e0 r1]; [by apply (HB [])|]. cbn [app] in E2. injection E2 as <- ->.
    rewrite (Hnext (l1 ++ pre) r1) by (by rewrite E1, <-app_assoc). destruct r1 as [|b r1]; [|done]. cbn [head app].
    destruct l1; [|done]. destruct pre; injection E1 as ->; done.
  - by apply (HB k).
Qed.

Lemma rotated_nodup {A} (l1 l2 : list A) h : NoDup (l1 ++ h :: l2) → NoDup (h :: l2 ++ l1).
Proof. intros H. change (h :: l2 ++ l1) with ((h :: l2) ++ l1). by rewrite (comm (++)). Qed.

Section clock.
Context {F : Type} `{!FileOps F} `{!FileLaws F} (init_page_dir : Z) (L : bool → area).
Implicit Types s t : vm F.
Local Abbreviation vm_ok := (vm_ok init_page_dir L).

(** ** The choice *)

(** The pages in memory, from the hand on. *)
Definition clock_order s : list Z :=
  let l := page_list s in
  match page_elem s with
  | Some h => match list_find (.= h) l with Some (i, _) => drop i l ++ take i l | None => l end
  | None => l
  end.

Definition is_modified (D : dirs) s (q : Z) : bool :=
  match spages s !! q with Some x => modified (hw s) D x | None => false end.
Definition is_referenced (D : dirs) s (q : Z) : bool :=
  match spages s !! q with Some x => referenced (hw s) D x | None => false end.

(** The first page that was neither used nor changed; if there is none the first
    that was not used; the first that was not changed; the first. *)
Definition victim (D : dirs) s : option Z :=
  let l := clock_order s in
  match List.find (λ q, negb (is_referenced D s q) && Bool.eqb (is_modified D s q) false) l with
  | Some v => Some v
  | None => match List.find (λ q, negb (is_referenced D s q) && Bool.eqb (is_modified D s q) true) l with
  | Some v => Some v
  | None => match List.find (λ q, negb (is_modified D s q)) l with
  | Some v => Some v
  | None => head l
  end end end.

Lemma clock_order_split s h l1 l2 : page_list s = l1 ++ h :: l2 → (h ∉ l1) → page_elem s = Some h → clock_order s = h :: l2 ++ l1.
Proof.
  intros Hl Hh Hhand. unfold clock_order. rewrite Hhand, Hl.
  assert (list_find (.= h) (l1 ++ h :: l2) = Some (length l1, h)) as ->.
  { apply list_find_Some. split_and!; [by rewrite list_lookup_middle|done|]. intros j y Hy Hlt ->.
    rewrite lookup_app_l in Hy by lia. apply Hh. by eapply list_elem_of_lookup_2. }
  by rewrite drop_app_length, take_app_length.
Qed.

Lemma latched_flags D s s' q : latched D s s' → is_modified D s' q = is_modified D s q ∧ is_referenced D s' q = is_referenced D s q.
Proof.
  intros (sp & h & -> & H). specialize (H q). unfold is_modified, is_referenced. cbn [spages hw set_page_elem set_spages].
  by destruct H as [x x' (_ & -> & ->)|].
Qed.

(** ** The loops *)
Lemma next_hand_run s e : NoDup (page_list s) → e ∈ page_list s →
  next_hand e s = Ret (succ (page_list s) e, set_page_elem (Some (succ (page_list s) e)) s).
Proof.
  intros Hnd (l1 & l2 & Hl & He & _)%(nodup_split e); [|done]. unfold next_hand, succ.
  rewrite (bind_run _ _ _ _ _ (next_page_run s e l1 l2 Hl He)), bind_gets, Hl, next_of_split by done.
  destruct l2 as [|y l2]; cbn [head]; [|done]. destruct l1; done.
Qed.

Lemma hand_moves s O D e : vm_ok s O D → e ∈ page_list s → vm_ok (set_page_elem (Some e) s) O D.
Proof.
  intros Hok He. apply (latched_ok _ _ D s _ O (latched_refl D s (Some e)) Hok). intros e' [= <-]. done.
Qed.

(** A test on pages that may look at their flags. *)
Definition tests (D : dirs) (O : gset Z) s0 (T : Z → M (vm F) bool) (P : Z → bool) : Prop :=
  ∀ s q, latched D s0 s → vm_ok s O D → q ∈ page_list s → ∃ s', T q s = Ret (P q, s') ∧ latched D s s' ∧ page_elem s' = page_elem s.

Lemma latched_list D s s' : latched D s s' → page_list s' = page_list s ∧ hw s' = hw s ∧ fs s' = fs s ∧ fmaps s' = fmaps s ∧
  eviction_lock s' = eviction_lock s ∧ alloc_map s' = alloc_map s ∧ swap_block s' = swap_block s.
Proof. by intros (? & ? & -> & _). Qed.

Lemma latched_same_hand s s' O D : latched D s s' → vm_ok s O D → page_elem s' = page_elem s → vm_ok s' O D.
Proof. intros Hl Hok He. apply (latched_ok _ _ D s s' O Hl Hok). intros e. rewrite He. apply Hok. Qed.

Lemma clock_loop_ok s0 O D T P ev l1 l2 h : tests D O s0 T P → page_list s0 = l1 ++ h :: l2 →
  ∀ fuel pre e rest s, h :: l2 ++ l1 = pre ++ e :: rest → (length (e :: rest) ≤ fuel)%nat → latched D s0 s → vm_ok s O D →
  page_elem s = Some e →
  ∃ s', latched D s0 s' ∧ vm_ok s' O D ∧
    match List.find P (e :: rest) with
    | Some v => clock_loop fuel T ev e h s = (let! r := ev v in ret (Some r)) s' ∧ page_elem s' = Some v
    | None => clock_loop fuel T ev e h s = Ret (None, s') ∧ page_elem s' = Some h
    end.
Proof.
  intros HT Hl0. induction fuel as [|fuel IH]; intros pre e rest s Eo Hlen Hl Hok Hhand; [simpl in Hlen; lia|].
  cbn [clock_loop List.find]. destruct (latched_list D s0 s Hl) as (Epl & _). rewrite Hl0 in Epl.
  assert (e ∈ page_list s) as He by (by apply Hok).
  destruct (HT s e Hl Hok He) as (s1 & Hrun & Hl1 & He1). rewrite (bind_run _ _ _ _ _ Hrun).
  pose proof (latched_same_hand s s1 O D Hl1 Hok He1) as Hok1. pose proof (latched_trans _ _ _ _ Hl Hl1) as Hl01.
  destruct (P e); [exists s1; split_and!; try done; congruence|].
  destruct (latched_list D s s1 Hl1) as (Epl1 & _). rewrite Epl in Epl1.
  assert (NoDup (page_list s1)) as Hnd by apply Hok1. assert (e ∈ page_list s1) as He1' by (by rewrite Epl1, <-Epl).
  rewrite (bind_run _ _ _ _ _ (next_hand_run s1 e Hnd He1')). rewrite Epl1 in *.
  rewrite (succ_rotated l1 l2 h pre e rest Hnd Eo). set (h' := match rest with [] => h | e' :: _ => e' end).
  assert (h' ∈ page_list s1) as Hh'.
  { rewrite Epl1. assert (h' ∈ h :: l2 ++ l1); [|set_solver]. unfold h'. destruct rest; [set_solver|]. rewrite Eo. set_solver. }
  pose proof (hand_moves s1 O D h' Hok1 Hh') as Hok2. pose proof (latched_refl D s1 (Some h')) as Hl2.
  pose proof (latched_trans _ _ _ _ Hl01 Hl2) as Hl02. destruct rest as [|e' rest]; unfold h'.
  - rewrite decide_True by done. exists (set_page_elem (Some h) s1). split_and!; done.
  - rewrite decide_False.
    + apply (IH (pre ++ [e]) e' rest (set_page_elem (Some e') s1)); try done; [by rewrite <-app_assoc|simpl in *; lia].
    + intros ->. apply rotated_nodup in Hnd. rewrite Eo in Hnd. destruct pre as [|h0 pre].
      * injection Eo as -> _. apply NoDup_cons in Hnd as [Hn _]. set_solver.
      * injection Eo as <- _. apply NoDup_cons in Hnd as [Hn _]. set_solver.
Qed.

Lemma unreferenced_tests D O s m :
  tests D O s (unreferenced m) (λ q, negb (is_referenced D s q) && Bool.eqb (is_modified D s q) m).
Proof.
  intros s' q Hl Hok Hq. destruct (vo_listed _ _ _ _ _ Hok q Hq) as (x & Hx & _). unfold unreferenced.
  destruct (suppl_page_dirty_ok _ _ s' O D q x Hok Hx) as (s1 & Hrun1 & Hl1 & He1). rewrite (bind_run _ _ _ _ _ Hrun1).
  pose proof (latched_same_hand s' s1 O D Hl1 Hok He1) as Hok1. destruct (latched_page D s' s1 q x Hl1 Hx) as (x1 & Hx1 & _ & _ & Hr).
  destruct (suppl_page_accessed_ok _ _ s1 O D q x1 Hok1 Hx1) as (s2 & Hrun2 & Hl2 & He2). rewrite (bind_run _ _ _ _ _ Hrun2).
  exists s2. destruct (latched_list D s' s1 Hl1) as (_ & Ehw & _). destruct (latched_flags D s s' q Hl) as [<- <-].
  unfold is_modified, is_referenced. rewrite Hx, Ehw, Hr. split; [done|]. split; [by eapply latched_trans|congruence].
Qed.

Lemma unmodified_tests D O s : tests D O s unmodified (λ q, negb (is_modified D s q)).
Proof.
  intros s' q Hl Hok Hq. destruct (vo_listed _ _ _ _ _ Hok q Hq) as (x & Hx & _). unfold unmodified.
  destruct (suppl_page_dirty_ok _ _ s' O D q x Hok Hx) as (s1 & Hrun1 & Hl1 & He1). rewrite (bind_run _ _ _ _ _ Hrun1).
  exists s1. destruct (latched_flags D s s' q Hl) as [<- _]. unfold is_modified. by rewrite Hx.
Qed.

(** ** evict_page *)

(** A loop that found a page to evict, in front of more loops. *)
Lemma found_run (m : M (vm F) (option bool)) (ev : M (vm F) bool) k s s' :
  m s = (let! r := ev in ret (Some r)) s' → (let! r := m in match r with Some r => ret r | None => k end) s = ev s'.
Proof. intros H. unfold bind at 1. rewrite H. unfold bind. by destruct (ev s') as [[r t]|]. Qed.

(** The three loops and the last resort come down to evicting the victim. *)
Lemma clock_picks s O D : vm_ok s O D → page_list s ≠ [] → eviction_lock s = 1 →
  ∃ v s', victim D s = Some v ∧ latched D (set_eviction_lock 0 s) s' ∧ vm_ok s' O D ∧ page_elem s' = Some v ∧
    v ∈ page_list s ∧ evict_page init_page_dir s = evict_by init_page_dir (is_modified D s v) v s'.
Proof.
  intros Hok Hne Hlock. unfold evict_page. rewrite (bind_run _ _ _ _ _ (lock_run s Hlock)), bind_gets.
  cbn [page_list set_eviction_lock]. destruct (page_list s) as [|first rest0] eqn:El; [done|]. rewrite <-El.
  rewrite bind_gets, bind_modify. cbn [page_elem set_eviction_lock].
  set (h := default first (page_elem s)). set (s0 := set_eviction_lock 0 s). fold s0.
  pose proof (vm_ok_lock _ _ s O D 0 Hok) as Hok0. fold s0 in Hok0.
  assert (h ∈ page_list s0) as Hh.
  { unfold h. destruct (page_elem s) as [e|] eqn:Ee; [by apply (vo_hand _ _ _ _ _ Hok)|]. cbn. rewrite El. set_solver. }
  destruct (nodup_split h (page_list s0)) as (l1 & l2 & Hl & Hh1 & _); [apply Hok|done|].
  assert (clock_order s = h :: l2 ++ l1) as Eord.
  { destruct (page_elem s) as [e|] eqn:Ee; [by apply clock_order_split|]. unfold clock_order. rewrite Ee.
    change (page_list s0) with (page_list s) in Hl. rewrite El in Hl |- *. unfold h in *. cbn [default] in *.
    destruct l1 as [|a l1]; [by injection Hl as ->; rewrite app_nil_r|]. injection Hl as -> _. set_solver. }
  set (s1 := set_page_elem (Some h) s0). pose proof (hand_moves s0 O D h Hok0 Hh) as Hok1. fold s1 in Hok1.
  pose proof (latched_refl D s0 (Some h)) as Hl1. fold s1 in Hl1.
  assert (length (h :: l2 ++ l1) ≤ length (page_list s))%nat as Hlen.
  { change (page_list s) with (page_list s0). rewrite Hl. simpl. rewrite !length_app. simpl. lia. }
  assert (∀ v, v ∈ h :: l2 ++ l1 → v ∈ page_list s) as Hin.
  { intros v Hv. change (page_list s) with (page_list s0). rewrite Hl. set_solver. }
  assert (∀ P v, List.find P (h :: l2 ++ l1) = Some v → v ∈ page_list s ∧ P v = true) as Hfind.
  { intros P v Hv. apply find_some in Hv as [Hv1 Hv2]. split; [|done]. apply Hin. by apply list_elem_of_In. }
  assert (∀ q, is_modified D s0 q = is_modified D s q ∧ is_referenced D s0 q = is_referenced D s q) as Hfl by done.
  destruct (clock_loop_ok s0 O D _ _ (evict_not_modified init_page_dir) l1 l2 h (unreferenced_tests D O s0 false) Hl
    (length (page_list s)) [] h (l2 ++ l1) s1 eq_refl Hlen Hl1 Hok1 eq_refl) as (s2 & Hl2 & Hok2 & H2).
  unfold victim. rewrite Eord. change (is_modified D s0) with (is_modified D s) in *. change (is_referenced D s0) with (is_referenced D s) in *.
  destruct (List.find _ (h :: l2 ++ l1)) as [v|] eqn:Ef1.
  { destruct H2 as [Hrun He]. exists v, s2. split; [done|]. destruct (Hfind _ v Ef1) as [Hv Hp]. split_and!; try done.
    apply andb_true_iff in Hp as [_ Hp%eqb_prop]. rewrite Hp. by apply found_run. }
  destruct H2 as [Hrun2 He2]. rewrite (bind_run _ _ _ _ _ Hrun2).
  destruct (clock_loop_ok s0 O D _ _ (evict_modified init_page_dir) l1 l2 h (unreferenced_tests D O s0 true) Hl
    (length (page_list s)) [] h (l2 ++ l1) s2 eq_refl Hlen Hl2 Hok2 He2) as (s3 & Hl3 & Hok3 & H3).
  change (is_modified D s0) with (is_modified D s) in *. change (is_referenced D s0) with (is_referenced D s) in *.
  destruct (List.find _ (h :: l2 ++ l1)) as [v|] eqn:Ef2 in H3 |- *.
  { destruct H3 as [Hrun He]. exists v, s3. destruct (Hfind _ v Ef2) as [Hv Hp]. split_and!; try done.
    apply andb_true_iff in Hp as [_ Hp%eqb_prop]. rewrite Hp. by apply found_run. }
  destruct H3 as [Hrun3 He3]. rewrite (bind_run _ _ _ _ _ Hrun3).
  destruct (clock_loop_ok s0 O D _ _ (evict_not_modified init_page_dir) l1 l2 h (unmodified_tests D O s0) Hl
    (length (page_list s)) [] h (l2 ++ l1) s3 eq_refl Hlen Hl3 Hok3 He3) as (s4 & Hl4 & Hok4 & H4).
  change (is_modified D s0) with (is_modified D s) in *.
  destruct (List.find _ (h :: l2 ++ l1)) as [v|] eqn:Ef3 in H4 |- *.
  { destruct H4 as [Hrun He]. exists v, s4. destruct (Hfind _ v Ef3) as [Hv Hp]. split_and!; try done.
    apply negb_true_iff in Hp. rewrite Hp. by apply found_run. }
  destruct H4 as [Hrun4 He4]. rewrite (bind_run _ _ _ _ _ Hrun4).
  exists h, s4. split_and!; try done. cbn [List.find] in Ef3.
  by destruct (is_modified D s h).
Qed.

(** Open files have stayed open, with the same bytes. *)
Definition same_files (A B : F) : Prop := ∀ g, opened A g → opened B g ∧ file_bytes B g = file_bytes A g.

(** What was in the page [x] is in its file: if it was changed, as far as the
    mapping goes; if not, the files are as they were. *)
Definition file_kept s t (D : dirs) (x : suppl_page) : Prop :=
  if modified (hw s) D x
  then ∃ m, fmaps s !! mapping x = Some m ∧ written_back (fs s) (fs t) m x (bytes_at (memory (hw s)) (kaddr x) 4096)
  else same_files (fs s) (fs t).

Lemma unlocked s t D : latched D (set_eviction_lock 0 s) t → eviction_lock s = 1 → latched D s (set_eviction_lock 1 t).
Proof. intros (sp & h & -> & H) Hlock. exists sp, h. split; [|done]. destruct s. cbn in *. by rewrite Hlock. Qed.

Lemma evict_page_ok s O D : vm_ok s O D → page_list s ≠ [] → eviction_lock s = 1 →
  ∃ v x, victim D s = Some v ∧ spages s !! v = Some x ∧ kaddr x ≠ 0 ∧
    let file := to_file s x (modified (hw s) D x) in
    (∃ t, evict_page init_page_dir s = Ret (true, t) ∧ evicted init_page_dir L s t O D v x file ∧
       (file = true → file_kept s t D x)) ∨
    (file = false ∧ (∀ i, 0 ≤ i < swap_pages s → used s i = true) ∧
       ∃ t, evict_page init_page_dir s = Ret (false, t) ∧ latched D s t ∧ vm_ok t O D ∧ eviction_lock t = 1).
Proof.
  intros Hok Hne Hlock. destruct (clock_picks s O D Hok Hne Hlock) as (v & s' & Hv & Hl & Hok' & He & Hin & Hrun).
  destruct (vo_listed _ _ _ _ _ Hok v Hin) as (x & Hx & Hk). exists v, x. split; [done|]. split; [done|]. split; [done|].
  destruct (latched_page D _ s' v x Hl Hx) as (x' & Hx' & Hc & Hm & _). cbn [hw set_eviction_lock] in Hm.
  destruct (latched_list D _ s' Hl) as (Epl & Ehw & Efs & Efm & Elk & Eam & _).
  cbn [page_list hw fs fmaps eviction_lock alloc_map set_eviction_lock] in *.
  assert (is_modified D s v = modified (hw s) D x) as Eb by (unfold is_modified; by rewrite Hx). rewrite Eb in Hrun.
  set (b := modified (hw s) D x) in *. destruct (core_fields _ _ Hc) as (Ev & Ek & _ & _ & Em & _).
  assert (to_file s' x' b = to_file s x b) as Ef by (unfold to_file; by rewrite Em, Efm).
  destruct (evict_by_ok init_page_dir L s' O D v x' b Hok') as [(t & Hrun2 & Hev & Hfile)|(Hf & Hrun2 & Hall)]; try done.
  { by rewrite Epl. } { by rewrite Ehw, Hm. }
  - left. exists t. rewrite Hrun. split; [done|]. rewrite Ef in *. split.
    + destruct (evicted_latched _ _ _ _ _ _ _ _ x x' _ Hl Hc Hev). by split.
    + intros E. rewrite E in Hfile. unfold file_kept. fold b. destruct b; [|rewrite Hfile, Efs; by intros g Hg].
      rewrite Em, Ek, Ehw, Efm, Efs in Hfile. destruct Hfile as (m & Hm' & Hw1 & f & Hf & Hof & Hw2). exists m. split; [done|].
      split; [done|]. exists f. split; [done|]. split; [done|]. by rewrite Hw2; unfold in_file; rewrite Ev.
  - right. split; [by rewrite <-Ef|]. split; [by unfold used, swap_pages in *; rewrite Eam in Hall|].
    exists (set_eviction_lock 1 s'). rewrite Hrun. split; [done|]. split; [by apply unlocked|]. split; [by apply vm_ok_lock|done].
Qed.
End clock.
