(* ===== verification/Restore.v ===== *)
(** A page comes back from the swap: restore_page_from_swap of vm/vm_util.c. *)
From S2P Require Import Prelude Block Bitmap Palloc PallocSpec PageDir PageDirLaws Frames Vm Evict VmLaws EvictLaws Clock.
Local Open Scope Z_scope.
Local Abbreviation dirs := (gmap Z (gmap Z Z)).

Section restore.
Context {F : Type} `{!FileOps F} `{!FileLaws F} (init_page_dir : Z) (L : bool → area).
Implicit Types s t : vm F.
Local Abbreviation vm_ok := (vm_ok init_page_dir L).

(** ** The memory changes beside the pages *)
Lemma vm_ok_hw s O D h O' D' : vm_ok s O D → spaces init_page_dir L h O' D' →
  (∀ pd, is_Some (D !! pd) → is_Some (D' !! pd)) →
  (∀ q y, spages s !! q = Some y → e_present (entry h D' y) = e_present (entry (hw s) D y) ∧
     e_frame (entry h D' y) = e_frame (entry (hw s) D y)) →
  (∀ q y j, spages s !! q = Some y → kaddr y ≠ 0 → kaddr y = 4096 * j → j ∈ O → j ∈ O') →
  vm_ok (set_hw h s) O' D'.
Proof.
  intros [H1 H2 H4 H3 H5 H6 H7 H8 H9] Hs HD He HO. split; try done; [by apply (swap_ok_same s)| |].
  - intros p x Hx. destruct (H7 p x Hx) as [[A1 A1'] A2 A3 A4 A5 A6]. cbn [hw set_hw].
    destruct (He p x Hx) as [Ep Ef]. split; cbn [hw set_hw]; rewrite ?Ep, ?Ef; try done; [by auto|].
    intros Hk. destruct (A3 Hk) as (k & Ek & Hk' & Ha & Hp & Hf). exists k. split_and!; try done. by eapply HO.
  - intros p x Hx Hm. destruct (H9 p x Hx Hm) as (m & Hm' & [? ? ? ? ?]). exists m. split; [done|]. by split.
Qed.

Lemma content_hw s O D h q : vm_ok s O D →
  (∀ y j a, spages s !! q = Some y → kaddr y = 4096 * j → j ∈ O → in_area (L true) j → a / 4096 = j → memory h a = memory (hw s) a) →
  content (set_hw h s) q = content s q.
Proof.
  intros Hok Hm. unfold content. cbn [spages hw swap_block set_hw]. destruct (spages s !! q) as [y|] eqn:Hy; [|done].
  cbn [mbind option_bind]. unfold resident. case_bool_decide as Hk; [|done]. f_equal.
  destruct (pg_frame _ _ _ _ _ (vo_page _ _ _ _ _ Hok q y Hy) Hk) as (j & Ej & Hj & Ha & _).
  apply bytes_at_ext. intros a Har. apply (Hm y j a); try done. mlia.
Qed.

(** A page of zeroes. *)
Definition zero_page : list Z := replicate 4096 0.

(** A frame that no page has. *)
Definition spare s (O : gset Z) (k : Z) : Prop :=
  k ∈ O ∧ in_area (L true) k ∧ ∀ q y, spages s !! q = Some y → kaddr y ≠ 4096 * k.

Lemma zero_bytes m k : (∀ a, a / 4096 = k → m a = 0) → bytes_at m (4096 * k) 4096 = zero_page.
Proof.
  intros Hm. unfold zero_page. apply list_eq_same_length with (n := 4096%nat).
  - by rewrite length_replicate.
  - by rewrite length_bytes_at.
  - intros i a b Hi Ha Hb. apply lookup_replicate in Hb as [-> _]. rewrite <-(Nat2Z.id i), bytes_at_lookup in Ha by lia.
    injection Ha as <-. apply Hm. mlia.
Qed.

Lemma get_spare s O D : vm_ok s O D →
  (∃ k h, on_hw (in_ram (palloc_get_page (PAL_USER + PAL_ZERO))) s = Ret (4096 * k, set_hw h s) ∧ k ≠ 0 ∧
     vm_ok (set_hw h s) (page_run k 1 ∪ O) D ∧ spare (set_hw h s) (page_run k 1 ∪ O) k ∧ cr3 h = cr3 (hw s) ∧
     (k ∉ O) ∧ (∀ a, a / 4096 = k → memory h a = 0) ∧
     (∀ pd n, entry_of h D pd n = entry_of (hw s) D pd n) ∧ ∀ q, content (set_hw h s) q = content s q) ∨
  (on_hw (in_ram (palloc_get_page (PAL_USER + PAL_ZERO))) s = Ret (0, s) ∧ ∀ i, ¬ free_run (L true) O i 1).
Proof.
  intros Hok. destruct (get_frame init_page_dir L (hw s) O D) as [(k & r & Hrun & Hk & Ha & HkO & Hs & He & Hb)|[Hrun Hno]]; [apply Hok| |].
  - left. exists k, (set_ram r (hw s)). split; [by apply on_hw_run|]. split; [done|].
    assert (∀ q y j, spages s !! q = Some y → kaddr y ≠ 0 → kaddr y = 4096 * j → j ∈ O ∧ j ≠ k) as Hfr.
    { intros q y j Hy Hk0 Ej. destruct (pg_frame _ _ _ _ _ (vo_page _ _ _ _ _ Hok q y Hy) Hk0) as (j' & Ej' & Hj & _).
      assert (j' = j) as -> by lia. split; [done|]. by intros ->. }
    split; [|split; [|split; [done|split; [done|split; [|split; [done|]]]]]].
    + apply (vm_ok_hw s O D); try done; [by intros; unfold entry; rewrite !He|]. intros. by apply elem_of_union_r.
    + split; [apply elem_of_union_l, elem_page_run; lia|]. split; [done|]. intros q y Hy E.
      destruct (decide (kaddr y = 0)) as [E0|Hk0]; [lia|]. destruct (Hfr q y k Hy Hk0 E) as [_ ?]. done.
    + intros a Ha'. change (memory (set_ram r (hw s)) a) with (bytes r a). rewrite Hb. unfold filled. by rewrite decide_True by mlia.
    + intros q. apply (content_hw s O D); [done|]. intros y j a Hy Ej Hj _ Ea. change (memory (set_ram r (hw s)) a) with (bytes r a).
      rewrite Hb. unfold filled. rewrite decide_False; [done|]. intros Hr. apply HkO. replace k with j by mlia. done.
  - right. rewrite (on_hw_run _ _ _ _ Hrun), set_hw_id. done.
Qed.

(** ** Reading a slot into a page of the running process *)

(** The entry of [x] maps [k], for writing. *)
Definition maps_to (h : mmu) (D : dirs) (x : suppl_page) (k : Z) : Prop :=
  e_present (entry h D x) = true ∧ e_writable (entry h D x) = true ∧ e_frame (entry h D x) = 4096 * k.

(** The other pages do not notice. *)
Record unnoticed (h h' : mmu) (O : gset Z) (D D' : dirs) (x : suppl_page) (k : Z) : Prop := {
  un_entries y : 0 ≤ vaddr y < PHYS_BASE → ¬ (pagedir y / 4096 = pagedir x / 4096 ∧ vaddr y / 4096 = vaddr x / 4096) →
    entry h' D' y = entry h D y;
  un_memory a : a / 4096 ∈ O → a / 4096 ≠ k → ¬ table_page D (a / 4096) → memory h' a = memory h a;
  un_cr3 : cr3 h' = cr3 h;
}.

Lemma written_ok a l m : Forall byte l → bytes_ok m → bytes_ok (written a l m).
Proof.
  intros Hl Hm x. unfold written. case_decide as Hx; [|done].
  destruct (l !! Z.to_nat (x - a)) as [b|] eqn:E; simpl; [|lia]. apply (Forall_lookup_1 _ _ _ _ Hl E).
Qed.

Lemma write_user_ok s O D x k v l : spaces init_page_dir L (hw s) O D → placed D x → cr3 (hw s) = pagedir x - PHYS_BASE →
  maps_to (hw s) D x k → in_area (L true) k → k ∈ O → vaddr x ≤ v → v + Z.of_nat (length l) ≤ vaddr x + 4096 →
  0 < Z.of_nat (length l) → Forall byte l →
  ∃ h, write_user v l s = Ret (tt, set_hw h s) ∧ spaces init_page_dir L h O D ∧ maps_to h D x k ∧ unnoticed (hw s) h O D D x k ∧
    ∀ a, a / 4096 = k → memory h a = written (4096 * k + (v - vaddr x)) l (memory (hw s)) a.
Proof.
  intros Hs [[Hd1 Hd2] [Hv1 Hv2]] Hc (Hp & Hw & Hf) Ha Hk Hlo Hhi Hlen Hl.
  pose proof (po_range _ _ _ (ow_pool _ _ _ (sp_owns _ _ _ _ _ Hs) true)) as Hr. pose proof Ha as Ha'. unfold in_area in Ha'.
  assert (v / 4096 = vaddr x / 4096) as Epg by mlia. change PHYS_BASE with 3221225472 in *.
  destruct (translate_ok init_page_dir L (hw s) O D (pagedir x / 4096) v true Hs Hd2) as (h1 & Hrun & Hs1 & Hbe & [H1 H2]).
  { rewrite Hc. change PHYS_BASE with 3221225472. mlia. } { change PHYS_BASE with 3221225472. mlia. }
  { by rewrite Epg. } { intros _. by rewrite Epg. } { rewrite Epg. unfold entry in Hf. rewrite Hf. lia. }
  rewrite Epg in *. fold (entry (hw s) D x) in *. rewrite Hf in Hrun.
  replace (4096 * k + v mod 4096) with (4096 * k + (v - vaddr x)) in Hrun by mlia.
  set (A := 4096 * k + (v - vaddr x)) in *. unfold write_user. rewrite (bind_run _ _ _ _ _ (on_hw_run _ _ _ _ Hrun)).
  assert (¬ table_page D k) as Hnt by (by apply (table_not_user init_page_dir L (hw s) O D)).
  assert (∀ a, a / 4096 ≠ k → written A l (memory h1) a = memory h1 a) as Hout.
  { intros a Hak. apply written_ne. unfold A. mlia. }
  destruct (spaces_memory init_page_dir L h1 O D (written A l (memory h1)) Hs1) as [Hs2 He2].
  { apply written_ok; [done|apply Hs1]. } { intros a Hta. apply Hout. by intros E; rewrite E in Hta. }
  exists (set_memory (written A l (memory h1)) h1). split; [done|]. split; [done|].
  assert (∀ y, entry (set_memory (written A l (memory h1)) h1) D y = entry h1 D y) as He3 by (intros; apply He2).
  assert (entry h1 D x = touched true (entry (hw s) D x)) as He1 by (unfold entry at 1; by rewrite H1).
  split; [by unfold maps_to; rewrite !He3, He1|]. split; [split|].
  - intros y Hy Hne. rewrite He3. unfold entry. rewrite H2; [done|by apply user_page|done].
  - intros a HaO Hak Hat. change (memory (set_memory (written A l (memory h1)) h1) a) with (written A l (memory h1) a).
    rewrite Hout by done. by apply (be_memory _ _ _ _ _ _ Hbe).
  - apply (be_cr3 _ _ _ _ _ _ Hbe).
  - intros a Hak. change (memory (set_memory (written A l (memory h1)) h1) a) with (written A l (memory h1) a). unfold written.
    case_decide; [done|]. apply (be_memory _ _ _ _ _ _ Hbe); by rewrite Hak.
Qed.

Lemma unnoticed_refl h O D x k : unnoticed h h O D D x k.
Proof. done. Qed.
Lemma unnoticed_trans h h1 h2 O D x k : unnoticed h h1 O D D x k → unnoticed h1 h2 O D D x k → unnoticed h h2 O D D x k.
Proof.
  intros [A1 A2 A3] [B1 B2 B3]. split; [|intros; by rewrite B2, A2|congruence]. intros y Hy Hn. by rewrite B1, A1.
Qed.

Lemma load_slot_ok s O D x k i : spaces init_page_dir L (hw s) O D → placed D x → cr3 (hw s) = pagedir x - PHYS_BASE →
  maps_to (hw s) D x k → in_area (L true) k → k ∈ O → swap_ok s →
  0 ≤ i < swap_pages s → used s i = true →
  ∃ h b, swap_load_page_to_ram write_user i (vaddr x) s = Ret (tt, set_hw h (set_swap_block b s)) ∧
    spaces init_page_dir L h O D ∧ maps_to h D x k ∧ unnoticed (hw s) h O D D x k ∧
    type b = type (swap_block s) ∧ size b = size (swap_block s) ∧ contents b = contents (swap_block s) ∧
    bytes_at (memory h) (4096 * k) 4096 = slot (swap_block s) i.
Proof.
  intros Hs Hpl Hc Hm Ha Hk Hsw Hi Hu. unfold swap_load_page_to_ram.
  pose proof (check_allocated_ok s i Hsw Hi) as Hca. rewrite Hu in Hca. rewrite (bind_run _ _ _ _ _ Hca).
  change (Z.to_nat SECTORS_PER_PAGE) with 8%nat. change SECTORS_PER_PAGE with 8. change BLOCK_SECTOR_SIZE with 512.
  pose proof (swap_pages_range s Hsw) as Hr. pose proof (so_disk _ Hsw) as Hwf. pose proof (so_fit _ Hsw) as Hfit.
  pose (I := λ (n : Z) (t : vm F), ∃ h b, t = set_hw h (set_swap_block b s) ∧
    spaces init_page_dir L h O D ∧ maps_to h D x k ∧ unnoticed (hw s) h O D D x k ∧
    type b = type (swap_block s) ∧ size b = size (swap_block s) ∧ contents b = contents (swap_block s) ∧
    bytes_at (memory h) (4096 * k) (512 * n) = concat (take (Z.to_nat n) (sectors (swap_block s) i))).
  match goal with |- context [for_to 8 0 ?body s] => destruct (for_to_ok I 8 0 body s) as (s' & Hrun & h & b & -> & Hs' & Hm' & Hun & ? & ? & Hcb & Hbytes) end.
  - exists (hw s), (swap_block s). split; [by destruct s|]. split_and!; done.
  - intros j t Hj (h & b & -> & Hs' & Hm' & Hun & Ht & Hsz & Hcb & Hbytes). change (0 + Z.of_nat 8) with 8 in Hj.
    unfold swap_pages in *. rewrite (u32_small (i * 8 + j)) by (destruct Hwf; unfold NONE32 in *; lia).
    replace (i * 8 + j) with (8 * i + j) by lia. replace (j * 512) with (512 * j) by lia.
    destruct (sector_of s i j Hsw Hi Hj) as (d & Hd1 & Hd2 & Hd3).
    assert (block_wf b) as Hwb. { destruct Hwf as [W1 W2 W3 W4]. split; [by rewrite Ht|by rewrite Hcb, W2|by rewrite Hsz|by rewrite Hcb]. }
    rewrite <-Hcb in Hd2. pose proof (block_read_run b (8 * i + j) d Hwb Hd2) as Hread.
    set (b1 := mkBlock _ _ _ _ _) in Hread.
    assert (on_block (block_read (8 * i + j)) (set_hw h (set_swap_block b s)) = Ret (d, set_hw h (set_swap_block b1 s))) as Hread'.
    { unfold on_block, zoom. cbn [swap_block set_hw set_swap_block]. by rewrite Hread. }
    rewrite (bind_run _ _ _ _ _ Hread').
    assert (Forall byte d) as Hdby.
    { rewrite Hcb in Hd2. rewrite nthZ_lookup in Hd2 by lia. by apply (Forall_lookup_1 _ _ _ _ (so_bytes _ Hsw) Hd2). }
    destruct (write_user_ok (set_hw h (set_swap_block b1 s)) O D x k (vaddr x + 512 * j) d) as (h2 & Hrun & Hs2 & Hm2 & Hun2 & Hmem);
      try done; try lia; [by cbn; rewrite (un_cr3 _ _ _ _ _ _ _ Hun)|].
    exists (set_hw h2 (set_swap_block b1 s)). split; [exact Hrun|]. exists h2, b1. split; [done|]. split; [done|]. split; [done|].
    split; [by eapply unnoticed_trans|]. split; [done|]. split; [done|]. split; [done|].
    replace (512 * (j + 1)) with (512 * j + 512) by lia. rewrite bytes_at_app by lia.
    replace (Z.to_nat (j + 1)) with (S (Z.to_nat j)) by lia. rewrite (take_S_r _ _ d Hd1), concat_app. cbn [concat]. rewrite app_nil_r.
    cbn [hw set_hw] in Hmem. replace (4096 * k + (vaddr x + 512 * j - vaddr x)) with (4096 * k + 512 * j) in Hmem by lia. f_equal.
    + rewrite <-Hbytes. apply bytes_at_ext. intros a Har. rewrite Hmem by mlia. apply written_ne. lia.
    + replace 512 with (Z.of_nat (length d)) at 2 by lia. rewrite <-(bytes_at_written (memory h) (4096 * k + 512 * j) d) at 2.
      apply bytes_at_ext. intros a Har. apply Hmem. mlia.
  - exists h, b. split; [exact Hrun|]. split_and!; try done. change (0 + Z.of_nat 8) with 8 in Hbytes.
    change (512 * 8) with 4096 in Hbytes. rewrite Hbytes. unfold slot. f_equal. apply take_ge. rewrite length_sectors by done. lia.
Qed.

(** ** The page is in memory *)
Lemma unnoticed_beside h h1 h2 O D O' D' x k : beside h O D h1 O' D' →
  (∀ y, 0 ≤ vaddr y < PHYS_BASE → ¬ (pagedir y / 4096 = pagedir x / 4096 ∧ vaddr y / 4096 = vaddr x / 4096) →
    entry h1 D' y = entry h D y) →
  unnoticed h1 h2 O' D' D' x k → unnoticed h h2 O D D' x k.
Proof.
  intros [B1 B2 B3 B4 B5] He [A1 A2 A3]. split.
  - intros y Hy Hn. by rewrite A1, He.
  - intros a Ha Hk Ht. rewrite A2; [by apply B5|by apply B1|done|]. intros [?|?]%B3; done.
  - congruence.
Qed.

Definition back (k : Z) (x : suppl_page) : suppl_page :=
  set_location PG_LOCATION_RAM (set_kaddr (4096 * k) (set_saddr SWAP_NO_PAGE x)).

Section came_back.
Context (s : vm F) (O O' : gset Z) (D D' : dirs) (p k : Z) (x : suppl_page) (h : mmu) (b : block) (a : bitmap) (l : list Z).
Context (Hok : vm_ok s O D) (Hx : spages s !! p = Some x) (Hloc : location x = PG_LOCATION_SWAP) (Hk : spare s O k).
Context (Hs : spaces init_page_dir L h O' D') (HO : O ⊆ O') (HD : ∀ pd, is_Some (D !! pd) → is_Some (D' !! pd)).
Context (Hmap : maps_to h D' x k) (Hun : unnoticed (hw s) h O D D' x k).
Context (Hbt : type b = type (swap_block s)) (Hbs : size b = size (swap_block s)) (Hbc : contents b = contents (swap_block s)).
Context (Haw : wf a) (Hac : bit_cnt a = swap_pages s).
Context (Hab : ∀ j, 0 ≤ j < swap_pages s → get_bit a j = if decide (j = saddr x) then false else used s j).
Context (Hl : l = page_list s ∨ l = p :: page_list s).

Let t : vm F := set_page_list l (set_spages (<[p := back k x]> (spages s)) (set_alloc_map a (set_hw h (set_swap_block b s)))).

Lemma came_absent : kaddr x = 0 ∧ 0 ≤ saddr x < swap_pages s ∧ used s (saddr x) = true.
Proof using All.
  destruct (vo_page _ _ _ _ _ Hok p x Hx) as [_ _ _ _ A5 A6]. destruct (A5 (A6 Hloc)) as (? & _ & ? & ?). done.
Qed.

Lemma came_other q y : q ≠ p → spages t !! q = Some y →
  spages s !! q = Some y ∧ entry h D' y = entry (hw s) D y ∧ apart y x ∧ page_ok L s O D y.
Proof using All.
  intros Hne Hy. cbn in Hy. rewrite lookup_insert_ne in Hy by done. split; [done|].
  pose proof (vo_page _ _ _ _ _ Hok q y Hy) as Hp. pose proof (vo_page _ _ _ _ _ Hok p x Hx) as Hpx.
  pose proof (vo_apart _ _ _ _ _ Hok q p y x Hy Hx Hne) as Hap. split; [|done].
  apply (un_entries _ _ _ _ _ _ _ Hun); [by apply Hp|].
  intros [E1 E2]. apply Hap. destruct (pg_dir _ _ _ _ _ Hp), (pg_dir _ _ _ _ _ Hpx), (pg_vaddr _ _ _ _ _ Hp), (pg_vaddr _ _ _ _ _ Hpx).
  split; by apply same_page_div.
Qed.

Lemma came_swap_ok : swap_ok t.
Proof using All.
  destruct (vo_swap _ _ _ _ _ Hok) as [A1 [W1 W2 W3 W4] A3 A4]. split; cbn; [done| |by rewrite Hac, Hbs|by rewrite Hbc].
  split; [by rewrite Hbt|by rewrite Hbc, Hbs|by rewrite Hbs|by rewrite Hbc].
Qed.

Lemma came_ok : vm_ok t O' D'.
Proof using All.
  destruct came_absent as (Hk0 & Hsr & Hsu). pose proof (vo_page _ _ _ _ _ Hok p x Hx) as Hpx.
  destruct Hk as (HkO & Hka & Hkfree). assert (spages t !! p = Some (back k x)) as Hx' by (cbn; apply lookup_insert_eq).
  assert (p ∉ page_list s) as Hpl.
  { intros Hp. destruct (vo_listed _ _ _ _ _ Hok p Hp) as (y & Hy & Hne). congruence. }
  assert (kaddr (back k x) ≠ 0) as Hk1.
  { pose proof (po_range _ _ _ (ow_pool _ _ _ (sp_owns _ _ _ _ _ Hs) true)) as Hr. unfold in_area in Hka. cbn. lia. }
  split.
  - done.
  - apply came_swap_ok.
  - cbn. destruct Hl as [-> | ->]; [apply Hok|]. apply NoDup_cons. split; [done|apply Hok].
  - cbn. rewrite lookup_insert_ne; [apply Hok|]. intros ->. pose proof (vo_null _ _ _ _ _ Hok). congruence.
  - intros e He. apply (vo_hand _ _ _ _ _ Hok) in He. cbn. destruct Hl as [-> | ->]; set_solver.
  - intros q Hq. destruct (decide (q = p)) as [->|Hne]; [by exists (back k x)|].
    assert (q ∈ page_list s) as Hq' by (cbn in Hq; destruct Hl as [-> | ->]; set_solver).
    cbn. rewrite lookup_insert_ne by done. by apply (vo_listed _ _ _ _ _ Hok).
  - intros q y Hy. destruct (decide (q = p)) as [->|Hne].
    + assert (y = back k x) as -> by congruence. destruct Hpx as [[A1 A1'] A2 _ _ _ _]. destruct Hmap as (M1 & M2 & M3).
      split; [split; [done|by apply HD]|done| |by intros ?|done|done].
      intros _. exists k. split_and!; try done. by apply HO.
    + destruct (came_other q y Hne Hy) as (Hy' & He & Hap & [[A1 A1'] A2 A3 A4 A5 A6]).
      split; change (hw t) with h; rewrite ?He; try done; [by auto| |].
      * intros Hky. destruct (A3 Hky) as (j & Ej & Hj & Haj & Hpr & Hfr). exists j. split_and!; try done. by apply HO.
      * intros Hsy. destruct (A5 Hsy) as (B1 & B2 & B3 & B4). assert (swap_pages t = swap_pages s) as -> by exact Hac.
        split; [done|]. split; [done|]. split; [done|]. unfold used. cbn. rewrite Hab, decide_False; [done|by apply Hap|done].
  - assert (∀ q y, q ≠ p → spages t !! q = Some y → apart y (back k x) ∧ apart (back k x) y) as Hap.
    { intros q y Hne Hy. destruct (came_other q y Hne Hy) as (Hy' & _ & (B1 & B2 & B3) & _). pose proof (Hkfree q y Hy') as Hfr. unfold apart. cbn.
      split; split_and!; try done; try (intros; congruence). intros [E1 E2]. by apply B3. }
    intros q r y z Hy Hz Hne. destruct (decide (q = p)) as [->|Hq]; [|destruct (decide (r = p)) as [->|Hr]].
    + assert (y = back k x) as -> by congruence. by apply (Hap r z).
    + assert (z = back k x) as -> by congruence. by apply (Hap q y).
    + destruct (came_other q y Hq Hy) as [Hy' _], (came_other r z Hr Hz) as [Hz' _]. by apply (vo_apart _ _ _ _ _ Hok q r).
  - intros q y Hy Hm. assert (∃ z, spages s !! q = Some z ∧ mapping y = mapping z ∧ vaddr y = vaddr z) as (z & Hz & Emz & Evz).
    { destruct (decide (q = p)) as [->|Hne]; [exists x; assert (y = back k x) as -> by congruence; done|].
      destruct (came_other q y Hne Hy) as [? _]. by exists y. }
    rewrite Emz in *. destruct (vo_map _ _ _ _ _ Hok q z Hz Hm) as (m & Hm' & [? ? ? ? ?]).
    exists m. split; [done|]. split; rewrite ?Evz; done.
Qed.

Lemma came_content : content t p = Some (bytes_at (memory h) (4096 * k) 4096) ∧ ∀ q, q ≠ p → content t q = content s q.
Proof using All.
  destruct Hk as (HkO & Hka & Hkfree).
  assert (4096 * k ≠ 0) as Hk1.
  { pose proof (po_range _ _ _ (ow_pool _ _ _ (sp_owns _ _ _ _ _ Hs) true)) as Hr. unfold in_area in Hka. lia. }
  split.
  - unfold content. cbn. rewrite lookup_insert_eq. cbn. unfold resident. by rewrite bool_decide_true.
  - intros q Hne. unfold content. change (spages t !! q) with (<[p := back k x]> (spages s) !! q).
    rewrite lookup_insert_ne by done. destruct (spages s !! q) as [y|] eqn:Hy; [|done]. cbn [mbind option_bind].
    change (hw t) with h. change (swap_block t) with b.
    unfold resident. case_bool_decide as Hky.
    + destruct (pg_frame _ _ _ _ _ (vo_page _ _ _ _ _ Hok q y Hy) Hky) as (j & Ej & Hj & Haj & _). f_equal.
      apply bytes_at_ext. intros c Hc. assert (c / 4096 = j) as Ec by mlia.
      apply (un_memory _ _ _ _ _ _ _ Hun); rewrite Ec; [done| |].
      * intros ->. by apply (Hkfree q y).
      * apply (table_not_user init_page_dir L (hw s) O D j); [apply Hok|done].
    + case_decide; [|done]. f_equal. unfold slot, sectors. by rewrite Hbc.
Qed.
End came_back.

(** ** restore_page_from_swap *)
Context (ram_pages : Z).

(** What is done once there is a frame. *)
Definition settle (p : Z) (x : suppl_page) (kpage : Z) (reg_page : bool) : M (vm F) bool :=
  let! ok := on_hw (pagedir_set_page init_page_dir ram_pages (pagedir x) (vaddr x) kpage true) in
  if negb ok then
    on_hw (in_ram (palloc_free_page kpage));;!
    unlock_eviction;;!
    ret false
  else
    swap_load_page_to_ram write_user (saddr x) (vaddr x);;!
    swap_free_page (saddr x);;!
    upd_page p (λ x, set_location PG_LOCATION_RAM (set_kaddr kpage (set_saddr SWAP_NO_PAGE x)));;!
    unlock_eviction;;!
    (if reg_page then register_suppl_page p else ret tt);;!
    ret true.

(** The page is in the frame [k], and listed if [reg]; nothing else happened. *)
Record restored s t (O' : gset Z) (D' : dirs) (p k : Z) (x : suppl_page) (reg : bool) : Prop := {
  re_ok : vm_ok t O' D';
  re_lock : eviction_lock t = 1;
  re_pages : spages t = <[p := back k x]> (spages s);
  re_maps : maps_to (hw t) D' x k;
  re_content q : content t q = content s q;
  re_list : page_list t = if reg then p :: page_list s else page_list s;
  re_rest : fs t = fs s ∧ fmaps t = fmaps s ∧ threads t = threads s ∧ mallocs t = mallocs s ∧ cr3 (hw t) = cr3 (hw s);
}.

Lemma register_run s p x : spages s !! p = Some x → kaddr x ≠ 0 → eviction_lock s = 1 →
  register_suppl_page p s = Ret (tt, set_page_list (p :: page_list s) s).
Proof.
  intros Hx Hk Hlock. unfold register_suppl_page. rewrite (bind_run _ _ _ _ _ (get_page_run s p x Hx)), decide_True by done.
  rewrite (bind_run _ _ _ _ _ (lock_run s Hlock)), bind_modify. rewrite unlock_run by done. do 2 f_equal. by destruct s; cbn in *; subst.
Qed.

Lemma spare_freed s O D k : vm_ok s O D → spare s O k →
  ∃ h, on_hw (in_ram (palloc_free_page (4096 * k))) s = Ret (tt, set_hw h s) ∧ vm_ok (set_hw h s) (O ∖ page_run k 1) D ∧
    cr3 h = cr3 (hw s) ∧ ∀ q, content (set_hw h s) q = content s q.
Proof.
  intros Hok (HkO & Hka & Hkfree).
  destruct (free_frame init_page_dir L (hw s) O D k) as (r & Hrun & Hs & He & Hb); [apply Hok|done|done|].
  exists (set_ram r (hw s)). split; [by apply on_hw_run|]. split; [|split; [done|]].
  - apply (vm_ok_hw s O D); try done; [by intros; unfold entry; rewrite !He|]. intros q y j Hy Hk0 Ej Hj. apply elem_of_difference.
    split; [done|]. rewrite elem_page_run. intros Hr. apply (Hkfree q y Hy). rewrite Ej. f_equal. lia.
  - intros q. apply (content_hw s O D); [done|]. intros y j a Hy Ej Hj _ Ea. change (memory (set_ram r (hw s)) a) with (bytes r a).
    rewrite Hb. unfold filled. rewrite decide_False; [done|]. intros Hr. apply (Hkfree q y Hy). rewrite Ej. f_equal. mlia.
Qed.

Lemma settle_ok s O D p x k reg : vm_ok s O D → eviction_lock s = 0 → spages s !! p = Some x → location x = PG_LOCATION_SWAP →
  spare s O k → cr3 (hw s) = pagedir x - PHYS_BASE → k - 786432 < ram_pages →
  (∃ t O' D', settle p x (4096 * k) reg s = Ret (true, t) ∧ restored s t O' D' p k x reg ∧ O ⊆ O') ∨
  (∃ h, settle p x (4096 * k) reg s = Ret (false, set_eviction_lock 1 (set_hw h s)) ∧
     vm_ok (set_hw h s) (O ∖ page_run k 1) D ∧ cr3 h = cr3 (hw s) ∧ (∀ q, content (set_hw h s) q = content s q) ∧
     ∀ i, ¬ free_run (L false) O i 1).
Proof.
  intros Hok Hlock Hx Hloc Hk Hc Hram. pose proof (vo_page _ _ _ _ _ Hok p x Hx) as Hpx.
  pose proof Hpx as [[Hd1 Hd2] [Hv1 Hv2] _ Habs Hslot Hsw]. destruct (Hslot (Hsw Hloc)) as (Hk0 & _ & Hsr & Hsu).
  pose proof Hk as (HkO & Hka & Hkfree). pose proof (vo_spaces _ _ _ _ _ Hok) as Hs.
  pose proof (po_range _ _ _ (ow_pool _ _ _ (sp_owns _ _ _ _ _ Hs) true)) as Hr. pose proof (sp_high _ _ _ _ _ Hs) as Hhi.
  pose proof (ow_apart _ _ _ (sp_owns _ _ _ _ _ Hs)) as Hap. pose proof Hka as Hka'. unfold in_area in Hka'.
  assert (0 ≤ (L false).2) as Hcnt.
  { pose proof (ow_pool _ _ _ (sp_owns _ _ _ _ _ Hs) false) as [W _ _ <- _ _]. apply W. }
  unfold settle.
  destruct (set_page_ok init_page_dir L ram_pages (hw s) O D (pagedir x / 4096) (vaddr x) k true Hs Hd2 Hv1 Hv2) as
    [(h1 & O1 & D1 & Hrun & Hs1 & Hbe & [E1 E2])|[Hrun Hno]]; [lia|lia|by apply Habs| |];
    replace (4096 * (pagedir x / 4096)) with (pagedir x) in Hrun by mlia.
  - left. rewrite (bind_run _ _ _ _ _ (on_hw_run _ _ _ _ Hrun)). cbn [negb]. set (s1 := set_hw h1 s).
    assert (placed D1 x) as Hpl1 by (split; [split; [done|by apply Hbe]|done]).
    assert (maps_to h1 D1 x k) as Hm1 by (unfold maps_to, entry; by rewrite E1).
    destruct (load_slot_ok s1 O1 D1 x k (saddr x) Hs1 Hpl1) as (h & b & Hrun2 & Hs2 & Hm2 & Hun & Hbt & Hbs & Hbc & Hbytes);
      [cbn; by rewrite (be_cr3 _ _ _ _ _ _ Hbe)|done|done|by apply (be_owned _ _ _ _ _ _ Hbe)|
       by apply (swap_ok_same s), Hok|done|done|].
    rewrite (bind_run _ _ _ _ _ Hrun2). set (s2 := set_hw h (set_swap_block b s1)).
    destruct (swap_free_ok s2 (saddr x)) as (a & Hrun3 & Haw & Hac & Hab); [|done|done|].
    { destruct (vo_swap _ _ _ _ _ Hok) as [A1 [W1 W2 W3 W4] A3 A4]. split; cbn; [done| |by rewrite Hbs|by rewrite Hbc].
      split; [by rewrite Hbt|by rewrite Hbc, Hbs|by rewrite Hbs|by rewrite Hbc]. }
    rewrite (bind_run _ _ _ _ _ Hrun3). set (s3 := set_alloc_map a s2). rewrite (bind_run _ _ _ _ _ (upd_page_run s3 p x _ Hx)).
    fold (back k x). set (s4 := set_spages _ s3). erewrite bind_run; [|apply unlock_run; exact Hlock].
    assert (unnoticed (hw s) h O D D1 x k) as Hun'.
    { apply (unnoticed_beside (hw s) h1 h O D O1 D1); [done| |done]. intros y Hy Hn. unfold entry. rewrite E2; [done|by apply user_page|done]. }
    assert (is_Some (D !! (pagedir x / 4096)) → ∀ pd, is_Some (D !! pd) → is_Some (D1 !! pd)) as HD by (intros _ pd; apply Hbe).
    assert (∀ l, l = page_list s ∨ l = p :: page_list s → vm_ok (set_page_list l s4) O1 D1 ∧
      content (set_page_list l s4) p = Some (bytes_at (memory h) (4096 * k) 4096) ∧
      ∀ q, q ≠ p → content (set_page_list l s4) q = content s q) as Hcame.
    { intros l Hl. split.
      - apply (came_ok s O O1 D D1 p k x h b a l); try done; [apply Hbe|by apply HD].
      - apply (came_content s O O1 D D1 p k x h b a l); try done; [apply Hbe|by apply HD]. }
    set (s5 := set_eviction_lock 1 s4).
    assert ((let! x0 := if reg then register_suppl_page p else ret tt in ret true) s5 =
      Ret (true, set_eviction_lock 1 (set_page_list (if reg then p :: page_list s else page_list s) s4))) as ->.
    { destruct reg; [|rewrite bind_ret; by destruct s]. erewrite bind_run; [|eapply register_run; [apply lookup_insert_eq|cbn; lia|done]]. done. }
    destruct (Hcame (if reg then p :: page_list s else page_list s)) as (Hok' & Hcp & Hcq); [destruct reg; auto|].
    eexists _, O1, D1. split; [done|]. split; [|apply Hbe]. split; try done.
    + by apply vm_ok_lock.
    + intros q. destruct (decide (q = p)) as [->|Hne]; [|by apply Hcq]. transitivity (Some (bytes_at (memory h) (4096 * k) 4096)); [exact Hcp|].
      unfold content. rewrite Hx. cbn [mbind option_bind]. unfold resident. rewrite Hk0, bool_decide_false, decide_True by (done || lia).
      f_equal. exact Hbytes.
    + split_and!; try done. cbn. apply (un_cr3 _ _ _ _ _ _ _ Hun').
  - right. rewrite (bind_run _ _ _ _ _ (on_hw_run _ _ _ _ Hrun)), set_hw_id. cbn [negb].
    destruct (spare_freed s O D k Hok Hk) as (h & Hrun2 & Hok' & Hc' & Hcq). exists h.
    rewrite (bind_run _ _ _ _ _ Hrun2). erewrite bind_run; [|apply unlock_run; exact Hlock]. split; [done|]. done.
Qed.

(** The bytes of a page are what they were, or it went to its file, which has them. *)
Definition kept s t (D : dirs) (q : Z) : Prop :=
  content t q = content s q ∨
  ∃ y, spages s !! q = Some y ∧ to_file s y (modified (hw s) D y) = true ∧ file_kept s t D y.

Lemma evict_page_empty s : page_list s = [] → eviction_lock s = 1 → evict_page init_page_dir s = Ret (false, s).
Proof.
  intros Hl Hlock. unfold evict_page. rewrite (bind_run _ _ _ _ _ (lock_run s Hlock)), bind_gets. cbn [page_list set_eviction_lock].
  rewrite Hl. erewrite bind_run; [|by apply unlock_run]. destruct s; cbn in *; by subst.
Qed.

(** Another page is evicted for a frame. *)
Record made_room s t (O O' : gset Z) (D : dirs) (k : Z) : Prop := {
  mr_ok : vm_ok t O' D;
  mr_spare : spare t O' k;
  mr_zero a : a / 4096 = k → memory (hw t) a = 0;
  mr_lock : eviction_lock t = 1;
  mr_page p x : spages s !! p = Some x → kaddr x = 0 →
    (∃ x', spages t !! p = Some x' ∧ core x' = core x) ∧ content t p = content s p;
  mr_kept q : kept s t D q;
  mr_places q : option_Forall2 (λ y y', pagedir y' = pagedir y ∧ vaddr y' = vaddr y) (spages s !! q) (spages t !! q);
  mr_entries z : 0 ≤ vaddr z < PHYS_BASE →
    (∀ q y, spages s !! q = Some y → ¬ (pagedir y / 4096 = pagedir z / 4096 ∧ vaddr y / 4096 = vaddr z / 4096)) →
    entry (hw t) D z = entry (hw s) D z;
  mr_rest : threads t = threads s ∧ fmaps t = fmaps s ∧ mallocs t = mallocs s ∧ cr3 (hw t) = cr3 (hw s);
  mr_owned i : in_area (L false) i → i ∈ O' → i ∈ O;
}.

Lemma evict_and_get_ok s O D : vm_ok s O D → eviction_lock s = 1 →
  (∃ t O' k, evict_and_get_kaddr init_page_dir s = Ret (4096 * k, t) ∧ k ≠ 0 ∧ made_room s t O O' D k) ∨
  (∃ t, evict_and_get_kaddr init_page_dir s = Ret (0, t) ∧ latched D s t ∧ vm_ok t O D ∧ eviction_lock t = 1 ∧
     (page_list s = [] ∨ ∀ i, 0 ≤ i < swap_pages s → used s i = true)).
Proof.
  intros Hok Hlock. unfold evict_and_get_kaddr. destruct (decide (page_list s = [])) as [Hemp|Hne].
  { right. exists s. rewrite (bind_run _ _ _ _ _ (evict_page_empty s Hemp Hlock)). split; [done|]. split; [apply latched_id|]. auto. }
  destruct (evict_page_ok init_page_dir L s O D Hok Hne Hlock) as (v & y & Hv & Hy & Hky & [(t & Hrun & Hev & Hfile)|(Hf & Hfull & t & Hrun & Hl & Hokt & Hlk)]).
  - left. rewrite (bind_run _ _ _ _ _ Hrun). destruct (ed_frame _ _ _ _ _ _ _ _ _ Hev) as (k0 & Ek0 & Ha0 & Hk0O & Hok').
    destruct (get_spare t (O ∖ page_run k0 1) D Hok') as [(k & h & Hrun2 & Hk & Hok2 & Hsp & Hc & _ & Hz & He & Hcq)|[_ Hno]].
    2: { exfalso. apply (Hno k0). unfold in_area in Ha0. split; [lia|]. split; [lia|]. intros j Hj. rewrite elem_of_difference, elem_page_run. intros [_ Hn]. lia. }
    exists (set_hw h t), (page_run k 1 ∪ O ∖ page_run k0 1), k. rewrite Hrun2. split; [done|]. split; [done|].
    destruct (ed_rest _ _ _ _ _ _ _ _ _ Hev) as (R1 & R2 & R3 & R4). split; try done.
    + by apply (ed_lock _ _ _ _ _ _ _ _ _ Hev).
    + intros p x Hx Hk0. assert (p ≠ v) as Hvp by (intros ->; congruence).
      destruct (ed_others _ _ _ _ _ _ _ _ _ Hev p Hvp) as [Hcp Hpp]. rewrite Hx in Hpp. inversion Hpp as [? x' Hxx Ex Ex'|]. subst.
      split; [by exists x'|]. by rewrite Hcq.
    + intros q. unfold kept. rewrite Hcq. destruct (decide (q = v)) as [->|Hq]; [|left; by apply Hev].
      destruct (to_file s y (modified (hw s) D y)) eqn:Ef; [right; exists y; auto|].
      left. by apply (ed_swapped _ _ _ _ _ _ _ _ _ Hev).
    + intros q. cbn. destruct (decide (q = v)) as [->|Hq].
      * destruct (ed_page _ _ _ _ _ _ _ _ _ Hev) as (y' & -> & _ & E1 & E2 & _). rewrite Hy. by constructor.
      * destruct (ed_others _ _ _ _ _ _ _ _ _ Hev q Hq) as [_ Hpp]. destruct Hpp as [z z' Hzz|]; constructor.
        by destruct (core_fields _ _ Hzz) as (? & _ & _ & ? & _).
    + intros z Hz1 Hz2. unfold entry at 1. cbn. rewrite He. apply (ed_entries _ _ _ _ _ _ _ _ _ Hev z Hz1). intros [E1 E2]. by apply (Hz2 v y Hy).
    + split_and!; try done. by rewrite <-R4.
    + intros i Hi. rewrite elem_of_union, elem_of_difference, elem_page_run. intros [Hik|[? _]]; [|done].
      destruct Hsp as (_ & Ha & _). exfalso. apply (areas_apart L (ram (hw s)) O false i); [apply (vo_spaces _ _ _ _ _ Hok)|done|].
      by replace i with k by lia.
  - right. exists t. rewrite (bind_run _ _ _ _ _ Hrun). split; [done|]. auto.
Qed.

Lemma settle_core p x x' kpage reg : core x' = core x → settle p x kpage reg = settle p x' kpage reg.
Proof. intros (Ev & _ & Es & Ep & _)%core_fields. unfold settle. by rewrite Ev, Es, Ep. Qed.

Lemma restore_unfold p reg s x : spages s !! p = Some x → eviction_lock s = 1 →
  location x = PG_LOCATION_SWAP → saddr x ≠ SWAP_NO_PAGE →
  restore_page_from_swap init_page_dir ram_pages p reg s =
  (let! kpage := on_hw (in_ram (palloc_get_page (PAL_USER + PAL_ZERO))) in
   let! kpage := (if decide (kpage = 0) then
      unlock_eviction;;!
      let! kpage := evict_and_get_kaddr init_page_dir in
      lock_eviction;;!
      ret kpage
    else ret kpage) in
   if decide (kpage = 0) then unlock_eviction;;! ret false else settle p x kpage reg) (set_eviction_lock 0 s).
Proof.
  intros Hx Hlock Hloc Hsa. unfold restore_page_from_swap. rewrite (bind_run _ _ _ _ _ (lock_run s Hlock)).
  rewrite (bind_run _ _ _ _ _ (get_page_run (set_eviction_lock 0 s) p x Hx)).
  by rewrite bind_assert by (by rewrite !bool_decide_true).
Qed.

(** The page is back in a frame, with the bytes it had; no other page lost any. *)
Record came_back s t (D D' : dirs) (p : Z) (x : suppl_page) (reg : bool) : Prop := {
  cb_lock : eviction_lock t = 1;
  cb_page : ∃ k x', spages t !! p = Some (back k x') ∧ core x' = core x ∧ maps_to (hw t) D' x k ∧
    content t p = Some (bytes_at (memory (hw t)) (4096 * k) 4096);
  cb_content : content t p = content s p;
  cb_kept q : kept s t D q;
  cb_listed : reg = true → p ∈ page_list t;
  cb_rest : threads t = threads s ∧ fmaps t = fmaps s ∧ cr3 (hw t) = cr3 (hw s);
}.

(** There was no frame to be had, or no page for a page table. *)
Definition no_memory s (O : gset Z) : Prop :=
  ((∀ i, ¬ free_run (L true) O i 1) ∧ (page_list s = [] ∨ ∀ i, 0 ≤ i < swap_pages s → used s i = true)) ∨
  ∃ O', (∀ i, ¬ free_run (L false) O' i 1) ∧ ∀ i, in_area (L false) i → i ∈ O' → i ∈ O.

Lemma kept_same s s1 t D q : kept s s1 D q → content t q = content s1 q → same_files (fs s1) (fs t) → kept s t D q.
Proof.
  intros [Hc|(y & Hy & Hf & Hk)] Hc' Hfs; [left; congruence|right]. exists y. split; [done|]. split; [done|].
  unfold file_kept in *. destruct (modified (hw s) D y).
  - destruct Hk as (m & Hm & Ho & f & Hfl & Hof & Hb). exists m. split; [done|]. split.
    + intros g Hg. destruct (Ho g Hg) as [G1 <-], (Hfs g) as [G2 ->]; done.
    + exists f. split; [done|]. split; [done|]. destruct (Ho f Hof) as [G1 _], (Hfs f) as [_ ->]; done.
  - intros g Hg. destruct (Hk g Hg) as [G1 <-]. by apply Hfs.
Qed.

Lemma restored_back s s1 t O' D D' p k x x' reg : restored s1 t O' D' p k x' reg → core x' = core x → kaddr (back k x') ≠ 0 →
  content s1 p = content s p → (∀ q, kept s s1 D q) →
  threads s1 = threads s → fmaps s1 = fmaps s → cr3 (hw s1) = cr3 (hw s) → came_back s t D D' p x reg.
Proof.
  intros [R1 R2 R3 R4 R5 R6 R7] Hc Hk Hcp Hkept E1 E2 E3. destruct R7 as (F1 & F2 & F3 & F4 & F5). split; try done.
  - exists k, x'. split; [by rewrite R3, lookup_insert_eq|]. split; [done|].
    pose proof (core_fields _ _ Hc) as (Ev & _ & _ & Ep & _). split; [unfold maps_to, entry in *; by rewrite <-Ev, <-Ep|].
    unfold content. rewrite R3, lookup_insert_eq. cbn [mbind option_bind]. unfold resident. by rewrite bool_decide_true.
  - by rewrite R5.
  - intros q. eapply kept_same; [done|done|]. rewrite F1. by intros g Hg.
  - intros ->. rewrite R6. set_solver.
  - split_and!; congruence.
Qed.

Lemma restore_ok s O D p x reg : vm_ok s O D → eviction_lock s = 1 → spages s !! p = Some x → location x = PG_LOCATION_SWAP →
  cr3 (hw s) = pagedir x - PHYS_BASE → (∀ k, in_area (L true) k → k - 786432 < ram_pages) →
  (∃ t O' D', restore_page_from_swap init_page_dir ram_pages p reg s = Ret (true, t) ∧ vm_ok t O' D' ∧ came_back s t D D' p x reg) ∨
  (∃ t O', restore_page_from_swap init_page_dir ram_pages p reg s = Ret (false, t) ∧ vm_ok t O' D ∧ eviction_lock t = 1 ∧
     content t p = content s p ∧ (∀ q, kept s t D q) ∧ no_memory s O).
Proof.
  intros Hok Hlock Hx Hloc Hc Hram. pose proof (vo_page _ _ _ _ _ Hok p x Hx) as [_ _ _ _ Hslot Hsw].
  destruct (Hslot (Hsw Hloc)) as (Hk0 & _). rewrite (restore_unfold p reg s x Hx Hlock Hloc (Hsw Hloc)).
  set (s0 := set_eviction_lock 0 s). pose proof (vm_ok_lock _ _ s O D 0 Hok) as Hok0. fold s0 in Hok0.
  destruct (get_spare s0 O D Hok0) as [(k & h & Hrun & Hk & Hok1 & Hsp & Hc1 & HkO & _ & _ & Hcq)|[Hrun Hno]].
  - rewrite (bind_run _ _ _ _ _ Hrun), decide_False, bind_ret, decide_False by lia.
    destruct (settle_ok (set_hw h s0) (page_run k 1 ∪ O) D p x k reg Hok1) as
      [(t & O' & D' & Hrun2 & Hre & _)|(h2 & Hrun2 & Hok2 & Hc2 & Hcq2 & Hno)]; try done; [etransitivity; [exact Hc1|exact Hc]|by apply Hram, Hsp| |].
    + left. exists t, O', D'. split; [done|]. split; [apply Hre|].
      apply (restored_back s (set_hw h s0) t O' D D' p k x x reg); try done; [cbn; lia|intros q; left; apply Hcq].
    + right. eexists _, _. split; [done|]. split; [by apply vm_ok_lock|]. split; [done|]. split; [|split].
      * etransitivity; [apply Hcq2|apply Hcq].
      * intros q. left. etransitivity; [apply Hcq2|apply Hcq].
      * right. eexists. split; [done|]. intros i Hi. rewrite elem_of_union, elem_page_run. intros [Hik|?]; [|done].
        exfalso. apply (areas_apart L (ram (hw s)) O false i); [apply (vo_spaces _ _ _ _ _ Hok)|done|].
        destruct Hsp as (_ & Ha & _). by replace i with k by lia.
  - rewrite (bind_run _ _ _ _ _ Hrun), decide_True by done. rewrite bind_assoc.
    erewrite bind_run; [|by apply unlock_run]. change (set_eviction_lock 1 s0) with (set_eviction_lock 1 s).
    rewrite bind_assoc.
    destruct (evict_and_get_ok (set_eviction_lock 1 s) O D (vm_ok_lock _ _ s O D 1 Hok) eq_refl) as
      [(t & O' & k & Hrun2 & Hk & [Hokt Hsp _ Hlk Hpages Hkept _ _ (T1 & T2 & _ & T3) HO])|(t & Hrun2 & Hl & Hokt & Hlk & Hwhy)].
    + destruct (Hpages p x Hx Hk0) as [(x' & Hx' & Hcx) Hcp].
      rewrite (bind_run _ _ _ _ _ Hrun2), bind_assoc, (bind_run _ _ _ _ _ (lock_run t Hlk)), bind_ret, decide_False by lia.
      rewrite (settle_core p x x') by done. destruct (core_fields _ _ Hcx) as (Ev & Ek & Es & Ep & Em & El).
      destruct (settle_ok (set_eviction_lock 0 t) O' D p x' k reg (vm_ok_lock _ _ t O' D 0 Hokt)) as
        [(u & O2 & D' & Hrun3 & Hre & _)|(h2 & Hrun3 & Hok2 & Hc2 & Hcq2 & Hno2)]; try done;
        [congruence|rewrite Ep; etransitivity; [exact T3|exact Hc]|by apply Hram, Hsp| |].
      * left. exists u, O2, D'. split; [done|]. split; [apply Hre|].
        apply (restored_back s (set_eviction_lock 0 t) u O2 D D' p k x x' reg); try done. cbn. lia.
      * right. eexists _, _. split; [done|]. split; [by apply vm_ok_lock|]. split; [done|]. split; [|split].
        { etransitivity; [apply Hcq2|apply Hcp]. }
        { intros q. eapply (kept_same s t); [apply Hkept|apply Hcq2|done]. }
        right. exists (O' : gset Z). split; [done|]. exact HO.
    + rewrite (bind_run _ _ _ _ _ Hrun2), bind_assoc, (bind_run _ _ _ _ _ (lock_run t Hlk)), bind_ret, decide_True by done.
      erewrite bind_run; [|by apply unlock_run]. right. eexists _, O. split; [done|].
      split; [by apply vm_ok_lock, vm_ok_lock|]. split; [done|].
      assert (∀ q, content (set_eviction_lock 1 (set_eviction_lock 0 t)) q = content s q) as Hcq by (intros q; apply (latched_content D _ _ q Hl)).
      split; [done|]. split; [intros q; by left|]. left. split; [done|exact Hwhy].
Qed.
End restore.
