(* ===== verification/SupplPage.v ===== *)
(** Supplemental pages and page tables: vm/supplemental_page.c of Project5, and
    what page_fault of userprog/exception.c does with them. *)
From S2P Require Import Prelude Block Bitmap Palloc PageDir Vm Evict.
Local Open Scope Z_scope.

Section pages.
Context {F : Type} `{!FileOps F} (init_page_dir ram_pages : Z).

Definition free_page (page : Z) : M (vm F) unit := modify (λ s, set_spages (delete page (spages s)) s).

(** ** Pages *)

(** supplemental_page.c 33-43 suppl_page_init.  [vaddr] is not assigned. *)
Definition suppl_page_init (pagedir page : Z) : M (vm F) unit :=
  if decide (page = 0) then ret tt
  else upd_page page (λ x, mkSuppl (vaddr x) 0 SWAP_NO_PAGE pagedir 0 PG_LOCATION_UNKNOWN false false).

(** supplemental_page.c 45-50 suppl_page_new.  The memory may hold anything. *)
Definition suppl_page_new (pagedir : Z) : M (vm F) Z :=
  let! page := malloc in
  (if decide (page = 0) then ret tt else put_page page (mkSuppl 0 0 0 0 0 PG_LOCATION_UNKNOWN false false));;!
  suppl_page_init pagedir page;;!
  ret page.

(** supplemental_page.c 52-64 suppl_page_dispose *)
Definition suppl_page_dispose (page : Z) : M (vm F) unit :=
  if decide (page = 0) then ret tt
  else
    let! x := get_page page in
    assertM (bool_decide (pagedir x ≠ 0));;!
    (if decide (kaddr x ≠ 0) then
      undo_suppl_page_registration page;;!
      pagedir_clear_page_synch init_page_dir (pagedir x) (vaddr x);;!
      on_hw (in_ram (palloc_free_page (kaddr x)))
    else ret tt);;!
    (if decide (saddr x ≠ SWAP_NO_PAGE) then swap_free_page (saddr x) else ret tt);;!
    suppl_page_init (pagedir x) page.

(** supplemental_page.c 66-70 suppl_page_delete *)
Definition suppl_page_delete (page : Z) : M (vm F) unit :=
  suppl_page_dispose page;;!
  if decide (page ≠ 0) then free_page page else ret tt.

(** supplemental_page.c 88-114 set_kpage_if_needed *)
Definition set_kpage_if_needed (page : Z) : M (vm F) bool :=
  let! x := get_page page in
  let kpage := kaddr x in
  undo_suppl_page_registration page;;!
  let kpage_new := bool_decide (kpage = 0) in
  let! d := (if kpage_new then suppl_page_dirty page else ret true) in
  let! kpage := (if kpage_new && negb d then on_hw (in_ram (palloc_get_page (PAL_USER + PAL_ZERO))) else ret kpage) in
  let! x := get_page page in
  if decide (kpage = 0 ∧ location x = PG_LOCATION_SWAP) then
    restore_page_from_swap init_page_dir ram_pages page false
  else
    let! kpage := (if decide (kpage = 0) then evict_and_get_kaddr init_page_dir else ret kpage) in
    if decide (kpage = 0) then ret false
    else if kpage_new then
      let! ok := pagedir_set_page_synch init_page_dir ram_pages (pagedir x) (vaddr x) kpage true in
      if negb ok then on_hw (in_ram (palloc_free_page kpage));;! ret false
      else upd_page page (set_kaddr kpage);;! ret true
    else ret true.

(** supplemental_page.c 155-182 suppl_page_load_to_file *)
Definition suppl_page_load_to_file (page : Z) (eviction_call : bool) : M (vm F) bool :=
  load_to_file (if eviction_call then has_kpage else set_kpage_if_needed) page eviction_call.

(** supplemental_page.c 125-139 suppl_page_load_from_file, the loop.  [n] bytes of
    the page are left; each round takes one at least, but for one that only
    finds that the file ends before the page. *)
Fixpoint fill_loop (fuel : nat) (m : file_mapping) (page start buff : Z) (file_r : bool) : M (vm F) unit :=
  match fuel with
  | O => throw OutOfFuel
  | S fuel =>
      let end_ := u32 (start + PAGE_SIZE) in
      if decide (buff < end_) then
        write_user buff [0];;!
        if negb file_r && bool_decide (start_vaddr m ≤ buff) then
          let fl_end := u32 (start_vaddr m + (file_size m - offset m)) in
          let! buff := (if decide (fl_end > buff) then
              let buf_sz := u32 (PAGE_SIZE - (buff - start)) in
              let till_fl_end := u32 (fl_end - buff) in
              let buf_sz := if decide (till_fl_end < buf_sz) then till_fl_end else buf_sz in
              on_fs (file_seek (fl m) (s32 (buff - start_vaddr m + offset m)));;!
              let! f := lift (or_fault (fl m)) in
              let! x := get_page page in
              let! d := on_fs (file_read f (s32 buf_sz)) in
              write_kernel (pg_round_down (kaddr x) + (buff - start)) d;;!
              ret (u32 (buff + Z.of_nat (length d)))
            else ret buff) in
          fill_loop fuel m page start buff true
        else fill_loop fuel m page start (u32 (buff + 1)) file_r
      else ret tt
  end.

(** supplemental_page.c 116-154 suppl_page_load_from_file *)
Definition suppl_page_load_from_file (page : Z) : M (vm F) bool :=
  let! x := get_page page in
  assertM (bool_decide (location x = PG_LOCATION_FILE) && bool_decide (mapping x ≠ 0));;!
  let! m := get_fmap (mapping x) in
  if decide (fl m = None) then ret false
  else
    let! ok := set_kpage_if_needed page in
    if negb ok then ret false
    else
      fill_loop (Z.to_nat (PAGE_SIZE + 2)) m page (vaddr x) (vaddr x) false;;!
      on_hw (pagedir_set_dirty init_page_dir (pagedir x) (vaddr x) false);;!
      (if negb (writable m) then
        pagedir_clear_page_synch init_page_dir (pagedir x) (vaddr x);;!
        let! x := get_page page in
        let! ok := pagedir_set_page_synch init_page_dir ram_pages (pagedir x) (vaddr x) (kaddr x) false in
        if negb ok then on_hw (in_ram (palloc_free_page (kaddr x)));;! throw Panic else ret tt
      else ret tt);;!
      register_suppl_page page;;!
      upd_page page (set_location PG_LOCATION_RAM);;!
      ret true.

(** ** Page tables *)

(** supplemental_page.c 185-198 suppl_pt_new.  The hash table needs memory too. *)
Definition suppl_pt_new : M (vm F) (option (gmap Z Z)) :=
  let! pt := malloc in
  if decide (pt = 0) then ret None
  else
    let! buckets := malloc in
    assertM (bool_decide (buckets ≠ 0));;!
    ret (Some ∅).

(** supplemental_page.c 200-210 suppl_pt_delete *)
Definition suppl_pt_delete (pt : option (gmap Z Z)) : M (vm F) unit :=
  match pt with
  | None => ret tt
  | Some pages => foldr (λ x rest, suppl_page_delete x.2;;! rest) (ret tt) (map_to_list pages)
  end.

(** [hash_insert (&t->suppl_page_table->pages_map, &page->hash_elem)] *)
Definition insert_page (t page : Z) : M (vm F) unit :=
  let! x := get_page page in
  let! th := get_thread t in
  let! pages := lift (or_fault (suppl_page_table th)) in
  if decide (is_Some (pages !! vaddr x)) then ret tt
  else put_thread t (mkThread (t_pagedir th) (Some (<[vaddr x := page]> pages)) (mem_mappings th)).

(** supplemental_page.c 212-231 suppl_table_set_page *)
Definition suppl_table_set_page (t upage kpage : Z) (rw : bool) : M (vm F) bool :=
  let upage := pg_round_down upage in
  let! th := get_thread t in
  let! page := suppl_page_new (t_pagedir th) in
  if decide (page = 0) then ret false
  else
    let! ok := pagedir_set_page_synch init_page_dir ram_pages (t_pagedir th) upage kpage rw in
    if negb ok then suppl_page_delete page;;! ret false
    else
      upd_page page (λ x, set_accessed true (set_dirty true (set_location PG_LOCATION_RAM (set_kaddr kpage (set_vaddr upage x)))));;!
      on_hw (pagedir_set_dirty init_page_dir (t_pagedir th) upage true);;!
      register_suppl_page page;;!
      insert_page t page;;!
      ret true.

(** supplemental_page.c 233-249 suppl_table_set_file_mapping *)
Definition suppl_table_set_file_mapping (t upage mapping : Z) : M (vm F) bool :=
  let upage := pg_round_down upage in
  assertM (bool_decide (pg_ofs upage = 0));;!
  assertM (bool_decide (mapping ≠ 0));;!
  let! th := get_thread t in
  let! page := suppl_page_new (t_pagedir th) in
  if decide (page = 0) then ret false
  else
    upd_page page (λ x, set_location PG_LOCATION_FILE (set_mapping mapping (set_vaddr upage x)));;!
    insert_page t page;;!
    ret true.

(** supplemental_page.c 251-263 suppl_table_alloc_user_page *)
Definition suppl_table_alloc_user_page (t upage : Z) (writeable : bool) : M (vm F) bool :=
  let! kpage := on_hw (in_ram (palloc_get_page (PAL_USER + PAL_ZERO))) in
  let! kpage := (if decide (kpage = 0) then evict_and_get_kaddr init_page_dir else ret kpage) in
  if decide (kpage = 0) then ret false
  else
    let! ok := suppl_table_set_page t upage kpage writeable in
    if negb ok then on_hw (in_ram (palloc_free_page kpage));;! ret false
    else ret true.

(** supplemental_page.c 265-272 suppl_pt_lookup *)
Definition suppl_pt_lookup (t vaddr : Z) : M (vm F) Z :=
  let! th := get_thread t in
  let! pages := lift (or_fault (suppl_page_table th)) in
  ret (default 0 (pages !! pg_round_down vaddr)).

(** exception.c 155-169 page_fault, up to giving up: is the page there now? *)
Definition page_fault (t : Z) (not_present : bool) (fault_addr esp : Z) : M (vm F) bool :=
  let! th := get_thread t in
  if not_present && bool_decide (is_Some (suppl_page_table th)) then
    let! page := suppl_pt_lookup t fault_addr in
    if decide (page ≠ 0) then
      let! x := get_page page in
      match location x with
      | PG_LOCATION_SWAP => restore_page_from_swap init_page_dir ram_pages page true
      | PG_LOCATION_FILE => suppl_page_load_from_file page
      | _ => ret false
      end
    else if stack_grow_needed fault_addr esp then suppl_table_alloc_user_page t fault_addr true
    else ret false
  else ret false.
End pages.
