(* ===== verification/Grow.v ===== *)
(** Pages are added: suppl_table_alloc_user_page and suppl_table_set_page of
    vm/supplemental_page.c. *)
From S2P Require Import Prelude Block Bitmap Palloc PallocSpec PageDir PageDirLaws Frames Vm Evict VmLaws EvictLaws Clock Restore SupplPage.
Local Open Scope Z_scope.
Local Abbreviation dirs := (gmap Z (gmap Z Z)).

Section grow.
Context {F : Type} `{!FileOps F} `{!FileLaws F} (init_page_dir : Z) (L : bool → area).
Implicit Types s t u : vm F.
Local Abbreviation vm_ok := (vm_ok init_page_dir L).

(** ** One page comes or goes *)
Lemma page_ok_same s t O D x : hw t = hw s → alloc_map t = alloc_map s → page_ok L s O D x → page_ok L t O D x.
Proof. intros E1 E2 [A1 A2 A3 A4 A5 A6]. split; rewrite ?E1; unfold swap_pages, used in *; rewrite ?E2; done. Qed.

Lemma mapping_ok_same s t x m : fs t = fs s → mapping_ok s x m → mapping_ok t x m.
Proof. intros E [A1 A2 A3 A4 A5]. split; rewrite ?E; done. Qed.

Lemma vm_ok_delete s O D p : vm_ok s O D → (p ∉ page_list s) → vm_ok (set_spages (delete p (spages s)) s) O D.
Proof.
  intros [H1 H2 H4 H3 H5 H6 H7 H8 H9] Hp.
  assert (∀ q y, delete p (spages s) !! q = Some y → spages s !! q = Some y) as Hd by (intros q y [_ ?]%lookup_delete_Some; done).
  split; try done; [by apply (swap_ok_same s)|by apply lookup_delete_None; right| | | |].
  - intros q Hq. destruct (H6 q Hq) as (x & Hx & Hk). exists x. split; [|done]. cbn. rewrite lookup_delete_ne; [done|]. by intros ->.
  - intros q y Hy%Hd. by apply (page_ok_same s), (H7 q).
  - intros q r y z Hy%Hd Hz%Hd. by apply (H8 q r).
  - intros q y Hy%Hd Hm. destruct (H9 q y Hy Hm) as (m & ? & ?). exists m. split; [done|by apply (mapping_ok_same s)].
Qed.

Lemma apart_sym x y : apart x y → apart y x.
Proof. intros (A & B & C). split_and!; [intros H E; apply A; congruence|intros H E; apply B; congruence|]. intros [E1 E2]. by apply C. Qed.

Lemma vm_ok_insert s O D p x : vm_ok s O D → spages s !! p = None → p ≠ 0 → page_ok L s O D x →
  (∀ q y, spages s !! q = Some y → apart x y) →
  (mapping x ≠ 0 → ∃ m, fmaps s !! mapping x = Some m ∧ mapping_ok s x m) →
  vm_ok (set_spages (<[p := x]> (spages s)) s) O D.
Proof.
  intros [H1 H2 H4 H3 H5 H6 H7 H8 H9] Hp Hp0 Hx Hap Hm.
  assert (∀ q y, <[p := x]> (spages s) !! q = Some y → (q = p ∧ y = x) ∨ (q ≠ p ∧ spages s !! q = Some y)) as Hd
    by (intros q y [[<- <-]|[? ?]]%lookup_insert_Some; auto).
  split; try done; [by apply (swap_ok_same s)|cbn; by rewrite lookup_insert_ne| | | |].
  - intros q Hq. destruct (H6 q Hq) as (y & Hy & Hk). exists y. split; [|done]. cbn. rewrite lookup_insert_ne; [done|congruence].
  - intros q y [[-> ->]|[_ Hy]]%Hd; apply (page_ok_same s); try done. by apply (H7 q).
  - intros q r y z [[-> ->]|[Hq Hy]]%Hd [[-> ->]|[Hr Hz]]%Hd Hne; [done|by eapply Hap|by eapply apart_sym, Hap|by apply (H8 q r)].
  - intros q y [[-> ->]|[_ Hy]]%Hd Hmy.
    + destruct (Hm Hmy) as (m & ? & ?). exists m. split; [done|by apply (mapping_ok_same s)].
    + destruct (H9 q y Hy Hmy) as (m & ? & ?). exists m. split; [done|by apply (mapping_ok_same s)].
Qed.

Lemma vm_ok_push s O D p x : vm_ok s O D → spages s !! p = Some x → kaddr x ≠ 0 → (p ∉ page_list s) →
  vm_ok (set_page_list (p :: page_list s) s) O D.
Proof.
  intros [H1 H2 H4 H3 H5 H6 H7 H8 H9] Hx Hk Hp. split; try done; [by apply (swap_ok_same s)| | | | |].
  - by apply NoDup_cons.
  - intros e He%H5. cbn. set_solver.
  - intros q [->|Hq]%elem_of_cons; [by exists x|by apply H6].
  - intros q y Hy. by apply (page_ok_same s), (H7 q).
  - intros q y Hy Hm. destruct (H9 q y Hy Hm) as (m & ? & ?). exists m. split; [done|by apply (mapping_ok_same s)].
Qed.

Lemma vm_ok_threads s O D m n : vm_ok s O D → vm_ok (set_threads m (set_mallocs n s)) O D.
Proof.
  intros [H1 H2 H4 H3 H5 H6 H7 H8 H9]. split; try done; [by apply (swap_ok_same s)| |].
  - intros q y Hy. by apply (page_ok_same s), (H7 q).
  - intros q y Hy Hm. destruct (H9 q y Hy Hm) as (m' & ? & ?). exists m'. split; [done|by apply (mapping_ok_same s)].
Qed.

Lemma content_insert s p x q : q ≠ p → content (set_spages (<[p := x]> (spages s)) s) q = content s q.
Proof. intros Hne. unfold content. cbn [spages hw swap_block set_spages]. by rewrite lookup_insert_ne. Qed.

(** ** An entry that no page has changes *)
Definition unplaced s (pd v : Z) : Prop :=
  ∀ q y, spages s !! q = Some y → ¬ (pagedir y / 4096 = pd ∧ vaddr y / 4096 = v / 4096).

Lemma vm_ok_entry s O D h O' D' pd v e : vm_ok s O D → spaces init_page_dir L h O' D' → beside (hw s) O D h O' D' →
  one_entry (entry_of (hw s) D) (entry_of h D') pd (v / 4096) e → unplaced s pd v →
  vm_ok (set_hw h s) O' D' ∧ (∀ q, content (set_hw h s) q = content s q) ∧
  ∀ a k, in_area (L true) k → k ∈ O → a / 4096 = k → memory h a = memory (hw s) a.
Proof.
  intros Hok Hs Hbe [E1 E2] Hun.
  assert (∀ a k, in_area (L true) k → k ∈ O → a / 4096 = k → memory h a = memory (hw s) a) as Hm.
  { intros a k Ha Hk <-. apply (be_memory _ _ _ _ _ _ Hbe); [done|].
    apply (table_not_user init_page_dir L (hw s) O D); [apply Hok|done]. }
  split; [|split; [|done]].
  - apply (vm_ok_hw init_page_dir L s O D); try done.
    + intros p. by apply Hbe.
    + intros q y Hy. assert (entry h D' y = entry (hw s) D y) as ->; [|done]. unfold entry. apply E2; [|by apply (Hun q y)].
      apply user_page, (pg_vaddr _ _ _ _ _ (vo_page _ _ _ _ _ Hok q y Hy)).
    + intros q y j _ _ _. apply (be_owned _ _ _ _ _ _ Hbe).
  - intros q. apply (content_hw init_page_dir L s O D); [done|]. intros y j a _ _ Hj Ha Ea. by apply (Hm a j).
Qed.

(** ** suppl_table_set_page *)
Context (ram_pages : Z).

Definition next_malloc s : Z := default 0 (default None (head (mallocs s))).
Definition after_malloc s : vm F := set_mallocs (tail (mallocs s)) s.

(** The new page [p], at [v] in the directory [pd], has the frame [k]. *)
Definition grown_page (pd v k : Z) : suppl_page := mkSuppl v (4096 * k) SWAP_NO_PAGE (4096 * pd) 0 PG_LOCATION_RAM true true.

Record grown s u (O O' : gset Z) (D D' : dirs) (t p pd v k : Z) (rw : bool) : Prop := {
  gr_ok : vm_ok u O' D';
  gr_lock : eviction_lock u = 1;
  gr_pages : spages u = <[p := grown_page pd v k]> (spages s);
  gr_list : page_list u = p :: page_list s;
  gr_entry : entry_of (hw u) D' pd (v / 4096) = mkEntry true (4096 * k) rw false true;
  gr_table : ∃ th pages, threads s !! t = Some th ∧ suppl_page_table th = Some pages ∧
    threads u = <[t := mkThread (t_pagedir th) (Some (<[v := p]> pages)) (mem_mappings th)]> (threads s);
  gr_frame a : a / 4096 = k → memory (hw u) a = memory (hw s) a;
  gr_others q : q ≠ p → content u q = content s q;
  gr_files : fs u = fs s ∧ fmaps u = fmaps s ∧ cr3 (hw u) = cr3 (hw s);
}.

(** A place for a page in the process [t]: not in its table, nor in another page. *)
Record place s (D : dirs) (t pd v : Z) : Prop := {
  pl_thread : ∃ th pages, threads s !! t = Some th ∧ t_pagedir th = 4096 * pd ∧ suppl_page_table th = Some pages ∧ pages !! v = None;
  pl_dir : is_Some (D !! pd);
  pl_addr : 0 ≤ v < PHYS_BASE ∧ v mod 4096 = 0;
  pl_absent : e_present (entry_of (hw s) D pd (v / 4096)) = false;
  pl_unplaced : unplaced s pd v;
}.

(** malloc gives memory that is not in use, or none. *)
Definition fresh_malloc s : Prop := next_malloc s ≠ 0 → spages s !! next_malloc s = None.

Lemma pg_round_down_aligned v : 0 ≤ v < PHYS_BASE → v mod 4096 = 0 → pg_round_down v = v.
Proof.
  change PHYS_BASE with 3221225472. intros Hv Hal. replace v with (4096 * (v / 4096)) by mlia. apply pg_round_down_page. mlia.
Qed.

Lemma new_page_run s pd : next_malloc s ≠ 0 →
  suppl_page_new pd s = Ret (next_malloc s,
    set_spages (<[next_malloc s := mkSuppl 0 0 SWAP_NO_PAGE pd 0 PG_LOCATION_UNKNOWN false false]> (spages s)) (after_malloc s)).
Proof.
  intros Hp. unfold suppl_page_new. assert (malloc s = Ret (next_malloc s, after_malloc s)) as Hm by done.
  rewrite (bind_run _ _ _ _ _ Hm), decide_False by done. set (x0 := mkSuppl 0 0 0 0 0 _ _ _).
  assert (put_page (next_malloc s) x0 (after_malloc s) = Ret (tt, set_spages (<[next_malloc s := x0]> (spages s)) (after_malloc s))) as Hput by done.
  rewrite (bind_run _ _ _ _ _ Hput). unfold suppl_page_init. rewrite decide_False by done.
  erewrite bind_run; [|apply upd_page_run, lookup_insert_eq]. cbn. by rewrite insert_insert_eq.
Qed.

Lemma delete_new_run s p x : spages s !! p = Some x → p ≠ 0 → pagedir x ≠ 0 → kaddr x = 0 → saddr x = SWAP_NO_PAGE →
  suppl_page_delete init_page_dir p s = Ret (tt, set_spages (delete p (spages s)) s).
Proof.
  intros Hx Hp Hd Hk Hs. unfold suppl_page_delete, suppl_page_dispose. rewrite decide_False by done.
  rewrite bind_assoc, (bind_run _ _ _ _ _ (get_page_run s p x Hx)), bind_assoc, bind_assert by (by apply bool_decide_true).
  rewrite bind_assoc, (decide_False (P := kaddr x ≠ 0)) by lia. rewrite bind_ret, bind_assoc.
  rewrite (decide_False (P := saddr x ≠ SWAP_NO_PAGE)) by (by rewrite Hs; intros []). rewrite bind_ret. unfold suppl_page_init.
  rewrite decide_False by done. erewrite bind_run; [|by apply upd_page_run]. rewrite decide_True by done.
  unfold free_page, modify. cbn. by rewrite delete_insert_eq.
Qed.

Lemma set_page_synch_run s pd v kpage rw b h : eviction_lock s = 1 →
  pagedir_set_page init_page_dir ram_pages pd v kpage rw (hw s) = Ret (b, h) →
  pagedir_set_page_synch init_page_dir ram_pages pd v kpage rw s = Ret (b, set_hw h s).
Proof.
  intros Hlock Hrun. unfold pagedir_set_page_synch. rewrite (bind_run _ _ _ _ _ (lock_run s Hlock)).
  rewrite (bind_run _ _ _ b (set_hw h (set_eviction_lock 0 s))) by (by apply on_hw_run).
  erewrite bind_run; [|by apply unlock_run]. unfold ret. do 2 f_equal. by destruct s; cbn in *; subst.
Qed.

Lemma insert_page_run s (t p : Z) x th pages : spages s !! p = Some x → threads s !! t = Some th → suppl_page_table th = Some pages →
  pages !! vaddr x = None →
  insert_page t p s = Ret (tt, set_threads (<[t := mkThread (t_pagedir th) (Some (<[vaddr x := p]> pages)) (mem_mappings th)]> (threads s)) s).
Proof.
  intros Hx Ht Hp Hn. unfold insert_page. rewrite (bind_run _ _ _ _ _ (get_page_run s p x Hx)).
  assert (get_thread t s = Ret (th, s)) as Hg by (unfold get_thread; by rewrite Ht).
  rewrite (bind_run _ _ _ _ _ Hg), Hp. cbn [or_fault]. rewrite bind_lift, decide_False by (rewrite Hn; by intros []). done.
Qed.

Lemma spare_known s O D k : vm_ok s O D → spare L s O k → 786432 ≤ k < 1048576 ∧ k ≠ 0.
Proof.
  intros Hok (_ & Ha & _). pose proof (vo_spaces _ _ _ _ _ Hok) as Hs. unfold in_area in Ha.
  pose proof (po_range _ _ _ (ow_pool _ _ _ (sp_owns _ _ _ _ _ Hs) true)). pose proof (sp_high _ _ _ _ _ Hs).
  pose proof (ow_apart _ _ _ (sp_owns _ _ _ _ _ Hs)). pose proof (ow_pool _ _ _ (sp_owns _ _ _ _ _ Hs) false) as [W _ _ Hc _ _].
  pose proof (wf_cnt _ W). lia.
Qed.

(** The new page is in order. *)
Lemma grown_ok s O D h pd v k p e : vm_ok s O D → spages s !! p = None → p ≠ 0 → spare L s O k →
  is_Some (D !! pd) → 0 ≤ v < PHYS_BASE ∧ v mod 4096 = 0 → unplaced s pd v → hw s = h →
  entry_of h D pd (v / 4096) = e → e_present e = true → e_frame e = 4096 * k →
  vm_ok (set_spages (<[p := grown_page pd v k]> (spages s)) s) O D.
Proof.
  intros Hok Hp Hp0 Hsp Hd [Hv Hal] Hun Eh He Hpr Hfr. destruct (spare_known s O D k Hok Hsp) as [_ Hk0].
  destruct Hsp as (HkO & Hka & Hfree). assert (4096 * pd / 4096 = pd) as Epd by mlia.
  apply vm_ok_insert; try done.
  - split; unfold entry; cbn [pagedir vaddr kaddr saddr location grown_page]; try done; [split; [mlia|by rewrite Epd]| |lia].
    intros _. exists k. rewrite Epd, Eh, He. done.
  - intros q y Hy. split_and!; cbn [pagedir vaddr kaddr saddr grown_page]; [intros _; by apply not_eq_sym, (Hfree q)|by intros []|].
    intros [E1 E2]. apply (Hun q y Hy). rewrite <-E1, <-E2. done.
Qed.

Lemma set_page_run s O D (t : Z) pd v k rw : vm_ok s O D → eviction_lock s = 1 → place s D t pd v → spare L s O k → k - 786432 < ram_pages →
  fresh_malloc s →
  (∃ u O' D', suppl_table_set_page init_page_dir ram_pages t v (4096 * k) rw s = Ret (true, u) ∧ next_malloc s ≠ 0 ∧
     grown s u O O' D D' t (next_malloc s) pd v k rw) ∨
  (suppl_table_set_page init_page_dir ram_pages t v (4096 * k) rw s = Ret (false, after_malloc s) ∧
     (next_malloc s = 0 ∨ ∀ i, ¬ free_run (L false) O i 1)).
Proof.
  intros Hok Hlock [(th & pages & Ht & Epd & Hpt & Hpn) Hd [Hv Hal] Habs Hun] Hsp Hram Hfresh.
  destruct (spare_known s O D k Hok Hsp) as [Hkr Hk0]. pose proof Hsp as (HkO & Hka & _).
  unfold suppl_table_set_page. rewrite (pg_round_down_aligned v) by done.
  assert (get_thread t s = Ret (th, s)) as Hg by (unfold get_thread; by rewrite Ht).
  rewrite (bind_run _ _ _ _ _ Hg), Epd. destruct (decide (next_malloc s = 0)) as [Hm0|Hm0].
  { right. split; [|by left]. unfold suppl_page_new. assert (malloc s = Ret (0, after_malloc s)) as Hm by (by rewrite <-Hm0).
    rewrite bind_assoc, (bind_run _ _ _ _ _ Hm), decide_True, bind_assoc, bind_ret by done. unfold suppl_page_init.
    rewrite decide_True, bind_assoc, !bind_ret by done. by rewrite decide_True. }
  pose proof (Hfresh Hm0) as Hnone. rewrite (bind_run _ _ _ _ _ (new_page_run s (4096 * pd) Hm0)), decide_False by done.
  set (p := next_malloc s) in *. set (raw := mkSuppl 0 0 _ _ _ _ _ _). set (s1 := set_spages (<[p := raw]> (spages s)) (after_malloc s)).
  assert (4096 * pd ≠ 0) as Hpd0.
  { destruct Hd as [T HT]. destruct (sp_pd _ _ _ _ _ (vo_spaces _ _ _ _ _ Hok) pd T HT) as (_ & Ha & _). unfold in_area in Ha.
    pose proof (sp_high _ _ _ _ _ (vo_spaces _ _ _ _ _ Hok)). lia. }
  destruct (set_page_ok init_page_dir L ram_pages (hw s) O D pd v k rw (vo_spaces _ _ _ _ _ Hok) Hd Hv Hal) as
    [(h1 & O1 & D1 & Hrun & Hs1 & Hbe1 & He1)|[Hrun Hno]]; [lia|lia|done| |].
  2: { right. split; [|by right]. rewrite (bind_run _ _ _ false (set_hw (hw s) s1)) by (by apply set_page_synch_run).
       cbn [negb]. change (set_hw (hw s) s1) with s1.
       erewrite bind_run; [|apply (delete_new_run s1 p raw); [apply lookup_insert_eq|done..]].
       unfold ret. do 2 f_equal. unfold s1. cbn. rewrite delete_insert_id by done. by destruct s. }
  left. rewrite (bind_run _ _ _ true (set_hw h1 s1)) by (by apply set_page_synch_run). cbn [negb].
  erewrite bind_run; [|apply upd_page_run, lookup_insert_eq]. cbn [raw set_vaddr set_kaddr set_location set_dirty set_accessed
    vaddr kaddr saddr pagedir mapping location dirty accessed]. fold (grown_page pd v k). set (s2 := set_spages _ (set_hw h1 s1)).
  destruct (vm_ok_entry s O D h1 O1 D1 pd v _ Hok Hs1 Hbe1 He1 Hun) as (Hok1 & Hc1 & Hm1).
  assert (is_Some (D1 !! pd)) as Hd1 by (by apply Hbe1). pose proof He1 as [Ee1 _].
  destruct (assign_flag_ok init_page_dir L h1 O1 D1 pd v 6 true Hs1 Hd1 Hv ltac:(by right)) as (h2 & Hrun2 & Hs2 & Hbe2 & He2);
    [right; by rewrite Ee1|].
  assert (on_hw (pagedir_set_dirty init_page_dir (4096 * pd) v true) s2 = Ret (tt, set_hw h2 s2)) as Hrun2' by (apply on_hw_run; exact Hrun2).
  rewrite (bind_run _ _ _ _ _ Hrun2').
  destruct (vm_ok_entry (set_hw h1 s) O1 D1 h2 O1 D1 pd v _ Hok1 Hs2 Hbe2 He2 Hun) as (Hok2 & Hc2 & Hm2).
  erewrite bind_run; [|eapply (register_run (set_hw h2 s2) p); [apply lookup_insert_eq|cbn; lia|done]]. set (s3 := set_page_list _ (set_hw h2 s2)).
  erewrite bind_run; [|apply (insert_page_run s3 t p (grown_page pd v k) th pages); [apply lookup_insert_eq|done..]].
  assert (∀ X, set_threads X s3 = set_threads X (set_mallocs (mallocs (after_malloc s)) (set_page_list (p :: page_list s)
    (set_spages (<[p := grown_page pd v k]> (spages s)) (set_hw h2 (set_hw h1 s)))))) as Eu.
  { intros X. unfold s3, s2, s1. cbn. by rewrite insert_insert_eq. }
  rewrite Eu. eexists _, O1, D1. split; [done|]. split; [done|]. assert (HkO1 : k ∈ O1) by (by apply Hbe1).
  assert (p ∉ page_list s) as Hpl.
  { intros Hp. destruct (vo_listed _ _ _ _ _ Hok p Hp) as (y & Hy & _). congruence. }
  assert (Hent : entry_of h2 D1 pd (v / 4096) = mkEntry true (4096 * k) rw false true).
  { destruct He2 as [-> _]. by rewrite Ee1. }
  split; try done.
  - apply vm_ok_threads.
    apply (vm_ok_push (set_spages (<[p := grown_page pd v k]> (spages s)) (set_hw h2 (set_hw h1 s))) O1 D1 p (grown_page pd v k));
      [|apply lookup_insert_eq|cbn; lia|done].
    apply (grown_ok (set_hw h2 (set_hw h1 s)) O1 D1 h2 pd v k p (mkEntry true (4096 * k) rw false true)); try done.
    split; [done|]. split; [done|apply Hsp].
  - by exists th, pages.
  - intros a Ea. transitivity (memory h1 a); [by apply (Hm2 a k)|by apply (Hm1 a k)].
  - intros q Hq. transitivity (content (set_spages (<[p := grown_page pd v k]> (spages s)) (set_hw h2 (set_hw h1 s))) q).
    + done.
    + etransitivity; [apply (content_insert (set_hw h2 (set_hw h1 s)) p _ q Hq)|]. by rewrite Hc2, Hc1.
  - split_and!; try done. cbn. transitivity (cr3 h1); [apply Hbe2|apply Hbe1].
Qed.

(** ** suppl_table_alloc_user_page *)

(** A page of zeroes was added to the process [t] at [v]. *)
Record new_user_page s u (D D' : dirs) (t p pd v k : Z) (rw : bool) : Prop := {
  nu_lock : eviction_lock u = 1;
  nu_page : spages u !! p = Some (grown_page pd v k) ∧ p ∈ page_list u;
  nu_entry : entry_of (hw u) D' pd (v / 4096) = mkEntry true (4096 * k) rw false true;
  nu_table : ∃ th pages, threads s !! t = Some th ∧ suppl_page_table th = Some pages ∧
    threads u = <[t := mkThread (t_pagedir th) (Some (<[v := p]> pages)) (mem_mappings th)]> (threads s);
  nu_zero : content u p = Some (zero_page);
  nu_kept q : q ≠ p → kept s u D q;
}.

(** A frame was found, in a state [s1] that keeps the pages of [s]. *)
Lemma alloc_in s s1 O O1 D (t : Z) pd v k rw : vm_ok s1 O1 D → eviction_lock s1 = 1 → place s1 D t pd v → spare L s1 O1 k →
  k - 786432 < ram_pages → fresh_malloc s1 → threads s1 = threads s → next_malloc s1 = next_malloc s →
  (∀ a, a / 4096 = k → memory (hw s1) a = 0) → (∀ q, kept s s1 D q) →
  (∀ i, in_area (L false) i → i ∈ O1 → i ∈ O) →
  let run := (let! ok := suppl_table_set_page init_page_dir ram_pages t v (4096 * k) rw in
    if negb ok then on_hw (in_ram (palloc_free_page (4096 * k)));;! ret false else ret true) s1 in
  (∃ u O' D' p, run = Ret (true, u) ∧ vm_ok u O' D' ∧ new_user_page s u D D' t p pd v k rw) ∨
  (∃ u O', run = Ret (false, u) ∧ vm_ok u O' D ∧ eviction_lock u = 1 ∧ (∀ q, kept s u D q) ∧
     (next_malloc s = 0 ∨ no_memory L s O)).
Proof.
  intros Hok Hlock Hpl Hsp Hram Hfresh Ht Hnm Hz Hkept HO run. unfold run.
  destruct (set_page_run s1 O1 D t pd v k rw Hok Hlock Hpl Hsp Hram Hfresh) as
    [(u & O' & D' & Hrun & Hp & Hgr)|[Hrun Hwhy]]; rewrite (bind_run _ _ _ _ _ Hrun); cbn [negb].
  - left. exists u, O', D', (next_malloc s1). split; [done|]. split; [apply Hgr|].
    destruct Hgr as [G1 G2 G3 G4 G5 (th & pages & G6 & G6' & G6'') G7 G8 (G9 & _)]. split; try done.
    + split; [by rewrite G3, lookup_insert_eq|rewrite G4; by constructor].
    + exists th, pages. by rewrite <-Ht.
    + destruct (spare_known s1 O1 D k Hok Hsp) as [_ Hk0]. unfold content. rewrite G3, lookup_insert_eq. cbn [mbind option_bind].
      unfold resident. cbn [kaddr grown_page]. rewrite bool_decide_true by lia. f_equal.
      apply zero_bytes. intros a Ea. by rewrite G7, Hz.
    + intros q Hq. eapply (kept_same s s1); [done|by apply G8|]. rewrite G9. by intros g Hg.
  - right. assert (vm_ok (after_malloc s1) O1 D) as Hok2 by (apply (vm_ok_threads s1 O1 D (threads s1) (tail (mallocs s1)) Hok)).
    destruct (spare_freed init_page_dir L (after_malloc s1) O1 D k Hok2 Hsp) as (h & Hrun2 & Hok3 & _ & Hcq).
    rewrite (bind_run _ _ _ _ _ Hrun2). eexists _, _. split; [done|]. split; [done|]. split; [done|]. split.
    + intros q. eapply (kept_same s s1); [done| |done]. by rewrite Hcq.
    + destruct Hwhy as [Hm|Hno]; [left; congruence|right]. right. by exists O1.
Qed.

Lemma alloc_ok s O D (t : Z) pd v rw : vm_ok s O D → eviction_lock s = 1 → place s D t pd v →
  (∀ k, in_area (L true) k → k - 786432 < ram_pages) → fresh_malloc s →
  (∃ u O' D' p k, suppl_table_alloc_user_page init_page_dir ram_pages t v rw s = Ret (true, u) ∧ vm_ok u O' D' ∧
     new_user_page s u D D' t p pd v k rw) ∨
  (∃ u O', suppl_table_alloc_user_page init_page_dir ram_pages t v rw s = Ret (false, u) ∧ vm_ok u O' D ∧
     eviction_lock u = 1 ∧ (∀ q, kept s u D q) ∧ (next_malloc s = 0 ∨ no_memory L s O)).
Proof.
  intros Hok Hlock Hpl Hram Hfresh. pose proof Hpl as [Hth Hd [Hv Hal] Habs Hun]. unfold suppl_table_alloc_user_page.
  destruct (get_spare init_page_dir L s O D Hok) as [(k & h & Hrun & Hk & Hok1 & Hsp & Hc1 & HkO & Hz & He & Hcq)|[Hrun Hno]];
    rewrite (bind_run _ _ _ _ _ Hrun).
  - rewrite decide_False, bind_ret, decide_False by lia.
    destruct (alloc_in s (set_hw h s) O (page_run k 1 ∪ O) D t pd v k rw Hok1 Hlock) as [(u & O' & D' & p & H)|H]; try done.
    + split; try done. change (hw (set_hw h s)) with h. by rewrite He.
    + by apply Hram, Hsp.
    + intros q. by left.
    + intros i Hi. rewrite elem_of_union, elem_page_run. intros [Hik|?]; [|done]. exfalso.
      apply (areas_apart L (ram (hw s)) O false i); [apply (vo_spaces _ _ _ _ _ Hok)|done|].
      destruct Hsp as (_ & Ha & _). by replace i with k by lia.
    + left. by exists u, O', D', p, k.
    + by right.
  - rewrite decide_True by done.
    destruct (evict_and_get_ok init_page_dir L s O D Hok Hlock) as [(u & O' & k & Hrun2 & Hk & [Hoku Hsp Hz Hlk _ Hkept Hpls Hent (T1 & T2 & T3 & T4) HO])|(u & Hrun2 & Hl & Hoku & Hlk & Hwhy)];
      rewrite (bind_run _ _ _ _ _ Hrun2).
    + rewrite decide_False by lia. assert (next_malloc u = next_malloc s) as Enm by (unfold next_malloc; by rewrite T3).
      destruct (alloc_in s u O O' D t pd v k rw Hoku Hlk) as [(w & O2 & D' & p & H)|H]; try done.
      * assert (4096 * pd / 4096 = pd) as Epd by mlia. split; try done.
        -- by rewrite T1.
        -- pose proof (Hent (mkSuppl v 0 0 (4096 * pd) 0 PG_LOCATION_RAM false false)) as E.
           unfold entry in E. cbn [vaddr pagedir] in E. rewrite Epd in E. rewrite E; [done|done|]. exact Hun.
        -- intros q y Hy. specialize (Hpls q). rewrite Hy in Hpls. inversion Hpls as [y0 ? [E1 E2] E3|]; subst. rewrite E1, E2. by apply (Hun q).
      * by apply Hram, Hsp.
      * intros Hm. rewrite Enm in *. specialize (Hpls (next_malloc s)). rewrite (Hfresh Hm) in Hpls. by inversion Hpls.
      * left. by exists w, O2, D', p, k.
      * by right.
    + rewrite decide_True by done. right. exists u, O. split; [done|]. split; [done|]. split; [done|].
      split; [intros q; left; by apply (latched_content D)|]. right. by left.
Qed.
End grow.
