(* ===== verification/LoadFile.v ===== *)
(** A page comes from its file: suppl_page_load_from_file of
    vm/supplemental_page.c. *)
From S2P Require Import Prelude Block Bitmap Palloc PallocSpec PageDir PageDirLaws Frames Vm Evict VmLaws EvictLaws Clock Restore SupplPage Grow.
Local Open Scope Z_scope.
Local Abbreviation dirs := (gmap Z (gmap Z Z)).

Section load_file.
Context {F : Type} `{!FileOps F} `{!FileLaws F} (init_page_dir : Z) (L : bool → area).
Implicit Types s t u : vm F.
Local Abbreviation vm_ok := (vm_ok init_page_dir L).

(** ** Filling a page *)

(** The bytes of the file for the page [x], and the page they make. *)
Definition file_part (m : file_mapping) (x : suppl_page) (bytes : list Z) : list Z :=
  take (Z.to_nat (in_file m x)) (drop (Z.to_nat (vaddr x - start_vaddr m + offset m)) bytes).
Definition file_page (m : file_mapping) (x : suppl_page) (bytes : list Z) : list Z :=
  let l := file_part m x bytes in l ++ replicate (4096 - length l) 0.

(** A frame in which a page is being made, mapped for writing. *)
Record filling (h h' : mmu) (O : gset Z) (D : dirs) (x : suppl_page) (k : Z) : Prop := {
  fi_spaces : spaces init_page_dir L h' O D;
  fi_maps : maps_to h' D x k;
  fi_rest : unnoticed h h' O D D x k;
}.

Lemma filling_trans h h1 h2 O D x k : filling h h1 O D x k → filling h1 h2 O D x k → filling h h2 O D x k.
Proof. intros [A1 A2 A3] [B1 B2 B3]. split; [done|done|by eapply unnoticed_trans]. Qed.

Lemma page_end D x : placed D x → u32 (vaddr x + PAGE_SIZE) = vaddr x + 4096 ∧ vaddr x + 4096 ≤ PHYS_BASE.
Proof. intros [_ [Hv Hal]]. change PAGE_SIZE with 4096. change PHYS_BASE with 3221225472 in *. rewrite u32_small; mlia. Qed.

Lemma fill_tail m p x k O D : placed D x → in_area (L true) k → k ∈ O → ∀ n fuel s buff,
  filling (hw s) (hw s) O D x k → cr3 (hw s) = pagedir x - PHYS_BASE →
  buff + Z.of_nat n = vaddr x + 4096 → vaddr x ≤ buff → (n < fuel)%nat →
  ∃ h, fill_loop fuel m p (vaddr x) buff true s = Ret (tt, set_hw h s) ∧ filling (hw s) h O D x k ∧
    ∀ a, a / 4096 = k → memory h a = if decide (4096 * k + (buff - vaddr x) ≤ a) then 0 else memory (hw s) a.
Proof.
  intros Hpl Ha Hk. destruct (page_end D x Hpl) as [He Hpb]. change PHYS_BASE with 3221225472 in Hpb.
  pose proof Hpl as [_ [Hv _]].
  induction n as [|n IH]; intros fuel s buff Hf Hc Hb Hlo Hfuel; (destruct fuel as [|fuel]; [lia|]); cbn [fill_loop]; rewrite He.
  - rewrite decide_False by lia. exists (hw s). rewrite set_hw_id. split; [done|]. split; [done|]. intros a Ea. rewrite decide_False by mlia. done.
  - rewrite decide_True by lia.
    destruct (write_user_ok init_page_dir L s O D x k buff [0]) as (h1 & Hrun & Hs1 & Hm1 & Hun1 & Hmem1);
      [apply Hf|done|done|apply Hf|done|done|done|simpl; lia|simpl; lia|by constructor|].
    rewrite (bind_run _ _ _ _ _ Hrun). cbn [negb andb]. rewrite u32_small by lia.
    destruct (IH fuel (set_hw h1 s) (buff + 1)) as (h & Hrun2 & Hf2 & Hmem2).
    + split; [done|done|done].
    + cbn [hw set_hw]. by rewrite (un_cr3 _ _ _ _ _ _ _ Hun1).
    + lia. + lia. + lia.
    + exists h. split; [exact Hrun2|]. split; [by apply (filling_trans (hw s) h1)|].
      intros a Ea. rewrite Hmem2 by done. cbn [hw set_hw]. rewrite Hmem1 by done. unfold written. cbn [length].
      repeat case_decide; try lia; try done. replace (Z.to_nat _) with 0%nat by lia. done.
Qed.

(** The first round, which reads the file. *)
Lemma fill_page_ok s O D p x m k f last : (4096 < last)%nat → placed D x → in_area (L true) k → k ∈ O → filling (hw s) (hw s) O D x k →
  cr3 (hw s) = pagedir x - PHYS_BASE → spages s !! p = Some x → kaddr x = 4096 * k → 0 ≤ k < 1048576 →
  mapping_ok s x m → fl m = Some f → opened (fs s) f →
  ∃ h A, fill_loop (S last) m p (vaddr x) (vaddr x) false s = Ret (tt, set_fs A (set_hw h s)) ∧
    filling (hw s) h O D x k ∧ (∀ g, opened (fs s) g → opened A g ∧ file_bytes A g = file_bytes (fs s) g) ∧
    ∀ i, 0 ≤ i < 4096 → memory h (4096 * k + i) = default 0 (file_part m x (file_bytes (fs s) f) !! Z.to_nat i).
Proof.
  intros Hlast Hpl Ha Hk Hf Hc Hx Ek Hkr [(f' & Hfl & _ & Hlen) [Hoff Hsz] [Hst Hsal] Hnear Hend] Hfl' Hop.
  assert (f' = f) as -> by congruence. clear Hfl'.
  destruct (page_end D x Hpl) as [He Hpb]. pose proof Hpl as [_ [Hv _]]. change PHYS_BASE with 3221225472 in *.
  cbn [fill_loop].
  rewrite He, decide_True by lia.
  destruct (write_user_ok init_page_dir L s O D x k (vaddr x) [0]) as (h1 & Hrun & Hs1 & Hm1 & Hun1 & Hmem1);
    [apply Hf|done|done|apply Hf|done|done|done|simpl; lia|simpl; lia|by constructor|].
  rewrite (bind_run _ _ _ _ _ Hrun). cbn [negb andb]. rewrite bool_decide_true by lia.
  set (fl_end := u32 (start_vaddr m + (file_size m - offset m))).
  assert (fl_end = start_vaddr m + (file_size m - offset m)) as Efl by (unfold fl_end; rewrite u32_small; lia).
  clearbody fl_end. set (n := in_file m x). set (data := file_part m x (file_bytes (fs s) f)).
  assert (0 ≤ n ≤ 4096) as Hn by (unfold n, in_file; lia).
  assert (Z.of_nat (length data) = n) as Hdl.
  { unfold data, file_part. fold n. rewrite length_take, length_drop. unfold n, in_file in *. lia. }
  set (s1 := set_hw h1 s). assert (cr3 (hw s1) = pagedir x - 3221225472) as Hc1 by (cbn; by rewrite (un_cr3 _ _ _ _ _ _ _ Hun1)).
  assert (filling (hw s) h1 O D x k) as Hf1 by (by split).
  destruct (decide (fl_end > vaddr x)) as [Hgt|Hle].
  - assert (n = Z.min 4096 (fl_end - vaddr x)) as En by (unfold n, in_file; lia).
    rewrite bind_assoc. change PAGE_SIZE with 4096. replace (vaddr x - vaddr x) with 0 by lia.
    rewrite (u32_small (4096 - 0)), (u32_small (fl_end - vaddr x)) by lia.
    set (sz := if decide (fl_end - vaddr x < 4096 - 0) then fl_end - vaddr x else 4096 - 0).
    assert (sz = n) as Esz by (unfold sz; case_decide; lia). rewrite Esz, !s32_small by lia. rewrite Hfl.
    destruct (seek_law (fs s) f (vaddr x - start_vaddr m + offset m) Hop ltac:(lia)) as (A & Hsk & HA & Hpos).
    rewrite (bind_run _ _ _ tt (set_fs A s1)) by (by apply on_fs_run). cbn [or_fault]. rewrite bind_assoc, bind_lift.
    rewrite bind_assoc, (bind_run _ _ _ _ _ (get_page_run (set_fs A s1) p x Hx)).
    destruct (HA f Hop) as [HopA HbA].
    destruct (read_law A f n HopA ltac:(lia) ltac:(lia)) as (B & Hrd & HB). rewrite Hpos, HbA in Hrd.
    change (take (Z.to_nat n) (drop (Z.to_nat (vaddr x - start_vaddr m + offset m)) (file_bytes (fs s) f))) with data in Hrd.
    rewrite bind_assoc, (bind_run _ _ _ data (set_fs B (set_fs A s1))) by (by apply on_fs_run).
    rewrite Ek, pg_round_down_page, Z.add_0_r by lia. rewrite bind_assoc. unfold write_kernel. rewrite bind_modify, bind_ret, Hdl.
    cbn [hw set_fs s1 set_hw]. rewrite u32_small by lia.
    assert (Forall byte data) as Hdb.
    { unfold data, file_part. apply Forall_take, Forall_drop, bytes_law, Hop. }
    destruct (spaces_memory init_page_dir L h1 O D (written (4096 * k) data (memory h1)) Hs1) as [Hs2 He2].
    { apply written_ok; [done|apply Hs1]. }
    { intros a Hta. apply written_ne. destruct (decide (a / 4096 = k)) as [Eak|]; [|mlia]. exfalso. rewrite Eak in Hta.
      by apply (table_not_user init_page_dir L h1 O D k). }
    set (h2 := set_memory _ h1) in *.
    assert (filling h1 h2 O D x k) as Hf2.
    { split; [done|by unfold maps_to, entry in *; rewrite !He2|]. split; [| |done].
      - intros y _ _. unfold entry. apply He2.
      - intros a _ Hak _. change (memory h2 a) with (written (4096 * k) data (memory h1) a). apply written_ne. mlia. }
    destruct (fill_tail m p x k O D Hpl Ha Hk (Z.to_nat (4096 - n)) last (set_hw h2 (set_fs B s1)) (vaddr x + n)) as (h & Hrun2 & Hf3 & Hmem3).
    + split; [apply Hf2|apply Hf2|apply unnoticed_refl].
    + cbn. by rewrite (un_cr3 _ _ _ _ _ _ _ Hun1).
    + lia. + lia. + lia.
    + exists h, B. split; [exact Hrun2|]. split; [by eapply filling_trans; [exact Hf1|eapply filling_trans; [exact Hf2|exact Hf3]]|]. split.
      * intros g Hg. destruct (HA g Hg) as [G1 G2], (HB g) as [G3 G4]; [done|]. by rewrite G4, G2.
      * intros i Hi. rewrite Hmem3 by mlia. case_decide as Hd.
        -- rewrite lookup_ge_None_2; [done|lia].
        -- change (memory (hw (set_hw h2 (set_fs B s1))) (4096 * k + i)) with (written (4096 * k) data (memory h1) (4096 * k + i)).
           unfold written. rewrite decide_True by lia. do 2 f_equal. f_equal. lia.
  - rewrite bind_ret. assert (n = 0) as En by (unfold n, in_file; lia).
    destruct (fill_tail m p x k O D Hpl Ha Hk (Z.to_nat 4096) last s1 (vaddr x)) as (h & Hrun2 & Hf3 & Hmem3); [|done|lia|lia|lia|].
    + split; [done|done|apply unnoticed_refl].
    + exists h, (fs s). split; [rewrite Hrun2; by destruct s|]. split; [by eapply filling_trans|]. split; [done|].
      intros i Hi. rewrite Hmem3 by mlia. rewrite decide_True by lia. by rewrite lookup_ge_None_2 by lia.
Qed.

(** ** A frame for a page that has none *)
Context (ram_pages : Z).

Lemma content_ext s t q : spages t !! q = spages s !! q → hw t = hw s → swap_block t = swap_block s → content t q = content s q.
Proof. intros E1 E2 E3. unfold content. by rewrite E1, E2, E3. Qed.

Lemma absent_unlisted s O D p x : vm_ok s O D → spages s !! p = Some x → kaddr x = 0 → p ∉ page_list s.
Proof. intros Hok Hx Hk Hp. destruct (vo_listed _ _ _ _ _ Hok p Hp) as (y & Hy & Hne). congruence. Qed.

Lemma undo_absent_run s O D p x : vm_ok s O D → eviction_lock s = 1 → spages s !! p = Some x → kaddr x = 0 →
  undo_suppl_page_registration p s = Ret (tt, s).
Proof.
  intros Hok Hlock Hx Hk. pose proof (absent_unlisted s O D p x Hok Hx Hk) as Hp. unfold undo_suppl_page_registration.
  rewrite (bind_run _ _ _ _ _ (lock_run s Hlock)), bind_gets. cbn [page_elem set_eviction_lock].
  rewrite decide_False by (intros E; by apply Hp, Hok). rewrite bind_ret.
  rewrite (bind_run _ _ _ _ _ (get_page_run (set_eviction_lock 0 s) p x Hx)), decide_False, bind_ret by lia.
  rewrite unlock_run by done. do 2 f_equal. by destruct s; cbn in *; subst.
Qed.

(** The frame [k] becomes that of the page. *)
Definition map_frame (p : Z) (x : suppl_page) (kpage : Z) : M (vm F) bool :=
  let! ok := pagedir_set_page_synch init_page_dir ram_pages (pagedir x) (vaddr x) kpage true in
  if negb ok then on_hw (in_ram (palloc_free_page kpage));;! ret false
  else upd_page p (set_kaddr kpage);;! ret true.

Record framed s u (O' : gset Z) (D' : dirs) (p k : Z) (x : suppl_page) : Prop := {
  fr_ok : vm_ok u O' D';
  fr_state : ∃ h, u = set_spages (<[p := set_kaddr (4096 * k) x]> (spages s)) (set_hw h s) ∧ cr3 h = cr3 (hw s);
  fr_maps : maps_to (hw u) D' x k;
  fr_frame : k ∈ O' ∧ in_area (L true) k ∧ 786432 ≤ k < 1048576;
  fr_others q : q ≠ p → content u q = content s q;
}.

Lemma map_frame_ok s O D p x k : vm_ok s O D → eviction_lock s = 1 → spages s !! p = Some x → kaddr x = 0 →
  location x ≠ PG_LOCATION_SWAP → spare L s O k → k - 786432 < ram_pages →
  (∃ u O' D', map_frame p x (4096 * k) s = Ret (true, u) ∧ framed s u O' D' p k x) ∨
  (∃ h, map_frame p x (4096 * k) s = Ret (false, set_hw h s) ∧ vm_ok (set_hw h s) (O ∖ page_run k 1) D ∧
     (∀ q, content (set_hw h s) q = content s q) ∧ ∀ i, ¬ free_run (L false) O i 1).
Proof.
  intros Hok Hlock Hx Hk0 Hloc Hsp Hram. pose proof (vo_page _ _ _ _ _ Hok p x Hx) as Hpx.
  destruct (spare_known init_page_dir L s O D k Hok Hsp) as [Hkr Hkne].
  pose proof Hpx as [[Hd1 Hd2] [Hv1 Hv2] _ Habs Hslot _]. pose proof (absent_unlisted s O D p x Hok Hx Hk0) as Hpl.
  assert (pagedir x = 4096 * (pagedir x / 4096)) as Epd by mlia. set (pd := pagedir x / 4096) in *.
  pose (sd := set_spages (delete p (spages s)) s). pose proof (vm_ok_delete init_page_dir L s O D p Hok Hpl) as Hokd. fold sd in Hokd.
  assert (unplaced sd pd (vaddr x)) as Hun.
  { intros q y Hy [E1 E2]. change (delete p (spages s) !! q = Some y) in Hy. apply lookup_delete_Some in Hy as [Hne Hy]. pose proof (vo_page _ _ _ _ _ Hok q y Hy) as [[F1 _] [_ F2] _ _ _ _].
    destruct (vo_apart _ _ _ _ _ Hok q p y x Hy Hx (not_eq_sym Hne)) as (_ & _ & Hap). apply Hap. split; apply same_page_div; done. }
  unfold map_frame.
  destruct (set_page_ok init_page_dir L ram_pages (hw s) O D pd (vaddr x) k true (vo_spaces _ _ _ _ _ Hok) Hd2 Hv1 Hv2) as
    [(h & O' & D' & Hrun & Hs' & Hbe & He)|[Hrun Hno]]; [lia|lia|by apply Habs| |]; rewrite <-Epd in Hrun.
  - left. rewrite (bind_run _ _ _ true (set_hw h s)) by (by apply set_page_synch_run). cbn [negb].
    erewrite bind_run; [|by apply upd_page_run]. eexists _, O', D'. split; [done|].
    destruct (vm_ok_entry init_page_dir L sd O D h O' D' pd (vaddr x) _ Hokd Hs' Hbe He Hun) as (Hok1 & Hc1 & _).
    destruct He as [He1 He2]. assert (k ∈ O') as HkO' by (apply Hbe, Hsp).
    split.
    + assert (set_spages (<[p := set_kaddr (4096 * k) x]> (spages (set_hw h s))) (set_hw h s) =
        set_spages (<[p := set_kaddr (4096 * k) x]> (spages (set_hw h sd))) (set_hw h sd)) as ->.
      { unfold sd. cbn. by rewrite insert_delete_eq. }
      apply vm_ok_insert; [done|cbn; apply lookup_delete_eq| | | |].
      * intros ->. pose proof (vo_null _ _ _ _ _ Hok). congruence.
      * split; unfold entry; cbn [hw set_hw pagedir vaddr kaddr saddr location set_kaddr]; fold pd.
        -- split; [done|by apply Hbe].
        -- done.
        -- intros _. exists k. by rewrite He1; split_and!; [|done|apply Hsp|..].
        -- intros; lia.
        -- intros Hs. by destruct (Hslot Hs) as (_ & ? & _).
        -- done.
      * intros q y Hy. change (delete p (spages s) !! q = Some y) in Hy. apply lookup_delete_Some in Hy as [Hne Hy]. destruct (vo_apart _ _ _ _ _ Hok p q x y Hx Hy Hne) as (_ & B2 & B3).
        split_and!; [intros _; apply not_eq_sym; by apply (proj2 (proj2 Hsp) q)|done|done].
      * intros Hm. destruct (vo_map _ _ _ _ _ Hok p x Hx Hm) as (m & Hm' & [? ? ? ? ?]). exists m. split; [done|]. by split.
    + exists h. split; [done|apply Hbe].
    + unfold maps_to, entry. cbn [hw set_spages set_hw]. fold pd. by rewrite He1.
    + split; [done|]. split; [apply Hsp|done].
    + intros q Hq. transitivity (content (set_hw h sd) q); [|rewrite Hc1].
      * unfold content. cbn. by rewrite lookup_insert_ne, lookup_delete_ne.
      * unfold content. cbn. by rewrite lookup_delete_ne.
  - right. rewrite (bind_run _ _ _ false (set_hw (hw s) s)) by (by apply set_page_synch_run). cbn [negb]. rewrite set_hw_id.
    destruct (spare_freed init_page_dir L s O D k Hok Hsp) as (h & Hrun2 & Hok2 & _ & Hcq). exists h.
    by rewrite (bind_run _ _ _ _ _ Hrun2).
Qed.

Lemma set_kpage_unfold s O D p x : vm_ok s O D → eviction_lock s = 1 → spages s !! p = Some x → kaddr x = 0 →
  location x ≠ PG_LOCATION_SWAP →
  set_kpage_if_needed init_page_dir ram_pages p s =
  (let! kpage := (if negb (dirty x) then on_hw (in_ram (palloc_get_page (PAL_USER + PAL_ZERO))) else ret 0) in
   let! x := get_page p in
   let! kpage := (if decide (kpage = 0) then evict_and_get_kaddr init_page_dir else ret kpage) in
   if decide (kpage = 0) then ret false else map_frame p x kpage) s.
Proof.
  intros Hok Hlock Hx Hk Hloc. unfold set_kpage_if_needed. rewrite (bind_run _ _ _ _ _ (get_page_run s p x Hx)).
  rewrite (bind_run _ _ _ _ _ (undo_absent_run s O D p x Hok Hlock Hx Hk)). rewrite bool_decide_true by done. cbn [andb].
  assert (suppl_page_dirty p s = Ret (dirty x, s)) as Hd.
  { unfold suppl_page_dirty. rewrite (bind_run _ _ _ _ _ (get_page_run s p x Hx)). destruct (dirty x); [done|].
    by rewrite decide_False by lia. }
  rewrite (bind_run _ _ _ _ _ Hd), Hk. unfold bind at 1. symmetry. unfold bind at 1.
  destruct (negb (dirty x)).
  - destruct (get_spare init_page_dir L s O D Hok) as [(k & h & -> & Hk' & _)|[-> _]].
    + rewrite !(bind_run _ _ _ _ _ (get_page_run (set_hw h s) p x Hx)).
      rewrite (decide_False (P := 4096 * k = 0 ∧ _)) by lia. rewrite (decide_False (P := 4096 * k = 0)) by lia.
      rewrite !bind_ret. by rewrite !decide_False by lia.
    + rewrite !(bind_run _ _ _ _ _ (get_page_run s p x Hx)). by rewrite (decide_False (P := 0 = 0 ∧ _)) by tauto.
  - cbn. rewrite !(bind_run _ _ _ _ _ (get_page_run s p x Hx)). by rewrite (decide_False (P := 0 = 0 ∧ _)) by tauto.
Qed.

Lemma map_frame_core p x x' kpage : core x' = core x → map_frame p x kpage = map_frame p x' kpage.
Proof. intros (Ev & _ & _ & Ep & _)%core_fields. unfold map_frame. by rewrite Ev, Ep. Qed.

(** [s1] is where a frame had been found, maybe by evicting another page. *)
Record found_frame s s1 u (O' : gset Z) (D D' : dirs) (p k : Z) (x x' : suppl_page) : Prop := {
  ff_framed : framed s1 u O' D' p k x';
  ff_core : core x' = core x;
  ff_page : spages s1 !! p = Some x';
  ff_kept q : kept s s1 D q;
  ff_rest : eviction_lock s1 = 1 ∧ threads s1 = threads s ∧ fmaps s1 = fmaps s ∧ cr3 (hw s1) = cr3 (hw s);
  ff_listed : p ∉ page_list s1;
}.

Definition no_room s (O : gset Z) (x : suppl_page) : Prop :=
  no_memory L s O ∨ (dirty x = true ∧ (page_list s = [] ∨ ∀ i, 0 ≤ i < swap_pages s → used s i = true)).

(** The last step of set_kpage_if_needed, from the state [s1] with a spare frame. *)
Lemma frame_step s s1 O O1 D p x x' k : vm_ok s1 O1 D → eviction_lock s1 = 1 → spages s1 !! p = Some x' → core x' = core x →
  kaddr x = 0 → location x ≠ PG_LOCATION_SWAP → spare L s1 O1 k → k - 786432 < ram_pages → (∀ q, kept s s1 D q) →
  threads s1 = threads s → fmaps s1 = fmaps s → cr3 (hw s1) = cr3 (hw s) → (∀ i, in_area (L false) i → i ∈ O1 → i ∈ O) →
  (∃ u O' D', map_frame p x (4096 * k) s1 = Ret (true, u) ∧ found_frame s s1 u O' D D' p k x x') ∨
  (∃ u O', map_frame p x (4096 * k) s1 = Ret (false, u) ∧ vm_ok u O' D ∧ eviction_lock u = 1 ∧ (∀ q, kept s u D q) ∧
     no_memory L s O).
Proof.
  intros Hok Hlock Hx' Hc Hk0 Hloc Hsp Hram Hkept E1 E2 E3 HO.
  destruct (core_fields _ _ Hc) as (Ev & Ek & Es & Ep & Em & El). rewrite (map_frame_core p x x') by done.
  destruct (map_frame_ok s1 O1 D p x' k Hok Hlock Hx') as [(u & O' & D' & Hrun & Hfr)|(h & Hrun & Hok2 & Hcq & Hno)];
    [congruence|congruence|done|done| |].
  - left. exists u, O', D'. split; [done|]. split; try done.
    apply (absent_unlisted s1 O1 D p x'); [done|done|congruence].
  - right. eexists _, _. split; [done|]. split; [done|]. split; [done|]. split.
    + intros q. eapply (kept_same s s1); [done|apply Hcq|done].
    + right. by exists O1.
Qed.

Lemma set_kpage_ok s O D p x : vm_ok s O D → eviction_lock s = 1 → spages s !! p = Some x → kaddr x = 0 →
  location x ≠ PG_LOCATION_SWAP → (∀ k, in_area (L true) k → k - 786432 < ram_pages) →
  (∃ s1 u O' D' k x', set_kpage_if_needed init_page_dir ram_pages p s = Ret (true, u) ∧ found_frame s s1 u O' D D' p k x x') ∨
  (∃ u O', set_kpage_if_needed init_page_dir ram_pages p s = Ret (false, u) ∧ vm_ok u O' D ∧ eviction_lock u = 1 ∧
     (∀ q, kept s u D q) ∧ no_room s O x).
Proof.
  intros Hok Hlock Hx Hk0 Hloc Hram. rewrite (set_kpage_unfold s O D p x Hok Hlock Hx Hk0 Hloc).
  assert (∀ (why : (∀ i, ¬ free_run (L true) O i 1) ∨ dirty x = true),
    let run := (let! x := get_page p in
      let! kpage := (if decide (0 = 0) then evict_and_get_kaddr init_page_dir else ret 0) in
      if decide (kpage = 0) then ret false else map_frame p x kpage) s in
    (∃ s1 u O' D' k x', run = Ret (true, u) ∧ found_frame s s1 u O' D D' p k x x') ∨
    (∃ u O', run = Ret (false, u) ∧ vm_ok u O' D ∧ eviction_lock u = 1 ∧ (∀ q, kept s u D q) ∧ no_room s O x)) as Hevict.
  { intros why run. unfold run. rewrite (bind_run _ _ _ _ _ (get_page_run s p x Hx)), decide_True by done.
    destruct (evict_and_get_ok init_page_dir L s O D Hok Hlock) as [(t & O' & k & Hrun & Hk & [Mok Msp _ Mlk Mpg Mkept _ _ (T1 & T2 & _ & T4) MO])|(t & Hrun & Hl & Hokt & Hlk & Hwhy)];
      rewrite (bind_run _ _ _ _ _ Hrun).
    - rewrite decide_False by lia. destruct (Mpg p x Hx Hk0) as [(x' & Hx' & Hc) _].
      destruct (frame_step s t O O' D p x x' k Mok Mlk Hx' Hc Hk0 Hloc Msp (Hram k (proj1 (proj2 Msp))) Mkept T1 T2 T4 MO) as
        [(u & O2 & D' & H)|(u & O2 & H1 & H2 & H3 & H4 & H5)].
      + left. by exists t, u, O2, D', k, x'.
      + right. exists u, O2. repeat (split; [done|]). by left.
    - rewrite decide_True by done. right. exists t, O. split; [done|]. split; [done|]. split; [done|].
      split; [intros q; left; by apply (latched_content D)|]. destruct why as [Hno|Hd]; [left; by left|by right]. }
  destruct (dirty x) eqn:Ed; cbn [negb]; [rewrite bind_ret; apply Hevict; by right|].
  destruct (get_spare init_page_dir L s O D Hok) as [(k & h & Hrun & Hk & Hok1 & Hsp & Hc1 & _ & _ & _ & Hcq)|[Hrun Hno]];
    rewrite (bind_run _ _ _ _ _ Hrun); [|apply Hevict; by left].
  rewrite (bind_run _ _ _ _ _ (get_page_run (set_hw h s) p x Hx)), decide_False, bind_ret, decide_False by lia.
  destruct (frame_step s (set_hw h s) O (page_run k 1 ∪ O) D p x x k Hok1 Hlock Hx eq_refl Hk0 Hloc Hsp (Hram k (proj1 (proj2 Hsp)))) as
    [(u & O2 & D' & H)|(u & O2 & H1 & H2 & H3 & H4 & H5)]; try done.
  - intros q. by left.
  - intros i Hi. rewrite elem_of_union, elem_page_run. intros [Hik|?]; [|done]. exfalso.
    apply (areas_apart L (ram (hw s)) O false i); [apply (vo_spaces _ _ _ _ _ Hok)|done|].
    destruct Hsp as (_ & Ha & _). by replace i with k by lia.
  - left. by exists (set_hw h s), u, O2, D', k, x.
  - right. exists u, O2. repeat (split; [done|]). by left.
Qed.

(** ** The page is complete *)
Lemma unnoticed_one h h' O D x k e : beside h O D h' O D →
  one_entry (entry_of h D) (entry_of h' D) (pagedir x / 4096) (vaddr x / 4096) e → unnoticed h h' O D D x k.
Proof.
  intros Hbe [_ H2]. split.
  - intros y Hy Hne. unfold entry. apply H2; [by apply user_page|done].
  - intros a Ha _ Ht. by apply (be_memory _ _ _ _ _ _ Hbe).
  - by apply (be_cr3 _ _ _ _ _ _ Hbe).
Qed.

(** The memory and the entry of one resident page change. *)
Lemma vm_ok_refit s O D h p x k : vm_ok s O D → spages s !! p = Some x → kaddr x = 4096 * k →
  spaces init_page_dir L h O D → unnoticed (hw s) h O D D x k →
  e_present (entry h D x) = true → e_frame (entry h D x) = 4096 * k → 4096 * k ≠ 0 →
  vm_ok (set_hw h s) O D ∧ ∀ q, q ≠ p → content (set_hw h s) q = content s q.
Proof.
  intros Hok Hx Ek Hs Hun Hp Hf Hk0. pose proof (vo_page _ _ _ _ _ Hok p x Hx) as Hpx. split.
  - apply (vm_ok_hw init_page_dir L s O D); try done. intros q y Hy. destruct (decide (q = p)) as [->|Hne].
    + assert (y = x) as -> by congruence. destruct (pg_frame _ _ _ _ _ Hpx ltac:(congruence)) as (k' & Ek' & _ & _ & -> & ->).
      rewrite Hp, Hf. split; [done|congruence].
    + assert (entry h D y = entry (hw s) D y) as ->; [|done].
      pose proof (vo_page _ _ _ _ _ Hok q y Hy) as Hpy. destruct (vo_apart _ _ _ _ _ Hok q p y x Hy Hx Hne) as (_ & _ & Hap).
      apply (un_entries _ _ _ _ _ _ _ Hun); [by apply Hpy|]. intros [E1 E2]. apply Hap.
      destruct (pg_dir _ _ _ _ _ Hpy), (pg_dir _ _ _ _ _ Hpx), (pg_vaddr _ _ _ _ _ Hpy), (pg_vaddr _ _ _ _ _ Hpx).
      split; by apply same_page_div.
  - intros q Hne. apply (content_hw init_page_dir L s O D); [done|]. intros y j a Hy Ej Hj Ha Ea.
    apply (un_memory _ _ _ _ _ _ _ Hun); rewrite Ea; [done| |].
    + intros ->. destruct (vo_apart _ _ _ _ _ Hok q p y x Hy Hx Hne) as (Hap & _). apply Hap; congruence.
    + apply (table_not_user init_page_dir L (hw s) O D j); [apply Hok|done].
Qed.

Lemma vm_ok_relocate s O D p x l : vm_ok s O D → spages s !! p = Some x → kaddr x ≠ 0 → l ≠ PG_LOCATION_SWAP →
  vm_ok (set_spages (<[p := set_location l x]> (spages s)) s) O D.
Proof.
  intros Hok Hx Hk Hl. pose proof Hok as [H1 H2 H4 H3 H5 H6 H7 H8 H9].
  assert (∀ q y, <[p := set_location l x]> (spages s) !! q = Some y → ∃ z, spages s !! q = Some z ∧
    (y = z ∨ q = p ∧ z = x ∧ y = set_location l x)) as Hd.
  { intros q y [[<- <-]|[? ?]]%lookup_insert_Some; [exists x|exists y]; auto. }
  split; try done; [by apply (swap_ok_same s)|cbn; rewrite lookup_insert_ne; [done|congruence]| | | |].
  - intros q Hq. destruct (decide (q = p)) as [->|Hne]; [exists (set_location l x); cbn; by rewrite lookup_insert_eq|].
    cbn. rewrite lookup_insert_ne by done. by apply H6.
  - intros q y Hy. destruct (Hd q y Hy) as (z & Hz & [->|(-> & -> & ->)]); apply (page_ok_same L s); try done; [by apply (H7 q)|].
    destruct (H7 p x Hx) as [A1 A2 A3 A4 A5 A6]. split; try done. cbn. intros Hs. by destruct (A5 Hs) as (? & _).
  - intros q r y z Hy Hz Hne. destruct (Hd q y Hy) as (y' & Hy' & Ey), (Hd r z Hz) as (z' & Hz' & Ez).
    pose proof (H8 q r y' z' Hy' Hz' Hne) as Hap. unfold apart in *.
    destruct Ey as [->|(_ & -> & ->)], Ez as [->|(_ & -> & ->)]; done.
  - intros q y Hy Hm. destruct (Hd q y Hy) as (z & Hz & Ey). assert (mapping y = mapping z ∧ vaddr y = vaddr z) as [Em Ev]
      by (destruct Ey as [->|(_ & -> & ->)]; done).
    rewrite Em in *. destruct (H9 q z Hz Hm) as (m & Hm' & [? ? ? ? ?]). exists m. split; [done|]. split; rewrite ?Ev; done.
Qed.

(** Making the page read-only. *)
Definition protect (p : Z) (x : suppl_page) (writable : bool) : M (vm F) unit :=
  if negb writable then
    pagedir_clear_page_synch init_page_dir (pagedir x) (vaddr x);;!
    let! x := get_page p in
    let! ok := pagedir_set_page_synch init_page_dir ram_pages (pagedir x) (vaddr x) (kaddr x) false in
    if negb ok then on_hw (in_ram (palloc_free_page (kaddr x)));;! throw Panic else ret tt
  else ret tt.

(** Present, with the frame [k], as writable as [w], and not changed since. *)
Definition clean_entry (h : mmu) (D : dirs) (x : suppl_page) (k : Z) (w : bool) : Prop :=
  e_present (entry h D x) = true ∧ e_frame (entry h D x) = 4096 * k ∧ e_writable (entry h D x) = w ∧ e_dirty (entry h D x) = false.

Lemma protect_ok s O D p x k w : spaces init_page_dir L (hw s) O D → eviction_lock s = 1 → spages s !! p = Some x → placed D x →
  kaddr x = 4096 * k → in_area (L true) k → k ∈ O → 786432 ≤ k < 1048576 → k - 786432 < ram_pages →
  clean_entry (hw s) D x k true →
  ∃ h, protect p x w s = Ret (tt, set_hw h s) ∧ spaces init_page_dir L h O D ∧ unnoticed (hw s) h O D D x k ∧
    clean_entry h D x k w ∧ ∀ a, a / 4096 = k → memory h a = memory (hw s) a.
Proof.
  intros Hs Hlock Hx [[Hd1 Hd2] [Hv1 Hv2]] Ek Ha Hk Hkr Hram He. unfold protect. destruct w; cbn [negb].
  { exists (hw s). rewrite set_hw_id. split; [done|]. split; [done|]. split; [apply unnoticed_refl|]. done. }
  assert (pagedir x = 4096 * (pagedir x / 4096)) as Epd by mlia. unfold clean_entry, entry in He. set (pd := pagedir x / 4096) in *.
  destruct (clear_page_ok init_page_dir L (hw s) O D pd (vaddr x) Hs Hd2 Hv1 Hv2) as (h1 & Hrun1 & Hs1 & Hbe1 & He1).
  rewrite <-Epd in Hrun1.
  assert (pagedir_clear_page_synch init_page_dir (pagedir x) (vaddr x) s = Ret (tt, set_hw h1 s)) as Hrun1'.
  { unfold pagedir_clear_page_synch. rewrite (bind_run _ _ _ _ _ (lock_run s Hlock)).
    rewrite (bind_run _ _ _ tt (set_hw h1 (set_eviction_lock 0 s))) by (by apply on_hw_run).
    rewrite unlock_run by done. do 2 f_equal. by destruct s; cbn in *; subst. }
  rewrite (bind_run _ _ _ _ _ Hrun1'), (bind_run _ _ _ _ _ (get_page_run (set_hw h1 s) p x Hx)).
  destruct (entry_at D pd (vaddr x)) as [a|] eqn:Ea; [|destruct He as [He _]; by rewrite (no_entry (hw s) D pd (vaddr x)) in He by (done || lia)].
  destruct (set_page_again init_page_dir L ram_pages h1 O D pd (vaddr x) k false a Hs1 Ea Hv1 Hv2 Hkr Hram) as (h2 & Hrun2 & Hs2 & Hbe2 & He2).
  { destruct He1 as [-> _]. done. }
  rewrite <-Epd in Hrun2. rewrite Ek, (bind_run _ _ _ true (set_hw h2 (set_hw h1 s))) by (by apply set_page_synch_run).
  exists h2. split; [done|]. split; [done|]. split.
  { eapply unnoticed_trans; [by eapply unnoticed_one|by eapply unnoticed_one]. }
  split; [unfold clean_entry, entry; fold pd; by destruct He2 as [-> _]|]. intros c Ec.
  assert (¬ table_page D k) as Hnt by (by apply (table_not_user init_page_dir L (hw s) O D)).
  rewrite (be_memory _ _ _ _ _ _ Hbe2), (be_memory _ _ _ _ _ _ Hbe1); rewrite ?Ec; done.
Qed.

Lemma length_file_part m x bytes : (length (file_part m x bytes) ≤ 4096)%nat.
Proof. unfold file_part. rewrite length_take. unfold in_file. lia. Qed.

Lemma file_page_bytes m x bytes mem k :
  (∀ i, 0 ≤ i < 4096 → mem (4096 * k + i) = default 0 (file_part m x bytes !! Z.to_nat i)) →
  bytes_at mem (4096 * k) 4096 = file_page m x bytes.
Proof.
  intros Hm. unfold file_page. pose proof (length_file_part m x bytes) as Hl. set (l := file_part m x bytes) in *.
  assert (length (l ++ replicate (4096 - length l) 0) = Z.to_nat 4096) as Hlen.
  { rewrite length_app, length_replicate. lia. }
  apply list_eq_same_length with (n := Z.to_nat 4096); [done|by rewrite length_bytes_at|].
  intros i a b Hi Ha Hb. rewrite <-(Nat2Z.id i), bytes_at_lookup in Ha by lia. injection Ha as <-.
  rewrite Hm by lia. rewrite Nat2Z.id. destruct (decide (i < length l)%nat).
  - rewrite lookup_app_l in Hb by done. by rewrite Hb.
  - rewrite lookup_app_r in Hb by lia. apply lookup_replicate in Hb as [-> _]. by rewrite lookup_ge_None_2 by lia.
Qed.

(** The page [p] has come from its file. *)
Record loaded s u (O' : gset Z) (D D' : dirs) (p k : Z) (x : suppl_page) (m : file_mapping) (f : nat) : Prop := {
  ld_ok : vm_ok u O' D';
  ld_lock : eviction_lock u = 1;
  ld_page : ∃ x', spages u !! p = Some (set_location PG_LOCATION_RAM (set_kaddr (4096 * k) x')) ∧ core x' = core x;
  ld_listed : p ∈ page_list u;
  ld_entry : clean_entry (hw u) D' x k (writable m);
  ld_content : content u p = Some (file_page m x (file_bytes (fs u) f));
  ld_kept q : q ≠ p → kept s u D q;
  ld_rest : threads u = threads s ∧ fmaps u = fmaps s ∧ cr3 (hw u) = cr3 (hw s);
}.

(** What is left to do once the page has a frame. *)
Definition load_in (p : Z) (x : suppl_page) (m : file_mapping) : M (vm F) bool :=
  fill_loop (Z.to_nat (PAGE_SIZE + 2)) m p (vaddr x) (vaddr x) false;;!
  on_hw (pagedir_set_dirty init_page_dir (pagedir x) (vaddr x) false);;!
  protect p x (writable m);;!
  register_suppl_page p;;!
  upd_page p (set_location PG_LOCATION_RAM);;!
  ret true.

Lemma load_in_ok s O D p x m k f : vm_ok s O D → eviction_lock s = 1 → spages s !! p = Some x → kaddr x = 4096 * k →
  (p ∉ page_list s) → fmaps s !! mapping x = Some m → mapping x ≠ 0 → fl m = Some f → maps_to (hw s) D x k →
  k ∈ O → in_area (L true) k → 786432 ≤ k < 1048576 → k - 786432 < ram_pages → cr3 (hw s) = pagedir x - PHYS_BASE →
  ∃ u h A, load_in p x m s = Ret (true, u) ∧ vm_ok u O D ∧ eviction_lock u = 1 ∧
    spages u = <[p := set_location PG_LOCATION_RAM x]> (spages s) ∧ page_list u = p :: page_list s ∧ hw u = h ∧ fs u = A ∧
    clean_entry h D x k (writable m) ∧ content u p = Some (file_page m x (file_bytes A f)) ∧
    (∀ q, q ≠ p → content u q = content s q) ∧ threads u = threads s ∧ fmaps u = fmaps s ∧ cr3 h = cr3 (hw s) ∧
    same_files (fs s) A.
Proof.
  intros Hok Hlock Hx Ek Hpl Hm Hm0 Hfl Hmap HkO Ha Hkr Hram Hc. pose proof (vo_page _ _ _ _ _ Hok p x Hx) as Hpx.
  pose proof (page_ok_placed _ _ _ _ _ Hpx) as Hplc. pose proof (vo_spaces _ _ _ _ _ Hok) as Hs.
  destruct (vo_map _ _ _ _ _ Hok p x Hx Hm0) as (m' & Hm' & Hmo). assert (m' = m) as -> by congruence.
  pose proof Hmo as [(f' & Hfl' & Hop & _) _ _ _ _]. assert (f' = f) as -> by congruence.
  assert (filling (hw s) (hw s) O D x k) as Hf0 by (split; [done|done|apply unnoticed_refl]).
  unfold load_in. replace (Z.to_nat (PAGE_SIZE + 2)) with (S (Z.to_nat 4097)) by (change PAGE_SIZE with 4096; lia).
  destruct (fill_page_ok s O D p x m k f (Z.to_nat 4097) ltac:(lia) Hplc Ha HkO Hf0 Hc Hx Ek ltac:(lia) Hmo Hfl Hop) as
    (h1 & A & Hrun1 & [Hs1 Hm1 Hun1] & HA & Hmem1).
  rewrite (bind_run _ _ _ _ _ Hrun1). set (s1 := set_fs A (set_hw h1 s)).
  destruct Hplc as [[Hd1 Hd2] [Hv1 Hv2]]. assert (pagedir x = 4096 * (pagedir x / 4096)) as Epd by mlia.
  destruct (assign_flag_ok init_page_dir L h1 O D (pagedir x / 4096) (vaddr x) 6 false Hs1 Hd2 Hv1 ltac:(by right) ltac:(by left)) as
    (h2 & Hrun2 & Hs2 & Hbe2 & He2). rewrite <-Epd in Hrun2.
  rewrite (bind_run _ _ _ tt (set_hw h2 s1)) by (apply on_hw_run; exact Hrun2).
  assert (unnoticed h1 h2 O D D x k) as Hun2 by (by eapply unnoticed_one).
  assert (clean_entry h2 D x k true) as Hce.
  { destruct Hm1 as (M1 & M2 & M3). unfold clean_entry, entry in *. destruct He2 as [-> _]. done. }
  destruct (protect_ok (set_hw h2 s1) O D p x k (writable m) Hs2 Hlock Hx (page_ok_placed _ _ _ _ _ Hpx) Ek Ha HkO Hkr Hram Hce) as
    (h3 & Hrun3 & Hs3 & Hun3 & Hce3 & Hmem3).
  rewrite (bind_run _ _ _ _ _ Hrun3). cbn [hw set_hw] in Hun3, Hmem3.
  assert (kaddr x ≠ 0) as Hk0 by lia.
  erewrite bind_run; [|by apply (register_run (set_hw h3 (set_hw h2 s1)) p x)].
  erewrite bind_run; [|by apply (upd_page_run _ p x)].
  set (u := set_spages _ _).
  assert (unnoticed (hw s) h3 O D D x k) as Hun by (eapply unnoticed_trans; [exact Hun1|by eapply unnoticed_trans]).
  destruct (vm_ok_refit s O D h3 p x k Hok Hx Ek Hs3 Hun) as [Hok3 Hcq]; [apply Hce3|apply Hce3|lia|].
  assert (vm_ok (set_fs A (set_hw h3 s)) O D) as Hok4.
  { apply set_fs_ok; [done|]. intros g Hg. destruct (HA g Hg) as [? E]. by rewrite E. }
  pose proof (vm_ok_push init_page_dir L (set_fs A (set_hw h3 s)) O D p x Hok4 Hx Hk0 Hpl) as Hok5.
  pose proof (vm_ok_relocate _ O D p x PG_LOCATION_RAM Hok5 Hx Hk0 ltac:(done)) as Hok6.
  exists u, h3, A. split; [done|]. split; [exact Hok6|]. split; [done|]. split; [done|]. split; [done|]. split; [done|].
  split; [done|]. split; [done|]. split.
  { unfold content. change (spages u !! p) with (<[p := set_location PG_LOCATION_RAM x]> (spages s) !! p). rewrite lookup_insert_eq.
    cbn [mbind option_bind]. unfold resident. cbn [kaddr set_location]. rewrite bool_decide_true by done. f_equal.
    change (hw u) with h3. rewrite Ek. apply file_page_bytes. intros i Hi. destruct (HA f Hop) as [_ ->].
    rewrite <-Hmem1 by done. rewrite Hmem3 by mlia.
    apply (be_memory _ _ _ _ _ _ Hbe2); replace ((4096 * k + i) / 4096) with k by mlia; [done|].
    by apply (table_not_user init_page_dir L h1 O D k). }
  split; [|split; [done|split; [done|split; [exact (un_cr3 _ _ _ _ _ _ _ Hun)|exact HA]]]].
  intros q Hq. rewrite <-(Hcq q Hq). unfold content. change (spages u !! q) with (<[p := set_location PG_LOCATION_RAM x]> (spages s) !! q).
  by rewrite lookup_insert_ne.
Qed.

Lemma load_from_file_ok s O D p x m f : vm_ok s O D → eviction_lock s = 1 → spages s !! p = Some x → kaddr x = 0 →
  location x = PG_LOCATION_FILE → mapping x ≠ 0 → fmaps s !! mapping x = Some m → fl m = Some f →
  cr3 (hw s) = pagedir x - PHYS_BASE → (∀ k, in_area (L true) k → k - 786432 < ram_pages) →
  (∃ u O' D' k, suppl_page_load_from_file init_page_dir ram_pages p s = Ret (true, u) ∧ loaded s u O' D D' p k x m f) ∨
  (∃ u O', suppl_page_load_from_file init_page_dir ram_pages p s = Ret (false, u) ∧ vm_ok u O' D ∧ eviction_lock u = 1 ∧
     (∀ q, kept s u D q) ∧ no_room s O x).
Proof.
  intros Hok Hlock Hx Hk0 Hloc Hm0 Hm Hfl Hc Hram. unfold suppl_page_load_from_file.
  rewrite (bind_run _ _ _ _ _ (get_page_run s p x Hx)). rewrite bind_assert by (by rewrite !bool_decide_true).
  assert (get_fmap (mapping x) s = Ret (m, s)) as Hg by (unfold get_fmap; by rewrite Hm).
  rewrite (bind_run _ _ _ _ _ Hg), decide_False by congruence.
  destruct (set_kpage_ok s O D p x Hok Hlock Hx Hk0 ltac:(congruence) Hram) as
    [(s1 & u & O' & D' & k & x' & Hrun & [[Fok (h & -> & Fc) Fmap (FkO & Fa & Fk) Foth] Fcore Fpage Fkept (R1 & R2 & R3 & R4) Fl])|(u & O' & Hrun & H)];
    rewrite (bind_run _ _ _ _ _ Hrun); cbn [negb].
  2: { right. exists u, O'. split; [done|]. exact H. }
  destruct (core_fields _ _ Fcore) as (Ev & Ek & Es & Ep & Em & El).
  set (x2 := set_kaddr (4096 * k) x') in *. set (s2 := set_spages (<[p := x2]> (spages s1)) (set_hw h s1)) in *.
  assert (vaddr x2 = vaddr x ∧ pagedir x2 = pagedir x ∧ mapping x2 = mapping x) as (Ev2 & Ep2 & Em2) by done.
  destruct (load_in_ok s2 O' D' p x2 m k f) as (w & h' & A & Hrun2 & Hokw & Hlkw & Hpw & Hlw & Hhw & Hfw & Hce & Hcw & Hcq & T1 & T2 & T3 & Hfb);
    try done; [apply lookup_insert_eq|by rewrite Em2; cbn; rewrite R3|by rewrite Em2|by apply Hram| |].
  { cbn [hw set_spages set_hw s2]. rewrite Ep2. congruence. }
  left. exists w, O', D', k. split.
  { etransitivity; [|exact Hrun2]. unfold load_in, protect. by rewrite Ev2, Ep2. }
  split; try done.
  - exists x'. split; [|done]. by rewrite Hpw, lookup_insert_eq.
  - rewrite Hlw. by constructor.
  - rewrite Hhw. unfold clean_entry, entry in *. by rewrite <-Ev2, <-Ep2.
  - rewrite Hcw, Hfw. unfold file_page, file_part, in_file. by rewrite Ev2.
  - intros q Hq. apply (kept_same s s1 w D q (Fkept q)); [by rewrite Hcq, Foth|]. by rewrite Hfw.
  - split; [etransitivity; [exact T1|exact R2]|]. split; [etransitivity; [exact T2|exact R3]|]. rewrite Hhw, T3.
    etransitivity; [exact Fc|exact R4].
Qed.
End load_file.
