(* ===== verification/FileMapping.v ===== *)
(** Memory-mapped files: vm/file_mapping.c of Project5, and the system calls
    mmap and munmap. *)
From S2P Require Import Prelude Block Bitmap Palloc PageDir Vm Evict SupplPage.
Local Open Scope Z_scope.

Section mappings.
Context {F : Type} `{!FileOps F} (init_page_dir ram_pages : Z).

(** [m->mappings + i]: a [struct file_mapping] has 20 bytes. *)
Definition mapping_at (m : file_mappings) (i : Z) : Z := mappings m + 20 * i.

(** file_mapping.c 9-12 file_mapping_unused *)
Definition file_mapping_unused (f : Z) : M (vm F) bool :=
  if decide (f = 0) then ret true
  else let! x := get_fmap f in ret (bool_decide (fl x = None) && bool_decide (start_vaddr x = 0)).

(** file_mapping.c 14-22 file_mapping_init *)
Definition file_mapping_init (f : Z) : M (vm F) unit := put_fmap f (mkMapping None 0 0 0 false false).

(** [hash_delete (&t->suppl_page_table->pages_map, &page->hash_elem)] *)
Definition delete_page (t page : Z) : M (vm F) unit :=
  let! x := get_page page in
  let! th := get_thread t in
  let! pages := lift (or_fault (suppl_page_table th)) in
  put_thread t (mkThread (t_pagedir th) (Some (delete (vaddr x) pages)) (mem_mappings th)).

(** file_mapping.c 30-38 file_mapping_dispose, the loop over the pages *)
Fixpoint dispose_loop (fuel : nat) (t cur_page end_ : Z) : M (vm F) unit :=
  match fuel with
  | O => throw OutOfFuel
  | S fuel =>
      if decide (cur_page < end_) then
        let! page := suppl_pt_lookup t cur_page in
        let! ok := suppl_page_load_to_file init_page_dir ram_pages page false in
        assertM ok;;!
        suppl_page_dispose init_page_dir page;;!
        delete_page t page;;!
        free_page page;;!
        dispose_loop fuel t (u32 (cur_page + PAGE_SIZE)) end_
      else ret tt
  end.

(** Enough rounds for the pages of [n] bytes. *)
Definition page_rounds (n : Z) : nat := S (Z.to_nat (n / PAGE_SIZE + 1)).

(** file_mapping.c 24-42 file_mapping_dispose *)
Definition file_mapping_dispose (t f : Z) : M (vm F) unit :=
  let! unused := file_mapping_unused f in
  if (unused : bool) then ret tt
  else
    let! x := get_fmap f in
    (if fl_writable x then
      let end_ := u32 (start_vaddr x + file_size x - offset x) in
      dispose_loop (page_rounds (end_ - start_vaddr x)) t (start_vaddr x) end_
    else ret tt);;!
    on_fs (file_close (fl x));;!
    file_mapping_init f.

Definition set_mem_mappings (t : Z) (m : file_mappings) : M (vm F) unit :=
  let! th := get_thread t in put_thread t (mkThread (t_pagedir th) (suppl_page_table th) m).
(** [free (m->mappings)] *)
Definition free_mappings (m : file_mappings) : M (vm F) unit :=
  if decide (mappings m = 0) then ret tt
  else modify (λ s, set_fmaps (foldr (λ i h, delete (mapping_at m i) h) (fmaps s) (seqZ 0 (pool_size m))) s).

(** file_mapping.c 44-48 file_mappings_init *)
Definition file_mappings_init (t : Z) : M (vm F) unit := set_mem_mappings t (mkMappings 0 0).

(** file_mapping.c 50-57 file_mappings_dispose *)
Definition file_mappings_dispose (t : Z) : M (vm F) unit :=
  let! th := get_thread t in
  let m := mem_mappings th in
  for_to (Z.to_nat (pool_size m)) 0 (λ i, file_mapping_dispose t (mapping_at m i));;!
  free_mappings m;;!
  file_mappings_init t.

(** file_mapping.c 61-67 file_mappings_seek_free_id, the search *)
Fixpoint seek_loop (n : nat) (m : file_mappings) (i : Z) : M (vm F) Z :=
  match n with
  | O => ret (-1)
  | S n =>
      let! unused := file_mapping_unused (mapping_at m i) in
      if (unused : bool) then ret i else seek_loop n m (i + 1)
  end.

(** file_mapping.c 59-86 file_mappings_seek_free_id *)
Definition file_mappings_seek_free_id (t : Z) : M (vm F) Z :=
  let! th := get_thread t in
  let m := mem_mappings th in
  let! free_id := seek_loop (Z.to_nat (pool_size m)) m 0 in
  if decide (0 ≤ free_id) then ret free_id
  else
    let new_pool_size := s32 (2 * pool_size m) in
    let new_pool_size := if decide (new_pool_size < 2) then 2 else new_pool_size in
    let! p := malloc in
    assertM (bool_decide (p ≠ 0));;!
    let new := mkMappings p new_pool_size in
    for_to (Z.to_nat (pool_size m)) 0 (λ i, let! x := get_fmap (mapping_at m i) in put_fmap (mapping_at new i) x);;!
    free_mappings m;;!
    set_mem_mappings t new;;!
    for_to (Z.to_nat (new_pool_size - pool_size m)) (pool_size m) (λ i, file_mapping_init (mapping_at new i));;!
    ret (pool_size m).

(** file_mapping.c 94-100 file_mappable, the loop *)
Fixpoint mappable_loop (fuel : nat) (t cur_page end_ : Z) : M (vm F) bool :=
  match fuel with
  | O => throw OutOfFuel
  | S fuel =>
      if decide (cur_page < end_) then
        let! th := get_thread t in
        let! k := on_hw (pagedir_get_page (t_pagedir th) cur_page) in
        if decide (k ≠ 0) then ret false
        else
          let! page := suppl_pt_lookup t cur_page in
          if decide (page ≠ 0) then ret false
          else mappable_loop fuel t (u32 (cur_page + PAGE_SIZE)) end_
      else ret true
  end.

(** file_mapping.c 88-103 file_mappable *)
Definition file_mappable (t : Z) (fl : option nat) (vaddr offset file_size overshoot : Z) : M (vm F) bool :=
  if decide (t = 0 ∨ fl = None ∨ vaddr = 0) then ret false
  else if decide (pg_ofs vaddr ≠ 0) then ret false
  else
    let end_ := u32 (vaddr + file_size + overshoot - offset) in
    mappable_loop (page_rounds (end_ - vaddr)) t vaddr end_.

(** file_mapping.c 121-126 file_map, the loop *)
Fixpoint map_loop (fuel : nat) (t mapping cur_page end_ : Z) : M (vm F) unit :=
  match fuel with
  | O => throw OutOfFuel
  | S fuel =>
      if decide (cur_page < end_) then
        suppl_table_set_file_mapping t cur_page mapping;;!
        map_loop fuel t mapping (u32 (cur_page + PAGE_SIZE)) end_
      else ret tt
  end.

(** file_mapping.c 105-128 file_map *)
Definition file_map (t : Z) (fl : option nat) (vaddr mapping offset file_size overshoot : Z)
    (writable fl_writable : bool) : M (vm F) bool :=
  match fl with
  | Some f =>
      if decide (t = 0 ∨ vaddr = 0 ∨ mapping = 0) then ret false
      else
        let! new_file := on_fs (file_reopen f) in
        match new_file with
        | None => ret false
        | Some _ =>
            put_fmap mapping (mkMapping new_file offset file_size vaddr writable fl_writable);;!
            let end_ := u32 (vaddr + (file_size + overshoot - offset)) in
            map_loop (page_rounds (end_ - vaddr)) t mapping vaddr end_;;!
            ret true
        end
  | None => ret false
  end.

(** file_mapping.c 130-150 file_mappings_map *)
Definition file_mappings_map (t : Z) (fl : option nat) (vaddr offset file_size overshoot : Z)
    (writable fl_writable : bool) : M (vm F) Z :=
  let! ok := file_mappable t fl vaddr offset file_size overshoot in
  if negb ok then ret (-1)
  else
    let! free_id := file_mappings_seek_free_id t in
    if decide (0 ≤ free_id) then
      let! th := get_thread t in
      let! ok := file_map t fl vaddr (mapping_at (mem_mappings th) free_id) offset file_size overshoot writable fl_writable in
      ret (if (ok : bool) then free_id else -1)
    else ret free_id.

(** file_mapping.c 151-157 file_mappings_unmap *)
Definition file_mappings_unmap (t mapping_id : Z) : M (vm F) Z :=
  let! th := get_thread t in
  let m := mem_mappings th in
  (if decide (0 ≤ mapping_id ∧ mapping_id < pool_size m)
   then file_mapping_dispose t (mapping_at m mapping_id) else ret tt);;!
  ret 0.

(** ** System calls *)

(** syscall.c 29-40 user_address_mappable *)
Fixpoint user_address_mappable (size : nat) (ptr : Z) : bool :=
  match size with
  | O => true
  | S size =>
      if decide (ptr = 0) then false
      else if negb (is_user_vaddr ptr) then false
      else if addr_in_stack_range ptr then false
      else user_address_mappable size (u32 (ptr + 1))
  end.

(** syscall.c 383-390 mmap, of an open file of [file_sz] bytes *)
Definition mmap (t : Z) (fl : option nat) (file_sz vaddr : Z) : M (vm F) Z :=
  if decide (fl = None) then ret (-1)
  else if negb (user_address_mappable (Z.to_nat (u32 file_sz)) vaddr) then ret (-1)
  else file_mappings_map t fl vaddr 0 (u32 file_sz) 0 true true.

(** syscall.c 394-396 munmap *)
Definition munmap (t map_id : Z) : M (vm F) Z := file_mappings_unmap t map_id.
End mappings.
