(* ===== verification/VmSpec.v ===== *)
(** What virtual memory promises: eviction loses nothing, and a page fault brings
    a page back with the bytes it had. *)
From S2P Require Import Prelude Block Bitmap Palloc PallocSpec PageDir PageDirLaws Frames Vm Evict VmLaws EvictLaws Clock Restore SupplPage Grow LoadFile.
Local Open Scope Z_scope.
Local Abbreviation dirs := (gmap Z (gmap Z Z)).

(** A process [t] that runs in the directory [pd]: its table has just the pages
    that are in its directory, by their addresses. *)
Record process {F} (s : vm F) (D : dirs) (t pd : Z) (pages : gmap Z Z) : Prop := {
  pr_thread : ∃ th, threads s !! t = Some th ∧ t_pagedir th = 4096 * pd ∧ suppl_page_table th = Some pages;
  pr_running : cr3 (hw s) = 4096 * pd - PHYS_BASE;
  pr_dir : is_Some (D !! pd);
  pr_table a p : pages !! a = Some p ↔ ∃ x, spages s !! p = Some x ∧ pagedir x = 4096 * pd ∧ vaddr x = a;
}.

(** The user pool is within the machine's memory. *)
Definition pool_in_ram (L : bool → area) (ram_pages : Z) : Prop := ∀ k, in_area (L true) k → k - 786432 < ram_pages.

Section spec.
Context {F : Type} `{!FileOps F} `{!FileLaws F} (init_page_dir ram_pages : Z) (L : bool → area).
Implicit Types s u : vm F.

Lemma evict_page_spec s O D : vm_ok init_page_dir L s O D → eviction_lock s = 1 →
  ∃ r u O', evict_page init_page_dir s = Ret (r, u) ∧ vm_ok init_page_dir L u O' D ∧ eviction_lock u = 1 ∧
    (∀ q, kept s u D q) ∧
    if r then ∃ v x k, victim D s = Some v ∧ spages s !! v = Some x ∧ kaddr x = 4096 * k ∧ O' = O ∖ page_run k 1 ∧
      remove_from v (page_list s) = Some (page_list u)
    else O' = O ∧ page_list u = page_list s ∧ (page_list s = [] ∨ ∀ i, 0 ≤ i < swap_pages s → used s i = true).
Proof.
  intros Hok Hlock. destruct (decide (page_list s = [])) as [He|Hne].
  { exists false, s, O. split; [by apply evict_page_empty|]. split; [done|]. split; [done|]. split; [by left|auto]. }
  destruct (evict_page_ok init_page_dir L s O D Hok Hne Hlock) as (v & x & Hv & Hx & Hk & [(u & Hrun & Hev & Hfile)|(Hf & Hfull & u & Hrun & Hl & Hoku & Hlk)]).
  - destruct (ed_frame _ _ _ _ _ _ _ _ _ Hev) as (k & Ek & Ha & HkO & Hoku). exists true, u, (O ∖ page_run k 1).
    split; [done|]. split; [done|]. split; [apply Hev|]. split.
    + intros q. destruct (decide (q = v)) as [->|Hq]; [|left; by apply Hev].
      destruct (to_file s x (modified (hw s) D x)) eqn:Ef; [right; exists x; auto|left; by apply (ed_swapped _ _ _ _ _ _ _ _ _ Hev)].
    + exists v, x, k. split; [done|]. split; [done|]. split; [done|]. split; [done|].
      destruct (ed_list _ _ _ _ _ _ _ _ _ Hev) as (l1 & l2 & E1 & E2). rewrite E1, E2. apply remove_from_split.
      pose proof (vo_nodup _ _ _ _ _ Hok) as Hnd. rewrite E1 in Hnd. apply NoDup_app in Hnd as (_ & Hnd & _).
      intros Hin. apply (Hnd v Hin). by constructor.
  - exists false, u, O. split; [done|]. split; [done|]. split; [done|]. split; [intros q; left; by apply (latched_content D)|].
    split; [done|]. split; [|by right]. by apply (latched_list D s u Hl).
Qed.

(** ** Page faults *)
Lemma pg_round_down_user a : 0 ≤ a < PHYS_BASE → pg_round_down a = 4096 * (a / 4096).
Proof. intros Ha. change PHYS_BASE with 3221225472 in Ha. unfold pg_round_down. change (not32 PGMASK) with PTE_ADDR. by rewrite land_page by lia. Qed.

Lemma lookup_run s D t pd pages a : process s D t pd pages → 0 ≤ a < PHYS_BASE →
  suppl_pt_lookup t a s = Ret (default 0 (pages !! (4096 * (a / 4096))), s).
Proof.
  intros [(th & Ht & _ & Hp) _ _ _] Ha. unfold suppl_pt_lookup.
  assert (get_thread t s = Ret (th, s)) as Hg by (unfold get_thread; by rewrite Ht).
  rewrite (bind_run _ _ _ _ _ Hg), Hp. cbn [or_fault]. by rewrite bind_lift, pg_round_down_user.
Qed.

Lemma fault_run s D t pd pages a esp : process s D t pd pages → 0 ≤ a < PHYS_BASE →
  page_fault init_page_dir ram_pages t true a esp s =
  (let page := default 0 (pages !! (4096 * (a / 4096))) in
   if decide (page ≠ 0) then
     let! x := get_page page in
     match location x with
     | PG_LOCATION_SWAP => restore_page_from_swap init_page_dir ram_pages page true
     | PG_LOCATION_FILE => suppl_page_load_from_file init_page_dir ram_pages page
     | _ => ret false
     end
   else if stack_grow_needed a esp then suppl_table_alloc_user_page init_page_dir ram_pages t a true else ret false) s.
Proof.
  intros Hp Ha. pose proof Hp as [(th & Ht & Epd & Hpt) _ _ _]. unfold page_fault.
  assert (get_thread t s = Ret (th, s)) as Hg by (unfold get_thread; by rewrite Ht).
  rewrite (bind_run _ _ _ _ _ Hg), Hpt. rewrite bool_decide_true by done. cbn [andb].
  by rewrite (bind_run _ _ _ _ _ (lookup_run s D t pd pages a Hp Ha)).
Qed.

Lemma fault_page s O D t pd pages a p : vm_ok init_page_dir L s O D → process s D t pd pages → pages !! a = Some p →
  p ≠ 0 ∧ ∃ x, spages s !! p = Some x ∧ pagedir x = 4096 * pd ∧ vaddr x = a.
Proof.
  intros Hok Hp Hpa. apply (pr_table _ _ _ _ _ Hp) in Hpa as (x & Hx & H). split; [|by exists x].
  intros ->. pose proof (vo_null _ _ _ _ _ Hok). congruence.
Qed.

(** The page [p] is there for the user at [v]: it has the bytes [l], in a frame that
    is mapped, for writing if [w]. *)
Definition usable u (D : dirs) (p : Z) (x : suppl_page) (w : bool) (l : list Z) : Prop :=
  ∃ k, e_present (entry (hw u) D x) = true ∧ e_frame (entry (hw u) D x) = 4096 * k ∧ e_writable (entry (hw u) D x) = w ∧
    bytes_at (memory (hw u)) (4096 * k) 4096 = l ∧ p ∈ page_list u.

Lemma fault_swapped s O D t pd pages a esp p x : vm_ok init_page_dir L s O D → eviction_lock s = 1 → pool_in_ram L ram_pages →
  process s D t pd pages → 0 ≤ a < PHYS_BASE → pages !! (4096 * (a / 4096)) = Some p → spages s !! p = Some x →
  location x = PG_LOCATION_SWAP →
  ∃ r u O' D', page_fault init_page_dir ram_pages t true a esp s = Ret (r, u) ∧ vm_ok init_page_dir L u O' D' ∧
    eviction_lock u = 1 ∧ content u p = content s p ∧ (∀ q, kept s u D q) ∧
    if r then ∃ l, content s p = Some l ∧ usable u D' p x true l else no_memory L s O.
Proof.
  intros Hok Hlock Hram Hp Ha Hpa Hx Hloc. destruct (fault_page s O D t pd pages _ p Hok Hp Hpa) as (Hp0 & x' & Hx' & Epd & Ev).
  assert (x' = x) as -> by congruence. rewrite (fault_run s D t pd pages a esp Hp Ha), Hpa. cbn [default]. rewrite decide_True by done.
  rewrite (bind_run _ _ _ _ _ (get_page_run s p x Hx)), Hloc.
  destruct (restore_ok init_page_dir L ram_pages s O D p x true Hok Hlock Hx Hloc) as
    [(u & O' & D' & Hrun & Hoku & [C1 (k & x2 & C2 & C3 & C4 & C5) C6 C7 C8 C9])|(u & O' & Hrun & H1 & H2 & H3 & H4 & H5)]; [|done| |].
  - rewrite (pr_running _ _ _ _ _ Hp). by rewrite Epd.
  - exists true, u, O', D'. split; [done|]. split; [done|]. split; [done|]. split; [done|]. split; [done|].
    eexists. rewrite <-C6. split; [exact C5|]. destruct C4 as (M1 & M2 & M3). exists k. split_and!; try done. by apply C8.
  - exists false, u, O', D. split_and!; try done.
Qed.

Lemma fault_file s O D t pd pages a esp p x m f : vm_ok init_page_dir L s O D → eviction_lock s = 1 → pool_in_ram L ram_pages →
  process s D t pd pages → 0 ≤ a < PHYS_BASE → pages !! (4096 * (a / 4096)) = Some p → spages s !! p = Some x →
  location x = PG_LOCATION_FILE → kaddr x = 0 → mapping x ≠ 0 → fmaps s !! mapping x = Some m → fl m = Some f →
  ∃ r u O' D', page_fault init_page_dir ram_pages t true a esp s = Ret (r, u) ∧ vm_ok init_page_dir L u O' D' ∧
    eviction_lock u = 1 ∧ (∀ q, q ≠ p → kept s u D q) ∧
    if r then usable u D' p x (writable m) (file_page m x (file_bytes (fs u) f)) ∧ e_dirty (entry (hw u) D' x) = false
    else no_room L s O x.
Proof.
  intros Hok Hlock Hram Hp Ha Hpa Hx Hloc Hk0 Hm0 Hm Hfl. destruct (fault_page s O D t pd pages _ p Hok Hp Hpa) as (Hp0 & x' & Hx' & Epd & Ev).
  assert (x' = x) as -> by congruence. rewrite (fault_run s D t pd pages a esp Hp Ha), Hpa. cbn [default]. rewrite decide_True by done.
  rewrite (bind_run _ _ _ _ _ (get_page_run s p x Hx)), Hloc.
  destruct (load_from_file_ok init_page_dir L ram_pages s O D p x m f Hok Hlock Hx Hk0 Hloc Hm0 Hm Hfl) as
    [(u & O' & D' & k & Hrun & [L1 L2 (x2 & L3 & L3') L4 (E1 & E2 & E3 & E4) L5 L6 L7])|(u & O' & Hrun & H1 & H2 & H3 & H4)]; [|done| |].
  - rewrite (pr_running _ _ _ _ _ Hp). by rewrite Epd.
  - exists true, u, O', D'. split; [done|]. split; [done|]. split; [done|]. split; [done|]. split; [|done].
    exists k. split; [done|]. split; [done|]. split; [done|]. split; [|done].
    unfold content in L5. rewrite L3 in L5. cbn [mbind option_bind] in L5. unfold resident in L5. cbn [kaddr set_location set_kaddr] in L5.
    destruct (pg_frame _ _ _ _ _ (vo_page _ _ _ _ _ L1 p _ L3)) as (k' & Ek' & _ & Hka & _).
    { pose proof (vo_listed _ _ _ _ _ L1 p L4) as (y & Hy & Hky). assert (y = set_location PG_LOCATION_RAM (set_kaddr (4096 * k) x2)) as -> by congruence. done. }
    cbn [kaddr set_location set_kaddr] in Ek'.
    rewrite bool_decide_true in L5; [by injection L5|].
    pose proof (po_range _ _ _ (ow_pool _ _ _ (sp_owns _ _ _ _ _ (vo_spaces _ _ _ _ _ L1)) true)). unfold in_area in Hka. lia.
  - exists false, u, O', D. split_and!; try done.
Qed.

Lemma fault_stack s O D t pd pages a esp : vm_ok init_page_dir L s O D → eviction_lock s = 1 → pool_in_ram L ram_pages →
  process s D t pd pages → fresh_malloc s → 0 ≤ a → pages !! (4096 * (a / 4096)) = None →
  e_present (entry_of (hw s) D pd (a / 4096)) = false → stack_grow_needed a esp = true →
  ∃ r u O' D', page_fault init_page_dir ram_pages t true a esp s = Ret (r, u) ∧ vm_ok init_page_dir L u O' D' ∧
    eviction_lock u = 1 ∧
    if r then ∃ p k, new_user_page s u D D' t p pd (4096 * (a / 4096)) k true
    else (∀ q, kept s u D q) ∧ (next_malloc s = 0 ∨ no_memory L s O).
Proof.
  intros Hok Hlock Hram Hp Hfresh Ha0 Hpn Habs Hst.
  assert (0 ≤ a < PHYS_BASE) as Ha.
  { unfold stack_grow_needed, addr_in_stack_range, is_user_vaddr in Hst. apply andb_true_iff in Hst as [[H _]%andb_true_iff _].
    by apply bool_decide_eq_true in H. }
  rewrite (fault_run s D t pd pages a esp Hp Ha), Hpn, Hst. cbn [default]. rewrite decide_False by (by intros []).
  set (v := 4096 * (a / 4096)) in *. assert (0 ≤ v < PHYS_BASE ∧ v mod 4096 = 0) as [Hv Hal].
  { unfold v. change PHYS_BASE with 3221225472 in *. mlia. }
  assert (v / 4096 = a / 4096) as Eva by (unfold v; mlia).
  assert (suppl_table_alloc_user_page init_page_dir ram_pages t a true = suppl_table_alloc_user_page init_page_dir ram_pages t v true) as ->.
  { unfold suppl_table_alloc_user_page, suppl_table_set_page. rewrite (pg_round_down_aligned v) by done. by rewrite pg_round_down_user by done. }
  pose proof Hp as [(th & Ht & Epd & Hpt) Hrunning Hd Htab].
  destruct (alloc_ok init_page_dir L ram_pages s O D t pd v true Hok Hlock) as [(u & O' & D' & p & k & Hrun & Hoku & Hnu)|(u & O' & H1 & H2 & H3 & H4 & H5)]; [|done|done| |].
  - split; [by exists th, pages|done|done|by rewrite Eva|]. intros q y Hy [E1 E2].
    pose proof (vo_page _ _ _ _ _ Hok q y Hy) as [[F1 _] [_ F2] _ _ _ _].
    assert (pages !! v = Some q) as E; [|congruence]. apply Htab. exists y. split; [done|]. split; [mlia|].
    by apply same_page_div.
  - exists true, u, O', D'. split; [done|]. split; [done|]. split; [apply Hnu|]. by exists p, k.
  - exists false, u, O', D. split_and!; try done.
Qed.
End spec.

(** ** The properties *)
Section properties.
Context {F : Type} `{!FileOps F} `{!FileLaws F} (init_page_dir ram_pages : Z) (L : bool → area).
Implicit Types s u : vm F.

(** C20: Eviction loses nothing.  With the lock free, [evict_page] returns: true with the page that the clock algorithm
    chooses out of memory, its frame free and the page off the list, false with the same pages in memory if there is
    none to evict or the page has to go to the swap and the swap is full.  Every page keeps its bytes, in memory or in the
    swap, or its file has what was changed; the invariant of virtual memory holds and the lock is free again. *)
Theorem eviction_loses_nothing s O D : vm_ok init_page_dir L s O D → eviction_lock s = 1 →
  ∃ r u O', evict_page init_page_dir s = Ret (r, u) ∧ vm_ok init_page_dir L u O' D ∧ eviction_lock u = 1 ∧
    (∀ q, kept s u D q) ∧
    if r then ∃ v x k, victim D s = Some v ∧ spages s !! v = Some x ∧ kaddr x = 4096 * k ∧ O' = O ∖ page_run k 1 ∧
      remove_from v (page_list s) = Some (page_list u)
    else O' = O ∧ page_list u = page_list s ∧ (page_list s = [] ∨ ∀ i, 0 ≤ i < swap_pages s → used s i = true).
Proof. apply evict_page_spec. Qed.

(** The process and its tables stay what they are when a page is evicted. *)
Lemma process_evicted s u O D t pd pages v x file : vm_ok init_page_dir L s O D → spages s !! v = Some x →
  evicted init_page_dir L s u O D v x file → process s D t pd pages → process u D t pd pages.
Proof.
  intros Hok Hx Hev [H1 H2 H3 H4]. destruct (ed_rest _ _ _ _ _ _ _ _ _ Hev) as (_ & Et & _ & Ec).
  destruct (ed_page _ _ _ _ _ _ _ _ _ Hev) as (x' & Hx' & _ & Ev & Ep & _). split; [by rewrite Et|by rewrite Ec|done|].
  intros a p. rewrite H4. destruct (decide (p = v)) as [->|Hne].
  - rewrite Hx, Hx'. split; intros (y & [= <-] & E1 & E2); [exists x'|exists x]; split_and!; congruence.
  - destruct (ed_others _ _ _ _ _ _ _ _ _ Hev p Hne) as [_ Hsame]. inversion Hsame as [y y' Hc E1 E2|]; [|done].
    destruct (core_fields _ _ Hc) as (Cv & _ & _ & Cp & _).
    split; intros (z & [= <-] & G1 & G2); [exists y'|exists y]; split_and!; congruence.
Qed.

Lemma room_after s O k : in_area (L true) k → k ∈ O →
  (∃ i, free_run (L false) O i 1) → ¬ no_memory L s (O ∖ page_run k 1).
Proof.
  intros Hk HkO [i Hi] [[Hn _]|(O' & Hn & Hsub)].
  - apply (Hn k). unfold in_area in Hk. split; [lia|]. split; [lia|]. intros q Hq. apply not_elem_of_difference. right. apply elem_page_run. lia.
  - apply (Hn i). destruct Hi as (H1 & H2 & H3). split; [done|]. split; [done|]. intros q Hq Hin. apply (H3 q Hq).
    assert (q ∈ O ∖ page_run k 1) as H4 by (apply Hsub; [unfold in_area; lia|done]). by apply elem_of_difference in H4 as [? _].
Qed.

(** C19: The round trip of a page through the swap.  If the page that the clock algorithm chooses belongs to the running
    process and has no file to go to, the swap has a free slot and the kernel a free page, then [evict_page] takes it out
    of memory, and the page fault of the next access to any address in it succeeds and brings it back: a frame with the
    very bytes that the page had is mapped for writing at its address, and the page is registered again. *)
Theorem swapped_page_comes_back s O D t pd pages a esp v x : vm_ok init_page_dir L s O D → eviction_lock s = 1 →
  pool_in_ram L ram_pages → process s D t pd pages → 0 ≤ a < PHYS_BASE → pages !! (4096 * (a / 4096)) = Some v →
  spages s !! v = Some x → victim D s = Some v → to_file s x (modified (hw s) D x) = false →
  (∃ i, 0 ≤ i < swap_pages s ∧ used s i = false) → (∃ i, free_run (L false) O i 1) →
  ∃ u u' O' D', evict_page init_page_dir s = Ret (true, u) ∧ e_present (entry (hw u) D x) = false ∧
    page_fault init_page_dir ram_pages t true a esp u = Ret (true, u') ∧ vm_ok init_page_dir L u' O' D' ∧
    usable u' D' v x true (bytes_at (memory (hw s)) (kaddr x) 4096).
Proof.
  intros Hok Hlock Hram Hp Ha Hpa Hx Hv Hfile Hfree Hkern.
  assert (page_list s ≠ []) as Hne by (intros E; unfold victim, clock_order in Hv; rewrite E in Hv; by destruct (page_elem s)).
  destruct (evict_page_ok init_page_dir L s O D Hok Hne Hlock) as (v' & y & Hv' & Hy & Hk & Hcase).
  assert (v' = v) as -> by congruence. assert (y = x) as -> by congruence. cbn zeta in Hcase. rewrite Hfile in Hcase.
  destruct Hcase as [(u & Hrun & Hev & _)|(_ & Hfull & _)]; [|destruct Hfree as (i & Hi & Hu); by rewrite Hfull in Hu].
  destruct (ed_frame _ _ _ _ _ _ _ _ _ Hev) as (k & Ek & Hka & HkO & Hoku).
  destruct (ed_page _ _ _ _ _ _ _ _ _ Hev) as (x' & Hx' & Hk' & Ev & Ep & _ & Hloc).
  assert (entry (hw u) D x = entry (hw u) D x') as Eent by (unfold entry; by rewrite Ev, Ep).
  assert (content s v = Some (bytes_at (memory (hw s)) (kaddr x) 4096)) as Hc.
  { unfold content. rewrite Hx. cbn [mbind option_bind]. unfold resident. by rewrite bool_decide_true. }
  destruct (ed_swapped _ _ _ _ _ _ _ _ _ Hev eq_refl) as [Hcv _].
  destruct (fault_swapped init_page_dir ram_pages L u (O ∖ page_run k 1) D t pd pages a esp v x' Hoku) as (r & u' & O' & D' & Hf & Hoku' & _ & _ & _ & Hr);
    [apply Hev|exact Hram|exact (process_evicted s u O D t pd pages v x false Hok Hx Hev Hp)|done|done|done|exact Hloc|]. destruct r.
  - exists u, u', O', D'. split; [done|]. split; [rewrite Eent; by apply (vo_page _ _ _ _ _ Hoku v x' Hx')|].
    split; [done|]. split; [done|]. destruct Hr as (l & Hl & Hus). rewrite Hcv, Hc in Hl. injection Hl as <-.
    destruct Hus as (k2 & U). exists k2. unfold entry in *. by rewrite Ev, Ep in U.
  - exfalso. by apply (room_after u O k) in Hr.
Qed.

(** C21: A page fault brings in a page of a mapped file.  Either a frame is mapped at its address, for writing just if the
    mapping is, that has the bytes of the file from the page's place on, zeros from the end of the mapping on, and does
    not count as changed; or no frame could be found for it, and the fault is not handled.  Every other page keeps its
    bytes, also if one had to be evicted. *)
Theorem page_fault_loads_file s O D t pd pages a esp p x m f : vm_ok init_page_dir L s O D → eviction_lock s = 1 →
  pool_in_ram L ram_pages → process s D t pd pages → 0 ≤ a < PHYS_BASE → pages !! (4096 * (a / 4096)) = Some p →
  spages s !! p = Some x → location x = PG_LOCATION_FILE → kaddr x = 0 → mapping x ≠ 0 →
  fmaps s !! mapping x = Some m → fl m = Some f →
  ∃ r u O' D', page_fault init_page_dir ram_pages t true a esp s = Ret (r, u) ∧ vm_ok init_page_dir L u O' D' ∧
    eviction_lock u = 1 ∧ (∀ q, q ≠ p → kept s u D q) ∧
    if r then usable u D' p x (writable m) (file_page m x (file_bytes (fs u) f)) ∧ e_dirty (entry (hw u) D' x) = false
    else no_room L s O x.
Proof. apply fault_file. Qed.

(** C22: A page fault grows the stack.  For an address at which the process has no page: if it lies in the 8 MB below
    PHYS_BASE and not more than 128 bytes below the stack pointer, a page of zeros is mapped there for writing and entered
    into the table of pages, or there is no memory for it; if not, nothing changes and the fault is not handled. *)
Theorem page_fault_grows_stack s O D t pd pages a esp : vm_ok init_page_dir L s O D → eviction_lock s = 1 →
  pool_in_ram L ram_pages → process s D t pd pages → fresh_malloc s → 0 ≤ a < PHYS_BASE →
  pages !! (4096 * (a / 4096)) = None → e_present (entry_of (hw s) D pd (a / 4096)) = false →
  ∃ r u O' D', page_fault init_page_dir ram_pages t true a esp s = Ret (r, u) ∧ vm_ok init_page_dir L u O' D' ∧
    eviction_lock u = 1 ∧
    if (r : bool) then stack_grow_needed a esp = true ∧ ∃ p k, new_user_page s u D D' t p pd (4096 * (a / 4096)) k true
    else (∀ q, kept s u D q) ∧
      if stack_grow_needed a esp then next_malloc s = 0 ∨ no_memory L s O else u = s.
Proof.
  intros Hok Hlock Hram Hp Hfresh Ha Hpn Habs. destruct (stack_grow_needed a esp) eqn:Hst.
  - destruct (fault_stack init_page_dir ram_pages L s O D t pd pages a esp Hok Hlock Hram Hp Hfresh) as
      (r & u & O' & D' & H1 & H2 & H3 & H4); [lia|done..|]. exists r, u, O', D'. split_and!; try done. by destruct r.
  - exists false, s, O, D. rewrite (fault_run init_page_dir ram_pages s D t pd pages a esp Hp Ha), Hpn, Hst. cbn [default].
    rewrite decide_False by (by intros []). split_and!; try done. intros q. by left.
Qed.
End properties.
