(* ===== verification/VmScenarios.v ===== *)
(** Virtual memory on a machine of 300 pages with a swap of two: the theorems of
    VmSpec at work.
    Their files are byte arrays that are opened any number of times, which keep what
    VmLaws asks of files. *)
From S2P Require Import Prelude Block Bitmap Palloc PallocSpec PageDir PageDirLaws PageDirSpec Frames Vm Evict VmLaws Clock SupplPage Restore Grow LoadFile FileMapping VmSpec.
Local Open Scope Z_scope.

(** ** Flat files *)

(** A handle is a file by its number, and a position. *)
Record flat := mkFlat { data : list (list Z); handles : list (nat * Z) }.

Definition flat_handle (f : nat) : M flat (nat * Z) := λ s, let* h := or_fault (handles s !! f) in Ret (h, s).
Definition set_position (f : nat) (i : nat) (pos : Z) : M flat unit := modify (λ s, mkFlat (data s) (<[f := (i, pos)]> (handles s))).
Definition flat_bytes (s : flat) (i : nat) : list Z := default [] (data s !! i).

#[export] Instance flat_ops : FileOps flat := {
  file_reopen f := let! h := flat_handle f in λ s, Ret (Some (length (handles s)), mkFlat (data s) (handles s ++ [(h.1, 0)]));
  file_close _ := ret tt;
  file_seek f ofs := match f with Some f => let! h := flat_handle f in set_position f h.1 ofs | None => throw Panic end;
  file_read f n := let! h := flat_handle f in λ s,
    let l := take (Z.to_nat n) (drop (Z.to_nat h.2) (flat_bytes s h.1)) in
    (set_position f h.1 (h.2 + Z.of_nat (length l));;! ret l) s;
  file_write f l n := let! h := flat_handle f in λ s,
    let l := take (length (flat_bytes s h.1) - Z.to_nat h.2) (take (Z.to_nat n) l) in
    (modify (λ s, mkFlat (<[h.1 := splice (flat_bytes s h.1) (Z.to_nat h.2) l]> (data s)) (handles s));;!
     set_position f h.1 (h.2 + Z.of_nat (length l));;! ret (Z.of_nat (length l))) s;
}.

Definition flat_opened (s : flat) (f : nat) : Prop :=
  ∃ i pos l, handles s !! f = Some (i, pos) ∧ data s !! i = Some l ∧ Forall byte l.
Definition flat_contents (s : flat) (f : nat) : list Z :=
  match handles s !! f with Some (i, _) => flat_bytes s i | None => [] end.
Definition flat_position (s : flat) (f : nat) : Z := match handles s !! f with Some (_, pos) => pos | None => 0 end.

(** Moving one handle. *)
Lemma flat_moved s f i pos pos' g : handles s !! f = Some (i, pos) → flat_opened s g →
  let s' := mkFlat (data s) (<[f := (i, pos')]> (handles s)) in
  flat_opened s' g ∧ flat_contents s' g = flat_contents s g.
Proof.
  intros Hf (j & p & l & Hg & Hl & Hb) s'. unfold flat_opened, flat_contents, s'. cbn [handles data].
  destruct (decide (g = f)) as [->|Hne].
  - rewrite list_lookup_insert_eq by (by eapply lookup_lt_Some). assert (j = i) as -> by congruence. rewrite Hf. split; [|done].
    by exists i, pos', l.
  - rewrite list_lookup_insert_ne by done. rewrite Hg. split; [|done]. by exists j, p, l.
Qed.

Lemma flat_position_moved s f i pos pos' : handles s !! f = Some (i, pos) →
  flat_position (mkFlat (data s) (<[f := (i, pos')]> (handles s))) f = pos'.
Proof. intros Hf. unfold flat_position. cbn. by rewrite list_lookup_insert_eq by (by eapply lookup_lt_Some). Qed.

Lemma Forall_splice {A} (P : A → Prop) l i k : Forall P l → Forall P k → Forall P (splice l i k).
Proof. intros Hl Hk. unfold splice. apply Forall_app; split; [by apply Forall_take|]. apply Forall_app; split; [done|by apply Forall_drop]. Qed.

#[export] Program Instance flat_laws : FileLaws flat := {
  opened := flat_opened;
  position := flat_position;
  file_bytes := flat_contents;
}.
Next Obligation.
  intros s f (i & pos & l & Hf & Hl & Hb). unfold flat_contents, flat_bytes. by rewrite Hf, Hl.
Qed.
Next Obligation.
  intros s f ofs (i & pos & l & Hf & Hl & Hb) Hofs. eexists. split.
  - unfold file_seek, flat_ops, bind, flat_handle. rewrite Hf. reflexivity.
  - split; [|by eapply flat_position_moved]. intros g Hg. by eapply flat_moved.
Qed.
Next Obligation.
  intros s f n (i & pos & l & Hf & Hl & Hb) Hpos Hn. unfold flat_position, flat_contents in *. rewrite Hf in *. eexists. split.
  - unfold file_read, flat_ops, bind, flat_handle. rewrite Hf. reflexivity.
  - intros g Hg. by eapply flat_moved.
Qed.
Next Obligation.
  intros s f l (i & pos & k & Hf & Hk & Hb) Hpos Hl Hlen. unfold flat_position, flat_contents in *. rewrite Hf in *.
  unfold flat_bytes in *. rewrite Hk in *. cbn [default id] in *.
  assert (take (length k - Z.to_nat pos) (take (Z.to_nat (Z.of_nat (length l))) l) = l) as Et.
  { rewrite Nat2Z.id, firstn_all. apply take_ge. lia. }
  eexists. split.
  - unfold file_write, flat_ops, bind, flat_handle. rewrite Hf. cbn [obind or_fault fst snd]. unfold flat_bytes. rewrite Hk. cbn [default id].
    rewrite Et. unfold modify, set_position, ret. cbn [data handles]. rewrite Hk. reflexivity.
  - cbn [data handles]. set (s1 := mkFlat (<[i := splice k (Z.to_nat pos) l]> (data s)) (handles s)).
    assert (Z.to_nat pos + length l ≤ length k)%nat as Hle by lia.
    assert (∀ g, flat_opened s g → flat_opened s1 g ∧ length (flat_contents s1 g) = length (flat_contents s g)) as H1.
    { intros g (j & p & c & Hg & Hc & Hcb). unfold flat_opened, flat_contents, flat_bytes, s1. cbn [handles data]. rewrite Hg.
      destruct (decide (j = i)) as [->|Hne].
      - rewrite list_lookup_insert_eq by (by eapply lookup_lt_Some). assert (c = k) as -> by congruence. rewrite Hk. cbn [default id].
        split; [|by apply length_splice]. exists i, p, (splice k (Z.to_nat pos) l). split; [done|].
        split; [by rewrite list_lookup_insert_eq by (by eapply lookup_lt_Some)|by apply Forall_splice].
      - split; [|by rewrite list_lookup_insert_ne]. exists j, p, c. by rewrite list_lookup_insert_ne. }
    split.
    + intros g Hg. destruct (H1 g Hg) as [G1 G2]. destruct (flat_moved s1 f i pos (pos + Z.of_nat (length l)) g Hf G1) as [G3 G4].
      split; [exact G3|]. etransitivity; [exact (f_equal length G4)|exact G2].
    + rewrite list_lookup_insert_eq by (by eapply lookup_lt_Some).
      by rewrite list_lookup_insert_eq by (by eapply lookup_lt_Some).
Qed.

(** ** The machine *)

(** A process, thread 1, whose directory is in page 786690, with no pages yet. *)
Definition pd1 : Z := 786690.
Definition running : mmu := mkMmu (ram booted) (4096 * pd1 - PHYS_BASE).
Definition swap_disk : block := mkBlock BLOCK_SWAP 16 (replicate 16 (replicate 512 0)) 0 0.
Definition bare (maps : gmap Z file_mapping) (th : vm_thread) (files : flat) : vm flat :=
  mkVm running (mkBitmap 2 [0]) swap_disk ∅ maps [] None 1 {[ 1 := th ]} (Some <$> [4096; 8192; 12288; 16384; 20480]) files.
Definition start : vm flat := bare ∅ (mkThread (4096 * pd1) (Some ∅) (mkMappings 0 0)) (mkFlat [[1; 2; 3]] [(0%nat, 0)]).
Definition dirs1 : gmap Z (gmap Z Z) := {[ pd1 := ∅ ]}.

Lemma spaces_cr3 init_page_dir L s O (D : gmap Z (gmap Z Z)) c : spaces init_page_dir L s O D → 0 ≤ c < 1073741824 →
  spaces init_page_dir L (mkMmu (ram s) c) O D.
Proof. by intros [H1 H2 H3 H4 H5 H6 H7 H8 H9] Hc; split. Qed.

Lemma entry_cr3 s c D pd n : entry_of (mkMmu (ram s) c) D pd n = entry_of s D pd n.
Proof. done. Qed.

Section bare.
Context (maps : gmap Z file_mapping) (th : vm_thread) (files : flat).
Local Abbreviation nothing := (bare maps th files).

Lemma bare_swap : swap_ok nothing.
Proof.
  split.
  - split; [cbn; lia|done|]. by repeat constructor.
  - split; [done|done|by vm_compute|]. cbn [contents bare swap_block swap_disk]. apply Forall_forall. intros d [-> _]%elem_of_replicate. done.
  - by vm_compute.
  - cbn [contents bare swap_block swap_disk]. apply Forall_forall. intros d [-> _]%elem_of_replicate.
    apply Forall_forall. intros b [-> _]%elem_of_replicate. unfold byte. lia.
Qed.

Lemma bare_ok : ∃ O, vm_ok (4096 * boot_page) small_areas nothing O dirs1 ∧
  ∀ n, 0 ≤ n < 786432 → entry_of (hw nothing) dirs1 pd1 n = no_entry.
Proof.
  destruct booted_ok as (O & [Hs _ _ _] & HE). exists O. split.
  - split.
    + apply (spaces_cr3 _ _ booted); [exact Hs|by vm_compute].
    + apply bare_swap.
    + constructor.
    + apply lookup_empty.
    + intros e [=].
    + intros p []%elem_of_nil.
    + intros p x Hx. exfalso. by apply (lookup_empty_Some p x).
    + intros p q x y Hx. exfalso. by apply (lookup_empty_Some p x).
    + intros p x Hx. exfalso. by apply (lookup_empty_Some p x).
  - intros n Hn. etransitivity; [apply (entry_cr3 booted)|by apply HE].
Qed.
End bare.

Lemma start_process : process start dirs1 1 pd1 ∅.
Proof.
  split.
  - by eexists.
  - done.
  - exists ∅. apply lookup_insert_eq.
  - intros a p. rewrite lookup_empty. split; [done|]. intros (x & Hx & _). exfalso. by apply (lookup_empty_Some p x).
Qed.

Lemma small_pool_in_ram : pool_in_ram small_areas 300.
Proof. intros k Hk. assert (small_areas true = (786729, 3)) as E by (by vm_compute). rewrite E in Hk. unfold in_area in Hk. cbn in Hk. lia. Qed.

(** ** The stack grows *)

Lemma start_fresh : fresh_malloc start.
Proof. intros _. apply lookup_empty. Qed.

Lemma no_entry_present s D pd n : entry_of s D pd n = no_entry → e_present (entry_of s D pd n) = false.
Proof. by intros ->. Qed.

(** After a push at the top of the stack. *)
Definition stack_top : Z := PHYS_BASE - 8.
Definition first_fault : outcome (bool * vm flat) := page_fault (4096 * boot_page) 300 1 true stack_top stack_top start.
Definition grown : vm flat := match first_fault with Ret (_, s) => s | Err _ => start end.

Lemma first_fault_true : match first_fault with Ret (b, _) => b | Err _ => false end = true.
Proof. by vm_compute. Qed.


Lemma page_fault_grows_stack_witness : ∃ u O' D', first_fault = Ret (true, u) ∧
  vm_ok (4096 * boot_page) small_areas u O' D' ∧ ∃ p k, new_user_page start u dirs1 D' 1 p pd1 3221221376 k true.
Proof.
  destruct (bare_ok ∅ (mkThread (4096 * pd1) (Some ∅) (mkMappings 0 0)) (mkFlat [[1; 2; 3]] [(0%nat, 0)])) as (O & Hok & HE).
  destruct (page_fault_grows_stack (4096 * boot_page) 300 small_areas start O dirs1 1 pd1 ∅ stack_top stack_top Hok) as
    (r & u & O' & D' & Hrun & Hoku & _ & Hr).
  - reflexivity.
  - exact small_pool_in_ram.
  - exact start_process.
  - exact start_fresh.
  - by vm_compute.
  - apply lookup_empty.
  - apply no_entry_present, HE. by vm_compute.
  - pose proof first_fault_true as E. unfold first_fault in *. rewrite Hrun in *. exists u, O', D'. subst r. split; [reflexivity|].
    split; [exact Hoku|]. exact (proj2 Hr).
Defined.

(** ** Through the swap *)

Definition stack_page : Z := 3221221376.
Definition the_page : suppl_page := mkSuppl stack_page (4096 * 786729) SWAP_NO_PAGE (4096 * pd1) 0 PG_LOCATION_RAM true true.

Lemma grown_known : spages grown = {[ 4096 := the_page ]} ∧ page_list grown = [4096] ∧ eviction_lock grown = 1 ∧
  cr3 (hw grown) = 4096 * pd1 - PHYS_BASE ∧ alloc_map grown = mkBitmap 2 [0] ∧
  threads grown = {[ 1 := mkThread (4096 * pd1) (Some {[ stack_page := 4096 ]}) (mkMappings 0 0) ]}.
Proof. split_and!; by vm_compute. Qed.

(** The kernel has a free page. *)
Lemma grown_spare O D : vm_ok (4096 * boot_page) small_areas grown O D → ∃ i, free_run (small_areas false) O i 1.
Proof.
  intros Hok. pose proof (ow_pool _ _ _ (sp_owns _ _ _ _ _ (vo_spaces _ _ _ _ _ Hok)) false) as Hp.
  assert (small_areas false = (786689, 39)) as E by (by vm_compute). rewrite E in *. exists (786689 + 10).
  apply (free_run_bits (786689, 39) _ O 10 1 Hp); [lia|lia|cbn; lia|]. rewrite seg_one.
  - constructor; [|constructor]. by vm_compute.
  - rewrite (po_cnt _ _ _ Hp). cbn. lia.
Qed.

Lemma stack_grown_full : ∃ O D, vm_ok (4096 * boot_page) small_areas grown O D ∧ process grown D 1 pd1 {[ stack_page := 4096 ]} ∧
  e_writable (entry_of (hw grown) D pd1 (stack_top / 4096)) = true.
Proof.
  destruct (bare_ok ∅ (mkThread (4096 * pd1) (Some ∅) (mkMappings 0 0)) (mkFlat [[1; 2; 3]] [(0%nat, 0)])) as (O & Hok & HE).
  destruct (fault_stack (4096 * boot_page) 300 small_areas start O dirs1 1 pd1 ∅ stack_top stack_top Hok) as
    (r & u & O' & D' & Hrun & Hoku & _ & Hr); [reflexivity|exact small_pool_in_ram|exact start_process|exact start_fresh|
    by vm_compute|apply lookup_empty|apply no_entry_present, HE; by vm_compute|by vm_compute|].
  pose proof first_fault_true as Et. unfold first_fault in Et. rewrite Hrun in Et. subst r. destruct Hr as (p0 & k0 & Hnew).
  assert (e_writable (entry_of (hw u) D' pd1 (stack_top / 4096)) = true) as Hw.
  { pose proof (nu_entry _ _ _ _ _ _ _ _ _ _ Hnew) as E. rewrite Z.mul_comm, Z.div_mul in E by lia. by rewrite E. }
  clear Hnew.
  assert (grown = u) as E by (unfold grown, first_fault; rewrite Hrun; reflexivity). clear Hrun. rewrite <-E in *. clear E u.
  exists O', D'. split; [exact Hoku|]. split; [|exact Hw]. destruct grown_known as (Ep & _ & _ & Ec & _ & Et). split.
  - rewrite Et. eexists. split; [apply lookup_singleton_eq|]. split; reflexivity.
  - exact Ec.
  - pose proof (pg_dir _ _ _ _ _ (vo_page _ _ _ _ _ Hoku 4096 the_page ltac:(rewrite Ep; apply lookup_singleton_eq))) as [_ H].
    exact H.
  - intros a p. rewrite Ep. split.
    + intros [<- <-]%lookup_singleton_Some. exists the_page. split; [apply lookup_singleton_eq|]. split; reflexivity.
    + intros (x & [<- <-]%lookup_singleton_Some & _ & <-). apply lookup_singleton_eq.
Qed.

Lemma stack_grown_ok : ∃ O D, vm_ok (4096 * boot_page) small_areas grown O D ∧ process grown D 1 pd1 {[ stack_page := 4096 ]}.
Proof. destruct stack_grown_full as (O & D & H1 & H2 & _). by exists O, D. Qed.

Lemma stack_top_user : 0 ≤ stack_top < PHYS_BASE.
Proof. by vm_compute. Qed.
Lemma stack_top_page : 4096 * (stack_top / 4096) = stack_page.
Proof. by vm_compute. Qed.

Lemma grown_victim D : victim D grown = Some 4096.
Proof.
  destruct grown_known as (_ & El & _). assert (page_elem grown = None) as Eh by (by vm_compute).
  unfold victim, clock_order. rewrite El, Eh. cbn [List.find head]. by repeat case_match.
Qed.

Lemma eviction_loses_nothing_witness : ∃ (O : gset Z) D r u, evict_page (4096 * boot_page) grown = Ret (r, u) ∧
  (∃ O', vm_ok (4096 * boot_page) small_areas u O' D ∧ 786729 ∈ O ∧ 786729 ∉ O') ∧ (∀ q, kept grown u D q) ∧ r = true.
Proof.
  destruct stack_grown_ok as (O & D & Hok & _). destruct grown_known as (Ep & El & Elock & _).
  destruct (eviction_loses_nothing (4096 * boot_page) small_areas grown O D Hok Elock) as (r & u & O' & Hrun & Hoku & _ & Hk & Hr).
  exists O, D, r, u. split; [exact Hrun|].
  assert (match evict_page (4096 * boot_page) grown with Ret (b, _) => b | Err _ => false end = true) as E by (by vm_compute).
  rewrite Hrun in E. subst r. split; [|split; [exact Hk|reflexivity]]. destruct Hr as (v & x & k & Hv & Hx & Ek & -> & _).
  rewrite grown_victim in Hv. injection Hv as <-. rewrite Ep, lookup_singleton_eq in Hx. injection Hx as <-.
  exists (O ∖ page_run k 1). split; [exact Hoku|]. cbn [kaddr the_page] in Ek. assert (k = 786729) as -> by lia. split.
  - destruct (pg_frame _ _ _ _ _ (vo_page _ _ _ _ _ Hok 4096 the_page ltac:(rewrite Ep; apply lookup_singleton_eq))) as (k & Ek' & Hk' & _).
    + cbn. lia.
    + cbn [kaddr the_page] in Ek'. assert (k = 786729) as <- by lia. exact Hk'.
  - apply not_elem_of_difference. right. apply elem_page_run. lia.
Defined.

Lemma swapped_page_comes_back_witness : ∃ u u' O' D', evict_page (4096 * boot_page) grown = Ret (true, u) ∧
  page_fault (4096 * boot_page) 300 1 true stack_top stack_top u = Ret (true, u') ∧ vm_ok (4096 * boot_page) small_areas u' O' D' ∧
  usable u' D' 4096 the_page true (bytes_at (memory (hw grown)) (4096 * 786729) 4096).
Proof.
  destruct stack_grown_ok as (O & D & Hok & Hp). destruct grown_known as (Ep & El & Elock & _ & Eam & _).
  destruct (swapped_page_comes_back (4096 * boot_page) 300 small_areas grown O D 1 pd1 {[ stack_page := 4096 ]} stack_top stack_top 4096
    the_page Hok Elock small_pool_in_ram Hp) as (u & u' & O' & D' & H1 & _ & H2 & H3 & H4).
  - exact stack_top_user.
  - rewrite stack_top_page. apply lookup_singleton_eq.
  - rewrite Ep. apply lookup_singleton_eq.
  - apply grown_victim.
  - reflexivity.
  - exists 0. unfold swap_pages, used. rewrite Eam. split; [cbn; lia|reflexivity].
  - exact (grown_spare O D Hok).
  - exists u, u', O', D'. split; [exact H1|]. split; [exact H2|]. split; [exact H3|exact H4].
Defined.

(** ** A mapped file *)

(** A file of three bytes is mapped at 0x8048000, as mmap does it. *)
Definition map_addr : Z := 134512640.
Definition file_entry : file_mapping := mkMapping (Some 1%nat) 0 3 map_addr true true.
Definition file_spage : suppl_page := mkSuppl map_addr 0 SWAP_NO_PAGE (4096 * pd1) 4096 PG_LOCATION_FILE false false.
Definition unmapped : vm flat := bare {[ 4096 := file_entry ]} (mkThread (4096 * pd1) (Some {[ map_addr := 8192 ]}) (mkMappings 4096 2))
  (mkFlat [[1; 2; 3]] [(0%nat, 0); (0%nat, 0)]).
Definition mapped : vm flat := set_spages {[ 8192 := file_spage ]} unmapped.

Example mmap_maps :
  match mmap 1 (Some 0%nat) 3 map_addr start with
  | Ret (id, s) => id = 0 ∧ spages s = spages mapped ∧ fmaps s !! 4096 = Some file_entry ∧ threads s = threads mapped ∧ fs s = fs mapped
  | Err _ => False
  end.
Proof. vm_compute. repeat (split; [reflexivity|]). reflexivity. Qed.

Lemma mapped_file : mapping_ok unmapped file_spage file_entry.
Proof.
  split.
  - exists 1%nat. split; [reflexivity|]. split; [|by vm_compute]. exists 0%nat, 0, [1; 2; 3].
    split; [reflexivity|]. split; [reflexivity|]. repeat constructor; done.
  - by vm_compute.
  - by vm_compute.
  - by vm_compute.
  - by vm_compute.
Qed.

Lemma mapped_ok : ∃ O, vm_ok (4096 * boot_page) small_areas mapped O dirs1.
Proof.
  destruct (bare_ok {[ 4096 := file_entry ]} (mkThread (4096 * pd1) (Some {[ map_addr := 8192 ]}) (mkMappings 4096 2))
    (mkFlat [[1; 2; 3]] [(0%nat, 0); (0%nat, 0)])) as (O & Hok & HE). exists O.
  apply (vm_ok_insert _ _ unmapped O dirs1 8192 file_spage Hok).
  - apply lookup_empty.
  - lia.
  - split.
    + split; [reflexivity|]. exists ∅. apply lookup_insert_eq.
    + by vm_compute.
    + intros []. reflexivity.
    + intros _. apply no_entry_present. replace (pagedir file_spage / 4096) with pd1 by (by vm_compute). apply HE. by vm_compute.
    + intros []. reflexivity.
    + intros [=].
  - intros q y Hy. exfalso. by apply (lookup_empty_Some q y).
  - intros _. exists file_entry. split; [apply lookup_singleton_eq|]. exact mapped_file.
Qed.

Lemma mapped_process : process mapped dirs1 1 pd1 {[ map_addr := 8192 ]}.
Proof.
  split.
  - eexists. split; [apply lookup_singleton_eq|]. split; reflexivity.
  - reflexivity.
  - exists ∅. apply lookup_insert_eq.
  - intros a p. split.
    + intros [<- <-]%lookup_singleton_Some. exists file_spage. split; [apply lookup_singleton_eq|]. split; reflexivity.
    + intros (x & Hx & _ & <-). change (spages mapped) with ({[ 8192 := file_spage ]} : gmap Z suppl_page) in Hx.
      apply lookup_singleton_Some in Hx as [<- <-]. apply lookup_singleton_eq.
Qed.

Lemma page_fault_loads_file_witness : ∃ u O' D', page_fault (4096 * boot_page) 300 1 true (map_addr + 1) stack_top mapped = Ret (true, u) ∧
  vm_ok (4096 * boot_page) small_areas u O' D' ∧ usable u D' 8192 file_spage true (file_page file_entry file_spage (file_bytes (fs u) 1%nat)).
Proof.
  destruct mapped_ok as (O & Hok).
  destruct (page_fault_loads_file (4096 * boot_page) 300 small_areas mapped O dirs1 1 pd1 {[ map_addr := 8192 ]} (map_addr + 1) stack_top
    8192 file_spage file_entry 1%nat Hok) as (r & u & O' & D' & Hrun & Hoku & _ & _ & Hr).
  - reflexivity.
  - exact small_pool_in_ram.
  - exact mapped_process.
  - by vm_compute.
  - replace (4096 * ((map_addr + 1) / 4096)) with map_addr by (by vm_compute). apply lookup_singleton_eq.
  - apply lookup_singleton_eq.
  - reflexivity.
  - reflexivity.
  - intros [=].
  - apply lookup_singleton_eq.
  - reflexivity.
  - assert (match page_fault (4096 * boot_page) 300 1 true (map_addr + 1) stack_top mapped with Ret (b, _) => b | Err _ => false end = true)
      as E by (by vm_compute). rewrite Hrun in E. subst r.
    exists u, O', D'. split; [exact Hrun|]. split; [exact Hoku|]. exact (proj1 Hr).
Defined.

(** ** Programs that go wrong *)

Definition vm_run {A} (m : M (vm flat) A) : outcome (A * list (list Z)) :=
  let* ' (a, s) := m start in Ret (a, data (fs s)).
Definition access (a : Z) : M (vm flat) unit :=
  let! ok := page_fault (4096 * boot_page) 300 1 true a stack_top in assertM ok.
Definition must_evict : M (vm flat) unit := let! ok := evict_page (4096 * boot_page) in assertM ok.

(** The file of three bytes is mapped, its first byte changed, the page evicted,
    another page used, the file unmapped. *)
Definition unmap_evicted (use_stack : bool) : M (vm flat) Z :=
  let! id := mmap 1 (Some 0%nat) 3 map_addr in
  access map_addr;;! write_user map_addr [9];;! must_evict;;!
  (if use_stack then access stack_top else ret tt);;!
  munmap (4096 * boot_page) 300 1 id.

(** Unmapping a file whose changed page has been evicted destroys the file.  [set_kpage_if_needed] gives the page a
    zeroed frame, always by evicting another page, and [suppl_page_load_to_file] writes the zeros over the bytes that the
    eviction had written: the file ends as 0, 0, 0 and not as 9, 2, 3, as it does without the eviction.  If there is no
    other page to evict, the kernel panics, although it has free frames. *)
Example munmap_after_eviction_clears_file :
  vm_run (unmap_evicted true) = Ret (0, [[0; 0; 0]]) ∧ vm_run (unmap_evicted false) = Err Panic ∧
  vm_run (let! id := mmap 1 (Some 0%nat) 3 map_addr in
          access map_addr;;! write_user map_addr [9];;! munmap (4096 * boot_page) 300 1 id) = Ret (0, [[9; 2; 3]]).
Proof. vm_compute. repeat split. Qed.

Definition map_three : M (vm flat) unit :=
  let! _ := mmap 1 (Some 0%nat) 3 map_addr in
  let! _ := mmap 1 (Some 0%nat) 3 (map_addr + 4096) in
  let! _ := mmap 1 (Some 0%nat) 3 (map_addr + 8192) in ret tt.

(** The third mapping of a process frees the memory of the first two: [file_mappings_seek_free_id] moves them into a
    larger array but leaves the old addresses in the pages, so that the next page fault in the first mapping follows a
    pointer into freed memory.  With two mappings the same access succeeds. *)
Theorem third_mapping_dangles :
  vm_run (map_three;;! access map_addr) = Err Fault ∧
  vm_run (let! _ := mmap 1 (Some 0%nat) 3 map_addr in let! _ := mmap 1 (Some 0%nat) 3 (map_addr + 4096) in access map_addr) = Ret (tt, [[1; 2; 3]]).
Proof. vm_compute. repeat split. Qed.
