(* ===== verification/Cache.v ===== *)
(** The sector cache: filesys/cache.c of Project5.

    The state is the device, the array of cached sectors and the bookkeeping of
    [struct cache]; a [struct sector *] is an index into the array.  The hash
    table from sector numbers to cached sectors is a finite map, and [free_list]
    the list of unused slots.  The model runs one thread: a lock is held or not,
    and a semaphore at 0 blocks. *)
From S2P Require Import Prelude Block.
Local Open Scope Z_scope.

(** cache.h 9 SECTOR_COUNT *)
Definition SECTOR_COUNT : Z := 64.
(** cache.h 10 WRITE_BEHIND_SLEEP_TICKS *)
Definition WRITE_BEHIND_SLEEP_TICKS : Z := 256.

(** cache.h 12-21 sector *)
Record sector := mkSector {
  index : Z;
  data : list Z;
  dirty : bool;
  owners : Z;
  sector_lock : bool;
  owners_lock : bool;
}.

(** cache.h 22-28 cache.  [fs_device], [clock_hand], [last_flush_t], the timer
    and the interrupt context are globals of the code. *)
Record cache := mkCache {
  fs_device : block;
  sectors : list sector;
  cache_lock : bool;
  cache_sem : Z;
  index_sectors_map : gmap Z nat;
  free_list : list nat;
  clock_hand : Z;
  last_flush_t : Z;
  timer_ticks : Z;
  intr_context : bool;
}.

Definition set_device (d : block) (c : cache) : cache :=
  mkCache d (sectors c) (cache_lock c) (cache_sem c) (index_sectors_map c) (free_list c)
    (clock_hand c) (last_flush_t c) (timer_ticks c) (intr_context c).
Definition set_sectors (ss : list sector) (c : cache) : cache :=
  mkCache (fs_device c) ss (cache_lock c) (cache_sem c) (index_sectors_map c) (free_list c)
    (clock_hand c) (last_flush_t c) (timer_ticks c) (intr_context c).
Definition set_cache_lock (l : bool) (c : cache) : cache :=
  mkCache (fs_device c) (sectors c) l (cache_sem c) (index_sectors_map c) (free_list c)
    (clock_hand c) (last_flush_t c) (timer_ticks c) (intr_context c).
Definition set_cache_sem (n : Z) (c : cache) : cache :=
  mkCache (fs_device c) (sectors c) (cache_lock c) n (index_sectors_map c) (free_list c)
    (clock_hand c) (last_flush_t c) (timer_ticks c) (intr_context c).
Definition set_map (m : gmap Z nat) (c : cache) : cache :=
  mkCache (fs_device c) (sectors c) (cache_lock c) (cache_sem c) m (free_list c)
    (clock_hand c) (last_flush_t c) (timer_ticks c) (intr_context c).
Definition set_free_list (l : list nat) (c : cache) : cache :=
  mkCache (fs_device c) (sectors c) (cache_lock c) (cache_sem c) (index_sectors_map c) l
    (clock_hand c) (last_flush_t c) (timer_ticks c) (intr_context c).
Definition set_clock_hand (h : Z) (c : cache) : cache :=
  mkCache (fs_device c) (sectors c) (cache_lock c) (cache_sem c) (index_sectors_map c)
    (free_list c) h (last_flush_t c) (timer_ticks c) (intr_context c).
Definition set_last_flush (t : Z) (c : cache) : cache :=
  mkCache (fs_device c) (sectors c) (cache_lock c) (cache_sem c) (index_sectors_map c)
    (free_list c) (clock_hand c) t (timer_ticks c) (intr_context c).
Definition set_ticks (t : Z) (c : cache) : cache :=
  mkCache (fs_device c) (sectors c) (cache_lock c) (cache_sem c) (index_sectors_map c)
    (free_list c) (clock_hand c) (last_flush_t c) t (intr_context c).

Definition set_index (i : Z) (s : sector) : sector :=
  mkSector i (data s) (dirty s) (owners s) (sector_lock s) (owners_lock s).
Definition set_data (d : list Z) (s : sector) : sector :=
  mkSector (index s) d (dirty s) (owners s) (sector_lock s) (owners_lock s).
Definition set_dirty (b : bool) (s : sector) : sector :=
  mkSector (index s) (data s) b (owners s) (sector_lock s) (owners_lock s).
Definition set_owners (n : Z) (s : sector) : sector :=
  mkSector (index s) (data s) (dirty s) n (sector_lock s) (owners_lock s).
Definition set_sector_lock (b : bool) (s : sector) : sector :=
  mkSector (index s) (data s) (dirty s) (owners s) b (owners_lock s).
Definition set_owners_lock (b : bool) (s : sector) : sector :=
  mkSector (index s) (data s) (dirty s) (owners s) (sector_lock s) b.

(** The cached sector a [struct sector *] points to, and an assignment to it. *)
Definition slot (i : nat) : M cache sector := λ c,
  match sectors c !! i with Some s => Ret (s, c) | None => Err Fault end.
Definition upd_slot (i : nat) (f : sector → sector) : M cache unit := λ c,
  match sectors c !! i with
  | Some s => Ret (tt, set_sectors (<[i := f s]> (sectors c)) c)
  | None => Err Fault
  end.

Definition acquire_cache_lock : M cache unit :=
  let! l := gets cache_lock in
  let! l := lift (lock_acquire l) in
  modify (set_cache_lock l).
Definition release_cache_lock : M cache unit :=
  let! l := gets cache_lock in
  let! l := lift (lock_release l) in
  modify (set_cache_lock l).
Definition acquire_owners_lock (i : nat) : M cache unit :=
  let! s := slot i in
  let! l := lift (lock_acquire (owners_lock s)) in
  upd_slot i (set_owners_lock l).
Definition release_owners_lock (i : nat) : M cache unit :=
  let! s := slot i in
  let! l := lift (lock_release (owners_lock s)) in
  upd_slot i (set_owners_lock l).
Definition acquire_sector_lock (i : nat) : M cache unit :=
  let! s := slot i in
  let! l := lift (lock_acquire (sector_lock s)) in
  upd_slot i (set_sector_lock l).
Definition release_sector_lock (i : nat) : M cache unit :=
  let! s := slot i in
  let! l := lift (lock_release (sector_lock s)) in
  upd_slot i (set_sector_lock l).
Definition down_cache_sem : M cache unit :=
  let! n := gets cache_sem in
  let! n := lift (sema_down n) in
  modify (set_cache_sem n).
Definition up_cache_sem : M cache unit :=
  let! n := gets cache_sem in
  let! n := lift (sema_up n) in
  modify (set_cache_sem n).
Definition on_device {A} (m : M block A) : M cache A := zoom fs_device set_device m.
Definition assert_no_intr : M cache unit :=
  let! ic := gets intr_context in assertM (negb ic).

(** [if (b) m;] *)
Definition whenM {S} (b : bool) (m : M S unit) : M S unit := if b then m else ret tt.

(** cache.c 32-38 sector_init *)
Definition sector_init (s : sector) : sector :=
  mkSector NONE32 (data s) (dirty s) 0 false false.

(** cache.c 40-52 cache_init.  [tid] is what [thread_create] returns for the
    write-behind thread. *)
Definition cache_init (tid : Z) : M cache unit :=
  modify (set_cache_lock false);;!
  modify (set_cache_sem SECTOR_COUNT);;!
  modify (set_map ∅);;!
  modify (λ c, set_sectors (sector_init <$> sectors c) c);;!
  modify (set_free_list (seq 0 (Z.to_nat SECTOR_COUNT)));;!
  assertM (bool_decide (tid ≠ 0)).

(** cache.c 58-68 evict_sector, one look at the slot under the clock hand:
    whether it was evicted *)
Definition evict_at (h : Z) : M cache bool :=
  let i := Z.to_nat h in
  let! cur := slot i in
  if decide (index cur ≠ NONE32 ∧ owners cur = 0) then
    whenM (dirty cur) (on_device (block_write (index cur) (data cur)));;!
    modify (λ c, set_map (delete (index cur) (index_sectors_map c)) c);;!
    modify (λ c, set_free_list (free_list c ++ [i]) c);;!
    upd_slot i (set_index NONE32);;!
    ret true
  else ret false.

(** cache.c 57-72 evict_sector, the loop *)
Fixpoint evict_loop (fuel : nat) (end_ : Z) : M cache unit :=
  match fuel with
  | O => throw OutOfFuel
  | S fuel =>
      let! h := gets clock_hand in
      let! evicted := evict_at h in
      if (evicted : bool) then ret tt
      else
        let h := (h + 1) mod SECTOR_COUNT in
        modify (set_clock_hand h);;!
        if decide (h = end_) then throw Panic else evict_loop fuel end_
  end.

(** cache.c 55-73 evict_sector *)
Definition evict_sector : M cache unit :=
  let! end_ := gets clock_hand in
  evict_loop (Z.to_nat SECTOR_COUNT) end_.

(** cache.c 100-105 take_sector, filling a free slot *)
Definition fill_free (idx : Z) : M cache nat :=
  let! free := gets free_list in
  let! res := lift (or_panic (last free)) in
  modify (set_free_list (removelast free));;!
  upd_slot res (set_index idx);;!
  upd_slot res (set_dirty false);;!
  upd_slot res (set_owners 1);;!
  let! d := on_device (block_read idx) in
  upd_slot res (set_data d);;!
  modify (λ c, set_map (<[idx := res]> (index_sectors_map c)) c);;!
  ret res.

(** cache.c 99-105 take_sector, finding a free slot and filling it *)
Definition fill_slot (idx : Z) : M cache nat :=
  let! free := gets free_list in
  whenM (bool_decide (free = [])) evict_sector;;!
  fill_free idx.

(** cache.c 75-111 take_sector *)
Definition take_sector (idx : Z) (block : bool) : M cache nat :=
  assert_no_intr;;!
  acquire_cache_lock;;!
  let! map := gets index_sectors_map in
  match map !! idx with
  | Some res =>
      acquire_owners_lock res;;!
      let! s := slot res in
      whenM (bool_decide (owners s = 0)) down_cache_sem;;!
      upd_slot res (set_owners (u32 (owners s + 1)));;!
      release_owners_lock res;;!
      release_cache_lock;;!
      whenM block (acquire_sector_lock res);;!
      ret res
  | None =>
      down_cache_sem;;!
      let! res := fill_slot idx in
      release_cache_lock;;!
      whenM block (acquire_sector_lock res);;!
      ret res
  end.

(** cache.c 113-127 release_sector *)
Definition release_sector (sec : nat) (idx : Z) (changed blocked : bool) : M cache unit :=
  assert_no_intr;;!
  let! s := slot sec in
  assertM (bool_decide (index s = idx));;!
  acquire_owners_lock sec;;!
  whenM changed (upd_slot sec (set_dirty true));;!
  upd_slot sec (set_owners (u32 (owners s - 1)));;!
  let! s := slot sec in
  whenM (bool_decide (owners s = 0)) up_cache_sem;;!
  release_owners_lock sec;;!
  whenM blocked (release_sector_lock sec).

(** cache.c 139-146 sector_cache_flush, the body of the loop *)
Definition flush_slot (i : nat) : M cache unit :=
  let! cur := slot i in
  if decide (index cur ≠ NONE32 ∧ dirty cur = true) then
    acquire_owners_lock i;;!
    on_device (block_write (index cur) (data cur));;!
    upd_slot i (set_dirty false);;!
    release_owners_lock i
  else ret tt.

(** cache.c 138-147 sector_cache_flush, the loop *)
Fixpoint flush_loop (n : nat) (i : nat) : M cache unit :=
  match n with
  | O => ret tt
  | S n => flush_slot i;;! flush_loop n (S i)
  end.

(** cache.c 132-151 sector_cache_flush *)
Definition sector_cache_flush (force : bool) : M cache unit :=
  assert_no_intr;;!
  let! t := gets timer_ticks in
  let! last := gets last_flush_t in
  if decide (force = true ∨ t - last > 512) then
    acquire_cache_lock;;!
    flush_loop (Z.to_nat SECTOR_COUNT) 0;;!
    release_cache_lock;;!
    modify (set_last_flush t)
  else ret tt.

(** cache.c 18-23 write_behind, one turn of its endless loop *)
Definition write_behind : M cache unit :=
  modify (λ c, set_ticks (timer_ticks c + WRITE_BEHIND_SLEEP_TICKS) c);;!
  sector_cache_flush false.

(** ** What the cache represents *)

(** The slot that caches a sector, and its record. *)
Definition slot_of (c : cache) (idx : Z) : option nat := index_sectors_map c !! idx.
Definition cached (c : cache) (idx : Z) : option sector :=
  match slot_of c idx with Some i => sectors c !! i | None => None end.

(** The contents of a sector as a reader sees them. *)
Definition view (c : cache) (idx : Z) : option (list Z) :=
  match cached c idx with
  | Some s => Some (data s)
  | None => nthZ (contents (fs_device c)) idx
  end.
(** The number of handles to a sector, and whether it is locked. *)
Definition own (c : cache) (idx : Z) : Z :=
  match cached c idx with Some s => owners s | None => 0 end.
Definition locked (c : cache) (idx : Z) : bool :=
  match cached c idx with Some s => sector_lock s | None => false end.
(** A sector that is not marked dirty agrees with the device. *)
Definition clean (c : cache) (idx : Z) : Prop :=
  match cached c idx with
  | Some s => dirty s = false → nthZ (contents (fs_device c)) idx = Some (data s)
  | None => True
  end.

(** The number of slots in use, of which [cache_sem] is the complement. *)
Definition busy (ss : list sector) : Z := Z.of_nat (length (filter (λ s, owners s ≠ 0) ss)).

Record slot_ok (dev : block) (s : sector) : Prop := {
  so_lock : owners_lock s = false;
  so_owners : 0 ≤ owners s ≤ u32_max;
  so_free : index s = NONE32 → owners s = 0;
  so_unlocked : owners s = 0 → sector_lock s = false;
  so_index : index s ≠ NONE32 → 0 ≤ index s < size dev ∧ length (data s) = 512%nat;
  so_clean : index s ≠ NONE32 → owners s = 0 → dirty s = false →
    nthZ (contents dev) (index s) = Some (data s);
}.

(** The books: map, free list and slots agree. *)
Record books (c : cache) : Prop := {
  bk_dev : block_wf (fs_device c);
  bk_len : length (sectors c) = 64%nat;
  bk_hand : 0 ≤ clock_hand c < 64;
  bk_intr : intr_context c = false;
  bk_map : ∀ idx i, index_sectors_map c !! idx = Some i ↔
    ∃ s, sectors c !! i = Some s ∧ index s = idx ∧ idx ≠ NONE32;
  bk_nodup : NoDup (free_list c);
  bk_free : ∀ i, i ∈ free_list c ↔ ∃ s, sectors c !! i = Some s ∧ index s = NONE32;
  bk_slots : ∀ i s, sectors c !! i = Some s → slot_ok (fs_device c) s;
}.

(** The cache between calls. *)
Record cinv (c : cache) : Prop := {
  ci_books : books c;
  ci_unlocked : cache_lock c = false;
  ci_sem : cache_sem c = SECTOR_COUNT - busy (sectors c);
}.

(** A call took [c] to [c'], where sectors read as [v], have [o] handles and are
    locked as [l], and the semaphore moved by [ds]. *)
Record moves (c c' : cache) (v : Z → option (list Z)) (o : Z → Z) (l : Z → bool) (ds : Z)
    : Prop := {
  mv_inv : cinv c';
  mv_view : ∀ j, view c' j = v j;
  mv_own : ∀ j, own c' j = o j;
  mv_locked : ∀ j, locked c' j = l j;
  mv_sem : cache_sem c' = cache_sem c + ds;
  mv_size : size (fs_device c') = size (fs_device c);
  mv_clean : ∀ j, clean c j → clean c' j;
  mv_held : ∀ j k, own c j ≠ 0 → slot_of c j = Some k → own c' j ≠ 0 → slot_of c' j = Some k;
}.

(** ** Running the primitives *)
Lemma slot_run i s c : sectors c !! i = Some s → slot i c = Ret (s, c).
Proof. unfold slot. by intros ->. Qed.

Lemma upd_slot_run i f s c :
  sectors c !! i = Some s → upd_slot i f c = Ret (tt, set_sectors (<[i := f s]> (sectors c)) c).
Proof. unfold upd_slot. by intros ->. Qed.

Lemma lookup_upd (ss : list sector) i s s' : ss !! i = Some s → <[i:=s']> ss !! i = Some s'.
Proof. intros ?%lookup_lt_Some. by apply list_lookup_insert_eq. Qed.

Lemma busy_insert ss i s s' :
  ss !! i = Some s →
  busy (<[i:=s']> ss) = busy ss - (if decide (owners s = 0) then 0 else 1)
                        + (if decide (owners s' = 0) then 0 else 1).
Proof.
  intros Hi. unfold busy.
  rewrite insert_take_drop by by eapply lookup_lt_Some.
  rewrite <-(take_drop_middle ss i s) at 3 by done.
  rewrite !filter_app, !length_app, !filter_cons.
  repeat case_decide; try tauto; simpl; lia.
Qed.

Lemma busy_bound ss : 0 ≤ busy ss ≤ Z.of_nat (length ss).
Proof. unfold busy. pose proof (length_filter (λ s, owners s ≠ 0) ss). lia. Qed.

(** Some slot is unused when not all are busy. *)
Lemma busy_unused ss : busy ss < Z.of_nat (length ss) → ∃ i s, ss !! i = Some s ∧ owners s = 0.
Proof.
  induction ss as [|s ss IH]; intros Hb.
  - unfold busy in Hb. simpl in Hb. lia.
  - destruct (decide (owners s = 0)); [by exists 0%nat, s|].
    destruct IH as (i & s' & ? & ?).
    { unfold busy in *. rewrite filter_cons_True in Hb by done. simpl in *. lia. }
    by exists (S i), s'.
Qed.

(** ** Updating one slot *)
Section slot_update.
Context (c c' : cache) (i : nat) (s s' : sector).
Hypothesis Hbooks : books c.
Hypothesis Hi : sectors c !! i = Some s.
Hypothesis Hidx : index s' = index s.
Hypothesis Hok : slot_ok (fs_device c) s'.
Hypothesis Hdev : fs_device c' = fs_device c.
Hypothesis Hsec : sectors c' = <[i := s']> (sectors c).
Hypothesis Hmap : index_sectors_map c' = index_sectors_map c.
Hypothesis Hfree : free_list c' = free_list c.
Hypothesis Hhand : clock_hand c' = clock_hand c.
Hypothesis Hintr : intr_context c' = intr_context c.

Lemma update_lookup k :
  sectors c' !! k = if decide (k = i) then Some s' else sectors c !! k.
Proof.
  rewrite Hsec. case_decide as E; subst; [by eapply lookup_upd|by rewrite list_lookup_insert_ne].
Qed.

Lemma update_books : books c'.
Proof.
  destruct Hbooks. split; rewrite ?Hdev, ?Hmap, ?Hfree, ?Hhand, ?Hintr; try done.
  - by rewrite Hsec, length_insert.
  - intros idx k. rewrite bk_map0, update_lookup. case_decide; subst; [|done].
    rewrite Hi. split; intros (x & ? & ?); simplify_eq; eexists; (split; [done|]); congruence.
  - intros k. rewrite bk_free0, update_lookup. case_decide; subst; [|done].
    rewrite Hi. split; intros (x & ? & ?); simplify_eq; eexists; (split; [done|]); congruence.
  - intros k t. rewrite update_lookup. case_decide; intros ?; simplify_eq; eauto.
Qed.

Hypothesis Hnone : index s ≠ NONE32.

Lemma update_slot_of j : slot_of c' j = slot_of c j.
Proof. unfold slot_of. by rewrite Hmap. Qed.

Lemma update_cached j : cached c' j = if decide (j = index s) then Some s' else cached c j.
Proof.
  unfold cached. rewrite update_slot_of. case_decide as E.
  - subst j. assert (slot_of c (index s) = Some i) as ->.
    { apply (bk_map _ Hbooks). eauto. }
    rewrite update_lookup. by rewrite decide_True.
  - destruct (slot_of c j) as [k|] eqn:Ek; [|done].
    rewrite update_lookup, decide_False; [done|]. intros ->.
    apply (bk_map _ Hbooks) in Ek as (? & ? & ? & ?). simplify_eq.
Qed.

Lemma cached_self : cached c (index s) = Some s.
Proof.
  unfold cached. assert (slot_of c (index s) = Some i) as ->; [|done].
  apply (bk_map _ Hbooks). eauto.
Qed.
End slot_update.

Lemma cached_slot c idx s :
  books c → cached c idx = Some s →
  ∃ i, slot_of c idx = Some i ∧ sectors c !! i = Some s ∧ index s = idx ∧ idx ≠ NONE32.
Proof.
  unfold cached. intros Hb Hc. destruct (slot_of c idx) as [i|] eqn:E; [|done].
  exists i. pose proof E as (t & ? & ? & ?)%(bk_map _ Hb). simplify_eq. done.
Qed.

(** ** take_sector on a cached sector, and release_sector *)
Ltac crun Hi :=
  repeat first
    [ progress cbn -[u32 decide bool_decide Z.add Z.sub]
    | rewrite (lookup_upd _ _ _ _ Hi)
    | rewrite list_insert_insert_eq
    | rewrite Hi ].

Lemma take_hit_run c idx i s blk :
  cinv c → slot_of c idx = Some i → sectors c !! i = Some s →
  (owners s = 0 → 0 < cache_sem c) → (blk = true → sector_lock s = false) →
  take_sector idx blk c = Ret (i,
    mkCache (fs_device c)
      (<[i := mkSector (index s) (data s) (dirty s) (u32 (owners s + 1)) (blk || sector_lock s) false]>
         (sectors c))
      false (if decide (owners s = 0) then cache_sem c - 1 else cache_sem c)
      (index_sectors_map c) (free_list c) (clock_hand c) (last_flush_t c) (timer_ticks c)
      (intr_context c)).
Proof.
  intros [Hb Hl _] Hm Hi Hsem Hblk. pose proof (bk_slots _ Hb _ _ Hi) as Hs.
  pose proof (so_lock _ _ Hs) as Hol. pose proof (bk_intr _ Hb) as Hic.
  unfold slot_of in Hm. destruct c as [dev ss lk sem mp fr hand lf tk ic]. simpl in *. subst.
  unfold take_sector, acquire_cache_lock, release_cache_lock, acquire_owners_lock,
    release_owners_lock, acquire_sector_lock, bind, gets, modify, ret, lift, assert_no_intr,
    assertM, whenM, down_cache_sem, slot, upd_slot, lock_acquire, lock_release, sema_down, ASSERT.
  cbn. rewrite Hm. crun Hi. rewrite Hol. crun Hi.
  destruct (decide (owners s = 0)) as [E|E].
  - rewrite bool_decide_true by done. crun Hi.
    rewrite decide_False by (specialize (Hsem E); lia). crun Hi. destruct blk; crun Hi; [rewrite Hblk by done|]; crun Hi; done.
  - rewrite bool_decide_false by done.
    crun Hi. destruct blk; crun Hi; [rewrite Hblk by done|]; crun Hi; done.
Qed.

Lemma release_run c idx i s changed blocked :
  cinv c → sectors c !! i = Some s → index s = idx → (blocked = true → sector_lock s = true) →
  release_sector i idx changed blocked c = Ret (tt,
    mkCache (fs_device c)
      (<[i := mkSector (index s) (data s) (changed || dirty s) (u32 (owners s - 1))
                (negb blocked && sector_lock s) false]> (sectors c))
      (cache_lock c)
      (if decide (u32 (owners s - 1) = 0) then u32 (cache_sem c + 1) else cache_sem c)
      (index_sectors_map c) (free_list c) (clock_hand c) (last_flush_t c) (timer_ticks c)
      (intr_context c)).
Proof.
  intros [Hb Hl _] Hi Hidx Hblk. pose proof (bk_slots _ Hb _ _ Hi) as Hs.
  pose proof (so_lock _ _ Hs) as Hol. pose proof (bk_intr _ Hb) as Hic.
  destruct c as [dev ss lk sem mp fr hand lf tk ic]. simpl in *. subst.
  unfold release_sector, acquire_owners_lock, release_owners_lock, release_sector_lock,
    bind, gets, modify, ret, lift, assert_no_intr, assertM, whenM, up_cache_sem, slot, upd_slot,
    lock_acquire, lock_release, sema_up, ASSERT.
  crun Hi. rewrite bool_decide_true by done. crun Hi. rewrite Hol. crun Hi.
  destruct changed; crun Hi.
  all: destruct (decide (u32 (owners s - 1) = 0)) as [E|E];
    [rewrite bool_decide_true by done|rewrite bool_decide_false by done]; crun Hi.
  all: destruct blocked; crun Hi; [rewrite Hblk by done|]; crun Hi; done.
Qed.

(** ** From slot updates to moves *)
Definition at_idx {A} (idx : Z) (x : A) (f : Z → A) : Z → A := λ j,
  if decide (j = idx) then x else f j.

Lemma at_idx_eq {A} idx (x : A) f : at_idx idx x f idx = x.
Proof. unfold at_idx. by rewrite decide_True. Qed.
Lemma at_idx_ne {A} idx (x : A) f j : j ≠ idx → at_idx idx x f j = f j.
Proof. intros. unfold at_idx. by rewrite decide_False. Qed.

Definition inuse (s : sector) : Z := if decide (owners s = 0) then 0 else 1.

Lemma update_moves c i s s' sem :
  cinv c → sectors c !! i = Some s → index s ≠ NONE32 → index s' = index s →
  slot_ok (fs_device c) s' → sem = cache_sem c + inuse s - inuse s' →
  ((dirty s = false → nthZ (contents (fs_device c)) (index s) = Some (data s)) →
   (dirty s' = false → nthZ (contents (fs_device c)) (index s) = Some (data s'))) →
  moves c (mkCache (fs_device c) (<[i := s']> (sectors c)) false sem (index_sectors_map c)
             (free_list c) (clock_hand c) (last_flush_t c) (timer_ticks c) (intr_context c))
    (at_idx (index s) (Some (data s')) (view c)) (at_idx (index s) (owners s') (own c))
    (at_idx (index s) (sector_lock s') (locked c)) (sem - cache_sem c).
Proof.
  intros [Hb Hl Hsem] Hi Hn Hidx Hok Hs Hcl. set (c' := mkCache _ _ _ _ _ _ _ _ _ _).
  pose proof (update_cached c c' i s s' Hb Hi eq_refl eq_refl Hn) as Hc.
  split; unfold view, own, locked, clean, at_idx.
  - split; [by apply (update_books c c' i s s')|done|]. simpl.
    rewrite Hs, Hsem, (busy_insert _ _ _ s') by done. unfold inuse. lia.
  - intros j. rewrite Hc. case_decide; done.
  - intros j. rewrite Hc. case_decide; done.
  - intros j. rewrite Hc. case_decide; done.
  - simpl. lia.
  - done.
  - intros j. rewrite Hc. case_decide; [|done]. subst j. by rewrite (cached_self c i s).
  - done.
Qed.

(** A call that reads as it should moves to equal functions. *)
Lemma moves_ext c c' v v' o o' l l' ds ds' :
  moves c c' v o l ds → (∀ j, v j = v' j) → (∀ j, o j = o' j) → (∀ j, l j = l' j) → ds = ds' →
  moves c c' v' o' l' ds'.
Proof. intros [] Hv Ho Hl <-. split; intros; rewrite <-?Hv, <-?Ho, <-?Hl; eauto. Qed.

Lemma cached_obs c i s :
  books c → sectors c !! i = Some s → index s ≠ NONE32 →
  view c (index s) = Some (data s) ∧ own c (index s) = owners s ∧
  locked c (index s) = sector_lock s.
Proof. intros. unfold view, own, locked. by rewrite (cached_self c i s). Qed.

Lemma u32_max_eq : u32_max = 4294967295.
Proof. done. Qed.

Lemma take_hit c idx i blk :
  cinv c → slot_of c idx = Some i → own c idx < u32_max →
  (own c idx = 0 → 0 < cache_sem c) → (blk = true → locked c idx = false) →
  ∃ c', take_sector idx blk c = Ret (i, c') ∧ slot_of c' idx = Some i ∧
    moves c c' (view c) (at_idx idx (own c idx + 1) (own c))
      (at_idx idx (blk || locked c idx) (locked c)) (if decide (own c idx = 0) then -1 else 0).
Proof.
  intros Hinv Hm Ho Hsem Hblk. pose proof (ci_books _ Hinv) as Hb.
  destruct (proj1 (bk_map _ Hb idx i) Hm) as (s & Hi & Hidx & Hn). subst idx.
  destruct (cached_obs c i s Hb Hi Hn) as (Hv & Eo & El). rewrite Eo, El in *.
  pose proof (bk_slots _ Hb _ _ Hi) as [? ? Hfr Hul Hix Hcl]. rewrite u32_max_eq in *.
  eexists. split; [by apply take_hit_run|]. split; [done|].
  rewrite (u32_small (owners s + 1)) by lia.
  eapply moves_ext; [apply (update_moves c i s)|..]; try done.
  - split; simpl; try done; try lia. by rewrite u32_max_eq; lia.
  - unfold inuse. simpl. rewrite (decide_False (P := owners s + 1 = 0)) by lia.
    case_decide; lia.
  - intros j. unfold at_idx. simpl. case_decide; subst; done.
  - simpl. case_decide; lia.
Qed.

(** Releasing a handle.  Giving back the last handle unchanged requires the
    contents to be what the device has, unless they are marked dirty. *)
Lemma release_ok c idx i changed blocked :
  cinv c → slot_of c idx = Some i → 0 < own c idx →
  (blocked = true → locked c idx = true) →
  (own c idx = 1 → blocked || negb (locked c idx) = true) →
  (own c idx = 1 → changed = true ∨ clean c idx) →
  ∃ c', release_sector i idx changed blocked c = Ret (tt, c') ∧
    moves c c' (view c) (at_idx idx (own c idx - 1) (own c))
      (at_idx idx (negb blocked && locked c idx) (locked c))
      (if decide (own c idx = 1) then 1 else 0).
Proof.
  intros Hinv Hm Ho Hblk Hul1 Hcl1. pose proof (ci_books _ Hinv) as Hb.
  destruct (proj1 (bk_map _ Hb idx i) Hm) as (s & Hi & Hidx & Hn). subst idx.
  destruct (cached_obs c i s Hb Hi Hn) as (Hv & Eo & El). rewrite Eo, El in *.
  unfold clean in Hcl1. rewrite (cached_self c i s) in Hcl1 by done.
  pose proof (bk_slots _ Hb _ _ Hi) as [? ? Hfr Hul Hix Hcl]. rewrite u32_max_eq in *.
  pose proof (busy_bound (<[i := set_owners 0 s]> (sectors c))) as Hbb.
  rewrite length_insert, (bk_len _ Hb), (busy_insert _ _ s) in Hbb by done.
  pose proof (ci_sem _ Hinv) as Hsem. unfold SECTOR_COUNT in *.
  rewrite (decide_False (P := owners s = 0)), decide_True in Hbb by (done || lia).
  rewrite release_run with (s := s) by done. rewrite (ci_unlocked _ Hinv).
  rewrite (u32_small (owners s - 1)), (u32_small (cache_sem c + 1)) by lia.
  eexists. split; [done|].
  eapply moves_ext; [apply (update_moves c i s)|..]; try done.
  - split; simpl; try done; try lia.
    + by rewrite u32_max_eq; lia.
    + intros. destruct blocked; [done|]. simpl in *. destruct (sector_lock s); [|done].
      by specialize (Hul1 ltac:(lia)).
    + intros _ ? Hd. apply orb_false_iff in Hd as [-> ?].
      destruct Hcl1 as [|Hc1]; [lia|done|]. by apply Hc1.
  - unfold inuse. simpl. rewrite (decide_False (P := owners s = 0)) by lia.
    repeat case_decide; lia.
  - simpl. intros Hc1 Hd. apply orb_false_iff in Hd as [_ ?]. by apply Hc1.
  - intros j. unfold at_idx. simpl. case_decide; subst; done.
  - simpl. repeat case_decide; lia.
Qed.

(** ** Eviction *)

(** The device after a write-back. *)
Definition written (b : block) (idx : Z) (d : list Z) : block :=
  mkBlock (type b) (size b) (<[Z.to_nat idx := d]> (contents b)) (read_cnt b) (write_cnt b + 1).

Lemma written_wf b idx d : block_wf b → length d = 512%nat → block_wf (written b idx d).
Proof.
  intros []. split; simpl; try done; [by rewrite length_insert|]. by apply Forall_insert.
Qed.

Lemma written_lookup b idx d j :
  0 ≤ idx < Z.of_nat (length (contents b)) →
  nthZ (contents (written b idx d)) j = if decide (j = idx) then Some d else nthZ (contents b) j.
Proof.
  intros. unfold nthZ, written. simpl. repeat case_decide; subst; try done; try lia.
  - by rewrite list_lookup_insert_eq by lia.
  - apply list_lookup_insert_ne. lia.
Qed.

Lemma books_inj c i k s t :
  books c → sectors c !! i = Some s → sectors c !! k = Some t → index s = index t →
  index s ≠ NONE32 → i = k.
Proof.
  intros Hb Hi Hk E Hn.
  assert (slot_of c (index s) = Some i) as H1 by (apply (bk_map _ Hb); eauto).
  assert (slot_of c (index s) = Some k) as H2 by (apply (bk_map _ Hb); rewrite E in *; eauto).
  congruence.
Qed.

(** What an unused cached sector has become when its slot [i] is given up. *)
Definition evicted (c : cache) (i : nat) (s : sector) : cache :=
  mkCache (if dirty s then written (fs_device c) (index s) (data s) else fs_device c)
    (<[i := set_index NONE32 s]> (sectors c)) (cache_lock c) (cache_sem c)
    (delete (index s) (index_sectors_map c)) (free_list c ++ [i]) (clock_hand c)
    (last_flush_t c) (timer_ticks c) (intr_context c).

Lemma evict_at_run c i s :
  books c → sectors c !! i = Some s → index s ≠ NONE32 → owners s = 0 →
  evict_at (Z.of_nat i) c = Ret (true, evicted c i s).
Proof.
  intros Hb Hi Hn Ho. pose proof (bk_slots _ Hb _ _ Hi) as [_ _ _ _ Hix _].
  specialize (Hix Hn) as [? ?]. unfold evict_at. rewrite Nat2Z.id.
  erewrite bind_run by by apply slot_run. rewrite decide_True by done.
  unfold evicted. destruct c as [dev ss lk sem mp fr hand lf tk ic]. simpl in *.
  pose proof (bk_dev _ Hb) as Hdev. simpl in Hdev.
  unfold whenM, on_device, zoom, bind, modify, ret, upd_slot, set_map, set_free_list.
  destruct (dirty s); simpl.
  - rewrite block_write_run by done. simpl. rewrite Hi. done.
  - rewrite Hi. done.
Qed.

Lemma evict_at_skip c i s :
  sectors c !! i = Some s → ¬ (index s ≠ NONE32 ∧ owners s = 0) →
  evict_at (Z.of_nat i) c = Ret (false, c).
Proof.
  intros Hi Hn. unfold evict_at. rewrite Nat2Z.id. erewrite bind_run by by apply slot_run.
  by rewrite decide_False.
Qed.

Section evicted.
Context (c : cache) (i : nat) (s : sector).
Hypothesis Hb : books c.
Hypothesis Hi : sectors c !! i = Some s.
Hypothesis Hn : index s ≠ NONE32.
Hypothesis Ho : owners s = 0.

Lemma evicted_slot : slot_of c (index s) = Some i.
Proof. apply (bk_map _ Hb). eauto. Qed.

Lemma evicted_index_range : 0 ≤ index s < Z.of_nat (length (contents (fs_device c))).
Proof.
  pose proof (bk_slots _ Hb _ _ Hi) as [_ _ _ _ Hix _]. specialize (Hix Hn).
  rewrite (bw_size _ (bk_dev _ Hb)). lia.
Qed.

Lemma evicted_contents j :
  nthZ (contents (fs_device (evicted c i s))) j =
    if decide (j = index s) then Some (data s) else nthZ (contents (fs_device c)) j.
Proof.
  simpl. destruct (dirty s) eqn:Ed.
  - apply written_lookup, evicted_index_range.
  - case_decide; [|done]. subst j.
    pose proof (bk_slots _ Hb _ _ Hi) as [_ _ _ _ _ Hcl]. by apply Hcl.
Qed.

Lemma evicted_lookup k :
  sectors (evicted c i s) !! k = if decide (k = i) then Some (set_index NONE32 s) else sectors c !! k.
Proof.
  simpl. case_decide; subst; [by eapply lookup_upd|by rewrite list_lookup_insert_ne].
Qed.

Lemma evicted_dev : block_wf (fs_device (evicted c i s)) ∧
  size (fs_device (evicted c i s)) = size (fs_device c).
Proof.
  pose proof (bk_slots _ Hb _ _ Hi) as [_ _ _ _ Hix _]. specialize (Hix Hn) as [_ ?].
  pose proof (bk_dev _ Hb). simpl. destruct (dirty s); [|done]. split; [by apply written_wf|done].
Qed.

Lemma evicted_books : books (evicted c i s).
Proof.
  destruct evicted_dev as [Hd Hs]. pose proof evicted_lookup as Hl.
  split; try apply Hb; try done.
  - simpl. rewrite length_insert. apply Hb.
  - intros idx k. simpl. rewrite Hl, lookup_delete_Some, (bk_map _ Hb).
    case_decide; subst.
    + split; [|intros (? & ? & ? & ?); simplify_eq].
      intros (? & x & ? & ? & ?). simplify_eq.
    + split; [naive_solver|]. intros (x & ? & ? & ?). split; [|eauto].
      intros E. assert (k = i); [|done]. symmetry. eapply books_inj; eauto. congruence.
  - simpl. apply NoDup_app. split_and!; [apply Hb| |apply NoDup_singleton].
    intros k (x & ? & ?)%(bk_free _ Hb) ->%list_elem_of_singleton. simplify_eq.
  - intros k. simpl. rewrite elem_of_app, list_elem_of_singleton, Hl, (bk_free _ Hb).
    case_decide; subst; [|naive_solver]. split; [eauto|auto].
  - intros k t. rewrite Hl. case_decide; intros Hk; simplify_eq.
    + pose proof (bk_slots _ Hb _ _ Hi) as [? ? ? ? ? ?]. by split.
    + pose proof (bk_slots _ Hb _ _ Hk) as [? ? ? ? ? ?]. split; try done; rewrite ?Hs; try done.
      intros. rewrite evicted_contents. rewrite decide_False; [auto|].
      intros E. assert (i = k); [|done]. eapply books_inj; eauto.
Qed.

Lemma evicted_slot_of j :
  slot_of (evicted c i s) j = if decide (j = index s) then None else slot_of c j.
Proof.
  unfold slot_of. simpl. case_decide; subst; [apply lookup_delete_eq|by rewrite lookup_delete_ne].
Qed.

Lemma evicted_cached j :
  cached (evicted c i s) j = if decide (j = index s) then None else cached c j.
Proof.
  unfold cached. rewrite evicted_slot_of. case_decide; [done|].
  destruct (slot_of c j) as [k|] eqn:Ek; [|done].
  rewrite evicted_lookup, decide_False; [done|]. intros ->.
  apply (bk_map _ Hb) in Ek as (? & ? & ? & ?). simplify_eq.
Qed.

Lemma evicted_obs j :
  view (evicted c i s) j = view c j ∧ own (evicted c i s) j = own c j ∧
  locked (evicted c i s) j = locked c j ∧ (clean c j → clean (evicted c i s) j).
Proof.
  pose proof (cached_self c i s Hb Hi Hn) as Hself.
  pose proof (bk_slots _ Hb _ _ Hi) as [_ _ _ Hul _ _].
  unfold view, own, locked, clean. rewrite evicted_cached, evicted_contents.
  destruct (decide (j = index s)) as [->|].
  - rewrite Hself. split_and!; auto. by rewrite Hul.
  - split_and!; auto.
Qed.

Lemma evicted_busy : busy (sectors (evicted c i s)) = busy (sectors c).
Proof.
  simpl. rewrite (busy_insert _ _ s) by done. unfold set_index. cbn [owners].
  rewrite decide_True by done. lia.
Qed.
End evicted.

Lemma set_hand_books h c : books c → 0 ≤ h < 64 → books (set_clock_hand h c).
Proof. intros [] ?. by split. Qed.

(** The clock reaches an unused cached slot, if there is one, within a turn. *)
Lemma evict_loop_run fuel : ∀ c end_ k s,
  books c → 0 ≤ end_ < 64 → sectors c !! k = Some s → index s ≠ NONE32 → owners s = 0 →
  ((Z.of_nat k - clock_hand c) mod 64 + (clock_hand c - end_) mod 64 < 64) →
  (Z.of_nat k - clock_hand c) mod 64 < Z.of_nat fuel →
  ∃ i t h, sectors c !! i = Some t ∧ index t ≠ NONE32 ∧ owners t = 0 ∧ 0 ≤ h < 64 ∧
    evict_loop fuel end_ c = Ret (tt, evicted (set_clock_hand h c) i t).
Proof.
  induction fuel as [|fuel IH]; intros c end_ k s Hb He Hk Hn Ho Hd Hf; [mlia|].
  pose proof (bk_hand _ Hb) as Hh. cbn [evict_loop]. unfold gets. erewrite bind_run by done.
  destruct (lookup_lt_is_Some_2 (sectors c) (Z.to_nat (clock_hand c))) as [t Ht].
  { rewrite (bk_len _ Hb). lia. }
  destruct (decide (index t ≠ NONE32 ∧ owners t = 0)) as [[??]|Hno].
  - exists (Z.to_nat (clock_hand c)), t, (clock_hand c). split_and!; try done; try lia.
    assert (set_clock_hand (clock_hand c) c = c) as -> by by destruct c.
    erewrite bind_run; [|rewrite <-(Z2Nat.id (clock_hand c)) at 1 by lia; by apply evict_at_run].
    done.
  - assert (Hne : Z.of_nat k ≠ clock_hand c).
    { intros E. apply Hno. rewrite <-E, Nat2Z.id in Ht. by simplify_eq. }
    pose proof (lookup_lt_Some _ _ _ Hk) as Hkl. rewrite (bk_len _ Hb) in Hkl.
    erewrite bind_run; [|rewrite <-(Z2Nat.id (clock_hand c)) at 1 by lia; by eapply evict_at_skip].
    unfold modify. erewrite bind_run by done. unfold SECTOR_COUNT.
    set (h := (clock_hand c + 1) mod 64) in *.
    assert (0 ≤ h < 64) by (apply Z.mod_pos_bound; lia).
    assert ((Z.of_nat k - h) mod 64 = (Z.of_nat k - clock_hand c) mod 64 - 1 ∧
            (h - end_) mod 64 = (clock_hand c - end_) mod 64 + 1) as [E1 E2].
    { subst h. clear -Hh He Hkl Hne Hd. split; mlia. }
    rewrite decide_False.
    2:{ intros E. rewrite E, Z.sub_diag in E2. change (0 mod 64) with 0 in E2.
        pose proof (Z.mod_pos_bound (clock_hand c - end_) 64). lia. }
    destruct (IH (set_clock_hand h c) end_ k s) as (i & t' & h' & ? & ? & ? & ? & Hrun);
      try done; [by apply set_hand_books|simpl; lia|simpl; lia|].
    exists i, t', h'. done.
Qed.

Lemma evict_sector_run c :
  books c → free_list c = [] → busy (sectors c) < SECTOR_COUNT →
  ∃ i t h, sectors c !! i = Some t ∧ index t ≠ NONE32 ∧ owners t = 0 ∧ 0 ≤ h < 64 ∧
    evict_sector c = Ret (tt, evicted (set_clock_hand h c) i t).
Proof.
  intros Hb Hfree Hbusy. pose proof (bk_hand _ Hb) as Hh. unfold SECTOR_COUNT in *.
  destruct (busy_unused (sectors c)) as (k & s & Hk & Ho); [rewrite (bk_len _ Hb); lia|].
  assert (Hn : index s ≠ NONE32).
  { intros E. assert (k ∈ free_list c) as Hin by (apply (bk_free _ Hb); eauto).
    rewrite Hfree in Hin. by apply not_elem_of_nil in Hin. }
  unfold evict_sector, gets. erewrite bind_run by done.
  pose proof (lookup_lt_Some _ _ _ Hk) as Hkl. rewrite (bk_len _ Hb) in Hkl.
  apply evict_loop_run with k s; try done.
  - rewrite Z.sub_diag. change (0 mod 64) with 0.
    pose proof (Z.mod_pos_bound (Z.of_nat k - clock_hand c) 64). lia.
  - pose proof (Z.mod_pos_bound (Z.of_nat k - clock_hand c) 64). unfold SECTOR_COUNT. lia.
Qed.

(** ** Filling a slot *)
Definition read_once (b : block) : block :=
  mkBlock (type b) (size b) (contents b) (read_cnt b + 1) (write_cnt b).

Definition filled (c : cache) (res : nat) (idx : Z) (d : list Z) (l : list nat) (ol : bool) : cache :=
  mkCache (read_once (fs_device c)) (<[res := mkSector idx d false 1 false ol]> (sectors c))
    (cache_lock c) (cache_sem c) (<[idx := res]> (index_sectors_map c)) l (clock_hand c)
    (last_flush_t c) (timer_ticks c) (intr_context c).

Definition device_data (c : cache) (idx : Z) : option (list Z) := nthZ (contents (fs_device c)) idx.

Lemma device_data_some c idx :
  books c → 0 ≤ idx < size (fs_device c) → ∃ d, device_data c idx = Some d ∧ length d = 512%nat.
Proof.
  intros Hb ?. pose proof (bk_dev _ Hb) as Hd. pose proof (bw_size _ Hd).
  destruct (nthZ_is_Some (contents (fs_device c)) idx) as [d Hdd]; [lia|].
  exists d. split; [done|]. rewrite nthZ_lookup in Hdd by lia.
  exact (Forall_lookup_1 _ _ _ _ (bw_sectors _ Hd) Hdd).
Qed.

Lemma upd_bind {A} i f s (k : unit → M cache A) dev ss lk sem mp fr h lf tk ic :
  ss !! i = Some s →
  bind (upd_slot i f) k (mkCache dev ss lk sem mp fr h lf tk ic) =
  k tt (mkCache dev (<[i := f s]> ss) lk sem mp fr h lf tk ic).
Proof. intros Hi. apply bind_run. by rewrite (upd_slot_run _ _ s). Qed.

Lemma fill_run c l res idx d :
  books c → free_list c = l ++ [res] → 0 ≤ idx < size (fs_device c) → device_data c idx = Some d →
  fill_slot idx c = Ret (res, filled c res idx d l false).
Proof.
  intros Hb Hfree Hidx Hd. destruct (proj1 (bk_free _ Hb res)) as (s & Hi & Hs).
  { rewrite Hfree. apply elem_of_app. right. apply list_elem_of_here. }
  pose proof (bk_slots _ Hb _ _ Hi) as [Hol _ Hfr Hul _ _].
  specialize (Hul (Hfr Hs)). pose proof (bk_dev _ Hb) as Hdev.
  destruct c as [dev ss lk sem mp fr hand lf tk ic]. cbn in *. subst fr.
  unfold device_data in Hd. cbn in Hd. transitivity (fill_free idx (mkCache dev ss lk sem mp (l ++ [res]) hand lf tk ic)).
  { unfold fill_slot, bind, gets. cbn. by rewrite bool_decide_false by (by destruct l). }
  unfold fill_free. rewrite bind_gets. cbn [free_list].
  rewrite last_snoc, (bind_run (lift (or_panic (Some res))) _ _ res _ eq_refl). cbv beta.
  rewrite bind_modify, removelast_last. unfold set_free_list. cbn [fs_device sectors cache_lock cache_sem
    index_sectors_map clock_hand last_flush_t timer_ticks intr_context].
  do 3 (erewrite upd_bind; [|by first [exact Hi|eapply lookup_upd; exact Hi|
    eapply lookup_upd, lookup_upd; exact Hi]]; rewrite ?list_insert_insert_eq).
  erewrite bind_run by (unfold on_device, zoom; cbn [fs_device]; by erewrite block_read_run).
  unfold set_device. cbn [fs_device sectors cache_lock cache_sem
    index_sectors_map free_list clock_hand last_flush_t timer_ticks intr_context].
  erewrite upd_bind by (eapply lookup_upd; exact Hi). rewrite bind_modify, list_insert_insert_eq.
  destruct s. cbn in *. subst. done.
Qed.

Section filled.
Context (c : cache) (res : nat) (idx : Z) (d : list Z) (l : list nat).
Hypothesis Hb : books c.
Hypothesis Hfree : free_list c = l ++ [res].
Hypothesis Hidx : 0 ≤ idx < size (fs_device c).
Hypothesis Hd : device_data c idx = Some d.
Hypothesis Hnew : slot_of c idx = None.
Let c' := filled c res idx d l false.

Lemma filled_free : ∃ s, sectors c !! res = Some s ∧ index s = NONE32 ∧ owners s = 0.
Proof.
  destruct (proj1 (bk_free _ Hb res)) as (s & Hi & Hs).
  { rewrite Hfree. apply elem_of_app. right. apply list_elem_of_here. }
  exists s. pose proof (bk_slots _ Hb _ _ Hi) as [_ _ Hfr _ _ _]. auto.
Qed.

Lemma filled_lookup k :
  sectors c' !! k = if decide (k = res) then Some (mkSector idx d false 1 false false) else sectors c !! k.
Proof.
  destruct filled_free as (s & Hi & _ & _). simpl.
  case_decide; subst; [by eapply lookup_upd|by rewrite list_lookup_insert_ne].
Qed.

Lemma idx_not_none : idx ≠ NONE32.
Proof. pose proof (bw_bound _ (bk_dev _ Hb)). lia. Qed.

Lemma filled_books : books c'.
Proof.
  destruct filled_free as (s & Hi & Hs & Ho). pose proof filled_lookup as Hl.
  pose proof idx_not_none as Hnn. pose proof (bk_nodup _ Hb) as Hnd. rewrite Hfree in Hnd.
  apply NoDup_app in Hnd as (Hndl & Hndr & _).
  split; try apply Hb.
  - pose proof (bk_dev _ Hb) as []. by split.
  - simpl. rewrite length_insert. apply Hb.
  - intros j k. rewrite Hl. simpl. destruct (decide (j = idx)) as [->|].
    + rewrite lookup_insert_eq. case_decide; subst.
      * split; [intros _; by eexists|done].
      * split; [congruence|]. intros Hm%(bk_map _ Hb). unfold slot_of in Hnew. congruence.
    + rewrite lookup_insert_ne, (bk_map _ Hb) by done. case_decide; subst; [|done].
      split; intros (x & ? & ? & ?); simplify_eq.
  - done.
  - intros k. simpl. rewrite Hl. case_decide; subst.
    + split; [intros Hk; by destruct (Hndr res Hk); apply list_elem_of_here|].
      by intros (? & ? & ?); simplify_eq.
    + rewrite <-(bk_free _ Hb), Hfree, elem_of_app, list_elem_of_singleton. tauto.
  - intros k t. rewrite Hl. case_decide; intros Hk; simplify_eq.
    + destruct (device_data_some c idx Hb Hidx) as (? & Hd' & ?). simplify_eq.
      by split.
    + by pose proof (bk_slots _ Hb _ _ Hk) as [].
Qed.

Lemma filled_slot_of j : slot_of c' j = if decide (j = idx) then Some res else slot_of c j.
Proof.
  unfold slot_of. simpl. case_decide; subst; [apply lookup_insert_eq|by rewrite lookup_insert_ne].
Qed.

Lemma filled_cached j :
  cached c' j = if decide (j = idx) then Some (mkSector idx d false 1 false false) else cached c j.
Proof.
  destruct filled_free as (s & Hi & Hs & _).
  unfold cached. rewrite filled_slot_of. case_decide.
  - rewrite filled_lookup. by rewrite decide_True.
  - destruct (slot_of c j) as [k|] eqn:Ek; [|done].
    rewrite filled_lookup, decide_False; [done|]. intros ->.
    apply (bk_map _ Hb) in Ek as (? & ? & ? & ?). simplify_eq.
Qed.

Lemma filled_obs j :
  view c' j = view c j ∧ own c' j = at_idx idx 1 (own c) j ∧
  locked c' j = at_idx idx false (locked c) j ∧ (clean c j → clean c' j) ∧ own c idx = 0 ∧ locked c idx = false.
Proof.
  assert (cached c idx = None) as Hc by (unfold cached; by rewrite Hnew).
  unfold view, own, locked, clean, at_idx. rewrite filled_cached, Hc.
  destruct (decide (j = idx)) as [->|]; [|done]. rewrite Hc. done.
Qed.

Lemma filled_busy : busy (sectors c') = busy (sectors c) + 1.
Proof.
  destruct filled_free as (s & Hi & _ & Ho). simpl. rewrite (busy_insert _ _ s) by done.
  rewrite decide_True by done. cbn [owners]. rewrite decide_False by done. lia.
Qed.
End filled.

Lemma fill_evict c c1 idx :
  free_list c = [] → evict_sector c = Ret (tt, c1) → free_list c1 ≠ [] →
  fill_slot idx c = fill_slot idx c1.
Proof.
  intros Hf Hrun Hf1. unfold fill_slot, bind, gets, whenM.
  rewrite Hf, bool_decide_true, Hrun, bool_decide_false by done. done.
Qed.

(** Filling a slot when one is free or some cached sector is unused. *)
Lemma fill_slot_ok c idx :
  books c → slot_of c idx = None → 0 ≤ idx < size (fs_device c) → busy (sectors c) < SECTOR_COUNT →
  ∃ res c', fill_slot idx c = Ret (res, c') ∧ books c' ∧ slot_of c' idx = Some res ∧
    size (fs_device c') = size (fs_device c) ∧ cache_lock c' = cache_lock c ∧
    cache_sem c' = cache_sem c ∧ busy (sectors c') = busy (sectors c) + 1 ∧
    own c idx = 0 ∧ locked c idx = false ∧
    (∀ j, own c j ≠ 0 → slot_of c' j = slot_of c j) ∧
    ∀ j, view c' j = view c j ∧ own c' j = at_idx idx 1 (own c) j ∧
         locked c' j = at_idx idx false (locked c) j ∧ (clean c j → clean c' j).
Proof.
  intros Hb Hnew Hidx Hbusy. destruct (decide (free_list c = [])) as [Hf|Hf].
  - destruct (evict_sector_run c Hb Hf Hbusy) as (i & s & h & Hi & Hn & Ho & Hh & Hrun).
    set (c0 := set_clock_hand h c) in *.
    assert (Hb0 : books c0) by by apply set_hand_books.
    pose proof (evicted_books c0 i s Hb0 Hi Hn Ho) as Hb1.
    pose proof (evicted_obs c0 i s Hb0 Hi Hn Ho) as Hobs.
    pose proof (evicted_busy c0 i s Hi Ho) as Hbs.
    destruct (evicted_dev c0 i s Hb0 Hi Hn) as [_ Hsz].
    assert (Hnew1 : slot_of (evicted c0 i s) idx = None).
    { rewrite evicted_slot_of. by case_decide. }
    assert (Hf1 : free_list (evicted c0 i s) = [] ++ [i]) by (simpl; by rewrite Hf).
    assert (Hidx1 : 0 ≤ idx < size (fs_device (evicted c0 i s))) by (by rewrite Hsz).
    destruct (device_data_some _ idx Hb1 Hidx1) as (d & Hd & _).
    pose proof (fill_run _ [] i idx d Hb1 Hf1 Hidx1 Hd) as Hfill.
    exists i, (filled (evicted c0 i s) i idx d [] false).
    destruct (filled_obs _ i idx d [] Hb1 Hf1 Hd Hnew1 idx) as (_ & _ & _ & _ & Eo & El).
    destruct (Hobs idx) as (_ & Eo1 & El1 & _).
    assert (Hoc : own c idx = 0) by exact (eq_trans (eq_sym Eo1) Eo).
    assert (Hlc : locked c idx = false) by exact (eq_trans (eq_sym El1) El).
    split.
    { rewrite <-Hfill. apply fill_evict; [done..|]. by rewrite Hf1. }
    split_and!; try done.
    + by apply filled_books.
    + rewrite filled_slot_of. by rewrite decide_True.
    + by rewrite (filled_busy _ i idx d [] Hb1 Hf1), Hbs.
    + intros j Hj. rewrite filled_slot_of. case_decide; subst; [congruence|].
      rewrite evicted_slot_of. case_decide; [|done]. subst j.
      destruct (cached_obs c i s Hb Hi Hn) as (_ & Eos & _). congruence.
    + intros j. destruct (filled_obs _ i idx d [] Hb1 Hf1 Hd Hnew1 j) as (? & ? & ? & ? & _).
      destruct (Hobs j) as (Hv & Hw & Hx & ?). unfold at_idx in *.
      change (view c0 j) with (view c j) in Hv. change (own c0 j) with (own c j) in Hw.
      change (locked c0 j) with (locked c j) in Hx.
      split_and!; try congruence; [..|by auto]; case_decide; congruence.
  - destruct (exists_last Hf) as (l & res & Hl).
    destruct (device_data_some _ idx Hb Hidx) as (d & Hd & _).
    exists res, (filled c res idx d l false).
    split; [by apply fill_run|].
    destruct (filled_obs _ res idx d l Hb Hl Hd Hnew idx) as (_ & _ & _ & _ & Eo & El).
    split_and!; try done.
    + by apply filled_books.
    + rewrite filled_slot_of. by rewrite decide_True.
    + by rewrite (filled_busy _ res idx d l Hb Hl).
    + intros j Hj. rewrite filled_slot_of. case_decide; subst; congruence.
    + intros j. destruct (filled_obs _ res idx d l Hb Hl Hd Hnew j) as (? & ? & ? & ? & _). done.
Qed.

Lemma books_ext c c' :
  books c → fs_device c' = fs_device c → sectors c' = sectors c →
  index_sectors_map c' = index_sectors_map c → free_list c' = free_list c →
  clock_hand c' = clock_hand c → intr_context c' = intr_context c → books c'.
Proof. intros [] E1 E2 E3 E4 E5 E6. split; rewrite ?E1, ?E2, ?E3, ?E4, ?E5, ?E6; done. Qed.

(** The books of the cache after take_sector filled a slot without locking it. *)
Lemma take_miss_unlocked c idx :
  cinv c → slot_of c idx = None → 0 ≤ idx < size (fs_device c) → 0 < cache_sem c →
  ∃ i c', take_sector idx false c = Ret (i, c') ∧ slot_of c' idx = Some i ∧
    own c idx = 0 ∧ locked c idx = false ∧
    moves c c' (view c) (at_idx idx 1 (own c)) (at_idx idx false (locked c)) (-1).
Proof.
  intros [Hb Hl Hs] Hnew Hidx Hsem. unfold SECTOR_COUNT in Hs.
  pose proof (bk_intr _ Hb) as Hic.
  set (c1 := set_cache_sem (cache_sem c - 1) (set_cache_lock true c)).
  assert (Hb1 : books c1) by by apply (books_ext c).
  destruct (fill_slot_ok c1 idx) as (res & c2 & Hrun & Hb2 & Hso & Hsz & Hlk & Hsm & Hbs & Ho & Hlo & Hst & Hobs);
    [done..|simpl; unfold SECTOR_COUNT; lia|].
  exists res, (set_cache_lock false c2). split.
  { unfold take_sector, assert_no_intr, acquire_cache_lock, release_cache_lock, down_cache_sem,
      bind, gets, modify, ret, lift, assertM, lock_acquire, lock_release, sema_down, whenM, ASSERT.
    cbn -[fill_slot]. rewrite Hic. cbn -[fill_slot]. rewrite Hl. cbn -[fill_slot]. unfold slot_of in Hnew. rewrite Hnew.
    cbn -[fill_slot]. rewrite decide_False by lia. cbn -[fill_slot].
    change (set_cache_sem (cache_sem c - 1) (set_cache_lock true c)) with c1.
    rewrite Hrun. cbn. rewrite Hlk. done. }
  split; [exact Hso|]. split; [exact Ho|]. split; [exact Hlo|].
  split; try (intros j; apply (Hobs j)).
  - split; [by apply (books_ext c2)|done|]. simpl in *. rewrite Hsm, Hbs. unfold SECTOR_COUNT. lia.
  - simpl in *. lia.
  - exact Hsz.
  - intros j k Hj Hk _. change (slot_of c2 j = Some k). rewrite Hst by exact Hj. exact Hk.
Qed.

Lemma acquire_sector_lock_ok c i idx :
  cinv c → slot_of c idx = Some i → own c idx ≠ 0 → locked c idx = false →
  ∃ c', acquire_sector_lock i c = Ret (tt, c') ∧ slot_of c' idx = Some i ∧
    moves c c' (view c) (own c) (at_idx idx true (locked c)) 0.
Proof.
  intros Hinv Hm Ho Hlk. pose proof (ci_books _ Hinv) as Hb.
  destruct (proj1 (bk_map _ Hb idx i) Hm) as (s & Hi & Hidx & Hn). subst idx.
  destruct (cached_obs c i s Hb Hi Hn) as (Hv & Eo & El). rewrite Eo, El in *.
  pose proof (bk_slots _ Hb _ _ Hi) as [? ? ? ? ? ?].
  eexists. split.
  { unfold acquire_sector_lock. erewrite bind_run by by apply slot_run.
    rewrite Hlk. erewrite bind_run by done. by apply upd_slot_run. }
  split; [exact Hm|].
  pose proof (update_moves c i s (set_sector_lock true s) (cache_sem c) Hinv Hi Hn eq_refl) as Hmv.
  assert (set_sectors (<[i:=set_sector_lock true s]> (sectors c)) c =
    mkCache (fs_device c) (<[i := set_sector_lock true s]> (sectors c)) false (cache_sem c)
      (index_sectors_map c) (free_list c) (clock_hand c) (last_flush_t c) (timer_ticks c)
      (intr_context c)) as ->.
  { unfold set_sectors. by rewrite (ci_unlocked _ Hinv). }
  eapply moves_ext; [apply Hmv|..]; try done.
  - unfold inuse, set_sector_lock. cbn [owners]. lia.
  - intros j. unfold at_idx. case_decide; subst; done.
  - intros j. unfold at_idx. case_decide; subst; done.
  - lia.
Qed.

Lemma moves_trans c c1 c2 v o l d v' o' l' d' :
  moves c c1 v o l d → moves c1 c2 v' o' l' d' → (∀ j, own c j ≠ 0 → own c2 j ≠ 0 → own c1 j ≠ 0) →
  moves c c2 v' o' l' (d + d').
Proof.
  intros [] [] Ho. split; try done; try lia; [by auto|].
  intros j k ???. eauto.
Qed.

Lemma take_unlock_split c idx blk :
  take_sector idx blk c =
    (let! i := take_sector idx false in whenM blk (acquire_sector_lock i);;! ret i) c.
Proof.
  unfold take_sector. rewrite !bind_assoc. unfold bind, gets, ret, whenM.
  destruct (assert_no_intr c) as [[[] c1]|]; [|done].
  destruct (acquire_cache_lock c1) as [[[] c2]|]; [|done].
  destruct (index_sectors_map c2 !! idx); [|destruct (down_cache_sem c2) as [[[] c3]|]; [|done]].
  - repeat (case_match; try done).
  - repeat (case_match; try done).
Qed.

(** ** The contract of the cache *)

(** take_sector, whether the sector is cached or not. *)
Lemma take_ok c idx blk :
  cinv c → 0 ≤ idx < size (fs_device c) → own c idx < u32_max →
  (own c idx = 0 → 0 < cache_sem c) → (blk = true → locked c idx = false) →
  ∃ i c', take_sector idx blk c = Ret (i, c') ∧ slot_of c' idx = Some i ∧
    moves c c' (view c) (at_idx idx (own c idx + 1) (own c))
      (at_idx idx (blk || locked c idx) (locked c)) (if decide (own c idx = 0) then -1 else 0).
Proof.
  intros Hinv Hidx Ho Hsem Hblk. destruct (slot_of c idx) as [i|] eqn:Hm.
  { destruct (take_hit c idx i blk) as (c' & ? & ? & ?); try done. eauto. }
  assert (own c idx = 0) as Ho0 by (unfold own, cached; by rewrite Hm).
  destruct (take_miss_unlocked c idx Hinv Hm Hidx (Hsem Ho0)) as (i & c1 & Hrun & Hs & _ & Hl & Hmv).
  rewrite take_unlock_split. rewrite Ho0, decide_True by done. rewrite Hl, orb_false_r.
  pose proof (mv_own _ _ _ _ _ _ Hmv idx) as Ho1. rewrite at_idx_eq in Ho1.
  pose proof (mv_locked _ _ _ _ _ _ Hmv idx) as Hl1. rewrite at_idx_eq in Hl1.
  destruct blk; simpl.
  - destruct (acquire_sector_lock_ok c1 i idx) as (c2 & Hrun2 & Hs2 & Hmv2);
      [apply Hmv|done|lia|done|].
    exists i, c2. split; [|split; [done|]].
    { erewrite bind_run by exact Hrun. unfold whenM. by erewrite bind_run by exact Hrun2. }
    eapply moves_ext; [eapply moves_trans; [exact Hmv|exact Hmv2|]|..].
    + intros j _. rewrite (mv_own _ _ _ _ _ _ Hmv2). done.
    + intros j. apply Hmv.
    + intros j. apply Hmv.
    + intros j. unfold at_idx. case_decide; [done|]. rewrite (mv_locked _ _ _ _ _ _ Hmv).
      by rewrite at_idx_ne.
    + lia.
  - exists i, c1. split; [|done]. erewrite bind_run by exact Hrun. done.
Qed.

(** A store into the data of a sector one has a handle to. *)
Lemma write_slot_ok c idx i d :
  cinv c → slot_of c idx = Some i → own c idx ≠ 0 → length d = 512%nat →
  ∃ s c', sectors c !! i = Some s ∧ view c idx = Some (data s) ∧
    upd_slot i (set_data d) c = Ret (tt, c') ∧ cinv c' ∧
    (∀ j, view c' j = at_idx idx (Some d) (view c) j) ∧ (∀ j, own c' j = own c j) ∧
    (∀ j, locked c' j = locked c j) ∧ cache_sem c' = cache_sem c ∧
    size (fs_device c') = size (fs_device c) ∧ (∀ j, j ≠ idx → clean c j → clean c' j) ∧
    (∀ j, slot_of c' j = slot_of c j).
Proof.
  intros [Hb Hl Hsem] Hm Ho Hd.
  destruct (proj1 (bk_map _ Hb idx i) Hm) as (s & Hi & Hidx & Hn). subst idx.
  destruct (cached_obs c i s Hb Hi Hn) as (Hv & Eo & El). rewrite Eo in Ho.
  pose proof (bk_slots _ Hb _ _ Hi) as [? ? ? ? Hix ?].
  set (c' := set_sectors (<[i := set_data d s]> (sectors c)) c).
  exists s, c'. split; [done|]. split; [done|]. split; [by apply upd_slot_run|].
  assert (Hok : slot_ok (fs_device c) (set_data d s)).
  { split; try done. simpl. intros ?. by destruct (Hix Hn). }
  pose proof (update_cached c c' i s (set_data d s) Hb Hi eq_refl eq_refl Hn) as Hc.
  unfold view, own, locked, clean, at_idx.
  split_and!; try done.
  - split; [by apply (update_books c c' i s (set_data d s))|done|].
    simpl. rewrite (busy_insert _ _ s) by done. cbn [set_data owners]. lia.
  - intros j. rewrite Hc. by case_decide.
  - intros j. rewrite Hc. case_decide; subst; [by rewrite (cached_self c i s)|done].
  - intros j. rewrite Hc. case_decide; subst; [by rewrite (cached_self c i s)|done].
  - intros j ?. rewrite Hc. by rewrite decide_False.
Qed.

(** Reading a sector one has a handle to. *)
Lemma read_slot_ok c idx i :
  cinv c → slot_of c idx = Some i →
  ∃ s, slot i c = Ret (s, c) ∧ view c idx = Some (data s) ∧ index s = idx.
Proof.
  intros [Hb _ _] Hm. destruct (proj1 (bk_map _ Hb idx i) Hm) as (s & Hi & Hidx & Hn). subst idx.
  exists s. split; [by apply slot_run|]. split; [|done]. by apply (cached_obs c i s Hb Hi Hn).
Qed.

(** ** Flushing *)
Definition flushed_slot (c : cache) (i : nat) (s : sector) : cache :=
  set_sectors (<[i := set_dirty false s]> (sectors c))
    (set_device (written (fs_device c) (index s) (data s)) c).

Section flushed.
Context (c : cache) (i : nat) (s : sector).
Hypothesis Hb : books c.
Hypothesis Hi : sectors c !! i = Some s.
Hypothesis Hn : index s ≠ NONE32.
Let c' := flushed_slot c i s.

Lemma flushed_lookup k :
  sectors c' !! k = if decide (k = i) then Some (set_dirty false s) else sectors c !! k.
Proof.
  simpl. case_decide; subst; [by eapply lookup_upd|by rewrite list_lookup_insert_ne].
Qed.

Lemma flushed_contents j :
  nthZ (contents (fs_device c')) j =
    if decide (j = index s) then Some (data s) else nthZ (contents (fs_device c)) j.
Proof. apply written_lookup. by apply (evicted_index_range c i s). Qed.

Lemma flushed_books : books c'.
Proof.
  pose proof (bk_slots _ Hb _ _ Hi) as [? ? ? ? Hix _]. pose proof flushed_lookup as Hl.
  split; try apply Hb.
  - apply written_wf; [apply Hb|]. by apply Hix.
  - simpl. rewrite length_insert. apply Hb.
  - intros j k. rewrite Hl. simpl. rewrite (bk_map _ Hb). case_decide; subst; [|done].
    rewrite Hi. split; intros (x & ? & ?); simplify_eq; eexists; (split; [done|]); done.
  - intros k. rewrite Hl. simpl. rewrite (bk_free _ Hb). case_decide; subst; [|done].
    rewrite Hi. split; intros (x & ? & ?); simplify_eq; eexists; (split; [done|]); done.
  - intros k t. rewrite Hl. case_decide; intros Hk; simplify_eq.
    + split; try done. intros. rewrite flushed_contents. by rewrite decide_True.
    + pose proof (bk_slots _ Hb _ _ Hk) as []. split; try done.
      intros. rewrite flushed_contents. rewrite decide_False; [auto|].
      intros E. assert (i = k); [|done]. by eapply books_inj.
Qed.

Lemma flushed_obs j :
  view c' j = view c j ∧ own c' j = own c j ∧ locked c' j = locked c j ∧
  slot_of c' j = slot_of c j ∧ (clean c j → clean c' j) ∧ (j = index s → clean c' j).
Proof.
  pose proof (cached_self c i s Hb Hi Hn) as Hself.
  assert (Hc : cached c' j = if decide (j = index s) then Some (set_dirty false s) else cached c j).
  { unfold cached. change (slot_of c' j) with (slot_of c j). case_decide as E.
    - subst j. assert (slot_of c (index s) = Some i) as -> by (apply (bk_map _ Hb); eauto).
      rewrite flushed_lookup. by rewrite decide_True.
    - destruct (slot_of c j) as [k|] eqn:Ek; [|done].
      rewrite flushed_lookup, decide_False; [done|]. intros ->.
      apply (bk_map _ Hb) in Ek as (? & ? & ? & ?). simplify_eq. }
  unfold view, own, locked, clean. rewrite Hc, flushed_contents.
  destruct (decide (j = index s)) as [->|]; [|done]. rewrite Hself. done.
Qed.
End flushed.

Lemma flush_slot_run c i s :
  books c → sectors c !! i = Some s →
  flush_slot i c =
    Ret (tt, if decide (index s ≠ NONE32 ∧ dirty s = true) then flushed_slot c i s else c).
Proof.
  intros Hb Hi. unfold flush_slot. erewrite bind_run by by apply slot_run.
  case_decide as Hd; [|done]. destruct Hd as [Hn Hd].
  pose proof (bk_slots _ Hb _ _ Hi) as [Hol _ _ _ Hix _]. specialize (Hix Hn) as [? ?].
  pose proof (bk_dev _ Hb) as Hdev.
  destruct c as [dev ss lk sem mp fr hand lf tk ic]. simpl in *.
  unfold acquire_owners_lock, release_owners_lock, on_device, zoom, bind, lift, ret, slot, upd_slot,
    lock_acquire, lock_release, ASSERT.
  crun Hi. rewrite Hol. crun Hi. rewrite block_write_run by done. crun Hi.
  unfold flushed_slot, set_sectors, set_device, set_owners_lock, set_dirty. cbn.
  by rewrite Hol.
Qed.

(** What flushing the slots below [n] has done. *)
Record flushed_to (c c' : cache) (n : nat) : Prop := {
  ft_books : books c';
  ft_obs : ∀ j, view c' j = view c j ∧ own c' j = own c j ∧ locked c' j = locked c j ∧
                slot_of c' j = slot_of c j ∧ (clean c j → clean c' j);
  ft_lock : cache_lock c' = cache_lock c;
  ft_sem : cache_sem c' = cache_sem c;
  ft_busy : busy (sectors c') = busy (sectors c);
  ft_size : size (fs_device c') = size (fs_device c);
  ft_clean : ∀ i s, (i < n)%nat → sectors c' !! i = Some s → index s ≠ NONE32 → dirty s = false;
  ft_synced : ∀ i s, (i < n)%nat → sectors c' !! i = Some s → index s ≠ NONE32 →
    clean c (index s) → nthZ (contents (fs_device c')) (index s) = Some (data s);
}.

Lemma flush_slot_step c0 c i :
  flushed_to c0 c i → (i < 64)%nat →
  ∃ c', flush_slot i c = Ret (tt, c') ∧ flushed_to c0 c' (S i).
Proof.
  intros [Hb Hobs Hlk Hsem Hbs Hsz Hcl Hsy] Hi64.
  destruct (lookup_lt_is_Some_2 (sectors c) i) as [s Hi]; [by rewrite (bk_len _ Hb)|].
  eexists. split; [by apply flush_slot_run|]. case_decide as Hd.
  - destruct Hd as [Hn Hd]. pose proof (flushed_obs c i s Hb Hi Hn) as Hobs'.
    pose proof (flushed_lookup c i s Hi) as Hl.
    split; try done.
    + by apply flushed_books.
    + intros j. destruct (Hobs j) as (? & ? & ? & ? & ?).
      destruct (Hobs' j) as (? & ? & ? & ? & ? & _). split_and!; [congruence..|by auto].
    + rewrite <-Hbs. simpl. rewrite (busy_insert _ _ s) by done. cbn [set_dirty owners]. lia.
    + intros k t Hk. rewrite Hl. case_decide; intros Ht Hnt; simplify_eq; [done|].
      apply (Hcl k t); [lia|done..].
    + intros k t Hk. rewrite Hl, flushed_contents by done. case_decide; intros Ht Hnt ?; simplify_eq.
      * by rewrite decide_True.
      * case_decide as E; [|by apply (Hsy k t); [lia|..]].
        exfalso. assert (i = k); [|lia]. by eapply books_inj.
  - split; try done.
    + intros k t Hk Ht Hnt. destruct (decide (k = i)) as [->|]; [|by apply (Hcl k t); [lia|..]].
      simplify_eq. destruct (dirty s); [by destruct Hd|done].
    + intros k t Hk Ht Hnt Hct. destruct (decide (k = i)) as [->|]; [|by apply (Hsy k t); [lia|..]].
      simplify_eq. destruct (Hobs (index s)) as (_ & _ & _ & _ & Hc).
      specialize (Hc Hct). unfold clean in Hc. rewrite (cached_self c i s) in Hc by done.
      apply Hc. destruct (dirty s); [by destruct Hd|done].
Qed.

Lemma flush_loop_run n : ∀ c0 c i,
  flushed_to c0 c i → (i + n = 64)%nat →
  ∃ c', flush_loop n i c = Ret (tt, c') ∧ flushed_to c0 c' 64.
Proof.
  induction n as [|n IH]; intros c0 c i Hf Hn; simpl.
  { replace 64%nat with i by lia. by exists c. }
  destruct (flush_slot_step c0 c i Hf) as (c1 & Hrun & Hf1); [lia|].
  destruct (IH c0 c1 (S i) Hf1) as (c2 & Hrun2 & Hf2); [lia|].
  exists c2. split; [|done]. by erewrite bind_run by exact Hrun.
Qed.

(** A forced flush runs to its end, keeps what readers see, and leaves the
    device with it. *)
Lemma flush_force_ok c :
  cinv c →
  ∃ c', sector_cache_flush true c = Ret (tt, c') ∧ cinv c' ∧ last_flush_t c' = timer_ticks c ∧
    size (fs_device c') = size (fs_device c) ∧ cache_sem c' = cache_sem c ∧
    (∀ j, view c' j = view c j ∧ own c' j = own c j ∧ locked c' j = locked c j ∧
          slot_of c' j = slot_of c j ∧ (clean c j → clean c' j)) ∧
    (∀ i s, sectors c' !! i = Some s → index s ≠ NONE32 → dirty s = false) ∧
    (∀ j, clean c j → nthZ (contents (fs_device c')) j = view c j).
Proof.
  intros [Hb Hl Hsem]. pose proof (bk_intr _ Hb) as Hic.
  set (c1 := set_cache_lock true c).
  assert (Hf0 : flushed_to c1 c1 0).
  { split; try done; try lia. by apply (books_ext c). }
  destruct (flush_loop_run 64 c1 c1 0 Hf0 eq_refl) as (c2 & Hrun & [Hb2 Hobs Hlk Hsm Hbs Hsz Hcl Hsy]).
  exists (set_last_flush (timer_ticks c) (set_cache_lock false c2)).
  split.
  { unfold sector_cache_flush, assert_no_intr, acquire_cache_lock, release_cache_lock.
    unfold bind, gets, modify, lift, ret, assertM, lock_acquire, lock_release, ASSERT.
    rewrite Hic. cbn -[flush_loop Z.to_nat]. rewrite decide_True by auto. rewrite Hl.
    cbn -[flush_loop Z.to_nat]. change (Z.to_nat SECTOR_COUNT) with 64%nat. change (set_cache_lock true c) with c1.
    rewrite Hrun, Hlk. done. }
  split_and!; try done.
  - split; [by apply (books_ext c2)|done|]. simpl. rewrite Hsm, Hbs. exact Hsem.
  - intros i s Hi. simpl in Hi. apply (Hcl i); [|done].
    apply lookup_lt_Some in Hi. rewrite (bk_len _ Hb2) in Hi. lia.
  - intros j Hc. destruct (Hobs j) as (Hv & _ & _ & Hs & _). simpl.
    change (view c j) with (view c1 j). rewrite <-Hv. unfold view.
    destruct (cached c2 j) as [s|] eqn:E; [|done].
    destruct (cached_slot c2 j s Hb2 E) as (i & _ & Hi & <- & Hn).
    apply (Hsy i); try done. apply lookup_lt_Some in Hi. rewrite (bk_len _ Hb2) in Hi. lia.
Qed.

(** ** Sessions: a handle taken, used and given back *)

(** Two states that no caller can tell apart by handles it keeps. *)
Record same (c c' : cache) : Prop := {
  sm_inv : cinv c → cinv c';
  sm_view : ∀ j, view c' j = view c j;
  sm_own : ∀ j, own c' j = own c j;
  sm_locked : ∀ j, locked c' j = locked c j;
  sm_sem : cache_sem c' = cache_sem c;
  sm_size : size (fs_device c') = size (fs_device c);
  sm_clean : ∀ j, clean c j → clean c' j;
  sm_held : ∀ j k, own c j ≠ 0 → slot_of c j = Some k → slot_of c' j = Some k;
}.

#[export] Instance same_preorder : PreOrder same.
Proof.
  split; [by split|]. intros c1 c2 c3 [I1 V1 O1 L1 S1 Z1 C1 H1] [I2 V2 O2 L2 S2 Z2 C2 H2].
  split; intros; try congruence; auto. apply H2; [by rewrite O1|by apply H1].
Qed.

(** [take_sector (idx, false)], a read of the data, [release_sector (.., false, false)]. *)
Definition read_session (idx : Z) : M cache (list Z) :=
  let! i := take_sector idx false in
  let! s := slot i in
  release_sector i idx false false;;!
  ret (data s).

(** [take_sector (idx, blk)], a store of the data, [release_sector (.., true, blk)]. *)
Definition write_session (idx : Z) (blk : bool) (d : list Z) : M cache unit :=
  let! i := take_sector idx blk in
  upd_slot i (set_data d);;!
  release_sector i idx true blk.

Lemma own_nonneg c j : cinv c → 0 ≤ own c j.
Proof.
  intros [Hb _ _]. unfold own. destruct (cached c j) eqn:E; [|done].
  destruct (cached_slot _ _ _ Hb E) as (i & _ & Hi & _). by apply (bk_slots _ Hb _ _ Hi).
Qed.

Lemma clean_unowned c j : cinv c → own c j = 0 → clean c j.
Proof.
  intros [Hb _ _]. unfold own, clean. destruct (cached c j) eqn:E; [|done]. intros Ho Hd.
  destruct (cached_slot _ _ _ Hb E) as (i & _ & Hi & <- & Hn).
  by apply (so_clean _ _ (bk_slots _ Hb _ _ Hi)).
Qed.

Lemma unlocked_unowned c j : cinv c → own c j = 0 → locked c j = false.
Proof.
  intros [Hb _ _]. unfold own, locked. destruct (cached c j) eqn:E; [|done]. intros Ho.
  destruct (cached_slot _ _ _ Hb E) as (i & _ & Hi & <- & Hn).
  by apply (so_unlocked _ _ (bk_slots _ Hb _ _ Hi)).
Qed.

Lemma read_session_ok c idx :
  cinv c → 0 ≤ idx < size (fs_device c) → own c idx < u32_max →
  (own c idx = 0 → 0 < cache_sem c) →
  ∃ d c', view c idx = Some d ∧ read_session idx c = Ret (d, c') ∧ same c c'.
Proof.
  intros Hinv Hidx Ho Hsem. pose proof (own_nonneg c idx Hinv).
  destruct (take_ok c idx false Hinv Hidx Ho Hsem) as (i & c1 & Hrun & Hs & Hmv); [done|].
  destruct (read_slot_ok c1 idx i (mv_inv _ _ _ _ _ _ Hmv) Hs) as (s & Hr & Hv & _).
  pose proof (mv_own _ _ _ _ _ _ Hmv idx) as Ho1. rewrite at_idx_eq in Ho1.
  pose proof (mv_locked _ _ _ _ _ _ Hmv idx) as Hl1. rewrite at_idx_eq in Hl1. simpl in Hl1.
  destruct (release_ok c1 idx i false false (mv_inv _ _ _ _ _ _ Hmv) Hs) as (c2 & Hrun2 & Hmv2);
    [lia|done|..].
  { intros E. assert (own c idx = 0) as E0 by lia.
    by rewrite Hl1, (unlocked_unowned c idx Hinv E0). }
  { intros E. right. apply Hmv, clean_unowned; [done|lia]. }
  exists (data s), c2. split_and!.
  - by rewrite <-(mv_view _ _ _ _ _ _ Hmv).
  - unfold read_session. erewrite bind_run by exact Hrun. erewrite bind_run by exact Hr.
    erewrite bind_run by exact Hrun2. done.
  - destruct Hmv, Hmv2. split.
    + done.
    + intros j. by rewrite mv_view1.
    + intros j. rewrite mv_own1. destruct (decide (j = idx)) as [->|Hne].
      * rewrite at_idx_eq. lia.
      * by rewrite at_idx_ne, mv_own0, at_idx_ne.
    + intros j. rewrite mv_locked1. destruct (decide (j = idx)) as [->|Hne].
      * by rewrite at_idx_eq.
      * by rewrite at_idx_ne, mv_locked0, at_idx_ne.
    + rewrite mv_sem1, mv_sem0, Ho1. repeat case_decide; lia.
    + by rewrite mv_size1.
    + auto.
    + intros j k Hj Hk. assert (own c1 j ≠ 0).
      { rewrite mv_own0. destruct (decide (j = idx)) as [->|]; [rewrite at_idx_eq; lia|].
        by rewrite at_idx_ne. }
      apply mv_held1; [done|by apply mv_held0|].
      rewrite mv_own1. destruct (decide (j = idx)) as [->|]; [rewrite at_idx_eq; lia|].
      by rewrite at_idx_ne.
Qed.

(** The state after a store: [same], except at the sector written. *)
Record wrote (c c' : cache) (idx : Z) (d : list Z) : Prop := {
  wr_inv : cinv c → cinv c';
  wr_view : ∀ j, view c' j = at_idx idx (Some d) (view c) j;
  wr_own : ∀ j, own c' j = own c j;
  wr_locked : ∀ j, locked c' j = locked c j;
  wr_sem : cache_sem c' = cache_sem c;
  wr_size : size (fs_device c') = size (fs_device c);
  wr_clean : ∀ j, j ≠ idx → clean c j → clean c' j;
  wr_held : ∀ j k, own c j ≠ 0 → slot_of c j = Some k → slot_of c' j = Some k;
}.

Lemma write_session_ok c idx blk d :
  cinv c → 0 ≤ idx < size (fs_device c) → own c idx < u32_max →
  (own c idx = 0 → 0 < cache_sem c) → (blk = true → locked c idx = false) → length d = 512%nat →
  ∃ c', write_session idx blk d c = Ret (tt, c') ∧ wrote c c' idx d.
Proof.
  intros Hinv Hidx Ho Hsem Hblk Hd. pose proof (own_nonneg c idx Hinv).
  destruct (take_ok c idx blk Hinv Hidx Ho Hsem Hblk) as (i & c1 & Hrun & Hs & Hmv).
  pose proof (mv_own _ _ _ _ _ _ Hmv idx) as Ho1. rewrite at_idx_eq in Ho1.
  pose proof (mv_locked _ _ _ _ _ _ Hmv idx) as Hl1. rewrite at_idx_eq in Hl1.
  destruct (write_slot_ok c1 idx i d (mv_inv _ _ _ _ _ _ Hmv) Hs) as
    (s & c2 & Hi & Hv & Hrun2 & Hinv2 & Hv2 & Ho2 & Hl2 & Hs2 & Hz2 & Hc2 & Hso2); [lia|done|].
  destruct (release_ok c2 idx i true blk Hinv2) as (c3 & Hrun3 & Hmv3).
  { by rewrite Hso2. }
  { rewrite Ho2. lia. }
  { intros ->. by rewrite Hl2, Hl1. }
  { rewrite Ho2, Hl2, Hl1. intros E. destruct blk; [done|]. simpl.
    assert (own c idx = 0) as E0 by lia. by rewrite (unlocked_unowned c idx Hinv E0). }
  { by left. }
  exists c3. split.
  { unfold write_session. erewrite bind_run by exact Hrun. by erewrite bind_run by exact Hrun2. }
  destruct Hmv, Hmv3. split.
  - done.
  - intros j. rewrite mv_view1, Hv2. destruct (decide (j = idx)) as [->|].
    + by rewrite !at_idx_eq.
    + by rewrite !at_idx_ne, mv_view0.
  - intros j. rewrite mv_own1. destruct (decide (j = idx)) as [->|].
    + rewrite at_idx_eq, Ho2. lia.
    + by rewrite at_idx_ne, Ho2, mv_own0, at_idx_ne.
  - intros j. rewrite mv_locked1. destruct (decide (j = idx)) as [->|].
    + rewrite at_idx_eq, Hl2, Hl1. destruct blk; [|done]. simpl. by rewrite Hblk.
    + by rewrite at_idx_ne, Hl2, mv_locked0, at_idx_ne.
  - rewrite mv_sem1, Hs2, mv_sem0, Ho2, Ho1. repeat case_decide; lia.
  - by rewrite mv_size1, Hz2.
  - auto.
  - intros j k Hj Hk. assert (own c1 j ≠ 0).
    { rewrite mv_own0. destruct (decide (j = idx)) as [->|]; [rewrite at_idx_eq; lia|].
      by rewrite at_idx_ne. }
    apply mv_held1; [by rewrite Ho2|rewrite Hso2; by apply mv_held0|].
    rewrite mv_own1. destruct (decide (j = idx)) as [->|]; [rewrite at_idx_eq, Ho2; lia|].
    by rewrite at_idx_ne, Ho2.
Qed.

(** Any flush keeps what callers see. *)
Lemma flush_ok c force :
  cinv c → ∃ c', sector_cache_flush force c = Ret (tt, c') ∧ same c c'.
Proof.
  intros Hinv. pose proof (bk_intr _ (ci_books _ Hinv)) as Hic.
  destruct (decide (force = true ∨ timer_ticks c - last_flush_t c > 512)) as [Hf|Hf].
  - destruct (flush_force_ok c Hinv) as (c' & Hrun & Hinv' & _ & Hsz & Hsm & Hobs & _).
    exists c'. split.
    + rewrite <-Hrun. unfold sector_cache_flush, assert_no_intr, bind, gets, assertM, lift, ASSERT.
      rewrite Hic. cbn -[flush_loop Z.to_nat decide]. rewrite !decide_True by auto. done.
    + split; try (intros j; apply (Hobs j)); try done.
      intros j k _. by rewrite (proj1 (proj2 (proj2 (proj2 (Hobs j))))).
  - exists c. split; [|reflexivity].
    unfold sector_cache_flush, assert_no_intr, bind, gets, assertM, lift, ASSERT.
    rewrite Hic. cbn -[flush_loop Z.to_nat decide]. by rewrite decide_False.
Qed.

(** With no handle out, every unit of the semaphore is available. *)
Lemma quiescent_sem c : cinv c → (∀ j, own c j = 0) → cache_sem c = 64.
Proof.
  intros [Hb _ Hs] Ho. rewrite Hs. enough (busy (sectors c) = 0) as -> by done.
  assert (Hall : Forall (λ s, owners s = 0) (sectors c)).
  { apply Forall_lookup. intros i s Hi. destruct (decide (index s = NONE32)) as [E|E].
    - by apply (so_free _ _ (bk_slots _ Hb _ _ Hi)).
    - rewrite <-(Ho (index s)). symmetry. by apply (cached_obs c i s Hb Hi E). }
  clear -Hall. unfold busy. induction Hall as [|s ss Hs0 _ IH]; [done|].
  rewrite filter_cons_False by (intros Hne; by apply Hne). done.
Qed.

(** ** The cache refines an array of sectors *)

(** What a client does to the cache: reads and writes whole sectors; meanwhile
    the write-behind thread runs and others flush. *)
Inductive request : Type :=
| Read (idx : Z)
| Write (idx : Z) (blk : bool) (d : list Z)
| Flush (force : bool)
| WriteBehind.

Definition serve (r : request) : M cache (option (list Z)) :=
  match r with
  | Read idx => let! d := read_session idx in ret (Some d)
  | Write idx blk d => write_session idx blk d;;! ret None
  | Flush force => sector_cache_flush force;;! ret None
  | WriteBehind => write_behind;;! ret None
  end.

Fixpoint serve_all (rs : list request) : M cache (list (option (list Z))) :=
  match rs with
  | [] => ret []
  | r :: rs => let! a := serve r in let! l := serve_all rs in ret (a :: l)
  end.

(** The specification: an array of sectors. *)
Definition array_step (r : request) (a : Z → option (list Z))
    : option (list Z) * (Z → option (list Z)) :=
  match r with
  | Read idx => (a idx, a)
  | Write idx _ d => (None, at_idx idx (Some d) a)
  | Flush _ | WriteBehind => (None, a)
  end.

Fixpoint array_run (rs : list request) (a : Z → option (list Z))
    : list (option (list Z)) * (Z → option (list Z)) :=
  match rs with
  | [] => ([], a)
  | r :: rs =>
      let (x, a) := array_step r a in
      let (xs, a) := array_run rs a in (x :: xs, a)
  end.

Definition valid_request (size : Z) (r : request) : Prop :=
  match r with
  | Read idx => 0 ≤ idx < size
  | Write idx _ d => 0 ≤ idx < size ∧ length d = 512%nat
  | Flush _ | WriteBehind => True
  end.

(** The cache at rest, representing the array [a]. *)
Definition represents (c : cache) (a : Z → option (list Z)) : Prop :=
  cinv c ∧ (∀ j, own c j = 0) ∧ ∀ j, view c j = a j.

Lemma serve_ok r c a :
  represents c a → valid_request (size (fs_device c)) r →
  ∃ c', serve r c = Ret (fst (array_step r a), c') ∧ represents c' (snd (array_step r a)) ∧
    size (fs_device c') = size (fs_device c).
Proof.
  intros (Hinv & Hown & Hview) Hv. pose proof (quiescent_sem c Hinv Hown) as Hsem.
  assert (Hlt : ∀ idx, own c idx < u32_max) by (intros; rewrite Hown; done).
  assert (Hsame : ∀ c', same c c' → represents c' a ∧ size (fs_device c') = size (fs_device c)).
  { intros c' []. split; [|done]. split; [by auto|]. split; intros j; congruence. }
  destruct r as [idx|idx blk d|force|]; simpl in *.
  - destruct (read_session_ok c idx) as (d & c' & Hd & Hrun & Hs); [auto..|lia|].
    exists c'. rewrite (bind_run _ _ _ _ _ Hrun), <-Hview, Hd. by auto.
  - destruct Hv as [? ?]. destruct (write_session_ok c idx blk d) as (c' & Hrun & []);
      [auto..|lia| |done|].
    { intros _. by apply unlocked_unowned. }
    exists c'. rewrite (bind_run _ _ _ _ _ Hrun). split; [done|]. split; [|done].
    split; [by auto|]. split; [congruence|]. intros j. rewrite wr_view0.
    unfold at_idx. case_decide; [done|apply Hview].
  - destruct (flush_ok c force Hinv) as (c' & Hrun & Hs).
    exists c'. rewrite (bind_run _ _ _ _ _ Hrun). by auto.
  - set (c1 := set_ticks (timer_ticks c + WRITE_BEHIND_SLEEP_TICKS) c).
    assert (cinv c1) by (destruct Hinv; split; [by apply (books_ext c)|done..]).
    destruct (flush_ok c1 false) as (c' & Hrun & []); [done|].
    assert (Hwb : write_behind c = Ret (tt, c')).
    { unfold write_behind. etransitivity; [|exact Hrun].
      exact (bind_run _ (λ _, sector_cache_flush false) c tt c1 eq_refl). }
    exists c'. rewrite (bind_run _ _ _ _ _ Hwb).
    split; [done|]. split; [|done]. split; [by auto|]. split; intros j.
    + rewrite sm_own0. apply Hown.
    + rewrite sm_view0. apply Hview.
Qed.

(** ** Starting up *)

(** The machine before [cache_init]: a device, and memory for the slots. *)
Record booting (c : cache) : Prop := {
  bt_dev : block_wf (fs_device c);
  bt_len : length (sectors c) = 64%nat;
  bt_hand : 0 ≤ clock_hand c < 64;
  bt_intr : intr_context c = false;
}.

(** [cache_init] leaves the cache at rest, representing the device. *)
Lemma cache_init_ok tid c :
  booting c → tid ≠ 0 →
  ∃ c', cache_init tid c = Ret (tt, c') ∧ fs_device c' = fs_device c ∧
    represents c' (nthZ (contents (fs_device c))).
Proof.
  intros [Hd Hlen Hh Hic] Htid. destruct c as [dev ss lk sem mp fr hand lf tk ic]. simpl in *.
  eexists. split.
  { unfold cache_init, bind, modify, assertM, lift, ASSERT, ret.
    by rewrite bool_decide_true by done. }
  assert (Hlk : ∀ i, (sector_init <$> ss) !! i = sector_init <$> ss !! i)
    by (intros; apply list_lookup_fmap).
  split; [done|]. split; [split|].
  - split; simpl; try done.
    + by rewrite length_fmap.
    + intros idx i. split; [done|]. intros (s & Hi & <- & Hn).
      rewrite Hlk in Hi. destruct (ss !! i); simplify_eq/=.
    + exact (NoDup_seq 0 64).
    + intros i. change (i ∈ seq 0 64 ↔ ∃ s, (sector_init <$> ss) !! i = Some s ∧ index s = NONE32).
      rewrite elem_of_seq, Hlk. split.
      * intros ?. destruct (lookup_lt_is_Some_2 ss i) as [s Hs]; [lia|].
        exists (sector_init s). by rewrite Hs.
      * intros (s & Hi & _). destruct (ss !! i) eqn:E; simplify_eq/=.
        apply lookup_lt_Some in E. lia.
    + intros i s. rewrite Hlk. destruct (ss !! i); intros; simplify_eq/=.
      split; simpl; try done.
  - done.
  - simpl. enough (busy (sector_init <$> ss) = 0) as -> by done.
    unfold busy. clear. induction ss; [done|]. simpl. by rewrite filter_cons_False by auto.
  - done.
Qed.

(** C7: after a forced flush nothing is dirty and the device alone holds every
    sector as callers see it: a machine that boots from that device, with
    whatever was in memory, represents the same array again. *)
Theorem flush_survives_reboot (c boot : cache) (a : Z → option (list Z)) (tid : Z)
    (Hrep : represents c a) (Hboot : booting boot) (Htid : tid ≠ 0) :
  ∃ c', sector_cache_flush true c = Ret (tt, c') ∧ represents c' a ∧
    (∀ i s, sectors c' !! i = Some s → index s ≠ NONE32 → dirty s = false) ∧
    ∃ c2, cache_init tid (set_device (fs_device c') boot) = Ret (tt, c2) ∧ represents c2 a.
Proof.
  destruct Hrep as (Hinv & Hown & Hview).
  destruct (flush_force_ok c Hinv) as (c' & Hrun & Hinv' & _ & _ & _ & Hobs & Hclean & Hdev).
  exists c'. split; [done|]. split; [|split; [done|]].
  { split; [done|]. split; intros j; destruct (Hobs j) as (Hv & Ho & _); congruence. }
  destruct (cache_init_ok tid (set_device (fs_device c') boot)) as (c2 & Hrun2 & _ & Hi & Ho & Hv);
    [|done|].
  { destruct Hboot. split; try done. exact (bk_dev _ (ci_books _ Hinv')). }
  exists c2. split; [done|]. split; [done|]. split; [done|]. intros j. rewrite Hv, <-Hview.
  simpl. rewrite <-(Hdev j); [done|]. by apply clean_unowned.
Qed.

(** C1: whatever sequence of sector reads, sector writes, flushes and turns of
    the write-behind thread is run on the cache at rest, every call returns (no
    assertion fails, the eviction always finds a slot, nothing blocks), the reads
    give what a plain array of sectors would give, and the cache ends at rest
    representing that array's final state. *)
Theorem cache_refines_array (rs : list request) (c : cache) (a : Z → option (list Z))
    (Hrep : represents c a) (Hvalid : Forall (valid_request (size (fs_device c))) rs) :
  ∃ c', serve_all rs c = Ret (fst (array_run rs a), c') ∧ represents c' (snd (array_run rs a)).
Proof.
  revert c a Hrep Hvalid. induction rs as [|r rs IH]; intros c a Hrep Hvalid; simpl.
  { by exists c. }
  apply Forall_cons in Hvalid as [Hr Hrs].
  destruct (serve_ok r c a Hrep Hr) as (c1 & Hrun & Hrep1 & Hsz).
  destruct (array_step r a) as [x a1] eqn:Es. simpl in *.
  destruct (IH c1 a1 Hrep1) as (c2 & Hrun2 & Hrep2); [by rewrite Hsz|].
  destruct (array_run rs a1) as [xs a2] eqn:Er. simpl in *.
  exists c2. by rewrite (bind_run _ _ _ _ _ Hrun), (bind_run _ _ _ _ _ Hrun2).
Qed.

(** A machine with a file system device of three sectors, before start-up. *)
Definition demo_dev : block :=
  mkBlock BLOCK_FILESYS 3 [repeat 1 512; repeat 2 512; repeat 3 512] 0 0.
Definition demo_boot : cache :=
  mkCache demo_dev (repeat (mkSector 7 (repeat 0 512) true 9 true true) 64) true 0 ∅ [] 0 0 0 false.

Lemma demo_booting : booting demo_boot.
Proof. split; try done. split; try done. by repeat constructor. Qed.

Definition demo_cache : cache :=
  match cache_init 3 demo_boot with Ret (_, c) => c | Err _ => demo_boot end.

Lemma demo_represents : represents demo_cache (nthZ (contents demo_dev)).
Proof.
  destruct (cache_init_ok 3 demo_boot demo_booting) as (c & Hrun & _ & Hc); [done|].
  unfold demo_cache. by rewrite Hrun.
Qed.

Example cache_refines_array_witness :
  ∃ c', serve_all [Write 1 true (repeat 5 512); WriteBehind; Flush true; Read 1; Read 2] demo_cache
    = Ret ([None; None; None; Some (repeat 5 512); Some (repeat 3 512)], c').
Proof.
  destruct (cache_refines_array
    [Write 1 true (repeat 5 512); WriteBehind; Flush true; Read 1; Read 2]
    demo_cache (nthZ (contents demo_dev)) demo_represents) as (c' & Hrun & _).
  - repeat constructor; done.
  - exists c'. exact Hrun.
Defined.

Example flush_survives_reboot_witness :
  ∃ c', sector_cache_flush true demo_cache = Ret (tt, c') ∧
    represents c' (nthZ (contents demo_dev)).
Proof.
  destruct (flush_survives_reboot demo_cache demo_boot (nthZ (contents demo_dev)) 3
    demo_represents demo_booting) as (c' & Hrun & Hc & _); [done|].
  by exists c'.
Defined.

