(* ===== verification/Handles.v ===== *)
(** The protocol of the cache's handles, as inode.c uses it: take a sector,
    load and store its bytes while other handles come and go, release it. *)
From S2P Require Import Prelude Block Cache.
Local Open Scope Z_scope.

(** [k] more handles can be taken, of any sectors. *)
Record ready (c : cache) (k : Z) : Prop := {
  rd_inv : cinv c;
  rd_sem : k ≤ cache_sem c;
  rd_own : ∀ j, own c j + k ≤ u32_max;
}.

(** Between [c] and [c'] the handles are the same; contents may have changed. *)
Record steady (c c' : cache) : Prop := {
  st_inv : cinv c → cinv c';
  st_own : ∀ j, own c' j = own c j;
  st_locked : ∀ j, locked c' j = locked c j;
  st_sem : cache_sem c' = cache_sem c;
  st_size : size (fs_device c') = size (fs_device c);
  st_held : ∀ j k, own c j ≠ 0 → slot_of c j = Some k → slot_of c' j = Some k;
}.

#[export] Instance steady_preorder : PreOrder steady.
Proof.
  split; [by split|]. intros c1 c2 c3 [I1 O1 L1 S1 Z1 H1] [I2 O2 L2 S2 Z2 H2].
  split; intros; try congruence; auto. apply H2; [by rewrite O1|by apply H1].
Qed.

Lemma same_steady c c' : same c c' → steady c c'.
Proof. intros []. by split. Qed.

Lemma ready_steady c c' k : ready c k → steady c c' → ready c' k.
Proof. intros [] []. split; [auto|lia|intros j; rewrite st_own0; auto]. Qed.

Lemma ready_le c k k' : ready c k → k' ≤ k → ready c k'.
Proof. intros [? ? Ho] ?. split; [done|lia|]. intros j. specialize (Ho j). lia. Qed.

(** [c1] has one handle more than [c]: that of sector [idx], in slot [i]. *)
Record held (c c1 : cache) (idx : Z) (blk : bool) (i : nat) : Prop := {
  hd_base : cinv c;
  hd_inv : cinv c1;
  hd_slot : slot_of c1 idx = Some i;
  hd_own : ∀ j, own c1 j = at_idx idx (own c idx + 1) (own c) j;
  hd_locked : ∀ j, locked c1 j = at_idx idx (blk || locked c idx) (locked c) j;
  hd_free : blk = true → locked c idx = false;
  hd_sem : cache_sem c1 = cache_sem c - if decide (own c idx = 0) then 1 else 0;
  hd_size : size (fs_device c1) = size (fs_device c);
  hd_held : ∀ j k, own c j ≠ 0 → slot_of c j = Some k → slot_of c1 j = Some k;
}.

Lemma held_own_pos c c1 idx blk i : held c c1 idx blk i → 0 < own c1 idx.
Proof.
  intros []. rewrite hd_own0, at_idx_eq. pose proof (own_nonneg c idx hd_base0). lia.
Qed.

Lemma held_ready c c1 idx blk i k : held c c1 idx blk i → ready c (k + 1) → ready c1 k.
Proof.
  intros [] [? ? Ho]. split; [done|case_decide; lia|].
  intros j. rewrite hd_own0. unfold at_idx. specialize (Ho j).
  destruct (decide (j = idx)); subst; lia.
Qed.

Lemma held_steady c c1 c1' idx blk i :
  held c c1 idx blk i → steady c1 c1' → held c c1' idx blk i.
Proof.
  intros Hh Hs. pose proof (held_own_pos _ _ _ _ _ Hh). destruct Hh, Hs.
  assert (∀ j, own c j ≠ 0 → own c1 j ≠ 0).
  { intros j. rewrite hd_own0. unfold at_idx. pose proof (own_nonneg c j hd_base0).
    destruct (decide (j = idx)); subst; lia. }
  split; intros; try congruence; auto. apply st_held0; [lia|done].
Qed.

Lemma take_held c idx blk k :
  ready c (k + 1) → 0 ≤ k → 0 ≤ idx < size (fs_device c) → (blk = true → locked c idx = false) →
  ∃ i c1, take_sector idx blk c = Ret (i, c1) ∧ held c c1 idx blk i ∧
    (∀ j, view c1 j = view c j) ∧ (∀ j, clean c j → clean c1 j).
Proof.
  intros [Hinv Hsem Ho] Hk Hidx Hblk. pose proof (Ho idx).
  destruct (take_ok c idx blk) as (i & c1 & Hrun & Hs & [Mi Mv Mo Ml Ms Mz Mc Mh]);
    [done..|lia|lia|done|].
  exists i, c1. split; [done|]. split; [|by split].
  split; try done.
  - rewrite Ms. repeat case_decide; lia.
  - intros j k' Hj Hk'. apply Mh; [done..|]. rewrite Mo. unfold at_idx.
    pose proof (own_nonneg c j Hinv). destruct (decide (j = idx)); subst; lia.
Qed.

Lemma held_load c c1 idx blk i :
  held c c1 idx blk i → ∃ s, slot i c1 = Ret (s, c1) ∧ view c1 idx = Some (data s).
Proof.
  intros []. destruct (read_slot_ok c1 idx i) as (s & ? & ? & _); [done..|]. eauto.
Qed.

Lemma held_store c c1 idx blk i d :
  held c c1 idx blk i → length d = 512%nat →
  ∃ c2, upd_slot i (set_data d) c1 = Ret (tt, c2) ∧ steady c1 c2 ∧
    (∀ j, view c2 j = at_idx idx (Some d) (view c1) j) ∧
    (∀ j, j ≠ idx → clean c1 j → clean c2 j).
Proof.
  intros Hh Hd. pose proof (held_own_pos _ _ _ _ _ Hh). destruct Hh.
  destruct (write_slot_ok c1 idx i d) as
    (s & c2 & Hi & Hv & Hrun & Hinv2 & Hv2 & Ho2 & Hl2 & Hs2 & Hz2 & Hc2 & Hso2); [done..|lia|done|].
  exists c2. split; [done|]. split; [|done]. split; try done. intros. by rewrite Hso2.
Qed.

Lemma held_release c c1 idx blk i changed :
  held c c1 idx blk i → (own c idx = 0 → changed = true ∨ clean c1 idx) →
  ∃ c2, release_sector i idx changed blk c1 = Ret (tt, c2) ∧ steady c c2 ∧
    (∀ j, view c2 j = view c1 j) ∧ (∀ j, clean c1 j → clean c2 j).
Proof.
  intros Hh Hcl. pose proof (held_own_pos _ _ _ _ _ Hh) as Hpos. destruct Hh.
  assert (Hul : own c idx = 0 → locked c idx = false) by (by apply unlocked_unowned).
  pose proof (hd_own0 idx) as Eo. rewrite at_idx_eq in Eo.
  pose proof (hd_locked0 idx) as El. rewrite at_idx_eq in El.
  destruct (release_ok c1 idx i changed blk) as (c2 & Hrun & [Mi Mv Mo Ml Ms Mz Mc Mh]);
    try done.
  { intros ->. by rewrite El. }
  { intros E. rewrite El, Hul by lia. by destruct blk. }
  { intros E. apply Hcl. lia. }
  exists c2. split; [done|]. split; [|by split].
  assert (Hown : ∀ j, own c2 j = own c j).
  { intros j. rewrite Mo. destruct (decide (j = idx)) as [->|].
    - rewrite at_idx_eq. lia.
    - by rewrite at_idx_ne, hd_own0, at_idx_ne. }
  split; try done; [|..|congruence|].
  - intros j. rewrite Ml. destruct (decide (j = idx)) as [->|].
    + rewrite at_idx_eq, El. destruct blk; [by rewrite hd_free0|done].
    + by rewrite at_idx_ne, hd_locked0, at_idx_ne.
  - rewrite Ms, hd_sem0. repeat case_decide; lia.
  - intros j k Hj Hk. assert (own c1 j ≠ 0).
    { rewrite hd_own0. pose proof (own_nonneg c j hd_base0). unfold at_idx.
      destruct (decide (j = idx)); subst; lia. }
    apply Mh; [done|by apply hd_held0|by rewrite Hown].
Qed.

(** [c'] differs from [c] at most in the contents of the sectors in [P]. *)
Record touch (P : Z → Prop) (c c' : cache) : Prop := {
  tc_steady : steady c c';
  tc_view : ∀ j, ¬ P j → view c' j = view c j;
  tc_clean : ∀ j, ¬ P j → clean c j → clean c' j;
}.

Lemma touch_refl P c : touch P c c.
Proof. by split. Qed.

Lemma touch_trans P c1 c2 c3 : touch P c1 c2 → touch P c2 c3 → touch P c1 c3.
Proof.
  intros [S1 V1 C1] [S2 V2 C2]. split; [by etrans|..]; intros.
  - by rewrite V2, V1.
  - auto.
Qed.

Lemma touch_mono (P Q : Z → Prop) c c' : touch P c c' → (∀ j, P j → Q j) → touch Q c c'.
Proof. intros [] HPQ. split; [done|..]; intros j Hj; eauto. Qed.

Lemma same_touch P c c' : same c c' → touch P c c'.
Proof. intros Hs. split; [by apply same_steady|..]; destruct Hs; auto. Qed.

(** Nothing a caller can see has changed. *)
Definition idle := touch (λ _, False).

Lemma idle_view c c' j : idle c c' → view c' j = view c j.
Proof. intros [_ Hv _]. auto. Qed.

(** Every sector of the device has contents of 512 bytes. *)
Lemma view_some c j : cinv c → 0 ≤ j < size (fs_device c) → ∃ d, view c j = Some d.
Proof.
  intros [Hb _ _] Hj. unfold view. destruct (cached c j); [eauto|].
  destruct (device_data_some c j Hb Hj) as (d & ? & _). eauto.
Qed.

Lemma view_length c j d : cinv c → view c j = Some d → length d = 512%nat.
Proof.
  intros [Hb _ _]. unfold view. destruct (cached c j) as [s|] eqn:E; intros Hd.
  - destruct (cached_slot _ _ _ Hb E) as (i & _ & Hi & <- & Hn). simplify_eq.
    by apply (so_index _ _ (bk_slots _ Hb _ _ Hi)).
  - pose proof (nthZ_Some _ _ _ Hd). rewrite nthZ_lookup in Hd by lia.
    exact (Forall_lookup_1 _ _ _ _ (bw_sectors _ (bk_dev _ Hb)) Hd).
Qed.

Lemma device_bound c : cinv c → size (fs_device c) < NONE32.
Proof. intros [Hb _ _]. apply (bw_bound _ (bk_dev _ Hb)). Qed.
