(* ===== verification/Fs.v ===== *)
(** The state of the file system of Project5: the sector cache, the objects
    that inode.c, file.c and directory.c allocate, and the globals of
    free-map.c; with the accesses to them and to the words of a sector. *)
From S2P Require Import Prelude Bitmap Block Cache.
Local Open Scope Z_scope.

(** inode.c 43-52 inode, without its place in the list of open inodes *)
Record inode := mkInode {
  i_sector : Z;
  open_cnt : Z;
  removed : bool;
  deny_write_cnt : Z;
  i_is_dir : Z;
  i_length : Z;
}.

(** file.c 8-17 file.  [inode] is an address; the lock is only initialised. *)
Record file := mkFile {
  f_inode : nat;
  f_pos : Z;
  f_deny_write : bool;
  f_is_dir : bool;
}.

(** directory.c 11-16 dir *)
Record dir := mkDir {
  d_inode : nat;
  d_pos : Z;
  dir_lock : bool;
}.

(** The machine: the sector cache with its device; the heaps of each kind of
    object, and the results of the coming calls of malloc and calloc (past the
    end of the list they succeed); [open_inodes] of inode.c 232, front first;
    the globals of free-map.c 9-11; the working directory of the thread. *)
Record fs := mkFs {
  fs_cache : cache;
  inodes : gmap nat inode;
  files : gmap nat file;
  dirs : gmap nat dir;
  bufs : gmap nat (list Z);
  next : nat;
  mallocs : list bool;
  open_inodes : list nat;
  free_map : bitmap;
  free_map_file : option nat;
  free_map_lock : bool;
  pwd : option nat;
}.

Definition set_cache (x : cache) (s : fs) : fs :=
  mkFs x (inodes s) (files s) (dirs s) (bufs s) (next s) (mallocs s) (open_inodes s)
    (free_map s) (free_map_file s) (free_map_lock s) (pwd s).
Definition set_inodes (x : gmap nat inode) (s : fs) : fs :=
  mkFs (fs_cache s) x (files s) (dirs s) (bufs s) (next s) (mallocs s) (open_inodes s)
    (free_map s) (free_map_file s) (free_map_lock s) (pwd s).
Definition set_files (x : gmap nat file) (s : fs) : fs :=
  mkFs (fs_cache s) (inodes s) x (dirs s) (bufs s) (next s) (mallocs s) (open_inodes s)
    (free_map s) (free_map_file s) (free_map_lock s) (pwd s).
Definition set_dirs (x : gmap nat dir) (s : fs) : fs :=
  mkFs (fs_cache s) (inodes s) (files s) x (bufs s) (next s) (mallocs s) (open_inodes s)
    (free_map s) (free_map_file s) (free_map_lock s) (pwd s).
Definition set_bufs (x : gmap nat (list Z)) (s : fs) : fs :=
  mkFs (fs_cache s) (inodes s) (files s) (dirs s) x (next s) (mallocs s) (open_inodes s)
    (free_map s) (free_map_file s) (free_map_lock s) (pwd s).
Definition set_next (x : nat) (s : fs) : fs :=
  mkFs (fs_cache s) (inodes s) (files s) (dirs s) (bufs s) x (mallocs s) (open_inodes s)
    (free_map s) (free_map_file s) (free_map_lock s) (pwd s).
Definition set_mallocs (x : list bool) (s : fs) : fs :=
  mkFs (fs_cache s) (inodes s) (files s) (dirs s) (bufs s) (next s) x (open_inodes s)
    (free_map s) (free_map_file s) (free_map_lock s) (pwd s).
Definition set_open_inodes (x : list nat) (s : fs) : fs :=
  mkFs (fs_cache s) (inodes s) (files s) (dirs s) (bufs s) (next s) (mallocs s) x
    (free_map s) (free_map_file s) (free_map_lock s) (pwd s).
Definition set_free_map (x : bitmap) (s : fs) : fs :=
  mkFs (fs_cache s) (inodes s) (files s) (dirs s) (bufs s) (next s) (mallocs s) (open_inodes s)
    x (free_map_file s) (free_map_lock s) (pwd s).
Definition set_free_map_file (x : option nat) (s : fs) : fs :=
  mkFs (fs_cache s) (inodes s) (files s) (dirs s) (bufs s) (next s) (mallocs s) (open_inodes s)
    (free_map s) x (free_map_lock s) (pwd s).
Definition set_free_map_lock (x : bool) (s : fs) : fs :=
  mkFs (fs_cache s) (inodes s) (files s) (dirs s) (bufs s) (next s) (mallocs s) (open_inodes s)
    (free_map s) (free_map_file s) x (pwd s).

Definition on_cache {A} (m : M cache A) : M fs A := zoom fs_cache set_cache m.

(** ** Pointers *)

(** The object behind a pointer; [None] is the null pointer. *)
Definition deref (p : option nat) : M fs nat := lift (or_fault p).
Definition get_inode (p : nat) : M fs inode := λ s,
  let* x := or_fault (inodes s !! p) in Ret (x, s).
Definition get_file (p : nat) : M fs file := λ s,
  let* x := or_fault (files s !! p) in Ret (x, s).
Definition get_dir (p : nat) : M fs dir := λ s,
  let* x := or_fault (dirs s !! p) in Ret (x, s).
Definition put_inode (p : nat) (x : inode) : M fs unit :=
  modify (λ s, set_inodes (<[p := x]> (inodes s)) s).
Definition put_file (p : nat) (x : file) : M fs unit :=
  modify (λ s, set_files (<[p := x]> (files s)) s).
Definition put_dir (p : nat) (x : dir) : M fs unit :=
  modify (λ s, set_dirs (<[p := x]> (dirs s)) s).
Definition free_inode (p : nat) : M fs unit :=
  modify (λ s, set_inodes (delete p (inodes s)) s).
Definition free_file (p : option nat) : M fs unit :=
  match p with Some p => modify (λ s, set_files (delete p (files s)) s) | None => ret tt end.
Definition free_dir (p : option nat) : M fs unit :=
  match p with Some p => modify (λ s, set_dirs (delete p (dirs s)) s) | None => ret tt end.
Definition free_buf (p : nat) : M fs unit :=
  modify (λ s, set_bufs (delete p (bufs s)) s).

(** malloc and calloc: a fresh address, or the null pointer. *)
Definition malloc : M fs (option nat) := λ s,
  let s' := set_mallocs (tail (mallocs s)) s in
  if default true (head (mallocs s))
  then Ret (Some (next s), set_next (S (next s)) s') else Ret (None, s').

(** Assignments to the fields of a [struct inode]. *)
Definition set_open_cnt (n : Z) (i : inode) : inode :=
  mkInode (i_sector i) n (removed i) (deny_write_cnt i) (i_is_dir i) (i_length i).
Definition set_removed (b : bool) (i : inode) : inode :=
  mkInode (i_sector i) (open_cnt i) b (deny_write_cnt i) (i_is_dir i) (i_length i).
Definition set_deny_write_cnt (n : Z) (i : inode) : inode :=
  mkInode (i_sector i) (open_cnt i) (removed i) n (i_is_dir i) (i_length i).
Definition set_i_length (n : Z) (i : inode) : inode :=
  mkInode (i_sector i) (open_cnt i) (removed i) (deny_write_cnt i) (i_is_dir i) n.
Definition set_f_pos (n : Z) (f : file) : file :=
  mkFile (f_inode f) n (f_deny_write f) (f_is_dir f).
Definition set_f_deny_write (b : bool) (f : file) : file :=
  mkFile (f_inode f) (f_pos f) b (f_is_dir f).
Definition set_f_is_dir (b : bool) (f : file) : file :=
  mkFile (f_inode f) (f_pos f) (f_deny_write f) b.
Definition set_d_pos (n : Z) (d : dir) : dir := mkDir (d_inode d) n (dir_lock d).
Definition set_dir_lock (b : bool) (d : dir) : dir := mkDir (d_inode d) (d_pos d) b.

(** ** Sectors as arrays of words *)

(** The 32-bit word with index [k] of the bytes [d], and an assignment to it. *)
Definition word (d : list Z) (k : Z) : Z := unle32 (sub d (Z.to_nat (4 * k)) 4).
Definition set_word (d : list Z) (k w : Z) : list Z := splice d (Z.to_nat (4 * k)) (le32 w).

(** A 512-byte object in memory: a cached sector, or a block from calloc. *)
Inductive disk_ptr := Cached (slot : nat) | Block (p : nat).

Definition load_disk (p : disk_ptr) : M fs (list Z) :=
  match p with
  | Cached i => let! s := on_cache (slot i) in ret (data s)
  | Block p => λ s, let* d := or_fault (bufs s !! p) in Ret (d, s)
  end.
Definition store_disk (p : disk_ptr) (d : list Z) : M fs unit :=
  match p with
  | Cached i => on_cache (upd_slot i (Cache.set_data d))
  | Block p => modify (λ s, set_bufs (<[p := d]> (bufs s)) s)
  end.
Definition load_word (p : disk_ptr) (k : Z) : M fs Z :=
  let! d := load_disk p in ret (word d k).
Definition store_word (p : disk_ptr) (k w : Z) : M fs unit :=
  let! d := load_disk p in store_disk p (set_word d k w).

(** The [n] bytes from index [ofs] on, and a copy over them; [None] out of range. *)
Definition read_range (d : list Z) (ofs n : Z) : option (list Z) :=
  if decide (0 ≤ ofs ∧ 0 ≤ n ∧ ofs + n ≤ Z.of_nat (length d))
  then Some (sub d (Z.to_nat ofs) (Z.to_nat n)) else None.
Definition write_range (d : list Z) (ofs : Z) (k : list Z) : option (list Z) :=
  if decide (0 ≤ ofs ∧ ofs + Z.of_nat (length k) ≤ Z.of_nat (length d))
  then Some (splice d (Z.to_nat ofs) k) else None.

(** [for (i = from; i < from + n; i++) body (i)] *)
Fixpoint for_up {S} (n : nat) (from : Z) (body : Z → M S unit) : M S unit :=
  match n with
  | O => ret tt
  | S n => body from;;! for_up n (from + 1) body
  end.
