(* ===== verification/Inode.v ===== *)
(** Inodes: filesys/inode.c of Project5, as it is compiled (FILESYS and
    CACHE_H defined).  The free map, which inode.c calls and which calls back
    into inode.c to write its file, is the interface [FreeMapOps]. *)
From S2P Require Import Prelude Bitmap Block Cache Fs.
Local Open Scope Z_scope.

(** What inode.c uses of free-map.c. *)
Class FreeMapOps : Type := {
  (** [free_map_allocate (cnt, &sector)]: the sector it stores, if it succeeds *)
  free_map_allocate : Z → M fs (option Z);
  free_map_release : Z → Z → M fs unit;
}.

(** inode.c 12 INODE_MAGIC *)
Definition INODE_MAGIC : Z := 1229868868.
(** inode.c 14 ON_INODE_DIR_SIZE *)
Definition ON_INODE_DIR_SIZE : Z := 125.
(** inode.c 15 REDIRECTION_LEVEL *)
Definition REDIRECTION_LEVEL : nat := 3.

(** inode.c 19-32 inode_disk: the words of a sector that its fields are. *)
Definition LENGTH_WORD : Z := 0.
Definition MAGIC_WORD : Z := 1.
Definition FLAGS_WORD : Z := 2.
Definition dir_word (k : Z) : Z := 3 + k.

(** inode.c 36-40 bytes_to_sectors *)
Definition bytes_to_sectors (size : Z) : Z :=
  u32 (Z.quot (s32 (size + BLOCK_SECTOR_SIZE - 1)) BLOCK_SECTOR_SIZE).

(** inode.c 56-66 get_sector_handle *)
Definition get_sector_handle (sector_id : Z) (block : bool) : M fs (option nat) :=
  if decide (sector_id = NONE32) then ret None
  else let! i := on_cache (take_sector sector_id block) in ret (Some i).

(** inode.c 67-76 release_sector_handle *)
Definition release_sector_handle (sector_id : Z) (handle : option nat) (made_dirty blocked : bool)
    : M fs unit :=
  if decide (sector_id = NONE32) then ret tt
  else match handle with
       | None => ret tt
       | Some i => on_cache (release_sector i sector_id made_dirty blocked)
       end.

(** inode.c 77-83 get_sector_data.  The null pointer only fails when the
    address computed from it is accessed. *)
Definition get_sector_data (handle : option nat) : option disk_ptr := Cached <$> handle.
Definition at_ptr (p : option disk_ptr) : M fs disk_ptr := lift (or_fault p).

(** inode.c 87-91 get_redirection_ids, the loop: the ids and what is left of
    the index *)
Fixpoint split_index (n : nat) (index : Z) : list Z * Z :=
  match n with
  | O => ([], index)
  | S n => let '(ids, rest) := split_index n (index / 128) in (ids ++ [index mod 128], rest)
  end.

(** inode.c 85-95 get_redirection_ids *)
Definition get_redirection_ids (index : Z) : option (list Z) :=
  let '(ids, rest) := split_index REDIRECTION_LEVEL index in
  if decide (rest > 0) then None
  else if decide (default 0 (head ids) >= ON_INODE_DIR_SIZE) then None
  else Some ids.

(** inode.c 104-113 get_inode_sector, the loop over the ids after the first:
    the sector, its parent and its index there *)
Fixpoint get_levels (ids : list Z) (sector parent index_in_parent : Z) : M fs (Z * Z * Z) :=
  match ids with
  | [] => ret (sector, parent, index_in_parent)
  | id :: ids =>
      let! handle := get_sector_handle sector false in
      match handle with
      | None => ret (NONE32, parent, index_in_parent)
      | Some _ =>
          let! data := at_ptr (get_sector_data handle) in
          let! next_sector := load_word data id in
          release_sector_handle sector handle false false;;!
          get_levels ids next_sector sector id
      end
  end.

(** inode.c 97-115 get_inode_sector.  The results through [parent] and
    [index_in_parent] are always computed. *)
Definition get_inode_sector (inode : disk_ptr) (index : Z) : M fs (Z * Z * Z) :=
  match get_redirection_ids index with
  | Some (id0 :: ids) =>
      let! sector := load_word inode (dir_word id0) in
      get_levels ids sector NONE32 id0
  | _ => ret (NONE32, NONE32, 0)
  end.

(** inode.c 206-228 byte_to_sector *)
Definition byte_to_sector (inode : nat) (pos : Z) (ignore_length : bool) : M fs Z :=
  let! i := get_inode inode in
  if decide (ignore_length = true ∨ pos < i_length i) then
    let main_sector := i_sector i in
    let! handle := get_sector_handle main_sector false in
    let! data := at_ptr (get_sector_data handle) in
    let! '(seek, _, _) := get_inode_sector data (u32 (Z.quot pos BLOCK_SECTOR_SIZE)) in
    release_sector_handle main_sector handle false false;;!
    ret seek
  else ret NONE32.

Section inode.
Context `{FreeMapOps}.

(** inode.c 129-153 allocate_inode_sector, the loop over the ids after the
    first; [None] where it returns false *)
Fixpoint allocate_levels (ids : list Z) (sector : Z) (last_sector_newly_allocated : bool)
    : M fs (option (Z * bool)) :=
  match ids with
  | [] => ret (Some (sector, last_sector_newly_allocated))
  | id :: ids =>
      let! handle := get_sector_handle sector true in
      match handle with
      | None => ret None
      | Some _ =>
          let! data := at_ptr (get_sector_data handle) in
          whenM last_sector_newly_allocated (for_up 128 0 (λ j, store_word data j NONE32));;!
          let! next_sector := load_word data id in
          if decide (next_sector = NONE32) then
            let! new := free_map_allocate 1 in
            match new with
            | None =>
                release_sector_handle sector handle false true;;!
                ret None
            | Some n =>
                store_word data id n;;!
                let! next_sector := load_word data id in
                release_sector_handle sector handle true true;;!
                allocate_levels ids next_sector true
            end
          else
            release_sector_handle sector handle false true;;!
            allocate_levels ids next_sector false
      end
  end.

(** inode.c 154-161 allocate_inode_sector, clearing a new data sector *)
Definition clear_sector (sector : Z) : M fs bool :=
  let! handle := get_sector_handle sector true in
  match handle with
  | None => ret false
  | Some _ =>
      let! data := at_ptr (get_sector_data handle) in
      for_up 128 0 (λ i, store_word data i 0);;!
      release_sector_handle sector handle true true;;!
      ret true
  end.

(** inode.c 129-163 allocate_inode_sector, below the directory of the inode *)
Definition allocate_below (ids : list Z) (sector : Z) (fresh : bool) : M fs bool :=
  let! r := allocate_levels ids sector fresh in
  match r with
  | None => ret false
  | Some (sector, fresh) => if (fresh : bool) then clear_sector sector else ret true
  end.

(** inode.c 116-163 allocate_inode_sector.  [return (-1)] of a function that
    returns a bool returns true. *)
Definition allocate_inode_sector (inode : disk_ptr) (index : Z) : M fs bool :=
  match get_redirection_ids index with
  | Some (id0 :: ids) =>
      let! sector := load_word inode (dir_word id0) in
      if decide (sector = NONE32) then
        let! new := free_map_allocate 1 in
        match new with
        | None => ret false
        | Some n =>
            store_word inode (dir_word id0) n;;!
            let! sector := load_word inode (dir_word id0) in
            allocate_below ids sector true
        end
      else allocate_below ids sector false
  | _ => ret true
  end.

(** inode.c 165-179 inode_dir_cleanup_clean_level, at [depth] levels above the
    data sectors: [level] is [REDIRECTION_LEVEL - depth] *)
Fixpoint inode_dir_cleanup_clean_level (depth : nat) (sector : Z) : M fs unit :=
  if decide (sector ≠ NONE32) then
    match depth with
    | O => ret tt
    | S depth =>
        let! handle := get_sector_handle sector true in
        match handle with
        | None => ret tt
        | Some _ =>
            let! data := at_ptr (get_sector_data handle) in
            for_up 128 0 (λ i,
              let! child := load_word data i in
              inode_dir_cleanup_clean_level depth child);;!
            release_sector_handle sector handle false true
        end
    end;;!
    free_map_release sector 1
  else ret tt.

(** inode.c 180-186 inode_dir_cleanup *)
Definition inode_dir_cleanup (inode : disk_ptr) : M fs unit :=
  for_up (Z.to_nat ON_INODE_DIR_SIZE) 0 (λ i,
    let! sector := load_word inode (dir_word i) in
    inode_dir_cleanup_clean_level (REDIRECTION_LEVEL - 1) sector;;!
    store_word inode (dir_word i) NONE32).

(** inode.c 187-203 deallocate_inode_sector *)
Definition deallocate_inode_sector (inode : disk_ptr) (index : Z) : M fs unit :=
  let! '(sector, parent, index_in_parent) := get_inode_sector inode index in
  if decide (sector ≠ NONE32) then
    free_map_release sector 1;;!
    if decide (parent ≠ NONE32) then
      let! handle := get_sector_handle parent true in
      match handle with
      | None => ret tt
      | Some _ =>
          let! data := at_ptr (get_sector_data handle) in
          store_word data index_in_parent NONE32;;!
          release_sector_handle sector handle true true
      end
    else store_word inode (dir_word index_in_parent) NONE32
  else ret tt.

(** inode.c 235-239 inode_init *)
Definition inode_init : M fs unit := modify (set_open_inodes []).

(** inode.c 284-288 inode_create, and 507-511 of inode_write_at: allocating
    sectors from [ptr] on; the first index that could not be *)
Fixpoint allocate_range (n : nat) (inode : disk_ptr) (ptr : Z) : M fs Z :=
  match n with
  | O => ret ptr
  | S n =>
      let! ok := allocate_inode_sector inode (u32 ptr) in
      if (ok : bool) then allocate_range n inode (ptr + 1) else ret ptr
  end.

(** inode.c 241-301 inode_create *)
Definition inode_create (sector len : Z) (is_dir : bool) : M fs bool :=
  assertM (bool_decide (len >= 0));;!
  let! p := malloc in
  match p with
  | None => ret false
  | Some p =>
      store_disk (Block p) (replicate 512 0);;!
      let disk_inode := Block p in
      let sectors := bytes_to_sectors len in
      store_word disk_inode LENGTH_WORD len;;!
      store_word disk_inode MAGIC_WORD INODE_MAGIC;;!
      store_word disk_inode FLAGS_WORD (if is_dir then 1 else 0);;!
      for_up (Z.to_nat ON_INODE_DIR_SIZE) 0 (λ i, store_word disk_inode (dir_word i) NONE32);;!
      let! ptr := allocate_range (Z.to_nat sectors) disk_inode 0 in
      let success := bool_decide (ptr = sectors) in
      (if (success : bool) then
         let main_sector := sector in
         let! handle := get_sector_handle main_sector true in
         let! data := at_ptr (get_sector_data handle) in
         let! d := load_disk disk_inode in
         store_disk data d;;!
         release_sector_handle main_sector handle true true
       else inode_dir_cleanup disk_inode);;!
      free_buf p;;!
      ret success
  end.

(** inode.c 346-353 inode_reopen *)
Definition inode_reopen (inode : option nat) : M fs (option nat) :=
  match inode with
  | Some p =>
      let! i := get_inode p in
      put_inode p (set_open_cnt (s32 (open_cnt i + 1)) i);;!
      ret inode
  | None => ret None
  end.

(** inode.c 315-324 inode_open, the search for an open inode *)
Fixpoint find_open (l : list nat) (sector : Z) : M fs (option nat) :=
  match l with
  | [] => ret None
  | p :: l =>
      let! i := get_inode p in
      if decide (i_sector i = sector) then ret (Some p) else find_open l sector
  end.

(** inode.c 303-344 inode_open *)
Definition inode_open (sector : Z) : M fs (option nat) :=
  let! l := gets open_inodes in
  let! found := find_open l sector in
  match found with
  | Some p => inode_reopen (Some p)
  | None =>
      let! p := malloc in
      match p with
      | None => ret None
      | Some p =>
          let! handle := get_sector_handle sector true in
          let! data := at_ptr (get_sector_data handle) in
          let! is_dir := load_word data FLAGS_WORD in
          let! len := load_word data LENGTH_WORD in
          release_sector_handle sector handle false true;;!
          modify (λ s, set_open_inodes (p :: open_inodes s) s);;!
          put_inode p (mkInode sector 1 false 0 is_dir (s32 len));;!
          ret (Some p)
      end
  end.

(** inode.c 355-360 inode_get_inumber *)
Definition inode_get_inumber (inode : nat) : M fs Z :=
  let! i := get_inode inode in ret (i_sector i).

(** inode.c 362-396 inode_close *)
Definition inode_close (inode : option nat) : M fs unit :=
  match inode with
  | None => ret tt
  | Some p =>
      let! i := get_inode p in
      let i := set_open_cnt (s32 (open_cnt i - 1)) i in
      put_inode p i;;!
      if decide (open_cnt i = 0) then
        modify (λ s, set_open_inodes (filter (.≠ p) (open_inodes s)) s);;!
        whenM (removed i) (
          let main_sector := i_sector i in
          let! handle := get_sector_handle main_sector true in
          let! data := at_ptr (get_sector_data handle) in
          inode_dir_cleanup data;;!
          release_sector_handle main_sector handle true true;;!
          free_map_release (i_sector i) 1);;!
        free_inode p
      else ret tt
  end.

(** inode.c 398-405 inode_remove *)
Definition inode_remove (inode : option nat) : M fs unit :=
  assertM (bool_decide (inode ≠ None));;!
  let! p := deref inode in
  let! i := get_inode p in
  put_inode p (set_removed true i).

(** inode.c 627-632 inode_length *)
Definition inode_length (inode : nat) : M fs Z :=
  let! i := get_inode inode in ret (i_length i).

(** inode.c 423-429 inode_read_at, and 536-542 of inode_write_at: the bytes to
    copy to or from one sector *)
Definition chunk_of (inode_left sector_ofs size : Z) : Z :=
  let sector_left := BLOCK_SECTOR_SIZE - sector_ofs in
  let min_left := if decide (inode_left < sector_left) then inode_left else sector_left in
  if decide (size < min_left) then size else min_left.

(** inode.c 417-470 inode_read_at, the loop.  The result is the bytes stored
    into the buffer. *)
Fixpoint read_loop (fuel : nat) (inode : nat) (size offset : Z) : M fs (list Z) :=
  match fuel with
  | O => throw OutOfFuel
  | S fuel =>
      if decide (size > 0) then
        let! sector_idx := byte_to_sector inode offset false in
        let sector_ofs := Z.rem offset BLOCK_SECTOR_SIZE in
        let! len := inode_length inode in
        let chunk_size := chunk_of (len - offset) sector_ofs size in
        if decide (chunk_size <= 0) then ret []
        else
          let! handle := get_sector_handle sector_idx false in
          let! bounce := at_ptr (get_sector_data handle) in
          let! d := load_disk bounce in
          let! chunk := lift (or_fault (read_range d sector_ofs chunk_size)) in
          release_sector_handle sector_idx handle false false;;!
          let! rest := read_loop fuel inode (size - chunk_size) (offset + chunk_size) in
          ret (chunk ++ rest)
      else ret []
  end.

(** Enough for the sectors that [size] bytes can touch, and the last test. *)
Definition sectors_fuel (size : Z) : nat := S (S (S (Z.to_nat (size / 512)))).

(** inode.c 407-476 inode_read_at.  The number of bytes returned is the number
    of bytes read. *)
Definition inode_read_at (inode : nat) (size offset : Z) : M fs (list Z) :=
  read_loop (sectors_fuel size) inode size offset.

(** inode.c 530-592 inode_write_at, the loop over the sectors *)
Fixpoint write_loop (fuel : nat) (inode : nat) (buffer : list Z) (inode_cur_length : Z)
    (size offset bytes_written : Z) : M fs Z :=
  match fuel with
  | O => throw OutOfFuel
  | S fuel =>
      if decide (size > 0) then
        let! sector_idx := byte_to_sector inode offset true in
        let sector_ofs := Z.rem offset BLOCK_SECTOR_SIZE in
        let chunk_size := chunk_of (inode_cur_length - offset) sector_ofs size in
        if decide (chunk_size <= 0) then ret bytes_written
        else
          let! handle := get_sector_handle sector_idx false in
          let! bounce := at_ptr (get_sector_data handle) in
          let! chunk := lift (or_fault (read_range buffer bytes_written chunk_size)) in
          let! d := load_disk bounce in
          let! d := lift (or_fault (write_range d sector_ofs chunk)) in
          store_disk bounce d;;!
          release_sector_handle sector_idx handle true false;;!
          write_loop fuel inode buffer inode_cur_length (size - chunk_size) (offset + chunk_size)
            (bytes_written + chunk_size)
      else ret bytes_written
  end.

(** inode.c 495-528 inode_write_at, growing the file: [None] where it returns
    0, or else whether the file grew *)
Definition grow_file (main_sector : Z) (main_handle : option nat) (len min_size : Z)
    : M fs (option bool) :=
  let start := bytes_to_sectors len in
  let end_ := bytes_to_sectors min_size in
  if decide (len < min_size) then
    let! data := at_ptr (get_sector_data main_handle) in
    let! ptr := allocate_range (Z.to_nat (end_ - start)) data start in
    if decide (ptr >= end_) then ret (Some true)
    else
      for_up (Z.to_nat (ptr - start)) start (λ ptr, deallocate_inode_sector data (u32 ptr));;!
      release_sector_handle main_sector main_handle true true;;!
      ret None
  else
    release_sector_handle main_sector main_handle true true;;!
    ret (Some false).

(** inode.c 483-605 inode_write_at.  [buffer] is the bytes of the buffer. *)
Definition inode_write_at (inode : nat) (buffer : list Z) (size offset : Z) : M fs Z :=
  let! i := get_inode inode in
  if decide (deny_write_cnt i ≠ 0) then ret 0
  else
    let min_size := s32 (offset + size) in
    let main_sector := i_sector i in
    let! main_handle := get_sector_handle main_sector true in
    let! grown := grow_file main_sector main_handle (i_length i) min_size in
    match grown with
    | None => ret 0
    | Some file_grown =>
        let inode_cur_length := if (file_grown : bool) then min_size else i_length i in
        let! bytes_written :=
          write_loop (sectors_fuel size) inode buffer inode_cur_length size offset 0 in
        whenM file_grown (
          let! data := at_ptr (get_sector_data main_handle) in
          store_word data LENGTH_WORD min_size;;!
          let! len := load_word data LENGTH_WORD in
          let! i := get_inode inode in
          put_inode inode (set_i_length (s32 len) i);;!
          release_sector_handle main_sector main_handle true true);;!
        ret bytes_written
    end.

(** inode.c 607-614 inode_deny_write *)
Definition inode_deny_write (inode : nat) : M fs unit :=
  let! i := get_inode inode in
  let i := set_deny_write_cnt (s32 (deny_write_cnt i + 1)) i in
  put_inode inode i;;!
  assertM (bool_decide (deny_write_cnt i ≤ open_cnt i)).

(** inode.c 616-625 inode_allow_write *)
Definition inode_allow_write (inode : nat) : M fs unit :=
  let! i := get_inode inode in
  assertM (bool_decide (deny_write_cnt i > 0));;!
  assertM (bool_decide (deny_write_cnt i ≤ open_cnt i));;!
  put_inode inode (set_deny_write_cnt (s32 (deny_write_cnt i - 1)) i).

(** inode.c 634-640 inode_is_dir *)
Definition inode_is_dir (inode : option nat) : M fs bool :=
  let! p := deref inode in
  let! i := get_inode p in ret (bool_decide (i_is_dir i ≠ 0)).

(** inode.c 642-647 inode_is_removed *)
Definition inode_is_removed (inode : nat) : M fs bool :=
  let! i := get_inode inode in ret (removed i).

End inode.
