(* ===== verification/InodeTree.v ===== *)
(** The shape of an inode on disk: the tree of sectors that the directory of
    the inode and its two levels of index sectors make, as a function of the
    contents of the sectors. *)
From S2P Require Import Prelude Bitmap Block Cache Handles Fs Inode.
Local Open Scope Z_scope.

(** ** Words of a sector *)
Lemma length_set_word d k w :
  length d = 512%nat → 0 ≤ k < 128 → length (set_word d k w) = 512%nat.
Proof.
  intros Hd ?. unfold set_word. rewrite length_splice; [done|]. rewrite le32_length. lia.
Qed.

Lemma word_set_eq d k w :
  length d = 512%nat → 0 ≤ k < 128 → 0 ≤ w < 4294967296 → word (set_word d k w) k = w.
Proof.
  intros Hd ??. unfold word, set_word. rewrite <-(unle32_le32 w) at 2 by done. f_equal.
  apply list_eq. intros i. destruct (decide (i < 4)%nat).
  - rewrite lookup_sub by done. rewrite lookup_splice_new by (rewrite ?le32_length; lia).
    f_equal. lia.
  - unfold sub. rewrite lookup_take_ge by lia. symmetry. apply lookup_ge_None.
    rewrite le32_length. lia.
Qed.

Lemma word_set_ne d k k' w :
  length d = 512%nat → 0 ≤ k < 128 → 0 ≤ k' < 128 → k ≠ k' →
  word (set_word d k w) k' = word d k'.
Proof.
  intros Hd ???. unfold word, set_word. f_equal. apply list_eq. intros i.
  destruct (decide (i < 4)%nat).
  - rewrite !lookup_sub by done. rewrite lookup_splice_old by (rewrite ?le32_length; lia). done.
  - unfold sub. by rewrite !lookup_take_ge by lia.
Qed.

Lemma read_range_some d ofs n :
  0 ≤ ofs → 0 ≤ n → ofs + n ≤ Z.of_nat (length d) →
  read_range d ofs n = Some (sub d (Z.to_nat ofs) (Z.to_nat n)).
Proof. intros. unfold read_range. by rewrite decide_True. Qed.

Lemma write_range_some d ofs k :
  0 ≤ ofs → ofs + Z.of_nat (length k) ≤ Z.of_nat (length d) →
  write_range d ofs k = Some (splice d (Z.to_nat ofs) k).
Proof. intros. unfold write_range. by rewrite decide_True. Qed.

(** ** Index arithmetic *)

(** The most sectors an inode can have. *)
Definition MAX_SECTORS : Z := 2048000.

Lemma redirection_ids k :
  0 ≤ k < MAX_SECTORS →
  get_redirection_ids k = Some [k / 16384; k / 128 mod 128; k mod 128].
Proof.
  unfold MAX_SECTORS. intros. unfold get_redirection_ids. simpl.
  rewrite !Z.div_div by lia. change (128 * 128) with 16384. change (16384 * 128) with 2097152.
  rewrite decide_False by mlia. unfold ON_INODE_DIR_SIZE.
  rewrite (Z.mod_small (k / 16384)) by mlia. rewrite decide_False by mlia. reflexivity.
Qed.

Lemma redirection_ids_out k :
  MAX_SECTORS ≤ k → get_redirection_ids k = None.
Proof.
  unfold MAX_SECTORS. intros. unfold get_redirection_ids. simpl.
  rewrite !Z.div_div by lia. change (128 * 128) with 16384. change (16384 * 128) with 2097152.
  case_decide; [done|]. unfold ON_INODE_DIR_SIZE.
  rewrite (Z.mod_small (k / 16384)) by mlia. rewrite decide_True by mlia. done.
Qed.

Lemma bytes_to_sectors_eq len :
  0 ≤ len < 2147483136 → bytes_to_sectors len = (len + 511) / 512.
Proof.
  intros. unfold bytes_to_sectors, BLOCK_SECTOR_SIZE. rewrite s32_small by lia.
  rewrite Z.quot_div_nonneg by lia. rewrite u32_small by mlia. f_equal. lia.
Qed.

(** ** The tree *)
Section tree.
(** The contents of the sectors. *)
Implicit Types v : Z → option (list Z).

(** Word [k] of sector [sec]. *)
Definition wd v (sec k : Z) : Z := match v sec with Some d => word d k | None => NONE32 end.

(** The sectors on the way to data sector [k] of the inode with contents [d]:
    the two index sectors and the data sector. *)
Definition l1 (d : list Z) (k : Z) : Z := word d (dir_word (k / 16384)).
Definition l2 v d (k : Z) : Z := wd v (l1 d k) (k / 128 mod 128).
Definition l3 v d (k : Z) : Z := wd v (l2 v d k) (k mod 128).

(** The inode with contents [d] has [n] data sectors, on a device of [sz]
    sectors. *)
Record tree v (sz : Z) d (n : Z) : Prop := {
  tr_n : 0 ≤ n ≤ MAX_SECTORS;
  tr_l1 : ∀ k, 0 ≤ k < n → 0 ≤ l1 d k < sz;
  tr_l2 : ∀ k, 0 ≤ k < n → 0 ≤ l2 v d k < sz;
  tr_l3 : ∀ k, 0 ≤ k < n → 0 ≤ l3 v d k < sz;
  tr_inj1 : ∀ k k', 0 ≤ k < n → 0 ≤ k' < n → l1 d k = l1 d k' → k / 16384 = k' / 16384;
  tr_inj2 : ∀ k k', 0 ≤ k < n → 0 ≤ k' < n → l2 v d k = l2 v d k' → k / 128 = k' / 128;
  tr_inj3 : ∀ k k', 0 ≤ k < n → 0 ≤ k' < n → l3 v d k = l3 v d k' → k = k';
  tr_sep12 : ∀ k k', 0 ≤ k < n → 0 ≤ k' < n → l1 d k ≠ l2 v d k';
  tr_sep13 : ∀ k k', 0 ≤ k < n → 0 ≤ k' < n → l1 d k ≠ l3 v d k';
  tr_sep23 : ∀ k k', 0 ≤ k < n → 0 ≤ k' < n → l2 v d k ≠ l3 v d k';
  tr_end1 : ∀ k, n ≤ k < MAX_SECTORS → n ≤ 16384 * (k / 16384) → l1 d k = NONE32;
  tr_end2 : ∀ k, n ≤ k < MAX_SECTORS → 16384 * (k / 16384) < n ≤ 128 * (k / 128) →
    l2 v d k = NONE32;
  tr_end3 : ∀ k, n ≤ k < MAX_SECTORS → 128 * (k / 128) < n → l3 v d k = NONE32;
}.

(** The index sectors, the data sectors, and all the sectors of the tree. *)
Definition inner v d n (j : Z) : Prop := ∃ k, 0 ≤ k < n ∧ (j = l1 d k ∨ j = l2 v d k).
Definition leaf v d n (j : Z) : Prop := ∃ k, 0 ≤ k < n ∧ j = l3 v d k.
Definition node v d n (j : Z) : Prop := inner v d n j ∨ leaf v d n j.

Lemma inner_l1 v d n k : 0 ≤ k < n → inner v d n (l1 d k).
Proof. exists k. auto. Qed.
Lemma inner_l2 v d n k : 0 ≤ k < n → inner v d n (l2 v d k).
Proof. exists k. auto. Qed.
Lemma leaf_l3 v d n k : 0 ≤ k < n → leaf v d n (l3 v d k).
Proof. exists k. auto. Qed.

Lemma node_range v sz d n j : tree v sz d n → node v d n j → 0 ≤ j < sz.
Proof.
  intros Ht [(k & Hk & [-> | ->])|(k & Hk & ->)]; [by eapply tr_l1|by eapply tr_l2|by eapply tr_l3].
Qed.

Lemma inner_not_leaf v sz d n j : tree v sz d n → inner v d n j → ¬ leaf v d n j.
Proof.
  intros Ht (k & Hk & Hj) (k' & Hk' & ->). destruct Hj as [E|E]; symmetry in E; revert E.
  - by apply (tr_sep13 _ _ _ _ Ht).
  - by apply (tr_sep23 _ _ _ _ Ht).
Qed.

(** Contents that agree on the index sectors have the same tree. *)
Section frame.
Context (v v' : Z → option (list Z)) (sz : Z) (d : list Z) (n : Z).
Hypothesis Hv : ∀ j, inner v d n j → v' j = v j.

Lemma frame_l2 k : 0 ≤ k < n → l2 v' d k = l2 v d k.
Proof. intros. unfold l2, wd. rewrite Hv; [done|]. by apply inner_l1. Qed.
Lemma frame_l3 k : 0 ≤ k < n → l3 v' d k = l3 v d k.
Proof.
  intros. unfold l3. rewrite frame_l2 by done. unfold wd. rewrite Hv; [done|]. by apply inner_l2.
Qed.
Lemma frame_l2_end k : 0 ≤ k → 16384 * (k / 16384) < n → l2 v' d k = l2 v d k.
Proof.
  intros. unfold l2, wd. rewrite Hv; [done|].
  replace (l1 d k) with (l1 d (16384 * (k / 16384))); [apply inner_l1; mlia|].
  unfold l1. do 2 f_equal. mlia.
Qed.
Lemma frame_l3_end k : 0 ≤ k → 128 * (k / 128) < n → l3 v' d k = l3 v d k.
Proof.
  intros. unfold l3. rewrite frame_l2_end by mlia. unfold wd. rewrite Hv; [done|].
  replace (l2 v d k) with (l2 v d (128 * (k / 128))); [apply inner_l2; mlia|].
  unfold l2, l1. f_equal; [do 2 f_equal; mlia|f_equal; mlia].
Qed.

Lemma frame_inner j : inner v' d n j ↔ inner v d n j.
Proof.
  split; intros (k & Hk & Hj); exists k; (split; [done|]);
    [rewrite <-(frame_l2 k) by done|rewrite (frame_l2 k) by done]; done.
Qed.
Lemma frame_leaf j : leaf v' d n j ↔ leaf v d n j.
Proof.
  split; intros (k & Hk & Hj); exists k; (split; [done|]);
    [rewrite <-(frame_l3 k) by done|rewrite (frame_l3 k) by done]; done.
Qed.
Lemma frame_node j : node v' d n j ↔ node v d n j.
Proof. unfold node. by rewrite frame_inner, frame_leaf. Qed.

Lemma frame_tree : tree v sz d n → tree v' sz d n.
Proof.
  intros []. split; try done.
  - intros. rewrite frame_l2; auto.
  - intros. rewrite frame_l3; auto.
  - intros ????. rewrite !frame_l2; auto.
  - intros ????. rewrite !frame_l3; auto.
  - intros. rewrite frame_l2; auto.
  - intros. rewrite frame_l3; auto.
  - intros. rewrite frame_l2, frame_l3; auto.
  - intros. rewrite frame_l2_end; auto; lia.
  - intros. rewrite frame_l3_end; auto; lia.
Qed.
End frame.

(** ** One more data sector *)
Lemma l1_cong d k k' : k / 16384 = k' / 16384 → l1 d k = l1 d k'.
Proof. unfold l1. by intros ->. Qed.
Lemma l2_cong v d k k' : 0 ≤ k → 0 ≤ k' → k / 128 = k' / 128 → l2 v d k = l2 v d k'.
Proof.
  intros ?? E. unfold l2. rewrite (l1_cong d k k'), E; [done|mlia].
Qed.

Section extend.
Context (v v' : Z → option (list Z)) (sz : Z) (d d' : list Z) (n : Z).
Hypothesis Ht : tree v sz d n.
Hypothesis Hn : n < MAX_SECTORS.
(** The old part is as it was. *)
Hypothesis H1 : ∀ k, 0 ≤ k < n → l1 d' k = l1 d k.
Hypothesis H2 : ∀ k, 0 ≤ k < n → l2 v' d' k = l2 v d k.
Hypothesis H3 : ∀ k, 0 ≤ k < n → l3 v' d' k = l3 v d k.
(** What is new is not part of the old. *)
Definition fresh (j : Z) : Prop := 0 ≤ j < sz ∧ ¬ node v d n j.
Hypothesis F1 : n mod 16384 = 0 → fresh (l1 d' n).
Hypothesis F2 : n mod 128 = 0 → fresh (l2 v' d' n).
Hypothesis F3 : fresh (l3 v' d' n).
Hypothesis D12 : n mod 16384 = 0 → l1 d' n ≠ l2 v' d' n.
Hypothesis D13 : n mod 16384 = 0 → l1 d' n ≠ l3 v' d' n.
Hypothesis D23 : n mod 128 = 0 → l2 v' d' n ≠ l3 v' d' n.
(** Nothing comes after it. *)
Hypothesis E1 : ∀ k, n < k < MAX_SECTORS → n < 16384 * (k / 16384) → l1 d' k = NONE32.
Hypothesis E2 : ∀ k, n < k < MAX_SECTORS → 16384 * (k / 16384) ≤ n < 128 * (k / 128) →
  l2 v' d' k = NONE32.
Hypothesis E3 : ∀ k, n < k < MAX_SECTORS → 128 * (k / 128) ≤ n → l3 v' d' k = NONE32.

(** Each index sector is an old one with the same role, or new. *)
Lemma ext_l1 k : 0 ≤ k < n + 1 →
  (∃ k0, 0 ≤ k0 < n ∧ k0 / 16384 = k / 16384 ∧ l1 d' k = l1 d k0) ∨
  (k = n ∧ n mod 16384 = 0 ∧ fresh (l1 d' k)).
Proof.
  intros Hk. destruct (decide (k = n)) as [->|]; [|left; exists k; rewrite H1 by lia; auto with lia].
  destruct (decide (n mod 16384 = 0)) as [E|E]; [right; auto|left].
  exists (n - 1). split; [mlia|]. split; [mlia|]. rewrite <-H1 by mlia. apply l1_cong. mlia.
Qed.
Lemma ext_l2 k : 0 ≤ k < n + 1 →
  (∃ k0, 0 ≤ k0 < n ∧ k0 / 128 = k / 128 ∧ l2 v' d' k = l2 v d k0) ∨
  (k = n ∧ n mod 128 = 0 ∧ fresh (l2 v' d' k)).
Proof.
  intros Hk. destruct (decide (k = n)) as [->|]; [|left; exists k; rewrite H2 by lia; auto with lia].
  destruct (decide (n mod 128 = 0)) as [E|E]; [right; auto|left].
  exists (n - 1). split; [mlia|]. split; [mlia|]. rewrite <-H2 by mlia. apply l2_cong; mlia.
Qed.
Lemma ext_l3 k : 0 ≤ k < n + 1 →
  (0 ≤ k < n ∧ l3 v' d' k = l3 v d k) ∨ (k = n ∧ fresh (l3 v' d' k)).
Proof.
  intros Hk. destruct (decide (k = n)) as [->|]; [by right|left]. rewrite H3 by lia. split; [lia|done].
Qed.

Lemma fresh_ne j j' : node v d n j → fresh j' → j ≠ j'.
Proof. intros Hj [_ Hf] ->. done. Qed.
Lemma fresh_ne' j j' : node v d n j → fresh j' → j' ≠ j.
Proof. intros Hj [_ Hf] ->. done. Qed.
Lemma node_l1 k : 0 ≤ k < n → node v d n (l1 d k).
Proof. left. by apply inner_l1. Qed.
Lemma node_l2 k : 0 ≤ k < n → node v d n (l2 v d k).
Proof. left. by apply inner_l2. Qed.
Lemma node_l3 k : 0 ≤ k < n → node v d n (l3 v d k).
Proof. right. by apply leaf_l3. Qed.
Hint Resolve fresh_ne fresh_ne' node_l1 node_l2 node_l3 : core.

(** [k] and [k'] are old or new. *)
Ltac old_or_new X Y :=
  intros k k' Hk Hk'; revert Hk Hk'; intros [(a & Ha & Ea & ->)|(-> & Hm & Ff)]%X [(b & Hb & Eb & ->)|(-> & Hm' & Ff')]%Y.

Lemma tree_extend : tree v' sz d' (n + 1).
Proof.
  pose proof (tr_n _ _ _ _ Ht) as Hn0.
  split.
  - lia.
  - intros k [(a & Ha & _ & ->)|(_ & _ & [? _])]%ext_l1; [by apply (tr_l1 _ _ _ _ Ht)|done].
  - intros k [(a & Ha & _ & ->)|(_ & _ & [? _])]%ext_l2; [by apply (tr_l2 _ _ _ _ Ht)|done].
  - intros k [[Ha ->]|(_ & [? _])]%ext_l3; [by apply (tr_l3 _ _ _ _ Ht)|done].
  - old_or_new ext_l1 ext_l1; intros E; [|exfalso; revert E; first [apply fresh_ne; by auto|apply fresh_ne'; by auto]..|done].
    apply (tr_inj1 _ _ _ _ Ht) in E; lia.
  - old_or_new ext_l2 ext_l2; intros E; [|exfalso; revert E; first [apply fresh_ne; by auto|apply fresh_ne'; by auto]..|done].
    apply (tr_inj2 _ _ _ _ Ht) in E; lia.
  - intros k k' [[Ha ->]|(-> & Ff)]%ext_l3 [[Hb ->]|(-> & Ff')]%ext_l3 E;
      [by apply (tr_inj3 _ _ _ _ Ht) in E|exfalso; revert E; first [apply fresh_ne; by auto|apply fresh_ne'; by auto]..|done].
  - old_or_new ext_l1 ext_l2; [by apply (tr_sep12 _ _ _ _ Ht)|auto..].
  - intros k k' [(a & Ha & _ & ->)|(-> & Hm & Ff)]%ext_l1 [[Hb ->]|(-> & Ff')]%ext_l3;
      [by apply (tr_sep13 _ _ _ _ Ht)|auto..].
  - intros k k' [(a & Ha & _ & ->)|(-> & Hm & Ff)]%ext_l2 [[Hb ->]|(-> & Ff')]%ext_l3;
      [by apply (tr_sep23 _ _ _ _ Ht)|auto..].
  - intros k ??. apply E1; lia.
  - intros k ??. apply E2; lia.
  - intros k ??. apply E3; lia.
Qed.

Lemma extend_node j :
  node v' d' (n + 1) j ↔ node v d n j ∨ j = l1 d' n ∨ j = l2 v' d' n ∨ j = l3 v' d' n.
Proof.
  pose proof (tr_n _ _ _ _ Ht). split.
  - intros [(k & Hk & Hj)|(k & Hk & Hj)].
    + destruct (decide (k = n)) as [->|]; [tauto|]. left; left. exists k.
      rewrite H1, H2 in Hj by lia. auto with lia.
    + destruct (decide (k = n)) as [->|]; [tauto|]. left; right. exists k.
      rewrite H3 in Hj by lia. auto with lia.
  - intros [[(k & Hk & Hj)|(k & Hk & Hj)]|[Hj|[Hj|Hj]]].
    + left. exists k. rewrite H1, H2 by lia. auto with lia.
    + right. exists k. rewrite H3 by lia. auto with lia.
    + left. exists n. auto with lia.
    + left. exists n. auto with lia.
    + right. exists n. auto with lia.
Qed.
End extend.

(** What [allocate_inode_sector] does to the words of the header and of the two
    index sectors [a] and [b] on the way to data sector [n], which is to be [c]. *)
Section grow.
Context (v v' : Z → option (list Z)) (sz : Z) (d d' : list Z) (n a b c : Z).
Hypothesis Ht : tree v sz d n.
Hypothesis Hn : 0 ≤ n < MAX_SECTORS.
Hypothesis W1 : ∀ i, 0 ≤ i < 125 → word d' (dir_word i) =
  if decide (i = n / 16384) then a else word d (dir_word i).
Hypothesis W2 : ∀ i, 0 ≤ i < 128 → wd v' a i =
  if decide (i = n / 128 mod 128) then b
  else if decide (n mod 16384 = 0) then NONE32 else wd v a i.
Hypothesis W3 : ∀ i, 0 ≤ i < 128 → wd v' b i =
  if decide (i = n mod 128) then c
  else if decide (n mod 128 = 0) then NONE32 else wd v b i.
Hypothesis V : ∀ j, inner v d n j → j ≠ a → j ≠ b → v' j = v j.
Hypothesis Fa : if decide (n mod 16384 = 0) then fresh v sz d n a else a = l1 d n.
Hypothesis Fb : if decide (n mod 128 = 0) then fresh v sz d n b else b = l2 v d n.
Hypothesis Fc : fresh v sz d n c.
Hypothesis Dab : n mod 16384 = 0 → a ≠ b.
Hypothesis Dac : n mod 16384 = 0 → a ≠ c.
Hypothesis Dbc : n mod 128 = 0 → b ≠ c.

Lemma grow_a_old : n mod 16384 ≠ 0 → a = l1 d n.
Proof. intros. revert Fa. by rewrite decide_False. Qed.
Lemma grow_b_old : n mod 128 ≠ 0 → b = l2 v d n.
Proof. intros. revert Fb. by rewrite decide_False. Qed.
Lemma grow_a : (n mod 16384 = 0 ∧ fresh v sz d n a) ∨ (n mod 16384 ≠ 0 ∧ a = l1 d (n - 1)).
Proof.
  destruct (decide (n mod 16384 = 0)); [by left|right]. split; [done|]. rewrite Fa.
  apply l1_cong. mlia.
Qed.
Lemma grow_b : (n mod 128 = 0 ∧ fresh v sz d n b) ∨ (n mod 128 ≠ 0 ∧ b = l2 v d (n - 1)).
Proof.
  destruct (decide (n mod 128 = 0)); [by left|right]. split; [done|]. rewrite Fb.
  apply l2_cong; mlia.
Qed.

Lemma grow_l1_ne k : 0 ≤ k < n → l1 d k ≠ b.
Proof.
  intros Hk. destruct grow_b as [[_ Hf]|[? ->]].
  - by apply (fresh_ne v sz d n); [left; apply inner_l1|].
  - apply (tr_sep12 _ _ _ _ Ht); mlia.
Qed.
Lemma grow_l2_ne k : 0 ≤ k < n → l2 v d k ≠ a.
Proof.
  intros Hk E. destruct grow_a as [[_ Hf]|[? ->]].
  - revert E. by apply (fresh_ne v sz d n); [left; apply inner_l2|].
  - symmetry in E. revert E. apply (tr_sep12 _ _ _ _ Ht); mlia.
Qed.
Lemma grow_l1_a k : 0 ≤ k < n → l1 d k = a → k / 16384 = n / 16384 ∧ n mod 16384 ≠ 0.
Proof.
  intros Hk E. destruct grow_a as [[_ Hf]|[? ->]].
  - exfalso. revert E. by apply (fresh_ne v sz d n); [left; apply inner_l1|].
  - apply (tr_inj1 _ _ _ _ Ht) in E; mlia.
Qed.
Lemma grow_l2_b k : 0 ≤ k < n → l2 v d k = b → k / 128 = n / 128 ∧ n mod 128 ≠ 0.
Proof.
  intros Hk E. destruct grow_b as [[_ Hf]|[? ->]].
  - exfalso. revert E. by apply (fresh_ne v sz d n); [left; apply inner_l2|].
  - apply (tr_inj2 _ _ _ _ Ht) in E; mlia.
Qed.

(** The new header and index sectors, at any position up to the end. *)
Lemma grow_l1 k : 0 ≤ k < MAX_SECTORS →
  l1 d' k = if decide (k / 16384 = n / 16384) then a else l1 d k.
Proof. unfold MAX_SECTORS. intros. unfold l1. rewrite W1 by mlia. done. Qed.
Lemma grow_l1_old k : 0 ≤ k < n → l1 d' k = l1 d k.
Proof.
  intros. rewrite grow_l1 by lia.
  destruct (decide (k / 16384 = n / 16384)) as [E|E]; [|done].
  rewrite grow_a_old by mlia. apply l1_cong; lia.
Qed.
Lemma grow_l1_n : l1 d' n = a.
Proof. rewrite grow_l1 by lia. by rewrite decide_True. Qed.
Lemma grow_l2_at k : 0 ≤ k < MAX_SECTORS → k / 16384 = n / 16384 →
  l2 v' d' k = if decide (k / 128 = n / 128) then b
    else if decide (n mod 16384 = 0) then NONE32 else l2 v d k.
Proof.
  intros Hk E. pose proof grow_a_old as G. unfold l2 at 1. rewrite grow_l1, decide_True, W2 by (done || mlia).
  destruct (decide (k / 128 = n / 128)) as [E2|E2].
  - by rewrite decide_True by (by rewrite E2).
  - rewrite decide_False by mlia. destruct (decide (n mod 16384 = 0)); [done|]. rewrite G by done. unfold l2. by rewrite (l1_cong d k n).
Qed.
Lemma grow_l2_old k : 0 ≤ k < n → l2 v' d' k = l2 v d k.
Proof.
  intros Hk. destruct (decide (l1 d k = a)) as [Ea|Ea].
  - apply grow_l1_a in Ea as [E En]; [|done]. rewrite grow_l2_at by (done || lia).
    rewrite (decide_False (P := n mod 16384 = 0)) by done.
    destruct (decide (k / 128 = n / 128)) as [E2|E2]; [|done].
    rewrite grow_b_old by mlia. apply l2_cong; lia.
  - unfold l2. rewrite grow_l1_old by done. unfold wd. rewrite V; [done| |done|by apply grow_l1_ne].
    by apply inner_l1.
Qed.
Lemma grow_l2_n : l2 v' d' n = b.
Proof. rewrite grow_l2_at by (done || lia). by rewrite decide_True. Qed.
Lemma grow_l3_at k : 0 ≤ k < MAX_SECTORS → k / 128 = n / 128 →
  l3 v' d' k = if decide (k = n) then c
    else if decide (n mod 128 = 0) then NONE32 else l3 v d k.
Proof.
  intros Hk E. pose proof grow_b_old as G. unfold l3 at 1. rewrite grow_l2_at, decide_True, W3 by (done || mlia).
  destruct (decide (k = n)) as [E2|E2].
  - by rewrite decide_True by (by rewrite E2).
  - rewrite decide_False by mlia. destruct (decide (n mod 128 = 0)); [done|]. rewrite G by done. unfold l3. by rewrite (l2_cong v d k n) by (done || lia).
Qed.
Lemma grow_l3_old k : 0 ≤ k < n → l3 v' d' k = l3 v d k.
Proof.
  intros Hk. destruct (decide (l2 v d k = b)) as [Eb|Eb].
  - apply grow_l2_b in Eb as [E En]; [|done]. rewrite grow_l3_at by (done || lia).
    by rewrite !decide_False by lia.
  - unfold l3. rewrite grow_l2_old by done. unfold wd. rewrite V; [done| |by apply grow_l2_ne|done].
    by apply inner_l2.
Qed.
Lemma grow_l3_n : l3 v' d' n = c.
Proof. rewrite grow_l3_at by (done || lia). by rewrite decide_True. Qed.

Lemma grow_tree : tree v' sz d' (n + 1).
Proof.
  apply (tree_extend v v' sz d d' n Ht); rewrite ?grow_l1_n, ?grow_l2_n, ?grow_l3_n; try done.
  - lia.
  - apply grow_l1_old.
  - apply grow_l2_old.
  - apply grow_l3_old.
  - intros E. revert Fa. by rewrite decide_True.
  - intros E. revert Fb. by rewrite decide_True.
  - intros k Hk Hlt. rewrite grow_l1, decide_False by mlia. apply (tr_end1 _ _ _ _ Ht); lia.
  - intros k Hk Hlt. rewrite grow_l2_at by mlia. rewrite decide_False by mlia.
    destruct (decide (n mod 16384 = 0)); [done|]. apply (tr_end2 _ _ _ _ Ht); mlia.
  - intros k Hk Hle. rewrite grow_l3_at by mlia. rewrite decide_False by lia.
    destruct (decide (n mod 128 = 0)); [done|]. apply (tr_end3 _ _ _ _ Ht); mlia.
Qed.

Lemma grow_node j : node v' d' (n + 1) j ↔ node v d n j ∨ j = a ∨ j = b ∨ j = c.
Proof.
  rewrite (extend_node v v' sz d d' n Ht grow_l1_old grow_l2_old grow_l3_old).
  by rewrite grow_l1_n, grow_l2_n, grow_l3_n.
Qed.
End grow.

(** The words of the header that are not the directory do not matter. *)
Section header.
Context (v : Z → option (list Z)) (sz : Z) (d d' : list Z) (n : Z).
Hypothesis Hw : ∀ k, 3 ≤ k < 128 → word d' k = word d k.

Lemma header_l1 k : 0 ≤ k < MAX_SECTORS → l1 d' k = l1 d k.
Proof. unfold MAX_SECTORS. intros. unfold l1. apply Hw. unfold dir_word. mlia. Qed.
Lemma header_l2 k : 0 ≤ k < MAX_SECTORS → l2 v d' k = l2 v d k.
Proof. intros. unfold l2. by rewrite header_l1. Qed.
Lemma header_l3 k : 0 ≤ k < MAX_SECTORS → l3 v d' k = l3 v d k.
Proof. intros. unfold l3. by rewrite header_l2. Qed.

Lemma header_tree : tree v sz d n → tree v sz d' n.
Proof.
  intros [Hn T1 T2 T3 J1 J2 J3 P12 P13 P23 E1 E2 E3].
  split; try done; intros; rewrite ?header_l1, ?header_l2, ?header_l3 in * by lia; eauto.
Qed.

Lemma header_inner j : n ≤ MAX_SECTORS → inner v d' n j ↔ inner v d n j.
Proof.
  intros Hn. split; intros (k & Hk & Hj); exists k; (split; [done|]);
    rewrite ?header_l1, ?header_l2 in * by lia; done.
Qed.
Lemma header_node j : n ≤ MAX_SECTORS → node v d' n j ↔ node v d n j.
Proof.
  intros Hn. unfold node, leaf. rewrite header_inner by done.
  split; (intros [?|(k & Hk & Hj)]; [by left|right; exists k; (split; [done|])]);
    rewrite ?header_l3 in * by lia; done.
Qed.
End header.

(** Byte [p] of the data, and the first [len] bytes. *)
Definition byte_at v d (p : Z) : Z :=
  match v (l3 v d (p / 512)) with Some s => default 0 (s !! Z.to_nat (p mod 512)) | None => 0 end.
Definition bytes_of v d (len : Z) : list Z := byte_at v d <$> seqZ 0 len.

Lemma length_bytes_of v d len : length (bytes_of v d len) = Z.to_nat len.
Proof. unfold bytes_of. by rewrite length_fmap, length_seqZ. Qed.

Lemma lookup_bytes_of v d len p :
  0 ≤ p < len → bytes_of v d len !! Z.to_nat p = Some (byte_at v d p).
Proof.
  intros. unfold bytes_of. rewrite list_lookup_fmap, lookup_seqZ_lt by lia. simpl.
  do 2 f_equal. lia.
Qed.
End tree.
