(* ===== verification/InodeIO.v ===== *)
(** Reading an inode and writing within its length: the loops of
    [inode_read_at] and [inode_write_at] of inode.c against the bytes of the
    file that the tree of sectors represents; and [inode_open], after a reboot. *)
From S2P Require Import Prelude Bitmap Block Cache Handles Fs Inode InodeTree.
Local Open Scope Z_scope.

(** The contents of the sectors, and the number of sectors of the device. *)
Definition sview (s : fs) : Z → option (list Z) := view (fs_cache s).
Definition dsize (s : fs) : Z := size (fs_device (fs_cache s)).

Lemma set_cache_id s : set_cache (fs_cache s) s = s.
Proof. by destruct s. Qed.
Lemma on_cache_run {A} (m : M cache A) s a c :
  m (fs_cache s) = Ret (a, c) → on_cache m s = Ret (a, set_cache c s).
Proof. unfold on_cache, zoom. by intros ->. Qed.

(** ** Running the plain steps *)
Lemma bind_deref {B} p (k : nat → M fs B) s : bind (deref (Some p)) k s = k p s.
Proof. done. Qed.
Lemma bind_at_ptr {B} i (k : disk_ptr → M fs B) s :
  bind (at_ptr (get_sector_data (Some i))) k s = k (Cached i) s.
Proof. done. Qed.

(** Runs the steps that cannot fail; [mrun H] also the call that [H] is about. *)
Ltac msteps := repeat first
  [ rewrite bind_assoc | rewrite bind_gets | rewrite bind_modify | rewrite bind_ret
  | rewrite bind_lift | rewrite bind_deref | rewrite bind_at_ptr ].
Tactic Notation "mrun" constr(H) := msteps; rewrite (bind_run _ _ _ _ _ H); msteps.

(** ** Handles *)
Lemma get_handle_ok s sector blk k :
  ready (fs_cache s) (k + 1) → 0 ≤ k → 0 ≤ sector < dsize s →
  (blk = true → locked (fs_cache s) sector = false) →
  ∃ i c1, get_sector_handle sector blk s = Ret (Some i, set_cache c1 s) ∧
    held (fs_cache s) c1 sector blk i ∧
    (∀ j, view c1 j = view (fs_cache s) j) ∧ (∀ j, clean (fs_cache s) j → clean c1 j).
Proof.
  intros Hr Hk Hsec Hblk. pose proof (device_bound _ (rd_inv _ _ Hr)). unfold dsize in *.
  destruct (take_held (fs_cache s) sector blk k) as (i & c1 & Hrun & Hh & Hv & Hc); [done..|].
  exists i, c1. split; [|done]. unfold get_sector_handle. rewrite decide_False by lia.
  by rewrite (bind_run _ _ _ _ _ (on_cache_run _ _ _ _ Hrun)).
Qed.

Lemma load_disk_ok c s sector blk i :
  held c (fs_cache s) sector blk i →
  ∃ d, view (fs_cache s) sector = Some d ∧ load_disk (Cached i) s = Ret (d, s).
Proof.
  intros Hh. destruct (held_load _ _ _ _ _ Hh) as (x & Hrun & Hv). exists (data x).
  split; [done|]. unfold load_disk. rewrite (bind_run _ _ _ _ _ (on_cache_run _ _ _ _ Hrun)).
  by rewrite set_cache_id.
Qed.

Lemma load_word_run p k s d : load_disk p s = Ret (d, s) → load_word p k s = Ret (word d k, s).
Proof. intros Hl. unfold load_word. by rewrite (bind_run _ _ _ _ _ Hl). Qed.

Lemma store_disk_ok c s sector blk i d :
  held c (fs_cache s) sector blk i → length d = 512%nat →
  ∃ c2, store_disk (Cached i) d s = Ret (tt, set_cache c2 s) ∧ steady (fs_cache s) c2 ∧
    (∀ j, view c2 j = at_idx sector (Some d) (view (fs_cache s)) j) ∧
    (∀ j, j ≠ sector → clean (fs_cache s) j → clean c2 j).
Proof.
  intros Hh Hd. destruct (held_store _ _ _ _ _ d Hh Hd) as (c2 & Hrun & ?).
  exists c2. split; [|done]. by apply on_cache_run.
Qed.

Lemma release_handle_ok c s sector blk i changed :
  held c (fs_cache s) sector blk i → 0 ≤ sector < dsize s →
  (own c sector = 0 → changed = true ∨ clean (fs_cache s) sector) →
  ∃ c2, release_sector_handle sector (Some i) changed blk s = Ret (tt, set_cache c2 s) ∧
    steady c c2 ∧ (∀ j, view c2 j = view (fs_cache s) j) ∧
    (∀ j, clean (fs_cache s) j → clean c2 j).
Proof.
  intros Hh Hsec Hc. pose proof (device_bound _ (hd_inv _ _ _ _ _ Hh)). unfold dsize in *.
  destruct (held_release _ _ _ _ _ changed Hh Hc) as (c2 & Hrun & ?).
  exists c2. split; [|done]. unfold release_sector_handle. rewrite decide_False by lia.
  by apply on_cache_run.
Qed.

(** A sector nobody holds is clean as soon as it is taken. *)
Lemma held_clean c c1 sector blk i :
  held c c1 sector blk i → (∀ j, clean c j → clean c1 j) → own c sector = 0 → clean c1 sector.
Proof. intros Hh Hc Ho. apply Hc, clean_unowned; [by apply Hh|done]. Qed.

(** A handle taken and given back around calls that changed nothing. *)
Lemma held_release_idle s c1 s' sector blk i :
  held (fs_cache s) c1 sector blk i → 0 ≤ sector < dsize s →
  (∀ j, view c1 j = view (fs_cache s) j) → (∀ j, clean (fs_cache s) j → clean c1 j) →
  idle c1 (fs_cache s') →
  ∃ c2, release_sector_handle sector (Some i) false blk s' = Ret (tt, set_cache c2 s') ∧
    idle (fs_cache s) c2.
Proof.
  intros Hh Hsec Hv Hc [Hst Hv' Hc']. pose proof (held_steady _ _ _ _ _ _ Hh Hst) as Hh'.
  destruct (release_handle_ok _ s' _ _ _ false Hh') as (c2 & Hrun & Hst2 & Hv2 & Hc2).
  - unfold dsize in *. by rewrite (st_size _ _ Hst), (hd_size _ _ _ _ _ Hh).
  - intros Ho. right. apply Hc'; [tauto|]. by eapply held_clean.
  - exists c2. split; [done|]. split; [done|..]; intros j Hj.
    + rewrite Hv2, Hv', Hv; tauto.
    + auto.
Qed.

(** ** Walking the tree *)
Lemma get_level_ok s id ids sector p ip :
  ready (fs_cache s) 1 → 0 ≤ sector < dsize s →
  ∃ c', idle (fs_cache s) c' ∧
    get_levels (id :: ids) sector p ip s =
      get_levels ids (wd (sview s) sector id) sector id (set_cache c' s).
Proof.
  intros Hr Hsec. destruct (get_handle_ok s sector false 0) as (i & c1 & Hg & Hh & Hv & Hc); [done..|].
  destruct (load_disk_ok _ (set_cache c1 s) _ _ _ Hh) as (d & Hd & Hl).
  destruct (held_release_idle s c1 (set_cache c1 s) sector false i) as (c2 & Hrel & Hi);
    [done..|apply touch_refl|].
  exists c2. split; [done|]. simpl get_levels at 1. rewrite (bind_run _ _ _ _ _ Hg).
  rewrite (bind_run _ _ _ (Cached i) _ eq_refl), (bind_run _ _ _ _ _ (load_word_run _ _ _ _ Hl)).
  rewrite (bind_run _ _ _ _ _ Hrel). f_equal. unfold wd, sview. rewrite <-Hv.
  simpl in Hd. by rewrite Hd.
Qed.

Lemma idle_ready c c' k : ready c k → idle c c' → ready c' k.
Proof. intros ? []. by eapply ready_steady. Qed.

Lemma get_inode_sector_ok s p d n k :
  load_disk p s = Ret (d, s) → tree (sview s) (dsize s) d n → 0 ≤ k < n → ready (fs_cache s) 1 →
  ∃ c', get_inode_sector p k s = Ret ((l3 (sview s) d k, l2 (sview s) d k, k mod 128), set_cache c' s)
    ∧ idle (fs_cache s) c'.
Proof.
  intros Hl Ht Hk Hr. pose proof (tr_n _ _ _ _ Ht). unfold get_inode_sector.
  rewrite redirection_ids by lia. rewrite (bind_run _ _ _ _ _ (load_word_run _ _ _ _ Hl)).
  destruct (get_level_ok s (k / 128 mod 128) [k mod 128] (l1 d k) NONE32 (k / 16384))
    as (c1 & Hi1 & E1); [done|by eapply tr_l1|].
  unfold l1 in E1 at 1. rewrite E1. fold (l2 (sview s) d k).
  destruct (get_level_ok (set_cache c1 s) (k mod 128) [] (l2 (sview s) d k) (l1 d k)
    (k / 128 mod 128)) as (c2 & Hi2 & E2).
  - by eapply idle_ready.
  - unfold dsize. simpl. rewrite (st_size _ _ (tc_steady _ _ _ Hi1)). by eapply tr_l2.
  - rewrite E2. simpl. exists c2. split; [|by eapply touch_trans].
    unfold ret. do 4 f_equal. unfold l3, wd, sview. simpl. by rewrite (idle_view _ _ _ Hi1).
Qed.

(** ** An open inode *)

(** The open inode at address [p] is [i], whose sector contains [d], the head
    of a tree of just enough sectors for its length. *)
Record open_at (s : fs) (p : nat) (i : inode) (d : list Z) : Prop := {
  oa_inode : inodes s !! p = Some i;
  oa_sector : 0 ≤ i_sector i < dsize s;
  oa_disk : sview s (i_sector i) = Some d;
  oa_len : 0 ≤ i_length i < 1048576000;
  oa_tree : tree (sview s) (dsize s) d ((i_length i + 511) / 512);
  oa_head : ¬ node (sview s) d ((i_length i + 511) / 512) (i_sector i);
}.

Definition sectors_of (i : inode) : Z := (i_length i + 511) / 512.

(** The bytes of the file. *)
Definition file_bytes (s : fs) (d : list Z) (len : Z) : list Z := bytes_of (sview s) d len.

Lemma get_inode_run s p i : inodes s !! p = Some i → get_inode p s = Ret (i, s).
Proof. unfold get_inode. by intros ->. Qed.

Lemma byte_to_sector_ok s p i d pos ign n :
  inodes s !! p = Some i → sview s (i_sector i) = Some d → 0 ≤ i_sector i < dsize s →
  tree (sview s) (dsize s) d n → 0 ≤ pos < 512 * n → pos < 4294967296 →
  ign = true ∨ pos < i_length i → ready (fs_cache s) 2 →
  ∃ c', byte_to_sector p pos ign s = Ret (l3 (sview s) d (pos / 512), set_cache c' s) ∧
    idle (fs_cache s) c'.
Proof.
  intros Hi Hd Hsec Ht Hpos Hlt Hign Hr. unfold byte_to_sector.
  rewrite (bind_run _ _ _ _ _ (get_inode_run _ _ _ Hi)), decide_True by done.
  destruct (get_handle_ok s (i_sector i) false 1) as (h & c1 & Hg & Hh & Hv & Hc); [done..|].
  rewrite (bind_run _ _ _ _ _ Hg), (bind_run _ _ _ (Cached h) _ eq_refl).
  destruct (load_disk_ok _ (set_cache c1 s) _ _ _ Hh) as (d' & Hd' & Hl).
  simpl in Hd'. rewrite Hv in Hd'. assert (d' = d) as -> by (unfold sview in Hd; congruence).
  assert (E : u32 (Z.quot pos BLOCK_SECTOR_SIZE) = pos / 512).
  { unfold BLOCK_SECTOR_SIZE. rewrite Z.quot_div_nonneg, u32_small by mlia. done. }
  assert (Hsz : dsize (set_cache c1 s) = dsize s) by apply (hd_size _ _ _ _ _ Hh).
  assert (Hw : ∀ j, sview (set_cache c1 s) j = sview s j) by (intros; apply Hv).
  destruct (get_inode_sector_ok (set_cache c1 s) (Cached h) d n (pos / 512)) as (c2 & Hrun & Hi2);
    [done|rewrite Hsz; by eapply frame_tree; [intros; apply Hw|]|mlia|by eapply held_ready|].
  rewrite E, (bind_run _ _ _ _ _ Hrun).
  destruct (held_release_idle s c1 (set_cache c2 (set_cache c1 s)) (i_sector i) false h)
    as (c3 & Hrel & Hi3); [done..|].
  rewrite (bind_run _ _ _ _ _ Hrel). exists c3. split; [|done].
  by rewrite (frame_l3 (sview s) _ d n); [|by intros; apply Hw|mlia].
Qed.

(** ** Reading *)
(** One sector's worth of the file. *)
Lemma chunk_bytes s d n pos cnt x :
  sview s (l3 (sview s) d (pos / 512)) = Some x → length x = 512%nat → 0 ≤ pos → 0 ≤ cnt →
  pos mod 512 + cnt ≤ 512 → 0 ≤ pos < 512 * n →
  sub x (Z.to_nat (pos mod 512)) (Z.to_nat cnt) = byte_at (sview s) d <$> seqZ pos cnt.
Proof.
  intros Hx Hlen Hpos Hcnt Hle Hn. apply list_eq. intros j.
  destruct (decide (j < Z.to_nat cnt)%nat) as [Hj|Hj].
  - rewrite lookup_sub by done. rewrite list_lookup_fmap, lookup_seqZ_lt by lia. simpl.
    unfold byte_at. replace ((pos + Z.of_nat j) / 512) with (pos / 512) by mlia.
    rewrite Hx. replace ((pos + Z.of_nat j) mod 512) with (pos mod 512 + Z.of_nat j) by mlia.
    rewrite Z2Nat.inj_add, Nat2Z.id by mlia.
    destruct (lookup_lt_is_Some_2 x (Z.to_nat (pos mod 512) + j)) as [y Hy]; [mlia|].
    by rewrite Hy.
  - unfold sub. rewrite lookup_take_ge by lia. symmetry. apply lookup_ge_None.
    rewrite length_fmap, length_seqZ. lia.
Qed.

(** What fuel the loops over the sectors need for [m] bytes. *)
Definition enough (fuel : nat) (m offset : Z) : Prop :=
  1 ≤ Z.of_nat fuel ∧ (0 < m → (m + offset mod 512 + 511) / 512 + 1 ≤ Z.of_nat fuel).

Lemma enough_start size m offset : m ≤ size → enough (sectors_fuel size) m offset.
Proof. unfold enough, sectors_fuel. mlia. Qed.

Lemma enough_step fuel m offset cnt :
  enough (S fuel) m offset → cnt = m ∨ cnt = 512 - offset mod 512 → 0 < cnt ≤ m →
  enough fuel (m - cnt) (offset + cnt).
Proof. unfold enough. intros [? H] [-> | ->] ?; specialize (H ltac:(lia)); mlia. Qed.

Lemma idle_file s c' p i d :
  idle (fs_cache s) c' → open_at s p i d → open_at (set_cache c' s) p i d.
Proof.
  intros Hi [Ho Hs Hd Hl Ht Hh].
  assert (Hv : ∀ j, sview (set_cache c' s) j = sview s j) by (intros j; apply (idle_view _ _ _ Hi)).
  assert (Hz : dsize (set_cache c' s) = dsize s) by apply (st_size _ _ (tc_steady _ _ _ Hi)).
  split; try done.
  - by rewrite Hz.
  - by rewrite Hv.
  - rewrite Hz. eapply frame_tree; [|exact Ht]. intros; apply Hv.
  - rewrite (frame_node (sview s)); [done|intros; apply Hv].
Qed.

Lemma idle_bytes s c' d n pos cnt :
  idle (fs_cache s) c' → 0 ≤ pos → pos + cnt ≤ 512 * n → 
  byte_at (sview (set_cache c' s)) d <$> seqZ pos cnt = byte_at (sview s) d <$> seqZ pos cnt.
Proof.
  intros Hi ??. apply list_fmap_ext. intros _ p Hp%list_elem_of_lookup_2%elem_of_seqZ.
  assert (Hv : ∀ j, sview (set_cache c' s) j = sview s j) by (intros j; apply (idle_view _ _ _ Hi)).
  unfold byte_at. rewrite (frame_l3 (sview s) _ d n); [by rewrite Hv|by intros; apply Hv|mlia].
Qed.

Lemma read_loop_ok fuel : ∀ s p i d size offset,
  open_at s p i d → ready (fs_cache s) 2 → 0 ≤ offset → offset + Z.max 0 size < 2147483648 →
  enough fuel (Z.min size (i_length i - offset)) offset →
  ∃ c', read_loop fuel p size offset s =
      Ret (byte_at (sview s) d <$> seqZ offset (Z.min size (i_length i - offset)), set_cache c' s) ∧
    idle (fs_cache s) c'.
Proof.
  induction fuel as [|fuel IH]; intros s p i d size offset Ho Hr Hofs Hmax Hf.
  { by destruct Hf. }
  assert (Hnil : Z.min size (i_length i - offset) ≤ 0 →
    byte_at (sview s) d <$> seqZ offset (Z.min size (i_length i - offset)) = []).
  { intros. by rewrite seqZ_nil by lia. }
  simpl. case_decide as Hsz.
  2:{ exists (fs_cache s). rewrite Hnil, set_cache_id by lia. split; [done|apply touch_refl]. }
  destruct (decide (offset < i_length i)) as [Hin|Hout].
  2:{ exists (fs_cache s). rewrite Hnil, set_cache_id by lia. split; [|apply touch_refl].
      unfold byte_to_sector. rewrite bind_assoc, (bind_run _ _ _ _ _ (get_inode_run _ _ _ (oa_inode _ _ _ _ Ho))).
      rewrite decide_False by (intros [?|?]; [done|lia]).
      rewrite (bind_run _ _ _ _ _ eq_refl). unfold inode_length. rewrite bind_assoc.
      rewrite (bind_run _ _ _ _ _ (get_inode_run _ _ _ (oa_inode _ _ _ _ Ho))).
      rewrite (bind_run _ _ _ _ _ eq_refl). rewrite decide_True; [done|].
      unfold chunk_of, BLOCK_SECTOR_SIZE. rewrite Z.rem_mod_nonneg by lia. 
      repeat case_decide; mlia. }
  pose proof Ho as [Hi Hsec Hd Hlen Ht Hh].
  destruct (byte_to_sector_ok s p i d offset false ((i_length i + 511) / 512)) as (c1 & Hb & Hi1);
    [done..|mlia|lia|by right|done|].
  rewrite (bind_run _ _ _ _ _ Hb). unfold inode_length. rewrite bind_assoc.
  rewrite (bind_run _ _ _ _ _ (get_inode_run (set_cache c1 s) _ _ Hi)), (bind_run _ _ _ _ _ eq_refl).
  set (cnt := chunk_of (i_length i - offset) (Z.rem offset BLOCK_SECTOR_SIZE) size).
  assert (Hcnt : 0 < cnt ≤ size ∧ offset mod 512 + cnt ≤ 512 ∧ cnt ≤ i_length i - offset ∧
    (cnt = Z.min size (i_length i - offset) ∨ cnt = 512 - offset mod 512)).
  { unfold cnt, chunk_of, BLOCK_SECTOR_SIZE. rewrite Z.rem_mod_nonneg by lia.
    repeat case_decide; mlia. }
  clearbody cnt. destruct Hcnt as ([Hc0 Hc1] & Hc2 & Hc3 & Hc4). rewrite decide_False by lia.
  assert (Hk : 0 ≤ offset / 512 < (i_length i + 511) / 512) by mlia.
  pose proof (tr_l3 _ _ _ _ Ht _ Hk) as Hl3. set (sec := l3 (sview s) d (offset / 512)) in *.
  assert (Hz1 : dsize (set_cache c1 s) = dsize s) by apply (st_size _ _ (tc_steady _ _ _ Hi1)).
  destruct (get_handle_ok (set_cache c1 s) sec false 1) as (h & c2 & Hg & Hh2 & Hv2 & Hcl2);
    [by eapply idle_ready|done|by rewrite Hz1|done|].
  rewrite (bind_run _ _ _ _ _ Hg), (bind_run _ _ _ (Cached h) _ eq_refl).
  destruct (load_disk_ok _ (set_cache c2 (set_cache c1 s)) _ _ _ Hh2) as (x & Hx & Hl).
  rewrite (bind_run _ _ _ _ _ Hl).
  simpl in Hx. rewrite Hv2 in Hx. simpl in Hx. rewrite (idle_view _ _ _ Hi1) in Hx.
  assert (Hxl : length x = 512%nat) by (eapply view_length; [apply Hr|exact Hx]).
  rewrite Z.rem_mod_nonneg by (unfold BLOCK_SECTOR_SIZE; lia).
  change BLOCK_SECTOR_SIZE with 512. rewrite read_range_some by (rewrite ?Hxl; mlia).
  rewrite (bind_run _ _ _ _ _ eq_refl).
  destruct (held_release_idle (set_cache c1 s) c2 (set_cache c2 (set_cache c1 s)) sec false h)
    as (c3 & Hrel & Hi3); [done|by rewrite Hz1|done|done|apply touch_refl|].
  rewrite (bind_run _ _ _ _ _ Hrel).
  assert (Hi13 : idle (fs_cache s) c3) by (eapply touch_trans; [exact Hi1|exact Hi3]).
  change (set_cache c3 (set_cache c2 (set_cache c1 s))) with (set_cache c3 s).
  destruct (IH (set_cache c3 s) p i d (size - cnt) (offset + cnt)) as (c4 & Hrun & Hi4);
    [by apply idle_file|by eapply idle_ready|lia|lia|..].
  { replace (Z.min (size - cnt) (i_length i - (offset + cnt)))
      with (Z.min size (i_length i - offset) - cnt) by lia.
    apply enough_step; [done..|lia]. }
  rewrite (bind_run _ _ _ _ _ Hrun). exists c4. split; [|by eapply touch_trans].
  unfold ret. f_equal. f_equal.
  rewrite (chunk_bytes s d ((i_length i + 511) / 512)) by (done || mlia).
  rewrite (idle_bytes s c3 d ((i_length i + 511) / 512)) by (done || mlia).
  rewrite <-fmap_app. f_equal.
  replace (Z.min size (i_length i - offset)) with (cnt + Z.min (size - cnt) (i_length i - (offset + cnt))) by lia.
  destruct (decide (0 ≤ Z.min (size - cnt) (i_length i - (offset + cnt)))).
  - by rewrite seqZ_app by lia.
  - lia.
Qed.

(** ** Writing *)

(** What a store over part of one data sector does to the bytes of the file. *)
Lemma store_bytes v v' sz d n pos x k :
  tree v sz d n → 0 ≤ pos < 512 * n → v (l3 v d (pos / 512)) = Some x → length x = 512%nat →
  pos mod 512 + Z.of_nat (length k) ≤ 512 →
  (∀ j, v' j = at_idx (l3 v d (pos / 512)) (Some (splice x (Z.to_nat (pos mod 512)) k)) v j) →
  (∀ j, inner v d n j → v' j = v j) →
  ∀ q, 0 ≤ q < 512 * n →
    byte_at v' d q =
      if decide (pos ≤ q < pos + Z.of_nat (length k)) then default 0 (k !! Z.to_nat (q - pos))
      else byte_at v d q.
Proof.
  intros Ht Hpos Hx Hlen Hfit Hv' Hin q Hq. unfold byte_at.
  rewrite (frame_l3 v v' d n) by (done || mlia). rewrite Hv'.
  destruct (decide (q / 512 = pos / 512)) as [E|E].
  - rewrite E, at_idx_eq, Hx. case_decide as Hr.
    + rewrite lookup_splice_new by mlia. do 2 f_equal. mlia.
    + rewrite lookup_splice_old by mlia. done.
  - rewrite at_idx_ne.
    + rewrite decide_False by mlia. done.
    + intros E3. apply E. eapply tr_inj3; [done|mlia..|done].
Qed.

Section write.
Context (p : nat) (i : inode) (d buf : list Z) (n cur : Z).

(** The inode at [p], whose sector holds [d], with [n] data sectors. *)
Record writable (s : fs) : Prop := {
  wb_inode : inodes s !! p = Some i;
  wb_sector : 0 ≤ i_sector i < dsize s;
  wb_disk : sview s (i_sector i) = Some d;
  wb_tree : tree (sview s) (dsize s) d n;
  wb_head : ¬ node (sview s) d n (i_sector i);
}.

Lemma touch_writable s c' :
  writable s → touch (leaf (sview s) d n) (fs_cache s) c' →
  writable (set_cache c' s) ∧ (∀ j, inner (sview s) d n j → view c' j = sview s j).
Proof.
  intros [Hi Hsec Hd Ht Hh] [Hst Hv _].
  assert (Hin : ∀ j, inner (sview s) d n j → view c' j = sview s j).
  { intros j Hj. apply Hv. by eapply inner_not_leaf. }
  assert (Hz : dsize (set_cache c' s) = dsize s) by apply (st_size _ _ Hst).
  split; [|done]. split; try done.
  - by rewrite Hz.
  - rewrite <-Hd. apply Hv. intros ?. apply Hh. by right.
  - rewrite Hz. by eapply frame_tree.
  - by rewrite (frame_node (sview s)).
Qed.

(** Writing one sector's worth. *)
Lemma write_chunk_ok s pos chunk :
  writable s → ready (fs_cache s) 2 → 0 ≤ pos < 512 * n → pos < 4294967296 →
  pos mod 512 + Z.of_nat (length chunk) ≤ 512 → 
  ∃ h c1 c2 x y s3 s4, byte_to_sector p pos true s = Ret (l3 (sview s) d (pos / 512), set_cache c1 s) ∧
    get_sector_handle (l3 (sview s) d (pos / 512)) false (set_cache c1 s) = Ret (Some h, set_cache c2 s) ∧
    load_disk (Cached h) (set_cache c2 s) = Ret (x, set_cache c2 s) ∧
    write_range x (pos mod 512) chunk = Some y ∧
    store_disk (Cached h) y (set_cache c2 s) = Ret (tt, s3) ∧
    release_sector_handle (l3 (sview s) d (pos / 512)) (Some h) true false s3 = Ret (tt, s4) ∧
    s4 = set_cache (fs_cache s4) s ∧
    touch (leaf (sview s) d n) (fs_cache s) (fs_cache s4) ∧
    ∀ q, 0 ≤ q < 512 * n → byte_at (sview s4) d q =
      if decide (pos ≤ q < pos + Z.of_nat (length chunk)) then default 0 (chunk !! Z.to_nat (q - pos))
      else byte_at (sview s) d q.
Proof.
  intros Hw Hr Hpos Hlt Hfit. pose proof Hw as [Hi Hsec Hd Ht Hh].
  destruct (byte_to_sector_ok s p i d pos true n) as (c1 & Hb & Hi1); [auto..|].
  assert (Hk : 0 ≤ pos / 512 < n) by mlia. pose proof (tr_l3 _ _ _ _ Ht _ Hk) as Hl3.
  pose proof (leaf_l3 (sview s) d n _ Hk) as Hleaf. set (sec := l3 (sview s) d (pos / 512)) in *.
  assert (Hz1 : dsize (set_cache c1 s) = dsize s) by apply (st_size _ _ (tc_steady _ _ _ Hi1)).
  destruct (get_handle_ok (set_cache c1 s) sec false 1) as (h & c2 & Hg & Hh2 & Hv2 & Hcl2);
    [by eapply idle_ready|done|by rewrite Hz1|done|].
  destruct (load_disk_ok _ (set_cache c2 (set_cache c1 s)) _ _ _ Hh2) as (x & Hx & Hl).
  simpl in Hx. rewrite Hv2 in Hx. simpl in Hx. rewrite (idle_view _ _ _ Hi1) in Hx.
  assert (Hxl : length x = 512%nat) by (eapply view_length; [apply Hr|exact Hx]).
  set (y := splice x (Z.to_nat (pos mod 512)) chunk).
  assert (Hyl : length y = 512%nat) by (unfold y; rewrite length_splice; mlia).
  destruct (store_disk_ok _ (set_cache c2 s) sec false h y Hh2 Hyl) as (c3 & Hst & Hst3 & Hv3 & Hcl3).
  pose proof (held_steady _ _ _ _ _ _ Hh2 Hst3) as Hh3.
  destruct (release_handle_ok _ (set_cache c3 s) sec false h true Hh3)
    as (c4 & Hrel & Hst4 & Hv4 & Hcl4); [|by auto|].
  { unfold dsize in *. simpl in *. rewrite (st_size _ _ Hst3), (hd_size _ _ _ _ _ Hh2). by rewrite Hz1. }
  assert (Hview : ∀ j, view c4 j = at_idx sec (Some y) (sview s) j).
  { intros j. rewrite Hv4. simpl. rewrite Hv3. unfold at_idx. case_decide; [done|].
    simpl. rewrite Hv2. simpl. apply (idle_view _ _ _ Hi1). }
  exists h, c1, c2, x, y, (set_cache c3 s), (set_cache c4 (set_cache c3 s)). split_and!; try done.
  - by rewrite write_range_some by mlia.
  - split.
    + etrans; [apply (tc_steady _ _ _ Hi1)|done].
    + intros j Hj. simpl. rewrite Hview, at_idx_ne; [done|]. by intros ->.
    + intros j Hj Hc. apply Hcl4, Hcl3, Hcl2, (tc_clean _ _ _ Hi1); try tauto. by intros ->.
  - eapply store_bytes; try done. intros j Hj. change (view c4 j = sview s j).
    rewrite Hview, at_idx_ne; [done|]. intros ->. by eapply inner_not_leaf.
Qed.

Lemma write_loop_ok fuel : ∀ s size offset written,
  writable s → ready (fs_cache s) 2 → 0 ≤ offset → 0 ≤ size → offset + size < 2147483648 →
  offset + size ≤ cur ≤ 512 * n → 0 ≤ written → written + size ≤ Z.of_nat (length buf) →
  enough fuel size offset →
  ∃ c', write_loop fuel p buf cur size offset written s = Ret (written + size, set_cache c' s) ∧
    touch (leaf (sview s) d n) (fs_cache s) c' ∧
    ∀ q, 0 ≤ q < 512 * n → byte_at (view c') d q =
      if decide (offset ≤ q < offset + size)
      then default 0 (buf !! Z.to_nat (written + (q - offset))) else byte_at (sview s) d q.
Proof.
  induction fuel as [|fuel IH]; intros s size offset written Hw Hr Hofs Hsz0 Hmax Hcur Hwr Hbuf Hf.
  { by destruct Hf. }
  simpl. case_decide as Hsz.
  2:{ replace size with 0 by lia. exists (fs_cache s). rewrite set_cache_id, Z.add_0_r.
      split; [done|]. split; [apply touch_refl|]. intros q ?. by rewrite decide_False by lia. }
  set (cnt := chunk_of (cur - offset) (Z.rem offset BLOCK_SECTOR_SIZE) size).
  assert (Hcnt : 0 < cnt ≤ size ∧ offset mod 512 + cnt ≤ 512 ∧
    (cnt = size ∨ cnt = 512 - offset mod 512)).
  { unfold cnt, chunk_of, BLOCK_SECTOR_SIZE. rewrite Z.rem_mod_nonneg by lia.
    repeat case_decide; mlia. }
  clearbody cnt. destruct Hcnt as ([Hc0 Hc1] & Hc2 & Hc3).
  set (chunk := sub buf (Z.to_nat written) (Z.to_nat cnt)).
  assert (Hcl : Z.of_nat (length chunk) = cnt) by (unfold chunk; rewrite length_sub; lia).
  destruct (write_chunk_ok s offset chunk) as
    (h & c1 & c2 & x & y & s3 & s4 & Hb & Hg & Hl & Hy & Hst & Hrel & Hs4 & Ht4 & Hq4); try done; try lia.
  rewrite (bind_run _ _ _ _ _ Hb). rewrite decide_False by lia.
  rewrite (bind_run _ _ _ _ _ Hg), (bind_run _ _ _ (Cached h) _ eq_refl).
  rewrite read_range_some by lia. fold chunk. rewrite (bind_run _ _ _ chunk _ eq_refl).
  rewrite (bind_run _ _ _ _ _ Hl), Z.rem_mod_nonneg by (unfold BLOCK_SECTOR_SIZE; lia).
  change BLOCK_SECTOR_SIZE with 512. rewrite Hy, (bind_run _ _ _ y _ eq_refl).
  rewrite (bind_run _ _ _ _ _ Hst), (bind_run _ _ _ _ _ Hrel).
  rewrite Hs4 in *. set (c4 := fs_cache s4) in *. clearbody c4. simpl in *.
  destruct (touch_writable s c4 Hw Ht4) as [Hw4 Hin4].
  destruct (IH (set_cache c4 s) (size - cnt) (offset + cnt) (written + cnt)) as (c5 & Hrun & Ht5 & Hq5);
    [done|eapply ready_steady; [done|apply Ht4]|lia..|apply enough_step; auto|].
  exists c5. rewrite Hrun. split; [do 2 f_equal; lia|].
  assert (Hleaf : ∀ j, leaf (sview (set_cache c4 s)) d n j → leaf (sview s) d n j)
    by (intros j; by apply (frame_leaf (sview s))).
  split; [eapply touch_trans; [done|by eapply touch_mono]|].
  intros q Hq. rewrite Hq5, Hq4 by done. rewrite Hcl. 
  repeat case_decide; try lia.
  - do 2 f_equal. lia.
  - unfold chunk. rewrite lookup_sub by lia. do 2 f_equal. lia.
Qed.
End write.

(** ** The contents of files *)
Lemma file_bytes_sub s d len pos cnt :
  0 ≤ pos → byte_at (sview s) d <$> seqZ pos (Z.min cnt (len - pos)) =
    take (Z.to_nat cnt) (drop (Z.to_nat pos) (file_bytes s d len)).
Proof.
  intros Hpos. apply list_eq. intros j. unfold file_bytes, bytes_of.
  destruct (decide (j < Z.to_nat cnt)%nat) as [Hj|Hj].
  - rewrite lookup_take_lt, lookup_drop, !list_lookup_fmap by done.
    destruct (decide (pos + Z.of_nat j < len)).
    + rewrite !lookup_seqZ_lt by lia. simpl. do 2 f_equal. lia.
    + by rewrite !lookup_seqZ_ge by lia.
  - rewrite lookup_take_ge, list_lookup_fmap, lookup_seqZ_ge by lia. done.
Qed.

(** Bytes that are overwritten one by one. *)
Lemma file_bytes_splice s s' d len pos k :
  0 ≤ pos → pos + Z.of_nat (length k) ≤ len →
  (∀ q, 0 ≤ q < len → byte_at (sview s') d q =
    if decide (pos ≤ q < pos + Z.of_nat (length k)) then default 0 (k !! Z.to_nat (q - pos))
    else byte_at (sview s) d q) →
  file_bytes s' d len = splice (file_bytes s d len) (Z.to_nat pos) k.
Proof.
  intros Hpos Hfit Hq. assert (Hfl : ∀ s', length (file_bytes s' d len) = Z.to_nat len)
    by (intros; apply length_bytes_of).
  apply list_eq. intros j. destruct (decide (j < Z.to_nat len)%nat) as [Hj|Hj].
  2:{ rewrite !lookup_ge_None_2; [done|rewrite length_splice; rewrite Hfl; lia|rewrite Hfl; lia]. }
  replace j with (Z.to_nat (Z.of_nat j)) at 1 by lia. unfold file_bytes at 1.
  rewrite lookup_bytes_of, Hq by lia. case_decide.
  - rewrite lookup_splice_new by (rewrite ?Hfl; lia).
    destruct (lookup_lt_is_Some_2 k (j - Z.to_nat pos)) as [x Hx]; [lia|].
    replace (Z.to_nat (Z.of_nat j - pos)) with (j - Z.to_nat pos)%nat by lia. by rewrite Hx.
  - rewrite lookup_splice_old by (rewrite ?Hfl; lia).
    replace j with (Z.to_nat (Z.of_nat j)) at 2 by lia. unfold file_bytes.
    by rewrite lookup_bytes_of by lia.
Qed.

Lemma idle_byte s c' d n q :
  idle (fs_cache s) c' → 0 ≤ q < 512 * n → byte_at (view c') d q = byte_at (sview s) d q.
Proof.
  intros Hi ?. unfold byte_at. rewrite (frame_l3 (sview s) _ d n); [|intros; apply (idle_view _ _ _ Hi)|mlia].
  by rewrite (idle_view _ _ _ Hi).
Qed.

(** C5: reading an open inode at any position: the call returns, changes
    nothing that a caller can see, and stores into the buffer exactly the bytes of
    the file between the position and the end of the file, at most as many as
    asked for. *)
Theorem read_at_reads_file (s : fs) (p : nat) (i : inode) (d : list Z) (size offset : Z)
    (Hopen : open_at s p i d) (Hready : ready (fs_cache s) 2)
    (Hofs : 0 ≤ offset) (Hsize : 0 ≤ size) (Hmax : offset + size < 2147483648) :
  ∃ c', inode_read_at p size offset s =
      Ret (take (Z.to_nat size) (drop (Z.to_nat offset) (file_bytes s d (i_length i))),
           set_cache c' s) ∧
    idle (fs_cache s) c'.
Proof.
  destruct (read_loop_ok (sectors_fuel size) s p i d size offset) as (c' & Hrun & Hi);
    [done..|lia|apply enough_start; lia|].
  exists c'. split; [|done]. unfold inode_read_at. by rewrite Hrun, file_bytes_sub.
Qed.

Lemma open_writable s p i d : open_at s p i d → writable p i d (sectors_of i) s.
Proof. intros []. by split. Qed.

(** Writing within the file. *)
Lemma overwrite_ok `{FreeMapOps} (s : fs) (p : nat) (i : inode) (d buffer : list Z) (size offset : Z)
    (Hopen : open_at s p i d) (Hready : ready (fs_cache s) 2) (Hallow : deny_write_cnt i = 0)
    (Hunlocked : locked (fs_cache s) (i_sector i) = false)
    (Hofs : 0 ≤ offset) (Hsize : 0 ≤ size ≤ Z.of_nat (length buffer))
    (Hfit : offset + size ≤ i_length i) :
  ∃ c', inode_write_at p buffer size offset s = Ret (size, set_cache c' s) ∧
    touch (leaf (sview s) d (sectors_of i)) (fs_cache s) c' ∧
    open_at (set_cache c' s) p i d ∧
    file_bytes (set_cache c' s) d (i_length i) =
      splice (file_bytes s d (i_length i)) (Z.to_nat offset) (take (Z.to_nat size) buffer).
Proof.
  pose proof Hopen as [Hi Hsec Hd Hlen Ht Hh]. unfold inode_write_at.
  rewrite (bind_run _ _ _ _ _ (get_inode_run _ _ _ Hi)), decide_False by lia.
  destruct (get_handle_ok s (i_sector i) true 1) as (h & c1 & Hg & Hh1 & Hv1 & Hc1); [done..|].
  rewrite (bind_run _ _ _ _ _ Hg). rewrite s32_small by lia.
  unfold grow_file at 1. rewrite decide_False by lia.
  destruct (release_handle_ok _ (set_cache c1 s) (i_sector i) true h true Hh1)
    as (c2 & Hrel & Hst2 & Hv2 & Hc2).
  { unfold dsize. simpl. rewrite (hd_size _ _ _ _ _ Hh1). exact Hsec. }
  { auto. }
  rewrite bind_assoc, (bind_run _ _ _ _ _ Hrel), (bind_run _ _ _ _ _ eq_refl).
  change (set_cache c2 (set_cache c1 s)) with (set_cache c2 s) in *.
  assert (Hi2 : idle (fs_cache s) c2).
  { split; [done|..]; intros j _; [by rewrite Hv2, Hv1|auto]. }
  destruct (write_loop_ok p i d buffer (sectors_of i) (i_length i) (sectors_fuel size) (set_cache c2 s)
    size offset 0) as (c3 & Hrun & Ht3 & Hq3).
  - apply open_writable. by apply idle_file.
  - by eapply idle_ready.
  - done.
  - lia.
  - lia.
  - unfold sectors_of. mlia.
  - done.
  - lia.
  - by apply enough_start.
  - rewrite (bind_run _ _ _ _ _ Hrun). exists c3. split; [done|].
    assert (Ht4 : touch (leaf (sview s) d (sectors_of i)) (fs_cache s) c3).
    { eapply touch_trans; [by eapply touch_mono|]. eapply touch_mono; [done|].
      intros j. apply (frame_leaf (sview s)). intros; apply (idle_view _ _ _ Hi2). }
    split; [done|]. destruct (touch_writable p i d (sectors_of i) s c3) as [[] Hin];
      [by apply open_writable|done|].
    split; [by split|].
    assert (Hbl : length (take (Z.to_nat size) buffer) = Z.to_nat size) by (rewrite length_take; lia).
    apply file_bytes_splice; [done|rewrite Hbl; lia|]. intros q Hq.
    assert (0 ≤ q < 512 * sectors_of i) by (unfold sectors_of; mlia).
    rewrite Hbl, Z2Nat.id by lia. change (sview (set_cache c3 s)) with (view c3).
    rewrite Hq3 by done. change (sview (set_cache c2 s)) with (view c2).
    rewrite (idle_byte s c2 d (sectors_of i)) by done. case_decide; [|done].
    rewrite lookup_take_lt by lia. done.
Qed.

(** C6: a write that stays within the file, with no writes denied: every byte is
    written, the file's bytes are the old ones with the buffer laid over them at
    the position, and no sector but the file's data sectors changes. *)
Theorem write_at_overwrites `{FreeMapOps} (s : fs) (p : nat) (i : inode) (d buffer : list Z) (size offset : Z)
    (Hopen : open_at s p i d) (Hready : ready (fs_cache s) 2) (Hallow : deny_write_cnt i = 0)
    (Hunlocked : locked (fs_cache s) (i_sector i) = false)
    (Hofs : 0 ≤ offset) (Hsize : 0 ≤ size ≤ Z.of_nat (length buffer))
    (Hfit : offset + size ≤ i_length i) :
  ∃ c', inode_write_at p buffer size offset s = Ret (size, set_cache c' s) ∧
    touch (leaf (sview s) d (sectors_of i)) (fs_cache s) c' ∧
    open_at (set_cache c' s) p i d ∧
    file_bytes (set_cache c' s) d (i_length i) =
      splice (file_bytes s d (i_length i)) (Z.to_nat offset) (take (Z.to_nat size) buffer).
Proof. by apply overwrite_ok. Qed.

(** ** Shutting down and booting *)

(** A cache at rest has all its handles free. *)
Lemma rest_ready c a : represents c a → ready c 64.
Proof.
  intros (Hinv & Hown & _). split; [done|rewrite (quiescent_sem c Hinv Hown); lia|]. intros j. rewrite Hown, u32_max_eq. lia.
Qed.

(** The tree of a file and its bytes depend on the contents of the sectors only. *)
Lemma l3_ext v v' d k : (∀ j, v' j = v j) → l3 v' d k = l3 v d k.
Proof. intros Hv. unfold l3, l2, wd. by rewrite !Hv. Qed.
Lemma file_bytes_ext s s' d len : (∀ j, sview s' j = sview s j) → file_bytes s' d len = file_bytes s d len.
Proof.
  intros Hv. apply list_fmap_ext. intros _ q _. unfold byte_at. by rewrite (l3_ext _ _ _ _ Hv), Hv.
Qed.
Lemma open_at_ext s s' p q i j d : (∀ k, sview s' k = sview s k) → dsize s' = dsize s →
  inodes s' !! q = Some j → i_sector j = i_sector i → i_length j = i_length i → open_at s p i d → open_at s' q j d.
Proof.
  intros Hv Hz Hj Es El [Ho Hs Hd Hl Ht Hh]. split; rewrite ?Es, ?El; [done|by rewrite Hz|by rewrite Hv|done|..].
  - rewrite Hz. eapply frame_tree; [intros; apply Hv|exact Ht].
  - by rewrite (frame_node (sview s)) by (intros; apply Hv).
Qed.

(** [inode_open] of an inode that is not open reads it from its sector. *)
Lemma inode_open_ok s p i d (s2 : fs) :
  open_at s p i d → word d LENGTH_WORD = i_length i →
  represents (fs_cache s2) (sview s) → dsize s2 = dsize s → open_inodes s2 = [] → head (mallocs s2) ≠ Some false →
  ∃ q j s3, inode_open (i_sector i) s2 = Ret (Some q, s3) ∧ open_at s3 q j d ∧ i_length j = i_length i ∧ ready (fs_cache s3) 64 ∧
    ∀ k, sview s3 k = sview s k.
Proof.
  intros Ho Hlen Hrep Hz Hopen Hm. pose proof Hrep as (Hinv & Hown & Hv). pose proof (rest_ready _ _ Hrep) as Hr.
  set (s' := set_next (S (next s2)) (set_mallocs (tail (mallocs s2)) s2)).
  assert (malloc s2 = Ret (Some (next s2), s')) as Em.
  { unfold malloc. destruct (mallocs s2) as [|[] ?]; by try destruct (Hm eq_refl). }
  destruct (get_handle_ok s' (i_sector i) true 63) as (h & c1 & Hg & Hh & Hv1 & Hc1); [done|done| |..].
  { change (dsize s') with (dsize s2). rewrite Hz. apply (oa_sector _ _ _ _ Ho). }
  { intros _. by apply unlocked_unowned. }
  destruct (load_disk_ok _ (set_cache c1 s') _ _ _ Hh) as (d' & Hd' & Hl).
  assert (d' = d) as ->. { simpl in Hd'. rewrite Hv1 in Hd'. simpl in Hd'. rewrite Hv, (oa_disk _ _ _ _ Ho) in Hd'. congruence. }
  destruct (held_release_idle s' c1 (set_cache c1 s') (i_sector i) true h) as (c2 & Hrel & Hi); [done| |done..|apply touch_refl|].
  { change (dsize s') with (dsize s2). rewrite Hz. apply (oa_sector _ _ _ _ Ho). }
  unfold inode_open. msteps. rewrite Hopen. cbn [find_open]. msteps. mrun Em. mrun Hg.
  mrun (load_word_run _ FLAGS_WORD _ _ Hl). mrun (load_word_run _ LENGTH_WORD _ _ Hl). mrun Hrel.
  unfold put_inode. msteps. rewrite Hlen, s32_small by (pose proof (oa_len _ _ _ _ Ho); lia).
  eexists _, (mkInode (i_sector i) 1 false 0 (word d FLAGS_WORD) (i_length i)), _. split; [done|].
  assert (∀ k, view c2 k = sview s k) as Hv2 by (intros k; rewrite (idle_view _ _ _ Hi); apply Hv).
  split; [|split; [done|split; [by eapply idle_ready|done]]].
  eapply (open_at_ext s _ p _ i); [exact Hv2| |apply lookup_insert_eq|done|done|exact Ho].
  rewrite <-Hz. apply (st_size _ _ (tc_steady _ _ _ Hi)).
Qed.

(** A machine that boots from the device that a forced flush leaves, whatever else is in its memory, can open the file
    again, and finds its bytes. *)
Lemma reboot_ok s p i d boot tid (s2 : fs) :
  open_at s p i d → word d LENGTH_WORD = i_length i → represents (fs_cache s) (sview s) →
  booting boot → tid ≠ 0 → open_inodes s2 = [] → head (mallocs s2) ≠ Some false →
  ∃ c1 c2 q j s3, sector_cache_flush true (fs_cache s) = Ret (tt, c1) ∧
    cache_init tid (set_device (fs_device c1) boot) = Ret (tt, c2) ∧
    inode_open (i_sector i) (set_cache c2 s2) = Ret (Some q, s3) ∧
    open_at s3 q j d ∧ i_length j = i_length i ∧ ready (fs_cache s3) 64 ∧
    ∀ len, file_bytes s3 d len = file_bytes s d len.
Proof.
  intros Ho Hlen (Hinv & Hown & _) Hboot Htid Hopen Hm.
  destruct (flush_force_ok _ Hinv) as (c1 & Hrun & Hinv1 & _ & Hsz & _ & _ & _ & Hdev).
  destruct (cache_init_ok tid (set_device (fs_device c1) boot)) as (c2 & Hrun2 & Edev & Hi & Hown2 & Hv); [|done|].
  { destruct Hboot. split; try done. exact (bk_dev _ (ci_books _ Hinv1)). }
  assert (represents (fs_cache (set_cache c2 s2)) (sview s)) as Hrep2.
  { split; [done|]. split; [done|]. intros k. simpl. rewrite Hv. apply Hdev. by apply clean_unowned. }
  destruct (inode_open_ok s p i d (set_cache c2 s2) Ho Hlen Hrep2) as (q & j & s3 & Hrun3 & Ho3 & El & Hr3 & Hv3); [|done..|].
  { unfold dsize. simpl. by rewrite Edev. }
  exists c1, c2, q, j, s3. split_and!; try done. intros len. by apply file_bytes_ext.
Qed.

(** C34: What is written to a file is there after a reboot.  Let a file be open, with its length in its sector, no sector
    locked or held, and no writes denied.  A write of [n] bytes that stays within the file is followed by a forced flush of
    the cache, as [filesys_done] makes it; then a machine boots from the device, with anything else in its memory but no
    inode open and memory for one, and opens the sector of the file.  Every one of these calls returns, and reading any
    range of the file gives the bytes that it had, with the buffer laid over them where it was written. *)
Theorem write_survives_reboot `{FreeMapOps} (s : fs) (p : nat) (i : inode) (d buffer : list Z) (n at_ size offset : Z)
    (boot : cache) (tid : Z) (s2 : fs)
    (Hopen : open_at s p i d) (Hlen : word d LENGTH_WORD = i_length i) (Hallow : deny_write_cnt i = 0)
    (Hrest : represents (fs_cache s) (sview s)) (Hat : 0 ≤ at_) (Hn : 0 ≤ n ≤ Z.of_nat (length buffer)) (Hfit : at_ + n ≤ i_length i)
    (Hboot : booting boot) (Htid : tid ≠ 0) (Hnone : open_inodes s2 = []) (Hmem : head (mallocs s2) ≠ Some false)
    (Hofs : 0 ≤ offset) (Hsize : 0 ≤ size) (Hmax : offset + size < 2147483648) :
  ∃ c c1 c2 q s3 s4, inode_write_at p buffer n at_ s = Ret (n, set_cache c s) ∧
    sector_cache_flush true c = Ret (tt, c1) ∧
    cache_init tid (set_device (fs_device c1) boot) = Ret (tt, c2) ∧
    inode_open (i_sector i) (set_cache c2 s2) = Ret (Some q, s3) ∧
    inode_read_at q size offset s3 =
      Ret (take (Z.to_nat size) (drop (Z.to_nat offset)
        (splice (file_bytes s d (i_length i)) (Z.to_nat at_) (take (Z.to_nat n) buffer))), s4).
Proof.
  pose proof Hrest as (Hinv & Hown & _). pose proof (rest_ready _ _ Hrest) as Hr.
  destruct (overwrite_ok s p i d buffer n at_) as (c & Hrun & Ht & Ho & Hbytes); [done|by eapply ready_le|done|by apply unlocked_unowned|done..|].
  destruct (reboot_ok (set_cache c s) p i d boot tid s2) as (c1 & c2 & q & j & s3 & H1 & H2 & H3 & Ho3 & El & Hr3 & Hb3); [done|done| |done..|].
  { pose proof (tc_steady _ _ _ Ht) as St. split; [by apply St|]. split; [|done]. intros k. by rewrite (st_own _ _ St). }
  destruct (read_loop_ok (sectors_fuel size) s3 q j d size offset) as (c4 & Hread & _);
    [done|by eapply ready_le|done|lia|apply enough_start; lia|].
  exists c, c1, c2, q, s3, (set_cache c4 s3). split_and!; try done.
  unfold inode_read_at. by rewrite Hread, file_bytes_sub, El, Hb3, Hbytes.
Qed.
