(* ===== verification/File.v ===== *)
(** Open files: filesys/file.c of Project5. *)
From S2P Require Import Prelude Bitmap Block Cache Fs Inode.
Local Open Scope Z_scope.

Section file.
Context `{FreeMapOps}.

(** file.c 19-43 file_open *)
Definition file_open (inode : option nat) : M fs (option nat) :=
  let! file := malloc in
  let fail :=
    inode_close inode;;!
    free_file file;;!
    ret None in
  match inode, file with
  | Some i, Some f =>
      let! removed := inode_is_removed i in
      if (removed : bool) then fail
      else
        let! is_dir := inode_is_dir (Some i) in
        put_file f (mkFile i 0 false is_dir);;!
        ret (Some f)
  | _, _ => fail
  end.

(** file.c 45-51 file_reopen *)
Definition file_reopen (file : nat) : M fs (option nat) :=
  let! f := get_file file in
  let! i := inode_reopen (Some (f_inode f)) in
  file_open i.

(** file.c 139-150 file_allow_write *)
Definition file_allow_write (file : option nat) : M fs unit :=
  assertM (bool_decide (file ≠ None));;!
  let! p := deref file in
  let! f := get_file p in
  whenM (f_deny_write f) (
    put_file p (set_f_deny_write false f);;!
    inode_allow_write (f_inode f)).

(** file.c 53-63 file_close *)
Definition file_close (file : option nat) : M fs unit :=
  match file with
  | Some p =>
      file_allow_write file;;!
      let! f := get_file p in
      inode_close (Some (f_inode f));;!
      free_file file
  | None => ret tt
  end.

(** file.c 65-70 file_get_inode *)
Definition file_get_inode (file : nat) : M fs nat :=
  let! f := get_file file in ret (f_inode f).

(** file.c 72-83 file_read: the bytes stored into the buffer *)
Definition file_read (file : nat) (size : Z) : M fs (list Z) :=
  let! f := get_file file in
  let! bytes := inode_read_at (f_inode f) size (f_pos f) in
  let! f := get_file file in
  put_file file (set_f_pos (s32 (f_pos f + Z.of_nat (length bytes))) f);;!
  ret bytes.

(** file.c 85-94 file_read_at *)
Definition file_read_at (file : nat) (size file_ofs : Z) : M fs (list Z) :=
  let! f := get_file file in
  inode_read_at (f_inode f) size file_ofs.

(** file.c 96-109 file_write *)
Definition file_write (file : nat) (buffer : list Z) (size : Z) : M fs Z :=
  let! f := get_file file in
  let! bytes_written := inode_write_at (f_inode f) buffer size (f_pos f) in
  let! f := get_file file in
  put_file file (set_f_pos (s32 (f_pos f + bytes_written)) f);;!
  ret bytes_written.

(** file.c 111-123 file_write_at *)
Definition file_write_at (file : nat) (buffer : list Z) (size file_ofs : Z) : M fs Z :=
  let! f := get_file file in
  inode_write_at (f_inode f) buffer size file_ofs.

(** file.c 125-136 file_deny_write *)
Definition file_deny_write (file : option nat) : M fs unit :=
  assertM (bool_decide (file ≠ None));;!
  let! p := deref file in
  let! f := get_file p in
  whenM (negb (f_deny_write f)) (
    put_file p (set_f_deny_write true f);;!
    inode_deny_write (f_inode f)).

(** file.c 152-158 file_length *)
Definition file_length (file : option nat) : M fs Z :=
  assertM (bool_decide (file ≠ None));;!
  let! p := deref file in
  let! f := get_file p in
  inode_length (f_inode f).

(** file.c 160-168 file_seek *)
Definition file_seek (file : option nat) (new_pos : Z) : M fs unit :=
  assertM (bool_decide (file ≠ None));;!
  assertM (bool_decide (new_pos >= 0));;!
  let! p := deref file in
  let! f := get_file p in
  put_file p (set_f_pos new_pos f).

(** file.c 170-177 file_tell *)
Definition file_tell (file : option nat) : M fs Z :=
  assertM (bool_decide (file ≠ None));;!
  let! p := deref file in
  let! f := get_file p in
  ret (f_pos f).

(** file.c 180-183 file_set_dir *)
Definition file_set_dir (file : option nat) (is_dir : bool) : M fs unit :=
  match file with
  | None => ret tt
  | Some p => let! f := get_file p in put_file p (set_f_is_dir is_dir f)
  end.

(** file.c 184-187 file_is_dir *)
Definition file_is_dir (file : option nat) : M fs bool :=
  match file with
  | None => ret false
  | Some p => let! f := get_file p in ret (f_is_dir f)
  end.

End file.
