(* ===== verification/FreeMap.v ===== *)
(** The free map: filesys/free-map.c of Project5, and the knot between it and
    inode.c.

    inode.c allocates sectors from the free map, and the free map writes its
    own file through inode.c.  [fm_level n] is the free map in which this
    recursion goes at most [n] deep.  The free map's file is created with the
    size of the map, so that writing it allocates nothing and one level is
    enough; should it ever grow, the nested [free_map_allocate] fails the
    assertion of [lock_acquire], as [free_map_lock] is held. *)
From S2P Require Import Prelude Bitmap Block Cache Fs Inode File.
Local Open Scope Z_scope.

(** filesys.h 8 FREE_MAP_SECTOR *)
Definition FREE_MAP_SECTOR : Z := 0.
(** filesys.h 9 ROOT_DIR_SECTOR *)
Definition ROOT_DIR_SECTOR : Z := 1.

(** free-map.c 13-23 free_map_init.  [new_map] is what [bitmap_create] returns
    for the size of the device. *)
Definition free_map_init (new_map : option bitmap) : M fs unit :=
  let! b := lift (or_panic new_map) in
  let! b := lift (bitmap_mark b FREE_MAP_SECTOR) in
  let! b := lift (bitmap_mark b ROOT_DIR_SECTOR) in
  modify (set_free_map b);;!
  modify (set_free_map_lock false).

Definition acquire_free_map_lock : M fs unit :=
  let! l := gets free_map_lock in
  let! l := lift (lock_acquire l) in
  modify (set_free_map_lock l).
Definition release_free_map_lock : M fs unit :=
  let! l := gets free_map_lock in
  let! l := lift (lock_release l) in
  modify (set_free_map_lock l).

(** [bitmap_write (free_map, file)] on the file pointer [file]. *)
Definition write_free_map `{FreeMapOps} (file : option nat) : M fs bool :=
  let! b := gets free_map in
  bitmap_write (λ bytes size ofs, let! f := deref file in file_write_at f bytes size ofs) b.

(** free-map.c 25-48 free_map_allocate *)
Definition allocate_from_map `{FreeMapOps} (cnt : Z) : M fs (option Z) :=
  acquire_free_map_lock;;!
  let! b := gets free_map in
  let! '(sector, b) := lift (bitmap_scan_and_flip b 0 cnt false) in
  modify (set_free_map b);;!
  let! file := gets free_map_file in
  let! sector :=
    if decide (sector ≠ BITMAP_ERROR ∧ file ≠ None) then
      let! written := write_free_map file in
      if (written : bool) then ret sector
      else
        let! b := gets free_map in
        let! b := lift (bitmap_set_multiple b sector cnt false) in
        modify (set_free_map b);;!
        ret BITMAP_ERROR
    else ret sector in
  release_free_map_lock;;!
  ret (if decide (sector ≠ BITMAP_ERROR) then Some sector else None).

(** free-map.c 50-57 free_map_release *)
Definition release_to_map `{FreeMapOps} (sector cnt : Z) : M fs unit :=
  let! b := gets free_map in
  let! all := lift (bitmap_all b sector cnt) in
  assertM all;;!
  let! b := lift (bitmap_set_multiple b sector cnt false) in
  modify (set_free_map b);;!
  let! file := gets free_map_file in
  let! _ := write_free_map file in
  ret tt.

Fixpoint fm_level (n : nat) : FreeMapOps :=
  match n with
  | O => {| free_map_allocate := λ _, throw OutOfFuel; free_map_release := λ _ _, throw OutOfFuel |}
  | S n =>
      {| free_map_allocate := @allocate_from_map (fm_level n);
         free_map_release := @release_to_map (fm_level n) |}
  end.

(** The free map the kernel runs. *)
#[export] Instance kernel_free_map : FreeMapOps := fm_level 3.

(** free-map.c 59-68 free_map_open *)
Definition free_map_open : M fs unit :=
  let! i := inode_open FREE_MAP_SECTOR in
  let! f := file_open i in
  modify (set_free_map_file f);;!
  let! f := lift (or_panic f) in
  let! b := gets free_map in
  let! '(ok, b) := bitmap_read (file_read_at f) b in
  modify (set_free_map b);;!
  assertM ok.

(** free-map.c 70-75 free_map_close *)
Definition free_map_close : M fs unit :=
  let! f := gets free_map_file in
  file_close f.

(** free-map.c 77-92 free_map_create *)
Definition free_map_create : M fs unit :=
  let! b := gets free_map in
  let! created := inode_create FREE_MAP_SECTOR (bitmap_file_size b) false in
  assertM created;;!
  let! i := inode_open FREE_MAP_SECTOR in
  let! f := file_open i in
  modify (set_free_map_file f);;!
  let! _ := lift (or_panic f) in
  let! written := write_free_map f in
  assertM written.
