(* ===== verification/FreeMapLaws.v ===== *)
(** What the free map promises to inode.c, and the proof that free-map.c keeps
    it: its file is written in place, so that the recursion through inode.c
    never allocates. *)
From S2P Require Import Prelude Bitmap Block Cache Handles Fs Inode InodeTree InodeIO File FreeMap.
Local Open Scope Z_scope.

(** The state after calls into the free map: only the contents of the cache
    and the bits of the map may have changed. *)
Definition after (s : fs) (c : cache) (b : bitmap) : fs := set_free_map b (set_cache c s).

(** [I] is the free map's invariant and [S] the sectors of its file, of which
    the inode in memory is at [p]. *)
Class FreeMapLaws (ops : FreeMapOps) (I : fs → Prop) (S : Z → Prop) (p : nat) : Prop := {
  fm_frame : ∀ s s', I s →
    free_map s' = free_map s → free_map_file s' = free_map_file s →
    free_map_lock s' = free_map_lock s → files s' = files s →
    inodes s' !! p = inodes s !! p → dsize s' = dsize s →
    (∀ j, S j → sview s' j = sview s j ∧ locked (fs_cache s') j = locked (fs_cache s) j) →
    I s';
  fm_bits : ∀ s, I s → wf (free_map s) ∧ bit_cnt (free_map s) = dsize s ∧
    ∀ j, S j → 0 ≤ j < dsize s ∧ get_bit (free_map s) j = true;
  fm_allocate : ∀ s, I s → ready (fs_cache s) 2 →
    ∃ r c b, free_map_allocate 1 s = Ret (r, after s c b) ∧ I (after s c b) ∧
      touch S (fs_cache s) c ∧
      match r with
      | Some n => 0 ≤ n < dsize s ∧ get_bit (free_map s) n = false ∧
          ∀ j, 0 ≤ j < dsize s → get_bit b j = bool_decide (j = n) || get_bit (free_map s) j
      | None => b = free_map s ∧ ∀ j, 0 ≤ j < dsize s → get_bit (free_map s) j = true
      end;
  fm_release : ∀ s n, I s → ready (fs_cache s) 2 → 0 ≤ n < dsize s → ¬ S n →
    get_bit (free_map s) n = true →
    ∃ c b, free_map_release n 1 s = Ret (tt, after s c b) ∧ I (after s c b) ∧
      touch S (fs_cache s) c ∧
      ∀ j, 0 ≤ j < dsize s → get_bit b j = negb (bool_decide (j = n)) && get_bit (free_map s) j;
}.

(** ** The invariant of free-map.c *)
Section invariant.
Context (p : nat) (i : inode) (d : list Z) (S : Z → Prop).

(** The free map's file is open, all of its sectors are marked, and it holds
    the map. *)
Record fm_core (s : fs) : Prop := {
  fi_wf : wf (free_map s);
  fi_cnt : bit_cnt (free_map s) = dsize s;
  fi_file : ∃ f fl, free_map_file s = Some f ∧ files s !! f = Some fl ∧ f_inode fl = p;
  fi_open : open_at s p i d;
  fi_allow : deny_write_cnt i = 0;
  fi_unlocked : locked (fs_cache s) (i_sector i) = false;
  fi_size : byte_cnt (bit_cnt (free_map s)) ≤ i_length i;
  fi_sectors : ∀ j, S j ↔ j = i_sector i ∨ node (sview s) d (sectors_of i) j;
  fi_marked : ∀ j, S j → get_bit (free_map s) j = true;
  fi_synced : take (length (words_bytes (bits (free_map s)))) (file_bytes s d (i_length i)) =
    words_bytes (bits (free_map s));
}.

(** The same between calls, when nobody is in the free map. *)
Definition fm_inv (s : fs) : Prop := free_map_lock s = false ∧ fm_core s.

Lemma fm_core_range s j : fm_core s → S j → 0 ≤ j < dsize s.
Proof.
  intros Hi [-> | Hn]%(fi_sectors _ Hi); [apply (fi_open _ Hi)|].
  eapply node_range; [apply (fi_open _ Hi)|done].
Qed.

Lemma fm_core_frame s s' :
  fm_core s → free_map s' = free_map s → free_map_file s' = free_map_file s → files s' = files s → inodes s' !! p = inodes s !! p →
  dsize s' = dsize s →
  (∀ j, S j → sview s' j = sview s j ∧ locked (fs_cache s') j = locked (fs_cache s) j) →
  fm_core s'.
Proof.
  intros [Hw Hc Hf Ho Ha Hu Hs HS Hm Hy] Eb Ef Efs Ei Ez Hv.
  assert (Hin : ∀ j, inner (sview s) d (sectors_of i) j → sview s' j = sview s j).
  { intros j Hj. apply Hv, HS. by right; left. }
  assert (HSi : S (i_sector i)) by (apply HS; by left).
  assert (Ho' : open_at s' p i d).
  { destruct Ho as [Hi Hsec Hd Hlen Ht Hh]. split; try done.
    - by rewrite Ei.
    - by rewrite Ez.
    - by rewrite <-Hd; apply Hv.
    - rewrite Ez. by eapply frame_tree.
    - by rewrite (frame_node (sview s)). }
  split; rewrite ?Eb, ?Ef, ?Efs, ?Ez; try done.
  - rewrite <-Hu. by apply Hv.
  - intros j. rewrite HS. by rewrite (frame_node (sview s) (sview s')).
  - rewrite <-Hy at 2. f_equal. apply list_fmap_ext. intros _ q Hq%list_elem_of_lookup_2%elem_of_seqZ.
    pose proof (oa_len _ _ _ _ Ho). unfold byte_at.
    rewrite (frame_l3 (sview s) _ d (sectors_of i)) by (done || (unfold sectors_of; mlia)).
    destruct (Hv (l3 (sview s) d (q / 512))) as [-> _]; [|done].
    apply HS. right; right. apply leaf_l3. unfold sectors_of. mlia.
Qed.

(** ** Writing the map *)
Lemma image_size b : wf b → Z.of_nat (length (words_bytes (bits b))) = byte_cnt (bit_cnt b).
Proof.
  intros Hw. rewrite image_length by done. unfold byte_cnt. rewrite u32_small; [done|].
  pose proof (wf_cnt _ Hw). rewrite elem_cnt_eq by lia. mlia.
Qed.

(** The invariant but for the bits, which [b] replaces. *)
Lemma write_free_map_ok `{FreeMapOps} s b f fl :
  fm_core s → ready (fs_cache s) 2 → wf b → bit_cnt b = dsize s → (∀ j, S j → get_bit b j = true) →
  files s !! f = Some fl → f_inode fl = p → free_map_file s = Some f →
  ∃ c, write_free_map (Some f) (set_free_map b s) = Ret (true, after s c b) ∧
    touch S (fs_cache s) c ∧ fm_core (after s c b).
Proof.
  intros Hinv Hr Hw Hb HbS Hf Hfl Hff. pose proof Hinv as [Hw0 Hc _ Ho Ha Hu Hs HS Hm _].
  pose proof (image_size b Hw) as Him. pose proof (oa_len _ _ _ _ Ho) as Hlen.
  assert (Hsz : byte_cnt (bit_cnt b) ≤ i_length i) by (by rewrite Hb, <-Hc).
  destruct (overwrite_ok (set_free_map b s) p i d (words_bytes (bits b))
    (byte_cnt (bit_cnt b)) 0) as (c & Hrun & Ht & Ho' & Hby); [|done..|lia|lia|lia|].
  { destruct Ho. by split. }
  exists c. split; [|split].
  - unfold write_free_map. rewrite (bind_run (gets free_map) _ (set_free_map b s) b _ eq_refl).
    unfold bitmap_write. rewrite s32_small by lia. rewrite bind_assoc.
    rewrite (bind_run (deref (Some f)) _ (set_free_map b s) f _ eq_refl). unfold file_write_at.
    rewrite bind_assoc, (bind_run (get_file f) _ (set_free_map b s) fl (set_free_map b s))
      by (unfold get_file; simpl; by rewrite Hf).
    rewrite Hfl, (bind_run _ _ _ _ _ Hrun). by rewrite bool_decide_true.
  - eapply touch_mono; [exact Ht|]. intros j Hj. apply HS. right; right. exact Hj.
  - assert (Hin : ∀ j, inner (sview s) d (sectors_of i) j → view c j = sview s j).
    { intros j Hj. apply (tc_view _ _ _ Ht). eapply inner_not_leaf; [apply Ho|done]. }
    assert (Hz : dsize (after s c b) = dsize s) by apply (st_size _ _ (tc_steady _ _ _ Ht)).
    split; rewrite ?Hz; try done.
    + by exists f, fl.
    + etrans; [apply (st_locked _ _ (tc_steady _ _ _ Ht))|exact Hu].
    + intros j. rewrite HS. by rewrite (frame_node (sview s) (sview (after s c b))).
    + change (file_bytes (after s c b)) with (file_bytes (set_cache c (set_free_map b s))).
      rewrite Hby, (take_ge (words_bytes (bits b))) by lia. unfold splice. simpl.
      by rewrite take_app_le, take_ge by lia.
Qed.
End invariant.

(** ** Single bits *)
Lemma set_one_bit b b' r v j :
  bit_cnt b' = bit_cnt b → 0 ≤ r < bit_cnt b → 0 ≤ j < bit_cnt b →
  abs b' = splice (abs b) (Z.to_nat r) (replicate (Z.to_nat 1) v) →
  get_bit b' j = if decide (j = r) then v else get_bit b j.
Proof.
  intros Hc Hr Hj Ha. pose proof (length_abs b) as Hl.
  assert (E : abs b' !! Z.to_nat j = Some (get_bit b' j)) by (apply lookup_abs; lia).
  rewrite Ha in E. case_decide as Ej.
  - subst j. rewrite lookup_splice_new in E by (simpl; lia). rewrite Nat.sub_diag in E.
    by simplify_eq/=.
  - rewrite lookup_splice_old in E by (simpl; lia). rewrite lookup_abs in E by lia.
    by simplify_eq/=.
Qed.

(** ** The free map at every depth of the recursion keeps the promise *)
Section laws.
Context (p : nat) (i : inode) (d : list Z) (S : Z → Prop) `{ops : FreeMapOps}.

Lemma acquire_lock_run s :
  fm_inv p i d S s → acquire_free_map_lock s = Ret (tt, set_free_map_lock true s).
Proof.
  intros [Hl _]. unfold acquire_free_map_lock, bind, gets, lift, modify, lock_acquire, ASSERT.
  by rewrite Hl.
Qed.

Lemma core_locked l s : fm_core p i d S s → fm_core p i d S (set_free_map_lock l s).
Proof. intros Hc. by apply (fm_core_frame p i d S s). Qed.

Lemma map_allocate_ok s :
  fm_inv p i d S s → ready (fs_cache s) 2 →
  ∃ r c b, allocate_from_map 1 s = Ret (r, after s c b) ∧ fm_inv p i d S (after s c b) ∧
    touch S (fs_cache s) c ∧
    match r with
    | Some n => 0 ≤ n < dsize s ∧ get_bit (free_map s) n = false ∧
        ∀ j, 0 ≤ j < dsize s → get_bit b j = bool_decide (j = n) || get_bit (free_map s) j
    | None => b = free_map s ∧ ∀ j, 0 ≤ j < dsize s → get_bit (free_map s) j = true
    end.
Proof.
  intros Hinv Hr. pose proof Hinv as [Hl Hcore]. pose proof Hcore as [Hw Hcnt (f & fl & Hf & Hfl & Hp) _ _ _ _ HS Hm _].
  unfold allocate_from_map. mrun (acquire_lock_run s Hinv).
  destruct (bitmap_scan_and_flip_spec (free_map s) 0 1 false) as (r & b & Hrun & Hwb & Hcb & Hcase);
    [done|pose proof (wf_cnt _ Hw); lia|lia|].
  change (free_map (set_free_map_lock true s)) with (free_map s). rewrite Hrun. msteps.
  change (free_map_file (set_free_map b (set_free_map_lock true s))) with (free_map_file s).
  rewrite Hf. destruct Hcase as [(Hne & Hr0 & Hr1 & Hall & _ & Habs)|(-> & -> & Hno)].
  - rewrite seg_one in Hall by lia. apply Forall_cons in Hall as [Hall _].
    assert (Hbit : ∀ j, 0 ≤ j < dsize s → get_bit b j = bool_decide (j = r) || get_bit (free_map s) j).
    { intros j Hj. rewrite (set_one_bit (free_map s) b r true j) by (done || lia).
      case_decide; [by rewrite bool_decide_true|by rewrite bool_decide_false]. }
    destruct (write_free_map_ok p i d S (set_free_map_lock true s) b f fl) as (c & Hwr & Ht & Hc');
      [by apply core_locked|done|done|by rewrite Hcb| |done..|].
    { intros j Hj. rewrite Hbit, Hm, orb_true_r; [done..|]. by apply (fm_core_range p i d S). }
    rewrite decide_True by done. mrun Hwr. rewrite decide_True by done.
    exists (Some r), c, b. split; [|split; [|split; [done|]]].
    + unfold release_free_map_lock, bind, gets, lift, modify, lock_release, ASSERT, ret, after.
      simpl. destruct s. simpl in *. by subst.
    + split; [done|]. apply (core_locked false) in Hc'. destruct s. simpl in *. by subst.
    + split; [lia|]. split; [exact Hall|exact Hbit].
  - rewrite decide_False by naive_solver. msteps.
    exists None, (fs_cache s), (free_map s). unfold after. rewrite set_cache_id.
    assert (E : set_free_map (free_map s) s = s) by (by destruct s). rewrite E.
    split; [|split; [done|split; [apply touch_refl|split; [done|]]]].
    + unfold release_free_map_lock, bind, gets, lift, modify, lock_release, ASSERT, ret.
      simpl. destruct s. simpl in *. by subst.
    + intros j Hj. destruct (get_bit (free_map s) j) eqn:Ej; [done|].
      exfalso. apply (Hno j); [lia..|]. rewrite seg_one by lia. by constructor.
Qed.

Lemma map_release_ok s n :
  fm_inv p i d S s → ready (fs_cache s) 2 → 0 ≤ n < dsize s → ¬ S n →
  get_bit (free_map s) n = true →
  ∃ c b, release_to_map n 1 s = Ret (tt, after s c b) ∧ fm_inv p i d S (after s c b) ∧
    touch S (fs_cache s) c ∧
    ∀ j, 0 ≤ j < dsize s → get_bit b j = negb (bool_decide (j = n)) && get_bit (free_map s) j.
Proof.
  intros [Hl Hcore] Hr Hn HSn Hb. pose proof Hcore as [Hw Hcnt (f & fl & Hf & Hfl & Hp) _ _ _ _ HS Hm _].
  unfold release_to_map. msteps. rewrite bitmap_all_spec by (done || lia).
  rewrite bool_decide_true by (rewrite seg_one by lia; by constructor). msteps.
  rewrite (bind_run (assertM true) _ _ tt s eq_refl). msteps.
  destruct (bitmap_set_multiple_spec (free_map s) n 1 false) as (b & Hrun & Hwb & Hcb & Habs);
    [done|lia..|].
  rewrite Hrun. msteps. change (free_map_file (set_free_map b s)) with (free_map_file s). rewrite Hf.
  assert (Hbit : ∀ j, 0 ≤ j < dsize s →
    get_bit b j = negb (bool_decide (j = n)) && get_bit (free_map s) j).
  { intros j Hj. rewrite (set_one_bit (free_map s) b n false j) by (done || lia).
    case_decide; [by rewrite bool_decide_true|by rewrite bool_decide_false]. }
  destruct (write_free_map_ok p i d S s b f fl) as (c & Hwr & Ht & Hc'); [done|done|done|by rewrite Hcb| |done..|].
  { intros j Hj. rewrite Hbit, Hm by (done || by apply (fm_core_range p i d S)).
    rewrite bool_decide_false; [done|]. by intros ->. }
  mrun Hwr. by exists c, b.
Qed.
End laws.

Lemma kernel_map_laws (p : nat) (i : inode) (d : list Z) (S : Z → Prop) (n : nat) :
  FreeMapLaws (fm_level (Datatypes.S n)) (fm_inv p i d S) S p.
Proof.
  split; simpl.
  - intros s s' [Hl Hc] Eb Ef El Efs Ei Ez Hv. split; [congruence|].
    by apply (fm_core_frame p i d S s).
  - intros s [_ Hc]. split; [apply Hc|]. split; [apply Hc|]. intros j Hj.
    split; [by apply (fm_core_range p i d S)|by apply Hc].
  - intros. by apply map_allocate_ok.
  - intros. by apply map_release_ok.
Qed.

(** C32: the free map of the kernel, at any depth of at least one of the recursion
    through inode.c, keeps the promise that inode.c relies on: allocating a
    sector returns one that was free, marks it and nothing else, or reports that
    every sector is in use; releasing one unmarks just it; both write the map
    to the map's file, in place, and change no sector outside that file. *)
Theorem kernel_free_map_laws (p : nat) (i : inode) (d : list Z) (S : Z → Prop) (n : nat) :
  FreeMapLaws (fm_level (Datatypes.S n)) (fm_inv p i d S) S p.
Proof. apply kernel_map_laws. Qed.
