(* ===== verification/InodeGrow.v ===== *)
(** Growing an inode: [allocate_inode_sector] of inode.c adds one data sector
    at the end of the tree, with the index sectors it needs, all of them
    sectors that were free. *)
From S2P Require Import Prelude Bitmap Block Cache Handles Fs Inode InodeTree InodeIO File FreeMap FreeMapLaws.
Local Open Scope Z_scope.

(** ** Steps of the file system state *)

(** From [s] to [s'] only the sectors in [P], the map, and the buffers may have
    changed. *)
Record fstep (P : Z → Prop) (s s' : fs) : Prop := {
  fp_touch : touch P (fs_cache s) (fs_cache s');
  fp_inodes : inodes s' = inodes s;
  fp_files : files s' = files s;
  fp_dirs : dirs s' = dirs s;
  fp_next : next s' = next s;
  fp_mallocs : mallocs s' = mallocs s;
  fp_open : open_inodes s' = open_inodes s;
  fp_file : free_map_file s' = free_map_file s;
  fp_lock : free_map_lock s' = free_map_lock s;
  fp_pwd : pwd s' = pwd s;
}.

Lemma fstep_refl P s : fstep P s s.
Proof. by split; [apply touch_refl|..]. Qed.

Lemma fstep_trans P s1 s2 s3 : fstep P s1 s2 → fstep P s2 s3 → fstep P s1 s3.
Proof. intros [] []. split; try congruence. by eapply touch_trans. Qed.

Lemma fstep_mono (P Q : Z → Prop) s s' : (∀ j, P j → Q j) → fstep P s s' → fstep Q s s'.
Proof. intros ? []. split; try done. by eapply touch_mono. Qed.

Lemma fstep_cache P s c : touch P (fs_cache s) c → fstep P s (set_cache c s).
Proof. intros. by split. Qed.
Lemma fstep_after P s c b : touch P (fs_cache s) c → fstep P s (after s c b).
Proof. intros. by split. Qed.

Lemma fstep_dsize P s s' : fstep P s s' → dsize s' = dsize s.
Proof. intros []. apply (st_size _ _ (tc_steady _ _ _ fp_touch0)). Qed.
Lemma fstep_view P s s' j : fstep P s s' → ¬ P j → sview s' j = sview s j.
Proof. intros []. apply (tc_view _ _ _ fp_touch0). Qed.
Lemma fstep_locked P s s' j : fstep P s s' → locked (fs_cache s') j = locked (fs_cache s) j.
Proof. intros []. apply (st_locked _ _ (tc_steady _ _ _ fp_touch0)). Qed.
Lemma fstep_ready P s s' k : fstep P s s' → ready (fs_cache s) k → ready (fs_cache s') k.
Proof. intros [] ?. eapply ready_steady; [done|]. apply (tc_steady _ _ _ fp_touch0). Qed.

(** ** Filling a sector with one word *)
Lemma set_word_words x k ws w :
  length x = 512%nat → 0 ≤ k → Z.to_nat k = length ws → k < 128 →
  set_word (splice x 0 (words_bytes ws)) k w = splice x 0 (words_bytes (ws ++ [w])).
Proof.
  intros Hx Hk Hw Hk'. unfold set_word. pose proof (length_words_bytes ws) as Hl.
  replace (Z.to_nat (4 * k)) with (0 + length (words_bytes ws))%nat by lia.
  rewrite splice_splice by (rewrite ?le32_length; lia). f_equal.
  unfold words_bytes. by rewrite bind_app.
Qed.

Lemma fill_ok n : ∀ c s sector blk h ws x w,
  held c (fs_cache s) sector blk h → length x = 512%nat → (length ws + n ≤ 128)%nat →
  sview s sector = Some (splice x 0 (words_bytes ws)) →
  ∃ c', for_up n (Z.of_nat (length ws)) (λ j, store_word (Cached h) j w) s = Ret (tt, set_cache c' s) ∧
    touch (.= sector) (fs_cache s) c' ∧ held c c' sector blk h ∧
    view c' sector = Some (splice x 0 (words_bytes (ws ++ replicate n w))).
Proof.
  induction n as [|n IH]; intros c s sector blk h ws x w Hh Hx Hlen Hv; simpl.
  { exists (fs_cache s). rewrite set_cache_id, app_nil_r. split; [done|]. split; [apply touch_refl|done]. }
  destruct (load_disk_ok _ _ _ _ _ Hh) as (y & Hy & Hl). unfold sview in Hv. rewrite Hv in Hy. simplify_eq.
  assert (Hsl : length (splice x 0 (words_bytes (ws ++ [w]))) = 512%nat).
  { rewrite length_splice; [done|]. rewrite length_words_bytes, length_app. simpl. lia. }
  destruct (store_disk_ok _ _ _ _ _ (splice x 0 (words_bytes (ws ++ [w]))) Hh Hsl) as (c2 & Hst & Hs2 & Hv2 & Hc2).
  assert (Hsw : store_word (Cached h) (Z.of_nat (length ws)) w s = Ret (tt, set_cache c2 s)).
  { unfold store_word. mrun Hl. rewrite set_word_words by (done || lia). exact Hst. }
  rewrite (bind_run _ _ _ _ _ Hsw).
  destruct (IH c (set_cache c2 s) sector blk h (ws ++ [w]) x w) as (c3 & Hrun & Ht3 & Hh3 & Hv3).
  - by eapply held_steady.
  - done.
  - rewrite length_app. simpl. lia.
  - unfold sview. simpl. by rewrite Hv2, at_idx_eq.
  - exists c3. rewrite length_app in Hrun. simpl in Hrun. rewrite Nat2Z.inj_add in Hrun. split; [exact Hrun|].
    split; [|split; [done|by rewrite Hv3, <-app_assoc]].
    eapply touch_trans; [|exact Ht3]. split; [done|..]; intros j Hj.
    + by rewrite Hv2, at_idx_ne.
    + by apply Hc2.
Qed.

(** A sector of 128 equal words. *)
Definition filled (w : Z) : list Z := words_bytes (replicate 128 w).

Lemma length_filled w : length (filled w) = 512%nat.
Proof. unfold filled. by rewrite length_words_bytes, length_replicate. Qed.

Lemma bytes_word d k : word d k = unle32 (take 4 (drop (Z.to_nat (4 * k)) d)).
Proof. done. Qed.

Lemma word_filled w k : 0 ≤ k < 128 → 0 ≤ w < 4294967296 → word (filled w) k = w.
Proof.
  intros Hk Hw. unfold filled. 
  rewrite <-(take_drop_middle (replicate 128 w) (Z.to_nat k) w) by (apply lookup_replicate; lia).
  unfold words_bytes. rewrite bind_app. rewrite bytes_word.
  rewrite drop_app_ge by (fold (words_bytes (take (Z.to_nat k) (replicate 128 w)));
    rewrite length_words_bytes, length_take, length_replicate; lia).
  fold (words_bytes (take (Z.to_nat k) (replicate 128 w))).
  rewrite length_words_bytes, length_take, length_replicate.
  replace (Z.to_nat (4 * k) - 4 * (Z.to_nat k `min` 128))%nat with 0%nat by lia.
  rewrite drop_0, bind_cons, take_app_le, take_ge by done. by apply unle32_le32.
Qed.

Lemma fill_all_ok c s sector blk h w :
  held c (fs_cache s) sector blk h → 0 ≤ sector < dsize s →
  ∃ c', for_up 128 0 (λ j, store_word (Cached h) j w) s = Ret (tt, set_cache c' s) ∧
    touch (.= sector) (fs_cache s) c' ∧ held c c' sector blk h ∧ view c' sector = Some (filled w).
Proof.
  intros Hh Hsec. pose proof (hd_inv _ _ _ _ _ Hh) as Hinv.
  destruct (view_some (fs_cache s) sector Hinv Hsec) as [x Hx].
  pose proof (view_length _ _ _ Hinv Hx) as Hl.
  destruct (fill_ok 128 c s sector blk h [] x w Hh Hl) as (c' & Hrun & ? & ? & Hv); [done|..].
  { change (words_bytes []) with (@nil Z). by rewrite splice_nil. }
  exists c'. split_and!; try done. rewrite Hv. f_equal.
  change (words_bytes ([] ++ replicate 128 w)) with (filled w).
  unfold splice. rewrite (drop_ge x) by (rewrite length_filled; lia). rewrite take_0, app_nil_r. done.
Qed.

(** ** Free sectors *)
Fixpoint count_free (f : Z → bool) (l : list Z) : Z :=
  match l with
  | [] => 0
  | j :: l => (if f j then 0 else 1) + count_free f l
  end.

(** The number of sectors that are not marked. *)
Definition free_cnt (s : fs) : Z := count_free (get_bit (free_map s)) (seqZ 0 (dsize s)).

Lemma count_free_ext f g l : (∀ j, j ∈ l → g j = f j) → count_free g l = count_free f l.
Proof.
  induction l as [|j l IH]; intros Hg; simpl; [done|].
  rewrite Hg, IH; [done|..]; intros; [apply Hg|]; set_solver.
Qed.

Lemma count_free_mark f g n l :
  NoDup l → (∀ j, j ∈ l → g j = bool_decide (j = n) || f j) → n ∈ l → f n = false →
  count_free f l = count_free g l + 1.
Proof.
  intros Hnd Hg Hn Hf. induction Hnd as [|j l Hj Hnd IH]; [by apply elem_of_nil in Hn|].
  simpl. rewrite (Hg j) by set_solver. apply elem_of_cons in Hn as [<-|Hn].
  - rewrite bool_decide_true by done. simpl. rewrite Hf, (count_free_ext f g); [lia|].
    intros k Hk. rewrite Hg by set_solver. rewrite bool_decide_false; [done|]. by intros ->.
  - rewrite IH by (done || set_solver). rewrite bool_decide_false by (by intros ->). simpl. lia.
Qed.

Lemma count_free_pos f l : 0 < count_free f l → ∃ j, j ∈ l ∧ f j = false.
Proof.
  induction l as [|j l IH]; simpl; [lia|]. intros H. destruct (f j) eqn:E.
  - destruct IH as (k & ? & ?); [lia|]. exists k. set_solver.
  - exists j. set_solver.
Qed.

(** The map [b'] is [b] with [n] marked. *)
Definition marks (sz : Z) (b b' : bitmap) (n : Z) : Prop :=
  0 ≤ n < sz ∧ get_bit b n = false ∧
  ∀ j, 0 ≤ j < sz → get_bit b' j = bool_decide (j = n) || get_bit b j.

Lemma marks_cnt s s' n :
  marks (dsize s) (free_map s) (free_map s') n → dsize s' = dsize s → free_cnt s' = free_cnt s - 1.
Proof.
  intros (Hn & Hf & Hm) Hz. unfold free_cnt. rewrite Hz.
  rewrite (count_free_mark (get_bit (free_map s)) (get_bit (free_map s')) n (seqZ 0 (dsize s))).
  - lia.
  - apply NoDup_seqZ.
  - intros j Hj%elem_of_seqZ. apply Hm. lia.
  - apply elem_of_seqZ. lia.
  - done.
Qed.

(** ** Allocating *)
Section allocate.
Context `{ops : FreeMapOps} (I : fs → Prop) (S : Z → Prop) (fp : nat).
Context `{!FreeMapLaws ops I S fp}.

(** While some sector is free, allocation succeeds. *)
Lemma allocate_some s :
  I s → ready (fs_cache s) 2 → 0 < free_cnt s →
  ∃ n s', free_map_allocate 1 s = Ret (Some n, s') ∧ I s' ∧ fstep S s s' ∧ bufs s' = bufs s ∧
    marks (dsize s) (free_map s) (free_map s') n.
Proof.
  intros Hi Hr Hf. destruct (fm_allocate s Hi Hr) as ([n|] & c & b & Hrun & Hi' & Ht & Hcase).
  - exists n, (after s c b). split; [done|]. split; [done|]. split; [by apply fstep_after|].
    split; [done|]. destruct Hcase as (? & ? & ?). done.
  - destruct Hcase as [_ Hall]. apply count_free_pos in Hf as (j & Hj%elem_of_seqZ & Hb).
    rewrite Hall in Hb by lia. done.
Qed.

Lemma inv_cache s c :
  I s → size (fs_device c) = dsize s →
  (∀ j, S j → view c j = sview s j ∧ locked c j = locked (fs_cache s) j) → I (set_cache c s).
Proof. intros Hi Hz Hv. by apply (fm_frame s). Qed.

(** Taking a sector that is not the free map's keeps its invariant. *)
Lemma inv_held s c1 sec blk h :
  I s → held (fs_cache s) c1 sec blk h → (∀ j, view c1 j = view (fs_cache s) j) → ¬ S sec →
  I (set_cache c1 s).
Proof.
  intros Hi Hh Hv HS. apply inv_cache; [done|by rewrite (hd_size _ _ _ _ _ Hh)|].
  intros j Hj. split; [apply Hv|]. rewrite (hd_locked _ _ _ _ _ Hh), at_idx_ne; [done|]. by intros ->.
Qed.

Lemma inv_touch s c sec :
  I s → touch (.= sec) (fs_cache s) c → ¬ S sec → I (set_cache c s).
Proof.
  intros Hi [Hst Hv _] HS. apply inv_cache; [done|by rewrite (st_size _ _ Hst)|].
  intros j Hj. split; [apply Hv; by intros ->|by rewrite (st_locked _ _ Hst)].
Qed.

Lemma load_word_held c s sec blk h x k :
  held c (fs_cache s) sec blk h → sview s sec = Some x → load_word (Cached h) k s = Ret (word x k, s).
Proof.
  intros Hh Hx. destruct (load_disk_ok _ _ _ _ _ Hh) as (y & Hy & Hl). unfold sview in Hx.
  rewrite Hy in Hx. simplify_eq. by apply load_word_run.
Qed.

Lemma store_word_held c s sec blk h x k w :
  held c (fs_cache s) sec blk h → sview s sec = Some x → length x = 512%nat → 0 ≤ k < 128 →
  ∃ c', store_word (Cached h) k w s = Ret (tt, set_cache c' s) ∧ touch (.= sec) (fs_cache s) c' ∧
    view c' sec = Some (set_word x k w).
Proof.
  intros Hh Hx Hl Hk. destruct (load_disk_ok _ _ _ _ _ Hh) as (y & Hy & Hld). unfold sview in Hx.
  rewrite Hy in Hx. simplify_eq. pose proof (length_set_word x k w Hl Hk) as Hl'.
  destruct (store_disk_ok _ _ _ _ _ (set_word x k w) Hh Hl') as (c' & Hst & Hs & Hv & Hc).
  exists c'. split; [unfold store_word; by mrun Hld|]. split; [|by rewrite Hv, at_idx_eq].
  split; [done|..]; intros j Hj; [by rewrite Hv, at_idx_ne|auto].
Qed.

(** The sector handed to a level of the walk: not the free map's, in use, and
    not locked. *)
Record index_sector (s : fs) (sec : Z) : Prop := {
  ix_range : 0 ≤ sec < dsize s;
  ix_other : ¬ S sec;
  ix_used : get_bit (free_map s) sec = true;
  ix_unlocked : locked (fs_cache s) sec = false;
}.

(** What a level finds in its sector: the contents it has, or, in a sector just
    allocated, no pointers. *)
Definition found (s : fs) (sec : Z) (fresh : bool) (x : list Z) : Prop :=
  if fresh then x = filled NONE32 else sview s sec = Some x.

(** Taking the sector and clearing it if it is new. *)
Lemma enter_level_ok s sec (fresh : bool) :
  I s → ready (fs_cache s) 3 → index_sector s sec →
  ∃ h c1 c2 x, get_sector_handle sec true s = Ret (Some h, set_cache c1 s) ∧
    whenM fresh (for_up 128 0 (λ j, store_word (Cached h) j NONE32)) (set_cache c1 s) =
      Ret (tt, set_cache c2 s) ∧
    held (fs_cache s) c2 sec true h ∧ (∀ j, j ≠ sec → view c2 j = sview s j) ∧
    (∀ j, j ≠ sec ∨ fresh = false → clean (fs_cache s) j → clean c2 j) ∧
    (fresh = false → own (fs_cache s) sec = 0 → clean c2 sec) ∧
    view c2 sec = Some x ∧ found s sec fresh x ∧ length x = 512%nat ∧ I (set_cache c2 s).
Proof.
  intros Hi Hr [Hsec HS Hb Hul].
  destruct (get_handle_ok s sec true 2) as (h & c1 & Hg & Hh & Hv & Hc); [done..|].
  pose proof (inv_held _ _ _ _ _ Hi Hh Hv HS) as Hi1.
  destruct fresh; simpl.
  - destruct (fill_all_ok (fs_cache s) (set_cache c1 s) sec true h NONE32) as (c2 & Hrun & Ht & Hh2 & Hx).
    { done. } { unfold dsize. simpl. rewrite (hd_size _ _ _ _ _ Hh). exact Hsec. }
    exists h, c1, c2, (filled NONE32). split_and!; try done.
    + intros j Hj. rewrite (tc_view _ _ _ Ht) by done. apply Hv.
    + intros j [Hj|] Hcj; [|done]. apply (tc_clean _ _ _ Ht); [done|]. by apply Hc.
    + by apply (inv_touch (set_cache c1 s) c2 sec).
  - destruct (view_some c1 sec (hd_inv _ _ _ _ _ Hh)) as [x Hx].
    { by rewrite (hd_size _ _ _ _ _ Hh). }
    exists h, c1, c1, x. split_and!; try done.
    + intros j _. apply Hc.
    + intros _. by eapply held_clean.
    + rewrite <-Hx. symmetry. apply Hv.
    + by eapply view_length; [apply (hd_inv _ _ _ _ _ Hh)|].
Qed.

(** A level whose entry is empty gets a new sector there. *)
Lemma new_level_ok s sec id ids fresh :
  I s → ready (fs_cache s) 3 → index_sector s sec → 0 ≤ id < 128 → 0 < free_cnt s →
  (fresh = false → wd (sview s) sec id = NONE32) →
  ∃ m s' x, allocate_levels (id :: ids) sec fresh s = allocate_levels ids m true s' ∧
    I s' ∧ fstep (λ j, S j ∨ j = sec) s s' ∧ bufs s' = bufs s ∧
    marks (dsize s) (free_map s) (free_map s') m ∧
    found s sec fresh x ∧ length x = 512%nat ∧ sview s' sec = Some (set_word x id m).
Proof.
  intros Hi Hr Hix Hid Hf Hnone. pose proof Hix as [Hsec HS Hb Hul].
  destruct (enter_level_ok s sec fresh Hi Hr Hix) as
    (h & c1 & c2 & x & Hg & Hfill & Hh & Hv & Hc & _ & Hx & Hfound & Hlx & Hi2).
  pose proof (device_bound _ (rd_inv _ _ Hr)) as Hdev.
  set (s2 := set_cache c2 s) in *.
  assert (Hz2 : dsize s2 = dsize s) by apply (hd_size _ _ _ _ _ Hh).
  simpl allocate_levels at 1. mrun Hg. mrun Hfill. fold s2.
  mrun (load_word_held _ s2 _ _ _ x id Hh Hx).
  assert (E : word x id = NONE32).
  { destruct fresh; simpl in Hfound; [subst x; by apply word_filled|].
    rewrite <-(Hnone eq_refl). unfold wd. by rewrite Hfound. }
  rewrite decide_True by done.
  destruct (allocate_some s2 Hi2) as (m & s3 & Hal & Hi3 & Hst3 & Hb3 & Hm).
  { by eapply held_ready. } { unfold free_cnt. by rewrite Hz2. }
  rewrite Hz2 in Hm. mrun Hal. pose proof Hm as (Hm0 & Hm1 & _).
  assert (Hh3 : held (fs_cache s) (fs_cache s3) sec true h).
  { eapply held_steady; [exact Hh|]. apply (tc_steady _ _ _ (fp_touch _ _ _ Hst3)). }
  assert (Hx3 : sview s3 sec = Some x) by (by rewrite (fstep_view _ _ _ _ Hst3)).
  destruct (store_word_held _ s3 _ _ _ x id m Hh3 Hx3 Hlx Hid) as (c4 & Hw & Ht4 & Hx4).
  mrun Hw. assert (Hh4 : held (fs_cache s) c4 sec true h) by (eapply held_steady; [done|apply Ht4]).
  mrun (load_word_held _ (set_cache c4 s3) _ _ _ (set_word x id m) id Hh4 Hx4).
  destruct (release_handle_ok _ (set_cache c4 s3) sec true h true Hh4) as (c5 & Hrel & Hs5 & Hv5 & Hc5);
    [|by auto|].
  { unfold dsize. simpl. rewrite (hd_size _ _ _ _ _ Hh4). exact Hsec. }
  mrun Hrel. rewrite word_set_eq by (done || (unfold NONE32 in *; unfold dsize in *; lia)).
  set (s5 := set_cache c5 (set_cache c4 s3)).
  exists m, s5, x. split; [done|].
  assert (Hne : ∀ j, j ≠ sec → view c5 j = sview s3 j).
  { intros j Hj. rewrite Hv5. simpl. by apply (tc_view _ _ _ Ht4). }
  split; [|split; [|split; [done|split; [done|split; [done|split; [done|]]]]]].
  - apply (fm_frame s3); try done.
    + rewrite (fstep_dsize _ _ _ Hst3), Hz2. apply (st_size _ _ Hs5).
    + intros j Hj. split; [apply Hne; by intros ->|]. simpl. rewrite (st_locked _ _ Hs5).
      rewrite (fstep_locked _ _ _ _ Hst3). simpl.
      rewrite (hd_locked _ _ _ _ _ Hh), at_idx_ne; [done|]. by intros ->.
  - destruct Hst3 as [[_ Hv3 Hc3] ? ? ? ? ? ? ? ? ?]. split; try done. split; [done|..]; intros j Hj.
    + simpl. rewrite Hne by tauto. unfold sview. rewrite Hv3 by tauto. apply Hv. tauto.
    + intros Hcj. apply Hc5. simpl. apply (tc_clean _ _ _ Ht4); [tauto|]. apply Hc3; [tauto|].
      apply Hc; [left; tauto|done].
  - unfold sview, s5. simpl. rewrite Hv5. exact Hx4.
Qed.

(** A level whose entry is there is only walked through. *)
Lemma old_level_ok s sec id ids :
  I s → ready (fs_cache s) 3 → index_sector s sec → wd (sview s) sec id ≠ NONE32 →
  ∃ c', allocate_levels (id :: ids) sec false s =
      allocate_levels ids (wd (sview s) sec id) false (set_cache c' s) ∧
    idle (fs_cache s) c'.
Proof.
  intros Hi Hr Hix Hne. pose proof Hix as [Hsec HS Hb Hul].
  destruct (enter_level_ok s sec false Hi Hr Hix) as
    (h & c1 & c2 & x & Hg & Hfill & Hh & Hv & Hc & Hcl & Hx & Hfound & Hlx & Hi2).
  simpl in Hfound. simpl allocate_levels at 1. mrun Hg. simpl whenM. msteps.
  simpl in Hfill. injection Hfill as Hfill.
  assert (E : set_cache c1 s = set_cache c2 s) by (by rewrite Hfill). rewrite E.
  mrun (load_word_held _ (set_cache c2 s) _ _ _ x id Hh Hx).
  assert (Ew : wd (sview s) sec id = word x id) by (unfold wd; by rewrite Hfound).
  rewrite Ew in *. rewrite decide_False by done.
  destruct (release_handle_ok _ (set_cache c2 s) sec true h false Hh) as (c3 & Hrel & Hs3 & Hv3 & Hc3).
  { unfold dsize. simpl. rewrite (hd_size _ _ _ _ _ Hh). exact Hsec. }
  { intros Ho. right. by apply Hcl. }
  mrun Hrel. exists c3. split; [done|]. split; [done|..]; intros j _.
  - rewrite Hv3. simpl. destruct (decide (j = sec)) as [->|]; [|by apply Hv].
    rewrite Hx. symmetry. exact Hfound.
  - intros Hcj. apply Hc3. apply Hc; auto.
Qed.

(** Either kind of level: [new] says whether the entry is to be allocated. *)
Lemma level_ok s sec id ids fresh (new : bool) :
  I s → ready (fs_cache s) 3 → index_sector s sec → 0 ≤ id < 128 →
  (if new then 0 < free_cnt s ∧ (fresh = false → wd (sview s) sec id = NONE32)
   else fresh = false ∧ wd (sview s) sec id ≠ NONE32) →
  ∃ m s', allocate_levels (id :: ids) sec fresh s = allocate_levels ids m new s' ∧
    I s' ∧ fstep (λ j, S j ∨ j = sec) s s' ∧ bufs s' = bufs s ∧
    (∀ i, 0 ≤ i < 128 → wd (sview s') sec i =
      if decide (i = id) then m else if fresh then NONE32 else wd (sview s) sec i) ∧
    (if new then marks (dsize s) (free_map s) (free_map s') m
     else m = wd (sview s) sec id ∧ free_map s' = free_map s).
Proof.
  intros Hi Hr Hix Hid Hnew. destruct new.
  - destruct Hnew as [Hf Hnone].
    destruct (new_level_ok s sec id ids fresh) as (m & s' & x & Hrun & Hi' & Hst & Hb & Hm & Hfd & Hlx & Hx);
      [done..|].
    exists m, s'. split_and!; try done. intros i Hi2. unfold wd at 1. rewrite Hx.
    pose proof (device_bound _ (rd_inv _ _ Hr)). pose proof Hm as (Hm0 & _). 
    case_decide as E; [subst i; rewrite word_set_eq; [done..|unfold dsize, NONE32 in *; lia]|].
    rewrite word_set_ne by (done || auto). destruct fresh; simpl in Hfd.
    + subst x. by apply word_filled.
    + unfold wd. by rewrite Hfd.
  - destruct Hnew as [-> Hne]. destruct (old_level_ok s sec id ids) as (c' & Hrun & Hid'); [done..|].
    exists (wd (sview s) sec id), (set_cache c' s). split_and!; try done.
    + apply inv_cache; [done|apply (st_size _ _ (tc_steady _ _ _ Hid'))|].
      intros j Hj. split; [apply (idle_view _ _ _ Hid')|apply (st_locked _ _ (tc_steady _ _ _ Hid'))].
    + apply fstep_cache. by eapply touch_mono.
    + intros i Hi2. unfold wd at 1. unfold sview. simpl. rewrite (idle_view _ _ _ Hid').
      case_decide; [by subst|done].
Qed.

(** Clearing the new data sector. *)
Lemma clear_sector_ok s sec :
  I s → ready (fs_cache s) 3 → index_sector s sec →
  ∃ s', clear_sector sec s = Ret (true, s') ∧ I s' ∧ fstep (.= sec) s s' ∧ bufs s' = bufs s ∧
    free_map s' = free_map s ∧ sview s' sec = Some (filled 0).
Proof.
  intros Hi Hr [Hsec HS Hb Hul].
  destruct (get_handle_ok s sec true 2) as (h & c1 & Hg & Hh & Hv & Hc); [done..|].
  pose proof (inv_held _ _ _ _ _ Hi Hh Hv HS) as Hi1.
  destruct (fill_all_ok (fs_cache s) (set_cache c1 s) sec true h 0) as (c2 & Hrun & Ht & Hh2 & Hx).
  { done. } { unfold dsize. simpl. rewrite (hd_size _ _ _ _ _ Hh). exact Hsec. }
  destruct (release_handle_ok _ (set_cache c2 (set_cache c1 s)) sec true h true Hh2)
    as (c3 & Hrel & Hs3 & Hv3 & Hc3); [|by auto|].
  { unfold dsize. simpl. rewrite (hd_size _ _ _ _ _ Hh2). exact Hsec. }
  set (s3 := set_cache c3 (set_cache c2 (set_cache c1 s))).
  assert (Hne : ∀ j, j ≠ sec → view c3 j = sview s j).
  { intros j Hj. rewrite Hv3. simpl. rewrite (tc_view _ _ _ Ht) by done. apply Hv. }
  exists s3. split; [unfold clear_sector; mrun Hg; mrun Hrun; by mrun Hrel|].
  split; [|split; [|split; [done|split; [done|]]]].
  - apply (fm_frame s); try done.
    + apply (st_size _ _ Hs3).
    + intros j Hj. split; [apply Hne; by intros ->|]. apply (st_locked _ _ Hs3).
  - split; try done. split; [done|..]; intros j Hj.
    + by apply Hne.
    + intros Hcj. apply Hc3. simpl. apply (tc_clean _ _ _ Ht); [done|]. by apply Hc.
  - unfold sview, s3. simpl. rewrite Hv3. exact Hx.
Qed.
End allocate.

(** ** The header *)

(** [H s d]: the pointer is to the inode with contents [d]; [P] is the sector
    it is in, if it is in one. *)
Class HeadLaws (ptr : disk_ptr) (H : fs → list Z → Prop) (P : Z → Prop) : Prop := {
  hl_load : ∀ s d, H s d → load_disk ptr s = Ret (d, s);
  hl_store : ∀ s d d', H s d → length d' = 512%nat →
    ∃ s', store_disk ptr d' s = Ret (tt, s') ∧ fstep P s s' ∧ H s' d' ∧ free_map s' = free_map s;
  hl_frame : ∀ s s' d, H s d → steady (fs_cache s) (fs_cache s') → bufs s' = bufs s →
    (∀ j, P j → sview s' j = sview s j) → H s' d;
  hl_length : ∀ s d, H s d → length d = 512%nat;
}.

(** An inode held and locked in the cache, as [inode_write_at] has it. *)
#[export] Instance head_held c sec h :
  HeadLaws (Cached h) (λ s d, held c (fs_cache s) sec true h ∧ sview s sec = Some d) (.= sec).
Proof.
  split.
  - intros s d [Hh Hd]. destruct (load_disk_ok _ _ _ _ _ Hh) as (x & Hx & Hl).
    unfold sview in Hd. rewrite Hx in Hd. by simplify_eq.
  - intros s d d' [Hh Hd] Hl. destruct (store_disk_ok _ _ _ _ _ d' Hh Hl) as (c2 & Hst & Hs & Hv & Hc).
    exists (set_cache c2 s). split; [done|]. split; [|split; [split|done]].
    + apply fstep_cache. split; [done|..]; intros j Hj; [by rewrite Hv, at_idx_ne|auto].
    + by eapply held_steady.
    + unfold sview. simpl. by rewrite Hv, at_idx_eq.
  - intros s s' d [Hh Hd] Hs _ Hv. split; [by eapply held_steady|]. by rewrite Hv.
  - intros s d [Hh Hd]. eapply view_length; [apply (hd_inv _ _ _ _ _ Hh)|exact Hd].
Qed.

(** An inode in a buffer, as [inode_create] has it. *)
#[export] Instance head_buf q :
  HeadLaws (Block q) (λ s d, bufs s !! q = Some d ∧ length d = 512%nat) (λ _, False).
Proof.
  split.
  - intros s d [Hd _]. unfold load_disk. by rewrite Hd.
  - intros s d d' _ Hl. eexists. split; [done|]. split; [|split; [split|done]].
    + by split.
    + simpl. apply lookup_insert_eq.
    + done.
  - intros s s' d [Hd Hl] _ Hb _. by rewrite Hb.
  - by intros s d [_ ?].
Qed.

(** ** Allocating the next sector of an inode *)
Section extend_inode.
Context `{ops : FreeMapOps} (I : fs → Prop) (S : Z → Prop) (fp : nat).
Context `{!FreeMapLaws ops I S fp}.
Context (ptr : disk_ptr) (H : fs → list Z → Prop) (P : Z → Prop).
Context `{!HeadLaws ptr H P}.

(** An inode with contents [d] and [n] data sectors that may grow: its sectors
    are marked and are not the free map's, and only its own sector is locked. *)
Record growing (s : fs) (d : list Z) (n : Z) : Prop := {
  gr_inv : I s;
  gr_ready : ready (fs_cache s) 3;
  gr_tree : tree (sview s) (dsize s) d n;
  gr_head : H s d;
  gr_used : ∀ j, node (sview s) d n j ∨ P j → get_bit (free_map s) j = true;
  gr_other : ∀ j, node (sview s) d n j ∨ P j → ¬ S j;
  gr_sep : ∀ j, P j → ¬ node (sview s) d n j;
  gr_quiet : ∀ j, locked (fs_cache s) j = true → P j;
}.

(** A sector that is free. *)
Definition spare (s : fs) (j : Z) : Prop := 0 ≤ j < dsize s ∧ get_bit (free_map s) j = false.

(** How many sectors data sector [n] takes, with its index sectors. *)
Definition need (n : Z) : Z :=
  1 + (if decide (n mod 128 = 0) then 1 else 0) + (if decide (n mod 16384 = 0) then 1 else 0).

Lemma store_word_head s d k w :
  H s d → 0 ≤ k < 128 →
  ∃ s', store_word ptr k w s = Ret (tt, s') ∧ fstep P s s' ∧ H s' (set_word d k w) ∧
    free_map s' = free_map s.
Proof.
  intros Hd Hk. destruct (hl_store s d (set_word d k w) Hd) as (s' & Hrun & ?).
  { apply length_set_word; [by eapply hl_length|done]. }
  exists s'. split; [|done]. unfold store_word. by mrun (hl_load _ _ Hd).
Qed.

(** The head of the walk: the directory of the inode has an entry for [n]. *)
Lemma head_level_ok s d n :
  growing s d n → 0 ≤ n < MAX_SECTORS → (n mod 16384 = 0 → 0 < free_cnt s) →
  let new := bool_decide (n mod 16384 = 0) in
  ∃ a s' d', allocate_inode_sector ptr n s =
      allocate_below [n / 128 mod 128; n mod 128] a new s' ∧
    I s' ∧ fstep (λ j, S j ∨ P j) s s' ∧ H s' d' ∧
    (∀ i, 0 ≤ i < 128 → word d' i = if decide (i = dir_word (n / 16384)) then a else word d i) ∧
    (if new then marks (dsize s) (free_map s) (free_map s') a
     else a = l1 d n ∧ free_map s' = free_map s).
Proof.
  intros [Hi Hr Ht Hd Hu Ho Hsep Hq] Hn Hf new. unfold allocate_inode_sector.
  rewrite redirection_ids by done. pose proof (device_bound _ (rd_inv _ _ Hr)) as Hdev.
  assert (Hdw : 0 ≤ dir_word (n / 16384) < 128) by (unfold dir_word, MAX_SECTORS in *; mlia).
  mrun (load_word_run _ (dir_word (n / 16384)) _ _ (hl_load _ _ Hd)). fold (l1 d n).
  subst new. destruct (decide (n mod 16384 = 0)) as [E|E].
  - rewrite (bool_decide_true _ E). rewrite decide_True by (apply (tr_end1 _ _ _ _ Ht); mlia).
    destruct (allocate_some I S fp s Hi) as (a & s1 & Hal & Hi1 & Hst1 & Hb1 & Hm);
      [eapply ready_le; [done|lia]|auto|].
    mrun Hal.
    assert (Hd1 : H s1 d).
    { eapply hl_frame; [exact Hd|apply (tc_steady _ _ _ (fp_touch _ _ _ Hst1))|done|].
      intros j Hj. eapply fstep_view; [exact Hst1|]. apply Ho. by right. }
    destruct (store_word_head s1 d (dir_word (n / 16384)) a Hd1 Hdw) as (s2 & Hw & Hst2 & Hd2 & Hb2).
    mrun Hw. mrun (load_word_run _ (dir_word (n / 16384)) _ _ (hl_load _ _ Hd2)).
    pose proof (hl_length _ _ Hd) as Hl. pose proof Hm as (Hm0 & _).
    rewrite word_set_eq by (done || (unfold dsize, NONE32 in *; lia)).
    exists a, s2, (set_word d (dir_word (n / 16384)) a). split; [done|]. split; [|split; [|split; [done|]]].
    + destruct Hst2 as [[Hs2 Hv2 _] ? ? ? ? ? ? ? ? ?]. apply (fm_frame s1); try congruence.
      * apply (st_size _ _ Hs2).
      * intros j Hj. split; [apply Hv2; intros Hp; by apply (Ho j); [right|]|apply (st_locked _ _ Hs2)].
    + eapply fstep_trans; [eapply fstep_mono; [|exact Hst1]; by left|].
      eapply fstep_mono; [|exact Hst2]. by right.
    + split; [|by rewrite Hb2]. intros i Hi2. case_decide as E2.
      * subst i. apply word_set_eq; try done. unfold dsize, NONE32 in *; lia.
      * rewrite word_set_ne by (done || auto). done.
  - rewrite (bool_decide_false _ E).
    assert (0 < n) by mlia.
    pose proof (tr_l1 _ _ _ _ Ht (n - 1) ltac:(lia)) as Ha.
    rewrite (l1_cong d (n - 1) n) in Ha by mlia.
    rewrite decide_False by (unfold dsize, NONE32 in *; lia).
    exists (l1 d n), s, d. split; [done|]. split; [done|]. split; [apply fstep_refl|].
    split; [done|]. split; [|done]. intros i Hi2. case_decide; [by subst|done].
Qed.

(** A sector that was free is fit for an index sector once it is marked. *)
Lemma fresh_index_sector s s1 s' d n Q m :
  growing s d n → fstep Q s s1 → fstep Q s1 s' → I s' →
  marks (dsize s1) (free_map s1) (free_map s') m →
  (∀ j, 0 ≤ j < dsize s → get_bit (free_map s) j = true → get_bit (free_map s1) j = true) →
  (∀ j, P j → 0 ≤ j < dsize s) →
  index_sector S s' m ∧ fresh (sview s) (dsize s) d n m ∧ ¬ P m ∧ get_bit (free_map s) m = false.
Proof.
  intros [Hi Hr Ht Hd Hu Ho Hsep Hq] Hst1 Hst' Hi' (Hm0 & Hm1 & Hm2) Hmono HPr.
  rewrite (fstep_dsize _ _ _ Hst1) in *.
  assert (Hfree : get_bit (free_map s) m = false).
  { destruct (get_bit (free_map s) m) eqn:E; [|done]. by rewrite Hmono in Hm1. }
  assert (HP : ¬ P m) by (intros Hp; rewrite Hu in Hfree; [done|by right]).
  assert (Hused : get_bit (free_map s') m = true) by (rewrite Hm2 by done; by rewrite bool_decide_true).
  split; [|split; [split; [done|]|done]].
  - split.
    + rewrite (fstep_dsize _ _ _ Hst'), (fstep_dsize _ _ _ Hst1). done.
    + intros HS. destruct (fm_bits s Hi) as (_ & _ & HSb). destruct (HSb m HS) as [_ Hb]. congruence.
    + done.
    + rewrite (fstep_locked _ _ _ _ Hst'), (fstep_locked _ _ _ _ Hst1).
      destruct (locked (fs_cache s) m) eqn:E; [|done]. by destruct HP; apply Hq.
  - intros Hnode. rewrite Hu in Hfree; [done|by left].
Qed.

Lemma marks_mono sz b b' m j :
  marks sz b b' m → 0 ≤ j < sz → get_bit b j = true → get_bit b' j = true.
Proof. intros (_ & _ & Hm) Hj Hb. by rewrite Hm, Hb, orb_true_r. Qed.

(** Marking a sector or walking through one that is there. *)
Definition took (new : bool) (s s' : fs) (m old : Z) : Prop :=
  if new then marks (dsize s) (free_map s) (free_map s') m else m = old ∧ free_map s' = free_map s.

Lemma took_mono new s s' m old j :
  took new s s' m old → 0 ≤ j < dsize s → get_bit (free_map s) j = true →
  get_bit (free_map s') j = true.
Proof.
  destruct new; simpl; [by apply marks_mono|]. by intros [_ ->].
Qed.
Lemma took_cnt new s s' m old :
  took new s s' m old → dsize s' = dsize s → free_cnt s' = free_cnt s - if new then 1 else 0.
Proof.
  destruct new; simpl; [apply marks_cnt|]. intros [_ Hb] Hz. unfold free_cnt. rewrite Hb, Hz. lia.
Qed.
Lemma took_bits new s s' m old j :
  took new s s' m old → (new = false → get_bit (free_map s) m = true) → 0 ≤ j < dsize s →
  get_bit (free_map s') j = true ↔ get_bit (free_map s) j = true ∨ j = m.
Proof.
  destruct new; simpl.
  - intros (_ & _ & Hm) _ Hj. rewrite Hm by done. rewrite orb_true_iff, bool_decide_eq_true. tauto.
  - intros [_ ->] Hm Hj. split; [tauto|]. intros [?| ->]; auto.
Qed.

(** Where the sectors of the walk come from. *)
Section walk.
Context (s : fs) (d : list Z) (n : Z).
Hypothesis Hg : growing s d n.
Hypothesis Hn : 0 ≤ n < MAX_SECTORS.
Hypothesis HP : ∀ j, P j → 0 ≤ j < dsize s.

Lemma old_index_sector s' Q j :
  fstep Q s s' → I s' → inner (sview s) d n j →
  (∀ j, 0 ≤ j < dsize s → get_bit (free_map s) j = true → get_bit (free_map s') j = true) →
  index_sector S s' j ∧ ¬ P j ∧ get_bit (free_map s') j = true.
Proof.
  intros Hst Hi' Hj Hmono. destruct Hg as [Hi Hr Ht Hd Hu Ho Hsep Hq].
  assert (Hnode : node (sview s) d n j) by (by left).
  assert (HPj : ¬ P j) by (intros ?; by apply (Hsep j)).
  pose proof (node_range _ _ _ _ _ Ht Hnode).
  assert (Hb : get_bit (free_map s') j = true) by (apply Hmono; [done|apply Hu; by left]).
  split; [|done]. split; [by rewrite (fstep_dsize _ _ _ Hst)|apply Ho; by left|done|].
  rewrite (fstep_locked _ _ _ _ Hst). destruct (locked (fs_cache s) j) eqn:E; [|done].
  by destruct HPj; apply Hq.
Qed.

(** The sector after a level, whether it is new or not. *)
Lemma next_index_sector (new : bool) s1 s' Q Q' m old :
  fstep Q s s1 → fstep Q' s1 s' → I s' → took new s1 s' m old →
  (∀ j, 0 ≤ j < dsize s → get_bit (free_map s) j = true → get_bit (free_map s1) j = true) →
  (new = false → inner (sview s) d n old) →
  index_sector S s' m ∧ ¬ P m ∧
    (if new then fresh (sview s) (dsize s) d n m ∧ get_bit (free_map s) m = false ∧
       get_bit (free_map s1) m = false
     else m = old ∧ inner (sview s) d n m).
Proof.
  intros Hst1 Hst' Hi' Htk Hmono Hold. destruct new.
  - destruct (fresh_index_sector s s1 s' d n (λ j, Q j ∨ Q' j) m) as (? & ? & ? & ?); try done.
    + eapply fstep_mono; [|done]. tauto.
    + eapply fstep_mono; [|done]. tauto.
    + destruct Htk as (_ & ? & _). done.
  - destruct Htk as [-> Hb].
    destruct (old_index_sector s' (λ j, Q j ∨ Q' j) old) as (? & ? & ?); try done; try auto.
    + eapply fstep_trans; (eapply fstep_mono; [|done]); tauto.
    + rewrite Hb. done.
Qed.

(** The sectors [a], [b] and [c] on the way to data sector [n] afterwards, and
    what became of the state. *)
Record walked (s' : fs) (d' : list Z) (a b c : Z) : Prop := {
  wk_inv : I s';
  wk_head : H s' d';
  wk_step : fstep (λ j, S j ∨ P j ∨ j = a ∨ j = b ∨ j = c) s s';
  wk_w1 : ∀ i, 0 ≤ i < 128 → word d' i = if decide (i = dir_word (n / 16384)) then a else word d i;
  wk_w2 : ∀ i, 0 ≤ i < 128 → wd (sview s') a i =
    if decide (i = n / 128 mod 128) then b
    else if decide (n mod 16384 = 0) then NONE32 else wd (sview s) a i;
  wk_w3 : ∀ i, 0 ≤ i < 128 → wd (sview s') b i =
    if decide (i = n mod 128) then c
    else if decide (n mod 128 = 0) then NONE32 else wd (sview s) b i;
  wk_data : sview s' c = Some (filled 0);
  wk_a : if decide (n mod 16384 = 0) then fresh (sview s) (dsize s) d n a ∧ get_bit (free_map s) a = false
         else a = l1 d n ∧ inner (sview s) d n a;
  wk_b : if decide (n mod 128 = 0) then fresh (sview s) (dsize s) d n b ∧ get_bit (free_map s) b = false
         else b = l2 (sview s) d n ∧ inner (sview s) d n b;
  wk_c : fresh (sview s) (dsize s) d n c ∧ get_bit (free_map s) c = false;
  wk_ne : a ≠ b ∧ a ≠ c ∧ b ≠ c;
  wk_other : ∀ j, j = a ∨ j = b ∨ j = c → ¬ S j ∧ ¬ P j;
  wk_bits : ∀ j, 0 ≤ j < dsize s →
    get_bit (free_map s') j = true ↔ get_bit (free_map s) j = true ∨ j = a ∨ j = b ∨ j = c;
  wk_cnt : free_cnt s' = free_cnt s - need n;
}.

Lemma old_l1 : n mod 16384 ≠ 0 → inner (sview s) d n (l1 d n).
Proof.
  intros. rewrite (l1_cong d n (n - 1)) by mlia. apply inner_l1. mlia.
Qed.
Lemma old_l2 : n mod 128 ≠ 0 → inner (sview s) d n (l2 (sview s) d n).
Proof.
  intros. rewrite (l2_cong _ d n (n - 1)) by mlia. apply inner_l2. mlia.
Qed.

(** What is known of the first index sector [a] in the state [s1] after it was
    found or allocated. *)
Record at_first (new1 : bool) (s1 : fs) (a : Z) : Prop := {
  af_inv : I s1;
  af_step : fstep (λ j, S j ∨ P j) s s1;
  af_index : index_sector S s1 a;
  af_other : ¬ P a;
  af_view : sview s1 a = sview s a;
  af_new : if new1 then fresh (sview s) (dsize s) d n a ∧ get_bit (free_map s) a = false
           else a = l1 d n ∧ inner (sview s) d n a;
  af_mono : ∀ j, 0 ≤ j < dsize s → get_bit (free_map s) j = true → get_bit (free_map s1) j = true;
}.

(** The sectors below it, in the state [s'] at the end. *)
Record below (new1 new2 : bool) (s1 s' : fs) (a b c : Z) : Prop := {
  bl_inv : I s';
  bl_step : fstep (λ j, S j ∨ j = a ∨ j = b ∨ j = c) s1 s';
  bl_bufs : bufs s' = bufs s1;
  bl_w2 : ∀ i, 0 ≤ i < 128 → wd (sview s') a i =
    if decide (i = n / 128 mod 128) then b else if new1 then NONE32 else wd (sview s) a i;
  bl_w3 : ∀ i, 0 ≤ i < 128 → wd (sview s') b i =
    if decide (i = n mod 128) then c else if new2 then NONE32 else wd (sview s) b i;
  bl_data : sview s' c = Some (filled 0);
  bl_b : if new2 then fresh (sview s) (dsize s) d n b ∧ get_bit (free_map s) b = false
         else b = l2 (sview s) d n ∧ inner (sview s) d n b;
  bl_c : fresh (sview s) (dsize s) d n c ∧ get_bit (free_map s) c = false;
  bl_ne : a ≠ b ∧ a ≠ c ∧ b ≠ c;
  bl_other : ∀ j, j = b ∨ j = c → ¬ S j ∧ ¬ P j;
  bl_bits : ∀ j, 0 ≤ j < dsize s →
    get_bit (free_map s') j = true ↔ get_bit (free_map s1) j = true ∨ j = b ∨ j = c;
  bl_cnt : free_cnt s' = free_cnt s1 - (if new2 then 2 else 1);
}.

Lemma below_ok (new1 new2 : bool) s1 a :
  (if new1 then n mod 16384 = 0 else n mod 16384 ≠ 0) →
  (if new2 then n mod 128 = 0 else n mod 128 ≠ 0) →
  at_first new1 s1 a → (if new2 then 2 else 1) ≤ free_cnt s1 →
  ∃ s' b c, allocate_below [n / 128 mod 128; n mod 128] a new1 s1 = Ret (true, s') ∧
    below new1 new2 s1 s' a b c.
Proof.
  intros N1 N2 [Hi1 Hst1 Xa Pa Va Fa Hm1] Hf. pose proof Hg as [Hi Hr Ht Hd Hu Ho Hsep Hq].
  assert (N12 : new2 = false → new1 = false) by (destruct new1, new2; try done; mlia).
  pose proof (device_bound _ (rd_inv _ _ Hr)) as Hdev. pose proof (fstep_dsize _ _ _ Hst1) as Z1.
  assert (Ea : new1 = false → ∀ i, wd (sview s1) a i = wd (sview s) a i).
  { intros _ i. unfold wd. by rewrite Va. }
  assert (E2 : new1 = false → wd (sview s) a (n / 128 mod 128) = l2 (sview s) d n).
  { intros ->. by destruct Fa as [-> _]. }
  (* the first index sector *)
  destruct (level_ok I S fp s1 a (n / 128 mod 128) [n mod 128] new1 new2) as
    (b & s2 & Hrun2 & Hi2 & Hst2 & Hb2 & W2 & T2); [done|by eapply fstep_ready|done|mlia|..].
  { destruct new2.
    - split; [lia|]. intros E. rewrite Ea, E2 by done. rewrite E in N1.
      apply (tr_end2 _ _ _ _ Ht); mlia.
    - split; [by apply N12|]. rewrite Ea, E2 by auto.
      rewrite (l2_cong _ d n (n - 1)) by mlia.
      pose proof (tr_l2 _ _ _ _ Ht (n - 1) ltac:(mlia)). unfold dsize, NONE32 in *. lia. }
  change (took new2 s1 s2 b (wd (sview s1) a (n / 128 mod 128))) in T2.
  pose proof (fstep_dsize _ _ _ Hst2) as Z2. rewrite Z1 in Z2.
  pose proof (fstep_ready _ _ _ _ Hst1 Hr) as Hr1. pose proof (fstep_ready _ _ _ _ Hst2 Hr1) as Hr2.
  pose proof (took_cnt _ _ _ _ _ T2 (fstep_dsize _ _ _ Hst2)) as C2.
  assert (Hm2 : ∀ j, 0 ≤ j < dsize s → get_bit (free_map s) j = true → get_bit (free_map s2) j = true).
  { intros j Hj Hbj. eapply took_mono; [exact T2|by rewrite Z1|auto]. }
  destruct (next_index_sector new2 s1 s2 _ _ b _ Hst1 Hst2 Hi2 T2 Hm1) as (Xb & Pb & Fb).
  { intros E. rewrite Ea, E2 by auto. apply old_l2. by rewrite E in N2. }
  assert (Nab : a ≠ b).
  { intros ->. destruct new2.
    - destruct Fb as (_ & _ & Hfree). by rewrite (ix_used _ _ _ Xa) in Hfree.
    - rewrite N12 in Fa by done. destruct Fa as [-> _], Fb as [E _]. rewrite Ea, E2 in E by auto.
      revert E. rewrite (l2_cong _ d n (n - 1)), (l1_cong d n (n - 1)) by mlia.
      apply (tr_sep12 _ _ _ _ Ht); mlia. }
  assert (Eb : new2 = false → ∀ i, wd (sview s2) b i = wd (sview s) b i).
  { intros E i. unfold wd. rewrite (fstep_view _ _ _ _ Hst2) by (intros [?|?]; [by apply (ix_other _ _ _ Xb)|done]).
    by rewrite (fstep_view _ _ _ _ Hst1) by (intros [?|?]; [by apply (ix_other _ _ _ Xb)|done]). }
  assert (Fb' : if new2 then fresh (sview s) (dsize s) d n b ∧ get_bit (free_map s) b = false
    else b = l2 (sview s) d n ∧ inner (sview s) d n b).
  { destruct new2; [tauto|]. destruct Fb as [E ?]. by rewrite Ea, E2 in E by auto. }
  (* the second *)
  destruct (level_ok I S fp s2 b (n mod 128) [] new2 true) as
    (c & s3 & Hrun3 & Hi3 & Hst3 & Hb3 & W3 & T3);
    [done|by eapply fstep_ready|done|mlia|..].
  { split; [destruct new2; lia|]. intros E. rewrite Eb by done. rewrite E in Fb', N2.
    destruct Fb' as [-> _]. apply (tr_end3 _ _ _ _ Ht); mlia. }
  change (took true s2 s3 c 0) in T3.
  pose proof (fstep_dsize _ _ _ Hst3) as Z3. rewrite Z2 in Z3.
  pose proof (took_cnt _ _ _ _ _ T3 (fstep_dsize _ _ _ Hst3)) as C3. simpl in C3.
  assert (Hst12 : fstep (λ j, S j ∨ P j ∨ j = a) s s2).
  { eapply fstep_trans; (eapply fstep_mono; [|done]); tauto. }
  destruct (next_index_sector true s2 s3 _ _ c 0 Hst12 Hst3 Hi3 T3 Hm2) as (Xc & Pc & Fc & Fc0 & Fc2);
    [done|].
  destruct (clear_sector_ok I S fp s3 c) as (s4 & Hrun4 & Hi4 & Hst4 & Hb4 & Hm4 & Hx4);
    [done|by eapply fstep_ready|done|].
  assert (Hall : allocate_levels [n / 128 mod 128; n mod 128] a new1 s1 = Ret (Some (c, true), s3))
    by (by rewrite Hrun2, Hrun3).
  exists s4, b, c. split; [by unfold allocate_below; mrun Hall|].
  assert (Ba : get_bit (free_map s2) a = true).
  { eapply took_mono; [exact T2|rewrite Z1; rewrite <-Z1; apply Xa|apply Xa]. }
  assert (Nac : a ≠ c) by congruence. assert (Nbc : b ≠ c).
  { intros ->. pose proof (ix_used _ _ _ Xb). congruence. }
  split; try done.
  - eapply fstep_trans; [eapply fstep_trans|]; (eapply fstep_mono; [|done]); tauto.
  - congruence.
  - intros i Hi'. unfold wd at 1. rewrite (fstep_view _ _ _ _ Hst4), (fstep_view _ _ _ _ Hst3)
      by (done || (intros [?|?]; [by apply (ix_other _ _ _ Xa)|done])).
    fold (wd (sview s2) a i). rewrite W2 by done. destruct new1; [done|]. by rewrite Ea.
  - intros i Hi'. unfold wd at 1. rewrite (fstep_view _ _ _ _ Hst4) by done.
    fold (wd (sview s3) b i). rewrite W3 by done. destruct new2; [done|]. by rewrite Eb.
  - intros j [-> | ->]; (split; [|done]); [apply (ix_other _ _ _ Xb)|apply (ix_other _ _ _ Xc)].
  - intros j Hj. rewrite Hm4, (took_bits _ _ _ _ _ j T3), (took_bits _ _ _ _ _ j T2) by
      (done || (by rewrite ?Z1, ?Z2) || (intros ->; destruct T2 as [_ <-]; apply Xb)). tauto.
  - unfold free_cnt in *. rewrite Hm4, (fstep_dsize _ _ _ Hst4). destruct new2; lia.
Qed.

(** All the way from the head. *)
Lemma walk_ok :
  need n ≤ free_cnt s →
  ∃ s' d' a b c, allocate_inode_sector ptr n s = Ret (true, s') ∧ walked s' d' a b c.
Proof.
  intros Hneed. pose proof Hg as [Hi Hr Ht Hd Hu Ho Hsep Hq].
  destruct (head_level_ok s d n Hg Hn) as (a & s1 & d1 & Hrun1 & Hi1 & Hst1 & Hd1 & W1 & T1).
  { unfold need in Hneed. repeat case_decide; lia. }
  remember (bool_decide (n mod 16384 = 0)) as new1 eqn:D1.
  remember (bool_decide (n mod 128 = 0)) as new2 eqn:D2.
  assert (N1 : if new1 then n mod 16384 = 0 else n mod 16384 ≠ 0)
    by (subst new1; by destruct (bool_decide_reflect (n mod 16384 = 0))).
  assert (N2 : if new2 then n mod 128 = 0 else n mod 128 ≠ 0)
    by (subst new2; by destruct (bool_decide_reflect (n mod 128 = 0))).
  change (took new1 s s1 a (l1 d n)) in T1.
  pose proof (took_cnt _ _ _ _ _ T1 (fstep_dsize _ _ _ Hst1)) as C1.
  destruct (next_index_sector new1 s s1 _ _ a (l1 d n) (fstep_refl (λ _, False) s) Hst1 Hi1 T1)
    as (Xa & Pa & Fa); [done|intros E; apply old_l1; by rewrite E in N1|].
  assert (A1 : at_first new1 s1 a).
  { split; try done.
    - eapply fstep_view; [exact Hst1|]. intros [?|?]; [by apply (ix_other _ _ _ Xa)|done].
    - destruct new1; tauto.
    - intros j. by eapply took_mono. }
  destruct (below_ok new1 new2 s1 a N1 N2 A1) as
    (s' & b & c & Hrun & [BI BS BB B2 B3 BD Bb Bc BN BO BT BC]).
  { unfold need in Hneed. destruct new1, new2; rewrite ?decide_True, ?decide_False in Hneed by done;
      try lia. exfalso. mlia. }
  exists s', d1, a, b, c. split; [by rewrite Hrun1|].
  assert (Ha : if new1 then fresh (sview s) (dsize s) d n a ∧ get_bit (free_map s) a = false
    else a = l1 d n ∧ inner (sview s) d n a) by apply A1.
  split; try done.
  - eapply hl_frame; [exact Hd1|apply (tc_steady _ _ _ (fp_touch _ _ _ BS))|done|].
    intros j Hj. eapply fstep_view; [exact BS|].
    intros [?|[->|[->| ->]]]; [by apply (Ho j); [right|]|done|by apply (BO b); [left|]|by apply (BO c); [right|]].
  - eapply fstep_trans; (eapply fstep_mono; [|done]); tauto.
  - intros i Hi'. rewrite B2 by done. destruct new1; [by rewrite (decide_True (P := n mod 16384 = 0))|].
    by rewrite (decide_False (P := n mod 16384 = 0)).
  - intros i Hi'. rewrite B3 by done. destruct new2; [by rewrite (decide_True (P := n mod 128 = 0))|].
    by rewrite (decide_False (P := n mod 128 = 0)).
  - destruct new1; [by rewrite decide_True|by rewrite decide_False].
  - destruct new2; [by rewrite decide_True|by rewrite decide_False].
  - intros j [->|Hj]; [split; [apply (ix_other _ _ _ Xa)|done]|by apply BO].
  - intros j Hj. rewrite BT by done. rewrite (took_bits _ _ _ _ _ j T1); [tauto| |done].
    intros ->. destruct Ha as [-> Hin]. apply Hu. by left; left.
  - unfold need. rewrite BC, C1. destruct new1, new2; rewrite ?(decide_True (P := n mod 16384 = 0)),
      ?(decide_False (P := n mod 16384 = 0)), ?(decide_True (P := n mod 128 = 0)),
      ?(decide_False (P := n mod 128 = 0)) by done; lia.
Qed.

(** What allocating one sector does. *)
Lemma extend_ok (Hneed : need n ≤ free_cnt s) :
  ∃ s' d', allocate_inode_sector ptr n s = Ret (true, s') ∧ growing s' d' (n + 1) ∧
    fstep (λ j, S j ∨ P j ∨ inner (sview s) d n j ∨ spare s j) s s' ∧
    (∀ k, 0 ≤ k < n → l1 d' k = l1 d k ∧ l2 (sview s') d' k = l2 (sview s) d k ∧
      l3 (sview s') d' k = l3 (sview s) d k) ∧
    (sview s' (l3 (sview s') d' n) = Some (replicate 512 0) ∧ spare s (l3 (sview s') d' n)) ∧
    (∀ i, 0 ≤ i < 3 → word d' i = word d i) ∧
    (∀ j, 0 ≤ j < dsize s → get_bit (free_map s') j = true ↔
      get_bit (free_map s) j = true ∨ node (sview s') d' (n + 1) j) ∧
    (∀ j, inner (sview s') d' (n + 1) j → inner (sview s) d n j ∨ spare s j) ∧
    free_cnt s' = free_cnt s - need n.
Proof.
  pose proof Hg as [Hi Hr Ht Hd Hu Ho Hsep Hq].
  destruct (walk_ok Hneed) as
    (s' & d' & a & b & c & Hrun & [KI KH KS K1 K2 K3 KD Ka Kb [Kc Kc0] [Nab [Nac Nbc]] KO KB KC]).
  exists s', d'. split; [done|]. pose proof (fstep_dsize _ _ _ KS) as Hz.
  assert (W1 : ∀ i, 0 ≤ i < 125 → word d' (dir_word i) =
    if decide (i = n / 16384) then a else word d (dir_word i)).
  { intros i Hi'. rewrite K1 by (unfold dir_word; lia). unfold dir_word.
    destruct (decide (i = n / 16384)), (decide (3 + i = 3 + n / 16384)); try done; lia. }
  assert (V : ∀ j, inner (sview s) d n j → j ≠ a → j ≠ b → sview s' j = sview s j).
  { intros j Hj ??. eapply fstep_view; [exact KS|].
    intros [?|[?|[?|[?| ->]]]]; try done; [by apply (Ho j); [left; left|]|by apply (Hsep j); [|left]|].
    apply Kc. by left. }
  assert (Fa : if decide (n mod 16384 = 0) then fresh (sview s) (dsize s) d n a else a = l1 d n)
    by (clear -Ka; case_decide; tauto).
  assert (Fb : if decide (n mod 128 = 0) then fresh (sview s) (dsize s) d n b else b = l2 (sview s) d n)
    by (clear -Kb; case_decide; tauto).
  pose proof (grow_tree _ _ _ _ _ _ _ _ _ Ht Hn W1 K2 K3 V Fa Fb Kc (λ _, Nab) (λ _, Nac) (λ _, Nbc)) as Ht'.
  assert (Hnode : ∀ j, node (sview s') d' (n + 1) j ↔ node (sview s) d n j ∨ j = a ∨ j = b ∨ j = c)
    by (by eapply grow_node).
  assert (Hl3n : l3 (sview s') d' n = c) by (by eapply grow_l3_n).
  assert (Hl3 : ∀ k, 0 ≤ k < n → l3 (sview s') d' k = l3 (sview s) d k) by (by eapply grow_l3_old).
  assert (Hl1 : ∀ k, 0 ≤ k < n → l1 d' k = l1 d k)
    by (intros; by eapply (grow_l1_old (sview s) (dsize s) d d' n a b c)).
  assert (Hl2 : ∀ k, 0 ≤ k < n → l2 (sview s') d' k = l2 (sview s) d k) by (by eapply grow_l2_old).
  assert (Hnew : ∀ j, j = a ∨ j = b ∨ j = c →
    0 ≤ j < dsize s ∧ (inner (sview s) d n j ∨ spare s j)).
  { unfold spare. assert (Hin : ∀ j, inner (sview s) d n j → 0 ≤ j < dsize s)
      by (intros; eapply node_range; [exact Ht|by left]).
    assert (Ha : 0 ≤ a < dsize s ∧ (inner (sview s) d n a ∨ 0 ≤ a < dsize s ∧ get_bit (free_map s) a = false)).
    { clear -Ka Hin. case_decide; [destruct Ka as [[] ?]|destruct Ka]; auto. }
    assert (Hb : 0 ≤ b < dsize s ∧ (inner (sview s) d n b ∨ 0 ≤ b < dsize s ∧ get_bit (free_map s) b = false)).
    { clear -Kb Hin. case_decide; [destruct Kb as [[] ?]|destruct Kb]; auto. }
    intros j [->|[->| ->]]; [done..|]. destruct Kc. auto. }
  split; [|split; [|split; [by auto|split; [by rewrite Hl3n; destruct Kc|split; [|split; [|split; [|done]]]]]]].
  - split; try done.
    + by eapply fstep_ready.
    + by rewrite Hz.
    + intros j [[Hj|Hj]%Hnode|Hj]; apply KB.
      * by eapply node_range; [exact Ht|].
      * left. apply Hu. tauto.
      * by apply Hnew.
      * tauto.
      * by apply HP.
      * left. apply Hu. tauto.
    + intros j [[Hj|Hj]%Hnode|Hj]; [apply Ho; tauto|by apply KO|apply Ho; tauto].
    + intros j Hj [Hn'|Hn']%Hnode; [by apply (Hsep j)|by apply (KO j)].
    + intros j. rewrite (fstep_locked _ _ _ _ KS). apply Hq.
  - eapply fstep_mono; [|exact KS]. intros j [?|[?|Hj%Hnew]]; tauto.
  - intros i Hi'. rewrite K1 by lia. rewrite decide_False; [done|]. unfold dir_word, MAX_SECTORS in *. mlia.
  - intros j Hj. rewrite KB, Hnode by done. split; [tauto|].
    intros [?|[?|?]]; [tauto| |tauto]. left. apply Hu. tauto.
  - assert (Hl1n : l1 d' n = a) by (by eapply grow_l1_n).
    assert (Hl2n : l2 (sview s') d' n = b) by (by eapply grow_l2_n).
    intros j (k & Hk & Hj). destruct (decide (k = n)) as [->|].
    + apply Hnew. rewrite Hl1n, Hl2n in Hj. tauto.
    + left. exists k. split; [lia|]. by rewrite Hl1, Hl2 in Hj by lia.
Qed.

(** one more sector for an inode that may grow, when as many sectors are free
    as it needs (the data sector, and an index sector or two at the edges of
    the tree): [allocate_inode_sector] succeeds; the inode's tree has one more
    data sector, which was free and reads as zeros; the earlier data sectors are the same
    and unchanged, as is every sector of other files; exactly the new sectors
    are marked in the free map. *)
Theorem extend_inode_ok (Hneed : need n ≤ free_cnt s) :
  ∃ s' d', allocate_inode_sector ptr n s = Ret (true, s') ∧ growing s' d' (n + 1) ∧
    fstep (λ j, S j ∨ P j ∨ inner (sview s) d n j ∨ spare s j) s s' ∧
    (∀ k, 0 ≤ k < n → l1 d' k = l1 d k ∧ l2 (sview s') d' k = l2 (sview s) d k ∧
      l3 (sview s') d' k = l3 (sview s) d k) ∧
    (sview s' (l3 (sview s') d' n) = Some (replicate 512 0) ∧ spare s (l3 (sview s') d' n)) ∧
    (∀ i, 0 ≤ i < 3 → word d' i = word d i) ∧
    (∀ j, 0 ≤ j < dsize s → get_bit (free_map s') j = true ↔
      get_bit (free_map s) j = true ∨ node (sview s') d' (n + 1) j) ∧
    (∀ j, inner (sview s') d' (n + 1) j → inner (sview s) d n j ∨ spare s j) ∧
    free_cnt s' = free_cnt s - need n.
Proof. by apply extend_ok. Qed.
End walk.

(** ** Allocating several sectors *)

(** How many sectors the next [m] data sectors take. *)
Fixpoint needs (m : nat) (n : Z) : Z :=
  match m with O => 0 | Datatypes.S m => need n + needs m (n + 1) end.

Lemma need_pos n : 1 ≤ need n.
Proof. unfold need. repeat case_decide; lia. Qed.
Lemma needs_nonneg m n : 0 ≤ needs m n.
Proof. revert n. induction m as [|m IH]; intros n; simpl; [lia|]. pose proof (need_pos n). pose proof (IH (n + 1)). lia. Qed.

(** What allocating the sectors [n] to [n'] does. *)
Record extended (s : fs) (d : list Z) (n : Z) (s' : fs) (d' : list Z) (n' : Z) : Prop := {
  ex_growing : growing s' d' n';
  ex_step : fstep (λ j, S j ∨ P j ∨ inner (sview s) d n j ∨ spare s j) s s';
  ex_old : ∀ k, 0 ≤ k < n → l1 d' k = l1 d k ∧ l2 (sview s') d' k = l2 (sview s) d k ∧
    l3 (sview s') d' k = l3 (sview s) d k;
  ex_new : ∀ k, n ≤ k < n' → sview s' (l3 (sview s') d' k) = Some (replicate 512 0) ∧
    spare s (l3 (sview s') d' k);
  ex_words : ∀ i, 0 ≤ i < 3 → word d' i = word d i;
  ex_bits : ∀ j, 0 ≤ j < dsize s → get_bit (free_map s') j = true ↔
    get_bit (free_map s) j = true ∨ node (sview s') d' n' j;
  ex_inner : ∀ j, inner (sview s') d' n' j → inner (sview s) d n j ∨ spare s j;
}.

Lemma extended_refl s d n : growing s d n → extended s d n s d n.
Proof.
  intros Hg. split; try done; try lia; try tauto.
  intros j Hj. split; [tauto|]. intros [?|?]; [done|]. apply (gr_used _ _ _ Hg). tauto.
Qed.

Lemma extended_node s d n s' d' n' j :
  0 ≤ n ≤ n' → extended s d n s' d' n' → node (sview s) d n j → node (sview s') d' n' j.
Proof.
  intros Hn [_ _ O _ _ _ _] [(k & Hk & Hj)|(k & Hk & Hj)]; destruct (O k Hk) as (E1 & E2 & E3).
  - left. exists k. rewrite E1, E2. auto with lia.
  - right. exists k. rewrite E3. auto with lia.
Qed.

Lemma extended_trans s d n s1 d1 n1 s2 d2 n2 :
  0 ≤ n ≤ n1 → n1 ≤ n2 → extended s d n s1 d1 n1 → extended s1 d1 n1 s2 d2 n2 →
  extended s d n s2 d2 n2.
Proof.
  intros Hn Hn1 X1 X2. pose proof X1 as [G1 F1 O1 N1 W1 B1 I1]. pose proof X2 as [G2 F2 O2 N2 W2 B2 I2].
  pose proof (fstep_dsize _ _ _ F1) as Z1. rewrite Z1 in B2.
  assert (Hsp : ∀ j, spare s1 j → spare s j).
  { intros j [Hj Hb]. rewrite Z1 in Hj. split; [done|]. destruct (get_bit (free_map s) j) eqn:E; [|done].
    enough (get_bit (free_map s1) j = true) by congruence. apply B1; auto. }
  split; try done.
  - eapply fstep_trans; [exact F1|]. eapply fstep_mono; [|exact F2].
    intros j [?|[?|[Hj%I1|Hj%Hsp]]]; tauto.
  - intros k Hk. destruct (O1 k Hk) as (<- & <- & <-). apply O2. lia.
  - intros k Hk. destruct (decide (k < n1)); [|destruct (N2 k) as [? ?%Hsp]; [lia|done]].
    destruct (O2 k) as (_ & _ & ->); [lia|].
    pose proof (leaf_l3 (sview s1) d1 n1 k ltac:(lia)) as Hleaf.
    rewrite (fstep_view _ _ _ _ F2); [apply N1; lia|]. intros [Hj|[Hj|[Hj|[_ Hj]]]].
    + apply (gr_other _ _ _ G1) in Hj; [done|]. left; by right.
    + apply (gr_sep _ _ _ G1 _ Hj). by right.
    + by apply (inner_not_leaf _ _ _ _ _ (gr_tree _ _ _ G1) Hj).
    + rewrite (gr_used _ _ _ G1) in Hj; [done|]. left; by right.
  - intros i Hi. rewrite W2 by done. by apply W1.
  - intros j Hj. rewrite B2, B1 by done. split; [|tauto]. intros [[?|?]|?]; [tauto| |tauto].
    right. eapply extended_node; [|exact X2|done]. lia.
  - intros j [Hj%I1|Hj%Hsp]%I2; tauto.
Qed.

Lemma allocate_range_ok m : ∀ s d n,
  growing s d n → (∀ j, P j → 0 ≤ j < dsize s) → 0 ≤ n → n + Z.of_nat m ≤ MAX_SECTORS →
  needs m n ≤ free_cnt s →
  ∃ s' d', allocate_range m ptr n s = Ret (n + Z.of_nat m, s') ∧
    extended s d n s' d' (n + Z.of_nat m).
Proof.
  induction m as [|m IH]; intros s d n Hg HP Hn Hmax Hneed; simpl.
  { exists s, d. rewrite Z.add_0_r. split; [done|]. by apply extended_refl. }
  simpl in Hneed. pose proof (needs_nonneg m (n + 1)).
  destruct (extend_ok s d n Hg) as (s1 & d1 & Hrun & G1 & F1 & O1 & N1 & W1 & B1 & I1 & C1);
    [lia|done|lia|].
  rewrite (u32_small n) by (unfold MAX_SECTORS in *; lia). rewrite (bind_run _ _ _ _ _ Hrun).
  destruct (IH s1 d1 (n + 1) G1) as (s2 & d2 & Hrun2 & X2); [|lia..|].
  { intros j Hj. rewrite (fstep_dsize _ _ _ F1). by apply HP. }
  exists s2, d2. rewrite Hrun2. replace (n + Z.of_nat (Datatypes.S m)) with (n + 1 + Z.of_nat m) by lia.
  split; [done|]. eapply extended_trans; [..|exact X2]; [lia..|].
  split; try done. intros k Hk. by replace k with n by lia.
Qed.
End extend_inode.
