(* ===== verification/InodeWrite.v ===== *)
(** Writing past the end of a file: [inode_write_at] of inode.c when it grows
    the inode. *)
From S2P Require Import Prelude Bitmap Block Cache Handles Fs Inode InodeTree InodeIO File FreeMap FreeMapLaws InodeGrow.
Local Open Scope Z_scope.

(** Bytes overwritten at a position that may be past the end; the gap reads as
    zeros. *)
Definition overwrite (l : list Z) (pos : Z) (k : list Z) : list Z :=
  let len := Z.max (Z.of_nat (length l)) (pos + Z.of_nat (length k)) in
  splice (l ++ replicate (Z.to_nat (len - Z.of_nat (length l))) 0) (Z.to_nat pos) k.

Lemma bytes_of_overwrite v v' d d' len pos k :
  0 ≤ len → 0 ≤ pos → len ≤ pos + Z.of_nat (length k) →
  (∀ q, 0 ≤ q < pos + Z.of_nat (length k) → byte_at v' d' q =
    if decide (pos ≤ q) then default 0 (k !! Z.to_nat (q - pos))
    else if decide (q < len) then byte_at v d q else 0) →
  bytes_of v' d' (pos + Z.of_nat (length k)) = overwrite (bytes_of v d len) pos k.
Proof.
  intros Hlen Hpos Hle Hq. unfold overwrite. rewrite length_bytes_of, Z2Nat.id, Z.max_r by lia.
  set (new := pos + Z.of_nat (length k)) in *.
  set (l := bytes_of v d len ++ replicate (Z.to_nat (new - len)) 0).
  assert (Hl : length l = Z.to_nat new)
    by (unfold l; rewrite length_app, length_bytes_of, length_replicate; lia).
  apply list_eq. intros j. destruct (decide (j < Z.to_nat new)%nat) as [Hj|Hj].
  2:{ rewrite !lookup_ge_None_2; [done|rewrite length_splice; lia|rewrite length_bytes_of; lia]. }
  replace j with (Z.to_nat (Z.of_nat j)) at 1 by lia. rewrite lookup_bytes_of, Hq by lia.
  destruct (decide (pos ≤ Z.of_nat j)).
  - rewrite lookup_splice_new by lia.
    destruct (lookup_lt_is_Some_2 k (j - Z.to_nat pos)) as [x Hx]; [lia|].
    replace (Z.to_nat (Z.of_nat j - pos)) with (j - Z.to_nat pos)%nat by lia. by rewrite Hx.
  - rewrite lookup_splice_old by lia. unfold l. destruct (decide (Z.of_nat j < len)).
    + rewrite lookup_app_l by (rewrite length_bytes_of; lia).
      replace j with (Z.to_nat (Z.of_nat j)) at 2 by lia. by rewrite lookup_bytes_of by lia.
    + rewrite lookup_app_r by (rewrite length_bytes_of; lia).
      rewrite length_bytes_of, lookup_replicate_2 by lia. done.
Qed.

Section write.
Context `{ops : FreeMapOps} (I : fs → Prop) (S : Z → Prop) (fp : nat).
Context `{!FreeMapLaws ops I S fp}.

(** The open inode [i] at [p], with head [d], between calls: its sectors are
    its own and marked, it is not the free map's, no sector is locked, and what
    follows the end of the file in its last sector is zero. *)
Record quiet_file (s : fs) (p : nat) (i : inode) (d : list Z) : Prop := {
  qf_inv : I s;
  qf_open : open_at s p i d;
  qf_used : ∀ j, node (sview s) d (sectors_of i) j ∨ j = i_sector i → get_bit (free_map s) j = true;
  qf_other : ∀ j, node (sview s) d (sectors_of i) j ∨ j = i_sector i → ¬ S j;
  qf_unlocked : ∀ j, locked (fs_cache s) j = false;
  qf_inode : p ≠ fp;
  qf_tail : ∀ q, i_length i ≤ q < 512 * sectors_of i → byte_at (sview s) d q = 0;
}.

(** With the inode's sector held and locked, the inode may grow. *)
Lemma hold_growing s p i d :
  quiet_file s p i d → ready (fs_cache s) 4 →
  ∃ h c1, get_sector_handle (i_sector i) true s = Ret (Some h, set_cache c1 s) ∧
    growing I S (λ s' d', held (fs_cache s) (fs_cache s') (i_sector i) true h ∧
      sview s' (i_sector i) = Some d') (.= i_sector i) (set_cache c1 s) d (sectors_of i) ∧
    (∀ j, view c1 j = sview s j) ∧ (∀ j, clean (fs_cache s) j → clean c1 j).
Proof.
  intros [Hi Ho Hu Hot Hq Hp Htl] Hr. pose proof Ho as [Hin Hsec Hd Hlen Ht Hh].
  destruct (get_handle_ok s (i_sector i) true 3) as (h & c1 & Hg & Hhd & Hv & Hc); [done..|].
  exists h, c1. split; [done|]. split; [|done].
  assert (Hw : ∀ j, sview (set_cache c1 s) j = sview s j) by (intros; apply Hv).
  assert (Hz : dsize (set_cache c1 s) = dsize s) by apply (hd_size _ _ _ _ _ Hhd).
  assert (Hn : ∀ j, node (sview (set_cache c1 s)) d (sectors_of i) j ↔ node (sview s) d (sectors_of i) j)
    by (intros; apply frame_node; intros; apply Hw).
  split.
  - eapply inv_held; [done..|]. apply Hot. by right.
  - by eapply held_ready.
  - rewrite Hz. eapply frame_tree; [|exact Ht]. intros; apply Hw.
  - split; [done|]. by rewrite Hw.
  - intros j Hj. rewrite Hn in Hj. by apply Hu.
  - intros j Hj. rewrite Hn in Hj. by apply Hot.
  - intros j ->. by rewrite Hn.
  - intros j. simpl. rewrite (hd_locked _ _ _ _ _ Hhd). unfold at_idx. case_decide; [done|].
    by rewrite Hq.
Qed.

(** The bytes after the sectors were added: the old ones, then zeros. *)
Lemma extended_bytes H P s d n s' d' n' q :
  extended I S H P s d n s' d' n' → growing I S H P s d n → 0 ≤ n →
  0 ≤ q < 512 * n' →
  byte_at (sview s') d' q = if decide (q < 512 * n) then byte_at (sview s) d q else 0.
Proof.
  intros [G F O N _ _ _] Hg Hn Hq. unfold byte_at. case_decide as Hlt.
  - destruct (O (q / 512)) as (_ & _ & ->); [mlia|].
    pose proof (leaf_l3 (sview s) d n (q / 512) ltac:(mlia)) as Hleaf.
    rewrite (fstep_view _ _ _ _ F); [done|]. intros [Hj|[Hj|[Hj|[_ Hj]]]].
    + apply (gr_other _ _ _ _ _ _ _ Hg) in Hj; [done|]. left; by right.
    + apply (gr_sep _ _ _ _ _ _ _ Hg _ Hj). by right.
    + by apply (inner_not_leaf _ _ _ _ _ (gr_tree _ _ _ _ _ _ _ Hg) Hj).
    + rewrite (gr_used _ _ _ _ _ _ _ Hg) in Hj; [done|]. left; by right.
  - destruct (N (q / 512)) as [-> _]; [mlia|]. rewrite lookup_replicate_2 by mlia. done.
Qed.

Definition sectors_for (len : Z) : Z := (len + 511) / 512.

Lemma grow_file_ok ptr H sec s d h len new :
  ptr = Cached h → growing I S H (.= sec) s d (sectors_for len) →
  HeadLaws ptr H (.= sec) → 0 ≤ sec < dsize s → 0 ≤ len < new → new < 1048576000 →
  needs (Z.to_nat (sectors_for new - sectors_for len)) (sectors_for len) ≤ free_cnt s →
  ∃ s' d', grow_file sec (Some h) len new s = Ret (Some true, s') ∧
    extended I S H (.= sec) s d (sectors_for len) s' d' (sectors_for new).
Proof.
  intros -> Hg HL Hsec Hlen Hnew Hneed. unfold sectors_for in *.
  unfold grow_file. rewrite !bytes_to_sectors_eq by lia. rewrite decide_True by lia. msteps.
  destruct (allocate_range_ok I S fp (Cached h) H (.= sec)
    (Z.to_nat ((new + 511) / 512 - (len + 511) / 512)) s d ((len + 511) / 512)) as (s' & d' & Hrun & Hx);
    [done|by intros j ->|mlia|unfold MAX_SECTORS; mlia|done|].
  assert (E : (len + 511) / 512 + Z.of_nat (Z.to_nat ((new + 511) / 512 - (len + 511) / 512)) = (new + 511) / 512)
    by mlia.
  rewrite E in *. mrun Hrun. rewrite decide_True by lia. by exists s', d'.
Qed.

(** After a growing write the inode is in this state. *)
Record regrown (s s' : fs) (p : nat) (i : inode) (d d' : list Z) (new : Z) : Prop := {
  rg_quiet : quiet_file s' p (set_i_length new i) d';
  rg_word : word d' LENGTH_WORD = new;
  rg_flags : word d' FLAGS_WORD = word d FLAGS_WORD;
  rg_others : ∀ p', p' ≠ p → inodes s' !! p' = inodes s !! p';
  rg_same : files s' = files s ∧ dirs s' = dirs s ∧ open_inodes s' = open_inodes s ∧
    mallocs s' = mallocs s ∧
    next s' = next s ∧ pwd s' = pwd s;
  rg_touch : touch (λ j, S j ∨ node (sview s) d (sectors_of i) j ∨ j = i_sector i ∨ spare s j)
    (fs_cache s) (fs_cache s');
  rg_bits : ∀ j, 0 ≤ j < dsize s → get_bit (free_map s') j = true ↔
    get_bit (free_map s) j = true ∨ node (sview s') d' (sectors_for new) j;
}.

(** The new length, in the inode's sector and in memory. *)
Definition store_length (main_sector : Z) (h : nat) (p : nat) (new : Z) : M fs unit :=
  let! data := at_ptr (get_sector_data (Some h)) in
  store_word data LENGTH_WORD new;;!
  let! len := load_word data LENGTH_WORD in
  let! i := get_inode p in
  put_inode p (set_i_length (s32 len) i);;!
  release_sector_handle main_sector (Some h) true true.

Lemma store_length_ok c s p i d h sec new :
  held c (fs_cache s) sec true h → sview s sec = Some d → length d = 512%nat →
  inodes s !! p = Some i → 0 ≤ new < 2147483648 → 0 ≤ sec < dsize s →
  ∃ c', store_length sec h p new s =
      Ret (tt, set_inodes (<[p := set_i_length new i]> (inodes s)) (set_cache c' s)) ∧
    steady c c' ∧ (∀ j, view c' j = at_idx sec (Some (set_word d LENGTH_WORD new)) (sview s) j) ∧
    (∀ j, j ≠ sec → clean (fs_cache s) j → clean c' j).
Proof.
  intros Hh Hd Hl Hi Hnew Hsec. unfold store_length, LENGTH_WORD.
  destruct (store_word_held _ s _ _ _ d 0 new Hh Hd Hl) as (c4 & Hw & Ht4 & Hx4); [lia|].
  assert (Hh4 : held c c4 sec true h) by (eapply held_steady; [done|apply Ht4]).
  mrun Hw. mrun (load_word_held _ (set_cache c4 s) _ _ _ _ 0 Hh4 Hx4).
  rewrite word_set_eq, s32_small by (done || lia).
  mrun (get_inode_run (set_cache c4 s) p i Hi). unfold put_inode. msteps.
  set (s5 := set_inodes _ _).
  destruct (release_handle_ok c s5 sec true h true Hh4) as (c5 & Hrel & Hs5 & Hv5 & Hc5).
  { change (dsize s5) with (size (fs_device c4)). rewrite (hd_size _ _ _ _ _ Hh4).
    rewrite <-(hd_size _ _ _ _ _ Hh). exact Hsec. }
  { auto. }
  exists c5. split; [by rewrite Hrel|]. split; [done|]. split.
  - intros j. rewrite Hv5. unfold at_idx. case_decide; [by subst|]. by apply (tc_view _ _ _ Ht4).
  - intros j Hj Hc. apply Hc5. by apply (tc_clean _ _ _ Ht4).
Qed.

(** The state after the sectors were added ([s2]), the bytes written ([c3]) and
    the length stored ([c5]). *)
Section finish.
Context (s s2 : fs) (p : nat) (i : inode) (d d2 : list Z) (new : Z) (h : nat) (c1 c3 c5 : cache).
Local Abbreviation sec := (i_sector i).
Local Abbreviation H := (λ s' d', held (fs_cache s) (fs_cache s') sec true h ∧ sview s' sec = Some d').
Local Abbreviation s1 := (set_cache c1 s).
Local Abbreviation s6 := (set_inodes (<[p := set_i_length new i]> (inodes s2)) (set_cache c5 s2)).
Local Abbreviation d6 := (set_word d2 LENGTH_WORD new).
Local Abbreviation n := (sectors_for new).
Hypothesis Hqf : quiet_file s p i d.
Hypothesis Hnew : i_length i < new < 1048576000.
Hypothesis Hg : growing I S H (.= sec) s1 d (sectors_of i).
Hypothesis Hv1 : ∀ j, view c1 j = sview s j.
Hypothesis Hc1 : ∀ j, clean (fs_cache s) j → clean c1 j.
Hypothesis Hx : extended I S H (.= sec) s1 d (sectors_of i) s2 d2 n.
Hypothesis Ht3 : touch (leaf (sview s2) d2 n) (fs_cache s2) c3.
Hypothesis Hs5 : steady (fs_cache s) c5.
Hypothesis Hv5 : ∀ j, view c5 j = at_idx sec (Some d6) (view c3) j.
Hypothesis Hc5 : ∀ j, j ≠ sec → clean c3 j → clean c5 j.

Lemma fin_growing : growing I S H (.= sec) s2 d2 n.
Proof. apply Hx. Qed.

Lemma fin_length : length d2 = 512%nat.
Proof.
  pose proof (gr_head _ _ _ _ _ _ _ fin_growing) as [_ Gd].
  eapply view_length; [apply (gr_ready _ _ _ _ _ _ _ fin_growing)|exact Gd].
Qed.

Lemma fin_sizes : dsize s1 = dsize s ∧ dsize s2 = dsize s ∧ dsize s6 = dsize s.
Proof.
  assert (Z1 : dsize s1 = dsize s) by apply (hd_size _ _ _ _ _ (proj1 (gr_head _ _ _ _ _ _ _ Hg))).
  split; [done|]. split; [|apply (st_size _ _ Hs5)].
  by rewrite (fstep_dsize _ _ _ (ex_step _ _ _ _ _ _ _ _ _ _ Hx)).
Qed.

Lemma fin_max : n ≤ MAX_SECTORS.
Proof. apply (tr_n _ _ _ _ (gr_tree _ _ _ _ _ _ _ fin_growing)). Qed.

Lemma fin_node_ne j : node (sview s2) d2 n j → j ≠ sec.
Proof. intros Hj ->. by apply (gr_sep _ _ _ _ _ _ _ fin_growing sec). Qed.

Lemma fin_inner j : inner (sview s2) d2 n j → sview s6 j = sview s2 j.
Proof.
  intros Hj. change (view c5 j = sview s2 j). rewrite Hv5, at_idx_ne.
  - apply (tc_view _ _ _ Ht3). eapply inner_not_leaf; [apply fin_growing|done].
  - apply fin_node_ne. by left.
Qed.

Lemma fin_header k : 3 ≤ k < 128 → word d6 k = word d2 k.
Proof. intros Hk. apply word_set_ne; unfold LENGTH_WORD; (apply fin_length || lia). Qed.

Lemma fin_node j : node (sview s6) d6 n j ↔ node (sview s2) d2 n j.
Proof.
  rewrite (header_node _ d2) by (apply fin_header || apply fin_max).
  apply frame_node, fin_inner.
Qed.

(** Sectors outside of the file, and of what it took, are as after growing. *)
Lemma fin_outside j : j ≠ sec → ¬ node (sview s2) d2 n j → sview s6 j = sview s2 j.
Proof.
  intros Hj Hn. change (view c5 j = sview s2 j). rewrite Hv5, at_idx_ne by done.
  apply (tc_view _ _ _ Ht3). intros ?. apply Hn. by right.
Qed.

Lemma fin_inv : I s6.
Proof.
  pose proof fin_growing as Hg2. destruct fin_sizes as (_ & Z2 & Z6).
  eapply (fm_frame s2); try done.
  - apply (gr_inv _ _ _ _ _ _ _ Hg2).
  - simpl. rewrite lookup_insert_ne; [done|]. apply (qf_inode _ _ _ _ Hqf).
  - by rewrite Z6, Z2.
  - intros j Hj. split.
    + apply fin_outside; intros Hn; eapply (gr_other _ _ _ _ _ _ _ Hg2 j); auto.
    + change (locked c5 j = locked (fs_cache s2) j).
      rewrite (st_locked _ _ Hs5), (qf_unlocked _ _ _ _ Hqf).
      destruct (locked (fs_cache s2) j) eqn:El; [|done].
      apply (gr_quiet _ _ _ _ _ _ _ Hg2) in El. exfalso.
      eapply (gr_other _ _ _ _ _ _ _ Hg2 j); auto.
Qed.

Lemma fin_open : open_at s6 p (set_i_length new i) d6.
Proof.
  destruct (qf_open _ _ _ _ Hqf) as [Hi Hsec Hd Hlen Ht Hh]. pose proof fin_sizes as (_ & Z2 & Z6).
  split.
  - simpl. by rewrite lookup_insert_eq.
  - by rewrite Z6.
  - change (view c5 sec = Some d6). by rewrite Hv5, at_idx_eq.
  - simpl. lia.
  - change ((i_length (set_i_length new i) + 511) / 512) with n.
    apply (header_tree _ _ d2); [apply fin_header|]. rewrite Z6, <-Z2.
    eapply frame_tree; [apply fin_inner|]. apply fin_growing.
  - change ((i_length (set_i_length new i) + 511) / 512) with n. rewrite fin_node.
    intros Hn. by apply fin_node_ne in Hn.
Qed.

Lemma fin_bytes q : 0 ≤ q < 512 * n → byte_at (sview s6) d6 q = byte_at (view c3) d2 q.
Proof.
  intros Hq. pose proof fin_max. unfold byte_at.
  rewrite (header_l3 _ d2) by (apply fin_header || mlia).
  rewrite (frame_l3 (sview s2) _ d2 n) by (apply fin_inner || mlia).
  rewrite (frame_l3 (sview s2) (view c3) d2 n).
  - change (sview s6) with (view c5). rewrite Hv5, at_idx_ne; [done|].
    apply fin_node_ne. right. apply leaf_l3. mlia.
  - intros j Hj. rewrite <-fin_inner by done. change (sview s6) with (view c5).
    rewrite Hv5, at_idx_ne; [done|]. apply fin_node_ne. by left.
  - mlia.
Qed.

Lemma fin_new_node j :
  node (sview s2) d2 n j → node (sview s) d (sectors_of i) j ∨ spare s j.
Proof.
  intros Hn. destruct fin_sizes as (Z1 & Z2 & _).
  destruct (get_bit (free_map s) j) eqn:E.
  2:{ right. split; [|done]. rewrite <-Z2. eapply node_range; [apply fin_growing|done]. }
  left. pose proof (frame_node (sview s) (sview s1) d (sectors_of i) (λ j _, Hv1 j)) as Ew.
  rewrite <-Ew. destruct Hx as [_ _ O N _ _ In]. destruct Hn as [[Hj|[_ Hj]]%In|(k & Hk & ->)].
  - by left.
  - simpl in Hj. congruence.
  - destruct (decide (k < sectors_of i)).
    + destruct (O k) as (_ & _ & ->); [lia|]. right. apply leaf_l3. lia.
    + destruct (N k) as [_ [_ Hj]]; [lia|]. simpl in Hj. congruence.
Qed.

Lemma fin_touch :
  touch (λ j, S j ∨ node (sview s) d (sectors_of i) j ∨ j = sec ∨ spare s j) (fs_cache s) c5.
Proof.
  destruct fin_sizes as (Z1 & Z2 & _).
  assert (Hst : ∀ j, ¬ (S j ∨ node (sview s) d (sectors_of i) j ∨ j = sec ∨ spare s j) →
    ¬ leaf (sview s2) d2 n j ∧
    ¬ (S j ∨ j = sec ∨ inner (sview s1) d (sectors_of i) j ∨ spare s1 j)).
  { intros j Hj. split.
    - intros Hl. destruct (fin_new_node j); [by right|tauto..].
    - unfold spare in *. rewrite Z1. simpl. intros [?|[?|[Hi|?]]]; [tauto..| |tauto].
      apply (frame_inner (sview s) (sview s1)) in Hi; [|intros; apply Hv1].
      apply Hj. right; left; by left. }
  pose proof (ex_step _ _ _ _ _ _ _ _ _ _ Hx) as [Ht2 _ _ _ _ _ _ _ _ _].
  split; [done|..]; intros j Hj; destruct (Hst j Hj) as [H1 H2].
  - rewrite Hv5, at_idx_ne, (tc_view _ _ _ Ht3), (tc_view _ _ _ Ht2) by tauto. apply Hv1.
  - intros Hc. apply Hc5; [tauto|]. apply (tc_clean _ _ _ Ht3); [done|].
    apply (tc_clean _ _ _ Ht2); [done|]. by apply Hc1.
Qed.

Hypothesis Htail : ∀ q, new ≤ q < 512 * n → byte_at (view c3) d2 q = 0.

Lemma fin_quiet : quiet_file s6 p (set_i_length new i) d6.
Proof.
  pose proof fin_growing as Hg2. destruct fin_sizes as (_ & Z2 & Z6).
  split.
  - apply fin_inv.
  - apply fin_open.
  - change (sectors_of (set_i_length new i)) with n. intros j Hj. rewrite fin_node in Hj.
    apply (gr_used _ _ _ _ _ _ _ Hg2 j Hj).
  - change (sectors_of (set_i_length new i)) with n. intros j Hj. rewrite fin_node in Hj.
    apply (gr_other _ _ _ _ _ _ _ Hg2 j Hj).
  - intros j. change (locked c5 j = false). rewrite (st_locked _ _ Hs5). apply Hqf.
  - apply Hqf.
  - change (sectors_of (set_i_length new i)) with n. simpl. intros q Hq.
    pose proof (oa_len _ _ _ _ (qf_open _ _ _ _ Hqf)). rewrite fin_bytes by lia. auto.
Qed.

Lemma fin_regrown : regrown s s6 p i d d6 new.
Proof.
  pose proof (ex_step _ _ _ _ _ _ _ _ _ _ Hx) as F2. destruct fin_sizes as (Z1 & Z2 & Z6).
  pose proof fin_length as Hl2. pose proof (oa_len _ _ _ _ (qf_open _ _ _ _ Hqf)). split.
  - apply fin_quiet.
  - apply word_set_eq; [done|unfold LENGTH_WORD; lia..].
  - rewrite word_set_ne by (done || (unfold FLAGS_WORD, LENGTH_WORD; lia)).
    apply (ex_words _ _ _ _ _ _ _ _ _ _ Hx). unfold FLAGS_WORD. lia.
  - intros p' Hp'. simpl. rewrite lookup_insert_ne by done. by rewrite (fp_inodes _ _ _ F2).
  - destruct F2. done.
  - apply fin_touch.
  - intros j Hj. rewrite fin_node. apply (ex_bits _ _ _ _ _ _ _ _ _ _ Hx). by rewrite Z1.
Qed.
End finish.

(** Growing, then writing the buffer: the bytes that the sectors hold. *)
Lemma grown_bytes s p i d s1 H s2 d2 new c3 offset (k : list Z) q :
  quiet_file s p i d → (∀ j, view (fs_cache s1) j = sview s j) →
  growing I S H (.= i_sector i) s1 d (sectors_of i) →
  extended I S H (.= i_sector i) s1 d (sectors_of i) s2 d2 (sectors_for new) →
  (∀ q, 0 ≤ q < 512 * sectors_for new → byte_at (view c3) d2 q =
    if decide (offset ≤ q < new) then default 0 (k !! Z.to_nat (0 + (q - offset)))
    else byte_at (sview s2) d2 q) →
  0 ≤ q < 512 * sectors_for new →
  byte_at (view c3) d2 q =
    if decide (offset ≤ q < new) then default 0 (k !! Z.to_nat (q - offset))
    else if decide (q < i_length i) then byte_at (sview s) d q else 0.
Proof.
  intros Hqf Hv1 Hg Hx Hw Hq. rewrite Hw by done. case_decide; [done|].
  pose proof (oa_len _ _ _ _ (qf_open _ _ _ _ Hqf)).
  rewrite (extended_bytes _ _ _ _ _ _ _ _ q Hx Hg) by (unfold sectors_of; mlia).
  assert (E : q < 512 * sectors_of i → byte_at (sview s1) d q = byte_at (sview s) d q).
  { intros. unfold byte_at. rewrite (frame_l3 (sview s) _ d (sectors_of i)); [|intros; apply Hv1|mlia].
    unfold sview at 1. by rewrite Hv1. }
  destruct (decide (q < i_length i)); [rewrite decide_True by (unfold sectors_of; mlia); by apply E; unfold sectors_of; mlia|].
  case_decide; [|done]. rewrite E by done. apply (qf_tail _ _ _ _ Hqf). lia.
Qed.

(** C2: writing past the end of a file, with enough sectors free: every byte
    is written, the file gets the new length, on disk and in memory, and its
    bytes are the old ones, zeros up to the position, and the buffer; the sectors
    it took are marked and were free, and no sector that belongs to something
    else changes. *)
Theorem write_at_extends (s : fs) (p : nat) (i : inode) (d buffer : list Z) (size offset : Z)
    (Hquiet : quiet_file s p i d) (Hready : ready (fs_cache s) 4) (Hallow : deny_write_cnt i = 0)
    (Hofs : 0 ≤ offset) (Hsize : 0 ≤ size ≤ Z.of_nat (length buffer))
    (Hgrow : i_length i < offset + size < 1048576000)
    (Hspace : needs (Z.to_nat (sectors_for (offset + size) - sectors_of i)) (sectors_of i) ≤ free_cnt s) :
  ∃ s' d', inode_write_at p buffer size offset s = Ret (size, s') ∧
    regrown s s' p i d d' (offset + size) ∧
    file_bytes s' d' (offset + size) =
      overwrite (file_bytes s d (i_length i)) offset (take (Z.to_nat size) buffer).
Proof.
  pose proof (qf_open _ _ _ _ Hquiet) as [Hi Hsec Hd Hlen Ht Hh].
  destruct (hold_growing s p i d Hquiet Hready) as (h & c1 & Hget & Hg & Hv1 & Hc1).
  set (H := λ s' d', _) in Hg.
  assert (Hs1 : dsize (set_cache c1 s) = dsize s)
    by apply (hd_size _ _ _ _ _ (proj1 (gr_head _ _ _ _ _ _ _ Hg))).
  destruct (grow_file_ok (Cached h) H (i_sector i) (set_cache c1 s) d h (i_length i) (offset + size))
    as (s2 & d2 & Hgf & Hx); [done|done|apply _|by rewrite Hs1|lia..| |].
  { unfold free_cnt. rewrite Hs1. exact Hspace. }
  change (sectors_for (i_length i)) with (sectors_of i) in Hx.
  pose proof (ex_growing _ _ _ _ _ _ _ _ _ _ Hx) as G2. pose proof (ex_step _ _ _ _ _ _ _ _ _ _ Hx) as F2.
  pose proof (gr_head _ _ _ _ _ _ _ G2) as [Hh2 Hd2].
  assert (Hi2 : inodes s2 !! p = Some i) by (by rewrite (fp_inodes _ _ _ F2)).
  assert (Hsec2 : 0 ≤ i_sector i < dsize s2) by (by rewrite (fstep_dsize _ _ _ F2), Hs1).
  destruct (write_loop_ok p i d2 buffer (sectors_for (offset + size)) (offset + size) (sectors_fuel size)
    s2 size offset 0) as (c3 & Hwl & Ht3 & Hq3); try lia.
  { split; try done; [apply G2|by apply G2]. }
  { eapply ready_le; [apply G2|lia]. }
  { unfold sectors_for. mlia. }
  { by apply enough_start. }
  assert (Hh3 : held (fs_cache s) c3 (i_sector i) true h) by (eapply held_steady; [done|apply Ht3]).
  destruct (store_length_ok (fs_cache s) (set_cache c3 s2) p i d2 h (i_sector i) (offset + size))
    as (c5 & Hsl & Hs5 & Hv5 & Hc5); try done; try lia.
  { rewrite <-Hd2. apply (tc_view _ _ _ Ht3). intros Hl.
    apply (gr_sep _ _ _ _ _ _ _ G2 (i_sector i)); [done|by right]. }
  { eapply view_length; [apply G2|exact Hd2]. }
  { unfold dsize in *. simpl. by rewrite (st_size _ _ (tc_steady _ _ _ Ht3)). }
  set (s6 := set_inodes _ _) in Hsl.
  assert (Hbytes : ∀ q, 0 ≤ q < 512 * sectors_for (offset + size) → byte_at (view c3) d2 q =
    if decide (offset ≤ q < offset + size) then default 0 (buffer !! Z.to_nat (q - offset))
    else if decide (q < i_length i) then byte_at (sview s) d q else 0).
  { intros q. eapply (grown_bytes s p i d (set_cache c1 s)); done. }
  exists s6, (set_word d2 LENGTH_WORD (offset + size)). split; [|split].
  - unfold inode_write_at. mrun (get_inode_run s p i Hi). rewrite decide_False by lia.
    mrun Hget. rewrite s32_small by lia. mrun Hgf. mrun Hwl. unfold whenM.
    fold (store_length (i_sector i) h p (offset + size)). mrun Hsl. done.
  - eapply (fin_regrown s s2 p i d d2 (offset + size) h c1 c3 c5); try done.
    intros q Hq. rewrite Hbytes by lia. rewrite !decide_False by lia. done.
  - assert (El : offset + size = offset + Z.of_nat (length (take (Z.to_nat size) buffer)))
      by (rewrite length_take; lia).
    unfold file_bytes. rewrite El at 2. apply bytes_of_overwrite; try rewrite <-El; try lia.
    intros q Hq. assert (0 ≤ q < 512 * sectors_for (offset + size)) by (unfold sectors_for; mlia).
    rewrite (fin_bytes s s2 p i d d2 (offset + size) h c1 c3 c5) by done.
    rewrite Hbytes by done.
    destruct (decide (offset ≤ q)); [rewrite decide_True by lia|by rewrite decide_False by lia].
    by rewrite lookup_take_lt by lia.
Qed.
End write.
