(* ===== verification/Directory.v ===== *)
(** Directories: filesys/directory.c of Project5.  A name is the list of the
    bytes of a C string, without its terminator. *)
From S2P Require Import Prelude Bitmap Block Cache Fs Inode FreeMap.
Local Open Scope Z_scope.

(** directory.h 12 NAME_MAX *)
Definition NAME_MAX : Z := 25.
(** directory.h 13 MAX_PATH_LEN *)
Definition MAX_PATH_LEN : Z := 256.
(** directory.h 15 PATH_DELIM_CHAR *)
Definition PATH_DELIM_CHAR : Z := 47.

(** ** Directory entries, as the 32 bytes of a [struct dir_entry] *)

(** directory.c 19-24 dir_entry: its size with the padding *)
Definition sizeof_dir_entry : Z := 32.
Definition e_inode_sector (e : list Z) : Z := unle32 (take 4 e).
Definition e_name (e : list Z) : list Z := sub e 4 26.
Definition e_in_use (e : list Z) : bool := bool_decide (default 0 (e !! 30%nat) ≠ 0).
Definition set_e_inode_sector (n : Z) (e : list Z) : list Z := splice e 0 (le32 n).
Definition set_e_in_use (b : bool) (e : list Z) : list Z := <[30%nat := if b then 1 else 0]> e.

(** The C string in an array: the bytes before its first zero, which strlcpy
    always leaves in an entry's name. *)
Fixpoint c_string (l : list Z) : list Z :=
  match l with
  | [] => []
  | c :: l => if decide (c = 0) then [] else c :: c_string l
  end.

(** [strlcpy (e.name, name, sizeof e.name)] *)
Definition set_e_name (name e : list Z) : list Z := splice e 4 (take 25 name ++ [0]).

(** [!strcmp (name, e.name)] *)
Definition e_named (name e : list Z) : bool := bool_decide (name = c_string (e_name e)).

Definition acquire_dir_lock (dir : nat) : M fs unit :=
  let! d := get_dir dir in
  let! l := lift (lock_acquire (dir_lock d)) in
  put_dir dir (set_dir_lock l d).
Definition release_dir_lock (dir : nat) : M fs unit :=
  let! d := get_dir dir in
  let! l := lift (lock_release (dir_lock d)) in
  put_dir dir (set_dir_lock l d).

(** The number of entries of the directory, and the test that ends the scan. *)
Definition entries_fuel (dir : nat) : M fs nat :=
  let! d := get_dir dir in
  let! len := inode_length (d_inode d) in
  ret (S (Z.to_nat (len / sizeof_dir_entry))).

(** [inode_read_at (dir->inode, &e, sizeof e, ofs)], with the result compared
    to [sizeof e], and [e] afterwards *)
Definition read_entry (dir : nat) (e : list Z) (ofs : Z) : M fs (bool * list Z) :=
  let! d := get_dir dir in
  let! bytes := inode_read_at (d_inode d) sizeof_dir_entry ofs in
  ret (bool_decide (Z.of_nat (length bytes) = sizeof_dir_entry), splice e 0 bytes).

Section directory.
(** What the stack holds where a local [struct dir_entry] is declared. *)
Variable uninit : list Z.

(** directory.c 117-127 lookup, the loop: the entry and its offset *)
Fixpoint lookup_loop (fuel : nat) (dir : nat) (name e : list Z) (ofs : Z)
    : M fs (option (list Z * Z)) :=
  match fuel with
  | O => throw OutOfFuel
  | S fuel =>
      let! '(whole, e) := read_entry dir e ofs in
      if (whole : bool) then
        if e_in_use e && e_named name e then ret (Some (e, ofs))
        else lookup_loop fuel dir name e (ofs + sizeof_dir_entry)
      else ret None
  end.

(** directory.c 101-130 lookup *)
Definition lookup (dir : option nat) (name : list Z) : M fs (option (list Z * Z)) :=
  assertM (bool_decide (dir ≠ None));;!
  let! dir := deref dir in
  acquire_dir_lock dir;;!
  let! fuel := entries_fuel dir in
  let! r := lookup_loop fuel dir name uninit 0 in
  release_dir_lock dir;;!
  ret r.

(** directory.c 132-151 dir_lookup: the inode through [*inode] *)
Definition dir_lookup (dir : option nat) (name : list Z) : M fs (option nat) :=
  assertM (bool_decide (dir ≠ None));;!
  let! r := lookup dir name in
  match r with
  | Some (e, _) => inode_open (e_inode_sector e)
  | None => ret None
  end.

(** directory.c 185-188 dir_add, the loop: the offset of a free slot or of the
    end of the file, and what [e] holds *)
Fixpoint free_slot_loop (fuel : nat) (dir : nat) (e : list Z) (ofs : Z) : M fs (list Z * Z) :=
  match fuel with
  | O => throw OutOfFuel
  | S fuel =>
      let! '(whole, e) := read_entry dir e ofs in
      if (whole : bool) then
        if negb (e_in_use e) then ret (e, ofs)
        else free_slot_loop fuel dir e (ofs + sizeof_dir_entry)
      else ret (e, ofs)
  end.

(** directory.c 153-199 dir_add *)
Definition dir_add (dir : option nat) (name : list Z) (inode_sector : Z) : M fs bool :=
  assertM (bool_decide (dir ≠ None));;!
  if decide (name = [] ∨ Z.of_nat (length name) > NAME_MAX) then ret false
  else
    let! found := lookup dir name in
    match found with
    | Some _ => ret false
    | None =>
        let! p := deref dir in
        acquire_dir_lock p;;!
        let! fuel := entries_fuel p in
        let! '(e, ofs) := free_slot_loop fuel p uninit 0 in
        let e := set_e_inode_sector inode_sector (set_e_name name (set_e_in_use true e)) in
        let! d := get_dir p in
        let! n := inode_write_at (d_inode d) e sizeof_dir_entry ofs in
        release_dir_lock p;;!
        ret (bool_decide (n = sizeof_dir_entry))
    end.

(** directory.c 42-65 dir_open *)
Definition dir_open (inode : option nat) : M fs (option nat) :=
  let! is_dir := inode_is_dir inode in
  if negb is_dir then ret None
  else
    let! dir := malloc in
    let fail :=
      inode_close inode;;!
      free_dir dir;;!
      ret None in
    match inode, dir with
    | Some i, Some d =>
        let! removed := inode_is_removed i in
        if (removed : bool) then fail
        else
          put_dir d (mkDir i 0 false);;!
          ret (Some d)
    | _, _ => fail
    end.

(** directory.c 67-73 dir_open_root *)
Definition dir_open_root : M fs (option nat) :=
  let! i := inode_open ROOT_DIR_SECTOR in dir_open i.

(** directory.c 75-81 dir_reopen *)
Definition dir_reopen (dir : option nat) : M fs (option nat) :=
  let! p := deref dir in
  let! d := get_dir p in
  let! i := inode_reopen (Some (d_inode d)) in
  dir_open i.

(** directory.c 83-92 dir_close *)
Definition dir_close (dir : option nat) : M fs unit :=
  match dir with
  | Some p =>
      let! d := get_dir p in
      inode_close (Some (d_inode d));;!
      free_dir dir
  | None => ret tt
  end.

(** directory.c 94-99 dir_get_inode *)
Definition dir_get_inode (dir : option nat) : M fs nat :=
  let! p := deref dir in
  let! d := get_dir p in ret (d_inode d).

(** The names "." and "..". *)
Definition DOT : list Z := [46].
Definition DOTDOT : list Z := [46; 46].

(** directory.c 26-40 dir_create *)
Definition dir_create (sector parent_inode_sector entry_cnt : Z) : M fs bool :=
  let! created := inode_create sector (s32 (u32 (entry_cnt * sizeof_dir_entry))) true in
  if negb created then ret false
  else
    let! i := inode_open sector in
    let! new_dir := dir_open i in
    let! a1 := dir_add new_dir DOT sector in
    let! a2 := dir_add new_dir DOTDOT parent_inode_sector in
    assertM (a1 && a2);;!
    dir_close new_dir;;!
    ret true.

(** directory.c 201-238 dir_remove *)
Definition dir_remove (dir : option nat) (name : list Z) : M fs bool :=
  assertM (bool_decide (dir ≠ None));;!
  let! p := deref dir in
  let done (inode : option nat) (success : bool) :=
    release_dir_lock p;;!
    inode_close inode;;!
    ret success in
  let! found := lookup dir name in
  match found with
  | None => done None false
  | Some (e, ofs) =>
      let! inode := inode_open (e_inode_sector e) in
      match inode with
      | None => done None false
      | Some _ =>
          let e := set_e_in_use false e in
          acquire_dir_lock p;;!
          let! d := get_dir p in
          let! n := inode_write_at (d_inode d) e sizeof_dir_entry ofs in
          if decide (n ≠ sizeof_dir_entry) then done inode false
          else
            inode_remove inode;;!
            done inode true
      end
  end.

(** directory.c 249-262 dir_readdir, the loop *)
Fixpoint readdir_loop (fuel : nat) (dir : nat) (e : list Z) : M fs (option (list Z)) :=
  match fuel with
  | O => throw OutOfFuel
  | S fuel =>
      let! d := get_dir dir in
      let! '(whole, e) := read_entry dir e (d_pos d) in
      if (whole : bool) then
        put_dir dir (set_d_pos (s32 (d_pos d + sizeof_dir_entry)) d);;!
        if e_in_use e then
          if e_named DOT e || e_named DOTDOT e then readdir_loop fuel dir e
          else ret (Some (c_string (e_name e)))
        else readdir_loop fuel dir e
      else ret None
  end.

(** directory.c 240-265 dir_readdir: the name it stores, if it returns true *)
Definition dir_readdir (dir : option nat) : M fs (option (list Z)) :=
  let! p := deref dir in
  acquire_dir_lock p;;!
  let! fuel := entries_fuel p in
  let! r := readdir_loop fuel p uninit in
  release_dir_lock p;;!
  ret r.

(** directory.c 275-280 dir_num_entries, the loop *)
Fixpoint num_entries_loop (fuel : nat) (dir : nat) (e : list Z) (num_entries : Z) : M fs Z :=
  match fuel with
  | O => throw OutOfFuel
  | S fuel =>
      let! d := get_dir dir in
      let! '(whole, e) := read_entry dir e (d_pos d) in
      if (whole : bool) then
        put_dir dir (set_d_pos (s32 (d_pos d + sizeof_dir_entry)) d);;!
        num_entries_loop fuel dir e (num_entries + (if e_in_use e then 1 else 0))
      else ret num_entries
  end.

(** directory.c 267-284 dir_num_entries *)
Definition dir_num_entries (dir : option nat) : M fs Z :=
  assertM (bool_decide (dir ≠ None));;!
  let! p := deref dir in
  acquire_dir_lock p;;!
  let! fuel := entries_fuel p in
  let! n := num_entries_loop fuel p uninit 0 in
  release_dir_lock p;;!
  ret (n - 2).

End directory.
