(* ===== verification/DirectoryLaws.v ===== *)
(** Directories as lists of entries: looking a name up, adding one, and what
    [dir_remove] does with a missing one. *)
From S2P Require Import Prelude Bitmap Block Cache Handles Fs Inode InodeTree InodeIO FreeMap Directory.
Local Open Scope Z_scope.

(** The entries in the bytes of a directory's file. *)
Definition entry_at (content : list Z) (k : nat) : list Z := sub content (32 * k) 32.
Definition entries (content : list Z) : list (list Z) :=
  entry_at content <$> seq 0 (length content / 32).

(** The first entry in use with the name, and its offset. *)
Fixpoint find_entry (name : list Z) (es : list (list Z)) (ofs : Z) : option (list Z * Z) :=
  match es with
  | [] => None
  | e :: es => if e_in_use e && e_named name e then Some (e, ofs) else find_entry name es (ofs + 32)
  end.

(** The directory at address [p] is open; its file holds whole entries. *)
Record open_dir (s : fs) (p : nat) (dd : dir) (i : inode) (d content : list Z) : Prop := {
  od_dir : dirs s !! p = Some dd;
  od_file : open_at s (d_inode dd) i d;
  od_bytes : file_bytes s d (i_length i) = content;
  od_whole : i_length i = 32 * Z.of_nat (length content / 32);
  od_ready : ready (fs_cache s) 2;
}.

Lemma get_dir_run s p dd : dirs s !! p = Some dd → get_dir p s = Ret (dd, s).
Proof. unfold get_dir. by intros ->. Qed.

Lemma bytes_length s d len : 0 ≤ len → length (file_bytes s d len) = Z.to_nat len.
Proof. intros. unfold file_bytes, bytes_of. by rewrite length_fmap, length_seqZ. Qed.

Lemma od_length s p dd i d content : open_dir s p dd i d content →
  length content = (32 * (length content / 32))%nat ∧ i_length i = Z.of_nat (length content).
Proof.
  intros [_ Ho Hb Hw _]. pose proof (oa_len _ _ _ _ Ho).
  assert (length content = Z.to_nat (i_length i)) as E by (rewrite <-Hb; apply bytes_length; lia).
  rewrite Hw in E at 1. lia.
Qed.

Lemma length_entries content : length (entries content) = (length content / 32)%nat.
Proof. unfold entries. by rewrite length_fmap, length_seq. Qed.
Lemma entries_lookup content k : (k < length content / 32)%nat → entries content !! k = Some (entry_at content k).
Proof. intros. unfold entries. by rewrite list_lookup_fmap, lookup_seq_lt by done. Qed.

(** ** Reading an entry *)
Lemma read_ok s p i d size offset :
  open_at s p i d → ready (fs_cache s) 2 → 0 ≤ offset → 0 ≤ size → offset + size < 2147483648 →
  ∃ c', inode_read_at p size offset s =
      Ret (take (Z.to_nat size) (drop (Z.to_nat offset) (file_bytes s d (i_length i))), set_cache c' s) ∧
    idle (fs_cache s) c'.
Proof.
  intros Hopen Hready Hofs Hsize Hmax.
  destruct (read_loop_ok (sectors_fuel size) s p i d size offset) as (c' & Hrun & Hi);
    [done..|lia|apply enough_start; lia|].
  exists c'. split; [|done]. unfold inode_read_at. by rewrite Hrun, file_bytes_sub.
Qed.

(** What a call that leaves the contents of the disk alone keeps. *)
Lemma idle_dir s c' p dd i d content :
  idle (fs_cache s) c' → open_dir s p dd i d content → open_dir (set_cache c' s) p dd i d content.
Proof.
  intros Hi [Hd Hf Hb Hw Hr]. split; try done.
  - by apply idle_file.
  - rewrite <-Hb. unfold file_bytes, bytes_of. pose proof (oa_len _ _ _ _ Hf).
    apply (idle_bytes _ _ _ ((i_length i + 511) / 512)); [done|lia|mlia].
  - by eapply idle_ready.
Qed.

Lemma read_entry_ok s p dd i d content e k :
  open_dir s p dd i d content → length e = 32%nat → (k < length content / 32)%nat →
  ∃ c', read_entry p e (32 * Z.of_nat k) s = Ret ((true, entry_at content k), set_cache c' s) ∧
    idle (fs_cache s) c'.
Proof.
  intros Ho He Hk. destruct (od_length _ _ _ _ _ _ Ho) as [Hlen Hi].
  destruct Ho as [Hd Hf Hb Hw Hr]. pose proof (oa_len _ _ _ _ Hf).
  destruct (read_ok s (d_inode dd) i d 32 (32 * Z.of_nat k)) as (c' & Hrun & Hidle); [done..|lia|lia|lia|].
  exists c'. split; [|done]. unfold read_entry, sizeof_dir_entry.
  rewrite (bind_run _ _ _ _ _ (get_dir_run _ _ _ Hd)), (bind_run _ _ _ _ _ Hrun). rewrite Hb.
  replace (Z.to_nat (32 * Z.of_nat k)) with (32 * k)%nat by lia. change (Z.to_nat 32) with 32%nat.
  fold (sub content (32 * k) 32). fold (entry_at content k).
  assert (length (entry_at content k) = 32%nat) as El by (apply length_sub; lia).
  unfold ret. rewrite El, bool_decide_true by done. do 3 f_equal.
  unfold splice. rewrite El. simpl. rewrite drop_ge by lia. apply app_nil_r.
Qed.

Lemma read_entry_end s p dd i d content e :
  open_dir s p dd i d content →
  ∃ c', read_entry p e (32 * Z.of_nat (length content / 32)) s = Ret ((false, e), set_cache c' s) ∧
    idle (fs_cache s) c'.
Proof.
  intros Ho. destruct (od_length _ _ _ _ _ _ Ho) as [Hlen Hi].
  destruct Ho as [Hd Hf Hb Hw Hr]. pose proof (oa_len _ _ _ _ Hf).
  destruct (read_ok s (d_inode dd) i d 32 (32 * Z.of_nat (length content / 32))) as (c' & Hrun & Hidle);
    [done..|lia|lia|lia|].
  exists c'. split; [|done]. unfold read_entry, sizeof_dir_entry.
  rewrite (bind_run _ _ _ _ _ (get_dir_run _ _ _ Hd)), (bind_run _ _ _ _ _ Hrun). rewrite Hb.
  rewrite drop_ge by lia. unfold ret. simpl. by rewrite splice_nil.
Qed.

(** ** Looking a name up *)
Lemma lookup_loop_ok name m : ∀ fuel s p dd i d content e k,
  open_dir s p dd i d content → length e = 32%nat →
  (length content / 32 - k = m)%nat → (k ≤ length content / 32)%nat → (m < fuel)%nat →
  ∃ c', lookup_loop fuel p name e (32 * Z.of_nat k) s =
      Ret (find_entry name (drop k (entries content)) (32 * Z.of_nat k), set_cache c' s) ∧
    idle (fs_cache s) c'.
Proof.
  induction m as [|m IH]; intros [|fuel] s p dd i d content e k Ho He Hm Hk Hf; try lia; cbn [lookup_loop].
  - assert (k = length content / 32)%nat as -> by lia.
    destruct (read_entry_end s p dd i d content e Ho) as (c' & Hrun & Hi). exists c'. split; [|done].
    rewrite (bind_run _ _ _ _ _ Hrun). by rewrite drop_ge by (rewrite length_entries; lia).
  - destruct (read_entry_ok s p dd i d content e k) as (c' & Hrun & Hi); [done..|lia|].
    rewrite (bind_run _ _ _ _ _ Hrun).
    rewrite (drop_S _ (entry_at content k)) by (apply entries_lookup; lia). cbn [find_entry].
    destruct (e_in_use _ && e_named _ _); [by exists c'|].
    destruct (od_length _ _ _ _ _ _ Ho) as [Hlen _].
    destruct (IH fuel (set_cache c' s) p dd i d content (entry_at content k) (S k)) as (c2 & Hrun2 & Hi2);
      [by apply idle_dir|apply length_sub; lia|lia..|].
    exists c2. replace (32 * Z.of_nat k + 32) with (32 * Z.of_nat (S k)) by lia.
    unfold sizeof_dir_entry. replace (32 * Z.of_nat k + 32) with (32 * Z.of_nat (S k)) by lia.
    rewrite Hrun2. split; [done|]. by eapply touch_trans.
Qed.

(** ** The directory's lock *)
Definition with_lock (b : bool) (p : nat) (dd : dir) (s : fs) : fs :=
  set_dirs (<[p:=set_dir_lock b dd]> (dirs s)) s.

Lemma acquire_dir_run s p dd :
  dirs s !! p = Some dd → dir_lock dd = false → acquire_dir_lock p s = Ret (tt, with_lock true p dd s).
Proof.
  intros Hd Hl. unfold acquire_dir_lock. rewrite (bind_run _ _ _ _ _ (get_dir_run _ _ _ Hd)). by rewrite Hl.
Qed.

Lemma locked_dir s p dd i d content :
  open_dir s p dd i d content → open_dir (with_lock true p dd s) p (set_dir_lock true dd) i d content.
Proof.
  intros [Hd [] Hb Hw Hr]. split; [apply lookup_insert_eq|by split|done..].
Qed.

Lemma release_dir_run s c' p dd :
  dirs s !! p = Some dd → dir_lock dd = false →
  release_dir_lock p (set_cache c' (with_lock true p dd s)) = Ret (tt, set_cache c' s).
Proof.
  intros Hd Hl. unfold release_dir_lock.
  rewrite (bind_run _ _ _ _ _ (get_dir_run (set_cache c' (with_lock true p dd s)) p (set_dir_lock true dd)
    (lookup_insert_eq _ _ _))).
  rewrite (bind_run (lift (lock_release (dir_lock (set_dir_lock true dd)))) _ _ false _ eq_refl). unfold put_dir, modify. do 2 f_equal.
  unfold with_lock. destruct s, dd. simpl in *. subst.
  unfold set_cache, set_dirs, set_dir_lock. simpl. f_equal. rewrite insert_insert_eq. by apply insert_id.
Qed.

(** [lookup] without the lock taken. *)
Lemma lookup_ok un s p dd i d content name :
  open_dir s p dd i d content → dir_lock dd = false → length un = 32%nat →
  ∃ c', lookup un (Some p) name s = Ret (find_entry name (entries content) 0, set_cache c' s) ∧
    idle (fs_cache s) c'.
Proof.
  intros Ho Hl Hun. pose proof Ho as [Hd Hf Hb Hw Hr]. unfold lookup.
  rewrite (bind_run _ _ s tt s eq_refl), (bind_run _ _ s p s eq_refl).
  rewrite (bind_run _ _ _ _ _ (acquire_dir_run _ _ _ Hd Hl)).
  pose proof (locked_dir _ _ _ _ _ _ Ho) as Ho1. set (s1 := with_lock true p dd s) in *.
  rewrite (bind_run _ _ s1 (S (length content / 32)) s1).
  2:{ unfold entries_fuel. rewrite (bind_run _ _ _ _ _ (get_dir_run _ _ _ (od_dir _ _ _ _ _ _ Ho1))).
    unfold inode_length. rewrite bind_assoc.
    rewrite (bind_run _ _ _ _ _ (get_inode_run _ _ _ (oa_inode _ _ _ _ (od_file _ _ _ _ _ _ Ho1)))).
    rewrite bind_ret. unfold ret, sizeof_dir_entry. do 3 f_equal. rewrite Hw. f_equal. mlia. }
  destruct (lookup_loop_ok name (length content / 32) (S (length content / 32)) s1 p (set_dir_lock true dd) i d
    content un 0 Ho1 Hun) as (c' & Hrun & Hi); [lia..|].
  rewrite (bind_run _ _ _ _ _ Hrun), (bind_run _ _ _ _ _ (release_dir_run s c' p dd Hd Hl)).
  by exists c'.
Qed.

(** ** Adding a name *)
Lemma free_slot_ok k m : ∀ fuel s p dd i d content e j,
  open_dir s p dd i d content → length e = 32%nat → (k < length content / 32)%nat →
  e_in_use (entry_at content k) = false →
  (∀ j', (j ≤ j' < k)%nat → e_in_use (entry_at content j') = true) →
  (k - j = m)%nat → (j ≤ k)%nat → (m < fuel)%nat →
  ∃ c', free_slot_loop fuel p e (32 * Z.of_nat j) s =
      Ret ((entry_at content k, 32 * Z.of_nat k), set_cache c' s) ∧ idle (fs_cache s) c'.
Proof.
  induction m as [|m IH]; intros [|fuel] s p dd i d content e j Ho He Hk Hfree Hused Hm Hj Hf; try lia;
    cbn [free_slot_loop].
  - assert (j = k) as -> by lia. destruct (read_entry_ok s p dd i d content e k) as (c' & Hrun & Hi); [done..|].
    rewrite (bind_run _ _ _ _ _ Hrun), Hfree. by exists c'.
  - destruct (read_entry_ok s p dd i d content e j) as (c' & Hrun & Hi); [done..|lia|].
    rewrite (bind_run _ _ _ _ _ Hrun), (Hused j) by lia. simpl.
    destruct (od_length _ _ _ _ _ _ Ho) as [Hlen _].
    destruct (IH fuel (set_cache c' s) p dd i d content (entry_at content j) (S j)) as (c2 & Hrun2 & Hi2);
      [by apply idle_dir|apply length_sub; lia|done|done|intros; apply Hused; lia|lia..|].
    exists c2. unfold sizeof_dir_entry. replace (32 * Z.of_nat j + 32) with (32 * Z.of_nat (S j)) by lia.
    rewrite Hrun2. split; [done|]. by eapply touch_trans.
Qed.

(** The entry that [dir_add] writes over the free entry [e]. *)
Definition new_entry (name : list Z) (inode_sector : Z) (e : list Z) : list Z :=
  set_e_inode_sector inode_sector (set_e_name name (set_e_in_use true e)).

Lemma length_new_entry name n e : length e = 32%nat → (length name ≤ 25)%nat → length (new_entry name n e) = 32%nat.
Proof.
  intros He Hn. unfold new_entry.
  assert (length (set_e_name name (set_e_in_use true e)) = 32%nat) as E.
  { unfold set_e_name, set_e_in_use. rewrite length_splice; rewrite length_insert; [done|].
    rewrite length_app, length_take. cbn [length]. lia. }
  unfold set_e_inode_sector. rewrite length_splice; [done|]. rewrite E. simpl. lia.
Qed.

(** What is in the new entry. *)
Lemma new_entry_sector name n e :
  length e = 32%nat → (length name ≤ 25)%nat → 0 ≤ n < 4294967296 → e_inode_sector (new_entry name n e) = n.
Proof.
  intros He Hn Hr. unfold new_entry, e_inode_sector, set_e_inode_sector, splice.
  rewrite take_0. cbn [app]. rewrite take_app_le by done. change (take 4 (le32 n)) with (le32 n).
  by apply unle32_le32.
Qed.

Lemma new_entry_after name n e k :
  length e = 32%nat → (length name ≤ 25)%nat → (4 ≤ k)%nat →
  new_entry name n e !! k = set_e_name name (set_e_in_use true e) !! k.
Proof.
  intros He Hn Hk. unfold new_entry, set_e_inode_sector. apply lookup_splice_old.
  - simpl. unfold set_e_name, set_e_in_use. rewrite length_splice; rewrite length_insert, He; [lia|].
    rewrite length_app, length_take. cbn [length]. lia.
  - simpl. lia.
Qed.

Lemma new_entry_in_use name n e :
  length e = 32%nat → (length name ≤ 25)%nat → e_in_use (new_entry name n e) = true.
Proof.
  intros He Hn. unfold e_in_use. rewrite new_entry_after by (done || lia).
  unfold set_e_name, set_e_in_use. rewrite lookup_splice_old.
  - rewrite list_lookup_insert_eq by lia. done.
  - rewrite length_insert, length_app, length_take. cbn [length]. lia.
  - rewrite length_app, length_take. cbn [length]. lia.
Qed.

Lemma c_string_app name l : Forall (λ c, c ≠ 0) name → c_string (name ++ 0 :: l) = name.
Proof. induction 1 as [|c name Hc _ IH]; [done|]. simpl. by rewrite decide_False, IH. Qed.

Lemma new_entry_named name n e :
  length e = 32%nat → (length name ≤ 25)%nat → Forall (λ c, c ≠ 0) name →
  c_string (e_name (new_entry name n e)) = name.
Proof.
  intros He Hn Hz. assert (∃ l, e_name (new_entry name n e) = name ++ 0 :: l) as [l ->]; [|by apply c_string_app].
  set (r := splice (set_e_in_use true e) 4 (name ++ [0])).
  assert (length r = 32%nat) as Hr.
  { unfold r, set_e_in_use. rewrite length_splice; rewrite length_insert; [done|]. rewrite length_app. simpl. lia. }
  exists (drop (S (length name)) (sub r 4 26)).
  transitivity (sub r 4 26).
  - apply list_eq. intros j. unfold e_name. destruct (decide (j < 26)%nat).
    + rewrite !lookup_sub by done. rewrite new_entry_after by (done || lia).
      unfold set_e_name. by rewrite take_ge by lia.
    + unfold sub. by rewrite !lookup_take_ge by lia.
  - assert (take (S (length name)) (sub r 4 26) = name ++ [0]) as E.
    { apply list_eq. intros j. destruct (decide (j < S (length name))%nat).
      - rewrite lookup_take_lt, lookup_sub by lia. unfold r, set_e_in_use.
        rewrite lookup_splice_new; [by replace (4 + j - 4)%nat with j by lia|..];
          rewrite ?length_insert, length_app; simpl; lia.
      - rewrite lookup_take_ge by lia. symmetry. apply lookup_ge_None. rewrite length_app. simpl. lia. }
    rewrite <-(take_drop (S (length name)) (sub r 4 26)) at 1. rewrite E, <-app_assoc. done.
Qed.

(** ** The directory after a name has been added *)
Lemma entry_at_splice content k new j :
  length new = 32%nat → (32 * k + 32 ≤ length content)%nat → (32 * j + 32 ≤ length content)%nat →
  entry_at (splice content (32 * k) new) j = if decide (j = k) then new else entry_at content j.
Proof.
  intros Hn Hk Hj. apply list_eq. intros x. unfold entry_at. destruct (decide (x < 32)%nat) as [Hx|Hx].
  - rewrite lookup_sub by done. case_decide as E.
    + subst. rewrite lookup_splice_new by lia. by replace (32 * k + x - 32 * k)%nat with x by lia.
    + rewrite lookup_splice_old by lia. by rewrite lookup_sub.
  - unfold sub. rewrite lookup_take_ge by lia. case_decide; symmetry; [apply lookup_ge_None; lia|].
    by rewrite lookup_take_ge by lia.
Qed.

Lemma entries_splice content k new :
  length new = 32%nat → (k < length content / 32)%nat →
  entries (splice content (32 * k) new) = <[k:=new]> (entries content).
Proof.
  intros Hn Hk. pose proof (Nat.Div0.mul_div_le (length content) 32) as Hle.
  assert (length (splice content (32 * k) new) = length content) as El by (apply length_splice; lia).
  apply list_eq. intros j. destruct (decide (j < length content / 32)%nat) as [Hj|Hj].
  - rewrite entries_lookup by (by rewrite El). rewrite entry_at_splice by lia. case_decide as E.
    + subst. by rewrite list_lookup_insert_eq by (rewrite length_entries; lia).
    + rewrite list_lookup_insert_ne by done. by rewrite entries_lookup.
  - rewrite !lookup_ge_None_2; [done|rewrite length_insert, length_entries; lia|].
    rewrite length_entries, El. lia.
Qed.

Lemma find_other name es : ∀ k new e ofs,
  es !! k = Some e → e_in_use e = false → e_named name new = false →
  find_entry name (<[k:=new]> es) ofs = find_entry name es ofs.
Proof.
  induction es as [|x es IH]; intros [|k] new e ofs Hk He Hn; simplify_eq/=.
  - by rewrite Hn, He, andb_false_r.
  - by rewrite (IH k new e).
Qed.

Lemma find_new name es : ∀ k new ofs,
  find_entry name es ofs = None → (k < length es)%nat → e_in_use new = true → e_named name new = true →
  find_entry name (<[k:=new]> es) ofs = Some (new, ofs + 32 * Z.of_nat k).
Proof.
  induction es as [|x es IH]; intros [|k] new ofs Hf Hk Hu Hn; simpl in *; try lia.
  - rewrite Hu, Hn. simpl. do 2 f_equal. lia.
  - destruct (e_in_use x && e_named name x); [done|]. rewrite IH by (done || lia). do 2 f_equal. lia.
Qed.

(** Writing an entry over one in the directory. *)
Lemma write_entry_ok s p dd i d content new k :
  open_dir s p dd i d content → deny_write_cnt i = 0 → locked (fs_cache s) (i_sector i) = false →
  length new = 32%nat → (k < length content / 32)%nat →
  ∃ c', inode_write_at (d_inode dd) new 32 (32 * Z.of_nat k) s = Ret (32, set_cache c' s) ∧
    steady (fs_cache s) c' ∧ open_dir (set_cache c' s) p dd i d (splice content (32 * k) new).
Proof.
  intros Ho Hdeny Hunl Hnew Hk. destruct (od_length _ _ _ _ _ _ Ho) as [Hlen Hi].
  destruct Ho as [Hd Hf Hb Hw Hr].
  destruct (overwrite_ok s (d_inode dd) i d new 32 (32 * Z.of_nat k)) as (c' & Hrun & Ht & Hf' & Hb');
    [done..|lia|lia|lia|].
  exists c'. split; [done|]. split; [apply (tc_steady _ _ _ Ht)|].
  assert (length (splice content (32 * k) new) = length content) as El by (apply length_splice; lia).
  split; [done|done| |by rewrite El|eapply ready_steady; [done|apply (tc_steady _ _ _ Ht)]].
  rewrite Hb', Hb. change (Z.to_nat 32) with 32%nat. rewrite take_ge by lia.
  by replace (Z.to_nat (32 * Z.of_nat k)) with (32 * k)%nat by lia.
Qed.

Lemma entries_fuel_run s p dd i d content :
  open_dir s p dd i d content → entries_fuel p s = Ret (S (length content / 32), s).
Proof.
  intros [Hd Hf Hb Hw Hr]. unfold entries_fuel. rewrite (bind_run _ _ _ _ _ (get_dir_run _ _ _ Hd)).
  unfold inode_length. rewrite bind_assoc, (bind_run _ _ _ _ _ (get_inode_run _ _ _ (oa_inode _ _ _ _ Hf))).
  rewrite bind_ret. unfold ret, sizeof_dir_entry. do 3 f_equal. rewrite Hw. f_equal. mlia.
Qed.

Lemma unlocked_dir s c' p dd i d content :
  open_dir (set_cache c' (with_lock true p dd s)) p (set_dir_lock true dd) i d content →
  dirs s !! p = Some dd → open_dir (set_cache c' s) p dd i d content.
Proof. intros [Hd [] Hb Hw Hr] Hp. split; [done|by split|done..]. Qed.

(** [dir_add] when the name is proper and not in the directory. *)
Lemma dir_add_ok un s p dd i d content name sector k :
  open_dir s p dd i d content → dir_lock dd = false → length un = 32%nat → deny_write_cnt i = 0 →
  locked (fs_cache s) (i_sector i) = false → name ≠ [] → Z.of_nat (length name) ≤ NAME_MAX →
  find_entry name (entries content) 0 = None → (k < length content / 32)%nat →
  e_in_use (entry_at content k) = false → (∀ j, (j < k)%nat → e_in_use (entry_at content j) = true) →
  ∃ c1, dir_add un (Some p) name sector s = Ret (true, set_cache c1 s) ∧
    open_dir (set_cache c1 s) p dd i d (splice content (32 * k) (new_entry name sector (entry_at content k))).
Proof.
  intros Ho Hl Hun Hdeny Hunl Hname Hlen Hnew Hk Hfree Hused. unfold NAME_MAX in *.
  destruct (lookup_ok un s p dd i d content name Ho Hl Hun) as (c1 & Hlook & Hi1). rewrite Hnew in Hlook.
  pose proof (idle_dir _ _ _ _ _ _ _ Hi1 Ho) as Ho1. set (s1 := set_cache c1 s) in *.
  pose proof (locked_dir _ _ _ _ _ _ Ho1) as Ho2. set (s2 := with_lock true p dd s1) in *.
  destruct (free_slot_ok k k (S (length content / 32)) s2 p (set_dir_lock true dd) i d content un 0 Ho2 Hun Hk Hfree)
    as (c3 & Hslot & Hi3); [intros; apply Hused; lia|lia..|].
  pose proof (idle_dir _ _ _ _ _ _ _ Hi3 Ho2) as Ho3. set (s3 := set_cache c3 s2) in *.
  destruct (od_length _ _ _ _ _ _ Ho) as [Hclen _].
  destruct (write_entry_ok s3 p (set_dir_lock true dd) i d content (new_entry name sector (entry_at content k)) k
    Ho3 Hdeny) as (c4 & Hw & Hst & Ho4); [| |done|].
  { change (locked c3 (i_sector i) = false). rewrite (st_locked _ _ (tc_steady _ _ _ Hi3)).
    change (locked c1 (i_sector i) = false). by rewrite (st_locked _ _ (tc_steady _ _ _ Hi1)). }
  { apply length_new_entry; [apply length_sub; lia|lia]. }
  exists c4. split.
  - unfold dir_add, NAME_MAX. rewrite (bind_run _ _ s tt s eq_refl), decide_False by (intros [?|?]; [done|lia]).
    rewrite (bind_run _ _ _ _ _ Hlook), (bind_run _ _ s1 p s1 eq_refl).
    rewrite (bind_run _ _ _ _ _ (acquire_dir_run s1 _ _ (od_dir _ _ _ _ _ _ Ho) Hl)).
    rewrite (bind_run _ _ _ _ _ (entries_fuel_run _ _ _ _ _ _ Ho2)).
    rewrite (bind_run _ _ _ _ _ Hslot).
    rewrite (bind_run _ _ _ _ _ (get_dir_run s3 _ _ (od_dir _ _ _ _ _ _ Ho3))).
    rewrite (bind_run _ _ _ _ _ Hw).
    rewrite (bind_run _ _ _ _ _ (release_dir_run s c4 p dd (od_dir _ _ _ _ _ _ Ho) Hl)). done.
  - apply unlocked_dir; [exact Ho4|apply (od_dir _ _ _ _ _ _ Ho)].
Qed.

(** C12: adding a name to a directory with a free entry: when the name is a
    proper one and not in the directory yet, [dir_add] writes it into the first
    free entry and returns true; then [lookup] finds the name, with the sector
    that was given, and finds for every other name what it found before. *)
Theorem dir_add_then_lookup (un : list Z) (s : fs) (p : nat) (dd : dir) (i : inode) (d content name : list Z)
    (sector : Z) (k : nat) (Ho : open_dir s p dd i d content) (Hl : dir_lock dd = false)
    (Hun : length un = 32%nat) (Hdeny : deny_write_cnt i = 0)
    (Hunl : locked (fs_cache s) (i_sector i) = false)
    (Hname : name ≠ []) (Hlen : Z.of_nat (length name) ≤ NAME_MAX) (Hz : Forall (λ c, c ≠ 0) name)
    (Hsec : 0 ≤ sector < 4294967296) (Hnew : find_entry name (entries content) 0 = None)
    (Hk : (k < length content / 32)%nat) (Hfree : e_in_use (entry_at content k) = false)
    (Hused : ∀ j, (j < k)%nat → e_in_use (entry_at content j) = true) :
  ∃ c1 content', dir_add un (Some p) name sector s = Ret (true, set_cache c1 s) ∧
    open_dir (set_cache c1 s) p dd i d content' ∧ length content' = length content ∧
    (∃ e c2, lookup un (Some p) name (set_cache c1 s) = Ret (Some (e, 32 * Z.of_nat k), set_cache c2 s) ∧
      e_inode_sector e = sector) ∧
    ∀ other, other ≠ name → find_entry other (entries content') 0 = find_entry other (entries content) 0.
Proof.
  destruct (dir_add_ok un s p dd i d content name sector k) as (c1 & Hrun & Ho'); [done..|].
  set (new := new_entry name sector (entry_at content k)) in *. unfold NAME_MAX in Hlen.
  destruct (od_length _ _ _ _ _ _ Ho) as [Hclen _].
  assert (length (entry_at content k) = 32%nat) as He by (apply length_sub; lia).
  assert (length new = 32%nat) as Hn by (apply length_new_entry; [done|lia]).
  assert (c_string (e_name new) = name) as Hcs by (apply new_entry_named; [done|lia|done]).
  assert (entries (splice content (32 * k) new) = <[k:=new]> (entries content)) as Ees by by apply entries_splice.
  exists c1, (splice content (32 * k) new). split_and!; [done|done|apply length_splice; lia| |].
  - destruct (lookup_ok un _ _ _ _ _ _ name Ho' Hl Hun) as (c2 & Hlook & _). exists new, c2.
    rewrite Hlook, Ees, find_new; [|done|by rewrite length_entries|apply new_entry_in_use; [done|lia]|].
    + split; [done|]. apply new_entry_sector; [done|lia|done].
    + apply bool_decide_true. by rewrite Hcs.
  - intros other Hother. rewrite Ees. eapply find_other; [by apply entries_lookup|done|].
    apply bool_decide_false. by rewrite Hcs.
Qed.

(** [dir_remove] of a name that is not in the directory does not return
    false, as its comment says, but fails an assertion: it jumps to the code
    that releases the directory's lock without having taken it. *)
Theorem dir_remove_missing_panics (un : list Z) (s : fs) (p : nat) (dd : dir) (i : inode) (d content name : list Z)
    (Ho : open_dir s p dd i d content) (Hl : dir_lock dd = false) (Hun : length un = 32%nat)
    (Hnew : find_entry name (entries content) 0 = None) :
  dir_remove un (Some p) name s = Err Panic.
Proof.
  destruct (lookup_ok un s p dd i d content name Ho Hl Hun) as (c1 & Hlook & Hi1). rewrite Hnew in Hlook.
  unfold dir_remove. rewrite (bind_run _ _ s tt s eq_refl), (bind_run _ _ s p s eq_refl), (bind_run _ _ _ _ _ Hlook).
  unfold release_dir_lock, bind at 1 2, get_dir. change (dirs (set_cache c1 s)) with (dirs s).
  rewrite (od_dir _ _ _ _ _ _ Ho). simpl. by rewrite Hl.
Qed.

