(* ===== verification/SmallDisk.v ===== *)
(** A small disk with a free map and one file, on which the theorems about
    inodes are applied. *)
From S2P Require Import Prelude Bitmap Block Cache Handles Fs Inode InodeTree InodeIO File FreeMap FreeMapLaws InodeGrow InodeWrite.
From S2P Require Import Directory DirectoryLaws.
Local Open Scope Z_scope.

(** ** Files of one sector *)

Lemma empty_tree v sz d :
  (∀ i, 0 ≤ i < 125 → word d (dir_word i) = NONE32) → tree v sz d 0.
Proof.
  intros Hw. split; unfold MAX_SECTORS; try lia; try (intros; exfalso; mlia).
  intros k Hk _. unfold l1. apply Hw. mlia.
Qed.

(** An inode with header [d], whose only data sector [c] is found by way of the
    index sectors [a] and [b]. *)
Section one.
Context (v : Z → option (list Z)) (sz : Z) (d : list Z) (a b c : Z).
Hypothesis W1 : ∀ i, 0 ≤ i < 125 → word d (dir_word i) = if decide (i = 0) then a else NONE32.
Hypothesis W2 : ∀ i, 0 ≤ i < 128 → wd v a i = if decide (i = 0) then b else NONE32.
Hypothesis W3 : ∀ i, 0 ≤ i < 128 → wd v b i = if decide (i = 0) then c else NONE32.
Hypothesis Ha : 0 ≤ a < sz.
Hypothesis Hb : 0 ≤ b < sz.
Hypothesis Hc : 0 ≤ c < sz.
Hypothesis Hne : a ≠ b ∧ a ≠ c ∧ b ≠ c.

(** The header before the sector was added. *)
Definition blank : list Z := filled NONE32.

Lemma word_blank i : 0 ≤ i < 128 → word blank i = NONE32.
Proof. intros. by apply word_filled. Qed.

Lemma blank_tree : tree v sz blank 0.
Proof. apply empty_tree. intros. apply word_blank. unfold dir_word. lia. Qed.

Lemma blank_node j : ¬ node v blank 0 j.
Proof. intros [(k & Hk & _)|(k & Hk & _)]; lia. Qed.

Lemma blank_fresh j : 0 ≤ j < sz → fresh v sz blank 0 j.
Proof. split; [done|apply blank_node]. Qed.

Lemma one_grown : tree v sz d 1 ∧ ∀ j, node v d 1 j ↔ j = a ∨ j = b ∨ j = c.
Proof.
  destruct Hne as (H & H0 & H1).
  assert (E1 : ∀ i, 0 ≤ i < 125 → word d (dir_word i) =
    if decide (i = 0 / 16384) then a else word blank (dir_word i)).
  { intros i Hi. rewrite W1, word_blank by (done || (unfold dir_word; lia)). done. }
  assert (V : ∀ j, inner v blank 0 j → j ≠ a → j ≠ b → v j = v j) by done.
  assert (Fa : if decide (0 mod 16384 = 0) then fresh v sz blank 0 a else a = l1 blank 0)
    by (by apply blank_fresh).
  assert (Fb : if decide (0 mod 128 = 0) then fresh v sz blank 0 b else b = l2 v blank 0)
    by (by apply blank_fresh).
  assert (E2 : ∀ i, 0 ≤ i < 128 → wd v a i = if decide (i = 0 / 128 mod 128) then b
    else if decide (0 mod 16384 = 0) then NONE32 else wd v a i) by exact W2.
  assert (E3 : ∀ i, 0 ≤ i < 128 → wd v b i = if decide (i = 0 mod 128) then c
    else if decide (0 mod 128 = 0) then NONE32 else wd v b i) by exact W3.
  assert (Hz : 0 ≤ 0 < MAX_SECTORS) by done. pose proof (blank_fresh c Hc) as Fc.
  split.
  - exact (grow_tree v v sz blank d 0 a b c blank_tree Hz E1 E2 E3 V Fa Fb Fc (λ _, H) (λ _, H0) (λ _, H1)).
  - intros j. rewrite (grow_node v v sz blank d 0 a b c blank_tree Hz E1 E2 E3 V Fa Fb (λ _, H) (λ _, H0) (λ _, H1)).
    split; [|tauto]. intros [Hn|?]; [by apply blank_node in Hn|done].
Qed.
End one.

(** ** The disk *)

(** A header for a file of [len] bytes with first index sector [a], and an
    index sector with first entry [b]. *)
Definition header (len a : Z) : list Z := set_word (set_word blank LENGTH_WORD len) (dir_word 0) a.
Definition entry (b : Z) : list Z := set_word blank 0 b.
Definition padded (l : list Z) : list Z := l ++ replicate (512 - length l) 0.

(** A directory with the name "." in its first entry, and a free entry. *)
Definition dir_bytes : list Z := (le32 12 ++ [46] ++ replicate 25 0 ++ [1; 0]) ++ replicate 32 0.

(** The free map's file is in the sectors 0 to 3, a file of 300 bytes in 4 to 7,
    the directory in 12 to 15. *)
Definition small_sectors : list (list Z) :=
  [header 4 1; entry 2; entry 3; padded [255; 0; 0; 0];
   header 300 5; entry 6; entry 7; padded (replicate 300 65)] ++ replicate 4 (replicate 512 0) ++
  [header 64 13; entry 14; entry 15; padded dir_bytes].
Definition small_dev : block := mkBlock BLOCK_FILESYS 16 small_sectors 0 0.
Definition small_boot : cache :=
  mkCache small_dev (repeat (mkSector 7 (repeat 0 512) true 9 true true) 64) true 0 ∅ [] 0 0 0 false.
Definition small_cache : cache :=
  match cache_init 3 small_boot with Ret (_, c) => c | Err _ => small_boot end.

Definition map_inode : inode := mkInode 0 1 false 0 0 4.
Definition some_inode : inode := mkInode 4 1 false 0 0 300.

Definition dir_inode : inode := mkInode 12 1 false 0 1 64.

(** All are open; a buffer holds an inode without sectors. *)
Definition small_disk : fs :=
  mkFs small_cache {[ 1%nat := map_inode; 2%nat := some_inode; 6%nat := dir_inode ]}
    {[ 3%nat := mkFile 1 0 false false ]} {[ 7%nat := mkDir 6 0 false ]} {[ 4%nat := blank ]} 8 []
    [1%nat; 2%nat; 6%nat]
    (mkBitmap 16 [255]) (Some 3%nat) false None.

Lemma small_booting : booting small_boot.
Proof. split; try done. split; try done. by apply (bool_decide_unpack _); vm_compute. Qed.

Lemma small_represents : represents small_cache (nthZ small_sectors).
Proof.
  destruct (cache_init_ok 3 small_boot small_booting) as (c & Hrun & _ & Hc); [done|].
  unfold small_cache. by rewrite Hrun.
Qed.

Lemma small_view j : sview small_disk j = nthZ small_sectors j.
Proof. apply small_represents. Qed.

Lemma small_size : dsize small_disk = 16.
Proof. done. Qed.

Lemma small_ready k : k ≤ 64 → ready (fs_cache small_disk) k.
Proof.
  destruct small_represents as (Hinv & Hown & _). intros. split; [done|done|].
  intros j. change (own small_cache j + k ≤ u32_max). rewrite Hown. unfold u32_max. lia.
Qed.

Lemma small_unlocked j : locked (fs_cache small_disk) j = false.
Proof. destruct small_represents as (Hinv & Hown & _). by apply unlocked_unowned. Qed.

(** A decidable fact about the numbers below [n], by computation. *)
Lemma below_all (P : Z → Prop) `{!∀ i, Decision (P i)} n :
  bool_decide (Forall P (seqZ 0 n)) = true → ∀ i, 0 ≤ i < n → P i.
Proof. intros Hb%bool_decide_eq_true i Hi. eapply Forall_forall; [exact Hb|]. apply elem_of_seqZ. lia. Qed.

Lemma header_words len a i :
  0 ≤ i < 125 → 0 ≤ a < 4294967296 →
  word (header len a) (dir_word i) = if decide (i = 0) then a else NONE32.
Proof.
  intros Hi Ha. unfold header, dir_word. assert (Hb : length blank = 512%nat) by done.
  assert (Hl : length (set_word blank LENGTH_WORD len) = 512%nat) by (by apply length_set_word).
  case_decide as E.
  - subst i. by apply word_set_eq.
  - rewrite word_set_ne, word_set_ne by (done || (unfold LENGTH_WORD; lia)).
    apply word_blank. lia.
Qed.

Lemma entry_words v sec b i :
  v sec = Some (entry b) → 0 ≤ i < 128 → 0 ≤ b < 4294967296 →
  wd v sec i = if decide (i = 0) then b else NONE32.
Proof.
  intros Hv Hi Hb. unfold wd. rewrite Hv. unfold entry. case_decide as E.
  - subst i. by apply word_set_eq.
  - rewrite word_set_ne by (done || lia). by apply word_blank.
Qed.

(** The two files. *)
Lemma small_file len a : 
  sview small_disk a = Some (entry (a + 1)) → sview small_disk (a + 1) = Some (entry (a + 2)) →
  0 ≤ a < 14 →
  tree (sview small_disk) 16 (header len a) 1 ∧
    ∀ j, node (sview small_disk) (header len a) 1 j ↔ a ≤ j < a + 3.
Proof.
  intros E1 E2 Ha. destruct (one_grown (sview small_disk) 16 (header len a) a (a + 1) (a + 2)) as [Ht Hn];
    try lia.
  - intros. apply header_words; lia.
  - intros. apply entry_words; (done || lia).
  - intros. apply entry_words; (done || lia).
  - split; [done|]. intros j. rewrite Hn. lia.
Qed.

Lemma small_map_file : tree (sview small_disk) 16 (header 4 1) 1 ∧
  ∀ j, node (sview small_disk) (header 4 1) 1 j ↔ 1 ≤ j < 4.
Proof. apply (small_file 4 1); by rewrite ?small_view. Qed.

Lemma small_some_file : tree (sview small_disk) 16 (header 300 5) 1 ∧
  ∀ j, node (sview small_disk) (header 300 5) 1 j ↔ 5 ≤ j < 8.
Proof. apply (small_file 300 5); by rewrite ?small_view. Qed.

Lemma small_map_open : open_at small_disk 1 map_inode (header 4 1).
Proof.
  destruct small_map_file as [Ht Hn]. split.
  - reflexivity.
  - simpl. rewrite small_size. lia.
  - apply small_view.
  - simpl. lia.
  - exact Ht.
  - intros [? ?]%Hn. simpl in *. lia.
Qed.

Lemma small_some_open : open_at small_disk 2 some_inode (header 300 5).
Proof.
  destruct small_some_file as [Ht Hn]. split.
  - reflexivity.
  - simpl. rewrite small_size. lia.
  - apply small_view.
  - simpl. lia.
  - exact Ht.
  - intros [? ?]%Hn. simpl in *. lia.
Qed.

(** The bytes of their data sectors. *)
Lemma small_data len a q :
  sview small_disk a = Some (entry (a + 1)) → sview small_disk (a + 1) = Some (entry (a + 2)) →
  0 ≤ a < 14 → 0 ≤ q < 512 →
  byte_at (sview small_disk) (header len a) q =
    match nthZ small_sectors (a + 2) with Some s => default 0 (s !! Z.to_nat q) | None => 0 end.
Proof.
  intros E1 E2 Ha Hq. unfold byte_at, l3, l2, l1.
  replace (q / 512) with 0 by mlia. replace (q mod 512) with q by mlia.
  rewrite (header_words len a (0 / 16384)) by (done || lia). cbn [decide].
  rewrite (entry_words _ a (a + 1)) by (done || lia).
  change (decide (0 / 128 mod 128 = 0)) with (decide (0 = 0)). rewrite !decide_True by done.
  rewrite (entry_words _ (a + 1) (a + 2)) by (done || lia). rewrite decide_True by done.
  by rewrite small_view.
Qed.

Lemma small_byte q : 0 ≤ q < 512 →
  byte_at (sview small_disk) (header 300 5) q = if decide (q < 300) then 65 else 0.
Proof.
  intros Hq. rewrite small_data by (done || lia || by rewrite small_view). revert q Hq.
  refine (below_all (λ q, _ = _) 512 _). by vm_compute.
Qed.

Lemma small_map_bytes : file_bytes small_disk (header 4 1) 4 = [255; 0; 0; 0].
Proof.
  unfold file_bytes, bytes_of. change (seqZ 0 4) with [0; 1; 2; 3]. cbn [fmap list_fmap].
  by rewrite !small_data by (done || lia || by rewrite small_view).
Qed.

(** ** The free map *)
Definition map_sector (j : Z) : Prop := 0 ≤ j < 4.

Lemma small_bit j : 0 ≤ j < 16 → get_bit (free_map small_disk) j = bool_decide (j < 8).
Proof. revert j. refine (below_all (λ j, _ = _) 16 _). by vm_compute. Qed.

Lemma small_free : free_cnt small_disk = 8.
Proof. by vm_compute. Qed.

Lemma small_map_inv : fm_inv 1 map_inode (header 4 1) map_sector small_disk.
Proof.
  destruct small_map_file as [Ht Hn]. split; [done|]. split.
  - split; simpl; [lia|done|]. by repeat constructor.
  - done.
  - by exists 3%nat, (mkFile 1 0 false false).
  - apply small_map_open.
  - done.
  - apply small_unlocked.
  - done.
  - intros j. change (sectors_of map_inode) with 1. rewrite Hn. unfold map_sector. simpl. lia.
  - intros j Hj. unfold map_sector in Hj. rewrite small_bit by lia. apply bool_decide_true. lia.
  - change (i_length map_inode) with 4. by rewrite small_map_bytes.
Qed.

Lemma small_quiet : quiet_file (fm_inv 1 map_inode (header 4 1) map_sector) map_sector 1
  small_disk 2 some_inode (header 300 5).
Proof.
  destruct small_some_file as [Ht Hn].
  assert (Hj : ∀ j, node (sview small_disk) (header 300 5) (sectors_of some_inode) j ∨
    j = i_sector some_inode → 4 ≤ j < 8).
  { change (sectors_of some_inode) with 1. intros j. rewrite Hn. simpl. lia. }
  split.
  - apply small_map_inv.
  - apply small_some_open.
  - intros j Hj'%Hj. rewrite small_bit by lia. apply bool_decide_true. lia.
  - intros j Hj'%Hj. unfold map_sector. lia.
  - apply small_unlocked.
  - done.
  - change (sectors_of some_inode) with 1. simpl. intros q Hq. rewrite small_byte by lia.
    by rewrite decide_False by lia.
Qed.

(** ** The theorems on this disk *)

Lemma read_at_reads_file_witness :
  ∃ c', inode_read_at 2 10 295 small_disk = Ret ([65; 65; 65; 65; 65], set_cache c' small_disk) ∧
    idle (fs_cache small_disk) c'.
Proof.
  destruct (read_at_reads_file small_disk 2 some_inode (header 300 5) 10 295) as (c' & Hrun & Hi);
    [apply small_some_open|apply small_ready; lia|lia|lia|lia|].
  exists c'. split; [by rewrite Hrun|exact Hi].
Defined.

Lemma write_at_overwrites_witness :
  ∃ c', inode_write_at 2 [66; 67] 2 100 small_disk = Ret (2, set_cache c' small_disk) ∧
    file_bytes (set_cache c' small_disk) (header 300 5) 300 =
      splice (file_bytes small_disk (header 300 5) 300) 100 [66; 67].
Proof.
  destruct (write_at_overwrites small_disk 2 some_inode (header 300 5) [66; 67] 2 100)
    as (c' & Hrun & _ & _ & Hb);
    [apply small_some_open|apply small_ready; lia|done|apply small_unlocked|simpl; lia..|].
  exists c'. split; [done|exact Hb].
Defined.

Lemma write_survives_reboot_witness :
  ∃ c c1 c2 q s3 s4, inode_write_at 2 [66; 67] 2 100 small_disk = Ret (2, set_cache c small_disk) ∧
    sector_cache_flush true c = Ret (tt, c1) ∧ cache_init 3 (set_device (fs_device c1) small_boot) = Ret (tt, c2) ∧
    inode_open 4 (set_cache c2 (set_open_inodes [] small_disk)) = Ret (Some q, s3) ∧
    inode_read_at q 4 99 s3 = Ret ([65; 66; 67; 65], s4).
Proof.
  destruct small_represents as (Hinv & Hown & _).
  destruct (write_survives_reboot small_disk 2 some_inode (header 300 5) [66; 67] 2 100 4 99 small_boot 3 (set_open_inodes [] small_disk))
    as (c & c1 & c2 & q & s3 & s4 & H1 & H2 & H3 & H4 & H5);
    [apply small_some_open|by vm_compute|done|by split_and!|lia|simpl; lia|simpl; lia|apply small_booting|done|done|done|lia|lia|lia|].
  exists c, c1, c2, q, s3, s4. split_and!; [exact H1|exact H2|exact H3|exact H4|]. rewrite H5. by vm_compute.
Defined.

#[local] Instance small_laws :
  FreeMapLaws kernel_free_map (fm_inv 1 map_inode (header 4 1) map_sector) map_sector 1 :=
  kernel_map_laws 1 map_inode (header 4 1) map_sector 2.

Lemma write_at_extends_witness :
  ∃ s' d', inode_write_at 2 (replicate 300 66) 300 250 small_disk = Ret (300, s') ∧
    file_bytes s' d' 550 = overwrite (file_bytes small_disk (header 300 5) 300) 250 (replicate 300 66).
Proof.
  destruct (write_at_extends (fm_inv 1 map_inode (header 4 1) map_sector) map_sector 1
    small_disk 2 some_inode (header 300 5) (replicate 300 66) 300 250) as (s' & d' & Hrun & _ & Hb);
    [apply small_quiet|apply small_ready; lia|done|lia|rewrite length_replicate; lia|simpl; lia|rewrite small_free; by vm_compute|].
  change (250 + 300) with 550 in Hb.
  assert (E : take (Z.to_nat 300) (replicate 300 66) = replicate 300 66) by done.
  rewrite E in Hb. exists s', d'. split; [exact Hrun|exact Hb].
Defined.

Lemma extend_inode_ok_witness :
  ∃ s' d', allocate_inode_sector (Block 4) 0 small_disk = Ret (true, s') ∧ bufs s' !! 4%nat = Some d' ∧
    sview s' (l3 (sview s') d' 0) = Some (replicate 512 0) ∧ free_cnt s' = 5.
Proof.
  destruct (extend_inode_ok (fm_inv 1 map_inode (header 4 1) map_sector) map_sector 1 (Block 4)
    (λ s d, bufs s !! 4%nat = Some d ∧ length d = 512%nat) (λ _, False) small_disk blank 0)
    as (s' & d' & Hrun & Hg & _ & _ & [Hz _] & _ & _ & _ & Hf); [split|done|done|by rewrite small_free|].
  - apply small_map_inv.
  - by apply small_ready.
  - apply blank_tree.
  - done.
  - intros j [Hj|[]]. by apply blank_node in Hj.
  - intros j [Hj|[]]. by apply blank_node in Hj.
  - done.
  - intros j. by rewrite small_unlocked.
  - exists s', d'. split; [done|]. split; [apply (gr_head _ _ _ _ _ _ _ Hg)|]. split; [done|].
    by rewrite Hf, small_free.
Defined.

(** ** The directory *)
Lemma small_dir_file : tree (sview small_disk) 16 (header 64 13) 1 ∧
  ∀ j, node (sview small_disk) (header 64 13) 1 j ↔ 13 ≤ j < 16.
Proof. apply (small_file 64 13); by rewrite ?small_view. Qed.

Lemma small_dir_bytes : file_bytes small_disk (header 64 13) 64 = dir_bytes.
Proof.
  assert (∀ q, 0 ≤ q < 64 → byte_at (sview small_disk) (header 64 13) q = default 0 (dir_bytes !! Z.to_nat q)) as E.
  { intros q Hq. rewrite small_data by (done || lia || by rewrite small_view). revert q Hq.
    refine (below_all (λ q, _ = _) 64 _). by vm_compute. }
  unfold file_bytes, bytes_of. apply list_eq. intros k. rewrite list_lookup_fmap.
  destruct (decide (k < 64)%nat).
  - rewrite lookup_seqZ_lt by lia. cbn [fmap option_fmap option_map]. rewrite E by lia.
    replace (Z.to_nat (0 + Z.of_nat k)) with k by lia.
    destruct (lookup_lt_is_Some_2 dir_bytes k) as [x Hx]; [by change (length dir_bytes) with 64%nat|].
    by rewrite Hx.
  - rewrite lookup_seqZ_ge by lia. symmetry. apply lookup_ge_None. change (length dir_bytes) with 64%nat. lia.
Qed.

Lemma small_open_dir : open_dir small_disk 7 (mkDir 6 0 false) dir_inode (header 64 13) dir_bytes.
Proof.
  destruct small_dir_file as [Ht Hn]. split.
  - reflexivity.
  - split; [reflexivity|simpl; rewrite small_size; lia|apply small_view|simpl; lia|exact Ht|].
    intros [? ?]%Hn. simpl in *. lia.
  - exact small_dir_bytes.
  - reflexivity.
  - apply small_ready. lia.
Qed.

(** The name "a" is added, and found. *)
Lemma dir_add_then_lookup_witness :
  ∃ c1 e c2, dir_add (replicate 32 0) (Some 7%nat) [97] 9 small_disk = Ret (true, set_cache c1 small_disk) ∧
    lookup (replicate 32 0) (Some 7%nat) [97] (set_cache c1 small_disk) =
      Ret (Some (e, 32), set_cache c2 small_disk) ∧ e_inode_sector e = 9.
Proof.
  destruct (dir_add_then_lookup (replicate 32 0) small_disk 7 (mkDir 6 0 false) dir_inode (header 64 13) dir_bytes
    [97] 9 1 small_open_dir eq_refl eq_refl eq_refl (small_unlocked 12)) as (c1 & ct & Hrun & _ & _ & (e & c2 & Hl & He) & _).
  - discriminate.
  - vm_compute. discriminate.
  - repeat constructor. discriminate.
  - lia.
  - vm_compute. reflexivity.
  - vm_compute. repeat constructor.
  - vm_compute. reflexivity.
  - intros j Hj. assert (j = 0)%nat as -> by lia. vm_compute. reflexivity.
  - exists c1, e, c2. split; [exact Hrun|]. split; [exact Hl|exact He].
Defined.

(** The name "a" is not there to be removed. *)
Lemma dir_remove_missing_panics_witness :
  dir_remove (replicate 32 0) (Some 7%nat) [97] small_disk = Err Panic.
Proof.
  refine (dir_remove_missing_panics (replicate 32 0) small_disk 7 (mkDir 6 0 false) dir_inode (header 64 13) dir_bytes
    [97] small_open_dir eq_refl eq_refl _).
  vm_compute. reflexivity.
Defined.
