(* ===== verification/Filesys.v ===== *)
(** Paths and the file system's interface to the rest of the kernel:
    filesys/filesys.c of Project5.  A path is the list of the bytes of a C
    string, without its terminator. *)
From S2P Require Import Prelude Bitmap CString Block Cache Fs Inode File FreeMap Directory.
Local Open Scope Z_scope.

Section filesys.
(** What the stack holds where a local [struct dir_entry] is declared. *)
Variable uninit : list Z.

(** filesys.c 54-67 approach_leaf, the loop over the tokens that [strtok_r]
    finds after [last_identifier]: the last directory and identifier *)
Fixpoint approach_loop (tokens : list (list Z)) (cur_dir : option nat) (last_identifier : list Z)
    : M fs (option (option nat * list Z)) :=
  match tokens with
  | [] => ret (Some (cur_dir, last_identifier))
  | cur_token :: tokens =>
      let! inode := dir_lookup uninit cur_dir last_identifier in
      dir_close cur_dir;;!
      match inode with
      | None => ret None
      | Some _ =>
          let! cur_dir := dir_open inode in
          match cur_dir with
          | None => ret None
          | Some _ => approach_loop tokens cur_dir cur_token
          end
      end
  end.

(** filesys.c 20-73 approach_leaf: the containing directory and the filename
    it stores, if it returns true.  The filename goes into an array of
    [NAME_MAX + 1] bytes, whatever its length. *)
Definition approach_leaf (path : list Z) : M fs (option (option nat * list Z)) :=
  let path_len := Z.min (Z.of_nat (length path)) (MAX_PATH_LEN + 1) in
  if decide (path_len = 0 ∨ path_len > MAX_PATH_LEN) then ret None
  else
    let! cur_dir :=
      if decide (head path = Some PATH_DELIM_CHAR) then dir_open_root
      else let! d := gets pwd in dir_reopen d in
    match cur_dir with
    | None => ret None
    | Some _ =>
        match split_on [PATH_DELIM_CHAR] [] path with
        | [] => dir_close cur_dir;;! ret None
        | cur_token :: tokens =>
            let! r := approach_loop tokens cur_dir cur_token in
            match r with
            | None => ret None
            | Some (containing_dir, filename) =>
                if decide (Z.of_nat (length filename) > NAME_MAX) then throw Fault
                else ret (Some (containing_dir, filename))
            end
        end
    end.

(** filesys.c 197-207 do_format *)
Definition do_format : M fs unit :=
  free_map_create;;!
  let! created := dir_create uninit ROOT_DIR_SECTOR ROOT_DIR_SECTOR 16 in
  assertM created;;!
  free_map_close.

(** filesys.c 75-91 filesys_init.  [fs_device] is the device of the cache;
    [new_map] is what [bitmap_create] returns for its size. *)
Definition filesys_init (new_map : option bitmap) (format : bool) : M fs unit :=
  inode_init;;!
  free_map_init new_map;;!
  whenM format do_format;;!
  free_map_open.

(** filesys.c 93-100 filesys_done *)
Definition filesys_done : M fs unit :=
  on_cache (sector_cache_flush true);;!
  free_map_close.

(** filesys.c 117-123 filesys_create, in [containing_dir]: the sector, whether
    the file was created, and whether it was also added to the directory *)
Definition create_in (containing_dir : option nat) (filename : list Z) (initial_size : Z)
    (is_dir : bool) : M fs (Z * bool * bool) :=
  let! i := dir_get_inode containing_dir in
  let! dir_inode_sector := inode_get_inumber i in
  let! allocated := free_map_allocate 1 in
  match allocated with
  | None => ret (0, false, false)
  | Some inode_sector =>
      let! file_created :=
        if is_dir then dir_create uninit inode_sector dir_inode_sector (u32 initial_size)
        else inode_create inode_sector initial_size false in
      if (file_created : bool) then
        let! success := dir_add uninit containing_dir filename inode_sector in
        ret (inode_sector, true, success)
      else ret (inode_sector, false, false)
  end.

(** filesys.c 102-135 filesys_create *)
Definition filesys_create (path : list Z) (initial_size : Z) (is_dir : bool) : M fs bool :=
  let! leaf := approach_leaf path in
  match leaf with
  | None => ret false
  | Some (containing_dir, filename) =>
      assertM (bool_decide (containing_dir ≠ None));;!
      let! '(inode_sector, file_created, success) :=
        create_in containing_dir filename initial_size is_dir in
      assertM (bool_decide (inode_sector ≠ 0));;!
      whenM (negb success && bool_decide (inode_sector ≠ 0)) (
        assertM file_created;;!
        free_map_release inode_sector 1);;!
      dir_close containing_dir;;!
      ret success
  end.

(** filesys.c 137-160 filesys_open *)
Definition filesys_open (path : list Z) : M fs (option nat) :=
  if decide (path = [PATH_DELIM_CHAR]) then
    let! i := inode_open ROOT_DIR_SECTOR in file_open i
  else
    let! leaf := approach_leaf path in
    match leaf with
    | None => ret None
    | Some (containing_dir, filename) =>
        assertM (bool_decide (containing_dir ≠ None));;!
        let! inode := dir_lookup uninit containing_dir filename in
        dir_close containing_dir;;!
        file_open inode
    end.

(** filesys.c 162-195 filesys_remove *)
Definition filesys_remove (path : list Z) : M fs bool :=
  let! leaf := approach_leaf path in
  match leaf with
  | None => ret false
  | Some (containing_dir, filename) =>
      assertM (bool_decide (containing_dir ≠ None));;!
      let! inode := dir_lookup uninit containing_dir filename in
      let! is_dir := inode_is_dir inode in
      let! forbid :=
        if (is_dir : bool) then
          let! child := dir_open inode in
          let! n := dir_num_entries uninit child in
          dir_close child;;!
          ret (bool_decide (n > 0))
        else ret false in
      if (forbid : bool) then
        dir_close containing_dir;;!
        ret false
      else
        let! success := dir_remove uninit containing_dir filename in
        dir_close containing_dir;;!
        ret success
  end.

End filesys.
