(* ===== verification/FsScenarios.v ===== *)
(** Runs of the whole file system, from the calls in filesys.c down to the
    sectors of a small device. *)
From S2P Require Import Prelude Bitmap CString Block Cache Fs Inode File FreeMap Directory Filesys.
Local Open Scope Z_scope.

(** A device of 64 sectors, the kernel as it boots from a device, and the free
    map that [bitmap_create] makes for it. *)
Definition blank_device : block := mkBlock BLOCK_FILESYS 64 (replicate 64 (replicate 512 0)) 0 0.
Definition cache_of (d : block) : cache :=
  let c := mkCache d (repeat (mkSector 7 (repeat 0 512) true 9 true true) 64) true 0 ∅ [] 0 0 0 false in
  match cache_init 3 c with Ret (_, c) => c | Err _ => c end.
Definition booted (d : block) : fs := mkFs (cache_of d) ∅ ∅ ∅ ∅ 5 [] [] (mkBitmap 0 []) None false None.
Definition new_map : option bitmap := Some (mkBitmap 64 [0; 0]).
Definition stack : list Z := replicate 32 0.

(** Formatting, and creating the directory "/d" and the files "/a" and "/d/b",
    of 600 bytes. *)
Definition with_files : M fs bool :=
  filesys_init stack new_map true;;!
  let! a := filesys_create stack [47; 97] 0 false in
  let! d := filesys_create stack [47; 100] 2 true in
  let! b := filesys_create stack [47; 100; 47; 98] 600 false in
  ret (a && d && b).

(** What a call returns, and the first 32 bits of the free map that it leaves. *)
Definition outcome_of {A} (m : M fs A) : outcome (A * list Z) :=
  match m (booted blank_device) with Ret (a, s) => Ret (a, bits (free_map s)) | Err e => Err e end.

Definition write_and_shut_down : M fs (Z * block) :=
  with_files;;!
  let! f := filesys_open stack [47; 100; 47; 98] in
  let! f := Fs.deref f in
  let! n := file_write f [1; 2; 3] 3 in
  filesys_done;;!
  let! d := gets (λ s, fs_device (fs_cache s)) in
  ret (n, d).

Definition boot_and_read : M fs (list Z) :=
  filesys_init stack new_map false;;!
  let! f := filesys_open stack [47; 100; 47; 98] in
  let! f := Fs.deref f in
  file_read f 5.

(** Both kernels, one after the other: how much the first one writes, and what
    the second one reads. *)
Definition across_reboot : outcome (Z * list Z) :=
  match write_and_shut_down (booted blank_device) with
  | Ret ((n, d), _) => match boot_and_read (booted d) with Ret (l, _) => Ret (n, l) | Err e => Err e end
  | Err e => Err e
  end.

(** The file system keeps what is written: after formatting a device,
    creating a directory and files in it, writing and shutting down, a kernel
    that boots from the device finds the file by its path, with the bytes that
    were written. *)
Example files_survive_reboot : across_reboot = Ret (3, [1; 2; 3; 0; 0]).
Proof. vm_compute. reflexivity. Qed.

(** Removing a path that does not exist does not return false, as the comment
    says, but goes through the null pointer that [dir_lookup] leaves. *)
Theorem filesys_remove_missing_faults :
  outcome_of with_files = Ret (true, [262143; 0]) ∧
  outcome_of (with_files;;! filesys_remove stack [47; 120]) = Err Fault.
Proof. split; vm_compute; reflexivity. Qed.

(** sectors are lost: removing a file returns true but leaves all its sectors
    allocated, while removing a directory frees them; and creating a file under
    a name that exists returns false but keeps the sectors of the data that had
    been allocated for it. *)
Theorem sectors_leak :
  outcome_of with_files = Ret (true, [262143; 0]) ∧
  outcome_of (with_files;;! filesys_remove stack [47; 100; 47; 98]) = Ret (true, [262143; 0]) ∧
  outcome_of (with_files;;! filesys_remove stack [47; 100; 47; 98];;! filesys_remove stack [47; 100]) =
    Ret (true, [254463; 0]) ∧
  outcome_of (with_files;;! filesys_create stack [47; 97] 600 false) = Ret (false, [8126463; 0]).
Proof. split_and!; vm_compute; reflexivity. Qed.
