(* ===== verification/FixedPoint.v ===== *)
(** The fixed-point arithmetic of Project2's threads/fixed_point.h: 17.14
    numbers in an [int]. *)
From S2P Require Import Prelude.
Local Open Scope Z_scope.

(** fixed_point.h 9-10 FRACTION_BITS *)
Definition FRACTION_BITS : Z := 14.
Definition ONE : Z := Z.shiftl 1 FRACTION_BITS.

(** fixed_point.h 18-19 int_to_fixed *)
Definition int_to_fixed (value : Z) : Z := s32 (value * ONE).

(** fixed_point.h 21-22 fixed_to_int.  The shift of 1 to the right is 0. *)
Definition fixed_to_int (value : Z) : Z := s32 (value * Z.shiftr 1 FRACTION_BITS).

(** fixed_point.h 24-25 fixed_round_to_closest_int *)
Definition fixed_round_to_closest_int (value : Z) : Z :=
  Z.quot (s32 (value + (if decide (value > 0) then 1 else -1) * Z.shiftl 1 (FRACTION_BITS - 1))) ONE.

(** fixed_point.h 36-37 fixed_sum *)
Definition fixed_sum (a b : Z) : Z := s32 (a + b).

(** fixed_point.h 39-43 fixed_int_sum *)
Definition fixed_int_sum (f i : Z) : Z := s32 (f + int_to_fixed i).

(** fixed_point.h 48-49 fixed_sub *)
Definition fixed_sub (a b : Z) : Z := s32 (a - b).

(** fixed_point.h 51-52 fixed_int_sub *)
Definition fixed_int_sub (f i : Z) : Z := s32 (f - int_to_fixed i).

(** fixed_point.h 54-55 int_fixed_sub *)
Definition int_fixed_sub (i f : Z) : Z := s32 (int_to_fixed i - f).

(** fixed_point.h 60-61 fixed_mul.  The product is an [int64_t]. *)
Definition fixed_mul (a b : Z) : Z := s32 (Z.quot (a * b) ONE).

(** fixed_point.h 63-67 fixed_int_mul *)
Definition fixed_int_mul (f i : Z) : Z := s32 (f * i).

(** fixed_point.h 72-73 fixed_div.  The dividend is an [int64_t]; the division
    traps on a zero divisor. *)
Definition fixed_div (a b : Z) : outcome Z :=
  if decide (b = 0) then Err Fault else Ret (s32 (Z.quot (a * ONE) b)).

(** fixed_point.h 75-76 fixed_int_div *)
Definition fixed_int_div (f i : Z) : Z := s32 (Z.quot f i).

(** ** What they compute *)

(** [x] stands for the number [x / 2^14]. *)
Definition in_range (x : Z) : Prop := -2147483648 ≤ x < 2147483648.

Lemma ONE_eq : ONE = 16384.
Proof. done. Qed.

Lemma s32_in_range x : in_range (s32 x).
Proof. unfold in_range. apply s32_range. Qed.

Lemma int_to_fixed_eq i : -131072 ≤ i < 131072 → int_to_fixed i = i * 16384.
Proof. intros. unfold int_to_fixed. rewrite ONE_eq, s32_small; lia. Qed.

(** Rounding after converting gives the integer back. *)
Lemma round_int_to_fixed i :
  -131072 < i < 131071 → fixed_round_to_closest_int (int_to_fixed i) = i.
Proof.
  intros Hi. rewrite int_to_fixed_eq by lia. unfold fixed_round_to_closest_int.
  change (Z.shiftl 1 (FRACTION_BITS - 1)) with 8192. rewrite ONE_eq.
  rewrite s32_small by (case_decide; lia). case_decide; mlia.
Qed.

(** converting to an integer and rounding is accurate to half a unit: the
    result is at most 1/2 away from the number, for every value that leaves room
    for the half that is added. *)
Theorem round_to_closest (x : Z) (Hx : -2147483648 + 8192 ≤ x < 2147483648 - 8192) :
  Z.abs (2 * (16384 * fixed_round_to_closest_int x - x)) ≤ 16384.
Proof.
  unfold fixed_round_to_closest_int. change (Z.shiftl 1 (FRACTION_BITS - 1)) with 8192.
  rewrite ONE_eq, s32_small by (case_decide; lia). case_decide; mlia.
Qed.

Lemma round_to_closest_witness : Z.abs (2 * (16384 * fixed_round_to_closest_int (-24577) - (-24577))) ≤ 16384.
Proof. apply (round_to_closest (-24577)). lia. Defined.

(** Truncating with [fixed_to_int], as it is written, gives 0. *)
Lemma fixed_to_int_zero x : fixed_to_int x = 0.
Proof. unfold fixed_to_int. change (Z.shiftr 1 FRACTION_BITS) with 0. by rewrite Z.mul_0_r. Qed.

(** the macro [fixed_to_int] is wrong: it gives 0 for every number, where
    the integer part of 3 is 3. *)
Theorem fixed_to_int_loses : fixed_to_int (int_to_fixed 3) = 0 ∧ fixed_round_to_closest_int (int_to_fixed 3) = 3.
Proof. done. Qed.
