(* ===== verification/Kernel.v ===== *)
(** The state of Project2's thread system (threads/thread.c, threads/synch.c,
    threads/interrupt.c, devices/timer.c), and code that may give up the
    processor in the middle. *)
From S2P Require Import Prelude FixedPoint.
Local Open Scope Z_scope.

(** thread.h 10-17 thread_status *)
Inductive thread_status := THREAD_RUNNING | THREAD_READY | THREAD_BLOCKED | THREAD_DYING.
#[export] Instance thread_status_eq_dec : EqDecision thread_status.
Proof. solve_decision. Defined.

(** thread.h 24-26 PRI_MIN *)
Definition PRI_MIN : Z := 0.
Definition PRI_DEFAULT : Z := 31.
Definition PRI_MAX : Z := 63.
(** thread.c 22-25 THREAD_MAGIC *)
Definition THREAD_MAGIC : Z := 3446324043.
(** thread.c 75 TIME_SLICE *)
Definition TIME_SLICE : Z := 4.
Definition TIMER_FREQ : Z := 100.
Definition TID_ERROR : Z := -1.

(** Threads, semaphores, locks and condition variables are known by their
    addresses; [elem] is the list the thread's [elem] is in, if any. *)

(** thread.h 85-114 thread.  [start] is the stack frame for [kernel_thread]. *)
Record thread := mkThread {
  tid : Z;
  status : thread_status;
  name : list Z;
  base_priority : Z;
  ticks_left_to_sleep : Z;
  nice : Z;
  recent_cpu : Z;
  prior_don : Z;
  lock_list : list Z;
  locked_on : option Z;
  magic : Z;
  start : Z * Z;
}.

(** synch.h 7-12 semaphore *)
Record semaphore := mkSema { value : Z; waiters : list Z }.

(** The variables of the kernel.  The semaphore of the lock at an address is at
    the same address; [holders] has the locks' holders. *)

(** thread.c 27-81 ready_list *)
Record kernel := mkKernel {
  threads : gmap Z thread;
  semas : gmap Z semaphore;
  holders : gmap Z (option Z);
  conds : gmap Z (list Z);
  ready_list : list Z;
  equiprior : list (list Z);
  all_list : list Z;
  sleepers : list Z;
  load_avg : Z;
  idle_thread : option Z;
  initial_thread : Z;
  cur : Z;
  switched_from : option Z;
  intr_on : bool;
  in_external_intr : bool;
  yield_on_return : bool;
  thread_ticks : Z;
  idle_ticks : Z;
  kernel_ticks : Z;
  thread_mlfqs : bool;
  next_tid : Z;
  ticks : Z;
  pages : list (option Z);
}.

Definition set_threads (x : gmap Z thread) (k : kernel) : kernel :=
  mkKernel x (semas k) (holders k) (conds k) (ready_list k) (equiprior k) (all_list k) (sleepers k)
    (load_avg k) (idle_thread k) (initial_thread k) (cur k) (switched_from k) (intr_on k)
    (in_external_intr k) (yield_on_return k) (thread_ticks k) (idle_ticks k) (kernel_ticks k)
    (thread_mlfqs k) (next_tid k) (ticks k) (pages k).
Definition set_semas (x : gmap Z semaphore) (k : kernel) : kernel :=
  mkKernel (threads k) x (holders k) (conds k) (ready_list k) (equiprior k) (all_list k) (sleepers
    k) (load_avg k) (idle_thread k) (initial_thread k) (cur k) (switched_from k) (intr_on k)
    (in_external_intr k) (yield_on_return k) (thread_ticks k) (idle_ticks k) (kernel_ticks k)
    (thread_mlfqs k) (next_tid k) (ticks k) (pages k).
Definition set_holders (x : gmap Z (option Z)) (k : kernel) : kernel :=
  mkKernel (threads k) (semas k) x (conds k) (ready_list k) (equiprior k) (all_list k) (sleepers k)
    (load_avg k) (idle_thread k) (initial_thread k) (cur k) (switched_from k) (intr_on k)
    (in_external_intr k) (yield_on_return k) (thread_ticks k) (idle_ticks k) (kernel_ticks k)
    (thread_mlfqs k) (next_tid k) (ticks k) (pages k).
Definition set_conds (x : gmap Z (list Z)) (k : kernel) : kernel :=
  mkKernel (threads k) (semas k) (holders k) x (ready_list k) (equiprior k) (all_list k) (sleepers
    k) (load_avg k) (idle_thread k) (initial_thread k) (cur k) (switched_from k) (intr_on k)
    (in_external_intr k) (yield_on_return k) (thread_ticks k) (idle_ticks k) (kernel_ticks k)
    (thread_mlfqs k) (next_tid k) (ticks k) (pages k).
Definition set_ready_list (x : list Z) (k : kernel) : kernel :=
  mkKernel (threads k) (semas k) (holders k) (conds k) x (equiprior k) (all_list k) (sleepers k)
    (load_avg k) (idle_thread k) (initial_thread k) (cur k) (switched_from k) (intr_on k)
    (in_external_intr k) (yield_on_return k) (thread_ticks k) (idle_ticks k) (kernel_ticks k)
    (thread_mlfqs k) (next_tid k) (ticks k) (pages k).
Definition set_equiprior (x : list (list Z)) (k : kernel) : kernel :=
  mkKernel (threads k) (semas k) (holders k) (conds k) (ready_list k) x (all_list k) (sleepers k)
    (load_avg k) (idle_thread k) (initial_thread k) (cur k) (switched_from k) (intr_on k)
    (in_external_intr k) (yield_on_return k) (thread_ticks k) (idle_ticks k) (kernel_ticks k)
    (thread_mlfqs k) (next_tid k) (ticks k) (pages k).
Definition set_all_list (x : list Z) (k : kernel) : kernel :=
  mkKernel (threads k) (semas k) (holders k) (conds k) (ready_list k) (equiprior k) x (sleepers k)
    (load_avg k) (idle_thread k) (initial_thread k) (cur k) (switched_from k) (intr_on k)
    (in_external_intr k) (yield_on_return k) (thread_ticks k) (idle_ticks k) (kernel_ticks k)
    (thread_mlfqs k) (next_tid k) (ticks k) (pages k).
Definition set_sleepers (x : list Z) (k : kernel) : kernel :=
  mkKernel (threads k) (semas k) (holders k) (conds k) (ready_list k) (equiprior k) (all_list k) x
    (load_avg k) (idle_thread k) (initial_thread k) (cur k) (switched_from k) (intr_on k)
    (in_external_intr k) (yield_on_return k) (thread_ticks k) (idle_ticks k) (kernel_ticks k)
    (thread_mlfqs k) (next_tid k) (ticks k) (pages k).
Definition set_load_avg (x : Z) (k : kernel) : kernel :=
  mkKernel (threads k) (semas k) (holders k) (conds k) (ready_list k) (equiprior k) (all_list k)
    (sleepers k) x (idle_thread k) (initial_thread k) (cur k) (switched_from k) (intr_on k)
    (in_external_intr k) (yield_on_return k) (thread_ticks k) (idle_ticks k) (kernel_ticks k)
    (thread_mlfqs k) (next_tid k) (ticks k) (pages k).
Definition set_idle_thread (x : option Z) (k : kernel) : kernel :=
  mkKernel (threads k) (semas k) (holders k) (conds k) (ready_list k) (equiprior k) (all_list k)
    (sleepers k) (load_avg k) x (initial_thread k) (cur k) (switched_from k) (intr_on k)
    (in_external_intr k) (yield_on_return k) (thread_ticks k) (idle_ticks k) (kernel_ticks k)
    (thread_mlfqs k) (next_tid k) (ticks k) (pages k).
Definition set_cur (x : Z) (k : kernel) : kernel :=
  mkKernel (threads k) (semas k) (holders k) (conds k) (ready_list k) (equiprior k) (all_list k)
    (sleepers k) (load_avg k) (idle_thread k) (initial_thread k) x (switched_from k) (intr_on k)
    (in_external_intr k) (yield_on_return k) (thread_ticks k) (idle_ticks k) (kernel_ticks k)
    (thread_mlfqs k) (next_tid k) (ticks k) (pages k).
Definition set_switched_from (x : option Z) (k : kernel) : kernel :=
  mkKernel (threads k) (semas k) (holders k) (conds k) (ready_list k) (equiprior k) (all_list k)
    (sleepers k) (load_avg k) (idle_thread k) (initial_thread k) (cur k) x (intr_on k)
    (in_external_intr k) (yield_on_return k) (thread_ticks k) (idle_ticks k) (kernel_ticks k)
    (thread_mlfqs k) (next_tid k) (ticks k) (pages k).
Definition set_intr_on (x : bool) (k : kernel) : kernel :=
  mkKernel (threads k) (semas k) (holders k) (conds k) (ready_list k) (equiprior k) (all_list k)
    (sleepers k) (load_avg k) (idle_thread k) (initial_thread k) (cur k) (switched_from k) x
    (in_external_intr k) (yield_on_return k) (thread_ticks k) (idle_ticks k) (kernel_ticks k)
    (thread_mlfqs k) (next_tid k) (ticks k) (pages k).
Definition set_in_external_intr (x : bool) (k : kernel) : kernel :=
  mkKernel (threads k) (semas k) (holders k) (conds k) (ready_list k) (equiprior k) (all_list k)
    (sleepers k) (load_avg k) (idle_thread k) (initial_thread k) (cur k) (switched_from k) (intr_on
    k) x (yield_on_return k) (thread_ticks k) (idle_ticks k) (kernel_ticks k) (thread_mlfqs k)
    (next_tid k) (ticks k) (pages k).
Definition set_yield_on_return (x : bool) (k : kernel) : kernel :=
  mkKernel (threads k) (semas k) (holders k) (conds k) (ready_list k) (equiprior k) (all_list k)
    (sleepers k) (load_avg k) (idle_thread k) (initial_thread k) (cur k) (switched_from k) (intr_on
    k) (in_external_intr k) x (thread_ticks k) (idle_ticks k) (kernel_ticks k) (thread_mlfqs k)
    (next_tid k) (ticks k) (pages k).
Definition set_thread_ticks (x : Z) (k : kernel) : kernel :=
  mkKernel (threads k) (semas k) (holders k) (conds k) (ready_list k) (equiprior k) (all_list k)
    (sleepers k) (load_avg k) (idle_thread k) (initial_thread k) (cur k) (switched_from k) (intr_on
    k) (in_external_intr k) (yield_on_return k) x (idle_ticks k) (kernel_ticks k) (thread_mlfqs k)
    (next_tid k) (ticks k) (pages k).
Definition set_idle_ticks (x : Z) (k : kernel) : kernel :=
  mkKernel (threads k) (semas k) (holders k) (conds k) (ready_list k) (equiprior k) (all_list k)
    (sleepers k) (load_avg k) (idle_thread k) (initial_thread k) (cur k) (switched_from k) (intr_on
    k) (in_external_intr k) (yield_on_return k) (thread_ticks k) x (kernel_ticks k) (thread_mlfqs k)
    (next_tid k) (ticks k) (pages k).
Definition set_kernel_ticks (x : Z) (k : kernel) : kernel :=
  mkKernel (threads k) (semas k) (holders k) (conds k) (ready_list k) (equiprior k) (all_list k)
    (sleepers k) (load_avg k) (idle_thread k) (initial_thread k) (cur k) (switched_from k) (intr_on
    k) (in_external_intr k) (yield_on_return k) (thread_ticks k) (idle_ticks k) x (thread_mlfqs k)
    (next_tid k) (ticks k) (pages k).
Definition set_next_tid (x : Z) (k : kernel) : kernel :=
  mkKernel (threads k) (semas k) (holders k) (conds k) (ready_list k) (equiprior k) (all_list k)
    (sleepers k) (load_avg k) (idle_thread k) (initial_thread k) (cur k) (switched_from k) (intr_on
    k) (in_external_intr k) (yield_on_return k) (thread_ticks k) (idle_ticks k) (kernel_ticks k)
    (thread_mlfqs k) x (ticks k) (pages k).
Definition set_ticks (x : Z) (k : kernel) : kernel :=
  mkKernel (threads k) (semas k) (holders k) (conds k) (ready_list k) (equiprior k) (all_list k)
    (sleepers k) (load_avg k) (idle_thread k) (initial_thread k) (cur k) (switched_from k) (intr_on
    k) (in_external_intr k) (yield_on_return k) (thread_ticks k) (idle_ticks k) (kernel_ticks k)
    (thread_mlfqs k) (next_tid k) x (pages k).
Definition set_pages (x : list (option Z)) (k : kernel) : kernel :=
  mkKernel (threads k) (semas k) (holders k) (conds k) (ready_list k) (equiprior k) (all_list k)
    (sleepers k) (load_avg k) (idle_thread k) (initial_thread k) (cur k) (switched_from k) (intr_on
    k) (in_external_intr k) (yield_on_return k) (thread_ticks k) (idle_ticks k) (kernel_ticks k)
    (thread_mlfqs k) (next_tid k) (ticks k) x.

Definition set_tid (x : Z) (t : thread) : thread :=
  mkThread x (status t) (name t) (base_priority t) (ticks_left_to_sleep t) (nice t) (recent_cpu t)
    (prior_don t) (lock_list t) (locked_on t) (magic t) (start t).
Definition set_status (x : thread_status) (t : thread) : thread :=
  mkThread (tid t) x (name t) (base_priority t) (ticks_left_to_sleep t) (nice t) (recent_cpu t)
    (prior_don t) (lock_list t) (locked_on t) (magic t) (start t).
Definition set_base_priority (x : Z) (t : thread) : thread :=
  mkThread (tid t) (status t) (name t) x (ticks_left_to_sleep t) (nice t) (recent_cpu t) (prior_don
    t) (lock_list t) (locked_on t) (magic t) (start t).
Definition set_ticks_left_to_sleep (x : Z) (t : thread) : thread :=
  mkThread (tid t) (status t) (name t) (base_priority t) x (nice t) (recent_cpu t) (prior_don t)
    (lock_list t) (locked_on t) (magic t) (start t).
Definition set_nice (x : Z) (t : thread) : thread :=
  mkThread (tid t) (status t) (name t) (base_priority t) (ticks_left_to_sleep t) x (recent_cpu t)
    (prior_don t) (lock_list t) (locked_on t) (magic t) (start t).
Definition set_recent_cpu (x : Z) (t : thread) : thread :=
  mkThread (tid t) (status t) (name t) (base_priority t) (ticks_left_to_sleep t) (nice t) x
    (prior_don t) (lock_list t) (locked_on t) (magic t) (start t).
Definition set_prior_don (x : Z) (t : thread) : thread :=
  mkThread (tid t) (status t) (name t) (base_priority t) (ticks_left_to_sleep t) (nice t)
    (recent_cpu t) x (lock_list t) (locked_on t) (magic t) (start t).
Definition set_lock_list (x : list Z) (t : thread) : thread :=
  mkThread (tid t) (status t) (name t) (base_priority t) (ticks_left_to_sleep t) (nice t)
    (recent_cpu t) (prior_don t) x (locked_on t) (magic t) (start t).
Definition set_locked_on (x : option Z) (t : thread) : thread :=
  mkThread (tid t) (status t) (name t) (base_priority t) (ticks_left_to_sleep t) (nice t)
    (recent_cpu t) (prior_don t) (lock_list t) x (magic t) (start t).
Definition set_start (x : Z * Z) (t : thread) : thread :=
  mkThread (tid t) (status t) (name t) (base_priority t) (ticks_left_to_sleep t) (nice t)
    (recent_cpu t) (prior_don t) (lock_list t) (locked_on t) (magic t) x.

Definition set_value (x : Z) (s : semaphore) : semaphore := mkSema x (waiters s).
Definition set_waiters (x : list Z) (s : semaphore) : semaphore := mkSema (value s) x.

(** ** Code that may give up the processor

    A call either finishes, or it stops where the processor has been given to
    another thread, and goes on from there when its thread runs again. *)
Inductive res (A : Type) : Type :=
| Fin (a : A)
| Susp (k : kernel → outcome (res A * kernel)).
Arguments Fin {A} a.
Arguments Susp {A} k.

Definition K (A : Type) : Type := kernel → outcome (res A * kernel).

Definition kret {A} (a : A) : K A := λ s, Ret (Fin a, s).

Fixpoint rbind {A B} (r : res A) (f : A → K B) (s : kernel) {struct r} : outcome (res B * kernel) :=
  match r with
  | Fin a => f a s
  | Susp k => Ret (Susp (λ s1,
      match k s1 with Ret (r2, s2) => rbind r2 f s2 | Err e => Err e end), s)
  end.
Definition kbind {A B} (m : K A) (f : A → K B) : K B := λ s,
  match m s with Ret (r, s') => rbind r f s' | Err e => Err e end.

Notation "'letk' x := m 'in' k" := (kbind m (λ x, k))
  (at level 10, x binder, m at level 200, k at level 200) : c_scope.
Notation "m ;;k k" := (kbind m (λ _, k))
  (at level 199, right associativity) : c_scope.

(** Code that does not give up the processor. *)
Definition atomic {A} (m : M kernel A) : K A := λ s,
  match m s with Ret (a, s') => Ret (Fin a, s') | Err e => Err e end.

(** ** Accesses *)
Definition get_thread (p : Z) : M kernel thread := λ s,
  match threads s !! p with Some t => Ret (t, s) | None => Err Fault end.
Definition upd_thread (p : Z) (f : thread → thread) : M kernel unit :=
  let! t := get_thread p in modify (λ s, set_threads (<[p := f t]> (threads s)) s).
Definition get_sema (p : Z) : M kernel semaphore := λ s,
  match semas s !! p with Some x => Ret (x, s) | None => Err Fault end.
Definition upd_sema (p : Z) (f : semaphore → semaphore) : M kernel unit :=
  let! x := get_sema p in modify (λ s, set_semas (<[p := f x]> (semas s)) s).
Definition get_holder (p : Z) : M kernel (option Z) := λ s,
  match holders s !! p with Some h => Ret (h, s) | None => Err Fault end.
Definition put_holder (p : Z) (h : option Z) : M kernel unit :=
  let! _ := get_holder p in modify (λ s, set_holders (<[p := h]> (holders s)) s).
Definition get_cond (p : Z) : M kernel (list Z) := λ s,
  match conds s !! p with Some l => Ret (l, s) | None => Err Fault end.
Definition put_cond (p : Z) (l : list Z) : M kernel unit :=
  let! _ := get_cond p in modify (λ s, set_conds (<[p := l]> (conds s)) s).
Definition deref {S} (p : option Z) : M S Z := lift (or_fault p).

(** ** Interrupts *)

(** interrupt.c 102-114 intr_disable *)
Definition intr_disable : M kernel bool :=
  let! old_level := gets intr_on in modify (set_intr_on false);;! ret old_level.

(** interrupt.c 86-100 intr_enable *)
Definition intr_enable : M kernel bool :=
  let! old_level := gets intr_on in
  let! c := gets in_external_intr in assertM (negb c);;!
  modify (set_intr_on true);;! ret old_level.

(** interrupt.c 78-84 intr_set_level *)
Definition intr_set_level (level : bool) : M kernel bool :=
  if level then intr_enable else intr_disable.

Definition assert_intr_off : M kernel unit := let! on := gets intr_on in assertM (negb on).
Definition assert_not_intr_context : M kernel unit :=
  let! c := gets in_external_intr in assertM (negb c).

(** interrupt.c 216-226 intr_yield_on_return *)
Definition intr_yield_on_return : M kernel unit :=
  let! c := gets in_external_intr in assertM c;;! modify (set_yield_on_return true).

(** timer.c 73-81 timer_ticks *)
Definition timer_ticks : M kernel Z :=
  let! old_level := intr_disable in
  let! t := gets ticks in
  intr_set_level old_level;;!
  ret t.
