(* ===== verification/Sched.v ===== *)
(** The threads of Project2 (threads/thread.c): the scheduler, priority donation,
    the advanced scheduler, sleeping threads, and the timer interrupt.  Donation
    needs the holders of locks, but no operation on them. *)
From S2P Require Import Prelude FixedPoint Kernel.
Local Open Scope Z_scope.

(** ** Threads *)

(** thread.c 521-526 is_thread *)
Definition is_thread (p : option Z) : M kernel bool :=
  match p with
  | None => ret false
  | Some p => let! t := get_thread p in ret (bool_decide (magic t = THREAD_MAGIC))
  end.

(** thread.c 304-321 thread_current *)
Definition thread_current : M kernel Z :=
  let! p := gets cur in
  let! b := is_thread (Some p) in assertM b;;!
  let! t := get_thread p in
  assertM (bool_decide (status t = THREAD_RUNNING));;!
  ret p.

(** thread.c 323-328 thread_tid *)
Definition thread_tid : M kernel Z :=
  let! p := thread_current in let! t := get_thread p in ret (tid t).

(** thread.c 297-302 thread_name *)
Definition thread_name : M kernel (list Z) :=
  let! p := thread_current in let! t := get_thread p in ret (name t).

(** thread.c 417-422 thread_get_priority *)
Definition thread_get_priority : M kernel Z :=
  let! p := thread_current in let! t := get_thread p in ret (prior_don t).

(** thread.c 438-443 thread_get_nice *)
Definition thread_get_nice : M kernel Z :=
  let! p := thread_current in let! t := get_thread p in ret (nice t).

(** thread.c 445-450 thread_get_load_avg *)
Definition thread_get_load_avg : M kernel Z :=
  let! l := gets load_avg in ret (fixed_round_to_closest_int (fixed_int_mul l 100)).

(** thread.c 452-457 thread_get_recent_cpu *)
Definition thread_get_recent_cpu : M kernel Z :=
  let! p := thread_current in let! t := get_thread p in
  ret (fixed_round_to_closest_int (fixed_int_mul (recent_cpu t) 100)).

(** ** The containers of ready threads *)

(** thread.c 772-781 thread_cmp, as [list_max] uses it with no [aux]: the first
    of the threads [m :: l] with the highest priority *)
Fixpoint max_thread (m : Z) (l : list Z) : M kernel Z :=
  match l with
  | [] => ret m
  | e :: l =>
      let! tm := get_thread m in
      let! te := get_thread e in
      max_thread (if decide (prior_don tm < prior_don te) then e else m) l
  end.

(** [list_entry (list_max (l, thread_cmp), struct thread, elem)]: of an empty
    list that is the tail taken for a thread. *)
Definition list_max_entry (l : list Z) : M kernel Z :=
  match l with [] => throw Fault | m :: l => max_thread m l end.

(** thread.c 282-294 thread_unblock, and 363-373 of thread_yield: the container
    of the ready thread [p] *)
Definition push_ready (p : Z) : M kernel unit :=
  let! mlfqs := gets thread_mlfqs in
  if (mlfqs : bool) then
    let! t := get_thread p in
    let! ls := gets equiprior in
    let! l := lift (or_fault (nthZ ls (prior_don t - PRI_MIN))) in
    let! ls := lift (or_fault (setZ ls (prior_don t - PRI_MIN) (l ++ [p]))) in
    modify (set_equiprior ls)
  else modify (λ s, set_ready_list (ready_list s ++ [p]) s).

(** thread.c 591-602 get_next_thread_to_run, the search from [PRI_MAX] down *)
Definition front_of_highest (ls : list (list Z)) : option Z :=
  foldl (λ found l, match l with x :: _ => Some x | [] => found end) None ls.

(** thread.c 581-610 get_next_thread_to_run *)
Definition get_next_thread_to_run : M kernel (option Z) :=
  assert_intr_off;;!
  let! mlfqs := gets thread_mlfqs in
  let! ready := gets ready_list in
  let! idle := gets idle_thread in
  if (mlfqs : bool) then
    let! ls := gets equiprior in
    match front_of_highest ls with None => ret idle | Some p => ret (Some p) end
  else
    match ready with [] => ret idle | m :: l => let! p := max_thread m l in ret (Some p) end.

(** [list_remove (&p->elem)] for a thread in a container of ready threads. *)
Definition remove_ready (p : Z) : M kernel unit :=
  modify (λ s, set_equiprior (filter (.≠ p) <$> equiprior s)
    (set_ready_list (filter (.≠ p) (ready_list s)) s)).

(** thread.c 612-623 next_thread_to_run *)
Definition next_thread_to_run : M kernel (option Z) :=
  let! next := get_next_thread_to_run in
  let! idle := gets idle_thread in
  (if decide (next ≠ idle) then
     let! p := deref next in
     let! t := get_thread p in
     if decide (status t = THREAD_READY) then remove_ready p else ret tt
   else ret tt);;!
  ret next.

(** thread.c 625-669 thread_schedule_tail *)
Definition thread_schedule_tail (prev : option Z) : M kernel unit :=
  let! c := gets cur in
  assert_intr_off;;!
  upd_thread c (set_status THREAD_RUNNING);;!
  modify (set_thread_ticks 0);;!
  match prev with
  | None => ret tt
  | Some p =>
      let! t := get_thread p in
      let! init := gets initial_thread in
      if decide (status t = THREAD_DYING ∧ p ≠ init) then
        assertM (bool_decide (p ≠ c));;!
        modify (λ s, set_threads (delete p (threads s)) s)
      else ret tt
  end.

(** thread.c 671-692 schedule, up to the switch: the thread to switch to, if it
    is another one *)
Definition choose_next : M kernel (option Z) :=
  let! c := gets cur in
  let! next := next_thread_to_run in
  assert_intr_off;;!
  let! t := get_thread c in
  assertM (bool_decide (status t ≠ THREAD_RUNNING));;!
  let! b := is_thread next in assertM b;;!
  ret (if decide (next = Some c) then None else next).

(** What runs when the thread that called [schedule] runs again. *)
Definition switched_back : K unit :=
  atomic (let! prev := gets switched_from in thread_schedule_tail prev).

(** thread.c 671-692 schedule *)
Definition schedule : K unit :=
  letk next := atomic choose_next in
  match next with
  | None => atomic (thread_schedule_tail None)
  | Some next => λ s, Ret (Susp switched_back, set_switched_from (Some (cur s)) (set_cur next s))
  end.

(** thread.c 248-263 thread_block *)
Definition thread_block : K unit :=
  atomic (assert_not_intr_context;;! assert_intr_off;;!
    let! c := thread_current in upd_thread c (set_status THREAD_BLOCKED));;k
  schedule.

(** thread.c 265-295 thread_unblock *)
Definition thread_unblock (p : Z) : M kernel unit :=
  let! b := is_thread (Some p) in assertM b;;!
  let! old_level := intr_disable in
  let! t := get_thread p in
  assertM (bool_decide (status t = THREAD_BLOCKED));;!
  let! idle := gets idle_thread in
  (if decide (Some p ≠ idle) then push_ready p else ret tt);;!
  upd_thread p (set_status THREAD_READY);;!
  intr_set_level old_level;;!
  ret tt.

(** thread.c 351-377 thread_yield *)
Definition thread_yield : K unit :=
  letk c := atomic thread_current in
  atomic assert_not_intr_context;;k
  letk idle := atomic (gets idle_thread) in
  if decide (Some c = idle) then kret tt
  else
    letk old_level := atomic intr_disable in
    atomic (push_ready c;;! upd_thread c (set_status THREAD_READY));;k
    schedule;;k
    atomic (intr_set_level old_level);;k
    kret tt.

(** thread.c 330-349 thread_exit *)
Definition thread_exit : K unit :=
  atomic (assert_not_intr_context;;!
    intr_disable;;!
    let! c := thread_current in
    modify (λ s, set_all_list (filter (.≠ c) (all_list s)) s);;!
    let! c := thread_current in
    upd_thread c (set_status THREAD_DYING));;k
  schedule;;k
  atomic (throw Panic).

(** thread.c 879-892 thread_yield_if_needed *)
Definition thread_yield_if_needed : K unit :=
  letk c := atomic thread_current in
  letk next := atomic get_next_thread_to_run in
  letk idle := atomic (gets idle_thread) in
  letk tc := atomic (get_thread c) in
  (if decide (Some c = idle ∧ status tc = THREAD_RUNNING) then thread_yield else kret tt);;k
  letk idle := atomic (gets idle_thread) in
  if decide (next = idle) then kret tt
  else
    letk n := atomic (let! _ := assertM (bool_decide (next ≠ None)) in deref next) in
    letk tc := atomic (get_thread c) in
    letk tn := atomic (get_thread n) in
    if decide (status tc ≠ THREAD_RUNNING) then kret tt
    else if decide (c ≠ n ∧ (prior_don tc < prior_don tn ∨ status tn ≠ THREAD_READY)) then thread_yield
    else kret tt.

(** ** Donation *)

(** thread.c 783-795 thread_donate *)
Fixpoint thread_donate (fuel : nat) (p : option Z) (priority : Z) : M kernel unit :=
  match fuel with
  | O => throw OutOfFuel
  | S fuel =>
      assert_intr_off;;!
      assertM (bool_decide (p ≠ None));;!
      let! b := is_thread p in
      if (b : bool) then
        let! p := deref p in
        let! t := get_thread p in
        if decide (prior_don t < priority) then
          upd_thread p (set_prior_don priority);;!
          match locked_on t with
          | None => ret tt
          | Some l => let! h := get_holder l in thread_donate fuel h priority
          end
        else ret tt
      else ret tt
  end.

(** thread.c 805-812 thread_update_donations, the loop over the locks *)
Fixpoint donations (p : Z) (locks : list Z) : M kernel unit :=
  match locks with
  | [] => ret tt
  | l :: locks =>
      let! sem := get_sema l in
      let! m := list_max_entry (waiters sem) in
      let! tm := get_thread m in
      let! t := get_thread p in
      (if decide (prior_don tm > prior_don t) then upd_thread p (set_prior_don (prior_don tm)) else ret tt);;!
      donations p locks
  end.

(** thread.c 797-816 thread_update_donations *)
Fixpoint thread_update_donations (fuel : nat) (p : option Z) : M kernel unit :=
  match fuel with
  | O => throw OutOfFuel
  | S fuel =>
      assert_intr_off;;!
      assertM (bool_decide (p ≠ None));;!
      let! b := is_thread p in
      if (b : bool) then
        let! p := deref p in
        let! t := get_thread p in
        let start_priority := prior_don t in
        upd_thread p (set_prior_don (base_priority t));;!
        donations p (lock_list t);;!
        let! t := get_thread p in
        match locked_on t with
        | None => ret tt
        | Some l =>
            if decide (prior_don t ≠ start_priority) then
              let! h := get_holder l in thread_update_donations fuel h
            else ret tt
        end
      else ret tt
  end.

(** A chain of threads that wait for each other's locks has no more links than
    there are threads. *)
Definition chain_fuel : M kernel nat := gets (λ s, S (size (threads s))).

(** thread.c 396-415 thread_set_priority *)
Definition thread_set_priority (new_priority : Z) : K unit :=
  letk old_level := atomic (
    assertM (bool_decide (PRI_MIN ≤ new_priority ∧ new_priority ≤ PRI_MAX));;!
    let! old_level := intr_disable in
    let! p := thread_current in
    upd_thread p (set_base_priority new_priority);;!
    let! mlfqs := gets thread_mlfqs in
    let! t := get_thread p in
    (if (mlfqs : bool) then upd_thread p (set_prior_don (base_priority t))
     else if decide (prior_don t < new_priority) then upd_thread p (set_prior_don new_priority)
     else let! n := chain_fuel in thread_update_donations n (Some p));;!
    ret old_level) in
  thread_yield_if_needed;;k
  atomic (intr_set_level old_level);;k
  kret tt.

(** ** The advanced scheduler *)

(** thread.c 854-866 thread_priority_update *)
Definition thread_priority_update (p : Z) : M kernel unit :=
  let! b := is_thread (Some p) in assertM b;;!
  let! idle := gets idle_thread in
  if decide (Some p = idle) then ret tt
  else
    let! t := get_thread p in
    let base := s32 (s32 (PRI_MAX - fixed_round_to_closest_int (fixed_int_div (recent_cpu t) 4))
                     - s32 (nice t * 2)) in
    let base := if decide (base > PRI_MAX) then PRI_MAX else base in
    let base := if decide (base < PRI_MIN) then PRI_MIN else base in
    upd_thread p (λ t, set_prior_don base (set_base_priority base t)).

(** thread.c 388-393 thread_foreach, the loop *)
Fixpoint foreach (func : Z → M kernel unit) (l : list Z) : M kernel unit :=
  match l with [] => ret tt | p :: l => func p;;! foreach func l end.

(** thread.c 379-394 thread_foreach *)
Definition thread_foreach (func : Z → M kernel unit) : M kernel unit :=
  assert_intr_off;;! let! l := gets all_list in foreach func l.

(** thread.c 868-877 thread_priority_update_all *)
Definition thread_priority_update_all : M kernel unit := thread_foreach thread_priority_update.

(** thread.c 818-821 update_recent_cpu_of_thread *)
Definition update_recent_cpu_of_thread (p : Z) : M kernel unit :=
  let! load := gets load_avg in
  let! t := get_thread p in
  let! q := lift (fixed_div (fixed_int_mul load 2) (fixed_int_sum (fixed_int_mul load 2) 1)) in
  upd_thread p (set_recent_cpu (fixed_int_sum (fixed_mul q (recent_cpu t)) (nice t))).

(** thread.c 823-826 update_recent_cpu *)
Definition update_recent_cpu : M kernel unit := thread_foreach update_recent_cpu_of_thread.

(** thread.c 828-844 count_load_avg *)
Definition count_load_avg : M kernel unit :=
  let! mlfqs := gets thread_mlfqs in
  if negb mlfqs then ret tt
  else
    let! ls := gets equiprior in
    let cnt := foldl (λ n l, s32 (n + Z.of_nat (length l))) 0 ls in
    let! c := thread_current in
    let! t := get_thread c in
    let! idle := gets idle_thread in
    let cnt := if decide (Some c ≠ idle ∧ status t = THREAD_RUNNING) then s32 (cnt + 1) else cnt in
    let! load := gets load_avg in
    modify (set_load_avg (fixed_sum (fixed_mul (fixed_int_div (int_to_fixed 59) 60) load)
      (fixed_int_mul (fixed_int_div (int_to_fixed 1) 60) cnt))).

(** thread.c 408-419 thread_set_nice *)
Definition thread_set_nice (n : Z) : K unit :=
  letk old_level := atomic (
    let! old_level := intr_disable in
    let! p := thread_current in
    upd_thread p (set_nice n);;!
    thread_priority_update p;;!
    ret old_level) in
  thread_yield_if_needed;;k
  atomic (intr_set_level old_level);;k
  kret tt.

(** ** Sleeping *)

(** thread.c 716-723 sleepers_is_less_cmp, as [list_insert_ordered] uses it:
    where the thread with wake-up time [w] goes *)
Fixpoint insert_sleeper (p w : Z) (l : list Z) : M kernel (list Z) :=
  match l with
  | [] => ret [p]
  | e :: r =>
      let! te := get_thread e in
      if decide (w < ticks_left_to_sleep te) then ret (p :: e :: r)
      else let! r := insert_sleeper p w r in ret (e :: r)
  end.

(** thread.c 732-738 sleep_the_thread, up to the block *)
Definition fall_asleep (n : Z) : M kernel bool :=
  let! before := intr_disable in
  let! p := thread_current in
  let! now := timer_ticks in
  upd_thread p (set_ticks_left_to_sleep (n + now));;!
  let! p := thread_current in
  let! l := gets sleepers in
  let! l := insert_sleeper p (n + now) l in
  modify (set_sleepers l);;!
  ret before.

(** thread.c 732-743 sleep_the_thread *)
Definition sleep_the_thread (n : Z) : K unit :=
  letk before := atomic (fall_asleep n) in
  thread_block;;k
  atomic (intr_set_level before);;k
  kret tt.

(** timer.c 91-103 timer_sleep *)
Definition timer_sleep (n : Z) : K unit :=
  atomic (let! on := gets intr_on in assertM on);;k sleep_the_thread n.

(** thread.c 751-768 handle_tick_for_sleep_queue, the loop *)
Fixpoint wake_loop (l : list Z) : M kernel unit :=
  match l with
  | [] => ret tt
  | p :: l =>
      let! t := get_thread p in
      let! now := timer_ticks in
      if decide (ticks_left_to_sleep t ≤ now) then
        let! now := timer_ticks in
        upd_thread p (set_ticks_left_to_sleep now);;!
        let! before := intr_disable in
        modify (λ s, set_sleepers (filter (.≠ p) (sleepers s)) s);;!
        thread_unblock p;;!
        intr_set_level before;;!
        wake_loop l
      else ret tt
  end.

(** thread.c 745-770 handle_tick_for_sleep_queue *)
Definition handle_tick_for_sleep_queue : M kernel unit :=
  let! l := gets sleepers in
  match l with
  | [] => ret tt
  | _ => wake_loop l;;! intr_yield_on_return
  end.

(** thread.c 160-180 thread_tick, without USERPROG *)
Definition thread_tick : M kernel unit :=
  let! p := thread_current in
  let! idle := gets idle_thread in
  (if decide (Some p = idle) then modify (λ s, set_idle_ticks (idle_ticks s + 1) s)
   else modify (λ s, set_kernel_ticks (kernel_ticks s + 1) s));;!
  modify (λ s, set_thread_ticks (u32 (thread_ticks s + 1)) s);;!
  let! n := gets thread_ticks in
  if decide (TIME_SLICE ≤ n) then intr_yield_on_return else ret tt.

(** timer.c 175-196 timer_interrupt *)
Definition timer_interrupt : M kernel unit :=
  modify (λ s, set_ticks (ticks s + 1) s);;!
  thread_tick;;!
  handle_tick_for_sleep_queue;;!
  let! mlfqs := gets thread_mlfqs in
  if (mlfqs : bool) then
    let! c := thread_current in
    let! t := get_thread c in
    (if decide (status t = THREAD_RUNNING) then upd_thread c (set_recent_cpu (fixed_int_sum (recent_cpu t) 1))
     else ret tt);;!
    let! now := gets ticks in
    (if decide (Z.rem now TIMER_FREQ = 0) then count_load_avg;;! update_recent_cpu else ret tt);;!
    if decide (Z.rem now 4 = 0) then thread_priority_update_all else ret tt
  else ret tt.

(** interrupt.c 344-389 intr_handler, for the timer's interrupt, which arrives
    with interrupts on: the gate turns them off, the return restores them *)
Definition intr_handler : K unit :=
  atomic (let! on := gets intr_on in assertM on;;!
    modify (set_intr_on false);;!
    assert_intr_off;;!
    assert_not_intr_context;;!
    modify (set_in_external_intr true);;!
    modify (set_yield_on_return false);;!
    timer_interrupt;;!
    assert_intr_off;;!
    let! c := gets in_external_intr in assertM c;;!
    modify (set_in_external_intr false));;k
  letk y := atomic (gets yield_on_return) in
  (if (y : bool) then thread_yield else kret tt);;k
  atomic (modify (set_intr_on true)).
