(* ===== verification/Synch.v ===== *)
(** Semaphores, locks and condition variables of Project2 (threads/synch.c). *)
From S2P Require Import Prelude Kernel Sched.
Local Open Scope Z_scope.

(** ** Semaphores *)

(** synch.c 50-66 sema_init *)
Definition sema_init (p v : Z) : M kernel unit :=
  modify (λ s, set_semas (<[p := mkSema v []]> (semas s)) s).

(** synch.c 45-48 highest_priority_locked_on *)
Definition highest_priority_locked_on (p : Z) : M kernel Z :=
  let! x := get_sema p in
  assertM (bool_decide (waiters x ≠ []));;!
  let! m := list_max_entry (waiters x) in
  let! t := get_thread m in ret (prior_don t).

(** synch.c 80-87 sema_down_donate, before the block: the result is [owner] *)
Definition start_waiting (p : Z) (owner_lock : option Z) (c : Z) : M kernel (option Z) :=
  upd_sema p (λ x, set_waiters (waiters x ++ [c]) x);;!
  let! mlfqs := gets thread_mlfqs in
  match owner_lock with
  | Some l =>
      if negb mlfqs then
        upd_thread c (set_locked_on (Some l));;!
        let! h := get_holder l in
        match h with
        | Some o =>
            let! prio := thread_get_priority in
            let! n := chain_fuel in
            thread_donate n (Some o) prio;;!
            ret (Some o)
        | None => ret None
        end
      else ret None
  | None => ret None
  end.

(** synch.c 89-91 sema_down_donate, after the block *)
Definition after_waiting (owner : option Z) : M kernel unit :=
  let! mlfqs := gets thread_mlfqs in
  match owner with
  | Some o =>
      if negb mlfqs then
        let! t := get_thread o in
        let! prio := thread_get_priority in
        if decide (prior_don t ≤ prio) then let! n := chain_fuel in thread_update_donations n (Some o)
        else ret tt
      else ret tt
  | None => ret tt
  end.

(** synch.c 78-92 sema_down_donate, the loop.  [fuel] bounds how often the thread
    can be woken up to find the semaphore taken again. *)
Fixpoint down_loop (fuel : nat) (p : Z) (owner_lock : option Z) (c : Z) : K unit :=
  match fuel with
  | O => atomic (throw OutOfFuel)
  | S fuel =>
      letk x := atomic (get_sema p) in
      if decide (value x = 0) then
        letk owner := atomic (start_waiting p owner_lock c) in
        thread_block;;k
        atomic (after_waiting owner);;k
        down_loop fuel p owner_lock c
      else kret tt
  end.

(** synch.c 68-96 sema_down_donate *)
Definition sema_down_donate (fuel : nat) (p : Z) (owner_lock : option Z) : K unit :=
  letk old_level := atomic (assert_not_intr_context;;! intr_disable) in
  letk c := atomic thread_current in
  down_loop fuel p owner_lock c;;k
  atomic (upd_thread c (set_locked_on None);;!
    upd_sema p (λ x, set_value (u32 (value x - 1)) x);;!
    intr_set_level old_level);;k
  kret tt.

(** synch.c 98-110 sema_down *)
Definition sema_down (fuel : nat) (p : Z) : K unit := sema_down_donate fuel p None.

(** synch.c 112-137 sema_try_down *)
Definition sema_try_down (p : Z) : M kernel bool :=
  let! old_level := intr_disable in
  let! x := get_sema p in
  let! success :=
    if decide (value x > 0)%Z then upd_sema p (λ x, set_value (u32 (value x - 1)) x);;! ret true
    else ret false in
  intr_set_level old_level;;!
  ret success.

(** synch.c 150-156 sema_up, the loop.  The result is [shouldYield]. *)
Fixpoint wake_waiters (p c : Z) (l : list Z) (should_yield : bool) : M kernel bool :=
  match l with
  | [] => ret should_yield
  | e :: l =>
      upd_sema p (set_waiters l);;!
      thread_unblock e;;!
      let! tc := get_thread c in
      let! te := get_thread e in
      wake_waiters p c l (should_yield ||
        bool_decide (prior_don tc > base_priority tc)%Z && bool_decide (prior_don tc ≤ prior_don te))
  end.

(** synch.c 139-162 sema_up *)
Definition sema_up (p : Z) : K unit :=
  letk r := atomic (
    let! old_level := intr_disable in
    let! c := thread_current in
    let! x := get_sema p in
    let! should_yield := wake_waiters p c (waiters x) false in
    upd_sema p (λ x, set_value (u32 (value x + 1)) x);;!
    ret (old_level, should_yield)) in
  (if (snd r : bool) then thread_yield else thread_yield_if_needed);;k
  atomic (intr_set_level (fst r));;k
  kret tt.

(** ** Locks *)

(** synch.c 201-223 lock_init *)
Definition lock_init (l : Z) : M kernel unit :=
  modify (λ s, set_holders (<[l := None]> (holders s)) s);;! sema_init l 1.

(** synch.c 293-302 lock_held_by_current_thread *)
Definition lock_held_by_current_thread (l : Z) : M kernel bool :=
  let! h := get_holder l in
  let! c := thread_current in
  ret (bool_decide (h = Some c)).

(** synch.c 242-244 lock_acquire, and 265-268 of lock_try_acquire *)
Definition take_lock (l : Z) : M kernel unit :=
  let! c := thread_current in
  put_holder l (Some c);;!
  let! mlfqs := gets thread_mlfqs in
  if negb mlfqs then upd_thread c (λ t, set_lock_list (l :: lock_list t) t) else ret tt.

(** synch.c 225-247 lock_acquire *)
Definition lock_acquire (fuel : nat) (l : Z) : K unit :=
  letk old_level := atomic (
    assert_not_intr_context;;!
    let! b := lock_held_by_current_thread l in assertM (negb b);;!
    intr_disable) in
  letk mlfqs := atomic (gets thread_mlfqs) in
  sema_down_donate fuel l (if (mlfqs : bool) then None else Some l);;k
  atomic (take_lock l;;! intr_set_level old_level);;k
  kret tt.

(** synch.c 249-271 lock_try_acquire *)
Definition lock_try_acquire (l : Z) : M kernel bool :=
  let! b := lock_held_by_current_thread l in assertM (negb b);;!
  let! old_level := intr_disable in
  let! success := sema_try_down l in
  (if (success : bool) then take_lock l else ret tt);;!
  intr_set_level old_level;;!
  ret success.

(** synch.c 285-288 lock_release, before the semaphore goes up *)
Definition give_lock (l : Z) : M kernel bool :=
  let! b := lock_held_by_current_thread l in assertM b;;!
  let! old_level := intr_disable in
  let! c := thread_current in
  put_holder l None;;!
  let! mlfqs := gets thread_mlfqs in
  (if negb mlfqs then upd_thread c (λ t, set_lock_list (filter (.≠ l) (lock_list t)) t) else ret tt);;!
  ret old_level.

(** synch.c 273-291 lock_release *)
Definition lock_release (l : Z) : K unit :=
  letk old_level := atomic (give_lock l) in
  sema_up l;;k
  atomic (intr_set_level old_level);;k
  kret tt.

(** ** Condition variables

    A waiter's [semaphore_elem] is on its stack, at an address that the caller
    of the model gives. *)

(** synch.c 311-320 cond_init *)
Definition cond_init (p : Z) : M kernel unit :=
  modify (λ s, set_conds (<[p := []]> (conds s)) s).

(** synch.c 322-357 cond_wait *)
Definition cond_wait (fuel : nat) (cond lock waiter : Z) : K unit :=
  atomic (assert_not_intr_context;;!
    let! b := lock_held_by_current_thread lock in assertM b;;!
    sema_init waiter 0;;!
    let! l := get_cond cond in put_cond cond (l ++ [waiter]));;k
  lock_release lock;;k
  sema_down fuel waiter;;k
  lock_acquire fuel lock.

(** synch.c 359-367 semaphore_elem_less *)
Definition semaphore_elem_less (a b : Z) : M kernel bool :=
  let! xa := get_sema a in
  let! xb := get_sema b in
  match waiters xa, waiters xb with
  | [], l => ret (bool_decide (l ≠ []))
  | _, [] => ret false
  | la, lb =>
      let! ma := list_max_entry la in
      let! mb := list_max_entry lb in
      let! ta := get_thread ma in
      let! tb := get_thread mb in
      ret (bool_decide (prior_don ta < prior_don tb))
  end.

(** synch.c 385 cond_signal, the search *)
Fixpoint max_sema (m : Z) (l : list Z) : M kernel Z :=
  match l with
  | [] => ret m
  | e :: l => let! b := semaphore_elem_less m e in max_sema (if (b : bool) then e else m) l
  end.

(** synch.c 369-390 cond_signal *)
Definition cond_signal (cond lock : Z) : K unit :=
  letk next := atomic (assert_not_intr_context;;!
    let! b := lock_held_by_current_thread lock in assertM b;;!
    let! l := get_cond cond in
    match l with
    | [] => ret None
    | m :: r =>
        let! w := max_sema m r in
        put_cond cond (filter (.≠ w) l);;! ret (Some w)
    end) in
  match next with Some w => sema_up w | None => kret tt end.

(** synch.c 406-407 cond_broadcast, the loop, which looks at the list again after
    each wake-up *)
Fixpoint broadcast_loop (fuel : nat) (cond : Z) : K unit :=
  match fuel with
  | O => atomic (throw OutOfFuel)
  | S fuel =>
      letk next := atomic (let! l := get_cond cond in
        match l with [] => ret None | w :: l => put_cond cond l;;! ret (Some w) end) in
      match next with
      | None => kret tt
      | Some w => sema_up w;;k broadcast_loop fuel cond
      end
  end.

(** synch.c 392-408 cond_broadcast *)
Definition cond_broadcast (fuel : nat) (cond lock : Z) : K unit :=
  atomic (assert_not_intr_context;;!
    let! b := lock_held_by_current_thread lock in assertM b);;k
  broadcast_loop fuel cond.
