(* ===== verification/Spawn.v ===== *)
(** Creating threads (threads/thread.c), and the machine that runs the threads in
    turn. *)
From S2P Require Import Prelude Kernel Sched Synch.
Local Open Scope Z_scope.

(** ** Creating threads *)

(** thread.c 547-549 init_thread: the addresses of the thread's own lock and of
    the lock for thread identifiers *)
Definition prior_lock_of (p : Z) : Z := p + 88.
Definition tid_lock : Z := 1.

(** thread.c 528-566 init_thread *)
Definition init_thread (p : Z) (nm : list Z) (priority : Z) : M kernel unit :=
  assertM (bool_decide (PRI_MIN ≤ priority ∧ priority ≤ PRI_MAX));;!
  modify (λ s, set_threads (<[p := mkThread 0 THREAD_BLOCKED (take 15 nm) priority 0 0 0 priority [] None
    THREAD_MAGIC (0, 0)]> (threads s)) s);;!
  lock_init (prior_lock_of p);;!
  let! old_level := intr_disable in
  let! mlfqs := gets thread_mlfqs in
  (if (mlfqs : bool) then
     let! c := gets cur in
     let! b := is_thread (Some c) in
     let! init := gets initial_thread in
     let! idle := gets idle_thread in
     (if decide (b = true ∧ p ≠ init ∧ Some c ≠ idle) then
        let! tc := get_thread c in
        upd_thread p (λ t, set_recent_cpu (recent_cpu tc) (set_nice (nice tc) t))
      else upd_thread p (λ t, set_recent_cpu 0 (set_nice 0 t)));;!
     thread_priority_update p
   else ret tt);;!
  modify (λ s, set_all_list (all_list s ++ [p]) s);;!
  intr_set_level old_level;;!
  ret tt.

(** thread.c 694-706 allocate_tid *)
Definition allocate_tid (fuel : nat) : K Z :=
  lock_acquire fuel tid_lock;;k
  letk t := atomic (let! t := gets next_tid in modify (set_next_tid (s32 (t + 1)));;! ret t) in
  lock_release tid_lock;;k
  kret t.

(** [palloc_get_page (PAL_ZERO)]: the page allocator is a parameter of the state. *)
Definition palloc_get_page : M kernel (option Z) := λ s,
  match pages s with
  | [] => Ret (None, s)
  | p :: r => Ret (p, set_pages r s)
  end.

(** thread.c 189-246 thread_create.  [function] and [aux] end up in the frame of
    [kernel_thread] on the new thread's stack. *)
Definition thread_create (fuel : nat) (nm : list Z) (priority function aux : Z) : K Z :=
  atomic (assertM (bool_decide (function ≠ 0)));;k
  letk page := atomic palloc_get_page in
  match page with
  | None => kret TID_ERROR
  | Some p =>
      atomic (init_thread p nm priority);;k
      letk id := allocate_tid fuel in
      atomic (upd_thread p (λ t, set_start (function, aux) (set_tid id t));;! thread_unblock p);;k
      thread_yield;;k
      kret id
  end.

(** thread.c 42-50 init_priority_lists *)
Definition init_priority_lists : M kernel unit :=
  modify (set_equiprior (replicate (Z.to_nat (PRI_MAX - PRI_MIN + 1)) [])).

(** thread.c 104-141 thread_init.  [initial_thread] of the state is the running
    thread. *)
Definition thread_init (fuel : nat) (main : list Z) : K unit :=
  letk init := atomic (assert_intr_off;;!
    lock_init tid_lock;;!
    modify (λ s, set_all_list [] (set_sleepers [] s));;!
    init_priority_lists;;!
    modify (set_ready_list []);;!
    let! init := gets initial_thread in
    let! mlfqs := gets thread_mlfqs in
    init_thread init main (if (mlfqs : bool) then PRI_MAX else PRI_DEFAULT);;!
    upd_thread init (set_status THREAD_RUNNING);;!
    ret init) in
  letk id := allocate_tid fuel in
  atomic (upd_thread init (set_tid id)).

(** thread.c 459-494 idle.  The thread runs for ever; [fuel] bounds the rounds. *)
Fixpoint idle_loop (fuel : nat) : K unit :=
  match fuel with
  | O => atomic (throw OutOfFuel)
  | S fuel =>
      atomic (intr_disable;;! ret tt);;k
      thread_block;;k
      atomic (modify (set_intr_on true));;k
      idle_loop fuel
  end.
Definition idle (fuel : nat) (idle_started : Z) : K unit :=
  atomic (let! c := thread_current in modify (set_idle_thread (Some c)));;k
  sema_up idle_started;;k
  idle_loop fuel.

(** thread.c 143-158 thread_start.  [idle_started] is on the stack; [idle_code]
    is the address of [idle]. *)
Definition thread_start (fuel : nat) (idle_started idle_code : Z) : K unit :=
  atomic (sema_init idle_started 0);;k
  thread_create fuel [105; 100; 108; 101] PRI_MIN idle_code idle_started;;k
  atomic (intr_enable;;! ret tt);;k
  sema_down fuel idle_started.

(** ** The machine

    Threads run one at a time; [code] is what the functions do. A thread that
    runs for the first time starts in [kernel_thread]. *)
Section machine.
Context (code : Z → Z → K unit).

(** thread.c 496-505 kernel_thread *)
Definition kernel_thread (function aux : Z) : K unit :=
  atomic (assertM (bool_decide (function ≠ 0));;! intr_enable;;! ret tt);;k
  code function aux;;k
  thread_exit.

(** The stopped threads, each with the code it will go on with. *)
Record machine := mkMachine { kern : kernel; conts : gmap Z (K unit) }.

(** What the thread that has just been given the processor does. *)
Definition next_code (m : machine) : K unit :=
  match conts m !! cur (kern m) with
  | Some k => k
  | None => switched_back;;k
      letk t := atomic (let! c := gets cur in get_thread c) in
      kernel_thread (fst (start t)) (snd (start t))
  end.

(** Runs the current thread until it gives up the processor; [None] when the
    code of the initial thread ends. *)
Definition slice (k : K unit) (m : machine) : outcome (option machine * kernel) :=
  match k (kern m) with
  | Ret (Fin _, s) => Ret (None, s)
  | Ret (Susp k', s) => Ret (Some (mkMachine s (<[cur (kern m) := k']> (conts m))), s)
  | Err e => Err e
  end.

(** Runs [n] slices, from the current thread's [k]. *)
Fixpoint run (n : nat) (k : K unit) (m : machine) : outcome kernel :=
  match n with
  | O => Err OutOfFuel
  | S n =>
      let* r := slice k m in
      match fst r with
      | None => Ret (snd r)
      | Some m => run n (next_code m) (mkMachine (kern m) (delete (cur (kern m)) (conts m)))
      end
  end.
End machine.
