(* ===== verification/KernelLaws.v ===== *)
(** How the accesses to the kernel's state run, and what it means that code that
    may give up the processor keeps an invariant. *)
From S2P Require Import Prelude FixedPoint Kernel.
Local Open Scope Z_scope.

(** ** Runs of the accesses *)
Lemma get_thread_run s p t : threads s !! p = Some t → get_thread p s = Ret (t, s).
Proof. unfold get_thread. by intros ->. Qed.
Lemma upd_thread_run s p t f :
  threads s !! p = Some t → upd_thread p f s = Ret (tt, set_threads (<[p:=f t]> (threads s)) s).
Proof. intros Ht. unfold upd_thread. by rewrite (bind_run _ _ _ _ _ (get_thread_run _ _ _ Ht)). Qed.
Lemma get_sema_run s p x : semas s !! p = Some x → get_sema p s = Ret (x, s).
Proof. unfold get_sema. by intros ->. Qed.
Lemma upd_sema_run s p x f :
  semas s !! p = Some x → upd_sema p f s = Ret (tt, set_semas (<[p:=f x]> (semas s)) s).
Proof. intros Ht. unfold upd_sema. by rewrite (bind_run _ _ _ _ _ (get_sema_run _ _ _ Ht)). Qed.
Lemma get_holder_run s p h : holders s !! p = Some h → get_holder p s = Ret (h, s).
Proof. unfold get_holder. by intros ->. Qed.

Lemma assert_intr_off_run s : intr_on s = false → assert_intr_off s = Ret (tt, s).
Proof. intros H. unfold assert_intr_off, bind, gets. by rewrite H. Qed.
Lemma intr_disable_run s : intr_disable s = Ret (intr_on s, set_intr_on false s).
Proof. done. Qed.

Lemma bind_disable {B} (k : bool → M kernel B) s :
  bind intr_disable k s = k (intr_on s) (set_intr_on false s).
Proof. done. Qed.
Lemma bind_thread_at {B} p (k : Z → M kernel B) s : bind (deref (Some p)) k s = k p s.
Proof. done. Qed.

(** Runs the steps that cannot fail; [krun H] also the call that [H] is about. *)
Ltac ksteps := repeat first
  [ rewrite bind_assoc | rewrite bind_gets | rewrite bind_modify | rewrite bind_ret
  | rewrite bind_disable | rewrite bind_lift | rewrite bind_thread_at ].
Tactic Notation "krun" uconstr(H) := ksteps; rewrite (bind_run _ _ _ _ _ H); ksteps.

Lemma set_threads_id s : set_threads (threads s) s = s.
Proof. by destruct s. Qed.
Lemma set_threads_twice x y s : set_threads x (set_threads y s) = set_threads x s.
Proof. done. Qed.

(** Taking an element out of a list. *)
Lemma filter_ne_id (p : Z) (l : list Z) : p ∉ l → filter (.≠ p) l = l.
Proof.
  induction l as [|q l IH]; [done|]. intros [Hq Hl]%not_elem_of_cons.
  by rewrite filter_cons, decide_True, IH by done.
Qed.
Lemma filter_ne_head (p : Z) (l : list Z) : p ∉ l → filter (.≠ p) (p :: l) = l.
Proof. intros. rewrite filter_cons, decide_False by (by intros []). by apply filter_ne_id. Qed.

(** ** Code that may give up the processor *)
Lemma kbind_atomic {A B} (m : M kernel A) (f : A → K B) s a s' :
  m s = Ret (a, s') → kbind (atomic m) f s = f a s'.
Proof. unfold kbind, atomic. by intros ->. Qed.
Lemma kbind_gets {A B} (g : kernel → A) (f : A → K B) s : kbind (atomic (gets g)) f s = f (g s) s.
Proof. done. Qed.
Lemma kbind_run {A B} (m : K A) (f : A → K B) s a s' :
  m s = Ret (Fin a, s') → kbind m f s = f a s'.
Proof. unfold kbind. by intros ->. Qed.
Lemma kbind_susp {A B} (m : K A) (f : A → K B) s k s' :
  m s = Ret (Susp k, s') → kbind m f s = Ret (Susp (kbind k f), s').
Proof. unfold kbind. by intros ->. Qed.

(** ** Invariants of code that may give up the processor

    [rsafe]: what is left of a call that thread [d] runs gives up the processor
    only in states where [I] holds, and ends, if it does, with [Q], provided
    that the other threads keep [I] in the meantime. *)
Section safe.
Context (d : Z) (I : kernel → Prop).

Fixpoint rsafe {A} (r : res A) (Q : A → kernel → Prop) (s : kernel) {struct r} : Prop :=
  match r with
  | Fin a => Q a s
  | Susp k => I s ∧ ∀ s1, I s1 → cur s1 = d →
      match k s1 with Ret (r2, s2) => rsafe r2 Q s2 | Err _ => True end
  end.

Definition ksafe {A} (m : K A) (Q : A → kernel → Prop) (s : kernel) : Prop :=
  match m s with Ret (r, s') => rsafe r Q s' | Err _ => True end.

Lemma rsafe_bind {A B} (r : res A) (f : A → K B) Q s r' s' :
  rsafe r (λ a, ksafe (f a) Q) s → rbind r f s = Ret (r', s') → rsafe r' Q s'.
Proof.
  revert r s r' s'. fix IH 1. intros r s r' s'. destruct r as [a|k]; simpl.
  - unfold ksafe. intros Hs E. by rewrite E in Hs.
  - intros [HI Hk] [= <- <-]. split; [done|]. intros s1 HI1 Hc1. specialize (Hk s1 HI1 Hc1).
    destruct (k s1) as [[r2 s2]|e]; [|done].
    destruct (rbind r2 f s2) as [[r3 s3]|e] eqn:E; [|done]. exact (IH r2 s2 r3 s3 Hk E).
Qed.

Lemma ksafe_bind {A B} (m : K A) (f : A → K B) Q s :
  ksafe m (λ a, ksafe (f a) Q) s → ksafe (kbind m f) Q s.
Proof.
  unfold ksafe at 1 3, kbind. destruct (m s) as [[r s']|e]; [|done]. intros Hr.
  destruct (rbind r f s') as [[r2 s2]|e] eqn:E; [|done]. by eapply rsafe_bind.
Qed.

Lemma ksafe_atomic {A} (m : M kernel A) (Q : A → kernel → Prop) s :
  (∀ a s', m s = Ret (a, s') → Q a s') → ksafe (atomic m) Q s.
Proof. unfold ksafe, atomic. destruct (m s) as [[a s']|e]; simpl; auto. Qed.

Lemma ksafe_run {A B} (m : M kernel A) (f : A → K B) (Q : B → kernel → Prop) s a s' :
  m s = Ret (a, s') → ksafe (f a) Q s' → ksafe (kbind (atomic m) f) Q s.
Proof. intros E Hf. apply ksafe_bind, ksafe_atomic. intros b s2 E2. rewrite E in E2. by simplify_eq. Qed.

Lemma ksafe_kret {A} (a : A) (Q : A → kernel → Prop) s : Q a s → ksafe (kret a) Q s.
Proof. done. Qed.

Lemma rsafe_mono {A} (r : res A) (Q Q' : A → kernel → Prop) s :
  (∀ a s', Q a s' → Q' a s') → rsafe r Q s → rsafe r Q' s.
Proof.
  intros HQ. revert r s. fix IH 1. intros r s. destruct r as [a|k]; simpl; [auto|].
  intros [HI Hk]. split; [done|]. intros s1 HI1 Hc1. specialize (Hk s1 HI1 Hc1).
  destruct (k s1) as [[r2 s2]|e]; [|done]. exact (IH r2 s2 Hk).
Qed.

Lemma ksafe_mono {A} (m : K A) (Q Q' : A → kernel → Prop) s :
  (∀ a s', Q a s' → Q' a s') → ksafe m Q s → ksafe m Q' s.
Proof. unfold ksafe. destruct (m s) as [[r s']|e]; [|done]. apply rsafe_mono. Qed.

(** Code that keeps [I]: atomic, and in general. *)
Definition keeps {A} (m : M kernel A) : Prop :=
  ∀ s a s', I s → cur s = d → m s = Ret (a, s') → I s' ∧ cur s' = d.
Definition kkeeps {A} (m : K A) : Prop :=
  ∀ s, I s → cur s = d → ksafe m (λ _ s', I s' ∧ cur s' = d) s.

Lemma keeps_bind {A B} (m : M kernel A) (f : A → M kernel B) :
  keeps m → (∀ a, keeps (f a)) → keeps (bind m f).
Proof.
  intros Hm Hf s b s' HI Hc. unfold bind. destruct (m s) as [[a s1]|] eqn:E; [|done].
  destruct (Hm _ _ _ HI Hc E). by apply Hf.
Qed.
Lemma keeps_ret {A} (a : A) : keeps (ret a).
Proof. by intros s b s' ?? [= <- <-]. Qed.
Lemma keeps_gets {A} (f : kernel → A) : keeps (gets f).
Proof. by intros s b s' ?? [= <- <-]. Qed.
Lemma keeps_lift {A} (o : outcome A) : keeps (lift o).
Proof. intros s b s' ??. unfold lift. by destruct o; intros [= <- <-]. Qed.
Lemma keeps_throw {A} e : keeps (throw (A:=A) e).
Proof. by intros s b s' ??. Qed.
Lemma keeps_modify (f : kernel → kernel) : (∀ s, I s → cur s = d → I (f s) ∧ cur (f s) = d) → keeps (modify f).
Proof. intros Hf s b s' ?? [= <- <-]. auto. Qed.
Lemma keeps_reads {A} (m : M kernel A) : (∀ s a s', m s = Ret (a, s') → s' = s) → keeps m.
Proof. by intros Hm s a s' ?? ->%Hm. Qed.

Lemma kkeeps_bind {A B} (m : K A) (f : A → K B) : kkeeps m → (∀ a, kkeeps (f a)) → kkeeps (kbind m f).
Proof.
  intros Hm Hf s HI Hc. apply ksafe_bind. eapply ksafe_mono; [|by apply Hm].
  intros a s' [??]. by apply Hf.
Qed.
Lemma kkeeps_atomic {A} (m : M kernel A) : keeps m → kkeeps (atomic m).
Proof. intros Hm s HI Hc. apply ksafe_atomic. intros a s'. by apply Hm. Qed.
Lemma kkeeps_kret {A} (a : A) : kkeeps (kret a).
Proof. by intros s HI Hc. Qed.
End safe.
