(* ===== verification/SchedLaws.v ===== *)
(** Which thread the scheduler of Project2 picks, and when it takes the
    processor away from the running thread. *)
From S2P Require Import Prelude FixedPoint Kernel KernelLaws Sched.
Local Open Scope Z_scope.

(** The priority of the thread at [p]. *)
Definition prio (s : kernel) (p : Z) : Z := from_option prior_don 0 (threads s !! p).

(** [p] is a thread of the kernel. *)
Definition live (s : kernel) (p : Z) : Prop :=
  ∃ t, threads s !! p = Some t ∧ magic t = THREAD_MAGIC.

Lemma prio_eq s p t : threads s !! p = Some t → prio s p = prior_don t.
Proof. unfold prio. by intros ->. Qed.

(** ** The first thread with the highest priority *)
Definition first_max (s : kernel) (r : Z) (l : list Z) : Prop :=
  ∃ l1 l2, l = l1 ++ r :: l2 ∧ Forall (λ q, prio s q < prio s r) l1 ∧
    Forall (λ q, prio s q ≤ prio s r) l2.

Lemma first_max_elem s r l : first_max s r l → r ∈ l.
Proof. intros (l1 & l2 & -> & _). set_solver. Qed.

Lemma first_max_ge s r l q : first_max s r l → q ∈ l → prio s q ≤ prio s r.
Proof.
  intros (l1 & l2 & -> & H1 & H2) Hq. rewrite Forall_forall in H1. rewrite Forall_forall in H2.
  apply elem_of_app in Hq as [Hq|Hq]; [specialize (H1 _ Hq); lia|].
  apply elem_of_cons in Hq as [->|Hq]; [lia|by apply H2].
Qed.

Lemma max_thread_run s l : ∀ m, live s m → Forall (live s) l →
  ∃ r, max_thread m l s = Ret (r, s) ∧ first_max s r (m :: l).
Proof.
  induction l as [|e l IH]; intros m (tm & Hm & Hmm) Hl; simpl.
  - exists m. split; [done|]. exists [], []. by repeat constructor.
  - inversion Hl as [|? ? (te & He & Hme) Hl']; subst.
    krun (get_thread_run _ _ _ Hm). krun (get_thread_run _ _ _ He).
    pose proof (prio_eq _ _ _ Hm). pose proof (prio_eq _ _ _ He). case_decide as Hlt.
    + destruct (IH e) as (r & Hrun & l1 & l2 & E & H1 & H2); [by exists te|done|].
      exists r. split; [done|]. exists (m :: l1), l2. split_and!; [by rewrite E| |done].
      constructor; [|done]. destruct l1 as [|x l1]; simplify_eq/=; [lia|].
      inversion H1; subst. lia.
    + destruct (IH m) as (r & Hrun & l1 & l2 & E & H1 & H2); [by exists tm|done|].
      exists r. split; [done|]. destruct l1 as [|x l1]; simplify_eq/=.
      * exists [], (e :: l2). split_and!; [done..|]. constructor; [lia|done].
      * exists (x :: e :: l1), l2. split_and!; [done| |done]. inversion H1; subst.
        repeat constructor; [done|lia|done].
Qed.

Lemma live_entry s p : live s p → ∃ t, threads s !! p = Some t.
Proof. intros (t & Ht & _). eauto. Qed.

(** ** The next thread to run *)

(** The front of the last list that is not empty. *)
Lemma front_of_highest_spec ls p :
  front_of_highest ls = Some p ↔
  ∃ i l, ls !! i = Some (p :: l) ∧ ∀ j l', (i < j)%nat → ls !! j = Some l' → l' = [].
Proof.
  unfold front_of_highest. induction ls as [|l ls IH] using rev_ind.
  - split; [done|]. by intros (i & l & Hi & _).
  - rewrite foldl_app. simpl. destruct l as [|x l].
    + rewrite IH. split; intros (i & l & Hi & Hj); exists i, l.
      * split; [by rewrite lookup_app_l by (by eapply lookup_lt_Some)|].
        intros j l' Hlt [Hl'|[_ Hl']]%lookup_app_Some; [by eapply Hj|].
        destruct (j - length ls)%nat; by simplify_eq/=.
      * apply lookup_app_Some in Hi as [Hi|[_ Hi]]; [|by destruct (i - length ls)%nat].
        split; [done|]. intros j l' Hlt Hl'. apply (Hj j l'); [done|].
        by apply lookup_app_l_Some.
    + split.
      * intros [= ->]. exists (length ls), l. split; [apply list_lookup_middle; done|].
        intros j l' Hlt Hl'%lookup_lt_Some. rewrite length_app in Hl'. simpl in Hl'. lia.
      * intros (i & l' & Hi & Hj). apply lookup_app_Some in Hi as [Hi|[Hlen Hi]].
        -- apply lookup_lt_Some in Hi. exfalso.
           discriminate (Hj (length ls) (x :: l) Hi). by apply list_lookup_middle.
        -- destruct (i - length ls)%nat; by simplify_eq/=.
Qed.

Lemma next_run s :
  intr_on s = false → thread_mlfqs s = false → Forall (live s) (ready_list s) → ready_list s ≠ [] →
  ∃ p, get_next_thread_to_run s = Ret (Some p, s) ∧ first_max s p (ready_list s).
Proof.
  intros Hoff Hm Hl Hne. unfold get_next_thread_to_run.
  krun (assert_intr_off_run _ Hoff). rewrite Hm. simpl.
  destruct (ready_list s) as [|m l]; [done|]. inversion Hl; subst.
  destruct (max_thread_run s l m) as (r & Hrun & Hr); [done..|].
  exists r. split; [|done]. by krun Hrun.
Qed.

Lemma next_empty s :
  intr_on s = false → thread_mlfqs s = false → ready_list s = [] →
  get_next_thread_to_run s = Ret (idle_thread s, s).
Proof.
  intros Hoff Hm Hne. unfold get_next_thread_to_run.
  krun (assert_intr_off_run _ Hoff). by rewrite Hm, Hne.
Qed.

(** the priority scheduler's choice: when there are ready threads it is the
    first one in the queue among those with the highest (donated) priority, and
    the idle thread otherwise; with the advanced scheduler it is the front of the
    queue of the highest priority that has one.  Nothing changes. *)
Theorem next_thread_is_highest (s : kernel) (Hoff : intr_on s = false)
    (Hl : Forall (live s) (ready_list s)) :
  (thread_mlfqs s = false → ready_list s = [] → get_next_thread_to_run s = Ret (idle_thread s, s)) ∧
  (thread_mlfqs s = false → ready_list s ≠ [] →
    ∃ p, get_next_thread_to_run s = Ret (Some p, s) ∧ first_max s p (ready_list s)) ∧
  (thread_mlfqs s = true → ∀ i p l, equiprior s !! i = Some (p :: l) →
    (∀ j l', (i < j)%nat → equiprior s !! j = Some l' → l' = []) →
    get_next_thread_to_run s = Ret (Some p, s)).
Proof.
  split_and!; [intros; by apply next_empty|intros; by apply next_run|].
  intros Hm i p l Hi Hj. unfold get_next_thread_to_run.
  krun (assert_intr_off_run _ Hoff). rewrite Hm. simpl. ksteps.
  by rewrite (proj2 (front_of_highest_spec _ p)) by eauto.
Qed.

(** ** Preemption *)

(** [c] is the running thread, and the ready threads are others. *)
Record running (s : kernel) (c : Z) : Prop := {
  ru_off : intr_on s = false;
  ru_context : in_external_intr s = false;
  ru_cur : cur s = c;
  ru_thread : ∃ t, threads s !! c = Some t ∧ magic t = THREAD_MAGIC ∧ status t = THREAD_RUNNING;
  ru_idle : idle_thread s ≠ Some c;
  ru_ready q : q ∈ ready_list s → q ≠ c ∧ idle_thread s ≠ Some q ∧
    ∃ t, threads s !! q = Some t ∧ magic t = THREAD_MAGIC ∧ status t = THREAD_READY;
}.

Lemma running_live s c : running s c → Forall (live s) (ready_list s).
Proof.
  intros Hr. apply Forall_forall. intros q Hq.
  destruct (ru_ready _ _ Hr _ Hq) as (_ & _ & t & Ht & Hm & _). by exists t.
Qed.

Lemma thread_current_run s c : running s c → thread_current s = Ret (c, s).
Proof.
  intros Hr. destruct (ru_thread _ _ Hr) as (t & Ht & Hm & Hst). unfold thread_current.
  rewrite bind_gets, (ru_cur _ _ Hr). unfold is_thread. krun (get_thread_run _ _ _ Ht).
  rewrite (bool_decide_true (magic t = _)) by done. ksteps.
  krun eq_refl. krun (get_thread_run _ _ _ Ht). by rewrite bool_decide_true.
Qed.

Lemma first_max_unique s r r' l : first_max s r l → first_max s r' l → r = r'.
Proof.
  intros (l1 & l2 & -> & H1 & H2) (k1 & k2 & E & K1 & K2).
  rewrite Forall_forall in H1, H2, K1, K2.
  assert (∀ a b l l' l'', l = l' ++ a :: l'' → (∀ q, q ∈ l → prio s q < prio s b) →
    prio s b ≤ prio s a → False) as Habs.
  { intros a b l l' l'' -> Hlt ?. assert (prio s a < prio s b) by (apply Hlt; set_solver). lia. }
  apply app_eq_inv in E as [(k & E1 & E)|(k & E1 & E)]; destruct k as [|x k]; simpl in E;
    injection E as ? E; [done| |done|]; subst x; exfalso.
  - eapply Habs; [exact E1|done|]. apply K2. set_solver.
  - eapply Habs; [exact E1|done|]. apply H2. set_solver.
Qed.

Lemma first_max_snoc s r l c : first_max s r l → prio s c ≤ prio s r → first_max s r (l ++ [c]).
Proof.
  intros (l1 & l2 & -> & H1 & H2) Hc. exists l1, (l2 ++ [c]). split_and!; [by rewrite <-app_assoc|done|].
  apply Forall_app. by repeat constructor.
Qed.

(** The state without [p] in the containers of ready threads. *)
Definition unready (p : Z) (s : kernel) : kernel :=
  set_equiprior (filter (.≠ p) <$> equiprior s) (set_ready_list (filter (.≠ p) (ready_list s)) s).

Lemma next_is s p :
  intr_on s = false → thread_mlfqs s = false → Forall (live s) (ready_list s) →
  first_max s p (ready_list s) → get_next_thread_to_run s = Ret (Some p, s).
Proof.
  intros Hoff Hm Hl Hp. destruct (next_run s) as (p' & Hrun & Hp'); [done..| |].
  - intros E. rewrite E in Hp. by apply first_max_elem, elem_of_nil in Hp.
  - by rewrite Hrun, (first_max_unique _ _ _ _ Hp Hp').
Qed.

Lemma choose_next_run s p t tc :
  intr_on s = false → thread_mlfqs s = false → Forall (live s) (ready_list s) →
  first_max s p (ready_list s) → idle_thread s ≠ Some p →
  threads s !! p = Some t → status t = THREAD_READY →
  threads s !! cur s = Some tc → status tc ≠ THREAD_RUNNING →
  choose_next s = Ret (if decide (Some p = Some (cur s)) then None else Some p, unready p s).
Proof.
  intros Hoff Hm Hl Hp Hidle Ht Hst Htc Hrun. unfold choose_next, next_thread_to_run. ksteps.
  krun (next_is s p Hoff Hm Hl Hp). rewrite decide_True by done. ksteps.
  krun (get_thread_run _ _ _ Ht). rewrite decide_True by done. unfold remove_ready. ksteps.
  fold (unready p s).
  krun (assert_intr_off_run (unready p s) Hoff). krun (get_thread_run (unready p s) _ _ Htc).
  rewrite bool_decide_true by done. krun eq_refl. unfold is_thread.
  krun (get_thread_run (unready p s) _ _ Ht).
  destruct (proj1 (Forall_forall _ _) Hl p (first_max_elem _ _ _ Hp)) as (t' & Ht' & Hmagic).
  simplify_eq. rewrite (bool_decide_true (magic _ = _)) by done. by krun eq_refl.
Qed.

(** The state after the running thread [c] has become ready again. *)
Definition yielded (c : Z) (t : thread) (s : kernel) : kernel :=
  set_threads (<[c:=set_status THREAD_READY t]> (threads s)) (set_ready_list (ready_list s ++ [c]) s).

Lemma yielded_prio c t s q : threads s !! c = Some t → prio (yielded c t s) q = prio s q.
Proof.
  intros Ht. unfold prio. simpl. destruct (decide (q = c)) as [->|].
  - by rewrite lookup_insert_eq, Ht.
  - by rewrite lookup_insert_ne.
Qed.

Lemma first_max_ext s s' p l : (∀ q, prio s' q = prio s q) → first_max s p l → first_max s' p l.
Proof.
  intros E (l1 & l2 & -> & H1 & H2). exists l1, l2. split_and!; [done|..].
  all: eapply Forall_impl; [done|]; intros q; simpl; by rewrite !E.
Qed.

Lemma yielded_live c t s :
  threads s !! c = Some t → magic t = THREAD_MAGIC → Forall (live s) (ready_list s) →
  Forall (live (yielded c t s)) (ready_list (yielded c t s)).
Proof.
  intros Ht Hmag Hl. simpl. apply Forall_app. split.
  - eapply Forall_impl; [done|]. intros q (tq & Hq & Hmq). unfold live. simpl.
    destruct (decide (q = c)) as [->|]; [|rewrite lookup_insert_ne by done; eauto].
    simplify_eq. rewrite lookup_insert_eq. by eexists.
  - repeat constructor. unfold live. simpl. rewrite lookup_insert_eq. by eexists.
Qed.

(** Giving up the processor to [p]. *)
Definition switched (c p : Z) (s : kernel) : kernel :=
  set_switched_from (Some c) (set_cur p (unready p s)).

Lemma yield_to s c t p :
  running s c → thread_mlfqs s = false → threads s !! c = Some t →
  first_max s p (ready_list s) → prio s c ≤ prio s p →
  ∃ k, thread_yield s = Ret (Susp k, switched c p (yielded c t s)).
Proof.
  intros Hr Hm Ht Hp Hge.
  destruct (ru_ready _ _ Hr p (first_max_elem _ _ _ Hp)) as (Hpc & Hpi & tp & Htp & Hmp & Hsp).
  unfold thread_yield. rewrite (kbind_atomic _ _ _ _ _ (thread_current_run _ _ Hr)).
  rewrite (kbind_atomic _ _ s tt s) by (unfold assert_not_intr_context, bind, gets; by rewrite (ru_context _ _ Hr)).
  rewrite kbind_gets. rewrite decide_False by (pose proof (ru_idle _ _ Hr); done).
  rewrite (kbind_atomic _ _ s _ s)
    by (rewrite intr_disable_run; do 2 f_equal; pose proof (ru_off _ _ Hr); destruct s; simpl in *; by subst).
  rewrite (kbind_atomic _ _ s tt (yielded c t s)).
  2:{ unfold push_ready. ksteps. rewrite Hm. ksteps. by rewrite (upd_thread_run _ _ t). }
  destruct (ru_thread _ _ Hr) as (t' & Ht' & Hmag & Hst).
  assert (t' = t) as -> by congruence. eexists. apply kbind_susp. unfold schedule. rewrite (kbind_atomic _ _ _ (Some p) (unready p (yielded c t s))).
  - simpl. by rewrite (ru_cur _ _ Hr).
  - erewrite (choose_next_run _ p); [| | |by apply yielded_live; [..|by eapply running_live]| | | | | |]; try done.
    + simpl. rewrite decide_False; [done|]. rewrite (ru_cur _ _ Hr). by intros [= ->].
    + by apply (ru_off _ _ Hr).
    + simpl. apply (first_max_ext s); [by intros; apply yielded_prio|]. by apply first_max_snoc.
    + simpl. by rewrite lookup_insert_ne.
    + simpl. rewrite (ru_cur _ _ Hr), lookup_insert_eq. done.
    + done.
Qed.

(** [thread_yield_if_needed] up to the comparison of the priorities. *)
Lemma yield_if_needed_run s c t p :
  running s c → thread_mlfqs s = false → threads s !! c = Some t → first_max s p (ready_list s) →
  thread_yield_if_needed s =
    if decide (prio s c < prio s p) then thread_yield s else Ret (Fin tt, s).
Proof.
  intros Hr Hm Ht Hp. unfold thread_yield_if_needed.
  destruct (ru_ready _ _ Hr p (first_max_elem _ _ _ Hp)) as (Hpc & Hpi & tp & Htp & Hmp & Hsp).
  destruct (ru_thread _ _ Hr) as (t' & Ht' & Hmag & Hst). assert (t' = t) as -> by congruence.
  rewrite (kbind_atomic _ _ _ _ _ (thread_current_run _ _ Hr)).
  rewrite (kbind_atomic _ _ _ _ _ (next_is s p (ru_off _ _ Hr) Hm (running_live _ _ Hr) Hp)).
  rewrite kbind_gets, (kbind_atomic _ _ _ _ _ (get_thread_run _ _ _ Ht)).
  rewrite decide_False by (intros [E _]; by apply (ru_idle _ _ Hr)).
  rewrite (kbind_run _ _ s tt s eq_refl), kbind_gets, decide_False by done.
  rewrite (kbind_atomic _ _ s p s eq_refl).
  rewrite (kbind_atomic _ _ _ _ _ (get_thread_run _ _ _ Ht)).
  rewrite (kbind_atomic _ _ _ _ _ (get_thread_run _ _ _ Htp)).
  rewrite decide_False by (by intros []).
  rewrite (prio_eq _ _ _ Ht), (prio_eq _ _ _ Htp).
  destruct (decide (prior_don t < prior_don tp)).
  - rewrite decide_True; [done|]. split; [done|by left].
  - rewrite decide_False; [done|]. by intros [_ [?|?]].
Qed.

Lemma yield_if_needed_alone s c t :
  running s c → thread_mlfqs s = false → threads s !! c = Some t → ready_list s = [] →
  thread_yield_if_needed s = Ret (Fin tt, s).
Proof.
  intros Hr Hm Ht E. unfold thread_yield_if_needed.
  rewrite (kbind_atomic _ _ _ _ _ (thread_current_run _ _ Hr)).
  rewrite (kbind_atomic _ _ _ _ _ (next_empty s (ru_off _ _ Hr) Hm E)).
  rewrite kbind_gets, (kbind_atomic _ _ _ _ _ (get_thread_run _ _ _ Ht)).
  rewrite decide_False by (intros [E' _]; by apply (ru_idle _ _ Hr)).
  rewrite (kbind_run _ _ s tt s eq_refl), kbind_gets. by rewrite decide_True.
Qed.

(** C9: Strict priority scheduling, with the priority scheduler (not the advanced one: [thread_mlfqs] is false), in
    [thread_yield_if_needed], which [thread_set_priority] and [thread_set_nice] call, and [sema_up] too unless it yields in
    any case ([thread_create] always yields, and the timer yields on the return from its interrupt): the running thread [c] goes on, and nothing changes, when no ready thread has a higher priority; when one has, then [c]
    gives up the processor at once, to the first of the ready threads with the highest priority, and queues up behind all
    the others. *)
Theorem yields_to_higher (s : kernel) (c : Z) (t : thread) (Hr : running s c)
    (Hm : thread_mlfqs s = false) (Ht : threads s !! c = Some t) :
  (Forall (λ q, prio s q ≤ prio s c) (ready_list s) → thread_yield_if_needed s = Ret (Fin tt, s)) ∧
  (Exists (λ q, prio s c < prio s q) (ready_list s) →
    ∃ k p, thread_yield_if_needed s = Ret (Susp k, switched c p (yielded c t s)) ∧
      first_max s p (ready_list s)).
Proof.
  destruct (decide (ready_list s = [])) as [E|Hne].
  - rewrite E. split; [intros _; by eapply yield_if_needed_alone|by intros ?%Exists_nil].
  - destruct (next_run s) as (p & _ & Hp); [by apply (ru_off _ _ Hr)|done|by eapply running_live|done|].
    rewrite (yield_if_needed_run s c t p) by done. rewrite Forall_forall, Exists_exists. split.
    + intros Hall. rewrite decide_False; [done|].
      specialize (Hall p (first_max_elem _ _ _ Hp)). lia.
    + intros (q & Hq & Hlt). pose proof (first_max_ge _ _ _ _ Hp Hq).
      rewrite decide_True by lia. destruct (yield_to s c t p) as (k & Hk); [done..|lia|].
      by exists k, p.
Qed.

(** ** The advanced scheduler's priorities *)

(** the advanced scheduler's formula: the new priority is
    [PRI_MAX - recent_cpu / 4 - nice * 2], rounded and cut off at [PRI_MIN] and
    [PRI_MAX], so that it is always the index of one of the 64 queues; the
    arithmetic on [int]s does not overflow on the way. *)
Theorem priority_in_range (s : kernel) (p : Z) (t : thread) (Ht : threads s !! p = Some t)
    (Hm : magic t = THREAD_MAGIC) (Hidle : idle_thread s ≠ Some p)
    (Hnice : -20 ≤ nice t ≤ 20) (Hcpu : in_range (recent_cpu t)) :
  ∃ x, thread_priority_update p s =
      Ret (tt, set_threads (<[p:=set_prior_don x (set_base_priority x t)]> (threads s)) s) ∧
    0 ≤ x ≤ 63 ∧
    x = 0 `max` (63 `min` (63 - fixed_round_to_closest_int (fixed_int_div (recent_cpu t) 4) - nice t * 2)).
Proof.
  unfold thread_priority_update, is_thread. krun (get_thread_run _ _ _ Ht).
  rewrite (bool_decide_true (magic t = _)) by done. ksteps. krun eq_refl.
  rewrite decide_False by done. krun (get_thread_run _ _ _ Ht).
  rewrite (upd_thread_run _ _ _ _ Ht). eexists. split; [reflexivity|].
  set (r := fixed_round_to_closest_int _).
  assert (-40000 ≤ r ≤ 40000) as Hr.
  { subst r. unfold fixed_round_to_closest_int, fixed_int_div, in_range in *.
    change (Z.shiftl 1 (FRACTION_BITS - 1)) with 8192. rewrite ONE_eq.
    assert (-536870912 ≤ Z.quot (recent_cpu t) 4 ≤ 536870912) as Hq by mlia.
    rewrite (s32_small (Z.quot _ _)) by lia. rewrite s32_small by (case_decide; lia). case_decide; mlia. }
  unfold PRI_MAX, PRI_MIN. rewrite !(s32_small (63 - r)), !(s32_small (nice t * 2)), !s32_small by lia.
  repeat case_decide; lia.
Qed.
