(* ===== verification/SleepLaws.v ===== *)
(** The queue of sleeping threads of Project2: it is in the order of the wake-up
    times, and a tick wakes the threads whose time has come. *)
From S2P Require Import Prelude FixedPoint Kernel KernelLaws Sched SchedLaws.
From Stdlib Require Import Sorted.
Local Open Scope Z_scope.

(** When the thread at [p] is to be woken. *)
Definition wake_at (s : kernel) (p : Z) : Z := from_option ticks_left_to_sleep 0 (threads s !! p).

(** The queue is in the order of the wake-up times, its threads are blocked and
    in it once. *)
Record sleep_queue (s : kernel) : Prop := {
  sq_sorted : StronglySorted (λ p q, wake_at s p ≤ wake_at s q) (sleepers s);
  sq_nodup : NoDup (sleepers s);
  sq_blocked p : p ∈ sleepers s → idle_thread s ≠ Some p ∧
    ∃ t, threads s !! p = Some t ∧ magic t = THREAD_MAGIC ∧ status t = THREAD_BLOCKED;
}.

Lemma wake_at_eq s p t : threads s !! p = Some t → wake_at s p = ticks_left_to_sleep t.
Proof. unfold wake_at. by intros ->. Qed.

Lemma off_id s : intr_on s = false → set_intr_on false s = s.
Proof. destruct s. simpl. by intros ->. Qed.

Lemma timer_ticks_run s : intr_on s = false → timer_ticks s = Ret (ticks s, s).
Proof.
  intros Hoff. unfold timer_ticks. ksteps. rewrite Hoff, off_id by done.
  change (intr_set_level false) with intr_disable. ksteps. by rewrite off_id.
Qed.

Lemma is_thread_run s p t : threads s !! p = Some t → magic t = THREAD_MAGIC →
  is_thread (Some p) s = Ret (true, s).
Proof.
  intros Ht Hm. unfold is_thread. krun (get_thread_run _ _ _ Ht). by rewrite bool_decide_true.
Qed.

(** The queue of a ready thread of priority [x]: the one queue, or with the advanced
    scheduler that of its priority, which has to be there. *)
Definition slot_of (x : Z) : nat := Z.to_nat (x - PRI_MIN).
Definition has_queue (s : kernel) (x : Z) : Prop :=
  thread_mlfqs s = true → 0 ≤ x - PRI_MIN < Z.of_nat (length (equiprior s)).
Definition enqueued (p x : Z) (s : kernel) : kernel :=
  if thread_mlfqs s then set_equiprior (alter (λ l, l ++ [p]) (slot_of x) (equiprior s)) s
  else set_ready_list (ready_list s ++ [p]) s.

Lemma push_ready_run s p t : threads s !! p = Some t → has_queue s (prior_don t) →
  push_ready p s = Ret (tt, enqueued p (prior_don t) s).
Proof.
  intros Ht Hq. unfold push_ready, enqueued, has_queue in *. ksteps. destruct (thread_mlfqs s); [|done]. specialize (Hq eq_refl).
  krun (get_thread_run _ _ _ Ht). ksteps.
  destruct (lookup_lt_is_Some_2 (equiprior s) (slot_of (prior_don t))) as [l Hl]; [unfold slot_of; lia|].
  rewrite nthZ_lookup by lia. fold (slot_of (prior_don t)). rewrite Hl. cbn [or_fault]. ksteps.
  rewrite setZ_run by lia. cbn [or_fault]. ksteps. fold (slot_of (prior_don t)). unfold modify. do 3 f_equal.
  apply list_eq. intros i. destruct (decide (i = slot_of (prior_don t))) as [->|Hne].
  - rewrite list_lookup_insert_eq by (by eapply lookup_lt_Some). by rewrite list_lookup_alter_eq, Hl.
  - by rewrite list_lookup_insert_ne, list_lookup_alter_ne by done.
Qed.

(** [thread_unblock] with interrupts off. *)
Lemma unblock_run s p t :
  intr_on s = false → has_queue s (prior_don t) → threads s !! p = Some t → magic t = THREAD_MAGIC →
  status t = THREAD_BLOCKED → idle_thread s ≠ Some p →
  thread_unblock p s = Ret (tt, set_threads (<[p:=set_status THREAD_READY t]> (threads s)) (enqueued p (prior_don t) s)).
Proof.
  intros Hoff Hm Ht Hmag Hst Hidle. unfold thread_unblock. krun (is_thread_run _ _ _ Ht Hmag).
  krun eq_refl. rewrite Hoff, (off_id s) by done. krun (get_thread_run _ _ _ Ht).
  rewrite bool_decide_true by done. krun eq_refl. rewrite decide_True by done.
  krun (push_ready_run _ _ _ Ht Hm).
  assert (threads (enqueued p (prior_don t) s) = threads s ∧ intr_on (enqueued p (prior_don t) s) = false) as [E1 E2]
    by (unfold enqueued; by case_match).
  krun (upd_thread_run (enqueued p (prior_don t) s) p t (set_status THREAD_READY) ltac:(by rewrite E1)).
  unfold intr_set_level. ksteps. rewrite off_id, E1 by done. done.
Qed.

(** A thread that has been woken at [now]. *)
Definition woken (now : Z) (t : thread) : thread :=
  set_status THREAD_READY (set_ticks_left_to_sleep now t).

(** The queues after the threads [due] have become ready: they are at the end of the one
    queue; or each at the end of the queue of its priority. *)
Definition queued (due : list Z) (s : kernel) (ready : list Z) (equi : list (list Z)) : Prop :=
  if thread_mlfqs s then
    ready = ready_list s ∧
    ∀ i, equi !! i = (λ l, l ++ filter (λ p, slot_of (prio s p) = i) due) <$> equiprior s !! i
  else ready = ready_list s ++ due ∧ equi = equiprior s.

(** The kernel after the threads [due] have been woken, and [rest] sleep on. *)
Definition roused (due rest : list Z) (s s' : kernel) : Prop :=
  ∃ m r e, s' = set_sleepers rest (set_equiprior e (set_ready_list r (set_threads m s))) ∧ queued due s r e ∧
    ∀ q, m !! q = (if decide (q ∈ due) then woken (ticks s) else id) <$> threads s !! q.

(** The first thread of the queue is woken. *)
Definition rouse (p : Z) (l : list Z) (t : thread) (s : kernel) : kernel :=
  set_sleepers l (set_threads (<[p:=woken (ticks s) t]> (threads s)) (enqueued p (prior_don t) s)).

Lemma wake_loop_due s p l t :
  sleepers s = p :: l → p ∉ l → intr_on s = false → has_queue s (prior_don t) →
  threads s !! p = Some t → magic t = THREAD_MAGIC → status t = THREAD_BLOCKED →
  idle_thread s ≠ Some p → ticks_left_to_sleep t ≤ ticks s →
  wake_loop (p :: l) s = wake_loop l (rouse p l t s).
Proof.
  intros Hl Hp Hoff Hm Ht Hmag Hst Hidle Hdue. simpl.
  krun (get_thread_run _ _ _ Ht). krun (timer_ticks_run _ Hoff). rewrite decide_True by done.
  krun (timer_ticks_run _ Hoff). krun (upd_thread_run _ _ _ _ Ht).
  set (s1 := set_sleepers l (set_threads (<[p:=set_ticks_left_to_sleep (ticks s) t]> (threads s)) s)).
  rewrite off_id by done. simpl. rewrite Hl, filter_ne_head by done. fold s1.
  assert (threads s1 !! p = Some (set_ticks_left_to_sleep (ticks s) t)) as Ht1
    by (simpl; by rewrite lookup_insert_eq).
  krun (unblock_run s1 p (set_ticks_left_to_sleep (ticks s) t) Hoff Hm Ht1 Hmag Hst Hidle). rewrite Hoff.
  change (intr_set_level false) with intr_disable. ksteps. f_equal.
  assert (∀ m, set_intr_on false (set_threads m (enqueued p (prior_don t) s1)) = set_threads m (enqueued p (prior_don t) s1)) as Hi.
  { intros m. apply off_id. unfold enqueued. by case_match. }
  unfold rouse. etransitivity; [apply Hi|]. unfold enqueued. subst s1. simpl. rewrite insert_insert_eq. by destruct (thread_mlfqs s).
Qed.

Lemma sorted_ext s s' l :
  (∀ q, q ∈ l → wake_at s' q = wake_at s q) →
  StronglySorted (λ p q, wake_at s p ≤ wake_at s q) l →
  StronglySorted (λ p q, wake_at s' p ≤ wake_at s' q) l.
Proof.
  intros Hw Hs. induction Hs as [|x l Hs IH Hx]; constructor.
  - apply IH. set_solver.
  - rewrite Forall_forall in *. intros q Hq. rewrite !Hw by set_solver. by apply Hx.
Qed.

Lemma queued_none s : queued [] s (ready_list s) (equiprior s).
Proof.
  unfold queued. destruct (thread_mlfqs s); [|by rewrite app_nil_r]. split; [done|]. intros i.
  destruct (equiprior s !! i) as [l|]; [|done]. cbn. by rewrite app_nil_r.
Qed.

Lemma roused_none s l : sleepers s = l → roused [] l s s.
Proof.
  intros Hl. exists (threads s), (ready_list s), (equiprior s). split; [destruct s; simpl in *; by subst|].
  split; [apply queued_none|]. intros q. rewrite decide_False by apply not_elem_of_nil. symmetry. by apply option_fmap_id.
Qed.

Lemma rouse_prio s p l t q : threads s !! p = Some t → prio (rouse p l t s) q = prio s q.
Proof.
  intros Ht. unfold prio, rouse. cbn [threads set_sleepers set_threads]. destruct (decide (q = p)) as [->|Hne].
  - by rewrite lookup_insert_eq, Ht.
  - by rewrite lookup_insert_ne.
Qed.

(** What [rouse] makes of the parts of the kernel. *)
Lemma rouse_parts s p l t :
  thread_mlfqs (rouse p l t s) = thread_mlfqs s ∧ ticks (rouse p l t s) = ticks s ∧ intr_on (rouse p l t s) = intr_on s ∧
  idle_thread (rouse p l t s) = idle_thread s ∧ length (equiprior (rouse p l t s)) = length (equiprior s).
Proof. unfold rouse, enqueued. destruct (thread_mlfqs s) eqn:E; cbn; by rewrite ?length_alter. Qed.

Lemma rouse_queues s p l t :
  equiprior (rouse p l t s) = (if thread_mlfqs s then alter (λ l, l ++ [p]) (slot_of (prior_don t)) (equiprior s) else equiprior s) ∧
  ready_list (rouse p l t s) = (if thread_mlfqs s then ready_list s else ready_list s ++ [p]).
Proof. unfold rouse, enqueued. by destruct (thread_mlfqs s). Qed.

Lemma queued_first s p l t due r e : threads s !! p = Some t → queued due (rouse p l t s) r e → queued (p :: due) s r e.
Proof.
  intros Ht. assert (prio s p = prior_don t) as Ep by (unfold prio; by rewrite Ht).
  destruct (rouse_queues s p l t) as [E1 E2]. unfold queued. rewrite (proj1 (rouse_parts s p l t)), E1, E2.
  assert (∀ i, filter (λ q, slot_of (prio (rouse p l t s) q) = i) due = filter (λ q, slot_of (prio s q) = i) due) as Ef.
  { intros i. apply list_filter_iff. intros q. by rewrite rouse_prio. }
  destruct (thread_mlfqs s).
  - intros [-> He]. split; [done|]. intros i. rewrite He, Ef. destruct (decide (slot_of (prior_don t) = i)) as [<-|Hne].
    + rewrite list_lookup_alter_eq. destruct (equiprior s !! slot_of (prior_don t)) as [k|]; [|done]. cbn [fmap option_fmap option_map].
      rewrite filter_cons_True by (by rewrite Ep). by rewrite <-app_assoc.
    + rewrite list_lookup_alter_ne by done. by rewrite filter_cons_False by (by rewrite Ep).
  - intros [-> ->]. by rewrite <-app_assoc.
Qed.

Lemma roused_first s p l t due rest s' :
  threads s !! p = Some t → p ∉ due → roused due rest (rouse p l t s) s' → roused (p :: due) rest s s'.
Proof.
  intros Ht Hp (m & r & e & -> & Hq & Hm). exists m, r, e. split; [unfold rouse, enqueued; by destruct (thread_mlfqs s)|].
  split; [by eapply queued_first|].
  intros q. rewrite Hm, (proj1 (proj2 (rouse_parts s p l t))). change (threads (rouse p l t s)) with (<[p:=woken (ticks s) t]> (threads s)).
  destruct (decide (q = p)) as [->|Hne].
  - rewrite lookup_insert_eq, Ht, decide_False, decide_True by set_solver. done.
  - rewrite lookup_insert_ne by done. destruct (decide (q ∈ due)).
    + by rewrite decide_True by set_solver.
    + by rewrite decide_False by set_solver.
Qed.

Lemma wake_loop_run l : ∀ s,
  sleepers s = l → sleep_queue s → intr_on s = false → Forall (λ p, has_queue s (prio s p)) l →
  ∃ due rest s', l = due ++ rest ∧ Forall (λ p, wake_at s p ≤ ticks s) due ∧
    Forall (λ p, ticks s < wake_at s p) rest ∧
    wake_loop l s = Ret (tt, s') ∧ roused due rest s s'.
Proof.
  induction l as [|p l IH]; intros s Hl Hq Hoff Hm.
  - exists [], [], s. split_and!; [done..|]. by apply roused_none.
  - destruct (sq_blocked _ Hq p) as (Hidle & t & Ht & Hmag & Hst); [rewrite Hl; set_solver|].
    pose proof (wake_at_eq _ _ _ Ht) as Hw. pose proof (sq_sorted _ Hq) as Hsort.
    pose proof (sq_nodup _ Hq) as Hnd. rewrite Hl in Hsort, Hnd.
    apply StronglySorted_inv in Hsort as [Hsort Hmin]. apply NoDup_cons in Hnd as [Hp Hnd].
    apply Forall_cons in Hm as [Hmp Hm]. assert (has_queue s (prior_don t)) as Hqt.
    { unfold prio in Hmp. by rewrite Ht in Hmp. }
    destruct (decide (ticks_left_to_sleep t ≤ ticks s)) as [Hdue|Hnot].
    + rewrite (wake_loop_due s p l t) by done. destruct (rouse_parts s p l t) as (E1 & E2 & E3 & E4 & E5). set (s1 := rouse p l t s) in *.
      assert (∀ q, q ∈ l → threads s1 !! q = threads s !! q) as Hsame.
      { intros q Hq'. simpl. rewrite lookup_insert_ne; [done|]. by intros ->. }
      assert (∀ q, q ∈ l → wake_at s1 q = wake_at s q) as Hwake
        by (intros q Hq'; unfold wake_at; by rewrite Hsame).
      destruct (IH s1) as (due & rest & s' & El & Hd & Hr & Hrun & Hs'); [done| |congruence| |].
      { split; [by eapply sorted_ext|done|].
        intros q Hq'. rewrite Hsame, E4 by done. apply (sq_blocked _ Hq). rewrite Hl. set_solver. }
      { eapply Forall_impl; [exact Hm|]. intros q Hq'. unfold has_queue in *. rewrite E1, E5. unfold s1. by rewrite rouse_prio. }
      rewrite E2 in Hd, Hr.
      exists (p :: due), rest, s'. split_and!; [by rewrite El| | |exact Hrun|apply (roused_first s p l t); [done|set_solver|done]].
      * constructor; [lia|]. rewrite Forall_forall in *. intros q Hq'.
        rewrite <-Hwake by set_solver. by apply Hd.
      * rewrite Forall_forall in *. intros q Hq'. rewrite <-Hwake by set_solver. by apply Hr.
    + exists [], (p :: l), s. split_and!; [done|done| | |by apply roused_none].
      * constructor; [lia|]. eapply Forall_impl; [done|]. simpl. lia.
      * simpl. krun (get_thread_run _ _ _ Ht). krun (timer_ticks_run _ Hoff). by rewrite decide_False.
Qed.

(** ** Falling asleep *)
Lemma insert_sleeper_run s p w l :
  Forall (λ q, ∃ t, threads s !! q = Some t) l → StronglySorted (λ p q, wake_at s p ≤ wake_at s q) l →
  ∃ l1 l2, insert_sleeper p w l s = Ret (l1 ++ p :: l2, s) ∧ l = l1 ++ l2 ∧
    Forall (λ q, wake_at s q ≤ w) l1 ∧ Forall (λ q, w < wake_at s q) l2.
Proof.
  induction l as [|e l IH]; intros Hl Hs; [by exists [], []|]. simpl.
  apply StronglySorted_inv in Hs as [Hs Hmin]. inversion Hl as [|? ? (te & He) Hl']; subst.
  pose proof (wake_at_eq _ _ _ He). krun (get_thread_run _ _ _ He). case_decide.
  - exists [], (e :: l). split_and!; [done..|]. constructor; [lia|].
    eapply Forall_impl; [exact Hmin|]. simpl. lia.
  - destruct (IH Hl' Hs) as (l1 & l2 & Hrun & -> & H1 & H2). exists (e :: l1), l2.
    krun Hrun. split_and!; [done..| |done]. constructor; [lia|done].
Qed.

Lemma running_sleepy s c t x :
  running s c → threads s !! c = Some t →
  running (set_threads (<[c:=set_ticks_left_to_sleep x t]> (threads s)) s) c.
Proof.
  intros [Hoff Hctx Hcur (t' & Ht' & Hmag & Hst) Hidle Hready] Ht.
  assert (t' = t) as -> by congruence. split; [done..| |done|].
  - eexists. split; [apply lookup_insert_eq|done].
  - intros q Hq. destruct (Hready q Hq) as (Hne & Hi & Hex). split_and!; [done..|]. simpl.
    by rewrite lookup_insert_ne.
Qed.

Lemma running_awake s c : running s c → sleep_queue s → c ∉ sleepers s.
Proof.
  intros Hr Hq Hin. destruct (ru_thread _ _ Hr) as (t & Ht & _ & Hst).
  destruct (sq_blocked _ Hq _ Hin) as (_ & t' & Ht' & _ & Hst').
  assert (t' = t) as -> by congruence. congruence.
Qed.

(** a thread that goes to sleep for [n] ticks is put into the queue behind
    those that are to be woken at the same time or before, and in front of the
    others: the queue stays in order. *)
Theorem falls_asleep_in_order (s : kernel) (c : Z) (t : thread) (n : Z)
    (Hr : running s c) (Hq : sleep_queue s) (Ht : threads s !! c = Some t) :
  ∃ l1 l2, sleepers s = l1 ++ l2 ∧
    fall_asleep n s = Ret (false, set_sleepers (l1 ++ c :: l2)
      (set_threads (<[c:=set_ticks_left_to_sleep (n + ticks s) t]> (threads s)) s)) ∧
    Forall (λ q, wake_at s q ≤ n + ticks s) l1 ∧ Forall (λ q, n + ticks s < wake_at s q) l2.
Proof.
  pose proof (ru_off _ _ Hr) as Hoff.
  set (s1 := set_threads (<[c:=set_ticks_left_to_sleep (n + ticks s) t]> (threads s)) s).
  assert (running s1 c) as Hr1 by by apply running_sleepy.
  assert (∀ q, q ∈ sleepers s → threads s1 !! q = threads s !! q) as Hsame.
  { intros q Hq'. simpl. rewrite lookup_insert_ne; [done|]. intros <-.
    by apply (running_awake s c). }
  assert (∀ q, q ∈ sleepers s → wake_at s1 q = wake_at s q) as Hwake
    by (intros q Hq'; unfold wake_at; by rewrite Hsame).
  destruct (insert_sleeper_run s1 c (n + ticks s) (sleepers s)) as (l1 & l2 & Hrun & E & H1 & H2).
  { apply Forall_forall. intros q Hq'. rewrite Hsame by done.
    destruct (sq_blocked _ Hq _ Hq') as (_ & t' & Ht' & _). eauto. }
  { eapply sorted_ext; [done|apply (sq_sorted _ Hq)]. }
  exists l1, l2. split_and!; [done| |..].
  - unfold fall_asleep. ksteps. rewrite Hoff, off_id by done.
    krun (thread_current_run _ _ Hr). krun (timer_ticks_run _ Hoff). krun (upd_thread_run _ _ _ _ Ht).
    fold s1. krun (thread_current_run _ _ Hr1). by krun Hrun.
  - rewrite Forall_forall in H1 |- *. intros q Hq'. rewrite <-Hwake; [by apply H1|].
    rewrite E. apply elem_of_app. by left.
  - rewrite Forall_forall in H2 |- *. intros q Hq'. rewrite <-Hwake; [by apply H2|].
    rewrite E. apply elem_of_app. by right.
Qed.

(** C11: A tick of the timer, with either scheduler, wakes exactly the sleeping threads whose time has come, in the order
    of their times; the others sleep on, and no thread is woken before its time.  Each thread that is woken is ready: with
    the priority scheduler at the end of the queue, with the advanced one at the end of the queue of its own priority,
    which has to be one of the priorities that have a queue. *)
Theorem tick_wakes_due (s : kernel) (Hq : sleep_queue s) (Hoff : intr_on s = false)
    (Hctx : in_external_intr s = true) (Hm : Forall (λ p, has_queue s (prio s p)) (sleepers s)) :
  ∃ due rest s', sleepers s = due ++ rest ∧ Forall (λ p, wake_at s p ≤ ticks s) due ∧
    Forall (λ p, ticks s < wake_at s p) rest ∧ roused due rest s s' ∧
    handle_tick_for_sleep_queue s =
      Ret (tt, if decide (sleepers s = []) then s' else set_yield_on_return true s').
Proof.
  destruct (wake_loop_run (sleepers s) s) as (due & rest & s' & E & Hd & Hr & Hrun & Hs'); [done..|].
  exists due, rest, s'. split_and!; [done..|]. unfold handle_tick_for_sleep_queue. ksteps.
  destruct (sleepers s) as [|p l] eqn:El.
  - simpl in Hrun. rewrite decide_True by done. by injection Hrun as <-.
  - rewrite decide_False by done. krun Hrun. unfold intr_yield_on_return. ksteps.
    destruct Hs' as (m & r & e & -> & _). simpl. rewrite Hctx. done.
Qed.
