(* ===== verification/Donation.v ===== *)
(** Priority donation along a chain of threads that wait for each other's locks.
    Taking donations back: [thread_update_donations], and what it does when a lock
    has no waiters. *)
From S2P Require Import Prelude FixedPoint Kernel KernelLaws Sched SchedLaws SleepLaws.
Local Open Scope Z_scope.

(** [q] waits for a lock that [h] holds. *)
Definition waits (s : kernel) (q h : Z) : Prop :=
  ∃ t l, threads s !! q = Some t ∧ locked_on t = Some l ∧ holders s !! l = Some (Some h).

(** The threads are threads, and each one that waits for a lock waits for
    another thread. *)
Record settled (s : kernel) : Prop := {
  se_magic q t : threads s !! q = Some t → magic t = THREAD_MAGIC;
  se_holder q t l : threads s !! q = Some t → locked_on t = Some l →
    ∃ h th, holders s !! l = Some (Some h) ∧ threads s !! h = Some th;
}.

(** A thread that is waited for has at least the priority of the waiting thread. *)
Definition donated (s : kernel) : Prop :=
  ∀ q h t th, waits s q h → threads s !! q = Some t → threads s !! h = Some th →
    prior_don t ≤ prior_don th.

(** The same, except that those who wait for [x] only have at most [pr]. *)
Definition donated_but (x pr : Z) (s : kernel) : Prop :=
  ∀ q h t th, waits s q h → threads s !! q = Some t → threads s !! h = Some th →
    prior_don t ≤ prior_don th ∨ h = x ∧ prior_don t ≤ pr.

(** The states differ only in the priorities of threads. *)
Definition only_prior (s s' : kernel) : Prop :=
  ∃ m, s' = set_threads m s ∧ set_prior_don 0 <$> m = set_prior_don 0 <$> threads s.

(** Each thread of [s] has its priority in [s'], or the higher [pr]. *)
Definition raised (pr : Z) (s s' : kernel) : Prop :=
  ∀ q t, threads s !! q = Some t → ∃ t', threads s' !! q = Some t' ∧
    (prior_don t' = prior_don t ∨ prior_don t < prior_don t' ∧ prior_don t' = pr).

Lemma only_prior_refl s : only_prior s s.
Proof. exists (threads s). by rewrite set_threads_id. Qed.
Lemma only_prior_trans s1 s2 s3 : only_prior s1 s2 → only_prior s2 s3 → only_prior s1 s3.
Proof. intros (m & -> & Hm) (m' & -> & Hm'). exists m'. split; [done|]. by rewrite Hm', <-Hm. Qed.
Lemma only_prior_upd s p t x :
  threads s !! p = Some t → only_prior s (set_threads (<[p:=set_prior_don x t]> (threads s)) s).
Proof.
  intros Ht. eexists. split; [done|]. rewrite fmap_insert. apply insert_id.
  by rewrite lookup_fmap, Ht.
Qed.

Lemma only_prior_lookup s s' q t' :
  only_prior s s' → threads s' !! q = Some t' →
  ∃ t, threads s !! q = Some t ∧ set_prior_don 0 t' = set_prior_don 0 t.
Proof.
  intros (m & -> & Hm) Ht. apply (f_equal (.!! q)) in Hm. rewrite !lookup_fmap in Hm.
  change (m !! q = Some t') in Ht. rewrite Ht in Hm. simpl in Hm.
  destruct (threads s !! q) as [t|]; [|done]. exists t. split; [done|]. by apply (inj Some).
Qed.
Lemma only_prior_holders s s' : only_prior s s' → holders s' = holders s.
Proof. by intros (m & -> & _). Qed.

Lemma only_prior_waits s s' q h : only_prior s s' → waits s' q h → waits s q h.
Proof.
  intros Hs (t' & l & Ht & Hl & Hh). destruct (only_prior_lookup _ _ _ _ Hs Ht) as (t & Ht' & E).
  exists t, l. split_and!; [done| |by rewrite <-(only_prior_holders _ _ Hs)].
  apply (f_equal locked_on) in E. simpl in E. by rewrite <-E.
Qed.

Lemma only_prior_sym s s' : only_prior s s' → only_prior s' s.
Proof.
  intros (m & -> & Hm). exists (threads s). split; [|done]. rewrite set_threads_twice.
  by rewrite set_threads_id.
Qed.

Lemma only_prior_settled s s' : only_prior s s' → settled s → settled s'.
Proof.
  intros Hs [Hm Hh]. split.
  - intros q t' Ht'. destruct (only_prior_lookup _ _ _ _ Hs Ht') as (t & Ht & E).
    apply (f_equal magic) in E. simpl in E. rewrite E. eauto.
  - intros q t' l Ht' Hl. destruct (only_prior_lookup _ _ _ _ Hs Ht') as (t & Ht & E).
    apply (f_equal locked_on) in E. simpl in E. rewrite E in Hl.
    destruct (Hh _ _ _ Ht Hl) as (h & th & Hhl & Hth). exists h.
    destruct (only_prior_lookup _ _ _ _ (only_prior_sym _ _ Hs) Hth) as (th' & Hth' & _).
    exists th'. by rewrite (only_prior_holders _ _ Hs).
Qed.

(** ** The chain *)

(** How many threads are below [pr]. *)
Definition below (pr : Z) (m : gmap Z thread) : nat :=
  size (filter (λ x, prior_don x.2 < pr) m).

Lemma below_raise pr m p t :
  m !! p = Some t → prior_don t < pr → S (below pr (<[p:=set_prior_don pr t]> m)) = below pr m.
Proof.
  intros Ht Hlt. unfold below. rewrite map_filter_insert_False by (simpl; lia).
  rewrite map_filter_delete, map_size_delete_Some.
  - apply Nat.succ_pred. apply not_eq_sym, Nat.lt_neq, Nat.neq_0_lt_0.
    intros E%map_size_empty_inv. apply (f_equal (.!! p)) in E. rewrite lookup_empty in E.
    by rewrite (proj2 (map_lookup_filter_Some _ _ p t)) in E.
  - exists t. by apply map_lookup_filter_Some.
Qed.

Lemma below_size pr m : (below pr m ≤ size m)%nat.
Proof. apply map_size_filter. Qed.

Lemma raised_refl pr s : raised pr s s.
Proof. intros q t Ht. eauto. Qed.

Lemma raised_step pr s p t s' :
  threads s !! p = Some t → prior_don t < pr →
  raised pr (set_threads (<[p:=set_prior_don pr t]> (threads s)) s) s' → raised pr s s'.
Proof.
  intros Ht Hlt Hr q tq Hq. destruct (decide (q = p)) as [->|Hne].
  - assert (tq = t) as -> by congruence. destruct (Hr p (set_prior_don pr t)) as (t' & Ht' & E).
    { simpl. by rewrite lookup_insert_eq. }
    exists t'. split; [done|]. right. simpl in E. lia.
  - apply Hr. simpl. by rewrite lookup_insert_ne.
Qed.

Lemma donated_upd s p t pr h l :
  threads s !! p = Some t → prior_don t < pr → locked_on t = Some l → holders s !! l = Some (Some h) →
  donated_but p pr s → donated_but h pr (set_threads (<[p:=set_prior_don pr t]> (threads s)) s).
Proof.
  intros Ht Hlt Hl Hh Hd q h' tq th' (t0 & l0 & Ht0 & Hl0 & Hh0) Hq Hth'. simpl in *.
  assert (t0 = tq) as -> by congruence. clear Hq. destruct (decide (q = p)) as [->|Hq'].
  - rewrite lookup_insert_eq in Ht0. simplify_eq. simpl in *. simplify_eq. right. split; [done|lia].
  - rewrite lookup_insert_ne in Ht0 by done.
    destruct (decide (h' = p)) as [->|Hh'].
    + rewrite lookup_insert_eq in Hth'. simplify_eq. left. simpl.
      destruct (Hd q p tq t) as [?|[_ ?]]; [by exists tq, l0|done..|lia|done].
    + rewrite lookup_insert_ne in Hth' by done. left.
      by destruct (Hd q h' tq th') as [?|[-> _]]; [exists tq, l0|done..].
Qed.

Lemma donated_end s p t pr :
  threads s !! p = Some t → prior_don t < pr → locked_on t = None →
  donated_but p pr s → donated (set_threads (<[p:=set_prior_don pr t]> (threads s)) s).
Proof.
  intros Ht Hlt Hl Hd q h' tq th' (t0 & l0 & Ht0 & Hl0 & Hh0) Hq Hth'. simpl in *.
  assert (t0 = tq) as -> by congruence. clear Hq. destruct (decide (q = p)) as [->|Hq'].
  - rewrite lookup_insert_eq in Ht0. simplify_eq. simpl in *. congruence.
  - rewrite lookup_insert_ne in Ht0 by done.
    destruct (decide (h' = p)) as [->|Hh'].
    + rewrite lookup_insert_eq in Hth'. simplify_eq. simpl.
      destruct (Hd q p tq t) as [?|[_ ?]]; [by exists tq, l0|done..|lia|done].
    + rewrite lookup_insert_ne in Hth' by done.
      by destruct (Hd q h' tq th') as [?|[-> _]]; [exists tq, l0|done..].
Qed.

Lemma donated_already s p t pr :
  threads s !! p = Some t → pr ≤ prior_don t → donated_but p pr s → donated s.
Proof.
  intros Ht Hge Hd q h tq th Hw Hq Hh.
  destruct (Hd _ _ _ _ Hw Hq Hh) as [?|[-> ?]]; [done|]. simplify_eq. lia.
Qed.

Lemma donate_run fuel : ∀ s p t pr,
  settled s → intr_on s = false → threads s !! p = Some t → donated_but p pr s →
  (below pr (threads s) < fuel)%nat →
  ∃ s', thread_donate fuel (Some p) pr s = Ret (tt, s') ∧ only_prior s s' ∧ donated s' ∧
    raised pr s s' ∧ ∃ t', threads s' !! p = Some t' ∧ pr ≤ prior_don t'.
Proof.
  induction fuel as [|fuel IH]; intros s p t pr Hs Hoff Ht Hd Hf; [lia|]. simpl.
  krun (assert_intr_off_run _ Hoff). krun eq_refl.
  krun (get_thread_run _ _ _ Ht). rewrite bool_decide_true by (by apply (se_magic _ Hs p)).
  krun (get_thread_run _ _ _ Ht). case_decide as Hlt.
  - krun (upd_thread_run _ _ _ _ Ht).
    set (s1 := set_threads _ s). assert (only_prior s s1) as Ho by by apply only_prior_upd.
    assert (threads s1 !! p = Some (set_prior_don pr t)) as Ht1 by (simpl; by rewrite lookup_insert_eq).
    destruct (locked_on t) as [l|] eqn:El.
    + destruct (se_holder _ Hs _ _ _ Ht El) as (h & th & Hh & Hth).
      rewrite (bind_run _ _ _ (Some h) s1) by (by apply get_holder_run).
      destruct (only_prior_lookup _ _ h th (only_prior_sym _ _ Ho) Hth) as (th1 & Hth1 & _).
      destruct (IH s1 h th1 pr) as (s' & Hrun & Ho' & Hd' & Hr & _);
        [by apply (only_prior_settled s)|done|done|by apply (donated_upd s p t pr h l)| |].
      { pose proof (below_raise pr _ _ _ Ht Hlt). simpl. lia. }
      exists s'. split_and!; [done|by apply (only_prior_trans s s1)|done|by apply (raised_step pr s p t)|].
      destruct (Hr p _ Ht1) as (t' & Ht' & E). exists t'. split; [done|]. simpl in E. lia.
    + exists s1. split_and!; [done|done|by apply donated_end| |].
      * apply (raised_step pr s p t); [done..|apply raised_refl].
      * exists (set_prior_don pr t). split; [done|]. simpl. lia.
  - exists s. split_and!; [done|apply only_prior_refl|by apply (donated_already s p t pr); [|lia|]|apply raised_refl|].
    exists t. split; [done|lia].
Qed.

(** Along a chain of waiting threads priorities do not fall. *)
Lemma donated_chain s p h t :
  settled s → donated s → rtc (waits s) p h → threads s !! p = Some t →
  ∃ th, threads s !! h = Some th ∧ prior_don t ≤ prior_don th.
Proof.
  intros Hs Hd Hpath. revert t. induction Hpath as [|p q h Hw _ IH]; intros t Ht; [eauto with lia|].
  pose proof Hw as (t0 & l & Ht0 & Hl & Hh). assert (t0 = t) as -> by congruence.
  destruct (se_holder _ Hs _ _ _ Ht0 Hl) as (q' & tq & Hq & Htq).
  assert (q' = q) as -> by congruence.
  destruct (IH _ Htq) as (th & Hth & Hle). exists th. split; [done|].
  pose proof (Hd _ _ _ _ Hw Ht0 Htq). lia.
Qed.


(** ** Taking donations back *)

(** The threads that wait for one of the locks. *)
Definition waiting (s : kernel) (locks : list Z) : list Z :=
  locks ≫= λ l, from_option waiters [] (semas s !! l).

(** The highest priority among [b] and the threads of a list. *)
Definition highest (s : kernel) (b : Z) (ps : list Z) : Z := foldr (λ p m, prio s p `max` m) b ps.

Lemma highest_ge s b ps : b ≤ highest s b ps.
Proof. induction ps; simpl; lia. Qed.
Lemma highest_app s b ps qs : highest s b (ps ++ qs) = highest s (highest s b qs) ps.
Proof. unfold highest. by rewrite foldr_app. Qed.
Lemma highest_max s b ps r :
  r ∈ ps → (∀ q, q ∈ ps → prio s q ≤ prio s r) → highest s b ps = b `max` prio s r.
Proof.
  intros Hr Hmax. apply Z.le_antisymm.
  - clear Hr. induction ps as [|p ps IH]; simpl; [lia|].
    assert (prio s p ≤ prio s r) by (apply Hmax; set_solver).
    assert (highest s b ps ≤ b `max` prio s r) by (apply IH; set_solver). lia.
  - pose proof (highest_ge s b ps). induction ps as [|p ps IH]; [by apply elem_of_nil in Hr|]. simpl in *.
    pose proof (highest_ge s b ps). apply elem_of_cons in Hr as [->|Hr]; [lia|].
    assert (b `max` prio s r ≤ highest s b ps) by (apply IH; [done|set_solver|done]). lia.
Qed.
Lemma highest_ext s s' b ps : (∀ q, q ∈ ps → prio s' q = prio s q) → highest s' b ps = highest s b ps.
Proof.
  intros E. induction ps as [|p ps IH]; [done|]. simpl. rewrite E by set_solver.
  rewrite IH; [done|]. set_solver.
Qed.
Lemma highest_mono s b b' ps : highest s (b `max` b') ps = b `max` highest s b' ps.
Proof. induction ps as [|p ps IH]; simpl; lia. Qed.

(** The kernel with another priority of the thread at [p]. *)
Definition with_prio (p x : Z) (t : thread) (s : kernel) : kernel :=
  set_threads (<[p:=set_prior_don x t]> (threads s)) s.

Lemma with_prio_other p x t s q : q ≠ p → prio (with_prio p x t s) q = prio s q.
Proof. intros. unfold prio. simpl. by rewrite lookup_insert_ne. Qed.
Lemma with_prio_live p x t s q : q ≠ p → live s q → live (with_prio p x t s) q.
Proof. intros ? (tq & Hq & Hm). exists tq. simpl. by rewrite lookup_insert_ne. Qed.
Lemma with_prio_twice p x y t s :
  with_prio p x (set_prior_don y t) (with_prio p y t s) = with_prio p x t s.
Proof. unfold with_prio. simpl. by rewrite insert_insert_eq. Qed.
Lemma with_prio_id p t s : threads s !! p = Some t → with_prio p (prior_don t) t s = s.
Proof.
  intros Ht. unfold with_prio. rewrite insert_id; [apply set_threads_id|]. rewrite Ht. by destruct t.
Qed.

(** Every lock has waiters, which are threads other than [p]. *)
Definition contested (s : kernel) (p : Z) (locks : list Z) : Prop :=
  Forall (λ l, ∃ x, semas s !! l = Some x ∧ waiters x ≠ [] ∧ Forall (λ q, live s q ∧ q ≠ p) (waiters x)) locks.

Lemma max_entry_run s ps :
  ps ≠ [] → Forall (live s) ps → ∃ r, list_max_entry ps s = Ret (r, s) ∧ first_max s r ps.
Proof. destruct ps as [|m ps]; [done|]. intros _ H. inversion H; subst. by apply max_thread_run. Qed.

Lemma donations_run s p t locks : ∀ x,
  threads s !! p = Some t → contested s p locks →
  donations p locks (with_prio p x t s) = Ret (tt, with_prio p (highest s x (waiting s locks)) t s).
Proof.
  induction locks as [|l locks IH]; intros x Ht Hc; [done|].
  inversion Hc as [|? ? (y & Hy & Hne & Hw) Hc']; subst. cbn [donations].
  assert (Forall (live (with_prio p x t s)) (waiters y)) as Hl.
  { eapply Forall_impl; [exact Hw|]. intros q [??]. by apply with_prio_live. }
  assert (∀ q, q ∈ waiters y → prio (with_prio p x t s) q = prio s q) as Hpr.
  { intros q Hq. rewrite Forall_forall in Hw. apply with_prio_other. by apply Hw. }
  krun (get_sema_run (with_prio p x t s) l y Hy).
  destruct (max_entry_run _ _ Hne Hl) as (r & Hrun & Hr). krun Hrun.
  pose proof (first_max_elem _ _ _ Hr) as Hin. rewrite Forall_forall in Hl.
  destruct (Hl _ Hin) as (tr & Htr & _). krun (get_thread_run _ _ _ Htr).
  assert (threads (with_prio p x t s) !! p = Some (set_prior_don x t)) as Hp by apply lookup_insert_eq.
  krun (get_thread_run _ _ _ Hp).
  assert (highest s x (waiting s (l :: locks)) = highest s (x `max` prior_don tr) (waiting s locks)) as ->.
  { change (waiting s (l :: locks)) with (from_option waiters [] (semas s !! l) ++ waiting s locks).
    rewrite Hy. simpl. rewrite highest_app, (highest_max _ _ _ r), (Z.max_comm _ (prio s r)); [|done|].
    - rewrite (Z.max_comm x), highest_mono, <-(Hpr r) by done. by rewrite (prio_eq _ _ _ Htr).
    - intros q Hq. rewrite <-!Hpr by done. by eapply first_max_ge. }
  change (prior_don (set_prior_don x t)) with x. case_decide as Hgt.
  - krun (upd_thread_run _ _ _ (set_prior_don (prior_don tr)) Hp).
    replace (set_threads _ _) with (with_prio p (prior_don tr) t s) by (symmetry; apply (with_prio_twice p)).
    rewrite IH by done. by rewrite Z.max_r by lia.
  - ksteps. rewrite IH by done. by rewrite Z.max_l by lia.
Qed.

(** recomputing a thread's priority from its locks: when each lock it holds
    has waiters, and it waits for none itself, then its priority becomes the
    highest of its own and those of all threads waiting for its locks, and
    nothing else changes. *)
Theorem update_recomputes (s : kernel) (p : Z) (t : thread) (n : nat) (Hoff : intr_on s = false)
    (Ht : threads s !! p = Some t) (Hm : magic t = THREAD_MAGIC) (Hl : locked_on t = None)
    (Hc : contested s p (lock_list t)) :
  thread_update_donations (S n) (Some p) s =
    Ret (tt, with_prio p (highest s (base_priority t) (waiting s (lock_list t))) t s).
Proof.
  cbn [thread_update_donations]. krun (assert_intr_off_run _ Hoff). krun eq_refl.
  krun (is_thread_run _ _ _ Ht Hm). krun (get_thread_run _ _ _ Ht). krun (upd_thread_run _ _ _ _ Ht).
  krun (donations_run s p t (lock_list t) (base_priority t) Ht Hc).
  set (x := highest _ _ _).
  assert (threads (with_prio p x t s) !! p = Some (set_prior_don x t)) as Hp by apply lookup_insert_eq.
  krun (get_thread_run _ _ _ Hp). simpl. by rewrite Hl.
Qed.

Lemma update_faults s p t l locks x n :
  intr_on s = false → threads s !! p = Some t → magic t = THREAD_MAGIC → lock_list t = l :: locks →
  semas s !! l = Some x → waiters x = [] → thread_update_donations (S n) (Some p) s = Err Fault.
Proof.
  intros Hoff Ht Hm Hl Hx Hw. cbn [thread_update_donations].
  krun (assert_intr_off_run _ Hoff). krun eq_refl.
  krun (is_thread_run _ _ _ Ht Hm). krun (get_thread_run _ _ _ Ht). krun (upd_thread_run _ _ _ _ Ht).
  rewrite Hl. cbn [donations]. krun (get_sema_run (set_threads _ s) l x Hx). by rewrite Hw.
Qed.

(** a thread that holds a lock nobody waits for must not lower its priority:
    [thread_update_donations] takes the largest element of the empty list of
    waiters, which is the list's tail, for a thread. *)
Theorem lowering_priority_faults (s : kernel) (c : Z) (t : thread) (l : Z) (locks : list Z)
    (x : semaphore) (new : Z) (Hr : running s c) (Hm : thread_mlfqs s = false)
    (Ht : threads s !! c = Some t) (Hl : lock_list t = l :: locks) (Hx : semas s !! l = Some x)
    (Hw : waiters x = []) (Hnew : 0 ≤ new ≤ 63) (Hlow : new ≤ prior_don t) :
  thread_set_priority new s = Err Fault.
Proof.
  pose proof (ru_off _ _ Hr) as Hoff. destruct (ru_thread _ _ Hr) as (t' & Ht' & Hmag & _).
  assert (t' = t) as -> by congruence.
  unfold thread_set_priority, kbind, atomic.
  rewrite (bind_run _ _ s tt s) by (unfold assertM; by rewrite bool_decide_true by (unfold PRI_MIN, PRI_MAX; lia)).
  ksteps. rewrite off_id by done. krun (thread_current_run _ _ Hr). krun (upd_thread_run _ _ _ _ Ht).
  set (s1 := set_threads _ s). simpl. rewrite Hm.
  assert (threads s1 !! c = Some (set_base_priority new t)) as Ht1 by apply lookup_insert_eq.
  krun (get_thread_run _ _ _ Ht1). simpl. rewrite decide_False by lia. unfold chain_fuel. ksteps.
  unfold bind at 1. by rewrite (update_faults s1 c (set_base_priority new t) l locks x).
Qed.
