(* ===== verification/LockLaws.v ===== *)
(** Mutual exclusion: what the operations of the kernel may do to a lock. *)
From S2P Require Import Prelude FixedPoint Kernel KernelLaws Sched Synch Spawn.
Local Open Scope Z_scope.

(** The value of the lock's semaphore, and its holder. *)
Definition lock_view (l : Z) (s : kernel) : option Z * option (option Z) :=
  (value <$> semas s !! l, holders s !! l).

(** The lock at [l] is no semaphore that a condition variable uses, and no lock
    of a page that is still to be allocated. *)
Definition apart (l : Z) (s : kernel) : Prop :=
  (∀ p ws, conds s !! p = Some ws → l ∉ ws) ∧ (∀ p, Some p ∈ pages s → prior_lock_of p ≠ l).

(** The lock is free, or it has a holder. *)
Definition consistent (v : option Z * option (option Z)) : Prop :=
  v = (Some 1, Some None) ∨ ∃ h, v = (Some 0, Some (Some h)).

Section lock.
Context (l d : Z) (R : option Z * option (option Z) → Prop).

Definition lock_inv (s : kernel) : Prop := R (lock_view l s) ∧ apart l s.

Local Abbreviation keeps := (keeps d lock_inv).
Local Abbreviation kkeeps := (kkeeps d lock_inv).

(** ** The accesses *)
Lemma k_get_thread p : keeps (get_thread p).
Proof. apply keeps_reads. intros s a s'. unfold get_thread. by destruct (_ !! _); intros [= <- <-]. Qed.
Lemma k_get_sema p : keeps (get_sema p).
Proof. apply keeps_reads. intros s a s'. unfold get_sema. by destruct (_ !! _); intros [= <- <-]. Qed.
Lemma k_get_holder p : keeps (get_holder p).
Proof. apply keeps_reads. intros s a s'. unfold get_holder. by destruct (_ !! _); intros [= <- <-]. Qed.
Lemma k_get_cond p : keeps (get_cond p).
Proof. apply keeps_reads. intros s a s'. unfold get_cond. by destruct (_ !! _); intros [= <- <-]. Qed.

Lemma k_put_semas (x : semaphore → semaphore) p :
  p ≠ l ∨ (∀ y, value (x y) = value y) → keeps (upd_sema p x).
Proof.
  intros Hp s a s' [HR Ha] Hc. unfold upd_sema, get_sema, bind. destruct (semas s !! p) as [y|] eqn:E; [|done].
  intros [= <- <-]. split; [|done]. split; [|done]. unfold lock_view in *. simpl.
  destruct (decide (p = l)) as [->|]; [|by rewrite lookup_insert_ne].
  destruct Hp as [|Hp]; [done|]. rewrite lookup_insert_eq. simpl. rewrite Hp. by rewrite E in HR.
Qed.
Lemma k_put_holder p h : p ≠ l → keeps (put_holder p h).
Proof.
  intros Hp s a s' [HR Ha] Hc. unfold put_holder, get_holder, bind. destruct (holders s !! p); [|done].
  intros [= <- <-]. split; [|done]. split; [|done]. unfold lock_view in *. simpl.
  by rewrite lookup_insert_ne.
Qed.
Lemma k_upd_thread p f : keeps (upd_thread p f).
Proof.
  intros s a s' HI Hc. unfold upd_thread, get_thread, bind. destruct (threads s !! p); [|done].
  by intros [= <- <-].
Qed.
Lemma k_put_cond p ws : l ∉ ws → keeps (put_cond p ws).
Proof.
  intros Hws s a s' [HR [Ha Hb]] Hc. unfold put_cond, get_cond, bind. destruct (conds s !! p); [|done].
  intros [= <- <-]. split; [|done]. split; [done|]. split; [|done]. intros q ws'. simpl.
  destruct (decide (q = p)) as [->|]; [rewrite lookup_insert_eq; congruence|].
  rewrite lookup_insert_ne by done. apply Ha.
Qed.
Lemma k_sema_init p v : p ≠ l → keeps (sema_init p v).
Proof.
  intros Hp s a s' [HR Ha] Hc. intros [= <- <-]. split; [|done]. split; [|done].
  unfold lock_view in *. simpl. by rewrite lookup_insert_ne.
Qed.
Lemma k_put_holders p h : p ≠ l → keeps (modify (λ s, set_holders (<[p:=h]> (holders s)) s)).
Proof.
  intros Hp s a s' [HR Ha] Hc. intros [= <- <-]. split; [|done]. split; [|done].
  unfold lock_view in *. simpl. by rewrite lookup_insert_ne.
Qed.
End lock.

Create HintDb klaws.
#[export] Hint Resolve k_get_thread k_get_sema k_get_holder k_get_cond k_upd_thread keeps_ret keeps_gets
  keeps_lift keeps_throw : klaws.

(** Structural steps of a proof that atomic code keeps the invariant. *)
Ltac keep1 := first
  [ lazymatch goal with |- forall _, _ => intro end
  | lazymatch goal with |- keeps _ _ (bind _ _) => apply keeps_bind end
  | solve [eauto with klaws nocore]
  | lazymatch goal with
    | |- keeps _ _ (modify _) => apply keeps_modify; by intros
    | |- keeps _ _ (match ?x with _ => _ end) => destruct x
    | |- keeps _ _ (if ?x then _ else _) => destruct x
    end ].
Ltac keep := repeat keep1.

Section lock_ops.
Context (l d : Z) (R : option Z * option (option Z) → Prop).
Local Abbreviation keeps := (keeps d (lock_inv l R)).
Local Abbreviation kkeeps := (kkeeps d (lock_inv l R)).

Lemma k_assertM b : keeps (assertM b).
Proof. apply keeps_lift. Qed.
Lemma k_deref p : keeps (deref p).
Proof. apply keeps_lift. Qed.
Hint Resolve k_assertM k_deref : klaws.
Lemma k_intr_disable : keeps intr_disable.
Proof. unfold intr_disable. keep. Qed.
Lemma k_intr_enable : keeps intr_enable.
Proof. unfold intr_enable. keep. Qed.
Hint Resolve k_intr_disable k_intr_enable : klaws.
Lemma k_intr_set_level b : keeps (intr_set_level b).
Proof. unfold intr_set_level. keep. Qed.
Lemma k_assert_intr_off : keeps assert_intr_off.
Proof. unfold assert_intr_off. keep. Qed.
Lemma k_assert_not_intr_context : keeps assert_not_intr_context.
Proof. unfold assert_not_intr_context. keep. Qed.
Lemma k_intr_yield_on_return : keeps intr_yield_on_return.
Proof. unfold intr_yield_on_return. keep. Qed.
Hint Resolve k_intr_set_level k_assert_intr_off k_assert_not_intr_context k_intr_yield_on_return : klaws.
Lemma k_timer_ticks : keeps timer_ticks.
Proof. unfold timer_ticks. keep. Qed.
Lemma k_is_thread p : keeps (is_thread p).
Proof. unfold is_thread. keep. Qed.
Hint Resolve k_timer_ticks k_is_thread : klaws.
Lemma k_thread_current : keeps thread_current.
Proof. unfold thread_current. keep. Qed.
Hint Resolve k_thread_current : klaws.
Lemma k_thread_get_priority : keeps thread_get_priority.
Proof. unfold thread_get_priority. keep. Qed.
Lemma k_max_thread ls : ∀ m, keeps (max_thread m ls).
Proof. induction ls; simpl; keep. Qed.
Hint Resolve k_thread_get_priority k_max_thread : klaws.
Lemma k_list_max_entry ls : keeps (list_max_entry ls).
Proof. unfold list_max_entry. keep. Qed.
Lemma k_push_ready p : keeps (push_ready p).
Proof. unfold push_ready. keep. Qed.
Hint Resolve k_list_max_entry k_push_ready : klaws.
Lemma k_get_next : keeps get_next_thread_to_run.
Proof. unfold get_next_thread_to_run. keep. Qed.
Lemma k_remove_ready p : keeps (remove_ready p).
Proof. unfold remove_ready. keep. Qed.
Hint Resolve k_get_next k_remove_ready : klaws.
Lemma k_choose_next : keeps choose_next.
Proof. unfold choose_next, next_thread_to_run. keep. Qed.
Lemma k_schedule_tail p : keeps (thread_schedule_tail p).
Proof. unfold thread_schedule_tail. keep. Qed.
Lemma k_thread_unblock p : keeps (thread_unblock p).
Proof. unfold thread_unblock. keep. Qed.
Hint Resolve k_choose_next k_schedule_tail k_thread_unblock : klaws.
Lemma k_thread_donate n : ∀ p x, keeps (thread_donate n p x).
Proof. induction n; intros; simpl; keep. Qed.
Lemma k_donations p ls : keeps (donations p ls).
Proof. induction ls; simpl; keep. Qed.
Hint Resolve k_thread_donate k_donations : klaws.
Lemma k_thread_update_donations n : ∀ p, keeps (thread_update_donations n p).
Proof. induction n; intros; simpl; keep. Qed.
Lemma k_chain_fuel : keeps chain_fuel.
Proof. apply keeps_gets. Qed.
Lemma k_priority_update p : keeps (thread_priority_update p).
Proof. unfold thread_priority_update. keep. Qed.
Hint Resolve k_thread_update_donations k_chain_fuel k_priority_update : klaws.
Lemma k_foreach f ls : (∀ p, keeps (f p)) → keeps (foreach f ls).
Proof. intros Hf. induction ls; simpl; keep. Qed.
Lemma k_insert_sleeper p w ls : keeps (insert_sleeper p w ls).
Proof. induction ls; simpl; keep. Qed.
Lemma k_wake_loop ls : keeps (wake_loop ls).
Proof. induction ls; simpl; keep. Qed.
Hint Resolve k_foreach k_insert_sleeper k_wake_loop : klaws.
Lemma k_recent_cpu p : keeps (update_recent_cpu_of_thread p).
Proof. unfold update_recent_cpu_of_thread. keep. Qed.
Hint Resolve k_recent_cpu : klaws.
Lemma k_timer_interrupt : keeps timer_interrupt.
Proof.
  unfold timer_interrupt, thread_tick, handle_tick_for_sleep_queue, count_load_avg,
    update_recent_cpu, thread_priority_update_all, thread_foreach.
  keep.
Qed.
Lemma k_fall_asleep n : keeps (fall_asleep n).
Proof. unfold fall_asleep. keep. Qed.
Hint Resolve k_timer_interrupt k_fall_asleep : klaws.

(** ** Code that gives up the processor *)
Lemma kk_schedule : kkeeps schedule.
Proof.
  intros s HI Hc. unfold schedule. apply ksafe_bind, ksafe_atomic. intros [p|] s1 E.
  - destruct (k_choose_next _ _ _ HI Hc E) as [HI1 Hc1]. unfold ksafe. simpl. split; [exact HI1|].
    intros s2 HI2 Hc2. unfold switched_back, atomic.
    destruct (bind _ _ s2) as [[[] s3]|] eqn:E3; [|done].
    eapply keeps_bind; [apply keeps_gets|intros; apply k_schedule_tail|exact HI2|exact Hc2|exact E3].
  - destruct (k_choose_next _ _ _ HI Hc E) as [HI1 Hc1]. apply ksafe_atomic. intros [] s2 E2.
    by eapply k_schedule_tail.
Qed.

Lemma kk_if {A} (b : bool) (x y : K A) : kkeeps x → kkeeps y → kkeeps (if b then x else y).
Proof. by destruct b. Qed.
End lock_ops.

#[export] Hint Resolve k_assertM k_deref k_intr_disable k_intr_enable k_intr_set_level k_assert_intr_off
  k_assert_not_intr_context k_intr_yield_on_return k_timer_ticks k_is_thread k_thread_current
  k_thread_get_priority k_max_thread k_list_max_entry k_push_ready k_get_next k_remove_ready
  k_choose_next k_schedule_tail k_thread_unblock k_thread_donate k_donations k_thread_update_donations
  k_chain_fuel k_priority_update k_foreach k_insert_sleeper k_wake_loop k_recent_cpu k_timer_interrupt
  k_fall_asleep kk_schedule kkeeps_kret : klaws.

Ltac kkeep1 := first
  [ lazymatch goal with |- forall _, _ => intro end
  | lazymatch goal with |- kkeeps _ _ (kbind _ _) => apply kkeeps_bind end
  | solve [eauto with klaws nocore]
  | lazymatch goal with |- kkeeps _ _ (atomic _) => apply kkeeps_atomic end
  | lazymatch goal with
    | |- kkeeps _ _ (match ?x with _ => _ end) => destruct x
    | |- kkeeps _ _ (if ?x then _ else _) => destruct x
    end
  | keep1 ].
Ltac kkeep := repeat kkeep1.

Section yielding.
Context (l d : Z) (R : option Z * option (option Z) → Prop).
Local Abbreviation keeps := (keeps d (lock_inv l R)).
Local Abbreviation kkeeps := (kkeeps d (lock_inv l R)).

Lemma kk_block : kkeeps thread_block.
Proof. unfold thread_block. kkeep. Qed.
Lemma kk_yield : kkeeps thread_yield.
Proof. unfold thread_yield. kkeep. Qed.
Lemma kk_exit : kkeeps thread_exit.
Proof. unfold thread_exit. kkeep. Qed.
Hint Resolve kk_block kk_yield kk_exit : klaws.
Lemma kk_yield_if_needed : kkeeps thread_yield_if_needed.
Proof. unfold thread_yield_if_needed. kkeep. Qed.
Hint Resolve kk_yield_if_needed : klaws.
Lemma kk_set_priority n : kkeeps (thread_set_priority n).
Proof. unfold thread_set_priority. kkeep. Qed.
Lemma kk_set_nice n : kkeeps (thread_set_nice n).
Proof. unfold thread_set_nice. kkeep. Qed.
Lemma kk_sleep n : kkeeps (timer_sleep n).
Proof. unfold timer_sleep, sleep_the_thread. kkeep. Qed.
Lemma kk_intr_handler : kkeeps intr_handler.
Proof. unfold intr_handler. kkeep. Qed.

(** ** Semaphores other than the lock's *)
Lemma k_set_waiters p ws : keeps (upd_sema p (set_waiters ws)).
Proof. apply k_put_semas. by right. Qed.
Lemma k_push_waiter p q : keeps (upd_sema p (λ x, set_waiters (waiters x ++ [q]) x)).
Proof. apply k_put_semas. by right. Qed.
Hint Resolve k_set_waiters k_push_waiter : klaws.
Lemma k_start_waiting p o q : keeps (start_waiting p o q).
Proof. unfold start_waiting. keep. Qed.
Lemma k_after_waiting o : keeps (after_waiting o).
Proof. unfold after_waiting. keep. Qed.
Lemma k_wake_waiters p q ws : ∀ b, keeps (wake_waiters p q ws b).
Proof. induction ws; intros; simpl; keep. Qed.
Hint Resolve k_start_waiting k_after_waiting k_wake_waiters : klaws.
Lemma k_upd_other p f : p ≠ l → keeps (upd_sema p f).
Proof. intros. apply k_put_semas. by left. Qed.
Hint Resolve k_upd_other : klaws.
Lemma kk_down_loop fuel : ∀ p o q, kkeeps (down_loop fuel p o q).
Proof. induction fuel; intros; simpl; kkeep. Qed.
Hint Resolve kk_down_loop : klaws.
Lemma kk_down_donate fuel p o : p ≠ l → kkeeps (sema_down_donate fuel p o).
Proof. intros. unfold sema_down_donate. kkeep. Qed.
Lemma k_try_down p : p ≠ l → keeps (sema_try_down p).
Proof. intros. unfold sema_try_down. keep. Qed.
Lemma kk_up p : p ≠ l → kkeeps (sema_up p).
Proof. intros. unfold sema_up. kkeep. Qed.
Hint Resolve kk_down_donate k_try_down kk_up : klaws.

(** ** Locks other than this one *)
Lemma k_put_other p h : p ≠ l → keeps (put_holder p h).
Proof. apply k_put_holder. Qed.
Hint Resolve k_put_other : klaws.
Lemma k_held p : keeps (lock_held_by_current_thread p).
Proof. unfold lock_held_by_current_thread. keep. Qed.
Lemma k_take p : p ≠ l → keeps (take_lock p).
Proof. intros. unfold take_lock. keep. Qed.
Lemma k_give p : p ≠ l → keeps (give_lock p).
Proof. intros. unfold give_lock, lock_held_by_current_thread. keep. Qed.
Hint Resolve k_held k_take k_give : klaws.
End yielding.

#[export] Hint Resolve kk_block kk_yield kk_exit kk_yield_if_needed kk_set_priority kk_set_nice kk_sleep
  kk_intr_handler k_set_waiters k_push_waiter k_start_waiting k_after_waiting k_wake_waiters k_upd_other
  kk_down_loop kk_down_donate k_try_down kk_up k_put_other k_held k_take k_give : klaws.

(** Everything else follows from what the operations on the lock itself do. *)
Section operations.
Context (l d : Z) (R : option Z * option (option Z) → Prop).
Local Abbreviation keeps := (keeps d (lock_inv l R)).
Local Abbreviation kkeeps := (kkeeps d (lock_inv l R)).
Context (own_acquire : ∀ fuel, kkeeps (lock_acquire fuel l)) (own_release : kkeeps (lock_release l))
  (own_try : keeps (lock_try_acquire l)).

Lemma kk_acquire fuel p : kkeeps (lock_acquire fuel p).
Proof. destruct (decide (p = l)) as [->|]; [done|]. unfold lock_acquire. kkeep. Qed.
Lemma kk_release p : kkeeps (lock_release p).
Proof. destruct (decide (p = l)) as [->|]; [done|]. unfold lock_release. kkeep. Qed.
Lemma k_try p : keeps (lock_try_acquire p).
Proof. destruct (decide (p = l)) as [->|]; [done|]. unfold lock_try_acquire. keep. Qed.
Hint Resolve kk_acquire kk_release k_try : klaws.

(** An atomic step that keeps the invariant, and whose result has a property. *)
Definition gives {A} (P : A → Prop) (m : M kernel A) : Prop :=
  ∀ s a s', lock_inv l R s → cur s = d → m s = Ret (a, s') → (lock_inv l R s' ∧ cur s' = d) ∧ P a.

Lemma gives_ret {A} (P : A → Prop) a : P a → gives P (ret a).
Proof. by intros HP s b s' ?? [= <- <-]. Qed.
Lemma gives_bind {A B} (Q : A → Prop) (P : B → Prop) (m : M kernel A) (f : A → M kernel B) :
  gives Q m → (∀ a, Q a → gives P (f a)) → gives P (bind m f).
Proof.
  intros Hm Hf s b s' HI Hc. unfold bind. destruct (m s) as [[a s1]|] eqn:E; [|done].
  destruct (Hm _ _ _ HI Hc E) as [[??]?]. by apply Hf.
Qed.
Lemma gives_keeps {A} (m : M kernel A) : keeps m → gives (λ _, True) m.
Proof. intros Hm s a s' HI Hc E. split; [by eapply Hm|done]. Qed.
Lemma kk_result {A B} (P : A → Prop) (m : M kernel A) (f : A → K B) :
  gives P m → (∀ a, P a → kkeeps (f a)) → kkeeps (kbind (atomic m) f).
Proof.
  intros Hm Hf s HI Hc. apply ksafe_bind, ksafe_atomic. intros a s' E.
  destruct (Hm _ _ _ HI Hc E) as [[??]?]. by apply Hf.
Qed.

(** Reading a condition variable's waiters. *)
Lemma get_cond_gives p : gives (λ ws, l ∉ ws) (get_cond p).
Proof.
  intros s a s' [HR [Ha Hb]] Hc. unfold get_cond. destruct (conds s !! p) as [ws|] eqn:E; [|done].
  intros [= <- <-]. split; [exact (conj (conj HR (conj Ha Hb)) Hc)|by eapply Ha].
Qed.
Lemma keeps_after {A B} (P : A → Prop) (m : M kernel A) (f : A → M kernel B) :
  gives P m → (∀ a, P a → keeps (f a)) → keeps (bind m f).
Proof.
  intros Hm Hf s b s' HI Hc. unfold bind. destruct (m s) as [[a s1]|] eqn:E; [|done].
  destruct (Hm _ _ _ HI Hc E) as [[??]?]. by apply Hf.
Qed.
Lemma k_put_waiting p ws : l ∉ ws → keeps (put_cond p ws).
Proof. apply k_put_cond. Qed.
Lemma k_sema_new p v : p ≠ l → keeps (sema_init p v).
Proof. apply k_sema_init. Qed.
Hint Resolve k_put_waiting k_sema_new : klaws.

Lemma kk_cond_wait fuel cond lock waiter : waiter ≠ l → kkeeps (cond_wait fuel cond lock waiter).
Proof.
  intros Hw. unfold cond_wait. apply kkeeps_bind; [|kkeep]. apply kkeeps_atomic.
  do 4 (apply keeps_bind; [keep|intros]).
  eapply keeps_after; [apply get_cond_gives|]. intros ws Hws. apply k_put_waiting. set_solver.
Qed.

Lemma k_less a b : keeps (semaphore_elem_less a b).
Proof. unfold semaphore_elem_less. keep. Qed.
Hint Resolve k_less : klaws.
Lemma k_max_sema ws : ∀ m, keeps (max_sema m ws).
Proof. induction ws; intros; simpl; keep. Qed.
Hint Resolve k_max_sema : klaws.
Lemma max_sema_gives ws : ∀ m, l ∉ m :: ws → gives (λ w, w ≠ l) (max_sema m ws).
Proof.
  induction ws as [|e ws IH]; intros m Hm; simpl.
  - apply gives_ret. set_solver.
  - eapply gives_bind; [apply gives_keeps; auto with klaws nocore|]. intros [] _; apply IH; set_solver.
Qed.
Lemma filter_apart (w : Z) (ws : list Z) : l ∉ ws → l ∉ filter (.≠ w) ws.
Proof. intros Hl Hin%list_elem_of_filter. naive_solver. Qed.

(** A guard in front of an atomic step. *)
Lemma gives_guard {A B} (P : B → Prop) (m : M kernel A) (f : A → M kernel B) :
  keeps m → (∀ a, gives P (f a)) → gives P (bind m f).
Proof. intros Hm Hf. eapply gives_bind; [by apply gives_keeps|auto]. Qed.

Lemma kk_cond_signal cond lock : kkeeps (cond_signal cond lock).
Proof.
  unfold cond_signal. apply kk_result with (P := λ w, w ≠ Some l).
  - do 3 (apply gives_guard; [keep|intros]).
    eapply gives_bind; [apply get_cond_gives|]. intros [|m ws] Hws; [by apply gives_ret|].
    eapply gives_bind; [by apply max_sema_gives|]. intros w Hw.
    apply gives_guard; [by apply k_put_waiting, filter_apart|]. intros _. apply gives_ret. congruence.
  - intros [w|] Hw; [|kkeep]. apply kk_up. congruence.
Qed.

Lemma kk_broadcast_loop cond fuel : kkeeps (broadcast_loop fuel cond).
Proof.
  induction fuel as [|fuel IH]; simpl; [kkeep|]. apply kk_result with (P := λ w, w ≠ Some l).
  - eapply gives_bind; [apply get_cond_gives|]. intros [|m ws] Hws; [by apply gives_ret|].
    apply gives_guard; [apply k_put_waiting; set_solver|]. intros _. apply gives_ret. set_solver.
  - intros [w|] Hw; [|kkeep]. apply kkeeps_bind; [apply kk_up; congruence|done].
Qed.
Lemma kk_cond_broadcast fuel cond lock : kkeeps (cond_broadcast fuel cond lock).
Proof. unfold cond_broadcast. kkeep. apply kk_broadcast_loop. Qed.

(** ** New threads *)
Lemma palloc_gives : gives (λ p, ∀ q, p = Some q → prior_lock_of q ≠ l) palloc_get_page.
Proof.
  intros s a s' HI Hc. unfold palloc_get_page. pose proof HI as [HR [Ha Hb]].
  destruct (pages s) as [|p r] eqn:E; [by intros [= <- <-]|].
  intros [= <- <-]. split; [|intros q ->; apply Hb; set_solver].
  split; [|done]. split; [done|]. split; [done|]. simpl. intros q Hq. apply Hb. set_solver.
Qed.
Lemma k_init_thread p nm pr : prior_lock_of p ≠ l → keeps (init_thread p nm pr).
Proof.
  intros Hp. unfold init_thread, lock_init. keep. by apply k_put_holders.
Qed.
Lemma kk_allocate_tid fuel : kkeeps (allocate_tid fuel).
Proof. unfold allocate_tid. kkeep. Qed.
Hint Resolve kk_allocate_tid k_init_thread : klaws.
Lemma kk_create fuel nm pr f x : kkeeps (thread_create fuel nm pr f x).
Proof.
  unfold thread_create. apply kkeeps_bind; [kkeep|intros _].
  eapply kk_result; [apply palloc_gives|].
  intros [p|] Hp; [|kkeep]. specialize (Hp p eq_refl). kkeep.
Qed.
End operations.
