(* ===== verification/LockSpec.v ===== *)
(** Locks exclude: while one thread holds a lock, no operation of another thread
    changes that, or acquires the lock. *)
From S2P Require Import Prelude FixedPoint Kernel KernelLaws Sched Synch Spawn LockLaws.
Local Open Scope Z_scope.

(** The operations of the kernel that a thread can call, and the interrupt that
    can happen while it runs. *)
Inductive op :=
| Yield | Exit | Sleep (n : Z) | SetPriority (n : Z) | SetNice (n : Z)
| Up (p : Z) | Down (p : Z) | TryDown (p : Z)
| Acquire (l : Z) | TryAcquire (l : Z) | Release (l : Z)
| Wait (cond lock waiter : Z) | Signal (cond lock : Z) | Broadcast (cond lock : Z)
| Create (nm : list Z) (priority function aux : Z) | TimerInterrupt.

Definition perform (fuel : nat) (o : op) : K unit :=
  match o with
  | Yield => thread_yield
  | Exit => thread_exit
  | Sleep n => timer_sleep n
  | SetPriority n => thread_set_priority n
  | SetNice n => thread_set_nice n
  | Up p => sema_up p
  | Down p => sema_down fuel p
  | TryDown p => letk _ := atomic (sema_try_down p) in kret tt
  | Acquire l => lock_acquire fuel l
  | TryAcquire l => letk _ := atomic (lock_try_acquire l) in kret tt
  | Release l => lock_release l
  | Wait cond lock waiter => cond_wait fuel cond lock waiter
  | Signal cond lock => cond_signal cond lock
  | Broadcast cond lock => cond_broadcast fuel cond lock
  | Create nm priority function aux =>
      letk _ := thread_create fuel nm priority function aux in kret tt
  | TimerInterrupt => intr_handler
  end.

(** The lock at [l] is only used as a lock. *)
Definition legal (l : Z) (o : op) : Prop :=
  match o with
  | Up p | Down p | TryDown p => p ≠ l
  | Wait _ _ waiter => waiter ≠ l
  | _ => True
  end.

Lemma perform_keeps l d R fuel o :
  (∀ fuel, kkeeps d (lock_inv l R) (lock_acquire fuel l)) → kkeeps d (lock_inv l R) (lock_release l) →
  keeps d (lock_inv l R) (lock_try_acquire l) → legal l o → kkeeps d (lock_inv l R) (perform fuel o).
Proof.
  intros Ha Hr Ht Hl. destruct o; simpl in *; unfold sema_down; kkeep;
    auto using kk_acquire, kk_release, kk_cond_wait, kk_cond_signal, kk_cond_broadcast, kk_create.
  by apply k_try.
Qed.

Lemma acquire_or_not o l : o = Acquire l ∨ o ≠ Acquire l.
Proof.
  destruct o as [| | | | | | | |l'| | | | | | |]; try (right; done).
  destruct (decide (l' = l)) as [->|]; [by left|right; congruence].
Qed.

(** What is known of the semaphore and the holder. *)
Lemma lock_view_inv l s v h :
  lock_view l s = (Some v, Some h) → ∃ x, semas s !! l = Some x ∧ value x = v ∧ holders s !! l = Some h.
Proof.
  unfold lock_view. destruct (semas s !! l) as [x|]; simpl; [|done]. intros [= <- ->]. eauto.
Qed.

Lemma thread_current_is s p s' : thread_current s = Ret (p, s') → p = cur s ∧ s' = s.
Proof.
  unfold thread_current. rewrite bind_gets. unfold is_thread, get_thread, bind.
  destruct (threads s !! cur s) as [t|] eqn:E; [|done]. unfold ret.
  destruct (bool_decide (magic t = THREAD_MAGIC)); [|done]. simpl. rewrite E.
  destruct (bool_decide (status t = THREAD_RUNNING)); [|done]. by intros [= <- <-].
Qed.

Lemma lock_held_is s l h b s' :
  holders s !! l = Some h → lock_held_by_current_thread l s = Ret (b, s') →
  b = bool_decide (h = Some (cur s)) ∧ s' = s.
Proof.
  intros Hh. unfold lock_held_by_current_thread. rewrite (bind_run _ _ _ _ _ (get_holder_run _ _ _ Hh)).
  unfold bind. destruct (thread_current s) as [[p s1]|] eqn:E; [|done].
  apply thread_current_is in E as [-> ->]. by intros [= <- <-].
Qed.

(** ** The lock is somebody else's *)
Section others.
Context (l c d : Z) (Hcd : c ≠ d).
Definition taken : option Z * option (option Z) → Prop := (.= (Some 0, Some (Some c))).
Local Abbreviation I := (lock_inv l taken).

Lemma down_never fuel : ∀ o q s, I s → cur s = d → ksafe d I (down_loop fuel l o q) (λ _ _, False) s.
Proof.
  induction fuel as [|fuel IH]; intros o q s HI Hc; cbn [down_loop]; [by apply ksafe_atomic|].
  destruct (lock_view_inv _ _ _ _ (proj1 HI)) as (x & Hx & Hv & Hh).
  eapply ksafe_run; [by apply get_sema_run|]. rewrite decide_True by done.
  apply ksafe_bind, ksafe_atomic. intros ow s1 E1.
  destruct (k_start_waiting l d taken _ _ _ _ _ _ HI Hc E1) as [HI1 Hc1].
  apply ksafe_bind. eapply ksafe_mono; [|by apply kk_block]. intros _ s2 [HI2 Hc2].
  apply ksafe_bind, ksafe_atomic. intros [] s3 E3.
  destruct (k_after_waiting l d taken _ _ _ _ HI2 Hc2 E3) as [HI3 Hc3]. by apply IH.
Qed.

Lemma down_donate_never fuel o s :
  I s → cur s = d → ksafe d I (sema_down_donate fuel l o) (λ _ _, False) s.
Proof.
  intros HI Hc. unfold sema_down_donate. apply ksafe_bind.
  eapply ksafe_mono; [|apply (kkeeps_atomic d I); [keep|done..]]. intros old s1 [HI1 Hc1].
  apply ksafe_bind. eapply ksafe_mono; [|apply (kkeeps_atomic d I); [keep|done..]]. intros q s2 [HI2 Hc2].
  apply ksafe_bind. eapply ksafe_mono; [|by apply down_never]. done.
Qed.

Lemma acquire_never fuel s : I s → cur s = d → ksafe d I (lock_acquire fuel l) (λ _ _, False) s.
Proof.
  intros HI Hc. unfold lock_acquire. apply ksafe_bind.
  eapply ksafe_mono; [|apply (kkeeps_atomic d I); [keep|done..]]. intros old s1 [HI1 Hc1].
  eapply ksafe_run; [done|]. apply ksafe_bind. eapply ksafe_mono; [|by apply down_donate_never]. done.
Qed.

Lemma release_never s : I s → cur s = d → ksafe d I (lock_release l) (λ _ _, False) s.
Proof.
  intros HI Hc. unfold lock_release. apply ksafe_bind, ksafe_atomic. intros old s' E. exfalso.
  destruct (lock_view_inv _ _ _ _ (proj1 HI)) as (x & Hx & Hv & Hh).
  unfold give_lock in E. unfold bind at 1 in E.
  destruct (lock_held_by_current_thread l s) as [[b s1]|] eqn:E1; [|done].
  destruct (lock_held_is _ _ _ _ _ Hh E1) as [-> ->]. rewrite bool_decide_false in E by congruence. done.
Qed.

Lemma get_sema_taken : gives l d taken (λ x, value x = 0) (get_sema l).
Proof.
  intros s a s' HI Hc. destruct (lock_view_inv _ _ _ _ (proj1 HI)) as (x & Hx & Hv & Hh).
  rewrite (get_sema_run _ _ _ Hx). by intros [= <- <-].
Qed.

Lemma try_never : gives l d taken (.= false) (lock_try_acquire l).
Proof.
  unfold lock_try_acquire, sema_try_down. do 3 (apply gives_guard; [keep|intros]).
  eapply (gives_bind _ _ _ (.= false)).
  - apply gives_guard; [keep|intros]. eapply gives_bind; [apply get_sema_taken|]. intros x Hx.
    eapply (gives_bind _ _ _ (.= false)).
    + rewrite decide_False by (cbn in Hx; lia). by apply gives_ret.
    + intros b ->. apply gives_guard; [keep|intros]. by apply gives_ret.
  - intros b ->. do 2 (apply gives_guard; [keep|intros]). by apply gives_ret.
Qed.

Lemma others_keep fuel o : legal l o → kkeeps d I (perform fuel o).
Proof.
  apply perform_keeps.
  - intros fuel' s HI Hc. eapply ksafe_mono; [|by apply acquire_never]. done.
  - intros s HI Hc. eapply ksafe_mono; [|by apply release_never]. done.
  - intros s b s' HI Hc E. by destruct (try_never _ _ _ HI Hc E) as [??].
Qed.
End others.

(** ** The lock is any *)
Section any.
Context (l d : Z).

(** Atomic code that takes the lock from [R] to [R']. *)
Definition moves {A} (R R' : option Z * option (option Z) → Prop) (m : M kernel A) : Prop :=
  ∀ s a s', lock_inv l R s → cur s = d → m s = Ret (a, s') → lock_inv l R' s' ∧ cur s' = d.

Lemma moves_bind {A B} R1 R2 R3 (m : M kernel A) (f : A → M kernel B) :
  moves R1 R2 m → (∀ a, moves R2 R3 (f a)) → moves R1 R3 (bind m f).
Proof.
  intros Hm Hf s b s' HI Hc. unfold bind. destruct (m s) as [[a s1]|] eqn:E; [|done].
  destruct (Hm _ _ _ HI Hc E). by apply Hf.
Qed.
Lemma moves_keeps {A} R (m : M kernel A) : keeps d (lock_inv l R) m → moves R R m.
Proof. done. Qed.

Definition free : option Z * option (option Z) → Prop := (.= (Some 1, Some None)).
(** Between the two variables' updates. *)
Definition between : option Z * option (option Z) → Prop := (.= (Some 0, Some None)).

Lemma upd_sema_moves v h w :
  moves (.= (Some v, Some h)) (.= (Some (u32 (v + w)), Some h))
    (upd_sema l (λ x, set_value (u32 (value x + w)) x)).
Proof.
  intros s a s' [HR Ha] Hc. destruct (lock_view_inv _ _ _ _ HR) as (x & Hx & Hv & Hh).
  rewrite (upd_sema_run _ _ _ _ Hx). intros [= <- <-]. split; [|done]. split; [|done].
  unfold lock_view in *. simpl. rewrite lookup_insert_eq, Hh. simpl. by rewrite Hv.
Qed.

Lemma put_holder_moves v h x :
  moves (.= (Some v, Some h)) (.= (Some v, Some x)) (put_holder l x).
Proof.
  intros s a s' [HR Ha] Hc. destruct (lock_view_inv _ _ _ _ HR) as (y & Hy & Hv & Hh).
  unfold put_holder. rewrite (bind_run _ _ _ _ _ (get_holder_run _ _ _ Hh)). intros [= <- <-].
  split; [|done]. split; [|done]. unfold lock_view in *. simpl. by rewrite lookup_insert_eq, Hy, <-Hv.
Qed.

Lemma current_moves {B} R R' (f : Z → M kernel B) : moves R R' (f d) → moves R R' (bind thread_current f).
Proof.
  intros Hf s b s' HI Hc. unfold bind. destruct (thread_current s) as [[p s1]|] eqn:E; [|done].
  apply thread_current_is in E as [-> ->]. rewrite Hc. by apply Hf.
Qed.

Lemma take_moves : moves between (taken d) (take_lock l).
Proof.
  unfold take_lock. apply current_moves. eapply moves_bind; [apply put_holder_moves|].
  intros. apply moves_keeps. keep.
Qed.

Local Abbreviation I := (lock_inv l consistent).

Lemma weaken (R R' : option Z * option (option Z) → Prop) s :
  (∀ v, R v → R' v) → lock_inv l R s → lock_inv l R' s.
Proof. intros Hw [HR Ha]. split; auto. Qed.
Lemma free_consistent v : free v → consistent v.
Proof. by left. Qed.
Lemma taken_consistent h v : taken h v → consistent v.
Proof. intros ->. right. by exists h. Qed.

Lemma ksafe_moves {A B} R R' (m : M kernel A) (f : A → K B) Q s :
  moves R R' m → lock_inv l R s → cur s = d →
  (∀ a s', lock_inv l R' s' → cur s' = d → ksafe d I (f a) Q s') → ksafe d I (kbind (atomic m) f) Q s.
Proof.
  intros Hm HI Hc Hf. apply ksafe_bind, ksafe_atomic. intros a s' E.
  destruct (Hm _ _ _ HI Hc E). by apply Hf.
Qed.

Lemma down_any fuel : ∀ o q s, I s → cur s = d →
  ksafe d I (down_loop fuel l o q) (λ _ s', lock_inv l free s' ∧ cur s' = d) s.
Proof.
  induction fuel as [|fuel IH]; intros o q s HI Hc; cbn [down_loop]; [by apply ksafe_atomic|].
  assert (∃ x, semas s !! l = Some x ∧ (value x = 0 ∨ lock_inv l free s)) as (x & Hx & Hcase).
  { destruct HI as [[E|[h E]] Ha]; destruct (lock_view_inv _ _ _ _ E) as (x & Hx & Hv & _);
      exists x; (split; [done|]); [right; by split|by left]. }
  eapply ksafe_run; [by apply get_sema_run|]. case_decide as Hz.
  - eapply ksafe_moves; [apply (k_start_waiting l d consistent)|done..|]. intros ow s1 HI1 Hc1.
    apply ksafe_bind. eapply ksafe_mono; [|by apply kk_block]. intros _ s2 [HI2 Hc2].
    eapply ksafe_moves; [apply (k_after_waiting l d consistent)|done..|]. intros [] s3 HI3 Hc3.
    by apply IH.
  - destruct Hcase as [?|Hfree]; [done|]. by apply ksafe_kret.
Qed.

Lemma down_donate_any fuel o s : I s → cur s = d →
  ksafe d I (sema_down_donate fuel l o) (λ _ s', lock_inv l between s' ∧ cur s' = d) s.
Proof.
  intros HI Hc. unfold sema_down_donate.
  eapply (ksafe_moves consistent consistent); [apply moves_keeps; keep|done..|]. intros old s1 HI1 Hc1.
  eapply (ksafe_moves consistent consistent); [apply moves_keeps; keep|done..|]. intros q s2 HI2 Hc2.
  apply ksafe_bind. eapply ksafe_mono; [|by apply down_any]. intros _ s3 [HI3 Hc3].
  eapply (ksafe_moves free between); [|done..|by intros].
  eapply moves_bind; [apply moves_keeps; keep|intros _].
  eapply moves_bind; [apply (upd_sema_moves 1 None (-1))|intros _]. apply moves_keeps. keep.
Qed.

Lemma acquire_any fuel s : I s → cur s = d →
  ksafe d I (lock_acquire fuel l) (λ _ s', lock_inv l (taken d) s' ∧ cur s' = d) s.
Proof.
  intros HI Hc. unfold lock_acquire.
  eapply (ksafe_moves consistent consistent); [apply moves_keeps; keep|done..|]. intros old s1 HI1 Hc1.
  eapply ksafe_run; [done|]. apply ksafe_bind. eapply ksafe_mono; [|by apply down_donate_any].
  intros _ s2 [HI2 Hc2]. eapply (ksafe_moves between (taken d)); [|done..|by intros].
  eapply moves_bind; [apply take_moves|intros _]. apply moves_keeps. keep.
Qed.

Lemma held_moves {B} R' (f : bool → M kernel B) :
  moves (taken d) R' (f true) →
  moves consistent R' (bind (lock_held_by_current_thread l) (λ b, assertM b;;! f b)).
Proof.
  intros Hf s b s' [HR Ha] Hc E. assert (∃ v h, lock_view l s = (Some v, Some h)) as (v & h & Ev).
  { destruct HR as [->|[h ->]]; eauto. }
  destruct (lock_view_inv _ _ _ _ Ev) as (x & Hx & Hv & Hh). unfold bind at 1 in E.
  destruct (lock_held_by_current_thread l s) as [[b1 s1]|] eqn:E1; [|done].
  destruct (lock_held_is _ _ _ _ _ Hh E1) as [-> ->].
  destruct (decide (h = Some (cur s))) as [->|Hne].
  - rewrite bool_decide_true in E by done. apply (Hf s b s'); [|done|done]. split; [|done].
    unfold taken. destruct HR as [HR|[h0 HR]]; rewrite HR in Ev |- *; [by injection Ev|].
    congruence.
  - by rewrite bool_decide_false in E by done.
Qed.

Lemma give_moves : moves consistent between (give_lock l).
Proof.
  unfold give_lock. apply held_moves. eapply moves_bind; [apply moves_keeps; keep|intros ?].
  apply current_moves. eapply moves_bind; [apply put_holder_moves|]. intros. apply moves_keeps. keep.
Qed.

Lemma up_any s : lock_inv l between s → cur s = d →
  ksafe d I (sema_up l) (λ _ s', I s' ∧ cur s' = d) s.
Proof.
  intros HI Hc. unfold sema_up. eapply (ksafe_moves between free); [|done..|].
  - eapply moves_bind; [apply moves_keeps; keep|intros old]. apply current_moves.
    eapply moves_bind; [apply moves_keeps; keep|intros x].
    eapply moves_bind; [apply moves_keeps; keep|intros y].
    eapply moves_bind; [apply (upd_sema_moves 0 None 1)|intros _]. apply moves_keeps. keep.
  - intros r s1 HI1 Hc1. apply (weaken free consistent) in HI1; [|apply free_consistent].
    revert s1 HI1 Hc1. change (kkeeps d I ((if (snd r : bool) then thread_yield else thread_yield_if_needed);;k
      atomic (intr_set_level (fst r));;k kret tt)). kkeep.
Qed.

Lemma release_any : kkeeps d I (lock_release l).
Proof.
  intros s HI Hc. unfold lock_release. eapply ksafe_moves; [apply give_moves|done..|].
  intros old s1 HI1 Hc1. apply ksafe_bind. eapply ksafe_mono; [|by apply up_any].
  intros _ s2 [HI2 Hc2]. revert s2 HI2 Hc2. change (kkeeps d I (atomic (intr_set_level old);;k kret tt)). kkeep.
Qed.

Lemma try_down_free s b s' : lock_inv l free s → cur s = d → sema_try_down l s = Ret (b, s') →
  (lock_inv l between s' ∧ cur s' = d) ∧ b = true.
Proof.
  intros [HR Ha] Hc. destruct (lock_view_inv _ _ _ _ HR) as (x & Hx & Hv & Hh).
  unfold sema_try_down. rewrite bind_disable. krun (get_sema_run (set_intr_on false s) _ _ Hx).
  rewrite decide_True by lia. krun (upd_sema_run (set_intr_on false s) _ _ _ Hx).
  apply (gives_guard l d between (.= true) (intr_set_level (intr_on s)) (λ _, ret true)).
  - keep.
  - intros _. by apply gives_ret.
  - split; [|done]. unfold lock_view, between. simpl. by rewrite lookup_insert_eq, Hh, <-Hv, Hv.
  - done.
Qed.

Lemma try_free : moves free (taken d) (lock_try_acquire l).
Proof.
  unfold lock_try_acquire. do 3 (eapply moves_bind; [apply moves_keeps; keep|intros ?]).
  intros s b s' HI Hc E. unfold bind at 1 in E. destruct (sema_try_down l s) as [[b1 s1]|] eqn:E1; [|done].
  destruct (try_down_free _ _ _ HI Hc E1) as [[HI1 Hc1] ->].
  revert E. apply (moves_bind between (taken d) (taken d)); [apply take_moves|intros _|done|done].
  apply moves_keeps. keep.
Qed.

Lemma try_any : keeps d I (lock_try_acquire l).
Proof.
  intros s b s' [HR Ha] Hc E. destruct HR as [HR|[h HR]].
  - destruct (try_free s b s') as [??]; [by split|done..|]. split; [|done].
    eapply weaken; [apply taken_consistent|done].
  - destruct (try_never l h d s b s') as [[??] _]; [by split|done..|]. split; [|done].
    eapply weaken; [apply (taken_consistent h)|done].
Qed.

Lemma all_keep fuel o : legal l o → kkeeps d I (perform fuel o).
Proof.
  apply perform_keeps; [|apply release_any|apply try_any].
  intros fuel' s HI Hc. eapply ksafe_mono; [|by apply acquire_any]. intros _ s' [??].
  split; [|done]. eapply weaken; [apply (taken_consistent d)|done].
Qed.
End any.

(** C3: mutual exclusion: while thread [c] holds the lock at [l], whatever another
    thread [d] does - and whatever the threads that run in between do, as long
    as [c] keeps the lock - [c] keeps the lock: wherever [d]'s call gives up the
    processor, and when it returns, [c] still holds it; and a [lock_acquire] of
    this lock does not return at all. *)
Theorem lock_excludes (l c d : Z) (fuel : nat) (o : op) (s : kernel) (Hcd : c ≠ d)
    (Hl : legal l o) (HI : lock_inv l (taken c) s) (Hc : cur s = d) :
  ksafe d (lock_inv l (taken c)) (perform fuel o)
    (λ _ s', lock_inv l (taken c) s' ∧ o ≠ Acquire l) s.
Proof.
  assert (o = Acquire l ∨ o ≠ Acquire l) as [->|Hne] by apply acquire_or_not.
  - eapply ksafe_mono; [|by apply acquire_never]. done.
  - eapply ksafe_mono; [|by apply others_keep]. intros _ s' [??]. done.
Qed.

(** C8: whatever a thread does with the kernel's operations, a lock is always
    either free, with the value 1 and no holder, or taken, with the value 0 and
    a holder: at every point where the processor is given up, and when the
    operation returns; and when [lock_acquire] returns, the thread that called
    it holds the lock. *)
Theorem lock_consistent (l d : Z) (fuel : nat) (o : op) (s : kernel)
    (Hl : legal l o) (HI : lock_inv l consistent s) (Hc : cur s = d) :
  ksafe d (lock_inv l consistent) (perform fuel o)
    (λ _ s', lock_inv l consistent s' ∧ (o = Acquire l → lock_inv l (taken d) s')) s.
Proof.
  assert (o = Acquire l ∨ o ≠ Acquire l) as [->|Hne] by apply acquire_or_not.
  - eapply ksafe_mono; [|by apply acquire_any]. intros _ s' [HI' _]. split; [|done].
    eapply weaken; [apply (taken_consistent d)|done].
  - eapply ksafe_mono; [|by apply all_keep]. by intros _ s' [??].
Qed.
