(* ===== verification/Scenarios.v ===== *)
(** Small systems of threads, run on the machine of Spawn.v: the inputs on which
    the theorems about threads are applied, and the programs that go wrong. *)
From S2P Require Import Prelude FixedPoint Kernel KernelLaws Sched Synch Spawn SchedLaws Donation SleepLaws.
From S2P Require Import LockLaws LockSpec Donation.
Local Open Scope Z_scope.

(** ** States *)
Definition blank : kernel :=
  mkKernel ∅ ∅ ∅ ∅ [] [] [] [] 0 None 10 10 None false false false 0 0 0 false 1 0 [Some 20; Some 30; Some 40].

Definition a_thread (st : thread_status) (pr wake : Z) (on : option Z) : thread :=
  mkThread 1 st [109] pr wake 0 0 pr [] on THREAD_MAGIC (0, 0).

(** 10 runs, 20 and 30 are ready, 40 and 50 sleep. *)
Definition busy : kernel :=
  set_ticks 7 (set_ready_list [20; 30] (set_sleepers [40; 50] (set_threads
    (list_to_map [(10, a_thread THREAD_RUNNING 31 0 None); (20, a_thread THREAD_READY 40 0 None);
       (30, a_thread THREAD_READY 40 0 None); (40, a_thread THREAD_BLOCKED 5 7 None);
       (50, a_thread THREAD_BLOCKED 6 9 None)]) blank))).

(** 20 is about to wait for a lock of 30, which waits for a lock of 10. *)
Definition chained : kernel :=
  set_holders (list_to_map [(500, Some 30); (600, Some 10)]) (set_threads
    (list_to_map [(10, a_thread THREAD_READY 31 0 None); (20, a_thread THREAD_RUNNING 33 0 (Some 500));
       (30, a_thread THREAD_BLOCKED 31 0 (Some 600))]) blank).

(** 10 holds the lock at 500, and 20 runs. *)
Definition contended : kernel :=
  set_cur 20 (set_semas (list_to_map [(500, mkSema 0 [])]) (set_holders (list_to_map [(500, Some 10)])
    (set_ready_list [10] (set_threads
      (list_to_map [(10, a_thread THREAD_READY 31 0 None); (20, a_thread THREAD_RUNNING 33 0 None)])
        (set_pages [] blank))))).

(** A property of all threads of a kernel, checked on the list of them. *)
Lemma all_threads (m : gmap Z thread) (P : Z → thread → Prop) (l : list (Z * thread)) :
  map_to_list m = l → Forall (λ x, P x.1 x.2) l → ∀ q t, m !! q = Some t → P q t.
Proof.
  intros <- HF q t Hq. rewrite Forall_forall in HF.
  by apply (HF (q, t)), elem_of_map_to_list.
Qed.

Lemma busy_running : running busy 10.
Proof.
  split; [reflexivity|reflexivity|reflexivity| |discriminate|].
  - eexists. split; [vm_compute; reflexivity|]. split; reflexivity.
  - intros q Hq. vm_compute in Hq. repeat setoid_rewrite elem_of_cons in Hq.
    destruct Hq as [->|[->|Hq%elem_of_nil]]; [| |done].
    all: split; [discriminate|]; split; [discriminate|]; eexists; split; [vm_compute; reflexivity|]; split; reflexivity.
Qed.

Lemma busy_sleepers s :
  sleepers s = sleepers busy → threads s = threads busy → idle_thread s = None → sleep_queue s.
Proof.
  intros Hl Ht Hi. split.
  - rewrite Hl. unfold wake_at. rewrite Ht. repeat constructor; vm_compute; discriminate.
  - rewrite Hl. apply (bool_decide_unpack _). vm_compute. exact I.
  - intros p Hp. rewrite Hl in Hp. vm_compute in Hp. repeat setoid_rewrite elem_of_cons in Hp.
    rewrite Ht, Hi. split; [discriminate|].
    destruct Hp as [->|[->|Hp%elem_of_nil]]; [| |done].
    all: eexists; split; [vm_compute; reflexivity|]; split; reflexivity.
Qed.

(** Of two ready threads with the same highest priority the first one is next. *)
Lemma next_thread_is_highest_witness :
  ∃ p, get_next_thread_to_run busy = Ret (Some p, busy) ∧ first_max busy p (ready_list busy).
Proof.
  refine (proj1 (proj2 (next_thread_is_highest busy eq_refl (running_live busy 10 busy_running))) eq_refl _).
  discriminate.
Defined.

(** 10 gives up the processor. *)
Lemma yields_to_higher_witness : ∃ k p,
  thread_yield_if_needed busy = Ret (Susp k, switched 10 p (yielded 10 (a_thread THREAD_RUNNING 31 0 None) busy)) ∧
  first_max busy p (ready_list busy).
Proof.
  refine (proj2 (yields_to_higher busy 10 _ busy_running eq_refl _) _).
  - vm_compute. reflexivity.
  - apply Exists_cons. left. vm_compute. reflexivity.
Defined.

Lemma chained_settled : settled chained.
Proof.
  split.
  - intros q t. apply (all_threads _ (λ _ t, magic t = THREAD_MAGIC) _ eq_refl).
    apply (bool_decide_unpack _). vm_compute. exact I.
  - intros q t l Ht Hl. revert q t Ht l Hl.
    apply (all_threads _ (λ _ t, ∀ l, locked_on t = Some l → _) _ eq_refl).
    apply Forall_cons; split; [|apply Forall_cons; split; [|apply Forall_cons; split; [|done]]]; simpl; intros l [= <-];
      eexists _, _; split; vm_compute; reflexivity.
Qed.

Lemma chained_but : donated_but 30 33 chained.
Proof.
  intros q h t th (t0 & l & Hq0 & Hl & Hh) Hq Hth. assert (t0 = t) as -> by congruence. clear Hq0.
  revert q t Hq l Hl h th Hh Hth.
  apply (all_threads _ (λ _ t, ∀ l, locked_on t = Some l → ∀ h th, holders chained !! l = Some (Some h) →
    threads chained !! h = Some th → prior_don t ≤ prior_don th ∨ h = 30 ∧ prior_don t ≤ 33) _ eq_refl).
  apply Forall_cons; split; [|apply Forall_cons; split; [|apply Forall_cons; split; [|done]]]; simpl.
  all: intros l [= <-] h th Hh Hth; vm_compute in Hh; injection Hh as <-; vm_compute in Hth; injection Hth as <-.
  - left. vm_compute. discriminate.
  - right. split; [reflexivity|]. vm_compute. discriminate.
Qed.


(** 10 goes to sleep between the two sleeping threads. *)
Lemma falls_asleep_in_order_witness : ∃ l1 l2,
  fall_asleep 1 busy = Ret (false, set_sleepers (l1 ++ 10 :: l2)
    (set_threads (<[10:=a_thread THREAD_RUNNING 31 8 None]> (threads busy)) busy)) ∧ sleepers busy = l1 ++ l2.
Proof.
  destruct (falls_asleep_in_order busy 10 (a_thread THREAD_RUNNING 31 0 None) 1 busy_running
    (busy_sleepers busy eq_refl eq_refl eq_refl) ltac:(vm_compute; reflexivity)) as (l1 & l2 & E & Hrun & _).
  exists l1, l2. split; [exact Hrun|exact E].
Defined.

(** The tick at time 7 wakes 40. *)
Lemma tick_wakes_due_witness : ∃ due rest s', sleepers busy = due ++ rest ∧
  handle_tick_for_sleep_queue (set_in_external_intr true busy) = Ret (tt, set_yield_on_return true s').
Proof.
  destruct (tick_wakes_due (set_in_external_intr true busy)
    (busy_sleepers (set_in_external_intr true busy) eq_refl eq_refl eq_refl) eq_refl eq_refl
    ltac:(apply Forall_forall; intros p _ Hm; discriminate Hm)) as (due & rest & s' & E & _ & _ & _ & Hrun).
  exists due, rest, s'. split; [exact E|exact Hrun].
Defined.

Lemma contended_taken : lock_inv 500 (taken 10) contended.
Proof.
  split; [reflexivity|]. split.
  - intros p ws Hp. discriminate Hp.
  - intros p Hp. by apply elem_of_nil in Hp.
Qed.

(** 20 waits for the lock that 10 holds. *)
Lemma lock_excludes_witness :
  ksafe 20 (lock_inv 500 (taken 10)) (perform 9 (Acquire 500))
    (λ _ s', lock_inv 500 (taken 10) s' ∧ Acquire 500 ≠ Acquire 500) contended.
Proof. exact (lock_excludes 500 10 20 9 (Acquire 500) contended ltac:(discriminate) I contended_taken eq_refl). Defined.

Lemma lock_consistent_witness :
  ksafe 20 (lock_inv 500 consistent) (perform 9 (Acquire 500))
    (λ _ s', lock_inv 500 consistent s' ∧ (Acquire 500 = Acquire 500 → lock_inv 500 (taken 20) s')) contended.
Proof.
  refine (lock_consistent 500 20 9 (Acquire 500) contended I _ eq_refl).
  exact (conj (or_intror (ex_intro _ 10 eq_refl)) (proj2 contended_taken)).
Defined.

(** 10 runs and holds the lock at 500, for which the threads [ws] wait. *)
Definition holding (ws : list Z) : kernel :=
  set_semas (list_to_map [(500, mkSema 0 ws)]) (set_holders (list_to_map [(500, Some 10)])
    (set_threads (<[10:=set_lock_list [500] (a_thread THREAD_RUNNING 31 0 None)]> (threads busy)) busy)).

Lemma update_recomputes_witness :
  thread_update_donations 1 (Some 10) (holding [20; 40]) =
    Ret (tt, with_prio 10 40 (set_lock_list [500] (a_thread THREAD_RUNNING 31 0 None)) (holding [20; 40])).
Proof.
  refine (update_recomputes (holding [20; 40]) 10 (set_lock_list [500] (a_thread THREAD_RUNNING 31 0 None)) 0
    eq_refl eq_refl eq_refl eq_refl _).
  apply Forall_cons. split; [|apply Forall_nil; exact I]. exists (mkSema 0 [20; 40]).
  split; [reflexivity|]. split; [discriminate|].
  repeat (apply Forall_cons; split); [| |apply Forall_nil; exact I].
  all: split; [eexists; split; vm_compute; reflexivity|discriminate].
Defined.

Lemma holding_running : running (holding []) 10.
Proof.
  split; [reflexivity|reflexivity|reflexivity| |discriminate|].
  - eexists. split; [vm_compute; reflexivity|]. split; reflexivity.
  - intros q Hq. vm_compute in Hq. repeat setoid_rewrite elem_of_cons in Hq.
    destruct Hq as [->|[->|Hq%elem_of_nil]]; [| |done].
    all: split; [discriminate|]; split; [discriminate|]; eexists; split; [vm_compute; reflexivity|]; split; reflexivity.
Qed.

Lemma lowering_priority_faults_witness : thread_set_priority 20 (holding []) = Err Fault.
Proof.
  refine (lowering_priority_faults (holding []) 10 (set_lock_list [500] (a_thread THREAD_RUNNING 31 0 None)) 500 []
    (mkSema 0 []) 20 holding_running eq_refl _ eq_refl eq_refl eq_refl _ _);
    [vm_compute; reflexivity|lia|vm_compute; discriminate].
Defined.

Lemma priority_in_range_witness : ∃ x,
  thread_priority_update 10 busy = Ret (tt, set_threads (<[10:=set_prior_don x (set_base_priority x
    (a_thread THREAD_RUNNING 31 0 None))]> (threads busy)) busy) ∧ 0 ≤ x ≤ 63.
Proof.
  destruct (priority_in_range busy 10 (a_thread THREAD_RUNNING 31 0 None)) as (x & Hrun & Hx & _).
  - vm_compute. reflexivity.
  - reflexivity.
  - discriminate.
  - cbn. lia.
  - split; vm_compute; [discriminate|reflexivity].
  - exists x. split; [exact Hrun|exact Hx].
Defined.

(** ** Programs that go wrong *)

(** The machine when the kernel's main program has the processor, which the code
    at 1 and 2 can share. *)
Definition boot (mlfqs : bool) : machine :=
  mkMachine (mkKernel ∅ ∅ ∅ ∅ [] [] [] [] 0 None 10 10 None false false false 0 0 0 mlfqs 1 0
    [Some 20; Some 1020; Some 2020]) ∅.

(** Two locks, A at 500 and B at 600.  The main program holds A; 1 takes B and
    waits for A; 2, with the highest priority, waits for A, too, releases it and
    then takes B. *)
Definition two_locks (function aux : Z) : K unit :=
  if decide (function = 1) then lock_acquire 5 600;;k lock_acquire 5 500
  else lock_acquire 5 500;;k lock_release 500;;k lock_acquire 5 600.

Definition main_program : K unit :=
  thread_init 5 [109];;k
  atomic (lock_init 500;;! lock_init 600);;k
  lock_acquire 5 500;;k
  thread_create 5 [49] 32 1 0;;k
  thread_create 5 [50] 40 2 0;;k
  lock_release 500.

(** The same without the second lock of 2. *)
Definition one_lock (function aux : Z) : K unit :=
  if decide (function = 1) then lock_acquire 5 600;;k lock_acquire 5 500
  else lock_acquire 5 500;;k lock_release 500.

(** donation can panic the kernel although the program cannot deadlock: a
    thread that [lock_release] has woken still has [locked_on] set, to a lock
    that has no holder, until it runs; when a thread with a higher priority
    waits for another of its locks before, [thread_donate] follows the stale
    pointer to the holder [NULL] and fails its assertion. *)
Theorem stale_donation_panics :
  run two_locks 20 main_program (boot false) = Err Panic ∧
  ∃ s, run one_lock 20 main_program (boot false) = Ret s ∧ holders s !! 500 = Some (Some 20).
Proof.
  split; [vm_compute; reflexivity|]. eexists. split; [vm_compute; reflexivity|]. vm_compute. reflexivity.
Qed.

(** [busy] with a semaphore on which 40 waits. *)
Definition signalled : kernel := set_semas (list_to_map [(700, mkSema 0 [40])]) busy.

(** [sema_up] cannot be called from an interrupt handler, as its comment
    says it can: it gives up the processor when a thread of a higher priority is
    ready, and [thread_yield] asserts that no interrupt is being handled. *)
Theorem sema_up_in_interrupt_panics :
  sema_up 700 (set_in_external_intr true signalled) = Err Panic ∧
  ∃ k s, sema_up 700 signalled = Ret (Susp k, s) ∧ cur s = 20 ∧ semas s !! 700 = Some (mkSema 1 []).
Proof.
  split; [vm_compute; reflexivity|]. eexists _, _. split; [vm_compute; reflexivity|].
  split; vm_compute; reflexivity.
Qed.

(** The advanced scheduler with two ready threads: 20, of priority 40, has used
    much time, 30, of priority 35, none. *)
Definition mlfqs_ready : kernel :=
  mkKernel (list_to_map [(10, a_thread THREAD_RUNNING 31 0 None);
      (20, set_recent_cpu (200 * 16384) (a_thread THREAD_READY 40 0 None));
      (30, a_thread THREAD_READY 35 0 None)]) ∅ ∅ ∅ []
    (replicate 35 [] ++ [[30]] ++ replicate 4 [] ++ [[20]] ++ replicate 23 []) [10; 20; 30] [] 0 None 10 10 None
    false false false 0 0 0 true 1 0 [].

(** recomputing the priorities leaves the ready threads in the queues of
    their old priorities: the next thread to run is not one with the highest
    priority. *)
Theorem mlfqs_queues_stale : ∃ s, thread_priority_update_all mlfqs_ready = Ret (tt, s) ∧
  equiprior s = equiprior mlfqs_ready ∧ get_next_thread_to_run s = Ret (Some 20, s) ∧
  prio s 20 = 13 ∧ prio s 30 = 63.
Proof. eexists. split; [vm_compute; reflexivity|]. repeat split; vm_compute; reflexivity. Qed.
