(* ===== verification/Tokenizer.v ===== *)
(** The tokenizer of the shell: tokenizer.c of Project1, and the pairs of strings
    of util.c that it is given.

    A string is the list of its characters, none of which is 0; a pointer into
    the tokenizer's string is an offset.  The list of delimiters, or of pairs,
    ends before the terminator that the code keeps in the array. *)
From S2P Require Import Prelude.
Local Open Scope Z_scope.

Abbreviation str := (list Z).

(** util.h 18-21 string_pair *)
Record string_pair := mkPair { pa : option str; pb : option str }.

(** tokenizer.h 7-15 tokenizer *)
Record tokenizer := mkTok {
  string : str;
  delimiters : list str;
  ignored : list string_pair;
  replacements : list string_pair;
  cursor : nat;
  tok_start : nat;
  current_token : list Z;
  last_delimiter : option str;
}.

Definition set_cursor (x : nat) (t : tokenizer) : tokenizer :=
  mkTok (string t) (delimiters t) (ignored t) (replacements t) x (tok_start t) (current_token t) (last_delimiter t).
Definition set_tok_start (x : nat) (t : tokenizer) : tokenizer :=
  mkTok (string t) (delimiters t) (ignored t) (replacements t) (cursor t) x (current_token t) (last_delimiter t).
Definition set_current_token (x : list Z) (t : tokenizer) : tokenizer :=
  mkTok (string t) (delimiters t) (ignored t) (replacements t) (cursor t) (tok_start t) x (last_delimiter t).
Definition set_last_delimiter (x : option str) (t : tokenizer) : tokenizer :=
  mkTok (string t) (delimiters t) (ignored t) (replacements t) (cursor t) (tok_start t) (current_token t) x.

(** The string from an offset on; its end is the terminator.  Past that there is nothing to read. *)
Definition at_cursor (s : str) (i : nat) : outcome str := if decide (i ≤ length s)%nat then Ret (drop i s) else Err Fault.
Definition rest : M tokenizer str := λ t, let* s := at_cursor (string t) (cursor t) in Ret (s, t).

(** tokenizer.c 59-67 string_find_pattern.  The result's type is an enumeration,
    which is an [unsigned int]: the length of the pattern is kept. *)
Fixpoint string_find_pattern_from (string patern : str) (i : Z) {struct patern} : Z :=
  match patern with
  | [] => i
  | p :: patern =>
      match string with
      | c :: string => if decide (c ≠ p) then 0 else string_find_pattern_from string patern (i + 1)
      | [] => 0
      end
  end.
Definition string_find_pattern (string : str) (patern : option str) : Z :=
  match patern with None => 0 | Some patern => string_find_pattern_from string patern 0 end.

(** tokenizer.c 69-82 list_pattern_search_generic *)
Fixpoint list_pattern_search_generic {A} (string : str) (patterns : list A) (pattern_check : str → A → Z) : Z * option A :=
  match patterns with
  | [] => (0, None)
  | pat :: patterns =>
      let result := pattern_check string pat in
      if decide (result > 0) then (result, Some pat) else list_pattern_search_generic string patterns pattern_check
  end.

(** tokenizer.c 84-87 string_find_pattern_from_strings *)
Definition string_find_pattern_from_strings (string : str) (paterns : list str) : Z * option str :=
  list_pattern_search_generic string paterns (λ s p, string_find_pattern s (Some p)).

(** tokenizer.c 89-92 string_find_pattern_from_pairs *)
Definition string_find_pattern_from_pairs (string : str) (paterns : list string_pair) : Z * option string_pair :=
  list_pattern_search_generic string paterns (λ s p, string_find_pattern s (pa p)).

(** ** Copies on the heap *)

(** The answers of [malloc] and [strdup], in order; there is memory when they run out. *)
Definition alloc : M (list bool) bool := λ l, match l with b :: l => Ret (b, l) | [] => Ret (true, []) end.
Definition strdup (s : str) : M (list bool) (option str) := let! ok := alloc in ret (if (ok : bool) then Some s else None).

(** tokenizer.c 29-37 cpy_list, the copies of the elements *)
Fixpoint cpy_elems {A} (copy_fn : A → M (list bool) (option A)) (l : list A) : M (list bool) (option (list A)) :=
  match l with
  | [] => ret (Some [])
  | x :: l =>
      let! y := copy_fn x in
      match y with
      | None => ret None
      | Some y => let! ys := cpy_elems copy_fn l in ret (cons y <$> ys)
      end
  end.
(** tokenizer.c 23-39 cpy_list *)
Definition cpy_list {A} (copy_fn : A → M (list bool) (option A)) (l : option (list A)) : M (list bool) (option (list A)) :=
  match l with
  | None => ret None
  | Some l => let! ok := alloc in if (ok : bool) then cpy_elems copy_fn l else ret None
  end.

Definition dup_opt (s : option str) : M (list bool) (option str) := match s with None => ret None | Some s => strdup s end.
(** util.c 19-29 string_pair_init *)
Definition string_pair_init (a b : option str) : M (list bool) (option string_pair) :=
  let! x := dup_opt a in
  let! y := dup_opt b in
  ret (if decide ((x = None ∧ a ≠ None) ∨ (y = None ∧ b ≠ None)) then None else Some (mkPair x y)).
(** util.c 34-36 string_pair_cpy_construct *)
Definition string_pair_cpy_construct (src : string_pair) : M (list bool) (option string_pair) := string_pair_init (pa src) (pb src).

(** tokenizer.c 44-47 cpy_string_list *)
Definition cpy_string_list (l : option (list str)) : M (list bool) (option (list str)) := cpy_list strdup l.
(** tokenizer.c 52-55 cpy_string_pair_list *)
Definition cpy_string_pair_list (l : option (list string_pair)) : M (list bool) (option (list string_pair)) :=
  cpy_list string_pair_cpy_construct l.

(** tokenizer.c 107-112 tokenizer_init, how much longer a replacement is at most *)
Fixpoint max_delta (l : list string_pair) (delta : Z) : outcome Z :=
  match l with
  | [] => Ret delta
  | r :: l =>
      let* b := or_fault (pb r) in
      let* a := or_fault (pa r) in
      let len_diff := s32 (Z.of_nat (length b) - Z.of_nat (length a)) in
      max_delta l (if decide (delta < len_diff) then len_diff else delta)
  end.

(** tokenizer.c 267-271 tokenizer_reset *)
Definition tokenizer_reset (t : tokenizer) : tokenizer := set_last_delimiter None (set_tok_start 0 (set_cursor 0 t)).

(** tokenizer.c 94-137 tokenizer_init.  What is freed when it fails is not seen. *)
Definition tokenizer_init (s : str) (delimiters : option (list str)) (ignored replacements : option (list string_pair)) :
    M (list bool) (option tokenizer) :=
  let! s := strdup s in
  match s with
  | None => ret None
  | Some s =>
  let! d := cpy_string_list delimiters in
  match d with
  | None => ret None
  | Some d =>
  let! i := cpy_string_pair_list ignored in
  match i with
  | None => ret None
  | Some i =>
  let! r := cpy_string_pair_list replacements in
  match r with
  | None => ret None
  | Some r =>
      let! delta := lift (max_delta r 0) in
      let size := s32 (Z.of_nat (length s) * (1 + delta)) in
      let! ok := alloc in
      if decide (ok = false ∨ size + 1 < 0) then ret None
      else ret (Some (tokenizer_reset (mkTok s d i r 0 0 (replicate (Z.to_nat (size + 1)) 0) None)))
  end end end end.

(** ** One token *)

(** [*token = c; token++] *)
Definition put_char (token : nat) (c : Z) : M tokenizer nat := λ t,
  if decide (token < length (current_token t))%nat then Ret (S token, set_current_token (<[token := c]> (current_token t)) t) else Err Fault.

Fixpoint put_chars (token : nat) (repl : str) : M tokenizer nat :=
  match repl with [] => ret token | c :: repl => let! token := put_char token c in put_chars token repl end.

(** tokenizer.c 147-161 tokenizer_move_replace_if_needed *)
Definition tokenizer_move_replace_if_needed (token : nat) : M tokenizer (bool * nat) :=
  let! s := rest in
  let! rs := gets replacements in
  match string_find_pattern_from_pairs s rs with
  | (jump, Some p) =>
      let! repl := lift (or_fault (pb p)) in
      let! token := put_chars token repl in
      modify (λ t, set_cursor (cursor t + Z.to_nat jump) t);;!
      ret (true, token)
  | (_, None) => ret (false, token)
  end.

(** tokenizer.c 163-171 tokenizer_move_break_on_delimiter *)
Definition tokenizer_move_break_on_delimiter : M tokenizer bool :=
  let! s := rest in
  let! ds := gets delimiters in
  match string_find_pattern_from_strings s ds with
  | (_, Some d) => modify (set_last_delimiter (Some d));;! ret true
  | (_, None) => ret false
  end.

(** tokenizer.c 180-189 tokenizer_move_jump_over_ignore_brackets, looking for an end of what [a] starts *)
Fixpoint find_closing (s a : str) (l : list string_pair) : outcome Z :=
  match l with
  | [] => Ret 0
  | p :: l =>
      let* pa := or_fault (pa p) in
      if decide (a = pa) then
        let jmp := string_find_pattern s (pb p) in
        if decide (jmp > 0) then Ret jmp else find_closing s a l
      else find_closing s a l
  end.

(** tokenizer.c 178-195 tokenizer_move_jump_over_ignore_brackets, the loop *)
Fixpoint jump_loop (fuel : nat) (a : str) : M tokenizer unit :=
  match fuel with
  | O => throw OutOfFuel
  | S fuel =>
      let! s := rest in
      if decide (s = []) then ret tt
      else
        let! l := gets ignored in
        let! jump := lift (find_closing s a l) in
        if decide (jump > 0) then modify (λ t, set_cursor (cursor t + Z.to_nat jump) t)
        else modify (λ t, set_cursor (S (cursor t)) t);;! jump_loop fuel a
  end.

(** tokenizer.c 173-199 tokenizer_move_jump_over_ignore_brackets *)
Definition tokenizer_move_jump_over_ignore_brackets : M tokenizer bool :=
  let! s := rest in
  let! l := gets ignored in
  match string_find_pattern_from_pairs s l with
  | (n, Some p) =>
      modify (λ t, set_cursor (cursor t + Z.to_nat n) t);;!
      let! a := lift (or_fault (pa p)) in
      let! len := gets (λ t, length (string t)) in
      jump_loop (S len) a;;!
      ret true
  | (_, None) => ret false
  end.

(** tokenizer.c 206-216 tokenizer_move_to_next, the loop; it returns the end of the token *)
Fixpoint move_loop (fuel : nat) (token : nat) : M tokenizer nat :=
  match fuel with
  | O => throw OutOfFuel
  | S fuel =>
      let! s := rest in
      match s with
      | [] => ret token
      | c :: _ =>
          let! ' (replaced, token) := tokenizer_move_replace_if_needed token in
          if (replaced : bool) then move_loop fuel token
          else
            let! b := tokenizer_move_break_on_delimiter in
            if (b : bool) then ret token
            else
              let! j := tokenizer_move_jump_over_ignore_brackets in
              if (j : bool) then move_loop fuel token
              else
                let! token := put_char token c in
                modify (λ t, set_cursor (S (cursor t)) t);;!
                move_loop fuel token
      end
  end.

(** tokenizer.c 201-219 tokenizer_move_to_next *)
Definition tokenizer_move_to_next : M tokenizer bool :=
  let! d := gets last_delimiter in
  modify (λ t, set_cursor (cursor t + match d with Some d => length d | None => 0 end)%nat t);;!
  modify (set_last_delimiter None);;!
  modify (λ t, set_tok_start (cursor t) t);;!
  let! len := gets (λ t, length (string t)) in
  let! token := move_loop (S len) 0 in
  put_char token 0;;!
  let! s := rest in
  gets (λ t, bool_decide (tok_start t ≠ cursor t ∨ s ≠ [])).

(** The string in a buffer: what is before the first 0. *)
Fixpoint c_str (l : list Z) : str :=
  match l with [] => [] | c :: l => if decide (c = 0) then [] else c :: c_str l end.

(** tokenizer.c 225-227 tokenizer_get_current_token *)
Definition tokenizer_get_current_token (t : tokenizer) : str := c_str (current_token t).

(** tokenizer.c 220-224 tokenizer_get_next_token *)
Definition tokenizer_get_next_token : M tokenizer (option str) :=
  let! ok := tokenizer_move_to_next in
  if (ok : bool) then gets (λ t, Some (tokenizer_get_current_token t)) else ret None.

(** tokenizer.c 229-234 tokenizer_move_to_next_valid_token *)
Fixpoint move_to_next_valid_loop (fuel : nat) : M tokenizer bool :=
  match fuel with
  | O => throw OutOfFuel
  | S fuel =>
      let! ok := tokenizer_move_to_next in
      if (ok : bool) then
        let! s := gets tokenizer_get_current_token in
        if decide (s ≠ []) then ret true else move_to_next_valid_loop fuel
      else ret false
  end.
Definition tokenizer_move_to_next_valid_token : M tokenizer bool :=
  let! len := gets (λ t, length (string t)) in move_to_next_valid_loop (S (S len)).

(** tokenizer.c 236-240 tokenizer_get_next_valid_token *)
Definition tokenizer_get_next_valid_token : M tokenizer (option str) :=
  let! ok := tokenizer_move_to_next_valid_token in
  if (ok : bool) then gets (λ t, Some (tokenizer_get_current_token t)) else ret None.

(** tokenizer.c 242-244 tokenizer_get_last_delimiter *)
Definition tokenizer_get_last_delimiter (t : tokenizer) : option str := last_delimiter t.

(** tokenizer.c 246-248 tokenizer_get_cursor *)
Definition tokenizer_get_cursor (t : tokenizer) : nat := cursor t.

(** tokenizer.c 250-255 tokenizer_get_raw_iterator_start, and the end: the offsets of the segment that the token was made from *)
Definition tokenizer_get_raw_iterator (t : tokenizer) : nat * nat := (tok_start t, cursor t).

(** tokenizer.c 257-265 tokenizer_load_raw_token.  [buffer] is the caller's, and is big
    enough or else the code writes past it. *)
Definition tokenizer_load_raw_token (buffer : list Z) (t : tokenizer) : outcome (bool * list Z) :=
  let raw := take (cursor t - tok_start t) (drop (tok_start t) (string t)) in
  let* s := at_cursor (string t) (tok_start t) in
  if decide (length raw < length buffer)%nat then Ret (bool_decide (s = []), splice buffer 0 (raw ++ [0])) else Err Fault.
