(* ===== verification/TokenizerSpec.v ===== *)
(** What the tokenizer does and promises to the parser.  The relation [lexed] says
    which characters one call of [tokenizer_move_to_next] takes from the string and
    what it makes of them.  Whatever the string, its delimiters, what is ignored and
    what is replaced, the calls cut the string into segments and delimiters, without
    ever leaving a buffer. *)
From S2P Require Import Prelude Tokenizer.
Local Open Scope Z_scope.

(** ** Patterns *)

(** [p] is not empty, and [s] begins with it. *)
Definition starts (s p : str) : Prop := p ≠ [] ∧ p `prefix_of` s.
#[export] Instance starts_dec s p : Decision (starts s p) := _.

Definition starts_opt (s : str) (p : option str) : Prop := match p with Some p => starts s p | None => False end.
#[export] Instance starts_opt_dec s p : Decision (starts_opt s p).
Proof. destruct p; apply _. Defined.

(** The first element of [l] whose pattern [s] begins with. *)
Definition first_start {A} (f : A → option str) (s : str) (l : list A) : option A := head (filter (λ x, starts_opt s (f x)) l).

Lemma find_pattern_from s p i : 0 ≤ i → string_find_pattern_from s p i = if decide (p `prefix_of` s) then i + Z.of_nat (length p) else 0.
Proof.
  revert s i. induction p as [|c p IH]; intros s i Hi; cbn [string_find_pattern_from].
  - rewrite decide_True by apply prefix_nil. cbn [length]. lia.
  - destruct s as [|x s]; [by rewrite decide_False by apply prefix_nil_not|]. case_decide as Hc.
    + rewrite decide_False; [done|]. intros H%prefix_cons_inv_1. congruence.
    + subst x. rewrite IH by lia. destruct (decide (p `prefix_of` s)) as [Hp|Hp].
      * rewrite decide_True by (by apply prefix_cons). cbn [length]. lia.
      * rewrite decide_False; [done|]. intros H%prefix_cons_inv_2. done.
Qed.

Lemma find_pattern_ok s p : string_find_pattern s p = if decide (starts_opt s p) then Z.of_nat (length (default [] p)) else 0.
Proof.
  destruct p as [p|]; [|done]. cbn [string_find_pattern starts_opt default]. rewrite find_pattern_from by lia.
  destruct (decide (p `prefix_of` s)) as [Hp|Hp].
  - case_decide as Hs; [cbn; lia|]. destruct p; [done|]. exfalso. by apply Hs.
  - rewrite decide_False; [done|]. by intros [_ ?].
Qed.

Lemma starts_pos s p : starts s p → 0 < Z.of_nat (length p).
Proof. intros [Hp _]. destruct p; [done|cbn; lia]. Qed.

Lemma search_ok {A} (f : A → option str) s l :
  list_pattern_search_generic s l (λ s x, string_find_pattern s (f x)) =
  match first_start f s l with Some x => (Z.of_nat (length (default [] (f x))), Some x) | None => (0, None) end.
Proof.
  unfold first_start. induction l as [|x l IH]; [done|]. cbn [list_pattern_search_generic]. rewrite find_pattern_ok, filter_cons.
  destruct (decide (starts_opt s (f x))) as [Hs|Hs].
  - rewrite decide_True; [done|]. destruct (f x) as [p|]; [|done]. apply starts_pos in Hs. cbn. lia.
  - rewrite decide_False by lia. apply IH.
Qed.

Lemma first_start_some {A} (f : A → option str) s l x : first_start f s l = Some x → x ∈ l ∧ ∃ p, f x = Some p ∧ starts s p.
Proof.
  unfold first_start. intros H. assert (x ∈ filter (λ x, starts_opt s (f x)) l) as Hx by (destruct (filter _ l); [done|]; injection H as ->; by constructor).
  apply list_elem_of_filter in Hx as [Hs Hx]. split; [done|]. destruct (f x) as [p|]; [by exists p|done].
Qed.

(** ** What a call does *)
Section lex.
Context (D : list str) (I R : list string_pair).

(** From [s], after the start [a] of what is ignored: [k] characters up to the end of the first end. *)
Definition ends_of (a : str) : list string_pair := filter (λ p, pa p = Some a) I.
Inductive closes (a : str) : str → nat → Prop :=
  | close_end : closes a [] 0
  | close_here s p b : s ≠ [] → first_start pb s (ends_of a) = Some p → pb p = Some b → closes a s (length b)
  | close_later c s k : first_start pb (c :: s) (ends_of a) = None → closes a s k → closes a (c :: s) (S k).

(** From [s], a token [t] from [n] characters. *)
Inductive lexed : str → str → nat → Prop :=
  | lex_end : lexed [] [] 0
  | lex_replace s p a b t n : first_start pa s R = Some p → pa p = Some a → pb p = Some b → lexed (drop (length a) s) t n →
      lexed s (b ++ t) (length a + n)
  | lex_delimiter s d : first_start pa s R = None → first_start Some s D = Some d → lexed s [] 0
  | lex_ignore s p a k t n : first_start pa s R = None → first_start Some s D = None → first_start pa s I = Some p → pa p = Some a →
      closes a (drop (length a) s) k → lexed (drop (length a + k) s) t n → lexed s t (length a + k + n)
  | lex_char c s t n : first_start pa (c :: s) R = None → first_start Some (c :: s) D = None → first_start pa (c :: s) I = None → lexed s t n →
      lexed (c :: s) (c :: t) (S n).

Lemma starts_length s p : starts s p → (length p ≤ length s)%nat.
Proof. intros [_ [k ->]]. rewrite length_app. lia. Qed.

Lemma closes_length a s k : closes a s k → (k ≤ length s)%nat.
Proof.
  induction 1 as [|s p b Hs Hf Hb|c s k Hf Hc IH]; cbn; [lia| |lia].
  apply first_start_some in Hf as [_ (b' & Hb' & Hst)]. assert (b' = b) as -> by congruence. by apply starts_length.
Qed.

Lemma lexed_length s t n : lexed s t n → (n ≤ length s)%nat.
Proof.
  induction 1 as [|s p a b t n Hf Ha Hb Hl IH| |s p a k t n HR HD Hf Ha Hc Hl IH|c s t n HR HD HI Hl IH]; cbn; try lia; rewrite length_drop in IH;
    apply first_start_some in Hf as [_ (a' & Ha' & Hst)]; assert (a' = a) as -> by congruence; apply starts_length in Hst; [lia|].
  apply closes_length in Hc. rewrite length_drop in Hc. lia.
Qed.

(** Where it stops: at the end, or at a delimiter. *)
Lemma lexed_stops s t n : lexed s t n → drop n s = [] ∨ ∃ d, first_start Some (drop n s) D = Some d.
Proof.
  induction 1 as [|s p a b t n Hf Ha Hb Hl IH|s d HR HD|s p a k t n HR HD Hf Ha Hc Hl IH|c s t n HR HD HI Hl IH].
  - by left.
  - by rewrite drop_drop in IH.
  - right. by exists d.
  - by rewrite drop_drop in IH.
  - done.
Qed.

(** The token has at most [1 + delta] characters for each one that is taken. *)
Lemma lexed_room delta s t n : 0 ≤ delta → Forall (λ p, ∀ a b, pa p = Some a → pb p = Some b → Z.of_nat (length b) - Z.of_nat (length a) ≤ delta) R →
  lexed s t n → Z.of_nat (length t) ≤ Z.of_nat n * (1 + delta).
Proof.
  intros Hd HR. induction 1 as [|s p a b t n Hf Ha Hb Hl IH| |s p a k t n HR' HD Hf Ha Hc Hl IH|c s t n HR' HD HI Hl IH]; cbn; [lia| |lia|nia|lia].
  apply first_start_some in Hf as [Hp (a' & Ha' & Hst)]. assert (a' = a) as -> by congruence. apply starts_pos in Hst.
  rewrite Forall_forall in HR. specialize (HR p Hp a b Ha Hb). rewrite length_app. nia.
Qed.

Lemma lexed_fun s t n t' n' : lexed s t n → lexed s t' n' → t = t' ∧ n = n'.
Proof.
  assert (∀ a s k k', closes a s k → closes a s k' → k = k') as Hclose.
  { intros a s0 k k' H. revert k'. induction H as [|s0 p b Hs Hf Hb|c s0 k Hf Hc IH]; intros k' H'; inversion H'; subst; try done; try congruence. f_equal. by apply IH. }
  intros H. revert t' n'. induction H as [|s p a b t n Hf Ha Hb Hl IH|s d HR HD|s p a k t n HR HD Hf Ha Hc Hl IH|c s t n HR HD HI Hl IH];
    intros t' n' H'; inversion H'; subst; try done; try congruence;
    try (match goal with E : first_start _ [] _ = Some _ |- _ => apply first_start_some in E as [_ (? & _ & [? ?%prefix_nil_inv])]; done end).
  - assert (p0 = p) as -> by congruence. assert (a0 = a) as -> by congruence. assert (b0 = b) as -> by congruence.
    destruct (IH _ _ ltac:(eassumption)) as [-> ->]. done.
  - assert (p0 = p) as -> by congruence. assert (a0 = a) as -> by congruence.
    match goal with E : closes a _ ?k0 |- _ => assert (k0 = k) as -> by (by eapply Hclose) end. destruct (IH _ _ ltac:(eassumption)) as [-> ->]. done.
  - destruct (IH _ _ ltac:(eassumption)) as [-> ->]. done.
Qed.
End lex.

(** ** The tokenizer does that *)

(** The tokenizer's lists are well formed, and its buffer is long enough for replacements that add [delta] characters. *)
Record tok_ok (delta : Z) (t : tokenizer) : Prop := {
  tk_string : Forall (λ c, c ≠ 0) (string t);
  tk_replace : Forall (λ p, ∃ a b, pa p = Some a ∧ pb p = Some b ∧ Forall (λ c, c ≠ 0) b ∧ Z.of_nat (length b) - Z.of_nat (length a) ≤ delta) (replacements t);
  tk_ignore : Forall (λ p, is_Some (pa p)) (ignored t);
  tk_delta : 0 ≤ delta;
  tk_room : Z.of_nat (length (string t)) * (1 + delta) < Z.of_nat (length (current_token t));
}.

(** The tokenizer [t] further on. *)
Definition moved (cu : nat) (buf : list Z) (d : option str) (t : tokenizer) : tokenizer :=
  mkTok (string t) (delimiters t) (ignored t) (replacements t) cu (tok_start t) buf d.

Lemma tok_eta t : moved (cursor t) (current_token t) (last_delimiter t) t = t.
Proof. by destruct t. Qed.

Lemma rest_run t : (cursor t ≤ length (string t))%nat → rest t = Ret (drop (cursor t) (string t), t).
Proof. intros H. unfold rest, at_cursor. by rewrite decide_True. Qed.

Lemma insert_splice {A} (l : list A) i x : (i < length l)%nat → <[i := x]> l = splice l i [x].
Proof. intros H. rewrite <-(splice_insert_front l i x []) by (cbn; lia). by rewrite splice_nil. Qed.

Lemma put_char_run k c t : (k < length (current_token t))%nat → put_char k c t = Ret (S k, set_current_token (splice (current_token t) k [c]) t).
Proof. intros H. unfold put_char. rewrite decide_True by done. by rewrite insert_splice. Qed.

Lemma put_chars_run k b t : (k + length b ≤ length (current_token t))%nat →
  put_chars k b t = Ret ((k + length b)%nat, set_current_token (splice (current_token t) k b) t).
Proof.
  revert k t. induction b as [|c b IH]; intros k t H; cbn [put_chars length] in *.
  - unfold ret. rewrite splice_nil, Nat.add_0_r. by destruct t.
  - rewrite (bind_run _ _ _ _ _ (put_char_run k c t ltac:(lia))). rewrite IH by (cbn [current_token set_current_token]; rewrite length_splice; cbn [length]; lia).
    cbn [current_token set_current_token]. rewrite <-(Nat.add_1_r k). change 1%nat with (length [c]) at 2. rewrite splice_splice by (cbn; lia).
    f_equal. f_equal. lia.
Qed.

Section moves.
Context (delta : Z).
Implicit Types t : tokenizer.

Lemma tok_ok_moved t cu buf d : tok_ok delta t → length buf = length (current_token t) → tok_ok delta (moved cu buf d t).
Proof. intros [H1 H2 H3 H4 H5] Hb. split; try done. cbn. by rewrite Hb. Qed.

Lemma replace_run t k : tok_ok delta t → (cursor t ≤ length (string t))%nat →
  (Z.of_nat k + Z.of_nat (length (string t) - cursor t) * (1 + delta) < Z.of_nat (length (current_token t))) →
  tokenizer_move_replace_if_needed k t =
  match first_start pa (drop (cursor t) (string t)) (replacements t) with
  | Some p => let a := default [] (pa p) in let b := default [] (pb p) in
      Ret (true, (k + length b)%nat, moved (cursor t + length a) (splice (current_token t) k b) (last_delimiter t) t)
  | None => Ret (false, k, t)
  end.
Proof.
  intros Hok Hcu Hroom. unfold tokenizer_move_replace_if_needed. rewrite (bind_run _ _ _ _ _ (rest_run t Hcu)), bind_gets.
  unfold string_find_pattern_from_pairs. rewrite (search_ok pa). set (s := drop (cursor t) (string t)).
  destruct (first_start pa s (replacements t)) as [p|] eqn:Hf; [|done]. apply first_start_some in Hf as [Hp (a & Ha & Hst)].
  pose proof (tk_replace _ _ Hok) as HR. rewrite Forall_forall in HR. destruct (HR p Hp) as (a' & b & Ha' & Hb & _ & Hd). assert (a' = a) as -> by congruence.
  rewrite Ha, Hb. cbn [or_fault default]. rewrite bind_lift. pose proof (starts_length s a Hst) as Hla. unfold s in Hla. rewrite length_drop in Hla. apply starts_pos in Hst.
  pose proof (tk_delta _ _ Hok). rewrite (bind_run _ _ _ _ _ (put_chars_run k b t ltac:(nia))), bind_modify. unfold ret, moved, set_cursor, set_current_token. cbn. by rewrite Nat2Z.id.
Qed.

Lemma delimiter_run t : (cursor t ≤ length (string t))%nat →
  tokenizer_move_break_on_delimiter t =
  match first_start Some (drop (cursor t) (string t)) (delimiters t) with
  | Some d => Ret (true, moved (cursor t) (current_token t) (Some d) t)
  | None => Ret (false, t)
  end.
Proof.
  intros Hcu. unfold tokenizer_move_break_on_delimiter. rewrite (bind_run _ _ _ _ _ (rest_run t Hcu)), bind_gets.
  unfold string_find_pattern_from_strings. rewrite (search_ok Some). by destruct (first_start Some _ _).
Qed.

Lemma find_closing_ok a s l : Forall (λ p, is_Some (pa p)) l →
  find_closing s a l = Ret (match first_start pb s (ends_of l a) with Some p => Z.of_nat (length (default [] (pb p))) | None => 0 end).
Proof.
  unfold first_start, ends_of. induction 1 as [|p l [a' Ha'] Hl IH]; [done|]. cbn [find_closing]. rewrite Ha'. cbn [or_fault obind]. rewrite filter_cons.
  destruct (decide (a = a')) as [<-|Hne].
  - rewrite (decide_True (P := pa p = Some a)) by done. rewrite filter_cons, find_pattern_ok. destruct (decide (starts_opt s (pb p))) as [Hs|Hs].
    + rewrite decide_True; [done|]. destruct (pb p) as [b|]; [|done]. apply starts_pos in Hs. cbn. lia.
    + rewrite decide_False by lia. apply IH.
  - rewrite (decide_False (P := pa p = Some a)) by congruence. apply IH.
Qed.

Lemma jump_loop_ok fuel a t : tok_ok delta t → (cursor t ≤ length (string t))%nat → (length (string t) - cursor t < fuel)%nat →
  ∃ k, closes (ignored t) a (drop (cursor t) (string t)) k ∧
    jump_loop fuel a t = Ret (tt, moved (cursor t + k) (current_token t) (last_delimiter t) t).
Proof.
  revert t. induction fuel as [|fuel IH]; intros t Hok Hcu Hf; [lia|]. cbn [jump_loop]. rewrite (bind_run _ _ _ _ _ (rest_run t Hcu)).
  destruct (drop (cursor t) (string t)) as [|c s] eqn:Es.
  - exists 0%nat. split; [constructor|]. rewrite decide_True by done. unfold ret. by rewrite Nat.add_0_r, tok_eta.
  - rewrite decide_False by done. rewrite bind_gets, find_closing_ok by apply (tk_ignore _ _ Hok). rewrite bind_lift.
    assert (cursor t < length (string t))%nat as Hlt by (apply (f_equal length) in Es; rewrite length_drop in Es; cbn in Es; lia).
    destruct (first_start pb (c :: s) (ends_of (ignored t) a)) as [p|] eqn:Hp.
    + pose proof Hp as [_ (b & Hb & Hst)]%first_start_some. apply starts_pos in Hst. exists (length b). split; [by apply (close_here _ _ _ p)|].
      rewrite Hb. cbn [default from_option id]. rewrite decide_True by lia. unfold modify, moved, set_cursor. by rewrite Nat2Z.id.
    + rewrite decide_False by lia. rewrite bind_modify. destruct (IH (set_cursor (S (cursor t)) t)) as (k & Hk & Hrun); [by destruct Hok|cbn; lia|cbn; lia|].
      cbn [cursor string ignored set_cursor] in Hk. assert (drop (S (cursor t)) (string t) = s) as E by (rewrite <-Nat.add_1_r, <-drop_drop, Es; done).
      rewrite E in Hk. exists (S k). split; [by constructor|]. rewrite Hrun. unfold moved. cbn. do 2 f_equal. f_equal. lia.
Qed.

Lemma ignore_run t : tok_ok delta t → (cursor t ≤ length (string t))%nat →
  match first_start pa (drop (cursor t) (string t)) (ignored t) with
  | Some p => ∃ a k, pa p = Some a ∧ closes (ignored t) a (drop (length a) (drop (cursor t) (string t))) k ∧ (cursor t + length a ≤ length (string t))%nat ∧
      tokenizer_move_jump_over_ignore_brackets t = Ret (true, moved (cursor t + length a + k) (current_token t) (last_delimiter t) t)
  | None => tokenizer_move_jump_over_ignore_brackets t = Ret (false, t)
  end.
Proof.
  intros Hok Hcu. unfold tokenizer_move_jump_over_ignore_brackets. rewrite (bind_run _ _ _ _ _ (rest_run t Hcu)), bind_gets.
  unfold string_find_pattern_from_pairs. rewrite (search_ok pa). destruct (first_start pa _ (ignored t)) as [p|] eqn:Hf; [|done].
  apply first_start_some in Hf as [_ (a & Ha & Hst)]. apply starts_length in Hst. rewrite length_drop in Hst. rewrite Ha. cbn [default or_fault].
  rewrite bind_modify. cbn beta. rewrite bind_lift, bind_gets, Nat2Z.id. cbn [string cursor set_cursor].
  destruct (jump_loop_ok (S (length (string t))) a (set_cursor (cursor t + length a) t)) as (k & Hk & Hrun); [by destruct Hok|cbn; lia|cbn; lia|].
  exists a, k. cbn [cursor string ignored set_cursor] in Hk. rewrite drop_drop. split; [done|]. split; [done|]. split; [lia|]. by rewrite (bind_run _ _ _ _ _ Hrun).
Qed.

Lemma splice_more {A} (buf : list A) k b tok : (k + length b + length tok ≤ length buf)%nat → splice (splice buf k b) (k + length b) tok = splice buf k (b ++ tok).
Proof. intros H. by apply splice_splice. Qed.

(** The rest of a token, of which [k] characters are in the buffer. *)
Lemma tokenizer_move_loop_ok fuel k t : tok_ok delta t → (cursor t ≤ length (string t))%nat → (length (string t) - cursor t < fuel)%nat → last_delimiter t = None →
  (Z.of_nat k + Z.of_nat (length (string t) - cursor t) * (1 + delta) < Z.of_nat (length (current_token t))) →
  ∃ tok n, lexed (delimiters t) (ignored t) (replacements t) (drop (cursor t) (string t)) tok n ∧
    (k + length tok < length (current_token t))%nat ∧
    move_loop fuel k t = Ret ((k + length tok)%nat, moved (cursor t + n) (splice (current_token t) k tok) (first_start Some (drop (cursor t + n) (string t)) (delimiters t)) t).
Proof.
  revert k t. induction fuel as [|fuel IH]; intros k t Hok Hcu Hf Hd Hroom; [lia|]. cbn [move_loop]. rewrite (bind_run _ _ _ _ _ (rest_run t Hcu)).
  pose proof (tk_delta _ _ Hok) as Hdel. assert (0 ≤ Z.of_nat (length (string t) - cursor t) * (1 + delta)) as Hnn by nia.
  destruct (drop (cursor t) (string t)) as [|c s] eqn:Es.
  { exists [], 0%nat. split; [constructor|]. split; [cbn; lia|]. unfold ret. rewrite Nat.add_0_r, splice_nil, Nat.add_0_r, Es.
    assert (first_start Some [] (delimiters t) = None) as ->; [|by rewrite <-Hd, tok_eta].
    destruct (first_start Some [] _) eqn:E; [|done]. apply first_start_some in E as [_ (? & [= ->] & [? ?%prefix_nil_inv])]. done. }
  assert (cursor t < length (string t))%nat as Hlt by (apply (f_equal length) in Es; rewrite length_drop in Es; cbn in Es; lia).
  pose proof (replace_run t k Hok Hcu Hroom) as Hrep. rewrite Es in Hrep. destruct (first_start pa (c :: s) (replacements t)) as [p|] eqn:HR.
  { pose proof HR as [Hp (a & Ha & Hst)]%first_start_some. pose proof (tk_replace _ _ Hok) as HRs. rewrite Forall_forall in HRs.
    destruct (HRs p Hp) as (a' & b & Ha' & Hb & _ & Hdb). assert (a' = a) as -> by congruence. rewrite Ha, Hb in Hrep. cbn [default from_option id] in Hrep.
    rewrite (bind_run _ _ _ _ _ Hrep). cbn beta iota. pose proof (starts_length _ _ Hst) as Hla. rewrite <-Es, length_drop in Hla. apply starts_pos in Hst.
    assert (length (splice (current_token t) k b) = length (current_token t)) as Hlen by (apply length_splice; nia).
    destruct (IH (k + length b)%nat (moved (cursor t + length a) (splice (current_token t) k b) (last_delimiter t) t)) as (tok & n & Hlex & Hfit & Hrun);
      [by apply tok_ok_moved|cbn; lia|cbn; lia|done|cbn [string cursor current_token moved]; rewrite Hlen; nia|].
    cbn [string cursor current_token delimiters ignored replacements moved] in Hlex, Hfit, Hrun. rewrite Hlen in Hfit. exists (b ++ tok), (length a + n)%nat.
    split; [apply (lex_replace _ _ _ _ p); [done..|]; by rewrite <-Es, drop_drop|]. rewrite length_app. split; [lia|].
    rewrite Hrun. unfold moved. cbn. rewrite splice_more by lia. by rewrite !Nat.add_assoc. }
  rewrite (bind_run _ _ _ _ _ Hrep). cbn beta iota. pose proof (delimiter_run t Hcu) as Hdl. rewrite Es in Hdl.
  destruct (first_start Some (c :: s) (delimiters t)) as [d|] eqn:HD; rewrite (bind_run _ _ _ _ _ Hdl).
  { exists [], 0%nat. split; [by apply (lex_delimiter _ _ _ _ d)|]. split; [cbn; lia|]. by rewrite Nat.add_0_r, splice_nil, Nat.add_0_r, Es, HD. }
  pose proof (ignore_run t Hok Hcu) as Hig. rewrite Es in Hig. destruct (first_start pa (c :: s) (ignored t)) as [p|] eqn:HI.
  - destruct Hig as (a & m & Ha & Hcl & Hla & Hig). rewrite (bind_run _ _ _ _ _ Hig). pose proof (closes_length _ _ _ _ Hcl) as Hm.
    rewrite <-Es, drop_drop, length_drop in Hm. pose proof HI as [_ (a' & Ha' & Hst)]%first_start_some. assert (a' = a) as -> by congruence. apply starts_pos in Hst.
    destruct (IH k (moved (cursor t + length a + m) (current_token t) (last_delimiter t) t)) as (tok & n & Hlex & Hfit & Hrun);
      [by apply tok_ok_moved|cbn; lia|cbn; lia|done|cbn [string cursor current_token moved]; nia|].
    cbn [string cursor current_token delimiters ignored replacements moved] in Hlex, Hfit, Hrun. exists tok, (length a + m + n)%nat.
    split; [apply (lex_ignore _ _ _ _ p a m); try done; by rewrite <-Es, drop_drop, Nat.add_assoc|]. split; [done|].
    rewrite Hrun. unfold moved. cbn. by rewrite !Nat.add_assoc.
  - rewrite (bind_run _ _ _ _ _ Hig). rewrite (bind_run _ _ _ _ _ (put_char_run k c t ltac:(nia))), bind_modify. cbn beta.
    assert (length (splice (current_token t) k [c]) = length (current_token t)) as Hlen by (apply length_splice; cbn; nia).
    destruct (IH (S k) (moved (S (cursor t)) (splice (current_token t) k [c]) (last_delimiter t) t)) as (tok & n & Hlex & Hfit & Hrun);
      [by apply tok_ok_moved|cbn; lia|cbn; lia|done|cbn [string cursor current_token moved]; rewrite Hlen; nia|].
    cbn [string cursor current_token delimiters ignored replacements moved] in Hlex, Hfit, Hrun. rewrite Hlen in Hfit.
    assert (drop (S (cursor t)) (string t) = s) as E by (rewrite <-Nat.add_1_r, <-drop_drop, Es; done). rewrite E in Hlex.
    exists (c :: tok), (S n). split; [by constructor|]. cbn [length]. split; [lia|]. etransitivity; [exact Hrun|]. unfold moved. cbn.
    rewrite <-(Nat.add_1_r k), (splice_more _ k [c] tok) by (cbn; lia). cbn [app]. by rewrite !Nat.add_succ_r.
Qed.
End moves.

(** ** All calls *)

Lemma c_str_app tok l : Forall (λ c, c ≠ 0) tok → c_str (tok ++ 0 :: l) = tok.
Proof. induction 1 as [|c tok Hc Htok IH]; [done|]. cbn. by rewrite decide_False, IH. Qed.

Lemma lexed_nonzero D I R s tok n : Forall (λ c, c ≠ 0) s → Forall (λ p, ∀ b, pb p = Some b → Forall (λ c, c ≠ 0) b) R → lexed D I R s tok n → Forall (λ c, c ≠ 0) tok.
Proof.
  intros Hs HR. induction 1 as [|s p a b t n Hf Ha Hb Hl IH| |s p a k t n HR' HD Hf Ha Hc Hl IH|c s t n HR' HD HI Hl IH]; try constructor.
  - apply Forall_app. split; [|by apply IH, Forall_drop]. apply first_start_some in Hf as [Hp _]. rewrite Forall_forall in HR. by apply (HR p).
  - by apply IH, Forall_drop.
  - by inversion Hs.
  - apply IH. by inversion Hs.
Qed.

(** ** One call *)

(** Between two calls: the delimiter that ended the last token is at the cursor. *)
Record ready (delta : Z) (t : tokenizer) : Prop := {
  rd_ok : tok_ok delta t;
  rd_cursor : (cursor t ≤ length (string t))%nat;
  rd_delimiter d : last_delimiter t = Some d → starts (drop (cursor t) (string t)) d;
}.

Definition len_opt (d : option str) : nat := length (default [] d).
(** Where the next token starts. *)
Definition next_start (t : tokenizer) : nat := (cursor t + len_opt (last_delimiter t))%nat.

Lemma next_start_le delta t : ready delta t → (next_start t ≤ length (string t))%nat.
Proof.
  intros [_ Hc Hd]. unfold next_start, len_opt. destruct (last_delimiter t) as [d|]; cbn; [|lia].
  pose proof (starts_length _ _ (Hd d eq_refl)) as H. rewrite length_drop in H. lia.
Qed.

(** The text of the string that the token was made from. *)
Definition raw_token (t : tokenizer) : str := take (cursor t - tok_start t) (drop (tok_start t) (string t)).

Lemma move_to_next_ok delta t : ready delta t → ∃ tok n t',
  lexed (delimiters t) (ignored t) (replacements t) (drop (next_start t) (string t)) tok n ∧
  tokenizer_move_to_next t = Ret (bool_decide (n ≠ 0%nat ∨ drop (next_start t + n) (string t) ≠ []), t') ∧
  ready delta t' ∧ tokenizer_get_current_token t' = tok ∧ raw_token t' = take n (drop (next_start t) (string t)) ∧
  (string t' = string t ∧ delimiters t' = delimiters t ∧ ignored t' = ignored t ∧ replacements t' = replacements t) ∧
  (tok_start t' = next_start t ∧ cursor t' = next_start t + n)%nat ∧
  last_delimiter t' = first_start Some (drop (next_start t + n) (string t)) (delimiters t).
Proof.
  intros Hr. pose proof (next_start_le delta t Hr) as Hle. set (i := next_start t) in *. destruct Hr as [Hok Hc Hd].
  set (t1 := mkTok (string t) (delimiters t) (ignored t) (replacements t) i i (current_token t) None).
  assert (tok_ok delta t1) as Hok1 by (by destruct Hok).
  destruct (tokenizer_move_loop_ok delta (S (length (string t))) 0 t1) as (tok & n & Hlex & Hfit & Hrun); [done|done|cbn; lia|done|cbn [cursor string current_token t1]|].
  { pose proof (tk_room _ _ Hok). pose proof (tk_delta _ _ Hok). nia. }
  cbn [cursor string current_token delimiters ignored replacements t1 Nat.add] in Hlex, Hfit, Hrun.
  pose proof (lexed_length _ _ _ _ _ _ Hlex) as Hn. rewrite length_drop in Hn. set (d' := first_start Some (drop (i + n) (string t)) (delimiters t)) in *.
  set (t2 := moved (i + n) (splice (current_token t) 0 tok) d' t1) in *.
  assert (length (splice (current_token t) 0 tok) = length (current_token t)) as Hlen by (apply length_splice; cbn; lia).
  set (buf := splice (splice (current_token t) 0 tok) (length tok) [0]). set (t' := moved (i + n) buf d' t1).
  assert (length buf = length (current_token t)) as Hlb by (unfold buf; rewrite length_splice by (rewrite ?Hlen; cbn; lia); exact Hlen).
  assert (tok_ok delta t') as Hok' by (by apply tok_ok_moved).
  exists tok, n, t'. split; [done|]. split; [|split; [split; [done|cbn; lia|]|split]].
  - unfold tokenizer_move_to_next. rewrite bind_gets, bind_modify. cbn beta. rewrite bind_modify. cbn beta. rewrite bind_modify. cbn beta. rewrite bind_gets.
    cbn [set_cursor set_last_delimiter set_tok_start string]. match goal with |- bind _ _ ?x = _ => assert (x = t1) as -> by (unfold t1, i, next_start, len_opt; by destruct (last_delimiter t)) end.
    rewrite (bind_run _ _ _ _ _ Hrun). assert (put_char (length tok) 0 t2 = Ret (S (length tok), t')) as Hput by (rewrite put_char_run by (cbn; lia); done).
    rewrite (bind_run _ _ _ _ _ Hput). rewrite (bind_run _ _ _ _ _ (rest_run t' ltac:(cbn; lia))). unfold gets. cbn [cursor tok_start string t' moved t1].
    f_equal. f_equal. apply bool_decide_ext. split; (intros [H|H]; [left; lia|by right]).
  - intros d Hfd. cbn in Hfd. unfold d' in Hfd. apply first_start_some in Hfd as [_ (? & [= ->] & Hst)]. done.
  - unfold tokenizer_get_current_token. cbn [current_token t' moved]. assert (buf = splice (current_token t) 0 (tok ++ [0])) as -> by (apply (splice_splice (current_token t) 0 tok [0]); cbn; lia).
    unfold splice. cbn [take app]. rewrite <-app_assoc. apply c_str_app. apply (lexed_nonzero _ _ _ _ _ _ (Forall_drop _ _ _ (tk_string _ _ Hok))) in Hlex; [done|].
    apply (Forall_impl _ _ _ (tk_replace _ _ Hok)). intros p (a & b & Ha & Hb & Hnz & _) b' Hb'. congruence.
  - split; [|done]. unfold raw_token. cbn. f_equal. lia.
Qed.

(** ** All the tokens *)

(** A client's loop over the tokens: of each the segment of the string, the token and the delimiter behind it. *)
Fixpoint read_tokens (fuel : nat) : M tokenizer (list (str * str * option str)) :=
  match fuel with
  | O => throw OutOfFuel
  | S fuel =>
      let! ok := tokenizer_move_to_next in
      if (ok : bool) then
        let! x := gets (λ t, (raw_token t, tokenizer_get_current_token t, tokenizer_get_last_delimiter t)) in
        let! xs := read_tokens fuel in ret (x :: xs)
      else ret []
  end.

(** How a string is split. *)
Inductive splits (D : list str) (I R : list string_pair) : str → list (str * str * option str) → Prop :=
  | splits_end : splits D I R [] []
  | splits_next s tok n xs : lexed D I R s tok n → s ≠ [] →
      (let d := first_start Some (drop n s) D in
       splits D I R (drop (n + len_opt d) s) xs → splits D I R s ((take n s, tok, d) :: xs)).

(** The segments and the delimiters, one after the other. *)
Fixpoint joined (xs : list (str * str * option str)) : str :=
  match xs with [] => [] | (raw, _, d) :: xs => raw ++ default [] d ++ joined xs end.

Lemma starts_take s p : starts s p → take (length p) s = p.
Proof. intros [_ [k ->]]. by rewrite take_app_length. Qed.

Lemma splits_joined D I R s xs : splits D I R s xs → joined xs = s.
Proof.
  induction 1 as [|s tok n xs Hlex Hs d Hsp IH]; [done|]. cbn [joined]. rewrite IH, <-drop_drop.
  etransitivity; [|apply (take_drop n s)]. f_equal. clear Hsp IH. subst d. destruct (first_start Some (drop n s) D) as [d|] eqn:Hd; [|done]. apply first_start_some in Hd as [_ (? & [= ->] & Hst)].
  unfold len_opt. cbn. rewrite <-(starts_take _ _ Hst) at 1. apply take_drop.
Qed.

Lemma ready_stop delta t : ready delta t → ∀ tok n, lexed (delimiters t) (ignored t) (replacements t) (drop (next_start t) (string t)) tok n →
  n ≠ 0%nat ∨ drop (next_start t + n) (string t) ≠ [] ↔ drop (next_start t) (string t) ≠ [].
Proof.
  intros Hr tok n Hlex. pose proof (lexed_length _ _ _ _ _ _ Hlex) as Hn. split.
  - intros [H|H] E; [rewrite E in Hn; cbn in Hn; lia|]. apply H. by rewrite <-drop_drop, E, drop_nil.
  - intros H. destruct n; [right; by rewrite Nat.add_0_r|by left].
Qed.

Lemma read_tokens_ok delta fuel t : ready delta t → (length (string t) - next_start t < fuel)%nat →
  ∃ xs t', read_tokens fuel t = Ret (xs, t') ∧ splits (delimiters t) (ignored t) (replacements t) (drop (next_start t) (string t)) xs.
Proof.
  revert t. induction fuel as [|fuel IH]; intros t Hr Hf; [lia|]. pose proof (next_start_le delta t Hr) as Hle.
  destruct (move_to_next_ok delta t Hr) as (tok & n & t' & Hlex & Hrun & Hr' & Htok & Hraw & (E1 & E2 & E3 & E4) & (_ & Hc) & Hd).
  cbn [read_tokens]. rewrite (bind_run _ _ _ _ _ Hrun). pose proof (ready_stop delta t Hr tok n Hlex) as Hstop.
  set (s := drop (next_start t) (string t)) in *. destruct (decide (s = [])) as [Es|Es].
  - exists [], t'. rewrite bool_decide_eq_false_2 by (rewrite Hstop; tauto). split; [done|]. rewrite Es. constructor.
  - rewrite bool_decide_eq_true_2 by (by apply Hstop). rewrite bind_gets. unfold tokenizer_get_last_delimiter. rewrite Hraw, Htok, Hd.
    assert (next_start t' = next_start t + n + len_opt (first_start Some (drop n s) (delimiters t)))%nat as Hns by (unfold next_start at 1; by rewrite Hc, Hd, <-drop_drop).
    assert (0 < n + len_opt (first_start Some (drop n s) (delimiters t)))%nat as Hpos.
    { destruct n as [|n]; [|lia]. destruct (lexed_stops _ _ _ _ _ _ Hlex) as [E|[d E]]; [done|]. rewrite E. unfold len_opt. cbn.
      apply first_start_some in E as [_ (? & [= ->] & Hst)]. apply starts_pos in Hst. lia. }
    assert (length s = length (string t) - next_start t)%nat as Hls by apply length_drop.
    assert (length s ≠ 0)%nat as Hls0 by (by intros ?%nil_length_inv).
    destruct (IH t' Hr') as (xs & t2 & Hrest & Hsp); [rewrite E1, Hns; lia|]. rewrite (bind_run _ _ _ _ _ Hrest). eexists _, t2. split; [done|].
    rewrite <-drop_drop. fold s. apply splits_next; [done|done|]. rewrite E1, E2, E3, E4, Hns, <-Nat.add_assoc, <-drop_drop in Hsp. exact Hsp.
Qed.

(** ** Initialisation *)
Definition growth (p : string_pair) : Z := Z.of_nat (len_opt (pb p)) - Z.of_nat (len_opt (pa p)).
Definition max_growth (R : list string_pair) : Z := foldr Z.max 0 (growth <$> R).

(** Lists of pairs whose strings are all there, and are C strings. *)
Definition full_pairs (R : list string_pair) : Prop :=
  Forall (λ p, ∃ a b, pa p = Some a ∧ pb p = Some b ∧ Forall (λ c, c ≠ 0) b ∧ Z.of_nat (length a) < 1073741824 ∧ Z.of_nat (length b) < 1073741824) R.

Lemma max_delta_ok R d : 0 ≤ d → full_pairs R → max_delta R d = Ret (Z.max d (max_growth R)).
Proof.
  intros Hd HR. revert d Hd. induction HR as [|p R (a & b & Ha & Hb & _ & La & Lb) HR IH]; intros d Hd; cbn [max_delta].
  - by rewrite Z.max_l.
  - rewrite Ha, Hb. cbn [or_fault obind]. unfold s32. rewrite Z.mod_small by lia.
    change (max_growth (p :: R)) with (Z.max (growth p) (max_growth R)). unfold growth, len_opt. rewrite Ha, Hb. cbn [default from_option id].
    case_decide as Hlt; rewrite IH by lia; f_equal; lia.
Qed.

Lemma max_growth_le R p : p ∈ R → growth p ≤ max_growth R.
Proof. unfold max_growth. induction 1; cbn; lia. Qed.
Lemma max_growth_pos R : 0 ≤ max_growth R.
Proof. unfold max_growth. induction R; cbn; lia. Qed.

(** With enough memory [m] gives [x], else nothing. *)
Definition maybe {A} (m : M (list bool) (option A)) (x : A) : Prop :=
  m [] = Ret (Some x, []) ∧ ∀ l, ∃ l', m l = Ret (None, l') ∨ m l = Ret (Some x, l').

Lemma maybe_bind {A B} (m : M (list bool) (option A)) (f : A → M (list bool) (option B)) x y : maybe m x → maybe (f x) y →
  maybe (let! o := m in match o with None => ret None | Some x => f x end) y.
Proof.
  intros [H1 H2] [F1 F2]. split; [by rewrite (bind_run _ _ _ _ _ H1)|]. intros l. destruct (H2 l) as (l1 & [E|E]); rewrite (bind_run _ _ _ _ _ E); [exists l1; by left|apply F2].
Qed.

Lemma maybe_alloc {A} (m : M (list bool) (option A)) x : maybe m x → maybe (let! ok := alloc in if (ok : bool) then m else ret None) x.
Proof. intros [H1 H2]. split; [exact H1|]. intros [|[] l]; [apply H2|apply H2|exists l; by left]. Qed.

Lemma maybe_negb {A} (m : M (list bool) (option A)) x : maybe m x → maybe (let! ok := alloc in if negb ok then ret None else m) x.
Proof. intros [H1 H2]. split; [exact H1|]. intros [|[] l]; [apply H2|apply H2|exists l; by left]. Qed.

Lemma maybe_ret {A} (x : A) : maybe (ret (Some x)) x.
Proof. split; [done|]. intros l. exists l. by right. Qed.

Lemma strdup_ok s : maybe (strdup s) s.
Proof. split; [done|]. intros [|[] l]; [exists []|exists l|exists l]; unfold strdup, alloc, bind, ret; auto. Qed.

Lemma cpy_elems_ok {A} (f : A → M (list bool) (option A)) xs : (∀ x, maybe (f x) x) → maybe (cpy_elems f xs) xs.
Proof.
  intros Hf. induction xs as [|x xs IH]; cbn [cpy_elems]; [apply maybe_ret|].
  apply (maybe_bind (f x) (λ y, let! ys := cpy_elems f xs in ret (cons y <$> ys)) x); [apply Hf|]. destruct IH as [H1 H2]. split; [by rewrite (bind_run _ _ _ _ _ H1)|].
  intros l. destruct (H2 l) as (l' & [E|E]); rewrite (bind_run _ _ _ _ _ E); exists l'; [by left|by right].
Qed.

Lemma cpy_list_ok {A} (f : A → M (list bool) (option A)) xs : (∀ x, maybe (f x) x) → maybe (cpy_list f (Some xs)) xs.
Proof. intros Hf. by apply maybe_alloc, cpy_elems_ok. Qed.

Lemma pair_cpy_ok p : maybe (string_pair_cpy_construct p) p.
Proof.
  destruct p as [a b]. unfold string_pair_cpy_construct, string_pair_init. cbn [pa pb].
  assert (∀ o, dup_opt o [] = Ret (o, [])) as Hn by (by intros [|]).
  assert (∀ o l, ∃ l' x, dup_opt o l = Ret (x, l') ∧ (x = None ∨ x = o)) as Hd.
  { intros [s|] l0; [|by exists l0, None; auto]. destruct (proj2 (strdup_ok s) l0) as (l' & [E|E]); eauto. }
  split.
  - rewrite (bind_run _ _ _ _ _ (Hn a)), (bind_run _ _ _ _ _ (Hn b)). by rewrite decide_False by tauto.
  - intros l. destruct (Hd a l) as (l1 & x & E1 & Hx). rewrite (bind_run _ _ _ _ _ E1).
    destruct (Hd b l1) as (l2 & y & E2 & Hy). rewrite (bind_run _ _ _ _ _ E2). exists l2. case_decide as H; [by left|right].
    unfold ret. do 3 f_equal. f_equal; [destruct Hx as [->| ->]|destruct Hy as [->| ->]]; try done.
    + destruct a; [|done]. exfalso. apply H. by left.
    + destruct b; [|done]. exfalso. apply H. by right.
Qed.

(** The tokenizer at the start of [s]. *)
Definition new_tokenizer (s : str) (D : list str) (I R : list string_pair) : tokenizer :=
  mkTok s D I R 0 0 (replicate (Z.to_nat (Z.of_nat (length s) * (1 + max_growth R) + 1)) 0) None.

Lemma tokenizer_init_ok s D I R : full_pairs R → Z.of_nat (length s) * (1 + max_growth R) < 2147483647 →
  maybe (tokenizer_init s (Some D) (Some I) (Some R)) (new_tokenizer s D I R).
Proof.
  intros HR Hsize. unfold tokenizer_init. apply (maybe_bind _ _ s); [apply strdup_ok|]. apply (maybe_bind _ _ D); [apply cpy_list_ok, strdup_ok|].
  apply (maybe_bind _ _ I); [apply cpy_list_ok, pair_cpy_ok|]. apply (maybe_bind _ _ R); [apply cpy_list_ok, pair_cpy_ok|].
  rewrite max_delta_ok by done. pose proof (max_growth_pos R) as Hg. rewrite Z.max_r by lia. assert (0 ≤ Z.of_nat (length s) * (1 + max_growth R)) by nia.
  assert (s32 (Z.of_nat (length s) * (1 + max_growth R)) = Z.of_nat (length s) * (1 + max_growth R)) as Es by (apply s32_small; lia).
  split; [|intros [|[] l]; eexists]; unfold bind, lift, alloc, ret; rewrite Es; [|right|right|left]; (rewrite decide_False by (intros [?|?]; [done|lia])) || (rewrite decide_True by auto); reflexivity.
Qed.

Lemma new_tokenizer_ready s D I R : Forall (λ c, c ≠ 0) s → full_pairs R → Forall (λ p, is_Some (pa p)) I → ready (max_growth R) (new_tokenizer s D I R).
Proof.
  intros Hs HR HI. pose proof (max_growth_pos R). split; [|cbn; lia|done]. split; try done; cbn [replacements new_tokenizer string current_token].
  - unfold full_pairs in HR. rewrite Forall_forall in HR. apply Forall_forall. intros p Hp. destruct (HR p Hp) as (a & b & Ha & Hb & Hnz & _). exists a, b.
    pose proof (max_growth_le R p Hp) as Hle. unfold growth, len_opt in Hle. by rewrite Ha, Hb in Hle.
  - rewrite length_replicate. nia.
Qed.

(** C37: splitting a string.  Whatever the delimiters, what is ignored and what is
    replaced: with enough memory [tokenizer_init] gives a tokenizer, and else may
    report failure (what it frees then is not modelled); and a client's loop over its tokens ends, without a write beyond its
    buffer, with the segments and tokens that the relation [lexed] describes, so
    that the segments and the delimiters behind them are the string again. *)
Theorem tokens_make_up_the_string s D I R l : Forall (λ c, c ≠ 0) s → full_pairs R → Forall (λ p, is_Some (pa p)) I →
  Z.of_nat (length s) * (1 + max_growth R) < 2147483647 →
  ∃ o l', tokenizer_init s (Some D) (Some I) (Some R) l = Ret (o, l') ∧ (o = None → l ≠ []) ∧
    ∀ t, o = Some t → ∃ xs t', read_tokens (S (length s)) t = Ret (xs, t') ∧ splits D I R s xs ∧ joined xs = s.
Proof.
  intros Hs HR HI Hsize. destruct (tokenizer_init_ok s D I R HR Hsize) as [Hnil Hany]. destruct (Hany l) as (l' & Hl).
  assert (∀ t, Some (new_tokenizer s D I R) = Some t → ∃ xs t', read_tokens (S (length s)) t = Ret (xs, t') ∧ splits D I R s xs ∧ joined xs = s) as Hread.
  { intros t [= <-]. destruct (read_tokens_ok _ (S (length s)) _ (new_tokenizer_ready s D I R Hs HR HI)) as (xs & t' & Hrun & Hsp); [cbn; lia|].
    exists xs, t'. split; [exact Hrun|]. split; [exact Hsp|by apply (splits_joined D I R)]. }
  destruct Hl as [E|E]; eexists _, l'; (split; [exact E|]).
  - split; [intros _ ->; congruence|done].
  - split; [done|exact Hread].
Qed.
