(* ===== verification/Parser.v ===== *)
(** How the shell takes an input line apart: parser_util.c and input_parser.c of
    Project1, on the tokenizer.

    A command is the list of its tokens, before the null token that ends the
    array; an array of [token_t] or of commands that is too short is a fault.
    Running a command or a pipeline is what the operating system does; what the
    parser does with the result is here. *)
From S2P Require Import Prelude Tokenizer.
Local Open Scope Z_scope.

(** parser_util.h 8-12 token_type *)
Inductive token_type : Type := UNKNOWN | STRING | NO_TYPE.
#[export] Instance token_type_eq : EqDecision token_type.
Proof. solve_decision. Defined.
(** parser_util.h 14-18 token_t.  Null tokens only end the arrays. *)
Record token_t := mkToken { tstring : str; ttype : token_type; last_char : Z }.

#[export] Instance token_t_eq : EqDecision token_t.
Proof. solve_decision. Defined.

(** parser_util.c 49-50 STRING_START_ENDS *)
Definition STRING_START_ENDS : list str := [[34]; [39]].
(** parser_util.c 51-52 WHITE_SPACES *)
Definition WHITE_SPACES : list str := [[32]; [9]; [13]; [10]; [11]; [12]].
(** parser_util.c 53-54 COMMAND_DELIMITERS *)
Definition COMMAND_DELIMITERS : list str := [[32]; [9]; [13]; [10]; [11]; [12]; [34]; [39]].
(** parser_util.c 55-56 COMMAND_COMMENTS *)
Definition COMMAND_COMMENTS : list string_pair := [mkPair (Some [35]) None].
(** util.c 45-59 ESCAPE_SEQUENCES.  In the C source ["\\\a"] is a backslash and the character 7. *)
Definition ESCAPE_SEQUENCES : list string_pair :=
  (λ c, mkPair (Some [92; c]) (Some [c])) <$> [7; 8; 12; 10; 13; 9; 11; 92; 39; 34; 63].
(** input_parser.c 24-28 INPUT_PARSER_IGNORED *)
Definition INPUT_PARSER_IGNORED : list string_pair :=
  [mkPair (Some [35]) None; mkPair (Some [34]) (Some [34]); mkPair (Some [39]) (Some [39])].
(** input_parser.c 20-20 AND_OPERATOR *)
Definition AND_OPERATOR : str := [38; 38].
(** input_parser.c 21-21 OR_OPERATOR *)
Definition OR_OPERATOR : str := [124; 124].
(** input_parser.c 172-172 PIPELINE_DELIMITERS *)
Definition PIPELINE_DELIMITERS : list str := [[124]].
(** input_parser.c 245-245 COMMAND_SEQUENCE_DELIMITERS *)
Definition COMMAND_SEQUENCE_DELIMITERS : list str := [AND_OPERATOR; OR_OPERATOR].
(** input_parser.c 303-303 COMMAND_SEQUENCE_BREAKS *)
Definition COMMAND_SEQUENCE_BREAKS : list str := [[59]].

(** ** Commands *)

(** The string in a buffer, or beyond its end. *)
Definition c_str_in (l : list Z) : outcome str := if decide (0 ∈ l) then Ret (c_str l) else Err Fault.

(** parser_util.c 58-65 string_condense.  [buffer_cursor] is an index. *)
Definition string_condense (buffer : list Z) (buffer_cursor : nat) (source : str) : outcome (list Z * nat) :=
  if decide (buffer_cursor + length source < length buffer)%nat then
    Ret (splice buffer buffer_cursor (source ++ [0]), (buffer_cursor + length source)%nat)
  else Err Fault.

(** parser_util.c 67-74 string_in_list *)
Definition string_in_list (string : option str) (l : list str) : bool :=
  match string with None => false | Some s => bool_decide (s ∈ l) end.

(** parser_util.c 7-16 token_init *)
Definition token_init (string : str) (type : token_type) (last_char : Z) : M (list bool) (option token_t) :=
  let! s := strdup string in ret ((λ s, mkToken s type last_char) <$> s).

(** parser_util.c 34-36 token_equals *)
Definition token_equals (t1 t2 : token_t) : bool := bool_decide (tstring t1 = tstring t2).

(** parser_util.c 76-83 token_add, into an array of [len] tokens *)
Definition token_add (len : nat) (command_tokens : list token_t) (token_text : str) (tok_type : token_type) (last_cursor : Z) :
    M (list bool) (option (list token_t)) :=
  if decide (length command_tokens < len)%nat then
    let! t := token_init token_text tok_type last_cursor in
    ret ((λ t, command_tokens ++ [t]) <$> t)
  else throw Fault.

(** parser_util.c 113-118 tokenize_command, what is in quotes *)
Fixpoint string_loop (fuel : nat) (tok : tokenizer) (delimiter : str) (buffer : list Z) (buffer_cursor : nat) : outcome (tokenizer * list Z) :=
  match fuel with
  | O => Err OutOfFuel
  | S fuel =>
      let* ' (ok, tok) := tokenizer_move_to_next tok in
      if (ok : bool) then
        let* ' (buffer, buffer_cursor) := string_condense buffer buffer_cursor (tokenizer_get_current_token tok) in
        match tokenizer_get_last_delimiter tok with
        | None => Ret (tok, buffer)
        | Some cur_delimiter =>
            if decide (delimiter = cur_delimiter) then Ret (tok, buffer)
            else
              let* ' (buffer, buffer_cursor) := string_condense buffer buffer_cursor cur_delimiter in
              string_loop fuel tok delimiter buffer buffer_cursor
        end
      else Ret (tok, buffer)
  end.

(** parser_util.c 104-122 tokenize_command, the loop; None when there is no memory for a token *)
Fixpoint tokenize_loop (fuel len : nat) (tok : tokenizer) (buffer : list Z) (command_tokens : list token_t) (last_cursor : Z) :
    M (list bool) (option (list token_t)) :=
  match fuel with
  | O => throw OutOfFuel
  | S fuel =>
      let! ' (ok, tok) := lift (tokenizer_move_to_next tok) in
      if (ok : bool) then
        let delimiter := tokenizer_get_last_delimiter tok in
        let token := tokenizer_get_current_token tok in
        let! added := (if decide (token ≠ []) then token_add len command_tokens token UNKNOWN last_cursor else ret (Some command_tokens)) in
        match added with
        | None => ret None
        | Some command_tokens =>
            let last_cursor := default last_cursor (last token) in
            match (if string_in_list delimiter STRING_START_ENDS then delimiter else None) with
            | Some quote =>
                let! ' (tok, buffer) := lift (string_loop (S (S (length (string tok)))) tok quote buffer 0) in
                let! s := lift (c_str_in buffer) in
                let! added := token_add len command_tokens s STRING last_cursor in
                match added with
                | None => ret None
                | Some command_tokens => tokenize_loop fuel len tok buffer command_tokens (default 0 (last quote))
                end
            | None => tokenize_loop fuel len tok buffer command_tokens (match delimiter with Some d => default 0 (last d) | None => 0 end)
            end
        end
      else ret (Some command_tokens)
  end.

Section parser.
Context {W : Type}.
(** What is in a new buffer of some length. *)
Context (fresh : nat → list Z).

(** parser_util.c 85-128 tokenize_command *)
Definition tokenize_command (command : str) : M (list bool) (option (list token_t)) :=
  let len := S (length command) in
  let! ok := alloc in
  if negb ok then ret None
  else
    let! ok := alloc in
    if negb ok then ret None
    else
      let! tok := tokenizer_init command (Some COMMAND_DELIMITERS) (Some COMMAND_COMMENTS) (Some ESCAPE_SEQUENCES) in
      match tok with
      | None => ret None
      | Some tok =>
          let! tokens := tokenize_loop (S len) len tok (fresh len) [] 0 in
          match tokens with
          | Some tokens => if decide (length tokens < len)%nat then ret (Some tokens) else throw Fault
          | None => ret None
          end
      end.

(** What the shell prints about its input. *)
Inductive message : Type := OperatorNotFollowed (operator : str) | UnexpectedToken (c : Z).

(** The state: the answers of malloc, the messages, and the rest of the world. *)
Record shell := mkShell { answers : list bool; messages : list message; world : W }.
Definition set_answers (x : list bool) (s : shell) : shell := mkShell x (messages s) (world s).
Definition set_world (x : W) (s : shell) : shell := mkShell (answers s) (messages s) x.
Definition on_answers {A} (m : M (list bool) A) : M shell A := zoom answers set_answers m.
Definition on_world {A} (m : M W A) : M shell A := zoom world set_world m.
Definition print_message (m : message) : M shell unit := modify (λ s, mkShell (answers s) (messages s ++ [m]) (world s)).

(** The maps of the context, by what they have for a key: [variables] and [aliases]. *)
Context (HashSetCount : bool → W → Z) (HashSetLookup : bool → str → W → outcome (option str)).
(** [execute_command] and [execute_pipeline]: from [*error], the result and [*error]. *)
Context (execute_command : list token_t → bool → M W (bool * bool)) (execute_pipeline : list (list token_t) → bool → M W (bool * bool)).

Definition count_in (variables : bool) : M shell Z := λ s, Ret (HashSetCount variables (world s), s).
Definition look_up (variables : bool) (key : str) : M shell (option str) := λ s, let* x := HashSetLookup variables key (world s) in Ret (x, s).

(** parser_util.c 134-142 replace_variables, the map to look in, and the key *)
Definition map_and_key (is_first : bool) (string : str) : option (bool * str) :=
  if decide (head string = Some 36) then Some (true, tail string) else if is_first then Some (false, string) else None.

(** parser_util.c 132-154 replace_variables, one token; [is_first] says that it is the command itself *)
Definition replace_token (is_first : bool) (t : token_t) : M shell (option token_t) :=
  if decide (ttype t = STRING) then ret (Some t)
  else
    match map_and_key is_first (tstring t) with
    | None => ret (Some t)
    | Some (map, key) =>
        let! n := count_in map in
        if decide (n > 0) then
          let! result := look_up map key in
          match result with
          | None => ret (Some t)
          | Some value =>
              let! copy := on_answers (strdup value) in
              ret ((λ s, mkToken s (ttype t) (last_char t)) <$> copy)
          end
        else ret (Some t)
    end.

(** parser_util.c 130-156 replace_variables.  It stops at a token that cannot be replaced; the others are as they were. *)
Fixpoint replace_variables (is_first : bool) (tokens : list token_t) : M shell (bool * list token_t) :=
  match tokens with
  | [] => ret (true, [])
  | t :: tokens =>
      let! t' := replace_token is_first t in
      match t' with
      | None => ret (false, t :: tokens)
      | Some t' => let! ' (ok, tokens) := replace_variables false tokens in ret (ok, t' :: tokens)
      end
  end.

(** ** Pipelines *)

(** input_parser.c 191-200 form_pipeline, the loop over an array of [len] commands *)
Fixpoint pipeline_loop (fuel len : nat) (tok : tokenizer) (buffer : list Z) (pipeline : list (list token_t)) :
    M (list bool) (option (list (list token_t))) :=
  match fuel with
  | O => throw OutOfFuel
  | S fuel =>
      let! ' (ok, tok) := lift (tokenizer_move_to_next tok) in
      if (ok : bool) then
        let! ' (_, buffer) := lift (tokenizer_load_raw_token buffer tok) in
        let! s := lift (c_str_in buffer) in
        if decide (length pipeline < len)%nat then
          let! command := tokenize_command s in
          match command with
          | None => ret None
          | Some command => pipeline_loop fuel len tok buffer (pipeline ++ [command])
          end
        else throw Fault
      else ret (Some pipeline)
  end.

(** input_parser.c 174-206 form_pipeline *)
Definition form_pipeline (source : str) : M (list bool) (option (list (list token_t))) :=
  let source_len := S (length source) in
  let! ok := alloc in
  if negb ok then ret None
  else
    let! ok := alloc in
    if negb ok then ret None
    else
      let! tok := tokenizer_init source (Some PIPELINE_DELIMITERS) (Some INPUT_PARSER_IGNORED) (Some ESCAPE_SEQUENCES) in
      match tok with
      | None => ret None
      | Some tok =>
          let! pipeline := pipeline_loop (S source_len) source_len tok (fresh source_len) [] in
          match pipeline with
          | Some pipeline => if decide (length pipeline < source_len)%nat then ret (Some pipeline) else throw Fault
          | None => ret None
          end
      end.

(** input_parser.c 215-216 parse_pipeline, the variables of all commands *)
Fixpoint replace_all (pipeline : list (list token_t)) (error : bool) : M shell (bool * list (list token_t)) :=
  match pipeline with
  | [] => ret (error, [])
  | command :: pipeline =>
      let! ' (ok, command) := replace_variables true command in
      let! ' (error, pipeline) := replace_all pipeline (error || negb ok) in
      ret (error, command :: pipeline)
  end.

(** input_parser.c 208-234 parse_pipeline, the result and [*error] *)
Definition parse_pipeline (command : str) (error : bool) : M shell (bool * bool) :=
  let! pipeline := on_answers (form_pipeline command) in
  match pipeline with
  | None => ret (false, true)
  | Some pipeline =>
      let! ' (error, pipeline) := replace_all pipeline error in
      if (error : bool) then ret (false, true)
      else
        let! ' (result, error) :=
          match pipeline with
          | [] => ret (false, true)
          | [command] => on_world (execute_command command error)
          | _ => on_world (execute_pipeline pipeline error)
          end in
        ret (result && negb error, error)
  end.

(** ** Sequences *)

(** [*p], the character at an offset *)
Definition char_at (s : str) (i : nat) : outcome Z := let* s := at_cursor s i in Ret (default 0 (head s)).

(** input_parser.c 256-287 parse_command_sequence, the loop; it returns [error] *)
Fixpoint sequence_loop (fuel : nat) (tok : tokenizer) (command : list Z) (operator : option str) (error : bool) : M shell bool :=
  match fuel with
  | O => throw OutOfFuel
  | S fuel =>
      let! ' (ok, tok) := lift (tokenizer_move_to_next tok) in
      if negb ok then
        (match operator with Some op => print_message (OperatorNotFollowed op) | None => ret tt end);;! ret error
      else
        let! ' (_, command) := lift (tokenizer_load_raw_token command tok) in
        let operator := tokenizer_get_last_delimiter tok in
        let! s := lift (c_str_in command) in
        let! ' (result, error) := parse_pipeline s error in
        match operator with
        | None => sequence_loop fuel tok command operator error
        | Some op =>
            let! c := lift (char_at (string tok) (tokenizer_get_cursor tok + length op)) in
            if decide (c = 38 ∨ c = 124) then print_message (UnexpectedToken c);;! ret true
            else if (error : bool) then ret error
            else if decide (op = AND_OPERATOR) then
              if (result : bool) then sequence_loop fuel tok command operator error else ret error
            else if decide (op = OR_OPERATOR) then
              if (result : bool) then ret error else sequence_loop fuel tok command operator error
            else sequence_loop fuel tok command operator error
        end
  end.

(** input_parser.c 247-292 parse_command_sequence *)
Definition parse_command_sequence (sequence : str) : M shell bool :=
  let! ok := on_answers alloc in
  if negb ok then ret false
  else
    let! tok := on_answers (tokenizer_init sequence (Some COMMAND_SEQUENCE_DELIMITERS) (Some INPUT_PARSER_IGNORED) (Some ESCAPE_SEQUENCES)) in
    match tok with
    | None => ret false
    | Some tok =>
        let! error := sequence_loop (S (S (length sequence))) tok (fresh (S (length sequence))) None false in
        ret (negb error)
    end.

(** input_parser.c 317-326 parse_input_line, the loop *)
Fixpoint line_loop (fuel : nat) (tok : tokenizer) (command_sequence : list Z) : M shell bool :=
  match fuel with
  | O => throw OutOfFuel
  | S fuel =>
      let! ' (ok, tok) := lift (tokenizer_move_to_next tok) in
      if negb ok then ret true
      else
        let! ' (_, command_sequence) := lift (tokenizer_load_raw_token command_sequence tok) in
        let! s := lift (c_str_in command_sequence) in
        if decide (s = []) then line_loop fuel tok command_sequence
        else
          let! ok := parse_command_sequence s in
          if (ok : bool) then line_loop fuel tok command_sequence else ret false
  end.

(** input_parser.c 305-331 parse_input_line.  [catch_input_exception] has no checkers: it returns false. *)
Definition parse_input_line (line : str) : M shell bool :=
  let! ok := on_answers alloc in
  if negb ok then ret false
  else
    let! tok := on_answers (tokenizer_init line (Some COMMAND_SEQUENCE_BREAKS) (Some INPUT_PARSER_IGNORED) (Some ESCAPE_SEQUENCES)) in
    match tok with
    | None => ret false
    | Some tok => line_loop (S (S (length line))) tok (fresh (S (length line)))
    end.
End parser.
