(* ===== verification/ShellSpec.v ===== *)
(** What an input line means: the pipelines of a sequence run one after the other, as
    the operators between them say. *)
From S2P Require Import Prelude Tokenizer TokenizerSpec Parser.
Local Open Scope Z_scope.

(** * What the parser makes of the tokens: the words and quoted strings of a command,
    the commands of a pipeline. *)

(** ** A tokenizer with the rest of its tokens *)
Abbreviation entry := (str * str * option str)%type.

Section reads.
Context (s : str) (D : list str) (I R : list string_pair) (delta : Z).

(** [xs] is still to come from [t]. *)
Record reads (t : tokenizer) (xs : list entry) : Prop := {
  rs_ready : ready delta t;
  rs_string : string t = s;
  rs_lists : delimiters t = D ∧ ignored t = I ∧ replacements t = R;
  rs_splits : splits D I R (drop (next_start t) s) xs;
}.

Lemma next_token t xs : reads t xs →
  match xs with
  | [] => ∃ t', tokenizer_move_to_next t = Ret (false, t') ∧ reads t' []
  | (raw, tok, d) :: xs => ∃ t', tokenizer_move_to_next t = Ret (true, t') ∧ reads t' xs ∧ raw_token t' = raw ∧
      tokenizer_get_current_token t' = tok ∧ tokenizer_get_last_delimiter t' = d ∧ tok_start t' = next_start t ∧ cursor t' = (next_start t + length raw)%nat
  end.
Proof.
  intros [Hr Hs (HD & HI & HR) Hsp]. destruct (move_to_next_ok delta t Hr) as (tok & n & t' & Hlex & Hrun & Hr' & Htok & Hraw & (E1 & E2 & E3 & E4) & (Hst & Hc) & Hd).
  pose proof (ready_stop delta t Hr tok n Hlex) as Hstop. rewrite HD, HI, HR, Hs in *. set (r := drop (next_start t) s) in *.
  pose proof (lexed_length _ _ _ _ _ _ Hlex) as Hn. inversion Hsp as [Er|r' tok' n' xs' Hlex' Hne Hsp' Er Exs]; subst xs.
  - exists t'. rewrite bool_decide_eq_false_2 in Hrun by (rewrite Hstop, <-Er; tauto). split; [done|]. split; [done|done|done|].
    assert (drop (next_start t') s = []) as ->; [|constructor]. rewrite <-Er in Hn. cbn in Hn. assert (n = 0%nat) as -> by lia.
    unfold next_start at 1. rewrite Hc, Nat.add_0_r, <-drop_drop. fold r. rewrite <-Er. apply drop_nil.
  - subst r'. destruct (lexed_fun _ _ _ _ _ _ _ _ Hlex Hlex') as [<- <-]. exists t'. rewrite bool_decide_eq_true_2 in Hrun by (by apply Hstop).
    assert (length (take n r) = n) as Hlen by (rewrite length_take; lia). rewrite Hlen. split; [done|]. split; [|].
    + split; [done|done|done|]. unfold next_start. rewrite Hc, Hd, <-Nat.add_assoc, <-!drop_drop. fold r. by rewrite drop_drop.
    + split; [exact Hraw|]. split; [exact Htok|]. split; [|done]. unfold tokenizer_get_last_delimiter. by rewrite Hd, <-drop_drop.
Qed.

(** The segments are not longer than the tokens, up to [delta], and something is read each time. *)
Definition entry_ok (x : entry) : Prop :=
  Z.of_nat (length x.1.2) ≤ Z.of_nat (length x.1.1) * (1 + delta) ∧ (0 < length x.1.1 + len_opt x.2)%nat ∧ (∀ d, x.2 = Some d → d ∈ D).

Lemma splits_entries r xs : 0 ≤ delta → Forall (λ p, ∀ a b, pa p = Some a → pb p = Some b → Z.of_nat (length b) - Z.of_nat (length a) ≤ delta) R →
  splits D I R r xs → Forall entry_ok xs.
Proof.
  intros Hd HR. induction 1 as [|r tok n xs Hlex Hne d Hsp IH]; [constructor|]. constructor; [|done]. unfold entry_ok. cbn [fst snd].
  pose proof (lexed_length _ _ _ _ _ _ Hlex) as Hn. rewrite length_take_le by done. split; [by apply (lexed_room D I R delta r)|]. split.
  - destruct n as [|n]; [|lia]. destruct (lexed_stops _ _ _ _ _ _ Hlex) as [E|[e E]]; [done|]. unfold d. rewrite E. unfold len_opt. cbn.
    apply first_start_some in E as [_ (? & [= ->] & Hst)]. apply starts_pos in Hst. lia.
  - intros e E. unfold d in E. by apply first_start_some in E as [? _].
Qed.

Lemma length_joined_cons raw tok d xs : length (joined ((raw, tok, d) :: xs)) = (length raw + len_opt d + length (joined xs))%nat.
Proof. cbn. rewrite !length_app. unfold len_opt. lia. Qed.

Lemma length_words xs : Forall entry_ok xs → (length xs ≤ length (joined xs))%nat.
Proof. induction 1 as [|[[raw tok] d] xs (_ & H & _) Hxs IH]; [done|]. rewrite length_joined_cons. cbn [length fst snd] in *. lia. Qed.
End reads.

(** A string can be split. *)
Lemma splits_total s D I R : Forall (λ c, c ≠ 0) s → full_pairs R → Forall (λ p, is_Some (pa p)) I → ∃ xs, splits D I R s xs.
Proof.
  intros Hs HR HI. destruct (read_tokens_ok _ (S (length s)) _ (new_tokenizer_ready s D I R Hs HR HI)) as (xs & t' & _ & Hsp); [cbn; lia|]. by exists xs.
Qed.

Lemma new_reads s D I R xs : Forall (λ c, c ≠ 0) s → full_pairs R → Forall (λ p, is_Some (pa p)) I → splits D I R s xs →
  reads s D I R (max_growth R) (new_tokenizer s D I R) xs.
Proof. intros Hs HR HI Hsp. split; [by apply new_tokenizer_ready|done|done|exact Hsp]. Qed.

(** ** The shell's lists *)
Lemma escapes_full : full_pairs ESCAPE_SEQUENCES ∧ max_growth ESCAPE_SEQUENCES = 0.
Proof.
  split; [|done]. unfold full_pairs, ESCAPE_SEQUENCES. apply Forall_fmap, Forall_forall. intros c Hc. exists [92; c], [c]. split; [done|]. split; [done|].
  split; [|cbn; lia]. repeat (apply elem_of_cons in Hc as [->|Hc]; [by repeat constructor|]). by apply elem_of_nil in Hc.
Qed.

Lemma escapes_short : Forall (λ p, ∀ a b, pa p = Some a → pb p = Some b → Z.of_nat (length b) - Z.of_nat (length a) ≤ 0) ESCAPE_SEQUENCES.
Proof. unfold ESCAPE_SEQUENCES. apply Forall_fmap, Forall_forall. intros c _ a b [= <-] [= <-]. cbn. lia. Qed.

Lemma comments_ok : Forall (λ p, is_Some (pa p)) COMMAND_COMMENTS ∧ Forall (λ p, is_Some (pa p)) INPUT_PARSER_IGNORED.
Proof. split; repeat constructor; by eexists. Qed.

(** ** Commands *)

(** What is between quotes: the tokens and the delimiters up to the next quote [q], and what comes after it. *)
Fixpoint string_of (q : str) (xs : list entry) : str * list entry :=
  match xs with
  | [] => ([], [])
  | (_, tok, None) :: xs => (tok, xs)
  | (_, tok, Some d) :: xs => if decide (q = d) then (tok, xs) else let ' (t, r) := string_of q xs in (tok ++ d ++ t, r)
  end.

Definition word (tok : str) (last_char : Z) : list token_t := if decide (tok = []) then [] else [mkToken tok UNKNOWN last_char].
Definition last_of (d : option str) : Z := match d with Some d => default 0 (last d) | None => 0 end.
Definition is_quote (d : option str) : Prop := match d with Some d => d ∈ STRING_START_ENDS | None => False end.

(** The tokens of a command, from how it is split; [last_char] is the character before it.  A
    quote that is the last character of a command begins no string. *)
Inductive commands : list entry → Z → list token_t → Prop :=
  | cm_end last_char : commands [] last_char []
  | cm_word raw tok d xs last_char ts : ¬ is_quote d → commands xs (last_of d) ts → commands ((raw, tok, d) :: xs) last_char (word tok last_char ++ ts)
  | cm_string raw tok q xs t xs' last_char ts : q ∈ STRING_START_ENDS → xs ≠ [] → string_of q xs = (t, xs') → commands xs' (default 0 (last q)) ts →
      commands ((raw, tok, Some q) :: xs) last_char (word tok last_char ++ [mkToken t STRING (default last_char (last tok))] ++ ts).

Lemma string_of_shorter q xs t xs' : string_of q xs = (t, xs') →
  (length (joined xs') ≤ length (joined xs))%nat ∧ (length xs' ≤ length xs)%nat ∧ (∀ P, Forall P xs → Forall P xs').
Proof.
  revert t. induction xs as [|[[raw tok] [d|]] xs IH]; intros t E; cbn [string_of] in E.
  - injection E as <- <-. auto.
  - rewrite length_joined_cons. case_decide.
    + injection E as <- <-. split; [lia|]. split; [cbn; lia|]. by inversion 1.
    + destruct (string_of q xs) as [t1 r1]. injection E as _ <-. destruct (IH t1 eq_refl) as (H1 & H2 & H3). split; [lia|]. split; [cbn; lia|].
      inversion 1; subst. by apply H3.
  - rewrite length_joined_cons. injection E as _ <-. split; [lia|]. split; [cbn; lia|]. by inversion 1.
Qed.

Lemma commands_length xs c ts : commands xs c ts → Forall (entry_ok COMMAND_DELIMITERS 0) xs → (length ts ≤ length (joined xs))%nat.
Proof.
  induction 1 as [|raw tok d xs c ts Hq Hc IH|raw tok q xs t xs' c ts Hq Hne Hst Hc IH]; intros Hxs; [done| |];
    apply Forall_cons in Hxs as [(H1 & H2 & H3) Hxs]; cbn [fst snd] in *; rewrite length_app, length_joined_cons; unfold word.
  - specialize (IH Hxs). case_decide as Ht; cbn [length]; [lia|]. destruct tok; [done|]. cbn [length] in H1. lia.
  - destruct (string_of_shorter _ _ _ _ Hst) as (S1 & _ & S3). specialize (IH (S3 _ Hxs)). cbn [length app].
    assert (len_opt (Some q) = 1%nat) as Hl1 by (unfold STRING_START_ENDS in Hq; apply elem_of_cons in Hq as [->|Hq]; [done|]; by apply list_elem_of_singleton in Hq as ->).
    case_decide as Ht; cbn [length]; [lia|]. destruct tok; [done|]. cbn [length] in H1. lia.
Qed.

Lemma condense_run buf cur src : (cur + length src < length buf)%nat → string_condense buf cur src = Ret (splice buf cur (src ++ [0]), (cur + length src)%nat).
Proof. intros H. unfold string_condense. by rewrite decide_True. Qed.

Lemma splice_prefix {A} (l : list A) i k x : (i + length k < length l)%nat → ∃ r, splice l i (k ++ [x]) = take i l ++ k ++ x :: r.
Proof. intros H. exists (drop (i + length (k ++ [x])) l). unfold splice. by rewrite <-!app_assoc. Qed.

Lemma take_spliced {A} (l : list A) i k x r : (i ≤ length l)%nat → take (i + length k) (take i l ++ k ++ x :: r) = take i l ++ k.
Proof. intros H. rewrite app_assoc. apply take_app_length'. rewrite length_app, length_take. lia. Qed.

Section command.
Context (s : str).
Abbreviation rd := (reads s COMMAND_DELIMITERS COMMAND_COMMENTS ESCAPE_SEQUENCES 0).
Abbreviation ok := (entry_ok COMMAND_DELIMITERS 0).

Lemma string_loop_ok fuel q t xs txt xs' buf cur : rd t xs → Forall ok xs → (length xs < fuel)%nat → string_of q xs = (txt, xs') →
  (cur + length (joined xs) < length buf)%nat → (xs ≠ [] ∨ buf !! cur = Some 0) →
  ∃ t' r, string_loop fuel t q buf cur = Ret (t', take cur buf ++ txt ++ 0 :: r) ∧ rd t' xs' ∧ length (take cur buf ++ txt ++ 0 :: r) = length buf.
Proof.
  revert t xs txt buf cur. induction fuel as [|fuel IH]; intros t xs txt buf cur Hrd Hok Hf Est Hroom Hne; [lia|]. cbn [string_loop].
  pose proof (next_token _ _ _ _ _ _ _ Hrd) as Hnext. destruct xs as [|[[raw tok] d] xs].
  { destruct Hnext as (t' & Hrun & Hrd'). rewrite (ret_bind _ _ _ Hrun). cbn beta iota. injection Est as <- <-. destruct Hne as [?|H0]; [done|].
    exists t', (drop (S cur) buf). cbn [app]. rewrite (take_drop_middle _ _ _ H0). done. }
  destruct Hnext as (t' & Hrun & Hrd' & _ & Htok & Hd & _). rewrite (ret_bind _ _ _ Hrun). cbn beta iota. rewrite Htok, Hd.
  apply Forall_cons in Hok as [(L1 & L2 & _) Hok]. cbn [fst snd] in L1, L2. rewrite length_joined_cons in Hroom.
  rewrite (ret_bind _ _ _ (condense_run buf cur tok ltac:(lia))). cbn beta iota. destruct (splice_prefix buf cur tok 0) as (r & Er); [lia|]. rewrite Er.
  assert (length (take cur buf ++ tok ++ 0 :: r) = length buf) as Hlen by (rewrite <-Er; apply length_splice; rewrite length_app; cbn; lia).
  cbn [string_of] in Est. destruct d as [d|]; [|injection Est as <- <-; by exists t', r]. case_decide as Hq; [injection Est as <- <-; by exists t', r|].
  destruct (string_of q xs) as [t1 r1] eqn:E1. injection Est as <- <-. unfold len_opt in Hroom. cbn [default from_option id] in Hroom.
  set (buf1 := take cur buf ++ tok ++ 0 :: r) in *. rewrite (ret_bind _ _ _ (condense_run buf1 (cur + length tok) d ltac:(lia))). cbn beta iota.
  destruct (splice_prefix buf1 (cur + length tok) d 0) as (r2 & Er2); [lia|]. assert (take (cur + length tok) buf1 = take cur buf ++ tok) as Et by (apply take_spliced; lia).
  rewrite Er2, Et. set (buf2 := (take cur buf ++ tok) ++ d ++ 0 :: r2).
  assert (length buf2 = length buf) as Hlen2 by (rewrite <-Hlen; unfold buf2; rewrite <-Et, <-Er2; apply length_splice; rewrite length_app; cbn; lia).
  assert (take (cur + length tok + length d) buf2 = take cur buf ++ tok ++ d) as Et2.
  { unfold buf2. rewrite app_assoc. rewrite take_app_length'; [by rewrite app_assoc|]. rewrite !length_app, length_take. lia. }
  assert (buf2 !! (cur + length tok + length d)%nat = Some 0) as H0.
  { unfold buf2. rewrite app_assoc. rewrite lookup_app_r by (rewrite !length_app, length_take; lia). by rewrite !length_app, length_take, Nat.min_l, Nat.sub_diag by lia. }
  destruct (IH t' xs t1 buf2 (cur + length tok + length d)%nat Hrd' Hok ltac:(cbn in Hf; lia) E1 ltac:(lia) (or_intror H0)) as (t2 & r3 & Hrun2 & Hrd2 & Hlen3).
  exists t2, r3. rewrite Hrun2. rewrite Et2 in *. rewrite <-!app_assoc in *. rewrite Hlen3. done.
Qed.

Lemma token_add_ok len acc txt ty c : (length acc < len)%nat → maybe (token_add len acc txt ty c) (acc ++ [mkToken txt ty c]).
Proof.
  intros H. unfold token_add, token_init. rewrite decide_True by done. destruct (strdup_ok txt) as [S1 S2]. split.
  - by rewrite bind_assoc, (bind_run _ _ _ _ _ S1).
  - intros l. destruct (S2 l) as (l' & [E|E]); rewrite bind_assoc, (bind_run _ _ _ _ _ E); exists l'; [by left|by right].
Qed.

Lemma word_add_ok len acc tok c : (length acc + length (word tok c) ≤ len)%nat →
  maybe (if decide (tok ≠ []) then token_add len acc tok UNKNOWN c else ret (Some acc)) (acc ++ word tok c).
Proof.
  unfold word. intros H. destruct tok as [|x tok]; [rewrite decide_False by tauto; rewrite app_nil_r; apply maybe_ret|].
  rewrite !(decide_False (P := x :: tok = [])) in * by done. rewrite decide_True by done. apply token_add_ok. cbn in H. lia.
Qed.

Lemma in_list d l : string_in_list (Some d) l = bool_decide (d ∈ l).
Proof. done. Qed.

Lemma quote_dec d : (if string_in_list d STRING_START_ENDS then d else None) = match d with Some q => if decide (q ∈ STRING_START_ENDS) then Some q else None | None => None end.
Proof. destruct d as [d|]; [|done]. rewrite in_list. destruct (decide (d ∈ STRING_START_ENDS)) as [H|H]; [by rewrite bool_decide_true|by rewrite bool_decide_false]. Qed.

Lemma tokens_nonzero t xs : rd t xs → Forall (λ x, Forall (λ c, c ≠ 0) x.1.2) xs.
Proof.
  intros [Hr Hs (HD & HI & HR) Hsp]. assert (Forall (λ c, c ≠ 0) (drop (next_start t) s)) as Hnz by (rewrite <-Hs; apply Forall_drop, (tk_string _ _ (rd_ok _ _ Hr))).
  assert (Forall (λ p, ∀ b, pb p = Some b → Forall (λ c, c ≠ 0) b) ESCAPE_SEQUENCES) as HE.
  { apply (Forall_impl _ _ _ (proj1 escapes_full)). intros p (a & b & _ & Hb & Hz & _) b' Hb'. congruence. }
  clear -Hsp Hnz HE. induction Hsp as [|r tok n xs Hlex Hne d Hsp IH]; [constructor|]. constructor; [cbn; by apply (lexed_nonzero _ _ _ _ _ _ Hnz HE Hlex)|].
  by apply IH, Forall_drop.
Qed.

Lemma string_of_nonzero q xs txt xs' : Forall ok xs → Forall (λ x, Forall (λ c, c ≠ 0) x.1.2) xs → string_of q xs = (txt, xs') → Forall (λ c, c ≠ 0) txt.
Proof.
  revert txt. induction xs as [|[[raw tok] [d|]] xs IH]; intros txt Hok Hnz E; cbn [string_of] in E.
  - injection E as <- _. constructor.
  - apply Forall_cons in Hok as [(_ & _ & Hd) Hok], Hnz as [Hz Hnz]. case_decide; [by injection E as <- _|]. destruct (string_of q xs) as [t1 r1]. injection E as <- <-.
    apply Forall_app. split; [done|]. apply Forall_app. split; [|by apply (IH t1)]. specialize (Hd d eq_refl). unfold COMMAND_DELIMITERS in Hd.
    repeat (apply elem_of_cons in Hd as [->|Hd]; [by repeat constructor|]). by apply elem_of_nil in Hd.
  - injection E as <- _. by apply Forall_cons in Hnz as [Hz _].
Qed.

Lemma rd_length t xs : rd t xs → Forall ok xs → (length xs ≤ length (joined xs))%nat ∧ (length (joined xs) ≤ length s)%nat.
Proof.
  intros [Hr Hs _ Hsp] Hok. split; [by apply (length_words COMMAND_DELIMITERS 0)|]. rewrite (splits_joined _ _ _ _ _ Hsp), length_drop. lia.
Qed.

Lemma maybe_seq {A B} (m : M (list bool) (option A)) (f : A → M (list bool) (option B)) x y : maybe m x → maybe (f x) y →
  maybe (let! o := m in match o with None => ret None | Some x => f x end) y.
Proof. apply maybe_bind. Qed.

Lemma maybe_run {A} (o : outcome A) a {B} (f : A → M (list bool) (option B)) y : o = Ret a → maybe (f a) y → maybe (let! x := lift o in f x) y.
Proof. intros -> [H1 H2]. split; [exact H1|exact H2]. Qed.

Lemma quote_length q : q ∈ STRING_START_ENDS → length q = 1%nat.
Proof. unfold STRING_START_ENDS. rewrite !elem_of_cons, elem_of_nil. by intros [->|[->|[]]]. Qed.

Lemma c_str_in_app a r : Forall (λ c, c ≠ 0) a → c_str_in (a ++ 0 :: r) = Ret a.
Proof.
  intros Ha. unfold c_str_in. rewrite decide_True by (apply elem_of_app; right; by constructor). by rewrite c_str_app.
Qed.

Lemma tokenize_loop_ok xs c ts : commands xs c ts → ∀ fuel t buf acc, rd t xs → Forall ok xs → (length xs < fuel)%nat →
  (length (joined xs) < length buf)%nat → (length acc + length (joined xs) < length buf)%nat →
  maybe (tokenize_loop fuel (length buf) t buf acc c) (acc ++ ts).
Proof.
  induction 1 as [c|raw tok d xs c ts Hq Hc IH|raw tok q xs txt xs' c ts Hq Hne Hst Hc IH]; intros [|fuel] t buf acc Hrd Hok Hf Hb1 Hb2; try (exfalso; lia);
    pose proof (next_token _ _ _ _ _ _ _ Hrd) as Hnext; cbn [tokenize_loop].
  - destruct Hnext as (t' & Hrun & _). apply (maybe_run _ _ _ _ Hrun). cbn beta iota. rewrite app_nil_r. apply maybe_ret.
  - destruct Hnext as (t' & Hrun & Hrd' & _ & Htok & Hd & _). apply (maybe_run _ _ _ _ Hrun). cbn beta iota. rewrite Htok, Hd.
    rewrite length_joined_cons in Hb1, Hb2. apply Forall_cons in Hok as [(L1 & L2 & _) Hok]. cbn [fst snd length] in L1, L2, Hf.
    assert (length (word tok c) ≤ length raw)%nat as Lw by (unfold word; case_decide; [cbn; lia|]; destruct tok; [done|]; cbn in *; lia).
    apply (maybe_seq _ _ (acc ++ word tok c)); [apply word_add_ok; lia|]. rewrite quote_dec, app_assoc.
    assert (match d with Some q => if decide (q ∈ STRING_START_ENDS) then Some q else None | None => None end = None) as -> by (destruct d; [by rewrite decide_False|done]).
    apply IH; try done; [lia|lia|]. rewrite length_app. lia.
  - destruct Hnext as (t' & Hrun & Hrd' & _ & Htok & Hd & _). apply (maybe_run _ _ _ _ Hrun). cbn beta iota. rewrite Htok, Hd.
    rewrite length_joined_cons in Hb1, Hb2. apply Forall_cons in Hok as [(L1 & L2 & _) Hok]. cbn [fst snd length] in L1, L2, Hf.
    unfold len_opt in Hb1, Hb2. cbn [default from_option id] in Hb1, Hb2. rewrite (quote_length q Hq) in Hb1, Hb2.
    assert (length (word tok c) ≤ length raw)%nat as Lw by (unfold word; case_decide; [cbn; lia|]; destruct tok; [done|]; cbn in *; lia).
    apply (maybe_seq _ _ (acc ++ word tok c)); [apply word_add_ok; lia|]. rewrite quote_dec, decide_True by done.
    destruct (rd_length t' xs Hrd' Hok) as [Hx1 Hx2]. pose proof (tokens_nonzero t' xs Hrd') as Hnz.
    destruct (string_loop_ok (S (S (length (string t')))) q t' xs txt xs' buf 0 Hrd' Hok) as (t2 & r & Hloop & Hrd2 & Hlen);
      [rewrite (rs_string _ _ _ _ _ _ _ Hrd'); lia|done|cbn; lia|by left|].
    apply (maybe_run _ _ _ _ Hloop). cbn beta iota. cbn [take app] in Hlen |- *. rewrite take_0 in *. cbn [app] in *.
    apply (maybe_run _ _ _ _ (c_str_in_app txt r (string_of_nonzero _ _ _ _ Hok Hnz Hst))).
    destruct (string_of_shorter _ _ _ _ Hst) as (S1 & S2 & S3). rewrite <-Hlen.
    apply (maybe_seq _ _ ((acc ++ word tok c) ++ [mkToken txt STRING (default c (last tok))])); [apply token_add_ok; rewrite length_app; lia|].
    set (tk := mkToken txt STRING (default c (last tok))) in *. assert (acc ++ word tok c ++ tk :: ts = ((acc ++ word tok c) ++ [tk]) ++ ts) as -> by (by rewrite <-!app_assoc).
    apply IH; try done; [by apply S3|lia|lia|]. rewrite (length_app _ [tk]), (length_app acc). cbn [length]. lia.
Qed.

(** The tokens of a command. *)
Lemma tokenize_command_ok (fresh : nat → list Z) xs ts : (∀ n, length (fresh n) = n) → Forall (λ c, c ≠ 0) s → Z.of_nat (length s) < 2147483647 →
  splits COMMAND_DELIMITERS COMMAND_COMMENTS ESCAPE_SEQUENCES s xs → commands xs 0 ts → maybe (tokenize_command fresh s) ts.
Proof.
  intros Hfresh Hs Hlen Hsp Hc. destruct escapes_full as [HR Hg], comments_ok as [HI _].
  pose proof (new_reads _ _ _ _ _ Hs HR HI Hsp) as Hrd. rewrite Hg in Hrd.
  pose proof (splits_entries COMMAND_DELIMITERS COMMAND_COMMENTS ESCAPE_SEQUENCES 0 s xs ltac:(lia) escapes_short Hsp) as Hok.
  destruct (rd_length _ _ Hrd Hok) as [L1 L2]. pose proof (commands_length xs 0 ts Hc Hok) as L3.
  unfold tokenize_command. apply maybe_negb, maybe_negb. apply (maybe_seq _ _ (new_tokenizer s COMMAND_DELIMITERS COMMAND_COMMENTS ESCAPE_SEQUENCES)).
  - apply tokenizer_init_ok; [done|rewrite Hg; lia].
  - assert (maybe (if decide (length ts < S (length s))%nat then ret (Some ts) else throw Fault) ts) as Hend by (rewrite decide_True by lia; apply maybe_ret).
    pose proof (tokenize_loop_ok xs 0 ts Hc (S (S (length s))) _ (fresh (S (length s))) [] Hrd Hok ltac:(lia) ltac:(rewrite Hfresh; lia) ltac:(rewrite Hfresh; cbn; lia)) as Hloop.
    rewrite Hfresh in Hloop. destruct Hloop as [K1 K2]. destruct Hend as [E1 E2]. split; [by rewrite (bind_run _ _ _ _ _ K1)|].
    intros l. destruct (K2 l) as (l' & [E|E]); rewrite (bind_run _ _ _ _ _ E); [exists l'; by left|apply E2].
Qed.
End command.

(** The tokens of a command. *)
Definition command_of (s : str) (ts : list token_t) : Prop :=
  ∃ xs, splits COMMAND_DELIMITERS COMMAND_COMMENTS ESCAPE_SEQUENCES s xs ∧ commands xs 0 ts.
(** The commands of a pipeline. *)
Definition pipeline_of (s : str) (p : list (list token_t)) : Prop :=
  ∃ xs, splits PIPELINE_DELIMITERS INPUT_PARSER_IGNORED ESCAPE_SEQUENCES s xs ∧ Forall2 (λ x ts, command_of x.1.1 ts) xs p.

(** A sequence of pipelines.  [Dangling]: nothing is behind the last operator; [Unexpected]:
    a character behind an operator that cannot be there. *)
Inductive sequence : Type :=
  | Last (p : list (list token_t))
  | And (p : list (list token_t)) (c : sequence)
  | Or (p : list (list token_t)) (c : sequence)
  | Dangling (p : list (list token_t)) (op : str)
  | Unexpected (p : list (list token_t)) (ch : Z).

Definition continue (op : str) (p : list (list token_t)) (c : sequence) : sequence := if decide (op = AND_OPERATOR) then And p c else Or p c.

Inductive sequence_of : list entry → sequence → Prop :=
  | sq_last raw tok p : pipeline_of raw p → sequence_of [(raw, tok, None)] (Last p)
  | sq_dangling raw tok op p : pipeline_of raw p → sequence_of [(raw, tok, Some op)] (Dangling p op)
  | sq_unexpected raw tok op xs p ch : pipeline_of raw p → head (joined xs) = Some ch → ch = 38 ∨ ch = 124 → sequence_of ((raw, tok, Some op) :: xs) (Unexpected p ch)
  | sq_next raw tok op xs p c : pipeline_of raw p → xs ≠ [] → head (joined xs) ≠ Some 38 → head (joined xs) ≠ Some 124 → sequence_of xs c →
      sequence_of ((raw, tok, Some op) :: xs) (continue op p c).

Definition sequence_in (s : str) (c : sequence) : Prop :=
  ∃ xs, splits COMMAND_SEQUENCE_DELIMITERS INPUT_PARSER_IGNORED ESCAPE_SEQUENCES s xs ∧ sequence_of xs c.

(** A line: the sequences between semicolons, of which empty ones do not count. *)
Inductive line_of : list entry → list sequence → Prop :=
  | ln_end : line_of [] []
  | ln_empty tok d xs cs : line_of xs cs → line_of (([], tok, d) :: xs) cs
  | ln_sequence raw tok d xs c cs : raw ≠ [] → sequence_in raw c → line_of xs cs → line_of ((raw, tok, d) :: xs) (c :: cs).
Definition line_in (s : str) (cs : list sequence) : Prop :=
  ∃ xs, splits COMMAND_SEQUENCE_BREAKS INPUT_PARSER_IGNORED ESCAPE_SEQUENCES s xs ∧ line_of xs cs.

Section shell.
Context {W : Type} (fresh : nat → list Z) (Hfresh : ∀ n, length (fresh n) = n).
Context (HashSetCount : bool → W → Z) (HashSetLookup : bool → str → W → outcome (option str)).
Context (execute_command : list token_t → bool → M W (bool * bool)) (execute_pipeline : list (list token_t) → bool → M W (bool * bool)).
Abbreviation replace_all := (replace_all HashSetCount HashSetLookup).
Abbreviation parse_pipeline := (parse_pipeline fresh HashSetCount HashSetLookup execute_command execute_pipeline).
Abbreviation parse_command_sequence := (parse_command_sequence fresh HashSetCount HashSetLookup execute_command execute_pipeline).
Abbreviation sequence_loop := (sequence_loop fresh HashSetCount HashSetLookup execute_command execute_pipeline).
Implicit Types k : shell (W := W).

(** What is done with the commands of a pipeline: its result, and whether there was an error. *)
Definition run_pipeline (p : list (list token_t)) : M shell (bool * bool) :=
  let! ' (error, p) := replace_all p false in
  if (error : bool) then ret (false, true)
  else
    let! ' (result, error) := match p with
      | [] => ret (false, true)
      | [command] => on_world (execute_command command false)
      | _ => on_world (execute_pipeline p false)
      end in
    ret (result && negb error, error).

(** The meaning of a sequence: it returns whether there was an error. *)
Fixpoint run_sequence (c : sequence) : M shell bool :=
  match c with
  | Last p => let! ' (_, error) := run_pipeline p in ret error
  | And p c => let! ' (result, error) := run_pipeline p in if (error : bool) then ret true else if (result : bool) then run_sequence c else ret false
  | Or p c => let! ' (result, error) := run_pipeline p in if (error : bool) then ret true else if (result : bool) then ret false else run_sequence c
  | Dangling p op =>
      let! ' (result, error) := run_pipeline p in
      if (error : bool) then ret true
      else if decide (result = bool_decide (op = AND_OPERATOR)) then print_message (OperatorNotFollowed op);;! ret false
      else ret false
  | Unexpected p ch => run_pipeline p;;! print_message (UnexpectedToken ch);;! ret true
  end.

(** ** Pipelines *)
Lemma load_raw_ok src D I delta buffer t xs raw : reads src D I ESCAPE_SEQUENCES delta t xs → raw_token t = raw → (length raw < length buffer)%nat →
  (tok_start t ≤ length src)%nat → ∃ b buffer', tokenizer_load_raw_token buffer t = Ret (b, buffer') ∧ length buffer' = length buffer ∧ c_str_in buffer' = Ret raw.
Proof.
  intros [Hr Hs _ _] Hraw Hlen Hst. unfold tokenizer_load_raw_token, at_cursor. fold (raw_token t). rewrite Hraw, Hs, decide_True by done. cbn [obind].
  rewrite decide_True by done. eexists _, _. split; [done|]. split; [apply length_splice; rewrite length_app; cbn; lia|].
  unfold splice. cbn [take app]. rewrite <-app_assoc. apply c_str_in_app. rewrite <-Hraw. unfold raw_token.
  apply Forall_take, Forall_drop. apply (tk_string _ _ (rd_ok _ _ Hr)).
Qed.

Lemma raw_nonzero D I R s xs : Forall (λ c, c ≠ 0) s → splits D I R s xs → Forall (λ x, Forall (λ c, c ≠ 0) x.1.1 ∧ (length x.1.1 ≤ length s)%nat) xs.
Proof.
  intros Hs Hsp. induction Hsp as [|s tok n xs Hlex Hne d Hsp IH]; [constructor|]. constructor.
  - cbn. split; [by apply Forall_take|]. rewrite length_take. lia.
  - apply (Forall_impl _ _ _ (IH (Forall_drop _ _ _ Hs))). intros x [H1 H2]. split; [done|]. rewrite length_drop in H2. lia.
Qed.

Section pipeline.
Context (src : str) (Hsrc : Forall (λ c, c ≠ 0) src) (Hsize : Z.of_nat (length src) < 2147483647).
Abbreviation rd := (reads src PIPELINE_DELIMITERS INPUT_PARSER_IGNORED ESCAPE_SEQUENCES 0).

Lemma pipeline_loop_ok xs p : Forall2 (λ x ts, command_of x.1.1 ts) xs p → Forall (λ x, Forall (λ c, c ≠ 0) x.1.1 ∧ (length x.1.1 ≤ length src)%nat) xs →
  ∀ fuel t buffer acc, rd t xs → (length xs < fuel)%nat → (length src < length buffer)%nat → (length acc + length xs < S (length src))%nat →
  maybe (pipeline_loop fresh fuel (S (length src)) t buffer acc) (acc ++ p).
Proof.
  induction 1 as [|[[raw tok] d] ts xs p Hc Hrest IH]; intros Hnz [|fuel] t buffer acc Hrd Hf Hb Hroom; try (exfalso; lia);
    pose proof (next_token _ _ _ _ _ _ _ Hrd) as Hnext; cbn [pipeline_loop].
  - destruct Hnext as (t' & Hrun & _). apply (maybe_run _ _ _ _ Hrun). cbn beta iota. rewrite app_nil_r. apply maybe_ret.
  - destruct Hnext as (t' & Hrun & Hrd' & Hraw & _ & _ & Hst & _). apply (maybe_run _ _ _ _ Hrun). cbn beta iota.
    apply Forall_cons in Hnz as [[Hz Hl] Hnz]. cbn [fst snd length] in Hz, Hl, Hc, Hf, Hroom.
    pose proof (next_start_le _ _ (rs_ready _ _ _ _ _ _ _ Hrd)) as Hns. rewrite (rs_string _ _ _ _ _ _ _ Hrd) in Hns.
    destruct (load_raw_ok _ _ _ _ buffer t' xs raw Hrd' Hraw) as (b & buffer' & Hload & Hlb & Hstr); [lia|lia|].
    apply (maybe_run _ _ _ _ Hload). cbn beta iota. apply (maybe_run _ _ _ _ Hstr). rewrite decide_True by lia.
    destruct Hc as (ys & Hsp & Hcm). apply (maybe_seq _ _ ts); [by apply (tokenize_command_ok raw fresh ys); [..|lia|done|done]|].
    assert (acc ++ ts :: p = (acc ++ [ts]) ++ p) as -> by (by rewrite <-app_assoc). apply IH; try done; [lia|lia|]. rewrite length_app. cbn [length]. lia.
Qed.

Lemma form_pipeline_ok p : pipeline_of src p → maybe (form_pipeline fresh src) p.
Proof.
  intros (xs & Hsp & Hp). destruct escapes_full as [HR Hg], comments_ok as [_ HI]. pose proof (new_reads _ _ _ _ _ Hsrc HR HI Hsp) as Hrd. rewrite Hg in Hrd.
  pose proof (splits_entries PIPELINE_DELIMITERS INPUT_PARSER_IGNORED ESCAPE_SEQUENCES 0 src xs ltac:(lia) escapes_short Hsp) as Hok.
  pose proof (length_words PIPELINE_DELIMITERS 0 xs Hok) as L. rewrite (splits_joined _ _ _ _ _ Hsp) in L. pose proof (Forall2_length _ _ _ Hp) as Lp.
  unfold form_pipeline. apply maybe_negb, maybe_negb. apply (maybe_seq _ _ (new_tokenizer src PIPELINE_DELIMITERS INPUT_PARSER_IGNORED ESCAPE_SEQUENCES)).
  - apply tokenizer_init_ok; [done|rewrite Hg; lia].
  - assert (maybe (if decide (length p < S (length src))%nat then ret (Some p) else throw Fault) p) as Hend by (rewrite decide_True by lia; apply maybe_ret).
    pose proof (pipeline_loop_ok xs p Hp (raw_nonzero _ _ _ _ _ Hsrc Hsp) (S (S (length src))) _ (fresh (S (length src))) [] Hrd ltac:(lia) ltac:(rewrite Hfresh; lia) ltac:(cbn; lia)) as [K1 K2].
    destruct Hend as [E1 E2]. split; [by rewrite (bind_run _ _ _ _ _ K1)|].
    intros l. destruct (K2 l) as (l' & [E|E]); rewrite (bind_run _ _ _ _ _ E); [exists l'; by left|apply E2].
Qed.
End pipeline.

(** ** Memory does not run out *)

(** From a state with memory for all that is to come, [m] ends in such a state. *)
Definition keeps {A} (m : M shell A) : Prop := ∀ k a k', answers k = [] → m k = Ret (a, k') → answers k' = [].

Lemma shell_keeps_bind {A B} (m : M shell A) (f : A → M shell B) : keeps m → (∀ a, keeps (f a)) → keeps (bind m f).
Proof. intros Hm Hf k b k' Hk. unfold bind. destruct (m k) as [[a k1]|] eqn:E; [|done]. apply Hf. by apply (Hm k a). Qed.
Lemma shell_keeps_ret {A} (a : A) : keeps (ret a).
Proof. by intros k b k' Hk [= <- <-]. Qed.
Lemma keeps_world {A} (m : M W A) : keeps (on_world m).
Proof. intros k a k' Hk. unfold on_world, zoom. destruct (m (world k)) as [[b w]|]; [|done]. by intros [= <- <-]. Qed.
Lemma keeps_message m : keeps (print_message m).
Proof. by intros k a k' Hk [= <- <-]. Qed.

Lemma keeps_replace first t : keeps (replace_token HashSetCount HashSetLookup first t).
Proof.
  unfold replace_token. case_decide; [apply shell_keeps_ret|]. destruct (map_and_key first (tstring t)) as [[map key]|]; [|apply shell_keeps_ret].
  apply shell_keeps_bind; [by intros k a k' Hk [= <- <-]|]. intros n. case_decide; [|apply shell_keeps_ret].
  apply shell_keeps_bind; [|intros [value|]; [|apply shell_keeps_ret]].
  - intros k a k' Hk. unfold look_up. destruct (HashSetLookup map key (world k)); [|done]. by intros [= <- <-].
  - apply shell_keeps_bind; [|intros; apply shell_keeps_ret]. intros k a k' Hk. unfold on_answers, zoom. rewrite Hk. by intros [= <- <-].
Qed.

Lemma keeps_replace_all p e : keeps (replace_all p e).
Proof.
  revert e. induction p as [|c p IH]; intros e; cbn; [apply shell_keeps_ret|]. apply shell_keeps_bind.
  - generalize true. induction c as [|t c IHc]; intros first; cbn; [apply shell_keeps_ret|]. apply shell_keeps_bind; [apply keeps_replace|]. intros [t'|]; [|apply shell_keeps_ret].
    apply shell_keeps_bind; [apply IHc|]. intros [ok ts]. apply shell_keeps_ret.
  - intros [ok c']. apply shell_keeps_bind; [apply IH|]. intros [e' p']. apply shell_keeps_ret.
Qed.

Lemma keeps_run_pipeline p : keeps (run_pipeline p).
Proof.
  apply shell_keeps_bind; [apply keeps_replace_all|]. intros [[|] p']; [apply shell_keeps_ret|]. apply shell_keeps_bind; [|intros [r e]; apply shell_keeps_ret].
  destruct p' as [|c [|c' p']]; [apply shell_keeps_ret|apply keeps_world|apply keeps_world].
Qed.

Lemma on_answers_run {A} (m : M (list bool) A) a k : answers k = [] → m [] = Ret (a, []) → on_answers m k = Ret (a, k).
Proof. intros Hk Hm. unfold on_answers, zoom. rewrite Hk, Hm. do 2 f_equal. destruct k. cbn in *. by subst. Qed.

Lemma bind_congr {S A B} (m m' : M S A) (f g : A → M S B) (st : S) : m st = m' st → (∀ a st', f a st' = g a st') → bind m f st = bind m' g st.
Proof. unfold bind. intros -> H. destruct (m' st) as [[a k']|]; [apply H|done]. Qed.

Lemma parse_pipeline_ok src p k : Forall (λ c, c ≠ 0) src → Z.of_nat (length src) < 2147483647 → pipeline_of src p → answers k = [] →
  parse_pipeline src false k = run_pipeline p k.
Proof.
  intros Hs Hsize Hp Hk. destruct (form_pipeline_ok src Hs Hsize p Hp) as [Hform _]. unfold Parser.parse_pipeline.
  rewrite (bind_run _ _ _ _ _ (on_answers_run _ _ _ Hk Hform)). apply bind_congr; [reflexivity|]. intros [[|] p'] k'; reflexivity.
Qed.

(** ** Sequences *)
Section sequence.
Context (src : str) (Hsrc : Forall (λ c, c ≠ 0) src) (Hsize : Z.of_nat (length src) < 2147483647).
Abbreviation rd := (reads src COMMAND_SEQUENCE_DELIMITERS INPUT_PARSER_IGNORED ESCAPE_SEQUENCES 0).

(** What is at the cursor behind the operator. *)
Lemma char_after t t' raw tok op xs : rd t ((raw, tok, Some op) :: xs) → rd t' xs → tokenizer_get_last_delimiter t' = Some op →
  char_at (string t') (tokenizer_get_cursor t' + length op) = Ret (default 0 (head (joined xs))).
Proof.
  intros _ Hrd' Hd. pose proof (next_start_le _ _ (rs_ready _ _ _ _ _ _ _ Hrd')) as Hle. pose proof (rs_splits _ _ _ _ _ _ _ Hrd') as Hsp.
  unfold next_start, len_opt in Hle, Hsp. unfold tokenizer_get_last_delimiter in Hd. rewrite Hd in Hle, Hsp. cbn [default from_option id] in Hle, Hsp.
  unfold char_at, at_cursor, tokenizer_get_cursor. rewrite decide_True by done. cbn [obind]. rewrite (splits_joined _ _ _ _ _ Hsp).
  by rewrite (rs_string _ _ _ _ _ _ _ Hrd').
Qed.

Lemma an_operator raw tok op xs : Forall (entry_ok COMMAND_SEQUENCE_DELIMITERS 0) ((raw, tok, Some op) :: xs) → op = AND_OPERATOR ∨ op = OR_OPERATOR.
Proof.
  intros [(_ & _ & Hd) _]%Forall_cons. specialize (Hd op eq_refl). unfold COMMAND_SEQUENCE_DELIMITERS in Hd. rewrite !elem_of_cons, elem_of_nil in Hd. tauto.
Qed.

(** The part of the loop's body up to the operator. *)
Lemma sequence_step fuel t buffer op0 raw tok d xs p k : rd t ((raw, tok, d) :: xs) → (length raw ≤ length src)%nat → (length src < length buffer)%nat → pipeline_of raw p → answers k = [] →
  ∃ t' buffer', rd t' xs ∧ length buffer' = length buffer ∧ tokenizer_get_last_delimiter t' = d ∧
  sequence_loop (S fuel) t buffer op0 false k = (let! ' (result, error) := run_pipeline p in
    match d with
    | None => sequence_loop fuel t' buffer' d error
    | Some op =>
        let c := default 0 (head (joined xs)) in
        if decide (c = 38 ∨ c = 124) then print_message (UnexpectedToken c);;! ret true
        else if (error : bool) then ret error
        else if decide (op = AND_OPERATOR) then if (result : bool) then sequence_loop fuel t' buffer' d error else ret error
        else if decide (op = OR_OPERATOR) then if (result : bool) then ret error else sequence_loop fuel t' buffer' d error
        else sequence_loop fuel t' buffer' d error
    end) k.
Proof.
  intros Hrd Hraw Hb Hp Hk. pose proof (next_token _ _ _ _ _ _ _ Hrd) as (t' & Hrun & Hrd' & Hr & _ & Hd & Hst & _).
  pose proof (next_start_le _ _ (rs_ready _ _ _ _ _ _ _ Hrd)) as Hns. rewrite (rs_string _ _ _ _ _ _ _ Hrd) in Hns.
  destruct (load_raw_ok _ _ _ _ buffer t' xs raw Hrd' Hr) as (b & buffer' & Hload & Hlb & Hstr); [lia|lia|].
  exists t', buffer'. split; [done|]. split; [done|]. split; [done|]. cbn [Parser.sequence_loop]. rewrite Hrun, bind_lift. cbn [negb]. rewrite Hload, bind_lift. cbn beta iota.
  rewrite Hstr, bind_lift. assert (Forall (λ c, c ≠ 0) raw) as Hz by (rewrite <-Hr; unfold raw_token; apply Forall_take, Forall_drop, (tk_string _ _ (rd_ok _ _ (rs_ready _ _ _ _ _ _ _ Hrd')))).
  apply bind_congr; [apply parse_pipeline_ok; (done || lia)|]. intros [result error] k'. rewrite Hd.
  destruct d as [op|]; [|reflexivity]. rewrite (char_after t t' raw tok op xs Hrd Hrd' Hd), bind_lift. reflexivity.
Qed.

Lemma sequence_end fuel t buffer op error k : rd t [] → (0 < fuel)%nat →
  sequence_loop fuel t buffer op error k = ((match op with Some op => print_message (OperatorNotFollowed op) | None => ret tt end);;! ret error) k.
Proof.
  intros Hrd Hf. destruct fuel as [|fuel]; [lia|]. destruct (next_token _ _ _ _ _ _ _ Hrd) as (t' & Hrun & _). cbn [Parser.sequence_loop]. by rewrite Hrun, bind_lift.
Qed.

Lemma and_or : AND_OPERATOR ≠ OR_OPERATOR.
Proof. done. Qed.

(** [b1] and [b2] are what the code calls [result] and [error]. *)
Lemma sequence_loop_ok xs c : sequence_of xs c → Forall (entry_ok COMMAND_SEQUENCE_DELIMITERS 0) xs → Forall (λ x, (length x.1.1 ≤ length src)%nat) xs →
  ∀ fuel t buffer op0 k, rd t xs → (length xs < fuel)%nat → (length src < length buffer)%nat → answers k = [] →
  sequence_loop fuel t buffer op0 false k = run_sequence c k.
Proof.
  induction 1 as [raw tok p Hp|raw tok op p Hp|raw tok op xs p ch Hp Hh Hch|raw tok op xs p c Hp Hne H38 H124 Hsq IH];
    intros Hok Hl [|fuel] t buffer op0 k Hrd Hf Hb Hk; try (exfalso; cbn in Hf; lia); cbn [length] in Hf;
    pose proof Hl as [Hlr Hl']%Forall_cons; cbn [fst snd] in Hlr;
    destruct (sequence_step fuel t buffer op0 raw tok _ _ p k Hrd Hlr Hb Hp Hk) as (t' & buffer' & Hrd' & Hlb & _ & ->); cbn [run_sequence].
  - apply bind_congr; [done|]. intros [result error] k'. rewrite sequence_end by (done || lia). done.
  - pose proof (an_operator _ _ _ _ Hok) as Hop. apply bind_congr; [done|]. intros [result error] k'. cbv zeta. cbn [joined head default]. rewrite decide_False by lia.
    destruct error; [done|]. destruct Hop as [-> | ->].
    + rewrite decide_True, bool_decide_eq_true_2 by done. destruct result; [rewrite sequence_end by (done || lia); done|done].
    + rewrite decide_False, decide_True by done. rewrite bool_decide_eq_false_2 by done. destruct result; [done|rewrite sequence_end by (done || lia); done].
  - apply bind_congr; [done|]. intros [result error] k'. rewrite Hh. cbn [default from_option id]. cbv zeta. by rewrite decide_True.
  - pose proof (an_operator _ _ _ _ Hok) as Hop. pose proof Hok as [_ Hok']%Forall_cons.
    assert (∀ result error k', run_pipeline p k = Ret ((result, error), k') → sequence_loop fuel t' buffer' (Some op) false k' = run_sequence c k') as Hnext.
    { intros result error k' Hr. apply IH; try done; [lia|lia|]. by apply (keeps_run_pipeline p k (result, error)). }
    unfold continue. assert (∀ ch, head (joined xs) = Some ch → ¬ (ch = 38 ∨ ch = 124)) as Hch by (intros ch E [-> | ->]; congruence).
    destruct Hop as [-> | ->]; [rewrite decide_True by done|rewrite decide_False by done]; cbn [run_sequence]; unfold bind at 1;
      (destruct (run_pipeline p k) as [[[result error] k']|] eqn:Er; [|unfold bind; by rewrite Er]); rewrite (bind_run _ _ _ _ _ Er); cbv zeta;
      (assert (¬ (default 0 (head (joined xs)) = 38 ∨ default 0 (head (joined xs)) = 124)) as Hnc by (destruct (head (joined xs)); [by apply Hch|cbn; lia]));
      rewrite decide_False by done; (destruct error; [done|]); specialize (Hnext result false k' eq_refl); destruct result; done || exact Hnext.
Qed.

Lemma parse_command_sequence_ok xs c k : splits COMMAND_SEQUENCE_DELIMITERS INPUT_PARSER_IGNORED ESCAPE_SEQUENCES src xs → sequence_of xs c → answers k = [] →
  parse_command_sequence src k = (let! error := run_sequence c in ret (negb error)) k.
Proof.
  intros Hsp Hc Hk. destruct escapes_full as [HR Hg], comments_ok as [_ HI]. pose proof (new_reads _ _ _ _ _ Hsrc HR HI Hsp) as Hrd. rewrite Hg in Hrd.
  pose proof (splits_entries COMMAND_SEQUENCE_DELIMITERS INPUT_PARSER_IGNORED ESCAPE_SEQUENCES 0 src xs ltac:(lia) escapes_short Hsp) as Hok.
  pose proof (length_words COMMAND_SEQUENCE_DELIMITERS 0 xs Hok) as L. rewrite (splits_joined _ _ _ _ _ Hsp) in L.
  unfold Parser.parse_command_sequence. rewrite (bind_run _ _ _ _ _ (on_answers_run alloc true k Hk eq_refl)). cbn [negb].
  destruct (tokenizer_init_ok src COMMAND_SEQUENCE_DELIMITERS INPUT_PARSER_IGNORED ESCAPE_SEQUENCES HR ltac:(rewrite Hg; lia)) as [Hinit _].
  rewrite (bind_run _ _ _ _ _ (on_answers_run _ _ k Hk Hinit)). apply bind_congr; [|done].
  apply (sequence_loop_ok xs c Hc Hok); [|done|lia|rewrite Hfresh; lia|done].
  apply (Forall_impl _ _ _ (raw_nonzero _ _ _ _ _ Hsrc Hsp)). by intros x [_ H].
Qed.
End sequence.

(** ** Lines *)
Abbreviation line_loop := (line_loop fresh HashSetCount HashSetLookup execute_command execute_pipeline).
Abbreviation parse_input_line := (parse_input_line fresh HashSetCount HashSetLookup execute_command execute_pipeline).

(** The meaning of a line: up to the first sequence with an error.  It returns whether all went well. *)
Fixpoint run_line (cs : list sequence) : M shell bool :=
  match cs with
  | [] => ret true
  | c :: cs => let! error := run_sequence c in if (error : bool) then ret false else run_line cs
  end.

Lemma keeps_run_sequence c : keeps (run_sequence c).
Proof.
  induction c as [p|p c IH|p c IH|p op|p ch]; cbn [run_sequence]; (apply shell_keeps_bind; [apply keeps_run_pipeline|]); intros [result error].
  - apply shell_keeps_ret.
  - destruct error; [apply shell_keeps_ret|]. destruct result; [done|apply shell_keeps_ret].
  - destruct error; [apply shell_keeps_ret|]. destruct result; [apply shell_keeps_ret|done].
  - destruct error; [apply shell_keeps_ret|]. case_decide; [|apply shell_keeps_ret]. apply shell_keeps_bind; [apply keeps_message|]. intros. apply shell_keeps_ret.
  - apply shell_keeps_bind; [apply keeps_message|]. intros. apply shell_keeps_ret.
Qed.

Lemma line_loop_ok src xs cs : line_of xs cs → Z.of_nat (length src) < 2147483647 → Forall (λ x, Forall (λ c, c ≠ 0) x.1.1 ∧ (length x.1.1 ≤ length src)%nat) xs →
  ∀ fuel t buffer k, reads src COMMAND_SEQUENCE_BREAKS INPUT_PARSER_IGNORED ESCAPE_SEQUENCES 0 t xs → (length xs < fuel)%nat → (length src < length buffer)%nat → answers k = [] →
  line_loop fuel t buffer k = run_line cs k.
Proof.
  intros Hl Hsize. induction Hl as [|tok d xs cs Hl IH|raw tok d xs c cs Hne (ys & Hsp & Hc) Hl IH]; intros Hx [|fuel] t buffer k Hrd Hf Hb Hk; try (exfalso; cbn in Hf; lia);
    cbn [length] in Hf; pose proof (next_token _ _ _ _ _ _ _ Hrd) as Hnext; cbn [Parser.line_loop].
  - destruct Hnext as (t' & -> & _). by rewrite bind_lift.
  - destruct Hnext as (t' & Hrun & Hrd' & Hraw & _ & _ & Hst & _). rewrite Hrun, bind_lift. cbn [negb]. apply Forall_cons in Hx as [_ Hx].
    pose proof (next_start_le _ _ (rs_ready _ _ _ _ _ _ _ Hrd)) as Hns. rewrite (rs_string _ _ _ _ _ _ _ Hrd) in Hns.
    destruct (load_raw_ok _ _ _ _ buffer t' xs [] Hrd' Hraw) as (b & buffer' & Hload & Hlb & Hstr); [cbn; lia|lia|].
    rewrite Hload, bind_lift. cbn beta iota. rewrite Hstr, bind_lift, decide_True by done. apply IH; try done; lia.
  - destruct Hnext as (t' & Hrun & Hrd' & Hraw & _ & _ & Hst & _). rewrite Hrun, bind_lift. cbn [negb]. apply Forall_cons in Hx as [[Hz Hlen] Hx]. cbn [fst snd] in Hz, Hlen.
    pose proof (next_start_le _ _ (rs_ready _ _ _ _ _ _ _ Hrd)) as Hns. rewrite (rs_string _ _ _ _ _ _ _ Hrd) in Hns.
    destruct (load_raw_ok _ _ _ _ buffer t' xs raw Hrd' Hraw) as (b & buffer' & Hload & Hlb & Hstr); [lia|lia|].
    rewrite Hload, bind_lift. cbn beta iota. rewrite Hstr, bind_lift, decide_False by done.
    pose proof (parse_command_sequence_ok raw Hz ltac:(lia) ys c k Hsp Hc Hk) as Hseq. cbn [run_line].
    unfold bind in Hseq. unfold bind at 1. rewrite Hseq. unfold bind. destruct (run_sequence c k) as [[error k']|] eqn:E; [|done]. unfold ret at 1.
    destruct error; cbn [negb]; [done|]. apply IH; try done; [lia|lia|]. by apply (keeps_run_sequence c k false).
Qed.

(** the tokens of a command.  If a command is split into words and quoted strings
    as [commands] says, [tokenize_command] returns exactly those tokens, or null if
    malloc failed; the array of tokens and the buffer for strings, which have the
    command's length, suffice. *)
Theorem tokenize_command_words s ts l : Forall (λ c, c ≠ 0) s → Z.of_nat (length s) < 2147483647 → command_of s ts →
  ∃ o l', tokenize_command fresh s l = Ret (o, l') ∧ (o = Some ts ∨ o = None ∧ l ≠ []).
Proof.
  intros Hs Hsize (xs & Hsp & Hc). destruct (tokenize_command_ok s fresh xs ts Hfresh Hs Hsize Hsp Hc) as [Hnil Hany].
  destruct (Hany l) as (l' & [E|E]); eexists _, l'; (split; [exact E|]); [right|by left]. split; [done|]. intros ->. congruence.
Qed.

(** C38: what the shell does with a line.  When there is memory for its tokens, a line
    that consists of the sequences [cs] runs them one after the other up to the first
    error: within a sequence, a pipeline behind [&&] only if the one before it
    succeeded, one behind [||] only if it failed, and the first one that is not run
    ends the sequence.  No buffer or array overflows, and no loop goes on for ever. *)
Theorem shell_runs_line line cs k : Forall (λ c, c ≠ 0) line → Z.of_nat (length line) < 2147483647 → line_in line cs → answers k = [] →
  parse_input_line line k = run_line cs k.
Proof.
  intros Hs Hsize (xs & Hsp & Hl) Hk. destruct escapes_full as [HR Hg], comments_ok as [_ HI]. pose proof (new_reads _ _ _ _ _ Hs HR HI Hsp) as Hrd. rewrite Hg in Hrd.
  pose proof (splits_entries COMMAND_SEQUENCE_BREAKS INPUT_PARSER_IGNORED ESCAPE_SEQUENCES 0 line xs ltac:(lia) escapes_short Hsp) as Hok.
  pose proof (length_words COMMAND_SEQUENCE_BREAKS 0 xs Hok) as L. rewrite (splits_joined _ _ _ _ _ Hsp) in L.
  unfold Parser.parse_input_line. rewrite (bind_run _ _ _ _ _ (on_answers_run alloc true k Hk eq_refl)). cbn [negb].
  destruct (tokenizer_init_ok line COMMAND_SEQUENCE_BREAKS INPUT_PARSER_IGNORED ESCAPE_SEQUENCES HR ltac:(rewrite Hg; lia)) as [Hinit _].
  rewrite (bind_run _ _ _ _ _ (on_answers_run _ _ k Hk Hinit)). apply (line_loop_ok line xs cs Hl Hsize (raw_nonzero _ _ _ _ _ Hs Hsp)); [exact Hrd|lia|rewrite Hfresh; lia|exact Hk].
Qed.
End shell.
