(* ===== verification/ShellScenarios.v ===== *)
(** Input lines taken apart: the theorems about the shell at concrete lines, and
    lines that it does not treat as a shell should. *)
From S2P Require Import Prelude Tokenizer TokenizerSpec Parser ShellSpec.
Local Open Scope Z_scope.

(** The tokens that a run of the tokenizer gives. *)
Definition tokens_of (s : str) (D : list str) (I R : list string_pair) : list entry :=
  match read_tokens (S (length s)) (new_tokenizer s D I R) with Ret (xs, _) => xs | Err _ => [] end.

Lemma splits_compute s D I : Forall (λ c, c ≠ 0) s → Forall (λ p, is_Some (pa p)) I → splits D I ESCAPE_SEQUENCES s (tokens_of s D I ESCAPE_SEQUENCES).
Proof.
  intros Hs HI. destruct (read_tokens_ok _ (S (length s)) _ (new_tokenizer_ready s D I ESCAPE_SEQUENCES Hs (proj1 escapes_full) HI)) as (xs & t' & Hrun & Hsp); [cbn; lia|].
  unfold tokens_of. rewrite Hrun. exact Hsp.
Qed.

Definition a_word (c : Z) : token_t := mkToken [c] UNKNOWN 0.

(** A single letter is a command of one word. *)
Lemma letter_command c : tokens_of [c] COMMAND_DELIMITERS COMMAND_COMMENTS ESCAPE_SEQUENCES = [([c], [c], None)] → c ≠ 0 → command_of [c] [a_word c].
Proof.
  intros E Hc. exists [([c], [c], None)]. split; [rewrite <-E; apply splits_compute; [by repeat constructor|apply comments_ok]|].
  apply (cm_word [c] [c] None [] 0 []); [by intros []|constructor].
Qed.

Lemma letter_pipeline c : tokens_of [c] COMMAND_DELIMITERS COMMAND_COMMENTS ESCAPE_SEQUENCES = [([c], [c], None)] → c ≠ 0 →
  tokens_of [c] PIPELINE_DELIMITERS INPUT_PARSER_IGNORED ESCAPE_SEQUENCES = [([c], [c], None)] → pipeline_of [c] [[a_word c]].
Proof.
  intros E Hc E2. exists [([c], [c], None)]. split; [rewrite <-E2; apply splits_compute; [by repeat constructor|apply comments_ok]|].
  constructor; [by apply letter_command|constructor].
Qed.

Lemma abcd c : c ∈ [97; 98; 99; 100] → pipeline_of [c] [[a_word c]].
Proof.
  intros Hc. repeat (apply elem_of_cons in Hc as [->|Hc]; [apply letter_pipeline; [vm_compute; reflexivity|lia|vm_compute; reflexivity]|]). by apply elem_of_nil in Hc.
Qed.

(** The line [a&&b||c;d]. *)
Definition abc : str := [97; 38; 38; 98; 124; 124; 99].
Definition line_abcd : str := abc ++ [59; 100].
Definition seq_abc : sequence := And [[a_word 97]] (Or [[a_word 98]] (Last [[a_word 99]])).

Lemma abc_sequence : sequence_in abc seq_abc.
Proof.
  exists (tokens_of abc COMMAND_SEQUENCE_DELIMITERS INPUT_PARSER_IGNORED ESCAPE_SEQUENCES). split; [apply splits_compute; [by repeat constructor|apply comments_ok]|].
  replace (tokens_of _ _ _ _) with [([97], [97], Some [38; 38]); ([98], [98], Some [124; 124]); ([99], [99], None : option str)] by (vm_compute; reflexivity).
  apply (sq_next [97] [97] AND_OPERATOR _ [[a_word 97]] (Or [[a_word 98]] (Last [[a_word 99]]))); [apply abcd; by constructor|done|done|done|].
  apply (sq_next [98] [98] OR_OPERATOR _ [[a_word 98]] (Last [[a_word 99]])); [apply abcd; by repeat constructor|done|done|done|]. apply sq_last, abcd. by repeat constructor.
Qed.

Lemma abcd_line : line_in line_abcd [seq_abc; Last [[a_word 100]]].
Proof.
  exists (tokens_of line_abcd COMMAND_SEQUENCE_BREAKS INPUT_PARSER_IGNORED ESCAPE_SEQUENCES). split; [apply splits_compute; [by repeat constructor|apply comments_ok]|].
  replace (tokens_of _ _ _ _) with [(abc, abc, Some [59]); ([100], [100], None : option str)] by (vm_compute; reflexivity).
  constructor; [done|apply abc_sequence|]. constructor; [done| |constructor].
  exists (tokens_of [100] COMMAND_SEQUENCE_DELIMITERS INPUT_PARSER_IGNORED ESCAPE_SEQUENCES). split; [apply splits_compute; [by repeat constructor|apply comments_ok]|].
  replace (tokens_of _ _ _ _) with [([100], [100], None : option str)] by (vm_compute; reflexivity). apply sq_last, abcd. by repeat constructor.
Qed.

(** A world that records the commands; the command [b] fails. *)
Definition log_command (ts : list token_t) (e : bool) : M (list (list token_t)) (bool * bool) :=
  modify (λ w, w ++ [ts]);;! ret (bool_decide (ts ≠ [a_word 98]), false).
Definition log_pipeline (p : list (list token_t)) (e : bool) : M (list (list token_t)) (bool * bool) := ret (false, true).
Definition zeros (n : nat) : list Z := replicate n 0.
Definition no_maps_count (v : bool) (w : list (list token_t)) : Z := 0.
Definition no_maps (v : bool) (key : str) (w : list (list token_t)) : outcome (option str) := Ret None.

Lemma shell_runs_line_witness : parse_input_line zeros no_maps_count no_maps log_command log_pipeline line_abcd (mkShell [] [] []) =
  Ret (true, mkShell [] [] [[a_word 97]; [a_word 98]; [a_word 99]; [a_word 100]]).
Proof.
  rewrite (shell_runs_line zeros (λ n, length_replicate n 0) no_maps_count no_maps log_command log_pipeline line_abcd [seq_abc; Last [[a_word 100]]] (mkShell [] [] [])).
  - reflexivity.
  - by repeat constructor.
  - cbn. lia.
  - apply abcd_line.
  - reflexivity.
Defined.

Lemma tokens_make_up_the_string_witness : ∃ t xs t', tokenizer_init abc (Some COMMAND_SEQUENCE_DELIMITERS) (Some INPUT_PARSER_IGNORED) (Some ESCAPE_SEQUENCES) [] = Ret (Some t, []) ∧
  read_tokens 8 t = Ret (xs, t') ∧ joined xs = abc.
Proof.
  destruct (tokens_make_up_the_string abc COMMAND_SEQUENCE_DELIMITERS INPUT_PARSER_IGNORED ESCAPE_SEQUENCES []) as (o & l' & Hinit & Hnone & Hsome).
  - by repeat constructor.
  - exact (proj1 escapes_full).
  - exact (proj2 comments_ok).
  - reflexivity.
  - assert (tokenizer_init abc (Some COMMAND_SEQUENCE_DELIMITERS) (Some INPUT_PARSER_IGNORED) (Some ESCAPE_SEQUENCES) [] =
      Ret (Some (new_tokenizer abc COMMAND_SEQUENCE_DELIMITERS INPUT_PARSER_IGNORED ESCAPE_SEQUENCES), [])) as E by (vm_compute; reflexivity).
    rewrite E in Hinit. injection Hinit as <- <-. destruct (Hsome _ eq_refl) as (xs & t' & Hrun & _ & Hj). eexists _, xs, t'. split; [exact E|]. split; [exact Hrun|exact Hj].
Defined.

(** The command [a "b c"]. *)
Definition quoted : str := [97; 32; 34; 98; 32; 99; 34].
Lemma quoted_command : command_of quoted [a_word 97; mkToken [98; 32; 99] STRING 32].
Proof.
  exists (tokens_of quoted COMMAND_DELIMITERS COMMAND_COMMENTS ESCAPE_SEQUENCES). split; [apply splits_compute; [by repeat constructor|apply comments_ok]|].
  replace (tokens_of _ _ _ _) with [([97], [97], Some [32]); ([], [], Some [34]); ([98], [98], Some [32]); ([99], [99], Some [34])] by (vm_compute; reflexivity).
  apply (cm_word [97] [97] (Some [32]) _ 0 [mkToken [98; 32; 99] STRING 32]).
  - cbn. unfold STRING_START_ENDS. rewrite !elem_of_cons, elem_of_nil. naive_solver.
  - apply (cm_string [] [] [34] [([98], [98], Some [32]); ([99], [99], Some [34])] [98; 32; 99] [] 32 []); [by constructor|done|done|constructor].
Qed.

Lemma tokenize_command_words_witness : ∃ l, tokenize_command zeros quoted [] = Ret (Some [a_word 97; mkToken [98; 32; 99] STRING 32], l).
Proof.
  destruct (tokenize_command_words zeros (λ n, length_replicate n 0) quoted [a_word 97; mkToken [98; 32; 99] STRING 32] []) as (o & l' & Hrun & [->|[_ Hl]]).
  - by repeat constructor.
  - reflexivity.
  - exact quoted_command.
  - exists l'. exact Hrun.
  - by destruct Hl.
Defined.

(** ** Lines that go wrong *)

(** [&&] and [||] do not have the same precedence here as in a shell: when [a] fails,
    [a&&b||c] ends without running [c]. *)
Lemma alternative_not_run {W} (fresh : nat → list Z) (Hfresh : ∀ n, length (fresh n) = n) (count : bool → W → Z) (lookup : bool → str → W → outcome (option str))
    (execute_command : list token_t → bool → M W (bool * bool)) (execute_pipeline : list (list token_t) → bool → M W (bool * bool)) (k : shell (W := W)) (w' : W) :
  answers k = [] → count false (world k) ≤ 0 → execute_command [a_word 97] false (world k) = Ret ((false, false), w') →
  parse_command_sequence fresh count lookup execute_command execute_pipeline abc k = Ret (true, set_world w' k).
Proof.
  intros Hk Hcount Hexec. destruct abc_sequence as (xs & Hsp & Hc).
  rewrite (parse_command_sequence_ok fresh Hfresh count lookup execute_command execute_pipeline abc ltac:(by repeat constructor) ltac:(reflexivity) xs seq_abc k Hsp Hc Hk).
  assert (run_pipeline count lookup execute_command execute_pipeline [[a_word 97]] k = Ret ((false, false), set_world w' k)) as Hp.
  { assert (replace_all count lookup [[a_word 97]] false k = Ret ((false, [[a_word 97]]), k)) as Hr.
    { assert (replace_token count lookup true (a_word 97) k = Ret (Some (a_word 97), k)) as Ht.
      { unfold replace_token. rewrite decide_False by done. change (map_and_key true (tstring (a_word 97))) with (Some (false, [97])). cbn beta iota.
        assert (count_in count false k = Ret (count false (world k), k)) as Hn by reflexivity. rewrite (bind_run _ _ _ _ _ Hn). by rewrite decide_False by lia. }
      cbn [replace_all replace_variables]. rewrite bind_assoc, (bind_run _ _ _ _ _ Ht). reflexivity. }
    unfold run_pipeline. rewrite (bind_run _ _ _ _ _ Hr). cbn beta iota.
    assert (on_world (execute_command [a_word 97] false) k = Ret ((false, false), set_world w' k)) as Hw by (unfold on_world, zoom; by rewrite Hexec).
    rewrite (bind_run _ _ _ _ _ Hw). reflexivity. }
  cbn [run_sequence seq_abc]. rewrite bind_assoc, (bind_run _ _ _ _ _ Hp). reflexivity.
Qed.

(** The text [";"] with an escaped quote in front of the semicolon is one string to [tokenize_command], but
    the tokenizer of lines ends the string at the escaped quote, and splits the line at the semicolon. *)
Definition escaped : str := [34; 92; 34; 59; 34].
Example escaped_quote_splits : (tokens_of escaped COMMAND_SEQUENCE_BREAKS INPUT_PARSER_IGNORED ESCAPE_SEQUENCES).*1.*1 = [[34; 92; 34]; [34]] ∧
  tokenize_command zeros escaped [] = Ret (Some [mkToken [34; 59] STRING 0], []).
Proof. split; vm_compute; reflexivity. Qed.

(** A quote at the end of a command begins no string: the token is what happens to be in the new buffer. *)
Example lone_quote_reads_garbage : tokenize_command (λ _, [65; 0]) [34] [] = Ret (Some [mkToken [65] STRING 0], []) ∧
  tokenize_command (λ _, [65; 66]) [34] [] = Err Fault.
Proof. split; vm_compute; reflexivity. Qed.

(** A backslash and the letter n stay as they are: only a backslash and a newline are replaced. *)
Example backslash_n_stays : tokenize_command zeros [92; 110] [] = Ret (Some [mkToken [92; 110] UNKNOWN 0], []) ∧
  tokenize_command zeros [92; 10] [] = Ret (Some [mkToken [10] UNKNOWN 0], []).
Proof. split; vm_compute; reflexivity. Qed.
