(* ===== verification/Containers.v ===== *)
(** The containers of the shell: vector.c and hashset.c of Project1.

    A vector owns its block of bytes, [elems]; an element, and the object that an
    [elemAddr] or a [key] points to, is the list of its bytes.  The pointers that
    the code asserts not to be null are arguments that cannot be.  An [int] that
    overflows is a fault, since C leaves it undefined. *)
From stdpp Require Import sorting.
From S2P Require Import Prelude.
Local Open Scope Z_scope.

Definition INT_MAX : Z := 2147483647.
Definition int (x : Z) : outcome Z := if decide (-2147483648 ≤ x ≤ INT_MAX) then Ret x else Err Fault.

(** ** Blocks of memory *)

(** The [n] bytes at offset [o]. *)
Definition read_at (b : list Z) (o n : Z) : outcome (list Z) :=
  if decide (0 ≤ o ∧ 0 ≤ n ∧ o + n ≤ Z.of_nat (length b)) then Ret (sub b (Z.to_nat o) (Z.to_nat n)) else Err Fault.
Definition write_at (b : list Z) (o : Z) (x : list Z) : outcome (list Z) :=
  if decide (0 ≤ o ∧ o + Z.of_nat (length x) ≤ Z.of_nat (length b)) then Ret (splice b (Z.to_nat o) x) else Err Fault.

(** memcpy from the object [src], and memmove inside a block. *)
Definition memcpy (b : list Z) (dst : Z) (src : list Z) (n : Z) : outcome (list Z) :=
  let* x := read_at src 0 n in write_at b dst x.
Definition memmove (b : list Z) (dst src n : Z) : outcome (list Z) :=
  let* x := read_at b src n in write_at b dst x.

(** What the next calls of malloc and realloc give: no memory, or a block with
    these bytes in it; and the world of the functions that the client passes. *)
Record env {W : Type} := mkEnv { answers : list (option (nat → Z)); world : W }.
Arguments env : clear implicits.
Arguments mkEnv {W}.

Section containers.
Context {W : Type}.

(** A call of a client's function. *)
Definition call {A} (f : W → outcome (A * W)) : M (env W) A := λ s,
  let* ' (a, w) := f (world s) in Ret (a, mkEnv (answers s) w).
(** One that only reads. *)
Definition ask {A} (f : W → outcome A) : M (env W) A := λ s, let* a := f (world s) in Ret (a, s).

Definition answer : M (env W) (option (nat → Z)) := λ s,
  match answers s with a :: l => Ret (a, mkEnv l (world s)) | [] => Ret (Some (λ _, 0), s) end.

(** The bytes that a block of [n] bytes has when the first ones are [old]. *)
Definition block (old : list Z) (junk : nat → Z) (n : nat) : list Z := take n old ++ (junk <$> seq (length old) (n - length old)).

Definition realloc (old : list Z) (n : Z) : M (env W) (option (list Z)) :=
  let! a := answer in ret ((λ junk, block old junk (Z.to_nat n)) <$> a).
Definition malloc (n : Z) : M (env W) (option (list Z)) := realloc [] n.

(** [assert (p)] of a pointer that malloc returned *)
Definition assert_some {A} (o : option A) : M (env W) A := lift (or_panic o).

(** ** Vectors *)

(** vector.h 57-57 VectorFreeFunction, called with an element *)
Definition VectorFreeFunction : Type := list Z → W → outcome W.
(** vector.h 35-35 VectorCompareFunction *)
Definition VectorCompareFunction : Type := list Z → list Z → W → outcome Z.
(** vector.h 46-46 VectorMapFunction, which may change the element; its auxiliary data are in [W] *)
Definition VectorMapFunction : Type := list Z → W → outcome (list Z * W).

(** vector.h 70-77 vector *)
Record vector := mkVector {
  elems : list Z;
  initialAllocationLength : Z;
  logLength : Z;
  alocLength : Z;
  elemSize : Z;
  freeFn : option VectorFreeFunction;
}.
Definition set_elems (x : list Z) (v : vector) : vector :=
  mkVector x (initialAllocationLength v) (logLength v) (alocLength v) (elemSize v) (freeFn v).
Definition set_logLength (x : Z) (v : vector) : vector :=
  mkVector (elems v) (initialAllocationLength v) x (alocLength v) (elemSize v) (freeFn v).
Definition set_alocLength (x : Z) (v : vector) : vector :=
  mkVector (elems v) (initialAllocationLength v) (logLength v) x (elemSize v) (freeFn v).

(** vector.c 9 Nth_Elem_Addr, as an offset in the block *)
Definition Nth_Elem_Addr (elemsize n : Z) : outcome Z := int (n * elemsize).

(** [if (v->freeFn != NULL) v->freeFn (addr)] *)
Definition free_elem (v : vector) (addr : Z) : M (env W) unit :=
  match freeFn v with
  | None => ret tt
  | Some f => let! x := lift (read_at (elems v) addr (elemSize v)) in call (λ w, let* w := f x w in Ret (tt, w))
  end.

(** vector.c 11-26 VectorNew *)
Definition VectorNew (elemSize : Z) (freeFn : option VectorFreeFunction) (initialAllocation : Z) : M (env W) vector :=
  assertM (bool_decide (0 < elemSize));;!
  assertM (bool_decide (0 ≤ initialAllocation));;!
  let! n := lift (int (initialAllocation * elemSize)) in
  let! elems := malloc n in
  let! elems := assert_some elems in
  ret (mkVector elems (if decide (initialAllocation = 0) then 4 else initialAllocation) 0 initialAllocation elemSize freeFn).

(** vector.c 32-34 VectorDispose, the loop *)
Fixpoint dispose_loop (n : nat) (v : vector) (i : Z) : M (env W) unit :=
  match n with
  | O => ret tt
  | S n =>
      let! addr := lift (Nth_Elem_Addr (elemSize v) i) in
      free_elem v addr;;!
      dispose_loop n v (i + 1)
  end.

(** vector.c 28-37 VectorDispose *)
Definition VectorDispose (v : vector) : M (env W) unit :=
  match freeFn v with Some _ => dispose_loop (Z.to_nat (logLength v)) v 0 | None => ret tt end.

(** vector.c 39-42 VectorLength *)
Definition VectorLength (v : vector) : Z := logLength v.

(** vector.c 44-50 VectorNth *)
Definition VectorNth (v : vector) (position : Z) : M (env W) Z :=
  assertM (bool_decide (0 ≤ position));;!
  assertM (bool_decide (position < logLength v));;!
  lift (Nth_Elem_Addr (elemSize v) position).

(** vector.c 52-63 VectorReplace *)
Definition VectorReplace (v : vector) (elemAddr : list Z) (position : Z) : M (env W) vector :=
  assertM (bool_decide (0 ≤ position));;!
  assertM (bool_decide (position < logLength v));;!
  let! addr := lift (Nth_Elem_Addr (elemSize v) position) in
  free_elem v addr;;!
  let! b := lift (memcpy (elems v) addr elemAddr (elemSize v)) in
  ret (set_elems b v).

(** vector.c 137-142 growAllocationSpace *)
Definition growAllocationSpace (v : vector) : M (env W) vector :=
  let! n := lift (int (alocLength v + initialAllocationLength v)) in
  let! bytes := lift (int (n * elemSize v)) in
  let! b := realloc (elems v) bytes in
  let! b := assert_some b in
  ret (set_elems b (set_alocLength n v)).

(** vector.c 65-76 VectorInsert *)
Definition VectorInsert (v : vector) (elemAddr : list Z) (position : Z) : M (env W) vector :=
  assertM (bool_decide (0 ≤ position));;!
  assertM (bool_decide (position ≤ logLength v));;!
  let! v := (if decide (logLength v = alocLength v) then growAllocationSpace v else ret v) in
  let! addr := lift (Nth_Elem_Addr (elemSize v) position) in
  let! n := lift (int ((logLength v - position) * elemSize v)) in
  let! b := lift (memmove (elems v) (addr + elemSize v) addr n) in
  let! b := lift (memcpy b addr elemAddr (elemSize v)) in
  let! len := lift (int (logLength v + 1)) in
  ret (set_logLength len (set_elems b v)).

(** vector.c 78-85 VectorAppend *)
Definition VectorAppend (v : vector) (elemAddr : list Z) : M (env W) vector :=
  let! v := (if decide (logLength v = alocLength v) then growAllocationSpace v else ret v) in
  let! addr := lift (Nth_Elem_Addr (elemSize v) (logLength v)) in
  let! b := lift (memcpy (elems v) addr elemAddr (elemSize v)) in
  let! len := lift (int (logLength v + 1)) in
  ret (set_logLength len (set_elems b v)).

(** vector.c 87-98 VectorDelete *)
Definition VectorDelete (v : vector) (position : Z) : M (env W) vector :=
  assertM (bool_decide (0 ≤ position));;!
  assertM (bool_decide (position < logLength v));;!
  let! addr := lift (Nth_Elem_Addr (elemSize v) position) in
  free_elem v addr;;!
  let len := logLength v - 1 in
  let! n := lift (int ((len - position) * elemSize v)) in
  let! b := lift (memmove (elems v) addr (addr + elemSize v) n) in
  ret (set_logLength len (set_elems b v)).

(** vector.c 111-113 VectorMap, the loop *)
Fixpoint map_loop (n : nat) (mapFn : VectorMapFunction) (v : vector) (i : Z) : M (env W) vector :=
  match n with
  | O => ret v
  | S n =>
      let! addr := lift (Nth_Elem_Addr (elemSize v) i) in
      let! x := lift (read_at (elems v) addr (elemSize v)) in
      let! x := call (mapFn x) in
      let! b := lift (memcpy (elems v) addr x (elemSize v)) in
      map_loop n mapFn (set_elems b v) (i + 1)
  end.

(** vector.c 107-114 VectorMap *)
Definition VectorMap (v : vector) (mapFn : VectorMapFunction) : M (env W) vector := map_loop (Z.to_nat (logLength v)) mapFn v 0.

(** *** Searching and sorting, as the C library does *)

(** The offset of the first of [n] elements from [addr] on that equals the key. *)
Fixpoint lfind (n : nat) (key b : list Z) (addr size : Z) (compare : VectorCompareFunction) : M (env W) (option Z) :=
  match n with
  | O => ret None
  | S n =>
      let! x := lift (read_at b addr size) in
      let! c := ask (compare key x) in
      if decide (c = 0) then ret (Some addr) else lfind n key b (addr + size) size compare
  end.

(** Binary search between the elements [l] and [u] of those from [base] on. *)
Fixpoint bsearch_loop (fuel : nat) (key b : list Z) (base l u size : Z) (compare : VectorCompareFunction) : M (env W) (option Z) :=
  match fuel with
  | O => throw OutOfFuel
  | S fuel =>
      if decide (l < u) then
        let idx := (l + u) / 2 in
        let! x := lift (read_at b (base + idx * size) size) in
        let! c := ask (compare key x) in
        if decide (c < 0) then bsearch_loop fuel key b base l idx size compare
        else if decide (0 < c) then bsearch_loop fuel key b base (idx + 1) u size compare
        else ret (Some (base + idx * size))
      else ret None
  end.
Definition bsearch (key b : list Z) (base n size : Z) (compare : VectorCompareFunction) : M (env W) (option Z) :=
  bsearch_loop (S (Z.to_nat n)) key b base 0 n size compare.

(** Inserts [x] behind the elements that are not greater. *)
Fixpoint insert_sorted (x : list Z) (l : list (list Z)) (compare : VectorCompareFunction) : M (env W) (list (list Z)) :=
  match l with
  | [] => ret [x]
  | y :: l' =>
      let! c := ask (compare y x) in
      if decide (c ≤ 0) then let! l' := insert_sorted x l' compare in ret (y :: l') else ret (x :: l)
  end.
Fixpoint sort_elems (l sorted : list (list Z)) (compare : VectorCompareFunction) : M (env W) (list (list Z)) :=
  match l with
  | [] => ret sorted
  | x :: l => let! sorted := insert_sorted x sorted compare in sort_elems l sorted compare
  end.
(** The [n] elements of [size] bytes that a block begins with. *)
Fixpoint chunks (n size : nat) (b : list Z) : list (list Z) :=
  match n with O => [] | S n => take size b :: chunks n size (drop size b) end.
(** qsort: C says that the result is sorted; equal elements stay in their order, as in the GNU library. *)
Definition qsort (b : list Z) (n size : Z) (compare : VectorCompareFunction) : M (env W) (list Z) :=
  let! x := lift (read_at b 0 (n * size)) in
  let! l := sort_elems (chunks (Z.to_nat n) (Z.to_nat size) x) [] compare in
  lift (write_at b 0 (concat l)).

(** vector.c 100-105 VectorSort *)
Definition VectorSort (v : vector) (compare : VectorCompareFunction) : M (env W) vector :=
  let! b := qsort (elems v) (logLength v) (elemSize v) compare in ret (set_elems b v).

(** vector.c 116-116 kNotFound *)
Definition kNotFound : Z := -1.

(** vector.c 117-135 VectorSearch *)
Definition VectorSearch (v : vector) (key : list Z) (searchFn : VectorCompareFunction) (startIndex : Z) (isSorted : bool) : M (env W) Z :=
  assertM (bool_decide (0 ≤ startIndex));;!
  assertM (bool_decide (startIndex ≤ logLength v));;!
  if decide (logLength v = 0) then ret kNotFound
  else
    let! addr := lift (Nth_Elem_Addr (elemSize v) startIndex) in
    let n := logLength v - startIndex in
    let! res := (if isSorted then bsearch key (elems v) addr n (elemSize v) searchFn
                 else lfind (Z.to_nat n) key (elems v) addr (elemSize v) searchFn) in
    ret (match res with None => kNotFound | Some res => res / elemSize v end).

(** ** Sets *)

(** hashset.h 22-22 HashSetHashFunction *)
Definition HashSetHashFunction : Type := list Z → Z → W → outcome Z.

(** hashset.h 75-83 hashset *)
Record hashset := mkHashset {
  buckets : list vector;
  hs_elemSize : Z;
  numBuckets : Z;
  size : Z;
  hashfn : HashSetHashFunction;
  comparefn : VectorCompareFunction;
  freefn : option VectorFreeFunction;
}.
Definition set_buckets (x : list vector) (h : hashset) : hashset :=
  mkHashset x (hs_elemSize h) (numBuckets h) (size h) (hashfn h) (comparefn h) (freefn h).
Definition set_size (x : Z) (h : hashset) : hashset :=
  mkHashset (buckets h) (hs_elemSize h) (numBuckets h) x (hashfn h) (comparefn h) (freefn h).

(** hashset.c 26-28 HashSetNew, the loop over the buckets *)
Fixpoint new_buckets (n : nat) (elemSize : Z) (freefn : option VectorFreeFunction) : M (env W) (list vector) :=
  match n with
  | O => ret []
  | S n =>
      let! v := VectorNew elemSize freefn 2 in
      let! vs := new_buckets n elemSize freefn in
      ret (v :: vs)
  end.

(** hashset.c 9-29 HashSetNew.  Memory for the buckets comes with an answer like any other. *)
Definition HashSetNew (elemSize numBuckets : Z) (hashfn : HashSetHashFunction) (comparefn : VectorCompareFunction) (freefn : option VectorFreeFunction) :
    M (env W) hashset :=
  assertM (bool_decide (0 < elemSize));;!
  assertM (bool_decide (0 < numBuckets));;!
  let! a := answer in
  assert_some a;;!
  let! buckets := new_buckets (Z.to_nat numBuckets) elemSize freefn in
  ret (mkHashset buckets elemSize numBuckets 0 hashfn comparefn freefn).

(** hashset.c 33-35 HashSetDispose, the loop *)
Fixpoint dispose_buckets (vs : list vector) : M (env W) unit :=
  match vs with [] => ret tt | v :: vs => VectorDispose v;;! dispose_buckets vs end.
(** hashset.c 31-38 HashSetDispose *)
Definition HashSetDispose (h : hashset) : M (env W) unit := dispose_buckets (take (Z.to_nat (numBuckets h)) (buckets h)).

(** hashset.c 40-43 HashSetCount *)
Definition HashSetCount (h : hashset) : Z := size h.

(** hashset.c 49-51 HashSetMap, the loop *)
Fixpoint map_buckets (vs : list vector) (mapfn : VectorMapFunction) : M (env W) (list vector) :=
  match vs with
  | [] => ret []
  | v :: vs =>
      let! v := VectorMap v mapfn in
      let! vs := map_buckets vs mapfn in
      ret (v :: vs)
  end.
(** hashset.c 45-52 HashSetMap *)
Definition HashSetMap (h : hashset) (mapfn : VectorMapFunction) : M (env W) hashset :=
  let! vs := map_buckets (buckets h) mapfn in ret (set_buckets vs h).

(** hashset.c 7 Nth_Vector_Addr, read and written *)
Definition Nth_Vector (h : hashset) (n : Z) : M (env W) vector := lift (or_fault (nthZ (buckets h) n)).
Definition put_vector (h : hashset) (n : Z) (v : vector) : M (env W) hashset :=
  let! vs := lift (or_fault (setZ (buckets h) n v)) in ret (set_buckets vs h).

(** hashset.c 54-70 HashSetEnter *)
Definition HashSetEnter (h : hashset) (elemAddr : list Z) : M (env W) hashset :=
  let! hashCode := ask (hashfn h elemAddr (numBuckets h)) in
  assertM (bool_decide (0 ≤ hashCode));;!
  assertM (bool_decide (hashCode < numBuckets h));;!
  let! v := Nth_Vector h hashCode in
  let! pos := VectorSearch v elemAddr (comparefn h) 0 false in
  if decide (pos = -1) then
    let! v := VectorAppend v elemAddr in
    let! h := put_vector h hashCode v in
    let! n := lift (int (size h + 1)) in
    ret (set_size n h)
  else
    let! v := VectorReplace v elemAddr pos in
    put_vector h hashCode v.

(** hashset.c 72-79 HashSetDelete *)
Definition HashSetDelete (h : hashset) (elemAddr : list Z) : M (env W) hashset :=
  let! hashCode := ask (hashfn h elemAddr (numBuckets h)) in
  let! v := Nth_Vector h hashCode in
  let! pos := VectorSearch v elemAddr (comparefn h) 0 false in
  let! v := VectorDelete v pos in
  put_vector h hashCode v.

(** hashset.c 81-94 HashSetLookup, the bucket, and the address in it *)
Definition HashSetLookup (h : hashset) (elemAddr : list Z) : M (env W) (option (Z * Z)) :=
  let! hashCode := ask (hashfn h elemAddr (numBuckets h)) in
  assertM (bool_decide (0 ≤ hashCode));;!
  assertM (bool_decide (hashCode < numBuckets h));;!
  let! v := Nth_Vector h hashCode in
  let! pos := VectorSearch v elemAddr (comparefn h) 0 false in
  if decide (pos = -1) then ret None
  else let! p := VectorNth v pos in ret (Some (hashCode, p)).

(** The element that HashSetLookup points to. *)
Definition element_at (h : hashset) (p : Z * Z) : M (env W) (list Z) :=
  let! v := Nth_Vector h (fst p) in lift (read_at (elems v) (snd p) (hs_elemSize h)).
End containers.
Arguments vector : clear implicits.
Arguments hashset : clear implicits.
Arguments VectorFreeFunction : clear implicits.
Arguments VectorCompareFunction : clear implicits.
Arguments VectorMapFunction : clear implicits.
Arguments HashSetHashFunction : clear implicits.
