(* ===== verification/ContainersSpec.v ===== *)
(** What the containers of the shell promise: a vector is a list, and a hashset keeps
    one element for each key, whatever the keys are. *)
From stdpp Require Import sorting.
From S2P Require Import Prelude Containers.
Local Open Scope Z_scope.

(** ** Blocks *)
Section blocks.
Implicit Types a b c x y : list Z.

Lemma sub_middle a x c : sub (a ++ x ++ c) (length a) (length x) = x.
Proof. unfold sub. by rewrite drop_app_length, take_app_length. Qed.

Lemma splice_middle a x c y : length y = length x → splice (a ++ x ++ c) (length a) y = a ++ y ++ c.
Proof.
  intros Hy. unfold splice. rewrite take_app_length. do 2 f_equal. rewrite Hy, <-drop_drop, drop_app_length. apply drop_app_length.
Qed.

Lemma read_middle a x c o n : o = Z.of_nat (length a) → n = Z.of_nat (length x) → read_at (a ++ x ++ c) o n = Ret x.
Proof.
  intros -> ->. unfold read_at. rewrite !length_app, decide_True by lia. by rewrite !Nat2Z.id, sub_middle.
Qed.

Lemma write_middle a x c y o : o = Z.of_nat (length a) → length y = length x → write_at (a ++ x ++ c) o y = Ret (a ++ y ++ c).
Proof.
  intros -> Hy. unfold write_at. rewrite !length_app, decide_True by lia. by rewrite Nat2Z.id, splice_middle.
Qed.

Lemma read_all x n : n = Z.of_nat (length x) → read_at x 0 n = Ret x.
Proof. intros. rewrite <-(app_nil_r x) at 1. by apply (read_middle [] x []). Qed.

Lemma memcpy_middle a x c y o n : o = Z.of_nat (length a) → n = Z.of_nat (length x) → length y = length x →
  memcpy (a ++ x ++ c) o y n = Ret (a ++ y ++ c).
Proof. intros Ho Hn Hy. unfold memcpy. rewrite read_all by lia. by apply write_middle. Qed.

(** Bytes move down over a gap, and up over what is free behind them. *)
Lemma memmove_down a x y c d s n : d = Z.of_nat (length a) → s = d + Z.of_nat (length x) → n = Z.of_nat (length y) →
  ∃ c', length c' = (length x + length c)%nat ∧ memmove (a ++ x ++ y ++ c) d s n = Ret (a ++ y ++ c').
Proof.
  intros Hd Hs Hn. unfold memmove. rewrite (app_assoc a x), read_middle by (rewrite ?length_app; lia). cbn [obind]. rewrite <-app_assoc.
  exists (drop (length y) (x ++ y ++ c)). rewrite length_drop, !length_app. split; [lia|].
  rewrite <-(take_drop (length y) (x ++ y ++ c)) at 1. rewrite write_middle by (rewrite ?length_take, ?length_app; lia). done.
Qed.

Lemma memmove_up a y c k d s n : s = Z.of_nat (length a) → d = s + Z.of_nat k → n = Z.of_nat (length y) → (k ≤ length c)%nat →
  ∃ z, length z = k ∧ memmove (a ++ y ++ c) d s n = Ret (a ++ z ++ y ++ drop k c).
Proof.
  intros Hs Hd Hn Hk. unfold memmove. rewrite read_middle by done. cbn [obind].
  exists (take k (y ++ c)). rewrite length_take, length_app. split; [lia|].
  rewrite <-(take_drop k (y ++ c)) at 1. rewrite (app_assoc a).
  rewrite <-(take_drop (length y) (drop k (y ++ c))), write_middle by (rewrite ?length_app, ?length_take, ?length_drop, ?length_app; lia).
  rewrite drop_drop, <-app_assoc. do 4 f_equal. rewrite drop_app_ge by lia. f_equal. lia.
Qed.
End blocks.

(** ** Elements of one size *)
Section elements.
Context (n : nat).
Implicit Types l : list (list Z).
Definition elements l : Prop := Forall (λ x, length x = n) l.

Lemma length_concat_elements l : elements l → length (concat l) = (length l * n)%nat.
Proof. induction 1 as [|x l Hx Hl IH]; [done|]. cbn. rewrite length_app. lia. Qed.

Lemma elements_app l l' : elements (l ++ l') ↔ elements l ∧ elements l'.
Proof. apply Forall_app. Qed.

(** Around the element at an index. *)
Lemma elements_split l i x : elements l → l !! i = Some x →
  l = take i l ++ x :: drop (S i) l ∧ length x = n ∧ elements (take i l) ∧ elements (drop (S i) l) ∧
  length (concat (take i l)) = (i * n)%nat ∧ length (concat (drop (S i) l)) = ((length l - S i) * n)%nat.
Proof.
  intros Hl Hi. pose proof (take_drop_middle _ _ _ Hi) as E. pose proof (lookup_lt_Some _ _ _ Hi).
  assert (elements (take i l)) as H1 by by apply Forall_take. assert (elements (drop (S i) l)) as H2 by by apply Forall_drop.
  split_and!; [done|by eapply (Forall_lookup_1 _ _ _ _ Hl)|done..| |].
  - rewrite length_concat_elements, length_take by done. lia.
  - rewrite length_concat_elements, length_drop by done. lia.
Qed.
End elements.

(** ** Vectors *)

Ltac asserts := wp_step; apply wp_assert; [apply bool_decide_eq_true; lia|].

Section vectors.
Context {W : Type}.
Implicit Types (v : vector W) (s : env W) (l : list (list Z)).

(** The calls of malloc to come all find memory. *)
Definition plenty s : Prop := Forall is_Some (answers s).

(** What a call leaves that only allocates. *)
Definition quiet s s' : Prop := world s' = world s ∧ (plenty s → plenty s').

(** The vector holds the elements [l] of [n] bytes. *)
Record vec_rep (n : nat) (init : Z) (free : option (VectorFreeFunction W)) v l : Prop := {
  vr_pos : (0 < n)%nat;
  vr_size : elemSize v = Z.of_nat n;
  vr_free : freeFn v = free;
  vr_init : initialAllocationLength v = init;
  vr_init_pos : 0 < init;
  vr_elems : elements n l;
  vr_log : logLength v = Z.of_nat (length l);
  vr_aloc : logLength v ≤ alocLength v;
  vr_int : alocLength v * elemSize v ≤ INT_MAX;
  vr_block : ∃ junk, elems v = concat l ++ junk ∧ Z.of_nat (length (elems v)) = alocLength v * elemSize v;
}.

Lemma int_run x : -2147483648 ≤ x ≤ INT_MAX → int x = Ret x.
Proof. intros. unfold int. by rewrite decide_True. Qed.

Context (n : nat) (init : Z) (free : option (VectorFreeFunction W)).
Local Abbreviation vrep := (vec_rep n init free).

Lemma vrep_junk v l : vrep v l → ∃ junk, elems v = concat l ++ junk ∧ length junk = (Z.to_nat (alocLength v - logLength v) * n)%nat.
Proof.
  intros Hv. destruct (vr_block _ _ _ _ _ Hv) as (junk & E & Hlen). exists junk. split; [done|].
  pose proof (vr_pos _ _ _ _ _ Hv). pose proof (vr_log _ _ _ _ _ Hv). pose proof (vr_aloc _ _ _ _ _ Hv).
  rewrite E, length_app, (length_concat_elements n), (vr_size _ _ _ _ _ Hv) in Hlen by apply Hv. nia.
Qed.

Lemma vrep_offset v l i : vrep v l → 0 ≤ i ≤ alocLength v → Nth_Elem_Addr (elemSize v) i = Ret (i * Z.of_nat n).
Proof.
  intros Hv Hi. unfold Nth_Elem_Addr. rewrite (vr_size _ _ _ _ _ Hv). apply int_run.
  pose proof (vr_int _ _ _ _ _ Hv) as Hint. rewrite (vr_size _ _ _ _ _ Hv) in Hint. nia.
Qed.

(** A vector after its elements have changed in place. *)
Lemma vrep_set v l l' b len : vrep v l → elements n l' → len = Z.of_nat (length l') → len ≤ alocLength v →
  (∃ junk, b = concat l' ++ junk) → length b = length (elems v) → vrep (set_logLength len (set_elems b v)) l'.
Proof.
  intros [] Hl' -> Hlen (junk & ->) Hb. split; cbn; try done; [lia..|].
  destruct vr_block0 as (_ & _ & E). exists junk. split; [done|]. by rewrite Hb.
Qed.

Lemma set_logLength_id v b : set_logLength (logLength v) (set_elems b v) = set_elems b v.
Proof. by destruct v. Qed.

Lemma answer_wp (Q : option (nat → Z) → env W → Prop) s :
  plenty s → (∀ junk s', quiet s s' → Q (Some junk) s') → wp answer Q s.
Proof.
  intros Hs HQ. unfold wp, answer. destruct s as [[|a l] w]; cbn in *.
  - by apply HQ.
  - inversion Hs as [|? ? [junk ->] Hl]; subst. by apply HQ.
Qed.

Lemma realloc_wp old k (Q : option (list Z) → env W → Prop) s :
  plenty s → Z.of_nat (length old) ≤ k → (∀ b s', quiet s s' → Z.of_nat (length b) = k → take (length old) b = old → Q (Some b) s') →
  wp (realloc old k) Q s.
Proof.
  intros Hs Hk HQ. unfold realloc. wp_step. apply answer_wp; [done|]. intros junk s' Hq. wp_step. cbn. apply HQ; [done| |]; unfold block.
  - rewrite length_app, length_take, length_fmap, length_seq. lia.
  - rewrite (take_ge old) by lia. apply take_app_length.
Qed.

Lemma vector_new_ok k s : plenty s → (0 < n)%nat → 0 ≤ k → init = (if decide (k = 0) then 4 else k) → k * Z.of_nat n ≤ INT_MAX →
  wp (VectorNew (Z.of_nat n) free k) (λ v s', quiet s s' ∧ vrep v []) s.
Proof.
  intros Hs Hn Hk Hi Hint. unfold VectorNew. asserts. asserts.
  wp_step. eapply wp_lift; [apply int_run; nia|]. wp_step. apply realloc_wp; [done|cbn; nia|]. intros b s' Hq Hb _.
  wp_step. eapply wp_lift; [done|]. wp_step. rewrite <-Hi. split; [done|].
  split; cbn; try done; [rewrite Hi; case_decide; lia|apply Forall_nil_2|]. by exists b.
Qed.

(** Space for one more. *)
Lemma vector_room v l s : plenty s → vrep v l → (Z.of_nat (length l) + init) * Z.of_nat n ≤ INT_MAX →
  wp (if decide (logLength v = alocLength v) then growAllocationSpace v else ret v)
    (λ v' s', quiet s s' ∧ vrep v' l ∧ logLength v' < alocLength v') s.
Proof.
  intros Hs Hv Hint. pose proof (vr_aloc _ _ _ _ _ Hv). destruct (decide _) as [E|E]; [|wp_step; split_and!; [done..|lia]].
  pose proof (vrep_junk _ _ Hv) as (junk & Eb & Hj). pose proof Hv as []. unfold growAllocationSpace.
  replace (Z.to_nat (alocLength v - logLength v)) with O in Hj by lia. apply nil_length_inv in Hj as ->. rewrite app_nil_r in Eb.
  assert (length (elems v) = length l * n)%nat as Elen by by rewrite Eb; apply length_concat_elements.
  rewrite vr_size0, vr_init0, <-E, vr_log0.
  wp_step. eapply wp_lift; [apply int_run; nia|]. wp_step. eapply wp_lift; [apply int_run; nia|].
  wp_step. apply realloc_wp; [done|rewrite Elen; nia|]. intros b s' Hq Hb Hold. wp_step. eapply wp_lift; [done|]. wp_step.
  split; [done|]. split; [|cbn; lia]. split; cbn; try done; [lia|nia|].
  exists (drop (length (elems v)) b). split; [by rewrite <-Eb, <-Hold at 1; rewrite take_drop|]. rewrite vr_size0. lia.
Qed.

(** *** Adding *)
Lemma vector_append_ok v l x s : plenty s → vrep v l → length x = n → (Z.of_nat (length l) + init) * Z.of_nat n ≤ INT_MAX →
  wp (VectorAppend v x) (λ v' s', quiet s s' ∧ vrep v' (l ++ [x])) s.
Proof.
  intros Hs Hv Hx Hint. unfold VectorAppend. wp_step. eapply wp_mono; [by apply vector_room|]. clear v Hv. intros v s' (Hq & Hv & Hroom).
  pose proof Hv as []. destruct (vrep_junk _ _ Hv) as (junk & Eb & Hj).
  wp_step. eapply wp_lift; [apply (vrep_offset _ _ _ Hv); lia|]. wp_step.
  assert (n ≤ length junk)%nat as Hn by nia. rewrite vr_log0, Eb, <-(take_drop n junk), vr_size0.
  eapply wp_lift; [apply memcpy_middle; rewrite ?(length_concat_elements n _ vr_elems0), ?length_take; lia|].
  wp_step. eapply wp_lift; [apply int_run; nia|]. wp_step. split; [done|].
  eapply vrep_set; [done|apply elements_app; split; [done|by apply Forall_singleton]|rewrite length_app; cbn; lia|lia| |].
  - exists (drop n junk). by rewrite concat_app, <-app_assoc; cbn; rewrite app_nil_r.
  - rewrite Eb, !length_app, length_drop. lia.
Qed.

Lemma vector_insert_ok v l x i s : plenty s → vrep v l → length x = n → (i ≤ length l)%nat → (Z.of_nat (length l) + init) * Z.of_nat n ≤ INT_MAX →
  wp (VectorInsert v x (Z.of_nat i)) (λ v' s', quiet s s' ∧ vrep v' (take i l ++ x :: drop i l)) s.
Proof.
  intros Hs Hv Hx Hi Hint. unfold VectorInsert. pose proof (vr_log _ _ _ _ _ Hv). asserts. asserts.
  wp_step. eapply wp_mono; [by apply vector_room|]. clear v Hv H. intros v s' (Hq & Hv & Hroom).
  pose proof Hv as []. destruct (vrep_junk _ _ Hv) as (junk & Eb & Hj). assert (n ≤ length junk)%nat as Hn by nia.
  wp_step. eapply wp_lift; [apply (vrep_offset _ _ _ Hv); lia|]. wp_step. rewrite vr_log0, vr_size0. eapply wp_lift; [apply int_run; nia|].
  assert (elements n (take i l)) as Ht by by apply Forall_take. assert (elements n (drop i l)) as Hd by by apply Forall_drop.
  assert (length (concat (take i l)) = i * n)%nat as Et by (rewrite (length_concat_elements n _ Ht), length_take; f_equal; lia).
  assert (length (concat (drop i l)) = (length l - i) * n)%nat as Ed by by rewrite (length_concat_elements n _ Hd), length_drop.
  rewrite <-(take_drop i l), concat_app, <-app_assoc in Eb. rewrite Eb. wp_step.
  destruct (memmove_up (concat (take i l)) (concat (drop i l)) junk n (Z.of_nat i * Z.of_nat n + Z.of_nat n) (Z.of_nat i * Z.of_nat n)
    ((Z.of_nat (length l) - Z.of_nat i) * Z.of_nat n)) as (z & Hz & Em); [lia|lia|rewrite Ed; nia|done|].
  eapply wp_lift; [exact Em|]. wp_step. eapply wp_lift; [apply memcpy_middle; lia|]. wp_step. eapply wp_lift; [apply int_run; nia|].
  wp_step. split; [done|]. eapply vrep_set; [done| |rewrite length_app, length_take; cbn; rewrite length_drop; lia|lia| |].
  - apply elements_app. split; [done|]. by apply Forall_cons.
  - exists (drop n junk). rewrite concat_app. cbn. by rewrite <-!app_assoc.
  - rewrite Eb, !length_app, length_drop. lia.
Qed.

(** *** Freeing, replacing and deleting *)

(** What the client's function makes of the world. *)
Definition freed (x : list Z) (w : W) : outcome W := match free with None => Ret w | Some f => f x w end.

Lemma vrep_split v l i x : vrep v l → l !! i = Some x → ∃ c,
  elems v = concat (take i l) ++ x ++ concat (drop (S i) l) ++ c ∧ length x = n ∧ Z.of_nat (length (concat (take i l))) = Z.of_nat i * Z.of_nat n ∧
  (i < length l)%nat ∧ length (concat (drop (S i) l)) = ((length l - S i) * n)%nat ∧ elements n (take i l) ∧ elements n (drop (S i) l).
Proof.
  intros Hv Hi. destruct (vrep_junk _ _ Hv) as (junk & Eb & _). exists junk. pose proof (lookup_lt_Some _ _ _ Hi).
  destruct (elements_split n l i x (vr_elems _ _ _ _ _ Hv) Hi) as (E & Hx & H1 & H2 & E1 & E2). split_and!; try done; [|by rewrite E1; lia].
  rewrite Eb, E at 1. by rewrite concat_app, <-app_assoc; cbn; rewrite <-app_assoc.
Qed.

Lemma free_elem_wp v l i x (Q : unit → env W → Prop) s w : vrep v l → l !! i = Some x → freed x (world s) = Ret w → Q tt (mkEnv (answers s) w) →
  wp (free_elem v (Z.of_nat i * Z.of_nat n)) Q s.
Proof.
  intros Hv Hi Hf HQ. destruct (vrep_split _ _ _ _ Hv Hi) as (c & Eb & Hx & Et & _). pose proof (vr_size _ _ _ _ _ Hv) as Es.
  unfold free_elem, freed in *. rewrite (vr_free _ _ _ _ _ Hv), Eb, Es. destruct free as [f|].
  - wp_step. eapply wp_lift; [apply read_middle; lia|]. unfold wp, call. by rewrite Hf.
  - injection Hf as <-. wp_step. by destruct s.
Qed.

(** Other bytes are put into the element at an index. *)
Lemma vrep_put v l i x y : vrep v l → l !! i = Some x → length y = n →
  ∃ b, memcpy (elems v) (Z.of_nat i * Z.of_nat n) y (elemSize v) = Ret b ∧ vrep (set_elems b v) (<[i := y]> l).
Proof.
  intros Hv Hi Hy. pose proof Hv as []. destruct (vrep_split _ _ _ _ Hv Hi) as (c & Eb & Hx & Et & Hlt & _ & H1 & H2).
  rewrite Eb, vr_size0. eexists. split; [apply memcpy_middle; lia|].
  rewrite <-set_logLength_id. eapply vrep_set; [done|by apply Forall_insert|by rewrite length_insert|done| |].
  - exists c. rewrite insert_take_drop by done. rewrite concat_app. cbn. by rewrite <-!app_assoc.
  - rewrite Eb, !length_app. lia.
Qed.

Lemma vector_replace_ok v l i x y s w : vrep v l → l !! i = Some x → length y = n → freed x (world s) = Ret w →
  wp (VectorReplace v y (Z.of_nat i)) (λ v' s', s' = mkEnv (answers s) w ∧ vrep v' (<[i := y]> l)) s.
Proof.
  intros Hv Hi Hy Hf. unfold VectorReplace. pose proof Hv as []. pose proof (lookup_lt_Some _ _ _ Hi). destruct (vrep_put _ _ _ _ _ Hv Hi Hy) as (b & Eb & Hb).
  asserts. asserts. wp_step. eapply wp_lift; [apply (vrep_offset _ _ _ Hv); lia|]. wp_step. eapply free_elem_wp; [done..|].
  wp_step. eapply wp_lift; [exact Eb|]. by wp_step.
Qed.

Lemma vector_delete_ok v l i x s w : vrep v l → l !! i = Some x → freed x (world s) = Ret w →
  wp (VectorDelete v (Z.of_nat i)) (λ v' s', s' = mkEnv (answers s) w ∧ vrep v' (delete i l)) s.
Proof.
  intros Hv Hi Hf. unfold VectorDelete. pose proof Hv as []. destruct (vrep_split _ _ _ _ Hv Hi) as (c & Eb & Hx & Et & Hlt & Ed & H1 & H2).
  asserts. asserts. wp_step. eapply wp_lift; [apply (vrep_offset _ _ _ Hv); lia|]. wp_step. eapply free_elem_wp; [done..|].
  wp_step. rewrite vr_size0. eapply wp_lift; [apply int_run; nia|]. wp_step. rewrite Eb.
  destruct (memmove_down (concat (take i l)) x (concat (drop (S i) l)) c (Z.of_nat i * Z.of_nat n) (Z.of_nat i * Z.of_nat n + Z.of_nat n)
    ((logLength v - 1 - Z.of_nat i) * Z.of_nat n)) as (c' & Hc' & Em); [lia|lia|rewrite Ed; nia|].
  eapply wp_lift; [exact Em|]. wp_step. split; [done|]. rewrite delete_take_drop.
  eapply vrep_set; [done|by apply elements_app|rewrite length_app, length_take, length_drop; lia|lia| |].
  - exists c'. by rewrite concat_app, <-app_assoc.
  - rewrite Eb, !length_app, Hc'. lia.
Qed.

(** [VectorDispose] frees the elements in their order. *)
Fixpoint freed_all (l : list (list Z)) (w : W) : outcome W :=
  match l with [] => Ret w | x :: l => let* w := freed x w in freed_all l w end.

Lemma dispose_loop_ok v l k (Q : unit → env W → Prop) s w : vrep v l → (k ≤ length l)%nat → freed_all (drop k l) (world s) = Ret w → Q tt (mkEnv (answers s) w) →
  wp (dispose_loop (length l - k) v (Z.of_nat k)) Q s.
Proof.
  intros Hv. pose proof Hv as []. remember (length l - k)%nat as m eqn:Em. revert k s Em.
  induction m as [|m IH]; intros k s Em Hk Hw HQ; cbn [dispose_loop].
  - rewrite drop_ge in Hw by lia. injection Hw as <-. wp_step. by destruct s.
  - destruct (lookup_lt_is_Some_2 l k) as [x Hx]; [lia|]. rewrite (drop_S _ _ _ Hx) in Hw. cbn in Hw.
    destruct (freed x (world s)) as [w'|] eqn:Ew; [|done]. cbn in Hw.
    wp_step. eapply wp_lift; [apply (vrep_offset _ _ _ Hv); lia|]. wp_step. eapply free_elem_wp; [done..|].
    replace (Z.of_nat k + 1) with (Z.of_nat (S k)) by lia. apply IH; [lia..|done|done].
Qed.

Lemma vector_dispose_ok v l (Q : unit → env W → Prop) s w : vrep v l → freed_all l (world s) = Ret w → Q tt (mkEnv (answers s) w) → wp (VectorDispose v) Q s.
Proof.
  intros Hv Hw HQ. pose proof (dispose_loop_ok v l 0 Q s w Hv ltac:(lia) Hw HQ) as Hloop.
  unfold VectorDispose. rewrite (vr_free _ _ _ _ _ Hv), (vr_log _ _ _ _ _ Hv), Nat2Z.id. destruct free as [f|] eqn:Ef.
  - by rewrite Nat.sub_0_r in Hloop.
  - assert (∀ l w, freed_all l w = Ret w) as E. { induction l0 as [|x l0 IH]; intros w0; [done|]. cbn. unfold freed. rewrite Ef. apply IH. }
    rewrite E in Hw. injection Hw as <-. wp_step. by destruct s.
Qed.

(** *** Access and search *)
Lemma vector_nth_ok v l i x (Q : Z → env W → Prop) s : vrep v l → l !! i = Some x → Q (Z.of_nat i * Z.of_nat n) s → wp (VectorNth v (Z.of_nat i)) Q s.
Proof.
  intros Hv Hi HQ. unfold VectorNth. pose proof Hv as []. pose proof (lookup_lt_Some _ _ _ Hi). asserts. asserts.
  eapply wp_lift; [apply (vrep_offset _ _ _ Hv); lia|done].
Qed.

Lemma vector_read v l i x : vrep v l → l !! i = Some x → read_at (elems v) (Z.of_nat i * Z.of_nat n) (Z.of_nat n) = Ret x.
Proof. intros Hv Hi. destruct (vrep_split _ _ _ _ Hv Hi) as (c & -> & Hx & Et & _). apply read_middle; lia. Qed.

(** [key] equals the elements that satisfy [P], which is decided one by one. *)
Lemma lfind_ok (P : list Z → Prop) `{!∀ x, Decision (P x)} key compare v l k (Q : option Z → env W → Prop) s :
  vrep v l → (k ≤ length l)%nat → (∀ x, x ∈ l → ∃ c, compare key x (world s) = Ret c ∧ (c = 0 ↔ P x)) →
  Q ((λ p, Z.of_nat (k + fst p) * Z.of_nat n) <$> list_find P (drop k l)) s →
  wp (lfind (length l - k) key (elems v) (Z.of_nat k * Z.of_nat n) (Z.of_nat n) compare) Q s.
Proof.
  intros Hv Hk Hc. remember (length l - k)%nat as m eqn:Em. revert k Hk Em.
  induction m as [|m IH]; intros k Hk Em HQ; cbn [lfind].
  - rewrite drop_ge in HQ by lia. by wp_step.
  - destruct (lookup_lt_is_Some_2 l k) as [x Hx]; [lia|]. rewrite (drop_S _ _ _ Hx) in HQ. cbn in HQ.
    wp_step. eapply wp_lift; [by eapply vector_read|]. destruct (Hc x) as (c & Ec & HcP); [by eapply list_elem_of_lookup_2|].
    wp_step. unfold wp at 1, ask. rewrite Ec. cbn. case_decide as HP; case_decide as Hc0; try tauto.
    + wp_step. cbn in HQ. by rewrite Nat.add_0_r in HQ.
    + replace (Z.of_nat k * Z.of_nat n + Z.of_nat n) with (Z.of_nat (S k) * Z.of_nat n) by lia. apply IH; [lia..|].
      destruct (list_find P (drop (S k) l)) as [[i y]|]; cbn in HQ |- *; [|done]. by replace (S (k + i)) with (k + S i)%nat by lia.
Qed.

Lemma vector_search_ok (P : list Z → Prop) `{!∀ x, Decision (P x)} key compare v l (Q : Z → env W → Prop) s :
  vrep v l → (∀ x, x ∈ l → ∃ c, compare key x (world s) = Ret c ∧ (c = 0 ↔ P x)) →
  Q (match list_find P l with Some (i, _) => Z.of_nat i | None => -1 end) s →
  wp (VectorSearch v key compare 0 false) Q s.
Proof.
  intros Hv Hc HQ. pose proof Hv as []. unfold VectorSearch. asserts. asserts. case_decide as H0.
  - assert (l = []) as -> by (apply nil_length_inv; lia). by wp_step.
  - wp_step. eapply wp_lift; [apply (vrep_offset _ _ _ Hv); lia|]. wp_step. rewrite Z.sub_0_r, vr_log0, Nat2Z.id, vr_size0.
    rewrite <-(Nat.sub_0_r (length l)). apply (lfind_ok P key compare v l 0); [done|lia|done|]. wp_step. rewrite drop_0.
    revert HQ. destruct (list_find P l) as [[i x]|]; cbn; intros HQ; [|exact HQ]. rewrite Z.div_mul by lia. done.
Qed.

(** *** When the client's function fails *)

Lemma free_elem_fails v l i x e s : vrep v l → l !! i = Some x → freed x (world s) = Err e → free_elem v (Z.of_nat i * Z.of_nat n) s = Err e.
Proof.
  intros Hv Hi Hf. destruct (vrep_split _ _ _ _ Hv Hi) as (c & Eb & Hx & Et & _). pose proof (vr_size _ _ _ _ _ Hv) as Es.
  unfold free_elem, freed in *. rewrite (vr_free _ _ _ _ _ Hv), Eb, Es. destruct free as [f|]; [|done].
  rewrite (bind_run _ _ _ x s) by (unfold lift; by rewrite read_middle by lia). unfold call. by rewrite Hf.
Qed.

Lemma position_run v l i x : vrep v l → l !! i = Some x → 0 ≤ Z.of_nat i ∧ Z.of_nat i < logLength v ∧ Nth_Elem_Addr (elemSize v) (Z.of_nat i) = Ret (Z.of_nat i * Z.of_nat n).
Proof.
  intros Hv Hi%lookup_lt_Some. pose proof (vr_log _ _ _ _ _ Hv). pose proof (vr_aloc _ _ _ _ _ Hv). split_and!; [lia..|]. apply (vrep_offset _ _ _ Hv). lia.
Qed.

Lemma vector_replace_fails v l i x y e s : vrep v l → l !! i = Some x → freed x (world s) = Err e → VectorReplace v y (Z.of_nat i) s = Err e.
Proof.
  intros Hv Hi Hf. destruct (position_run _ _ _ _ Hv Hi) as (H1 & H2 & E). unfold VectorReplace. rewrite !bind_assert by by apply bool_decide_eq_true.
  rewrite E, bind_lift. unfold bind. by rewrite (free_elem_fails _ _ _ _ _ _ Hv Hi Hf).
Qed.

Lemma vector_delete_fails v l i x e s : vrep v l → l !! i = Some x → freed x (world s) = Err e → VectorDelete v (Z.of_nat i) s = Err e.
Proof.
  intros Hv Hi Hf. destruct (position_run _ _ _ _ Hv Hi) as (H1 & H2 & E). unfold VectorDelete. rewrite !bind_assert by by apply bool_decide_eq_true.
  rewrite E, bind_lift. unfold bind at 1. by rewrite (free_elem_fails _ _ _ _ _ _ Hv Hi Hf).
Qed.

Lemma dispose_loop_fails v l k e s : vrep v l → (k ≤ length l)%nat → freed_all (drop k l) (world s) = Err e → dispose_loop (length l - k) v (Z.of_nat k) s = Err e.
Proof.
  intros Hv. remember (length l - k)%nat as m eqn:Em. revert k s Em. induction m as [|m IH]; intros k s Em Hk Hf; cbn [dispose_loop].
  - by rewrite drop_ge in Hf by lia.
  - destruct (lookup_lt_is_Some_2 l k) as [x Hx]; [lia|]. rewrite (drop_S _ _ _ Hx) in Hf. cbn in Hf.
    destruct (position_run _ _ _ _ Hv Hx) as (_ & _ & E). rewrite E, bind_lift. destruct (freed x (world s)) as [w|e'] eqn:Ew.
    + pose proof (free_elem_wp v l k x (λ _ s', s' = mkEnv (answers s) w) s w Hv Hx Ew eq_refl) as ([] & s' & Er & ->)%wp_run.
      rewrite (bind_run _ _ _ _ _ Er). replace (Z.of_nat k + 1) with (Z.of_nat (S k)) by lia. apply IH; [lia..|done].
    + injection Hf as <-. unfold bind. by rewrite (free_elem_fails _ _ _ _ _ _ Hv Hx Ew).
Qed.

Lemma assert_fails {A} c (f : unit → M (env W) A) s : c = false → bind (assertM c) f s = Err Panic.
Proof. by intros ->. Qed.

(** *** Mapping, searching and sorting, for any function of the client *)

(** What the function makes of each element, in their order. *)
Fixpoint map_all (f : VectorMapFunction W) l (w : W) : outcome (list (list Z) * W) :=
  match l with
  | [] => Ret ([], w)
  | x :: l => let* ' (y, w) := f x w in let* ' (l, w) := map_all f l w in Ret (y :: l, w)
  end.

Lemma map_all_length f l w l' w' : map_all f l w = Ret (l', w') → length l' = length l.
Proof.
  revert w l'. induction l as [|x l IH]; cbn [map_all]; intros w l' H; [by simplify_eq|].
  destruct (f x w) as [[y w1]|]; [|done]. cbn [obind] in H. destruct (map_all f l w1) as [[l1 w2]|] eqn:E; [|done].
  cbn [obind] in H. simplify_eq. cbn. by rewrite (IH _ _ E).
Qed.

Lemma map_loop_ok f v l k s : (∀ x w y w', length x = n → f x w = Ret (y, w') → length y = n) → vrep v l → (k ≤ length l)%nat →
  match map_all f (drop k l) (world s) with
  | Ret (l', w) => ∃ v', map_loop (length l - k) f v (Z.of_nat k) s = Ret (v', mkEnv (answers s) w) ∧ vrep v' (take k l ++ l')
  | Err e => map_loop (length l - k) f v (Z.of_nat k) s = Err e
  end.
Proof.
  intros Hf. remember (length l - k)%nat as m eqn:Em. revert v l k s Em. induction m as [|m IH]; intros v l k s Em Hv Hk; cbn [map_loop].
  - rewrite drop_ge by lia. cbn. exists v. rewrite app_nil_r, take_ge by lia. by destruct s.
  - destruct (lookup_lt_is_Some_2 l k) as [x Hx]; [lia|]. rewrite (drop_S _ _ _ Hx). cbn [map_all].
    destruct (position_run _ _ _ _ Hv Hx) as (_ & _ & E). rewrite E, bind_lift, (vr_size _ _ _ _ _ Hv), (vector_read _ _ _ _ Hv Hx), bind_lift.
    unfold bind at 1 2 3, call. destruct (f x (world s)) as [[y w]|e] eqn:Ef; cbn [obind]; [|done].
    destruct (vrep_put _ _ _ _ y Hv Hx) as (b & Eb & Hb); [eapply Hf; [|exact Ef]; by eapply (Forall_lookup_1 _ _ _ _ (vr_elems _ _ _ _ _ Hv))|].
    rewrite (vr_size _ _ _ _ _ Hv) in Eb. rewrite Eb. cbn [lift].
    specialize (IH (set_elems b v) (<[k := y]> l) (S k) (mkEnv (answers s) w)). rewrite length_insert, drop_insert_lt in IH by lia.
    specialize (IH ltac:(lia) Hb ltac:(lia)). replace (Z.of_nat (S k)) with (Z.of_nat k + 1) in IH by lia. cbn [world answers] in IH.
    destruct (map_all f (drop (S k) l) w) as [[l' w']|e]; cbn [obind]; [|exact IH].
    destruct IH as (v' & -> & Hv'). exists v'. split; [done|].
    rewrite (take_S_r _ _ y) in Hv' by by rewrite list_lookup_insert_eq by lia. rewrite take_insert_ge, <-app_assoc in Hv' by lia. exact Hv'.
Qed.

(** The index of the first element that the key is found equal to, or -1, [i] being the index of the first one. *)
Fixpoint find_first (compare : VectorCompareFunction W) (key : list Z) l (i : Z) (w : W) : outcome Z :=
  match l with
  | [] => Ret (-1)
  | x :: l => let* c := compare key x w in if decide (c = 0) then Ret i else find_first compare key l (i + 1) w
  end.
(** The same by halving, for at most [m] elements. *)
Fixpoint find_halving (m : nat) (compare : VectorCompareFunction W) (key : list Z) l (i : Z) (w : W) : outcome Z :=
  match m, l !! (length l / 2)%nat with
  | S m, Some x =>
      let mid := (length l / 2)%nat in
      let* c := compare key x w in
      if decide (c < 0) then find_halving m compare key (take mid l) i w
      else if decide (0 < c) then find_halving m compare key (drop (S mid) l) (i + Z.of_nat mid + 1) w
      else Ret (i + Z.of_nat mid)
  | _, _ => Ret (-1)
  end.

(** What VectorSearch makes of the address. *)
Definition index_of (o : option Z) : Z := match o with None => kNotFound | Some p => p / Z.of_nat n end.
Lemma lfind_run compare key v l k s : vrep v l → (k ≤ length l)%nat →
  match find_first compare key (drop k l) (Z.of_nat k) (world s) with
  | Ret r => ∃ o, lfind (length l - k) key (elems v) (Z.of_nat k * Z.of_nat n) (Z.of_nat n) compare s = Ret (o, s) ∧ index_of o = r
  | Err e => lfind (length l - k) key (elems v) (Z.of_nat k * Z.of_nat n) (Z.of_nat n) compare s = Err e
  end.
Proof.
  intros Hv. pose proof (vr_pos _ _ _ _ _ Hv). remember (length l - k)%nat as m eqn:Em. revert k Em. induction m as [|m IH]; intros k Em Hk; cbn [lfind].
  - rewrite drop_ge by lia. by exists None.
  - destruct (lookup_lt_is_Some_2 l k) as [x Hx]; [lia|]. rewrite (drop_S _ _ _ Hx). cbn [find_first].
    rewrite (vector_read _ _ _ _ Hv Hx), bind_lift. unfold bind, ask. destruct (compare key x (world s)) as [c|e]; cbn [obind]; [|done].
    case_decide; [exists (Some (Z.of_nat k * Z.of_nat n)); split; [done|]; cbn; by rewrite Z.div_mul by lia|].
    replace (Z.of_nat k * Z.of_nat n + Z.of_nat n) with (Z.of_nat (S k) * Z.of_nat n) by lia.
    replace (Z.of_nat k + 1) with (Z.of_nat (S k)) by lia. apply IH; lia.
Qed.

(** Halving looks at the elements [a] to [b], the search having begun at the element [k]. *)
Lemma bsearch_loop_run compare key v l k s : vrep v l → ∀ m a b, (a ≤ b)%nat → (k + b ≤ length l)%nat → (b - a ≤ m)%nat →
  match find_halving m compare key (take (b - a) (drop (k + a) l)) (Z.of_nat (k + a)) (world s) with
  | Ret r => ∃ o, bsearch_loop (S m) key (elems v) (Z.of_nat k * Z.of_nat n) (Z.of_nat a) (Z.of_nat b) (Z.of_nat n) compare s = Ret (o, s) ∧ index_of o = r
  | Err e => bsearch_loop (S m) key (elems v) (Z.of_nat k * Z.of_nat n) (Z.of_nat a) (Z.of_nat b) (Z.of_nat n) compare s = Err e
  end.
Proof.
  intros Hv. pose proof (vr_pos _ _ _ _ _ Hv). induction m as [|m IH]; intros a b Hab Hb Hm; cbn [find_halving].
  { exists None. split; [|done]. cbn [bsearch_loop]. by rewrite decide_False by lia. }
  assert (length (take (b - a) (drop (k + a) l)) = b - a)%nat as Elen by (rewrite length_take, length_drop; lia). rewrite Elen.
  remember (S m) as fuel. cbn [bsearch_loop]. subst fuel. destruct (decide (Z.of_nat a < Z.of_nat b)) as [Hlt|Hge].
  2:{ replace (b - a)%nat with O by lia. cbn. by exists None. }
  pose proof (Nat.div_mod_eq (b - a) 2). pose proof (Nat.mod_upper_bound (b - a) 2 ltac:(lia)). remember ((b - a) / 2)%nat as h eqn:Eh.
  assert ((Z.of_nat a + Z.of_nat b) / 2 = Z.of_nat (a + h)) as -> by (Z.div_mod_to_equations; lia).
  assert (h < b - a)%nat as Hh by lia. rewrite lookup_take_lt, lookup_drop by done.
  destruct (lookup_lt_is_Some_2 l (k + a + h)) as [x Hx]; [lia|]. rewrite Hx.
  replace (Z.of_nat k * Z.of_nat n + Z.of_nat (a + h) * Z.of_nat n) with (Z.of_nat (k + a + h) * Z.of_nat n) by lia.
  rewrite (vector_read _ _ _ _ Hv Hx), bind_lift. unfold bind, ask. destruct (compare key x (world s)) as [c|e]; cbn [obind]; [|done].
  case_decide; [|case_decide].
  - specialize (IH a (a + h)%nat ltac:(lia) ltac:(lia) ltac:(lia)). replace (a + h - a)%nat with h in IH by lia.
    by rewrite take_take, Nat.min_l by lia.
  - specialize (IH (a + h + 1)%nat b ltac:(lia) ltac:(lia) ltac:(lia)). rewrite skipn_firstn_comm, drop_drop.
    replace (b - (a + h + 1))%nat with (b - a - S h)%nat in IH by lia. replace (k + (a + h + 1))%nat with (k + a + S h)%nat in IH by lia.
    replace (Z.of_nat (a + h) + 1) with (Z.of_nat (a + h + 1)) by lia. by replace (Z.of_nat (k + a) + Z.of_nat h + 1) with (Z.of_nat (k + a + S h)) by lia.
  - exists (Some (Z.of_nat (k + a + h) * Z.of_nat n)). split; [done|]. cbn. rewrite Z.div_mul by lia. lia.
Qed.

(** [VectorSearch] of a list: from the index [i] on. *)
Definition find_from (compare : VectorCompareFunction W) (key : list Z) (i : Z) (sorted : bool) l (w : W) : outcome Z :=
  if decide (0 ≤ i ≤ Z.of_nat (length l)) then
    let l' := drop (Z.to_nat i) l in
    if sorted then find_halving (length l') compare key l' i w else find_first compare key l' i w
  else Err Panic.

Lemma vector_search_run compare key i sorted v l s : vrep v l → VectorSearch v key compare i sorted s = ask (find_from compare key i sorted l) s.
Proof.
  intros Hv. pose proof Hv as []. unfold VectorSearch, find_from, ask. destruct (decide (0 ≤ i ≤ Z.of_nat (length l))) as [Hi|Hi].
  2:{ rewrite vr_log0. destruct (decide (0 ≤ i)); [rewrite bind_assert by by apply bool_decide_eq_true|]; apply assert_fails, bool_decide_eq_false; lia. }
  rewrite !bind_assert by (apply bool_decide_eq_true; lia). case_decide as H0.
  { assert (l = []) as -> by (apply nil_length_inv; lia). rewrite drop_nil. by destruct sorted. }
  rewrite (vrep_offset _ _ _ Hv), bind_lift, vr_log0, vr_size0 by lia.
  pose proof (lfind_run compare key v l (Z.to_nat i) s Hv ltac:(lia)) as Hl.
  pose proof (bsearch_loop_run compare key v l (Z.to_nat i) s Hv (length l - Z.to_nat i) 0 (length l - Z.to_nat i) ltac:(lia) ltac:(lia) ltac:(lia)) as Hb.
  rewrite Nat.add_0_r, Nat.sub_0_r in Hb. rewrite take_ge in Hb by (rewrite length_drop; lia). rewrite Z2Nat.id in Hl, Hb by lia.
  replace (Z.of_nat (length l - Z.to_nat i)) with (Z.of_nat (length l) - i) in Hb by lia. rewrite length_drop. unfold bind at 1. destruct sorted.
  - unfold bsearch. replace (Z.to_nat (Z.of_nat (length l) - i)) with (length l - Z.to_nat i)%nat by lia. change (Z.of_nat 0) with 0 in Hb.
    destruct (find_halving _ _ _ _ _ _) as [r|e]; [destruct Hb as (o & -> & <-); by destruct o|by rewrite Hb].
  - replace (Z.to_nat (Z.of_nat (length l) - i)) with (length l - Z.to_nat i)%nat by lia.
    destruct (find_first _ _ _ _ _) as [r|e]; [destruct Hl as (o & -> & <-); by destruct o|by rewrite Hl].
Qed.

(** Sorting by insertion: [x] goes behind the elements that are not greater. *)
Fixpoint insert_by (compare : VectorCompareFunction W) (x : list Z) l (w : W) : outcome (list (list Z)) :=
  match l with
  | [] => Ret [x]
  | y :: l' => let* c := compare y x w in if decide (c ≤ 0) then let* l' := insert_by compare x l' w in Ret (y :: l') else Ret (x :: l)
  end.
Fixpoint sort_by (compare : VectorCompareFunction W) l sorted (w : W) : outcome (list (list Z)) :=
  match l with [] => Ret sorted | x :: l => let* sorted := insert_by compare x sorted w in sort_by compare l sorted w end.

Lemma insert_by_perm compare x l w l' : insert_by compare x l w = Ret l' → l' ≡ₚ x :: l.
Proof.
  revert l'. induction l as [|y l IH]; cbn [insert_by]; intros l' H; [by simplify_eq|].
  destruct (compare y x w) as [c|]; [|done]. cbn [obind] in H. case_decide; [|by simplify_eq].
  destruct (insert_by compare x l w) as [l2|]; [|done]. cbn [obind] in H. simplify_eq. rewrite (IH l2) by done. apply Permutation_swap.
Qed.
Lemma sort_by_perm compare l sorted w l' : sort_by compare l sorted w = Ret l' → l' ≡ₚ l ++ sorted.
Proof.
  revert sorted. induction l as [|x l IH]; cbn [sort_by]; intros sorted H; [by simplify_eq|].
  destruct (insert_by compare x sorted w) as [l2|] eqn:E; [|done]. cbn [obind] in H. rewrite (IH _ H), (insert_by_perm _ _ _ _ _ E).
  symmetry. apply Permutation_middle.
Qed.

(** It sorts, if the client compares by a total preorder. *)
Lemma insert_by_sorted (R : relation (list Z)) compare x l w : Transitive R → (∀ y z, R y z ∨ R z y) →
  (∀ y z, ∃ c, compare y z w = Ret c ∧ (c ≤ 0 ↔ R y z)) → StronglySorted R l → ∃ l', insert_by compare x l w = Ret l' ∧ StronglySorted R l'.
Proof.
  intros Htrans Htot Hc. induction 1 as [|y l Hl IH Hy]; cbn [insert_by]; [exists [x]; split; [done|]; repeat constructor|].
  destruct (Hc y x) as (c & -> & HR). cbn [obind]. destruct IH as (l2 & E & Hl2). case_decide as Hle.
  - rewrite E. exists (y :: l2). split; [done|]. constructor; [done|]. rewrite (insert_by_perm _ _ _ _ _ E). constructor; [by apply HR|done].
  - exists (x :: y :: l). split; [done|]. assert (R x y) as Hxy by (destruct (Htot x y); [done|]; exfalso; apply Hle, HR; done).
    constructor; [by constructor|]. constructor; [done|]. eapply Forall_impl; [exact Hy|]. intros z. by apply Htrans.
Qed.
Lemma sort_by_sorted (R : relation (list Z)) compare l w : Transitive R → (∀ y z, R y z ∨ R z y) →
  (∀ y z, ∃ c, compare y z w = Ret c ∧ (c ≤ 0 ↔ R y z)) → ∃ l', sort_by compare l [] w = Ret l' ∧ StronglySorted R l' ∧ l' ≡ₚ l.
Proof.
  intros Htrans Htot Hc. assert (∀ (s : list (list Z)), StronglySorted R s → ∃ l', sort_by compare l s w = Ret l' ∧ StronglySorted R l') as H.
  { induction l as [|x l IH]; cbn [sort_by]; intros s Hs; [by exists s|].
    destruct (insert_by_sorted R compare x s w Htrans Htot Hc Hs) as (s' & -> & Hs'). by apply IH. }
  destruct (H [] ltac:(constructor)) as (l' & E & Hl'). exists l'. split_and!; [done..|]. by rewrite (sort_by_perm _ _ _ _ _ E), app_nil_r.
Qed.

Lemma insert_sorted_run compare x l s : insert_sorted x l compare s = ask (insert_by compare x l) s.
Proof.
  unfold ask. induction l as [|y l IH]; cbn [insert_sorted insert_by]; [done|]. unfold bind at 1, ask. destruct (compare y x (world s)) as [c|]; [|done].
  cbn [obind]. case_decide; [|done]. unfold bind. rewrite IH. by destruct (insert_by compare x l (world s)).
Qed.
Lemma sort_elems_run compare l sorted s : sort_elems l sorted compare s = ask (sort_by compare l sorted) s.
Proof.
  unfold ask. revert sorted. induction l as [|x l IH]; intros sorted; cbn [sort_elems sort_by]; [done|]. unfold bind.
  rewrite insert_sorted_run. unfold ask. destruct (insert_by compare x sorted (world s)); [|done]. cbn [obind]. apply IH.
Qed.
Lemma chunks_concat l b : elements n l → chunks (length l) n (concat l ++ b) = l.
Proof.
  induction 1 as [|x l Hx Hl IH]; [done|]. cbn [length chunks concat]. rewrite <-app_assoc. subst n. by rewrite take_app_length, drop_app_length, IH.
Qed.

Lemma vector_sort_ok compare v l s : vrep v l →
  match sort_by compare l [] (world s) with
  | Ret l' => ∃ v', VectorSort v compare s = Ret (v', s) ∧ vrep v' l'
  | Err e => VectorSort v compare s = Err e
  end.
Proof.
  intros Hv. pose proof Hv as []. destruct (vrep_junk _ _ Hv) as (junk & Eb & Hj). pose proof (length_concat_elements n l vr_elems0) as El.
  assert (read_at (elems v) 0 (logLength v * elemSize v) = Ret (concat l)) as Er.
  { rewrite Eb, vr_log0, vr_size0. apply (read_middle []); cbn; lia. }
  assert (qsort (elems v) (logLength v) (elemSize v) compare s =
    match sort_by compare l [] (world s) with Ret l' => lift (write_at (elems v) 0 (concat l')) s | Err e => Err e end) as Eq.
  { unfold qsort. rewrite Er, bind_lift, vr_log0, vr_size0, !Nat2Z.id, <-(app_nil_r (concat l)), (chunks_concat l []) by exact vr_elems0.
    unfold bind. rewrite sort_elems_run. unfold ask. by destruct (sort_by compare l [] (world s)). }
  unfold VectorSort, bind. rewrite Eq. destruct (sort_by compare l [] (world s)) as [l'|e] eqn:Es; [|done].
  pose proof (sort_by_perm _ _ _ _ _ Es) as Hp. rewrite app_nil_r in Hp.
  assert (elements n l') as Hl' by (unfold elements; rewrite Hp; exact vr_elems0). pose proof (length_concat_elements n l' Hl') as El'. rewrite (Permutation_length Hp) in El'.
  assert (write_at (elems v) 0 (concat l') = Ret (concat l' ++ junk)) as -> by (rewrite Eb; apply (write_middle []); [done|lia]). eexists. split; [done|].
  rewrite <-set_logLength_id. eapply vrep_set; [done|done|by rewrite (Permutation_length Hp)|done|by exists junk|].
  rewrite Eb, !length_app. lia.
Qed.

(** *** All calls *)
Inductive vector_call : Type :=
| Append (x : list Z)
| Insert (x : list Z) (i : Z)
| Replace (x : list Z) (i : Z)
| Delete (i : Z)
| Nth (i : Z)
| Length
| Sort (compare : VectorCompareFunction W)
| Map (f : VectorMapFunction W)
| Search (key : list Z) (compare : VectorCompareFunction W) (i : Z) (sorted : bool).

(** What a call returns: a number, the element at the address, or nothing. *)
Inductive vector_result : Type := Element (x : list Z) | Number (k : Z) | Nothing.

Definition vector_do (c : vector_call) v : M (env W) (vector_result * vector W) :=
  match c with
  | Append x => let! v := VectorAppend v x in ret (Nothing, v)
  | Insert x i => let! v := VectorInsert v x i in ret (Nothing, v)
  | Replace x i => let! v := VectorReplace v x i in ret (Nothing, v)
  | Delete i => let! v := VectorDelete v i in ret (Nothing, v)
  | Nth i => let! o := VectorNth v i in let! x := lift (read_at (elems v) o (elemSize v)) in ret (Element x, v)
  | Length => ret (Number (VectorLength v), v)
  | Sort compare => let! v := VectorSort v compare in ret (Nothing, v)
  | Map f => let! v := VectorMap v f in ret (Nothing, v)
  | Search key compare i sorted => let! r := VectorSearch v key compare i sorted in ret (Number r, v)
  end.

(** The same calls of a list, [w] being the client's world. *)
Definition list_do (c : vector_call) l (w : W) : outcome (vector_result * list (list Z) * W) :=
  match c with
  | Append x => Ret (Nothing, l ++ [x], w)
  | Insert x i => if decide (0 ≤ i ≤ Z.of_nat (length l)) then Ret (Nothing, take (Z.to_nat i) l ++ x :: drop (Z.to_nat i) l, w) else Err Panic
  | Replace x i => let* y := or_panic (nthZ l i) in let* w := freed y w in Ret (Nothing, <[Z.to_nat i := x]> l, w)
  | Delete i => let* y := or_panic (nthZ l i) in let* w := freed y w in Ret (Nothing, delete (Z.to_nat i) l, w)
  | Nth i => let* y := or_panic (nthZ l i) in Ret (Element y, l, w)
  | Length => Ret (Number (Z.of_nat (length l)), l, w)
  | Sort compare => let* l := sort_by compare l [] w in Ret (Nothing, l, w)
  | Map f => let* ' (l, w) := map_all f l w in Ret (Nothing, l, w)
  | Search key compare i sorted => let* r := find_from compare key i sorted l w in Ret (Number r, l, w)
  end.

(** New elements have the size of the elements, and a function that is mapped leaves an element its size. *)
Definition fits (c : vector_call) : Prop :=
  match c with
  | Append x | Insert x _ | Replace x _ => length x = n
  | Map f => ∀ x w y w', length x = n → f x w = Ret (y, w') → length y = n
  | Delete _ | Nth _ | Length | Sort _ | Search _ _ _ _ => True
  end.

(** The outcomes agree, and in the end so do the vector and the list. *)
Definition agree (o : outcome (vector_result * vector W * env W)) (o' : outcome (vector_result * list (list Z) * W)) : Prop :=
  match o, o' with
  | Ret (r, v, s), Ret (r', l, w) => r = r' ∧ vrep v l ∧ world s = w ∧ plenty s
  | Err e, Err e' => e = e'
  | _, _ => False
  end.

Lemma agree_ret (m : M (env W) (vector W)) r l' w s :
  wp m (λ v' s', vrep v' l' ∧ world s' = w ∧ plenty s') s → agree (bind m (λ v, ret (r, v)) s) (Ret (r, l', w)).
Proof. intros (v & s' & E & Hv & Hw & Hp)%wp_run. rewrite (bind_run _ _ _ _ _ E). done. Qed.

Lemma agree_err (m : M (env W) (vector W)) r e s : m s = Err e → agree (bind m (λ v, ret (r, v)) s) (Err e).
Proof. intros E. unfold bind. by rewrite E. Qed.

Lemma nthZ_cases l i : (∃ x, nthZ l i = Some x ∧ l !! Z.to_nat i = Some x ∧ Z.of_nat (Z.to_nat i) = i) ∨ (nthZ l i = None ∧ ¬ (0 ≤ i < Z.of_nat (length l))).
Proof.
  destruct (decide (0 ≤ i < Z.of_nat (length l))) as [Hi|Hi].
  - left. destruct (nthZ_is_Some l i Hi) as [x Hx]. exists x. split_and!; [done|by rewrite <-nthZ_lookup by lia|lia].
  - right. split; [|done]. destruct (nthZ l i) eqn:E; [|done]. by apply nthZ_Some in E.
Qed.

Lemma out_of_range {A} v l i (f : M (env W) A) s : vrep v l → ¬ (0 ≤ i < Z.of_nat (length l)) →
  (assertM (bool_decide (0 ≤ i));;! assertM (bool_decide (i < logLength v));;! f) s = Err Panic.
Proof.
  intros Hv Hi. rewrite (vr_log _ _ _ _ _ Hv). destruct (decide (0 ≤ i)).
  - rewrite bind_assert by by apply bool_decide_eq_true. apply assert_fails, bool_decide_eq_false. lia.
  - apply assert_fails, bool_decide_eq_false. lia.
Qed.

Lemma vector_do_ok c v l s : plenty s → vrep v l → fits c → (Z.of_nat (length l) + init) * Z.of_nat n ≤ INT_MAX → agree (vector_do c v s) (list_do c l (world s)).
Proof.
  intros Hs Hv Hc Hint. destruct c as [x|x i|x i|i|i| |compare|f|key compare i sorted]; cbn [vector_do list_do fits] in *.
  - apply agree_ret. eapply wp_mono; [by apply vector_append_ok|]. intros v' s' [[Hw Hp] Hv']. split_and!; [done..|by apply Hp].
  - case_decide as Hi.
    + apply agree_ret. replace i with (Z.of_nat (Z.to_nat i)) at 1 by lia. eapply wp_mono; [apply vector_insert_ok; try done; lia|].
      intros v' s' [[Hw Hp] Hv']. split_and!; [done..|by apply Hp].
    + apply agree_err. unfold VectorInsert. rewrite (vr_log _ _ _ _ _ Hv). destruct (decide (0 ≤ i)).
      * rewrite bind_assert by by apply bool_decide_eq_true. apply assert_fails, bool_decide_eq_false. lia.
      * apply assert_fails, bool_decide_eq_false. lia.
  - destruct (nthZ_cases l i) as [(y & -> & Hy & Ei)|[-> Hi]]; cbn [or_panic obind]; [|by eapply agree_err, out_of_range].
    rewrite <-Ei at 1. destruct (freed y (world s)) as [w|e] eqn:Ef; cbn [obind]; [|by eapply agree_err, vector_replace_fails].
    apply agree_ret. eapply wp_mono; [by eapply vector_replace_ok|]. intros v' s' [-> Hv']. done.
  - destruct (nthZ_cases l i) as [(y & -> & Hy & Ei)|[-> Hi]]; cbn [or_panic obind]; [|by eapply agree_err, out_of_range].
    rewrite <-Ei at 1. destruct (freed y (world s)) as [w|e] eqn:Ef; cbn [obind]; [|by eapply agree_err, vector_delete_fails].
    apply agree_ret. eapply wp_mono; [by eapply vector_delete_ok|]. intros v' s' [-> Hv']. done.
  - destruct (nthZ_cases l i) as [(y & -> & Hy & Ei)|[-> Hi]]; cbn [or_panic obind].
    + pose proof (vector_nth_ok v l (Z.to_nat i) y (λ o s', o = Z.of_nat (Z.to_nat i) * Z.of_nat n ∧ s' = s) s Hv Hy (conj eq_refl eq_refl)) as (o & s' & E & -> & ->)%wp_run.
      rewrite <-Ei, (bind_run _ _ _ _ _ E), (vr_size _ _ _ _ _ Hv), (vector_read _ _ _ _ Hv Hy). done.
    + unfold agree, bind at 1. unfold VectorNth. by rewrite (out_of_range v l).
  - unfold VectorLength. rewrite (vr_log _ _ _ _ _ Hv). done.
  - pose proof (vector_sort_ok compare v l s Hv) as H. unfold bind. destruct (sort_by _ _ _ _); [by destruct H as (v' & -> & Hv')|by rewrite H].
  - pose proof (map_loop_ok f v l 0 s Hc Hv ltac:(lia)) as H. rewrite drop_0, Nat.sub_0_r in H. change (Z.of_nat 0) with 0 in H. unfold VectorMap, bind.
    rewrite (vr_log _ _ _ _ _ Hv), Nat2Z.id. destruct (map_all _ _ _) as [[l' w]|]; [by destruct H as (v' & -> & Hv')|by rewrite H].
  - unfold bind. rewrite (vector_search_run _ _ _ _ _ l) by done. unfold ask. by destruct (find_from _ _ _ _ _ _).
Qed.

Fixpoint vector_calls (cs : list vector_call) v : M (env W) (list vector_result) :=
  match cs with
  | [] => VectorDispose v;;! ret []
  | c :: cs => let! ' (r, v) := vector_do c v in let! rs := vector_calls cs v in ret (r :: rs)
  end.
Fixpoint list_calls (cs : list vector_call) l (w : W) : outcome (list vector_result * W) :=
  match cs with
  | [] => let* w := freed_all l w in Ret ([], w)
  | c :: cs => let* ' (r, l, w) := list_do c l w in let* ' (rs, w) := list_calls cs l w in Ret (r :: rs, w)
  end.

(** What the client sees of an outcome. *)
Definition observe {A} (o : outcome (A * env W)) : outcome (A * W) := let* ' (a, s) := o in Ret (a, world s).

Lemma list_do_length c l w r l' w' : list_do c l w = Ret (r, l', w') → (length l' ≤ S (length l))%nat.
Proof.
  destruct c as [x|x i|x i|i|i| |compare|f|key compare i sorted]; cbn [list_do]; intros H.
  - simplify_eq. rewrite length_app. cbn. lia.
  - case_decide; [|done]. simplify_eq. rewrite length_app. cbn. rewrite length_take, length_drop. lia.
  - destruct (or_panic _) as [y|]; [|done]. cbn in H. destruct (freed y w); [|done]. cbn in H. simplify_eq. rewrite length_insert. lia.
  - destruct (or_panic _) as [y|]; [|done]. cbn in H. destruct (freed y w); [|done]. cbn in H. simplify_eq. rewrite delete_take_drop, length_app, length_take, length_drop. lia.
  - destruct (or_panic _) as [y|]; [|done]. cbn in H. simplify_eq. lia.
  - simplify_eq. lia.
  - destruct (sort_by _ _ _ _) as [l2|] eqn:E; [|done]. cbn in H. simplify_eq. rewrite (Permutation_length (sort_by_perm _ _ _ _ _ E)), app_nil_r. lia.
  - destruct (map_all f l w) as [[l2 w2]|] eqn:E; [|done]. cbn in H. simplify_eq. rewrite (map_all_length _ _ _ _ _ E). lia.
  - destruct (find_from _ _ _ _ _ _); [|done]. cbn in H. simplify_eq. lia.
Qed.

Lemma vector_dispose_fails v l e s : vrep v l → freed_all l (world s) = Err e → VectorDispose v s = Err e.
Proof.
  intros Hv Hf. pose proof (dispose_loop_fails v l 0 e s Hv ltac:(lia) Hf) as Hloop. rewrite Nat.sub_0_r in Hloop.
  unfold VectorDispose. rewrite (vr_free _ _ _ _ _ Hv), (vr_log _ _ _ _ _ Hv), Nat2Z.id. destruct free as [f|] eqn:Ef; [exact Hloop|].
  assert (∀ l w, freed_all l w = Ret w) as E. { induction l0 as [|x l0 IH]; intros w0; [done|]. cbn. unfold freed. rewrite Ef. apply IH. }
  by rewrite E in Hf.
Qed.

Lemma vector_calls_ok cs v l s : plenty s → vrep v l → Forall fits cs → (Z.of_nat (length l) + Z.of_nat (length cs) + init) * Z.of_nat n ≤ INT_MAX →
  observe (vector_calls cs v s) = list_calls cs l (world s).
Proof.
  revert v l s. induction cs as [|c cs IH]; intros v l s Hs Hv Hcs Hint; cbn [vector_calls list_calls].
  - destruct (freed_all l (world s)) as [w|e] eqn:Ef; cbn [obind].
    + pose proof (vector_dispose_ok v l (λ _ s', s' = mkEnv (answers s) w) s w Hv Ef eq_refl) as ([] & s' & E & ->)%wp_run. by rewrite (bind_run _ _ _ _ _ E).
    + unfold bind. by rewrite (vector_dispose_fails _ _ _ _ Hv Ef).
  - apply Forall_cons in Hcs as [Hc Hcs]. cbn [length] in Hint. pose proof (vector_do_ok c v l s Hs Hv Hc ltac:(nia)) as Ha. unfold bind at 1.
    destruct (vector_do c v s) as [[[r v'] s']|e], (list_do c l (world s)) as [[[r' l'] w']|e'] eqn:El; cbn [agree obind] in *; try done; [|by subst].
    destruct Ha as (-> & Hv' & <- & Hs'). apply list_do_length in El. rewrite <-(IH v' l' s' Hs' Hv' Hcs ltac:(nia)).
    unfold bind. by destruct (vector_calls cs v' s') as [[rs s2]|].
Qed.

End vectors.

(** ** Sets *)

(** What hashset.c asks of the functions that it is given.  An entry is an element and
    what it stands for; [owns w L] says that in world [w] the set may keep the entries
    [L], and [names w e a] that the object [e] has the key [a]. *)
Class ElemLaws {W A K : Type} `{!EqDecision K} (n : nat) (k : Z) (key : A → K) (hash : K → Z)
    (hashf : HashSetHashFunction W) (comparef : VectorCompareFunction W) (free : option (VectorFreeFunction W))
    (names : W → list Z → K → Prop) (owns : W → list (list Z * A) → Prop) : Prop := {
  el_pos : (0 < n)%nat;
  el_range a : 0 ≤ hash a < k;
  el_hash w e a : names w e a → hashf e k w = Ret (hash a);
  el_compare w e a e' b : names w e a → names w e' b → ∃ c, comparef e e' w = Ret c ∧ (c = 0 ↔ a = b);
  el_perm w L L' : L ≡ₚ L' → owns w L → owns w L';
  el_owns w L e a : owns w L → (e, a) ∈ L → length e = n ∧ names w e (key a);
  el_free w e a L : owns w ((e, a) :: L) → ∃ w', freed free e w = Ret w' ∧ owns w' L;
}.

(** Elements of two bytes, in a vector that begins without space.  The freed
    elements are logged; one of them cannot be freed.  Elements are compared by
    their first bytes, and mapped by turning them round, which is logged too. *)
Definition log_free : VectorFreeFunction (list (list Z)) := λ x w, if decide (x = [0; 0]) then Err Fault else Ret (w ++ [x]).
Definition by_first : VectorCompareFunction (list (list Z)) := λ x y _, Ret (hd 0 x - hd 0 y).
Definition turn_round : VectorMapFunction (list (list Z)) := λ x w, Ret (reverse x, w ++ [[hd 0 x]]).
Definition some_calls : list (vector_call (W := list (list Z))) :=
  [Append [1; 9]; Append [2; 2]; Insert [3; 8] 1; Replace [4; 4] 0; Nth 1; Delete 2; Append [1; 6]; Append [3; 7]; Sort by_first;
    Nth 2; Search [3; 0] by_first 0 false; Search [4; 0] by_first 0 true; Search [2; 0] by_first 1 true; Map turn_round; Nth 0; Length].

Section entries.
Context {A K : Type} `{!EqDecision K} (key : A → K).
Implicit Types (L : list (list Z * A)) (x p : list Z * A).

Definition key_of p : K := key (snd p).
(** What is in the set after an element is entered, or deleted, and what is found. *)
Definition replace x p : list Z * A := if decide (key_of p = key_of x) then x else p.
Definition enter x L : list (list Z * A) := if decide (key_of x ∈ key_of <$> L) then replace x <$> L else L ++ [x].
Definition remove (a : K) L : list (list Z * A) := filter (λ p, key_of p ≠ a) L.
Definition find (a : K) L : option (list Z * A) := snd <$> list_find (λ p, key_of p = a) L.

Lemma key_replace x p : key_of (replace x p) = key_of p.
Proof. unfold replace. by case_decide. Qed.

Lemma keys_replace x L : key_of <$> (replace x <$> L) = key_of <$> L.
Proof. rewrite <-list_fmap_compose. apply list_fmap_ext. intros ? p _. apply key_replace. Qed.

Lemma keys_enter x L : NoDup (key_of <$> L) → NoDup (key_of <$> enter x L).
Proof.
  intros HL. unfold enter. case_decide as Hx; [by rewrite keys_replace|]. rewrite fmap_app. apply NoDup_app. split_and!; [done| |apply NoDup_singleton].
  intros a Ha. cbn. intros ->%list_elem_of_singleton. done.
Qed.

Lemma keys_remove a L : NoDup (key_of <$> L) → NoDup (key_of <$> remove a L).
Proof. intros HL. eapply sublist_NoDup; [exact HL|]. apply fmap_sublist, sublist_filter. Qed.

Lemma list_find_ext_in {B} (P Q : B → Prop) `{!∀ b, Decision (P b), !∀ b, Decision (Q b)} (l : list B) :
  (∀ b, b ∈ l → P b ↔ Q b) → list_find P l = list_find Q l.
Proof.
  induction l as [|b l IH]; intros HPQ; [done|]. cbn. rewrite IH by (intros; apply HPQ; by right).
  destruct (HPQ b) as [H1 H2]; [left|]. by do 2 case_decide; try tauto.
Qed.

(** The one entry with a key. *)
Lemma key_unique L i j p q : NoDup (key_of <$> L) → L !! i = Some p → L !! j = Some q → key_of p = key_of q → i = j.
Proof. intros HL Hi Hj E. eapply NoDup_lookup; [exact HL| |]; rewrite list_lookup_fmap; [by rewrite Hi|]. rewrite Hj. cbn. by rewrite E. Qed.

Lemma replace_insert x L i p : NoDup (key_of <$> L) → L !! i = Some p → key_of p = key_of x → replace x <$> L = <[i := x]> L.
Proof.
  intros HL Hi E. apply list_eq. intros j. rewrite list_lookup_fmap. destruct (decide (j = i)) as [->|Hj].
  - rewrite Hi, list_lookup_insert_eq by by eapply lookup_lt_Some. cbn. unfold replace. by rewrite decide_True.
  - rewrite list_lookup_insert_ne by done. destruct (L !! j) as [q|] eqn:Eq; [|done]. cbn. unfold replace. rewrite decide_False; [done|].
    intros Eq'. apply Hj. eapply key_unique; [done..|]. congruence.
Qed.

Lemma remove_delete L i p : NoDup (key_of <$> L) → L !! i = Some p → remove (key_of p) L = delete i L.
Proof.
  intros HL Hi. pose proof (take_drop_middle _ _ _ Hi) as E. rewrite delete_take_drop. rewrite <-E in HL. unfold remove. rewrite <-E at 1.
  rewrite fmap_app, fmap_cons in HL. apply NoDup_app in HL as (_ & H1 & H2). apply NoDup_cons in H2 as [H2 _].
  rewrite filter_app, filter_cons_False by (intros []; done). f_equal; apply filter_true.
  - intros q Hq Eq. apply (H1 (key_of q)); [by apply list_elem_of_fmap_2|]. rewrite Eq. apply list_elem_of_here.
  - intros q Hq Eq. apply H2. rewrite <-Eq. by apply list_elem_of_fmap_2.
Qed.

Lemma remove_perm L i p : NoDup (key_of <$> L) → L !! i = Some p → L ≡ₚ p :: remove (key_of p) L.
Proof. intros HL Hi. rewrite (remove_delete _ _ _ HL Hi). by apply delete_Permutation. Qed.

(** What is entered is found, and nothing else has changed. *)
Lemma find_cons a p L : find a (p :: L) = if decide (key_of p = a) then Some p else find a L.
Proof. unfold find. cbn. case_decide; [done|]. by destruct (list_find _ L) as [[]|]. Qed.

Lemma find_replace a x L : find a (replace x <$> L) = replace x <$> find a L.
Proof.
  induction L as [|p L IH]; [done|]. rewrite fmap_cons, !find_cons, key_replace. by case_decide.
Qed.

Lemma find_present a L : a ∈ key_of <$> L → ∃ p, find a L = Some p ∧ key_of p = a.
Proof.
  intros (p & -> & Hp)%list_elem_of_fmap. unfold find. destruct (list_find_elem_of (λ q, key_of q = key_of p) L p Hp eq_refl) as [[i q] E].
  rewrite E. exists q. split; [done|]. by apply list_find_Some in E as (_ & ? & _).
Qed.

Lemma find_some a L p : find a L = Some p → p ∈ L ∧ key_of p = a.
Proof.
  unfold find. destruct (list_find _ L) as [[i q]|] eqn:E; [|done]. intros [= ->]. apply list_find_Some in E as (Hi & Hk & _). split; [|done]. by eapply list_elem_of_lookup_2.
Qed.

Lemma find_enter a x L : find a (enter x L) = if decide (a = key_of x) then Some x else find a L.
Proof.
  unfold enter. case_decide as Hin.
  - rewrite find_replace. case_decide as Ha.
    + rewrite Ha. destruct (find_present _ _ Hin) as (p & -> & E). cbn. unfold replace. by rewrite decide_True.
    + destruct (find a L) as [p|] eqn:E; [|done]. apply find_some in E as [_ E]. cbn. unfold replace. rewrite decide_False; [done|congruence].
  - induction L as [|p L IH]; cbn [app]; rewrite !find_cons; [unfold find; cbn; repeat case_decide; congruence|].
    rewrite fmap_cons in Hin. apply not_elem_of_cons in Hin as [Hne Hin]. rewrite IH by done. repeat case_decide; congruence.
Qed.

Lemma enter_perm_old x L i p : NoDup (key_of <$> L) → L !! i = Some p → key_of p = key_of x → enter x L ≡ₚ x :: remove (key_of x) L.
Proof.
  intros HL Hi E. unfold enter. rewrite decide_True by (rewrite <-E; apply list_elem_of_fmap_2; by eapply list_elem_of_lookup_2).
  rewrite (replace_insert _ _ _ _ HL Hi E), <-E, (remove_delete _ _ _ HL Hi), insert_take_drop by by eapply lookup_lt_Some.
  rewrite delete_take_drop. symmetry. apply Permutation_middle.
Qed.
End entries.

Section sets.
Context {W A K : Type} `{!EqDecision K} (n : nat) (k : Z) (key : A → K) (hash : K → Z).
Context (hashf : HashSetHashFunction W) (comparef : VectorCompareFunction W) (freef : option (VectorFreeFunction W)).
Context (names : W → list Z → K → Prop) (owns : W → list (list Z * A) → Prop).
Context `{!ElemLaws n k key hash hashf comparef freef names owns}.
Implicit Types (h : hashset W) (s : env W) (L : list (list Z * A)) (x p : list Z * A).
Local Abbreviation key_of := (key_of key).
Local Abbreviation freed := (freed freef).

(** The entries whose keys have the hash code [i], in the order of a bucket. *)
Definition in_bucket (i : Z) L : list (list Z * A) := filter (λ p, hash (key_of p) = i) L.

(** The set [h] holds the entries [L]. *)
Record set_rep h L : Prop := {
  sr_size : hs_elemSize h = Z.of_nat n;
  sr_num : numBuckets h = k;
  sr_hash : hashfn h = hashf;
  sr_compare : comparefn h = comparef;
  sr_buckets : Z.of_nat (length (buckets h)) = k;
  sr_vectors i v : buckets h !! i = Some v → vec_rep n 2 freef v (fst <$> in_bucket (Z.of_nat i) L);
  sr_keys : NoDup (key_of <$> L);
}.

Lemma set_rep_bucket h L i : set_rep h L → 0 ≤ i < k →
  ∃ v, nthZ (buckets h) i = Some v ∧ buckets h !! Z.to_nat i = Some v ∧ vec_rep n 2 freef v (fst <$> in_bucket i L).
Proof.
  intros Hr Hi. destruct (lookup_lt_is_Some_2 (buckets h) (Z.to_nat i)) as [v Hv]; [rewrite <-(sr_buckets _ _ Hr) in Hi; lia|].
  exists v. split_and!; [by rewrite nthZ_lookup by lia|done|]. pose proof (sr_vectors _ _ Hr _ _ Hv) as H. by rewrite Z2Nat.id in H by lia.
Qed.

(** One bucket changes. *)
Lemma set_rep_put h L L' i v : set_rep h L → 0 ≤ i < k → NoDup (key_of <$> L') →
  vec_rep n 2 freef v (fst <$> in_bucket i L') → (∀ j, j ≠ i → fst <$> in_bucket j L' = fst <$> in_bucket j L) →
  set_rep (set_buckets (<[Z.to_nat i := v]> (buckets h)) h) L'.
Proof.
  intros [] Hi HL Hv Hj. split; try done; cbn; [by rewrite length_insert|].
  intros j u Hu. apply list_lookup_insert_Some in Hu as [(<- & -> & _)|(Hne & Hu)]; [by rewrite Z2Nat.id by lia|].
  rewrite Hj by lia. by apply sr_vectors0.
Qed.

Lemma put_vector_wp h i v (Q : hashset W → env W → Prop) s : 0 ≤ i < Z.of_nat (length (buckets h)) →
  Q (set_buckets (<[Z.to_nat i := v]> (buckets h)) h) s → wp (put_vector h i v) Q s.
Proof. intros Hi HQ. unfold put_vector. wp_step. eapply wp_lift; [by rewrite setZ_run|]. by wp_step. Qed.

(** *** Searching a bucket *)

Lemma owned w L p : owns w L → p ∈ L → length (fst p) = n ∧ names w (fst p) (key_of p).
Proof. intros Ho Hp. destruct p as [e a]. exact (el_owns w L e a Ho Hp). Qed.

Lemma in_bucket_lookup i L j p : in_bucket i L !! j = Some p → p ∈ L ∧ hash (key_of p) = i.
Proof. intros H%list_elem_of_lookup_2. by apply list_elem_of_filter in H as [? ?]. Qed.

Lemma find_in_bucket a L : list_find (λ p, key_of p = a) (in_bucket (hash a) L) = None ↔ a ∉ key_of <$> L.
Proof.
  rewrite list_find_None, Forall_forall. split.
  - intros H (p & -> & Hp)%list_elem_of_fmap. apply (H p); [|done]. by apply list_elem_of_filter.
  - intros H p [_ Hp]%list_elem_of_filter <-. apply H. by apply list_elem_of_fmap_2.
Qed.

(** The keys of all entries can be read. *)
Definition readable (w : W) L : Prop := ∀ p, p ∈ L → names w (fst p) (key_of p).

Lemma owned_readable w L L' : owns w L' → L ⊆ L' → readable w L.
Proof. intros Ho HL p Hp. apply (owned w L'); [done|by apply HL]. Qed.

Lemma set_search_ok h L e a v (Q : Z → env W → Prop) s :
  set_rep h L → readable (world s) L → names (world s) e a → vec_rep n 2 freef v (fst <$> in_bucket (hash a) L) →
  (∀ j p, in_bucket (hash a) L !! j = Some p → key_of p = a → a ∈ key_of <$> L → Q (Z.of_nat j) s) → (a ∉ key_of <$> L → Q (-1) s) →
  wp (VectorSearch v e (comparefn h) 0 false) Q s.
Proof.
  intros Hr Hnames Hn Hv Hyes Hno. rewrite (sr_compare _ _ Hr).
  eapply (vector_search_ok _ _ _ (λ e', comparef e e' (world s) = Ret 0)); [done| |].
  - intros y ([e' b] & -> & [_ Hp]%list_elem_of_filter)%list_elem_of_fmap.
    destruct (el_compare (world s) e a e' _ Hn (Hnames _ Hp)) as (c & Ec & _). exists c. split; [done|]. cbn in *. rewrite Ec. split; [by intros ->|by injection 1].
  - rewrite list_find_fmap.
    assert (list_find ((λ e', comparef e e' (world s) = Ret 0) ∘ fst) (in_bucket (hash a) L) = list_find (λ p, key_of p = a) (in_bucket (hash a) L)) as ->.
    { apply list_find_ext_in. intros p [_ Hp]%list_elem_of_filter. cbn.
      destruct (el_compare (world s) e a (fst p) _ Hn (Hnames _ Hp)) as (c & -> & Hc). split; [injection 1 as ->; symmetry; by apply Hc|]. intros <-. f_equal. by apply Hc. }
    destruct (list_find _ (in_bucket (hash a) L)) as [[j p]|] eqn:Ef; cbn.
    + apply list_find_Some in Ef as (Hj & Hp & _). eapply Hyes; [done..|]. apply in_bucket_lookup in Hj as [Hj _]. rewrite <-Hp. by apply list_elem_of_fmap_2.
    + by apply Hno, find_in_bucket.
Qed.

(** *** What each call does *)

Lemma set_code h L a : set_rep h L → 0 ≤ hash a < numBuckets h ∧ hash a < k.
Proof. intros Hr. rewrite (sr_num _ _ Hr). pose proof (el_range (ElemLaws := ElemLaws0) a). lia. Qed.

Lemma hash_wp h L e a (Q : Z → env W → Prop) s : set_rep h L → names (world s) e a → Q (hash a) s → wp (ask (hashfn h e (numBuckets h))) Q s.
Proof. intros Hr Hn HQ. unfold wp, ask. by rewrite (sr_hash _ _ Hr), (sr_num _ _ Hr), (el_hash _ _ _ Hn). Qed.

Ltac code_step Hr a := pose proof (set_code _ _ a Hr) as [? ?]; wp_step; eapply hash_wp; [done..|].
Ltac bucket_step Hr a := destruct (set_rep_bucket _ _ (hash a) Hr) as (v & Ev & Hiv & Hv); [lia|]; wp_step; eapply wp_lift; [by rewrite Ev|]; wp_step.

Lemma in_bucket_app i L L' : in_bucket i (L ++ L') = in_bucket i L ++ in_bucket i L'.
Proof. apply filter_app. Qed.

Lemma in_bucket_keys i L : NoDup (key_of <$> L) → NoDup (key_of <$> in_bucket i L).
Proof. intros HL. eapply sublist_NoDup; [exact HL|]. apply fmap_sublist, sublist_filter. Qed.

Lemma in_bucket_replace i x L : in_bucket i (replace key x <$> L) = replace key x <$> in_bucket i L.
Proof.
  unfold in_bucket. induction L as [|p L IH]; [done|]. rewrite fmap_cons, !filter_cons, key_replace. by case_decide; rewrite IH.
Qed.

Lemma replace_none x L : key_of x ∉ key_of <$> L → replace key x <$> L = L.
Proof.
  intros Hx. rewrite <-(list_fmap_id L) at 2. apply list_fmap_ext. intros i p Hp. unfold replace. rewrite decide_False; [done|].
  intros E. apply Hx. rewrite <-E. apply list_elem_of_fmap_2. by eapply list_elem_of_lookup_2.
Qed.

Lemma in_bucket_remove i a L : in_bucket i (remove key a L) = remove key a (in_bucket i L).
Proof. unfold in_bucket, remove. rewrite !list_filter_filter. apply list_filter_iff. intros p. tauto. Qed.

Lemma in_bucket_others i x L : hash (key_of x) ≠ i → in_bucket i (enter key x L) = in_bucket i L.
Proof.
  intros Hi. unfold enter. case_decide.
  - rewrite in_bucket_replace. apply replace_none. intros (p & E & [Hp _]%list_elem_of_filter)%list_elem_of_fmap. congruence.
  - rewrite in_bucket_app. unfold in_bucket at 2. by rewrite filter_cons_False, filter_nil, app_nil_r.
Qed.

Lemma length_in_bucket i L : (length (in_bucket i L) ≤ length L)%nat.
Proof. apply length_filter. Qed.

Lemma find_entry a L j p : NoDup (key_of <$> L) → in_bucket (hash a) L !! j = Some p → key_of p = a → find key a L = Some p ∧ ∃ i, L !! i = Some p.
Proof.
  intros HL [Hp _]%in_bucket_lookup E. apply list_elem_of_lookup in Hp as [i Hi]. split; [|by exists i].
  unfold find. rewrite (proj2 (list_find_Some _ L i p)); [done|]. split_and!; [done..|]. intros i' q Hi' Hlt Eq.
  assert (i' = i) by by eapply (key_unique key L i' i q p); [done..|congruence]. lia.
Qed.

(** What is entered belongs to the set from then on; what it replaces is freed. *)
Lemma set_enter_ok h L x s : plenty s → set_rep h L → owns (world s) (x :: L) →
  (Z.of_nat (length L) + 2) * Z.of_nat n ≤ INT_MAX → 0 ≤ size h < INT_MAX →
  wp (HashSetEnter h (fst x)) (λ h' s', plenty s' ∧ set_rep h' (enter key x L) ∧ owns (world s') (enter key x L) ∧
    size h' = size h + (if decide (key_of x ∈ key_of <$> L) then 0 else 1)) s.
Proof.
  intros Hs Hr Ho Hint Hsize. pose proof (sr_keys _ _ Hr) as Hk. unfold HashSetEnter.
  destruct (owned _ _ x Ho) as [Hx Hn]; [left|]. assert (readable (world s) L) as HL by (eapply owned_readable; [exact Ho|]; set_solver).
  code_step Hr (key_of x). asserts. asserts. bucket_step Hr (key_of x). pose proof (keys_enter key x L Hk) as Hk'.
  assert (∀ j, j ≠ hash (key_of x) → fst <$> in_bucket j (enter key x L) = fst <$> in_bucket j L) as Hother by (intros; by rewrite in_bucket_others).
  eapply set_search_ok; [done..| |].
  - intros j p Hj E Hin. destruct (find_entry _ _ _ _ Hk Hj E) as (_ & i & Hi). rewrite decide_False by lia.
    pose proof (enter_perm_old key x L i p Hk Hi E) as Hperm. pose proof (remove_perm key L i p Hk Hi) as Hperm'. rewrite E in Hperm'.
    assert (owns (world s) (p :: x :: remove key (key_of x) L)) as Ho'
      by (eapply el_perm; [|exact Ho]; etransitivity; [apply perm_skip, Hperm'|apply perm_swap]).
    destruct p as [e b]. destruct (el_free _ _ _ _ Ho') as (w & Hf & Ho2). wp_step.
    eapply wp_mono; [eapply vector_replace_ok; [exact Hv|by rewrite list_lookup_fmap, Hj|done|exact Hf]|]. intros v' s' [-> Hv'].
    apply put_vector_wp; [rewrite (sr_buckets _ _ Hr); lia|]. split_and!; [done| |by eapply el_perm, Ho2|by cbn; rewrite decide_True by done; lia].
    eapply set_rep_put; [done|lia|done| |done]. unfold enter. rewrite decide_True by done. rewrite in_bucket_replace.
    rewrite (replace_insert key x _ j _ (in_bucket_keys _ _ Hk) Hj E). by rewrite list_fmap_insert.
  - intros Hnew. rewrite decide_True by done. wp_step. pose proof (length_in_bucket (hash (key_of x)) L).
    eapply wp_mono; [eapply vector_append_ok; [done..|rewrite length_fmap; nia]|]. intros v' s' [[Hw Hp] Hv']. wp_step.
    apply put_vector_wp; [rewrite (sr_buckets _ _ Hr); lia|]. wp_step. eapply wp_lift; [apply int_run; cbn; lia|]. wp_step.
    assert (enter key x L = L ++ [x]) as El by (unfold enter; by rewrite decide_False). rewrite El in *. split_and!; [by apply Hp| | |].
    + assert (set_rep (set_buckets (<[Z.to_nat (hash (key_of x)) := v']> (buckets h)) h) (L ++ [x])) as [] ; [|by split].
      eapply set_rep_put; [done|lia|done| |done]. rewrite in_bucket_app. unfold in_bucket at 2.
      by rewrite filter_cons_True, filter_nil, fmap_app.
    + rewrite Hw. eapply el_perm, Ho. apply Permutation_cons_append.
    + cbn. by rewrite decide_False.
Qed.

(** The element that has the key is found where it is. *)
Lemma set_lookup_ok h L e a s : set_rep h L → readable (world s) L → names (world s) e a → 
  wp (HashSetLookup h e) (λ r s', s' = s ∧
    match find key a L with Some p => ∃ q, r = Some q ∧ element_at h q s = Ret (fst p, s) | None => r = None end) s.
Proof.
  intros Hr HL Hn. unfold HashSetLookup. code_step Hr a. asserts. asserts. bucket_step Hr a.
  eapply set_search_ok; [done..| |].
  - intros j p Hj E Hin. destruct (find_entry _ _ _ _ (sr_keys _ _ Hr) Hj E) as (-> & _). rewrite decide_False by lia. wp_step.
    assert ((fst <$> in_bucket (hash a) L) !! j = Some (fst p)) as Hj' by by rewrite list_lookup_fmap, Hj.
    eapply vector_nth_ok; [exact Hv|exact Hj'|]. wp_step. split; [done|]. eexists. split; [done|].
    unfold element_at, Nth_Vector, bind, lift. cbn. by rewrite Ev, (sr_size _ _ Hr); cbn; rewrite (vector_read _ _ _ _ _ _ _ Hv Hj').
  - intros Hnew. rewrite decide_True by done. wp_step. split; [done|]. unfold find.
    rewrite (proj2 (list_find_None _ L)); [done|]. apply Forall_forall. intros p Hp E. apply Hnew. rewrite <-E. by apply list_elem_of_fmap_2.
Qed.

Lemma in_bucket_removes i a L : hash a ≠ i → in_bucket i (remove key a L) = in_bucket i L.
Proof.
  intros Hi. rewrite in_bucket_remove. apply filter_true. intros p [Hp _]%list_elem_of_filter E. congruence.
Qed.

(** Deleting leaves the number that [HashSetCount] returns as it was. *)
Lemma set_delete_ok h L e a s : plenty s → set_rep h L → owns (world s) L → names (world s) e a → a ∈ key_of <$> L →
  wp (HashSetDelete h e) (λ h' s', plenty s' ∧ set_rep h' (remove key a L) ∧ owns (world s') (remove key a L) ∧ size h' = size h) s.
Proof.
  intros Hs Hr Ho Hn Ha. pose proof (sr_keys _ _ Hr) as Hk. unfold HashSetDelete. code_step Hr a. bucket_step Hr a.
  eapply set_search_ok; [done|by eapply owned_readable|done..| |done].
  intros j p Hj E _. destruct (find_entry _ _ _ _ Hk Hj E) as (_ & i & Hi). pose proof (remove_perm key L i p Hk Hi) as Hperm. rewrite E in Hperm.
  assert (owns (world s) (p :: remove key a L)) as Ho' by (eapply el_perm; [exact Hperm|exact Ho]).
  destruct p as [x b]. destruct (el_free _ _ _ _ Ho') as (w & Hf & Ho2). wp_step.
  eapply wp_mono; [eapply vector_delete_ok; [exact Hv|by rewrite list_lookup_fmap, Hj|exact Hf]|]. intros v' s' [-> Hv'].
  apply put_vector_wp; [rewrite (sr_buckets _ _ Hr); lia|]. split_and!; [done| |done|done].
  eapply set_rep_put; [done|lia|by apply keys_remove| |intros; by rewrite in_bucket_removes].
  pose proof (remove_delete key _ j _ (in_bucket_keys _ _ Hk) Hj) as Er. rewrite E in Er. by rewrite in_bucket_remove, Er, list_fmap_delete.
Qed.

Lemma set_delete_missing h L e a s : set_rep h L → readable (world s) L → names (world s) e a → a ∉ key_of <$> L → HashSetDelete h e s = Err Panic.
Proof.
  intros Hr HL Hn Ha. destruct (set_rep_bucket _ _ (hash a) Hr) as (v & Ev & _ & Hv); [apply (el_range (ElemLaws := ElemLaws0))|].
  assert (wp (VectorSearch v e (comparefn h) 0 false) (λ r s', r = -1 ∧ s' = s) s) as (r & s' & Er & -> & ->)%wp_run by (eapply set_search_ok; done).
  unfold HashSetDelete. rewrite (bind_run _ _ _ (hash a) s) by (unfold ask; by rewrite (sr_hash _ _ Hr), (sr_num _ _ Hr), (el_hash _ _ _ Hn)).
  rewrite (bind_run _ _ _ v s) by (unfold Nth_Vector, lift; by rewrite Ev). by rewrite (bind_run _ _ _ _ _ Er).
Qed.

Lemma new_buckets_ok m s : plenty s → 2 * Z.of_nat n ≤ INT_MAX →
  wp (new_buckets m (Z.of_nat n) freef) (λ vs s', quiet s s' ∧ length vs = m ∧ ∀ v, v ∈ vs → vec_rep n 2 freef v []) s.
Proof.
  intros Hs Hint. revert s Hs. induction m as [|m IH]; intros s Hs; cbn [new_buckets].
  { wp_step. split_and!; [done..|]. intros v Hv. by apply elem_of_nil in Hv. }
  pose proof (el_pos (ElemLaws := ElemLaws0)). wp_step. eapply wp_mono; [by apply (vector_new_ok n 2)|]. intros v s1 [[Hw1 Hp1] Hv]. wp_step.
  eapply wp_mono; [by apply IH, Hp1|]. intros vs s2 ([Hw2 Hp2] & Hlen & Hvs). wp_step.
  split_and!; [split; [congruence|by intros; apply Hp2, Hp1]|by cbn; rewrite Hlen|]. intros u [->|Hu]%elem_of_cons; [done|by apply Hvs].
Qed.

Lemma set_new_ok s : plenty s → 2 * Z.of_nat n ≤ INT_MAX → 0 < k →
  wp (HashSetNew (Z.of_nat n) k hashf comparef freef) (λ h s', plenty s' ∧ world s' = world s ∧ set_rep h [] ∧ HashSetCount h = 0) s.
Proof.
  intros Hs Hint Hk. pose proof (el_pos (ElemLaws := ElemLaws0)). unfold HashSetNew. asserts. asserts. wp_step. apply answer_wp; [done|].
  intros junk s1 [Hw1 Hp1]. wp_step. eapply wp_lift; [done|]. wp_step. eapply wp_mono; [by apply new_buckets_ok, Hint; apply Hp1|].
  intros vs s2 ([Hw2 Hp2] & Hlen & Hvs). wp_step. split_and!; [by apply Hp2, Hp1|congruence| |done].
  split; try done; cbn; [lia| |apply NoDup_nil_2]. intros i v Hv. by apply Hvs, list_elem_of_lookup_2 with i.
Qed.

(** *** Disposing of a set frees each element once *)
Lemma freed_all_ok l L w : owns w (l ++ L) → ∃ w', freed_all freef (fst <$> l) w = Ret w' ∧ owns w' L.
Proof.
  revert w. induction l as [|[e a] l IH]; intros w Ho; [by exists w|]. destruct (el_free _ _ _ _ Ho) as (w' & Hf & Ho').
  destruct (IH _ Ho') as (w2 & E & Ho2). exists w2. split; [|done]. cbn. by rewrite Hf.
Qed.

Definition from_bucket (i : Z) L : list (list Z * A) := filter (λ p, i ≤ hash (key_of p)) L.

Lemma from_bucket_step i L : from_bucket i L ≡ₚ in_bucket i L ++ from_bucket (i + 1) L.
Proof.
  unfold from_bucket, in_bucket. induction L as [|p L IH]; [done|]. rewrite !filter_cons.
  destruct (decide (hash (key_of p) = i)), (decide (i ≤ hash (key_of p))), (decide (i + 1 ≤ hash (key_of p))); try lia; cbn; [by apply perm_skip| |done].
  etransitivity; [apply perm_skip, IH|]. apply Permutation_middle.
Qed.

Lemma set_dispose_ok h L s : plenty s → set_rep h L → owns (world s) L → wp (HashSetDispose h) (λ _ s', plenty s' ∧ owns (world s') []) s.
Proof.
  intros Hs Hr Ho. unfold HashSetDispose. rewrite take_ge by (rewrite (sr_num _ _ Hr), <-(sr_buckets _ _ Hr); lia).
  assert (owns (world s) (from_bucket 0 L)) as Ho0.
  { unfold from_bucket. rewrite filter_true; [done|]. intros p _. apply (el_range (ElemLaws := ElemLaws0)). }
  assert (∀ i v, buckets h !! i = Some v → vec_rep n 2 freef v (fst <$> in_bucket (0 + Z.of_nat i) L)) as Hvs by apply (sr_vectors _ _ Hr).
  assert (from_bucket (0 + Z.of_nat (length (buckets h))) L = []) as Hend.
  { apply elem_of_nil_inv. intros p [H _]%list_elem_of_filter. rewrite (sr_buckets _ _ Hr) in H. pose proof (el_range (ElemLaws := ElemLaws0) (key_of p)). lia. }
  revert Ho0 Hvs Hend. clear Ho Hr. generalize 0 as i. induction (buckets h) as [|v vs IH] in s, Hs |- *; intros i Ho Hvs Hend; cbn [dispose_buckets].
  - wp_step. split; [done|]. rewrite Z.add_0_r in Hend. by rewrite Hend in Ho.
  - assert (owns (world s) (in_bucket i L ++ from_bucket (i + 1) L)) as Ho' by (eapply el_perm; [apply from_bucket_step|exact Ho]).
    destruct (freed_all_ok _ _ _ Ho') as (w & Hf & Ho2). wp_step. pose proof (Hvs O v eq_refl) as Hv. rewrite Z.add_0_r in Hv.
    eapply vector_dispose_ok; [exact Hv|exact Hf|]. apply (IH (mkEnv (answers s) w) Hs (i + 1)); [done| |].
    + intros j u Hu. replace (i + 1 + Z.of_nat j) with (i + Z.of_nat (S j)) by lia. by apply Hvs.
    + cbn [length] in Hend. replace (i + 1 + Z.of_nat (length vs)) with (i + Z.of_nat (S (length vs))) by lia. done.
Qed.
End sets.
