(* ===== verification/ShellContext.v ===== *)
(** The tables of the shell: context.c of Project1, and the commands of
    functions_runner.c, fsh_alias.c, fsh_type.c and load_functions.c that use them, on
    the sets of Containers.

    Strings are objects in a heap; an element is the bytes of two pointers. *)
From S2P Require Import Prelude Tokenizer Parser Containers.
Local Open Scope Z_scope.

(** ** Strings in memory *)

(** The strings that malloc has given memory, and the addresses that it gives next. *)
Record heap := mkHeap { strings : gmap Z str; addresses : list Z }.
Definition set_strings (x : gmap Z str) (w : heap) : heap := mkHeap x (addresses w).

(** A pointer in memory. *)
Definition le64 (p : Z) : list Z := le32 p ++ le32 (p / 4294967296).
Definition unle64 (b : list Z) : Z := unle32 (take 4 b) + 4294967296 * unle32 (drop 4 b).
Definition valid_pointer (p : Z) : Prop := 0 < p < 18446744073709551616.
#[export] Instance valid_pointer_dec p : Decision (valid_pointer p).
Proof. unfold valid_pointer. apply _. Defined.

(** The least address that is not in use. *)
Definition first_free (w : heap) : Z := default 0 (head (filter (λ p, strings w !! p = None) (seqZ 1 (Z.of_nat (base.size (strings w)) + 1)))).
(** malloc may give any address that is not in use, or 0 if there is no memory. *)
Definition malloc_address (w : heap) : Z * heap :=
  match addresses w with
  | [] => (first_free w, w)
  | p :: l => (if decide (p = 0 ∨ (valid_pointer p ∧ strings w !! p = None)) then p else first_free w, mkHeap (strings w) l)
  end.
(** strdup and free.  [strdup] and [strlen] of what is no string are faults. *)
Definition strdup (s : str) (w : heap) : outcome (Z * heap) :=
  let '(p, w) := malloc_address w in Ret (p, if decide (p = 0) then w else set_strings (<[p := s]> (strings w)) w).
Definition free (p : Z) (w : heap) : outcome heap :=
  if decide (p = 0) then Ret w
  else match strings w !! p with Some _ => Ret (set_strings (delete p (strings w)) w) | None => Err Fault end.
Definition string_at (p : Z) (w : heap) : outcome str := or_fault (strings w !! p).

(** [( *(char ** ) (elem + o))] *)
Definition pointer_at (elem : list Z) (o : Z) : outcome Z := let* b := read_at elem o 8 in Ret (unle64 b).

(** ** context.c *)

(** ctype.h in the C locale; a [char] has a sign. *)
Definition tolower (c : Z) : Z := if decide (65 ≤ c ∧ c ≤ 90) then c + 32 else c.
Definition schar (c : Z) : Z := if decide (c < 128) then c else c - 256.

(** context.c 38-38 kHashMultiplier *)
Definition kHashMultiplier : Z := -1664117991.
Definition ULONG : Z := 18446744073709551616.

(** context.c 44-45 StringHash, the loop *)
Fixpoint hash_loop (s : str) (hashcode : Z) : Z :=
  match s with
  | [] => hashcode
  | c :: s => hash_loop s ((hashcode * kHashMultiplier + tolower (schar c)) mod ULONG)
  end.

(** context.c 39-47 StringHash *)
Definition StringHash : HashSetHashFunction heap := λ elem numBuckets w,
  let* p := pointer_at elem 0 in
  let* s := string_at p w in
  Ret (hash_loop s 0 mod numBuckets).

(** context.c 56-59 StringFree *)
Definition StringFree : VectorFreeFunction heap := λ str w, let* p := pointer_at str 0 in free p w.

(** context.c 50-53 StringPairFree *)
Definition StringPairFree : VectorFreeFunction heap := λ str w,
  let* w := StringFree str w in
  let* p := pointer_at str 8 in
  free p w.

(** strcasecmp of the C library *)
Fixpoint strcasecmp (a b : str) : Z :=
  match a, b with
  | [], [] => 0
  | [], y :: _ => 0 - tolower y
  | x :: _, [] => tolower x
  | x :: a, y :: b => if decide (tolower x = tolower y) then strcasecmp a b else tolower x - tolower y
  end.

(** context.c 62-65 StringCmp *)
Definition StringCmp : VectorCompareFunction heap := λ elemAddr1 elemAddr2 w,
  let* p := pointer_at elemAddr1 0 in
  let* q := pointer_at elemAddr2 0 in
  let* a := string_at p w in
  let* b := string_at q w in
  Ret (strcasecmp a b).

(** context.h 9-14 context *)
Record context := mkContext { aliases : hashset heap; variables : hashset heap; map : hashset heap; no_fork : bool }.
Definition set_aliases (x : hashset heap) (c : context) : context := mkContext x (variables c) (map c) (no_fork c).
Definition set_variables (x : hashset heap) (c : context) : context := mkContext (aliases c) x (map c) (no_fork c).
Definition set_map (x : hashset heap) (c : context) : context := mkContext (aliases c) (variables c) x (no_fork c).

(** A set in memory of its own, which is not checked for. *)
Definition new_set (freefn : VectorFreeFunction heap) : M (env heap) (hashset heap) :=
  let! a := answer in
  lift (or_fault a);;!
  HashSetNew 16 50 StringHash StringCmp (Some freefn).

(** context.c 7-29 context_init *)
Definition context_init : M (env heap) context :=
  let! map := new_set StringFree in
  let! aliases := new_set StringPairFree in
  let! variables := new_set StringPairFree in
  ret (mkContext aliases variables map false).

(** context.c 32-36 context_dispose *)
Definition context_dispose (c : context) : M (env heap) unit :=
  HashSetDispose (variables c);;!
  HashSetDispose (aliases c);;!
  HashSetDispose (map c).

(** ** Commands that change the tables *)

(** functions_runner.c 19-26 is_assign *)
Definition is_assign (s : str) : bool := bool_decide (61 ∈ s).

(** functions_runner.c 31-39 get_alias_name, the loop: None for a space, or the index of what follows.
    The buffer that is duplicated has no end if there is no [=]. *)
Fixpoint name_loop (token : str) (i : nat) : outcome (option nat) :=
  match token with
  | [] => Err Fault
  | c :: token =>
      if decide (c = 61) then if decide (i < 128)%nat then Ret (Some (S i)) else Err Fault
      else if decide (c = 32) then Ret None
      else if decide (i < 128)%nat then name_loop token (S i)
      else Err Fault
  end.

(** functions_runner.c 28-42 get_alias_name: the name, or null; and [*index] *)
Definition get_alias_name (token : str) : M (env heap) (Z * nat) :=
  let! i := lift (name_loop token 0) in
  match i with
  | None => ret (0, O)
  | Some i => let! p := call (strdup (take (pred i) token)) in ret (p, i)
  end.

(** functions_runner.c 44-57 get_alias_value, for the characters from [i] on *)
Definition get_alias_value (token : str) (i : nat) : M (env heap) Z :=
  let value := drop i token in
  match list_find (λ c, c = 32) value with
  | Some (k, _) => if decide (k ≤ 128)%nat then ret 0 else throw Fault
  | None => if decide (length value < 128)%nat then call (strdup value) else throw Fault
  end.

(** The two pointers that a set of pairs is given. *)
Definition pair_element (key value : Z) : list Z := le64 key ++ le64 value.

(** functions_runner.c 121-127 and 211-217 execute_command: the value behind [=], or the string that follows; None to return false *)
Definition value_of (token : str) (index : nat) (next : option token_t) : M (env heap) (option Z) :=
  if decide (index < length token)%nat then let! p := get_alias_value token index in ret (Some p)
  else
    match next with
    | None => ret None
    | Some t =>
        if decide (ttype t ≠ STRING ∨ last_char t ≠ 61) then ret None
        else let! p := call (strdup (tstring t)) in ret (Some p)
    end.

(** functions_runner.c 116-130 execute_command, an assignment.  It returns false, or nothing: the
    function ends there without a value. *)
Definition assign (command : list token_t) (c : context) : M (env heap) (option bool * context) :=
  match command with
  | [] => throw Fault
  | t :: rest =>
      let token := tstring t in
      let! ' (key, index) := get_alias_name token in
      if decide (key = 0) then ret (Some false, c)
      else
        let! value := value_of token index (head rest) in
        match value with
        | None => ret (Some false, c)
        | Some value =>
            let! vars := HashSetEnter (variables c) (pair_element key value) in
            ret (None, set_variables vars c)
        end
  end.

(** fsh_alias.c 29-33 add_to_aliases *)
Definition add_to_aliases (alias prog_name : Z) (c : context) : M (env heap) context :=
  let! set := HashSetEnter (aliases c) (pair_element alias prog_name) in ret (set_aliases set c).

(** fsh_alias.c 5-26 fsh_alias, for two arguments *)
Definition fsh_alias (alias prog_name : Z) (c : context) : M (env heap) (bool * context) :=
  let! a := ask (string_at alias) in
  if decide (a = []) then ret (false, c)
  else
    let! p := ask (string_at prog_name) in
    if decide (p = []) then ret (false, c)
    else
      let! a := call (strdup a) in
      let! p := call (strdup p) in
      let! c := add_to_aliases a p c in
      ret (true, c).

(** functions_runner.c 203-227 execute_command, the command [alias], without what it
    prints.  Its arguments are an array of their own, and the two strings are never freed. *)
Definition alias_command (command : list token_t) (c : context) : M (env heap) (bool * context) :=
  match tail command with
  | [] => ret (false, c)
  | t :: rest =>
      let token := tstring t in
      let! ' (alias, index) := get_alias_name token in
      if decide (alias = 0) then ret (false, c)
      else
        let! prog_name := value_of token index (head rest) in
        match prog_name with
        | None => ret (false, c)
        | Some prog_name =>
            if decide (prog_name = 0) then ret (false, c)
            else
              let! args := answer in
              lift (or_fault args);;!
              let! arguments := answer in
              lift (or_fault arguments);;!
              fsh_alias alias prog_name c
        end
  end.

(** ** Looking up *)

(** HashSetLookup of [&key], where [key] points to a string of the caller. *)
Definition lookup_key (h : hashset heap) (key : str) : M (env heap) (option (list Z)) := λ s,
  let w := world s in
  let p := first_free w in
  let s' := mkEnv (answers s) (set_strings (<[p := key]> (strings w)) w) in
  let* ' (r, _) := HashSetLookup h (le64 p) s' in
  match r with
  | None => Ret (None, s)
  | Some q => let* ' (e, _) := element_at h q s' in Ret (Some e, s)
  end.

(** fsh_type.c 44-50 look_up_hashset, without what it prints *)
Definition look_up_hashset (set : hashset heap) (cur_token : str) : M (env heap) bool :=
  let! r := lookup_key set cur_token in ret (bool_decide (is_Some r)).

(** functions_runner.c 279-285 searchFn: the address of a built-in function, or null *)
Definition searchFn (map : hashset heap) (name : str) : M (env heap) Z :=
  let! elem := lookup_key map name in
  match elem with
  | None => ret 0
  | Some e => lift (pointer_at e 8)
  end.

(** parser_util.c 144-147 replace_variables: the string that a key stands for *)
Definition lookup_value (h : hashset heap) (key : str) : M (env heap) (option str) :=
  let! r := lookup_key h key in
  match r with
  | None => ret None
  | Some e => let! p := lift (pointer_at e 8) in let! s := ask (string_at p) in ret (Some s)
  end.

(** ** The built-in functions *)
Inductive builtin := fsh_kill | fsh_nice | fsh_cd | fsh_pwd | fsh_echo | fsh_echo_export | fsh_info.

Section functions.
(** Where the functions are. *)
Context (address_of : builtin → Z).

(** load_functions.c 20-26 storeFuncIntoMap *)
Definition storeFuncIntoMap (map : hashset heap) (fname : str) (fn : builtin) : M (env heap) (hashset heap) :=
  let! carStr := call (strdup fname) in
  HashSetEnter map (pair_element carStr (address_of fn)).

(** load_functions.c 9-15 load_functions, the names *)
Definition functions : list (str * builtin) :=
  [([107; 105; 108; 108], fsh_kill); ([110; 105; 99; 101], fsh_nice); ([99; 100], fsh_cd); ([112; 119; 100], fsh_pwd);
   ([101; 99; 104; 111], fsh_echo); ([101; 120; 112; 111; 114; 116], fsh_echo_export); ([63], fsh_info)].

(** load_functions.c 9-15 load_functions, the calls one after the other *)
Fixpoint store_all (fs : list (str * builtin)) (map : hashset heap) : M (env heap) (hashset heap) :=
  match fs with
  | [] => ret map
  | (fname, fn) :: fs => let! map := storeFuncIntoMap map fname fn in store_all fs map
  end.
(** load_functions.c 7-18 load_functions *)
Definition load_functions (map : hashset heap) : M (env heap) (hashset heap) := store_all functions map.
End functions.
