(* ===== verification/ContextSpec.v ===== *)
(** What the tables of the shell promise: whatever is assigned, a variable and an alias
    stand for what they were given last, and the built-in functions are where they
    are, with names compared without regard to case. *)
From S2P Require Import Prelude Tokenizer Parser Containers ContainersSpec ShellContext.
Local Open Scope Z_scope.

(** ** Pointers in memory *)

Lemma length_le64 p : length (le64 p) = 8%nat.
Proof. done. Qed.

(** The bytes of the lower half. *)
Lemma mod_low p : le32 (p mod 4294967296) = le32 p.
Proof.
  unfold le32. set (q := p / 4294967296). pose proof (Z.div_mod p 4294967296 ltac:(lia)) as E. fold q in E.
  assert (∀ a b, 0 < a → 0 < b → 256 * a * b = 4294967296 → (p mod 4294967296) / a mod 256 = p / a mod 256) as H.
  { intros a b Ha Hb Hab. rewrite <-(Z.mod_add (p mod 4294967296 / a) (b * q) 256), <-Z.div_add by lia. do 2 f_equal.
    replace (b * q * 256 * a) with (256 * a * b * q) by ring. rewrite Hab. lia. }
  pose proof (H 1 16777216). pose proof (H 256 65536). pose proof (H 65536 256). pose proof (H 16777216 1). rewrite !Z.div_1_r in *. f_equal; [lia|]. f_equal; [lia|]. f_equal; [lia|]. f_equal. lia.
Qed.

Lemma unle64_le64 p : 0 ≤ p < ULONG → unle64 (le64 p) = p.
Proof.
  unfold ULONG. intros Hp. unfold unle64, le64. rewrite take_app_ge, drop_app_ge by (rewrite le32_length; lia).
  rewrite le32_length. cbn [Nat.sub take drop]. rewrite app_nil_r.
  rewrite <-(mod_low p). pose proof (Z.mod_pos_bound p 4294967296 ltac:(lia)). assert (0 ≤ p / 4294967296 < 4294967296) by (split; [apply Z.div_pos|apply Z.div_lt_upper_bound]; lia).
  rewrite drop_0, !unle32_le32 by lia. pose proof (Z.div_mod p 4294967296 ltac:(lia)). lia.
Qed.

Lemma pointer_at_0 p r : 0 ≤ p < ULONG → pointer_at (le64 p ++ r) 0 = Ret p.
Proof. intros Hp. unfold pointer_at. rewrite (read_middle [] (le64 p) r) by done. cbn [obind]. by rewrite unle64_le64. Qed.

Lemma pointer_at_8 p q : 0 ≤ q < ULONG → pointer_at (le64 p ++ le64 q) 8 = Ret q.
Proof.
  intros Hq. unfold pointer_at. rewrite <-(app_nil_r (le64 q)), (read_middle (le64 p) (le64 q) []) by done. cbn [obind]. by rewrite unle64_le64.
Qed.

Lemma valid_range p : valid_pointer p → 0 ≤ p < ULONG.
Proof. unfold valid_pointer, ULONG. lia. Qed.

(** ** Allocation *)

(** [n] more strings find memory. *)
Definition room (n : Z) (w : heap) : Prop := Forall (λ p, p ≠ 0) (addresses w) ∧ Z.of_nat (base.size (strings w)) + n < ULONG - 1.

Lemma first_free_ok w : Z.of_nat (base.size (strings w)) < ULONG - 1 → valid_pointer (first_free w) ∧ strings w !! first_free w = None.
Proof.
  intros Hw. unfold first_free. set (l := filter _ _). destruct (head l) as [p|] eqn:El; cbn.
  - assert (p ∈ l) as [Hp Hin]%list_elem_of_filter by (destruct l as [|x l]; [done|]; injection El as ->; left).
    apply elem_of_seqZ in Hin. unfold valid_pointer, ULONG in *. split; [lia|done].
  - exfalso. assert (list_to_set (seqZ 1 (Z.of_nat (base.size (strings w)) + 1)) ⊆ dom (strings w)) as Hsub.
    { intros p Hp%elem_of_list_to_set. apply elem_of_dom. destruct (strings w !! p) eqn:E; [by eexists|].
      assert (p ∈ l) as Hin by (by apply list_elem_of_filter). destruct l; [by apply elem_of_nil in Hin|done]. }
    apply subseteq_size in Hsub. rewrite size_list_to_set, length_seqZ, size_dom in Hsub by apply NoDup_seqZ. lia.
Qed.

Lemma strdup_run_ok n s w : 0 ≤ n → room (n + 1) w →
  ∃ p w', strdup s w = Ret (p, w') ∧ valid_pointer p ∧ strings w !! p = None ∧ strings w' = <[p := s]> (strings w) ∧ room n w'.
Proof.
  intros Hn [Ha Hsize]. destruct (first_free_ok w) as [Hv Hf]; [lia|].
  assert (∃ p l, malloc_address w = (p, mkHeap (strings w) l) ∧ valid_pointer p ∧ strings w !! p = None ∧ Forall (λ p, p ≠ 0) l) as (p & l & Em & Hp & Hfree & Hl).
  { unfold malloc_address. destruct w as [m [|q l]]; cbn in *; [by exists (first_free (mkHeap m [])), []|]. apply Forall_cons in Ha as [Hq Hl].
    case_decide as Hd; [destruct Hd as [|[]]; [done|by exists q, l]|]. by exists (first_free (mkHeap m (q :: l))), l. }
  unfold strdup. rewrite Em. exists p, (set_strings (<[p := s]> (strings w)) (mkHeap (strings w) l)).
  rewrite decide_False by (unfold valid_pointer in Hp; lia). split_and!; [done..|]. split; [done|]. cbn. rewrite map_size_insert_None by done. lia.
Qed.

Lemma free_string_ok n p s w : strings w !! p = Some s → valid_pointer p → room n w → ∃ w', free p w = Ret w' ∧ strings w' = delete p (strings w) ∧ room n w'.
Proof.
  intros Hp Hv [Ha Hsize]. unfold free. rewrite decide_False by (unfold valid_pointer in Hv; lia). rewrite Hp. eexists. split_and!; [done..|].
  split; [done|]. cbn. rewrite map_size_delete_Some by by eexists. lia.
Qed.

Lemma room_weaken n m w : m ≤ n → room n w → room m w.
Proof. intros ? []. split; [done|lia]. Qed.

(** ** Names *)

Definition lower (s : str) : str := tolower <$> s.
Definition chars (s : str) : Prop := Forall (λ c, 0 < c < 256) s.

(** The bucket of a name. *)
Definition name_hash (a : str) : Z := hash_loop a 0 mod 50.

Lemma tolower_idem c : tolower (tolower c) = tolower c.
Proof. unfold tolower. repeat case_decide; lia. Qed.

Lemma schar_lower c : 0 < c < 256 → tolower (schar (tolower c)) = tolower (schar c).
Proof. intros Hc. unfold tolower, schar. repeat case_decide; lia. Qed.

Lemma hash_lower s h : chars s → hash_loop (lower s) h = hash_loop s h.
Proof.
  intros Hs. revert h. induction Hs as [|c s Hc Hs IH]; intros h; [done|]. cbn. by rewrite schar_lower, IH.
Qed.

Lemma strcasecmp_lower a b : chars a → chars b → strcasecmp a b = 0 ↔ lower a = lower b.
Proof.
  assert (∀ c, 0 < c → 0 < tolower c) as Hpos by (intros; unfold tolower; case_decide; lia).
  intros Ha. revert b. induction Ha as [|x a Hx Ha IH]; intros [|y b] Hb; try done.
  - apply Forall_cons in Hb as [Hy Hb]. pose proof (Hpos y). cbn. split; [lia|done].
  - pose proof (Hpos x). cbn. split; [lia|done].
  - apply Forall_cons in Hb as [Hy Hb]. change (lower (x :: a)) with (tolower x :: lower a). change (lower (y :: b)) with (tolower y :: lower b).
    cbn [strcasecmp]. case_decide as E.
    + rewrite IH by done. rewrite E. split; [by intros ->|by injection 1].
    + split; [lia|]. injection 1 as ?. congruence.
Qed.

(** ** Entries

    An entry of a table: a name, and the string or the function that it stands for. *)
Abbreviation entry := (str * (str + Z))%type.
Implicit Types (w : heap) (L F : list (list Z * entry)).

Definition name_of (x : entry) : str := lower (fst x).
Definition is_string (p : list Z * entry) : bool := match snd (snd p) with inl _ => true | inr _ => false end.

(** The strings that an entry owns. *)
Definition pointers (p : list Z * entry) : list Z :=
  unle64 (take 8 (fst p)) :: if is_string p then [unle64 (drop 8 (fst p))] else [].

Definition entry_ok w (p : list Z * entry) : Prop :=
  ∃ a b, fst p = pair_element a b ∧ valid_pointer a ∧ valid_pointer b ∧ strings w !! a = Some (fst (snd p)) ∧ chars (fst (snd p)) ∧
    match snd (snd p) with inl v => strings w !! b = Some v | inr f => b = f end.

(** The entries are in memory, and no two of them own the same string. *)
Definition owns w L : Prop := Forall (entry_ok w) L ∧ NoDup (L ≫= pointers).

(** The table has the entries [L], all of one kind; [F] are those of the other tables,
    and [n] more strings find memory. *)
Definition owns_in (kind : bool) F (n : Z) w L : Prop := Forall (λ p, is_string p = kind) L ∧ owns w (L ++ F) ∧ room n w.

Definition named w (e : list Z) (a : str) : Prop :=
  ∃ p r s, e = le64 p ++ r ∧ valid_pointer p ∧ strings w !! p = Some s ∧ chars s ∧ lower s = a.

Lemma take_le64 a r : take 8 (le64 a ++ r) = le64 a.
Proof. done. Qed.
Lemma drop_le64 a r : drop 8 (le64 a ++ r) = r.
Proof. done. Qed.

Lemma pointers_pair a b x : valid_pointer a → valid_pointer b →
  pointers (pair_element a b, x) = a :: match snd x with inl _ => [b] | inr _ => [] end.
Proof.
  intros Ha%valid_range Hb%valid_range. unfold pointers, pair_element, is_string. cbn [fst snd]. rewrite take_le64, drop_le64, !unle64_le64 by done. by destruct (snd x).
Qed.

(** Only the strings that are owned matter. *)
Lemma owns_change w w' L : (∀ r, r ∈ L ≫= pointers → strings w' !! r = strings w !! r) → owns w L → owns w' L.
Proof.
  intros Hs [Hok Hnd]. split; [|done]. rewrite Forall_forall in Hok |- *. intros [e x] Hp.
  destruct (Hok _ Hp) as (a & b & E & Ha & Hb & Hn & Hc & Hv). cbn [fst snd] in *. subst e.
  assert (∀ r, r ∈ pointers (pair_element a b, x) → strings w' !! r = strings w !! r) as Hsame by (intros r Hr; apply Hs, list_elem_of_bind; by eexists).
  rewrite pointers_pair in Hsame by done. exists a, b. cbn. split_and!; try done; [by rewrite Hsame by left|].
  destruct (snd x); [|done]. by rewrite Hsame by (right; left).
Qed.

Lemma owns_perm w L L' : L ≡ₚ L' → owns w L → owns w L'.
Proof. intros HL [Hok Hnd]. split; [by rewrite <-HL|]. eapply NoDup_Permutation_proper; [|exact Hnd]. symmetry. by apply bind_Permutation. Qed.

Lemma owns_cons w p L : owns w (p :: L) → entry_ok w p ∧ owns w L ∧ (∀ r, r ∈ pointers p → r ∉ L ≫= pointers) ∧ NoDup (pointers p).
Proof. intros [[Hp HL]%Forall_cons (H1 & H2 & H3)%NoDup_app]. done. Qed.

Lemma free_other n w a s L : room n w → valid_pointer a → strings w !! a = Some s → owns w L → a ∉ L ≫= pointers →
  ∃ w', free a w = Ret w' ∧ strings w' = delete a (strings w) ∧ owns w' L ∧ room n w'.
Proof.
  intros Hr Ha Hs HL Hout. destruct (free_string_ok n a s w Hs Ha Hr) as (w' & E & Es & Hr'). exists w'. split_and!; try done.
  eapply owns_change; [|exact HL]. intros r Hin. rewrite Es, lookup_delete_ne; [done|]. by intros ->.
Qed.

(** The functions of the tables do what sets need. *)
Lemma named_entry w L e x : owns w L → (e, x) ∈ L → length e = 16%nat ∧ named w e (name_of x).
Proof.
  intros [Hok _] Hp. rewrite Forall_forall in Hok. destruct (Hok _ Hp) as (a & b & E & Ha & Hb & Hn & Hc & _). cbn [fst snd] in E. subst e.
  split; [done|]. exists a, (le64 b), (fst x). done.
Qed.

Lemma named_hash w e a : named w e a → StringHash e 50 w = Ret (name_hash a).
Proof.
  intros (p & r & s & -> & Hp & Hs & Hc & <-). unfold StringHash. rewrite pointer_at_0 by by apply valid_range. cbn [obind]. unfold string_at. rewrite Hs.
  cbn [or_fault obind]. unfold name_hash. by rewrite hash_lower.
Qed.

Lemma named_compare w e a e' b : named w e a → named w e' b → ∃ c, StringCmp e e' w = Ret c ∧ (c = 0 ↔ a = b).
Proof.
  intros (p & r & s & -> & Hp & Hs & Hc & <-) (q & r' & t & -> & Hq & Ht & Hd & <-). unfold StringCmp.
  rewrite !pointer_at_0 by by apply valid_range. cbn [obind]. unfold string_at. rewrite Hs, Ht. cbn [or_fault obind].
  eexists. split; [done|]. by apply strcasecmp_lower.
Qed.

Lemma owns_in_perm kind F n w L L' : L ≡ₚ L' → owns_in kind F n w L → owns_in kind F n w L'.
Proof. intros HL (Hk & Ho & Hr). split_and!; [by rewrite <-HL| |done]. eapply owns_perm; [|exact Ho]. by rewrite HL. Qed.

Lemma owns_in_named kind F n w L e x : owns_in kind F n w L → (e, x) ∈ L → length e = 16%nat ∧ named w e (name_of x).
Proof. intros (_ & Ho & _) Hp. eapply named_entry; [exact Ho|]. apply elem_of_app. by left. Qed.

Lemma pair_free F n w e x L : owns_in true F n w ((e, x) :: L) → ∃ w', StringPairFree e w = Ret w' ∧ owns_in true F n w' L.
Proof.
  intros ([Hk HL]%Forall_cons & Ho & Hr). cbn [app] in Ho. apply owns_cons in Ho as ((a & b & E & Ha & Hb & Hn & _ & Hv) & Ho & Hout & Hnd). cbn [fst snd] in E, Hn, Hv, Hk. subst e.
  rewrite pointers_pair in Hout, Hnd by done. unfold is_string in Hk. cbn [fst snd] in Hk. destruct (snd x) as [v|]; [|done].
  assert (a ≠ b) as Hab by (intros ->; apply NoDup_cons in Hnd as [Hin _]; apply Hin; left).
  destruct (free_other n w a _ _ Hr Ha Hn Ho) as (w1 & E1 & Es1 & Ho1 & Hr1); [apply Hout; left|].
  destruct (free_other n w1 b v (L ++ F) Hr1 Hb) as (w2 & E2 & Es2 & Ho2 & Hr2); [by rewrite Es1, lookup_delete_ne|done|apply Hout; right; left|].
  exists w2. split; [|done]. unfold StringPairFree, StringFree, pair_element. rewrite pointer_at_0 by by apply valid_range. cbn [obind]. rewrite E1. cbn [obind].
  by rewrite pointer_at_8 by by apply valid_range.
Qed.

Lemma name_free F n w e x L : owns_in false F n w ((e, x) :: L) → ∃ w', StringFree e w = Ret w' ∧ owns_in false F n w' L.
Proof.
  intros ([Hk HL]%Forall_cons & Ho & Hr). cbn [app] in Ho. apply owns_cons in Ho as ((a & b & E & Ha & Hb & Hn & _ & Hv) & Ho & Hout & Hnd). cbn [fst snd] in E, Hn, Hv, Hk. subst e.
  rewrite pointers_pair in Hout by done. destruct (free_other n w a _ _ Hr Ha Hn Ho) as (w1 & E1 & Es1 & Ho1 & Hr1); [apply Hout; left|].
  exists w1. split; [|done]. unfold StringFree, pair_element. by rewrite pointer_at_0 by by apply valid_range.
Qed.

Lemma name_hash_range a : 0 ≤ name_hash a < 50.
Proof. by apply Z.mod_pos_bound. Qed.

#[export] Instance pair_laws F n : ElemLaws 16 50 name_of name_hash StringHash StringCmp (Some StringPairFree) named (owns_in true F n).
Proof.
  split; [lia|apply name_hash_range|apply named_hash|apply named_compare|apply owns_in_perm|apply owns_in_named|apply pair_free].
Qed.

#[export] Instance function_laws F n : ElemLaws 16 50 name_of name_hash StringHash StringCmp (Some StringFree) named (owns_in false F n).
Proof.
  split; [lia|apply name_hash_range|apply named_hash|apply named_compare|apply owns_in_perm|apply owns_in_named|apply name_free].
Qed.

(** ** New strings *)

Lemma owned_in_dom w L r : owns w L → r ∈ L ≫= pointers → strings w !! r ≠ None.
Proof.
  intros [Hok _] (p & Hr & Hp)%list_elem_of_bind. rewrite Forall_forall in Hok. destruct (Hok _ Hp) as (a & b & E & Ha & Hb & Hn & _ & Hv).
  destruct p as [e x]. cbn [fst snd] in *. subst e. rewrite pointers_pair in Hr by done. destruct (snd x).
  - apply elem_of_cons in Hr as [->|Hr]; [by rewrite Hn|]. apply list_elem_of_singleton in Hr as ->. by rewrite Hv.
  - apply list_elem_of_singleton in Hr as ->. by rewrite Hn.
Qed.

(** [p] is the address of a new string, which no entry owns. *)
Definition new_string w L (p : Z) (s : str) : Prop := valid_pointer p ∧ strings w !! p = Some s ∧ p ∉ L ≫= pointers.

Lemma strdup_new n s w L : 0 ≤ n → room (n + 1) w → owns w L →
  ∃ p w', strdup s w = Ret (p, w') ∧ new_string w' L p s ∧ owns w' L ∧ room n w' ∧
    strings w !! p = None ∧ ∀ q t, strings w !! q = Some t → strings w' !! q = Some t.
Proof.
  intros Hn Hr Ho. destruct (strdup_run_ok n s w Hn Hr) as (p & w' & E & Hv & Hf & Es & Hr'). exists p, w'.
  assert (p ∉ L ≫= pointers) as Hout by (intros Hin; by apply (owned_in_dom _ _ _ Ho Hin)).
  assert (∀ q t, strings w !! q = Some t → strings w' !! q = Some t) as Hold by (intros q t Hq; rewrite Es, lookup_insert_ne; [done|congruence]).
  split_and!; try done.
  - split_and!; [done|by rewrite Es, lookup_insert_eq|done].
  - eapply owns_change; [|exact Ho]. intros r Hr2. rewrite Es, lookup_insert_ne; [done|]. by intros ->.
Qed.

Lemma new_string_keep w w' L p s : new_string w L p s → (∀ q t, strings w !! q = Some t → strings w' !! q = Some t) → new_string w' L p s.
Proof. intros (Hv & Hs & Hout) Hk. split_and!; [done|by apply Hk|done]. Qed.

(** A pair of new strings is an entry of its own. *)
Lemma owns_pair w L a b s t : owns w L → new_string w L a s → new_string w L b t → a ≠ b → chars s → owns w ((pair_element a b, (s, inl t)) :: L).
Proof.
  intros [Hok Hnd] (Ha & Hs & Hao) (Hb & Ht & Hbo) Hab Hc. split.
  - apply Forall_cons. split; [|done]. exists a, b. done.
  - rewrite bind_cons, pointers_pair by done. cbn [snd app]. apply NoDup_cons. split; [by intros [?|?]%elem_of_cons|]. by apply NoDup_cons.
Qed.

Lemma owns_function w L a f s : owns w L → new_string w L a s → valid_pointer f → chars s → owns w ((pair_element a f, (s, inr f)) :: L).
Proof.
  intros [Hok Hnd] (Ha & Hs & Hao) Hf Hc. split.
  - apply Forall_cons. split; [|done]. exists a, f. done.
  - rewrite bind_cons, pointers_pair by done. cbn [snd app]. by apply NoDup_cons.
Qed.

(** ** Assignments *)

(** The name and the value that a token assigns; the value may be a quoted string
    that follows. *)
Definition assigned (t : token_t) (next : option token_t) : option (str * str) :=
  match list_find (λ c, c = 61) (tstring t) with
  | None => None
  | Some (i, _) =>
      let name := take i (tstring t) in
      let rest := drop (S i) (tstring t) in
      if decide (32 ∈ name ∨ (128 ≤ length name)%nat) then None
      else if decide (rest = []) then
        match next with
        | Some u => if decide (ttype u = STRING ∧ last_char u = 61) then Some (name, tstring u) else None
        | None => None
        end
      else if decide (32 ∈ rest ∨ (128 ≤ length rest)%nat) then None else Some (name, rest)
  end.

Lemma name_loop_ok name rest i : 61 ∉ name → 32 ∉ name → (i + length name < 128)%nat →
  name_loop (name ++ 61 :: rest) i = Ret (Some (S (i + length name))).
Proof.
  revert i. induction name as [|c name IH]; intros i H61 H32 Hi; cbn in *.
  - rewrite (decide_True _ _ eq_refl), decide_True by lia. by rewrite Nat.add_0_r.
  - apply not_elem_of_cons in H61 as [? ?], H32 as [? ?]. rewrite !decide_False by done. rewrite decide_True by lia. rewrite IH by (done || lia). do 2 f_equal. lia.
Qed.

(** The parts of an assignment. *)
Lemma assigned_parts t next name value : assigned t next = Some (name, value) → ∃ rest, tstring t = name ++ 61 :: rest ∧
  (61 ∉ name) ∧ (32 ∉ name) ∧ (length name < 128)%nat ∧
  ((rest = [] ∧ (∃ u, next = Some u ∧ ttype u = STRING ∧ last_char u = 61 ∧ value = tstring u)) ∨
   (rest ≠ [] ∧ (32 ∉ rest) ∧ (length rest < 128)%nat ∧ value = rest)).
Proof.
  unfold assigned. destruct (list_find _ (tstring t)) as [[i c]|] eqn:Ef; [|done]. apply list_find_Some in Ef as (Hi & -> & Hbefore).
  pose proof (lookup_lt_Some _ _ _ Hi). destruct (decide (32 ∈ take i (tstring t) ∨ _)) as [|Hname]; [done|]. intros Ha.
  exists (drop (S i) (tstring t)). assert (name = take i (tstring t)) as ->.
  { case_decide; [destruct next as [u|]; [case_decide|]|case_decide]; simplify_eq; reflexivity. }
  split_and!; [by rewrite take_drop_middle| |tauto|lia|].
  - intros [j Hj]%list_elem_of_lookup. pose proof (lookup_lt_Some _ _ _ Hj) as Hlt. rewrite length_take in Hlt.
    rewrite lookup_take_lt in Hj by lia. apply (Hbefore j 61); [done|lia|done].
  - case_decide as Hr; [left|right].
    + split; [done|]. destruct next as [u|]; [|done]. case_decide as Hu; [|done]. destruct Hu. exists u. by simplify_eq.
    + case_decide as Hr2; [done|]. simplify_eq. split_and!; [done|tauto|lia|done].
Qed.

Lemma call_wp {W A} (f : W → outcome (A * W)) (a : A) (w : W) (Q : A → env W → Prop) s : f (Containers.world s) = Ret (a, w) → Q a (mkEnv (Containers.answers s) w) → wp (call f) Q s.
Proof. intros E HQ. unfold wp, call. by rewrite E. Qed.

Lemma ask_wp {W A} (f : W → outcome A) (a : A) (Q : A → env W → Prop) s : f (Containers.world s) = Ret a → Q a s → wp (ask f) Q s.
Proof. intros E HQ. unfold wp, ask. by rewrite E. Qed.

(** The heap and the answers between two steps: the entries [L] are in memory, and
    there is room for [n] more strings. *)
Record calm (n : Z) L (s : env heap) : Prop := {
  ca_owns : owns (Containers.world s) L;
  ca_room : room n (Containers.world s);
  ca_plenty : plenty s;
}.

(** What was in memory is still there. *)
Definition kept (s s' : env heap) : Prop := ∀ q t, strings (Containers.world s) !! q = Some t → strings (Containers.world s') !! q = Some t.

Lemma strdup_wp n L t (Q : Z → env heap → Prop) s : 0 ≤ n → calm (n + 1) L s →
  (∀ p s', new_string (Containers.world s') L p t → calm n L s' → strings (Containers.world s) !! p = None → kept s s' → Q p s') → wp (call (strdup t)) Q s.
Proof.
  intros Hn [Ho Hr Hp] HQ. destruct (strdup_new n t _ L Hn Hr Ho) as (p & w & E & Hnew & Ho' & Hr' & Hf & Hk).
  eapply call_wp; [exact E|]. by apply HQ.
Qed.

Lemma get_alias_name_ok n L t next name value (Q : Z * nat → env heap → Prop) s : 0 ≤ n → calm (n + 1) L s → assigned t next = Some (name, value) →
  (∀ p s', new_string (Containers.world s') L p name → calm n L s' → strings (Containers.world s) !! p = None → kept s s' → Q (p, S (length name)) s') →
  wp (get_alias_name (tstring t)) Q s.
Proof.
  intros Hn Hs (rest & -> & H61 & H32 & Hlen & _)%assigned_parts HQ. unfold get_alias_name. wp_step. eapply wp_lift; [by apply name_loop_ok|]. cbn [plus pred]. wp_step.
  rewrite take_app_length. eapply strdup_wp; [done..|]. intros p s' H1 H2 H3 H4. wp_step. by apply HQ.
Qed.

Lemma value_of_ok n L t next name value (Q : option Z → env heap → Prop) s : 0 ≤ n → calm (n + 1) L s → assigned t next = Some (name, value) →
  (∀ p s', new_string (Containers.world s') L p value → calm n L s' → strings (Containers.world s) !! p = None → kept s s' → Q (Some p) s') →
  wp (value_of (tstring t) (S (length name)) next) Q s.
Proof.
  intros Hn Hs (rest & -> & H61 & H32 & Hlen & Hval)%assigned_parts HQ. unfold value_of. rewrite length_app. cbn [length].
  destruct Hval as [(-> & u & -> & Hu & Hc & ->)|(Hne & Hsp & Hl & ->)].
  - rewrite decide_False by (cbn; lia). rewrite decide_False by naive_solver. wp_step. eapply strdup_wp; [done..|]. intros p s' H1 H2 H3 H4. wp_step. by apply HQ.
  - rewrite decide_True by (destruct rest; cbn; [done|lia]). wp_step. unfold get_alias_value.
    replace (drop (S (length name)) (name ++ 61 :: rest)) with rest by (rewrite cons_middle, app_assoc, drop_app_ge by (rewrite length_app; cbn; lia); rewrite length_app, Nat.add_comm; cbn; by rewrite Nat.sub_diag).
    rewrite (proj2 (list_find_None _ rest)) by (apply Forall_forall; intros c Hc ->; done). rewrite decide_True by done.
    eapply strdup_wp; [done..|]. intros p s' H1 H2 H3 H4. wp_step. by apply HQ.
Qed.

(** *** Tables of pairs *)
Abbreviation pair_set := (set_rep 16 50 name_of name_hash StringHash StringCmp (Some StringPairFree)).
Abbreviation function_set := (set_rep 16 50 name_of name_hash StringHash StringCmp (Some StringFree)).
Abbreviation put := (enter name_of).

(** The table has at most [m] entries, and was entered at most [m] times. *)
Definition few (m : Z) (h : hashset heap) L : Prop := 0 ≤ size h ≤ m ∧ Z.of_nat (length L) ≤ m.

Lemma few_enter m (h h' : hashset heap) L x : few (m - 1) h L → 0 ≤ size h' - size h ≤ 1 → few m h' (put x L).
Proof.
  intros [? ?] ?. split; [lia|]. unfold enter. case_decide; [rewrite length_fmap; lia|]. rewrite length_app. cbn. lia.
Qed.

Lemma enter_pair_ok n m L F h a b s t st : calm n (L ++ F) st → pair_set h L → Forall (λ p, is_string p = true) L → few m h L → m ≤ 100000000 →
  new_string (Containers.world st) (L ++ F) a s → new_string (Containers.world st) (L ++ F) b t → a ≠ b → chars s →
  wp (HashSetEnter h (pair_element a b)) (λ h' st', calm n (put (pair_element a b, (s, inl t)) L ++ F) st' ∧
    pair_set h' (put (pair_element a b, (s, inl t)) L) ∧ Forall (λ p, is_string p = true) (put (pair_element a b, (s, inl t)) L) ∧ 0 ≤ size h' - size h ≤ 1) st.
Proof.
  intros [Ho Hr Hp] Hset Hk [? ?] Hm Ha Hb Hab Hs. set (x := (pair_element a b, (s, inl t)) : list Z * entry).
  assert (owns_in true F n (Containers.world st) (x :: L)) as Hx.
  { split_and!; [by apply Forall_cons|by apply owns_pair|done]. }
  eapply wp_mono; [apply (set_enter_ok 16 50 name_of name_hash StringHash StringCmp (Some StringPairFree) named (owns_in true F n) h L x st); [done|exact Hset|exact Hx|unfold INT_MAX; lia|unfold INT_MAX; lia]|].
  intros h' st' (Hp' & Hset' & (Hk' & Ho' & Hr') & Hsize). split_and!; [by split|done..| |]; rewrite Hsize; case_decide; lia.
Qed.

Lemma enter_function_ok n m L F h a f s st : calm n (L ++ F) st → function_set h L → Forall (λ p, is_string p = false) L → few m h L → m ≤ 100000000 →
  new_string (Containers.world st) (L ++ F) a s → valid_pointer f → chars s →
  wp (HashSetEnter h (pair_element a f)) (λ h' st', calm n (put (pair_element a f, (s, inr f)) L ++ F) st' ∧
    function_set h' (put (pair_element a f, (s, inr f)) L) ∧ Forall (λ p, is_string p = false) (put (pair_element a f, (s, inr f)) L) ∧ 0 ≤ size h' - size h ≤ 1) st.
Proof.
  intros [Ho Hr Hp] Hset Hk [? ?] Hm Ha Hf Hs. set (x := (pair_element a f, (s, inr f)) : list Z * entry).
  assert (owns_in false F n (Containers.world st) (x :: L)) as Hx.
  { split_and!; [by apply Forall_cons|by apply owns_function|done]. }
  eapply wp_mono; [apply (set_enter_ok 16 50 name_of name_hash StringHash StringCmp (Some StringFree) named (owns_in false F n) h L x st); [done|exact Hset|exact Hx|unfold INT_MAX; lia|unfold INT_MAX; lia]|].
  intros h' st' (Hp' & Hset' & (Hk' & Ho' & Hr') & Hsize). split_and!; [by split|done..| |]; rewrite Hsize; case_decide; lia.
Qed.

(** ** The context *)

(** The tables have the entries [V], [A] and [N]; there is room for [n] more
    strings, and at most [m] entries were made. *)
Record context_rep (n m : Z) (c : context) (V A N : list (list Z * entry)) (s : env heap) : Prop := {
  cr_calm : calm n (V ++ A ++ N) s;
  cr_variables : pair_set (variables c) V;
  cr_aliases : pair_set (aliases c) A;
  cr_map : function_set (map c) N;
  cr_kinds : Forall (λ p, is_string p = true) V ∧ Forall (λ p, is_string p = true) A ∧ Forall (λ p, is_string p = false) N;
  cr_few : few m (variables c) V ∧ few m (aliases c) A ∧ few m (map c) N;
}.

Lemma calm_perm n L L' s : L ≡ₚ L' → calm n L s → calm n L' s.
Proof. intros HL []. split; [by eapply owns_perm|done..]. Qed.

Lemma perm_aliases {B} (V A N : list B) : V ++ A ++ N ≡ₚ A ++ V ++ N.
Proof. rewrite !app_assoc. by rewrite (Permutation_app_comm V A). Qed.

Lemma perm_map {B} (V A N : list B) : V ++ A ++ N ≡ₚ N ++ V ++ A.
Proof. rewrite app_assoc. apply Permutation_app_comm. Qed.

Lemma calm_weaken n k L s : k ≤ n → calm n L s → calm k L s.
Proof. intros Hk []. split; [done|by eapply room_weaken|done]. Qed.

Lemma few_weaken m k (h : hashset heap) L : m ≤ k → few m h L → few k h L.
Proof. intros ? [? ?]. split; lia. Qed.

(** What the entries of a table say: the string, or the function, of a name. *)
Definition text (p : list Z * entry) : option str := match snd (snd p) with inl v => Some v | inr _ => None end.
Definition code (p : list Z * entry) : option Z := match snd (snd p) with inl _ => None | inr f => Some f end.
Definition says {B} (f : list Z * entry → option B) L (m : gmap str B) : Prop := ∀ a, find name_of a L ≫= f = m !! a.

Lemma says_put {B} (f : list Z * entry → option B) L m x b : says f L m → f x = Some b → says f (put x L) (<[name_of (snd x) := b]> m).
Proof.
  intros Hm Hx a. rewrite find_enter. unfold key_of. case_decide as Ha; [subst a; by rewrite lookup_insert_eq|].
  by rewrite lookup_insert_ne by (symmetry; done).
Qed.

(** *** Assignments and aliases *)

(** The maps that an assignment leaves. *)
Lemma assign_ok n m c V A N t rest name value mv s : 0 ≤ n → m ≤ 100000000 → context_rep (n + 2) (m - 1) c V A N s →
  assigned t (head rest) = Some (name, value) → chars name → says text V mv →
  wp (assign (t :: rest) c) (λ '(r, c') s', r = None ∧ ∃ V', context_rep n m c' V' A N s' ∧ says text V' (<[lower name := value]> mv)) s.
Proof.
  intros Hn Hm Hc Has Hname Hmv. unfold assign. pose proof Hc as [Hcalm Hv Ha Hf (KV & KA & KN) (FV & FA & FN)]. wp_step.
  eapply (get_alias_name_ok (n + 1)); [lia|by replace (n + 1 + 1) with (n + 2) by lia|done|]. intros a s1 Hnew1 Hcalm1 _ _.
  rewrite decide_False by (destruct Hnew1 as [Hva _]; unfold valid_pointer in Hva; lia). wp_step.
  eapply (value_of_ok n); [done..|]. intros b s2 Hnew2 Hcalm2 Hf2 Hk2. wp_step.
  assert (a ≠ b) as Hab by (intros ->; destruct Hnew1 as (_ & Hs1 & _); congruence).
  eapply wp_mono; [eapply (enter_pair_ok n (m - 1) V (A ++ N)); [done..|lia|by eapply new_string_keep|done|done|done]|].
  intros h' s3 (Hcalm3 & Hset & Kind & Hsize). wp_step. split; [done|]. eexists. split.
  - split; cbn; try done. split_and!; [by eapply few_enter|eapply few_weaken, FA; lia|eapply few_weaken, FN; lia].
  - by apply (says_put text).
Qed.

Lemma fsh_alias_ok n m c V A N a b name value ma s : 0 ≤ n → m ≤ 100000000 → context_rep (n + 2) (m - 1) c V A N s →
  strings (Containers.world s) !! a = Some name → strings (Containers.world s) !! b = Some value → chars name → says text A ma →
  wp (fsh_alias a b c) (λ '(r, c') s', ∃ A', context_rep n m c' V A' N s' ∧
    says text A' (if decide (name = [] ∨ value = []) then ma else <[lower name := value]> ma)) s.
Proof.
  intros Hn Hm Hc Hsa Hsb Hname Hma. unfold fsh_alias. pose proof Hc as [Hcalm Hv Ha Hf (KV & KA & KN) (FV & FA & FN)].
  assert (context_rep n m c V A N s) as Hsame.
  { split; try done; [eapply calm_weaken, Hcalm; lia|]. split_and!; (eapply few_weaken; [|eassumption]; lia). }
  wp_step. eapply ask_wp; [unfold string_at; by rewrite Hsa|]. destruct (decide (name = [])) as [E|Hne].
  { wp_step. exists A. by rewrite decide_True by (by left). }
  wp_step. eapply ask_wp; [unfold string_at; by rewrite Hsb|]. destruct (decide (value = [])) as [E|Hne'].
  { wp_step. exists A. by rewrite decide_True by (by right). }
  wp_step. eapply (strdup_wp (n + 1)); [lia|by replace (n + 1 + 1) with (n + 2) by lia|]. intros p s1 Hnew1 Hcalm1 _ _.
  wp_step. eapply (strdup_wp n); [done..|]. intros q s2 Hnew2 Hcalm2 Hf2 Hk2. unfold add_to_aliases. wp_step. wp_step.
  assert (p ≠ q) as Hpq by (intros ->; destruct Hnew1 as (_ & Hs1 & _); congruence).
  assert (∀ L, V ++ L ++ N ≡ₚ L ++ V ++ N) as Hperm by (intros; apply perm_aliases).
  assert (∀ u t, new_string (Containers.world s2) (V ++ A ++ N) u t → new_string (Containers.world s2) (A ++ V ++ N) u t) as Hmove.
  { intros u t (? & ? & Hout). split_and!; [done..|]. by rewrite (bind_Permutation _ _ _ (Hperm A)) in Hout. }
  eapply wp_mono; [eapply (enter_pair_ok n (m - 1) A (V ++ N)); [eapply calm_perm; [apply Hperm|done]|done..|lia|by eapply Hmove, new_string_keep|by apply Hmove|done|done]|].
  intros h' s3 (Hcalm3 & Hset & Kind & Hsize). wp_step. wp_step. rewrite decide_False by tauto. eexists. split.
  - split; cbn; try done; [eapply calm_perm; [symmetry; apply Hperm|exact Hcalm3]|]. split_and!; [eapply few_weaken, FV; lia|by eapply few_enter|eapply few_weaken, FN; lia].
  - by apply (says_put text).
Qed.

Lemma context_rep_weaken n n' m m' c V A N s : n' ≤ n → m ≤ m' → context_rep n m c V A N s → context_rep n' m' c V A N s.
Proof.
  intros ? ? [Hcalm Hv Ha Hf Hk (? & ? & ?)]. split; try done; [by eapply calm_weaken|]. by split_and!; (eapply few_weaken; [|eassumption]).
Qed.

(** Only what is in the tables matters. *)
Lemma context_rep_calm n n' m c V A N s s' : context_rep n m c V A N s → calm n' (V ++ A ++ N) s' → context_rep n' m c V A N s'.
Proof. intros [] Hs. by split. Qed.

Lemma answer_calm n L (Q : option (nat → Z) → env heap → Prop) s : calm n L s →
  (∀ junk s', calm n L s' → Containers.world s' = Containers.world s → Q (Some junk) s') → wp answer Q s.
Proof.
  intros [Ho Hr Hp] HQ. apply answer_wp; [done|]. intros junk s' [Hw Hp']. apply HQ; [|done]. split; [by rewrite Hw|by rewrite Hw|by apply Hp'].
Qed.

Lemma alias_command_ok n m c V A N t0 t rest name value ma s : 0 ≤ n → m ≤ 100000000 → context_rep (n + 4) (m - 1) c V A N s →
  assigned t (head rest) = Some (name, value) → chars name → says text A ma →
  wp (alias_command (t0 :: t :: rest) c) (λ '(r, c') s', ∃ A', context_rep n m c' V A' N s' ∧
    says text A' (if decide (name = [] ∨ value = []) then ma else <[lower name := value]> ma)) s.
Proof.
  intros Hn Hm Hc Has Hname Hma. unfold alias_command. cbn [tail]. wp_step.
  eapply (get_alias_name_ok (n + 3)); [lia|replace (n + 3 + 1) with (n + 4) by lia; apply Hc|done|]. intros a s1 (Hva & Hsa & _) Hcalm1 _ _.
  rewrite decide_False by (unfold valid_pointer in Hva; lia). wp_step.
  eapply (value_of_ok (n + 2)); [lia|by replace (n + 2 + 1) with (n + 3) by lia|done|]. intros b s2 (Hvb & Hsb & _) Hcalm2 Hf2 Hk2.
  rewrite decide_False by (unfold valid_pointer in Hvb; lia).
  wp_step. eapply answer_calm; [done|]. intros j1 s3 Hcalm3 Hw3. wp_step. eapply wp_lift; [done|].
  wp_step. eapply answer_calm; [done|]. intros j2 s4 Hcalm4 Hw4. wp_step. eapply wp_lift; [done|].
  eapply fsh_alias_ok; try done; [by eapply context_rep_calm|rewrite Hw4, Hw3; by apply Hk2|by rewrite Hw4, Hw3].
Qed.

(** *** Looking up *)

(** A lookup changes nothing. *)
Lemma lookup_key_ok h free names_owns L F n key s : ElemLaws 16 50 name_of name_hash StringHash StringCmp free named names_owns →
  set_rep 16 50 name_of name_hash StringHash StringCmp free h L → calm n (L ++ F) s → 0 ≤ n → chars key →
  lookup_key h key s = Ret (fst <$> find name_of (lower key) L, s).
Proof.
  intros Hlaws Hset [Ho [Hr1 Hr2] Hp] Hn Hkey. unfold lookup_key. destruct (first_free_ok (Containers.world s)) as [Hv Hf]; [lia|].
  set (p := first_free _) in *. set (w := set_strings _ _). set (s' := mkEnv (Containers.answers s) w).
  assert (owns w (L ++ F)) as Ho'.
  { eapply owns_change; [|exact Ho]. intros r Hr. cbn. rewrite lookup_insert_ne; [done|]. intros <-. by apply (owned_in_dom _ _ _ Ho Hr). }
  assert (readable name_of named w L) as Hread.
  { intros [e x] Hx. destruct (named_entry w (L ++ F) e x Ho') as [_ Hnm]; [apply elem_of_app; by left|exact Hnm]. }
  assert (named w (le64 p) (lower key)) as Hname.
  { exists p, [], key. rewrite app_nil_r. split_and!; [done..|cbn; by rewrite lookup_insert_eq|done|done]. }
  pose proof (set_lookup_ok 16 50 name_of name_hash StringHash StringCmp free named names_owns h L (le64 p) (lower key) s' Hset Hread Hname) as Hl.
  apply wp_run in Hl as (r & s2 & E & -> & Hfind). rewrite E. cbn [obind].
  destruct (find name_of (lower key) L) as [q|]; [|by rewrite Hfind]. destruct Hfind as (q' & -> & Eq). by rewrite Eq.
Qed.

(** What an entry says is in memory. *)
Lemma owned_entry w L F e x : owns w (L ++ F) → (e, x) ∈ L → ∃ a b, e = pair_element a b ∧ valid_pointer b ∧
  match snd x with inl v => strings w !! b = Some v | inr f => b = f end.
Proof.
  intros [Hok _] Hin. rewrite Forall_forall in Hok. destruct (Hok (e, x)) as (a & b & E & _ & Hb & _ & _ & Hv); [apply elem_of_app; by left|].
  exists a, b. done.
Qed.

Lemma lookup_value_ok h L F n m key s : pair_set h L → Forall (λ p, is_string p = true) L → calm n (L ++ F) s → 0 ≤ n → chars key → says text L m →
  lookup_value h key s = Ret (m !! lower key, s).
Proof.
  intros Hset Hk Hs Hn Hkey Hm. unfold lookup_value. rewrite (bind_run _ _ _ _ _ (lookup_key_ok _ _ (owns_in true F n) _ _ _ _ _ _ Hset Hs Hn Hkey)).
  rewrite <-(Hm (lower key)). destruct (find name_of (lower key) L) as [[e x]|] eqn:E; [|done]. cbn [fmap option_fmap option_map fst mbind option_bind].
  apply find_some in E as [Hin _]. destruct (owned_entry _ _ _ _ _ (ca_owns _ _ _ Hs) Hin) as (a & b & -> & Hb & Hv).
  rewrite Forall_forall in Hk. specialize (Hk _ Hin). unfold is_string in Hk. cbn [fst snd] in *.
  unfold text. cbn [snd]. destruct (snd x) as [v|]; [|done]. unfold bind, lift, pair_element. rewrite pointer_at_8 by by apply valid_range.
  unfold ask, string_at. rewrite Hv. done.
Qed.

Lemma searchFn_ok h L F n m key s : function_set h L → Forall (λ p, is_string p = false) L → calm n (L ++ F) s → 0 ≤ n → chars key → says code L m →
  searchFn h key s = Ret (default 0 (m !! lower key), s).
Proof.
  intros Hset Hk Hs Hn Hkey Hm. unfold searchFn. rewrite (bind_run _ _ _ _ _ (lookup_key_ok _ _ (owns_in false F n) _ _ _ _ _ _ Hset Hs Hn Hkey)).
  rewrite <-(Hm (lower key)). destruct (find name_of (lower key) L) as [[e x]|] eqn:E; [|done]. cbn [fmap option_fmap option_map fst mbind option_bind].
  apply find_some in E as [Hin _]. destruct (owned_entry _ _ _ _ _ (ca_owns _ _ _ Hs) Hin) as (a & b & -> & Hb & Hv).
  rewrite Forall_forall in Hk. specialize (Hk _ Hin). unfold is_string in Hk. cbn [fst snd] in *.
  unfold code. cbn [snd]. destruct (snd x) as [|f]; [done|]. subst b. unfold lift, pair_element. by rewrite pointer_at_8 by by apply valid_range.
Qed.

(** ** A session of the shell *)

Lemma new_set_ok free names_owns n L (Q : hashset heap → env heap → Prop) s :
  ElemLaws 16 50 name_of name_hash StringHash StringCmp (Some free) named names_owns → calm n L s →
  (∀ h s', calm n L s' → set_rep 16 50 name_of name_hash StringHash StringCmp (Some free) h [] → few 0 h [] → Q h s') → wp (new_set free) Q s.
Proof.
  intros Hlaws Hs HQ. unfold new_set. wp_step. eapply answer_calm; [exact Hs|]. intros junk s1 Hs1 _. wp_step. eapply wp_lift; [done|].
  eapply wp_mono; [apply (set_new_ok 16 50 name_of name_hash StringHash StringCmp (Some free) named names_owns); [apply Hs1|done|done]|].
  intros h s2 (Hp & Hw & Hset & Hcount). apply HQ; [|done|].
  - split; [rewrite Hw; apply Hs1|rewrite Hw; apply Hs1|done].
  - unfold HashSetCount in Hcount. split; [lia|done].
Qed.

Lemma context_init_ok n (Q : context → env heap → Prop) s : plenty s → room n (Containers.world s) → (∀ c s', context_rep n 0 c [] [] [] s' → Q c s') → wp context_init Q s.
Proof.
  intros Hp Hr HQ. assert (calm n [] s) as Hs by (split; [split; [done|apply NoDup_nil_2]|done|done]). unfold context_init.
  wp_step. eapply (new_set_ok _ _ _ _ _ _ (function_laws [] n)); [done|]. intros h1 s1 Hs1 H1 F1.
  wp_step. eapply (new_set_ok _ _ _ _ _ _ (pair_laws [] n)); [done|]. intros h2 s2 Hs2 H2 F2.
  wp_step. eapply (new_set_ok _ _ _ _ _ _ (pair_laws [] n)); [done|]. intros h3 s3 Hs3 H3 F3. wp_step. apply HQ. by split.
Qed.

(** The functions that are stored, by their names. *)
Definition stored (address_of : builtin → Z) (fs : list (str * builtin)) (m : gmap str Z) : gmap str Z :=
  foldl (λ m '(fname, fn), <[lower fname := address_of fn]> m) m fs.

Lemma store_all_ok address_of fs n m V A N c mn s : (∀ b, valid_pointer (address_of b)) → Forall (λ p, chars (fst p)) fs → 0 ≤ n → m ≤ 100000000 →
  context_rep (n + Z.of_nat (length fs)) (m - Z.of_nat (length fs)) c V A N s → says code N mn →
  wp (store_all address_of fs (map c)) (λ h s', ∃ N', context_rep n m (set_map h c) V A N' s' ∧ says code N' (stored address_of fs mn)) s.
Proof.
  intros Haddr Hfs Hn Hm. revert c N mn s. induction Hfs as [|[fname fn] fs Hname Hfs IH]; intros c N mn s Hc Hmn; cbn [store_all length] in *.
  { wp_step. exists N. split; [|done]. destruct c. by replace (n + Z.of_nat 0) with n in Hc by lia; replace (m - Z.of_nat 0) with m in Hc by lia. }
  unfold storeFuncIntoMap. pose proof Hc as [Hcalm Hv Ha Hf (KV & KA & KN) (FV & FA & FN)]. wp_step. wp_step.
  eapply (strdup_wp (n + Z.of_nat (length fs)) (N ++ V ++ A)); [lia| |].
  { eapply calm_perm; [apply perm_map|]. by replace (n + Z.of_nat (length fs) + 1) with (n + Z.of_nat (S (length fs))) by lia. }
  intros p s1 Hnew Hcalm1 _ _. eapply wp_mono; [eapply (enter_function_ok _ _ N (V ++ A)); [done..|exact FN|lia|done|done|done]|].
  intros h s2 (Hcalm2 & Hset & Kind & Hsize). eapply (IH (set_map h c)).
  - split; cbn; try done; [eapply calm_perm; [symmetry; apply perm_map|exact Hcalm2]|].
    split_and!; [eapply few_weaken, FV; lia|eapply few_weaken, FA; lia|]. eapply few_enter; [|done].
    by replace (m - Z.of_nat (length fs) - 1) with (m - Z.of_nat (S (length fs))) by lia.
  - by apply (says_put code).
Qed.

Lemma dispose_set_ok kind free F n L h s :
  ElemLaws 16 50 name_of name_hash StringHash StringCmp free named (owns_in kind F n) →
  set_rep 16 50 name_of name_hash StringHash StringCmp free h L → Forall (λ p, is_string p = kind) L → calm n (L ++ F) s →
  wp (HashSetDispose h) (λ _ s', calm n F s') s.
Proof.
  intros Hlaws Hset Hk [Ho Hr Hp]. eapply wp_mono; [apply (set_dispose_ok 16 50 name_of name_hash StringHash StringCmp free named (owns_in kind F n) h L s); done|].
  intros _ s' (Hp' & _ & Ho' & Hr'). by split.
Qed.

Lemma context_dispose_ok n m c V A N s : context_rep n m c V A N s → wp (context_dispose c) (λ _ s', calm n [] s') s.
Proof.
  intros [Hcalm Hv Ha Hf (KV & KA & KN) _]. unfold context_dispose.
  wp_step. eapply wp_mono; [by apply (dispose_set_ok true _ (A ++ N) n V _ _ (pair_laws _ _))|]. intros [] s1 H1.
  wp_step. eapply wp_mono; [by apply (dispose_set_ok true _ N n A _ _ (pair_laws _ _))|]. intros [] s2 H2.
  eapply wp_mono; [apply (dispose_set_ok false _ [] n N _ _ (function_laws _ _)); [done..|by rewrite app_nil_r]|]. done.
Qed.

(** What a user does with the tables. *)
Inductive request : Type :=
| Assign (command : list token_t)
| Alias (command : list token_t)
| VariableOf (name : str)
| AliasOf (name : str)
| FunctionOf (name : str).

Inductive reply : Type := Done | Says (s : option str) | At (p : Z).

Definition serve (r : request) (c : context) : M (env heap) (reply * context) :=
  match r with
  | Assign command => let! ' (_, c) := assign command c in ret (Done, c)
  | Alias command => let! ' (_, c) := alias_command command c in ret (Done, c)
  | VariableOf name => let! s := lookup_value (variables c) name in ret (Says s, c)
  | AliasOf name => let! s := lookup_value (aliases c) name in ret (Says s, c)
  | FunctionOf name => let! p := searchFn (map c) name in ret (At p, c)
  end.
Fixpoint serve_all (rs : list request) (c : context) : M (env heap) (list reply * context) :=
  match rs with
  | [] => ret ([], c)
  | r :: rs => let! ' (x, c) := serve r c in let! ' (xs, c) := serve_all rs c in ret (x :: xs, c)
  end.

(** The course of [main] in main.c, with requests in place of input lines. *)
Definition session (address_of : builtin → Z) (rs : list request) : M (env heap) (list reply) :=
  let! c := context_init in
  let! m := load_functions address_of (map c) in
  let! ' (replies, c) := serve_all rs (set_map m c) in
  context_dispose c;;!
  ret replies.

(** What it should be: maps from names in lower case. *)
Record tables := mkTables { t_variables : gmap str str; t_aliases : gmap str str }.

Definition answer_to (f : gmap str Z) (r : request) (t : tables) : reply * tables :=
  match r with
  | Assign (x :: rest) =>
      match assigned x (head rest) with
      | Some (name, value) => (Done, mkTables (<[lower name := value]> (t_variables t)) (t_aliases t))
      | None => (Done, t)
      end
  | Alias (_ :: x :: rest) =>
      match assigned x (head rest) with
      | Some (name, value) => (Done, if decide (name = [] ∨ value = []) then t else mkTables (t_variables t) (<[lower name := value]> (t_aliases t)))
      | None => (Done, t)
      end
  | Assign _ | Alias _ => (Done, t)
  | VariableOf name => (Says (t_variables t !! lower name), t)
  | AliasOf name => (Says (t_aliases t !! lower name), t)
  | FunctionOf name => (At (default 0 (f !! lower name)), t)
  end.
Fixpoint answers_to (f : gmap str Z) (rs : list request) (t : tables) : list reply :=
  match rs with
  | [] => []
  | r :: rs => let '(x, t) := answer_to f r t in x :: answers_to f rs t
  end.

(** An assignment has a name and a value, and the names are strings. *)
Definition sensible_token (t : token_t) (next : option token_t) : Prop := ∃ name value, assigned t next = Some (name, value) ∧ chars name.
Definition sensible (r : request) : Prop :=
  match r with
  | Assign (t :: rest) | Alias (_ :: t :: rest) => sensible_token t (head rest)
  | Assign _ | Alias _ => False
  | VariableOf name | AliasOf name | FunctionOf name => chars name
  end.

Definition holds (f : gmap str Z) (t : tables) (V A N : list (list Z * entry)) : Prop :=
  says text V (t_variables t) ∧ says text A (t_aliases t) ∧ says code N f.

Lemma serve_request_ok f n m r c V A N t s : 0 ≤ n → m ≤ 100000000 → context_rep (n + 4) (m - 1) c V A N s → holds f t V A N → sensible r →
  wp (serve r c) (λ '(x, c') s', x = fst (answer_to f r t) ∧ ∃ V' A', context_rep n m c' V' A' N s' ∧ holds f (snd (answer_to f r t)) V' A' N) s.
Proof.
  intros Hn Hm Hc (Hv & Ha & Hf) Hr. assert (context_rep n m c V A N s) as Hsame by (eapply context_rep_weaken; [| |exact Hc]; lia).
  pose proof Hsame as [Hcalm HV HA HN (KV & KA & KN) _]. destruct r as [command|command|name|name|name]; cbn [serve sensible] in *.
  - destruct command as [|x rest]; [done|]. destruct Hr as (name & value & Has & Hname). wp_step.
    eapply wp_mono; [eapply assign_ok; [done|done|eapply context_rep_weaken; [| |exact Hc]; lia|exact Has|done|exact Hv]|]. intros [r c'] s' (_ & V' & Hc' & Hv'). wp_step.
    cbn [answer_to]. rewrite Has. split; [done|]. by exists V', A.
  - destruct command as [|x0 [|x rest]]; [done..|]. destruct Hr as (name & value & Has & Hname). wp_step.
    eapply wp_mono; [by eapply alias_command_ok|]. intros [r c'] s' (A' & Hc' & Ha'). wp_step. cbn [answer_to]. rewrite Has.
    split; [done|]. exists V, A'. split; [done|]. cbn [snd]. by case_decide.
  - wp_step. unfold wp at 1. rewrite (lookup_value_ok _ _ _ _ _ _ _ HV KV Hcalm Hn Hr Hv). wp_step. split; [done|]. by exists V, A.
  - wp_step. unfold wp at 1. rewrite (lookup_value_ok _ _ (V ++ N) n _ _ _ HA KA) by (done || by eapply calm_perm; [apply perm_aliases|]). wp_step. split; [done|]. by exists V, A.
  - wp_step. unfold wp at 1. rewrite (searchFn_ok _ _ (V ++ A) n _ _ _ HN KN) by (done || by eapply calm_perm; [apply perm_map|]). wp_step. split; [done|]. by exists V, A.
Qed.

Lemma serve_all_ok f rs c V A N t s m : context_rep (4 * Z.of_nat (length rs)) (m - Z.of_nat (length rs)) c V A N s → m ≤ 100000000 → holds f t V A N → Forall sensible rs →
  wp (serve_all rs c) (λ '(xs, c') s', xs = answers_to f rs t ∧ ∃ V' A', context_rep 0 m c' V' A' N s') s.
Proof.
  intros Hc Hm Ht Hrs. revert c V A t s Hc Ht. induction Hrs as [|r rs Hr Hrs IH]; intros c V A t s Hc Ht; cbn [serve_all length answers_to] in *.
  { wp_step. split; [done|]. exists V, A. by replace (m - Z.of_nat 0) with m in Hc by lia. }
  wp_step. eapply wp_mono; [eapply (serve_request_ok f (4 * Z.of_nat (length rs)) (m - Z.of_nat (length rs))); [lia|lia| |done|done]|].
  { by replace (4 * Z.of_nat (length rs) + 4) with (4 * Z.of_nat (S (length rs))) by lia; replace (m - Z.of_nat (length rs) - 1) with (m - Z.of_nat (S (length rs))) by lia. }
  intros [x c'] s' (-> & V' & A' & Hc' & Ht'). wp_step. eapply wp_mono; [by eapply IH|]. intros [xs c2] s2 (-> & V2 & A2 & Hc2). wp_step.
  destruct (answer_to f r t) as [y t']. split; [done|]. by exists V2, A2.
Qed.

(** C39: The tables of the shell are maps, for sensible requests.  A session that sets up the tables, stores the built-in
    functions, serves at most 10^7 requests - assignments, aliases and lookups, in any order - and disposes of the tables
    ends without a fault, and each lookup finds what was stored last under the name, upper and lower case being the same,
    provided that every request is [sensible]: an assignment or an alias has a token NAME=VALUE, or NAME= with a quoted
    string as the next token, where neither the name nor an unquoted value has a space or 128 characters or more; a name that
    is stored or looked up consists of characters from 1 to 255.  Other assignments and aliases may fault:
    [null_value_faults], [alias_without_value_faults] and [long_name_faults] are such sessions.  It is assumed that malloc
    finds memory ([plenty]) and that there is [room] for the strings; it may give any address that is not in use, freed ones
    included. *)
Theorem shell_tables_are_maps address_of rs s :
  (∀ b, valid_pointer (address_of b)) → Forall sensible rs →
  plenty s → room (7 + 4 * Z.of_nat (length rs)) (Containers.world s) → Z.of_nat (length rs) ≤ 10000000 →
  ∃ s', session address_of rs s = Ret (answers_to (stored address_of functions ∅) rs (mkTables ∅ ∅), s').
Proof.
  intros Haddr Hrs Hp Hr Hlen. assert (wp (session address_of rs) (λ xs _, xs = answers_to (stored address_of functions ∅) rs (mkTables ∅ ∅)) s) as H.
  { unfold session. wp_step. eapply context_init_ok; [done..|]. intros c s1 Hc. wp_step. unfold load_functions.
    eapply wp_mono; [eapply (store_all_ok address_of functions (4 * Z.of_nat (length rs)) 7); [done| |lia|lia| |]|].
    - unfold functions. repeat (apply Forall_cons; split; [unfold chars; repeat (apply Forall_cons; split; [cbn; lia|]); apply Forall_nil_2|]). apply Forall_nil_2.
    - eapply context_rep_weaken; [| |exact Hc]; cbn; lia.
    - intros a. by rewrite lookup_empty.
    - intros h s2 (N & Hc2 & Hf). wp_step. eapply wp_mono.
      + eapply (serve_all_ok (stored address_of functions ∅) rs _ [] [] N (mkTables ∅ ∅) s2 (7 + Z.of_nat (length rs))); [|lia| |done].
        * by replace (7 + Z.of_nat (length rs) - Z.of_nat (length rs)) with 7 by lia.
        * by split_and!.
      + intros [xs c'] s3 (-> & V' & A' & Hc3). wp_step. eapply wp_mono; [by eapply context_dispose_ok|]. intros _ s4 _. by wp_step. }
  apply wp_run in H as (xs & s' & E & ->). by exists s'.
Qed.

(** ** Examples *)

(** The tokens [x=ab], then [X=] and the quoted string [c d], and [alias l=ls]. *)
Definition x_ab : token_t := mkToken [120; 61; 97; 98] UNKNOWN 0.
Definition X_ : token_t := mkToken [88; 61] UNKNOWN 0.
Definition c_d : token_t := mkToken [99; 32; 100] STRING 61.
Definition alias_l : list token_t := [mkToken [97; 108; 105; 97; 115] UNKNOWN 0; mkToken [108; 61; 108; 115] UNKNOWN 32].
Definition some_requests : list request :=
  [Assign [x_ab]; VariableOf [120]; Assign [X_; c_d]; VariableOf [120]; Alias alias_l; AliasOf [76]; AliasOf [120]; FunctionOf [67; 100]].

(** An empty heap that offers a used address again and again. *)
Definition one_address : env heap := mkEnv [] (mkHeap ∅ (replicate 50 8)).
Definition code_address (b : builtin) : Z := match b with fsh_cd => 4096 | _ => 8192 end.

Lemma shell_tables_are_maps_witness :
  Forall sensible some_requests ∧
  answers_to (stored code_address functions ∅) some_requests (mkTables ∅ ∅) =
    [Done; Says (Some [97; 98]); Done; Says (Some [99; 32; 100]); Done; Says (Some [108; 115]); Says None; At 4096] ∧
  ∃ s', session code_address some_requests one_address = Ret (answers_to (stored code_address functions ∅) some_requests (mkTables ∅ ∅), s').
Proof.
  assert (Forall sensible some_requests) as Hs.
  { unfold some_requests. repeat (apply Forall_cons; split; [cbn [sensible alias_l tail head];
      try (eexists; eexists; split; [vm_compute; reflexivity|]); unfold chars; repeat (apply Forall_cons; split; [lia|]); apply Forall_nil_2|]). apply Forall_nil_2. }
  split; [exact Hs|]. split; [vm_compute; reflexivity|]. apply shell_tables_are_maps.
  - intros []; unfold valid_pointer; cbn; lia.
  - exact Hs.
  - apply Forall_nil_2.
  - split; [by apply Forall_replicate|vm_compute; reflexivity].
  - cbn. lia.
Defined.

(** The same, by running the code. *)
Example session_runs : obind (session code_address some_requests one_address) (λ x, Ret (fst x)) =
  Ret [Done; Says (Some [97; 98]); Done; Says (Some [99; 32; 100]); Done; Says (Some [108; 115]); Says None; At 4096].
Proof. vm_compute. reflexivity. Qed.

(** The token [x=a b], from a quoted word, leaves a null pointer for a value; to
    look it up is a fault. *)
Definition x_a_b : token_t := mkToken [120; 61; 97; 32; 98] STRING 0.
Example null_value_faults : session code_address [Assign [x_a_b]; VariableOf [120]] one_address = Err Fault.
Proof. vm_compute. reflexivity. Qed.

(** [alias ls] without [=] reads a buffer beyond what was written. *)
Example alias_without_value_faults : session code_address [Alias [mkToken [97; 108; 105; 97; 115] UNKNOWN 0; mkToken [108; 115] UNKNOWN 32]] one_address = Err Fault.
Proof. vm_compute. reflexivity. Qed.

(** A name of 128 characters does not fit the buffer. *)
Example long_name_faults : session code_address [Assign [mkToken (replicate 128 120 ++ [61; 97]) UNKNOWN 0]] one_address = Err Fault.
Proof. vm_compute. reflexivity. Qed.

(** A deleted element is still counted. *)
Definition count_after_delete : outcome (Z * option (Z * Z)) :=
  let* ' (h, s) := HashSetNew 1 1 (λ _ _ _, Ret 0) (λ x y _, Ret (if decide (x = y) then 0 else 1)) None (mkEnv [] tt) in
  let* ' (h, s) := HashSetEnter h [7] s in
  let* ' (h, s) := HashSetDelete h [7] s in
  let* ' (r, _) := HashSetLookup h [7] s in
  Ret (HashSetCount h, r).
Example deleted_is_counted : count_after_delete = Ret (1, None).
Proof. vm_compute. reflexivity. Qed.
