(* ===== verification/Syscall.v ===== *)
(** System calls: userprog/syscall.c of Project5, with the descriptors of
    threads/thread.c, on virtual memory and the file system.

    A system call runs for the process [t].  It returns to the process, ends it, or
    turns the machine off.  Starting a process and waiting for one, which takes other
    threads, are parameters. *)
From S2P Require Import Prelude Bitmap CString Block Cache Fs Inode File FreeMap Directory Filesys.
From S2P Require Import Palloc PageDir Vm Evict SupplPage FileMapping.
Local Open Scope Z_scope.

(** ** Files, as system calls use them *)

(** What syscall.c asks of filesys/, besides what vm/ does. *)
Class SysFiles (F : Type) : Type := {
  sys_file_ops :: FileOps F;
  filesys_create : list Z → Z → bool → M F bool;
  filesys_open : list Z → M F (option nat);
  filesys_remove : list Z → M F bool;
  file_length : nat → M F Z;
  file_tell : nat → M F Z;
  file_is_dir : option nat → M F bool;
  (** [inode_get_inumber (file_get_inode (f))] *)
  file_inumber : nat → M F Z;
  (** [dir_readdir ((struct dir * ) f, name)] *)
  file_readdir : nat → M F (option (list Z));
  (** [dir_close (t->pwd); t->pwd = (struct dir * ) f] *)
  replace_pwd : nat → M F unit;
}.

(** A [struct file] begins as a [struct dir] does, so that one is used as the other. *)
Definition file_as_dir (p : nat) : M Fs.fs unit :=
  let! f := get_file p in
  free_file (Some p);;!
  put_dir p (mkDir (f_inode f) (f_pos f) false).
Definition dir_as_file (p : nat) (f : Fs.file) : M Fs.fs unit :=
  let! d := get_dir p in
  free_dir (Some p);;!
  put_file p (mkFile (d_inode d) (d_pos d) (f_deny_write f) (f_is_dir f)).

#[export] Instance fs_file_ops `{FreeMapOps} : FileOps Fs.fs := {
  Vm.file_reopen := File.file_reopen;
  Vm.file_close := File.file_close;
  Vm.file_seek := File.file_seek;
  Vm.file_read := File.file_read;
  Vm.file_write := File.file_write;
}.

(** The file system of Filesys.v; [uninit] is what is on the stack. *)
Definition kernel_files `{FreeMapOps} (uninit : list Z) : SysFiles Fs.fs := {|
  sys_file_ops := fs_file_ops;
  filesys_create := Filesys.filesys_create uninit;
  filesys_open := Filesys.filesys_open uninit;
  filesys_remove := Filesys.filesys_remove uninit;
  file_length := λ f, File.file_length (Some f);
  file_tell := λ f, File.file_tell (Some f);
  file_is_dir := File.file_is_dir;
  file_inumber := λ f, let! i := file_get_inode f in inode_get_inumber i;
  file_readdir := λ f,
    let! x := get_file f in
    file_as_dir f;;!
    let! r := dir_readdir uninit (Some f) in
    dir_as_file f x;;!
    ret r;
  replace_pwd := λ f,
    let! d := gets pwd in
    dir_close d;;!
    file_as_dir f;;!
    modify (λ s, mkFs (fs_cache s) (inodes s) (files s) (dirs s) (bufs s) (next s) (Fs.mallocs s) (open_inodes s)
      (free_map s) (free_map_file s) (free_map_lock s) (Some f));
|}.

(** ** The process *)

(** thread.h 40-40 MAX_OPEN_FILES *)
Definition MAX_OPEN_FILES : Z := 256.

(** The machine, and of the running process the descriptors and the user's stack
    pointer; what is on the console, and what is typed. *)
Record sys {F : Type} := mkSys {
  machine : vm F;
  open_files : list (option nat);
  intr_stack : Z;
  console : list Z;
  keyboard : list Z;
}.
Arguments sys : clear implicits.
Arguments mkSys {F}.

(** How a system call ends. *)
Inductive ending (A : Type) : Type := Value (a : A) | Exited (status : Z) | Halted.
Arguments Value {A}. Arguments Exited {A}. Arguments Halted {A}.

Section syscall.
Context {F : Type} `{!SysFiles F} (init_page_dir ram_pages t kernel_esp : Z).
Context (exec_child : Z → M (sys F) Z) (process_wait : Z → M (sys F) Z).
Implicit Types s : sys F.

Definition set_machine (x : vm F) s : sys F := mkSys x (open_files s) (intr_stack s) (console s) (keyboard s).
Definition set_open_files (x : list (option nat)) s : sys F := mkSys (machine s) x (intr_stack s) (console s) (keyboard s).
Definition set_intr_stack (x : Z) s : sys F := mkSys (machine s) (open_files s) x (console s) (keyboard s).
Definition set_console (x : list Z) s : sys F := mkSys (machine s) (open_files s) (intr_stack s) x (keyboard s).
Definition set_keyboard (x : list Z) s : sys F := mkSys (machine s) (open_files s) (intr_stack s) (console s) x.
Definition on_vm {A} (m : M (vm F) A) : M (sys F) A := zoom machine set_machine m.
Definition on_files {A} (m : M F A) : M (sys F) A := on_vm (on_fs m).

(** Code that may end the process. *)
Definition P (A : Type) : Type := M (sys F) (ending A).
Definition value {A} (a : A) : P A := ret (Value a).
Definition run {A} (m : M (sys F) A) : P A := let! a := m in value a.
Definition and_then {A B} (m : P A) (f : A → P B) : P B :=
  let! x := m in
  match x with Value a => f a | Exited status => ret (Exited status) | Halted => ret Halted end.

(** syscall.c 110-113 exit *)
Definition exit {A} (status : Z) : P A := ret (Exited status).
(** syscall.c 101-103 halt *)
Definition halt {A} : P A := ret Halted.

(** ** User memory *)

(** Whether the page tables have the page of an address. *)
Definition page_present (va : Z) : M mmu bool :=
  let! pd := active_pd in
  let! pde := load (pd + 4 * pd_no va) in
  if negb (has pde PTE_P) then ret false
  else
    let! pt := lift (pde_get_pt pde) in
    let! pte := load (pt + 4 * pt_no va) in
    ret (has pte PTE_P).

(** An access by the kernel: the address in physical memory.  After a page fault that
    is resolved the access is made again, otherwise the kernel panics. *)
Definition access (va : Z) (write : bool) : M (vm F) Z := λ m,
  match on_hw (translate va write) m with
  | Err Fault =>
      (let! present := on_hw (page_present va) in
       let! ok := page_fault init_page_dir ram_pages t (negb present) va kernel_esp in
       if (ok : bool) then on_hw (translate va write) else throw Panic) m
  | r => r
  end.
Definition user_load (va : Z) : M (sys F) Z :=
  on_vm (let! k := access va false in gets (λ m, memory (hw m) k)).
Definition user_store (va c : Z) : M (sys F) unit :=
  on_vm (let! k := access va true in write_kernel k [c]).

Fixpoint user_load_bytes (n : nat) (va : Z) : M (sys F) (list Z) :=
  match n with
  | O => ret []
  | S n => let! c := user_load va in let! l := user_load_bytes n (u32 (va + 1)) in ret (c :: l)
  end.
Fixpoint user_store_bytes (l : list Z) (va : Z) : M (sys F) unit :=
  match l with
  | [] => ret tt
  | c :: l => user_store va c;;! user_store_bytes l (u32 (va + 1))
  end.
(** The word at an address. *)
Definition user_load32 (va : Z) : M (sys F) Z := let! l := user_load_bytes 4 va in ret (unle32 l).
(** A path, of which the file system looks at [n] bytes at most. *)
Fixpoint user_string (n : nat) (va : Z) : M (sys F) (list Z) :=
  match n with
  | O => ret []
  | S n =>
      let! c := user_load va in
      if decide (c = 0) then ret [] else let! l := user_string n (u32 (va + 1)) in ret (c :: l)
  end.
Definition user_path (va : Z) : M (sys F) (list Z) := user_string (Z.to_nat (MAX_PATH_LEN + 1)) va.

(** syscall.c 43-55 user_address_valid *)
Definition user_address_valid (addr : Z) : M (sys F) bool :=
  if decide (addr = 0) then ret false
  else if negb (is_user_vaddr addr) then ret false
  else
    let! th := on_vm (get_thread t) in
    let! k := on_vm (on_hw (pagedir_get_page (t_pagedir th) addr)) in
    if decide (k ≠ 0) then ret true
    else
      let! page := on_vm (suppl_pt_lookup t addr) in
      if decide (page = 0) then
        let! esp := gets intr_stack in
        if stack_grow_needed addr esp then on_vm (suppl_table_alloc_user_page init_page_dir ram_pages t addr true)
        else ret false
      else ret false.

(** syscall.c 58-64 pointers_valid *)
Fixpoint pointers_valid (addr : Z) (count : nat) : M (sys F) bool :=
  match count with
  | O => ret true
  | S count =>
      let! ok := user_address_valid addr in
      if (ok : bool) then pointers_valid (u32 (addr + 1)) count else ret false
  end.

(** syscall.c 74-79 pointers_writable, the loop over pages *)
Fixpoint writable_loop (fuel : nat) (addr i count : Z) : M (sys F) bool :=
  match fuel with
  | O => throw OutOfFuel
  | S fuel =>
      if decide (i < count) then
        let! page := on_vm (suppl_pt_lookup t (u32 (addr + i))) in
        if decide (page = 0) then writable_loop fuel addr (u32 (i + PAGE_SIZE)) count
        else
          let! x := on_vm (get_page page) in
          if decide (mapping x = 0) then writable_loop fuel addr (u32 (i + PAGE_SIZE)) count
          else
            let! m := on_vm (get_fmap (mapping x)) in
            if negb (writable m) then ret false else writable_loop fuel addr (u32 (i + PAGE_SIZE)) count
      else ret true
  end.

(** syscall.c 68-81 pointers_writable *)
Definition pointers_writable (addr count : Z) : M (sys F) bool :=
  let count := if decide (count mod PAGE_SIZE ≠ 0) then u32 (count + (PAGE_SIZE - count mod PAGE_SIZE)) else count in
  writable_loop (S (S (Z.to_nat (count / PAGE_SIZE)))) addr 0 count.

(** syscall.c 86-90 string_valid, the loop; the user's addresses end somewhere *)
Fixpoint string_valid_loop (fuel : nat) (address : Z) : M (sys F) bool :=
  match fuel with
  | O => throw OutOfFuel
  | S fuel =>
      let! ok := user_address_valid address in
      if negb ok then ret false
      else
        let! c := user_load address in
        if decide (c = 0) then ret true else string_valid_loop fuel (u32 (address + 1))
  end.

(** syscall.c 85-91 string_valid *)
Definition string_valid (address : Z) : M (sys F) bool := string_valid_loop (S (Z.to_nat (PHYS_BASE - address))) address.

(** ** Descriptors *)

(** thread.c 672-675 thread_get_file *)
Definition thread_get_file (fd : Z) : M (sys F) (option nat) :=
  if decide (fd < 0 ∨ fd >= MAX_OPEN_FILES) then ret None
  else let! l := gets open_files in lift (or_fault (nthZ l fd)).

(** thread.c 679-682 thread_get_free_fd, the loop *)
Fixpoint free_fd_loop (n : nat) (l : list (option nat)) (i : Z) : outcome Z :=
  match n with
  | O => Ret (-1)
  | S n => let* x := or_fault (nthZ l i) in if decide (x = None) then Ret i else free_fd_loop n l (i + 1)
  end.
(** thread.c 677-684 thread_get_free_fd *)
Definition thread_get_free_fd : M (sys F) Z :=
  let! l := gets open_files in lift (free_fd_loop (Z.to_nat (MAX_OPEN_FILES - 2)) l 2).

Definition store_fd (fd : Z) (file : option nat) : M (sys F) unit :=
  let! l := gets open_files in
  let! l := lift (or_fault (setZ l fd file)) in
  modify (set_open_files l).

(** thread.c 686-694 thread_set_file *)
Definition thread_set_file (file : option nat) (fd : Z) : M (sys F) bool :=
  if decide (fd < 0 ∨ fd >= MAX_OPEN_FILES) then ret false
  else
    let! l := gets open_files in
    let! x := lift (or_fault (nthZ l fd)) in
    if decide (x ≠ None) then ret false
    else store_fd fd file;;! ret true.

(** thread.c 696-705 thread_set_file_force *)
Definition thread_set_file_force (file : option nat) (fd : Z) : M (sys F) bool :=
  if decide (fd < 0 ∨ fd >= MAX_OPEN_FILES) then ret false
  else
    let! l := gets open_files in
    let! x := lift (or_fault (nthZ l fd)) in
    (if decide (x ≠ None) then on_files (file_close x) else ret tt);;!
    store_fd fd file;;!
    ret true.

(** thread.c 709-715 thread_close_all_files, the loop *)
Fixpoint close_loop (n : nat) (i : Z) : M (sys F) unit :=
  match n with
  | O => ret tt
  | S n =>
      let! l := gets open_files in
      let! x := lift (or_fault (nthZ l i)) in
      (if decide (x ≠ None) then on_files (file_close x);;! store_fd i None else ret tt);;!
      close_loop n (i + 1)
  end.
(** thread.c 707-716 thread_close_all_files *)
Definition thread_close_all_files : M (sys F) unit := close_loop (Z.to_nat MAX_OPEN_FILES) 0.

(** ** The system calls *)

(** syscall.c 127-129 exec, where [exec_child] is what follows the check: the pid of the child, or -1 *)
Definition exec (cmd_line : Z) : P Z :=
  let! ok := string_valid cmd_line in
  if negb ok then exit (-1) else run (exec_child cmd_line).

(** syscall.c 181-183 wait *)
Definition wait (pid : Z) : P Z := run (process_wait pid).

(** syscall.c 191-198 create *)
Definition create (file initial_size : Z) : P bool :=
  let! ok := string_valid file in
  if negb ok then exit (-1)
  else run (let! path := user_path file in on_files (filesys_create path (s32 initial_size) false)).

(** syscall.c 206-213 remove *)
Definition remove (file : Z) : P bool :=
  let! ok := string_valid file in
  if negb ok then exit (-1)
  else run (let! path := user_path file in on_files (filesys_remove path)).

(** syscall.c 230-251 open *)
Definition open (file : Z) : P Z :=
  let! ok := string_valid file in
  if negb ok then exit (-1)
  else
    run (
      let! fd := thread_get_free_fd in
      if decide (0 ≤ fd) then
        let! path := user_path file in
        let! opened_file := on_files (filesys_open path) in
        if decide (opened_file ≠ None) then
          let! ok := thread_set_file opened_file fd in
          if (ok : bool) then ret fd
          else on_files (file_close opened_file);;! ret (-1)
        else ret (-1)
      else ret fd).

(** syscall.c 257-261 filesize *)
Definition filesize (fd : Z) : M (sys F) Z :=
  let! file_ptr := thread_get_file fd in
  match file_ptr with Some f => on_files (file_length f) | None => ret (-1) end.

(** input_getc of devices/input.c: it waits until something is typed. *)
Definition input_getc : M (sys F) Z := λ s,
  match keyboard s with c :: l => Ret (c, set_keyboard l s) | [] => Err Blocked end.

(** syscall.c 277-278 read, the loop *)
Fixpoint getc_loop (n : nat) (addr : Z) : M (sys F) unit :=
  match n with
  | O => ret tt
  | S n => let! c := input_getc in user_store addr c;;! getc_loop n (u32 (addr + 1))
  end.

(** syscall.c 269-289 read.  The bytes go to the buffer when all of them have been read. *)
Definition read (fd buffer size : Z) : P Z :=
  let! ok := pointers_valid buffer (Z.to_nat size) in
  if negb ok then exit (-1)
  else
    let! ok := pointers_writable buffer size in
    if negb ok then exit (-1)
    else
      run (
        if decide (fd = 0) then getc_loop (Z.to_nat size) buffer;;! ret (s32 size)
        else if decide (fd = 1) then ret 0
        else
          let! file_ptr := thread_get_file fd in
          match file_ptr with
          | Some f =>
              let! bytes := on_files (file_read f (s32 size)) in
              user_store_bytes bytes buffer;;!
              ret (Z.of_nat (length bytes))
          | None => ret 0
          end).

(** syscall.c 305-305 CHUNCK_SIZE *)
Definition CHUNCK_SIZE : Z := 100.
Definition putbuf (l : list Z) : M (sys F) unit := modify (λ s, set_console (console s ++ l) s).

(** syscall.c 312-317 write, the loop *)
Fixpoint putbuf_loop (fuel : nat) (addr rem_size : Z) : M (sys F) unit :=
  match fuel with
  | O => throw OutOfFuel
  | S fuel =>
      if decide (0 < rem_size) then
        let to_write := Z.min CHUNCK_SIZE rem_size in
        let! l := user_load_bytes (Z.to_nat to_write) addr in
        putbuf l;;!
        putbuf_loop fuel (u32 (addr + to_write)) (rem_size - to_write)
      else ret tt
  end.

(** syscall.c 306-330 write.  The bytes are taken from the buffer before any of them is written to the file. *)
Definition write (fd buffer size : Z) : P Z :=
  let! ok := pointers_valid buffer (Z.to_nat size) in
  if negb ok then exit (-1)
  else
    run (
      if decide (fd = 1) then putbuf_loop (S (Z.to_nat size)) buffer size;;! ret (s32 size)
      else if decide (fd = 0) then ret 0
      else
        let! file_ptr := thread_get_file fd in
        let! is_dir := on_files (file_is_dir file_ptr) in
        if (is_dir : bool) then ret (-1)
        else
          match file_ptr with
          | Some f =>
              let! bytes := user_load_bytes (Z.to_nat size) buffer in
              on_files (file_write f bytes (s32 size))
          | None => ret 0
          end).

(** syscall.c 342-348 seek *)
Definition seek (fd position : Z) : M (sys F) unit :=
  let! file_ptr := thread_get_file fd in
  match file_ptr with Some f => on_files (file_seek (Some f) (s32 position)) | None => ret tt end.

(** syscall.c 355-361 tell *)
Definition tell (fd : Z) : M (sys F) Z :=
  let! file_ptr := thread_get_file fd in
  match file_ptr with Some f => on_files (file_tell f) | None => ret 0 end.

(** syscall.c 368-377 close *)
Definition close (fd : Z) : M (sys F) Z :=
  let! fl := thread_get_file fd in
  match fl with
  | Some _ => thread_set_file_force None fd;;! ret 0
  | None => ret (-1)
  end.

(** syscall.c 405-415 chdir.  The string is not checked, and a file that is no directory is not closed. *)
Definition chdir (dir : Z) : M (sys F) bool :=
  let! path := user_path dir in
  let! f := on_files (filesys_open path) in
  match f with
  | None => ret false
  | Some p =>
      let! is_dir := on_files (file_is_dir f) in
      if negb is_dir then ret false
      else on_files (replace_pwd p);;! ret true
  end.

(** directory.h 14 INITIAL_DIR_SIZE *)
Definition INITIAL_DIR_SIZE : Z := 4.
(** syscall.c 423-426 mkdir *)
Definition mkdir (dir : Z) : M (sys F) bool :=
  let! path := user_path dir in on_files (filesys_create path INITIAL_DIR_SIZE true).

(** syscall.c 441-452 readdir *)
Definition readdir (fd name : Z) : M (sys F) bool :=
  let! fl := thread_get_file fd in
  let! is_dir := on_files (file_is_dir fl) in
  if negb is_dir then ret false
  else
    let! f := lift (or_fault fl) in
    let! r := on_files (file_readdir f) in
    match r with
    | None => ret false
    | Some l => user_store_bytes (l ++ [0]) name;;! ret true
    end.

(** syscall.c 457-462 isdir *)
Definition isdir (fd : Z) : M (sys F) bool :=
  let! fl := thread_get_file fd in
  match fl with None => ret false | Some _ => on_files (file_is_dir fl) end.

(** syscall.c 471-478 inumber *)
Definition inumber (fd : Z) : M (sys F) Z :=
  let! fl := thread_get_file fd in
  match fl with None => ret (-1) | Some f => on_files (file_inumber f) end.

(** ** The handler *)

(** syscall.c 488-488 PARAM *)
Definition PARAM (esp id : Z) : Z := u32 (esp + 4 * id).
(** syscall.c 489-489 I_PARAM *)
Definition I_PARAM (esp id : Z) : M (sys F) Z := user_load32 (PARAM esp id).
(** As an [int]. *)
Definition int_param (esp id : Z) : M (sys F) Z := let! w := I_PARAM esp id in ret (s32 w).

(** syscall.c 494-500 check_args, of [n] arguments from [start] on *)
Fixpoint check_args (n : nat) (esp start : Z) : M (sys F) bool :=
  match n with
  | O => ret true
  | S n =>
      let! ok := pointers_valid (PARAM esp start) 4 in
      if negb ok then ret false else check_args n esp (start + 1)
  end.

(** [if (!check_args (f, 1, 1 + n)) exit (-1); else ...] *)
Definition checked {A} (n : nat) (esp : Z) (m : P A) : P A :=
  let! ok := check_args n esp 1 in if negb ok then exit (-1) else m.

(** What is stored in EAX, if anything. *)
Definition eax (m : P Z) : P (option Z) := and_then m (λ x, value (Some (u32 x))).
Definition eax_bool (m : P bool) : P (option Z) := and_then m (λ b, value (Some (if (b : bool) then 1 else 0))).

(** syscall.c 502-504 halt_handler *)
Definition halt_handler (esp : Z) : P (option Z) := halt.
(** syscall.c 505-508 exit_handler *)
Definition exit_handler (esp : Z) : P (option Z) := checked 1 esp (let! status := int_param esp 1 in exit status).
(** syscall.c 509-512 exec_handler *)
Definition exec_handler (esp : Z) : P (option Z) := checked 1 esp (let! p := I_PARAM esp 1 in eax (exec p)).
(** syscall.c 513-516 wait_handler *)
Definition wait_handler (esp : Z) : P (option Z) := checked 1 esp (let! p := int_param esp 1 in eax (wait p)).
(** syscall.c 517-520 create_handler *)
Definition create_handler (esp : Z) : P (option Z) :=
  checked 2 esp (let! file := I_PARAM esp 1 in let! size := I_PARAM esp 2 in eax_bool (create file size)).
(** syscall.c 521-524 remove_handler *)
Definition remove_handler (esp : Z) : P (option Z) := checked 1 esp (let! file := I_PARAM esp 1 in eax_bool (remove file)).
(** syscall.c 525-528 open_handler *)
Definition open_handler (esp : Z) : P (option Z) := checked 1 esp (let! file := I_PARAM esp 1 in eax (open file)).
(** syscall.c 529-532 filesize_handler *)
Definition filesize_handler (esp : Z) : P (option Z) := checked 1 esp (let! fd := int_param esp 1 in eax (run (filesize fd))).
(** syscall.c 533-536 read_handler *)
Definition read_handler (esp : Z) : P (option Z) :=
  checked 3 esp (let! fd := int_param esp 1 in let! buffer := I_PARAM esp 2 in let! size := I_PARAM esp 3 in eax (read fd buffer size)).
(** syscall.c 537-540 write_handler *)
Definition write_handler (esp : Z) : P (option Z) :=
  checked 3 esp (let! fd := int_param esp 1 in let! buffer := I_PARAM esp 2 in let! size := I_PARAM esp 3 in eax (write fd buffer size)).
(** syscall.c 541-544 seek_handler *)
Definition seek_handler (esp : Z) : P (option Z) :=
  checked 2 esp (let! fd := int_param esp 1 in let! position := I_PARAM esp 2 in seek fd position;;! value None).
(** syscall.c 545-548 tell_handler *)
Definition tell_handler (esp : Z) : P (option Z) := checked 1 esp (let! fd := int_param esp 1 in eax (run (tell fd))).
(** syscall.c 549-552 close_handler *)
Definition close_handler (esp : Z) : P (option Z) := checked 1 esp (let! fd := int_param esp 1 in eax (run (close fd))).
(** syscall.c 554-557 mmap_handler, with 383-387 of mmap *)
Definition mmap_handler (esp : Z) : P (option Z) :=
  checked 2 esp (
    let! fd := int_param esp 1 in
    let! vaddr := I_PARAM esp 2 in
    let! fl := thread_get_file fd in
    let! file_sz := (if decide (fl = None) then ret 0 else filesize fd) in
    eax (run (on_vm (mmap t fl file_sz vaddr)))).
(** syscall.c 558-561 munmap_handler *)
Definition munmap_handler (esp : Z) : P (option Z) := checked 1 esp (let! id := int_param esp 1 in eax (run (on_vm (munmap init_page_dir ram_pages t id)))).
(** syscall.c 564-567 chdir_handler *)
Definition chdir_handler (esp : Z) : P (option Z) := checked 1 esp (let! dir := I_PARAM esp 1 in eax_bool (run (chdir dir))).
(** syscall.c 568-571 mkdir_handler *)
Definition mkdir_handler (esp : Z) : P (option Z) := checked 1 esp (let! dir := I_PARAM esp 1 in eax_bool (run (mkdir dir))).
(** syscall.c 572-575 readdir_handler *)
Definition readdir_handler (esp : Z) : P (option Z) :=
  checked 2 esp (let! fd := int_param esp 1 in let! name := I_PARAM esp 2 in eax_bool (run (readdir fd name))).
(** syscall.c 576-579 isdir_handler *)
Definition isdir_handler (esp : Z) : P (option Z) := checked 1 esp (let! fd := int_param esp 1 in eax_bool (run (isdir fd))).
(** syscall.c 580-583 inumber_handler *)
Definition inumber_handler (esp : Z) : P (option Z) := checked 1 esp (let! fd := int_param esp 1 in eax (run (inumber fd))).

(** syscall.c 622-653 init_sys_handlers: the handlers in the order of syscall-nr.h *)
Definition sys_handlers : list (Z → P (option Z)) :=
  [halt_handler; exit_handler; exec_handler; wait_handler; create_handler; remove_handler; open_handler; filesize_handler; read_handler; write_handler;
   seek_handler; tell_handler; close_handler; mmap_handler; munmap_handler; chdir_handler; mkdir_handler; readdir_handler; isdir_handler; inumber_handler].

(** syscall.c 665-677 syscall_handler: [Value None] leaves EAX as it is *)
Definition syscall_handler (esp : Z) : P (option Z) :=
  modify (set_intr_stack esp);;!
  let! ok := pointers_valid esp 4 in
  if negb ok then exit (-1)
  else
    let! syscall_id := (let! w := user_load32 esp in ret (s32 w)) in
    match nthZ sys_handlers syscall_id with
    | Some handler => handler esp
    | None => value None
    end.
End syscall.
