(* ===== verification/SyscallSpec.v ===== *)
(** What system calls do with the memory of the process that makes them: pointers are
    checked, buffers are filled and read, descriptors are a finite map. *)
From S2P Require Import Prelude Bitmap CString Block Cache Fs Inode File FreeMap Directory Filesys.
From S2P Require Import Palloc PallocSpec PageDir PageDirLaws PageDirSpec Frames Vm Evict VmLaws EvictLaws Clock SupplPage Restore Grow LoadFile FileMapping VmSpec VmScenarios Syscall.
Local Open Scope Z_scope.
Local Abbreviation dirs := (gmap Z (gmap Z Z)).

(** ** Memory as the process sees it *)
Section memory.
Context {F : Type} `{!FileOps F} `{!FileLaws F} (init_page_dir : Z) (L : bool → area) (t pd : Z) (pages : gmap Z Z).
Implicit Types s u : vm F.
Local Abbreviation vm_ok := (vm_ok init_page_dir L).

(** The byte at an address, wherever its page is. *)
Definition user_byte s (a : Z) : option Z :=
  p ← pages !! (4096 * (a / 4096)); l ← content s p; l !! Z.to_nat (a mod 4096).

(** The page of an address is resident; for [w], it may be written. *)
Definition accessible s (D : dirs) (w : bool) (a : Z) : Prop :=
  0 < a < PHYS_BASE ∧ ∃ p x, pages !! (4096 * (a / 4096)) = Some p ∧ spages s !! p = Some x ∧ kaddr x ≠ 0 ∧
    (w = true → e_writable (entry (hw s) D x) = true ∧ (mapping x ≠ 0 → ∃ m, fmaps s !! mapping x = Some m ∧ writable m = true)).

(** Bits in the page tables and bytes of memory have changed, for the process [t]. *)
Record touched_by s u (O : gset Z) (D : dirs) : Prop := {
  tb_hw : ∃ h, u = set_hw h s;
  tb_ok : vm_ok u O D;
  tb_process : process u D t pd pages;
  tb_access w a : accessible s D w a → accessible u D w a;
}.

Lemma touched_refl s O D : vm_ok s O D → process s D t pd pages → touched_by s s O D.
Proof. intros. split; try done. exists (hw s). by destruct s. Qed.
Lemma touched_trans s u v O D : touched_by s u O D → touched_by u v O D → touched_by s v O D.
Proof. intros [[h ->] _ _ A] [[k ->] ? ? B]. split; try done; [by exists k|auto]. Qed.

Lemma frame_range s O D k : vm_ok s O D → in_area (L true) k → 786432 ≤ k < 1048576.
Proof.
  intros Hok Ha. pose proof (vo_spaces _ _ _ _ _ Hok) as Hs. unfold in_area in Ha.
  pose proof (po_range _ _ _ (ow_pool _ _ _ (sp_owns _ _ _ _ _ Hs) true)). pose proof (sp_high _ _ _ _ _ Hs).
  pose proof (ow_apart _ _ _ (sp_owns _ _ _ _ _ Hs)). pose proof (ow_pool _ _ _ (sp_owns _ _ _ _ _ Hs) false) as [W _ _ Hc _ _].
  pose proof (wf_cnt _ W). lia.
Qed.

Section access.
Context s (O : gset Z) (D : dirs) (Hok : vm_ok s O D) (Hpr : process s D t pd pages).

(** The frame behind an accessible address. *)
Record behind (w : bool) (a p : Z) (x : suppl_page) (k : Z) : Prop := {
  bh_table : pages !! (4096 * (a / 4096)) = Some p;
  bh_page : spages s !! p = Some x;
  bh_fields : kaddr x = 4096 * k ∧ pagedir x = 4096 * pd ∧ vaddr x = 4096 * (a / 4096);
  bh_user : in_area (L true) k ∧ k ∈ O;
  bh_range : 786432 ≤ k < 1048576;
  bh_entry : entry (hw s) D x = entry_of (hw s) D pd (a / 4096);
  bh_maps : e_present (entry (hw s) D x) = true ∧ e_frame (entry (hw s) D x) = 4096 * k;
  bh_write : w = true → e_writable (entry (hw s) D x) = true;
}.

Lemma accessible_frame w a : accessible s D w a → ∃ p x k, behind w a p x k.
Proof.
  intros [Ha (p & x & Hp & Hx & Hk & Hw)]. pose proof Hp as (y & Hy & Epd & Ev)%(pr_table _ _ _ _ _ Hpr).
  assert (y = x) as -> by congruence. pose proof (vo_page _ _ _ _ _ Hok p x Hx) as Hpg.
  destruct (pg_frame _ _ _ _ _ Hpg Hk) as (k & Ek & HkO & Hka & Hpres & Hfr).
  rewrite Ek in Hfr. exists p, x, k. split; try done.
  - by eapply frame_range.
  - unfold entry. rewrite Epd, Ev. f_equal; mlia.
  - intros E. by apply Hw.
Qed.

(** A change of the bits of one page, and of its bytes. *)
Lemma refit w a p x k h : behind w a p x k → spaces init_page_dir L h O D → unnoticed (hw s) h O D D x k →
  e_present (entry h D x) = true → e_frame (entry h D x) = 4096 * k →
  e_writable (entry h D x) = e_writable (entry (hw s) D x) → touched_by s (set_hw h s) O D.
Proof.
  intros [Hp Hx (Ek & Epd & Ev) [Hka HkO] Hr Ee [M1 M2] Hw] Hs Hun P1 P2 P3.
  destruct (vm_ok_refit init_page_dir L s O D h p x k Hok Hx Ek Hs Hun P1 P2 ltac:(lia)) as [Hok' _].
  split; [by exists h|done| |].
  - destruct Hpr as [A B C E]. split; try done. by rewrite <-B, <-(un_cr3 _ _ _ _ _ _ _ Hun).
  - intros w' b [Hb (q & y & Hq & Hy & Hk & Hw')]. split; [done|]. exists q, y. split; [done|]. split; [done|]. split; [done|].
    intros E. destruct (Hw' E) as [W1 W2]. split; [|done]. cbn [hw set_hw]. destruct (decide (q = p)) as [->|Hne].
    + assert (y = x) as -> by congruence. by rewrite P3.
    + rewrite (un_entries _ _ _ _ _ _ _ Hun); [done|apply (pg_vaddr _ _ _ _ _ (vo_page _ _ _ _ _ Hok q y Hy))|].
      pose proof Hq as (y' & Hy' & Epd' & Ev')%(pr_table _ _ _ _ _ Hpr). assert (y' = y) as -> by congruence.
      intros [_ E2]. apply Hne. rewrite Ev, Ev' in E2.
      assert (4096 * (b / 4096) = 4096 * (a / 4096)) as E3 by mlia. rewrite E3 in Hq. congruence.
Qed.

Lemma user_byte_other w a p x k h b : behind w a p x k → spaces init_page_dir L h O D → unnoticed (hw s) h O D D x k →
  e_present (entry h D x) = true → e_frame (entry h D x) = 4096 * k →
  (∀ c, c / 4096 = k → c ≠ 4096 * k + a mod 4096 → memory h c = memory (hw s) c) → b ≠ a →
  user_byte (set_hw h s) b = user_byte s b.
Proof.
  intros [Hp Hx (Ek & Epd & Ev) [Hka HkO] Hr Ee [M1 M2] Hw] Hs Hun P1 P2 Hm Hne. unfold user_byte.
  destruct (pages !! (4096 * (b / 4096))) as [q|] eqn:Hq; [|done]. cbn [mbind option_bind].
  destruct (decide (q = p)) as [->|Hqp].
  - assert (4096 * (b / 4096) = 4096 * (a / 4096)) as Ep.
    { pose proof Hq as (y & Hy & _ & Evy)%(pr_table _ _ _ _ _ Hpr). assert (y = x) as -> by congruence. congruence. }
    unfold content. cbn [spages set_hw hw]. rewrite Hx. cbn [mbind option_bind]. unfold resident.
    rewrite bool_decide_true by lia. cbn [mbind option_bind]. rewrite Ek.
    rewrite !bytes_at_lookup by mlia. f_equal. apply Hm; mlia.
  - destruct (vm_ok_refit init_page_dir L s O D h p x k Hok Hx Ek Hs Hun P1 P2 ltac:(lia)) as [_ Hc]. by rewrite Hc.
Qed.

Lemma user_byte_at w a p x k u h : behind w a p x k → u = set_hw h s →
  user_byte u a = Some (memory h (4096 * k + a mod 4096)).
Proof.
  intros [Hp Hx (Ek & Epd & Ev) [Hka HkO] Hr Ee [M1 M2] Hw] ->. unfold user_byte, content. rewrite Hp. cbn [mbind option_bind spages set_hw hw].
  rewrite Hx. cbn [mbind option_bind]. unfold resident. rewrite bool_decide_true by lia. cbn [mbind option_bind].
  rewrite Ek. by rewrite bytes_at_lookup by mlia.
Qed.

(** The processor reads a byte. *)
Lemma read_access a : accessible s D false a →
  ∃ h c, (let! k := on_hw (translate a false) in gets (λ m, memory (hw m) k)) s = Ret (c, set_hw h s) ∧
    touched_by s (set_hw h s) O D ∧ byte c ∧ user_byte s a = Some c ∧ ∀ b, user_byte (set_hw h s) b = user_byte s b.
Proof.
  intros Ha. pose proof Ha as [Har _]. destruct (accessible_frame false a Ha) as (p & x & k & B).
  pose proof B as [Hp Hx (Ek & Epd & Ev) [Hka HkO] Hr Ee [M1 M2] Hw]. rewrite Ee in M1, M2.
  pose proof (vo_spaces _ _ _ _ _ Hok) as Hs.
  destruct (translate_ok init_page_dir L (hw s) O D pd a false Hs (pr_dir _ _ _ _ _ Hpr) (pr_running _ _ _ _ _ Hpr) ltac:(lia) M1) as
    (h & Hrun & Hs' & Hbe & Hone); [done|lia|].
  rewrite M2 in Hrun. exists h, (memory h (4096 * k + a mod 4096)). split; [by rewrite (bind_run _ _ _ _ _ (on_hw_run _ _ _ _ Hrun))|].
  assert (pagedir x / 4096 = pd ∧ vaddr x / 4096 = a / 4096) as [E1 E2] by (rewrite Epd, Ev; mlia).
  assert (unnoticed (hw s) h O D D x k) as Hun.
  { eapply unnoticed_one; [exact Hbe|]. rewrite E1, E2. exact Hone. }
  assert (entry h D x = touched false (entry (hw s) D x)) as Et.
  { unfold entry at 1. rewrite E1, E2, (proj1 Hone), Ee. done. }
  assert (¬ table_page D k) as Hnt by (by apply (table_not_user init_page_dir L (hw s) O D)).
  assert (∀ c, c / 4096 = k → memory h c = memory (hw s) c) as Hm.
  { intros c Hc. apply (be_memory _ _ _ _ _ _ Hbe); by rewrite Hc. }
  split; [|split; [|split]].
  - apply (refit false a p x k h B); [done|done|by rewrite Et, Ee|by rewrite Et, Ee|by rewrite Et].
  - apply (sp_bytes _ _ _ _ _ Hs').
  - rewrite (user_byte_at false a p x k s (hw s) B) by (by rewrite set_hw_id). by rewrite Hm by mlia.
  - intros b. destruct (decide (b = a)) as [->|Hne].
    + rewrite (user_byte_at false a p x k _ h B) by done. rewrite (user_byte_at false a p x k s (hw s) B) by (by rewrite set_hw_id). by rewrite Hm by mlia.
    + apply (user_byte_other false a p x k h b B); try done; [by rewrite Et, Ee|by rewrite Et, Ee|auto].
Qed.

(** The processor writes a byte. *)
Lemma write_access a c : accessible s D true a → byte c →
  ∃ h, write_user a [c] s = Ret (tt, set_hw h s) ∧ touched_by s (set_hw h s) O D ∧
    user_byte (set_hw h s) a = Some c ∧ ∀ b, b ≠ a → user_byte (set_hw h s) b = user_byte s b.
Proof.
  intros Ha Hc. pose proof Ha as [Har _]. destruct (accessible_frame true a Ha) as (p & x & k & B).
  pose proof B as [Hp Hx (Ek & Epd & Ev) [Hka HkO] Hr Ee [M1 M2] Hw].
  destruct (write_user_ok init_page_dir L s O D x k a [c]) as (h & Hrun & Hs' & (P1 & P2 & P3) & Hun & Hm); try done.
  - apply Hok.
  - by apply (page_ok_placed L s O D), (vo_page _ _ _ _ _ Hok p).
  - rewrite Epd. apply Hpr.
  - split_and!; [done|by apply Hw|done].
  - rewrite Ev. mlia.
  - rewrite Ev. cbn [length]. mlia.
  - by constructor.
  - exists h. split; [done|]. assert (4096 * k + (a - vaddr x) = 4096 * k + a mod 4096) as EA by (rewrite Ev; mlia). rewrite EA in Hm.
    split; [by apply (refit true a p x k h B); try done; rewrite P2, Hw|]. split.
    + rewrite (user_byte_at true a p x k _ h B) by done. rewrite Hm by mlia. unfold written. rewrite decide_True by (cbn [length]; lia).
      by rewrite Z.sub_diag.
    + intros b Hb. apply (user_byte_other true a p x k h b B); try done. intros d Hd Hne. rewrite Hm by done. apply written_ne. cbn [length]. lia.
Qed.

(** What the check of an address finds. *)
Lemma get_page_accessible w a : accessible s D w a → ∃ k, k ≠ 0 ∧ pagedir_get_page (4096 * pd) a (hw s) = Ret (k, hw s).
Proof.
  intros Ha. pose proof Ha as [Har _]. destruct (accessible_frame w a Ha) as (p & x & k & B).
  pose proof B as [Hp Hx (Ek & Epd & Ev) [Hka HkO] Hr Ee [M1 M2] Hw]. rewrite Ee in M1, M2.
  pose proof (get_page_ok init_page_dir L (hw s) O D pd a (vo_spaces _ _ _ _ _ Hok) (pr_dir _ _ _ _ _ Hpr) ltac:(lia)) as G.
  cbv zeta in G. rewrite M1, M2 in G. exists (4096 * k + a mod 4096). split; [mlia|]. apply G. lia.
Qed.
End access.
End memory.

(** ** The checks of pointers, and buffers *)
Section syscalls.
Context {F : Type} `{!SysFiles F} `{!FileLaws F} (init_page_dir ram_pages t kernel_esp : Z).
Context (L : bool → area) (pd : Z) (pages : gmap Z Z) (O : gset Z) (D : dirs).
Implicit Types s : sys F.
Local Abbreviation accessible s := (accessible pages (machine s) D).
Local Abbreviation user_byte s := (user_byte pages (machine s)).
Local Abbreviation user_address_valid := (user_address_valid init_page_dir ram_pages t).
Local Abbreviation pointers_valid := (pointers_valid init_page_dir ram_pages t).
Local Abbreviation user_load := (user_load init_page_dir ram_pages t kernel_esp).
Local Abbreviation user_store := (user_store init_page_dir ram_pages t kernel_esp).
Local Abbreviation user_load_bytes := (user_load_bytes init_page_dir ram_pages t kernel_esp).
Local Abbreviation user_store_bytes := (user_store_bytes init_page_dir ram_pages t kernel_esp).
Local Abbreviation read := (read init_page_dir ram_pages t kernel_esp).
Local Abbreviation write := (write init_page_dir ram_pages t kernel_esp).

(** The process [t] runs on a machine in order. *)
Definition running s : Prop := vm_ok init_page_dir L (machine s) O D ∧ process (machine s) D t pd pages.

(** What was opened, typed and printed is as before. *)
Record after s s' : Prop := {
  af_machine : touched_by init_page_dir L t pd pages (machine s) (machine s') O D;
  af_rest : s' = set_machine (machine s') s;
}.
Lemma after_refl s : running s → after s s.
Proof. intros [? ?]. split; [by apply touched_refl|by destruct s]. Qed.
Lemma after_trans s s1 s2 : after s s1 → after s1 s2 → after s s2.
Proof. intros [A ->] [B ->]. split; [by eapply touched_trans|done]. Qed.
Lemma after_running s s' : after s s' → running s'.
Proof. intros [[]]. by split. Qed.
Lemma after_kept s s' : after s s' → open_files s' = open_files s ∧ fs (machine s') = fs (machine s).
Proof. intros [[[h E] _ _ _] ->]. split; [done|]. by rewrite E. Qed.
Lemma after_access s s' w a : after s s' → accessible s w a → accessible s' w a.
Proof. intros [[]]. auto. Qed.

Lemma on_vm_run {A} (m : M (vm F) A) s a v : m (machine s) = Ret (a, v) → on_vm m s = Ret (a, set_machine v s).
Proof. unfold on_vm, zoom. by intros ->. Qed.
Lemma on_vm_id {A} (m : M (vm F) A) s a : m (machine s) = Ret (a, machine s) → on_vm m s = Ret (a, s).
Proof. intros H. rewrite (on_vm_run _ _ _ _ H). by destruct s. Qed.

(** An access that does not fault. *)
Lemma access_run {A} a w (f : Z → M (vm F) A) v r : bind (on_hw (translate a w)) f v = Ret r →
  bind (access init_page_dir ram_pages t kernel_esp a w) f v = Ret r.
Proof. unfold bind, access. by destruct (on_hw (translate a w) v) as [[]|[]]. Qed.

Lemma user_load_ok s a : running s → accessible s false a →
  ∃ c s', user_load a s = Ret (c, s') ∧ after s s' ∧ byte c ∧ user_byte s a = Some c ∧ ∀ b, user_byte s' b = user_byte s b.
Proof.
  intros [Hok Hpr] Ha. destruct (read_access init_page_dir L t pd pages (machine s) O D Hok Hpr a Ha) as (h & c & Hrun & Ht & Hbc & Hc & Hb).
  exists c, (set_machine (set_hw h (machine s)) s). split; [apply on_vm_run, access_run, Hrun|]. split; [by split|]. split; [done|]. split; [done|]. apply Hb.
Qed.

Lemma user_store_ok s a c : running s → accessible s true a → byte c →
  ∃ s', user_store a c s = Ret (tt, s') ∧ after s s' ∧ user_byte s' a = Some c ∧ ∀ b, b ≠ a → user_byte s' b = user_byte s b.
Proof.
  intros [Hok Hpr] Ha Hc. destruct (write_access init_page_dir L t pd pages (machine s) O D Hok Hpr a c Ha Hc) as (h & Hrun & Ht & Hat & Hb).
  exists (set_machine (set_hw h (machine s)) s). split; [apply on_vm_run, access_run, Hrun|]. split; [by split|]. split; [done|]. apply Hb.
Qed.

(** [n] accessible bytes from [a] on. *)
Definition buffer s (w : bool) (a : Z) (n : nat) : Prop := ∀ i, 0 ≤ i < Z.of_nat n → accessible s w (a + i).
Lemma buffer_cons s w a n : buffer s w a (S n) → accessible s w a ∧ buffer s w (u32 (a + 1)) n.
Proof.
  intros H. assert (accessible s w a) as Ha by (rewrite <-(Z.add_0_r a); apply H; lia). split; [done|].
  destruct Ha as [Ha _]. change PHYS_BASE with 3221225472 in Ha. rewrite u32_small by lia.
  intros i Hi. rewrite <-Z.add_assoc. apply H. lia.
Qed.
Lemma buffer_after s s' w a n : after s s' → buffer s w a n → buffer s' w a n.
Proof. intros Hf H i Hi. eapply after_access; eauto. Qed.
Lemma buffer_end s w a n : buffer s w a n → (0 < n)%nat → 0 < a ∧ a + Z.of_nat n ≤ PHYS_BASE.
Proof. intros H Hn. destruct (H 0 ltac:(lia)) as [? _]. destruct (H (Z.of_nat n - 1) ltac:(lia)) as [? _]. lia. Qed.

(** The bytes [l] are at [a]. *)
Definition holds s (a : Z) (l : list Z) : Prop := ∀ i b, l !! i = Some b → user_byte s (a + Z.of_nat i) = Some b.
Lemma holds_cons s a c l : user_byte s a = Some c → holds s (a + 1) l → holds s a (c :: l).
Proof.
  intros Hc Hl [|i] b; cbn [lookup list_lookup]; [intros [= ->]; by rewrite Z.add_0_r|].
  intros Hb. rewrite <-(Hl i b Hb). f_equal. lia.
Qed.

Lemma user_load_bytes_ok n : ∀ s a, running s → buffer s false a n →
  ∃ l s', user_load_bytes n a s = Ret (l, s') ∧ after s s' ∧ (length l = n ∧ Forall byte l) ∧ holds s a l ∧ ∀ b, user_byte s' b = user_byte s b.
Proof.
  induction n as [|n IH]; intros s a Hs Hb; cbn [Syscall.user_load_bytes].
  { exists [], s. split; [done|]. split; [by apply after_refl|]. split; [done|]. split; [by intros i b Hi|done]. }
  apply buffer_cons in Hb as [Ha Hb]. pose proof Ha as [Har _]. change PHYS_BASE with 3221225472 in Har.
  destruct (user_load_ok s a Hs Ha) as (c & s1 & Hrun & Haf & Hbc & Hc & Hsame). rewrite (bind_run _ _ _ _ _ Hrun).
  destruct (IH s1 (u32 (a + 1))) as (l & s2 & Hrun2 & Haf2 & [Hlen Hlb] & Hl & Hsame2); [by eapply after_running|by eapply buffer_after|].
  exists (c :: l), s2. rewrite (bind_run _ _ _ _ _ Hrun2). split; [done|]. split; [by eapply after_trans|]. split; [by split; [cbn; rewrite Hlen|constructor]|].
  rewrite u32_small in Hl by lia. split; [|intros; congruence].
  apply holds_cons; [done|]. intros i b Hi. rewrite <-Hsame. by apply Hl.
Qed.

Lemma user_store_bytes_ok l : ∀ s a, running s → buffer s true a (length l) → Forall byte l →
  ∃ s', user_store_bytes l a s = Ret (tt, s') ∧ after s s' ∧ holds s' a l ∧
    ∀ b, b < a ∨ a + Z.of_nat (length l) ≤ b → user_byte s' b = user_byte s b.
Proof.
  induction l as [|c l IH]; intros s a Hs Hb Hl; cbn [Syscall.user_store_bytes length].
  { exists s. split; [done|]. split; [by apply after_refl|]. split; [by intros i b Hi|done]. }
  apply Forall_cons in Hl as [Hc Hl]. apply buffer_cons in Hb as [Ha Hb]. pose proof Ha as [Har _]. change PHYS_BASE with 3221225472 in Har.
  destruct (user_store_ok s a c Hs Ha Hc) as (s1 & Hrun & Haf & Hat & Hsame). rewrite (bind_run _ _ _ _ _ Hrun).
  destruct (IH s1 (u32 (a + 1))) as (s2 & Hrun2 & Haf2 & Hl2 & Hsame2); [by eapply after_running|by eapply buffer_after|done|].
  exists s2. split; [done|]. split; [by eapply after_trans|]. rewrite u32_small in * by lia. split.
  - apply holds_cons; [|done]. rewrite Hsame2 by lia. done.
  - intros b Hbr. rewrite Hsame2, Hsame by lia. done.
Qed.

(** ** Addresses that are refused *)
Definition refused s (a : Z) : Prop :=
  a = 0 ∨ PHYS_BASE ≤ a ∨ (0 ≤ a < PHYS_BASE ∧ e_present (entry_of (hw (machine s)) D pd (a / 4096)) = false ∧
    (is_Some (pages !! (4096 * (a / 4096))) ∨ stack_grow_needed a (intr_stack s) = false)).

Lemma get_thread_ok s : running s → ∃ th, get_thread t (machine s) = Ret (th, machine s) ∧ t_pagedir th = 4096 * pd.
Proof. intros [_ [(th & Ht & Epd & _) _ _ _]]. exists th. unfold get_thread. by rewrite Ht. Qed.

Lemma valid_accessible s w a : running s → accessible s w a → user_address_valid a s = Ret (true, s).
Proof.
  intros Hs Ha. pose proof Ha as [Har _]. destruct (get_thread_ok s Hs) as (th & Hth & Epd). destruct Hs as [Hok Hpr].
  destruct (get_page_accessible init_page_dir L t pd pages (machine s) O D Hok Hpr w a Ha) as (k & Hk & Hrun).
  unfold Syscall.user_address_valid. rewrite decide_False by lia. unfold is_user_vaddr. rewrite bool_decide_true by lia. cbn [negb].
  rewrite (bind_run _ _ _ _ _ (on_vm_id _ _ _ Hth)), Epd.
  rewrite (bind_run _ _ _ k s); [by rewrite decide_True|]. apply on_vm_id. rewrite (on_hw_run _ _ _ _ Hrun). by rewrite set_hw_id.
Qed.

Lemma valid_refused s a : running s → refused s a → user_address_valid a s = Ret (false, s).
Proof.
  intros Hs Ha. unfold Syscall.user_address_valid. destruct (decide (a = 0)) as [->|Ha0]; [done|].
  unfold is_user_vaddr. case_bool_decide as Hlt; [|done]. cbn [negb]. destruct Ha as [?|[?|(Har & Habs & Hr)]]; [done|lia|].
  destruct (get_thread_ok s Hs) as (th & Hth & Epd). destruct Hs as [Hok Hpr].
  rewrite (bind_run _ _ _ _ _ (on_vm_id _ _ _ Hth)), Epd.
  pose proof (get_page_ok init_page_dir L (hw (machine s)) O D pd a (vo_spaces _ _ _ _ _ Hok) (pr_dir _ _ _ _ _ Hpr) Har) as G.
  cbv zeta in G. rewrite Habs in G. specialize (G ltac:(done)).
  rewrite (bind_run _ _ _ 0 s); [|apply on_vm_id; rewrite (on_hw_run _ _ _ _ G); by rewrite set_hw_id].
  rewrite decide_False by (by intros []). pose proof (lookup_run (machine s) D t pd pages a Hpr Har) as Hl.
  rewrite (bind_run _ _ _ _ _ (on_vm_id _ _ _ Hl)). destruct (pages !! _) as [p|] eqn:Hp; cbn [default].
  - destruct (fault_page init_page_dir L (machine s) O D t pd pages _ p Hok Hpr Hp) as [Hp0 _]. by rewrite decide_False.
  - rewrite decide_True, bind_gets by done. destruct Hr as [[? E]| ->]; [discriminate E|]. done.
Qed.

Lemma pointers_accessible w n : ∀ s a, running s → buffer s w a n → pointers_valid a n s = Ret (true, s).
Proof.
  induction n as [|n IH]; intros s a Hs Hb; cbn [Syscall.pointers_valid]; [done|].
  apply buffer_cons in Hb as [Ha Hb]. rewrite (bind_run _ _ _ _ _ (valid_accessible s w a Hs Ha)). by apply IH.
Qed.

Lemma pointers_refused w i : ∀ n s a, running s → buffer s w a i → refused s (a + Z.of_nat i) → (i < n)%nat →
  0 ≤ a + Z.of_nat i < 4294967296 → pointers_valid a n s = Ret (false, s).
Proof.
  induction i as [|i IH]; intros [|n] s a Hs Hb Hr Hn Hrange; try lia; cbn [Syscall.pointers_valid].
  - rewrite Z.add_0_r in Hr. by rewrite (bind_run _ _ _ _ _ (valid_refused s a Hs Hr)).
  - apply buffer_cons in Hb as [Ha Hb]. rewrite (bind_run _ _ _ _ _ (valid_accessible s w a Hs Ha)). pose proof Ha as [Har _].
    change PHYS_BASE with 3221225472 in Har.
    apply IH; [done|done| |lia|]; rewrite u32_small by lia; [|lia]. by replace (a + 1 + Z.of_nat i) with (a + Z.of_nat (S i)) by lia.
Qed.

(** ** Buffers that may be written *)
Lemma writable_loop_ok s a count size : running s → buffer s true a (Z.to_nat size) → 0 ≤ size → count mod 4096 = 0 → count < size + 4096 →
  count < 4294967296 - 4096 → ∀ fuel i, 0 ≤ i ≤ count → i mod 4096 = 0 → (count - i) / 4096 < Z.of_nat fuel → writable_loop t fuel a i count s = Ret (true, s).
Proof.
  intros Hs Hb Hsz Hc Hcs Hmax. induction fuel as [|fuel IH]; intros i Hi Him Hf; [mlia|]. cbn [writable_loop].
  destruct (decide (i < count)) as [Hlt|]; [|done]. assert (i < size) as His by mlia.
  pose proof (Hb i ltac:(lia)) as Ha. pose proof Ha as [Har (p & x & Hp & Hx & _ & Hw)]. change PHYS_BASE with 3221225472 in Har.
  destruct (buffer_end s true a _ Hb ltac:(lia)) as [Ha0 _]. rewrite u32_small by lia.
  pose proof (lookup_run (machine s) D t pd pages (a + i) (proj2 Hs) ltac:(change PHYS_BASE with 3221225472; lia)) as Hl.
  rewrite (bind_run _ _ _ _ _ (on_vm_id _ _ _ Hl)), Hp. cbn [default].
  destruct (fault_page init_page_dir L (machine s) O D t pd pages _ p (proj1 Hs) (proj2 Hs) Hp) as [Hp0 _].
  rewrite decide_False by done. rewrite (bind_run _ _ _ _ _ (on_vm_id _ _ _ (get_page_run (machine s) p x Hx))).
  change PAGE_SIZE with 4096. rewrite u32_small by lia.
  assert (writable_loop t fuel a (i + 4096) count s = Ret (true, s)) as Hnext by (apply IH; mlia).
  destruct (decide (mapping x = 0)) as [|Hm]; [done|]. destruct (proj2 (Hw eq_refl) Hm) as (m & Hfm & Hwm).
  assert (get_fmap (mapping x) (machine s) = Ret (m, machine s)) as Hg by (unfold get_fmap; by rewrite Hfm).
  rewrite (bind_run _ _ _ _ _ (on_vm_id _ _ _ Hg)), Hwm. done.
Qed.

Lemma pointers_writable_ok s a size : running s → buffer s true a (Z.to_nat size) → 0 ≤ size < 2147483648 →
  pointers_writable t a size s = Ret (true, s).
Proof.
  intros Hs Hb Hsz. unfold pointers_writable. change PAGE_SIZE with 4096. case_decide as Hm.
  - rewrite u32_small by mlia. apply (writable_loop_ok s a _ size); try done; mlia.
  - apply (writable_loop_ok s a _ size); try done; mlia.
Qed.

(** ** Files *)
Lemma on_files_run {A} (m : M F A) s a f : m (fs (machine s)) = Ret (a, f) → on_files m s = Ret (a, set_machine (set_fs f (machine s)) s).
Proof. intros H. apply on_vm_run, on_fs_run, H. Qed.

(** The open files have changed, and not their lengths. *)
Lemma files_changed s A : running s →
  (∀ g, opened (fs (machine s)) g → opened A g ∧ length (file_bytes A g) = length (file_bytes (fs (machine s)) g)) →
  let s' := set_machine (set_fs A (machine s)) s in
  running s' ∧ (∀ w a n, buffer s w a n → buffer s' w a n) ∧ ∀ b, user_byte s' b = user_byte s b.
Proof.
  intros [Hok [P1 P2 P3 P4]] HA s'. split; [|done]. split; [by apply set_fs_ok|]. done.
Qed.

Lemma get_file_open s fd f : 0 ≤ fd < 256 → nthZ (open_files s) fd = Some (Some f) → thread_get_file fd s = Ret (Some f, s).
Proof.
  intros Hfd Hf. unfold thread_get_file. change MAX_OPEN_FILES with 256. rewrite decide_False by lia.
  rewrite bind_gets, Hf. reflexivity.
Qed.

(** C23: What the check of addresses refuses ends the process, and this includes pages that the process does have.  Let the
    first [i] bytes of a buffer be in resident pages, and let the next one be null, in the kernel's part of memory, in no
    page of the process nor where its stack may grow, or in a page that the process has but that is not in memory, being
    evicted or not loaded yet.  Then [read] and [write], for any descriptor and any size beyond [i], end the process with
    status -1 and change nothing; so do [create], [remove] and [open] when the path begins at such an address, and [exec] of
    such a command line.  In the last case the code disagrees with the answer to question B8 in vm/DESIGNDOC, which says
    that paged-out pages that a system call accesses are read again from the file or the swap: here the process is killed
    although it did nothing wrong. *)
Theorem bad_pointers_kill (exec_child : Z → M (sys F) Z) s fd a i size n : running s → buffer s false a i → refused s (a + Z.of_nat i) → Z.of_nat i < size →
  0 ≤ a + Z.of_nat i < 4294967296 →
  read fd a size s = Ret (Exited (-1), s) ∧ write fd a size s = Ret (Exited (-1), s) ∧
  (i = 0%nat → create init_page_dir ram_pages t kernel_esp a n s = Ret (Exited (-1), s) ∧
    Syscall.remove init_page_dir ram_pages t kernel_esp a s = Ret (Exited (-1), s) ∧
    Syscall.open init_page_dir ram_pages t kernel_esp a s = Ret (Exited (-1), s) ∧
    exec init_page_dir ram_pages t kernel_esp exec_child a s = Ret (Exited (-1), s)).
Proof.
  intros Hs Hb Hr Hsz Hrange. pose proof (pointers_refused false i (Z.to_nat size) s a Hs Hb Hr ltac:(lia) Hrange) as Hp.
  split; [|split].
  - unfold Syscall.read. by rewrite (bind_run _ _ _ _ _ Hp).
  - unfold Syscall.write. by rewrite (bind_run _ _ _ _ _ Hp).
  - intros ->. rewrite Z.add_0_r in Hr.
    assert (string_valid init_page_dir ram_pages t kernel_esp a s = Ret (false, s)) as Hst.
    { unfold string_valid. cbn [string_valid_loop]. by rewrite (bind_run _ _ _ _ _ (valid_refused s a Hs Hr)). }
    unfold create, Syscall.remove, Syscall.open, exec. by rewrite !(bind_run _ _ _ _ _ Hst).
Qed.

(** C24: [read] gives the process the bytes of the file from its position on, if the buffer is in memory.  Let the descriptor,
    from 2 to 255, be that of an open file, let the size be below 2^31, and let every byte of the buffer be in a resident
    page that may be written (at a byte of a page that is not resident the process is killed, also if the page is only
    paged out).  Then as many of the [size] bytes as the file has are at the buffer afterwards, their number is
    the result, every other byte of the process is as it was, and so is the table of descriptors. *)
Theorem read_fills_buffer s fd f a size : running s → 2 ≤ fd < 256 → nthZ (open_files s) fd = Some (Some f) →
  opened (fs (machine s)) f → 0 ≤ position (fs (machine s)) f → 0 ≤ size < 2147483648 → buffer s true a (Z.to_nat size) →
  let l := take (Z.to_nat size) (drop (Z.to_nat (position (fs (machine s)) f)) (file_bytes (fs (machine s)) f)) in
  ∃ s', read fd a size s = Ret (Value (Z.of_nat (length l)), s') ∧ running s' ∧ holds s' a l ∧
    (∀ b, b < a ∨ a + Z.of_nat (length l) ≤ b → user_byte s' b = user_byte s b) ∧ open_files s' = open_files s.
Proof.
  intros Hs Hfd Hf Hop Hpos Hsz Hb l. unfold Syscall.read.
  rewrite (bind_run _ _ _ _ _ (pointers_accessible true _ s a Hs Hb)). cbn [negb].
  rewrite (bind_run _ _ _ _ _ (pointers_writable_ok s a size Hs Hb Hsz)). cbn [negb].
  rewrite decide_False, decide_False by lia. unfold run. rewrite bind_assoc, (bind_run _ _ _ _ _ (get_file_open s fd f ltac:(lia) Hf)).
  rewrite s32_small by lia. destruct (read_law (fs (machine s)) f size Hop Hpos ltac:(lia)) as (A & Hrun & HA). fold l in Hrun.
  rewrite !bind_assoc, (bind_run _ _ _ _ _ (on_files_run _ _ _ _ Hrun)).
  destruct (files_changed s A Hs) as (Hs1 & Hb1 & Hu1).
  { intros g Hg. destruct (HA g Hg) as [? ->]. done. }
  assert (Forall byte l) as Hl by (apply Forall_take, Forall_drop, bytes_law, Hop).
  assert (length l ≤ Z.to_nat size)%nat as Hlen by (unfold l; rewrite length_take; lia).
  destruct (user_store_bytes_ok l _ a Hs1) as (s' & Hrun2 & Haf & Hl' & Hsame); [|done|].
  { intros i Hi. apply (Hb1 true a _ Hb). lia. }
  exists s'. rewrite bind_assoc, (bind_run _ _ _ _ _ Hrun2), bind_ret. split; [done|]. split; [by eapply after_running|]. split; [done|].
  split; [intros b Hbr; by rewrite Hsame, Hu1|]. by rewrite (af_rest _ _ Haf).
Qed.

(** C25: [write] puts the bytes of the buffer into the file at its position, if the buffer is in memory and the bytes end
    within the file.  Let the descriptor, from 2 to 255, be that of an open file that is not a directory (for a directory
    [write] returns -1), let the size be below 2^31, and let every byte of the buffer be in a resident page (otherwise the
    process is killed, also if the page is only paged out).  Then the bytes of the file at the position are those that
    the process sees at the buffer, its other bytes stay, the result is the size, and the process keeps its memory and its
    descriptors. *)
Theorem write_saves_buffer s fd f a size : running s → 2 ≤ fd < 256 → nthZ (open_files s) fd = Some (Some f) →
  file_is_dir (Some f) (fs (machine s)) = Ret (false, fs (machine s)) →
  opened (fs (machine s)) f → 0 ≤ position (fs (machine s)) f → 0 ≤ size < 2147483648 → buffer s false a (Z.to_nat size) →
  position (fs (machine s)) f + size ≤ Z.of_nat (length (file_bytes (fs (machine s)) f)) →
  ∃ s' l, write fd a size s = Ret (Value size, s') ∧ running s' ∧ length l = Z.to_nat size ∧ holds s a l ∧
    file_bytes (fs (machine s')) f = splice (file_bytes (fs (machine s)) f) (Z.to_nat (position (fs (machine s)) f)) l ∧
    (∀ b, user_byte s' b = user_byte s b) ∧ open_files s' = open_files s.
Proof.
  intros Hs Hfd Hf Hdir Hop Hpos Hsz Hb Hend. unfold Syscall.write.
  rewrite (bind_run _ _ _ _ _ (pointers_accessible false _ s a Hs Hb)). cbn [negb].
  rewrite decide_False, decide_False by lia. unfold run. rewrite bind_assoc, (bind_run _ _ _ _ _ (get_file_open s fd f ltac:(lia) Hf)).
  assert (on_files (file_is_dir (Some f)) s = Ret (false, s)) as Hd.
  { rewrite (on_files_run _ _ _ _ Hdir). by destruct s as [[]]. }
  rewrite bind_assoc, (bind_run _ _ _ _ _ Hd).
  destruct (user_load_bytes_ok (Z.to_nat size) s a Hs Hb) as (l & s1 & Hrun & Haf & [Hlen Hlb] & Hl & Hsame).
  rewrite bind_assoc, (bind_run _ _ _ _ _ Hrun), s32_small by lia.
  destruct (after_kept _ _ Haf) as [_ Efs].
  assert (size = Z.of_nat (length l)) as Esz by lia.
  destruct (write_law (fs (machine s1)) f l) as (A & Hrun2 & HA & HfA); rewrite ?Efs in *; [done..|lia|].
  rewrite <-Esz, <-Efs in Hrun2. rewrite (bind_run _ _ _ _ _ (on_files_run _ _ _ _ Hrun2)).
  destruct (files_changed s1 A (after_running _ _ Haf)) as (Hs' & _ & Hu'); [by rewrite Efs|].
  eexists _, l. split; [done|]. split; [done|]. split; [done|]. split; [done|]. split; [done|].
  split; [intros b; by rewrite Hu', Hsame|]. by rewrite (af_rest _ _ Haf).
Qed.

(** ** Paths *)
Lemma holds_inv s a c l : holds s a (c :: l) → user_byte s a = Some c ∧ holds s (a + 1) l.
Proof.
  intros H. split; [by rewrite <-(H 0%nat c), Z.add_0_r|]. intros i b Hi. rewrite <-(H (S i) b) by done. f_equal. lia.
Qed.
Lemma holds_after s s' a l : (∀ b, user_byte s' b = user_byte s b) → holds s a l → holds s' a l.
Proof. intros E H i b Hi. rewrite E. by apply H. Qed.

(** Reading the next byte of what is held. *)
Lemma load_held s a c l : running s → buffer s false a (length (c :: l)) → holds s a (c :: l) →
  ∃ s', user_load a s = Ret (c, s') ∧ after s s' ∧ (∀ b, user_byte s' b = user_byte s b) ∧ u32 (a + 1) = a + 1 ∧
    accessible s false a ∧ buffer s' false (a + 1) (length l) ∧ holds s' (a + 1) l ∧ a + Z.of_nat (length (c :: l)) ≤ PHYS_BASE.
Proof.
  intros Hs Hb Hh. destruct (buffer_end _ _ _ _ Hb) as [Ha0 Hend]; [cbn; lia|].
  apply buffer_cons in Hb as [Ha Hb]. apply holds_inv in Hh as [Hc Hl]. pose proof Ha as [Har _]. change PHYS_BASE with 3221225472 in Har.
  rewrite u32_small in * by lia. destruct (user_load_ok s a Hs Ha) as (c' & s' & Hrun & Haf & _ & Hc' & Hsame). assert (c' = c) as -> by congruence.
  exists s'. split_and!; try done; [by eapply buffer_after|by eapply holds_after].
Qed.

Lemma path_loop_ok l : ∀ fuel s a, running s → buffer s false a (length (l ++ [0])) → holds s a (l ++ [0]) → (0 ∉ l) →
  (length l < fuel)%nat →
  ∃ s', string_valid_loop init_page_dir ram_pages t kernel_esp fuel a s = Ret (true, s') ∧ after s s' ∧ ∀ b, user_byte s' b = user_byte s b.
Proof.
  induction l as [|c l IH]; intros [|fuel] s a Hs Hb Hh Hn Hf; cbn [length app] in *; try lia; cbn [string_valid_loop].
  - destruct (load_held s a 0 [] Hs Hb Hh) as (s' & Hrun & Haf & Hsame & _ & Ha & _).
    rewrite (bind_run _ _ _ _ _ (valid_accessible s false a Hs Ha)). cbn [negb]. rewrite (bind_run _ _ _ _ _ Hrun). by exists s'.
  - destruct (load_held s a c (l ++ [0]) Hs Hb Hh) as (s1 & Hrun & Haf & Hsame & Hu & Ha & Hb1 & Hh1 & _).
    rewrite (bind_run _ _ _ _ _ (valid_accessible s false a Hs Ha)). cbn [negb]. rewrite (bind_run _ _ _ _ _ Hrun), Hu.
    apply not_elem_of_cons in Hn as [Hc Hn]. rewrite decide_False by done.
    destruct (IH fuel s1 (a + 1)) as (s2 & Hrun2 & Haf2 & Hsame2); try done; [by eapply after_running|lia|].
    exists s2. split; [done|]. split; [by eapply after_trans|]. intros b. by rewrite Hsame2.
Qed.

Lemma user_string_ok l : ∀ n s a, running s → buffer s false a (length (l ++ [0])) → holds s a (l ++ [0]) → (0 ∉ l) →
  (length l < n)%nat →
  ∃ s', user_string init_page_dir ram_pages t kernel_esp n a s = Ret (l, s') ∧ after s s'.
Proof.
  induction l as [|c l IH]; intros [|n] s a Hs Hb Hh Hn Hf; cbn [length app] in *; try lia; cbn [user_string].
  - destruct (load_held s a 0 [] Hs Hb Hh) as (s' & Hrun & Haf & _). rewrite (bind_run _ _ _ _ _ Hrun), decide_True by done. by exists s'.
  - destruct (load_held s a c (l ++ [0]) Hs Hb Hh) as (s1 & Hrun & Haf & Hsame & Hu & Ha & Hb1 & Hh1 & _).
    apply not_elem_of_cons in Hn as [Hc Hn]. rewrite (bind_run _ _ _ _ _ Hrun), decide_False, Hu by done.
    destruct (IH n s1 (a + 1)) as (s2 & Hrun2 & Haf2); try done; [by eapply after_running|lia|].
    exists s2. rewrite (bind_run _ _ _ _ _ Hrun2). split; [done|by eapply after_trans].
Qed.

(** The path that a system call finds at its argument. *)
Lemma path_ok s a l : running s → buffer s false a (length (l ++ [0])) → holds s a (l ++ [0]) → (0 ∉ l) →
  Z.of_nat (length l) ≤ MAX_PATH_LEN →
  ∃ s1 s2, string_valid init_page_dir ram_pages t kernel_esp a s = Ret (true, s1) ∧
    user_path init_page_dir ram_pages t kernel_esp a s1 = Ret (l, s2) ∧ after s s1 ∧ after s1 s2.
Proof.
  intros Hs Hb Hh Hn Hlen. destruct (buffer_end _ _ _ _ Hb) as [Ha0 Hend]; [rewrite length_app; cbn; lia|]. rewrite length_app in Hend. cbn in Hend.
  destruct (path_loop_ok l (S (Z.to_nat (PHYS_BASE - a))) s a Hs Hb Hh Hn ltac:(lia)) as (s1 & H1 & Haf1 & Hsame).
  destruct (user_string_ok l (Z.to_nat (MAX_PATH_LEN + 1)) s1 a) as (s2 & H2 & Haf2); try done;
    [by eapply after_running|by eapply buffer_after|by eapply holds_after|lia|].
  by exists s1, s2.
Qed.
End syscalls.

(** ** Descriptors *)
Section descriptors.
Context {F : Type} `{!SysFiles F}.
Implicit Types s : sys F.

(** The file behind a number. *)
Definition descriptor s (fd : Z) : option nat :=
  if decide (0 ≤ fd < 256) then mjoin (open_files s !! Z.to_nat fd) else None.
Definition table_ok s : Prop := length (open_files s) = 256%nat.

(** From [s] to [s'], just what is behind [fd] has changed. *)
Record redirected s s' (fd : Z) (x : option nat) : Prop := {
  rd_rest : s' = set_open_files (open_files s') s;
  rd_table : table_ok s';
  rd_map j : descriptor s' j = if decide (j = fd) then x else descriptor s j;
}.

Lemma table_lookup s fd : table_ok s → 0 ≤ fd < 256 → nthZ (open_files s) fd = Some (descriptor s fd).
Proof.
  intros Ht Hfd. rewrite nthZ_lookup by lia. unfold descriptor. rewrite decide_True by done.
  destruct (lookup_lt_is_Some_2 (open_files s) (Z.to_nat fd)) as [x Hx]; [rewrite Ht; lia|]. by rewrite Hx.
Qed.

Lemma store_fd_ok s fd x : table_ok s → 0 ≤ fd < 256 → ∃ s', store_fd fd x s = Ret (tt, s') ∧ redirected s s' fd x.
Proof.
  intros Ht Hfd. unfold store_fd. rewrite bind_gets, setZ_run by (rewrite Ht; lia). cbn [or_fault]. rewrite bind_lift.
  eexists. split; [done|]. split; [done|by unfold table_ok; cbn; rewrite length_insert|].
  intros j. unfold descriptor. cbn [set_open_files open_files]. destruct (decide (j = fd)) as [->|Hne].
  - rewrite decide_True, list_lookup_insert_eq by (rewrite ?Ht; lia). done.
  - case_decide; [|done]. by rewrite list_lookup_insert_ne by lia.
Qed.

Lemma thread_get_file_ok s fd : table_ok s → thread_get_file fd s = Ret (descriptor s fd, s).
Proof.
  intros Ht. unfold thread_get_file. change MAX_OPEN_FILES with 256. case_decide as Hfd.
  - unfold descriptor. by rewrite decide_False by lia.
  - rewrite bind_gets, table_lookup by (done || lia). reflexivity.
Qed.

Lemma free_fd_loop_ok s n : table_ok s → ∀ i, 0 ≤ i → i + Z.of_nat n = 256 →
  ∃ fd, free_fd_loop n (open_files s) i = Ret fd ∧
    if decide (fd = -1) then ∀ j, i ≤ j < 256 → descriptor s j ≠ None
    else i ≤ fd < 256 ∧ descriptor s fd = None ∧ ∀ j, i ≤ j < fd → descriptor s j ≠ None.
Proof.
  intros Ht. induction n as [|n IH]; intros i Hi Hn; cbn [free_fd_loop].
  - exists (-1). split; [done|]. rewrite decide_True by done. lia.
  - rewrite table_lookup by (done || lia). cbn [or_fault obind]. case_decide as Hd.
    + exists i. split; [done|]. rewrite decide_False by lia. split; [lia|]. split; [done|lia].
    + destruct (IH (i + 1)) as (fd & Hrun & H); [lia..|]. exists fd. split; [done|]. case_decide.
      * intros j Hj. destruct (decide (j = i)) as [->|]; [done|]. apply H. lia.
      * destruct H as (H1 & H2 & H3). split; [lia|]. split; [done|]. intros j Hj. destruct (decide (j = i)) as [->|]; [done|]. apply H3. lia.
Qed.

Definition least_free s (fd : Z) : Prop := 2 ≤ fd < 256 ∧ descriptor s fd = None ∧ ∀ j, 2 ≤ j < fd → descriptor s j ≠ None.

Lemma thread_get_free_fd_ok s : table_ok s →
  ∃ fd, thread_get_free_fd s = Ret (fd, s) ∧ if decide (fd = -1) then ∀ j, 2 ≤ j < 256 → descriptor s j ≠ None else least_free s fd.
Proof.
  intros Ht. destruct (free_fd_loop_ok s 254 Ht 2 ltac:(lia) ltac:(lia)) as (fd & Hrun & H). exists fd. split; [|done].
  unfold thread_get_free_fd. rewrite bind_gets. change (Z.to_nat (MAX_OPEN_FILES - 2)) with 254%nat. by rewrite Hrun.
Qed.

Lemma thread_set_file_ok s f fd : table_ok s → ∃ r s', thread_set_file (Some f) fd s = Ret (r, s') ∧
  if (r : bool) then 0 ≤ fd < 256 ∧ descriptor s fd = None ∧ redirected s s' fd (Some f)
  else s' = s ∧ ¬ (0 ≤ fd < 256 ∧ descriptor s fd = None).
Proof.
  intros Ht. unfold thread_set_file. change MAX_OPEN_FILES with 256. case_decide as Hfd.
  { exists false, s. split; [done|]. split; [done|lia]. }
  rewrite bind_gets, table_lookup by (done || lia). cbn [or_fault]. rewrite bind_lift. case_decide as Hd.
  { exists false, s. split; [done|]. split; [done|tauto]. }
  destruct (store_fd_ok s fd (Some f) Ht ltac:(lia)) as (s' & Hrun & Hrd). exists true, s'. rewrite (bind_run _ _ _ _ _ Hrun).
  split; [done|]. split; [lia|]. split; [by destruct (descriptor s fd)|done].
Qed.

Definition with_files (A : F) s : sys F := set_machine (set_fs A (machine s)) s.

Lemma close_ok s fd f A : table_ok s → descriptor s fd = Some f → file_close (Some f) (fs (machine s)) = Ret (tt, A) →
  ∃ s', close fd s = Ret (0, s') ∧ redirected (with_files A s) s' fd None.
Proof.
  intros Ht Hf Hc. assert (0 ≤ fd < 256) as Hfd by (unfold descriptor in Hf; by case_decide).
  unfold close. rewrite (bind_run _ _ _ _ _ (thread_get_file_ok s fd Ht)), Hf. unfold thread_set_file_force. change MAX_OPEN_FILES with 256.
  rewrite decide_False by lia. rewrite bind_assoc, bind_gets, table_lookup, Hf by (done || lia). cbn [or_fault]. rewrite bind_assoc, bind_lift.
  rewrite decide_True by done. rewrite bind_assoc, (bind_run _ _ _ _ _ (on_files_run _ _ _ _ Hc)).
  destruct (store_fd_ok (with_files A s) fd None Ht Hfd) as (s' & Hrun & Hrd). exists s'.
  rewrite bind_assoc, (bind_run _ _ _ _ _ Hrun). done.
Qed.

Lemma close_none s fd : table_ok s → descriptor s fd = None → close fd s = Ret (-1, s).
Proof. intros Ht Hf. unfold close. by rewrite (bind_run _ _ _ _ _ (thread_get_file_ok s fd Ht)), Hf. Qed.

(** Closing all files, if each can be closed. *)
Lemma close_loop_ok (I : F → Prop) n : (∀ f A, I A → ∃ A', file_close (Some f) A = Ret (tt, A') ∧ I A') →
  ∀ s i, table_ok s → I (fs (machine s)) → 0 ≤ i → i + Z.of_nat n = 256 →
  ∃ s', close_loop n i s = Ret (tt, s') ∧ I (fs (machine s')) ∧ ∀ j, descriptor s' j = if decide (i ≤ j) then None else descriptor s j.
Proof.
  intros Hclose. induction n as [|n IH]; intros s i Ht HI Hi Hn; cbn [close_loop].
  - exists s. split; [done|]. split; [done|]. intros j. unfold descriptor. repeat case_decide; try done; lia.
  - rewrite bind_gets, table_lookup by (done || lia). cbn [or_fault]. rewrite bind_lift.
    assert (∃ s1, (if decide (descriptor s i ≠ None) then on_files (file_close (descriptor s i));;! store_fd i None else ret tt) s = Ret (tt, s1) ∧
      table_ok s1 ∧ I (fs (machine s1)) ∧ ∀ j, descriptor s1 j = if decide (j = i) then None else descriptor s j) as (s1 & Hrun & Ht1 & HI1 & Hm).
    { destruct (descriptor s i) as [f|] eqn:Hd.
      - rewrite decide_True by done. destruct (Hclose f _ HI) as (A & Hc & HA). rewrite (bind_run _ _ _ _ _ (on_files_run _ _ _ _ Hc)).
        destruct (store_fd_ok (with_files A s) i None Ht ltac:(lia)) as (s1 & Hrun & [H1 H2 H3]). exists s1. split; [done|]. split; [done|].
        split; [by rewrite H1|done].
      - rewrite decide_False by tauto. exists s. split; [done|]. split; [done|]. split; [done|]. intros j. by case_decide; subst. }
    rewrite (bind_run _ _ _ _ _ Hrun). destruct (IH s1 (i + 1) Ht1 HI1) as (s2 & Hrun2 & HI2 & Hm2); [lia..|].
    exists s2. split; [done|]. split; [done|]. intros j. rewrite Hm2, Hm. repeat case_decide; try done; lia.
Qed.

(** C27: The table of descriptors is a finite map from 0..255 to open files.  [thread_get_file] looks a number up, which may
    be any; [thread_get_free_fd] finds the least free number from 2 on, or -1 if there is none; [thread_set_file] enters
    a file at a free number and nowhere else; [close] closes the file and takes just its number away, or gives -1; and
    [thread_close_all_files] leaves no descriptor. *)
Theorem descriptors_refine_map s : table_ok s →
  (∀ fd, thread_get_file fd s = Ret (descriptor s fd, s)) ∧
  (∃ fd, thread_get_free_fd s = Ret (fd, s) ∧
    if decide (fd = -1) then ∀ j, 2 ≤ j < 256 → descriptor s j ≠ None else least_free s fd) ∧
  (∀ f fd, ∃ r s', thread_set_file (Some f) fd s = Ret (r, s') ∧
    if (r : bool) then 0 ≤ fd < 256 ∧ descriptor s fd = None ∧ redirected s s' fd (Some f)
    else s' = s ∧ ¬ (0 ≤ fd < 256 ∧ descriptor s fd = None)) ∧
  (∀ fd f A, descriptor s fd = Some f → file_close (Some f) (fs (machine s)) = Ret (tt, A) →
    ∃ s', close fd s = Ret (0, s') ∧ redirected (with_files A s) s' fd None) ∧
  (∀ fd, descriptor s fd = None → close fd s = Ret (-1, s)) ∧
  (∀ I : F → Prop, I (fs (machine s)) → (∀ f A, I A → ∃ A', file_close (Some f) A = Ret (tt, A') ∧ I A') →
    ∃ s', thread_close_all_files s = Ret (tt, s') ∧ ∀ j, descriptor s' j = None).
Proof.
  intros Ht. split; [by intros; apply thread_get_file_ok|]. split; [by apply thread_get_free_fd_ok|].
  split; [by intros; apply thread_set_file_ok|]. split; [by intros; eapply close_ok|]. split; [by intros; apply close_none|].
  intros I HI Hc. destruct (close_loop_ok I 256 Hc s 0 Ht HI ltac:(lia) ltac:(lia)) as (s' & Hrun & _ & Hm).
  exists s'. split; [done|]. intros j. rewrite Hm. case_decide; [done|]. unfold descriptor. by rewrite decide_False by lia.
Qed.
End descriptors.

(** ** Opening, and seeking *)
Section opening.
Context {F : Type} `{!SysFiles F} `{!FileLaws F} (init_page_dir ram_pages t kernel_esp : Z).
Context (L : bool → area) (pd : Z) (pages : gmap Z Z) (O : gset Z) (D : dirs).
Implicit Types s : sys F.

(** C26: [open] of a path that is in the process's memory opens it as the file system does, and gives it the least free
    descriptor from 2 on; the other descriptors stay.  If the file system does not open it the result is -1, and if all
    descriptors are taken it is -1 too, and the file system is not asked. *)
Theorem open_takes_least_descriptor s a path r A : running init_page_dir t L pd pages O D s → table_ok s →
  buffer pages D s false a (length (path ++ [0])) → holds pages s a (path ++ [0]) → (0 ∉ path) → Z.of_nat (length path) ≤ MAX_PATH_LEN →
  filesys_open path (fs (machine s)) = Ret (r, A) →
  ∃ s' fd, Syscall.open init_page_dir ram_pages t kernel_esp a s = Ret (Value fd, s') ∧
    match r with
    | Some f =>
        (least_free s fd ∧ fs (machine s') = A ∧ ∀ j, descriptor s' j = if decide (j = fd) then Some f else descriptor s j) ∨
        (fd = -1 ∧ (∀ j, 2 ≤ j < 256 → descriptor s j ≠ None) ∧ fs (machine s') = fs (machine s) ∧ open_files s' = open_files s)
    | None => fd = -1 ∧ open_files s' = open_files s
    end.
Proof.
  intros Hs Ht Hb Hh Hn Hlen Hopen.
  destruct (path_ok init_page_dir ram_pages t kernel_esp L pd pages O D s a path Hs Hb Hh Hn Hlen) as (s1 & s2 & H1 & H2 & Haf1 & Haf2).
  destruct (after_kept _ _ _ _ _ _ _ _ _ Haf1) as [Eo1 Ef1], (after_kept _ _ _ _ _ _ _ _ _ Haf2) as [Eo2 Ef2].
  assert (∀ j, descriptor s1 j = descriptor s j) as Hd1 by (intros j; unfold descriptor; by rewrite Eo1).
  assert (∀ j, descriptor s2 j = descriptor s j) as Hd2 by (intros j; unfold descriptor; by rewrite Eo2, Eo1).
  assert (table_ok s1 ∧ table_ok s2) as [Ht1 Ht2] by (unfold table_ok; by rewrite Eo2, Eo1).
  unfold Syscall.open. rewrite (bind_run _ _ _ _ _ H1). cbn [negb]. unfold run.
  destruct (thread_get_free_fd_ok s1 Ht1) as (fd & Hfd & Hfree). rewrite bind_assoc, (bind_run _ _ _ _ _ Hfd). case_decide as Hneg.
  - subst fd. rewrite decide_False by lia. exists s1, (-1). split; [done|].
    destruct r as [f|]; [|done]. right. split; [done|]. split; [|done]. intros j Hj. rewrite <-Hd1. by apply Hfree.
  - destruct Hfree as (F1 & F2 & F3). rewrite decide_True by lia. rewrite bind_assoc, (bind_run _ _ _ _ _ H2).
    assert (filesys_open path (fs (machine s2)) = Ret (r, A)) as Ho by (by rewrite Ef2, Ef1).
    rewrite bind_assoc, (bind_run _ _ _ _ _ (on_files_run _ _ _ _ Ho)). destruct r as [f|].
    + rewrite decide_True by done. rewrite bind_assoc.
      destruct (thread_set_file_ok (with_files A s2) f fd Ht2) as (b & s3 & Hset & Hb3). rewrite (bind_run _ _ _ _ _ Hset).
      assert (descriptor (with_files A s2) fd = None) as Hfree2 by (change (descriptor s2 fd = None); by rewrite Hd2, <-Hd1).
      destruct b; [|exfalso; apply Hb3; split; [lia|done]]. destruct Hb3 as (_ & _ & [R1 R2 R3]).
      exists s3, fd. split; [done|]. left. split; [split; [done|]; split; [by rewrite <-Hd1|]; intros; rewrite <-Hd1; auto|].
      split; [by rewrite R1|]. intros j. rewrite R3. case_decide; [done|]. apply Hd2.
    + rewrite decide_False by (by intros []). eexists _, (-1). split; [done|]. split; [done|]. cbn. congruence.
Qed.
End opening.

(** [seek] of any open file to a position from 2^31 on stops the kernel: the position becomes a negative [off_t], and
    [file_seek] asserts that it is not. *)
Theorem seek_far_panics `{FreeMapOps} uninit (s : sys Fs.fs) fd f position : 0 ≤ fd < 256 →
  nthZ (open_files s) fd = Some (Some f) → 2147483648 ≤ position < 4294967296 →
  @seek Fs.fs (kernel_files uninit) fd position s = Err Panic.
Proof.
  intros Hfd Hf Hp. unfold seek. rewrite (bind_run _ _ _ _ _ (get_file_open s fd f Hfd Hf)).
  assert (s32 position < 0) as Hneg by (unfold s32; mlia).
  cbn. unfold on_files, on_vm, on_fs, zoom, File.file_seek, assertM, bind. cbn.
  rewrite bool_decide_eq_false_2 by lia. done.
Qed.

(** ** A process with a page of stack and an open file *)

(** Flat files, of which the first can be opened, as "a". *)
#[export] Instance flat_sys : SysFiles flat := {|
  sys_file_ops := flat_ops;
  filesys_create := λ _ _ _, ret false;
  filesys_open := λ path, if decide (path = [97]) then λ s, Ret (Some (length (handles s)), mkFlat (data s) (handles s ++ [(0%nat, 0)])) else ret None;
  filesys_remove := λ _, ret false;
  file_length := λ f, let! h := flat_handle f in gets (λ s, Z.of_nat (length (flat_bytes s h.1)));
  file_tell := λ f, let! h := flat_handle f in ret h.2;
  file_is_dir := λ _, ret false;
  file_inumber := λ f, let! h := flat_handle f in ret (Z.of_nat h.1);
  file_readdir := λ _, ret None;
  replace_pwd := λ _, ret tt;
|}.

Definition process_table : list (option nat) := [None; None; Some 0%nat] ++ replicate 253 None.
Definition stack_process : sys flat := mkSys grown process_table stack_top [] [].
(** The process that has mapped its file, and not looked at it yet. *)
Definition mapping_process : sys flat := mkSys mapped process_table stack_top [] [].

Lemma stack_process_runs : ∃ O D, running (4096 * boot_page) 1 small_areas pd1 {[ stack_page := 4096 ]} O D stack_process ∧
  ∀ w n, (n ≤ 8)%nat → buffer {[ stack_page := 4096 ]} D stack_process w stack_top n.
Proof.
  destruct stack_grown_full as (O & D & Hok & Hp & Hw). exists O, D. split; [by split|]. intros w n Hn i Hi.
  assert (stack_top = 3221225464 ∧ stack_page = 3221221376) as [Et Ep] by done. split.
  { rewrite Et. change PHYS_BASE with 3221225472. lia. }
  exists 4096, the_page. replace (4096 * ((stack_top + i) / 4096)) with stack_page by (rewrite Et, Ep; mlia).
  split; [apply lookup_singleton_eq|]. destruct grown_known as (Eg & _). cbn [machine stack_process]. rewrite Eg.
  split; [apply lookup_singleton_eq|]. split; [done|]. intros _. split; [|by intros []].
  unfold entry. replace (pagedir the_page / 4096) with pd1 by done. replace (vaddr the_page / 4096) with (stack_top / 4096) by done. exact Hw.
Qed.

Local Abbreviation ops := (@sys_file_ops flat flat_sys).
Lemma flat_file_opened : @opened flat ops flat_laws (fs (machine stack_process)) 0%nat ∧
  @position flat ops flat_laws (fs (machine stack_process)) 0%nat = 0 ∧ @file_bytes flat ops flat_laws (fs (machine stack_process)) 0%nat = [1; 2; 3].
Proof.
  assert (fs grown = mkFlat [[1; 2; 3]] [(0%nat, 0)]) as E by (by vm_compute). cbn [machine stack_process]. rewrite E. clear E.
  split; [|split; reflexivity]. exists 0%nat, 0, [1; 2; 3]. split; [done|]. split; [done|]. repeat constructor; done.
Qed.

(** Three bytes of the file, read into a buffer of five. *)
Lemma read_fills_buffer_witness : ∃ s', Syscall.read (4096 * boot_page) 300 1 stack_top 2 stack_top 5 stack_process = Ret (Value 3, s') ∧
  holds {[ stack_page := 4096 ]} s' stack_top [1; 2; 3].
Proof.
  destruct stack_process_runs as (O & D & Hs & Hb). destruct flat_file_opened as (Ho & Hpos & Hby).
  destruct (read_fills_buffer (4096 * boot_page) 300 1 stack_top small_areas pd1 {[ stack_page := 4096 ]} O D stack_process 2 0%nat stack_top 5 Hs) as
    (s' & Hrun & _ & Hh & _).
  - lia.
  - reflexivity.
  - exact Ho.
  - rewrite Hpos. lia.
  - lia.
  - apply Hb. lia.
  - rewrite Hpos, Hby in Hrun, Hh. exists s'. split; [exact Hrun|exact Hh].
Defined.

(** The buffer is of zeroes. *)
Lemma write_saves_buffer_witness : ∃ s' l, Syscall.write (4096 * boot_page) 300 1 stack_top 2 stack_top 2 stack_process = Ret (Value 2, s') ∧
  length l = 2%nat ∧ @file_bytes flat ops flat_laws (fs (machine s')) 0%nat = l ++ [3].
Proof.
  destruct stack_process_runs as (O & D & Hs & Hb). destruct flat_file_opened as (Ho & Hpos & Hby).
  destruct (write_saves_buffer (4096 * boot_page) 300 1 stack_top small_areas pd1 {[ stack_page := 4096 ]} O D stack_process 2 0%nat stack_top 2 Hs) as
    (s' & l & Hrun & _ & Hlen & _ & Hf & _).
  - lia.
  - reflexivity.
  - reflexivity.
  - exact Ho.
  - rewrite Hpos. lia.
  - lia.
  - apply Hb. lia.
  - rewrite Hpos, Hby. cbn. lia.
  - rewrite Hpos, Hby in Hf. exists s', l. split; [exact Hrun|]. split; [exact Hlen|]. rewrite Hf. unfold splice. rewrite Hlen. reflexivity.
Defined.

(** The page of the mapped file is not in memory, so the process may not write from it. *)
Lemma bad_pointers_kill_witness :
  Syscall.write (4096 * boot_page) 300 1 stack_top 1 map_addr 3 mapping_process = Ret (Exited (-1), mapping_process).
Proof.
  destruct mapped_ok as (O & Hok).
  refine (proj1 (proj2 (bad_pointers_kill (4096 * boot_page) 300 1 stack_top small_areas pd1 {[ map_addr := 8192 ]} O dirs1
    (λ _, ret (-1)) mapping_process 1 map_addr 0 3 0 (conj Hok mapped_process) _ _ _ _))).
  - intros i Hi. lia.
  - right. right. rewrite Z.add_0_r. split; [by vm_compute|]. split; [by vm_compute|]. left.
    replace (4096 * (map_addr / 4096)) with map_addr by (by vm_compute). exists 8192. apply lookup_singleton_eq.
  - lia.
  - by vm_compute.
Defined.

Lemma stack_process_table : table_ok stack_process.
Proof. reflexivity. Qed.
Lemma stack_process_descriptors : descriptor stack_process 2 = Some 0%nat ∧ descriptor stack_process 3 = None.
Proof. split; reflexivity. Qed.

(** Descriptor 3 is the first that is free, and closing 2 lets it go. *)
Lemma descriptors_refine_map_witness : thread_get_free_fd stack_process = Ret (3, stack_process) ∧ thread_get_file 2 stack_process = Ret (Some 0%nat, stack_process) ∧
  ∃ s', close 2 stack_process = Ret (0, s') ∧ descriptor s' 2 = None.
Proof.
  destruct (descriptors_refine_map stack_process stack_process_table) as (H1 & (fd & H2 & H3) & _ & H4 & _).
  split; [|split].
  - rewrite H2. assert (fd = 3) as ->; [|reflexivity].
    clear H1 H2 H4. destruct stack_process_descriptors as [E2 E3]. destruct (decide (fd = -1)).
    + exfalso. apply (H3 3); [lia|exact E3].
    + destruct H3 as (F1 & F2 & F3). destruct (decide (fd = 2)) as [E|]; [rewrite E, E2 in F2; discriminate F2|].
      destruct (decide (3 < fd)); [|lia]. exfalso. apply (F3 3); [lia|exact E3].
  - exact (H1 2).
  - destruct (H4 2 0%nat (fs (machine stack_process)) (proj1 stack_process_descriptors) eq_refl) as (s' & Hrun & [_ _ Hm]). exists s'. split; [exact Hrun|].
    rewrite Hm. reflexivity.
Defined.

(** The process writes "a" to its stack, and opens it. *)
Lemma open_takes_least_descriptor_witness : ∃ s s' fd,
  user_store_bytes (4096 * boot_page) 300 1 stack_top [97; 0] stack_top stack_process = Ret (tt, s) ∧
  Syscall.open (4096 * boot_page) 300 1 stack_top stack_top s = Ret (Value fd, s') ∧ least_free s fd ∧ descriptor s' fd = Some 1%nat.
Proof.
  destruct stack_process_runs as (O & D & Hs & Hb).
  destruct (user_store_bytes_ok (4096 * boot_page) 300 1 stack_top small_areas pd1 {[ stack_page := 4096 ]} O D [97; 0] stack_process stack_top Hs) as
    (s & Hrun & Haf & Hh & _).
  { apply Hb. cbn. lia. } { repeat constructor; unfold byte; lia. }
  assert (open_files s = process_table ∧ fs (machine s) = fs (machine stack_process)) as [Eo Ef].
  { destruct (after_kept _ _ _ _ _ _ _ _ _ Haf) as [E1 E2]. split; [rewrite E1; reflexivity|exact E2]. }
  assert (fs (machine stack_process) = mkFlat [[1; 2; 3]] [(0%nat, 0)]) as Eg by (by vm_compute).
  destruct (open_takes_least_descriptor (4096 * boot_page) 300 1 stack_top small_areas pd1 {[ stack_page := 4096 ]} O D s stack_top [97]
    (Some 1%nat) (mkFlat [[1; 2; 3]] [(0%nat, 0); (0%nat, 0)])) as (s' & fd & H1 & [(H2 & _ & H3)|(_ & H2 & _)]).
  - by eapply after_running.
  - unfold table_ok. rewrite Eo. reflexivity.
  - eapply buffer_after; [exact Haf|]. apply Hb. cbn. lia.
  - exact Hh.
  - intros E%list_elem_of_singleton. discriminate E.
  - cbn. by vm_compute.
  - rewrite Ef, Eg. reflexivity.
  - exists s, s', fd. split; [exact Hrun|]. split; [exact H1|]. split; [exact H2|]. rewrite H3. by rewrite decide_True.
  - exfalso. apply (H2 3); [lia|]. unfold descriptor. rewrite Eo. reflexivity.
Defined.
